(* ===== verification/_CoqProject ===== *)
-Q . S2P
Prelude.v
CStrings.v
HostUtils.v
Bitops.v
Bitmap.v
ByteStream.v
QemuFile.v
HostFile.v
Irq.v
GoldfishInt.v
GoldfishDevice.v
QemuTimer.v
GoldfishTimer.v
GoldfishEvents.v
MultiTouch.v
GoldfishBattery.v
I8259.v
Cbuffer.v
GoldfishTty.v
GemTrace.v
GuestMem.v
Block.v
BlockRaw.v
BlockSpec.v
Nand.v
NandSpec.v
Mmc.v
MmcSpec.v
Qemud.v
QemudMux.v
QemudSpec.v
QemudCalls.v
QemudFrames.v
QemudInv.v
QemudSnap.v
QemudChar.v
BootProps.v
GoldfishPipe.v
PipeServices.v
PingPong.v
PipeSpec.v
CodeProfile.v
GoldfishTrace.v
GsmText.v
GsmRope.v
SmsPdu.v
SmsDeliver.v
SmsReceiver.v
SimCard.v
RemoteCall.v
ModemCalls.v
Console.v
Emulators.v
AConfig.v
Modem.v
ModemDriver.v
ModemInv.v
SmsRoute.v
NandImage.v
