(* ===== verification/Prelude.v ===== *)
(** * The device layer of the GemDroid emulator

    GemDroid is the Android emulator (QEMU with the "goldfish" virtual
    hardware) instrumented to follow one guest process. This development
    models the C code between the guest's registers and the rest of the
    emulator: the goldfish devices, the services they stand on (interrupt
    lines, timers, snapshot files, access to guest memory, bit operations), the
    tracking and tracing of the guest's processes, and the calls and text
    messages between emulators. All paths are relative to src/GemDroid_QEMU.

    ** The parts of the program and their files

    A guest access to a device register calls the device's read or write
    handler. A handler changes the device's state, drives interrupt lines
    (hw/core/irq.c), arms timers (qemu-timer.c), exchanges bytes with guest
    memory, and for snapshots saves and loads its state through a QEMUFile
    (savevm.c). Devices get their address window and their lines from the
    device bus, and their lines end in an interrupt controller: the goldfish
    one on ARM and MIPS guests, a pair of 8259s on x86 guests. The console
    and trace devices feed the process tracker and the code profiler; the
    tracer records the blocks the tracked threads execute. The
    multi-touch screen turns a phone's touches into events of the events
    device. Text messages typed at the console or sent by another guest become
    PDUs (telephony/sms.c) the modem announces to the guest. The modem keeps
    the calls of the phone; a call or a message to the number of another
    emulator writes lines to that emulator's console, whose commands change its
    calls and announce the message. The guest talks to the modem by AT commands
    on a serial line; what has to outlive the emulator is in a settings file.

    - [Prelude]: machine integers ([wrap], [swrap] and the notations [u8] ...
      [s64]), bit operations, lemmas on lists, the tactics, and the [outcome]
      monad of code that can abort, exit, step out of bounds or overflow.
    - [CStrings]: strings and character arrays of C.
    - [HostUtils]: util/host-utils.c and include/qemu/host-utils.h.
    - [Bitops], [Bitmap]: include/qemu/bitops.h, util/bitops.c, util/bitmap.c.
    - [ByteStream]: the integers, strings and field tables of savevm.c
      ([qemu_put_be32], [qemu_put_struct], ...) over two interfaces, the
      classes [ByteWriter] and [ByteReader], with their laws [WriterLaws] and
      [ReaderLaws].
    - [QemuFile]: the QEMUFile of savevm.c, over any backend; under
      [ReliableSink] and [ReliableSource] it is an instance of those laws.
    - [Irq]: hw/core/irq.c and include/hw/irq.h. The class [IrqLines] is what
      a device may assume of the lines it is given: each has a level, and
      setting one changes that level alone.
    - [GoldfishInt]: hw/android/goldfish/interrupt.c; its lines are an
      instance of [IrqLines].
    - [GoldfishDevice]: hw/android/goldfish/device.c; the devices and their
      [next] links are an explicit store, since the bus updates them in place.
    - [QemuTimer]: the timer lists of qemu-timer.c.
    - [GoldfishTimer], [GoldfishEvents], [GoldfishBattery]: timer.c,
      events_device.c and battery.c of hw/android/goldfish.
    - [MultiTouch]: android/multitouch-screen.c and multitouch-port.c, with
      the event hook of android/user-events-qemu.c.
    - [I8259]: hw/intc/i8259.c.
    - [Cbuffer]: android/cbuffer.c.
    - [GoldfishTty]: hw/android/goldfish/tty.c with the process tracking
      state of gemdroid-tracer.c.
    - [GemTrace]: GemDroid's tracer in disas.c, called from cpu-exec.c: which
      threads are traced, the registers and instructions that are printed.
    - [GuestMem]: the access to guest memory from outside, of exec.c and
      hw/android/goldfish/vmem.c, which the tracer watches.
    - [HostFile]: files of the host and the system calls on them.
    - [Block]: the synchronous requests of block.c, over the class
      [BlockDriver] of what a driver provides; [BlockRaw]: the drivers of
      block/raw-posix.c and block/raw.c; [BlockSpec]: the laws [DriverLaws] of
      a driver, that both satisfy them, and what requests do then.
    - [Nand]: hw/android/goldfish/nand.c over files of the host, a client of
      [GuestMem]; [NandSpec]: the flat disks it implements, and snapshots.
    - [Mmc]: hw/android/goldfish/mmc.c, the SD card, a client of [GuestMem] and
      of any driver of [Block]; [MmcSpec]: what it does for its guest.
    - [Qemud], [QemudMux]: android/hw-qemud.c, the serial link to the guest's
      daemon, and the clients, services, control channel and pipes behind it;
      [QemudSpec], [QemudCalls], [QemudFrames]: streams in pieces
      ([StreamReader]), what calls leave alone, and messages end to end;
      [QemudInv]: the lists of clients and the pipes; [QemudSnap]: snapshots;
      [QemudChar]: the services that are character devices. Services are the
      class [QemudServices]; a callback gives the calls it makes as a list.
    - [BootProps]: android/boot-properties.c, a service of [Qemud].
    - [GoldfishPipe]: hw/android/goldfish/pipe.c, the device, its registers and
      the connector, over any services ([GoldfishPipeFuncs]); [PipeServices]:
      the services zero, pingpong and throttle of the same file; [PingPong]:
      the growing ring of pingpong is a queue; [PipeSpec]: the lists of pipes,
      wakes, and bytes through the device and back.
    - [CodeProfile]: hw/android/goldfish/profile.c.
    - [GoldfishTrace]: hw/android/goldfish/trace.c, a client of [CodeProfile].
    - [GsmText], [GsmRope]: telephony/gsm.c, the text encodings and phone-book
      records, and the byte buffers messages are collected in.
    - [SmsPdu]: telephony/sms.c up to the making of PDUs, and the modem's
      announcement of one.
    - [SmsDeliver]: what a phone reads in those PDUs, by a decoder written from
      3GPP 23.040 and 23.038, and the console command [sms send].
    - [SmsReceiver]: the receiver of the SMS-SUBMIT parts a guest sends, at the
      end of telephony/sms.c.
    - [SimCard]: telephony/sim_card.c and the AT commands that reach the card.
    - [RemoteCall]: telephony/remote_call.c, the numbers of emulators and the
      lines sent to their consoles.
    - [ModemCalls]: the calls of telephony/android_modem.c, their timers
      (telephony/sysdeps_qemu.c), the console's gsm commands, snapshots.
    - [Console]: the command interpreter of android/console.c.
    - [Emulators]: two emulators whose modems and consoles are connected.
    - [AConfig]: android/utils/aconfig-file.c, the configuration files.
    - [Modem]: the AT commands of telephony/android_modem.c and the modem's
      settings, which are kept in such a file.
    - [ModemDriver]: telephony/modem_driver.c, the modem's serial line.
    - [ModemInv]: the shape of the modem's tables under all commands.
    - [SmsRoute]: a text message on its way from the guest of one emulator to
      the guest of another, through [Modem], [SmsReceiver], [RemoteCall],
      [Console] and [SmsPdu].
    - [NandImage]: the arguments that describe NAND disks (nand.c, vl-android.c,
      android/utils/path.c).

    ** How the code is translated

    A struct is a Record with the members' names, a handler is a function
    from the state (and the world [W] the lines act on) to the new state, and
    composition follows the calls. Unsigned members hold values in range and
    signed ones their two's complement reading; wrap-around is written where
    the code can reach it. [cpu_abort], [hw_error] and [exit] are results:
    [None] where there is one way to fail, an [outcome] where there are more.
    An array access out of range, or to freed memory, is the [outcome]
    [OutOfBounds]. The virtual
    clock, the guest's memory, the host's time and callbacks are arguments.
    The guest word size TARGET_LONG_BITS is the argument [TL], the #ifdef
    TARGET_I386 the argument [target_i386]. Unsigned long has 64 bits and the
    host is little-endian. Memory allocation succeeds where the code uses
    g_malloc, which exits otherwise; [malloc] of the telephony files is an
    argument that can fail and whose memory holds anything ([Malloc]). What an
    uninitialised local variable holds is an argument as well.

    ** What the theorems show

    - Process tracking and tracing: a line of the top command that names the
      process makes the tracker follow that process, and from then on the trace
      holds each block its threads enter, with the registers that changed and
      the instructions, and nothing of other threads; the registers can be
      rebuilt from it. A long line overruns the line buffer, and many threads
      the table of all ids.
    - Guest memory and disks: access page by page is access to one flat memory;
      the NAND controller is a set of flat disks, whatever the sizes of buffers
      and pages; a snapshot restores them; the argument of a partition gives
      the disk asked for; a full host loses writes silently. Requests of the
      block layer act on a flat image with every driver that satisfies the
      laws; the SD card is a flat array of blocks and tells its capacity. A
      write to the end of a file leaks memory to it, and the card's line stays
      up for an interrupt that the guest has not enabled.
    - Refinement of abstract queues and maps: the event ring, the QEMUFile in
      both directions, the tty's input and the circular buffer are queues; the
      SMS receiver is a map from number and reference to parts; the events of
      the touch screen tell the guest which pointers are down, and where.
    - Qemud: the framed messages of a guest's client reach the service whole
      and in order, however the serial port cuts them; the lists of clients
      agree in every reachable state and hold no dangling pointer; a pipe is a
      queue of bytes; the link survives a snapshot. An empty frame hangs the
      emulator, and a packet that is too long cuts the port off. A client that
      asks for the boot properties gets each of them in order.
    - Pipes: in every reachable state the lists of open and of woken pipes agree
      and channels are distinct; a wake reaches the guest with its flags; the
      pingpong service is a queue of bytes however its buffer wraps and grows,
      and the guest reads back what it wrote. Closing the only woken pipe
      leaves the interrupt line up.
    - Calls: the table of calls stays consistent under every command and event;
      each release command acts on exactly the calls it names; a dialled call
      connects; between two emulators dialling, answering and hanging up take
      both phones through the same call, and the lines the consoles exchange
      come to an end. Three wrong PINs lock the card.
    - The modem: its tables keep their shape under every command; a line on the
      serial port is one command, however it is cut; the roaming preference
      survives a restart through the settings file, and any configuration tree
      of plain words survives being saved and loaded.
    - Invariants over all reachable states: what the interrupt controllers ask
      for, the armed flag of the timer against the timer list, the order of
      the timer list, the lines of the tty and of the events device, the
      framebuffer rectangle that waits for its transfer.
    - Liveness and termination: due timers fire and the run ends, an alarm
      raises its line, enumeration announces every device, the search for a
      free area ends at the first fit, ropes grow until they fit.
    - End to end: a message typed at the console, or sent by the guest of
      another emulator, is read by the receiving phone as it was written.
    - Behaviour of operations on all branches: sampling, mappings, allocation,
      deadlines, the 8259's acknowledge and end of interrupt, capability bits.
    - Round trips of encodings and snapshots, equivalences with reference
      definitions, errors and bounds. Those on overruns, lost characters and
      parts, stranded calls, reversed snapshots, settings in dead memory and a
      technology mask that aborts the emulator describe behaviour the code
      should not have.

    ** Fuel

    Loops that are not structural take fuel. The word scans get one more
    than the number of words of the bitmap, the area search one more than its
    size, the area updates two more than the number of full words, the buffer
    loops one more than the number of bytes, the chunk loop of the tty two
    more than the number of full chunks, the walks over the device list one
    more than the number of devices, the skipping of reserved lines three, the
    readers of UTF-8 text the number of its bytes, the growth of a rope the
    number of bytes that are missing, the walk over a user data header one
    more than its bytes, the loops over calls the number of slots, the console
    one more than the length of its line, the lexer of configuration files the
    length of the text, their parser one more, their writer one more than its
    bytes; the listing of a block one more than its size, the access to memory
    one more than the number of bytes, the transfers of the NAND one more than
    the length (reading twice the length and one more), the loops over a
    device's arguments one more than the length of the text, those through the
    aligned buffer of a file one more than the number of bytes, the halving of
    a card's capacity and the doubling of the pingpong buffer 64; the theorems are stated on the functions with that
    fuel and show the result, so it is enough. The circular buffer's loops
    return [None] when two runs are not enough, and two are shown to be. The
    run of the timers takes its fuel as an argument and its theorem says how
    much gives the result. The exchange between two emulators gets eight lines
    and is shown to end within them. The readers of the qemud link and of its
    frames get three rounds for each byte and three more, and are shown to
    return for well-formed input; a reader of frames takes further rounds as
    an argument, and [StillRunning] is its result when all are used up.

    ** Not modelled, and the plan

    Not modelled: code generation and execution (tcg, target-*, cputlb.c, of
    cpu-exec.c and exec.c all but what is named above), softfloat, of the block
    layer asynchronous requests, backing files and qcow2, the network stacks,
    the user interface, audio, the monitor and QAPI, and the vendored
    libraries; of qemu-timer.c the clocks, notifiers and locks; of savevm.c the section registry, VMState and the backends of a QEMUFile; of
    the multi-touch port the socket and the compression; of remote_call.c the
    socket events, a line goes out whole. The next steps would be the ARM
    interrupt controller (hw/arm/arm_gic.c) and the i8254 timer. *)
From stdpp Require Export base tactics numbers list option sets relations.
From Stdlib Require Export ZArith Lia Btauto.

#[global] Open Scope Z_scope.

(** ** Machine integers *)

(** A [w]-bit unsigned value is the residue modulo [2 ^ w]. *)
Definition wrap (w z : Z) : Z := z mod 2 ^ w.

(** The two's complement reading of a [w]-bit value. *)
Definition swrap (w z : Z) : Z :=
  let u := wrap w z in if u <? 2 ^ (w - 1) then u else u - 2 ^ w.

Abbreviation u8 := (wrap 8).
Abbreviation u16 := (wrap 16).
Abbreviation u32 := (wrap 32).
Abbreviation u64 := (wrap 64).
Abbreviation s8 := (swrap 8).
Abbreviation s16 := (swrap 16).
Abbreviation s32 := (swrap 32).
Abbreviation s64 := (swrap 64).

(** The ranges of the fixed-width types. *)
Definition in_u (w z : Z) : Prop := 0 <= z < 2 ^ w.
Definition in_s (w z : Z) : Prop := - 2 ^ (w - 1) <= z < 2 ^ (w - 1).

(** A C scalar as a condition. *)
Definition nz (z : Z) : bool := negb (z =? 0).

Declare Scope cint_scope.
Delimit Scope cint_scope with cint.
Infix ".<<" := Z.shiftl (at level 32, left associativity) : cint_scope.
Infix ".>>" := Z.shiftr (at level 32, left associativity) : cint_scope.
Infix ".&" := Z.land (at level 45, left associativity) : cint_scope.
Infix ".^" := Z.lxor (at level 47, left associativity) : cint_scope.
Infix ".|" := Z.lor (at level 48, left associativity) : cint_scope.
Notation ".~ x" := (Z.lnot x) (at level 30, right associativity) : cint_scope.
#[global] Open Scope cint_scope.

Lemma wrap_range w z : 0 <= w -> in_u w (wrap w z).
Proof. intros. unfold in_u, wrap. apply Z.mod_pos_bound. lia. Qed.

Lemma wrap_small w z : in_u w z -> wrap w z = z.
Proof. apply Z.mod_small. Qed.

Lemma wrap_wrap w z : wrap w (wrap w z) = wrap w z.
Proof. unfold wrap. apply Zmod_mod. Qed.

Lemma wrap_spec w z i : 0 <= w -> Z.testbit (wrap w z) i = (i <? w) && Z.testbit z i.
Proof. intros. unfold wrap. now apply Z.testbit_mod_pow2. Qed.

Lemma wrap_wrap_le v w z : 0 <= v <= w -> wrap v (wrap w z) = wrap v z.
Proof.
  intros. apply Z.bits_inj'. intros i Hi. rewrite !wrap_spec by lia.
  destruct (Z.ltb_spec i v); simpl; [|done].
  by rewrite (proj2 (Z.ltb_lt i w)) by lia.
Qed.

Lemma wrap_add_l w a b : wrap w (wrap w a + b) = wrap w (a + b).
Proof. unfold wrap. apply Zplus_mod_idemp_l. Qed.

Lemma wrap_add_r w a b : wrap w (a + wrap w b) = wrap w (a + b).
Proof. unfold wrap. apply Zplus_mod_idemp_r. Qed.

Lemma wrap_sub_l w a b : wrap w (wrap w a - b) = wrap w (a - b).
Proof. unfold wrap. apply Zminus_mod_idemp_l. Qed.

Lemma wrap_sub_r w a b : wrap w (a - wrap w b) = wrap w (a - b).
Proof. unfold wrap. apply Zminus_mod_idemp_r. Qed.

Lemma pow2_half w : 0 < w -> 2 ^ w = 2 * 2 ^ (w - 1).
Proof. intros. rewrite <- Z.pow_succ_r by lia. f_equal. lia. Qed.

Lemma swrap_range w z : 0 < w -> in_s w (swrap w z).
Proof.
  intros. unfold in_s, swrap. pose proof (wrap_range w z ltac:(lia)) as [? ?].
  rewrite (pow2_half w) in * by done. case_match; lia.
Qed.

Lemma swrap_small w z : 0 < w -> in_s w z -> swrap w z = z.
Proof.
  unfold in_s, swrap, wrap. intros Hw [H1 H2].
  pose proof (pow2_half w Hw) as E.
  assert (0 < 2 ^ (w - 1)) by lia.
  destruct (Z.lt_ge_cases z 0).
  - replace (z mod 2 ^ w) with (z + 2 ^ w).
    + case_match; lia.
    + apply (Z.mod_unique_pos _ _ (-1)); lia.
  - rewrite Z.mod_small by lia. case_match; lia.
Qed.

Lemma wrap_swrap w z : 0 < w -> wrap w (swrap w z) = wrap w z.
Proof.
  intros. unfold swrap. case_match; [apply wrap_wrap|].
  rewrite wrap_sub_l. unfold wrap.
  replace (z - 2 ^ w) with (z + (-1) * 2 ^ w) by lia. apply Z_mod_plus_full.
Qed.

Lemma swrap_wrap w z : 0 < w -> swrap w (wrap w z) = swrap w z.
Proof. intros. unfold swrap. by rewrite wrap_wrap. Qed.

Lemma swrap_wrap_id w z : 0 < w -> in_s w z -> swrap w (wrap w z) = z.
Proof. intros. rewrite swrap_wrap by done. by apply swrap_small. Qed.

Lemma nz_true z : nz z = true <-> z <> 0.
Proof. unfold nz. destruct (Z.eqb_spec z 0); simpl; intuition congruence. Qed.

Lemma nz_false z : nz z = false <-> z = 0.
Proof. unfold nz. destruct (Z.eqb_spec z 0); simpl; intuition congruence. Qed.

(** ** Bits *)

Lemma testbit_ge_range w z i : in_u w z -> 0 <= w <= i -> Z.testbit z i = false.
Proof.
  intros Hz Hi. rewrite <- (wrap_small w z Hz), wrap_spec by lia.
  by rewrite (proj2 (Z.ltb_ge i w)) by lia.
Qed.

Lemma in_u_testbit w z :
  0 <= w -> 0 <= z -> (forall i, w <= i -> Z.testbit z i = false) -> in_u w z.
Proof.
  intros Hw Hz Hb. enough (wrap w z = z) as <- by by apply wrap_range.
  apply Z.bits_inj'. intros i Hi. rewrite wrap_spec by done.
  destruct (Z.ltb_spec i w); simpl; [done|]. symmetry. by apply Hb.
Qed.

Lemma in_u_land w a b : 0 <= w -> in_u w a -> in_u w b -> in_u w (a .& b).
Proof.
  intros Hw Ha Hb. apply in_u_testbit; [done| |].
  - apply Z.land_nonneg. left. apply Ha.
  - intros i Hi. rewrite Z.land_spec, (testbit_ge_range w a) by (done || lia). done.
Qed.

Lemma in_u_land_l w a b : 0 <= w -> in_u w a -> in_u w (a .& b).
Proof.
  intros Hw Ha. apply in_u_testbit; [done| |].
  - apply Z.land_nonneg. left. apply Ha.
  - intros i Hi. rewrite Z.land_spec, (testbit_ge_range w a) by (done || lia). done.
Qed.

Lemma in_u_lor w a b : 0 <= w -> in_u w a -> in_u w b -> in_u w (a .| b).
Proof.
  intros Hw Ha Hb. apply in_u_testbit; [done| |].
  - apply Z.lor_nonneg. split; [apply Ha | apply Hb].
  - intros i Hi. rewrite Z.lor_spec, (testbit_ge_range w a), (testbit_ge_range w b) by (done || lia). done.
Qed.

Lemma in_u_pow2 w i : 0 <= i < w -> in_u w (2 ^ i).
Proof. intros. split; [lia|]. apply Z.pow_lt_mono_r; lia. Qed.

Lemma shiftl_1_testbit i j : 0 <= i -> Z.testbit (1 .<< i) j = (i =? j).
Proof. intros. rewrite Z.shiftl_1_l. destruct (Z.eqb_spec i j) as [->|]; [by apply Z.pow2_bits_true | by apply Z.pow2_bits_false]. Qed.

(** [z .& (1 .<< i)] tests bit [i]. *)
Lemma nz_land_bit z i : 0 <= i -> nz (z .& (1 .<< i)) = Z.testbit z i.
Proof.
  intros Hi. destruct (Z.testbit z i) eqn:E.
  - apply nz_true. intros H. assert (Z.testbit (z .& (1 .<< i)) i = false) as H'.
    { rewrite H. apply Z.bits_0. }
    rewrite Z.land_spec, shiftl_1_testbit, Z.eqb_refl, E in H' by done. done.
  - apply nz_false. apply Z.bits_inj'. intros j Hj.
    rewrite Z.land_spec, shiftl_1_testbit, Z.bits_0 by done.
    destruct (Z.eqb_spec i j) as [<-|]; [by rewrite E | by rewrite andb_false_r].
Qed.

Lemma nz_testbit_exists z : 0 <= z -> nz z = true -> exists i, 0 <= i /\ Z.testbit z i = true.
Proof.
  intros Hz H%nz_true. exists (Z.log2 z). split; [apply Z.log2_nonneg|]. apply Z.bit_log2. lia.
Qed.

Lemma testbit_nz z i : Z.testbit z i = true -> nz z = true.
Proof. intros H. apply nz_true. intros ->. by rewrite Z.bits_0 in H. Qed.

Lemma zero_by_bits z : (forall i, 0 <= i -> Z.testbit z i = false) -> z = 0.
Proof. intros H. apply Z.bits_inj'. intros i Hi. rewrite Z.bits_0. by apply H. Qed.

(** ** Proof automation for bit-level equalities *)

Lemma pow2_testbit n i : 0 <= n -> Z.testbit (2 ^ n) i = (n =? i).
Proof.
  intros. destruct (Z.eqb_spec n i) as [->|]; [by apply Z.pow2_bits_true | by apply Z.pow2_bits_false].
Qed.

Lemma m1_testbit i : 0 <= i -> Z.testbit (-1) i = true.
Proof. apply Z.bits_m1. Qed.

Create Rewrite HintDb zbits.
#[export] Hint Rewrite Z.land_spec Z.lor_spec Z.lxor_spec Z.ldiff_spec Z.bits_0 : zbits.
#[export] Hint Rewrite Z.lnot_spec wrap_spec Z.shiftl_spec Z.shiftr_spec pow2_testbit
  shiftl_1_testbit m1_testbit Z.testbit_ones_nonneg using lia : zbits.

(** Decide every comparison left in a goal about bits. *)
Ltac zbits_cases :=
  repeat match goal with
  | |- context [?a <? ?b] => destruct (Z.ltb_spec a b); try lia; simpl
  | |- context [?a <=? ?b] => destruct (Z.leb_spec a b); try lia; simpl
  | |- context [?a =? ?b] => destruct (Z.eqb_spec a b); try lia; simpl
  | |- context [Z.testbit ?z ?i] => rewrite (Z.testbit_neg_r z i) by lia
  | |- context [Z.testbit (-1) ?m] => rewrite (m1_testbit m) by lia
  | |- context [Z.testbit (-1) ?m] => destruct (Z.le_gt_cases 0 m)
  | |- context [Z.testbit (Z.shiftl _ _) ?m] => destruct (Z.le_gt_cases 0 m); autorewrite with zbits
  | |- context [Z.testbit (Z.shiftr _ _) ?m] => destruct (Z.le_gt_cases 0 m); autorewrite with zbits
  | |- context [Z.testbit (Z.lnot _) ?m] => destruct (Z.le_gt_cases 0 m); autorewrite with zbits
  end.

Ltac zbits_norm := autorewrite with zbits.

(** Identify bit positions that are equal as integers. *)
Ltac zbits_unify :=
  repeat match goal with
  | |- context [Z.testbit ?z ?a] =>
      match goal with
      | |- context [Z.testbit z ?b] =>
          lazymatch b with context [a] => fail | _ => replace a with b by lia end
      end
  end.

(** Two integers with the same bits are equal. *)
Ltac zbits :=
  apply Z.bits_inj'; let i := fresh "i" in let Hi := fresh "Hi" in
  intros i Hi; zbits_norm; zbits_cases; zbits_unify; try btauto.

(** ** How C code ends *)

(** A call returns, aborts the emulator ([cpu_abort], a failed [assert]),
    leaves it with [exit], steps outside of an object or leaves the range of
    a signed integer; C gives no meaning to the rest of the last two. A loop
    that need not end is still running when its fuel is used up. *)
Inductive outcome (A : Type) : Type :=
| Ret (a : A)
| CpuAbort
| ExitProcess
| OutOfBounds
| SignedOverflow
| StillRunning.
Arguments Ret {A} a.
Arguments CpuAbort {A}.
Arguments ExitProcess {A}.
Arguments OutOfBounds {A}.
Arguments SignedOverflow {A}.
Arguments StillRunning {A}.

#[export] Instance outcome_ret : MRet outcome := @Ret.
#[export] Instance outcome_bind : MBind outcome := fun A B f m =>
  match m with
  | Ret a => f a
  | CpuAbort => CpuAbort
  | ExitProcess => ExitProcess
  | OutOfBounds => OutOfBounds
  | SignedOverflow => SignedOverflow
  | StillRunning => StillRunning
  end.
#[export] Instance outcome_fmap : FMap outcome := fun A B f m => m ≫= (fun a => Ret (f a)).

(** An error number of the host. *)
Definition EINVAL : Z := 22.

(** [None] of an operation that aborts. *)
Definition or_abort {A} (o : option A) : outcome A :=
  match o with Some a => Ret a | None => CpuAbort end.

Lemma bind_Ret {A B} (m : outcome A) (f : A -> outcome B) b :
  m ≫= f = Ret b <-> exists a, m = Ret a /\ f a = Ret b.
Proof. split; [destruct m; naive_solver|by intros (a & -> & ?)]. Qed.

Lemma or_abort_Ret {A} (o : option A) a : or_abort o = Ret a <-> o = Some a.
Proof. destruct o; naive_solver. Qed.

Lemma outcome_bind_assoc {A B D} (m : outcome A) (f : A -> outcome B) (g : B -> outcome D) :
  (m ≫= f) ≫= g = m ≫= (fun a => f a ≫= g).
Proof. by destruct m. Qed.

(** A loop whose body can end the program. *)
Fixpoint foldM {A B} (f : B -> A -> outcome B) (b : B) (l : list A) : outcome B :=
  match l with
  | [] => Ret b
  | a :: l => b' ← f b a; foldM f b' l
  end.

Lemma foldM_app {A B} (f : B -> A -> outcome B) b l1 l2 :
  foldM f b (l1 ++ l2) = b' ← foldM f b l1; foldM f b' l2.
Proof.
  revert b. induction l1 as [|a l1 IH]; intros b; simpl; [done|].
  destruct (f b a); simpl; auto.
Qed.

(** An invariant of the body is one of the loop. *)
Lemma foldM_inv {A B} (P : B -> Prop) (f : B -> A -> outcome B) l b b' :
  (forall b a b', P b -> f b a = Ret b' -> P b') -> P b -> foldM f b l = Ret b' -> P b'.
Proof.
  intros Hf. revert b. induction l as [|a l IH]; intros b Hb; simpl; [by intros [= <-]|].
  intros (b1 & H1 & H2)%bind_Ret. eauto.
Qed.
