(* ===== verification/CStrings.v ===== *)
(** C strings: bytes up to a zero. *)
From stdpp Require Import strings.
From S2P Require Import Prelude.
Open Scope list_scope.

Definition chars (s : string) : list Z := (fun a => Z.of_nat (Ascii.nat_of_ascii a)) <$> String.list_ascii_of_string s.

(** The string that starts the buffer. *)
Fixpoint cstr (l : list Z) : list Z :=
  match l with
  | [] => []
  | c :: l => if c =? 0 then [] else c :: cstr l
  end.

(** [strncpy(dst, src, n)]: the string, and zeros up to [n]. *)
Definition strncpy (dst src : list Z) (n : nat) : list Z :=
  take n (src ++ replicate n 0) ++ drop n dst.

(** [memcpy(dst, src, n); dst[n] = 0] for all of [src]. *)
Definition store_string (dst src : list Z) : list Z := src ++ 0 :: drop (S (length src)) dst.

Definition hexdigit (v : Z) : Z := if v <? 10 then 48 + v else 87 + v.

(** [%x], of as many digits as there is fuel. *)
Fixpoint hex_loop (fuel : nat) (v : Z) : list Z :=
  match fuel with
  | O => []
  | S fuel => if v <? 16 then [hexdigit v] else hex_loop fuel (v .>> 4) ++ [hexdigit (v .& 15)]
  end.

Definition no_nul (l : list Z) : Prop := Forall (fun c => c <> 0) l.

Lemma cstr_app l r : no_nul l -> cstr (l ++ r) = l ++ cstr r.
Proof.
  unfold no_nul. induction 1 as [|c l Hc _ IH]; [done|]. cbn [app cstr].
  rewrite (proj2 (Z.eqb_neq c 0)) by done. by rewrite IH.
Qed.

Lemma cstr_nul l r : no_nul l -> cstr (l ++ 0 :: r) = l.
Proof. intros Hl. rewrite cstr_app by done. cbn. apply app_nil_r. Qed.

Lemma cstr_no_nul l : no_nul (cstr l).
Proof. unfold no_nul. induction l as [|c l IH]; [done|]. cbn. destruct (Z.eqb_spec c 0); [done|by constructor]. Qed.

Lemma cstr_store dst src : no_nul src -> cstr (store_string dst src) = src.
Proof. apply cstr_nul. Qed.

Lemma length_store_string dst src : (length src < length dst)%nat -> length (store_string dst src) = length dst.
Proof. intros. unfold store_string. rewrite length_app. cbn [length]. rewrite length_drop. lia. Qed.

Lemma length_strncpy dst src n : (n <= length dst)%nat -> length (strncpy dst src n) = length dst.
Proof. intros. unfold strncpy. rewrite length_app, length_take, length_app, length_replicate, length_drop. lia. Qed.

(** A string that fills the buffer up to its last byte, a zero. *)
Lemma cstr_strncpy dst src n : no_nul src -> length src = n -> drop n dst = [0] -> cstr (strncpy dst src n) = src.
Proof. intros Hs Hl Hd. unfold strncpy. rewrite Hd, take_app_length' by done. by apply cstr_nul. Qed.
