(* ===== verification/HostUtils.v ===== *)
(** Host arithmetic helpers: util/host-utils.c (64x64 -> 128 multiplication)
    and the portable bit counting routines of include/qemu/host-utils.h
    (the code used when the compiler has no builtin), on which util/bitops.c
    is built. *)
From S2P Require Import Prelude.

(** ** 64x64 -> 128 bit multiplication *)

(** The two 32-bit halves of the union [LL]. *)
Definition LL_low (ll : Z) : Z := u32 ll.
Definition LL_high (ll : Z) : Z := u32 (ll .>> 32).
Definition LL_make (high low : Z) : Z := (high .<< 32) .| low.

(** [mul64] returns the pair [( *plow, *phigh )]. *)
Definition mul64 (a b : Z) : Z * Z :=
  let rl := u64 (LL_low a * LL_low b) in
  let rm := u64 (LL_low a * LL_high b) in
  let rn := u64 (LL_high a * LL_low b) in
  let rh := u64 (LL_high a * LL_high b) in
  let c := u64 (LL_high rl + LL_low rm + LL_low rn) in
  let rl := LL_make (u32 c) (LL_low rl) in
  let c := c .>> 32 in
  let c := u64 (c + LL_high rm + LL_high rn + LL_low rh) in
  let rh := LL_make (LL_high rh) (u32 c) in
  let rh := LL_make (u32 (LL_high rh + u32 (c .>> 32))) (LL_low rh) in
  (rl, rh).

Definition mulu64 (a b : Z) : Z * Z := mul64 a b.

(** [a] and [b] are [int64_t]; the calls of [mul64] convert them. *)
Definition muls64 (a b : Z) : Z * Z :=
  let '(plow, rh) := mul64 (u64 a) (u64 b) in
  let rh := if b <? 0 then u64 (rh - a) else rh in
  let rh := if a <? 0 then u64 (rh - b) else rh in
  (plow, rh).

(** ** Counting leading and trailing zeros *)

Definition clz32 (val : Z) : Z :=
  let cnt := 0 in
  let '(cnt, val) := if negb (nz (val .& 0xFFFF0000)) then (cnt + 16, u32 (val .<< 16)) else (cnt, val) in
  let '(cnt, val) := if negb (nz (val .& 0xFF000000)) then (cnt + 8, u32 (val .<< 8)) else (cnt, val) in
  let '(cnt, val) := if negb (nz (val .& 0xF0000000)) then (cnt + 4, u32 (val .<< 4)) else (cnt, val) in
  let '(cnt, val) := if negb (nz (val .& 0xC0000000)) then (cnt + 2, u32 (val .<< 2)) else (cnt, val) in
  let '(cnt, val) := if negb (nz (val .& 0x80000000)) then (cnt + 1, u32 (val .<< 1)) else (cnt, val) in
  if negb (nz (val .& 0x80000000)) then cnt + 1 else cnt.

Definition clz64 (val : Z) : Z :=
  let '(cnt, val) := if negb (nz (val .>> 32)) then (32, val) else (0, val .>> 32) in
  cnt + clz32 (u32 val).

Definition ctz32 (val : Z) : Z :=
  let cnt := 0 in
  let '(cnt, val) := if negb (nz (val .& 0x0000FFFF)) then (cnt + 16, val .>> 16) else (cnt, val) in
  let '(cnt, val) := if negb (nz (val .& 0x000000FF)) then (cnt + 8, val .>> 8) else (cnt, val) in
  let '(cnt, val) := if negb (nz (val .& 0x0000000F)) then (cnt + 4, val .>> 4) else (cnt, val) in
  let '(cnt, val) := if negb (nz (val .& 0x00000003)) then (cnt + 2, val .>> 2) else (cnt, val) in
  let '(cnt, val) := if negb (nz (val .& 0x00000001)) then (cnt + 1, val .>> 1) else (cnt, val) in
  if negb (nz (val .& 0x00000001)) then cnt + 1 else cnt.

Definition ctz64 (val : Z) : Z :=
  let '(cnt, val) := if negb (nz (u32 val)) then (32, val .>> 32) else (0, val) in
  cnt + ctz32 (u32 val).

(** Leading and trailing ones. *)
Definition clo32 (val : Z) : Z := clz32 (u32 (.~ val)).
Definition clo64 (val : Z) : Z := clz64 (u64 (.~ val)).
Definition cto32 (val : Z) : Z := ctz32 (u32 (.~ val)).
Definition cto64 (val : Z) : Z := ctz64 (u64 (.~ val)).

(** [unsigned long] is 64 bits wide on the LP64 hosts. *)
Definition ctzl (val : Z) : Z := ctz64 val.
Definition clzl (val : Z) : Z := clz64 val.

(** ** Correctness of the multiplication *)

Lemma LL_low_div a : LL_low a = a mod 2 ^ 32.
Proof. done. Qed.

Lemma LL_high_div a : in_u 64 a -> LL_high a = a / 2 ^ 32.
Proof.
  intros [? ?]. unfold LL_high, wrap. rewrite Z.shiftr_div_pow2 by lia.
  apply Z.mod_small. split; [apply Z.div_pos; lia|].
  apply Z.div_lt_upper_bound; lia.
Qed.

Lemma LL_make_add h l : 0 <= h -> in_u 32 l -> LL_make h l = h * 2 ^ 32 + l.
Proof.
  intros Hh Hl. unfold LL_make. rewrite <- Z.lxor_lor, <- Z.add_nocarry_lxor; [by rewrite Z.shiftl_mul_pow2 by lia| |].
  all: apply Z.bits_inj'; intros i Hi; zbits_norm.
  all: destruct (Z.ltb_spec i 32); [rewrite Z.testbit_neg_r by lia; done|].
  all: rewrite (testbit_ge_range 32 l) by (done || lia); apply andb_false_r.
Qed.

(** Splitting a 64-bit value into its halves. *)
Lemma LL_split a : in_u 64 a -> exists h l, a = h * 2 ^ 32 + l /\ in_u 32 h /\ in_u 32 l
  /\ LL_high a = h /\ LL_low a = l.
Proof.
  intros Ha. exists (LL_high a), (LL_low a). rewrite (LL_high_div a Ha), LL_low_div.
  destruct Ha as [? ?]. unfold in_u.
  pose proof (Z.div_mod a (2 ^ 32) ltac:(lia)). pose proof (Z.mod_pos_bound a (2 ^ 32) ltac:(lia)).
  repeat split; try lia; nia.
Qed.

Lemma mul_bound a b w : 0 <= w -> in_u w a -> in_u w b -> 0 <= a * b <= (2 ^ w - 1) * (2 ^ w - 1).
Proof. unfold in_u. nia. Qed.

Lemma mul64_exact a b : in_u 64 a -> in_u 64 b ->
  let '(lo, hi) := mul64 a b in in_u 64 lo /\ in_u 64 hi /\ hi * 2 ^ 64 + lo = a * b.
Proof.
  intros Ha Hb. pose proof (mul_bound a b 64 ltac:(lia) Ha Hb) as HB.
  destruct (LL_split a Ha) as (ah & al & Ea & Hah & Hal & Eah & Eal).
  destruct (LL_split b Hb) as (bh & bl & Eb & Hbh & Hbl & Ebh & Ebl).
  unfold mul64. rewrite Eah, Eal, Ebh, Ebl. clear Eah Eal Ebh Ebl.
  pose proof (mul_bound al bl 32 ltac:(lia) Hal Hbl).
  pose proof (mul_bound al bh 32 ltac:(lia) Hal Hbh).
  pose proof (mul_bound ah bl 32 ltac:(lia) Hah Hbl).
  pose proof (mul_bound ah bh 32 ltac:(lia) Hah Hbh).
  assert (a * b = ah * bh * 2 ^ 64 + (ah * bl + al * bh) * 2 ^ 32 + al * bl) as E by (subst; ring).
  rewrite E in *. clear Ea Eb E Ha Hb.
  set (ll := al * bl) in *. set (lh := al * bh) in *. set (hl := ah * bl) in *. set (hh := ah * bh) in *.
  rewrite !(wrap_small 64) with (z := ll), !(wrap_small 64) with (z := lh),
    !(wrap_small 64) with (z := hl), !(wrap_small 64) with (z := hh) by (unfold in_u; lia).
  destruct (LL_split ll) as (llh & lll & Ell & ? & ? & -> & ->); [unfold in_u; lia|].
  destruct (LL_split lh) as (lhh & lhl & Elh & ? & ? & -> & ->); [unfold in_u; lia|].
  destruct (LL_split hl) as (hlh & hll & Ehl & ? & ? & -> & ->); [unfold in_u; lia|].
  destruct (LL_split hh) as (hhh & hhl & Ehh & ? & ? & -> & ->); [unfold in_u; lia|].
  unfold in_u in *.
  rewrite (wrap_small 64 (llh + lhl + hll)) by (unfold in_u; lia).
  destruct (LL_split (llh + lhl + hll)) as (ch & cl & Ec & ? & ? & Ech & Ecl); [unfold in_u; lia|].
  unfold in_u in *.
  rewrite (LL_high_div (llh + lhl + hll)) in Ech by (unfold in_u; lia).
  rewrite Z.shiftr_div_pow2, Ech by lia. unfold LL_low in Ecl. rewrite Ecl.
  rewrite (wrap_small 64 (ch + lhh + hlh + hhl)) by (unfold in_u; lia).
  destruct (LL_split (ch + lhh + hlh + hhl)) as (dh & dl & Ed & ? & ? & Edh & Edl); [unfold in_u; lia|].
  unfold in_u in *.
  fold (LL_high (ch + lhh + hlh + hhl)) (LL_low (ch + lhh + hlh + hhl)). rewrite Edh, Edl.
  rewrite (LL_make_add hhh dl) by (unfold in_u; lia).
  destruct (LL_split (hhh * 2 ^ 32 + dl)) as (eh & el & Ee & ? & ? & -> & ->); [unfold in_u; lia|].
  unfold in_u in *. assert (eh = hhh /\ el = dl) as [-> ->] by lia.
  rewrite (wrap_small 32 (hhh + dh)) by (unfold in_u; lia).
  rewrite !LL_make_add by (unfold in_u; lia). lia.
Qed.

Lemma u64_signed a : in_s 64 a -> u64 a = if a <? 0 then a + 2 ^ 64 else a.
Proof.
  unfold in_s, wrap. intros [? ?]. destruct (Z.ltb_spec a 0).
  - symmetry. apply (Z.mod_unique_pos _ _ (-1)); lia.
  - apply Z.mod_small; lia.
Qed.

(** A value congruent to a signed one reads back as it. *)
Lemma swrap_congr w z q k : 0 < w -> in_s w q -> z = q + k * 2 ^ w -> swrap w z = q.
Proof.
  intros Hw Hq ->. rewrite <- (swrap_wrap w (q + _)) by done.
  unfold wrap. rewrite Z_mod_plus_full. by apply swrap_wrap_id.
Qed.

Lemma muls64_exact a b : in_s 64 a -> in_s 64 b ->
  let '(lo, hi) := muls64 a b in
  in_u 64 lo /\ in_u 64 hi /\ s64 hi * 2 ^ 64 + lo = a * b.
Proof.
  intros Ha Hb. unfold muls64.
  pose proof (mul64_exact (u64 a) (u64 b) ltac:(by apply wrap_range) ltac:(by apply wrap_range)) as HM.
  destruct (mul64 (u64 a) (u64 b)) as [lo hi]. destruct HM as (Hlo & Hhi & E).
  rewrite (u64_signed a), (u64_signed b) in E by done.
  unfold in_s, in_u in *.
  assert (- 2 ^ 126 <= a * b <= 2 ^ 126) by nia.
  assert (exists q, a * b = q * 2 ^ 64 + lo) as [q Eq].
  { exists (hi - (if b <? 0 then a else 0) - (if a <? 0 then b else 0)
            - (if a <? 0 then if b <? 0 then 2 ^ 64 else 0 else 0)).
    destruct (a <? 0), (b <? 0); lia. }
  assert (in_s 64 q) as Hq by (unfold in_s; lia).
  split; [done|]. split.
  { repeat case_match; by (apply wrap_range || done). }
  rewrite Eq. f_equal. f_equal.
  destruct (Z.ltb_spec a 0), (Z.ltb_spec b 0); rewrite ?wrap_sub_l, ?swrap_wrap by lia;
    (eapply swrap_congr; [lia | done |]).
  - instantiate (1 := 1). lia.
  - instantiate (1 := 0). lia.
  - instantiate (1 := 0). lia.
  - instantiate (1 := 0). lia.
Qed.

(** ** Correctness of the bit counts *)

(** [n] is the position of the lowest, respectively highest, set bit. *)
Definition lowest_bit (val n : Z) : Prop :=
  0 <= n /\ Z.testbit val n = true /\ forall i, 0 <= i < n -> Z.testbit val i = false.
Definition highest_bit (val n : Z) : Prop :=
  0 <= n /\ Z.testbit val n = true /\ forall i, n < i -> Z.testbit val i = false.

(** One halving step of [ctz32]: [val] is [v0] shifted right by [cnt], and a
    set bit of [v0] is known to lie in the next [2 * k] positions. *)
Definition ctz_inv (v0 k cnt val : Z) : Prop :=
  0 <= cnt /\ val = v0 .>> cnt /\ (forall i, 0 <= i < cnt -> Z.testbit v0 i = false)
  /\ exists j, 0 <= j < k /\ Z.testbit val j = true.

Lemma land_ones_zero v k : 0 <= k -> v .& Z.ones k = 0 <-> forall i, 0 <= i < k -> Z.testbit v i = false.
Proof.
  intros Hk. split.
  - intros H i Hi. assert (Z.testbit (v .& Z.ones k) i = false) as Hb by (rewrite H; apply Z.bits_0).
    revert Hb. zbits_norm. zbits_cases. by rewrite andb_true_r.
  - intros H. apply zero_by_bits. intros i Hi. zbits_norm. zbits_cases.
    by rewrite H by lia.
Qed.

Lemma ctz_step v0 k cnt val mask : 0 < k -> mask = Z.ones k -> ctz_inv v0 (2 * k) cnt val ->
  let '(cnt', val') := if negb (nz (val .& mask)) then (cnt + k, val .>> k) else (cnt, val) in
  ctz_inv v0 k cnt' val'.
Proof.
  intros Hk -> (Hc & -> & Hlow & j & Hj & Hbit). destruct (nz _) eqn:E; simpl.
  - repeat split; [done..|]. apply nz_true in E.
    destruct (nz_testbit_exists ((v0 .>> cnt) .& Z.ones k)) as (i & Hi & Hb).
    { apply Z.land_nonneg. right. rewrite Z.ones_equiv. lia. }
    { by apply nz_true. }
    revert Hb. zbits_norm. zbits_cases.
    rewrite andb_true_r. intros. exists i. zbits_norm. done.
  - apply nz_false in E. rewrite land_ones_zero in E by lia.
    assert (k <= j) by (destruct (Z.le_gt_cases k j); [done|]; rewrite E in Hbit by lia; done).
    split; [lia|]. split; [by rewrite Z.shiftr_shiftr by lia|]. split.
    + intros i Hi. destruct (Z.lt_ge_cases i cnt); [apply Hlow; lia|].
      specialize (E (i - cnt) ltac:(lia)). revert E. zbits_norm. by replace (i - cnt + cnt) with i by lia.
    + exists (j - k). split; [lia|]. revert Hbit. zbits_norm.
      by replace (j - k + k + cnt) with (j + cnt) by lia.
Qed.

Lemma ctz32_correct val : in_u 32 val -> val <> 0 -> lowest_bit val (ctz32 val).
Proof.
  intros Hv Hnz. unfold ctz32.
  assert (ctz_inv val 32 0 val) as H.
  { split; [lia|]. split; [by rewrite Z.shiftr_0_r|]. split; [lia|].
    destruct (nz_testbit_exists val) as (i & Hi & Hb); [apply Hv | by apply nz_true|].
    exists i. split; [|done]. destruct (Z.lt_ge_cases i 32); [lia|].
    rewrite (testbit_ge_range 32) in Hb by (done || lia). done. }
  apply (ctz_step _ 16 _ _ 0xFFFF) in H; [|lia|done]. destruct (if negb _ then _ else _) as [c1 v1].
  apply (ctz_step _ 8 _ _ 0xFF) in H; [|lia|done]. destruct (if negb _ then _ else _) as [c2 v2].
  apply (ctz_step _ 4 _ _ 0xF) in H; [|lia|done]. destruct (if negb _ then _ else _) as [c3 v3].
  apply (ctz_step _ 2 _ _ 0x3) in H; [|lia|done]. destruct (if negb _ then _ else _) as [c4 v4].
  apply (ctz_step _ 1 _ _ 0x1) in H; [|lia|done]. destruct (if negb _ then _ else _) as [c5 v5].
  destruct H as (? & -> & Hlow & j & Hj & Hb). assert (j = 0) as -> by lia.
  change 0x1 with (1 .<< 0). rewrite nz_land_bit, Hb by lia. simpl.
  split; [done|]. split; [|done]. revert Hb. by zbits_norm.
Qed.

Lemma ctz32_zero : ctz32 0 = 32.
Proof. done. Qed.

Lemma u32_zero_bits val i : u32 val = 0 -> 0 <= i < 32 -> Z.testbit val i = false.
Proof.
  intros H Hi. assert (Z.testbit (u32 val) i = false) as Hb by (rewrite H; apply Z.bits_0).
  revert Hb. zbits_norm. zbits_cases. done.
Qed.

Lemma lowest_bit_u32 val n : n < 32 -> lowest_bit (u32 val) n -> lowest_bit val n.
Proof.
  intros Hn (H0 & Hb & Hl). split; [done|]. revert Hb. zbits_norm. zbits_cases. intros Hb.
  split; [done|]. intros i Hi. specialize (Hl i Hi). revert Hl. zbits_norm. by zbits_cases.
Qed.

Lemma lowest_bit_lt w val n : 0 <= w -> in_u w val -> lowest_bit val n -> n < w.
Proof.
  intros Hw Hv (H0 & Hb & _). destruct (Z.lt_ge_cases n w); [done|].
  rewrite (testbit_ge_range w) in Hb by (done || lia). done.
Qed.

Lemma ctz64_correct val : in_u 64 val -> val <> 0 -> lowest_bit val (ctz64 val).
Proof.
  intros Hv Hnz. unfold ctz64. destruct (nz (u32 val)) eqn:E; simpl.
  - apply nz_true in E. pose proof (ctz32_correct (u32 val) ltac:(by apply wrap_range) E) as H.
    apply lowest_bit_u32; [|done]. eapply lowest_bit_lt; [| |exact H]; [lia | by apply wrap_range].
  - apply nz_false in E. assert (in_u 32 (val .>> 32)) as Hr.
    { split; rewrite Z.shiftr_div_pow2 by lia; [apply Z.div_pos; [apply Hv|lia]|].
      apply Z.div_lt_upper_bound; [lia|]. apply Hv. }
    rewrite (wrap_small 32 (val .>> 32)) by done.
    assert (val .>> 32 <> 0) as Hr0.
    { intros H. apply Hnz. apply zero_by_bits. intros i Hi.
      destruct (Z.lt_ge_cases i 32); [by apply u32_zero_bits; [|lia]|].
      assert (Z.testbit (val .>> 32) (i - 32) = false) as Hb by (rewrite H; apply Z.bits_0).
      revert Hb. zbits_norm. by replace (i - 32 + 32) with i by lia. }
    destruct (ctz32_correct _ Hr Hr0) as (H0 & Hb & Hl). split; [lia|]. split.
    + revert Hb. zbits_norm. by rewrite (Z.add_comm 32).
    + intros i Hi. destruct (Z.lt_ge_cases i 32); [by apply u32_zero_bits; [|lia]|].
      specialize (Hl (i - 32) ltac:(lia)). revert Hl. zbits_norm. by replace (i - 32 + 32) with i by lia.
Qed.

(** The mirrored invariant of [clz32]. *)
Definition clz_inv (v0 k cnt val : Z) : Prop :=
  0 <= cnt < 32 /\ val = u32 (v0 .<< cnt) /\ (forall i, 32 - cnt <= i -> Z.testbit v0 i = false)
  /\ exists j, 32 - k <= j < 32 /\ Z.testbit val j = true.

Lemma land_top_zero v k : 0 < k <= 32 -> in_u 32 v ->
  v .& (Z.ones k .<< (32 - k)) = 0 <-> forall i, 32 - k <= i -> Z.testbit v i = false.
Proof.
  intros Hk Hv. split.
  - intros H i Hi. destruct (Z.lt_ge_cases i 32); [|by apply (testbit_ge_range 32); [|lia]].
    assert (Z.testbit (v .& (Z.ones k .<< (32 - k))) i = false) as Hb by (rewrite H; apply Z.bits_0).
    revert Hb. zbits_norm. zbits_cases. by rewrite andb_true_r.
  - intros H. apply zero_by_bits. intros i Hi. destruct (Z.lt_ge_cases i (32 - k)).
    + zbits_norm. rewrite (Z.testbit_neg_r (Z.ones k)) by lia. apply andb_false_r.
    + rewrite Z.land_spec, H by lia. done.
Qed.

Lemma clz_step v0 k cnt val mask : 0 < k <= 16 -> mask = Z.ones k .<< (32 - k) -> in_u 32 v0 ->
  clz_inv v0 (2 * k) cnt val ->
  let '(cnt', val') := if negb (nz (val .& mask)) then (cnt + k, u32 (val .<< k)) else (cnt, val) in
  clz_inv v0 k cnt' val'.
Proof.
  intros Hk -> Hv0 (Hc & -> & Hhigh & j & Hj & Hbit). destruct (nz _) eqn:E; simpl.
  - repeat split; [lia..|done|]. apply nz_true in E.
    destruct (nz_testbit_exists (u32 (v0 .<< cnt) .& (Z.ones k .<< (32 - k)))) as (i & Hi & Hb).
    { apply Z.land_nonneg. left. by apply wrap_range. }
    { by apply nz_true. }
    rewrite Z.land_spec in Hb. apply andb_true_iff in Hb as [Hb Hm]. exists i. split; [|done].
    destruct (Z.lt_ge_cases i 32); [|by rewrite (testbit_ge_range 32) in Hb by (by apply wrap_range) || lia].
    split; [|done]. destruct (Z.le_gt_cases (32 - k) i); [done|].
    rewrite Z.shiftl_spec, Z.testbit_neg_r in Hm by lia. done.
  - apply nz_false in E. rewrite land_top_zero in E; [|lia|by apply wrap_range].
    assert (j < 32 - k) by (destruct (Z.lt_ge_cases j (32 - k)); [done|]; rewrite E in Hbit by lia; done).
    revert Hbit. zbits_norm. zbits_cases. intros Hbit.
    assert (cnt + k < 32).
    { destruct (Z.lt_ge_cases (cnt + k) 32); [done|]. rewrite Z.testbit_neg_r in Hbit by lia. done. }
    split; [lia|]. split.
    + zbits.
    + split.
      * intros i Hi. destruct (Z.lt_ge_cases i (32 - cnt)); [|apply Hhigh; lia].
        specialize (E (i + cnt) ltac:(lia)). revert E. zbits_norm. zbits_cases.
        by replace (i + cnt - cnt) with i by lia.
      * exists (j + k). split; [lia|]. zbits_norm. zbits_cases. by replace (j + k - k - cnt) with (j - cnt) by lia.
Qed.

Lemma clz32_correct val : in_u 32 val -> val <> 0 -> highest_bit val (31 - clz32 val).
Proof.
  intros Hv Hnz. unfold clz32.
  assert (clz_inv val 32 0 val) as H.
  { split; [lia|]. split; [by rewrite Z.shiftl_0_r, wrap_small|].
    split; [intros; by apply (testbit_ge_range 32); [|lia]|].
    destruct (nz_testbit_exists val) as (i & Hi & Hb); [apply Hv | by apply nz_true|].
    exists i. split; [|done]. destruct (Z.lt_ge_cases i 32); [lia|].
    rewrite (testbit_ge_range 32) in Hb by (done || lia). done. }
  apply (clz_step _ 16 _ _ 0xFFFF0000) in H; [|lia|done|done]. destruct (if negb _ then _ else _) as [c1 v1].
  apply (clz_step _ 8 _ _ 0xFF000000) in H; [|lia|done|done]. destruct (if negb _ then _ else _) as [c2 v2].
  apply (clz_step _ 4 _ _ 0xF0000000) in H; [|lia|done|done]. destruct (if negb _ then _ else _) as [c3 v3].
  apply (clz_step _ 2 _ _ 0xC0000000) in H; [|lia|done|done]. destruct (if negb _ then _ else _) as [c4 v4].
  apply (clz_step _ 1 _ _ 0x80000000) in H; [|lia|done|done]. destruct (if negb _ then _ else _) as [c5 v5].
  destruct H as (? & -> & Hhigh & j & Hj & Hb). assert (j = 31) as -> by lia.
  change 0x80000000 with (1 .<< 31). rewrite nz_land_bit, Hb by lia. simpl.
  revert Hb. zbits_norm. zbits_cases. intros. split; [lia|]. split; [done|].
  intros i Hi. apply Hhigh. lia.
Qed.

Lemma highest_bit_le w val n : 0 <= w -> in_u w val -> highest_bit val n -> n < w.
Proof.
  intros Hw Hv (H0 & Hb & _). destruct (Z.lt_ge_cases n w); [done|].
  rewrite (testbit_ge_range w) in Hb by (done || lia). done.
Qed.

Lemma clz64_correct val : in_u 64 val -> val <> 0 -> highest_bit val (63 - clz64 val).
Proof.
  intros Hv Hnz. unfold clz64. destruct (nz (val .>> 32)) eqn:E; simpl.
  - apply nz_true in E. assert (in_u 32 (val .>> 32)) as Hr.
    { split; rewrite Z.shiftr_div_pow2 by lia; [apply Z.div_pos; [apply Hv|lia]|].
      apply Z.div_lt_upper_bound; [lia|]. apply Hv. }
    rewrite (wrap_small 32) by done. destruct (clz32_correct _ Hr E) as (H0 & Hb & Hh).
    split; [lia|]. split.
    + revert Hb. zbits_norm. by replace (31 - clz32 (val .>> 32) + 32) with (63 - (0 + clz32 (val .>> 32))) by lia.
    + intros i Hi. specialize (Hh (i - 32) ltac:(lia)). revert Hh.
      zbits_norm. by replace (i - 32 + 32) with i by lia.
  - apply nz_false in E. assert (in_u 32 val) as Hr.
    { apply in_u_testbit; [lia|apply Hv|]. intros i Hi.
      assert (Z.testbit (val .>> 32) (i - 32) = false) as Hb by (rewrite E; apply Z.bits_0).
      revert Hb. zbits_norm. by replace (i - 32 + 32) with i by lia. }
    rewrite (wrap_small 32) by done.
    replace (63 - (32 + clz32 val)) with (31 - clz32 val) by lia. by apply clz32_correct.
Qed.

(** ** What the helpers promise *)

(** The 128-bit products are exact. [mulu64] returns the low and the high
    half of the product of two unsigned 64-bit values, and [muls64] those of
    two signed ones, with the high half read as signed. *)
Theorem wide_multiply_exact a b :
  (in_u 64 a -> in_u 64 b ->
     let '(lo, hi) := mulu64 a b in in_u 64 lo /\ in_u 64 hi /\ hi * 2 ^ 64 + lo = a * b)
  /\ (in_s 64 a -> in_s 64 b ->
     let '(lo, hi) := muls64 a b in in_u 64 lo /\ in_u 64 hi /\ s64 hi * 2 ^ 64 + lo = a * b).
Proof. split; [apply mul64_exact|apply muls64_exact]. Qed.

Lemma wide_multiply_exact_witness :
  let '(lo, hi) := muls64 (-3) (2 ^ 62) in in_u 64 lo /\ in_u 64 hi /\ s64 hi * 2 ^ 64 + lo = -3 * 2 ^ 62.
Proof. apply (wide_multiply_exact (-3) (2 ^ 62)); unfold in_s; simpl; lia. Defined.

(** [ctz32]/[ctz64] return the position of the lowest set bit and
    [clz32]/[clz64] the distance of the highest set bit from the top; for 0
    all of them return the width. *)
Theorem count_zeros_correct val :
  (in_u 32 val -> if val =? 0 then ctz32 val = 32 /\ clz32 val = 32
                  else lowest_bit val (ctz32 val) /\ highest_bit val (31 - clz32 val))
  /\ (in_u 64 val -> if val =? 0 then ctz64 val = 64 /\ clz64 val = 64
                     else lowest_bit val (ctz64 val) /\ highest_bit val (63 - clz64 val)).
Proof.
  destruct (Z.eqb_spec val 0) as [->|Hnz]; [done|].
  split; intros Hv; split; by auto using ctz32_correct, clz32_correct, ctz64_correct, clz64_correct.
Qed.

Lemma count_zeros_correct_witness : lowest_bit 0x50 (ctz32 0x50) /\ highest_bit 0x50 (31 - clz32 0x50).
Proof. apply (count_zeros_correct 0x50). split; reflexivity || discriminate. Defined.
