(* ===== verification/Bitops.v ===== *)
(** Bit searches over arrays of [unsigned long]: util/bitops.c and the
    single-bit operations of include/qemu/bitops.h. A bitmap is the list of
    its words; bit [n] of the bitmap is bit [n mod 64] of word [n / 64]. *)
From S2P Require Import Prelude HostUtils.

Definition BITS_PER_LONG : Z := 64.
Definition BIT_WORD (nr : Z) : Z := nr / BITS_PER_LONG.
Definition BIT_MASK (nr : Z) : Z := u64 (1 .<< (nr mod BITS_PER_LONG)).
Definition BITS_TO_LONGS (nr : Z) : Z := (nr + BITS_PER_LONG - 1) / BITS_PER_LONG.
(** [~0UL] *)
Definition ALL_ONES : Z := u64 (-1).

(** [addr[k]] *)
Definition word (addr : list Z) (k : Z) : Z := default 0 (addr !! Z.to_nat k).
Definition set_word (addr : list Z) (k v : Z) : list Z := <[Z.to_nat k := v]> addr.

(** ** Single bits *)

Definition set_bit (nr : Z) (addr : list Z) : list Z :=
  set_word addr (BIT_WORD nr) (word addr (BIT_WORD nr) .| BIT_MASK nr).
Definition clear_bit (nr : Z) (addr : list Z) : list Z :=
  set_word addr (BIT_WORD nr) (word addr (BIT_WORD nr) .& u64 (.~ BIT_MASK nr)).
Definition change_bit (nr : Z) (addr : list Z) : list Z :=
  set_word addr (BIT_WORD nr) (word addr (BIT_WORD nr) .^ BIT_MASK nr).
Definition test_and_set_bit (nr : Z) (addr : list Z) : bool * list Z :=
  let old := word addr (BIT_WORD nr) in
  (nz (old .& BIT_MASK nr), set_word addr (BIT_WORD nr) (old .| BIT_MASK nr)).
Definition test_and_clear_bit (nr : Z) (addr : list Z) : bool * list Z :=
  let old := word addr (BIT_WORD nr) in
  (nz (old .& BIT_MASK nr), set_word addr (BIT_WORD nr) (old .& u64 (.~ BIT_MASK nr))).
Definition test_and_change_bit (nr : Z) (addr : list Z) : bool * list Z :=
  let old := word addr (BIT_WORD nr) in
  (nz (old .& BIT_MASK nr), set_word addr (BIT_WORD nr) (old .^ BIT_MASK nr)).
Definition test_bit (nr : Z) (addr : list Z) : Z :=
  1 .& (word addr (BIT_WORD nr) .>> (nr .& (BITS_PER_LONG - 1))).

(** ** Searches *)

(** The labels [found_middle] and [found_first] of [find_next_bit]. *)
Definition fnb_found_middle (result tmp : Z) : Z := result + ctzl tmp.
Definition fnb_found_first (result size tmp : Z) : Z :=
  let tmp := tmp .& (ALL_ONES .>> (BITS_PER_LONG - size)) in
  if tmp =? 0 then result + size else fnb_found_middle result tmp.

(** The second loop of [find_next_bit] and the code after it; [p] is the word
    index the pointer stands at. *)
Fixpoint fnb_loop1 (fuel : nat) (addr : list Z) (p result size : Z) : Z :=
  match fuel with
  | O => 0
  | S fuel =>
      if BITS_PER_LONG <=? size then
        let tmp := word addr p in
        if nz tmp then fnb_found_middle result tmp
        else fnb_loop1 fuel addr (p + 1) (result + BITS_PER_LONG) (size - BITS_PER_LONG)
      else if size =? 0 then result
      else fnb_found_first result size (word addr p)
  end.

(** The first, unrolled loop of [find_next_bit], four words at a time. *)
Fixpoint fnb_loop4 (fuel : nat) (addr : list Z) (p result size : Z) : Z :=
  match fuel with
  | O => 0
  | S fuel' =>
      if 4 * BITS_PER_LONG <=? size then
        let tmp := word addr p in
        let d1 := word addr (p + 1) in
        let d2 := word addr (p + 2) in
        let d3 := word addr (p + 3) in
        if nz tmp then fnb_found_middle result tmp
        else if nz (d1 .| d2 .| d3) then fnb_loop1 fuel addr p result size
        else fnb_loop4 fuel' addr (p + 4) (result + 4 * BITS_PER_LONG) (size - 4 * BITS_PER_LONG)
      else fnb_loop1 fuel addr p result size
  end.

(** One more iteration than there are words is always enough. *)
Definition find_fuel (size : Z) : nat := S (Z.to_nat (size / BITS_PER_LONG)).

Definition find_next_bit (addr : list Z) (size offset : Z) : Z :=
  let p := BIT_WORD offset in
  let result := offset .& u64 (.~ (BITS_PER_LONG - 1)) in
  if size <=? offset then size else
  let size := size - result in
  let offset := offset mod BITS_PER_LONG in
  let fuel := find_fuel size in
  if nz offset then
    let tmp := word addr p .& u64 (ALL_ONES .<< offset) in
    if size <? BITS_PER_LONG then fnb_found_first result size tmp
    else if nz tmp then fnb_found_middle result tmp
    else fnb_loop4 fuel addr (p + 1) (result + BITS_PER_LONG) (size - BITS_PER_LONG)
  else fnb_loop4 fuel addr p result size.

(** The labels of [find_next_zero_bit]. *)
Definition fnzb_found_middle (result tmp : Z) : Z := result + ctzl (u64 (.~ tmp)).
Definition fnzb_found_first (result size tmp : Z) : Z :=
  let tmp := tmp .| u64 (ALL_ONES .<< size) in
  if tmp =? ALL_ONES then result + size else fnzb_found_middle result tmp.

Fixpoint fnzb_loop (fuel : nat) (addr : list Z) (p result size : Z) : Z :=
  match fuel with
  | O => 0
  | S fuel =>
      if nz (size .& u64 (.~ (BITS_PER_LONG - 1))) then
        let tmp := word addr p in
        if nz (u64 (.~ tmp)) then fnzb_found_middle result tmp
        else fnzb_loop fuel addr (p + 1) (result + BITS_PER_LONG) (size - BITS_PER_LONG)
      else if size =? 0 then result
      else fnzb_found_first result size (word addr p)
  end.

Definition find_next_zero_bit (addr : list Z) (size offset : Z) : Z :=
  let p := BIT_WORD offset in
  let result := offset .& u64 (.~ (BITS_PER_LONG - 1)) in
  if size <=? offset then size else
  let size := size - result in
  let offset := offset mod BITS_PER_LONG in
  let fuel := find_fuel size in
  if nz offset then
    let tmp := word addr p .| (ALL_ONES .>> (BITS_PER_LONG - offset)) in
    if size <? BITS_PER_LONG then fnzb_found_first result size tmp
    else if nz (u64 (.~ tmp)) then fnzb_found_middle result tmp
    else fnzb_loop fuel addr (p + 1) (result + BITS_PER_LONG) (size - BITS_PER_LONG)
  else fnzb_loop fuel addr p result size.

Definition flb_found (words tmp : Z) : Z := words * BITS_PER_LONG + BITS_PER_LONG - 1 - clzl tmp.

Fixpoint flb_loop (fuel : nat) (addr : list Z) (words size : Z) : Z :=
  match fuel with
  | O => size
  | S fuel =>
      if nz words then
        let words := words - 1 in
        let tmp := word addr words in
        if nz tmp then flb_found words tmp else flb_loop fuel addr words size
      else size
  end.

Definition find_last_bit (addr : list Z) (size : Z) : Z :=
  let words := size / BITS_PER_LONG in
  let fuel := find_fuel size in
  if nz (size .& (BITS_PER_LONG - 1)) then
    let tmp := word addr words .& (ALL_ONES .>> (BITS_PER_LONG - (size .& (BITS_PER_LONG - 1)))) in
    if nz tmp then flb_found words tmp else flb_loop fuel addr words size
  else flb_loop fuel addr words size.

Definition find_first_bit (addr : list Z) (size : Z) : Z := find_next_bit addr size 0.
Definition find_first_zero_bit (addr : list Z) (size : Z) : Z := find_next_zero_bit addr size 0.

(** [hweight_long]: the loop shifts [w] right until it is 0. *)
Fixpoint hweight_loop (fuel : nat) (w count : Z) : Z :=
  match fuel with
  | O => count
  | S fuel => if nz w then hweight_loop fuel (w .>> 1) (count + (w .& 1)) else count
  end.
Definition hweight_long (w : Z) : Z := hweight_loop 64 w 0.

Example fnb_ex1 : find_next_bit [0; 0; 0; 0; 0; 2 ^ 5] 384 3 = 325.
Proof. vm_compute. reflexivity. Qed.
Example fnb_ex2 : find_next_bit [8; 0; 0; 0; 0; 2 ^ 5] 320 4 = 320.
Proof. vm_compute. reflexivity. Qed.
Example fnzb_ex1 : find_next_zero_bit [ALL_ONES; ALL_ONES - 2 ^ 7] 128 3 = 71.
Proof. vm_compute. reflexivity. Qed.
Example flb_ex1 : find_last_bit [5; 2 ^ 7] 72 = 71.
Proof. vm_compute. reflexivity. Qed.
Example flb_ex2 : find_last_bit [5; 2 ^ 7] 71 = 2.
Proof. vm_compute. reflexivity. Qed.

(** ** What the searches compute *)

(** Bit [n] of a bitmap. *)
Definition bit (addr : list Z) (n : Z) : bool :=
  Z.testbit (word addr (n / BITS_PER_LONG)) (n mod BITS_PER_LONG).

Definition words_ok (addr : list Z) : Prop := Forall (in_u 64) addr.

(** [r] is the first position from [lo] where [P] holds, or [hi]. *)
Definition first_from (P : Z -> bool) (lo hi r : Z) : Prop :=
  lo <= r <= hi /\ (forall i, lo <= i < r -> P i = false) /\ (r < hi -> P r = true).

(** [r] is the last position below [hi] where [P] holds; [hi] if there is none. *)
Definition last_below (P : Z -> bool) (hi r : Z) : Prop :=
  (0 <= r < hi /\ P r = true /\ forall i, r < i < hi -> P i = false)
  \/ (r = hi /\ forall i, 0 <= i < hi -> P i = false).

Lemma word_range addr k : words_ok addr -> in_u 64 (word addr k).
Proof.
  intros H. unfold word. destruct (addr !! Z.to_nat k) eqn:E; simpl.
  - by apply (Forall_lookup_1 _ _ _ _ H E).
  - split; lia.
Qed.

Lemma div_mod_at p j : 0 <= j < 64 -> (64 * p + j) / 64 = p /\ (64 * p + j) mod 64 = j.
Proof. intros. split; [symmetry; apply (Z.div_unique_pos _ _ p j) | symmetry; apply (Z.mod_unique_pos _ _ p j)]; lia. Qed.

Lemma bit_word addr p j : 0 <= j < 64 -> bit addr (64 * p + j) = Z.testbit (word addr p) j.
Proof. intros H. unfold bit, BITS_PER_LONG. by destruct (div_mod_at p j H) as [-> ->]. Qed.

(** The word [tmp] at position [result] shows [P] from [lo] on. *)
Definition shows (P : Z -> bool) (lo result tmp : Z) : Prop :=
  forall j, 0 <= j < 64 -> Z.testbit tmp j = (lo <=? result + j) && P (result + j).

Section search.
Context (P : Z -> bool) (lo hi : Z).

Lemma search_middle result tmp :
  in_u 64 tmp -> nz tmp = true -> shows P lo result tmp ->
  (forall i, lo <= i < result -> P i = false) -> result + 64 <= hi ->
  first_from P lo hi (fnb_found_middle result tmp).
Proof.
  intros Ht Hn%nz_true Hs Hb Hhi. unfold fnb_found_middle, ctzl.
  pose proof (ctz64_correct tmp Ht Hn) as Hl.
  pose proof (lowest_bit_lt 64 _ _ ltac:(lia) Ht Hl) as Hlt. destruct Hl as (H0 & Hset & Hlow).
  rewrite Hs in Hset by lia. apply andb_true_iff in Hset as [Hle%Z.leb_le HP].
  split; [lia|]. split; [|done]. intros i Hi. destruct (Z.lt_ge_cases i result); [apply Hb; lia|].
  specialize (Hlow (i - result) ltac:(lia)). rewrite Hs in Hlow by lia.
  replace (result + (i - result)) with i in Hlow by lia.
  by rewrite (proj2 (Z.leb_le lo i)) in Hlow by lia.
Qed.

Lemma mask_low_testbit size j : 0 < size <= 64 -> 0 <= j ->
  Z.testbit (ALL_ONES .>> (BITS_PER_LONG - size)) j = (j <? size).
Proof. intros. unfold ALL_ONES, BITS_PER_LONG. zbits_norm. zbits_cases; done. Qed.

Lemma search_first result size tmp :
  in_u 64 tmp -> shows P lo result tmp -> 0 < size < 64 -> result + size = hi -> lo <= hi ->
  (forall i, lo <= i < result -> P i = false) ->
  first_from P lo hi (fnb_found_first result size tmp).
Proof.
  intros Ht Hs Hsz Hhi Hlo Hb. unfold fnb_found_first. set (m := tmp .& _).
  assert (in_u 64 m) as Hm by by apply in_u_land_l.
  assert (forall j, 0 <= j < 64 -> Z.testbit m j = (j <? size) && ((lo <=? result + j) && P (result + j))) as Hms.
  { intros j Hj. unfold m. rewrite Z.land_spec, mask_low_testbit, Hs by lia. apply andb_comm. }
  destruct (Z.eqb_spec m 0) as [E|E].
  - split; [lia|]. split; [|lia]. intros i Hi. destruct (Z.lt_ge_cases i result); [apply Hb; lia|].
    specialize (Hms (i - result) ltac:(lia)). rewrite E, Z.bits_0 in Hms.
    replace (result + (i - result)) with i in Hms by lia.
    by rewrite (proj2 (Z.ltb_lt _ _)), (proj2 (Z.leb_le lo i)) in Hms by lia.
  - unfold fnb_found_middle, ctzl. pose proof (ctz64_correct m Hm E) as Hl.
    pose proof (lowest_bit_lt 64 _ _ ltac:(lia) Hm Hl) as Hlt. destruct Hl as (H0 & Hset & Hlow).
    rewrite Hms in Hset by lia. apply andb_true_iff in Hset as [Hlt'%Z.ltb_lt Hset].
    apply andb_true_iff in Hset as [Hle%Z.leb_le HP].
    split; [lia|]. split; [|done]. intros i Hi. destruct (Z.lt_ge_cases i result); [apply Hb; lia|].
    specialize (Hlow (i - result) ltac:(lia)). rewrite Hms in Hlow by lia.
    replace (result + (i - result)) with i in Hlow by lia.
    by rewrite (proj2 (Z.ltb_lt _ _)), (proj2 (Z.leb_le lo i)) in Hlow by lia.
Qed.

(** A word with nothing to find extends the cleared prefix. *)
Lemma search_skip result tmp :
  nz tmp = false -> shows P lo result tmp ->
  (forall i, lo <= i < result -> P i = false) -> forall i, lo <= i < result + 64 -> P i = false.
Proof.
  intros ->%nz_false Hs Hb i Hi. destruct (Z.lt_ge_cases i result); [apply Hb; lia|].
  specialize (Hs (i - result) ltac:(lia)). rewrite Z.bits_0 in Hs.
  replace (result + (i - result)) with i in Hs by lia.
  by rewrite (proj2 (Z.leb_le lo i)) in Hs by lia.
Qed.
End search.

Section find_set.
Context (addr : list Z) (Hok : words_ok addr) (lo hi : Z).

Lemma shows_word p : lo <= 64 * p -> shows (bit addr) lo (64 * p) (word addr p).
Proof.
  intros Hlo j Hj. rewrite bit_word by done.
  by rewrite (proj2 (Z.leb_le lo (64 * p + j))) by lia.
Qed.

Lemma fnb_loop1_spec fuel p size :
  size < 64 * Z.of_nat fuel -> 0 <= size -> lo <= 64 * p -> 64 * p + size = hi ->
  (forall i, lo <= i < 64 * p -> bit addr i = false) ->
  first_from (bit addr) lo hi (fnb_loop1 fuel addr p (64 * p) size).
Proof.
  revert p size. induction fuel as [|fuel IH]; intros p size Hf Hs Hlo Hhi Hb; [lia|].
  simpl. unfold BITS_PER_LONG in *. destruct (Z.leb_spec 64 size).
  - destruct (nz (word addr p)) eqn:E.
    + apply search_middle; try done; [by apply word_range | by apply shows_word | lia].
    + replace (64 * p + 64) with (64 * (p + 1)) by lia. apply IH; try lia.
      intros i Hi. eapply search_skip; [exact E | by apply shows_word | done | lia].
  - destruct (Z.eqb_spec size 0) as [->|].
    + rewrite Z.add_0_r in Hhi. subst hi. split; [lia|]. split; [done|lia].
    + apply search_first; try done; try lia; [by apply word_range | by apply shows_word].
Qed.

Lemma fnb_loop4_spec fuel p size :
  size < 64 * Z.of_nat fuel -> 0 <= size -> lo <= 64 * p -> 64 * p + size = hi ->
  (forall i, lo <= i < 64 * p -> bit addr i = false) ->
  first_from (bit addr) lo hi (fnb_loop4 fuel addr p (64 * p) size).
Proof.
  revert p size. induction fuel as [|fuel IH]; intros p size Hf Hs Hlo Hhi Hb; [lia|].
  cbn [fnb_loop4]. unfold BITS_PER_LONG in *.
  destruct (Z.leb_spec (4 * 64) size); [|by apply fnb_loop1_spec].
  destruct (nz (word addr p)) eqn:E.
  { apply search_middle; try done; [by apply word_range | by apply shows_word | lia]. }
  destruct (nz (_ .| _)) eqn:E4; [by apply fnb_loop1_spec|].
  apply nz_false, Z.lor_eq_0_iff in E4 as [[E1 E2]%Z.lor_eq_0_iff E3].
  replace (64 * p + 4 * 64) with (64 * (p + 4)) by lia. apply IH; try lia.
  assert (forall q, lo <= 64 * q -> word addr q = 0 -> (forall i, lo <= i < 64 * q -> bit addr i = false) ->
    forall i, lo <= i < 64 * (q + 1) -> bit addr i = false) as Hskip.
  { intros q Hq Hw Hq' i Hi. eapply search_skip; [by apply nz_false, Hw | by apply shows_word | done | lia]. }
  replace (p + 4) with (p + 3 + 1) by lia. apply nz_false in E.
  apply Hskip; [lia|done|]. replace (p + 3) with (p + 2 + 1) by lia.
  apply Hskip; [lia|done|]. replace (p + 2) with (p + 1 + 1) by lia.
  apply Hskip; [lia|done|]. by apply Hskip; [lia|..].
Qed.
End find_set.

Lemma align_down offset : in_u 64 offset -> offset .& u64 (.~ (BITS_PER_LONG - 1)) = 64 * (offset / 64).
Proof.
  intros Ho. transitivity ((offset .>> 6) .<< 6).
  - unfold BITS_PER_LONG. change (64 - 1) with (Z.ones 6). apply Z.bits_inj'. intros i Hi.
    zbits_norm. zbits_cases; try btauto.
    + zbits_norm. zbits_unify. btauto.
    + rewrite (testbit_ge_range 64 offset) by (done || lia). zbits_norm. zbits_unify.
      by rewrite (testbit_ge_range 64 offset) by (done || lia).
  - rewrite Z.shiftl_mul_pow2, Z.shiftr_div_pow2 by lia. change (2 ^ 6) with 64. lia.
Qed.

Lemma find_fuel_enough size : 0 <= size -> size < 64 * Z.of_nat (find_fuel size).
Proof.
  intros. unfold find_fuel, BITS_PER_LONG. pose proof (Z.div_mod size 64 ltac:(lia)).
  pose proof (Z.mod_pos_bound size 64 ltac:(lia)). pose proof (Z.div_pos size 64 ltac:(lia) ltac:(lia)). lia.
Qed.

Lemma find_next_bit_first addr size offset :
  words_ok addr -> in_u 64 size -> 0 <= offset ->
  if size <=? offset then find_next_bit addr size offset = size
  else first_from (bit addr) offset size (find_next_bit addr size offset).
Proof.
  intros Hok Hsz Hoff. unfold find_next_bit. destruct (Z.leb_spec size offset); [done|].
  unfold in_u in Hsz. rewrite align_down by (unfold in_u; lia).
  unfold BIT_WORD, BITS_PER_LONG in *. set (p := offset / 64). set (o := offset mod 64).
  assert (offset = 64 * p + o) as E by (apply Z.div_mod; lia).
  pose proof (Z.mod_pos_bound offset 64 ltac:(lia)) as Ho. fold o in Ho.
  assert (0 <= p) by (apply Z.div_pos; lia).
  pose proof (find_fuel_enough (size - 64 * p) ltac:(lia)).
  destruct (nz o) eqn:Eo.
  - assert (in_u 64 (word addr p .& u64 (ALL_ONES .<< o))) as Ht by (apply in_u_land_l; [lia|by apply word_range]).
    assert (shows (bit addr) offset (64 * p) (word addr p .& u64 (ALL_ONES .<< o))) as Hs.
    { intros j Hj. rewrite bit_word by done. unfold ALL_ONES. zbits_norm. zbits_cases; btauto. }
    assert (forall i, offset <= i < 64 * p -> bit addr i = false) by lia.
    destruct (Z.ltb_spec (size - 64 * p) 64); [by apply search_first; try lia|].
    destruct (nz (_ .& _)) eqn:Et; [by apply search_middle; try lia|].
    replace (64 * p + 64) with (64 * (p + 1)) by lia. apply fnb_loop4_spec; try done; try lia.
    intros i Hi. eapply search_skip; [exact Et | exact Hs | done | lia].
  - apply nz_false in Eo. apply fnb_loop4_spec; try done; lia.
Qed.

(** *** Zero bits *)

Section find_zero.
Context (addr : list Z) (Hok : words_ok addr) (lo hi : Z).
Let P (i : Z) : bool := negb (bit addr i).

Lemma not_range tmp : in_u 64 (u64 (.~ tmp)).
Proof. by apply wrap_range. Qed.

Lemma shows_not_word p : lo <= 64 * p -> shows P lo (64 * p) (u64 (.~ word addr p)).
Proof.
  intros Hlo j Hj. unfold P. rewrite bit_word by done. zbits_norm. zbits_cases. done.
Qed.

(** [found_first] of the zero search is that of the set search on the complement. *)
Lemma fnzb_first_as_fnb result size tmp : in_u 64 tmp -> 0 < size < 64 ->
  fnzb_found_first result size tmp = fnb_found_first result size (u64 (.~ tmp)).
Proof.
  intros Ht Hs. unfold fnzb_found_first, fnb_found_first, fnzb_found_middle, fnb_found_middle.
  assert (u64 (.~ (tmp .| u64 (ALL_ONES .<< size))) = u64 (.~ tmp) .& (ALL_ONES .>> (BITS_PER_LONG - size))) as <-.
  { unfold ALL_ONES, BITS_PER_LONG. zbits. }
  set (t := tmp .| _). assert (in_u 64 t) as Hu by (apply in_u_lor; [lia|done|by apply wrap_range]).
  destruct (Z.eqb_spec t ALL_ONES) as [->|Hne]; [done|].
  destruct (Z.eqb_spec (u64 (.~ t)) 0) as [E|]; [|done]. exfalso. apply Hne.
  unfold ALL_ONES. apply Z.bits_inj'. intros i Hi. zbits_norm. zbits_cases.
  - assert (Z.testbit (u64 (.~ t)) i = false) as Hb by (rewrite E; apply Z.bits_0).
    revert Hb. zbits_norm. zbits_cases. by destruct (Z.testbit t i).
  - by rewrite (testbit_ge_range 64 t) by (done || lia).
Qed.

Lemma ge_word_test size : 0 <= size < 2 ^ 64 -> nz (size .& u64 (.~ (BITS_PER_LONG - 1))) = (64 <=? size).
Proof.
  intros Hs. rewrite align_down by done. pose proof (Z.div_mod size 64 ltac:(lia)).
  pose proof (Z.mod_pos_bound size 64 ltac:(lia)).
  destruct (Z.leb_spec 64 size); [apply nz_true | apply nz_false]; lia.
Qed.

Lemma fnzb_loop_spec fuel p size :
  size < 64 * Z.of_nat fuel -> 0 <= size < 2 ^ 64 -> lo <= 64 * p -> 64 * p + size = hi ->
  (forall i, lo <= i < 64 * p -> P i = false) ->
  first_from P lo hi (fnzb_loop fuel addr p (64 * p) size).
Proof.
  revert p size. induction fuel as [|fuel IH]; intros p size Hf Hs Hlo Hhi Hb; [lia|].
  cbn [fnzb_loop]. rewrite ge_word_test by done. unfold BITS_PER_LONG in *.
  destruct (Z.leb_spec 64 size).
  - destruct (nz (u64 (.~ word addr p))) eqn:E.
    + apply (search_middle P); try done; [apply not_range | by apply shows_not_word | lia].
    + replace (64 * p + 64) with (64 * (p + 1)) by lia. apply IH; try lia.
      intros i Hi. eapply (search_skip P); [exact E | by apply shows_not_word | done | lia].
  - destruct (Z.eqb_spec size 0) as [->|].
    + rewrite Z.add_0_r in Hhi. subst hi. split; [lia|]. split; [done|lia].
    + rewrite fnzb_first_as_fnb by (lia || by apply word_range).
      apply (search_first P); try done; try lia; [apply not_range | by apply shows_not_word].
Qed.
End find_zero.

Lemma find_next_zero_bit_first addr size offset :
  words_ok addr -> in_u 64 size -> 0 <= offset ->
  if size <=? offset then find_next_zero_bit addr size offset = size
  else first_from (fun i => negb (bit addr i)) offset size (find_next_zero_bit addr size offset).
Proof.
  intros Hok Hsz Hoff. unfold find_next_zero_bit. destruct (Z.leb_spec size offset); [done|].
  unfold in_u in Hsz. rewrite align_down by (unfold in_u; lia).
  unfold BIT_WORD, BITS_PER_LONG in *. set (p := offset / 64). set (o := offset mod 64).
  assert (offset = 64 * p + o) as E by (apply Z.div_mod; lia).
  pose proof (Z.mod_pos_bound offset 64 ltac:(lia)) as Ho. fold o in Ho.
  assert (0 <= p) by (apply Z.div_pos; lia).
  pose proof (find_fuel_enough (size - 64 * p) ltac:(lia)).
  destruct (nz o) eqn:Eo.
  - apply nz_true in Eo. set (t := word addr p .| _).
    assert (in_u 64 t) as Ht.
    { apply in_u_lor; [lia|by apply word_range|]. apply in_u_testbit; [lia| |].
      - apply Z.shiftr_nonneg. by apply wrap_range.
      - intros i Hi. unfold ALL_ONES. zbits_norm. by zbits_cases. }
    assert (shows (fun i => negb (bit addr i)) offset (64 * p) (u64 (.~ t))) as Hs.
    { intros j Hj. rewrite bit_word by done. unfold t, ALL_ONES. zbits_norm. zbits_cases; btauto. }
    assert (forall i, offset <= i < 64 * p -> negb (bit addr i) = false) by lia.
    destruct (Z.ltb_spec (size - 64 * p) 64).
    { rewrite fnzb_first_as_fnb by (done || lia). by apply search_first; try lia; try apply not_range. }
    destruct (nz (u64 _)) eqn:Et.
    { apply search_middle; try done; [apply not_range|lia]. }
    replace (64 * p + 64) with (64 * (p + 1)) by lia. apply fnzb_loop_spec; try done; try lia.
    intros i Hi. eapply (search_skip (fun i => negb (bit addr i))); [exact Et | exact Hs | done | lia].
  - apply nz_false in Eo. apply fnzb_loop_spec; try done; lia.
Qed.

(** *** The last set bit *)

Lemma flb_found_spec addr words tmp hi :
  in_u 64 tmp -> nz tmp = true -> 0 <= words ->
  (forall j, 0 <= j < 64 -> Z.testbit tmp j = (64 * words + j <? hi) && bit addr (64 * words + j)) ->
  (forall i, 64 * (words + 1) <= i < hi -> bit addr i = false) ->
  last_below (bit addr) hi (flb_found words tmp).
Proof.
  intros Ht Hn%nz_true Hw Hs Hb. left. unfold flb_found, clzl, BITS_PER_LONG.
  pose proof (clz64_correct tmp Ht Hn) as Hh. pose proof (highest_bit_le 64 _ _ ltac:(lia) Ht Hh) as Hlt.
  destruct Hh as (H0 & Hset & Hhigh). set (n := 63 - clz64 tmp) in *.
  replace (words * 64 + 64 - 1 - clz64 tmp) with (64 * words + n) by lia.
  rewrite Hs in Hset by lia. apply andb_true_iff in Hset as [Hlt'%Z.ltb_lt Hbit].
  split; [lia|]. split; [done|]. intros i Hi.
  destruct (Z.lt_ge_cases i (64 * (words + 1))); [|apply Hb; lia].
  specialize (Hhigh (i - 64 * words) ltac:(lia)). rewrite Hs in Hhigh by lia.
  replace (64 * words + (i - 64 * words)) with i in Hhigh by lia.
  by rewrite (proj2 (Z.ltb_lt i hi)) in Hhigh by lia.
Qed.

Lemma flb_loop_spec addr hi fuel words :
  words_ok addr -> 0 <= words <= Z.of_nat fuel -> 64 * words <= hi ->
  (forall i, 64 * words <= i < hi -> bit addr i = false) ->
  last_below (bit addr) hi (flb_loop fuel addr words hi).
Proof.
  intros Hok. revert words. induction fuel as [|fuel IH]; intros words Hw Hhi Hb.
  { right. split; [done|]. intros. apply Hb. simpl in Hw. lia. }
  cbn [flb_loop]. destruct (nz words) eqn:E.
  - apply nz_true in E. destruct (nz (word addr (words - 1))) eqn:Ew.
    + apply flb_found_spec; try done; [by apply word_range | lia | |].
      * intros j Hj. rewrite bit_word by done. zbits_cases. done.
      * intros. apply Hb. lia.
    + apply IH; [lia..|]. intros i Hi. destruct (Z.lt_ge_cases i (64 * words)); [|apply Hb; lia].
      replace i with (64 * (words - 1) + (i - 64 * (words - 1))) by lia. rewrite bit_word by lia.
      apply nz_false in Ew. rewrite Ew. apply Z.bits_0.
  - apply nz_false in E as ->. right. split; [done|]. intros. apply Hb. lia.
Qed.

Lemma find_last_bit_last addr size :
  words_ok addr -> 0 <= size -> last_below (bit addr) size (find_last_bit addr size).
Proof.
  intros Hok Hsz. unfold find_last_bit. change (BITS_PER_LONG - 1) with (Z.ones 6).
  rewrite Z.land_ones by lia. change (2 ^ 6) with 64. unfold BITS_PER_LONG.
  pose proof (Z.div_mod size 64 ltac:(lia)). pose proof (Z.mod_pos_bound size 64 ltac:(lia)) as Hm.
  pose proof (Z.div_pos size 64 ltac:(lia) ltac:(lia)). pose proof (find_fuel_enough size Hsz).
  set (w := size / 64) in *. set (r := size mod 64) in *.
  destruct (nz r) eqn:Er; [apply nz_true in Er | apply nz_false in Er; apply flb_loop_spec; try done; lia].
  set (t := word addr w .& _).
  assert (forall j, 0 <= j < 64 -> Z.testbit t j = (64 * w + j <? size) && bit addr (64 * w + j)) as Hs.
  { intros j Hj. unfold t. rewrite bit_word, Z.land_spec, mask_low_testbit by lia. zbits_cases; btauto. }
  destruct (nz t) eqn:Et.
  - apply flb_found_spec; try done; [apply in_u_land_l; [lia|by apply word_range] | lia].
  - apply flb_loop_spec; try done; try lia. intros i Hi. apply nz_false in Et.
    specialize (Hs (i - 64 * w) ltac:(lia)). rewrite Et, Z.bits_0 in Hs.
    replace (64 * w + (i - 64 * w)) with i in Hs by lia.
    by rewrite (proj2 (Z.ltb_lt i size)) in Hs by lia.
Qed.

(** ** What the searches promise *)

(** [find_next_bit] and [find_next_zero_bit] return the first set,
    respectively clear, bit of the bitmap at or after [offset] and below
    [size], and [size] when there is none. *)
Theorem find_next_is_first addr size offset :
  words_ok addr -> in_u 64 size -> 0 <= offset ->
  (if size <=? offset then find_next_bit addr size offset = size
   else first_from (bit addr) offset size (find_next_bit addr size offset))
  /\ (if size <=? offset then find_next_zero_bit addr size offset = size
      else first_from (fun i => negb (bit addr i)) offset size (find_next_zero_bit addr size offset)).
Proof. intros. split; [by apply find_next_bit_first|by apply find_next_zero_bit_first]. Qed.

Definition example_bitmap : list Z := [2 ^ 64 - 1; 0x30; 0x8000000000000000].

Lemma example_bitmap_ok : words_ok example_bitmap.
Proof. repeat constructor; simpl; lia. Qed.

Lemma find_next_is_first_witness :
  first_from (bit example_bitmap) 70 192 (find_next_bit example_bitmap 192 70)
  /\ first_from (fun i => negb (bit example_bitmap i)) 70 192 (find_next_zero_bit example_bitmap 192 70).
Proof. apply (find_next_is_first example_bitmap 192 70 example_bitmap_ok); unfold in_u; simpl; lia. Defined.

(** [find_last_bit] returns the last set bit below [size], and [size] when
    there is none. *)
Theorem find_last_bit_is_last addr size :
  words_ok addr -> 0 <= size -> last_below (bit addr) size (find_last_bit addr size).
Proof. apply find_last_bit_last. Qed.

Lemma find_last_bit_is_last_witness : last_below (bit example_bitmap) 180 (find_last_bit example_bitmap 180).
Proof. apply (find_last_bit_is_last example_bitmap 180 example_bitmap_ok). lia. Defined.
