(* ===== verification/Bitmap.v ===== *)
(** Bitmaps of arbitrary length: util/bitmap.c, over the word arrays and the
    searches of [Bitops]. *)
From S2P Require Import Prelude HostUtils Bitops.

Definition BITMAP_LAST_WORD_MASK (nbits : Z) : Z :=
  if nz (nbits mod BITS_PER_LONG) then u64 (u64 (1 .<< (nbits mod BITS_PER_LONG)) - 1) else ALL_ONES.
Definition BITMAP_FIRST_WORD_MASK (start : Z) : Z := u64 (ALL_ONES .<< (start mod BITS_PER_LONG)).

(** [for (k = ...; k < lim; ++k) if (cond) return ...;]: does some iteration return? *)
Fixpoint any_word (n : nat) (k : Z) (cond : Z -> bool) : bool :=
  match n with
  | O => false
  | S n => if cond k then true else any_word n (k + 1) cond
  end.

(** [for (k = ...; k < lim; ++k) dst[k] = f(k);] *)
Fixpoint for_words (n : nat) (k : Z) (f : Z -> Z) (dst : list Z) : list Z :=
  match n with
  | O => dst
  | S n => for_words n (k + 1) f (set_word dst k (f k))
  end.

(** The same loop with [result |= (dst[k] = f(k))]. *)
Fixpoint for_words_or (n : nat) (k : Z) (f : Z -> Z) (dst : list Z) (result : Z) : list Z * Z :=
  match n with
  | O => (dst, result)
  | S n => for_words_or n (k + 1) f (set_word dst k (f k)) (result .| f k)
  end.

Definition slow_bitmap_empty (bitmap : list Z) (bits : Z) : bool :=
  let lim := bits / BITS_PER_LONG in
  if any_word (Z.to_nat lim) 0 (fun k => nz (word bitmap k)) then false
  else if nz (bits mod BITS_PER_LONG) then
    negb (nz (word bitmap lim .& BITMAP_LAST_WORD_MASK bits))
  else true.

Definition slow_bitmap_full (bitmap : list Z) (bits : Z) : bool :=
  let lim := bits / BITS_PER_LONG in
  if any_word (Z.to_nat lim) 0 (fun k => nz (u64 (.~ word bitmap k))) then false
  else if nz (bits mod BITS_PER_LONG) then
    negb (nz (u64 (.~ word bitmap lim) .& BITMAP_LAST_WORD_MASK bits))
  else true.

Definition slow_bitmap_equal (bitmap1 bitmap2 : list Z) (bits : Z) : bool :=
  let lim := bits / BITS_PER_LONG in
  if any_word (Z.to_nat lim) 0 (fun k => negb (word bitmap1 k =? word bitmap2 k)) then false
  else if nz (bits mod BITS_PER_LONG) then
    negb (nz ((word bitmap1 lim .^ word bitmap2 lim) .& BITMAP_LAST_WORD_MASK bits))
  else true.

Definition slow_bitmap_complement (dst src : list Z) (bits : Z) : list Z :=
  let lim := bits / BITS_PER_LONG in
  let dst := for_words (Z.to_nat lim) 0 (fun k => u64 (.~ word src k)) dst in
  if nz (bits mod BITS_PER_LONG) then
    set_word dst lim (u64 (.~ word src lim) .& BITMAP_LAST_WORD_MASK bits)
  else dst.

Definition slow_bitmap_and (dst bitmap1 bitmap2 : list Z) (bits : Z) : list Z * bool :=
  let '(dst, result) := for_words_or (Z.to_nat (BITS_TO_LONGS bits)) 0
                          (fun k => word bitmap1 k .& word bitmap2 k) dst 0 in
  (dst, nz result).

Definition slow_bitmap_or (dst bitmap1 bitmap2 : list Z) (bits : Z) : list Z :=
  for_words (Z.to_nat (BITS_TO_LONGS bits)) 0 (fun k => word bitmap1 k .| word bitmap2 k) dst.

Definition slow_bitmap_xor (dst bitmap1 bitmap2 : list Z) (bits : Z) : list Z :=
  for_words (Z.to_nat (BITS_TO_LONGS bits)) 0 (fun k => word bitmap1 k .^ word bitmap2 k) dst.

Definition slow_bitmap_andnot (dst bitmap1 bitmap2 : list Z) (bits : Z) : list Z * bool :=
  let '(dst, result) := for_words_or (Z.to_nat (BITS_TO_LONGS bits)) 0
                          (fun k => word bitmap1 k .& u64 (.~ word bitmap2 k)) dst 0 in
  (dst, nz result).

(** The loop of [bitmap_set]; [p] is the word index, [size] the end of the area. *)
Fixpoint bitmap_set_loop (fuel : nat) (map : list Z) (p nr bits_to_set mask_to_set size : Z) : list Z :=
  match fuel with
  | O => map
  | S fuel =>
      if 0 <=? nr - bits_to_set then
        let map := set_word map p (word map p .| mask_to_set) in
        bitmap_set_loop fuel map (p + 1) (nr - bits_to_set) BITS_PER_LONG ALL_ONES size
      else if nz nr then
        let mask_to_set := mask_to_set .& BITMAP_LAST_WORD_MASK size in
        set_word map p (word map p .| mask_to_set)
      else map
  end.

Definition area_fuel (nr : Z) : nat := S (S (Z.to_nat (nr / BITS_PER_LONG))).

Definition bitmap_set (map : list Z) (start nr : Z) : list Z :=
  bitmap_set_loop (area_fuel nr) map (BIT_WORD start) nr (BITS_PER_LONG - start mod BITS_PER_LONG)
    (BITMAP_FIRST_WORD_MASK start) (start + nr).

Fixpoint bitmap_clear_loop (fuel : nat) (map : list Z) (p nr bits_to_clear mask_to_clear size : Z) : list Z :=
  match fuel with
  | O => map
  | S fuel =>
      if 0 <=? nr - bits_to_clear then
        let map := set_word map p (word map p .& u64 (.~ mask_to_clear)) in
        bitmap_clear_loop fuel map (p + 1) (nr - bits_to_clear) BITS_PER_LONG ALL_ONES size
      else if nz nr then
        let mask_to_clear := mask_to_clear .& BITMAP_LAST_WORD_MASK size in
        set_word map p (word map p .& u64 (.~ mask_to_clear))
      else map
  end.

Definition bitmap_clear (map : list Z) (start nr : Z) : list Z :=
  bitmap_clear_loop (area_fuel nr) map (BIT_WORD start) nr (BITS_PER_LONG - start mod BITS_PER_LONG)
    (BITMAP_FIRST_WORD_MASK start) (start + nr).

Definition ALIGN_MASK (x mask : Z) : Z := u64 (x + mask) .& u64 (.~ mask).

(** [goto again] moves [start] strictly up, so [size] iterations suffice. *)
Fixpoint find_zero_area_again (fuel : nat) (map : list Z) (size start nr align_mask : Z) : Z :=
  match fuel with
  | O => 0
  | S fuel =>
      let index := find_next_zero_bit map size start in
      let index := ALIGN_MASK index align_mask in
      let end_ := u64 (index + nr) in
      if size <? end_ then end_
      else
        let i := find_next_bit map end_ index in
        if i <? end_ then find_zero_area_again fuel map size (i + 1) nr align_mask
        else index
  end.

Definition bitmap_find_next_zero_area (map : list Z) (size start nr align_mask : Z) : Z :=
  find_zero_area_again (S (Z.to_nat size)) map size start nr align_mask.

Definition slow_bitmap_intersects (bitmap1 bitmap2 : list Z) (bits : Z) : bool :=
  let lim := bits / BITS_PER_LONG in
  if any_word (Z.to_nat lim) 0 (fun k => nz (word bitmap1 k .& word bitmap2 k)) then true
  else if nz (bits mod BITS_PER_LONG) then
    nz ((word bitmap1 lim .& word bitmap2 lim) .& BITMAP_LAST_WORD_MASK bits)
  else false.

Example bitmap_set_ex : bitmap_set [0; 0; 0] 60 70 = [2 ^ 64 - 2 ^ 60; ALL_ONES; 3].
Proof. vm_compute. reflexivity. Qed.
Example zero_area_ex : bitmap_find_next_zero_area [0x0f0f; 0] 128 0 6 7 = 16.
Proof. vm_compute. reflexivity. Qed.

(** ** Tests over a prefix of the bits *)

Lemma any_word_false n k cond :
  any_word n k cond = false <-> forall j, k <= j < k + Z.of_nat n -> cond j = false.
Proof.
  revert k. induction n as [|n IH]; intros k; cbn [any_word].
  - split; [intros _ j Hj; lia | done].
  - destruct (cond k) eqn:E.
    + split; [done|]. intros H. rewrite H in E by lia. done.
    + rewrite IH. split; intros H j Hj.
      * destruct (decide (j = k)) as [->|]; [done|apply H; lia].
      * apply H. lia.
Qed.

Lemma last_word_mask_testbit bits j : bits mod 64 <> 0 -> 0 <= j < 64 ->
  Z.testbit (BITMAP_LAST_WORD_MASK bits) j = (j <? bits mod 64).
Proof.
  intros Hm Hj. unfold BITMAP_LAST_WORD_MASK, BITS_PER_LONG.
  rewrite (proj2 (nz_true _)) by done. pose proof (Z.mod_pos_bound bits 64 ltac:(lia)).
  rewrite (wrap_small 64 (1 .<< _)) by (rewrite Z.shiftl_1_l; apply in_u_pow2; lia).
  replace (1 .<< (bits mod 64) - 1) with (Z.ones (bits mod 64)) by (rewrite Z.ones_equiv, Z.shiftl_1_l; lia).
  zbits_norm. by zbits_cases.
Qed.

(** The shape shared by the four boolean tests: [w k] shows the offending
    bits [Q] of word [k]. *)
Lemma prefix_test (Q : Z -> bool) (w : Z -> Z) bits :
  0 <= bits -> (forall k, in_u 64 (w k)) ->
  (forall k j, 0 <= j < 64 -> Z.testbit (w k) j = Q (64 * k + j)) ->
  (if any_word (Z.to_nat (bits / BITS_PER_LONG)) 0 (fun k => nz (w k)) then false
   else if nz (bits mod BITS_PER_LONG) then
     negb (nz (w (bits / BITS_PER_LONG) .& BITMAP_LAST_WORD_MASK bits)) else true) = true
  <-> forall i, 0 <= i < bits -> Q i = false.
Proof.
  intros Hb Hw Hs. unfold BITS_PER_LONG. pose proof (Z.div_mod bits 64 ltac:(lia)).
  pose proof (Z.mod_pos_bound bits 64 ltac:(lia)) as Hm. pose proof (Z.div_pos bits 64 ltac:(lia) ltac:(lia)).
  assert (forall k, nz (w k) = false <-> forall j, 0 <= j < 64 -> Q (64 * k + j) = false) as Hzero.
  { intros k. rewrite nz_false. split.
    - intros E j Hj. rewrite <- Hs, E by done. apply Z.bits_0.
    - intros HQ. apply zero_by_bits. intros j Hj. destruct (Z.lt_ge_cases j 64).
      + rewrite Hs by lia. apply HQ. lia.
      + by apply (testbit_ge_range 64); [|lia]. }
  assert (forall i, 64 * (i / 64) + i mod 64 = i /\ 0 <= i mod 64 < 64) as Hdm.
  { intros i. pose proof (Z.div_mod i 64). pose proof (Z.mod_pos_bound i 64). lia. }
  destruct (any_word _ _ _) eqn:Ea.
  - split; [done|]. intros HQ. enough (true = false) by done. rewrite <- Ea. apply any_word_false.
    intros k Hk. apply Hzero. intros j Hj. apply HQ. lia.
  - rewrite any_word_false in Ea.
    assert (forall i, 0 <= i < 64 * (bits / 64) -> Q i = false) as Hpre.
    { intros i Hi. destruct (Hdm i) as [E Hj]. rewrite <- E. apply Hzero; [|lia]. apply Ea. lia. }
    destruct (nz (bits mod 64)) eqn:Er.
    + apply nz_true in Er. rewrite negb_true_iff, nz_false. split.
      * intros E i Hi. destruct (Z.lt_ge_cases i (64 * (bits / 64))); [apply Hpre; lia|].
        assert (Z.testbit (w (bits / 64) .& BITMAP_LAST_WORD_MASK bits) (i - 64 * (bits / 64)) = false) as Hz.
        { rewrite E. apply Z.bits_0. }
        rewrite Z.land_spec, Hs, last_word_mask_testbit in Hz by lia. revert Hz. zbits_cases.
        rewrite andb_true_r. by replace (64 * (bits / 64) + (i - 64 * (bits / 64))) with i by lia.
      * intros HQ. apply zero_by_bits. intros j Hj. rewrite Z.land_spec.
        destruct (Z.lt_ge_cases j 64).
        -- rewrite Hs, last_word_mask_testbit by lia. zbits_cases. rewrite HQ by lia. done.
        -- by rewrite (testbit_ge_range 64) by (by apply Hw || lia).
    + apply nz_false in Er. split; [|done]. intros _ i Hi. apply Hpre. lia.
Qed.

Lemma slow_bitmap_empty_iff bitmap bits : words_ok bitmap -> 0 <= bits ->
  slow_bitmap_empty bitmap bits = true <-> forall i, 0 <= i < bits -> bit bitmap i = false.
Proof.
  intros Hok Hb. apply (prefix_test (bit bitmap) (word bitmap)); [done|intros; by apply word_range|].
  intros. by rewrite bit_word.
Qed.

Lemma slow_bitmap_full_iff bitmap bits : words_ok bitmap -> 0 <= bits ->
  slow_bitmap_full bitmap bits = true <-> forall i, 0 <= i < bits -> bit bitmap i = true.
Proof.
  intros Hok Hb. unfold slow_bitmap_full.
  rewrite (prefix_test (fun i => negb (bit bitmap i)) (fun k => u64 (.~ word bitmap k))).
  - split; intros H i Hi; specialize (H i Hi); by destruct (bit bitmap i).
  - done.
  - intros. by apply wrap_range.
  - intros k j Hj. rewrite bit_word by done. zbits_norm. by zbits_cases.
Qed.

Lemma lxor_nz a b : negb (a =? b) = nz (a .^ b).
Proof.
  unfold nz. f_equal. apply eq_bool_prop_intro. rewrite !Is_true_true, !Z.eqb_eq.
  split; [intros ->; apply Z.lxor_nilpotent | apply Z.lxor_eq].
Qed.

Lemma any_word_ext n k c1 c2 : (forall j, c1 j = c2 j) -> any_word n k c1 = any_word n k c2.
Proof. intros H. revert k. induction n as [|n IH]; intros k; simpl; [done|]. by rewrite H, IH. Qed.

Lemma slow_bitmap_equal_iff bitmap1 bitmap2 bits : words_ok bitmap1 -> words_ok bitmap2 -> 0 <= bits ->
  slow_bitmap_equal bitmap1 bitmap2 bits = true <-> forall i, 0 <= i < bits -> bit bitmap1 i = bit bitmap2 i.
Proof.
  intros Hok1 Hok2 Hb. unfold slow_bitmap_equal.
  rewrite (any_word_ext _ _ _ (fun k => nz (word bitmap1 k .^ word bitmap2 k))) by (intros; apply lxor_nz).
  rewrite (prefix_test (fun i => xorb (bit bitmap1 i) (bit bitmap2 i)) (fun k => word bitmap1 k .^ word bitmap2 k)).
  - split; intros H i Hi; specialize (H i Hi); [by apply xorb_eq | rewrite H; apply xorb_nilpotent].
  - done.
  - intros k. pose proof (word_range bitmap1 k Hok1) as H1. pose proof (word_range bitmap2 k Hok2) as H2.
    apply in_u_testbit; [lia| |].
    + apply Z.lxor_nonneg. unfold in_u in *. lia.
    + intros i Hi. rewrite Z.lxor_spec, (testbit_ge_range 64), (testbit_ge_range 64 (word bitmap2 k)) by (done || lia). done.
  - intros k j Hj. by rewrite !bit_word, Z.lxor_spec.
Qed.

Lemma slow_bitmap_intersects_iff bitmap1 bitmap2 bits : words_ok bitmap1 -> words_ok bitmap2 -> 0 <= bits ->
  slow_bitmap_intersects bitmap1 bitmap2 bits = false
  <-> forall i, 0 <= i < bits -> bit bitmap1 i && bit bitmap2 i = false.
Proof.
  intros Hok1 Hok2 Hb.
  rewrite <- (prefix_test (fun i => bit bitmap1 i && bit bitmap2 i) (fun k => word bitmap1 k .& word bitmap2 k)).
  - unfold slow_bitmap_intersects. destruct (any_word _ _ _); [done|].
    destruct (nz (bits mod BITS_PER_LONG)); [|done]. by rewrite negb_true_iff.
  - done.
  - intros k. apply in_u_land; [lia|by apply word_range..].
  - intros k j Hj. by rewrite !bit_word, Z.land_spec.
Qed.

(** ** Word-wise operations *)

Lemma length_set_word addr k v : length (set_word addr k v) = length addr.
Proof. apply length_insert. Qed.

Lemma word_set_word addr k v j : 0 <= k < Z.of_nat (length addr) -> 0 <= j ->
  word (set_word addr k v) j = if decide (j = k) then v else word addr j.
Proof.
  intros Hk Hj. unfold word, set_word. case_decide as E.
  - subst. by rewrite list_lookup_insert_eq by lia.
  - by rewrite list_lookup_insert_ne by lia.
Qed.

Lemma for_words_word n k f dst j : 0 <= k -> k + Z.of_nat n <= Z.of_nat (length dst) -> 0 <= j ->
  word (for_words n k f dst) j = if (k <=? j) && (j <? k + Z.of_nat n) then f j else word dst j.
Proof.
  revert k dst. induction n as [|n IH]; intros k dst Hk Hl Hj; cbn [for_words].
  { by zbits_cases. }
  rewrite IH by (rewrite ?length_set_word; lia). rewrite word_set_word by lia.
  case_decide as E; [subst|]; zbits_cases; done.
Qed.

Lemma for_words_or_fst n k f dst r : (for_words_or n k f dst r).1 = for_words n k f dst.
Proof. revert k dst r. induction n; intros; simpl; [done|auto]. Qed.

Lemma for_words_or_snd n k f dst r :
  nz (for_words_or n k f dst r).2 = nz r || any_word n k (fun j => nz (f j)).
Proof.
  revert k dst r. induction n as [|n IH]; intros k dst r; simpl; [by rewrite orb_false_r|].
  rewrite IH. assert (nz (r .| f k) = nz r || nz (f k)) as ->.
  { unfold nz. rewrite <- negb_andb. f_equal. apply eq_bool_prop_intro.
    rewrite andb_True, !Is_true_true, !Z.eqb_eq. apply Z.lor_eq_0_iff. }
  by rewrite <- orb_assoc.
Qed.

Lemma bit_at addr i : bit addr i = Z.testbit (word addr (i / 64)) (i mod 64).
Proof. done. Qed.

Lemma bits_to_longs_cover bits i : 0 <= i < bits -> 0 <= i / 64 < 0 + Z.of_nat (Z.to_nat (BITS_TO_LONGS bits)).
Proof.
  intros Hi. unfold BITS_TO_LONGS, BITS_PER_LONG.
  pose proof (Z.div_mod i 64 ltac:(lia)). pose proof (Z.mod_pos_bound i 64 ltac:(lia)).
  pose proof (Z.div_mod (bits + 64 - 1) 64 ltac:(lia)). pose proof (Z.mod_pos_bound (bits + 64 - 1) 64 ltac:(lia)).
  lia.
Qed.

(** The bits of a word-wise combination. *)
Lemma for_words_bit f dst bits i :
  BITS_TO_LONGS bits <= Z.of_nat (length dst) -> 0 <= i < bits ->
  bit (for_words (Z.to_nat (BITS_TO_LONGS bits)) 0 f dst) i = Z.testbit (f (i / 64)) (i mod 64).
Proof.
  intros Hl Hi. pose proof (bits_to_longs_cover bits i Hi).
  rewrite bit_at, for_words_word by lia. by zbits_cases.
Qed.

(** ** Setting and clearing an area *)

Lemma bit_set_word addr p v i : 0 <= p < Z.of_nat (length addr) -> 0 <= i ->
  bit (set_word addr p v) i = if i / 64 =? p then Z.testbit v (i mod 64) else bit addr i.
Proof.
  intros Hp Hi. rewrite !bit_at, word_set_word by (done || apply Z.div_pos; lia).
  case_decide; zbits_cases; done.
Qed.

Definition in_area (lo hi i : Z) : bool := (lo <=? i) && (i <? hi).

Lemma area_fuel_enough nr b : 0 <= nr -> 0 < b -> nr < b + 64 * (Z.of_nat (area_fuel nr) - 1).
Proof.
  intros. unfold area_fuel, BITS_PER_LONG. pose proof (Z.div_mod nr 64 ltac:(lia)).
  pose proof (Z.mod_pos_bound nr 64 ltac:(lia)). pose proof (Z.div_pos nr 64 ltac:(lia) ltac:(lia)). lia.
Qed.

(** The mask of the first word covers the bits from [64 - b] on. *)
Definition covers (mask b : Z) : Prop := forall j, 0 <= j < 64 -> Z.testbit mask j = (64 - b <=? j).

Lemma covers_first start : covers (BITMAP_FIRST_WORD_MASK start) (64 - start mod 64).
Proof.
  intros j Hj. pose proof (Z.mod_pos_bound start 64 ltac:(lia)).
  unfold BITMAP_FIRST_WORD_MASK, ALL_ONES, BITS_PER_LONG. zbits_norm. by zbits_cases.
Qed.

Lemma covers_all : covers ALL_ONES 64.
Proof. intros j Hj. unfold ALL_ONES. zbits_norm. by zbits_cases. Qed.

(** The mask of a word that the area ends in. *)
Lemma mask_last_testbit p b nr mask j : 0 < b <= 64 -> 0 < nr < b -> covers mask b -> 0 <= j < 64 ->
  Z.testbit (mask .& BITMAP_LAST_WORD_MASK (64 * p + (64 - b) + nr)) j
  = in_area (64 - b) (64 - b + nr) j.
Proof.
  intros Hb Hnr Hc Hj. destruct (div_mod_at p (64 - b + nr) ltac:(lia)) as [_ E].
  replace (64 * p + (64 - b) + nr) with (64 * p + (64 - b + nr)) by lia.
  by rewrite Z.land_spec, Hc, last_word_mask_testbit, E by (rewrite ?E; lia).
Qed.

Lemma word_pos i p : 0 <= i -> i / 64 = p -> i = 64 * p + i mod 64 /\ 0 <= i mod 64 < 64.
Proof. intros Hi <-. pose proof (Z.div_mod i 64). pose proof (Z.mod_pos_bound i 64). lia. Qed.

Lemma word_other i p j : 0 <= j <= 64 -> i / 64 <> p -> i < 64 * p \/ 64 * p + j <= i.
Proof. intros Hj Hi. pose proof (Z.div_mod i 64 ltac:(lia)). pose proof (Z.mod_pos_bound i 64 ltac:(lia)). lia. Qed.

Lemma bitmap_set_loop_bit fuel map p nr b mask i :
  nr < b + 64 * (Z.of_nat fuel - 1) -> 0 < b <= 64 -> 0 <= nr -> 0 <= p -> covers mask b ->
  64 * p + (64 - b) + nr <= 64 * Z.of_nat (length map) -> 0 <= i ->
  bit (bitmap_set_loop fuel map p nr b mask (64 * p + (64 - b) + nr)) i
  = bit map i || in_area (64 * p + (64 - b)) (64 * p + (64 - b) + nr) i.
Proof.
  revert map p nr b mask. induction fuel as [|fuel IH]; intros map p nr b mask Hf Hb Hnr Hp Hc Hl Hi; [lia|].
  cbn [bitmap_set_loop]. unfold BITS_PER_LONG. destruct (Z.leb_spec 0 (nr - b)).
  - replace (64 * p + (64 - b) + nr) with (64 * (p + 1) + (64 - 64) + (nr - b)) by lia.
    rewrite IH by (rewrite ?length_set_word; lia || apply covers_all). rewrite bit_set_word by lia.
    unfold in_area. destruct (Z.eqb_spec (i / 64) p) as [E|E].
    + destruct (word_pos i p Hi E) as [Ei Hj]. rewrite Z.lor_spec, Hc, (bit_at map), E by lia.
      zbits_cases; btauto.
    + pose proof (word_other i p 64 ltac:(lia) E). zbits_cases; btauto.
  - destruct (nz nr) eqn:En; [apply nz_true in En|apply nz_false in En; unfold in_area; zbits_cases; btauto].
    rewrite bit_set_word by lia. destruct (Z.eqb_spec (i / 64) p) as [E|E].
    + destruct (word_pos i p Hi E) as [Ei Hj].
      rewrite Z.lor_spec, mask_last_testbit, (bit_at map), E by (done || lia).
      unfold in_area. zbits_cases; btauto.
    + pose proof (word_other i p 64 ltac:(lia) E). unfold in_area. zbits_cases; btauto.
Qed.

Lemma start_split start : start = 64 * (start / 64) + (64 - (64 - start mod 64)).
Proof. pose proof (Z.div_mod start 64). lia. Qed.

Lemma bitmap_set_bit map start nr i :
  0 <= start -> 0 <= nr -> start + nr <= 64 * Z.of_nat (length map) -> 0 <= i ->
  bit (bitmap_set map start nr) i = bit map i || in_area start (start + nr) i.
Proof.
  intros Hs Hn Hl Hi. unfold bitmap_set, BIT_WORD, BITS_PER_LONG.
  pose proof (Z.mod_pos_bound start 64 ltac:(lia)). pose proof (Z.div_pos start 64 ltac:(lia) ltac:(lia)).
  pose proof (area_fuel_enough nr (64 - start mod 64) ltac:(lia) ltac:(lia)).
  pose proof (bitmap_set_loop_bit (area_fuel nr) map (start / 64) nr (64 - start mod 64)
    (BITMAP_FIRST_WORD_MASK start) i) as HL.
  rewrite <- (start_split start) in HL. apply HL; try lia. apply covers_first.
Qed.

Lemma bitmap_clear_loop_bit fuel map p nr b mask i :
  nr < b + 64 * (Z.of_nat fuel - 1) -> 0 < b <= 64 -> 0 <= nr -> 0 <= p -> covers mask b ->
  64 * p + (64 - b) + nr <= 64 * Z.of_nat (length map) -> 0 <= i ->
  bit (bitmap_clear_loop fuel map p nr b mask (64 * p + (64 - b) + nr)) i
  = bit map i && negb (in_area (64 * p + (64 - b)) (64 * p + (64 - b) + nr) i).
Proof.
  revert map p nr b mask. induction fuel as [|fuel IH]; intros map p nr b mask Hf Hb Hnr Hp Hc Hl Hi; [lia|].
  cbn [bitmap_clear_loop]. unfold BITS_PER_LONG. destruct (Z.leb_spec 0 (nr - b)).
  - replace (64 * p + (64 - b) + nr) with (64 * (p + 1) + (64 - 64) + (nr - b)) by lia.
    rewrite IH by (rewrite ?length_set_word; lia || apply covers_all). rewrite bit_set_word by lia.
    unfold in_area. destruct (Z.eqb_spec (i / 64) p) as [E|E].
    + destruct (word_pos i p Hi E) as [Ei Hj].
      rewrite Z.land_spec, wrap_spec, Z.lnot_spec, Hc, (bit_at map), E by lia. zbits_cases; btauto.
    + pose proof (word_other i p 64 ltac:(lia) E). zbits_cases; btauto.
  - destruct (nz nr) eqn:En; [apply nz_true in En|apply nz_false in En; unfold in_area; zbits_cases; btauto].
    rewrite bit_set_word by lia. destruct (Z.eqb_spec (i / 64) p) as [E|E].
    + destruct (word_pos i p Hi E) as [Ei Hj].
      rewrite Z.land_spec, wrap_spec, Z.lnot_spec, mask_last_testbit, (bit_at map), E by (done || lia).
      unfold in_area. zbits_cases; btauto.
    + pose proof (word_other i p 64 ltac:(lia) E). unfold in_area. zbits_cases; btauto.
Qed.

Lemma bitmap_clear_bit map start nr i :
  0 <= start -> 0 <= nr -> start + nr <= 64 * Z.of_nat (length map) -> 0 <= i ->
  bit (bitmap_clear map start nr) i = bit map i && negb (in_area start (start + nr) i).
Proof.
  intros Hs Hn Hl Hi. unfold bitmap_clear, BIT_WORD, BITS_PER_LONG.
  pose proof (Z.mod_pos_bound start 64 ltac:(lia)). pose proof (Z.div_pos start 64 ltac:(lia) ltac:(lia)).
  pose proof (area_fuel_enough nr (64 - start mod 64) ltac:(lia) ltac:(lia)).
  pose proof (bitmap_clear_loop_bit (area_fuel nr) map (start / 64) nr (64 - start mod 64)
    (BITMAP_FIRST_WORD_MASK start) i) as HL.
  rewrite <- (start_split start) in HL. apply HL; try lia. apply covers_first.
Qed.

(** ** Searching a free area *)

(** [r] starts a run of [nr] clear bits below [size], aligned to [2 ^ a]. *)
Definition free_area (map : list Z) (size start nr a r : Z) : Prop :=
  start <= r /\ r mod 2 ^ a = 0 /\ r + nr <= size /\ forall i, r <= i < r + nr -> bit map i = false.

Lemma clear_low_bits x a : in_u 64 x -> 0 <= a -> x .& u64 (.~ (2 ^ a - 1)) = 2 ^ a * (x / 2 ^ a).
Proof.
  intros Hx Ha. transitivity ((x .>> a) .<< a).
  - replace (2 ^ a - 1) with (Z.ones a) by (rewrite Z.ones_equiv; lia).
    apply Z.bits_inj'. intros i Hi. zbits_norm. destruct (Z.lt_ge_cases i 64).
    + zbits_cases; zbits_unify; btauto.
    + rewrite (testbit_ge_range 64 x) by (done || lia). simpl. symmetry.
      destruct (Z.le_gt_cases 0 (i - a)); [|by rewrite Z.testbit_neg_r by lia].
      zbits_norm. apply (testbit_ge_range 64); [done|lia].
  - rewrite Z.shiftl_mul_pow2, Z.shiftr_div_pow2 by lia. lia.
Qed.

Lemma align_mask_up x a : 0 <= x -> 0 <= a -> x + 2 ^ a < 2 ^ 64 ->
  let y := ALIGN_MASK x (2 ^ a - 1) in
  x <= y < x + 2 ^ a /\ y mod 2 ^ a = 0 /\ forall z, x <= z -> z mod 2 ^ a = 0 -> y <= z.
Proof.
  intros Hx Ha Hb. cbv zeta. unfold ALIGN_MASK. assert (0 < 2 ^ a) as Hp by (apply Z.pow_pos_nonneg; lia).
  rewrite (wrap_small 64 (x + _)) by (unfold in_u; lia).
  rewrite clear_low_bits by (unfold in_u; lia).
  set (m := 2 ^ a) in *. set (q := (x + (m - 1)) / m).
  pose proof (Z.div_mod (x + (m - 1)) m ltac:(lia)). pose proof (Z.mod_pos_bound (x + (m - 1)) m ltac:(lia)).
  fold q in H. split; [lia|]. split; [rewrite Z.mul_comm; apply Z.mod_mul; lia|].
  intros z Hz Hmod. pose proof (Z.div_mod z m ltac:(lia)) as Ez. rewrite Hmod, Z.add_0_r in Ez.
  assert (m * q < m * (z / m + 1)) as Hq by lia. apply Z.mul_lt_mono_pos_l in Hq; [|lia].
  rewrite Ez. apply Z.mul_le_mono_nonneg_l; lia.
Qed.

Section zero_area.
Context (map : list Z) (size nr a : Z).
Context (Hok : words_ok map) (Hsz : 0 <= size) (Hnr : 0 < nr) (Ha : 0 <= a).
Context (Hb : size + nr + 2 ^ a < 2 ^ 64).

(** What the search returns from [start]. *)
Definition area_result (start r : Z) : Prop :=
  (free_area map size start nr a r /\ forall r', free_area map size start nr a r' -> r <= r')
  \/ (size < r /\ forall r', ~ free_area map size start nr a r').

(** Every free area begins at or after the aligned first zero bit. *)
Lemma area_after_index start r' : 0 <= start < size -> free_area map size start nr a r' ->
  ALIGN_MASK (find_next_zero_bit map size start) (2 ^ a - 1) <= r'.
Proof.
  intros Hs (Hr1 & Hr2 & Hr3 & Hr4).
  pose proof (find_next_zero_bit_first map size start Hok ltac:(unfold in_u; lia) ltac:(lia)) as HZ.
  rewrite (proj2 (Z.leb_gt size start)) in HZ by lia. destruct HZ as (HZ1 & HZ2 & _).
  set (z := find_next_zero_bit map size start) in *.
  destruct (align_mask_up z a ltac:(lia) Ha ltac:(lia)) as (_ & _ & Hleast).
  apply Hleast; [|done]. destruct (Z.le_gt_cases z r'); [done|].
  specialize (HZ2 r' ltac:(lia)). rewrite Hr4 in HZ2 by lia. done.
Qed.

Lemma find_zero_area_again_ok fuel start :
  0 <= start -> size - start < Z.of_nat fuel -> (0 < fuel)%nat ->
  area_result start (find_zero_area_again fuel map size start nr (2 ^ a - 1)).
Proof.
  revert start. induction fuel as [|fuel IH]; intros start Hs Hf Hpos; [lia|].
  assert (0 < 2 ^ a) by (apply Z.pow_pos_nonneg; lia).
  pose proof (find_next_zero_bit_first map size start Hok ltac:(unfold in_u; lia) Hs) as HZ.
  cbn [find_zero_area_again]. set (z := find_next_zero_bit map size start) in *.
  assert (0 <= z <= size) as Hz by (destruct (Z.leb_spec size start); [lia | destruct HZ; lia]).
  destruct (align_mask_up z a ltac:(lia) Ha ltac:(lia)) as (Hal & Hmod & _).
  set (index := ALIGN_MASK z (2 ^ a - 1)) in *.
  rewrite (wrap_small 64 (index + nr)) by (unfold in_u; lia).
  destruct (Z.ltb_spec size (index + nr)).
  - right. split; [done|]. intros r' Hr'. destruct (Z.lt_ge_cases start size).
    + pose proof (area_after_index start r' ltac:(lia) Hr') as Hle. fold z index in Hle.
      destruct Hr' as (_ & _ & ? & _). lia.
    + destruct Hr' as (? & _ & ? & _). lia.
  - assert (start < size) by (destruct (Z.leb_spec size start); [lia|done]).
    rewrite (proj2 (Z.leb_gt size start)) in HZ by lia. destruct HZ as (HZ1 & HZ2 & HZ3).
    pose proof (find_next_bit_first map (index + nr) index Hok ltac:(unfold in_u; lia) ltac:(lia)) as HI.
    rewrite (proj2 (Z.leb_gt (index + nr) index)) in HI by lia. destruct HI as (HI1 & HI2 & HI3).
    set (i := find_next_bit map (index + nr) index) in *. destruct (Z.ltb_spec i (index + nr)).
    + assert (forall r', free_area map size start nr a r' -> free_area map size (i + 1) nr a r') as Hup.
      { intros r' Hr'. pose proof (area_after_index start r' ltac:(lia) Hr') as Hle. fold z index in Hle.
        destruct Hr' as (? & ? & ? & Hc). split; [|done]. destruct (Z.le_gt_cases (i + 1) r'); [done|].
        rewrite Hc in HI3 by lia. by specialize (HI3 ltac:(lia)). }
      destruct (IH (i + 1)) as [[Hfa Hmin]|[Hlt Hno]]; [lia..| |].
      * left. split; [|by eauto]. destruct Hfa as (? & Hrest). split; [lia|exact Hrest].
      * right. split; [done|]. intros r' Hr'. by apply (Hno r'), Hup.
    + left. split.
      * split; [lia|]. split; [done|]. split; [lia|]. intros j Hj. apply HI2. lia.
      * intros r' Hr'. apply (area_after_index start r' ltac:(lia) Hr').
Qed.
End zero_area.

(** ** What the operations promise *)

(** [bitmap_set] sets exactly the bits [start .. start + nr) of the bitmap
    and [bitmap_clear] clears exactly those: every bit inside the area gets
    the new value and every bit outside keeps its own, across word
    boundaries. *)
Theorem bitmap_area_update map start nr i :
  0 <= start -> 0 <= nr -> start + nr <= 64 * Z.of_nat (length map) -> 0 <= i ->
  bit (bitmap_set map start nr) i = bit map i || in_area start (start + nr) i
  /\ bit (bitmap_clear map start nr) i = bit map i && negb (in_area start (start + nr) i).
Proof. intros. split; [by apply bitmap_set_bit|by apply bitmap_clear_bit]. Qed.

Lemma bitmap_area_update_witness :
  bit (bitmap_set [0; 0; 0] 60 70) 129 = true /\ bit (bitmap_clear [ALL_ONES; ALL_ONES; ALL_ONES] 60 70) 129 = false.
Proof.
  split.
  - rewrite (proj1 (bitmap_area_update [0; 0; 0] 60 70 129 ltac:(lia) ltac:(lia) ltac:(simpl; lia) ltac:(lia))).
    reflexivity.
  - rewrite (proj2 (bitmap_area_update [ALL_ONES; ALL_ONES; ALL_ONES] 60 70 129 ltac:(lia) ltac:(lia) ltac:(simpl; lia) ltac:(lia))).
    reflexivity.
Defined.

(** C34: [bitmap_find_next_zero_area] is a first fit: it returns the lowest
    index at or after [start] that is a multiple of the alignment and begins
    [nr] clear bits below [size]; when there is no such area the result is
    above [size]. *)
Theorem bitmap_find_next_zero_area_first_fit map size start nr a :
  words_ok map -> 0 <= size -> 0 <= start -> 0 < nr -> 0 <= a -> size + nr + 2 ^ a < 2 ^ 64 ->
  area_result map size nr a start (bitmap_find_next_zero_area map size start nr (2 ^ a - 1)).
Proof. intros. apply find_zero_area_again_ok; try done; lia. Qed.

Lemma bitmap_find_next_zero_area_first_fit_witness :
  area_result [0x0f0f; 0] 128 6 3 0 (bitmap_find_next_zero_area [0x0f0f; 0] 128 0 6 (2 ^ 3 - 1))
  /\ bitmap_find_next_zero_area [0x0f0f; 0] 128 0 6 (2 ^ 3 - 1) = 16.
Proof.
  split; [|reflexivity]. apply (bitmap_find_next_zero_area_first_fit [0x0f0f; 0] 128 0 6 3); [|lia..].
  repeat constructor; simpl; lia.
Defined.

(** The whole-bitmap tests look at the first [bits] bits and at no other:
    empty, full, equal and intersecting mean what they say of those bits,
    whatever the unused part of the last word holds. *)
Theorem bitmap_tests_see_prefix bitmap1 bitmap2 bits :
  words_ok bitmap1 -> words_ok bitmap2 -> 0 <= bits ->
  (slow_bitmap_empty bitmap1 bits = true <-> forall i, 0 <= i < bits -> bit bitmap1 i = false)
  /\ (slow_bitmap_full bitmap1 bits = true <-> forall i, 0 <= i < bits -> bit bitmap1 i = true)
  /\ (slow_bitmap_equal bitmap1 bitmap2 bits = true <-> forall i, 0 <= i < bits -> bit bitmap1 i = bit bitmap2 i)
  /\ (slow_bitmap_intersects bitmap1 bitmap2 bits = false
      <-> forall i, 0 <= i < bits -> bit bitmap1 i && bit bitmap2 i = false).
Proof.
  intros. split; [by apply slow_bitmap_empty_iff|]. split; [by apply slow_bitmap_full_iff|].
  split; [by apply slow_bitmap_equal_iff|by apply slow_bitmap_intersects_iff].
Qed.

Lemma bitmap_tests_see_prefix_witness :
  (forall i, 0 <= i < 68 -> bit [ALL_ONES; 0xf] i = true)
  /\ forall i, 0 <= i < 68 -> bit [ALL_ONES; 0xf] i = bit [ALL_ONES; 0xff] i.
Proof.
  assert (words_ok [ALL_ONES; 0xf]) as H1 by (repeat (apply Forall_cons; split; [split; done|]); done).
  assert (words_ok [ALL_ONES; 0xff]) as H2 by (repeat (apply Forall_cons; split; [split; done|]); done).
  destruct (bitmap_tests_see_prefix [ALL_ONES; 0xf] [ALL_ONES; 0xff] 68 H1 H2 ltac:(lia)) as (_ & Hf & He & _).
  split; [apply Hf|apply He]; reflexivity.
Defined.

(** The bits of [slow_bitmap_and] and its relatives. *)
Lemma slow_bitmap_and_fst dst bitmap1 bitmap2 bits :
  (slow_bitmap_and dst bitmap1 bitmap2 bits).1
  = for_words (Z.to_nat (BITS_TO_LONGS bits)) 0 (fun k => word bitmap1 k .& word bitmap2 k) dst.
Proof. unfold slow_bitmap_and. rewrite <- (for_words_or_fst _ _ _ _ 0). by destruct (for_words_or _ _ _ _ _). Qed.

Lemma slow_bitmap_and_snd dst bitmap1 bitmap2 bits :
  (slow_bitmap_and dst bitmap1 bitmap2 bits).2
  = any_word (Z.to_nat (BITS_TO_LONGS bits)) 0 (fun k => nz (word bitmap1 k .& word bitmap2 k)).
Proof.
  unfold slow_bitmap_and. rewrite <- (orb_false_l (any_word _ _ _)).
  rewrite <- (for_words_or_snd _ _ _ dst 0). by destruct (for_words_or _ _ _ _ _).
Qed.

Lemma slow_bitmap_andnot_fst dst bitmap1 bitmap2 bits :
  (slow_bitmap_andnot dst bitmap1 bitmap2 bits).1
  = for_words (Z.to_nat (BITS_TO_LONGS bits)) 0 (fun k => word bitmap1 k .& u64 (.~ word bitmap2 k)) dst.
Proof. unfold slow_bitmap_andnot. rewrite <- (for_words_or_fst _ _ _ _ 0). by destruct (for_words_or _ _ _ _ _). Qed.

Lemma length_for_words n k f dst : length (for_words n k f dst) = length dst.
Proof. revert k dst. induction n as [|n IH]; intros k dst; simpl; [done|]. by rewrite IH, length_set_word. Qed.

Lemma bits_to_longs_floor bits : 0 <= bits ->
  BITS_TO_LONGS bits = bits / 64 + (if nz (bits mod 64) then 1 else 0).
Proof.
  intros Hb. unfold BITS_TO_LONGS, BITS_PER_LONG.
  pose proof (Z.div_mod bits 64 ltac:(lia)). pose proof (Z.mod_pos_bound bits 64 ltac:(lia)).
  pose proof (Z.div_mod (bits + 64 - 1) 64 ltac:(lia)). pose proof (Z.mod_pos_bound (bits + 64 - 1) 64 ltac:(lia)).
  destruct (nz (bits mod 64)) eqn:E; [apply nz_true in E|apply nz_false in E]; lia.
Qed.

Lemma slow_bitmap_complement_bit dst src bits i :
  BITS_TO_LONGS bits <= Z.of_nat (length dst) -> 0 <= i < bits ->
  bit (slow_bitmap_complement dst src bits) i = negb (bit src i).
Proof.
  intros Hl Hi. rewrite bits_to_longs_floor in Hl by lia. unfold slow_bitmap_complement, BITS_PER_LONG.
  pose proof (Z.div_mod bits 64 ltac:(lia)). pose proof (Z.mod_pos_bound bits 64 ltac:(lia)).
  pose proof (Z.div_mod i 64 ltac:(lia)). pose proof (Z.mod_pos_bound i 64 ltac:(lia)).
  assert (0 <= i / 64 <= bits / 64) as Hq by (split; [apply Z.div_pos|apply Z.div_le_mono]; lia).
  destruct (nz (bits mod 64)) eqn:E; [apply nz_true in E|apply nz_false in E].
  - rewrite bit_set_word by (rewrite ?length_for_words; lia). rewrite !bit_at.
    destruct (Z.eqb_spec (i / 64) (bits / 64)) as [Ei|].
    + rewrite Z.land_spec, last_word_mask_testbit by lia. zbits_norm. rewrite Ei. zbits_cases. btauto.
    + rewrite for_words_word by lia. zbits_cases. zbits_norm. by zbits_cases.
  - rewrite !bit_at, for_words_word by lia. zbits_cases. zbits_norm. by zbits_cases.
Qed.

(** The word-wise operations compute the intersection, union, symmetric
    difference, difference and complement of the bitmaps, bit by bit over the
    first [bits] bits. *)
Theorem bitmap_boolean_algebra dst b1 b2 bits i :
  BITS_TO_LONGS bits <= Z.of_nat (length dst) -> 0 <= i < bits ->
  bit (slow_bitmap_and dst b1 b2 bits).1 i = bit b1 i && bit b2 i
  /\ bit (slow_bitmap_or dst b1 b2 bits) i = bit b1 i || bit b2 i
  /\ bit (slow_bitmap_xor dst b1 b2 bits) i = xorb (bit b1 i) (bit b2 i)
  /\ bit (slow_bitmap_andnot dst b1 b2 bits).1 i = bit b1 i && negb (bit b2 i)
  /\ bit (slow_bitmap_complement dst b1 bits) i = negb (bit b1 i).
Proof.
  intros Hl Hi. pose proof (Z.mod_pos_bound i 64 ltac:(lia)).
  rewrite slow_bitmap_and_fst, slow_bitmap_andnot_fst, slow_bitmap_complement_bit by done.
  unfold slow_bitmap_or, slow_bitmap_xor. rewrite !for_words_bit by done.
  rewrite !bit_at, !Z.land_spec, Z.lor_spec, Z.lxor_spec. zbits_norm. by zbits_cases.
Qed.

Lemma bitmap_boolean_algebra_witness :
  bit (slow_bitmap_andnot [0; 0] [0; 7] [0; 2] 66).1 64 = true
  /\ bit (slow_bitmap_complement [0; 0] [0; 7] 66) 65 = false.
Proof.
  split.
  - destruct (bitmap_boolean_algebra [0; 0] [0; 7] [0; 2] 66 64) as (_ & _ & _ & -> & _); [done|lia|reflexivity].
  - destruct (bitmap_boolean_algebra [0; 0] [0; 7] [0; 2] 66 65) as (_ & _ & _ & _ & ->); [done|lia|reflexivity].
Defined.

(** The result of the conjunction is an intersection test of whole words. *)
Lemma slow_bitmap_and_whole_words dst b1 b2 bits :
  (slow_bitmap_and dst b1 b2 bits).2 = slow_bitmap_intersects b1 b2 (64 * BITS_TO_LONGS bits).
Proof.
  rewrite slow_bitmap_and_snd. unfold slow_bitmap_intersects.
  change BITS_PER_LONG with 64. rewrite (Z.mul_comm 64), Z.div_mul, Z.mod_mul by lia.
  by destruct (any_word _ _ _).
Qed.

(** The result of [slow_bitmap_and] tells whether the bitmaps share a bit
    among all the words the operation touches. That range goes beyond the
    first [bits] bits: overlapping unused bits of the last word make the
    result true for two bitmaps that do not intersect. *)
Theorem bitmap_and_result_sees_unused_bits dst b1 b2 bits : words_ok b1 -> words_ok b2 -> 0 <= bits ->
  (slow_bitmap_and dst b1 b2 bits).2 = true
  <-> exists i, 0 <= i < 64 * BITS_TO_LONGS bits /\ bit b1 i && bit b2 i = true.
Proof.
  intros H1 H2 Hb. rewrite slow_bitmap_and_whole_words.
  rewrite bits_to_longs_floor by lia. pose proof (Z.div_pos bits 64 Hb ltac:(lia)).
  set (n := 64 * _). assert (0 <= n) as Hn by (unfold n; destruct (nz _); lia). clearbody n.
  pose proof (slow_bitmap_intersects_iff b1 b2 n H1 H2 Hn) as HI. split.
  - intros Ht. destruct (decide (Exists (fun i => bit b1 i && bit b2 i = true) (seqZ 0 n))) as [HE|HE].
    + apply Exists_exists in HE as (i & Hi%elem_of_seqZ & Hi'). exists i. split; [lia|done].
    + rewrite (proj2 HI) in Ht; [done|]. intros i Hi. apply not_true_iff_false. intros Hi'.
      apply HE, Exists_exists. exists i. split; [apply elem_of_seqZ; lia|done].
  - intros (i & Hi & Hi'). apply not_false_iff_true. intros Hf.
    rewrite (proj1 HI Hf i Hi) in Hi'. done.
Qed.

Lemma bitmap_and_result_sees_unused_bits_witness :
  (slow_bitmap_and [0; 0] [0; 8] [0; 8] 66).2 = true /\ slow_bitmap_intersects [0; 8] [0; 8] 66 = false.
Proof.
  split; [|reflexivity]. apply bitmap_and_result_sees_unused_bits;
    [repeat constructor; simpl; lia..|lia|].
  exists 67. split; [vm_compute; split; congruence|reflexivity].
Defined.
