(* ===== verification/ByteStream.v ===== *)
(** The snapshot stream as its clients see it. The devices save and load
    themselves through the byte operations of a [QEMUFile]; the multi-byte
    operations of savevm.c ([qemu_put_be16] ... [qemu_get_struct]) are
    defined here from those byte operations, for every implementation of
    them. [ByteWriter]/[ByteReader] hold the operations and
    [WriterLaws]/[ReaderLaws] what an implementation promises: a writer
    appends the bytes it is given, a reader hands out the bytes that are
    left, in order. [QemuFile] discharges the laws for the buffered files. *)
From S2P Require Import Prelude.

(** ** The operations *)

Class ByteWriter (F : Type) := {
  qemu_put_byte : F -> Z -> F;
  qemu_put_buffer : F -> list Z -> F;
}.

Class ByteReader (G : Type) := {
  qemu_get_byte : G -> Z * G;
  (** The bytes delivered (their number is the C result) and the file. *)
  qemu_get_buffer : G -> Z -> list Z * G;
}.

Section operations.
Context {F G : Type} `{ByteWriter F} `{ByteReader G}.

Definition qemu_put_be16 (f : F) (v : Z) : F :=
  let f := qemu_put_byte f (v .>> 8) in
  qemu_put_byte f v.

Definition qemu_put_be32 (f : F) (v : Z) : F :=
  let f := qemu_put_byte f (v .>> 24) in
  let f := qemu_put_byte f (v .>> 16) in
  let f := qemu_put_byte f (v .>> 8) in
  qemu_put_byte f v.

(** The two arguments are converted to [unsigned int]. *)
Definition qemu_put_be64 (f : F) (v : Z) : F :=
  let f := qemu_put_be32 f (u32 (v .>> 32)) in
  qemu_put_be32 f (u32 v).

Definition qemu_get_be16 (g : G) : Z * G :=
  let '(b1, g) := qemu_get_byte g in
  let '(b0, g) := qemu_get_byte g in
  (u32 (b1 .<< 8) .| b0, g).

Definition qemu_get_be32 (g : G) : Z * G :=
  let '(b3, g) := qemu_get_byte g in
  let '(b2, g) := qemu_get_byte g in
  let '(b1, g) := qemu_get_byte g in
  let '(b0, g) := qemu_get_byte g in
  (u32 (b3 .<< 24) .| u32 (b2 .<< 16) .| u32 (b1 .<< 8) .| b0, g).

Definition qemu_get_be64 (g : G) : Z * G :=
  let '(hi, g) := qemu_get_be32 g in
  let '(lo, g) := qemu_get_be32 g in
  (u64 (hi .<< 32) .| lo, g).

(** Strings are their bytes; NULL and the empty string are written alike. *)
Definition qemu_put_string (f : F) (str : option (list Z)) : F :=
  let str := default [] str in
  let f := qemu_put_be32 f (Z.of_nat (length str)) in
  qemu_put_buffer f str.

Definition qemu_get_string (g : G) : option (list Z) * G :=
  let '(slen, g) := qemu_get_be32 g in
  let slen := s32 slen in
  if slen =? 0 then (None, g) else
  let '(bs, g) := qemu_get_buffer g slen in
  if negb (Z.of_nat (length bs) =? slen) then (None, g) else (Some bs, g).

(** The field descriptions of [QField]: the type of the field and, for its
    offset in the structure [S], how the field is read and written. A
    [Q_FIELD_BUFFER] item carries the size its two companion items encode. *)
Inductive QField (S : Type) : Type :=
| Q_FIELD_BYTE (get : S -> Z) (set : Z -> S -> S)
| Q_FIELD_INT16 (get : S -> Z) (set : Z -> S -> S)
| Q_FIELD_INT32 (get : S -> Z) (set : Z -> S -> S)
| Q_FIELD_INT64 (get : S -> Z) (set : Z -> S -> S)
| Q_FIELD_BUFFER (size : Z) (get : S -> list Z) (set : list Z -> S -> S).

Definition put_field {S} (s : S) (f : F) (qf : QField S) : F :=
  match qf with
  | Q_FIELD_BYTE _ get _ => qemu_put_byte f (get s)
  | Q_FIELD_INT16 _ get _ => qemu_put_be16 f (get s)
  | Q_FIELD_INT32 _ get _ => qemu_put_be32 f (get s)
  | Q_FIELD_INT64 _ get _ => qemu_put_be64 f (get s)
  | Q_FIELD_BUFFER _ _ get _ => qemu_put_buffer f (get s)
  end.

Definition qemu_put_struct {S} (f : F) (fields : list (QField S)) (s : S) : F :=
  foldl (put_field s) f fields.

(** [qemu_get_struct] returns 0, or -1 on a short buffer, with the structure
    as filled so far. *)
Fixpoint qemu_get_struct {S} (g : G) (fields : list (QField S)) (s : S) : Z * S * G :=
  match fields with
  | [] => (0, s, g)
  | Q_FIELD_BYTE _ _ set :: fields =>
      let '(v, g) := qemu_get_byte g in qemu_get_struct g fields (set (u8 v) s)
  | Q_FIELD_INT16 _ _ set :: fields =>
      let '(v, g) := qemu_get_be16 g in qemu_get_struct g fields (set (u16 v) s)
  | Q_FIELD_INT32 _ _ set :: fields =>
      let '(v, g) := qemu_get_be32 g in qemu_get_struct g fields (set (u32 v) s)
  | Q_FIELD_INT64 _ _ set :: fields =>
      let '(v, g) := qemu_get_be64 g in qemu_get_struct g fields (set (u64 v) s)
  | Q_FIELD_BUFFER _ size get set :: fields =>
      let '(bs, g) := qemu_get_buffer g size in
      let s := set (bs ++ drop (length bs) (get s)) s in
      if negb (Z.of_nat (length bs) =? size) then (-1, s, g)
      else qemu_get_struct g fields s
  end.
End operations.

Arguments Q_FIELD_BYTE {S}.
Arguments Q_FIELD_INT16 {S}.
Arguments Q_FIELD_INT32 {S}.
Arguments Q_FIELD_INT64 {S}.
Arguments Q_FIELD_BUFFER {S}.

(** ** What an implementation promises *)

Class WriterLaws (F : Type) `{ByteWriter F} := {
  (** No error so far, and the representation invariant holds. *)
  w_ok : F -> Prop;
  (** Everything written to the file. *)
  w_out : F -> list Z;
  w_put_byte f v : w_ok f ->
    w_ok (qemu_put_byte f v) /\ w_out (qemu_put_byte f v) = w_out f ++ [u8 v];
  w_put_buffer f bs : w_ok f -> Forall (in_u 8) bs ->
    w_ok (qemu_put_buffer f bs) /\ w_out (qemu_put_buffer f bs) = w_out f ++ bs;
}.

Class ReaderLaws (G : Type) `{ByteReader G} := {
  r_ok : G -> Prop;
  (** The bytes still to be read. *)
  r_in : G -> list Z;
  r_get_byte g b l : r_ok g -> r_in g = b :: l ->
    exists g', qemu_get_byte g = (b, g') /\ r_ok g' /\ r_in g' = l;
  r_get_buffer g bs l : r_ok g -> r_in g = bs ++ l ->
    exists g', qemu_get_buffer g (Z.of_nat (length bs)) = (bs, g') /\ r_ok g' /\ r_in g' = l;
}.

(** ** The bytes of each value *)

Definition be16 (v : Z) : list Z := [u8 (v .>> 8); u8 v].
Definition be32 (v : Z) : list Z := [u8 (v .>> 24); u8 (v .>> 16); u8 (v .>> 8); u8 v].
Definition be64 (v : Z) : list Z := be32 (u32 (v .>> 32)) ++ be32 (u32 v).

(** [f'] is [f] with [bs] written to it. *)
Definition emits {F} `{WriterLaws F} (f : F) (bs : list Z) (f' : F) : Prop :=
  w_ok f' /\ w_out f' = w_out f ++ bs.

(** Reading [bs] off [g] leaves [g']. *)
Definition consumed {G} `{ReaderLaws G} (l : list Z) (g' : G) : Prop := r_ok g' /\ r_in g' = l.

Section writing.
Context {F : Type} `{WriterLaws F}.

Lemma emits_refl f : w_ok f -> emits f [] f.
Proof. intros. split; [done|]. by rewrite app_nil_r. Qed.

Lemma emits_trans f1 f2 f3 b1 b2 : emits f1 b1 f2 -> emits f2 b2 f3 -> emits f1 (b1 ++ b2) f3.
Proof. intros [_ E1] [? E2]. split; [done|]. by rewrite E2, E1, app_assoc. Qed.

Lemma emits_ok f bs f' : emits f bs f' -> w_ok f'.
Proof. by intros []. Qed.

Lemma put_byte_emits f v : w_ok f -> emits f [u8 v] (qemu_put_byte f v).
Proof. apply w_put_byte. Qed.

Lemma put_buffer_emits f bs : w_ok f -> Forall (in_u 8) bs -> emits f bs (qemu_put_buffer f bs).
Proof. apply w_put_buffer. Qed.

Lemma put_be16_emits f v : w_ok f -> emits f (be16 v) (qemu_put_be16 f v).
Proof.
  intros Hf. apply (emits_trans _ (qemu_put_byte f (v .>> 8)) _ [_] [_]).
  - by apply put_byte_emits.
  - apply put_byte_emits, (emits_ok f [u8 (v .>> 8)]), put_byte_emits, Hf.
Qed.

Lemma put_be32_emits f v : w_ok f -> emits f (be32 v) (qemu_put_be32 f v).
Proof.
  intros Hf. unfold qemu_put_be32, be32.
  pose proof (put_byte_emits f (v .>> 24) Hf) as H1.
  pose proof (put_byte_emits _ (v .>> 16) (emits_ok _ _ _ H1)) as H2.
  pose proof (put_byte_emits _ (v .>> 8) (emits_ok _ _ _ H2)) as H3.
  pose proof (put_byte_emits _ v (emits_ok _ _ _ H3)) as H4.
  exact (emits_trans _ _ _ _ _ H1 (emits_trans _ _ _ _ _ H2 (emits_trans _ _ _ _ _ H3 H4))).
Qed.

Lemma put_be64_emits f v : w_ok f -> emits f (be64 v) (qemu_put_be64 f v).
Proof.
  intros Hf. pose proof (put_be32_emits f (u32 (v .>> 32)) Hf) as H1.
  pose proof (put_be32_emits _ (u32 v) (emits_ok _ _ _ H1)) as H2.
  exact (emits_trans _ _ _ _ _ H1 H2).
Qed.

(** A loop of writes emits the concatenation. *)
Lemma foldl_emits {A} (put : F -> A -> F) (enc : A -> list Z) (l : list A) f :
  (forall f a, a ∈ l -> w_ok f -> emits f (enc a) (put f a)) -> w_ok f ->
  emits f (concat (enc <$> l)) (foldl put f l).
Proof.
  revert f. induction l as [|a l IH]; intros f Hput Hf; simpl; [by apply emits_refl|].
  pose proof (Hput f a ltac:(set_solver) Hf) as H1. eapply emits_trans; [exact H1|].
  apply IH; [intros; apply Hput; set_solver|]. by eapply emits_ok.
Qed.
End writing.

Section reading.
Context {G : Type} `{ReaderLaws G}.

Lemma get_byte_consumes g b l : r_ok g -> r_in g = b :: l ->
  exists g', qemu_get_byte g = (b, g') /\ consumed l g'.
Proof. apply r_get_byte. Qed.

Lemma get_be16_consumes g v l : r_ok g -> r_in g = be16 v ++ l ->
  exists g', qemu_get_be16 g = (u16 v, g') /\ consumed l g'.
Proof.
  intros Hg E. unfold qemu_get_be16. simpl in E.
  destruct (get_byte_consumes g _ _ Hg E) as (g1 & -> & Hg1 & E1).
  destruct (get_byte_consumes g1 _ _ Hg1 E1) as (g2 & -> & Hg2 & E2).
  exists g2. split; [f_equal; zbits | done].
Qed.

Lemma get_be32_consumes g v l : r_ok g -> r_in g = be32 v ++ l ->
  exists g', qemu_get_be32 g = (u32 v, g') /\ consumed l g'.
Proof.
  intros Hg E. unfold qemu_get_be32. simpl in E.
  destruct (get_byte_consumes g _ _ Hg E) as (g1 & -> & Hg1 & E1).
  destruct (get_byte_consumes g1 _ _ Hg1 E1) as (g2 & -> & Hg2 & E2).
  destruct (get_byte_consumes g2 _ _ Hg2 E2) as (g3 & -> & Hg3 & E3).
  destruct (get_byte_consumes g3 _ _ Hg3 E3) as (g4 & -> & Hg4 & E4).
  exists g4. split; [f_equal; zbits | done].
Qed.

Lemma get_be64_consumes g v l : r_ok g -> r_in g = be64 v ++ l ->
  exists g', qemu_get_be64 g = (u64 v, g') /\ consumed l g'.
Proof.
  intros Hg E. unfold qemu_get_be64, be64 in *. rewrite <- app_assoc in E.
  destruct (get_be32_consumes g _ _ Hg E) as (g1 & -> & Hg1 & E1).
  destruct (get_be32_consumes g1 _ _ Hg1 E1) as (g2 & -> & Hg2 & E2).
  exists g2. split; [f_equal; zbits | done].
Qed.

Lemma get_buffer_consumes g bs l : r_ok g -> r_in g = bs ++ l ->
  exists g', qemu_get_buffer g (Z.of_nat (length bs)) = (bs, g') /\ consumed l g'.
Proof. apply r_get_buffer. Qed.
End reading.

(** ** Structures *)

Definition enc_field {S} (s : S) (qf : QField S) : list Z :=
  match qf with
  | Q_FIELD_BYTE get _ => [u8 (get s)]
  | Q_FIELD_INT16 get _ => be16 (get s)
  | Q_FIELD_INT32 get _ => be32 (get s)
  | Q_FIELD_INT64 get _ => be64 (get s)
  | Q_FIELD_BUFFER _ get _ => get s
  end.

Definition enc_struct {S} (fields : list (QField S)) (s : S) : list Z :=
  concat (enc_field s <$> fields).

(** The field holds a value of its type. *)
Definition field_ok {S} (s : S) (qf : QField S) : Prop :=
  match qf with
  | Q_FIELD_BYTE get _ => in_u 8 (get s)
  | Q_FIELD_INT16 get _ => in_u 16 (get s)
  | Q_FIELD_INT32 get _ => in_u 32 (get s)
  | Q_FIELD_INT64 get _ => in_u 64 (get s)
  | Q_FIELD_BUFFER size get _ => Z.of_nat (length (get s)) = size /\ Forall (in_u 8) (get s)
  end.

(** Copy one field of [s] into [s']. *)
Definition copy_field {S} (s : S) (s' : S) (qf : QField S) : S :=
  match qf with
  | Q_FIELD_BYTE get set | Q_FIELD_INT16 get set
  | Q_FIELD_INT32 get set | Q_FIELD_INT64 get set => set (get s) s'
  | Q_FIELD_BUFFER _ get set => set (get s ++ drop (length (get s)) (get s')) s'
  end.

Lemma put_struct_emits {F} `{WriterLaws F} {S} f fields (s : S) :
  w_ok f -> Forall (field_ok s) fields ->
  emits f (enc_struct fields s) (qemu_put_struct f fields s).
Proof.
  intros Hf Hok. apply foldl_emits; [|done]. intros f' [] Hin Hf'; simpl.
  - by apply put_byte_emits.
  - by apply put_be16_emits.
  - by apply put_be32_emits.
  - by apply put_be64_emits.
  - apply put_buffer_emits; [done|]. rewrite Forall_forall in Hok. apply (Hok _ Hin).
Qed.

(** [qemu_get_struct] undoes [qemu_put_struct] field by field. *)
Lemma get_struct_consumes {G} `{ReaderLaws G} {S} g fields (s s' : S) l :
  r_ok g -> Forall (field_ok s) fields -> r_in g = enc_struct fields s ++ l ->
  exists g', qemu_get_struct g fields s' = (0, foldl (copy_field s) s' fields, g') /\ consumed l g'.
Proof.
  intros Hg Hok. revert g s' Hg. induction fields as [|qf fields IH]; intros g s' Hg E; simpl in *.
  { by exists g. }
  apply Forall_cons in Hok as [Hqf Hok]. specialize (IH Hok).
  unfold enc_struct in E. simpl in E. rewrite <- app_assoc in E. destruct qf; simpl in *.
  - destruct (get_byte_consumes _ _ _ Hg E) as (g1 & -> & Hg1 & E1).
    rewrite wrap_wrap, (wrap_small 8) by done. by apply IH.
  - destruct (get_be16_consumes _ _ _ Hg E) as (g1 & -> & Hg1 & E1).
    rewrite wrap_wrap, (wrap_small 16) by done. by apply IH.
  - destruct (get_be32_consumes _ _ _ Hg E) as (g1 & -> & Hg1 & E1).
    rewrite wrap_wrap, (wrap_small 32) by done. by apply IH.
  - destruct (get_be64_consumes _ _ _ Hg E) as (g1 & -> & Hg1 & E1).
    rewrite wrap_wrap, (wrap_small 64) by done. by apply IH.
  - destruct Hqf as [<- _].
    destruct (get_buffer_consumes _ _ _ Hg E) as (g1 & -> & Hg1 & E1).
    rewrite Z.eqb_refl. by apply IH.
Qed.

(** ** Files in memory, the simplest implementation of the laws *)

Record MemOut := mem_out { mo_bytes : list Z }.
Record MemIn := mem_in { mi_bytes : list Z }.

#[export] Instance mem_writer : ByteWriter MemOut := {|
  qemu_put_byte f v := mem_out (mo_bytes f ++ [u8 v]);
  qemu_put_buffer f bs := mem_out (mo_bytes f ++ bs);
|}.

#[export] Instance mem_reader : ByteReader MemIn := {|
  qemu_get_byte g := (default 0 (head (mi_bytes g)), mem_in (tail (mi_bytes g)));
  qemu_get_buffer g n := (take (Z.to_nat n) (mi_bytes g), mem_in (drop (Z.to_nat n) (mi_bytes g)));
|}.

#[export] Program Instance mem_writer_laws : WriterLaws MemOut := {|
  w_ok _ := True;
  w_out := mo_bytes;
|}.
Next Obligation. done. Qed.
Next Obligation. done. Qed.

#[export] Program Instance mem_reader_laws : ReaderLaws MemIn := {|
  r_ok _ := True;
  r_in := mi_bytes;
|}.
Next Obligation. intros [l'] b l _ E. simpl in *. subst. eauto. Qed.
Next Obligation.
  intros [l'] bs l _ E. simpl in *. subst. rewrite Nat2Z.id, take_app_length, drop_app_length. eauto.
Qed.
