(* ===== verification/QemuFile.v ===== *)
(** The buffered snapshot files of savevm.c. A [QEMUFile] batches bytes in a
    32 KiB buffer in front of a backend (a stdio file, a socket, a block
    device). The backend is a parameter: its operations are those of
    [QEMUFileOps], on an abstract state [O]. Writers with a [writev_buffer]
    operation additionally keep an I/O vector of the pieces to send; a piece
    is a range of the buffer or of the caller's memory ([mem]). The reading
    operations assert that the file is not writable; they are modelled for
    the files that pass the assertion. *)
From S2P Require Import Prelude ByteStream.

Definition IO_BUF_SIZE : Z := 32768.
(** [MIN(IOV_MAX, 64)]; POSIX hosts have [IOV_MAX >= 64]. *)
Definition MAX_IOV_SIZE : Z := 64.
Definition EIO : Z := 5.
Definition EAGAIN : Z := 11.

(** [memcpy(buf + off, bytes, length bytes)] *)
Definition blit (buf : list Z) (off : Z) (bytes : list Z) : list Z :=
  take (Z.to_nat off) buf ++ bytes ++ drop (Z.to_nat off + length bytes) buf.

(** [buf[off .. off + len)] *)
Definition range (buf : list Z) (off len : Z) : list Z := take (Z.to_nat len) (drop (Z.to_nat off) buf).

(** The base of an I/O vector piece: a position in [f->buf] or an address of
    the caller's memory. *)
Inductive iov_base := InBuf (off : Z) | Host (addr : Z).

Definition iov_base_eqb (a b : iov_base) : bool :=
  match a, b with
  | InBuf x, InBuf y => x =? y
  | Host x, Host y => x =? y
  | _, _ => false
  end.

Definition iov_base_add (a : iov_base) (n : Z) : iov_base :=
  match a with InBuf x => InBuf (x + n) | Host x => Host (x + n) end.

(** The backend: each operation returns the new backend state and the C
    result, the number of bytes or a negative errno. *)
Record QEMUFileOps (O : Type) := {
  put_buffer : option (O -> list Z -> Z -> O * Z);
  writev_buffer : option (O -> list (list Z) -> Z -> O * Z);
  get_buffer : O -> Z -> Z -> O * Z * list Z;
  close : option (O -> O * Z);
}.
Arguments put_buffer {O}.
Arguments writev_buffer {O}.
Arguments get_buffer {O}.
Arguments close {O}.

Record QEMUFile (O : Type) := mkQEMUFile {
  opaque : O;
  bytes_xfer : Z;
  xfer_limit : Z;
  pos : Z;
  buf_index : Z;
  buf_size : Z;
  buf : list Z;
  iov : list (iov_base * Z);
  last_error : Z;
}.
Arguments mkQEMUFile {O}.
Arguments opaque {O}.
Arguments bytes_xfer {O}.
Arguments xfer_limit {O}.
Arguments pos {O}.
Arguments buf_index {O}.
Arguments buf_size {O}.
Arguments buf {O}.
Arguments iov {O}.
Arguments last_error {O}.

Section qemu_file.
Context {O : Type} (ops : QEMUFileOps O) (mem : Z -> Z).
Implicit Types f : QEMUFile O.

(** [qemu_fopen_ops] *)
Definition qemu_fopen_ops (o : O) : QEMUFile O :=
  mkQEMUFile o 0 0 0 0 0 (replicate (Z.to_nat IO_BUF_SIZE) 0) [] 0.

Definition qemu_file_get_error f : Z := last_error f.

Definition qemu_file_set_error f (ret : Z) : QEMUFile O :=
  if last_error f =? 0 then
    mkQEMUFile (opaque f) (bytes_xfer f) (xfer_limit f) (pos f) (buf_index f) (buf_size f) (buf f) (iov f) ret
  else f.

Definition is_some {A} (o : option A) : bool := match o with Some _ => true | None => false end.

Definition qemu_file_is_writable : bool := is_some (writev_buffer ops) || is_some (put_buffer ops).

(** The bytes an I/O vector piece points to. *)
Definition piece f (p : iov_base * Z) : list Z :=
  match p with
  | (InBuf off, len) => range (buf f) off len
  | (Host a, len) => (fun i => mem (a + Z.of_nat i)) <$> seq 0 (Z.to_nat len)
  end.

Definition qemu_fflush f : QEMUFile O :=
  if negb qemu_file_is_writable then f else
  let '(o, ret) :=
    match writev_buffer ops with
    | Some wv => if nz (Z.of_nat (length (iov f))) then wv (opaque f) (piece f <$> iov f) (pos f) else (opaque f, 0)
    | None =>
        match put_buffer ops with
        | Some put => if 0 <? buf_index f then put (opaque f) (range (buf f) 0 (buf_index f)) (pos f) else (opaque f, 0)
        | None => (opaque f, 0)
        end
    end in
  let f := mkQEMUFile o (bytes_xfer f) (xfer_limit f) (if 0 <=? ret then pos f + ret else pos f)
             0 (buf_size f) (buf f) [] (last_error f) in
  if ret <? 0 then qemu_file_set_error f ret else f.

Definition set_iov f (v : list (iov_base * Z)) : QEMUFile O :=
  mkQEMUFile (opaque f) (bytes_xfer f) (xfer_limit f) (pos f) (buf_index f) (buf_size f) (buf f) v (last_error f).

Definition add_to_iovec f (b : iov_base) (size : Z) : QEMUFile O :=
  let f :=
    match last (iov f) with
    | Some (base, len) =>
        if iov_base_eqb b (iov_base_add base len)
        then set_iov f (take (length (iov f) - 1) (iov f) ++ [(base, len + size)])
        else set_iov f (iov f ++ [(b, size)])
    | None => set_iov f (iov f ++ [(b, size)])
    end in
  if MAX_IOV_SIZE <=? Z.of_nat (length (iov f)) then qemu_fflush f else f.

(** The stores of [qemu_put_byte] and of one turn of [qemu_put_buffer]:
    copy [bs] to [f->buf + f->buf_index], count it, queue it for [writev],
    advance and flush a full buffer. *)
Definition store_bytes f (bs : list Z) : QEMUFile O :=
  let idx := buf_index f in
  let l := Z.of_nat (length bs) in
  let f := mkQEMUFile (opaque f) (bytes_xfer f + l) (xfer_limit f) (pos f) idx (buf_size f)
             (blit (buf f) idx bs) (iov f) (last_error f) in
  let f := if is_some (writev_buffer ops) then add_to_iovec f (InBuf idx) l else f in
  let f := mkQEMUFile (opaque f) (bytes_xfer f) (xfer_limit f) (pos f) (buf_index f + l) (buf_size f)
             (buf f) (iov f) (last_error f) in
  if buf_index f =? IO_BUF_SIZE then qemu_fflush f else f.

Definition file_put_byte f (v : Z) : QEMUFile O :=
  if nz (last_error f) then f else store_bytes f [u8 v].

Fixpoint put_buffer_loop (fuel : nat) f (bs : list Z) : QEMUFile O :=
  match fuel with
  | Datatypes.O => f
  | S fuel =>
      if 0 <? Z.of_nat (length bs) then
        let l := Z.min (IO_BUF_SIZE - buf_index f) (Z.of_nat (length bs)) in
        let f := store_bytes f (take (Z.to_nat l) bs) in
        if nz (qemu_file_get_error f) then f
        else put_buffer_loop fuel f (drop (Z.to_nat l) bs)
      else f
  end.

(** Every turn consumes a byte, so the length of the data is enough fuel. *)
Definition file_put_buffer f (bs : list Z) : QEMUFile O :=
  if nz (last_error f) then f else put_buffer_loop (S (length bs)) f bs.

(** [size] bytes of the caller's memory at [addr]. *)
Definition qemu_put_buffer_async f (addr size : Z) : QEMUFile O :=
  if negb (is_some (writev_buffer ops)) then file_put_buffer f (piece f (Host addr, size))
  else if nz (last_error f) then f
  else
    let f := mkQEMUFile (opaque f) (bytes_xfer f + size) (xfer_limit f) (pos f) (buf_index f) (buf_size f)
               (buf f) (iov f) (last_error f) in
    add_to_iovec f (Host addr) size.

Definition qemu_fill_buffer f : QEMUFile O :=
  let pending := buf_size f - buf_index f in
  let data := if 0 <? pending then blit (buf f) 0 (range (buf f) (buf_index f) pending) else buf f in
  let '(o, len, bs) := get_buffer ops (opaque f) (pos f) (IO_BUF_SIZE - pending) in
  let f := mkQEMUFile o (bytes_xfer f) (xfer_limit f) (pos f) 0 pending (blit data pending bs) (iov f) (last_error f) in
  if 0 <? len then
    mkQEMUFile (opaque f) (bytes_xfer f) (xfer_limit f) (pos f + len) 0 (pending + len) (buf f) (iov f) (last_error f)
  else if len =? 0 then qemu_file_set_error f (- EIO)
  else if negb (len =? - EAGAIN) then qemu_file_set_error f len
  else f.

Definition set_buf_index f (i : Z) : QEMUFile O :=
  mkQEMUFile (opaque f) (bytes_xfer f) (xfer_limit f) (pos f) i (buf_size f) (buf f) (iov f) (last_error f).

Definition qemu_file_skip f (size : Z) : QEMUFile O :=
  if buf_index f + size <=? buf_size f then set_buf_index f (buf_index f + size) else f.

Definition qemu_peek_buffer f (size offset : Z) : list Z * QEMUFile O :=
  let f := if buf_size f - (buf_index f + offset) <? size then qemu_fill_buffer f else f in
  let index := buf_index f + offset in
  let pending := buf_size f - index in
  if pending <=? 0 then ([], f)
  else (range (buf f) index (Z.min size pending), f).

Fixpoint get_buffer_loop (fuel : nat) f (pending : Z) (done : list Z) : list Z * QEMUFile O :=
  match fuel with
  | Datatypes.O => (done, f)
  | S fuel =>
      if 0 <? pending then
        let '(bs, f) := qemu_peek_buffer f pending 0 in
        let res := Z.of_nat (length bs) in
        if res =? 0 then (done, f)
        else get_buffer_loop fuel (qemu_file_skip f res) (pending - res) (done ++ bs)
      else (done, f)
  end.

Definition file_get_buffer f (size : Z) : list Z * QEMUFile O :=
  get_buffer_loop (S (Z.to_nat size)) f size [].

Definition qemu_peek_byte f (offset : Z) : Z * QEMUFile O :=
  let index := buf_index f + offset in
  if buf_size f <=? index then
    let f := qemu_fill_buffer f in
    let index := buf_index f + offset in
    if buf_size f <=? index then (0, f) else (default 0 (buf f !! Z.to_nat index), f)
  else (default 0 (buf f !! Z.to_nat index), f).

Definition file_get_byte f : Z * QEMUFile O :=
  let '(result, f) := qemu_peek_byte f 0 in
  (result, qemu_file_skip f 1).

Definition qemu_update_position f (size : Z) : QEMUFile O :=
  mkQEMUFile (opaque f) (bytes_xfer f) (xfer_limit f) (pos f + size) (buf_index f) (buf_size f) (buf f) (iov f)
    (last_error f).

(** The result and the backend, the file being freed. *)
Definition qemu_fclose f : Z * O :=
  let f := qemu_fflush f in
  let ret := qemu_file_get_error f in
  let '(ret, o) :=
    match close ops with
    | Some close =>
        let '(o, ret2) := close (opaque f) in
        (if 0 <=? ret then ret2 else ret, o)
    | None => (ret, opaque f)
    end in
  (if nz (last_error f) then last_error f else ret, o).

Definition qemu_ftell f : Z * QEMUFile O :=
  let f := qemu_fflush f in (pos f, f).

Definition qemu_file_rate_limit f : bool :=
  if nz (qemu_file_get_error f) then true
  else (0 <? xfer_limit f) && (xfer_limit f <? bytes_xfer f).

End qemu_file.

(** A file open on the backend [ops]; [mem] is the memory of its clients. *)
Definition file_on {O} (ops : QEMUFileOps O) (mem : Z -> Z) : Type := QEMUFile O.

#[export] Instance qemu_file_writer {O} (ops : QEMUFileOps O) mem : ByteWriter (file_on ops mem) :=
  {| qemu_put_byte := file_put_byte ops mem; qemu_put_buffer := file_put_buffer ops mem |}.
#[export] Instance qemu_file_reader {O} (ops : QEMUFileOps O) mem : ByteReader (file_on ops mem) :=
  {| qemu_get_byte := file_get_byte ops; qemu_get_buffer := file_get_buffer ops |}.

(** ** Ranges of the buffer *)

Lemma length_range buf off len : 0 <= off -> 0 <= len -> off + len <= Z.of_nat (length buf) ->
  Z.of_nat (length (range buf off len)) = len.
Proof. intros. unfold range. rewrite length_take, length_drop. lia. Qed.

Lemma range_app buf off l1 l2 : 0 <= off -> 0 <= l1 -> 0 <= l2 ->
  range buf off (l1 + l2) = range buf off l1 ++ range buf (off + l1) l2.
Proof.
  intros. unfold range. rewrite !Z2Nat.inj_add by lia.
  by rewrite <- take_take_drop, drop_drop.
Qed.

Lemma length_blit buf off bs : 0 <= off -> off + Z.of_nat (length bs) <= Z.of_nat (length buf) ->
  length (blit buf off bs) = length buf.
Proof. intros. unfold blit. rewrite !length_app, length_take, length_drop. lia. Qed.

(** A copy changes the bytes it covers and leaves those before it. *)
Lemma range_blit_eq buf off bs : 0 <= off -> off + Z.of_nat (length bs) <= Z.of_nat (length buf) ->
  range (blit buf off bs) off (Z.of_nat (length bs)) = bs.
Proof.
  intros. unfold range, blit. rewrite Nat2Z.id.
  rewrite drop_app_length' by (rewrite length_take; lia). by rewrite take_app_length.
Qed.

Lemma range_blit_before buf off bs o l :
  0 <= o -> 0 <= l -> o + l <= off -> off <= Z.of_nat (length buf) -> range (blit buf off bs) o l = range buf o l.
Proof.
  intros. unfold range, blit. rewrite !take_drop_commute.
  rewrite take_app_le by (rewrite length_take; lia). by rewrite take_take, Nat.min_l by lia.
Qed.

Lemma range_all buf l : Z.of_nat (length buf) = l -> range buf 0 l = buf.
Proof. intros <-. unfold range. rewrite Nat2Z.id. apply take_ge. simpl. lia. Qed.

Lemma range_nil buf off len : len <= 0 -> range buf off len = [].
Proof. intros. unfold range. by replace (Z.to_nat len) with O by lia. Qed.

(** ** Writing *)

Section writing.
Context {O : Type} (ops : QEMUFileOps O) (mem : Z -> Z).
(** What the backend has received. *)
Context (sent : O -> list Z).

(** A backend that takes everything it is handed. *)
Class ReliableSink : Prop := {
  sink_writable : qemu_file_is_writable ops = true;
  sink_put put : put_buffer ops = Some put -> forall o bs p,
    sent (put o bs p).1 = sent o ++ bs /\ (put o bs p).2 = Z.of_nat (length bs);
  sink_writev wv : writev_buffer ops = Some wv -> forall o bss p,
    sent (wv o bss p).1 = sent o ++ concat bss /\ (wv o bss p).2 = Z.of_nat (length (concat bss));
}.
Context `{ReliableSink}.
Implicit Types f : QEMUFile O.

Definition uses_iov : bool := is_some (writev_buffer ops).

Definition piece_ok (idx : Z) (p : iov_base * Z) : Prop :=
  0 <= p.2 /\ match p.1 with InBuf off => 0 <= off /\ off + p.2 <= idx | Host _ => True end.

(** The representation invariant; [slack] is 0 between operations and 1
    inside one, where the buffer may have become full. *)
Definition file_inv (slack : Z) f : Prop :=
  Z.of_nat (length (buf f)) = IO_BUF_SIZE /\ 0 <= buf_index f < IO_BUF_SIZE + slack /\ last_error f = 0
  /\ (uses_iov = false -> iov f = []) /\ Forall (piece_ok (buf_index f)) (iov f)
  /\ Z.of_nat (length (iov f)) < MAX_IOV_SIZE.

Definition pending_bytes f : list Z :=
  if uses_iov then concat (piece mem f <$> iov f) else range (buf f) 0 (buf_index f).

Definition written f : list Z := sent (opaque f) ++ pending_bytes f.

(** Flushing moves the pending bytes to the backend. *)
Lemma fflush_written f :
  Z.of_nat (length (buf f)) = IO_BUF_SIZE -> 0 <= buf_index f -> last_error f = 0 ->
  (uses_iov = false -> iov f = []) ->
  let f' := qemu_fflush ops mem f in
  file_inv 0 f' /\ written f' = written f /\ buf_index f' = 0 /\ iov f' = [] /\ buf f' = buf f.
Proof.
  intros Hlen Hidx Herr Hni. cbv zeta. unfold qemu_fflush.
  rewrite sink_writable. simpl. unfold written, pending_bytes, uses_iov in *.
  destruct (writev_buffer ops) as [wv|] eqn:Ew; simpl in *.
  - destruct (nz (Z.of_nat (length (iov f)))) eqn:Ei.
    + pose proof (sink_writev wv Ew (opaque f) (piece mem f <$> iov f) (pos f)) as [Hs Hr].
      destruct (wv _ _ _) as [o ret]; simpl in *. subst ret.
      rewrite (proj2 (Z.ltb_ge _ _)) by lia. simpl. rewrite Hs, app_nil_r.
      split; [|done]. split; [done|]. simpl. split; [unfold IO_BUF_SIZE; lia|]. done.
    + apply nz_false in Ei. destruct (iov f); [|simpl in Ei; lia]. simpl.
      split; [|done]. split; [done|]. simpl. split; [unfold IO_BUF_SIZE; lia|]. done.
  - destruct (put_buffer ops) as [put|] eqn:Ep.
    + destruct (Z.ltb_spec 0 (buf_index f)).
      * pose proof (sink_put put Ep (opaque f) (range (buf f) 0 (buf_index f)) (pos f)) as [Hs Hr].
        destruct (put _ _ _) as [o ret]; simpl in *. subst ret.
        rewrite (proj2 (Z.ltb_ge _ _)) by lia. simpl. rewrite Hs, (range_nil _ _ 0), app_nil_r by lia.
        split; [|done]. split; [done|]. simpl. split; [unfold IO_BUF_SIZE; lia|]. done.
      * simpl. rewrite !(range_nil (buf f)) by lia.
        split; [|done]. split; [done|]. simpl. split; [unfold IO_BUF_SIZE; lia|]. done.
    + pose proof sink_writable as Hw. unfold qemu_file_is_writable in Hw. by rewrite Ew, Ep in Hw.
Qed.

(** Pieces below [idx] do not see a copy at [idx]. *)
Lemma pieces_blit f f' idx bs :
  0 <= idx <= Z.of_nat (length (buf f)) -> buf f' = blit (buf f) idx bs ->
  Forall (piece_ok idx) (iov f) -> piece mem f' <$> iov f = piece mem f <$> iov f.
Proof.
  intros Hidx Hb Hp. apply list_fmap_ext. intros i [[off|a] len] Hl; [|done].
  apply (Forall_lookup_1 _ _ _ _ Hp) in Hl as [? [? ?]]. simpl in *.
  rewrite Hb. apply range_blit_before; lia.
Qed.

Lemma concat_snoc {A} (l : list (list A)) x : concat (l ++ [x]) = concat l ++ x.
Proof. rewrite concat_app. simpl. by rewrite app_nil_r. Qed.

Lemma last_split {A} (l : list A) x : last l = Some x -> l = take (length l - 1) l ++ [x].
Proof.
  intros [l' ->]%last_Some. rewrite length_app. simpl.
  by rewrite take_app_length' by lia.
Qed.

#[local] Arguments piece : simpl never.

(** Queueing a piece appends its bytes to the vector's. *)
Lemma iov_add_piece f b size : 0 <= size -> Forall (piece_ok (buf_index f)) (iov f) ->
  exists v, add_to_iovec ops mem f b size
      = (if MAX_IOV_SIZE <=? Z.of_nat (length v) then qemu_fflush ops mem (set_iov f v) else set_iov f v)
    /\ concat (piece mem (set_iov f v) <$> v) = concat (piece mem f <$> iov f) ++ piece mem f (b, size)
    /\ (length v <= S (length (iov f)))%nat
    /\ (forall idx, buf_index f <= idx -> piece_ok idx (b, size) -> Forall (piece_ok idx) v).
Proof.
  intros Hsz Hp. unfold add_to_iovec.
  assert (exists v, v = iov f ++ [(b, size)]
    /\ concat (piece mem (set_iov f v) <$> v) = concat (piece mem f <$> iov f) ++ piece mem f (b, size)
    /\ (length v <= S (length (iov f)))%nat
    /\ (forall idx, buf_index f <= idx -> piece_ok idx (b, size) -> Forall (piece_ok idx) v)) as Hplain.
  { eexists. split; [done|]. rewrite fmap_app, concat_app. simpl. rewrite app_nil_r. split; [done|].
    rewrite length_app. simpl. split; [lia|]. intros idx Hidx Hb.
    apply Forall_app. split; [|by constructor]. eapply Forall_impl; [exact Hp|].
    intros [[off|a] len]; unfold piece_ok; simpl; [lia|done]. }
  destruct (last (iov f)) as [[base len]|] eqn:El; [|destruct Hplain as (v & -> & Hv); by eexists].
  destruct (iov_base_eqb b (iov_base_add base len)) eqn:Eq; [|destruct Hplain as (v & -> & Hv); by eexists].
  clear Hplain. eexists. split; [done|]. apply last_split in El.
  assert (b = iov_base_add base len) as ->.
  { destruct b, base; simpl in *; try done; apply Z.eqb_eq in Eq; congruence. }
  set (v0 := take (length (iov f) - 1) (iov f)) in *.
  rewrite El in Hp. apply Forall_app in Hp as [Hp0 Hp1]. apply Forall_inv in Hp1.
  rewrite El. rewrite !fmap_app, !concat_app. simpl. rewrite !app_nil_r, <- app_assoc.
  destruct Hp1 as [Hlen Hoff]; simpl in Hlen, Hoff.
  assert (piece mem f (base, len + size) = piece mem f (base, len) ++ piece mem f (iov_base_add base len, size)) as Hpc.
  { destruct base as [off|a]; unfold piece; simpl in *; [apply range_app; lia|].
    rewrite Z2Nat.inj_add, seq_app, fmap_app by lia. f_equal.
    rewrite Nat.add_comm, <- fmap_add_seq, <- list_fmap_compose.
    apply list_fmap_ext. intros ? ? _. simpl. f_equal. lia. }
  split; [by rewrite <- Hpc|]. rewrite !length_app. simpl. split; [lia|].
  intros idx Hidx Hb. apply Forall_app. split.
  - eapply Forall_impl; [exact Hp0|]. intros [[off|a] l]; unfold piece_ok; simpl; [lia|done].
  - constructor; [|done]. destruct base; unfold piece_ok in *; simpl in *; lia.
Qed.

(** The flush at the end of a store. *)
Lemma flush_if_full f : file_inv 1 f ->
  let f' := if buf_index f =? IO_BUF_SIZE then qemu_fflush ops mem f else f in
  file_inv 0 f' /\ written f' = written f.
Proof.
  intros Hinv. pose proof Hinv as (Hlen & Hidx & Herr & Hni & Hp & Hmax). cbv zeta.
  destruct (Z.eqb_spec (buf_index f) IO_BUF_SIZE).
  - destruct (fflush_written f) as (? & ? & _); [done|lia|done|done|]. done.
  - split; [|done]. repeat split; try done; lia.
Qed.

Lemma written_iov f v i : uses_iov = true ->
  written (set_buf_index (set_iov f v) i) = sent (opaque f) ++ concat (piece mem (set_iov f v) <$> v).
Proof. intros E. unfold written, pending_bytes. by rewrite E. Qed.

(** Storing bytes that fit appends them to what was written. *)
Lemma store_bytes_written f bs :
  file_inv 0 f -> buf_index f + Z.of_nat (length bs) <= IO_BUF_SIZE ->
  file_inv 0 (store_bytes ops mem f bs) /\ written (store_bytes ops mem f bs) = written f ++ bs.
Proof.
  intros (Hlen & Hidx & Herr & Hni & Hp & Hmax) Hfit. unfold store_bytes.
  set (idx := buf_index f) in *. set (l := Z.of_nat (length bs)) in *.
  set (f1 := mkQEMUFile (opaque f) (bytes_xfer f + l) (xfer_limit f) (pos f) idx (buf_size f)
               (blit (buf f) idx bs) (iov f) (last_error f)).
  assert (Z.of_nat (length (buf f1)) = IO_BUF_SIZE) as Hlen1 by (simpl; rewrite length_blit; lia).
  match goal with |- context [if is_some _ then ?x else f1] =>
    set (f2 := if is_some (writev_buffer ops) then x else f1) end.
  enough (file_inv 1 (set_buf_index f2 (buf_index f2 + l))
    /\ written (set_buf_index f2 (buf_index f2 + l)) = written f ++ bs) as [Hi <-].
  { by apply flush_if_full. }
  unfold f2. destruct (is_some (writev_buffer ops)) eqn:Eu.
  - destruct (iov_add_piece f1 (InBuf idx) l) as (v & -> & Hcat & Hl & Hok); [lia|done|].
    assert (concat (piece mem (set_iov f1 v) <$> v) = concat (piece mem f <$> iov f) ++ bs) as Hout.
    { rewrite Hcat. f_equal; [f_equal; by apply (pieces_blit f f1 idx bs); [lia|..]|].
      unfold piece. apply range_blit_eq; lia. }
    assert (written f ++ bs = sent (opaque f1) ++ concat (piece mem (set_iov f1 v) <$> v)) as ->.
    { unfold written, pending_bytes, uses_iov. by rewrite Eu, Hout, app_assoc. }
    destruct (Z.leb_spec MAX_IOV_SIZE (Z.of_nat (length v))).
    + destruct (fflush_written (set_iov f1 v)) as (Hinv & Hw & Hbi & Hv & Hb); [done|simpl; lia|done| |].
      { unfold uses_iov. congruence. }
      rewrite Hbi. destruct Hinv as (?&?&?&?&?&?). split.
      * repeat split; simpl; rewrite ?Hv; try done; lia.
      * rewrite <- (written_iov f1 v idx) by done. transitivity (written (qemu_fflush ops mem (set_iov f1 v))).
        -- unfold written, pending_bytes, uses_iov. rewrite Eu. simpl. by rewrite Hv.
        -- rewrite Hw. unfold written, pending_bytes, uses_iov. by rewrite Eu.
    + split; [|by apply written_iov].
      repeat split; simpl; try done; try lia; [unfold uses_iov; congruence|].
      apply Hok; simpl; [lia|]. unfold piece_ok. simpl. lia.
  - assert (uses_iov = false) as Hu by done. split.
    + repeat split; simpl; rewrite ?(Hni Hu); try done; try lia.
    + unfold written, pending_bytes. rewrite Hu. simpl. fold idx.
      rewrite <- app_assoc. f_equal. rewrite range_app by lia. f_equal.
      * apply range_blit_before; lia.
      * apply range_blit_eq; lia.
Qed.

Lemma put_byte_written f v : file_inv 0 f ->
  file_inv 0 (file_put_byte ops mem f v) /\ written (file_put_byte ops mem f v) = written f ++ [u8 v].
Proof.
  intros Hf. pose proof Hf as (_ & Hidx & Herr & _). unfold file_put_byte. rewrite Herr. simpl.
  apply store_bytes_written; [done|]. simpl. lia.
Qed.

Lemma put_buffer_loop_written fuel f bs : (length bs < fuel)%nat -> file_inv 0 f ->
  file_inv 0 (put_buffer_loop ops mem fuel f bs) /\ written (put_buffer_loop ops mem fuel f bs) = written f ++ bs.
Proof.
  revert f bs. induction fuel as [|fuel IH]; intros f bs Hlen Hf; [lia|]. cbn [put_buffer_loop].
  pose proof Hf as (_ & Hidx & _). destruct (Z.ltb_spec 0 (Z.of_nat (length bs))).
  - set (l := Z.min (IO_BUF_SIZE - buf_index f) (Z.of_nat (length bs))).
    destruct (store_bytes_written f (take (Z.to_nat l) bs)) as [Hinv Hw]; [done|rewrite length_take; lia|].
    pose proof Hinv as (_ & _ & Herr & _). unfold qemu_file_get_error. rewrite Herr. simpl.
    destruct (IH (store_bytes ops mem f (take (Z.to_nat l) bs)) (drop (Z.to_nat l) bs)) as [Hi2 Hw2].
    { rewrite length_drop. lia. }
    { done. }
    split; [done|]. by rewrite Hw2, Hw, <- app_assoc, take_drop.
  - destruct bs; [|simpl in *; lia]. by rewrite app_nil_r.
Qed.

Lemma put_buffer_written f bs : file_inv 0 f ->
  file_inv 0 (file_put_buffer ops mem f bs) /\ written (file_put_buffer ops mem f bs) = written f ++ bs.
Proof.
  intros Hf. pose proof Hf as (_ & _ & Herr & _). unfold file_put_buffer.
  rewrite (proj2 (nz_false _) Herr). apply put_buffer_loop_written; [lia|done].
Qed.

(** Queueing the caller's memory appends what it holds. *)
Definition client_bytes (addr size : Z) : list Z := (fun i => mem (addr + Z.of_nat i)) <$> seq 0 (Z.to_nat size).

Lemma put_buffer_async_written f addr size : 0 <= size -> file_inv 0 f ->
  file_inv 0 (qemu_put_buffer_async ops mem f addr size)
  /\ written (qemu_put_buffer_async ops mem f addr size) = written f ++ client_bytes addr size.
Proof.
  intros Hs Hf. unfold qemu_put_buffer_async. destruct (is_some (writev_buffer ops)) eqn:Eu; simpl negb; cbv iota.
  2: { by apply put_buffer_written. }
  pose proof Hf as (Hlen & Hidx & Herr & Hni & Hp & Hmax). rewrite (proj2 (nz_false _) Herr).
  set (f1 := mkQEMUFile _ _ _ _ _ _ _ _ _).
  destruct (iov_add_piece f1 (Host addr) size) as (v & -> & Hcat & Hl & Hok); [done|done|].
  assert (written f ++ client_bytes addr size = written (set_iov f1 v)) as ->.
  { unfold written, pending_bytes, uses_iov. rewrite Eu. simpl iov. rewrite Hcat, app_assoc. done. }
  destruct (Z.leb_spec MAX_IOV_SIZE (Z.of_nat (length v))).
  - destruct (fflush_written (set_iov f1 v)) as (Hinv & Hw & _); [done|simpl; lia|done| |done].
    unfold uses_iov. congruence.
  - split; [|done]. repeat split; simpl; try done; try lia; [unfold uses_iov; congruence|].
    apply Hok; simpl; [lia|]. unfold piece_ok. simpl. lia.
Qed.

(** The file position counts what the backend has received. *)
Definition skew f : Z := Z.of_nat (length (sent (opaque f))) - pos f.

Lemma fflush_skew f : skew (qemu_fflush ops mem f) = skew f.
Proof.
  unfold qemu_fflush. rewrite sink_writable. simpl negb. cbv iota.
  enough (forall o ret, Z.of_nat (length (sent o)) = Z.of_nat (length (sent (opaque f))) + ret -> 0 <= ret ->
    skew (let f0 := mkQEMUFile o (bytes_xfer f) (xfer_limit f) (if 0 <=? ret then pos f + ret else pos f)
            0 (buf_size f) (buf f) [] (last_error f) in
          if ret <? 0 then qemu_file_set_error f0 ret else f0) = skew f) as HG.
  { destruct (writev_buffer ops) as [wv|] eqn:Ew.
    - destruct (nz _); [|apply HG; lia].
      pose proof (sink_writev wv Ew (opaque f) (piece mem f <$> iov f) (pos f)) as [Hs Hr].
      destruct (wv _ _ _) as [o ret]. simpl in Hs, Hr. apply HG; [|lia]. rewrite Hs, length_app. lia.
    - destruct (put_buffer ops) as [put|] eqn:Ep; [|apply HG; lia].
      destruct (0 <? buf_index f); [|apply HG; lia].
      pose proof (sink_put put Ep (opaque f) (range (buf f) 0 (buf_index f)) (pos f)) as [Hs Hr].
      destruct (put _ _ _) as [o ret]. simpl in Hs, Hr. apply HG; [|lia]. rewrite Hs, length_app. lia. }
  intros o ret Ho Hr. cbv zeta. rewrite (proj2 (Z.leb_le 0 ret)), (proj2 (Z.ltb_ge ret 0)) by lia.
  unfold skew. simpl. lia.
Qed.

Lemma add_to_iovec_skew f b size : skew (add_to_iovec ops mem f b size) = skew f.
Proof.
  unfold add_to_iovec.
  destruct (last (iov f)) as [[base len]|]; [destruct (iov_base_eqb _ _)|];
    cbv zeta; destruct (_ <=? _); by rewrite ?fflush_skew.
Qed.

Lemma store_bytes_skew f bs : skew (store_bytes ops mem f bs) = skew f.
Proof.
  unfold store_bytes. set (f1 := mkQEMUFile (opaque f) _ _ _ _ _ _ _ _).
  set (g := if is_some _ then _ else _).
  assert (skew g = skew f) as Hg.
  { unfold g. destruct (is_some _); [|done]. by rewrite add_to_iovec_skew. }
  clearbody g. cbv zeta. destruct (_ =? _); [rewrite fflush_skew|]; done.
Qed.

Lemma put_buffer_loop_skew fuel f bs : skew (put_buffer_loop ops mem fuel f bs) = skew f.
Proof.
  revert f bs. induction fuel as [|fuel IH]; intros f bs; cbn [put_buffer_loop]; [done|].
  destruct (0 <? _); [|done]. destruct (nz _); [|rewrite IH]; apply store_bytes_skew.
Qed.

#[export] Program Instance file_writer_laws : WriterLaws (file_on ops mem) := {
  w_ok := file_inv 0;
  w_out := written;
}.
Next Obligation. intros f v Hf. by apply put_byte_written. Qed.
Next Obligation. intros f bs Hf _. by apply put_buffer_written. Qed.
End writing.

(** ** Reading *)

Section reading.
Context {O : Type} (ops : QEMUFileOps O) (mem : Z -> Z).
(** What the backend still has to deliver. *)
Context (left_ : O -> list Z).

(** A backend that delivers its bytes in order, in pieces of any size. *)
Class ReliableSource : Prop := {
  source_read_only : qemu_file_is_writable ops = false;
  source_get o p size o' len bs : 0 < size -> get_buffer ops o p size = (o', len, bs) ->
    left_ o = bs ++ left_ o' /\ len = Z.of_nat (length bs) /\ 0 <= len <= size
    /\ (left_ o <> [] -> 0 < len);
}.
Context `{ReliableSource}.
Implicit Types f : QEMUFile O.

Definition buffered f : list Z := range (buf f) (buf_index f) (buf_size f - buf_index f).
Definition unread f : list Z := buffered f ++ left_ (opaque f).

(** Between operations a buffer whose start has not been consumed is empty,
    so that a refill always has room. *)
Definition rfile_inv f : Prop :=
  Z.of_nat (length (buf f)) = IO_BUF_SIZE /\ 0 <= buf_index f <= buf_size f /\ buf_size f <= IO_BUF_SIZE.
Definition rfile_ok f : Prop := rfile_inv f /\ (buf_index f = 0 -> buf_size f = 0).

Lemma set_error_fields f e :
  opaque (qemu_file_set_error f e) = opaque f /\ buf (qemu_file_set_error f e) = buf f
  /\ buf_index (qemu_file_set_error f e) = buf_index f /\ buf_size (qemu_file_set_error f e) = buf_size f.
Proof. unfold qemu_file_set_error. by destruct (last_error f =? 0). Qed.

Lemma blit_app buf off b1 b2 : 0 <= off -> off + Z.of_nat (length b1) + Z.of_nat (length b2) <= Z.of_nat (length buf) ->
  range (blit (blit buf off b1) (off + Z.of_nat (length b1)) b2) off (Z.of_nat (length b1) + Z.of_nat (length b2)) = b1 ++ b2.
Proof.
  intros. rewrite range_app by lia. f_equal.
  - rewrite range_blit_before by (rewrite ?length_blit; lia). apply range_blit_eq; lia.
  - apply range_blit_eq; rewrite ?length_blit; lia.
Qed.

(** Refilling keeps the unread bytes and makes progress unless the backend
    is exhausted. *)
Lemma fill_buffer_unread f : rfile_inv f -> buf_size f - buf_index f < IO_BUF_SIZE ->
  let f' := qemu_fill_buffer ops f in
  rfile_inv f' /\ unread f' = unread f /\ buf_index f' = 0
  /\ buf_size f - buf_index f <= buf_size f'
  /\ (left_ (opaque f) <> [] -> buf_size f - buf_index f < buf_size f').
Proof.
  intros (Hlen & Hidx & Hsz) Hroom. cbv zeta. unfold qemu_fill_buffer.
  set (pending := buf_size f - buf_index f) in *.
  set (data := if 0 <? pending then _ else _).
  assert (exists d, data = blit (buf f) 0 d /\ buffered f = d /\ Z.of_nat (length d) = pending) as (d & -> & Hd & Hdl).
  { unfold data, buffered. fold pending. destruct (Z.ltb_spec 0 pending).
    - eexists. split; [done|]. split; [done|]. apply length_range; lia.
    - exists []. rewrite range_nil by lia. split; [|split; [done|simpl; lia]].
      unfold blit. simpl. by rewrite drop_0. }
  destruct (get_buffer ops (opaque f) (pos f) (IO_BUF_SIZE - pending)) as [[o' len] bs] eqn:Eg.
  apply source_get in Eg as (Hleft & -> & Hbl & Hprog); [|lia].
  set (f1 := mkQEMUFile o' _ _ _ _ _ _ _ _).
  enough (forall f', opaque f' = o' -> buf f' = buf f1 -> buf_index f' = 0 ->
      buf_size f' = pending + Z.of_nat (length bs) ->
      rfile_inv f' /\ unread f' = unread f /\ buf_index f' = 0
      /\ pending <= buf_size f' /\ (left_ (opaque f) <> [] -> pending < buf_size f')) as HG.
  { destruct (Z.ltb_spec 0 (Z.of_nat (length bs))); [by apply HG|].
    destruct (Z.eqb_spec (Z.of_nat (length bs)) 0); [|lia].
    destruct (set_error_fields f1 (- EIO)) as (?&?&?&?). apply HG; try done. simpl in *. lia. }
  intros f' Ho Hb Hi Hs. assert (length (buf f1) = length (buf f)) as Hl1.
  { simpl. rewrite !length_blit; rewrite ?length_blit; lia. }
  split; [|split; [|split; [done|split; [lia|]]]].
  - unfold rfile_inv. rewrite Hb, Hl1, Hi, Hs. lia.
  - unfold unread at 1, buffered. rewrite Ho, Hb, Hi, Hs, Z.sub_0_r. simpl.
    pose proof (blit_app (buf f) 0 d bs ltac:(lia) ltac:(lia)) as Hr.
    rewrite Z.add_0_l, Hdl in Hr. rewrite Hr. unfold unread. by rewrite Hd, Hleft, app_assoc.
  - intros Hne. specialize (Hprog Hne). lia.
Qed.

Lemma skip_unread f n : rfile_inv f -> 0 < n -> n <= buf_size f - buf_index f ->
  rfile_ok (qemu_file_skip f n)
  /\ unread f = range (buf f) (buf_index f) n ++ unread (qemu_file_skip f n).
Proof.
  intros (Hlen & Hidx & Hsz) Hn Hle. unfold qemu_file_skip.
  destruct (Z.leb_spec (buf_index f + n) (buf_size f)); [|lia]. split.
  - split; [split; [done|]; simpl; lia|]. simpl. lia.
  - unfold unread, buffered. simpl. rewrite app_assoc, <- range_app by lia. f_equal. f_equal. lia.
Qed.

Lemma unread_exhausted f : rfile_inv f -> unread f <> [] -> buf_size f <= buf_index f -> left_ (opaque f) <> [].
Proof. intros Hf Hne Hle. unfold unread, buffered in Hne. by rewrite range_nil in Hne by lia. Qed.

Lemma range_1 buf i b : buf !! Z.to_nat i = Some b -> range buf i 1 = [b].
Proof. intros E. unfold range. by rewrite (drop_S _ b). Qed.

(** The head of the unread bytes is what the buffer holds at the index. *)
Lemma unread_head f b l : rfile_inv f -> unread f = b :: l -> buf_index f < buf_size f ->
  default 0 (buf f !! Z.to_nat (buf_index f)) = b
  /\ rfile_ok (qemu_file_skip f 1) /\ unread (qemu_file_skip f 1) = l.
Proof.
  intros Hf E Hlt. pose proof Hf as (Hlen & Hidx & Hsz).
  destruct (skip_unread f 1 Hf ltac:(lia) ltac:(lia)) as [Hok Hun].
  destruct (lookup_lt_is_Some_2 (buf f) (Z.to_nat (buf_index f))) as [b' Hb']; [lia|].
  rewrite E, (range_1 _ _ _ Hb') in Hun. simplify_eq/=. by rewrite Hb'.
Qed.

Lemma get_byte_unread f b l : rfile_ok f -> unread f = b :: l ->
  exists f', file_get_byte ops f = (b, f') /\ rfile_ok f' /\ unread f' = l.
Proof.
  intros [Hf _] E. unfold file_get_byte, qemu_peek_byte. rewrite Z.add_0_r.
  destruct (Z.leb_spec (buf_size f) (buf_index f)).
  - pose proof Hf as (_ & Hidx & _).
    destruct (fill_buffer_unread f Hf) as (Hf' & Hun & Hi & _ & Hprog); [unfold IO_BUF_SIZE; lia|].
    specialize (Hprog ltac:(apply unread_exhausted; [done|by rewrite E|done])).
    rewrite Z.add_0_r. destruct (Z.leb_spec (buf_size (qemu_fill_buffer ops f)) (buf_index (qemu_fill_buffer ops f))); [lia|].
    rewrite E in Hun. destruct (unread_head _ _ _ Hf' Hun) as (-> & Hok & Hl); [lia|]. eauto.
  - destruct (unread_head _ _ _ Hf E) as (-> & Hok & Hl); [done|]. eauto.
Qed.

(** The error a read at the end of the data leaves. *)
Definition eof_error (e : Z) : Z := if e =? 0 then - EIO else e.

Lemma eof_error_idem e : eof_error (eof_error e) = eof_error e.
Proof. unfold eof_error. destruct (e =? 0) eqn:E; [done|]. by rewrite E. Qed.

Lemma room_to_fill f : rfile_ok f -> buf_size f - buf_index f < IO_BUF_SIZE.
Proof.
  intros [(_ & Hidx & Hsz) Hz].
  destruct (decide (buf_index f = 0)) as [E|]; [rewrite (Hz E); unfold IO_BUF_SIZE|]; lia.
Qed.

Lemma fill_buffer_error f : 0 <= buf_index f <= buf_size f -> buf_size f - buf_index f < IO_BUF_SIZE ->
  (left_ (opaque f) <> [] -> last_error (qemu_fill_buffer ops f) = last_error f)
  /\ (left_ (opaque f) = [] -> last_error (qemu_fill_buffer ops f) = eof_error (last_error f)).
Proof.
  intros Hidx Hroom. unfold qemu_fill_buffer.
  destruct (get_buffer ops _ _ _) as [[o' len] bs] eqn:Eg.
  apply source_get in Eg as (Hleft & -> & Hbl & Hprog); [|lia].
  split; intros E.
  - specialize (Hprog E). by rewrite (proj2 (Z.ltb_lt _ _) Hprog).
  - rewrite E in Hleft. destruct bs; [|done]. simpl. unfold qemu_file_set_error, eof_error. simpl.
    by destruct (last_error f =? 0).
Qed.

(** A peek shows a non-empty prefix of what is left to read; it meets no
    error unless it asks for more than there is. *)
Lemma peek_buffer_prefix f size : rfile_ok f -> 0 < size -> unread f <> [] ->
  exists bs f', qemu_peek_buffer ops f size 0 = (bs, f') /\ rfile_inv f' /\ unread f' = unread f
    /\ (size <= Z.of_nat (length (unread f)) -> last_error f' = last_error f)
    /\ eof_error (last_error f') = eof_error (last_error f)
    /\ 0 < Z.of_nat (length bs) <= size /\ Z.of_nat (length bs) <= buf_size f' - buf_index f'
    /\ bs = range (buf f') (buf_index f') (Z.of_nat (length bs)).
Proof.
  intros [Hf Hz] Hsize Hne. unfold qemu_peek_buffer. rewrite Z.add_0_r.
  set (f' := if buf_size f - buf_index f <? size then qemu_fill_buffer ops f else f).
  assert (rfile_inv f' /\ unread f' = unread f /\ buf_index f' < buf_size f'
    /\ (size <= Z.of_nat (length (unread f)) -> last_error f' = last_error f)
    /\ eof_error (last_error f') = eof_error (last_error f)) as (Hf' & Hun & Hlt & He1 & He2).
  { unfold f'. destruct (Z.ltb_spec (buf_size f - buf_index f) size).
    - pose proof Hf as (_ & Hidx & Hsz).
      destruct (fill_buffer_unread f Hf) as (Hfi & Hun & Hi & Hge & Hprog).
      { by apply room_to_fill. }
      split; [done|]. split; [done|]. split.
      { destruct (Z.le_gt_cases (buf_size f) (buf_index f)) as [Hle|]; [|lia].
        specialize (Hprog (unread_exhausted f Hf Hne Hle)). lia. }
      destruct (fill_buffer_error f Hidx (room_to_fill f (conj Hf Hz))) as [Hsome Hnone].
      destruct (decide (left_ (opaque f) = [])) as [El|El].
      + rewrite Hnone, eof_error_idem by done. split; [|done]. intros Hle.
        unfold unread, buffered in Hle. rewrite El, app_nil_r, length_range in Hle by (destruct Hf; lia). lia.
      + rewrite Hsome by done. done.
    - split; [done|]. split; [done|]. split; [lia|]. done. }
  clearbody f'. rewrite Z.add_0_r. destruct (Z.leb_spec (buf_size f' - buf_index f') 0); [lia|].
  pose proof Hf' as (Hlen & Hidx & Hsz).
  eexists _, f'. split; [done|]. rewrite length_range by lia. do 4 (split; [done|]). split; [lia|].
  split; [lia|done].
Qed.

Lemma skip_error f n : last_error (qemu_file_skip f n) = last_error f.
Proof. unfold qemu_file_skip. by destruct (_ <=? _). Qed.

Lemma get_buffer_loop_unread fuel f bs l acc :
  (length bs < fuel)%nat -> rfile_ok f -> unread f = bs ++ l ->
  exists f', get_buffer_loop ops fuel f (Z.of_nat (length bs)) acc = (acc ++ bs, f') /\ rfile_ok f' /\ unread f' = l
    /\ last_error f' = last_error f.
Proof.
  revert f bs acc. induction fuel as [|fuel IH]; intros f bs acc Hlen Hf E; [lia|]. cbn [get_buffer_loop].
  destruct (Z.ltb_spec 0 (Z.of_nat (length bs))).
  - destruct (peek_buffer_prefix f (Z.of_nat (length bs)) Hf) as (b1 & f1 & -> & Hf1 & Hun & He & _ & Hb1 & Hb2 & Hb3).
    { done. }
    { rewrite E. by destruct bs. }
    destruct (Z.eqb_spec (Z.of_nat (length b1)) 0); [lia|].
    destruct (skip_unread f1 (Z.of_nat (length b1)) Hf1 ltac:(lia) Hb2) as [Hok Hs].
    specialize (He ltac:(rewrite E, length_app; lia)). rewrite <- He, <- (skip_error f1 (Z.of_nat (length b1))).
    rewrite Hun, E, <- Hb3 in Hs. apply app_eq_inv in Hs as [(k & -> & Hk)|(k & -> & Hk)].
    + rewrite length_app. replace (Z.of_nat (length b1 + length k) - Z.of_nat (length b1)) with (Z.of_nat (length k)) by lia.
      destruct (IH (qemu_file_skip f1 (Z.of_nat (length b1))) k (acc ++ b1)) as (f2 & E2 & Hf2 & Hl2 & He2).
      { rewrite length_app in Hlen. lia. }
      { done. }
      { done. }
      rewrite E2, <- app_assoc. eauto.
    + destruct k; [|rewrite length_app in Hb1; simpl in Hb1; lia]. rewrite app_nil_r in *.
      rewrite Z.sub_diag. simpl in Hk.
      destruct (IH (qemu_file_skip f1 (Z.of_nat (length bs))) [] (acc ++ bs)) as (f2 & E2 & Hf2 & Hl2 & He2); [simpl; lia|done|by rewrite <- Hk|].
      rewrite app_nil_r in E2. eauto.
  - destruct bs; [|simpl in *; lia]. rewrite app_nil_r. eauto.
Qed.

#[export] Program Instance file_reader_laws : ReaderLaws (file_on ops mem) := {
  r_ok := rfile_ok;
  r_in := unread;
}.
Next Obligation. intros f b l Hf E. by apply get_byte_unread. Qed.
Next Obligation.
  intros f bs l Hf E. simpl. unfold file_get_buffer. rewrite Nat2Z.id.
  destruct (get_buffer_loop_unread (S (length bs)) f bs l []) as (f' & -> & Hf' & Hl & _); [lia|done|done|].
  by eauto.
Qed.

(** A read that asks for more than there is. *)
Lemma get_buffer_loop_short fuel f n acc :
  (length (unread f) < fuel)%nat -> Z.of_nat (length (unread f)) < n -> rfile_ok f ->
  exists f', get_buffer_loop ops fuel f n acc = (acc ++ unread f, f') /\ rfile_inv f' /\ unread f' = []
    /\ last_error f' = eof_error (last_error f).
Proof.
  revert f n acc. induction fuel as [|fuel IH]; intros f n acc Hlen Hn Hf; [lia|]. cbn [get_buffer_loop].
  rewrite (proj2 (Z.ltb_lt 0 n)) by lia. destruct (decide (unread f = [])) as [E|E].
  - pose proof Hf as [Hinv _]. pose proof Hinv as (Hb & Hidx & Hsz).
    unfold unread in E. apply app_eq_nil in E as [Eb El]. pose proof Eb as Ebl.
    apply (f_equal (fun l => Z.of_nat (length l))) in Ebl. unfold buffered in Ebl.
    rewrite length_range in Ebl by lia. simpl in Ebl.
    destruct (fill_buffer_unread f Hinv (room_to_fill f Hf)) as (Hf' & Hun & Hi & _).
    destruct (fill_buffer_error f Hidx (room_to_fill f Hf)) as [_ He]. specialize (He El).
    assert (unread f = []) as Hu by (unfold unread; by rewrite Eb, El).
    rewrite Hu in Hun. unfold qemu_peek_buffer. rewrite !Z.add_0_r.
    rewrite (proj2 (Z.ltb_lt _ n)) by lia.
    assert (buf_size (qemu_fill_buffer ops f) <= 0) as Hle.
    { pose proof Hf' as (Hb' & Hidx' & Hsz'). unfold unread in Hun. apply app_eq_nil in Hun as [Hun _].
      apply (f_equal (fun l => Z.of_nat (length l))) in Hun. unfold buffered in Hun.
      rewrite length_range in Hun by lia. simpl in Hun. lia. }
    rewrite (proj2 (Z.leb_le _ 0)) by lia. simpl. rewrite Hu, app_nil_r. eauto 6.
  - destruct (peek_buffer_prefix f n Hf) as (b1 & f1 & -> & Hf1 & Hun & _ & He & Hb1 & Hb2 & Hb3); [lia|done|].
    destruct (Z.eqb_spec (Z.of_nat (length b1)) 0); [lia|].
    destruct (skip_unread f1 (Z.of_nat (length b1)) Hf1 ltac:(lia) Hb2) as [Hok Hs].
    rewrite Hun, <- Hb3 in Hs. rewrite Hs in Hlen, Hn |- *. rewrite length_app in Hlen, Hn.
    destruct (IH (qemu_file_skip f1 (Z.of_nat (length b1))) (n - Z.of_nat (length b1)) (acc ++ b1))
      as (f2 & E2 & Hf2 & Hl2 & He2); [lia|lia|done|].
    rewrite E2, <- app_assoc. exists f2. rewrite He2, skip_error, He. done.
Qed.
End reading.

(** ** Whole files *)

(** The operations of a writer, in any order. *)
Inductive put_op := PutByte (v : Z) | PutBuffer (bs : list Z) | PutAsync (addr size : Z) | Flush.

Definition run_put {O} (ops : QEMUFileOps O) (mem : Z -> Z) (f : QEMUFile O) (op : put_op) : QEMUFile O :=
  match op with
  | PutByte v => file_put_byte ops mem f v
  | PutBuffer bs => file_put_buffer ops mem f bs
  | PutAsync addr size => qemu_put_buffer_async ops mem f addr size
  | Flush => qemu_fflush ops mem f
  end.

Definition op_bytes (mem : Z -> Z) (op : put_op) : list Z :=
  match op with
  | PutByte v => [u8 v]
  | PutBuffer bs => bs
  | PutAsync addr size => client_bytes mem addr size
  | Flush => []
  end.

Definition op_size_ok (op : put_op) : Prop :=
  match op with PutAsync _ size => 0 <= size | _ => True end.

Lemma fopen_buf_length {O} (o : O) : Z.of_nat (length (buf (qemu_fopen_ops o))) = IO_BUF_SIZE.
Proof.
  change (buf (qemu_fopen_ops o)) with (replicate (Z.to_nat IO_BUF_SIZE) 0).
  rewrite length_replicate. apply Z2Nat.id. unfold IO_BUF_SIZE. lia.
Qed.

Lemma fopen_inv {O} (ops : QEMUFileOps O) o : file_inv ops 0 (qemu_fopen_ops o).
Proof.
  split; [apply fopen_buf_length|]. unfold IO_BUF_SIZE, MAX_IOV_SIZE. simpl.
  repeat split; try lia. constructor.
Qed.

Section whole_files.
Context {O : Type} (ops : QEMUFileOps O) (mem : Z -> Z) (sent : O -> list Z).
Context `{!ReliableSink ops sent}.

Lemma fopen_written o : written ops mem sent (qemu_fopen_ops o) = sent o.
Proof.
  unfold written, pending_bytes. destruct (uses_iov ops); [apply app_nil_r|].
  rewrite range_nil by (cbn [buf_index qemu_fopen_ops]; lia). apply app_nil_r.
Qed.

Lemma run_put_written f op : op_size_ok op -> file_inv ops 0 f ->
  file_inv ops 0 (run_put ops mem f op)
  /\ written ops mem sent (run_put ops mem f op) = written ops mem sent f ++ op_bytes mem op
  /\ skew sent (run_put ops mem f op) = skew sent f.
Proof.
  intros Hop Hf. destruct op; simpl in *.
  - destruct (put_byte_written ops mem sent f v Hf) as [? ?]. split; [done|]. split; [done|].
    unfold file_put_byte. destruct (nz _); [done|]. by apply store_bytes_skew.
  - destruct (put_buffer_written ops mem sent f bs Hf) as [? ?]. split; [done|]. split; [done|].
    unfold file_put_buffer. destruct (nz _); [done|]. by apply put_buffer_loop_skew.
  - destruct (put_buffer_async_written ops mem sent f addr size Hop Hf) as [? ?]. split; [done|]. split; [done|].
    unfold qemu_put_buffer_async, file_put_buffer. destruct (negb _), (nz _); try done.
    + by apply put_buffer_loop_skew.
    + by rewrite (add_to_iovec_skew ops mem sent).
  - pose proof Hf as (Hlen & Hidx & Herr & Hni & _).
    destruct (fflush_written ops mem sent f Hlen ltac:(lia) Herr Hni) as (? & Hw & _).
    rewrite Hw, app_nil_r. split; [done|]. split; [done|]. by apply fflush_skew.
Qed.

Lemma run_puts_written l f : Forall op_size_ok l -> file_inv ops 0 f ->
  let f' := foldl (run_put ops mem) f l in
  file_inv ops 0 f' /\ written ops mem sent f' = written ops mem sent f ++ concat (op_bytes mem <$> l)
  /\ skew sent f' = skew sent f.
Proof.
  revert f. induction l as [|op l IH]; intros f Hl Hf; simpl; [by rewrite app_nil_r|].
  apply Forall_cons in Hl as [Hop Hl]. destruct (run_put_written f op Hop Hf) as (H1 & H2 & H3).
  destruct (IH (run_put ops mem f op) Hl H1) as (H4 & H5 & H6).
  split; [done|]. rewrite H5, H6, H2, <- app_assoc. done.
Qed.

(** After a flush everything written is with the backend. *)
Lemma flushed_written f : file_inv ops 0 f ->
  sent (opaque (qemu_fflush ops mem f)) = written ops mem sent f /\ last_error (qemu_fflush ops mem f) = 0.
Proof.
  intros (Hlen & Hidx & Herr & Hni & _).
  destruct (fflush_written ops mem sent f Hlen ltac:(lia) Herr Hni) as (Hinv & <- & Hi & Hv & _).
  split; [|apply Hinv]. unfold written, pending_bytes. rewrite Hi, Hv.
  destruct (uses_iov ops); [|rewrite range_nil by lia]; symmetry; apply app_nil_r.
Qed.
End whole_files.

(** C11: Whatever mix of [qemu_put_byte], [qemu_put_buffer],
    [qemu_put_buffer_async] and [qemu_fflush] a client issues, after a final
    flush the backend has received exactly the bytes of the operations, in
    their order, with no error, and [qemu_ftell] is their number: the buffer,
    the coalescing of I/O vector pieces and the flushes in between lose,
    duplicate and reorder nothing. *)
Theorem qemu_file_delivers {O} (ops : QEMUFileOps O) mem sent o l :
  ReliableSink ops sent -> Forall op_size_ok l ->
  let f := foldl (run_put ops mem) (qemu_fopen_ops o) l in
  sent (opaque (qemu_fflush ops mem f)) = sent o ++ concat (op_bytes mem <$> l)
  /\ last_error (qemu_fflush ops mem f) = 0
  /\ (qemu_ftell ops mem f).1 = Z.of_nat (length (concat (op_bytes mem <$> l))).
Proof.
  intros HS Hl f. destruct (run_puts_written ops mem sent l _ Hl (fopen_inv ops o)) as (Hinv & Hw & Hsk).
  fold f in Hinv, Hw, Hsk. destruct (flushed_written ops mem sent f Hinv) as [Hs He].
  rewrite fopen_written in Hw. rewrite Hs, He, Hw. do 2 (split; [done|]).
  pose proof (fflush_skew ops mem sent f) as Hf. rewrite Hsk in Hf. unfold skew in Hf.
  rewrite Hs, Hw, length_app in Hf. simpl in *. lia.
Qed.

(** A backend with both kinds of output, that keeps what it is sent. *)
Definition vector_ops : QEMUFileOps (list Z) := {|
  put_buffer := None;
  writev_buffer := Some (fun o bss _ => (o ++ concat bss, Z.of_nat (length (concat bss))));
  get_buffer := fun o _ _ => (o, 0, []);
  close := None;
|}.

#[export] Instance vector_sink : ReliableSink vector_ops id.
Proof. split; [done|done|]. intros wv [= <-] o bss p. done. Qed.

Lemma qemu_file_delivers_witness :
  let l := [PutByte 1; PutBuffer [2; 3]; PutAsync 100 2; PutByte 4; Flush; PutByte 5] in
  opaque (qemu_fflush vector_ops Z.opp (foldl (run_put vector_ops Z.opp) (qemu_fopen_ops []) l))
  = [1; 2; 3; -100; -101; 4; 5].
Proof.
  intros l. apply (qemu_file_delivers vector_ops Z.opp id [] l vector_sink).
  repeat constructor. simpl. lia.
Defined.

(** Consecutive [qemu_get_buffer] calls of the given sizes. *)
Fixpoint read_pieces {O} (ops : QEMUFileOps O) (f : QEMUFile O) (sizes : list Z) : list (list Z) * QEMUFile O :=
  match sizes with
  | [] => ([], f)
  | n :: sizes =>
      let '(bs, f) := file_get_buffer ops f n in
      let '(bss, f) := read_pieces ops f sizes in
      (bs :: bss, f)
  end.

Lemma fopen_rfile_ok {O} (o : O) : rfile_ok (qemu_fopen_ops o).
Proof.
  split; [|done]. split; [apply fopen_buf_length|]. simpl. unfold IO_BUF_SIZE. lia.
Qed.

Lemma fopen_unread {O} (left_ : O -> list Z) o : unread left_ (qemu_fopen_ops o) = left_ o.
Proof. done. Qed.

Lemma read_pieces_unread {O} (ops : QEMUFileOps O) left_ `{!ReliableSource ops left_} pieces rest f :
  rfile_ok f -> unread left_ f = concat pieces ++ rest ->
  exists f', read_pieces ops f (Z.of_nat ∘ length <$> pieces) = (pieces, f') /\ rfile_ok f'
    /\ unread left_ f' = rest /\ last_error f' = last_error f.
Proof.
  revert f. induction pieces as [|bs pieces IH]; intros f Hf E; [by simpl in *; eauto|].
  rewrite fmap_cons. cbn [read_pieces concat compose] in *. unfold file_get_buffer. rewrite Nat2Z.id. rewrite <- app_assoc in E.
  destruct (get_buffer_loop_unread ops left_ (S (length bs)) f bs _ [] ltac:(lia) Hf E) as (f1 & -> & H1 & H2 & H3).
  destruct (IH f1 H1 H2) as (f2 & -> & H4 & H5 & H6). simpl. exists f2. rewrite H6, H3. done.
Qed.

(** However the backend cuts the stream into pieces, consecutive
    [qemu_get_buffer] calls return the stream's bytes in order and without
    error, and a call that asks for more than is left returns what is left
    and records -EIO unless an earlier error is recorded. *)
Theorem qemu_file_reads_stream {O} (ops : QEMUFileOps O) left_ o pieces rest n :
  ReliableSource ops left_ -> left_ o = concat pieces ++ rest -> Z.of_nat (length rest) < n ->
  exists f f', read_pieces ops (qemu_fopen_ops o) (Z.of_nat ∘ length <$> pieces) = (pieces, f)
    /\ last_error f = 0
    /\ file_get_buffer ops f n = (rest, f') /\ last_error f' = - EIO.
Proof.
  intros HS E Hn.
  destruct (read_pieces_unread ops left_ pieces rest (qemu_fopen_ops o) (fopen_rfile_ok o) E) as (f & Hr & Hf & Hu & He).
  destruct (get_buffer_loop_short ops left_ (S (Z.to_nat n)) f n [] ltac:(rewrite Hu; lia) ltac:(by rewrite Hu) Hf)
    as (f' & Hg & _ & _ & He'). rewrite Hu in Hg. rewrite He in He'. by exists f, f'.
Qed.

(** A backend that delivers at most three bytes at a time. *)
Definition slow_ops : QEMUFileOps (list Z) := {|
  put_buffer := None;
  writev_buffer := None;
  get_buffer := fun o _ size =>
    let bs := take (Z.to_nat (Z.min 3 size)) o in
    (drop (Z.to_nat (Z.min 3 size)) o, Z.of_nat (length bs), bs);
  close := None;
|}.

#[export] Instance slow_source : ReliableSource slow_ops id.
Proof.
  split; [done|]. intros o p size o' len bs Hs [= <- <- <-]. cbn [id].
  rewrite take_drop, length_take. split; [done|]. split; [done|]. split; [lia|].
  intros Ho. destruct o; [done|]. simpl. lia.
Qed.

Lemma qemu_file_reads_stream_witness :
  exists f f', read_pieces slow_ops (qemu_fopen_ops [1; 2; 3; 4; 5; 6; 7]) [2; 4] = ([[1; 2]; [3; 4; 5; 6]], f)
    /\ last_error f = 0 /\ file_get_buffer slow_ops f 9 = ([7], f') /\ last_error f' = - EIO.
Proof.
  apply (qemu_file_reads_stream slow_ops id [1; 2; 3; 4; 5; 6; 7] [[1; 2]; [3; 4; 5; 6]] [7] 9 slow_source);
    [reflexivity|simpl; lia].
Defined.

(** Once a file has met an error it is inert: the writing operations leave
    it untouched, a later error does not replace the first one, a flush keeps
    it, the rate limit reports it and [qemu_fclose] returns it whatever the
    backend's close says. *)
Theorem qemu_file_error_sticky {O} (ops : QEMUFileOps O) mem (f : QEMUFile O) op e :
  last_error f <> 0 ->
  (op <> Flush -> run_put ops mem f op = f)
  /\ qemu_file_set_error f e = f
  /\ last_error (qemu_fflush ops mem f) = last_error f
  /\ qemu_file_rate_limit f = true
  /\ (qemu_fclose ops mem f).1 = last_error f.
Proof.
  intros He. pose proof (proj2 (nz_true _) He) as Hnz. pose proof (proj2 (Z.eqb_neq _ _) He) as Heq.
  assert (last_error (qemu_fflush ops mem f) = last_error f) as Hfl.
  { unfold qemu_fflush. destruct (negb _); [done|].
    destruct (match writev_buffer ops with Some _ => _ | None => _ end) as [o ret].
    destruct (ret <? 0); [|done]. unfold qemu_file_set_error. simpl. by rewrite Heq. }
  split; [|split; [|split; [done|split]]].
  - intros Hop. destruct op; simpl; [| | |done]; unfold qemu_put_buffer_async, file_put_byte, file_put_buffer;
      rewrite ?Hnz; [done|done|]. by destruct (negb _).
  - unfold qemu_file_set_error. by rewrite Heq.
  - unfold qemu_file_rate_limit, qemu_file_get_error. by rewrite Hnz.
  - unfold qemu_fclose. destruct (match close ops with Some _ => _ | None => _ end) as [r o'].
    simpl. by rewrite Hfl, Hnz.
Qed.

Lemma qemu_file_error_sticky_witness :
  let f := qemu_file_set_error (qemu_fopen_ops []) (-28) in
  run_put vector_ops Z.opp f (PutByte 7) = f /\ (qemu_fclose vector_ops Z.opp f).1 = -28.
Proof.
  intros f. assert (last_error f <> 0) as He by (unfold f; simpl; lia).
  pose proof (qemu_file_error_sticky vector_ops Z.opp f (PutByte 7) 0 He) as (H1 & _ & _ & _ & H2).
  split; [by apply H1|]. rewrite H2. reflexivity.
Defined.

(** Saving and loading through real files: the fields a device writes with
    [qemu_put_struct] to a fresh file, once flushed and opened for reading on
    a backend that holds the same bytes, are read back by [qemu_get_struct]
    into any structure, with status 0 and no byte left over. *)
Theorem struct_survives_snapshot {O P S} (wops : QEMUFileOps O) (rops : QEMUFileOps P) mem rmem sent left_
    (fields : list (QField S)) (s s' : S) (o : O) (p : P) :
  ReliableSink wops sent -> ReliableSource rops left_ -> sent o = [] -> Forall (field_ok s) fields ->
  left_ p = sent (opaque (qemu_fflush wops mem
                    (qemu_put_struct (F := file_on wops mem) (qemu_fopen_ops o) fields s))) ->
  exists g, qemu_get_struct (G := file_on rops rmem) (qemu_fopen_ops p) fields s'
      = (0, foldl (copy_field s) s' fields, g)
    /\ unread left_ g = [].
Proof.
  intros HW HR Ho Hok Hp.
  destruct (put_struct_emits (F := file_on wops mem) (H0 := file_writer_laws wops mem sent)
    (qemu_fopen_ops o) fields s (fopen_inv wops o) Hok) as [Hinv Hw].
  destruct (flushed_written wops mem sent _ Hinv) as [Hs _]. rewrite Hs in Hp.
  change (left_ p = w_out (F := file_on wops mem) (WriterLaws := file_writer_laws wops mem sent)
    (qemu_put_struct (qemu_fopen_ops o : file_on wops mem) fields s)) in Hp.
  rewrite Hw in Hp. simpl in Hp. rewrite fopen_written, Ho in Hp.
  destruct (get_struct_consumes (G := file_on rops rmem) (H0 := file_reader_laws rops rmem left_)
    (qemu_fopen_ops p) fields s s' [] (fopen_rfile_ok p)) as (g & Hg & _ & Hu); [done|simpl; by rewrite app_nil_r|].
  exists g. done.
Qed.

Definition pair_fields : list (QField (Z * Z)) :=
  [Q_FIELD_INT32 fst (fun v p => (v, p.2)); Q_FIELD_INT16 snd (fun v p => (p.1, v))].

Lemma struct_survives_snapshot_witness :
  exists g, qemu_get_struct (G := file_on slow_ops id) (qemu_fopen_ops [1; 2; 3; 4; 5; 6]) pair_fields (0, 0)
    = (0, (0x01020304, 0x0506), g).
Proof.
  destruct (struct_survives_snapshot vector_ops slow_ops id id id id pair_fields (0x01020304, 0x0506) (0, 0)
    [] [1; 2; 3; 4; 5; 6] vector_sink slow_source) as (g & Hg & _).
  - reflexivity.
  - repeat constructor; simpl; lia.
  - vm_compute. reflexivity.
  - exists g. exact Hg.
Defined.
