(* ===== verification/HostFile.v ===== *)
(** Files of the host: their contents, the system calls the modelled code makes
    on them, and the lemmas on byte images the users of files share. *)
From S2P Require Import Prelude QemuFile.
Open Scope list_scope.

(** ** Files of the host *)

(** An open file: its contents, its position and how large the host lets it
    grow. Reading a file does not fail; the loops around the system calls
    repeat a call that a signal has interrupted. *)
Record hfile := mkFile { f_bytes : list Z; f_pos : Z; f_room : Z }.

Definition f_size (f : hfile) : Z := Z.of_nat (length (f_bytes f)).
Definition with_pos (p : Z) (f : hfile) : hfile := mkFile (f_bytes f) p (f_room f).

(** To a position, which is an [off_t]; a negative one is refused. *)
Definition do_lseek (f : hfile) (offset : Z) : Z * hfile :=
  let o := s64 offset in if o <? 0 then (-1, f) else (o, with_pos o f).
Definition do_lseek_end (f : hfile) : Z * hfile := (f_size f, with_pos (f_size f) f).

(** The bytes read; their number is the result. *)
Definition do_read (f : hfile) (size : Z) : list Z * hfile :=
  let bs := range (f_bytes f) (f_pos f) size in (bs, with_pos (f_pos f + Z.of_nat (length bs)) f).

(** A file is extended by zeros up to the position. What does not fit is not
    written, and nothing at all is an error. *)
Definition pad_to (n : Z) (l : list Z) : list Z := l ++ replicate (Z.to_nat n - length l) 0.
Definition do_write (f : hfile) (bs : list Z) : Z * hfile :=
  let k := Z.min (Z.of_nat (length bs)) (Z.max 0 (f_room f - f_pos f)) in
  if (k =? 0) && negb (Z.of_nat (length bs) =? 0) then (-1, f)
  else if k =? 0 then (0, f)
  else (k, mkFile (blit (pad_to (f_pos f) (f_bytes f)) (f_pos f) (take (Z.to_nat k) bs)) (f_pos f + k) (f_room f)).

Definition do_ftruncate (f : hfile) (size : Z) : Z * hfile :=
  (0, mkFile (take (Z.to_nat size) (pad_to size (f_bytes f))) (f_pos f) (f_room f)).

(** ** Images *)

(** [n] bytes of an image from [a] on; it is followed by 0xff. *)
Definition image_bytes (img : list Z) (a : Z) (n : nat) : list Z := (fun i => default 0xff (img !! (Z.to_nat a + i)%nat)) <$> seq 0 n.

(** Bytes put into an image, which zeros extend up to them. *)
Definition image_put (img : list Z) (a : Z) (bs : list Z) : list Z := if decide (bs = []) then img else blit (pad_to a img) a bs.

Lemma length_image_bytes img a n : length (image_bytes img a n) = n.
Proof. unfold image_bytes. by rewrite length_fmap, length_seq. Qed.

Lemma image_bytes_app img a n k : 0 <= a -> image_bytes img a (n + k) = image_bytes img a n ++ image_bytes img (a + Z.of_nat n) k.
Proof.
  intros Ha. unfold image_bytes. rewrite seq_app, fmap_app. f_equal. apply list_eq. intros i. rewrite !list_lookup_fmap.
  destruct (Nat.lt_ge_cases i k); [rewrite !lookup_seq_lt by done|by rewrite !lookup_seq_ge]. cbn. do 3 f_equal. lia.
Qed.

(** What is read of a file is the image, up to its end. *)
Lemma range_image img a n : range img a (Z.of_nat n) = take n (drop (Z.to_nat a) img).
Proof. unfold range. by rewrite Nat2Z.id. Qed.

Lemma image_bytes_range img a n : image_bytes img a n = range img a (Z.of_nat n) ++ replicate (n - length (range img a (Z.of_nat n))) 0xff.
Proof.
  rewrite range_image. apply list_eq. intros i. unfold image_bytes. rewrite list_lookup_fmap. destruct (Nat.lt_ge_cases i n) as [Hi|Hi].
  - rewrite lookup_seq_lt by done. cbn. set (k := Z.to_nat a). destruct (img !! (k + i)%nat) as [b|] eqn:E.
    + rewrite lookup_app_l by (rewrite length_take, length_drop; apply lookup_lt_Some in E; lia). rewrite lookup_take_lt, lookup_drop by done. by rewrite E.
    + apply lookup_ge_None in E. rewrite lookup_app_r by (rewrite length_take, length_drop; lia).
      rewrite lookup_replicate_2; [done|]. rewrite length_take, length_drop. lia.
  - rewrite lookup_seq_ge by done. symmetry. apply lookup_ge_None. rewrite length_app, length_replicate, length_take, length_drop. lia.
Qed.

Lemma length_pad_to a img : length (pad_to a img) = Nat.max (length img) (Z.to_nat a).
Proof. unfold pad_to. rewrite length_app, length_replicate. lia. Qed.

Lemma blit_lookup (l : list Z) a bs i : (Z.to_nat a <= length l)%nat ->
  blit l a bs !! i = if decide (Z.to_nat a <= i < Z.to_nat a + length bs)%nat then bs !! (i - Z.to_nat a)%nat else l !! i.
Proof.
  intros Ha. unfold blit. set (k := Z.to_nat a) in *. assert (length (take k l) = k) as El by (rewrite length_take; lia).
  destruct (decide _) as [Hi|Hi].
  - rewrite lookup_app_r by lia. rewrite El. by rewrite lookup_app_l by lia.
  - destruct (Nat.lt_ge_cases i k).
    + rewrite lookup_app_l by lia. by apply lookup_take_lt.
    + rewrite lookup_app_r by lia. rewrite El, lookup_app_r, lookup_drop by lia. f_equal. lia.
Qed.

(** Where [bs] is put the image has it, elsewhere it is as it was, and zeros
    fill a gap. *)
Lemma image_put_lookup img a bs i : bs <> [] ->
  image_put img a bs !! i = if decide (Z.to_nat a <= i < Z.to_nat a + length bs)%nat then bs !! (i - Z.to_nat a)%nat
                            else if decide (length img <= i < Z.to_nat a)%nat then Some 0 else img !! i.
Proof.
  intros Hbs. unfold image_put. rewrite decide_False by done. rewrite blit_lookup by (rewrite length_pad_to; lia).
  destruct (decide _); [done|]. unfold pad_to. destruct (decide _) as [Hi|Hi].
  - rewrite lookup_app_r by lia. rewrite lookup_replicate_2; [done|lia].
  - destruct (Nat.lt_ge_cases i (length img)); [by rewrite lookup_app_l|].
    rewrite lookup_app_r by done. rewrite (proj2 (lookup_ge_None img i)) by done. apply lookup_ge_None. rewrite length_replicate. lia.
Qed.

Lemma length_image_put img a bs : bs <> [] -> 0 <= a -> length (image_put img a bs) = Nat.max (length img) (Z.to_nat a + length bs).
Proof.
  intros Hbs Ha. unfold image_put. rewrite decide_False by done. unfold blit. rewrite !length_app, length_take, length_drop, length_pad_to. lia.
Qed.

(** Bytes put one after the other. *)
Lemma image_put_app img a b1 b2 : 0 <= a -> image_put (image_put img a b1) (a + Z.of_nat (length b1)) b2 = image_put img a (b1 ++ b2).
Proof.
  intros Ha. destruct (decide (b1 = [])) as [->|H1]; [cbn [app length]; by rewrite Z.add_0_r|].
  destruct (decide (b2 = [])) as [->|H2]; [by rewrite app_nil_r|].
  assert (b1 ++ b2 <> []) as H12 by (destruct b1; done). assert (0 < length b1)%nat by (destruct b1; simpl; [done|lia]).
  apply list_eq. intros i. rewrite !image_put_lookup, length_image_put, length_app, Z2Nat.inj_add, Nat2Z.id by (done || lia).
  set (k := Z.to_nat a). repeat case_decide; try lia; try done.
  - rewrite lookup_app_r by lia. f_equal. lia.
  - rewrite lookup_app_l by lia. done.
Qed.

(** Reading what was put. *)
Lemma image_put_read img a bs : 0 <= a -> image_bytes (image_put img a bs) a (length bs) = bs.
Proof.
  intros Ha. destruct (decide (bs = [])) as [->|Hbs]; [done|]. apply list_eq. intros i. unfold image_bytes. rewrite list_lookup_fmap.
  destruct (bs !! i) as [b|] eqn:E.
  - pose proof (lookup_lt_Some _ _ _ E). rewrite lookup_seq_lt by done. cbn. rewrite image_put_lookup, decide_True by (done || lia).
    replace (Z.to_nat a + i - Z.to_nat a)%nat with i by lia. by rewrite E.
  - apply lookup_ge_None in E. by rewrite lookup_seq_ge.
Qed.

(** Reading elsewhere, when no gap is filled. *)
Lemma image_put_other img a bs b n : 0 <= a <= Z.of_nat (length img) -> 0 <= b -> b + Z.of_nat n <= a \/ a + Z.of_nat (length bs) <= b ->
  image_bytes (image_put img a bs) b n = image_bytes img b n.
Proof.
  intros Ha Hb Hd. destruct (decide (bs = [])) as [->|Hbs]; [done|]. unfold image_bytes. apply list_fmap_ext. intros i x Hx.
  apply lookup_seq in Hx as [-> Hx]. rewrite image_put_lookup by done. rewrite !decide_False by lia. done.
Qed.

(** ** Writing files *)

Definition file_put (f : hfile) (bs : list Z) : hfile :=
  mkFile (image_put (f_bytes f) (f_pos f) bs) (f_pos f + Z.of_nat (length bs)) (f_room f).

Lemma file_put_app f b1 b2 : 0 <= f_pos f -> file_put (file_put f b1) b2 = file_put f (b1 ++ b2).
Proof.
  intros Hp. unfold file_put. cbn [f_bytes f_pos f_room]. rewrite image_put_app by done. f_equal. rewrite length_app. lia.
Qed.

Lemma file_put_nil f : file_put f [] = f.
Proof. destruct f. unfold file_put. cbn. by rewrite Z.add_0_r. Qed.

Lemma do_write_room f bs : 0 <= f_pos f -> f_pos f + Z.of_nat (length bs) <= f_room f -> do_write f bs = (Z.of_nat (length bs), file_put f bs).
Proof.
  intros Hp Hr. unfold do_write. rewrite Z.min_l by lia. destruct (Z.eqb_spec (Z.of_nat (length bs)) 0) as [E|E].
  - destruct bs; [|simpl in E; lia]. by rewrite file_put_nil.
  - cbn [andb]. unfold file_put, image_put. rewrite decide_False by (intros ->; simpl in E; lia). by rewrite Nat2Z.id, firstn_all.
Qed.

Lemma do_write_full f bs : f_room f <= f_pos f -> bs <> [] -> do_write f bs = (-1, f).
Proof.
  intros Hr Hbs. unfold do_write. rewrite (Z.max_l 0), Z.min_r by lia. destruct (Z.eqb_spec (Z.of_nat (length bs)) 0) as [E|E]; [|done].
  destruct bs; [done|simpl in E; lia].
Qed.
