(* ===== verification/Irq.v ===== *)
(** Interrupt lines: hw/core/irq.c and include/hw/irq.h. A [qemu_irq] is a
    handler with the line number it is called with; the state its [opaque]
    pointer designates is threaded as [W]. [IrqLines] is what a device that
    drives lines may rely on: an array of lines, each with a level that
    [qemu_set_irq] sets without touching the others. *)
From S2P Require Import Prelude.

Record IRQState (W : Type) := mkIRQ { handler : W -> Z -> Z -> W; irq_n : Z }.
Arguments mkIRQ {W}.
Arguments handler {W}.
Arguments irq_n {W}.

(** NULL is [None]. *)
Abbreviation qemu_irq W := (option (IRQState W)).

Section irq.
Context {W : Type}.

Definition qemu_set_irq (w : W) (irq : qemu_irq W) (level : Z) : W :=
  match irq with
  | None => w
  | Some i => handler i w (irq_n i) level
  end.

Definition qemu_irq_raise (w : W) (irq : qemu_irq W) : W := qemu_set_irq w irq 1.
Definition qemu_irq_lower (w : W) (irq : qemu_irq W) : W := qemu_set_irq w irq 0.
Definition qemu_irq_pulse (w : W) (irq : qemu_irq W) : W :=
  qemu_set_irq (qemu_set_irq w irq 1) irq 0.

(** The loop of [qemu_allocate_irqs] from [i] on. *)
Fixpoint allocate_from (h : W -> Z -> Z -> W) (i : Z) (n : nat) : list (qemu_irq W) :=
  match n with
  | O => []
  | S n => Some (mkIRQ h i) :: allocate_from h (i + 1) n
  end.

Definition qemu_allocate_irqs (h : W -> Z -> Z -> W) (n : nat) : list (qemu_irq W) :=
  allocate_from h 0 n.

Definition qemu_notirq (irq : IRQState W) (w : W) (line level : Z) : W :=
  handler irq w (irq_n irq) (if nz level then 0 else 1).

(** [irq] must not be NULL: [qemu_notirq] dereferences it. *)
Definition qemu_irq_invert (w : W) (irq : IRQState W) : qemu_irq W * W :=
  let w := qemu_irq_raise w (Some irq) in
  (default None (head (qemu_allocate_irqs (qemu_notirq irq) 1)), w).

Lemma allocate_from_lookup h i n k :
  (k < n)%nat -> allocate_from h i n !! k = Some (Some (mkIRQ h (i + Z.of_nat k))).
Proof.
  revert i k. induction n as [|n IH]; intros i k Hk; [lia|].
  destruct k as [|k]; simpl; [by rewrite Z.add_0_r|]. rewrite IH by lia. do 3 f_equal. lia.
Qed.

Lemma allocate_lookup h n k :
  (k < n)%nat -> qemu_allocate_irqs h n !! k = Some (Some (mkIRQ h (Z.of_nat k))).
Proof. intros. unfold qemu_allocate_irqs. by rewrite allocate_from_lookup, Z.add_0_l by done. Qed.

Lemma length_allocate h n : length (qemu_allocate_irqs h n) = n.
Proof.
  unfold qemu_allocate_irqs. generalize 0. induction n as [|n IH]; intros i; simpl; [done|].
  by rewrite IH.
Qed.
End irq.

(** What the owner of an array of lines promises to the devices that drive
    them. *)
Class IrqLines {W} (pic : list (qemu_irq W)) := {
  lines_ok : W -> Prop;
  line_level : W -> Z -> bool;
  set_line_ok w n irq l : pic !! n = Some irq -> lines_ok w -> lines_ok (qemu_set_irq w irq l);
  set_line_level w n irq l m : pic !! n = Some irq -> lines_ok w -> 0 <= m < Z.of_nat (length pic) ->
    line_level (qemu_set_irq w irq l) m = if m =? Z.of_nat n then nz l else line_level w m;
}.

Lemma set_line_same {W} (pic : list (qemu_irq W)) `{IrqLines W pic} w n irq l :
  0 <= n -> pic !! Z.to_nat n = Some irq -> lines_ok w -> line_level (qemu_set_irq w irq l) n = nz l.
Proof.
  intros Hn Hi Hw. pose proof (lookup_lt_Some _ _ _ Hi).
  rewrite (set_line_level _ _ _ _ _ Hi) by (done || lia). by rewrite Z2Nat.id, Z.eqb_refl by lia.
Qed.
