(* ===== verification/GoldfishInt.v ===== *)
(** The goldfish interrupt controller: hw/android/goldfish/interrupt.c.
    32 level inputs, an enable mask for the CPU's IRQ line and one for its
    FIQ line. [parent_irq] and [parent_fiq] are the levels last driven on the
    two output lines by [goldfish_int_update]. *)
From S2P Require Import Prelude ByteStream Irq.

Definition INTERRUPT_STATUS : Z := 0x00.
Definition INTERRUPT_NUMBER : Z := 0x04.
Definition INTERRUPT_DISABLE_ALL : Z := 0x08.
Definition INTERRUPT_DISABLE : Z := 0x0c.
Definition INTERRUPT_ENABLE : Z := 0x10.

Record goldfish_int_state := mkInt {
  level : Z;
  pending_count : Z;
  irq_enabled : Z;
  fiq_enabled : Z;
  parent_irq : bool;
  parent_fiq : bool;
}.

(** [goldfish_interrupt_init]: the state is zero-filled. *)
Definition goldfish_interrupt_init : goldfish_int_state := mkInt 0 0 0 0 false false.

Definition goldfish_int_update (s : goldfish_int_state) : goldfish_int_state :=
  let flags_irq := level s .& irq_enabled s in
  let flags_fiq := level s .& fiq_enabled s in
  mkInt (level s) (pending_count s) (irq_enabled s) (fiq_enabled s) (nz flags_irq) (nz flags_fiq).

Definition set_level_count (s : goldfish_int_state) (l c : Z) : goldfish_int_state :=
  mkInt l c (irq_enabled s) (fiq_enabled s) (parent_irq s) (parent_fiq s).

Definition set_enabled_count (s : goldfish_int_state) (e c : Z) : goldfish_int_state :=
  mkInt (level s) c e (fiq_enabled s) (parent_irq s) (parent_fiq s).

(** The input lines are numbered below 32, so the shift is in range. *)
Definition goldfish_int_set_irq (s : goldfish_int_state) (irq lvl : Z) : goldfish_int_state :=
  let mask := u32 (1 .<< irq) in
  let s :=
    if nz lvl then
      if negb (nz (level s .& mask)) then
        let c := if nz (irq_enabled s .& mask) then u32 (pending_count s + 1) else pending_count s in
        set_level_count s (level s .| mask) c
      else s
    else
      if nz (level s .& mask) then
        let c := if nz (irq_enabled s .& mask) then u32 (pending_count s - 1) else pending_count s in
        set_level_count s (level s .& u32 (.~ mask)) c
      else s in
  goldfish_int_update s.

(** The scan of [INTERRUPT_NUMBER]: [i] runs up to 32. *)
Fixpoint first_pending (n : nat) (i pending : Z) : Z :=
  match n with
  | O => 0
  | S n => if nz (pending .& u32 (1 .<< i)) then i else first_pending n (i + 1) pending
  end.

(** [None] is [cpu_abort]. *)
Definition goldfish_int_read (s : goldfish_int_state) (offset : Z) : option Z :=
  if offset =? INTERRUPT_STATUS then Some (pending_count s)
  else if offset =? INTERRUPT_NUMBER then Some (first_pending 32 0 (level s .& irq_enabled s))
  else None.

(** The guest's [value] selects the line; a value below 32 keeps the C shift
    defined. *)
Definition goldfish_int_write (s : goldfish_int_state) (offset value : Z) : option goldfish_int_state :=
  let mask := u32 (1 .<< value) in
  if offset =? INTERRUPT_DISABLE_ALL then
    Some (goldfish_int_update (set_level_count s 0 0))
  else if offset =? INTERRUPT_DISABLE then
    let s :=
      if nz (irq_enabled s .& mask) then
        let c := if nz (level s .& mask) then u32 (pending_count s - 1) else pending_count s in
        set_enabled_count s (irq_enabled s .& u32 (.~ mask)) c
      else s in
    Some (goldfish_int_update s)
  else if offset =? INTERRUPT_ENABLE then
    let s :=
      if negb (nz (irq_enabled s .& mask)) then
        let e := irq_enabled s .| mask in
        let c := if nz (level s .& mask) then u32 (pending_count s + 1) else pending_count s in
        set_enabled_count s e c
      else s in
    Some (goldfish_int_update s)
  else None.

Definition GOLDFISH_INT_SAVE_VERSION : Z := 1.

Definition goldfish_int_fields : list (QField goldfish_int_state) := [
  Q_FIELD_INT32 level
    (fun v s => mkInt v (pending_count s) (irq_enabled s) (fiq_enabled s) (parent_irq s) (parent_fiq s));
  Q_FIELD_INT32 pending_count
    (fun v s => mkInt (level s) v (irq_enabled s) (fiq_enabled s) (parent_irq s) (parent_fiq s));
  Q_FIELD_INT32 irq_enabled
    (fun v s => mkInt (level s) (pending_count s) v (fiq_enabled s) (parent_irq s) (parent_fiq s));
  Q_FIELD_INT32 fiq_enabled
    (fun v s => mkInt (level s) (pending_count s) (irq_enabled s) v (parent_irq s) (parent_fiq s))].

Definition goldfish_int_save {F} `{ByteWriter F} (f : F) (s : goldfish_int_state) : F :=
  qemu_put_struct f goldfish_int_fields s.

Definition goldfish_int_load {G} `{ByteReader G} (g : G) (s : goldfish_int_state) (version_id : Z) :
    Z * goldfish_int_state * G :=
  if negb (version_id =? GOLDFISH_INT_SAVE_VERSION) then (-1, s, g)
  else qemu_get_struct g goldfish_int_fields s.

(** ** Counting bits *)

(** The number of set bits among the low [w] ones. *)
Definition popcount (w : nat) (z : Z) : Z :=
  Z.of_nat (length (filter (fun i => Z.testbit z i = true) (seqZ 0 (Z.of_nat w)))).

Lemma popcount_ext w a b :
  (forall i, 0 <= i < Z.of_nat w -> Z.testbit a i = Z.testbit b i) -> popcount w a = popcount w b.
Proof.
  intros H. unfold popcount. f_equal. f_equal.
  assert (forall l, Forall (fun i => 0 <= i < Z.of_nat w) l ->
    filter (fun i => Z.testbit a i = true) l = filter (fun i => Z.testbit b i = true) l) as Hl.
  { induction l as [|i l IH]; intros Hl; [done|]. apply Forall_cons in Hl as [Hi Hl].
    rewrite !filter_cons, IH by done. by rewrite H. }
  apply Hl. apply Forall_forall. intros i Hi%elem_of_seqZ. lia.
Qed.

Lemma popcount_bounds w z : 0 <= popcount w z <= Z.of_nat w.
Proof.
  unfold popcount. split; [lia|].
  transitivity (Z.of_nat (length (seqZ 0 (Z.of_nat w)))); [|rewrite length_seqZ; lia].
  apply Nat2Z.inj_le, length_filter.
Qed.

(** Two values that differ in one bit only. *)
Lemma popcount_flip w a b i : 0 <= i < Z.of_nat w ->
  Z.testbit a i = false -> Z.testbit b i = true ->
  (forall j, 0 <= j < Z.of_nat w -> j <> i -> Z.testbit a j = Z.testbit b j) ->
  popcount w b = popcount w a + 1.
Proof.
  intros Hi Ha Hb Hj. unfold popcount.
  replace (Z.of_nat w) with (i + (1 + (Z.of_nat w - i - 1))) by lia.
  rewrite seqZ_app by lia. rewrite !filter_app, !length_app.
  rewrite (seqZ_app (0 + i)) by lia. rewrite !filter_app, !length_app.
  assert (forall l : list Z, (forall j, j ∈ l -> 0 <= j < Z.of_nat w /\ j <> i) ->
    filter (fun j => Z.testbit a j = true) l = filter (fun j => Z.testbit b j = true) l) as Hl.
  { induction l as [|j l IH]; intros Hl; [done|]. rewrite !filter_cons.
    rewrite IH by (intros; apply Hl; by right).
    destruct (Hl j ltac:(by left)). by rewrite Hj. }
  rewrite !(Hl (seqZ 0 i)), !(Hl (seqZ (0 + i + 1) _)); [|intros j Hj'%elem_of_seqZ; lia..].
  assert (seqZ (0 + i) 1 = [i]) as -> by (rewrite seqZ_cons by lia; simpl; by rewrite Z.add_0_l).
  rewrite !filter_cons, !filter_nil. rewrite Ha, Hb. simpl. lia.
Qed.

(** ** The invariant *)

Definition int_inv (s : goldfish_int_state) : Prop :=
  in_u 32 (level s) /\ in_u 32 (irq_enabled s) /\ in_u 32 (fiq_enabled s)
  /\ pending_count s = popcount 32 (level s .& irq_enabled s)
  /\ parent_irq s = nz (level s .& irq_enabled s)
  /\ parent_fiq s = nz (level s .& fiq_enabled s).

(** What changes the controller: an input line, or a guest write that does
    not abort. *)
Inductive int_step : goldfish_int_state -> goldfish_int_state -> Prop :=
| step_set_irq s irq lvl : 0 <= irq < 32 -> int_step s (goldfish_int_set_irq s irq lvl)
| step_write s s' offset value :
    0 <= value < 32 -> goldfish_int_write s offset value = Some s' -> int_step s s'.

Lemma mask_testbit i j : 0 <= i < 32 -> 0 <= j -> Z.testbit (u32 (1 .<< i)) j = (i =? j).
Proof. intros. rewrite wrap_spec, shiftl_1_testbit by lia. zbits_cases; done. Qed.

Lemma nz_land_mask x i : 0 <= i < 32 -> nz (x .& u32 (1 .<< i)) = Z.testbit x i.
Proof.
  intros. rewrite wrap_small; [by apply nz_land_bit; lia|].
  rewrite Z.shiftl_1_l. by apply in_u_pow2.
Qed.

(** Bits of a register after setting or clearing one. *)
Lemma set_mask_testbit x i j : 0 <= i < 32 -> 0 <= j ->
  Z.testbit (x .| u32 (1 .<< i)) j = Z.testbit x j || (i =? j).
Proof. intros. by rewrite Z.lor_spec, mask_testbit by lia. Qed.

Lemma clear_mask_testbit x i j : 0 <= i < 32 -> 0 <= j < 32 ->
  Z.testbit (x .& u32 (.~ u32 (1 .<< i))) j = Z.testbit x j && negb (i =? j).
Proof. intros. rewrite Z.land_spec, wrap_spec, Z.lnot_spec, mask_testbit by lia. zbits_cases; btauto. Qed.

Lemma in_u_set_mask x i : 0 <= i < 32 -> in_u 32 x -> in_u 32 (x .| u32 (1 .<< i)).
Proof. intros. apply in_u_lor; [lia|done|by apply wrap_range]. Qed.

(** The pending count follows a change of one bit of [a] under the mask [b]. *)
Lemma popcount_set a b i : 0 <= i < 32 -> Z.testbit a i = false ->
  popcount 32 ((a .| u32 (1 .<< i)) .& b) = popcount 32 (a .& b) + (if Z.testbit b i then 1 else 0).
Proof.
  intros Hi Ha. destruct (Z.testbit b i) eqn:Eb.
  - apply (popcount_flip _ _ _ i); [done|by rewrite Z.land_spec, Ha| |].
    + by rewrite Z.land_spec, set_mask_testbit, Z.eqb_refl, orb_true_r, Eb by lia.
    + intros j Hj Hne. rewrite !Z.land_spec, set_mask_testbit by lia. zbits_cases. btauto.
  - rewrite Z.add_0_r. apply popcount_ext. intros j Hj.
    rewrite !Z.land_spec, set_mask_testbit by lia. zbits_cases; [subst; rewrite Eb|]; btauto.
Qed.

Lemma popcount_clear a b i : 0 <= i < 32 -> Z.testbit a i = true ->
  popcount 32 ((a .& u32 (.~ u32 (1 .<< i))) .& b) = popcount 32 (a .& b) - (if Z.testbit b i then 1 else 0).
Proof.
  intros Hi Ha. destruct (Z.testbit b i) eqn:Eb.
  - enough (popcount 32 (a .& b) = popcount 32 ((a .& u32 (.~ u32 (1 .<< i))) .& b) + 1) by lia.
    apply (popcount_flip _ _ _ i); [done| |by rewrite Z.land_spec, Ha, Eb|].
    + by rewrite Z.land_spec, clear_mask_testbit, Z.eqb_refl, andb_false_r by lia.
    + intros j Hj Hne. rewrite (Z.land_spec (a .& _)), clear_mask_testbit, Z.land_spec by lia. zbits_cases. btauto.
  - rewrite Z.sub_0_r. apply popcount_ext. intros j Hj.
    rewrite (Z.land_spec (a .& _)), clear_mask_testbit, Z.land_spec by lia. zbits_cases; [subst; rewrite Eb|]; btauto.
Qed.

(** The counter never wraps. *)
Lemma count_small z : 0 <= z <= 32 -> u32 z = z.
Proof. intros. apply wrap_small. unfold in_u. lia. Qed.

Lemma update_inv s : in_u 32 (level s) -> in_u 32 (irq_enabled s) -> in_u 32 (fiq_enabled s) ->
  pending_count s = popcount 32 (level s .& irq_enabled s) -> int_inv (goldfish_int_update s).
Proof. done. Qed.

Lemma set_irq_inv s irq lvl : 0 <= irq < 32 -> int_inv s -> int_inv (goldfish_int_set_irq s irq lvl).
Proof.
  intros Hi (Hl & Hi' & Hf & Hc & _). unfold goldfish_int_set_irq. rewrite !nz_land_mask by done.
  pose proof (popcount_bounds 32 (level s .& irq_enabled s)).
  destruct (nz lvl), (Z.testbit (level s) irq) eqn:El; simpl; try by apply update_inv.
  - pose proof (popcount_set (level s) (irq_enabled s) irq Hi El) as Hp.
    pose proof (popcount_bounds 32 ((level s .| u32 (1 .<< irq)) .& irq_enabled s)).
    split; [by apply in_u_set_mask|]. do 2 (split; [done|]). split; [|done]. simpl.
    revert Hp. destruct (Z.testbit (irq_enabled s) irq); intros; rewrite ?(count_small (pending_count s + 1)), ?(count_small (pending_count s - 1)); lia.
  - pose proof (popcount_clear (level s) (irq_enabled s) irq Hi El) as Hp.
    pose proof (popcount_bounds 32 ((level s .& u32 (.~ u32 (1 .<< irq))) .& irq_enabled s)).
    split; [by apply in_u_land_l|]. do 2 (split; [done|]). split; [|done]. simpl.
    revert Hp. destruct (Z.testbit (irq_enabled s) irq); intros; rewrite ?(count_small (pending_count s + 1)), ?(count_small (pending_count s - 1)); lia.
Qed.

Lemma write_inv s offset value s' : 0 <= value < 32 -> int_inv s ->
  goldfish_int_write s offset value = Some s' -> int_inv s'.
Proof.
  intros Hi (Hl & Hi' & Hf & Hc & _). unfold goldfish_int_write. rewrite !nz_land_mask by done.
  pose proof (popcount_bounds 32 (level s .& irq_enabled s)).
  destruct (offset =? INTERRUPT_DISABLE_ALL); [|destruct (offset =? INTERRUPT_DISABLE);
    [|destruct (offset =? INTERRUPT_ENABLE); [|done]]]; intros [= <-].
  - by apply update_inv.
  - destruct (Z.testbit (irq_enabled s) value) eqn:Ee; [|by apply update_inv].
    pose proof (popcount_clear (irq_enabled s) (level s) value Hi Ee) as Hp.
    rewrite !(Z.land_comm _ (level s)) in Hp.
    pose proof (popcount_bounds 32 (level s .& (irq_enabled s .& u32 (.~ u32 (1 .<< value))))).
    split; [done|]. split; [by apply in_u_land_l|]. split; [done|]. split; [|done]. simpl.
    revert Hp. destruct (Z.testbit (level s) value); intros; rewrite ?(count_small (pending_count s + 1)), ?(count_small (pending_count s - 1)); lia.
  - destruct (Z.testbit (irq_enabled s) value) eqn:Ee; [by apply update_inv|].
    pose proof (popcount_set (irq_enabled s) (level s) value Hi Ee) as Hp.
    rewrite !(Z.land_comm _ (level s)) in Hp.
    pose proof (popcount_bounds 32 (level s .& (irq_enabled s .| u32 (1 .<< value)))).
    split; [done|]. split; [by apply in_u_set_mask|]. split; [done|]. split; [|done]. simpl.
    revert Hp. destruct (Z.testbit (level s) value); intros; rewrite ?(count_small (pending_count s + 1)), ?(count_small (pending_count s - 1)); lia.
Qed.

Lemma int_step_inv s s' : int_step s s' -> int_inv s -> int_inv s'.
Proof. intros Hs Hi. destruct Hs; [by apply set_irq_inv|by eapply write_inv]. Qed.

Lemma init_inv : int_inv goldfish_interrupt_init.
Proof. repeat split; done. Qed.

Lemma reachable_inv s : rtc int_step goldfish_interrupt_init s -> int_inv s.
Proof.
  intros Hr. enough (forall s0, rtc int_step s0 s -> int_inv s0 -> int_inv s) as HG.
  { by eapply HG, init_inv. }
  clear Hr. induction 1 as [|s1 s2 s3 Hs _ IH]; [done|]. intros Hi. by eapply IH, int_step_inv.
Qed.

(** ** The registers *)

Lemma first_pending_spec n i p : 0 <= i -> i + Z.of_nat n <= 32 ->
  (exists j, i <= j < i + Z.of_nat n /\ Z.testbit p j = true) ->
  let r := first_pending n i p in
  i <= r < i + Z.of_nat n /\ Z.testbit p r = true /\ forall j, i <= j < r -> Z.testbit p j = false.
Proof.
  revert i. induction n as [|n IH]; intros i Hi Hn (j & Hj & Hb); [lia|]. cbv zeta. cbn [first_pending].
  rewrite nz_land_mask by lia. destruct (Z.testbit p i) eqn:E.
  - split; [lia|]. split; [done|]. lia.
  - assert (i <> j) by congruence. destruct (IH (i + 1)) as (H1 & H2 & H3); [lia|lia|exists j; split; [lia|done]|].
    split; [lia|]. split; [done|]. intros k Hk. destruct (decide (k = i)) as [->|]; [done|]. apply H3. lia.
Qed.

(** ** The lines the controller offers *)

Lemma set_irq_level s irq lvl j : 0 <= irq < 32 -> 0 <= j < 32 -> int_inv s ->
  Z.testbit (level (goldfish_int_set_irq s irq lvl)) j =
    if j =? irq then nz lvl else Z.testbit (level s) j.
Proof.
  intros Hi Hj _. unfold goldfish_int_set_irq. rewrite !nz_land_mask by done.
  destruct (nz lvl) eqn:El, (Z.testbit (level s) irq) eqn:Eb; simpl;
    rewrite ?set_mask_testbit, ?clear_mask_testbit by lia;
    destruct (Z.eqb_spec j irq) as [->|]; rewrite ?Eb, ?Z.eqb_refl; try done;
    rewrite (proj2 (Z.eqb_neq irq j)) by done; btauto.
Qed.

(** The array [goldfish_interrupt_init] returns. *)
Definition goldfish_int_lines (n : nat) : list (qemu_irq goldfish_int_state) :=
  qemu_allocate_irqs goldfish_int_set_irq n.

Section lines.
Context (n : nat) (Hn : (n <= 32)%nat).

Lemma int_line k irq : goldfish_int_lines n !! k = Some irq ->
  (k < 32)%nat /\ irq = Some (mkIRQ goldfish_int_set_irq (Z.of_nat k)).
Proof.
  intros Hk. pose proof (lookup_lt_Some _ _ _ Hk) as Hl. unfold goldfish_int_lines in *.
  rewrite length_allocate in Hl. rewrite allocate_lookup in Hk by done. simplify_eq. split; [lia|done].
Qed.

#[export] Program Instance int_irq_lines : IrqLines (goldfish_int_lines n) := {|
  lines_ok := int_inv;
  line_level s m := Z.testbit (level s) m;
|}.
Next Obligation. intros w k irq l [Hk ->]%int_line Hw. simpl. apply set_irq_inv; [lia|done]. Qed.
Next Obligation.
  intros w k irq l m [Hk ->]%int_line Hw Hm. unfold goldfish_int_lines in Hm.
  rewrite length_allocate in Hm. simpl. apply set_irq_level; [lia..|done].
Qed.
End lines.

(** ** What the controller promises *)

(** C20: In every state the controller reaches from its initial state, under
    any sequence of input changes and guest writes, the pending count the
    guest reads in INTERRUPT_STATUS is the number of raised and enabled
    inputs, and the IRQ and FIQ lines of the CPU are up exactly when such an
    input exists: the incremental count never drifts or wraps. *)
Theorem int_controller_consistent s : rtc int_step goldfish_interrupt_init s ->
  goldfish_int_read s INTERRUPT_STATUS = Some (popcount 32 (level s .& irq_enabled s))
  /\ parent_irq s = nz (level s .& irq_enabled s)
  /\ parent_fiq s = nz (level s .& fiq_enabled s).
Proof.
  intros (_ & _ & _ & Hc & Hi & Hf)%reachable_inv. split; [|done].
  unfold goldfish_int_read. simpl. by rewrite Hc.
Qed.

(** Line 3 enabled, then lines 3 and 5 raised. *)
Definition example_controller : goldfish_int_state :=
  goldfish_int_set_irq (goldfish_int_set_irq
    (default goldfish_interrupt_init (goldfish_int_write goldfish_interrupt_init INTERRUPT_ENABLE 3)) 3 1) 5 1.

Lemma example_controller_reachable : rtc int_step goldfish_interrupt_init example_controller.
Proof.
  eapply rtc_l; [apply (step_write _ _ INTERRUPT_ENABLE 3); [lia|reflexivity]|].
  eapply rtc_l; [apply (step_set_irq _ 3 1); lia|].
  eapply rtc_l; [apply (step_set_irq _ 5 1); lia|]. apply rtc_refl.
Qed.

Lemma int_controller_consistent_witness :
  goldfish_int_read example_controller INTERRUPT_STATUS = Some 1 /\ parent_irq example_controller = true.
Proof.
  destruct (int_controller_consistent example_controller example_controller_reachable) as (-> & -> & _).
  split; reflexivity.
Defined.

(** While an interrupt is pending, INTERRUPT_NUMBER reads the lowest
    raised and enabled input; and serving it (the device lowers that input)
    brings the pending count down by one. *)
Theorem int_number_is_lowest_pending s : rtc int_step goldfish_interrupt_init s -> parent_irq s = true ->
  exists n, goldfish_int_read s INTERRUPT_NUMBER = Some n /\ 0 <= n < 32
    /\ Z.testbit (level s) n = true /\ Z.testbit (irq_enabled s) n = true
    /\ (forall j, 0 <= j < n -> Z.testbit (level s) j && Z.testbit (irq_enabled s) j = false)
    /\ goldfish_int_read (goldfish_int_set_irq s n 0) INTERRUPT_STATUS = Some (pending_count s - 1).
Proof.
  intros Hs Hp. pose proof (reachable_inv s Hs) as (Hl & He & _ & Hc & Hi & _).
  rewrite Hi in Hp.
  destruct (first_pending_spec 32 0 (level s .& irq_enabled s)) as (Hn & Hb & Hlow); [lia|done| |].
  { pose proof (in_u_land_l 32 (level s) (irq_enabled s) ltac:(lia) Hl) as Hr.
    destruct (nz_testbit_exists (level s .& irq_enabled s)) as (j & Hj & Hb); [unfold in_u in Hr; lia|done|].
    exists j. split; [|done]. destruct (Z.lt_ge_cases j 32); [lia|].
    by rewrite (testbit_ge_range 32) in Hb by (done || lia). }
  set (n := first_pending 32 0 (level s .& irq_enabled s)) in *.
  rewrite Z.land_spec in Hb. apply andb_true_iff in Hb as [Hbl Hbe].
  exists n. split; [done|]. split; [lia|]. split; [done|]. split; [done|]. split.
  { intros j Hj. rewrite <- Z.land_spec. by apply Hlow. }
  pose proof (set_irq_inv s n 0 ltac:(lia) (reachable_inv s Hs)) as (_ & _ & _ & Hc' & _).
  change (Some (pending_count (goldfish_int_set_irq s n 0)) = Some (pending_count s - 1)).
  rewrite Hc', Hc. unfold goldfish_int_set_irq. simpl nz. cbv iota.
  rewrite !nz_land_mask, Hbl by lia. simpl. rewrite popcount_clear, Hbe by (lia || done). done.
Qed.

Lemma int_number_is_lowest_pending_witness :
  exists n, goldfish_int_read example_controller INTERRUPT_NUMBER = Some n /\ n = 3.
Proof.
  destruct (int_number_is_lowest_pending example_controller example_controller_reachable) as (n & Hn & _); [reflexivity|].
  exists n. split; [exact Hn|]. revert Hn. vm_compute. intros [= <-]. reflexivity.
Defined.

(** [goldfish_int_load] of what [goldfish_int_save] wrote restores the four
    registers and leaves the stream just after them, on any implementation of
    the snapshot files; the loaded controller is consistent again once its
    next operation drives the output lines. A stream of another version is
    refused before anything is read. *)
Theorem int_save_load {F G} `{WriterLaws F} `{ReaderLaws G} (f : F) (g : G) s s' l :
  int_inv s -> w_ok f -> r_ok g -> r_in g = enc_struct goldfish_int_fields s ++ l ->
  w_out (goldfish_int_save f s) = w_out f ++ enc_struct goldfish_int_fields s
  /\ (exists g' r, goldfish_int_load g s' GOLDFISH_INT_SAVE_VERSION = (0, r, g') /\ r_in g' = l
       /\ goldfish_int_update r = s)
  /\ (forall v, v <> GOLDFISH_INT_SAVE_VERSION -> goldfish_int_load g s' v = (-1, s', g)).
Proof.
  intros (Hl & Hi & Hf' & Hc & Hpi & Hpf) Hf Hg E.
  assert (Forall (field_ok s) goldfish_int_fields) as Hok.
  { repeat constructor; simpl; try apply Hl; try apply Hi; try apply Hf';
      rewrite Hc; pose proof (popcount_bounds 32 (level s .& irq_enabled s)); lia. }
  split; [apply put_struct_emits; done|]. split.
  - destruct (get_struct_consumes g goldfish_int_fields s s' l Hg Hok E) as (g' & Hg' & _ & Hl').
    eexists g', _. split; [exact Hg'|]. split; [done|]. unfold goldfish_int_update. simpl.
    rewrite <- Hpi, <- Hpf. by destruct s.
  - intros v Hv. unfold goldfish_int_load. by rewrite (proj2 (Z.eqb_neq _ _) Hv).
Qed.

Lemma int_save_load_witness :
  exists g' r, goldfish_int_load (mem_in (enc_struct goldfish_int_fields example_controller)) goldfish_interrupt_init 1
    = (0, r, g') /\ goldfish_int_update r = example_controller.
Proof.
  destruct (int_save_load (mem_out []) (mem_in (enc_struct goldfish_int_fields example_controller)) example_controller
    goldfish_interrupt_init [] (reachable_inv _ example_controller_reachable)) as (_ & (g' & r & H1 & _ & H2) & _).
  - exact I.
  - exact I.
  - symmetry. apply app_nil_r.
  - exists g', r. split; [exact H1|exact H2].
Defined.
