(* ===== verification/GoldfishDevice.v ===== *)
(** The goldfish device bus: hw/android/goldfish/device.c and
    include/hw/android/goldfish/device.h. Devices are structures in a store,
    linked through [next]; the bus allocates their addresses and interrupt
    lines and lets the guest enumerate them. *)
From stdpp Require Import gmap.
From S2P Require Import Prelude Irq GoldfishInt.

Definition PDEV_BUS_OP_DONE : Z := 0x00.
Definition PDEV_BUS_OP_ADD_DEV : Z := 0x08.
Definition PDEV_BUS_OP_INIT : Z := 0x00.
Definition PDEV_BUS_OP : Z := 0x00.
Definition PDEV_BUS_GET_NAME : Z := 0x04.
Definition PDEV_BUS_NAME_LEN : Z := 0x08.
Definition PDEV_BUS_ID : Z := 0x0c.
Definition PDEV_BUS_IO_BASE : Z := 0x10.
Definition PDEV_BUS_IO_SIZE : Z := 0x14.
Definition PDEV_BUS_IRQ : Z := 0x18.
Definition PDEV_BUS_IRQ_COUNT : Z := 0x1c.
Definition PDEV_BUS_NAME_ADDR_HIGH : Z := 0x20.

(** A pointer to a [goldfish_device]. *)
Abbreviation devptr := positive.

(** The members [prev] and [cookie] are not used anywhere. *)
Record goldfish_device := mkDev {
  dev_next : option devptr;
  reported_state : Z;
  dev_name : list Z;
  dev_id : Z;
  dev_base : Z;
  dev_size : Z;
  dev_irq : Z;
  dev_irq_count : Z;
}.

Definition set_next (n : option devptr) (d : goldfish_device) : goldfish_device :=
  mkDev n (reported_state d) (dev_name d) (dev_id d) (dev_base d) (dev_size d) (dev_irq d) (dev_irq_count d).
Definition set_reported (r : Z) (d : goldfish_device) : goldfish_device :=
  mkDev (dev_next d) r (dev_name d) (dev_id d) (dev_base d) (dev_size d) (dev_irq d) (dev_irq_count d).
Definition set_base (b : Z) (d : goldfish_device) : goldfish_device :=
  mkDev (dev_next d) (reported_state d) (dev_name d) (dev_id d) b (dev_size d) (dev_irq d) (dev_irq_count d).
Definition set_irq_no (i : Z) (d : goldfish_device) : goldfish_device :=
  mkDev (dev_next d) (reported_state d) (dev_name d) (dev_id d) (dev_base d) (dev_size d) i (dev_irq_count d).

(** The low and the high half of a 64-bit register. *)
Definition uint64_set_low (addr value : Z) : Z := (addr .& u64 (.~ 0xFFFFFFFF)) .| value.
Definition uint64_set_high (addr value : Z) : Z := (addr .& 0xFFFFFFFF) .| u64 (value .<< 32).

Section bus.
(** The build's target, the width of its addresses, the state behind the
    interrupt lines and the guest's memory, and the debug write to it. *)
Context (target_i386 : bool) (TARGET_LONG_BITS : Z).
Context {W : Type} (goldfish_pic : list (qemu_irq W)).
Context (safe_memory_write : W -> Z -> list Z -> W).

Definition GFD_MAX_IRQ : Z := if target_i386 then 16 else 32.
Definition GFD_KBD_IRQ : Z := 1.
Definition GFD_RTC_IRQ : Z := 8.
Definition GFD_MOUSE_IRQ : Z := 12.
Definition GFD_ERR_IRQ : Z := 13.

(** The bus and the file's static variables; [bus_dev] is the address of
    [bus_state.dev]. *)
Record bus_state := mkBus {
  devs : gmap devptr goldfish_device;
  first_device : option devptr;
  last_device : option devptr;
  goldfish_free_base : Z;
  goldfish_free_irq : Z;
  bus_dev : devptr;
  current : option devptr;
  name_addr_high : Z;
  goldfish_64bit_guest : bool;
  outside : W;
}.

Definition with_devs (m : gmap devptr goldfish_device) (b : bus_state) : bus_state :=
  mkBus m (first_device b) (last_device b) (goldfish_free_base b) (goldfish_free_irq b)
    (bus_dev b) (current b) (name_addr_high b) (goldfish_64bit_guest b) (outside b).
Definition with_current (c : option devptr) (b : bus_state) : bus_state :=
  mkBus (devs b) (first_device b) (last_device b) (goldfish_free_base b) (goldfish_free_irq b)
    (bus_dev b) c (name_addr_high b) (goldfish_64bit_guest b) (outside b).
Definition with_outside (w : W) (b : bus_state) : bus_state :=
  mkBus (devs b) (first_device b) (last_device b) (goldfish_free_base b) (goldfish_free_irq b)
    (bus_dev b) (current b) (name_addr_high b) (goldfish_64bit_guest b) w.

(** [irq] is compared with the unsigned [irq_count]; [None] is [cpu_abort],
    or a line outside of the array. *)
Definition goldfish_device_set_irq (dev : goldfish_device) (i level : Z) (w : W) : option W :=
  if dev_irq_count dev <=? u32 i then None
  else match goldfish_pic !! Z.to_nat (u32 (dev_irq dev + i)) with
       | Some line => Some (qemu_set_irq w line level)
       | None => None
       end.

Definition reserved_irq (i : Z) : bool :=
  (i =? GFD_KBD_IRQ) || (i =? GFD_RTC_IRQ) || (i =? GFD_MOUSE_IRQ) || (i =? GFD_ERR_IRQ).

(** The [while] over the reserved lines: no three of them are adjacent. *)
Fixpoint skip_reserved (fuel : nat) (i : Z) : Z :=
  match fuel with
  | O => i
  | S fuel => if reserved_irq i then skip_reserved fuel (u32 (i + 1)) else i
  end.

(** [None] is [exit(1)], or a pointer that is not a device. *)
Definition goldfish_add_device_no_io (p : devptr) (b : bus_state) : option bus_state :=
  d ← devs b !! p;
  let '(d, fb) :=
    if dev_base d =? 0 then (set_base (goldfish_free_base b) d, u32 (goldfish_free_base b + dev_size d))
    else (d, goldfish_free_base b) in
  '(d, fi) ←
    (if (dev_irq d =? 0) && (0 <? dev_irq_count d) then
       let fi := u32 (goldfish_free_irq b + dev_irq_count d) in
       let fi := if target_i386 then skip_reserved 3 fi else fi in
       if GFD_MAX_IRQ <=? fi then None
       else Some (set_irq_no (goldfish_free_irq b) d, fi)
     else Some (d, goldfish_free_irq b));
  let d := set_next None d in
  let m := <[p := d]> (devs b) in
  let '(m, first) :=
    match last_device b with
    | Some q => (alter (set_next (Some p)) q m, first_device b)
    | None => (m, Some p)
    end in
  Some (mkBus m first (Some p) fb fi (bus_dev b) (current b) (name_addr_high b)
    (goldfish_64bit_guest b) (outside b)).

(** The registration of the I/O callbacks is the memory map's; the guest's
    accesses reach [goldfish_bus_read] and [goldfish_bus_write] below. *)
Definition goldfish_device_add (p : devptr) (b : bus_state) : option bus_state :=
  goldfish_add_device_no_io p b.

(** [while (current && current->reported_state == 1) current = current->next];
    [None] is a walk longer than the fuel or off the store. *)
Fixpoint skip_reported (fuel : nat) (m : gmap devptr goldfish_device) (c : option devptr) :
    option (option devptr) :=
  match c with
  | None => Some None
  | Some p =>
      d ← m !! p;
      if reported_state d =? 1 then
        match fuel with
        | O => None
        | S fuel => skip_reported fuel m (dev_next d)
        end
      else Some (Some p)
  end.

(** [s->current ? s->current->field : 0]. *)
Definition of_current (b : bus_state) (field : goldfish_device -> Z) : option (Z * bus_state) :=
  match current b with
  | None => Some (0, b)
  | Some p => d ← devs b !! p; Some (field d, b)
  end.

Definition goldfish_bus_read (b : bus_state) (offset : Z) : option (Z * bus_state) :=
  if offset =? PDEV_BUS_OP then
    '(m, c) ←
      match current b with
      | Some p =>
          d ← devs b !! p;
          let m := <[p := set_reported 1 d]> (devs b) in
          Some (m, dev_next d)
      | None => Some (devs b, first_device b)
      end;
    c ← skip_reported (Datatypes.S (size m)) m c;
    let b := with_current c (with_devs m b) in
    match c with
    | Some _ => Some (PDEV_BUS_OP_ADD_DEV, b)
    | None =>
        d ← m !! bus_dev b;
        w ← goldfish_device_set_irq d 0 0 (outside b);
        Some (PDEV_BUS_OP_DONE, with_outside w b)
    end
  else if offset =? PDEV_BUS_NAME_LEN then of_current b (fun d => Z.of_nat (length (dev_name d)))
  else if offset =? PDEV_BUS_ID then of_current b dev_id
  else if offset =? PDEV_BUS_IO_BASE then of_current b dev_base
  else if offset =? PDEV_BUS_IO_SIZE then of_current b dev_size
  else if offset =? PDEV_BUS_IRQ then of_current b dev_irq
  else if offset =? PDEV_BUS_IRQ_COUNT then of_current b dev_irq_count
  else None.

(** [while (dev) { dev->reported_state = 0; dev = dev->next; }]. *)
Fixpoint clear_reported (fuel : nat) (m : gmap devptr goldfish_device) (c : option devptr) :
    option (gmap devptr goldfish_device) :=
  match c with
  | None => Some m
  | Some p =>
      match fuel with
      | O => None
      | S fuel => d ← m !! p; clear_reported fuel (<[p := set_reported 0 d]> m) (dev_next d)
      end
  end.

Definition goldfish_bus_op_init (b : bus_state) : option bus_state :=
  m ← clear_reported (size (devs b)) (devs b) (first_device b);
  let b := with_current None (with_devs m b) in
  d ← m !! bus_dev b;
  w ← goldfish_device_set_irq d 0 (if first_device b is Some _ then 1 else 0) (outside b);
  Some (with_outside w b).

Definition goldfish_bus_write (b : bus_state) (offset value : Z) : option bus_state :=
  if offset =? PDEV_BUS_OP then
    if value =? PDEV_BUS_OP_INIT then goldfish_bus_op_init b else None
  else if offset =? PDEV_BUS_GET_NAME then
    match current b with
    | None => Some b
    | Some p =>
        d ← devs b !! p;
        let addr := wrap TARGET_LONG_BITS (name_addr_high b .| value) in
        Some (with_outside (safe_memory_write (outside b) addr (dev_name d)) b)
    end
  else if offset =? PDEV_BUS_NAME_ADDR_HIGH then
    Some (mkBus (devs b) (first_device b) (last_device b) (goldfish_free_base b)
      (goldfish_free_irq b) (bus_dev b) (current b) (u64 (value .<< 32)) true (outside b))
  else None.

(** [goldfish_device_init]: [pic] is [goldfish_pic]. *)
Definition goldfish_device_init (b : bus_state) (fbase firq : Z) : bus_state :=
  mkBus (devs b) (first_device b) (last_device b) fbase firq (bus_dev b) (current b)
    (name_addr_high b) (goldfish_64bit_guest b) (outside b).

Definition goldfish_device_bus_init (b : bus_state) (addr i : Z) : option bus_state :=
  let m := alter (fun d => set_irq_no i (set_base addr d)) (bus_dev b) (devs b) in
  goldfish_device_add (bus_dev b) (with_devs m b).
End bus.

Arguments mkBus {W}.
Arguments devs {W}.
Arguments first_device {W}.
Arguments last_device {W}.
Arguments goldfish_free_base {W}.
Arguments goldfish_free_irq {W}.
Arguments bus_dev {W}.
Arguments current {W}.
Arguments outside {W}.

(** ** The linked list *)

(** Following [dev_next] from [c] visits exactly [l]. *)
Fixpoint chain (m : gmap devptr goldfish_device) (c : option devptr) (l : list devptr) : Prop :=
  match l with
  | [] => c = None
  | p :: l => c = Some p /\ exists d, m !! p = Some d /\ chain m (dev_next d) l
  end.

Lemma chain_ext m m' c l :
  (forall p, p ∈ l -> dev_next <$> m !! p = dev_next <$> m' !! p) -> chain m c l -> chain m' c l.
Proof.
  revert c. induction l as [|p l IH]; intros c Hext; [done|]. intros (-> & d & Hd & Hc).
  split; [done|]. pose proof (Hext p ltac:(by left)) as Hp. rewrite Hd in Hp.
  destruct (m' !! p) as [d'|]; simplify_eq/=. exists d'. split; [done|].
  rewrite <- Hp. apply IH; [|done]. intros q Hq. apply Hext. by right.
Qed.

Lemma chain_elem m c l p : chain m c l -> p ∈ l -> is_Some (m !! p).
Proof.
  revert c. induction l as [|q l IH]; intros c; [set_solver|].
  intros (_ & d & Hd & Hc) [->|Hp]%elem_of_cons; eauto.
Qed.

Lemma chain_suffix m c l1 q l2 d :
  chain m c (l1 ++ q :: l2) -> m !! q = Some d -> chain m (dev_next d) l2.
Proof.
  revert c. induction l1 as [|p l1 IH]; intros c; simpl.
  - by intros (_ & d' & -> & Hc) [= <-].
  - intros (_ & d' & _ & Hc). by eapply IH.
Qed.

(** A chain is no longer than the store. *)
Lemma chain_length m c l : chain m c l -> NoDup l -> (length l <= size m)%nat.
Proof.
  intros Hc Hnd. rewrite <- (size_list_to_set (C := gset devptr) l Hnd).
  rewrite <- size_dom. apply subseteq_size. intros p Hp%elem_of_list_to_set.
  apply elem_of_dom. by eapply chain_elem.
Qed.

Lemma chain_snoc m c l p d : chain m c l -> p ∉ l -> NoDup l -> dev_next d = None ->
  chain (match last l with Some q => alter (set_next (Some p)) q (<[p := d]> m) | None => <[p := d]> m end)
    (if last l is Some _ then c else Some p) (l ++ [p]).
Proof.
  intros Hc Hp Hnd Hd. revert c Hc. induction l as [|q l IH]; intros c; simpl.
  - intros ->. split; [done|]. exists d. by rewrite lookup_insert_eq.
  - intros (-> & e & He & Hc). apply NoDup_cons in Hnd as [Hq Hnd].
    assert (p ≠ q) by set_solver. specialize (IH ltac:(set_solver) Hnd _ Hc).
    destruct l as [|q' l]; simpl in *.
    + split; [done|]. exists (set_next (Some p) e).
      rewrite lookup_alter_eq, lookup_insert_ne, He by done. split; [done|]. simpl.
      split; [done|]. exists d. by rewrite lookup_alter_ne, lookup_insert_eq by done.
    + change (match l with [] => Some q' | _ :: _ => last l end) with (last (q' :: l)) in *.
      destruct (last (q' :: l)) as [z|] eqn:El; [|by apply last_None in El].
      assert (z ∈ q' :: l). { apply last_Some in El as [l' ->]. set_solver. }
      split; [done|]. exists e. rewrite lookup_alter_ne, lookup_insert_ne by set_solver. done.
Qed.

(** ** The bus *)

Section bus_props.
Context (target_i386 : bool) (TARGET_LONG_BITS : Z).
Context {W : Type} (pic : list (qemu_irq W)) (mem_write : W -> Z -> list Z -> W).

(** [l] are the registered devices, in the order of their registration. *)
Definition bus_inv (b : bus_state (W := W)) (l : list devptr) : Prop :=
  chain (devs b) (first_device b) l /\ NoDup l /\ last_device b = last l.

Lemma add_device_inv b l p b' : bus_inv b l -> p ∉ l ->
  goldfish_add_device_no_io target_i386 p b = Some b' ->
  bus_inv b' (l ++ [p]) /\ current b' = current b.
Proof.
  intros (Hc & Hnd & Hl) Hp. unfold goldfish_add_device_no_io. rewrite Hl.
  intros (d & Hd & E)%bind_Some.
  destruct (if dev_base d =? 0 then _ else _) as [d1 fb].
  apply bind_Some in E as ([d2 fi] & _ & E).
  pose proof (chain_snoc (devs b) (first_device b) l p (set_next None d2) Hc Hp Hnd eq_refl) as Hs.
  assert (NoDup (l ++ [p])) by (apply NoDup_app; split; [done|]; split; [set_solver|apply NoDup_singleton]).
  destruct (last l) as [q|] eqn:El; simplify_eq/=; (split; [|done]); (split; [done|]); (split; [done|]);
    by rewrite last_snoc.
Qed.

(** Enumeration *)

Definition reported (m : gmap devptr goldfish_device) (p : devptr) : Prop :=
  exists d, m !! p = Some d /\ reported_state d = 1.
Definition unreported (m : gmap devptr goldfish_device) (p : devptr) : Prop :=
  exists d, m !! p = Some d /\ reported_state d <> 1.

(** The guest has been told about [done], not yet about [rest]. *)
Definition enum_at (b : bus_state (W := W)) (done rest : list devptr) : Prop :=
  Forall (unreported (devs b)) rest /\
  ((current b = None /\ Forall (reported (devs b)) done) \/
   exists done' q, done = done' ++ [q] /\ current b = Some q /\ Forall (reported (devs b)) done').

Lemma skip_reported_spec fuel m c l1 l2 : chain m c (l1 ++ l2) ->
  Forall (reported m) l1 -> Forall (unreported m) l2 -> (length l1 <= fuel)%nat ->
  skip_reported fuel m c = Some (head l2).
Proof.
  revert fuel c. induction l1 as [|p l1 IH]; intros fuel c Hc H1 H2 Hf; simpl in *.
  - destruct l2 as [|p l2]; simpl in *; [subst; by destruct fuel|].
    destruct Hc as (-> & d & Hd & _). apply Forall_cons in H2 as [(d' & Hd' & Hr) _].
    simplify_eq. apply Z.eqb_neq in Hr. destruct fuel; simpl; by rewrite Hd; simpl; rewrite Hr.
  - destruct Hc as (-> & d & Hd & Hc). apply Forall_cons in H1 as [(d' & Hd' & Hr) H1].
    simplify_eq. destruct fuel as [|fuel]; [lia|]. simpl. rewrite Hd. simpl. rewrite Hr. simpl.
    apply IH; [done..|lia].
Qed.

#[local] Arguments skip_reported : simpl never.

Lemma clear_reported_spec fuel m c l : chain m c l -> NoDup l -> (length l <= fuel)%nat ->
  exists m', clear_reported fuel m c = Some m' /\
    (forall p, p ∈ l -> m' !! p = set_reported 0 <$> m !! p) /\
    (forall p, p ∉ l -> m' !! p = m !! p).
Proof.
  revert fuel m c. induction l as [|p l IH]; intros fuel m c Hc Hnd Hf; simpl in *.
  - subst. exists m. split; [by destruct fuel|]. split; [set_solver|done].
  - destruct Hc as (-> & d & Hd & Hc). apply NoDup_cons in Hnd as [Hp Hnd].
    destruct fuel as [|fuel]; [lia|]. simpl. rewrite Hd. simpl.
    destruct (IH fuel (<[p:=set_reported 0 d]> m) (dev_next d)) as (m' & E & H1 & H2); [|done|lia|].
    { eapply chain_ext; [|exact Hc]. intros q Hq. by rewrite lookup_insert_ne by set_solver. }
    exists m'. split; [done|]. split.
    + intros q [->|Hq]%elem_of_cons.
      * rewrite H2 by done. by rewrite lookup_insert_eq, Hd.
      * rewrite H1 by done. by rewrite lookup_insert_ne by set_solver.
    + intros q Hq. rewrite H2 by set_solver. by rewrite lookup_insert_ne by set_solver.
Qed.

(** Two stores whose devices differ in [reported_state] only. *)
Definition same_but_reported (m m' : gmap devptr goldfish_device) : Prop :=
  forall p, set_reported 0 <$> m !! p = set_reported 0 <$> m' !! p.

Lemma same_links m m' p : same_but_reported m m' -> dev_next <$> m !! p = dev_next <$> m' !! p.
Proof. intros H. specialize (H p). destruct (m !! p) as [[]|], (m' !! p) as [[]|]; by simplify_eq/=. Qed.

Lemma same_insert m p d r : m !! p = Some d -> same_but_reported m (<[p := set_reported r d]> m).
Proof.
  intros Hd q. destruct (decide (p = q)) as [<-|]; [by rewrite lookup_insert_eq, Hd|].
  by rewrite lookup_insert_ne.
Qed.

(** The bus device drives a line of the array. *)
Definition bus_dev_ok (b : bus_state (W := W)) : Prop :=
  exists d, devs b !! bus_dev b = Some d /\ 0 < dev_irq_count d /\
    (Z.to_nat (u32 (dev_irq d)) < length pic)%nat.

Lemma bus_dev_ok_same b b' : same_but_reported (devs b) (devs b') -> bus_dev b' = bus_dev b ->
  bus_dev_ok b -> bus_dev_ok b'.
Proof.
  intros Hs Hb (d & Hd & H). specialize (Hs (bus_dev b)). rewrite Hd in Hs. unfold bus_dev_ok.
  rewrite Hb. destruct (devs b' !! bus_dev b) as [d'|]; [|done]. exists d'. split; [done|].
  destruct d, d'; simplify_eq/=. done.
Qed.

Lemma device_set_irq_some d i l w : 0 <= i < dev_irq_count d -> in_u 32 i ->
  (Z.to_nat (u32 (dev_irq d + i)) < length pic)%nat ->
  exists line, pic !! Z.to_nat (u32 (dev_irq d + i)) = Some line /\
    goldfish_device_set_irq pic d i l w = Some (qemu_set_irq w line l).
Proof.
  intros Hi Hu Hl. apply lookup_lt_is_Some_2 in Hl as [line E]. exists line. split; [done|].
  unfold goldfish_device_set_irq. rewrite E, (wrap_small 32 i) by done.
  destruct (Z.leb_spec (dev_irq_count d) i); [lia|done].
Qed.

Lemma reported_insert m p q d : m !! p = Some d -> reported m q ->
  reported (<[p := set_reported 1 d]> m) q.
Proof.
  intros Hd (e & He & Hr). destruct (decide (p = q)) as [<-|]; unfold reported.
  - rewrite lookup_insert_eq. eauto.
  - rewrite lookup_insert_ne by done. eauto.
Qed.

Lemma unreported_insert m p q d r : p <> q -> unreported m q ->
  unreported (<[p := set_reported r d]> m) q.
Proof. intros Hne (e & He & Hr). unfold unreported. rewrite lookup_insert_ne by done. eauto. Qed.

(** The first half of a read of [PDEV_BUS_OP]: the device that was current
    is marked, and the walk stops at the first unreported one. *)
Lemma read_walk b done rest : bus_inv b (done ++ rest) -> enum_at b done rest ->
  exists m, (match current b with
     | Some p => d ← devs b !! p; Some (<[p := set_reported 1 d]> (devs b), dev_next d)
     | None => Some (devs b, first_device b) end ≫= (fun '(m, c) =>
        c ← skip_reported (S (size m)) m c; Some (m, c))) = Some (m, head rest)
    /\ same_but_reported (devs b) m /\ Forall (reported m) done /\ Forall (unreported m) rest.
Proof.
  intros (Hc & Hnd & _) (Hun & Hcur). pose proof (chain_length _ _ _ Hc Hnd) as Hlen.
  rewrite length_app in Hlen. destruct Hcur as [(-> & Hre)|(done' & q & -> & -> & Hre)]; simpl.
  - exists (devs b). rewrite (skip_reported_spec (S (size (devs b))) _ _ done rest) by (done || lia).
    by split_and!.
  - rewrite <- app_assoc in Hc. destruct (chain_elem _ _ _ q Hc ltac:(set_solver)) as [d Hd].
    pose proof (chain_suffix _ _ _ _ _ _ Hc Hd) as Hs.
    pose proof (same_insert (devs b) q d 1 Hd) as Hsame. rewrite Hd. simpl.
    set (m := <[q := set_reported 1 d]> (devs b)) in *.
    apply NoDup_app in Hnd as (_ & Hq & _). specialize (Hq q ltac:(set_solver)).
    assert (Forall (unreported m) rest) as Hun'.
    { rewrite Forall_forall in *. intros p Hp. apply unreported_insert; [set_solver|auto]. }
    exists m. rewrite (skip_reported_spec (S (size m)) m (dev_next d) [] rest); [|
      eapply chain_ext; [intros; by apply same_links|done] |done|done|simpl; lia].
    split; [done|]. split; [done|]. split; [|done]. apply Forall_app. split.
    + eapply Forall_impl; [exact Hre|]. intros p. by apply reported_insert.
    + apply Forall_singleton. exists (set_reported 1 d). unfold m. by rewrite lookup_insert_eq.
Qed.

Lemma bus_inv_same b b' l : same_but_reported (devs b) (devs b') ->
  first_device b' = first_device b -> last_device b' = last_device b -> bus_inv b l -> bus_inv b' l.
Proof.
  intros Hs Hf Hl (Hc & Hnd & Hla). unfold bus_inv. rewrite Hf, Hl. split_and!; [|done..].
  eapply chain_ext; [|exact Hc]. intros. by apply same_links.
Qed.

(** A read of [PDEV_BUS_OP] announces the next device. *)
Lemma bus_read_next b done p rest : bus_inv b (done ++ p :: rest) -> enum_at b done (p :: rest) ->
  exists b', goldfish_bus_read pic b PDEV_BUS_OP = Some (PDEV_BUS_OP_ADD_DEV, b')
    /\ current b' = Some p /\ enum_at b' (done ++ [p]) rest /\ bus_inv b' (done ++ p :: rest)
    /\ same_but_reported (devs b) (devs b') /\ bus_dev b' = bus_dev b /\ outside b' = outside b.
Proof.
  intros Hb He. destruct (read_walk _ _ _ Hb He) as (m & E & Hs & Hre & Hun).
  apply bind_Some in E as ([m' c] & E1 & E2). apply bind_Some in E2 as (c' & E2 & [= -> ->]).
  exists (with_current (Some p) (with_devs m b)). split_and!; try done.
  - unfold goldfish_bus_read. simpl. rewrite E1. simpl. by rewrite E2.
  - apply Forall_cons in Hun as [_ Hun]. split; [done|]. right. by exists done, p.
  - by eapply bus_inv_same.
Qed.

(** When none is left it answers [PDEV_BUS_OP_DONE] and lowers the line. *)
Lemma bus_read_done b l : bus_inv b l -> enum_at b l [] -> bus_dev_ok b ->
  exists b' d line, devs b !! bus_dev b = Some d /\ pic !! Z.to_nat (u32 (dev_irq d)) = Some line
    /\ goldfish_bus_read pic b PDEV_BUS_OP = Some (PDEV_BUS_OP_DONE, b')
    /\ current b' = None /\ enum_at b' l [] /\ bus_inv b' l
    /\ same_but_reported (devs b) (devs b') /\ bus_dev b' = bus_dev b
    /\ outside b' = qemu_set_irq (outside b) line 0.
Proof.
  intros Hb He Hok. rewrite <- (app_nil_r l) in Hb.
  destruct (read_walk _ _ _ Hb He) as (m & E & Hs & Hre & _). rewrite app_nil_r in Hb.
  apply bind_Some in E as ([m' c] & E1 & E2). apply bind_Some in E2 as (c' & E2 & [= -> ->]).
  destruct Hok as (d & Hd & Hn & Hl). pose proof (Hs (bus_dev b)) as Hd'. rewrite Hd in Hd'.
  destruct (m !! bus_dev b) as [d'|] eqn:Em; [|done].
  assert (dev_irq d' = dev_irq d /\ dev_irq_count d' = dev_irq_count d) as [Ei Ec]
    by (destruct d, d'; by simplify_eq/=).
  destruct (device_set_irq_some d' 0 0 (outside b)) as (line & El & Ew);
    [lia|done|by rewrite Z.add_0_r, Ei|]. rewrite Z.add_0_r, Ei in El.
  eexists (with_outside _ (with_current None (with_devs m b))), d, line. split_and!; try done.
  - unfold goldfish_bus_read. simpl. rewrite E1. simpl. rewrite E2. simpl. rewrite Em. simpl.
    by rewrite Ew.
  - split; [done|]. by left.
  - by eapply bus_inv_same.
Qed.

(** [goldfish_bus_op_init] makes every device unreported and raises the
    line when there is a device. *)
Lemma op_init_spec b l : bus_inv b l -> bus_dev_ok b ->
  exists b' d line, devs b !! bus_dev b = Some d /\ pic !! Z.to_nat (u32 (dev_irq d)) = Some line
    /\ goldfish_bus_op_init pic b = Some b' /\ enum_at b' [] l /\ bus_inv b' l
    /\ same_but_reported (devs b) (devs b') /\ bus_dev b' = bus_dev b
    /\ outside b' = qemu_set_irq (outside b) line (if l is [] then 0 else 1).
Proof.
  intros Hb Hok. pose proof Hb as (Hc & Hnd & _).
  destruct (clear_reported_spec (size (devs b)) _ _ _ Hc Hnd (chain_length _ _ _ Hc Hnd))
    as (m & E & H1 & H2).
  assert (same_but_reported (devs b) m) as Hs.
  { intros p. destruct (decide (p ∈ l)); [|by rewrite H2]. rewrite H1 by done. by destruct (devs b !! p). }
  destruct Hok as (d & Hd & Hn & Hl). pose proof (Hs (bus_dev b)) as Hd'. rewrite Hd in Hd'.
  destruct (m !! bus_dev b) as [d'|] eqn:Em; [|done].
  assert (dev_irq d' = dev_irq d /\ dev_irq_count d' = dev_irq_count d) as [Ei Ec]
    by (destruct d, d'; by simplify_eq/=).
  destruct (device_set_irq_some d' 0 (if l is [] then 0 else 1) (outside b)) as (line & El & Ew);
    [lia|done|by rewrite Z.add_0_r, Ei|]. rewrite Z.add_0_r, Ei in El.
  eexists (with_outside _ (with_current None (with_devs m b))), d, line. split_and!; try done.
  - unfold goldfish_bus_op_init. rewrite E. simpl. rewrite Em. simpl.
    replace (if first_device b is Some _ then 1 else 0) with (if l is [] then 0 else 1); [by rewrite Ew|].
    destruct l; simpl in Hc; [by rewrite Hc|by destruct Hc as [-> _]].
  - split; [|by left]. apply Forall_forall. intros p Hp.
    destruct (chain_elem _ _ _ p Hc Hp) as [e He]. exists (set_reported 0 e). simpl.
    by rewrite H1, He by done.
  - by eapply bus_inv_same.
Qed.

(** The guest's enumeration loop: [n] reads of [PDEV_BUS_OP], each with the
    device its other registers then describe. *)
Fixpoint bus_reads (n : nat) (b : bus_state (W := W)) : option (list (Z * option devptr) * bus_state) :=
  match n with
  | O => Some ([], b)
  | S n =>
      '(v, b) ← goldfish_bus_read pic b PDEV_BUS_OP;
      let c := current b in
      '(l, b) ← bus_reads n b;
      Some ((v, c) :: l, b)
  end.

Lemma bus_reads_rest b done rest n : bus_inv b (done ++ rest) -> enum_at b done rest ->
  exists b1, bus_inv b1 (done ++ rest) /\ enum_at b1 (done ++ rest) []
    /\ same_but_reported (devs b) (devs b1) /\ bus_dev b1 = bus_dev b /\ outside b1 = outside b
    /\ bus_reads (length rest + n) b =
         '(l, b2) ← bus_reads n b1; Some (((fun p => (PDEV_BUS_OP_ADD_DEV, Some p)) <$> rest) ++ l, b2).
Proof.
  revert b done. induction rest as [|p rest IH]; intros b done Hb He; simpl.
  - exists b. rewrite app_nil_r in *. split_and!; try done. by destruct (bus_reads n b) as [[]|].
  - destruct (bus_read_next _ _ _ _ Hb He) as (b1 & E & Ec & He1 & Hb1 & Hs & Hd & Ho).
    replace (done ++ p :: rest) with ((done ++ [p]) ++ rest) in * by by rewrite <- app_assoc.
    destruct (IH b1 (done ++ [p]) Hb1 He1) as (b2 & Hb2 & He2 & Hs2 & Hd2 & Ho2 & E2).
    exists b2. split_and!; try done; [|by rewrite Hd2|by rewrite Ho2|].
    { intros q. by rewrite (Hs q). }
    rewrite E. simpl. rewrite E2, Ec. by destruct (bus_reads n b2) as [[]|].
Qed.

(** ** The allocation of addresses and lines *)

(** [ranges] are below one another, from [lo] up to [hi]. *)
Fixpoint laid_out (lo : Z) (ranges : list (Z * Z)) (hi : Z) : Prop :=
  match ranges with
  | [] => lo <= hi
  | (b, n) :: ranges => lo <= b /\ 0 <= n /\ laid_out (b + n) ranges hi
  end.

Lemma laid_out_snoc lo ranges b n hi : laid_out lo ranges b -> 0 <= n -> b + n <= hi ->
  laid_out lo (ranges ++ [(b, n)]) hi.
Proof.
  revert lo. induction ranges as [|[b' n'] ranges IH]; intros lo; simpl; [lia|].
  intros (? & ? & ?) ? ?. split_and!; auto.
Qed.

Lemma laid_out_le lo ranges hi : laid_out lo ranges hi -> lo <= hi.
Proof.
  revert lo. induction ranges as [|[b n] ranges IH]; intros lo; simpl; [done|].
  intros (? & ? & H%IH). lia.
Qed.

Lemma laid_out_elem lo ranges hi b n : laid_out lo ranges hi -> (b, n) ∈ ranges -> lo <= b /\ b + n <= hi.
Proof.
  revert lo. induction ranges as [|[b' n'] ranges IH]; intros lo; simpl; [set_solver|].
  intros (? & ? & H) [[= -> ->]|Hin]%elem_of_cons; [apply laid_out_le in H; lia|].
  destruct (IH _ H Hin). lia.
Qed.

(** Ranges laid out in this way are disjoint. *)
Lemma laid_out_disjoint lo ranges hi i j b n b' n' : laid_out lo ranges hi ->
  ranges !! i = Some (b, n) -> ranges !! j = Some (b', n') -> (i < j)%nat -> b + n <= b'.
Proof.
  revert lo i j. induction ranges as [|[c m] ranges IH]; intros lo i j; simpl; [done|].
  intros (? & ? & H) Hi Hj Hij. destruct j as [|j]; [lia|]. destruct i as [|i]; simplify_eq/=.
  - apply list_elem_of_lookup_2 in Hj. apply (laid_out_elem _ _ _ _ _ H Hj).
  - eapply (IH _ i j); eauto with lia.
Qed.

(** The loop ends on a line that is not reserved. *)
Lemma skip_reserved_free i : in_u 32 i -> reserved_irq (skip_reserved 3 i) = false /\ i <= skip_reserved 3 i \/ 2 ^ 32 - 3 <= i.
Proof.
  intros Hi. destruct (Z.le_gt_cases (2 ^ 32 - 3) i); [by right|left].
  unfold in_u in Hi. simpl. unfold reserved_irq, GFD_KBD_IRQ, GFD_RTC_IRQ, GFD_MOUSE_IRQ, GFD_ERR_IRQ.
  rewrite !(wrap_small 32) by (unfold in_u; rewrite ?(wrap_small 32) by (unfold in_u; lia); lia).
  repeat (case_match; try lia).
  all: rewrite ?orb_true_iff, ?orb_false_iff, ?Z.eqb_eq, ?Z.eqb_neq in *; lia.
Qed.

Lemma skip_reserved_ge i : 0 <= i < 2 ^ 32 - 3 -> i <= skip_reserved 3 i.
Proof. intros. destruct (skip_reserved_free i) as [[]|]; unfold in_u; lia. Qed.

#[local] Arguments skip_reserved : simpl never.

(** A device that asks for both an address and lines. *)
Definition wants (d : goldfish_device) : Prop :=
  dev_base d = 0 /\ dev_irq d = 0 /\ 0 < dev_irq_count d <= 2 ^ 31 /\ 0 <= dev_size d.

Lemma add_device_alloc (b : bus_state (W := W)) p d b' : devs b !! p = Some d -> wants d ->
  0 <= goldfish_free_irq b < GFD_MAX_IRQ target_i386 ->
  0 <= goldfish_free_base b -> goldfish_free_base b + dev_size d < 2 ^ 32 ->
  goldfish_add_device_no_io target_i386 p b = Some b' ->
  goldfish_free_base b' = goldfish_free_base b + dev_size d
  /\ goldfish_free_irq b + dev_irq_count d <= goldfish_free_irq b' < GFD_MAX_IRQ target_i386
  /\ (set_next None <$> devs b' !! p)
      = Some (set_next None (set_irq_no (goldfish_free_irq b) (set_base (goldfish_free_base b) d)))
  /\ forall q, p <> q -> set_next None <$> devs b' !! q = set_next None <$> devs b !! q.
Proof.
  intros Hd (Hb0 & Hi0 & Hic & Hsz) Hfi Hfb Hfbs. unfold goldfish_add_device_no_io. rewrite Hd. simpl.
  rewrite Hb0. simpl. rewrite Hi0. simpl. rewrite (proj2 (Z.ltb_lt 0 (dev_irq_count d))) by lia.
  assert (GFD_MAX_IRQ target_i386 <= 32) by (unfold GFD_MAX_IRQ; destruct target_i386; lia).
  rewrite !(wrap_small 32) by (unfold in_u; lia).
  set (fi := goldfish_free_irq b + dev_irq_count d).
  pose proof (skip_reserved_ge fi ltac:(lia)).
  set (fi' := if target_i386 then skip_reserved 3 fi else fi).
  assert (fi <= fi') by (unfold fi'; destruct target_i386; lia).
  destruct (Z.leb_spec (GFD_MAX_IRQ target_i386) fi'); [done|]. simpl.
  destruct (last_device b) as [z|]; intros [= <-]; simpl; (split; [done|]); (split; [lia|]).
  - split.
    + destruct (decide (z = p)) as [->|]; [by rewrite lookup_alter_eq, lookup_insert_eq|].
      by rewrite lookup_alter_ne, lookup_insert_eq.
    + intros q Hq. destruct (decide (z = q)) as [->|].
      * rewrite lookup_alter_eq, lookup_insert_ne by done. by destruct (devs b !! q).
      * by rewrite lookup_alter_ne, lookup_insert_ne.
  - split; [by rewrite lookup_insert_eq|]. intros q Hq. by rewrite lookup_insert_ne.
Qed.

(** A sequence of registrations. *)
Fixpoint add_all (ps : list devptr) (b : bus_state (W := W)) : option bus_state :=
  match ps with
  | [] => Some b
  | p :: ps => b ← goldfish_device_add target_i386 p b; add_all ps b
  end.

Definition dev_window (d : goldfish_device) : Z * Z := (dev_base d, dev_size d).
Definition dev_lines (d : goldfish_device) : Z * Z := (dev_irq d, dev_irq_count d).

(** The sum of the sizes the devices [ps] ask for. *)
Definition sizes (m : gmap devptr goldfish_device) (ps : list devptr) : Z :=
  foldr (fun p z => default 0 (dev_size <$> m !! p) + z) 0 ps.

(** The windows and the lines of [ps] in the store [m]. *)
Definition windows (m : gmap devptr goldfish_device) (ps : list devptr) : list (Z * Z) :=
  omap (fun p => dev_window <$> m !! p) ps.
Definition irq_ranges (m : gmap devptr goldfish_device) (ps : list devptr) : list (Z * Z) :=
  omap (fun p => dev_lines <$> m !! p) ps.

(** The devices of two stores agree but for the links. *)
Definition same_but_next (m m' : gmap devptr goldfish_device) (q : devptr) : Prop :=
  set_next None <$> m !! q = set_next None <$> m' !! q.

Lemma same_but_next_some m m' q d : same_but_next m m' q -> m !! q = Some d ->
  exists d', m' !! q = Some d' /\ set_next None d' = set_next None d.
Proof.
  unfold same_but_next. intros H Hd. rewrite Hd in H. destruct (m' !! q) as [d'|]; [|done].
  exists d'. split; [done|]. apply (inj Some). by symmetry.
Qed.

Lemma sizes_same m m' ps : (forall q, q ∈ ps -> same_but_next m m' q) -> sizes m ps = sizes m' ps.
Proof.
  induction ps as [|p ps IH]; intros H; simpl; [done|]. rewrite IH by (intros; apply H; by right).
  f_equal. specialize (H p ltac:(by left)). unfold same_but_next in H.
  destruct (m !! p) as [[]|], (m' !! p) as [[]|]; by simplify_eq/=.
Qed.

Lemma sizes_nonneg m ps : Forall (fun p => exists d, m !! p = Some d /\ wants d) ps -> 0 <= sizes m ps.
Proof.
  induction 1 as [|p ps (d & Hd & _ & _ & _ & Hs) _ IH]; simpl; [done|]. rewrite Hd. simpl. lia.
Qed.

Lemma add_all_alloc ps (b b' : bus_state (W := W)) :
  Forall (fun p => exists d, devs b !! p = Some d /\ wants d) ps -> NoDup ps ->
  0 <= goldfish_free_irq b < GFD_MAX_IRQ target_i386 ->
  0 <= goldfish_free_base b -> goldfish_free_base b + sizes (devs b) ps < 2 ^ 32 ->
  add_all ps b = Some b' ->
  laid_out (goldfish_free_base b) (windows (devs b') ps) (goldfish_free_base b')
  /\ laid_out (goldfish_free_irq b) (irq_ranges (devs b') ps) (goldfish_free_irq b')
  /\ goldfish_free_irq b' < GFD_MAX_IRQ target_i386
  /\ length (windows (devs b') ps) = length ps /\ length (irq_ranges (devs b') ps) = length ps
  /\ forall q, q ∉ ps -> same_but_next (devs b') (devs b) q.
Proof.
  revert b. induction ps as [|p ps IH]; intros b Hw Hnd Hfi Hfb Hs; simpl in *.
  { intros [= <-]. split_and!; done || lia. }
  apply Forall_cons in Hw as [(d & Hd & Hwd) Hw]. apply NoDup_cons in Hnd as [Hp Hnd].
  intros (b1 & E1 & E)%bind_Some. rewrite Hd in Hs. simpl in Hs.
  pose proof (sizes_nonneg _ _ Hw).
  destruct (add_device_alloc b p d b1 Hd Hwd Hfi Hfb ltac:(lia) E1) as (Eb & Ei & Ep & Eq).
  assert (forall q, q ∈ ps -> same_but_next (devs b) (devs b1) q) as Hsame.
  { intros q Hq. symmetry. apply Eq. set_solver. }
  destruct Hwd as (_ & _ & Hic & Hsz).
  destruct (IH b1) as (H1 & H2 & H3 & H4 & H5 & H6); [|done|lia|lia| |done|].
  { rewrite Forall_forall in *. intros q Hq. destruct (Hw q Hq) as (e & He & Hwe).
    destruct (same_but_next_some _ _ _ _ (Hsame q Hq) He) as (e' & He' & Ee). exists e'. split; [done|].
    unfold wants in *. destruct e, e'; by simplify_eq/=. }
  { rewrite Eb, <- (sizes_same _ _ _ Hsame). lia. }
  destruct (devs b1 !! p) as [d1|] eqn:Ed1; simplify_eq/=.
  destruct (same_but_next_some (devs b1) (devs b') p d1) as (d' & Hd' & Ed'); [by symmetry; apply H6|done|].
  rewrite Hd'. simpl. unfold dev_window, dev_lines. destruct d, d1, d'; simplify_eq/=.
  split_and!; try done || lia.
  - by rewrite <- Eb.
  - clear -H2 Ei. destruct (irq_ranges (devs b') ps) as [|[]]; simpl in *; [lia|]. destruct H2. split; [lia|done].
  - intros q Hq. etransitivity; [apply H6|apply Eq]; set_solver.
Qed.
End bus_props.

(** ** What the bus promises *)

(** C32: after the guest writes [PDEV_BUS_OP_INIT] the bus raises its line, and
    the guest's reads of [PDEV_BUS_OP] announce every registered device once,
    in the order of registration, and then answer [PDEV_BUS_OP_DONE] and lower
    the line, on any array of lines that keeps the promise of [IrqLines]. *)
Theorem bus_enumeration {W} (pic : list (qemu_irq W)) `{IrqLines W pic} bits mem_write
    (b : bus_state (W := W)) l d :
  bus_inv b l -> l <> [] -> bus_dev_ok pic b -> lines_ok (outside b) ->
  devs b !! bus_dev b = Some d ->
  exists b0 b1, goldfish_bus_write bits pic mem_write b PDEV_BUS_OP PDEV_BUS_OP_INIT = Some b0
    /\ line_level (outside b0) (u32 (dev_irq d)) = true
    /\ bus_reads pic (S (length l)) b0 =
         Some (((fun p => (PDEV_BUS_OP_ADD_DEV, Some p)) <$> l) ++ [(PDEV_BUS_OP_DONE, None)], b1)
    /\ line_level (outside b1) (u32 (dev_irq d)) = false.
Proof.
  intros Hb Hl Hok Hlines Hd.
  pose proof (proj1 (wrap_range 32 (dev_irq d) ltac:(lia))) as Hi.
  destruct (op_init_spec pic b l Hb Hok) as (b0 & d0 & line & Hd0 & Hline & E & He & Hb0 & Hs & Hbd & Ho).
  simplify_eq. pose proof (bus_dev_ok_same pic b b0 Hs Hbd Hok) as Hok0.
  destruct (bus_reads_rest pic b0 [] l 1 Hb0 He) as (b1 & Hb1 & He1 & Hs1 & Hbd1 & Ho1 & E1).
  destruct (bus_read_done pic b1 l Hb1 He1) as (b2 & d2 & line2 & Hd2 & Hline2 & E2 & Ec2 & _ & _ & _ & _ & Ho2).
  { by eapply bus_dev_ok_same. }
  assert (dev_irq d2 = dev_irq d) as Ei.
  { rewrite Hbd1, Hbd in Hd2. pose proof (Hs (bus_dev b)) as H1. pose proof (Hs1 (bus_dev b)) as H2.
    rewrite <- H1, Hd, Hd2 in H2. destruct d, d2; by simplify_eq/=. }
  rewrite Ei in Hline2. exists b0, b2. split; [done|]. rewrite Ho, Ho2, Ho1, Ho. split.
  { rewrite (set_line_same pic) by done. by destruct l. }
  split; [by rewrite Nat.add_comm in E1; simpl in E1; simpl; rewrite E1, E2; simpl; rewrite Ec2|].
  rewrite (set_line_same pic); [done..|]. by eapply set_line_ok.
Qed.

(** A bus with three devices on the lines of the interrupt controller. *)
Definition example_dev (n : Z) (lines : Z) : goldfish_device := mkDev None 0 [n] n 0 0x1000 0 lines.

Definition example_store : gmap devptr goldfish_device :=
  {[ 1%positive := mkDev None 0 [98; 117; 115] 0xffffffff 0x10001000 0x1000 1 1;
     2%positive := example_dev 116 1; 3%positive := example_dev 101 2 ]}.

Definition example_bus : bus_state (W := goldfish_int_state) :=
  mkBus example_store None None 0x10010000 10 1%positive None 0 false goldfish_interrupt_init.

Definition example_bus_added : bus_state (W := goldfish_int_state) :=
  default example_bus (add_all false [1; 2; 3]%positive example_bus).

Lemma example_bus_inv : bus_inv example_bus_added [1; 2; 3]%positive.
Proof.
  split; [|split; [|done]].
  - split; [done|]. eexists. split; [vm_compute; done|]. split; [done|].
    eexists. split; [vm_compute; done|]. split; [done|]. eexists. by split; [vm_compute; done|].
  - apply (bool_decide_unpack _). done.
Qed.

Lemma bus_enumeration_witness :
  exists b0 b1, goldfish_bus_write 64 (goldfish_int_lines 32) (fun w _ _ => w) example_bus_added
      PDEV_BUS_OP PDEV_BUS_OP_INIT = Some b0
    /\ Z.testbit (level (outside b0)) (u32 1) = true
    /\ bus_reads (goldfish_int_lines 32) 4 b0 = Some ([(8, Some 1%positive); (8, Some 2%positive);
         (8, Some 3%positive); (0, None)], b1)
    /\ Z.testbit (level (outside b1)) (u32 1) = false.
Proof.
  apply (bus_enumeration (goldfish_int_lines 32) (H := int_irq_lines 32 ltac:(lia)) 64 (fun w _ _ => w) example_bus_added [1; 2; 3]%positive
    (mkDev (Some 2%positive) 0 [98; 117; 115] 0xffffffff 0x10001000 0x1000 1 1)).
  - exact example_bus_inv.
  - done.
  - eexists. split; [vm_compute; done|]. split; [done|]. vm_compute. lia.
  - exact init_inv.
  - vm_compute. done.
Defined.

(** devices that ask for an address window and for interrupt lines get
    windows that do not overlap and lines that do not overlap, and every line
    they then drive through [goldfish_device_set_irq] is one of the
    controller's [GFD_MAX_IRQ] lines. *)
Theorem device_allocation_disjoint target_i386 {W} (pic : list (qemu_irq W)) ps (b b' : bus_state (W := W)) :
  Forall (fun p => exists d, devs b !! p = Some d /\ wants d) ps -> NoDup ps ->
  0 <= goldfish_free_irq b < GFD_MAX_IRQ target_i386 -> 0 <= goldfish_free_base b ->
  goldfish_free_base b + sizes (devs b) ps < 2 ^ 32 ->
  Z.of_nat (length pic) = GFD_MAX_IRQ target_i386 ->
  add_all target_i386 ps b = Some b' ->
  (forall i j a n a' n', (i < j)%nat -> windows (devs b') ps !! i = Some (a, n) ->
     windows (devs b') ps !! j = Some (a', n') -> a + n <= a')
  /\ (forall i j a n a' n', (i < j)%nat -> irq_ranges (devs b') ps !! i = Some (a, n) ->
     irq_ranges (devs b') ps !! j = Some (a', n') -> a + n <= a')
  /\ (forall p d i lvl w, p ∈ ps -> devs b' !! p = Some d -> 0 <= i < dev_irq_count d ->
     is_Some (goldfish_device_set_irq pic d i lvl w)).
Proof.
  intros Hw Hnd Hfi Hfb Hs Hpic E.
  destruct (add_all_alloc target_i386 ps b b' Hw Hnd Hfi Hfb Hs E) as (H1 & H2 & H3 & _ & _ & _).
  split; [intros i j *; intros; by eapply (laid_out_disjoint _ _ _ i j _ _ _ _ H1)|].
  split; [intros i j *; intros; by eapply (laid_out_disjoint _ _ _ i j _ _ _ _ H2)|].
  intros p d i lvl w Hp Hd Hi.
  assert (dev_lines d ∈ irq_ranges (devs b') ps) as Hin.
  { apply list_elem_of_omap. exists p. by rewrite Hd. }
  destruct (laid_out_elem _ _ _ _ _ H2 Hin).
  assert (GFD_MAX_IRQ target_i386 <= 32) by (unfold GFD_MAX_IRQ; destruct target_i386; lia).
  destruct (device_set_irq_some pic d i lvl w) as (line & _ & ->); [done|unfold in_u; lia| |done].
  rewrite (wrap_small 32) by (unfold in_u; lia). lia.
Qed.

Lemma device_allocation_disjoint_witness :
  exists b', add_all false [2; 3]%positive example_bus = Some b' /\
    (forall i j a n a' n', (i < j)%nat -> windows (devs b') [2; 3]%positive !! i = Some (a, n) ->
     windows (devs b') [2; 3]%positive !! j = Some (a', n') -> a + n <= a').
Proof.
  eexists. split; [reflexivity|].
  eapply (device_allocation_disjoint false (goldfish_int_lines 32) [2; 3]%positive example_bus).
  - repeat constructor; eexists; (split; [vm_compute; reflexivity|]); unfold wants; simpl; lia.
  - apply (bool_decide_unpack _). done.
  - vm_compute. split; [discriminate|reflexivity].
  - vm_compute. discriminate.
  - vm_compute. reflexivity.
  - reflexivity.
  - reflexivity.
Defined.
