(* ===== verification/QemuTimer.v ===== *)
(** Timers: qemu-timer.c and the inline helpers of include/qemu/timer.h. A
    [QEMUTimerList] keeps the pending timers of a clock sorted by deadline;
    the list linked through [next] is a list of pointers here. The clock is
    read by the caller and passed as [now]. *)
From stdpp Require Import gmap sorting.
From S2P Require Import Prelude.

Definition SCALE_MS : Z := 1000000.
Definition SCALE_US : Z := 1000.
Definition SCALE_NS : Z := 1.
Definition INT32_MAX : Z := 2 ^ 31 - 1.

(** A pointer to a [QEMUTimer]. *)
Abbreviation timerptr := positive.

Section timers.
(** What identifies a callback together with its [opaque]. *)
Context {C : Type}.

Record QEMUTimer := mkTimer { expire_time : Z; scale : Z; cb : C }.

Definition set_expire (e : Z) (t : QEMUTimer) : QEMUTimer := mkTimer e (scale t) (cb t).

(** The timers that exist, the active ones, and [clock->enabled]. *)
Record QEMUTimerList := mkTimers {
  timers : gmap timerptr QEMUTimer;
  active_timers : list timerptr;
  clock_enabled : bool;
}.

(** [ts->expire_time]. *)
Definition expire (tl : QEMUTimerList) (t : timerptr) : Z :=
  default (-1) (expire_time <$> timers tl !! t).

Definition timer_init (tl : QEMUTimerList) (ts : timerptr) (sc : Z) (c : C) : QEMUTimerList :=
  mkTimers (<[ts := mkTimer (-1) sc c]> (timers tl)) (active_timers tl) (clock_enabled tl).

(** [timer_head && timer_head->expire_time <= current_time]. *)
Definition timer_expired_ns (tl : QEMUTimerList) (timer_head : option timerptr) (current_time : Z) : bool :=
  match timer_head with
  | None => false
  | Some t => expire tl t <=? current_time
  end.

Definition timerlist_has_timers (tl : QEMUTimerList) : bool :=
  match active_timers tl with [] => false | _ => true end.

(** The list without its first [ts]: the walk of [timer_del_locked]. *)
Fixpoint unlink (ts : timerptr) (l : list timerptr) : list timerptr :=
  match l with
  | [] => []
  | t :: l => if bool_decide (t = ts) then l else t :: unlink ts l
  end.

Definition timer_del_locked (tl : QEMUTimerList) (ts : timerptr) : QEMUTimerList :=
  mkTimers (alter (set_expire (-1)) ts (timers tl)) (unlink ts (active_timers tl)) (clock_enabled tl).

(** The walk of [timer_mod_ns_locked] and the insertion at [pt]. *)
Fixpoint link (tl : QEMUTimerList) (ts : timerptr) (e : Z) (l : list timerptr) : list timerptr :=
  match l with
  | [] => [ts]
  | t :: l' => if timer_expired_ns tl (Some t) e then t :: link tl ts e l' else ts :: l
  end.

(** The result says whether [ts] became the head of the list. *)
Definition timer_mod_ns_locked (tl : QEMUTimerList) (ts : timerptr) (e : Z) : bool * QEMUTimerList :=
  (negb (timer_expired_ns tl (head (active_timers tl)) e),
   mkTimers (alter (set_expire (Z.max e 0)) ts (timers tl)) (link tl ts e (active_timers tl)) (clock_enabled tl)).

Definition timer_del (tl : QEMUTimerList) (ts : timerptr) : QEMUTimerList := timer_del_locked tl ts.

(** The boolean is [rearm]: whether [timerlist_rearm] is called. *)
Definition timer_mod_ns (tl : QEMUTimerList) (ts : timerptr) (e : Z) : bool * QEMUTimerList :=
  timer_mod_ns_locked (timer_del_locked tl ts) ts e.

Definition timer_mod_anticipate_ns (tl : QEMUTimerList) (ts : timerptr) (e : Z) : bool * QEMUTimerList :=
  if (expire tl ts =? -1) || (e <? expire tl ts) then
    let tl := if negb (expire tl ts =? -1) then timer_del_locked tl ts else tl in
    timer_mod_ns_locked tl ts e
  else (false, tl).

Definition timer_scale (tl : QEMUTimerList) (ts : timerptr) : Z :=
  default 0 (scale <$> timers tl !! ts).

Definition timer_mod (tl : QEMUTimerList) (ts : timerptr) (e : Z) : bool * QEMUTimerList :=
  timer_mod_ns tl ts (s64 (e * timer_scale tl ts)).

Definition timer_mod_anticipate (tl : QEMUTimerList) (ts : timerptr) (e : Z) : bool * QEMUTimerList :=
  timer_mod_anticipate_ns tl ts (s64 (e * timer_scale tl ts)).

Definition timer_pending (tl : QEMUTimerList) (ts : timerptr) : bool := 0 <=? expire tl ts.

Definition timer_expired (tl : QEMUTimerList) (ts : timerptr) (current_time : Z) : bool :=
  timer_expired_ns tl (Some ts) (s64 (current_time * timer_scale tl ts)).

Definition timer_expire_time_ns (tl : QEMUTimerList) (ts : timerptr) : Z :=
  u64 (if timer_pending tl ts then expire tl ts else -1).

Definition timerlist_expired (tl : QEMUTimerList) (now : Z) : bool :=
  match active_timers tl with
  | [] => false
  | t :: _ => expire tl t <? now
  end.

Definition timerlist_deadline_ns (tl : QEMUTimerList) (now : Z) : Z :=
  if negb (clock_enabled tl) then -1
  else match active_timers tl with
       | [] => -1
       | t :: _ => let delta := s64 (expire tl t - now) in if delta <=? 0 then 0 else delta
       end.

Definition qemu_soonest_timeout (timeout1 timeout2 : Z) : Z :=
  if u64 timeout1 <? u64 timeout2 then timeout1 else timeout2.

(** The loop of [qemu_clock_deadline_ns_all] over the lists of a clock. *)
Definition qemu_clock_deadline_ns_all (tls : list QEMUTimerList) (now : Z) : Z :=
  foldl (fun deadline tl => qemu_soonest_timeout deadline (timerlist_deadline_ns tl now)) (-1) tls.

(** [use] is [qemu_clock_use_for_deadline] and [now] the clock of each list
    of the group. *)
Definition timerlistgroup_deadline_ns (tlg : list (bool * Z * QEMUTimerList)) : Z :=
  foldl (fun deadline '(use, now, tl) =>
    if (use : bool) then qemu_soonest_timeout deadline (timerlist_deadline_ns tl now) else deadline) (-1) tlg.

Definition qemu_timeout_ns_to_ms (ns : Z) : Z :=
  if ns <? 0 then -1
  else if ns =? 0 then 0
  else
    let ms := Z.quot (ns + SCALE_MS - 1) SCALE_MS in
    let ms := if INT32_MAX <? ms then INT32_MAX else ms in
    ms.

(** ** Running the timers *)

(** The timer list and everything else the callbacks change. *)
Context {W : Type} (run_cb : C -> QEMUTimerList * W -> QEMUTimerList * W).

(** The head is unlinked and disarmed before its callback runs. *)
Definition fire (t : timerptr) (st : QEMUTimerList * W) : QEMUTimerList * W :=
  let '(tl, w) := st in
  let tl' := mkTimers (alter (set_expire (-1)) t (timers tl)) (tail (active_timers tl)) (clock_enabled tl) in
  match timers tl !! t with
  | Some q => run_cb (cb q) (tl', w)
  | None => (tl', w)
  end.

(** [None]: the fuel ran out. *)
Fixpoint run_loop (fuel : nat) (now : Z) (progress : bool) (st : QEMUTimerList * W) :
    option (bool * (QEMUTimerList * W)) :=
  match active_timers st.1 with
  | t :: _ =>
      if timer_expired_ns st.1 (Some t) now then
        match fuel with
        | O => None
        | S fuel => run_loop fuel now true (fire t st)
        end
      else Some (progress, st)
  | [] => Some (progress, st)
  end.

Definition timerlist_run_timers (fuel : nat) (now : Z) (st : QEMUTimerList * W) :
    option (bool * (QEMUTimerList * W)) :=
  if negb (clock_enabled st.1) then Some (false, st) else run_loop fuel now false st.
End timers.

Arguments QEMUTimer : clear implicits.
Arguments QEMUTimerList : clear implicits.

(** ** The invariant of a timer list *)

Section invariant.
Context {C : Type}.
Implicit Types tl : QEMUTimerList C.

(** The active timers are distinct, sorted by deadline, and exactly the
    pending ones; a timer that is not pending has the deadline -1. *)
Record tl_inv tl : Prop := {
  inv_nodup : NoDup (active_timers tl);
  inv_sorted : StronglySorted (fun a b => expire tl a <= expire tl b) (active_timers tl);
  inv_pending t : (t ∈ active_timers tl) <-> 0 <= expire tl t;
  inv_minus1 t : expire tl t = -1 \/ 0 <= expire tl t;
}.

Lemma expire_alter tl e ts l en t : is_Some (timers tl !! ts) ->
  expire (mkTimers (alter (set_expire e) ts (timers tl)) l en) t =
    if decide (t = ts) then e else expire tl t.
Proof.
  intros [q Hq]. unfold expire. simpl. case_decide as Et.
  - subst. by rewrite lookup_alter_eq, Hq.
  - by rewrite lookup_alter_ne by done.
Qed.

Lemma sorted_ext {A} (R R' : A -> A -> Prop) l :
  (forall a b, a ∈ l -> b ∈ l -> R a b -> R' a b) -> StronglySorted R l -> StronglySorted R' l.
Proof.
  intros H Hs. induction Hs as [|a l Hs IH Ha]; constructor.
  - apply IH. intros; apply H; set_solver.
  - rewrite Forall_forall in *. intros b Hb. apply H; [set_solver..|auto].
Qed.

Lemma sorted_insert {A} (R : A -> A -> Prop) l1 l2 x : StronglySorted R (l1 ++ l2) ->
  Forall (fun a => R a x) l1 -> Forall (R x) l2 -> StronglySorted R (l1 ++ x :: l2).
Proof.
  induction l1 as [|a l1 IH]; simpl; intros Hs H1 H2.
  - by constructor.
  - apply StronglySorted_cons in Hs as [Ha Hs]. apply Forall_cons in H1 as [Hx H1].
    constructor; [by apply IH|]. rewrite Forall_app in *. destruct Ha. by rewrite Forall_cons.
Qed.

Lemma unlink_not_in ts l : ts ∉ l -> unlink ts l = l.
Proof.
  induction l as [|t l IH]; intros H; simpl; [done|]. rewrite bool_decide_false by set_solver.
  f_equal. apply IH. set_solver.
Qed.

(** A list without duplicates splits around [ts]. *)
Lemma unlink_split ts l : NoDup l ->
  ts ∉ unlink ts l /\ (unlink ts l = l \/ exists l1 l2, l = l1 ++ ts :: l2 /\ unlink ts l = l1 ++ l2).
Proof.
  intros Hnd. destruct (decide (ts ∈ l)) as [Hin|Hnin].
  - apply list_elem_of_split in Hin as (l1 & l2 & ->).
    apply NoDup_app in Hnd as (_ & H1 & [H2 _]%NoDup_cons).
    assert (unlink ts (l1 ++ ts :: l2) = l1 ++ l2) as ->.
    { assert (ts ∉ l1) as Hn by (intros Hx; by eapply H1; [|left]). clear -Hn.
      induction l1 as [|t l1 IH]; simpl; [by rewrite bool_decide_true|].
      rewrite bool_decide_false by set_solver. f_equal. apply IH. set_solver. }
    split; [|eauto]. intros [Hx|Hx]%elem_of_app; [|done]. by eapply H1; [|left].
  - rewrite unlink_not_in by done. auto.
Qed.

Lemma unlink_elem ts l t : NoDup l -> (t ∈ unlink ts l) <-> t ∈ l /\ t <> ts.
Proof.
  intros Hnd. destruct (unlink_split ts l Hnd) as [Hn [E|(l1 & l2 & -> & E)]]; rewrite E in *.
  - split; [intros H; split; [done|by intros ->]|tauto].
  - rewrite !elem_of_app, elem_of_cons in *. naive_solver.
Qed.

Lemma unlink_nodup ts l : NoDup l -> NoDup (unlink ts l).
Proof.
  intros Hnd. destruct (unlink_split ts l Hnd) as [_ [->|(l1 & l2 & -> & ->)]]; [done|].
  apply NoDup_app in Hnd as (H1 & H2 & [H3 H4]%NoDup_cons). apply NoDup_app.
  split; [done|]. split; [|done]. intros x Hx Hx'. eapply H2; [done|by right].
Qed.

Lemma unlink_sorted (R : timerptr -> timerptr -> Prop) ts l :
  StronglySorted R l -> StronglySorted R (unlink ts l).
Proof.
  induction 1 as [|t l Hs IH Ht]; simpl; [constructor|]. case_bool_decide; [done|].
  constructor; [done|]. rewrite Forall_forall in *. intros x Hx. apply Ht.
  clear -Hx. induction l as [|y l IH]; simpl in *; [done|]. case_bool_decide; set_solver.
Qed.

Lemma timer_del_inv tl ts : tl_inv tl -> is_Some (timers tl !! ts) -> tl_inv (timer_del tl ts).
Proof.
  intros [Hnd Hs Hp Hm] Hts. unfold timer_del, timer_del_locked. split; simpl.
  - by apply unlink_nodup.
  - apply (unlink_sorted _ ts) in Hs. eapply sorted_ext; [|exact Hs]. simpl. intros a b Ha Hb Hab.
    apply (unlink_elem ts) in Ha as [_ Ha], Hb as [_ Hb]; [|done..].
    rewrite !expire_alter by done. by rewrite !decide_False by done.
  - intros t. rewrite unlink_elem, expire_alter by done. case_decide; [lia|]. rewrite Hp. tauto.
  - intros t. rewrite expire_alter by done. case_decide; auto.
Qed.

(** Where [link] puts the timer: after those that expire no later. *)
Lemma link_split tl ts e l : StronglySorted (fun a b => expire tl a <= expire tl b) l ->
  exists before after, l = before ++ after /\ link tl ts e l = before ++ ts :: after
    /\ Forall (fun t => expire tl t <= e) before /\ Forall (fun t => e < expire tl t) after.
Proof.
  induction 1 as [|t l Hs IH Ht]; simpl; [by exists [], []|].
  destruct (Z.leb_spec (expire tl t) e).
  - destruct IH as (b & a & -> & -> & Hb & Ha). exists (t :: b), a. split_and!; try done. by constructor.
  - exists [], (t :: l). split_and!; try done. constructor; [lia|].
    eapply Forall_impl; [exact Ht|]. simpl. lia.
Qed.

(** A timer that is not active is inserted in order. *)
Lemma timer_mod_locked_inv tl ts e : tl_inv tl -> ts ∉ active_timers tl -> is_Some (timers tl !! ts) ->
  tl_inv (timer_mod_ns_locked tl ts e).2.
Proof.
  intros [Hnd Hs Hp Hm] Hts Hex. destruct (link_split tl ts e _ Hs) as (b & a & E & El & Hb & Ha).
  unfold timer_mod_ns_locked. rewrite El. rewrite E in *.
  assert (forall t, t ∈ b ++ a -> expire tl t >= 0 /\ t <> ts) as Hpos.
  { intros t Ht. split; [apply Hp in Ht; lia|by intros ->]. }
  split; simpl.
  - rewrite <- Permutation_middle. by constructor.
  - apply sorted_insert.
    + eapply sorted_ext; [|exact Hs]. simpl. intros x y Hx Hy Hxy. rewrite !expire_alter by done.
      destruct (Hpos x Hx), (Hpos y Hy). by rewrite !decide_False by done.
    + rewrite Forall_forall in *. intros x Hx. rewrite !expire_alter by done.
      destruct (Hpos x ltac:(set_solver)). rewrite decide_False, decide_True by done.
      specialize (Hb x Hx). lia.
    + rewrite Forall_forall in *. intros x Hx. rewrite !expire_alter by done.
      destruct (Hpos x ltac:(set_solver)). rewrite decide_True, decide_False by done.
      specialize (Ha x Hx). lia.
  - intros t. rewrite expire_alter by done. case_decide as Et.
    + subst. split; [lia|]. intros _. set_solver.
    + rewrite <- Hp. rewrite !elem_of_app, elem_of_cons. tauto.
  - intros t. rewrite expire_alter by done. case_decide; [lia|auto].
Qed.
End invariant.

(** ** Running *)

Section running.
Context {C W : Type} (run_cb : C -> QEMUTimerList C * W -> QEMUTimerList C * W).
Implicit Types tl : QEMUTimerList C.

(** The timers that are due, in the order of the list. *)
Definition due (now : Z) tl : list timerptr :=
  filter (fun t => expire tl t <= now) (active_timers tl).

(** A callback may arm and cancel timers, but not ones due by [now]. *)
Definition callbacks_later (now : Z) : Prop :=
  forall c tl w, tl_inv tl -> tl_inv (run_cb c (tl, w)).1 /\ due now (run_cb c (tl, w)).1 = due now tl.

Lemma due_nil now tl : tl_inv tl ->
  due now tl = [] <-> timer_expired_ns tl (head (active_timers tl)) now = false.
Proof.
  intros Hi. unfold due. pose proof (inv_sorted _ Hi) as Hs.
  destruct (active_timers tl) as [|t l]; simpl; [done|]. rewrite filter_cons.
  apply StronglySorted_cons in Hs as [Ht _]. destruct (Z.leb_spec (expire tl t) now).
  - by rewrite decide_True.
  - rewrite decide_False by lia. split; [done|]. intros _.
    assert (forall m, Forall (fun b => expire tl t <= expire tl b) m ->
      filter (fun t => expire tl t <= now) m = []) as Hm; [|by apply Hm].
    induction 1 as [|x m Hx _ IHm]; [done|]. simpl in Hx. by rewrite filter_cons_False by lia.
Qed.

(** Taking the head off the list disarms it. *)
Lemma due_head now tl t l : tl_inv tl -> active_timers tl = t :: l -> expire tl t <= now ->
  is_Some (timers tl !! t) -> due now tl = t :: due now (timer_del tl t).
Proof.
  intros Hi El Ht Hex. unfold due, timer_del, timer_del_locked. simpl.
  pose proof (inv_nodup _ Hi) as Hnd. rewrite El in *. simpl.
  rewrite bool_decide_true, filter_cons_True by done. f_equal.
  apply NoDup_cons in Hnd as [Hn _]. clear -Hn Hex.
  induction l as [|x l IH]; [done|]. rewrite !filter_cons, !expire_alter by done.
  rewrite IH by set_solver. assert (x <> t) by set_solver. by rewrite (decide_False (P := x = t)).
Qed.

Lemma fire_head tl w t l : active_timers tl = t :: l ->
  fire run_cb t (tl, w) = match timers tl !! t with
    | Some q => run_cb (cb q) (timer_del tl t, w) | None => (timer_del tl t, w) end.
Proof.
  intros El. unfold fire, timer_del, timer_del_locked. rewrite El. simpl.
  by rewrite bool_decide_true.
Qed.

Lemma active_exists tl t : tl_inv tl -> t ∈ active_timers tl -> is_Some (timers tl !! t).
Proof. intros Hi Ht%Hi. unfold expire in Ht. destruct (timers tl !! t); [eauto|]. simpl in Ht. lia. Qed.

(** The loop runs the due timers, each once, in the order of the list, and
    stops. *)
Lemma run_loop_due now fuel p tl w : callbacks_later now -> tl_inv tl ->
  (length (due now tl) <= fuel)%nat ->
  run_loop run_cb fuel now p (tl, w) =
    Some (p || negb (bool_decide (due now tl = [])), foldl (fun st t => fire run_cb t st) (tl, w) (due now tl))
  /\ tl_inv (foldl (fun st t => fire run_cb t st) (tl, w) (due now tl)).1
  /\ due now (foldl (fun st t => fire run_cb t st) (tl, w) (due now tl)).1 = [].
Proof.
  intros Hcb. revert p tl w. induction fuel as [|fuel IH]; intros p tl w Hi Hf.
  - assert (due now tl = []) as E by (destruct (due now tl); [done|simpl in Hf; lia]).
    rewrite E. simpl. split_and!; try done. apply due_nil in E; [|done].
    destruct (active_timers tl); simpl in *; [|rewrite E]; by rewrite orb_false_r.
  - destruct (due now tl) as [|t' r] eqn:E.
    + simpl. split_and!; try done. pose proof E as E'. apply due_nil in E'; [|done].
      destruct (active_timers tl); simpl in *; [|rewrite E']; by rewrite orb_false_r.
    + destruct (active_timers tl) as [|t l] eqn:El; [by unfold due in E; rewrite El in E|].
      assert (timer_expired_ns tl (Some t) now = true) as Et.
      { apply not_false_iff_true. intros Ef. assert (due now tl = []) as E0; [|by rewrite E0 in E].
        apply due_nil; [done|]. by rewrite El. }
      simpl in Et. apply Z.leb_le in Et as Et'.
      assert (is_Some (timers tl !! t)) as Hex by (apply active_exists; [done|rewrite El; by left]).
      pose proof (due_head now tl t l Hi El Et' Hex) as Ed. rewrite E in Ed. injection Ed as -> Er.
      pose proof (timer_del_inv tl t Hi Hex) as Hdel.
      cbn [run_loop fst foldl]. rewrite El. cbn [timer_expired_ns]. rewrite Et.
      rewrite (fire_head tl w t l El). destruct Hex as [q Hq]. rewrite Hq.
      destruct (Hcb (cb q) (timer_del tl t) w Hdel) as [Hi' Hd'].
      destruct (run_cb (cb q) (timer_del tl t, w)) as [tl' w'] eqn:Ec. simpl in Hi', Hd'.
      rewrite Er, <- Hd' in *.
      destruct (IH true tl' w' Hi' ltac:(simpl in Hf; lia)) as (-> & H2 & H3).
      split_and!; try done. rewrite (bool_decide_false (t :: _ = [])) by done. by rewrite orb_true_r.
Qed.
End running.

(** ** Deadlines *)

Lemma timerlist_deadline_range {C} (tl : QEMUTimerList C) now :
  timerlist_deadline_ns tl now = -1 \/ 0 <= timerlist_deadline_ns tl now < 2 ^ 63.
Proof.
  unfold timerlist_deadline_ns. destruct (clock_enabled tl); simpl; [|by left].
  destruct (active_timers tl) as [|t l]; [by left|]. right.
  pose proof (swrap_range 64 (expire tl t - now) ltac:(lia)) as [_ ?].
  destruct (Z.leb_spec (s64 (expire tl t - now)) 0); lia.
Qed.

(** A timeout: -1 stands for none. *)
Definition timeout_ok (t : Z) : Prop := t = -1 \/ 0 <= t < 2 ^ 63.

Lemma soonest_spec a b : timeout_ok a -> timeout_ok b ->
  (qemu_soonest_timeout a b = a \/ qemu_soonest_timeout a b = b)
  /\ (qemu_soonest_timeout a b = -1 <-> a = -1 /\ b = -1)
  /\ (a <> -1 -> qemu_soonest_timeout a b <= a) /\ (b <> -1 -> qemu_soonest_timeout a b <= b).
Proof.
  unfold qemu_soonest_timeout. intros [->|Ha] [->|Hb];
    rewrite ?(wrap_small 64 a), ?(wrap_small 64 b) by (unfold in_u; lia);
    change (u64 (-1)) with (2 ^ 64 - 1); case_match; lia.
Qed.

Lemma soonest_fold_spec l d : timeout_ok d -> Forall timeout_ok l ->
  let r := foldl qemu_soonest_timeout d l in
  timeout_ok r /\ (r = d \/ r ∈ l) /\ (r = -1 <-> d = -1 /\ Forall (eq (-1)) l)
  /\ (d <> -1 -> r <= d) /\ (forall x, x ∈ l -> x <> -1 -> r <= x).
Proof.
  revert d. induction l as [|a l IH]; intros d Hd Hl r; simpl in *.
  { subst r. split_and!; try done; [by left| |set_solver]. split; [by split|by intros []]. }
  apply Forall_cons in Hl as [Ha Hl]. destruct (soonest_spec d a Hd Ha) as (H1 & H2 & H3 & H4).
  assert (timeout_ok (qemu_soonest_timeout d a)) as Hok by (destruct H1 as [-> | ->]; done).
  destruct (IH _ Hok Hl) as (G1 & G2 & G3 & G4 & G5). fold r in G1, G2, G3, G4, G5.
  split_and!; try done.
  - destruct G2 as [-> | G2]; [destruct H1 as [-> | ->]; set_solver|set_solver].
  - rewrite G3, H2, Forall_cons. split; naive_solver.
  - intros Hn. specialize (H3 Hn). assert (qemu_soonest_timeout d a <> -1) by tauto. lia.
  - intros x [->|Hx]%elem_of_cons Hn; [|by apply G5].
    specialize (H4 Hn). assert (qemu_soonest_timeout d a <> -1) by tauto. lia.
Qed.

(** [timer_mod_ns] keeps the list sorted by deadline and equal to the set
    of pending timers, sets the deadline (clamped at 0), leaves the other
    timers alone, queues the timer behind every timer that expires no later
    (so equal deadlines fire first come first served), and asks for a rearm
    exactly when the timer became the first to expire. *)
Theorem timer_mod_ns_sorted {C} (tl : QEMUTimerList C) ts e :
  tl_inv tl -> is_Some (timers tl !! ts) ->
  let '(rearm, tl') := timer_mod_ns tl ts e in
  tl_inv tl' /\ expire tl' ts = Z.max e 0
  /\ (forall t, t <> ts -> expire tl' t = expire tl t)
  /\ exists before after, active_timers tl' = before ++ ts :: after
       /\ before ++ after = unlink ts (active_timers tl)
       /\ Forall (fun t => expire tl t <= e) before /\ Forall (fun t => e < expire tl t) after
       /\ (rearm = true <-> before = []).
Proof.
  intros Hi Hts. pose proof (timer_del_inv tl ts Hi Hts) as Hd. unfold timer_mod_ns.
  change (timer_del tl ts) with (timer_del_locked tl ts) in Hd.
  assert (is_Some (timers (timer_del_locked tl ts) !! ts)) as Hts'.
  { simpl. rewrite lookup_alter_eq. by apply fmap_is_Some. }
  assert (ts ∉ active_timers (timer_del_locked tl ts)) as Hn.
  { simpl. rewrite unlink_elem by apply Hi. tauto. }
  assert (forall t, t <> ts -> expire (timer_del_locked tl ts) t = expire tl t) as Hother.
  { intros t Ht. unfold timer_del_locked. by rewrite expire_alter, decide_False by done. }
  assert (active_timers (timer_del_locked tl ts) = unlink ts (active_timers tl)) as Hact by done.
  revert Hother Hact Hn Hts' Hd. generalize (timer_del_locked tl ts). intros tl1 Hother Hact Hn Hts' Hd.
  pose proof (timer_mod_locked_inv _ ts e Hd Hn Hts') as H. split; [exact H|clear H].
  split; [by rewrite expire_alter, decide_True by done|].
  split. { intros t Ht. rewrite expire_alter, decide_False by done. by apply Hother. }
  destruct (link_split _ ts e _ (inv_sorted _ Hd)) as (b & a & Eb & El & Hb & Ha).
  assert (forall t, t ∈ b ++ a -> t <> ts) as Hne by (intros t Ht ->; by rewrite Eb in Hn).
  exists b, a. cbn [active_timers]. rewrite <- Hact. split_and!; try done.
  - rewrite Forall_forall in *. intros t Ht. rewrite <- Hother; [by apply Hb|]. apply Hne. set_solver.
  - rewrite Forall_forall in *. intros t Ht. rewrite <- Hother; [by apply Ha|]. apply Hne. set_solver.
  - rewrite Eb. destruct b as [|t b]; simpl.
    + split; [done|]. intros _. destruct a as [|t a]; [done|]. simpl.
      apply Forall_cons in Ha as [Ha _]. by destruct (Z.leb_spec (expire tl1 t) e); [lia|].
    + split; [|done]. apply Forall_cons in Hb as [Hb _].
      by destruct (Z.leb_spec (expire tl1 t) e); [|lia].
Qed.

(** Three timers of one list; callbacks are numbers. *)
Definition example_timers : QEMUTimerList nat :=
  mkTimers {[ 1%positive := mkTimer 50 1 1%nat; 2%positive := mkTimer 20 1 2%nat;
              3%positive := mkTimer (-1) 1 3%nat ]} [2; 1]%positive true.

Lemma example_expire t : expire example_timers t =
  if decide (t = 1%positive) then 50 else if decide (t = 2%positive) then 20 else -1.
Proof.
  unfold expire. simpl. repeat case_decide; subst; [done..|]. destruct (decide (t = 3%positive)) as [->|]; [done|].
  by rewrite !lookup_insert_ne, lookup_singleton_ne by done.
Qed.

Lemma example_timers_inv : tl_inv example_timers.
Proof.
  split.
  - apply (bool_decide_unpack _). done.
  - repeat constructor. vm_compute. discriminate.
  - intros t. rewrite example_expire. simpl. repeat case_decide; subst; split; try done; try set_solver.
  - intros t. rewrite example_expire. repeat case_decide; lia.
Qed.

Lemma timer_mod_ns_sorted_witness :
  let '(rearm, tl') := timer_mod_ns example_timers 3%positive 20 in
  tl_inv tl' /\ active_timers tl' = [2; 3; 1]%positive /\ rearm = false.
Proof.
  pose proof (timer_mod_ns_sorted example_timers 3%positive 20 example_timers_inv ltac:(eexists; reflexivity)) as H.
  destruct (timer_mod_ns example_timers 3%positive 20) as [rearm tl'] eqn:E.
  split; [apply H|]. vm_compute in E. injection E as <- <-. split; reflexivity.
Defined.

(** C10: a run of an enabled list whose callbacks do not arm or cancel timers
    that are already due terminates, with as many iterations as timers are
    due: it fires exactly those, each once, in the order of their deadlines,
    reports progress exactly when there was one, and leaves none due. *)
Theorem run_timers_fires_due {C W} (run_cb : C -> QEMUTimerList C * W -> QEMUTimerList C * W)
    (tl : QEMUTimerList C) (w : W) now :
  callbacks_later run_cb now -> tl_inv tl -> clock_enabled tl = true ->
  exists st', timerlist_run_timers run_cb (length (due now tl)) now (tl, w)
      = Some (negb (bool_decide (due now tl = [])), st')
    /\ st' = foldl (fun st t => fire run_cb t st) (tl, w) (due now tl)
    /\ StronglySorted (fun a b => expire tl a <= expire tl b) (due now tl)
    /\ tl_inv st'.1 /\ due now st'.1 = [].
Proof.
  intros Hcb Hi Hen. destruct (run_loop_due run_cb now _ false tl w Hcb Hi (Nat.le_refl _)) as (E & H1 & H2).
  eexists. unfold timerlist_run_timers. simpl fst. rewrite Hen. cbn [negb]. rewrite E.
  split_and!; try done. unfold due. pose proof (inv_sorted _ Hi) as Hs. clear -Hs.
  induction Hs as [|t l Hs IH Ht]; [constructor|]. rewrite filter_cons. case_decide; [|done].
  constructor; [done|]. rewrite Forall_forall in *. intros x [_ Hx]%list_elem_of_filter. auto.
Qed.

(** A callback that records its number. *)
Definition log_cb (c : nat) (st : QEMUTimerList nat * list nat) : QEMUTimerList nat * list nat :=
  (st.1, st.2 ++ [c]).

Lemma run_timers_fires_due_witness :
  exists st', timerlist_run_timers log_cb 2 60 (example_timers, []) = Some (true, st') /\ st'.2 = [2; 1]%nat.
Proof.
  destruct (run_timers_fires_due log_cb example_timers [] 60) as (st' & H1 & H2 & _).
  - intros c tl w Hi. by split.
  - exact example_timers_inv.
  - reflexivity.
  - exists st'. split; [exact H1|]. rewrite H2. reflexivity.
Defined.

(** The wait computed for a clock is the earliest deadline of its timer
    lists: -1 (no deadline) only when no list has one, otherwise the deadline
    of some list and no later than that of any other. *)
Theorem clock_deadline_is_earliest {C} (tls : list (QEMUTimerList C)) now :
  let d := qemu_clock_deadline_ns_all tls now in
  (d = -1 <-> Forall (fun tl => timerlist_deadline_ns tl now = -1) tls)
  /\ (d <> -1 -> exists tl, tl ∈ tls /\ timerlist_deadline_ns tl now = d)
  /\ (forall tl, tl ∈ tls -> timerlist_deadline_ns tl now <> -1 -> d <= timerlist_deadline_ns tl now).
Proof.
  intros d. set (l := (fun tl => timerlist_deadline_ns tl now) <$> tls).
  assert (d = foldl qemu_soonest_timeout (-1) l) as Ed.
  { subst d l. unfold qemu_clock_deadline_ns_all. generalize (-1).
    induction tls as [|tl tls IH]; intros z; simpl; [done|]. apply IH. }
  destruct (soonest_fold_spec l (-1)) as (_ & H2 & H3 & _ & H5); [by left| |].
  { subst l. apply Forall_fmap, Forall_forall. intros tl _. apply timerlist_deadline_range. }
  rewrite <- Ed in *. split_and!.
  - rewrite H3. subst l. rewrite Forall_fmap. split; [intros [_ H]|intros H; split; [done|]];
      (eapply Forall_impl; [exact H|]; intros ?; simpl; congruence).
  - intros Hd. destruct H2 as [|H2]; [done|]. subst l. apply list_elem_of_fmap in H2 as (tl & -> & Htl). eauto.
  - intros tl Htl Hn. apply H5; [|done]. subst l. apply list_elem_of_fmap. eauto.
Qed.
