(* ===== verification/GoldfishTimer.v ===== *)
(** The goldfish timer and real-time clock: hw/android/goldfish/timer.c. The
    timer's [QEMUTimer] lives in a [QEMUTimerList] ([QemuTimer]), its
    interrupt goes through the device bus ([GoldfishDevice]) to an array of
    lines ([Irq]); [now] is the virtual clock. *)
From stdpp Require Import gmap.
From S2P Require Import Prelude ByteStream Irq GoldfishInt GoldfishDevice QemuTimer.

Definition TIMER_TIME_LOW : Z := 0x00.
Definition TIMER_TIME_HIGH : Z := 0x04.
Definition TIMER_ALARM_LOW : Z := 0x08.
Definition TIMER_ALARM_HIGH : Z := 0x0c.
Definition TIMER_CLEAR_INTERRUPT : Z := 0x10.
Definition TIMER_CLEAR_ALARM : Z := 0x14.

Record timer_state := mkTS {
  ts_dev : goldfish_device;
  alarm_low_ns : Z;
  alarm_high_ns : Z;
  now_ns : Z;
  armed : Z;
  timer : timerptr;
}.

Definition set_now (v : Z) (s : timer_state) : timer_state :=
  mkTS (ts_dev s) (alarm_low_ns s) (alarm_high_ns s) v (armed s) (timer s).
Definition set_armed (v : Z) (s : timer_state) : timer_state :=
  mkTS (ts_dev s) (alarm_low_ns s) (alarm_high_ns s) (now_ns s) v (timer s).
Definition set_alarm_low (v : Z) (s : timer_state) : timer_state :=
  mkTS (ts_dev s) v (alarm_high_ns s) (now_ns s) (armed s) (timer s).
Definition set_alarm_high (v : Z) (s : timer_state) : timer_state :=
  mkTS (ts_dev s) (alarm_low_ns s) v (now_ns s) (armed s) (timer s).

(** [s->alarm_low_ns | (int64_t)s->alarm_high_ns << 32]. *)
Definition alarm_ns (s : timer_state) : Z := alarm_low_ns s .| s64 (alarm_high_ns s .<< 32).

(** [None] is [cpu_abort]. *)
Definition goldfish_timer_read (s : timer_state) (offset now : Z) : option (Z * timer_state) :=
  if offset =? TIMER_TIME_LOW then
    let s := set_now now s in Some (u32 (now_ns s), s)
  else if offset =? TIMER_TIME_HIGH then Some (u32 (now_ns s .>> 32), s)
  else None.

Section device.
Context {C W : Type} (pic : list (qemu_irq W)).

Definition goldfish_timer_write (s : timer_state) (tl : QEMUTimerList C) (w : W) (offset value_ns now : Z) :
    option (timer_state * QEMUTimerList C * W) :=
  if offset =? TIMER_ALARM_LOW then
    let s := set_alarm_low value_ns s in
    if alarm_ns s <=? now then
      w ← goldfish_device_set_irq pic (ts_dev s) 0 1 w; Some (s, tl, w)
    else
      let tl := (timer_mod tl (timer s) (alarm_ns s)).2 in
      Some (set_armed 1 s, tl, w)
  else if offset =? TIMER_ALARM_HIGH then Some (set_alarm_high (s32 value_ns) s, tl, w)
  else if offset =? TIMER_CLEAR_ALARM then
    let tl := timer_del tl (timer s) in
    let s := set_armed 0 s in
    w ← goldfish_device_set_irq pic (ts_dev s) 0 0 w; Some (s, tl, w)
  else if offset =? TIMER_CLEAR_INTERRUPT then
    w ← goldfish_device_set_irq pic (ts_dev s) 0 0 w; Some (s, tl, w)
  else None.

Definition goldfish_timer_tick (s : timer_state) (w : W) : option (timer_state * W) :=
  let s := set_armed 0 s in
  w ← goldfish_device_set_irq pic (ts_dev s) 0 1 w; Some (s, w).

Definition GOLDFISH_TIMER_SAVE_VERSION : Z := 1.

Definition goldfish_timer_save {F} `{ByteWriter F} (f : F) (s : timer_state) (now : Z) : F :=
  let f := qemu_put_be64 f (u64 (now_ns s)) in
  let f := qemu_put_byte f (armed s) in
  if nz (armed s) then qemu_put_be64 f (u64 (alarm_ns s - now)) else f.

(** The result is the C result, or [None] for [cpu_abort]. *)
Definition goldfish_timer_load {G} `{ByteReader G} (g : G) (s : timer_state) (tl : QEMUTimerList C) (w : W)
    (version_id now : Z) : option (Z * timer_state * QEMUTimerList C * W * G) :=
  if negb (version_id =? GOLDFISH_TIMER_SAVE_VERSION) then Some (-1, s, tl, w, g) else
  let '(v, g) := qemu_get_be64 g in
  let s := set_now (s64 v) s in
  let '(v, g) := qemu_get_byte g in
  let s := set_armed v s in
  if nz (armed s) then
    let '(v, g) := qemu_get_be64 g in
    let diff_tks := s64 v in
    let alarm_tks := s64 (now + diff_tks) in
    if alarm_tks <=? now then
      w ← goldfish_device_set_irq pic (ts_dev s) 0 1 w;
      Some (0, set_armed 0 s, tl, w, g)
    else Some (0, s, (timer_mod tl (timer s) alarm_tks).2, w, g)
  else Some (0, s, tl, w, g).

(** ** The real-time clock *)

Record rtc_state := mkRTC { rtc_dev : goldfish_device; alarm_low : Z; alarm_high : Z; rtc_now : Z }.

Definition goldfish_rtc_save {F} `{ByteWriter F} (f : F) (s : rtc_state) : F := qemu_put_be64 f (u64 (rtc_now s)).

Definition GOLDFISH_RTC_SAVE_VERSION : Z := 1.

Definition goldfish_rtc_load {G} `{ByteReader G} (g : G) (s : rtc_state) (version_id : Z) : Z * rtc_state * G :=
  if negb (version_id =? GOLDFISH_RTC_SAVE_VERSION) then (-1, s, g) else
  let '(v, g) := qemu_get_be64 g in
  (0, mkRTC (rtc_dev s) (alarm_low s) (alarm_high s) (s64 v), g).

(** [seconds] is [time(NULL)]. *)
Definition goldfish_rtc_read (s : rtc_state) (offset seconds : Z) : option (Z * rtc_state) :=
  if offset =? 0x0 then
    let s := mkRTC (rtc_dev s) (alarm_low s) (alarm_high s) (s64 (seconds * 1000000000)) in
    Some (u32 (rtc_now s), s)
  else if offset =? 0x4 then Some (u32 (rtc_now s .>> 32), s)
  else None.

Definition goldfish_rtc_write (s : rtc_state) (w : W) (offset value : Z) : option (rtc_state * W) :=
  if offset =? 0x8 then Some (mkRTC (rtc_dev s) value (alarm_high s) (rtc_now s), w)
  else if offset =? 0xc then Some (mkRTC (rtc_dev s) (alarm_low s) (s32 value) (rtc_now s), w)
  else if offset =? 0x10 then w ← goldfish_device_set_irq pic (rtc_dev s) 0 0 w; Some (s, w)
  else None.
End device.

(** ** Lemmas *)

Definition halves (hi lo : Z) : Z := u64 (hi .<< 32) .| lo.

Lemma halves_of_64 v : halves (u32 (v .>> 32)) (u32 v) = u64 v.
Proof. unfold halves. zbits. Qed.

Lemma alarm_ns_value s : in_u 32 (alarm_low_ns s) -> in_s 32 (alarm_high_ns s) ->
  alarm_ns s = alarm_high_ns s * 2 ^ 32 + alarm_low_ns s.
Proof.
  intros Hl Hh. unfold alarm_ns. rewrite swrap_small; [|lia|].
  - rewrite Z.shiftl_mul_pow2 by lia. rewrite Z.lor_comm. unfold in_u in Hl.
    apply Z.bits_inj'. intros i Hi. rewrite Z.lor_spec.
    rewrite <- Z.shiftl_mul_pow2 by lia. rewrite Z.add_nocarry_lxor.
    + rewrite Z.lxor_spec, Z.shiftl_spec by lia. destruct (Z.lt_ge_cases i 32).
      * by rewrite (Z.testbit_neg_r _ (i - 32)) by lia.
      * rewrite (testbit_ge_range 32 (alarm_low_ns s)) by (done || lia). btauto.
    + apply zero_by_bits. intros j Hj. rewrite Z.land_spec, Z.shiftl_spec by lia.
      destruct (Z.lt_ge_cases j 32); [by rewrite (Z.testbit_neg_r _ (j - 32)) by lia|].
      by rewrite (testbit_ge_range 32 (alarm_low_ns s)), andb_false_r by (done || lia).
  - unfold in_s in *. rewrite Z.shiftl_mul_pow2 by lia. lia.
Qed.

(** ** The timer and its deadline *)

#[local] Arguments timer_mod : simpl never.
#[local] Arguments timer_del : simpl never.

Section machine.
Context {C : Type} {W : Type} (pic : list (qemu_irq W)) `{IrqLines W pic}.
Implicit Types (s : timer_state) (tl : QEMUTimerList C) (w : W).

(** The device has a line of the array. *)
Definition dev_ok (d : goldfish_device) : Prop :=
  0 < dev_irq_count d /\ (Z.to_nat (u32 (dev_irq d)) < length pic)%nat.

(** The level of the device's line. *)
Definition dev_level (d : goldfish_device) w : bool := line_level w (u32 (dev_irq d)).

Lemma dev_set_irq d l w : dev_ok d -> lines_ok w ->
  exists w', goldfish_device_set_irq pic d 0 l w = Some w' /\ lines_ok w' /\ dev_level d w' = nz l.
Proof.
  intros [Hc Hl] Hw. destruct (device_set_irq_some pic d 0 l w) as (line & Hn & E);
    [lia|done|by rewrite Z.add_0_r|]. rewrite Z.add_0_r in Hn.
  exists (qemu_set_irq w line l). split; [done|]. split; [by eapply set_line_ok|].
  apply (set_line_same pic); [|done..]. apply (wrap_range 32). lia.
Qed.

(** The timer exists, in nanoseconds, and it is pending exactly when
    [armed] is set. *)
Definition timer_ok s tl : Prop :=
  tl_inv tl /\ (exists q, timers tl !! timer s = Some q /\ scale q = SCALE_NS)
  /\ (armed s = 0 \/ armed s = 1) /\ (armed s = 1 <-> timer_pending tl (timer s) = true)
  /\ in_u 32 (alarm_low_ns s) /\ in_s 32 (alarm_high_ns s).

Lemma alarm_ns_range s : in_u 32 (alarm_low_ns s) -> in_s 32 (alarm_high_ns s) -> in_s 64 (alarm_ns s).
Proof. intros Hl Hh. rewrite alarm_ns_value by done. unfold in_u, in_s in *. lia. Qed.

Lemma scale_alter (f : QEMUTimer C -> QEMUTimer C) t (m : gmap timerptr (QEMUTimer C)) t' :
  (forall q, scale (f q) = scale q) ->
  scale <$> alter f t m !! t' = scale <$> m !! t'.
Proof.
  intros Hf. destruct (decide (t = t')) as [->|].
  - rewrite lookup_alter_eq. destruct (m !! t'); simpl; [by rewrite Hf|done].
  - by rewrite lookup_alter_ne.
Qed.

(** [timer_mod] of a nanosecond timer arms it at [e]. *)
Lemma timer_mod_ns_timer tl t q e : tl_inv tl -> timers tl !! t = Some q -> scale q = SCALE_NS ->
  in_s 64 e ->
  let tl' := (timer_mod tl t e).2 in
  tl_inv tl' /\ expire tl' t = Z.max e 0
  /\ (exists q', timers tl' !! t = Some q' /\ scale q' = SCALE_NS).
Proof.
  intros Hi Hq Hs He. assert (timer_scale tl t = 1) as Hsc by (unfold timer_scale; by rewrite Hq).
  unfold timer_mod, timer_mod_ns. rewrite Hsc, Z.mul_1_r, swrap_small by (done || lia).
  split; [|split].
  - apply timer_mod_locked_inv; [by apply timer_del_inv; [|rewrite Hq]| |].
    + simpl. rewrite unlink_elem by apply Hi. tauto.
    + simpl. rewrite lookup_alter_eq, Hq. done.
  - unfold timer_mod_ns_locked, snd. rewrite expire_alter by (simpl; rewrite lookup_alter_eq, Hq; done). by rewrite decide_True.
  - simpl. eexists. rewrite !lookup_alter_eq, Hq. simpl. done.
Qed.

Lemma timer_del_timer tl t q : tl_inv tl -> timers tl !! t = Some q -> scale q = SCALE_NS ->
  let tl' := timer_del tl t in
  tl_inv tl' /\ expire tl' t = -1 /\ (exists q', timers tl' !! t = Some q' /\ scale q' = SCALE_NS).
Proof.
  intros Hi Hq Hs. split; [by apply timer_del_inv; [|rewrite Hq]|]. split.
  - unfold timer_del, timer_del_locked. rewrite expire_alter by (rewrite Hq; done). by rewrite decide_True.
  - unfold timer_del. simpl. rewrite lookup_alter_eq, Hq. simpl. eexists. done.
Qed.

Lemma timer_write_ok s tl w offset value now s' tl' w' :
  timer_ok s tl -> in_u 32 value ->
  goldfish_timer_write pic s tl w offset value now = Some (s', tl', w') ->
  timer_ok s' tl' /\ now_ns s' = now_ns s.
Proof.
  intros (Hi & (q & Hq & Hs) & Ha & Hp & Hl & Hh) Hv. unfold goldfish_timer_write.
  repeat case_match; try done.
  - intros (w1 & _ & [= <- <- <-])%bind_Some. split; [|done]. split_and!; eauto.
  - destruct (timer_mod_ns_timer tl (timer (set_alarm_low value s)) q (alarm_ns (set_alarm_low value s)) Hi Hq Hs)
      as (G1 & G2 & G3); [by apply alarm_ns_range|].
    revert G1 G2 G3. generalize (timer_mod tl (timer (set_alarm_low value s)) (alarm_ns (set_alarm_low value s))).2.
    intros tl1 G1 G2 G3 [= <- <- <-]. split; [|done]. split_and!; simpl; eauto.
    split; [|done]. intros _. unfold timer_pending. apply Z.leb_le. simpl in G2. lia.
  - intros [= <- <- <-]. split; [|done]. split_and!; eauto. simpl. apply swrap_range. lia.
  - intros (w1 & _ & [= <- <- <-])%bind_Some. split; [|done].
    destruct (timer_del_timer tl (timer s) q Hi Hq Hs) as (G1 & G2 & G3).
    split_and!; simpl; eauto. unfold timer_pending. rewrite G2. done.
  - intros (w1 & _ & [= <- <- <-])%bind_Some. split; [|done]. split_and!; eauto.
Qed.

(** What happens to the timer: guest reads and writes, and its expiry, when
    the run loop has taken it off the list. *)
Inductive timer_step : timer_state * QEMUTimerList C * W -> timer_state * QEMUTimerList C * W -> Prop :=
| step_read s tl w offset now v s' : in_s 64 now ->
    goldfish_timer_read s offset now = Some (v, s') -> timer_step (s, tl, w) (s', tl, w)
| step_timer_write s tl w offset value now s' tl' w' : in_u 32 value ->
    goldfish_timer_write pic s tl w offset value now = Some (s', tl', w') ->
    timer_step (s, tl, w) (s', tl', w')
| step_expire s tl w s' w' : goldfish_timer_tick pic s w = Some (s', w') ->
    timer_step (s, tl, w) (s', timer_del tl (timer s), w').

Lemma timer_step_ok st st' : timer_step st st' -> timer_ok st.1.1 st.1.2 -> timer_ok st'.1.1 st'.1.2.
Proof.
  intros [s tl w offset now v s' Hn E|s tl w offset value now s' tl' w' Hv E|s tl w s' w' E] Hok; simpl in *.
  - destruct Hok as (Hi & Hq & Ha & Hp & Hl & Hh). unfold goldfish_timer_read in E.
    repeat case_match; simplify_eq/=; split_and!; eauto.
  - by eapply timer_write_ok.
  - destruct Hok as (Hi & (q & Hq & Hs) & Ha & Hp & Hl & Hh).
    apply bind_Some in E as (w1 & _ & [= <- <-]).
    destruct (timer_del_timer tl (timer s) q Hi Hq Hs) as (H1 & H2 & H3).
    split_and!; simpl; eauto. unfold timer_pending. rewrite H2. done.
Qed.

Lemma timer_steps_ok st st' : rtc timer_step st st' -> timer_ok st.1.1 st.1.2 -> timer_ok st'.1.1 st'.1.2.
Proof. induction 1; [done|]. intros. apply IHrtc. by eapply timer_step_ok. Qed.
End machine.

(** What may happen between the two halves of a guest's time read: writes to
    the timer, its expiry, reads of the high half, and the clock moving on. *)
Inductive between_reads {C W} (pic : list (qemu_irq W)) :
    timer_state * QEMUTimerList C * W -> timer_state * QEMUTimerList C * W -> Prop :=
| between_write s tl w offset value now s' tl' w' :
    goldfish_timer_write pic s tl w offset value now = Some (s', tl', w') ->
    between_reads pic (s, tl, w) (s', tl', w')
| between_expire s tl w s' w' : goldfish_timer_tick pic s w = Some (s', w') ->
    between_reads pic (s, tl, w) (s', timer_del tl (timer s), w')
| between_high s tl w now v s' : goldfish_timer_read s TIMER_TIME_HIGH now = Some (v, s') ->
    between_reads pic (s, tl, w) (s', tl, w).

Lemma between_reads_now {C W} (pic : list (qemu_irq W)) (st st' : timer_state * QEMUTimerList C * W) :
  rtc (between_reads pic) st st' -> now_ns st'.1.1 = now_ns st.1.1.
Proof.
  induction 1 as [|st1 st2 st3 Hs _ IH]; [done|]. rewrite IH. clear IH.
  destruct Hs as [s tl w offset value now s' tl' w' E|s tl w s' w' E|s tl w now v s' E]; simpl.
  - unfold goldfish_timer_write in E. repeat case_match; simplify_eq/=; try done;
      by apply bind_Some in E as (? & _ & [= <- <- <-]).
  - by apply bind_Some in E as (? & _ & [= <- <-]).
  - unfold goldfish_timer_read in E. by simplify_eq/=.
Qed.

(** A guest that reads [TIMER_TIME_LOW] and later [TIMER_TIME_HIGH] gets
    the two halves of one instant, the virtual time of the first read, however
    the clock and the timer moved in between. *)
Theorem timer_read_is_atomic {C W} (pic : list (qemu_irq W)) s (tl : QEMUTimerList C) w now lo s1 st2 now2 :
  goldfish_timer_read s TIMER_TIME_LOW now = Some (lo, s1) ->
  rtc (between_reads pic) (s1, tl, w) st2 ->
  exists hi s3, goldfish_timer_read st2.1.1 TIMER_TIME_HIGH now2 = Some (hi, s3)
    /\ halves hi lo = u64 now.
Proof.
  intros E Hb. apply between_reads_now in Hb. simpl in Hb.
  unfold goldfish_timer_read in *. simpl in *. injection E as <- <-.
  eexists _, _. split; [done|]. rewrite Hb. apply halves_of_64.
Qed.

Definition example_timer_dev : goldfish_device :=
  mkDev None 0 [116] 0xffffffff 0x10003000 0x1000 3 1.

Definition example_timer : timer_state := mkTS example_timer_dev 0 0 0 0 3%positive.

Definition int_lines := goldfish_int_lines 32.

Lemma timer_read_is_atomic_witness :
  exists hi s3, goldfish_timer_read (set_alarm_high 7 (set_now 0x1fffffffff example_timer)) TIMER_TIME_HIGH 0x2000000000
      = Some (hi, s3) /\ halves hi 0xffffffff = u64 0x1fffffffff.
Proof.
  apply (timer_read_is_atomic int_lines example_timer example_timers goldfish_interrupt_init
    0x1fffffffff 0xffffffff (set_now 0x1fffffffff example_timer)
    (set_alarm_high 7 (set_now 0x1fffffffff example_timer), example_timers, goldfish_interrupt_init) 0x2000000000).
  - reflexivity.
  - apply rtc_once. apply (between_write _ _ _ _ TIMER_ALARM_HIGH 7 0x2000000000). reflexivity.
Defined.

(** Through any sequence of guest accesses and expiries, the timer's
    [armed] flag says whether its [QEMUTimer] is pending, and the timer list
    keeps its invariant. *)
Theorem timer_armed_iff_pending {C W} (pic : list (qemu_irq W)) s (tl : QEMUTimerList C) w st' :
  timer_ok s tl -> rtc (timer_step pic) (s, tl, w) st' ->
  tl_inv st'.1.2 /\ (armed st'.1.1 = 1 <-> timer_pending st'.1.2 (timer st'.1.1) = true).
Proof. intros Hok Hs. destruct (timer_steps_ok pic _ _ Hs Hok) as (? & _ & _ & ? & _). done. Qed.

Lemma example_timer_ok : timer_ok example_timer example_timers.
Proof.
  split; [exact example_timers_inv|]. split; [by eexists|]. split; [by left|]. split; [done|].
  split; [done|]. unfold in_s. simpl. lia.
Qed.

Definition example_armed : timer_state * QEMUTimerList nat * goldfish_int_state :=
  default (example_timer, example_timers, goldfish_interrupt_init)
    (goldfish_timer_write int_lines example_timer example_timers goldfish_interrupt_init TIMER_ALARM_LOW 30 10).

Lemma timer_armed_iff_pending_witness :
  armed example_armed.1.1 = 1 /\ timer_pending example_armed.1.2 (timer example_armed.1.1) = true.
Proof.
  split; [reflexivity|].
  apply (timer_armed_iff_pending int_lines example_timer example_timers goldfish_interrupt_init example_armed
    example_timer_ok); [|reflexivity].
  apply rtc_once, (step_timer_write _ _ _ _ TIMER_ALARM_LOW 30 10); [done|reflexivity].
Defined.

(** ** From the alarm to the interrupt line *)

Section delivery.
(** The machine's callbacks: [goldfish_timer_tick] and the others. *)
Context {C : Type} `{EqDecision C} (tick : C).
Context {W : Type} (pic : list (qemu_irq W)) `{IrqLines W pic}.
Context (others : C -> QEMUTimerList C * (timer_state * W) -> QEMUTimerList C * (timer_state * W)).

(** With a line of the array the tick does not abort. *)
Definition machine_cb (c : C) (st : QEMUTimerList C * (timer_state * W)) : QEMUTimerList C * (timer_state * W) :=
  if decide (c = tick) then
    match goldfish_timer_tick pic st.2.1 st.2.2 with
    | Some sw => (st.1, sw)
    | None => st
    end
  else others c st.

(** The other callbacks leave the timer device and its line alone; they may
    arm and cancel timers that are not due. *)
Definition others_frame (d : goldfish_device) (now : Z) : Prop :=
  callbacks_later others now /\
  forall c tl s w, ts_dev s = d -> let '(tl', (s', w')) := others c (tl, (s, w)) in
    s' = s /\ dev_level pic d w' = dev_level pic d w /\ (lines_ok w -> lines_ok w')
    /\ forall t, cb <$> timers tl' !! t = cb <$> timers tl !! t.

(** What holds while the timers [rem] are still to be fired. *)
Definition firing (d : goldfish_device) (t0 : timerptr) (rem : list timerptr)
    (st : QEMUTimerList C * (timer_state * W)) : Prop :=
  let '(tl, (s, w)) := st in
  lines_ok w /\ ts_dev s = d /\ timer s = t0
  /\ (forall t, cb <$> timers tl !! t = Some tick -> t = t0)
  /\ cb <$> timers tl !! t0 = Some tick
  /\ (t0 ∉ rem -> armed s = 0 /\ dev_level pic d w = true).

Lemma cb_alter e t (m : gmap timerptr (QEMUTimer C)) t' :
  cb <$> alter (set_expire e) t m !! t' = cb <$> m !! t'.
Proof.
  destruct (decide (t = t')) as [->|].
  - rewrite lookup_alter_eq. by destruct (m !! t').
  - by rewrite lookup_alter_ne.
Qed.

Lemma fire_firing d now t0 t rem st : dev_ok pic d -> others_frame d now -> t ∉ rem ->
  firing d t0 (t :: rem) st -> firing d t0 rem (fire machine_cb t st).
Proof.
  intros Hd [_ Hfr] Hn. destruct st as [tl [s w]]. intros (Hw & Hsd & Hst & Hu & Ht & Ha).
  unfold fire. set (tl' := mkTimers (alter (set_expire (-1)) t (timers tl)) _ _).
  assert (forall t, cb <$> timers tl' !! t = cb <$> timers tl !! t) as Hcb by (intros; apply cb_alter).
  destruct (decide (t = t0)) as [->|Hne].
  - pose proof Ht as (q & Eq & Hc)%fmap_Some. rewrite Eq.
    unfold machine_cb. rewrite decide_True by done. unfold goldfish_timer_tick. cbn [fst snd].
    destruct (dev_set_irq pic (ts_dev s) 1 w) as (w' & Ew & Hw' & Hl); [by rewrite Hsd|done|].
    cbn [set_armed ts_dev]. rewrite Ew. cbn. split_and!; try done.
    + intros t Ht'. apply Hu. by rewrite <- Hcb.
    + by rewrite Hcb.
    + intros _. split; [done|]. by rewrite <- Hsd.
  - assert (t0 ∉ rem -> t0 ∉ t :: rem) as Hrem by set_solver.
    destruct (timers tl !! t) as [q|] eqn:Eq.
    + assert (cb q <> tick) as Hc. { intros <-. apply Hne, Hu. by rewrite Eq. }
      unfold machine_cb. rewrite decide_False by done.
      pose proof (Hfr (cb q) tl' s w Hsd) as H'. destruct (others (cb q) (tl', (s, w))) as [tl2 [s2 w2]].
      destruct H' as (-> & Hlev & Hok & Hcb2). split_and!; auto.
      * intros t' Ht'. apply Hu. by rewrite <- Hcb, <- Hcb2.
      * by rewrite Hcb2, Hcb.
      * intros Hx. rewrite Hlev. by apply Ha, Hrem.
    + split_and!; auto.
      * intros t' Ht'. apply Hu. by rewrite <- Hcb.
      * by rewrite Hcb.
Qed.

Lemma fold_firing d now t0 l st : dev_ok pic d -> others_frame d now -> NoDup l ->
  firing d t0 l st -> firing d t0 [] (foldl (fun st t => fire machine_cb t st) st l).
Proof.
  intros Hd Hfr. revert st. induction l as [|t l IH]; intros st Hnd Hst; simpl; [done|].
  apply NoDup_cons in Hnd as [Hn Hnd]. apply IH; [done|]. by eapply fire_firing.
Qed.

Lemma machine_cb_later d now : others_frame d now -> callbacks_later machine_cb now.
Proof.
  intros [Hl _] c tl w Hi. unfold machine_cb. case_decide; [|by apply Hl]. cbn.
  by destruct (goldfish_timer_tick pic w.1 w.2).
Qed.
End delivery.

(** a guest that programs an alarm in the future (the write of
    [TIMER_ALARM_LOW]) gets its interrupt: the alarm's timer becomes due
    exactly when the clock reaches the alarm, and the run of the timer list
    from then on terminates with the device's line raised and the timer
    disarmed, whatever other timers fire in the same run. *)
Theorem alarm_raises_line {C} `{EqDecision C} (tick : C) {W} (pic : list (qemu_irq W)) `{IrqLines W pic}
    others s (tl : QEMUTimerList C) w value now s1 tl1 w1 now1 :
  timer_ok s tl -> dev_ok pic (ts_dev s) -> lines_ok w -> clock_enabled tl = true ->
  cb <$> timers tl !! timer s = Some tick ->
  (forall t, cb <$> timers tl !! t = Some tick -> t = timer s) ->
  in_u 32 value -> 0 <= now -> now < alarm_ns (set_alarm_low value s) ->
  goldfish_timer_write pic s tl w TIMER_ALARM_LOW value now = Some (s1, tl1, w1) ->
  others_frame pic others (ts_dev s) now1 ->
  ((timer s1 ∈ due now1 tl1) <-> alarm_ns s1 <= now1)
  /\ (alarm_ns s1 <= now1 -> exists tl2 s2 w2,
        timerlist_run_timers (machine_cb tick pic others) (length (due now1 tl1)) now1 (tl1, (s1, w1))
          = Some (true, (tl2, (s2, w2)))
        /\ armed s2 = 0 /\ dev_level pic (ts_dev s) w2 = true).
Proof.
  intros (Hi & (q & Hq & Hs) & Ha & Hp & Hl & Hh) Hd Hw Hen Hcb Hu Hv Hnow Hfut E Hfr.
  set (s' := set_alarm_low value s) in *.
  assert (in_s 64 (alarm_ns s')) as Hr by by apply alarm_ns_range.
  destruct (timer_mod_ns_timer tl (timer s') q (alarm_ns s') Hi Hq Hs Hr) as (G1 & G2 & G3).
  unfold goldfish_timer_write in E. fold s' in E. change (TIMER_ALARM_LOW =? TIMER_ALARM_LOW) with true in E.
  cbv beta zeta iota in E. rewrite (proj2 (Z.leb_gt _ _)) in E by lia.
  assert (forall t, cb <$> timers (timer_mod tl (timer s') (alarm_ns s')).2 !! t = cb <$> timers tl !! t) as Hcbs.
  { intros t. unfold timer_mod, timer_mod_ns. simpl. by rewrite !cb_alter. }
  assert (clock_enabled (timer_mod tl (timer s') (alarm_ns s')).2 = true) as Hen' by done.
  revert G1 G2 G3 Hcbs Hen' E. generalize (timer_mod tl (timer s') (alarm_ns s')).2.
  intros tl' G1 G2 G3 Hcbs Hen' [= <- <- <-].
  assert ((timer s ∈ due now1 tl') <-> alarm_ns s' <= now1) as Hdue.
  { unfold due. change (timer s') with (timer s) in G2. rewrite list_elem_of_filter, (inv_pending _ G1), G2. lia. }
  split; [exact Hdue|]. change (alarm_ns (set_armed 1 s')) with (alarm_ns s'). intros Hle.
  pose proof (machine_cb_later tick pic others (ts_dev s) now1 Hfr) as Hlater.
  destruct (run_loop_due (machine_cb tick pic others) now1 (length (due now1 tl')) false tl'
    (set_armed 1 s', w) Hlater G1 (Nat.le_refl _)) as (Er & _ & _).
  assert (NoDup (due now1 tl')) as Hnd by apply NoDup_filter, G1.
  pose proof (fold_firing tick pic others (ts_dev s) now1 (timer s) (due now1 tl') (tl', (set_armed 1 s', w))
    Hd Hfr Hnd) as Hfire.
  destruct (foldl _ _ _) as [tl2 [s2 w2]]. exists tl2, s2, w2.
  unfold timerlist_run_timers. cbn [fst]. rewrite Hen'. cbn [negb]. rewrite Er. split.
  - rewrite bool_decide_false; [done|]. apply Hdue in Hle. intros E. rewrite E in Hle. set_solver.
  - destruct Hfire as (_ & _ & _ & _ & _ & Hf); [|apply Hf; set_solver].
    split_and!; try done; [|by rewrite Hcbs|].
    + intros t. rewrite Hcbs. apply Hu.
    + intros Hn. by apply Hdue in Hle.
Qed.

Definition example_int : goldfish_int_state := mkInt 0 0 (1 .<< 3) 0 false false.

(** On the interrupt controller with line 3 enabled the CPU's IRQ input rises. *)
Lemma alarm_raises_line_witness :
  exists tl2 s2 w2, timerlist_run_timers (machine_cb 3%nat int_lines (fun _ st => st)) 2 30
      (example_armed.1.2, (example_armed.1.1, example_int)) = Some (true, (tl2, (s2, w2)))
    /\ (armed s2 = 0 /\ Z.testbit (level w2) 3 = true) /\ parent_irq w2 = true.
Proof.
  edestruct (alarm_raises_line 3%nat int_lines (H := int_irq_lines 32 ltac:(lia)) (fun _ st => st) example_timer
    example_timers example_int 30 10 example_armed.1.1 example_armed.1.2 example_int 30) as [_ H].
  - exact example_timer_ok.
  - split; [reflexivity|]. vm_compute. lia.
  - repeat split; done.
  - reflexivity.
  - reflexivity.
  - intros t Ht. apply fmap_Some in Ht as (q & Hq & Hc). unfold example_timers, timers in Hq.
    repeat (apply lookup_insert_Some in Hq as [[<- <-]|[_ Hq]]; [done|]).
    by apply lookup_singleton_Some in Hq as [<- _].
  - done.
  - done.
  - reflexivity.
  - reflexivity.
  - split; [by intros ? ? ? ?|]. intros c tl s w _. split_and!; done.
  - destruct H as (tl2 & s2 & w2 & E & H); [vm_compute; discriminate|].
    exists tl2, s2, w2. split; [exact E|]. split; [exact H|]. vm_compute in E. injection E as _ _ <-. reflexivity.
Defined.

(** ** Snapshots *)

(** The bytes [goldfish_timer_save] writes. *)
Definition timer_bytes (s : timer_state) (now : Z) : list Z :=
  be64 (u64 (now_ns s)) ++ [u8 (armed s)] ++ (if nz (armed s) then be64 (u64 (alarm_ns s - now)) else []).

Lemma timer_save_emits {F} `{WriterLaws F} (f : F) s now : w_ok f ->
  emits f (timer_bytes s now) (goldfish_timer_save f s now).
Proof.
  intros Hf. unfold goldfish_timer_save, timer_bytes.
  pose proof (put_be64_emits f (u64 (now_ns s)) Hf) as H1.
  pose proof (put_byte_emits _ (armed s) (emits_ok _ _ _ H1)) as H2.
  eapply emits_trans; [exact H1|]. eapply emits_trans; [exact H2|].
  destruct (nz (armed s)); [by apply put_be64_emits, (emits_ok _ _ _ H2)|by apply emits_refl, (emits_ok _ _ _ H2)].
Qed.

(** A snapshot of an armed timer taken at [now] and loaded at [now'] on a
    machine whose timer is idle restores the half-read time and leaves the
    timer armed with the same time to go: it is pending for
    [now' + (alarm - now)]. *)
Theorem timer_save_load_keeps_delay {C W F G} `{WriterLaws F} `{ReaderLaws G} (pic : list (qemu_irq W))
    (f : F) (g : G) s s0 (tl : QEMUTimerList C) w now now' rest :
  w_ok f -> r_ok g -> r_in g = timer_bytes s now ++ rest ->
  armed s = 1 -> in_s 64 (now_ns s) -> in_s 64 (alarm_ns s - now) -> now < alarm_ns s ->
  timer_ok s0 tl -> 0 <= now' -> now' + (alarm_ns s - now) < 2 ^ 63 ->
  w_out (goldfish_timer_save f s now) = w_out f ++ timer_bytes s now
  /\ exists s' tl' g', goldfish_timer_load pic g s0 tl w GOLDFISH_TIMER_SAVE_VERSION now' = Some (0, s', tl', w, g')
     /\ r_in g' = rest /\ now_ns s' = now_ns s /\ armed s' = 1 /\ tl_inv tl'
     /\ timer s' = timer s0 /\ expire tl' (timer s0) = now' + (alarm_ns s - now).
Proof.
  intros Hf Hg Ein Ha Hnow Hdiff Hfut (Hi & (q & Hq & Hs) & _) Hn' Hmax.
  split; [by apply timer_save_emits|]. unfold timer_bytes in Ein. rewrite Ha in Ein. cbn [nz Z.eqb negb] in Ein.
  rewrite <- !app_assoc in Ein. change (1 =? 0) with false in Ein. cbn [negb] in Ein.
  unfold goldfish_timer_load. cbn [negb Z.eqb GOLDFISH_TIMER_SAVE_VERSION Pos.eqb].
  destruct (get_be64_consumes g _ _ Hg Ein) as (g1 & -> & Hg1 & E1).
  destruct (get_byte_consumes g1 _ _ Hg1 E1) as (g2 & -> & Hg2 & E2).
  destruct (get_be64_consumes g2 _ _ Hg2 E2) as (g3 & E3' & Hg3 & E3).
  cbv beta iota zeta. change (nz (armed (set_armed (u8 1) _))) with true. rewrite E3'. cbv beta iota zeta.
  rewrite !wrap_wrap, !swrap_wrap_id by (done || lia). rewrite (swrap_small 64 (now' + _)) by (unfold in_s; lia).
  rewrite (proj2 (Z.leb_gt _ _)) by lia.
  destruct (timer_mod_ns_timer tl (timer s0) q (now' + (alarm_ns s - now)) Hi Hq Hs) as (G1 & G2 & _);
    [unfold in_s; lia|].
  eexists _, _, g3. split; [reflexivity|]. split_and!; try done. etransitivity; [exact G2|lia].
Qed.

Lemma timer_save_load_keeps_delay_witness :
  exists s' tl' g', goldfish_timer_load int_lines (mem_in (timer_bytes example_armed.1.1 10)) example_timer
      example_timers goldfish_interrupt_init GOLDFISH_TIMER_SAVE_VERSION 1000
      = Some (0, s', tl', goldfish_interrupt_init, g')
    /\ expire tl' 3%positive = 1020.
Proof.
  destruct (timer_save_load_keeps_delay int_lines (mem_out []) (mem_in (timer_bytes example_armed.1.1 10))
    example_armed.1.1 example_timer example_timers goldfish_interrupt_init 10 1000 []) as (_ & s' & tl' & g' & H).
  - exact I.
  - exact I.
  - rewrite app_nil_r. reflexivity.
  - reflexivity.
  - vm_compute. split; [discriminate|reflexivity].
  - vm_compute. split; [discriminate|reflexivity].
  - reflexivity.
  - exact example_timer_ok.
  - lia.
  - vm_compute. reflexivity.
  - exists s', tl', g'. split; apply H.
Defined.

(** [goldfish_timer_load] restores the deadline but not the alarm
    registers it was computed from: saving the restored, still armed timer
    again at [now''] writes the distance to the stale registers of the loading
    machine, not the time that is left. *)
Theorem timer_load_keeps_stale_alarm {C W G} `{ReaderLaws G} (pic : list (qemu_irq W))
    (g : G) s s0 (tl : QEMUTimerList C) w now now' now'' rest s' tl' w' g' :
  r_ok g -> r_in g = timer_bytes s now ++ rest -> armed s = 1 ->
  goldfish_timer_load pic g s0 tl w GOLDFISH_TIMER_SAVE_VERSION now' = Some (0, s', tl', w', g') ->
  armed s' = 1 ->
  timer_bytes s' now'' = be64 (u64 (now_ns s')) ++ [1] ++ be64 (u64 (alarm_ns s0 - now'')).
Proof.
  intros Hg Ein Ha E Ha'. unfold timer_bytes. rewrite Ha'. do 3 f_equal.
  unfold timer_bytes in Ein. rewrite Ha, <- !app_assoc in Ein.
  unfold goldfish_timer_load in E. cbn [negb Z.eqb GOLDFISH_TIMER_SAVE_VERSION Pos.eqb] in E.
  destruct (get_be64_consumes g _ _ Hg Ein) as (g1 & E1' & Hg1 & E1). rewrite E1' in E.
  destruct (get_byte_consumes g1 _ _ Hg1 E1) as (g2 & E2' & Hg2 & E2). rewrite E2' in E.
  cbv beta iota zeta in E. change (nz (armed (set_armed (u8 1) _))) with true in E.
  destruct (qemu_get_be64 g2) as [v g3]. cbv beta iota zeta in E.
  destruct (s64 (now' + s64 v) <=? now'); [apply bind_Some in E as (? & _ & E)|]; injection E; intros; by subst.
Qed.

Lemma timer_load_keeps_stale_alarm_witness :
  exists s' tl' g', goldfish_timer_load int_lines (mem_in (timer_bytes example_armed.1.1 10)) example_timer
      example_timers goldfish_interrupt_init GOLDFISH_TIMER_SAVE_VERSION 1000
      = Some (0, s', tl', goldfish_interrupt_init, g')
    /\ timer_bytes s' 1000 = be64 0 ++ [1] ++ be64 (u64 (0 - 1000)).
Proof.
  eexists _, _, _. split; [reflexivity|].
  eapply (timer_load_keeps_stale_alarm int_lines (mem_in (timer_bytes example_armed.1.1 10))
    example_armed.1.1 example_timer example_timers goldfish_interrupt_init 10 1000 1000 []).
  - exact I.
  - rewrite app_nil_r. reflexivity.
  - reflexivity.
  - reflexivity.
  - reflexivity.
Defined.
