(* ===== verification/GoldfishEvents.v ===== *)
(** The goldfish input device: hw/android/goldfish/events_device.c, with the
    event codes of android/hw-events.h and android/skin/linux_keycodes.h and
    the screen predicates of android/avd/hw-config.c. Input events are queued
    as three words each in a ring of [MAX_EVENTS] words; the guest reads them
    one word at a time, and asks for the device's name, its capability
    bitmaps and its axes through pages. *)
From Stdlib Require Import String.
From S2P Require Import Prelude ByteStream Irq GoldfishInt.
Open Scope list_scope.

Definition MAX_EVENTS : Z := 256 * 4.

Definition REG_READ : Z := 0x00.
Definition REG_SET_PAGE : Z := 0x00.
Definition REG_LEN : Z := 0x04.
Definition REG_DATA : Z := 0x08.
Definition EV_SYN : Z := 0x00.
Definition EV_KEY : Z := 0x01.
Definition EV_REL : Z := 0x02.
Definition EV_ABS : Z := 0x03.
Definition EV_SW : Z := 0x05.
Definition EV_MAX : Z := 0x1f.
Definition PAGE_NAME : Z := 0x00000.
Definition PAGE_EVBITS : Z := 0x10000.
Definition PAGE_ABSDATA : Z := 0x20000 .| EV_ABS.
Definition STATE_INIT : Z := 0.
Definition STATE_BUFFERED : Z := 1.
Definition STATE_LIVE : Z := 2.

Definition KEY_HOME : Z := 102.
Definition KEY_UP : Z := 103.
Definition KEY_LEFT : Z := 105.
Definition KEY_RIGHT : Z := 106.
Definition KEY_END : Z := 107.
Definition KEY_DOWN : Z := 108.
Definition KEY_VOLUMEDOWN : Z := 114.
Definition KEY_VOLUMEUP : Z := 115.
Definition KEY_POWER : Z := 116.
Definition KEY_BACK : Z := 158.
Definition KEY_CAMERA : Z := 212.
Definition KEY_SEARCH : Z := 217.
Definition KEY_SOFT1 : Z := 229.
Definition KEY_SOFT2 : Z := 230.
Definition KEY_SEND : Z := 231.
Definition KEY_CENTER : Z := 232.
Definition BTN_MOUSE : Z := 0x110.
Definition BTN_TOUCH : Z := 0x14a.
Definition REL_X : Z := 0x00.
Definition REL_Y : Z := 0x01.
Definition ABS_X : Z := 0x00.
Definition ABS_Y : Z := 0x01.
Definition ABS_Z : Z := 0x02.
Definition ABS_MT_SLOT : Z := 0x2f.
Definition ABS_MT_TOUCH_MAJOR : Z := 0x30.
Definition ABS_MT_POSITION_X : Z := 0x35.
Definition ABS_MT_POSITION_Y : Z := 0x36.
Definition ABS_MT_TRACKING_ID : Z := 0x39.
Definition ABS_MT_PRESSURE : Z := 0x3a.
Definition ABS_MAX : Z := 0x3f.

(** [ev_bits[type]] is the byte array of the type, [len] its length;
    [abs_info] has [abs_info_count] words. *)
Record events_state := mkEv {
  pending : Z;
  page : Z;
  events : list Z;
  first : Z;
  last : Z;
  state : Z;
  ev_name : list Z;
  ev_bits : list (list Z);
  abs_info : list Z;
}.

Definition set_ring (ev : list Z) (l : Z) (s : events_state) : events_state :=
  mkEv (pending s) (page s) ev (first s) l (state s) (ev_name s) (ev_bits s) (abs_info s).
Definition set_first (f : Z) (s : events_state) : events_state :=
  mkEv (pending s) (page s) (events s) f (last s) (state s) (ev_name s) (ev_bits s) (abs_info s).
Definition set_state (st : Z) (s : events_state) : events_state :=
  mkEv (pending s) (page s) (events s) (first s) (last s) st (ev_name s) (ev_bits s) (abs_info s).
Definition set_page (p : Z) (s : events_state) : events_state :=
  mkEv (pending s) p (events s) (first s) (last s) (state s) (ev_name s) (ev_bits s) (abs_info s).
Definition set_bits_of (b : list (list Z)) (s : events_state) : events_state :=
  mkEv (pending s) (page s) (events s) (first s) (last s) (state s) (ev_name s) b (abs_info s).

(** [s->events[s->last] = v; s->last = (s->last + 1) & (MAX_EVENTS-1)]. *)
Definition push_word (v : Z) (s : events_state) : events_state :=
  set_ring (<[Z.to_nat (last s) := v]> (events s)) (u32 (last s + 1) .& (MAX_EVENTS - 1)) s.

Section device.
Context (target_i386 : bool) {W : Type} (irq : qemu_irq W).

Definition enqueue_event (s : events_state) (w : W) (type code value : Z) : events_state * W :=
  let enqueued := s32 (u32 (last s - first s)) in
  let enqueued := if enqueued <? 0 then enqueued + MAX_EVENTS else enqueued in
  if MAX_EVENTS <? enqueued + 3 then (s, w)
  else
    let '(s, w) :=
      if first s =? last s then
        if state s =? STATE_LIVE then (s, qemu_irq_raise w irq)
        else (set_state STATE_BUFFERED s, w)
      else (s, w) in
    (push_word (u32 value) (push_word code (push_word type s)), w).

(** The read of [events] is within the ring. *)
Definition dequeue_event (s : events_state) (w : W) : Z * events_state * W :=
  if first s =? last s then (0, s, w)
  else
    let n := default 0 (events s !! Z.to_nat (first s)) in
    let s := set_first (u32 (first s + 1) .& (MAX_EVENTS - 1)) s in
    if first s =? last s then (n, s, qemu_irq_lower w irq)
    else if target_i386 && (((u32 (first s + 2) .& (MAX_EVENTS - 1)) <? last s)
                            || (last s <? (first s .& (MAX_EVENTS - 1)))) then
      (n, s, qemu_irq_raise (qemu_irq_lower w irq) irq)
    else (n, s, w).

Definition get_page_len (s : events_state) : Z :=
  if page s =? PAGE_NAME then Z.of_nat (length (ev_name s))
  else if (PAGE_EVBITS <=? page s) && (page s <=? PAGE_EVBITS + EV_MAX) then
    Z.of_nat (length (default [] (ev_bits s !! Z.to_nat (page s - PAGE_EVBITS))))
  else if page s =? PAGE_ABSDATA then Z.of_nat (length (abs_info s)) * 4
  else 0.

(** The bytes of the name are followed by the terminating 0; [None] is a
    read outside of an array. *)
Definition get_page_data (s : events_state) (offset : Z) : option Z :=
  let page_len := get_page_len s in
  if page_len <? offset then Some 0
  else if page s =? PAGE_NAME then (ev_name s ++ [0]) !! Z.to_nat offset
  else if (PAGE_EVBITS <=? page s) && (page s <=? PAGE_EVBITS + EV_MAX) then
    default [] (ev_bits s !! Z.to_nat (page s - PAGE_EVBITS)) !! Z.to_nat offset
  else if page s =? PAGE_ABSDATA then abs_info s !! Z.to_nat (offset / 4)
  else Some 0.

Definition events_read (s : events_state) (w : W) (off : Z) : option (Z * events_state * W) :=
  let offset := s32 off in
  let '(s, w) :=
    if (offset =? REG_LEN) && (page s =? PAGE_ABSDATA) then
      let w := if state s =? STATE_BUFFERED then qemu_irq_raise w irq else w in
      (set_state STATE_LIVE s, w)
    else (s, w) in
  if offset =? REG_READ then Some (dequeue_event s w)
  else if offset =? REG_LEN then Some (u32 (get_page_len s), s, w)
  else if REG_DATA <=? offset then
    v ← get_page_data s (offset - REG_DATA); Some (u32 v, s, w)
  else Some (0, s, w).

Definition events_write (s : events_state) (off val : Z) : events_state :=
  let offset := s32 off in
  if offset =? REG_SET_PAGE then set_page (s32 val) s else s.

Definition events_put_keycode (s : events_state) (w : W) (keycode : Z) : events_state * W :=
  enqueue_event s w EV_KEY (keycode .& 0x1ff) (if nz (keycode .& 0x200) then 1 else 0).

Definition events_put_generic (s : events_state) (w : W) (type code value : Z) : events_state * W :=
  enqueue_event s w (u32 type) (u32 code) value.

(** Several events one after the other. *)
Fixpoint enqueue_all (l : list (Z * Z * Z)) (s : events_state) (w : W) : events_state * W :=
  match l with
  | [] => (s, w)
  | (t, c, v) :: l => let '(s, w) := enqueue_event s w t c v in enqueue_all l s w
  end.

(** [multi_touch] and [touch] are the configured screen; the multi-touch
    emulation of android/multitouch-screen.c is the argument
    [multitouch_update_pointer]. *)
Definition events_put_mouse (multi_touch touch : bool)
    (multitouch_update_pointer : Z -> Z -> Z -> events_state * W -> events_state * W)
    (s : events_state) (w : W) (dx dy dz buttons_state : Z) : events_state * W :=
  if dz =? 0 then
    if multi_touch then
      multitouch_update_pointer dx dy (if nz (buttons_state .& 1) then 0x81 else 0) (s, w)
    else if touch then
      enqueue_all [(EV_ABS, ABS_X, dx); (EV_ABS, ABS_Y, dy); (EV_ABS, ABS_Z, dz);
                   (EV_KEY, BTN_TOUCH, buttons_state .& 1); (EV_SYN, 0, 0)] s w
    else (s, w)
  else enqueue_all [(EV_REL, REL_X, dx); (EV_REL, REL_Y, dy); (EV_SYN, 0, 0)] s w.
End device.

(** ** Capability bitmaps *)

(** [bits[i] |= mask]. *)
Definition or_byte (i : nat) (mask : Z) (bits : list Z) : list Z :=
  <[i := default 0 (bits !! i) .| mask]> bits.

(** [while (++il < ih) bits[il] = 0xff]; the arguments are [il + 1] and the
    number of iterations left. *)
Fixpoint fill_bytes (n : nat) (il : nat) (bits : list Z) : list Z :=
  match n with
  | O => bits
  | S n => fill_bytes n (S il) (<[il := 0xff]> bits)
  end.

(** [bitl] and [bith] are not negative. *)
Definition set_bits_in (bits : list Z) (bitl bith : Z) : list Z :=
  let il := Z.to_nat (bitl / 8) in
  let ih := Z.to_nat (bith / 8) in
  let bits := if bool_decide (length bits <= ih)%nat then bits ++ replicate (S ih - length bits) 0 else bits in
  let maskl := u8 (0xff .<< (bitl .& 7)) in
  let maskh := u8 (0xff .>> (7 - (bith .& 7))) in
  if bool_decide (ih <= il)%nat then or_byte ih (maskh .& maskl) bits
  else
    let bits := or_byte il maskl bits in
    let bits := fill_bytes (ih - S il) (S il) bits in
    or_byte ih maskh bits.

Definition events_set_bits (s : events_state) (type bitl bith : Z) : events_state :=
  set_bits_of (alter (fun bits => set_bits_in bits bitl bith) (Z.to_nat type) (ev_bits s)) s.

Definition events_set_bit (s : events_state) (type bit : Z) : events_state := events_set_bits s type bit bit.

Definition events_clr_bit (s : events_state) (type bit : Z) : events_state :=
  let ii := Z.to_nat (bit / 8) in
  set_bits_of (alter (fun bits =>
    if bool_decide (ii < length bits)%nat then
      let mask := u8 (0x01 .<< (bit .& 7)) in
      <[ii := default 0 (bits !! ii) .& u8 (.~ mask)]> bits
    else bits) (Z.to_nat type) (ev_bits s)) s.

(** ** Initialisation *)

(** The members of [AndroidHwConfig] the device looks at. *)
Record AndroidHwConfig := mkConfig {
  hw_screen : string;
  hw_dPad : bool;
  hw_trackBall : bool;
  hw_camera_back : string;
  hw_camera_front : string;
  hw_keyboard : bool;
  hw_keyboard_lid : bool;
  hw_keyboard_charmap : list Z;
  hw_lcd_width : Z;
  hw_lcd_height : Z;
}.

Definition androidHwConfig_isScreenNoTouch (c : AndroidHwConfig) : bool := String.eqb (hw_screen c) "no-touch".
Definition androidHwConfig_isScreenTouch (c : AndroidHwConfig) : bool := String.eqb (hw_screen c) "touch".
Definition androidHwConfig_isScreenMultiTouch (c : AndroidHwConfig) : bool := String.eqb (hw_screen c) "multi-touch".

(** [multitouch_get_max_slot] of android/multitouch-screen.c. *)
Definition MTS_POINTERS_NUM : Z := 10.
Definition multitouch_get_max_slot : Z := MTS_POINTERS_NUM - 1.

Definition set_all (type : Z) (l : list Z) (s : events_state) : events_state :=
  foldl (fun s bit => events_set_bit s type bit) s l.
Definition clr_all (type : Z) (l : list Z) (s : events_state) : events_state :=
  foldl (fun s bit => events_clr_bit s type bit) s l.

Definition if_then (b : bool) (f : events_state -> events_state) (s : events_state) : events_state :=
  if b then f s else s.

(** The EV_KEY array. *)
Definition init_keys (c : AndroidHwConfig) (s : events_state) : events_state :=
  let s := events_set_bit s EV_SYN EV_KEY in
  let s := set_all EV_KEY [KEY_HOME; KEY_BACK; KEY_SEND; KEY_END; KEY_SOFT1; KEY_VOLUMEUP; KEY_VOLUMEDOWN;
                           KEY_SOFT2; KEY_POWER; KEY_SEARCH] s in
  let s := if_then (hw_dPad c) (set_all EV_KEY [KEY_DOWN; KEY_UP; KEY_LEFT; KEY_RIGHT; KEY_CENTER]) s in
  let s := if_then (hw_trackBall c) (set_all EV_KEY [BTN_MOUSE]) s in
  let s := if_then (androidHwConfig_isScreenTouch c) (set_all EV_KEY [BTN_TOUCH]) s in
  let s := if_then (negb (String.eqb (hw_camera_back c) "none") || negb (String.eqb (hw_camera_front c) "none"))
             (set_all EV_KEY [KEY_CAMERA]) s in
  if_then (hw_keyboard c) (fun s =>
    let s := events_set_bits s EV_KEY 1 0xff in
    let s := events_set_bits s EV_KEY 0x160 0x1ff in
    if_then (negb (hw_dPad c)) (clr_all EV_KEY [KEY_DOWN; KEY_UP; KEY_LEFT; KEY_RIGHT; KEY_CENTER]) s) s.

(** [abs_values[axis].max = v]: an [ABSEntry] is four words, [max] the second. *)
Definition set_abs_max (axis v : Z) (l : list Z) : list Z := <[Z.to_nat (4 * axis + 1) := s32 v]> l.

Definition init_abs (c : AndroidHwConfig) : list Z :=
  let multi := androidHwConfig_isScreenMultiTouch c in
  let abs_info_count := if multi then ABS_MAX * 4 else 3 * 4 in
  let l := replicate (Z.to_nat abs_info_count) 0 in
  let l := set_abs_max ABS_X (hw_lcd_width c - 1) l in
  let l := set_abs_max ABS_Y (hw_lcd_height c - 1) l in
  let l := set_abs_max ABS_Z 1 l in
  if multi then
    let l := set_abs_max ABS_MT_SLOT multitouch_get_max_slot l in
    let l := set_abs_max ABS_MT_TRACKING_ID (multitouch_get_max_slot + 1) l in
    let l := set_abs_max ABS_MT_POSITION_X (hw_lcd_width c - 1) l in
    let l := set_abs_max ABS_MT_POSITION_Y (hw_lcd_height c - 1) l in
    let l := set_abs_max ABS_MT_TOUCH_MAJOR 0x7fffffff l in
    set_abs_max ABS_MT_PRESSURE 0x100 l
  else l.

Definition events_dev_init (c : AndroidHwConfig) : events_state :=
  let s := mkEv 0 0 (replicate (Z.to_nat MAX_EVENTS) 0) 0 0 0 [] (replicate (Z.to_nat (EV_MAX + 1)) []) [] in
  let s := init_keys c s in
  let s := if_then (hw_trackBall c) (fun s =>
             events_set_bits (events_set_bit s EV_SYN EV_REL) EV_REL REL_X REL_Y) s in
  let s := if_then (negb (androidHwConfig_isScreenNoTouch c)) (fun s =>
             let s := events_set_bits (events_set_bit s EV_SYN EV_ABS) EV_ABS ABS_X ABS_Z in
             let s := if_then (androidHwConfig_isScreenMultiTouch c)
               (set_all EV_ABS [ABS_MT_SLOT; ABS_MT_POSITION_X; ABS_MT_POSITION_Y; ABS_MT_TRACKING_ID;
                                ABS_MT_TOUCH_MAJOR; ABS_MT_PRESSURE]) s in
             mkEv (pending s) (page s) (events s) (first s) (last s) (state s) (ev_name s) (ev_bits s) (init_abs c)) s in
  let s := if_then (hw_keyboard c && hw_keyboard_lid c) (fun s =>
             events_set_bit (events_set_bit s EV_SYN EV_SW) EV_SW 0) s in
  mkEv (pending s) (page s) (events s) 0 0 STATE_INIT (hw_keyboard_charmap c) (ev_bits s) (abs_info s).

(** ** Snapshots *)

(** The memory of [events]: 32-bit words in the byte order of a
    little-endian host. *)
Definition le32 (v : Z) : list Z := [u8 v; u8 (v .>> 8); u8 (v .>> 16); u8 (v .>> 24)].
Definition words_to_bytes (l : list Z) : list Z := concat (le32 <$> l).
Fixpoint words_of_bytes (l : list Z) : list Z :=
  match l with
  | b0 :: b1 :: b2 :: b3 :: l => (b0 .| (b1 .<< 8) .| (b2 .<< 16) .| (b3 .<< 24)) :: words_of_bytes l
  | _ => []
  end.

Definition EVENTS_STATE_SAVE_VERSION : Z := 2.

Definition events_state_fields : list (QField events_state) := [
  Q_FIELD_INT32 (fun s => u32 (pending s)) (fun v s =>
    mkEv (s32 v) (page s) (events s) (first s) (last s) (state s) (ev_name s) (ev_bits s) (abs_info s));
  Q_FIELD_INT32 (fun s => u32 (page s)) (fun v s => set_page (s32 v) s);
  Q_FIELD_BUFFER (4 * MAX_EVENTS) (fun s => words_to_bytes (events s))
    (fun bs s => set_ring (words_of_bytes bs) (last s) s);
  Q_FIELD_INT32 first (fun v s => set_first v s);
  Q_FIELD_INT32 last (fun v s => set_ring (events s) v s);
  Q_FIELD_INT32 state (fun v s => set_state v s)].

Definition events_state_save {F} `{ByteWriter F} (f : F) (s : events_state) : F :=
  qemu_put_struct f events_state_fields s.

Definition events_state_load {G} `{ByteReader G} (g : G) (s : events_state) (version_id : Z) :
    Z * events_state * G :=
  if negb (version_id =? EVENTS_STATE_SAVE_VERSION) then (-1, s, g)
  else qemu_get_struct g events_state_fields s.

Definition example_config : AndroidHwConfig := mkConfig "touch" true false "none" "emulated" false false [113] 320 480.
Example init_pages : (get_page_len (set_page (PAGE_EVBITS + EV_KEY) (events_dev_init example_config)),
  get_page_len (set_page PAGE_ABSDATA (events_dev_init example_config))) = (42, 48).
Proof. reflexivity. Qed.

(** ** The ring as a queue *)

Definition ring_ok (s : events_state) : Prop :=
  length (events s) = Z.to_nat MAX_EVENTS /\ 0 <= first s < MAX_EVENTS /\ 0 <= last s < MAX_EVENTS.

(** The number of words queued, and the words, oldest first. *)
Definition count (s : events_state) : Z := (last s - first s) mod MAX_EVENTS.
Definition queue (s : events_state) : list Z :=
  (fun i => default 0 (events s !! Z.to_nat ((first s + i) mod MAX_EVENTS))) <$> seqZ 0 (count s).

Lemma ring_next i : 0 <= i < MAX_EVENTS -> u32 (i + 1) .& (MAX_EVENTS - 1) = (i + 1) mod MAX_EVENTS.
Proof.
  unfold MAX_EVENTS. intros. rewrite wrap_small by (unfold in_u; lia).
  change (256 * 4 - 1) with (Z.ones 10). by rewrite Z.land_ones by lia.
Qed.

Lemma mod_add_1 a : a mod MAX_EVENTS <> MAX_EVENTS - 1 -> (a + 1) mod MAX_EVENTS = a mod MAX_EVENTS + 1.
Proof.
  intros H. change MAX_EVENTS with 1024 in *. pose proof (Z.mod_pos_bound a 1024 ltac:(lia)).
  rewrite <- Zplus_mod_idemp_l. apply Z.mod_small. lia.
Qed.

Lemma count_range s : 0 <= count s < MAX_EVENTS.
Proof. apply Z.mod_pos_bound. done. Qed.

Lemma length_queue s : Z.of_nat (length (queue s)) = count s.
Proof. unfold queue. pose proof (count_range s). rewrite length_fmap, length_seqZ. lia. Qed.

Lemma queue_nil s : ring_ok s -> queue s = [] <-> first s = last s.
Proof.
  intros (_ & Hf & Hl). pose proof (length_queue s) as Hq. unfold count, MAX_EVENTS in *. split.
  - intros E. rewrite E in Hq. simpl in Hq. symmetry in Hq.
    apply Z.mod_divide in Hq as [k Hk]; [|done]. nia.
  - intros E. rewrite E, Z.sub_diag in Hq. simpl in Hq. by destruct (queue s).
Qed.

Lemma push_ring s v : ring_ok s -> ring_ok (push_word v s).
Proof.
  intros (Hn & Hf & Hl). unfold push_word. split_and!; simpl.
  - by rewrite length_insert.
  - lia.
  - lia.
  - rewrite ring_next by done. by apply Z.mod_pos_bound.
  - rewrite ring_next by done. by apply Z.mod_pos_bound.
Qed.

Lemma push_count s v : ring_ok s -> count s < MAX_EVENTS - 1 -> count (push_word v s) = count s + 1.
Proof.
  intros (_ & _ & Hl) Hc. unfold push_word. unfold count at 1. simpl. rewrite ring_next by done.
  rewrite Zminus_mod_idemp_l. replace (last s + 1 - first s) with (last s - first s + 1) by lia.
  apply mod_add_1. unfold count in Hc. lia.
Qed.

(** A word pushed on a ring with room is the newest of the queue. *)
Lemma push_queue s v : ring_ok s -> count s < MAX_EVENTS - 1 -> queue (push_word v s) = queue s ++ [v].
Proof.
  intros Hs Hc. pose proof (count_range s). unfold queue at 1. rewrite push_count, seqZ_app by (done || lia).
  rewrite fmap_app. destruct Hs as (Hn & Hf & Hl). f_equal.
  - apply list_fmap_ext. intros k i Hi. apply lookup_seqZ in Hi as [-> Hk]. simpl.
    rewrite list_lookup_insert_ne; [done|]. rewrite !Z.add_0_l. intros E.
    apply Z2Nat.inj in E; [|lia|apply Z.mod_pos_bound; done].
    assert (count s = (first s + Z.of_nat k - first s) mod MAX_EVENTS) as Ec.
    { unfold count. rewrite E. by rewrite Zminus_mod_idemp_l. }
    replace (first s + Z.of_nat k - first s) with (Z.of_nat k) in Ec by lia. rewrite Z.mod_small in Ec; lia.
  - rewrite seqZ_cons by lia. simpl. f_equal.
    rewrite Z.add_0_l. unfold count. rewrite Zplus_mod_idemp_r. replace (first s + (last s - first s)) with (last s) by lia.
    rewrite Z.mod_small by done. rewrite list_lookup_insert_eq; [done|]. unfold MAX_EVENTS in *. lia.
Qed.

(** Pushing on a ring with one free word empties it. *)
Lemma push_full s v : ring_ok s -> count s = MAX_EVENTS - 1 -> queue (push_word v s) = [].
Proof.
  intros Hs Hc. apply queue_nil; [by apply push_ring|]. destruct Hs as (_ & Hf & Hl).
  simpl. rewrite ring_next by done. unfold count, MAX_EVENTS in *.
  rewrite <- (Z.mod_small (first s) (256 * 4)) by lia.
  replace (last s + 1) with ((last s - first s) + (first s + 1)) by lia.
  rewrite <- Zplus_mod_idemp_l, Hc. replace (256 * 4 - 1 + (first s + 1)) with (first s + 1 * (256 * 4)) by lia.
  by rewrite Z_mod_plus_full.
Qed.

Lemma pop_queue s : ring_ok s -> first s <> last s ->
  let s' := set_first (u32 (first s + 1) .& (MAX_EVENTS - 1)) s in
  ring_ok s' /\ queue s = default 0 (events s !! Z.to_nat (first s)) :: queue s'.
Proof.
  intros Hs Hne. pose proof Hs as (Hn & Hf & Hl). pose proof (count_range s).
  assert (0 < count s) as Hc.
  { destruct (queue s) eqn:E; [by apply queue_nil in E|]. pose proof (length_queue s) as Hq.
    rewrite E in Hq. simpl in Hq. lia. }
  cbv zeta. rewrite ring_next by done. split.
  - split_and!; simpl; try done; try lia; by apply Z.mod_pos_bound.
  - assert (count (set_first ((first s + 1) mod MAX_EVENTS) s) = count s - 1) as Ec.
    { unfold count at 1. simpl. rewrite Zminus_mod_idemp_r.
      assert (count s = (last s - (first s + 1) + 1) mod MAX_EVENTS) as E by (unfold count; f_equal; lia).
      destruct (decide ((last s - (first s + 1)) mod MAX_EVENTS = MAX_EVENTS - 1)) as [Em|Em].
      - rewrite <- Zplus_mod_idemp_l, Em in E. change ((MAX_EVENTS - 1 + 1) mod MAX_EVENTS) with 0 in E. lia.
      - rewrite mod_add_1 in E by done. lia. }
    unfold queue. rewrite Ec, (seqZ_cons 0) by lia. simpl. rewrite Z.add_0_r, Z.mod_small by done. f_equal.
    replace (Z.pred (count s)) with (count s - 1) by lia.
    change (Z.succ 0) with (0 + 1). rewrite <- (fmap_add_seqZ 1 0), <- list_fmap_compose.
    apply list_fmap_ext. intros k i Hi. simpl. rewrite Zplus_mod_idemp_l. do 4 f_equal. lia.
Qed.

Lemma enqueued_count s : ring_ok s ->
  (let e := s32 (u32 (last s - first s)) in if e <? 0 then e + MAX_EVENTS else e) = count s.
Proof.
  intros (_ & Hf & Hl). cbv zeta. rewrite swrap_wrap, swrap_small by (unfold in_s, MAX_EVENTS in *; lia).
  unfold count, MAX_EVENTS in *. destruct (Z.ltb_spec (last s - first s) 0).
  - apply (Z.mod_unique_pos _ _ (-1)); lia.
  - by rewrite Z.mod_small by lia.
Qed.

(** What [enqueue_event] does before it pushes the three words. *)
Lemma enqueue_unfold {W} (irq : qemu_irq W) s w type code value : ring_ok s ->
  enqueue_event irq s w type code value =
    if MAX_EVENTS - 3 <? count s then (s, w)
    else
      let sw := if first s =? last s then
                  if state s =? STATE_LIVE then (s, qemu_irq_raise w irq) else (set_state STATE_BUFFERED s, w)
                else (s, w) in
      (push_word (u32 value) (push_word code (push_word type sw.1)), sw.2).
Proof.
  intros Hs. unfold enqueue_event. cbv zeta. pose proof (enqueued_count s Hs) as E. cbv zeta in E. rewrite E.
  replace (MAX_EVENTS <? count s + 3) with (MAX_EVENTS - 3 <? count s);
    [|by destruct (Z.ltb_spec (MAX_EVENTS - 3) (count s)), (Z.ltb_spec MAX_EVENTS (count s + 3)); try lia].
  destruct (MAX_EVENTS - 3 <? count s); [done|]. by destruct (first s =? last s), (state s =? STATE_LIVE).
Qed.

(** The state and the raised line do not touch the ring. *)
Lemma set_state_ring st s : ring_ok s -> ring_ok (set_state st s).
Proof. done. Qed.

Lemma push3_queue s a b c : ring_ok s -> count s <= MAX_EVENTS - 4 ->
  queue (push_word c (push_word b (push_word a s))) = queue s ++ [a; b; c].
Proof.
  intros Hs Hc. pose proof (push_ring s a Hs) as H1. pose proof (push_ring _ b H1) as H2.
  pose proof (push_count s a Hs ltac:(lia)) as C1. pose proof (push_count _ b H1 ltac:(lia)) as C2.
  rewrite !push_queue by (done || lia). by rewrite <- !app_assoc.
Qed.

Lemma enqueue_ring {W} (irq : qemu_irq W) s w type code value : ring_ok s ->
  ring_ok (enqueue_event irq s w type code value).1.
Proof.
  intros Hs. rewrite enqueue_unfold by done. case_match; [done|]. apply push_ring, push_ring, push_ring.
  by repeat case_match.
Qed.

Lemma enqueue_room {W} (irq : qemu_irq W) s w type code value : ring_ok s -> count s <= MAX_EVENTS - 4 ->
  queue (enqueue_event irq s w type code value).1 = queue s ++ [type; code; u32 value].
Proof.
  intros Hs Hc. rewrite enqueue_unfold by done. rewrite (proj2 (Z.ltb_ge _ _)) by lia. cbv zeta. cbn [fst].
  rewrite push3_queue; repeat case_match; done.
Qed.

Lemma enqueue_full {W} (irq : qemu_irq W) s w type code value : ring_ok s -> MAX_EVENTS - 2 <= count s ->
  enqueue_event irq s w type code value = (s, w).
Proof. intros Hs Hc. rewrite enqueue_unfold by done. by rewrite (proj2 (Z.ltb_lt _ _)) by lia. Qed.

Lemma dequeue_empty {W} i386 (irq : qemu_irq W) s w : ring_ok s -> queue s = [] ->
  dequeue_event i386 irq s w = (0, s, w).
Proof. intros Hs Hq%queue_nil; [|done]. unfold dequeue_event. by rewrite Hq, Z.eqb_refl. Qed.

Lemma dequeue_some {W} i386 (irq : qemu_irq W) s w x q : ring_ok s -> queue s = x :: q ->
  let s' := set_first (u32 (first s + 1) .& (MAX_EVENTS - 1)) s in
  ring_ok s' /\ queue s' = q /\ exists w', dequeue_event i386 irq s w = (x, s', w')
    /\ (q = [] -> w' = qemu_irq_lower w irq)
    /\ (q <> [] -> w' = w \/ w' = qemu_irq_raise (qemu_irq_lower w irq) irq).
Proof.
  intros Hs Hq. assert (first s <> last s) as Hne by (intros E; apply queue_nil in E; [congruence|done]).
  destruct (pop_queue s Hs Hne) as [H1 H2]. cbv zeta in *. rewrite Hq in H2. injection H2 as Hx Hq'.
  split; [done|]. split; [done|]. unfold dequeue_event. rewrite (proj2 (Z.eqb_neq _ _)) by done. rewrite <- Hx.
  set (s' := set_first _ s) in *. cbv zeta. destruct (Z.eqb_spec (first s') (last s')) as [E|E].
  - exists (qemu_irq_lower w irq). split; [done|]. split; [done|]. intros Hn. by apply queue_nil in E; [congruence|].
  - assert (q <> []) as Hn by (intros ->; by apply E, queue_nil).
    case_match; (eexists; split; [done|]); (split; [done|]); auto.
Qed.

(** ** The abstract queue *)

Inductive ev_op := Put (type code value : Z) | Get.

(** A bounded queue of words: an event is taken as a whole when three words
    fit next to one that stays free, and lost otherwise; reading an empty
    queue gives 0. *)
Definition fifo_step (q : list Z) (op : ev_op) : list Z * option Z :=
  match op with
  | Put t c v =>
      (if Z.of_nat (length q) <=? MAX_EVENTS - 4 then q ++ [t; c; u32 v] else q, None)
  | Get => match q with [] => ([], Some 0) | x :: q => (q, Some x) end
  end.

Definition ev_step {W} i386 (irq : qemu_irq W) (sw : events_state * W) (op : ev_op) : events_state * W * option Z :=
  match op with
  | Put t c v => (enqueue_event irq sw.1 sw.2 t c v, None)
  | Get => let '(x, s, w) := dequeue_event i386 irq sw.1 sw.2 in (s, w, Some x)
  end.

Fixpoint fifo_run (q : list Z) (ops : list ev_op) : list Z * list (option Z) :=
  match ops with
  | [] => (q, [])
  | op :: ops => let '(q, o) := fifo_step q op in let '(q, os) := fifo_run q ops in (q, o :: os)
  end.

Fixpoint ev_run {W} i386 (irq : qemu_irq W) (sw : events_state * W) (ops : list ev_op) :
    events_state * W * list (option Z) :=
  match ops with
  | [] => (sw, [])
  | op :: ops =>
      let '(sw, o) := ev_step i386 irq sw op in let '(sw, os) := ev_run i386 irq sw ops in (sw, o :: os)
  end.

(** No event is put when exactly three words are free. *)
Fixpoint never_three_free (q : list Z) (ops : list ev_op) : bool :=
  match ops with
  | [] => true
  | op :: ops =>
      match op with Put _ _ _ => negb (Z.of_nat (length q) =? MAX_EVENTS - 3) | Get => true end
      && never_three_free (fifo_step q op).1 ops
  end.

Lemma ev_step_refines {W} i386 (irq : qemu_irq W) s w op : ring_ok s ->
  match op with Put _ _ _ => count s <> MAX_EVENTS - 3 | Get => True end ->
  let r := ev_step i386 irq (s, w) op in
  ring_ok r.1.1 /\ (queue r.1.1, r.2) = fifo_step (queue s) op.
Proof.
  intros Hs. destruct op as [t c v|]; simpl.
  - intros Hc. split; [by apply enqueue_ring|]. rewrite length_queue. f_equal.
    destruct (Z.leb_spec (count s) (MAX_EVENTS - 4)); [by apply enqueue_room|].
    rewrite enqueue_full by (done || lia). done.
  - intros _. destruct (queue s) as [|x q] eqn:Eq.
    + rewrite dequeue_empty by done. simpl. by rewrite Eq.
    + destruct (dequeue_some i386 irq s w x q Hs Eq) as (H1 & H2 & w' & E & _).
      rewrite E. simpl. by rewrite H2.
Qed.

(** ** What the device promises *)

Lemma ev_run_refines {W} i386 (irq : qemu_irq W) s w ops : ring_ok s -> never_three_free (queue s) ops = true ->
  let r := ev_run i386 irq (s, w) ops in
  ring_ok r.1.1 /\ (queue r.1.1, r.2) = fifo_run (queue s) ops.
Proof.
  revert s w. induction ops as [|op ops IH]; intros s w Hs Hn; [done|]. cbn [ev_run fifo_run never_three_free] in *.
  apply andb_true_iff in Hn as [Hop Hn].
  destruct (ev_step_refines i386 irq s w op Hs) as [H1 H2].
  { destruct op; [|done]. rewrite length_queue in Hop. by apply negb_true_iff, Z.eqb_neq in Hop. }
  destruct (ev_step i386 irq (s, w) op) as [[s1 w1] o]. simpl in H1, H2. rewrite <- H2 in *. simpl in Hn.
  destruct (IH s1 w1 H1 Hn) as [H3 H4]. destruct (ev_run i386 irq (s1, w1) ops) as [[s2 w2] os].
  simpl in *. by rewrite <- H4.
Qed.

(** C8: the ring is a first-in first-out queue. Over any sequence of events
    put by the user interface and words read by the guest in which no event
    arrives when exactly three words are free, the device returns the words of
    the abstract bounded queue and holds its contents: events are read back
    whole, in order and unaltered, and an event that does not fit is dropped
    as a whole. *)
Theorem events_refine_fifo {W} i386 (irq : qemu_irq W) s w ops :
  ring_ok s -> never_three_free (queue s) ops = true ->
  let r := ev_run i386 irq (s, w) ops in
  ring_ok r.1.1 /\ (queue r.1.1, r.2) = fifo_run (queue s) ops.
Proof. apply ev_run_refines. Qed.

Lemma events_refine_fifo_witness :
  let r := ev_run false (None : qemu_irq unit) (events_dev_init example_config, ()) [Put 1 30 1; Get; Put 0 0 0; Get; Get; Get] in
  ring_ok r.1.1 /\ (queue r.1.1, r.2) = ([0; 0], [None; Some 1; None; Some 30; Some 1; Some 0]).
Proof.
  apply (events_refine_fifo false (None : qemu_irq unit) (events_dev_init example_config) ()).
  - vm_compute. split; [reflexivity|]. split; split; try discriminate; reflexivity.
  - vm_compute. reflexivity.
Defined.

(** An event that arrives when exactly three words of the ring are free
    passes the full-queue test, fills the ring, and makes it look empty: all
    the words queued before it, and the event itself, are lost. *)
Theorem event_with_three_free_empties_queue {W} (irq : qemu_irq W) s w type code value :
  ring_ok s -> count s = MAX_EVENTS - 3 ->
  queue (enqueue_event irq s w type code value).1 = [].
Proof.
  intros Hs Hc. rewrite enqueue_unfold by done. rewrite (proj2 (Z.ltb_ge _ _)) by lia. cbv zeta. cbn [fst].
  set (sw := if first s =? last s then _ else _).
  assert (ring_ok sw.1 /\ count sw.1 = count s) as [H1 C1] by (subst sw; repeat case_match; done).
  pose proof (push_ring _ type H1) as H2. pose proof (push_ring _ code H2) as H3.
  pose proof (push_count _ type H1 ltac:(lia)) as C2. pose proof (push_count _ code H2 ltac:(lia)) as C3.
  apply push_full; [done|lia].
Qed.

(** 341 events put and two words read leave 1021 words. *)
Definition example_full : events_state * unit :=
  (ev_run false (None : qemu_irq unit) (events_dev_init example_config, ())
    (repeat (Put 1 30 1) 341 ++ [Get; Get])).1.

Lemma event_with_three_free_empties_queue_witness :
  length (queue example_full.1) = 1021%nat
  /\ queue (enqueue_event (None : qemu_irq unit) example_full.1 () 1 30 0).1 = [].
Proof.
  split; [vm_compute; reflexivity|].
  apply (event_with_three_free_empties_queue (None : qemu_irq unit) example_full.1 () 1 30 0).
  - vm_compute. split; [reflexivity|]. split; split; try discriminate; reflexivity.
  - vm_compute. reflexivity.
Defined.

(** ** The interrupt line *)

Section line.
Context {W : Type} (pic : list (qemu_irq W)) `{IrqLines W pic} (n : nat) (irq : qemu_irq W).
Context (Hirq : pic !! n = Some irq) (i386 : bool).

Definition line_up (w : W) : bool := line_level w (Z.of_nat n).

(** Once the driver is ready, queued words mean a raised line. *)
Definition ev_inv (s : events_state) (w : W) : Prop :=
  ring_ok s /\ lines_ok w /\ (state s = STATE_INIT \/ state s = STATE_BUFFERED \/ state s = STATE_LIVE)
  /\ (state s = STATE_INIT -> queue s = [])
  /\ (state s = STATE_LIVE -> queue s <> [] -> line_up w = true).

(** The user interface puts an event; the guest reads or writes a register. *)
Inductive ev_machine_step : events_state * W -> events_state * W -> Prop :=
| step_put s w t c v : ev_machine_step (s, w) (enqueue_event irq s w t c v)
| step_guest_read s w off v s' w' : events_read i386 irq s w off = Some (v, s', w') ->
    ev_machine_step (s, w) (s', w')
| step_guest_write s w off v : ev_machine_step (s, w) (events_write s off v, w).

Lemma line_set w l : lines_ok w -> lines_ok (qemu_set_irq w irq l) /\ line_up (qemu_set_irq w irq l) = nz l.
Proof.
  intros Hw. split; [by eapply set_line_ok|]. unfold line_up. apply (set_line_same pic); [lia| |done].
  by rewrite Nat2Z.id.
Qed.

Lemma enqueue_inv s w t c v : ev_inv s w ->
  ev_inv (enqueue_event irq s w t c v).1 (enqueue_event irq s w t c v).2.
Proof.
  intros (Hs & Hw & Hst & Hinit & Hlive). pose proof (enqueue_ring irq s w t c v Hs) as Hr.
  destruct (Z.ltb_spec (MAX_EVENTS - 3) (count s)) as [Hfull|Hroom].
  { rewrite enqueue_full by (done || lia). done. }
  revert Hr. rewrite enqueue_unfold by done. rewrite (proj2 (Z.ltb_ge _ _)) by done. cbv zeta. cbn [fst snd].
  destruct (line_set w 1 Hw) as [Hw1 Hl1].
  destruct (Z.eqb_spec (first s) (last s)) as [Ee|Ee]; [destruct (Z.eqb_spec (state s) STATE_LIVE) as [Es|Es]|];
    intros Hr; (split; [exact Hr|]); cbn [fst snd state push_word set_ring set_state].
  - split; [exact Hw1|]. split; [done|]. split; [by rewrite Es|]. intros _ _. exact Hl1.
  - split; [done|]. split; [auto|]. split; done.
  - assert (queue s <> []) as Hq by (rewrite queue_nil; done).
    split; [done|]. split; [done|]. split; [tauto|]. intros Es _. by apply Hlive.
Qed.

Lemma dequeue_inv s w v s' w' : ev_inv s w -> dequeue_event i386 irq s w = (v, s', w') -> ev_inv s' w'.
Proof.
  intros (Hs & Hw & Hst & Hinit & Hlive) E. destruct (queue s) as [|x q] eqn:Eq.
  { rewrite dequeue_empty in E by done. injection E as _ <- <-. split_and!; try done; by rewrite Eq. }
  destruct (dequeue_some i386 irq s w x q Hs Eq) as (H1 & H2 & w1 & E1 & H3 & H4).
  rewrite E1 in E. injection E as _ <- <-. destruct (line_set w 0 Hw) as [Hw0 _].
  destruct (line_set (qemu_irq_lower w irq) 1 Hw0) as [Hw1 Hl1].
  assert (lines_ok w1) as Hok.
  { destruct (decide (q = [])) as [Hq|Hq]; [by rewrite H3|]. by destruct (H4 Hq) as [-> | ->]. }
  split; [exact H1|]. split; [exact Hok|]. split; [exact Hst|]. rewrite H2. split.
  - intros Hi. by specialize (Hinit Hi).
  - intros Hi Hq. destruct (H4 Hq) as [-> | ->]; [by apply Hlive|exact Hl1].
Qed.

Lemma read_inv s w off v s' w' : ev_inv s w -> events_read i386 irq s w off = Some (v, s', w') -> ev_inv s' w'.
Proof.
  intros Hi. unfold events_read. cbv zeta.
  set (sw := if (s32 off =? REG_LEN) && _ then _ else _).
  assert (ev_inv sw.1 sw.2) as Hi'.
  { subst sw. case_match; [|done]. destruct Hi as (Hs & Hw & Hst & Hinit & Hlive).
    destruct (line_set w 1 Hw) as [Hw1 Hl1]. destruct (Z.eqb_spec (state s) STATE_BUFFERED) as [Es|Es];
      (split; [done|]); (split; [done|]); (split; [by auto|]); (split; [done|]); intros _ Hq; [done|].
    destruct Hst as [Hst|[Hst|Hst]]; [by apply Hinit in Hst|done|by apply Hlive]. }
  destruct sw as [s1 w1]. simpl in Hi'. repeat case_match; intros E.
  - injection E as E. by eapply dequeue_inv.
  - by injection E as _ <- <-.
  - apply bind_Some in E as (? & _ & E). by injection E as _ <- <-.
  - by injection E as _ <- <-.
Qed.

Lemma machine_step_inv st st' : ev_machine_step st st' -> ev_inv st.1 st.2 -> ev_inv st'.1 st'.2.
Proof.
  intros [s w t c v|s w off v s' w' E|s w off v] Hi; simpl in *.
  - by apply enqueue_inv.
  - by eapply read_inv.
  - unfold events_write. by case_match.
Qed.
End line.

Lemma ev_init_inv {W} (pic : list (qemu_irq W)) `{IrqLines W pic} n c w : lines_ok w ->
  ev_inv pic n (events_dev_init c) w.
Proof.
  intros Hw.
  assert (forall f : events_state -> events_state, (forall s, events (f s) = events s) ->
    forall b s, events (if_then b f s) = events s) as Hif by (intros f Hf []; simpl; auto).
  assert (forall t l s, events (set_all t l s) = events s) as Hset.
  { intros t l. induction l as [|b l IH]; intros s; [done|]. simpl. by rewrite IH. }
  assert (forall t l s, events (clr_all t l s) = events s) as Hclr.
  { intros t l. induction l as [|b l IH]; intros s; [done|]. simpl. by rewrite IH. }
  assert (events (events_dev_init c) = replicate (Z.to_nat MAX_EVENTS) 0) as He.
  { unfold events_dev_init, init_keys. cbv zeta. cbn [events].
    repeat (rewrite Hif; [|intros; cbn [events]; rewrite ?Hif; rewrite ?Hif; auto]); by rewrite ?Hset. }
  assert (ring_ok (events_dev_init c)) as Hr.
  { split; [by rewrite He, length_replicate|]. split; split; done. }
  split; [exact Hr|]. split; [done|]. split; [by left|]. split; [|done]. intros _. by apply queue_nil.
Qed.

(** No interrupt is lost. From initialisation on, through any sequence of
    queued events and guest accesses, whenever the driver has made the device
    live and words are queued the device's interrupt line is raised. *)
Theorem events_live_line_raised {W} (pic : list (qemu_irq W)) `{IrqLines W pic} n irq i386 c w st :
  pic !! n = Some irq -> lines_ok w ->
  rtc (ev_machine_step irq i386) (events_dev_init c, w) st ->
  state st.1 = STATE_LIVE -> queue st.1 <> [] -> line_level st.2 (Z.of_nat n) = true.
Proof.
  intros Hirq Hw Hr. enough (ev_inv pic n st.1 st.2) as (_ & _ & _ & _ & Hl) by exact Hl.
  assert (ev_inv pic n (events_dev_init c, w).1 (events_dev_init c, w).2) as Hi by by apply ev_init_inv.
  revert Hi. induction Hr as [|st1 st2 st3 Hs _ IH]; [done|]. intros Hi. by eapply IH, machine_step_inv.
Qed.

(** ** Capability bitmaps *)

(** Bit [j] of a byte array. *)
Definition byte_bit (bits : list Z) (j : Z) : bool :=
  Z.testbit (default 0 (bits !! Z.to_nat (j / 8))) (j mod 8).

Lemma or_byte_bit bits i mask j : 0 <= j -> (i < length bits)%nat ->
  byte_bit (or_byte i mask bits) j =
    byte_bit bits j || ((j / 8 =? Z.of_nat i) && Z.testbit mask (j mod 8)).
Proof.
  intros Hj Hi. assert (0 <= j / 8) by by apply Z.div_pos. unfold byte_bit, or_byte. destruct (Z.eqb_spec (j / 8) (Z.of_nat i)) as [E|E]; simpl.
  - rewrite E, Nat2Z.id, list_lookup_insert_eq by done. simpl. by rewrite Z.lor_spec.
  - rewrite list_lookup_insert_ne by lia. by rewrite orb_false_r.
Qed.

Lemma length_or_byte bits i mask : length (or_byte i mask bits) = length bits.
Proof. apply length_insert. Qed.

Lemma ff_testbit k : 0 <= k -> Z.testbit 0xff k = (k <? 8).
Proof. intros. change 0xff with (Z.ones 8). rewrite Z.testbit_ones by lia. by destruct (Z.leb_spec 0 k); [|lia]. Qed.

Lemma length_fill_bytes n i bits : length (fill_bytes n i bits) = length bits.
Proof. revert i bits. induction n as [|n IH]; intros i bits; simpl; [done|]. by rewrite IH, length_insert. Qed.

Lemma fill_bytes_bit n i bits j : 0 <= j -> (i + n <= length bits)%nat ->
  byte_bit (fill_bytes n i bits) j =
    byte_bit bits j || ((Z.of_nat i <=? j / 8) && (j / 8 <? Z.of_nat (i + n))).
Proof.
  intros Hj. assert (0 <= j / 8) by by apply Z.div_pos.
  revert i bits. induction n as [|n IH]; intros i bits Hn; simpl.
  - zbits_cases; btauto.
  - rewrite IH by (rewrite length_insert; lia).
    pose proof (Z.mod_pos_bound j 8 ltac:(lia)).
    unfold byte_bit. destruct (decide (j / 8 = Z.of_nat i)) as [E|E].
    + rewrite E, Nat2Z.id, list_lookup_insert_eq by lia. simpl. rewrite ff_testbit by lia. zbits_cases; btauto.
    + rewrite list_lookup_insert_ne by lia. zbits_cases; btauto.
Qed.

Lemma grow_bit bits n j : byte_bit (bits ++ replicate n 0) j = byte_bit bits j.
Proof.
  unfold byte_bit. destruct (decide (Z.to_nat (j / 8) < length bits)%nat).
  - by rewrite lookup_app_l.
  - rewrite lookup_app_r by lia. rewrite (lookup_ge_None_2 bits) by lia.
    destruct (replicate n 0 !! _) eqn:E; [|done]. by apply lookup_replicate in E as [-> _].
Qed.

Lemma land_7 b : b .& 7 = b mod 8.
Proof. change 7 with (Z.ones 3). by rewrite Z.land_ones by lia. Qed.

Lemma maskl_bit b k : 0 <= k < 8 -> Z.testbit (u8 (0xff .<< (b .& 7))) k = (b mod 8 <=? k).
Proof.
  intros Hk. rewrite land_7. pose proof (Z.mod_pos_bound b 8 ltac:(lia)). rewrite wrap_spec, Z.shiftl_spec by lia.
  destruct (Z.leb_spec (b mod 8) k); [rewrite ff_testbit by lia; zbits_cases; done|].
  by rewrite Z.testbit_neg_r, andb_false_r by lia.
Qed.

Lemma maskh_bit b k : 0 <= k < 8 -> Z.testbit (u8 (0xff .>> (7 - (b .& 7)))) k = (k <=? b mod 8).
Proof.
  intros Hk. rewrite land_7. pose proof (Z.mod_pos_bound b 8 ltac:(lia)). rewrite wrap_spec, Z.shiftr_spec by lia.
  rewrite ff_testbit by lia. zbits_cases; done.
Qed.

(** [events_set_bits] sets the bits of the closed range. *)
Lemma set_bits_in_bit bits l h j : 0 <= l <= h -> 0 <= j ->
  byte_bit (set_bits_in bits l h) j = byte_bit bits j || ((l <=? j) && (j <=? h)).
Proof.
  intros Hlh Hj. unfold set_bits_in. cbv zeta.
  set (bits' := if bool_decide (length bits <= _)%nat then _ else bits).
  assert (byte_bit bits' j = byte_bit bits j) as <- by (subst bits'; case_bool_decide; [apply grow_bit|done]).
  assert (Z.to_nat (h / 8) < length bits')%nat as Hlen.
  { subst bits'. case_bool_decide; [rewrite length_app, length_replicate|]; lia. }
  clearbody bits'. pose proof (Z.mod_pos_bound j 8 ltac:(lia)).
  pose proof (Z.mod_pos_bound l 8 ltac:(lia)). pose proof (Z.mod_pos_bound h 8 ltac:(lia)).
  pose proof (Z.div_mod j 8 ltac:(lia)). pose proof (Z.div_mod l 8 ltac:(lia)). pose proof (Z.div_mod h 8 ltac:(lia)).
  assert (0 <= l / 8 <= h / 8) by (split; [apply Z.div_pos; lia|apply Z.div_le_mono; lia]).
  assert (0 <= j / 8) by by apply Z.div_pos.
  case_bool_decide as Hsame.
  - rewrite or_byte_bit, Z.land_spec, maskl_bit, maskh_bit by (done || lia). f_equal. zbits_cases; done.
  - rewrite or_byte_bit by (rewrite ?length_fill_bytes, ?length_or_byte; lia).
    rewrite fill_bytes_bit by (rewrite ?length_or_byte; lia).
    rewrite or_byte_bit, maskl_bit, maskh_bit by lia. rewrite <- !orb_assoc. f_equal. zbits_cases; done.
Qed.

Lemma clr_bit_bit bits b j : 0 <= b -> 0 <= j ->
  byte_bit (let ii := Z.to_nat (b / 8) in
    if bool_decide (ii < length bits)%nat then
      <[ii := default 0 (bits !! ii) .& u8 (.~ u8 (0x01 .<< (b .& 7)))]> bits else bits) j
  = byte_bit bits j && negb (j =? b).
Proof.
  intros Hb Hj. cbv zeta. pose proof (Z.mod_pos_bound j 8 ltac:(lia)). pose proof (Z.mod_pos_bound b 8 ltac:(lia)).
  pose proof (Z.div_mod j 8 ltac:(lia)). pose proof (Z.div_mod b 8 ltac:(lia)).
  assert (0 <= j / 8) by by apply Z.div_pos. assert (0 <= b / 8) by by apply Z.div_pos.
  unfold byte_bit. case_bool_decide as Hlen.
  - destruct (decide (j / 8 = b / 8)) as [E|E].
    + rewrite E, list_lookup_insert_eq by done. simpl. rewrite land_7, Z.land_spec.
      rewrite !wrap_spec, Z.lnot_spec, wrap_spec, shiftl_1_testbit by lia. f_equal. zbits_cases; done.
    + rewrite list_lookup_insert_ne by lia. destruct (Z.eqb_spec j b) as [->|]; [done|]. by rewrite andb_true_r.
  - destruct (Z.eqb_spec j b) as [->|]; [|by rewrite andb_true_r].
    rewrite lookup_ge_None_2 by lia. simpl. by rewrite Z.bits_0.
Qed.

(** The bit of code [k] in the bitmap of a type. *)
Definition has_bit (s : events_state) (type k : Z) : bool :=
  byte_bit (default [] (ev_bits s !! Z.to_nat type)) k.

(** The device has a bitmap for every type. *)
Definition types_ok (s : events_state) : Prop := length (ev_bits s) = Z.to_nat (EV_MAX + 1).
Definition is_type (t : Z) : Prop := 0 <= t <= EV_MAX.

Lemma set_bits_types s t l h : types_ok s -> types_ok (events_set_bits s t l h).
Proof. unfold types_ok. simpl. by rewrite length_alter. Qed.

Lemma clr_bit_types s t b : types_ok s -> types_ok (events_clr_bit s t b).
Proof. unfold types_ok. simpl. by rewrite length_alter. Qed.

Lemma has_alter s t f t' k : types_ok s -> is_type t -> is_type t' ->
  has_bit (set_bits_of (alter f (Z.to_nat t) (ev_bits s)) s) t' k =
    if t =? t' then byte_bit (f (default [] (ev_bits s !! Z.to_nat t'))) k else has_bit s t' k.
Proof.
  intros Hs Ht Ht'. unfold is_type in *. unfold has_bit. simpl. destruct (Z.eqb_spec t t') as [->|].
  - rewrite list_lookup_alter_eq.
    destruct (lookup_lt_is_Some_2 (ev_bits s) (Z.to_nat t')) as [x ->]; [|done].
    unfold types_ok in Hs. rewrite Hs. unfold EV_MAX in *. lia.
  - by rewrite list_lookup_alter_ne by lia.
Qed.

Lemma has_set_bits s t l h t' k : types_ok s -> is_type t -> is_type t' -> 0 <= l <= h -> 0 <= k ->
  has_bit (events_set_bits s t l h) t' k = has_bit s t' k || ((t =? t') && ((l <=? k) && (k <=? h))).
Proof.
  intros. unfold events_set_bits. rewrite has_alter by done. destruct (t =? t'); [|by rewrite orb_false_r].
  by apply set_bits_in_bit.
Qed.

Lemma has_clr_bit s t b t' k : types_ok s -> is_type t -> is_type t' -> 0 <= b -> 0 <= k ->
  has_bit (events_clr_bit s t b) t' k = has_bit s t' k && negb ((t =? t') && (k =? b)).
Proof.
  intros. unfold events_clr_bit. rewrite has_alter by done. destruct (t =? t'); [|by rewrite andb_true_r].
  by apply clr_bit_bit.
Qed.

(** Membership of a list of codes. *)
Definition mem (k : Z) (l : list Z) : bool := existsb (Z.eqb k) l.

Lemma has_set_all s t l t' k : types_ok s -> is_type t -> is_type t' -> Forall (Z.le 0) l -> 0 <= k ->
  types_ok (set_all t l s) /\ has_bit (set_all t l s) t' k = has_bit s t' k || ((t =? t') && mem k l).
Proof.
  intros Hs Ht Ht' Hl Hk. revert s Hs. induction Hl as [|b l Hb Hl IH]; intros s Hs; simpl.
  - by rewrite andb_false_r, orb_false_r.
  - destruct (IH _ (set_bits_types s t b b Hs)) as [H1 H2]. split; [exact H1|].
    etransitivity; [exact H2|]. rewrite has_set_bits by (done || lia).
    replace ((b <=? k) && (k <=? b)) with (k =? b) by (zbits_cases; done). fold (mem k l). btauto.
Qed.

Lemma has_clr_all s t l t' k : types_ok s -> is_type t -> is_type t' -> Forall (Z.le 0) l -> 0 <= k ->
  types_ok (clr_all t l s) /\ has_bit (clr_all t l s) t' k = has_bit s t' k && negb ((t =? t') && mem k l).
Proof.
  intros Hs Ht Ht' Hl Hk. revert s Hs. induction Hl as [|b l Hb Hl IH]; intros s Hs; simpl.
  - by rewrite andb_false_r, andb_true_r.
  - destruct (IH _ (clr_bit_types s t b Hs)) as [H1 H2]. split; [exact H1|].
    etransitivity; [exact H2|]. rewrite has_clr_bit by done. fold (mem k l). btauto.
Qed.

Definition DPAD : list Z := [KEY_DOWN; KEY_UP; KEY_LEFT; KEY_RIGHT; KEY_CENTER].
Definition BASE_KEYS : list Z :=
  [KEY_HOME; KEY_BACK; KEY_SEND; KEY_END; KEY_SOFT1; KEY_VOLUMEUP; KEY_VOLUMEDOWN; KEY_SOFT2; KEY_POWER; KEY_SEARCH].

Definition has_camera (c : AndroidHwConfig) : bool :=
  negb (String.eqb (hw_camera_back c) "none") || negb (String.eqb (hw_camera_front c) "none").

(** The keys a configuration is meant to offer. *)
Definition offers_key (c : AndroidHwConfig) (k : Z) : bool :=
  mem k BASE_KEYS || (hw_dPad c && mem k DPAD) || (hw_trackBall c && (k =? BTN_MOUSE))
  || (androidHwConfig_isScreenTouch c && (k =? BTN_TOUCH)) || (has_camera c && (k =? KEY_CAMERA))
  || (hw_keyboard c && ((1 <=? k) && (k <=? 0xff) || (0x160 <=? k) && (k <=? 0x1ff)) && negb (mem k DPAD)).

(** [f] changes the key bitmap bit by bit as [g] says. *)
Definition key_effect (f : events_state -> events_state) (g : Z -> bool -> bool) : Prop :=
  forall s, types_ok s -> types_ok (f s) /\ forall k, 0 <= k -> has_bit (f s) EV_KEY k = g k (has_bit s EV_KEY k).

Lemma key_comp f1 g1 f2 g2 : key_effect f1 g1 -> key_effect f2 g2 ->
  key_effect (fun s => f2 (f1 s)) (fun k b => g2 k (g1 k b)).
Proof.
  intros H1 H2 s Hs. destruct (H1 s Hs) as [T1 B1]. destruct (H2 _ T1) as [T2 B2]. split; [exact T2|].
  intros k Hk. by rewrite B2, B1.
Qed.

Lemma key_if c f g : key_effect f g -> key_effect (if_then c f) (fun k b => if c then g k b else b).
Proof. intros H s Hs. destruct c; simpl; [by apply H|done]. Qed.

Lemma key_set_all t l : is_type t -> Forall (Z.le 0) l ->
  key_effect (set_all t l) (fun k b => b || ((t =? EV_KEY) && mem k l)).
Proof.
  intros Ht Hl s Hs. split.
  - by apply (has_set_all s t l EV_KEY 0).
  - intros k Hk. by apply has_set_all.
Qed.

Lemma key_clr_all t l : is_type t -> Forall (Z.le 0) l ->
  key_effect (clr_all t l) (fun k b => b && negb ((t =? EV_KEY) && mem k l)).
Proof.
  intros Ht Hl s Hs. split.
  - by apply (has_clr_all s t l EV_KEY 0).
  - intros k Hk. by apply has_clr_all.
Qed.

Lemma key_set_bits t l h : is_type t -> 0 <= l <= h ->
  key_effect (fun s => events_set_bits s t l h) (fun k b => b || ((t =? EV_KEY) && ((l <=? k) && (k <=? h)))).
Proof. intros Ht Hl s Hs. split; [by apply set_bits_types|]. intros k Hk. by apply has_set_bits. Qed.

#[local] Ltac key_side := unfold is_type; apply (bool_decide_unpack _); vm_compute; exact I.

Lemma if_or (b x y : bool) : (if b then x || y else x) = x || (b && y).
Proof. destruct b; btauto. Qed.

Lemma init_keys_effect c : key_effect (init_keys c) (fun k b =>
  let r := b || mem k BASE_KEYS || (hw_dPad c && mem k DPAD) || (hw_trackBall c && (k =? BTN_MOUSE))
    || (androidHwConfig_isScreenTouch c && (k =? BTN_TOUCH)) || (has_camera c && (k =? KEY_CAMERA)) in
  if hw_keyboard c then
    let r := r || ((1 <=? k) && (k <=? 0xff)) || ((0x160 <=? k) && (k <=? 0x1ff)) in
    if hw_dPad c then r else r && negb (mem k DPAD)
  else r).
Proof.
  pose proof (key_set_bits EV_SYN EV_KEY EV_KEY ltac:(key_side) ltac:(key_side)) as H0.
  pose proof (key_set_all EV_KEY BASE_KEYS ltac:(key_side) ltac:(key_side)) as H1.
  pose proof (key_if (hw_dPad c) _ _ (key_set_all EV_KEY DPAD ltac:(key_side) ltac:(key_side))) as H2.
  pose proof (key_if (hw_trackBall c) _ _ (key_set_all EV_KEY [BTN_MOUSE] ltac:(key_side) ltac:(key_side))) as H3.
  pose proof (key_if (androidHwConfig_isScreenTouch c) _ _
    (key_set_all EV_KEY [BTN_TOUCH] ltac:(key_side) ltac:(key_side))) as H4.
  pose proof (key_if (has_camera c) _ _ (key_set_all EV_KEY [KEY_CAMERA] ltac:(key_side) ltac:(key_side))) as H5.
  pose proof (key_if (hw_keyboard c) _ _ (key_comp _ _ _ _ (key_comp _ _ _ _
    (key_set_bits EV_KEY 1 0xff ltac:(key_side) ltac:(key_side))
    (key_set_bits EV_KEY 0x160 0x1ff ltac:(key_side) ltac:(key_side)))
    (key_if (negb (hw_dPad c)) _ _ (key_clr_all EV_KEY DPAD ltac:(key_side) ltac:(key_side))))) as H6.
  pose proof (key_comp _ _ _ _ (key_comp _ _ _ _ (key_comp _ _ _ _ (key_comp _ _ _ _ (key_comp _ _ _ _
    (key_comp _ _ _ _ H0 H1) H2) H3) H4) H5) H6) as H.
  intros s Hs. destruct (H s Hs) as [T B]. split; [exact T|]. intros k Hk.
  etransitivity; [exact (B k Hk)|]. cbv zeta. change (EV_SYN =? EV_KEY) with false.
  change (EV_KEY =? EV_KEY) with true. rewrite ?andb_true_l, ?andb_false_l.
  change (mem k [BTN_MOUSE]) with ((k =? BTN_MOUSE) || false).
  change (mem k [BTN_TOUCH]) with ((k =? BTN_TOUCH) || false).
  change (mem k [KEY_CAMERA]) with ((k =? KEY_CAMERA) || false).
  generalize (mem k BASE_KEYS) (mem k DPAD) (k =? BTN_MOUSE) (k =? BTN_TOUCH) (k =? KEY_CAMERA)
    ((1 <=? k) && (k <=? 0xff)) ((0x160 <=? k) && (k <=? 0x1ff)) (has_bit s EV_KEY k).
  intros base dpad mouse touch cam r1 r2 b. rewrite !orb_false_r, !if_or.
  destruct (hw_keyboard c), (hw_dPad c); simpl; btauto.
Qed.

Lemma offers_key_alt c k b : b = false ->
  (let r := b || mem k BASE_KEYS || (hw_dPad c && mem k DPAD) || (hw_trackBall c && (k =? BTN_MOUSE))
    || (androidHwConfig_isScreenTouch c && (k =? BTN_TOUCH)) || (has_camera c && (k =? KEY_CAMERA)) in
  if hw_keyboard c then
    let r := r || ((1 <=? k) && (k <=? 0xff)) || ((0x160 <=? k) && (k <=? 0x1ff)) in
    if hw_dPad c then r else r && negb (mem k DPAD)
  else r) = offers_key c k.
Proof.
  intros ->. unfold offers_key. cbv zeta. destruct (mem k DPAD) eqn:E; [|destruct (hw_keyboard c), (hw_dPad c); simpl; btauto].
  assert (k = KEY_DOWN \/ k = KEY_UP \/ k = KEY_LEFT \/ k = KEY_RIGHT \/ k = KEY_CENTER) as Hk.
  { apply existsb_exists in E as (x & Hx & Hk%Z.eqb_eq). subst. simpl in Hx. naive_solver. }
  destruct Hk as [->|[->|[->|[-> | ->]]]]; simpl; destruct (hw_keyboard c), (hw_dPad c); simpl; try done;
    rewrite ?andb_false_r, ?orb_false_r, ?orb_true_r; done.
Qed.

(** The rest of the initialisation leaves the key bitmap alone. *)
Lemma events_dev_init_keys c k : 0 <= k ->
  has_bit (events_dev_init c) EV_KEY k = offers_key c k.
Proof.
  intros Hk. unfold events_dev_init. cbv zeta.
  set (s0 := mkEv 0 0 (replicate (Z.to_nat MAX_EVENTS) 0) 0 0 0 [] (replicate (Z.to_nat (EV_MAX + 1)) []) []).
  assert (types_ok s0) as T0 by done.
  pose proof (key_if (hw_trackBall c) _ _ (key_comp _ _ _ _
    (key_set_bits EV_SYN EV_REL EV_REL ltac:(key_side) ltac:(key_side))
    (key_set_bits EV_REL REL_X REL_Y ltac:(key_side) ltac:(key_side)))) as H1.
  assert (key_effect (fun s => mkEv (pending s) (page s) (events s) (first s) (last s) (state s) (ev_name s)
    (ev_bits s) (init_abs c)) (fun k b => b)) as Habs by (intros s Hs; done).
  pose proof (key_if (negb (androidHwConfig_isScreenNoTouch c)) _ _ (key_comp _ _ _ _ (key_comp _ _ _ _ (key_comp _ _ _ _
    (key_set_bits EV_SYN EV_ABS EV_ABS ltac:(key_side) ltac:(key_side))
    (key_set_bits EV_ABS ABS_X ABS_Z ltac:(key_side) ltac:(key_side)))
    (key_if (androidHwConfig_isScreenMultiTouch c) _ _ (key_set_all EV_ABS [ABS_MT_SLOT; ABS_MT_POSITION_X;
       ABS_MT_POSITION_Y; ABS_MT_TRACKING_ID; ABS_MT_TOUCH_MAJOR; ABS_MT_PRESSURE] ltac:(key_side) ltac:(key_side))))
    Habs)) as H2.
  pose proof (key_if (hw_keyboard c && hw_keyboard_lid c) _ _ (key_comp _ _ _ _
    (key_set_bits EV_SYN EV_SW EV_SW ltac:(key_side) ltac:(key_side))
    (key_set_bits EV_SW 0 0 ltac:(key_side) ltac:(key_side)))) as H3.
  destruct (key_comp _ _ _ _ (key_comp _ _ _ _ (key_comp _ _ _ _ (init_keys_effect c) H1) H2) H3 s0 T0) as [_ B].
  etransitivity; [exact (B k Hk)|]. rewrite offers_key_alt.
  - change (EV_SYN =? EV_KEY) with false. change (EV_REL =? EV_KEY) with false.
    change (EV_ABS =? EV_KEY) with false. change (EV_SW =? EV_KEY) with false. simpl andb.
    rewrite !orb_false_r. by repeat case_match.
  - unfold has_bit, s0. simpl. unfold byte_bit. rewrite lookup_nil. apply Z.bits_0.
Qed.

(** The key bitmap the device shows the guest contains exactly the keys
    the hardware configuration offers: the ten basic keys, the D-pad, the
    trackball button, the touch button and the camera key when the
    configuration has them, and with a keyboard the two ranges of key codes
    without the D-pad's unless there is one. *)
Theorem init_advertises_configured_keys c k :
  0 <= k -> has_bit (events_dev_init c) EV_KEY k = offers_key c k.
Proof. apply events_dev_init_keys. Qed.

Lemma init_advertises_configured_keys_witness :
  has_bit (events_dev_init example_config) EV_KEY BTN_TOUCH = true
  /\ has_bit (events_dev_init example_config) EV_KEY BTN_MOUSE = false.
Proof.
  split.
  - rewrite (init_advertises_configured_keys example_config BTN_TOUCH); [reflexivity|done].
  - rewrite (init_advertises_configured_keys example_config BTN_MOUSE); [reflexivity|done].
Defined.

(** [events_set_bits] sets exactly the bits from [bitl] to [bith] in the
    bitmap of its type, growing it as needed, and changes no other bit of any
    bitmap. *)
Theorem set_bits_sets_range s type bitl bith type' k :
  types_ok s -> is_type type -> is_type type' -> 0 <= bitl <= bith -> 0 <= k ->
  types_ok (events_set_bits s type bitl bith)
  /\ has_bit (events_set_bits s type bitl bith) type' k =
       has_bit s type' k || ((type =? type') && ((bitl <=? k) && (k <=? bith))).
Proof. intros. split; [by apply set_bits_types|by apply has_set_bits]. Qed.

Lemma set_bits_sets_range_witness :
  types_ok (events_set_bits (events_dev_init example_config) EV_KEY 0x160 0x1ff)
  /\ has_bit (events_set_bits (events_dev_init example_config) EV_KEY 0x160 0x1ff) EV_KEY 0x1ff = true.
Proof.
  apply (set_bits_sets_range (events_dev_init example_config) EV_KEY 0x160 0x1ff EV_KEY 0x1ff).
  - reflexivity.
  - split; discriminate.
  - split; discriminate.
  - split; discriminate.
  - discriminate.
Defined.

(** An event is queued before the driver is ready; then the driver asks for
    the length of the axis page. *)
Definition example_irq : qemu_irq goldfish_int_state := Some (mkIRQ goldfish_int_set_irq 4).
Definition example_put : events_state * goldfish_int_state :=
  enqueue_event example_irq (events_dev_init example_config) goldfish_interrupt_init EV_KEY KEY_HOME 1.
Definition example_page : events_state * goldfish_int_state :=
  (events_write example_put.1 REG_SET_PAGE PAGE_ABSDATA, example_put.2).
Definition example_live : events_state * goldfish_int_state :=
  let '(_, s, w) := default (0, example_page.1, example_page.2)
    (events_read false example_irq example_page.1 example_page.2 REG_LEN) in (s, w).

Lemma events_live_line_raised_witness :
  state example_live.1 = STATE_LIVE /\ queue example_live.1 = [EV_KEY; KEY_HOME; 1]
  /\ Z.testbit (level example_live.2) 4 = true.
Proof.
  split; [vm_compute; reflexivity|]. split; [vm_compute; reflexivity|].
  apply (events_live_line_raised (goldfish_int_lines 32) (H := int_irq_lines 32 ltac:(lia)) 4 example_irq false
    example_config goldfish_interrupt_init example_live).
  - reflexivity.
  - exact GoldfishInt.init_inv.
  - eapply rtc_l; [apply (step_put example_irq false (events_dev_init example_config) goldfish_interrupt_init
      EV_KEY KEY_HOME 1)|].
    eapply rtc_l; [apply (step_guest_write example_irq false example_put.1 example_put.2 REG_SET_PAGE PAGE_ABSDATA)|].
    apply rtc_once, (step_guest_read _ _ _ _ REG_LEN (get_page_len example_page.1)). vm_compute. reflexivity.
  - vm_compute. reflexivity.
  - vm_compute. discriminate.
Defined.

(** ** Snapshots *)

Lemma words_bytes_words l : Forall (in_u 32) l -> words_of_bytes (words_to_bytes l) = l.
Proof.
  induction 1 as [|v l Hv _ IH]; [done|]. unfold words_to_bytes in *. cbn [fmap list_fmap concat le32 app words_of_bytes].
  f_equal; [|exact IH]. rewrite <- (wrap_small 32 v Hv) at 5. zbits.
Qed.

Lemma length_words_to_bytes l : length (words_to_bytes l) = (4 * length l)%nat.
Proof. induction l as [|v l IH]; [done|]. change (length (le32 v ++ words_to_bytes l) = 4 * length (v :: l))%nat. rewrite length_app, IH. simpl. lia. Qed.

Lemma words_to_bytes_range l : Forall (in_u 8) (words_to_bytes l).
Proof.
  induction l as [|v l IH]; [constructor|]. unfold words_to_bytes in *. simpl.
  repeat (constructor; [apply wrap_range; lia|]). exact IH.
Qed.

(** The members hold values of their C types. *)
Definition ev_typed (s : events_state) : Prop :=
  in_s 32 (pending s) /\ in_s 32 (page s) /\ Forall (in_u 32) (events s) /\ in_u 32 (state s).

(** A snapshot of the input device loaded into a device of the same
    configuration restores its page, its ring, its indices and its state; the
    queue of unread words is the same. *)
Theorem events_save_load {F G} `{WriterLaws F} `{ReaderLaws G} (f : F) (g : G) s s0 rest :
  w_ok f -> r_ok g -> r_in g = enc_struct events_state_fields s ++ rest ->
  ring_ok s -> ring_ok s0 -> ev_typed s ->
  w_out (events_state_save f s) = w_out f ++ enc_struct events_state_fields s
  /\ exists g', events_state_load g s0 EVENTS_STATE_SAVE_VERSION
       = (0, mkEv (pending s) (page s) (events s) (first s) (last s) (state s) (ev_name s0) (ev_bits s0) (abs_info s0), g')
     /\ r_in g' = rest.
Proof.
  intros Hf Hg Ein (Hn & Hfi & Hla) (Hn0 & _) (Hpe & Hpa & Hev & Hst).
  assert (Forall (field_ok s) events_state_fields) as Hok.
  { unfold events_state_fields. rewrite !Forall_cons, Forall_nil. unfold MAX_EVENTS in *.
    split_and!; simpl; try (apply wrap_range; lia); try (unfold in_u; lia); try done.
    split; [rewrite length_words_to_bytes, Hn; lia|apply words_to_bytes_range]. }
  split; [by apply put_struct_emits|].
  destruct (get_struct_consumes g events_state_fields s s0 rest Hg Hok Ein) as (g' & E & _ & Er).
  exists g'. split; [|exact Er]. unfold events_state_load. cbn [negb Z.eqb EVENTS_STATE_SAVE_VERSION Pos.eqb].
  etransitivity; [exact E|]. f_equal. f_equal. simpl. unfold set_state, set_ring, set_first, set_page. simpl.
  rewrite !swrap_wrap_id by (done || lia). rewrite drop_ge by (rewrite !length_words_to_bytes, Hn, Hn0; lia).
  by rewrite app_nil_r, words_bytes_words.
Qed.

Lemma events_save_load_witness :
  exists s' g', events_state_load (mem_in (enc_struct events_state_fields example_live.1))
      (events_dev_init example_config) EVENTS_STATE_SAVE_VERSION = (0, s', g')
    /\ queue s' = [EV_KEY; KEY_HOME; 1].
Proof.
  edestruct (events_save_load (mem_out []) (mem_in (enc_struct events_state_fields example_live.1)) example_live.1
    (events_dev_init example_config) []) as (_ & g' & E & _); [..|eexists _, g'; split; [exact E|]].
  - exact I.
  - exact I.
  - by rewrite app_nil_r.
  - vm_compute. split; [reflexivity|]. split; split; try discriminate; reflexivity.
  - vm_compute. split; [reflexivity|]. split; split; try discriminate; reflexivity.
  - split; [split; [discriminate|reflexivity]|]. split; [split; [discriminate|reflexivity]|].
    split; [|split; [discriminate|reflexivity]]. apply (bool_decide_unpack _). vm_compute. exact I.
  - vm_compute. reflexivity.
Defined.
