(* ===== verification/MultiTouch.v ===== *)
(** The multi-touch screen: android/multitouch-screen.c, the message handlers
    of android/multitouch-port.c and the event hook of
    android/user-events-qemu.c. Pointers reported by the mouse or by a phone
    are kept in ten slots and told to the guest as input events; changes of
    the framebuffer are collected in one rectangle and sent to the phone one
    frame at a time. *)
From stdpp Require Import gmap.
From S2P Require Import Prelude Irq GoldfishEvents.
Open Scope list_scope.

(** ** State *)

Definition MTS_POINTER_UP : Z := -1.
Definition MTS_POINTER_MOUSE : Z := -2.
Definition SYN_REPORT : Z := 0.
Definition MTFB_JPEG : Z := 1.

Inductive MTESource := MTES_MOUSE | MTES_DEVICE.

Record MTSPointerState := mkPtr { tracking_id : Z; ptr_x : Z; ptr_y : Z; ptr_pressure : Z }.

(** The constant [header_size] is left out. *)
Record MTFrameHeader := mkHeader {
  disp_width : Z; disp_height : Z;
  hdr_x : Z; hdr_y : Z; hdr_w : Z; hdr_h : Z;
  hdr_bpl : Z; hdr_bpp : Z; hdr_format : Z;
}.

(** [current_fb] is the framebuffer pointer; [mtsp] and [ds] are arguments
    of the operations that use them; [mt_initialized] is the flag
    [_is_mt_initialized]. *)
Record MTSState := mkMTS {
  tracked_ptr_num : Z;
  current_slot : Z;
  touch_major : Z;
  tracked_pointers : list MTSPointerState;
  fb_header : MTFrameHeader;
  fb_transfer_in_progress : bool;
  ydir : Z;
  current_fb : option Z;
  mt_initialized : bool;
}.

Definition set_pointers (n slot major : Z) (l : list MTSPointerState) (s : MTSState) : MTSState :=
  mkMTS n slot major l (fb_header s) (fb_transfer_in_progress s) (ydir s) (current_fb s) (mt_initialized s).
Definition set_fb (h : MTFrameHeader) (busy : bool) (s : MTSState) : MTSState :=
  mkMTS (tracked_ptr_num s) (current_slot s) (touch_major s) (tracked_pointers s) h busy (ydir s) (current_fb s)
    (mt_initialized s).
Definition set_surface (yd : Z) (fb : option Z) (s : MTSState) : MTSState :=
  mkMTS (tracked_ptr_num s) (current_slot s) (touch_major s) (tracked_pointers s) (fb_header s)
    (fb_transfer_in_progress s) yd fb (mt_initialized s).
Definition set_rect (x y w h : Z) (hd : MTFrameHeader) : MTFrameHeader :=
  mkHeader (disp_width hd) (disp_height hd) x y w h (hdr_bpl hd) (hdr_bpp hd) (hdr_format hd).
Definition set_format (f : Z) (hd : MTFrameHeader) : MTFrameHeader :=
  mkHeader (disp_width hd) (disp_height hd) (hdr_x hd) (hdr_y hd) (hdr_w hd) (hdr_h hd) (hdr_bpl hd) (hdr_bpp hd) f.
Definition set_display (dw dh bpl bpp : Z) (hd : MTFrameHeader) : MTFrameHeader :=
  mkHeader dw dh (hdr_x hd) (hdr_y hd) (hdr_w hd) (hdr_h hd) bpl bpp (hdr_format hd).

(** The members of [DisplaySurface] that are read. *)
Record DisplaySurface := mkSurface {
  surface_width : Z; surface_height : Z; linesize : Z; bytes_per_pixel : Z; surface_data : Z;
}.

(** The static descriptor before [multitouch_init]. *)
Definition MTSState_zero : MTSState :=
  mkMTS 0 0 0 (replicate (Z.to_nat MTS_POINTERS_NUM) (mkPtr 0 0 0 0)) (mkHeader 0 0 0 0 0 0 0 0 0) false 0 None false.

Definition multitouch_init (ds : DisplaySurface) (s : MTSState) : MTSState :=
  if negb (mt_initialized s) then
    mkMTS 0 (-1) 0 (replicate (Z.to_nat MTS_POINTERS_NUM) (mkPtr MTS_POINTER_UP 0 0 0))
      (mkHeader (surface_width ds) (surface_height ds) 0 0 0 0 (linesize ds) (bytes_per_pixel ds) 0) false 0 None true
  else s.

(** ** Pointers *)

(** An event as it is pushed: type, code, value. An operation returns the
    state and the events it pushes, in their order. *)
Abbreviation event := (Z * Z * Z)%type.

Fixpoint pointer_index (l : list MTSPointerState) (index tid : Z) : Z :=
  match l with
  | [] => -1
  | p :: l => if tracking_id p =? tid then index else pointer_index l (index + 1) tid
  end.

Definition _mtsstate_get_pointer_index (s : MTSState) (tid : Z) : Z := pointer_index (tracked_pointers s) 0 tid.

Definition _mtsstate_get_available_pointer_index (s : MTSState) : Z := _mtsstate_get_pointer_index s MTS_POINTER_UP.

(** The slot is selected only when it is not the one selected last. *)
Definition select_slot (s : MTSState) (slot : Z) : list event :=
  if negb (slot =? current_slot s) then [(EV_ABS, ABS_MT_SLOT, slot)] else [].

Definition _mts_pointer_down (s : MTSState) (tid x y pressure : Z) : MTSState * list event :=
  let slot := _mtsstate_get_available_pointer_index s in
  if 0 <=? slot then
    let major := s32 (touch_major s + 1) in
    (set_pointers (tracked_ptr_num s + 1) slot major
       (<[Z.to_nat slot := mkPtr tid x y pressure]> (tracked_pointers s)) s,
     select_slot s slot
     ++ [(EV_ABS, ABS_MT_TRACKING_ID, slot); (EV_ABS, ABS_MT_TOUCH_MAJOR, major); (EV_ABS, ABS_MT_PRESSURE, pressure);
         (EV_ABS, ABS_MT_POSITION_X, x); (EV_ABS, ABS_MT_POSITION_Y, y); (EV_SYN, SYN_REPORT, 0)])
  else (s, []).

(** The [assert] on the number of pointers is the [CpuAbort]. *)
Definition _mts_pointer_up (s : MTSState) (slot : Z) : outcome (MTSState * list event) :=
  let evs := select_slot s slot ++ [(EV_ABS, ABS_MT_TRACKING_ID, -1); (EV_SYN, SYN_REPORT, 0)] in
  let n := tracked_ptr_num s - 1 in
  if 0 <=? n then
    Ret (set_pointers n (-1) (touch_major s)
           (<[Z.to_nat slot := mkPtr MTS_POINTER_UP 0 0 0]> (tracked_pointers s)) s, evs)
  else CpuAbort.

(** The pointer after a move; a pressure of 0 is not taken. *)
Definition moved (p : MTSPointerState) (x y pressure : Z) : MTSPointerState :=
  mkPtr (tracking_id p) x y
    (if negb (ptr_pressure p =? pressure) && negb (pressure =? 0) then pressure else ptr_pressure p).

(** [slot] is in the array. *)
Definition _mts_pointer_move (s : MTSState) (slot x y pressure : Z) : outcome (MTSState * list event) :=
  match tracked_pointers s !! Z.to_nat slot with
  | None => OutOfBounds
  | Some p =>
      if (ptr_x p =? x) && (ptr_y p =? y) then Ret (s, [])
      else
        Ret (set_pointers (tracked_ptr_num s) slot (touch_major s)
               (<[Z.to_nat slot := moved p x y pressure]> (tracked_pointers s)) s,
             select_slot s slot
             ++ (if negb (ptr_pressure p =? pressure) && negb (pressure =? 0)
                 then [(EV_ABS, ABS_MT_PRESSURE, pressure)] else [])
             ++ (if negb (ptr_x p =? x) then [(EV_ABS, ABS_MT_POSITION_X, x)] else [])
             ++ (if negb (ptr_y p =? y) then [(EV_ABS, ABS_MT_POSITION_Y, y)] else [])
             ++ [(EV_SYN, SYN_REPORT, 0)])
  end.

Definition multitouch_update_pointer (s : MTSState) (source : MTESource) (tid x y pressure : Z) :
    outcome (MTSState * list event) :=
  let tid := match source with MTES_MOUSE => MTS_POINTER_MOUSE | MTES_DEVICE => tid end in
  let slot := _mtsstate_get_pointer_index s tid in
  if slot <? 0 then
    if pressure =? 0 then Ret (s, []) else Ret (_mts_pointer_down s tid x y pressure)
  else if pressure =? 0 then _mts_pointer_up s slot
  else _mts_pointer_move s slot x y pressure.

(** ** Messages from the phone *)

Definition SDKCTL_MT_MOVE : Z := 1.
Definition SDKCTL_MT_FISRT_DOWN : Z := 2.
Definition SDKCTL_MT_LAST_UP : Z := 3.
Definition SDKCTL_MT_POINTER_DOWN : Z := 4.
Definition SDKCTL_MT_POINTER_UP : Z := 5.
Definition SDKCTL_MT_FB_UPDATE_RECEIVED : Z := 7.
Definition SDKCTL_MT_FB_UPDATE_HANDLED : Z := 8.

(** The size of an [AndroidMTEvent]. *)
Definition MT_EVENT_SIZE : Z := 16.

Record AndroidMTEvent := mkMTEvent { mt_pid : Z; mt_x : Z; mt_y : Z; mt_pressure : Z }.

(** The [int] at index [i] of the message's data, on a little-endian host. *)
Definition msg_int (data : list Z) (i : nat) : option Z := s32 <$> words_of_bytes data !! i.

(** [((const AndroidMTEvent* )msg_data)[n]]; [None] reads past the data. *)
Definition msg_event (data : list Z) (n : nat) : option AndroidMTEvent :=
  pid ← msg_int data (4 * n); x ← msg_int data (4 * n + 1);
  y ← msg_int data (4 * n + 2); p ← msg_int data (4 * n + 3);
  Some (mkMTEvent pid x y p).

Definition or_oob {A} (o : option A) : outcome A := match o with Some a => Ret a | None => OutOfBounds end.

(** [multitouch_update_pointer] for the phone, after what was pushed before. *)
Definition device_update (st : MTSState * list event) (tid x y pressure : Z) : outcome (MTSState * list event) :=
  r ← multitouch_update_pointer st.1 MTES_DEVICE tid x y pressure;
  Ret (r.1, st.2 ++ r.2).

Definition _on_move (s : MTSState) (data : list Z) (pointers_count : nat) : outcome (MTSState * list event) :=
  foldM (fun st n =>
    e ← or_oob (msg_event data n);
    device_update st (mt_pid e) (mt_x e) (mt_y e) (mt_pressure e)) (s, []) (seq 0 pointers_count).

Definition _on_down (s : MTSState) (data : list Z) : outcome (MTSState * list event) :=
  e ← or_oob (msg_event data 0);
  device_update (s, []) (mt_pid e) (mt_x e) (mt_y e) (mt_pressure e).

Definition _on_up (s : MTSState) (data : list Z) : outcome (MTSState * list event) :=
  pid ← or_oob (msg_int data 0);
  device_update (s, []) pid 0 0 0.

(** [msg_size / sizeof(AndroidMTEvent) && !(msg_size % sizeof(AndroidMTEvent))]. *)
Definition whole_events (msg_size : Z) : bool :=
  nz (msg_size / MT_EVENT_SIZE) && (msg_size mod MT_EVENT_SIZE =? 0).

(** ** The framebuffer *)

(** What is sent to the phone: the header, the framebuffer and its direction. *)
Abbreviation frame := (MTFrameHeader * option Z * Z)%type.

(** [port_ready] is [sdkctl_socket_is_port_ready]. The result is the header
    that is sent and the one left, [None] when the port is not connected. *)
Definition mts_port_send_frame (port_ready : bool) (fmt : MTFrameHeader) : option (MTFrameHeader * MTFrameHeader) :=
  if port_ready then
    let fmt := set_format MTFB_JPEG fmt in Some (fmt, set_rect 0 0 0 0 fmt)
  else None.

(** The transfer that three functions start in the same way. *)
Definition start_transfer (port_ready : bool) (s : MTSState) : MTSState * list frame :=
  match mts_port_send_frame port_ready (fb_header s) with
  | Some (sent, left_) => (set_fb left_ true s, [(sent, current_fb s, ydir s)])
  | None => (set_fb (fb_header s) false s, [])
  end.

Definition has_update (h : MTFrameHeader) : bool := nz (hdr_w h) && nz (hdr_h h).

(** [succeeded] is [status == ASIO_STATE_SUCCEEDED]. *)
Definition _on_fb_sent (port_ready succeeded : bool) (s : MTSState) : MTSState * list frame :=
  if succeeded && has_update (fb_header s) && negb (fb_transfer_in_progress s) then start_transfer port_ready s
  else (s, []).

(** The rectangle that covers the collected one and the new one. *)
Definition accumulate (hd : MTFrameHeader) (x y w h : Z) : MTFrameHeader :=
  if (hdr_w hd =? 0) && (hdr_h hd =? 0) then set_rect x y w h hd
  else
    let right := s32 (hdr_x hd + hdr_w hd) in
    let bottom := s32 (hdr_y hd + hdr_h hd) in
    let new_right := s32 (x + w) in
    let new_bottom := s32 (y + h) in
    let hx := if x <? hdr_x hd then x else hdr_x hd in
    let hy := if y <? hdr_y hd then y else hdr_y hd in
    let right := if right <? new_right then new_right else right in
    let bottom := if bottom <? new_bottom then new_bottom else bottom in
    set_rect hx hy (s32 (right - hx)) (s32 (bottom - hy)) hd.

Definition _mt_fb_common_update (port_ready : bool) (s : MTSState) (x y w h : Z) : MTSState * list frame :=
  let s := set_fb (accumulate (fb_header s) x y w h) (fb_transfer_in_progress s) s in
  if negb (fb_transfer_in_progress s) then start_transfer port_ready s else (s, []).

Definition _mt_fb_update (port_ready : bool) (ds : DisplaySurface) (s : MTSState) (x y w h : Z) : MTSState * list frame :=
  let hd := set_display (surface_width ds) (surface_height ds) (linesize ds) (bytes_per_pixel ds) (fb_header s) in
  let s := set_surface 1 (Some (surface_data ds)) (set_fb hd (fb_transfer_in_progress s) s) in
  _mt_fb_common_update port_ready s x y w h.

Definition multitouch_opengles_fb_update (port_ready : bool) (s : MTSState) (w h yd pixels : Z) : MTSState * list frame :=
  if negb (mt_initialized s) then (s, [])
  else
    let s := set_fb (set_display w h (s32 (4 * w)) 4 (fb_header s)) (fb_transfer_in_progress s) s in
    _mt_fb_common_update port_ready (set_surface yd (Some pixels) s) 0 0 w h.

Definition multitouch_refresh_screen (port_ready : bool) (s : MTSState) : MTSState * list frame :=
  if negb (mt_initialized s) then (s, [])
  else
    match current_fb s with
    | Some _ => _mt_fb_common_update port_ready s 0 0 (disp_width (fb_header s)) (disp_height (fb_header s))
    | None => (s, [])
    end.

Definition multitouch_fb_updated (port_ready : bool) (s : MTSState) : MTSState * list frame :=
  let s := set_fb (fb_header s) false s in
  if has_update (fb_header s) then start_transfer port_ready s else (s, []).

(** The events pushed and the frames sent. [msg_size] is the length of
    [data]. *)
Definition _on_multitouch_message (port_ready : bool) (s : MTSState) (msg_type : Z) (data : list Z) :
    outcome (MTSState * list event * list frame) :=
  let pushed (m : outcome (MTSState * list event)) := r ← m; Ret (r.1, r.2, []) in
  let msg_size := Z.of_nat (length data) in
  if msg_type =? SDKCTL_MT_MOVE then
    if whole_events msg_size then pushed (_on_move s data (Z.to_nat (msg_size / MT_EVENT_SIZE))) else CpuAbort
  else if msg_type =? SDKCTL_MT_FISRT_DOWN then
    if whole_events msg_size then pushed (_on_down s data) else CpuAbort
  else if msg_type =? SDKCTL_MT_LAST_UP then pushed (_on_up s data)
  else if msg_type =? SDKCTL_MT_POINTER_DOWN then
    if whole_events msg_size then pushed (_on_down s data) else CpuAbort
  else if msg_type =? SDKCTL_MT_POINTER_UP then pushed (_on_up s data)
  else if msg_type =? SDKCTL_MT_FB_UPDATE_HANDLED then
    let '(s, fs) := multitouch_fb_updated port_ready s in Ret (s, [], fs)
  else Ret (s, [], []).

(** ** Into the events device *)

(** [generic_event_callback] and its [opaque] are the argument, [None]
    before a device registers. *)
Definition user_event_generic {W} (callback : option (Z -> Z -> Z -> W -> W)) (w : W) (e : event) : W :=
  match callback with
  | Some cb => let '(type, code, value) := e in cb type code value w
  | None => w
  end.

(** The pushes of an operation, in order. *)
Definition push_events {W} (callback : option (Z -> Z -> Z -> W -> W)) (l : list event) (w : W) : W :=
  foldl (user_event_generic callback) w l.

(** ** What the guest makes of the events *)

(** A reader of the slot protocol: events change the slot selected last; a
    tracking id of -1 lifts its contact. *)
Record guest_slot := mkSlot { g_id : Z; g_x : Z; g_y : Z; g_pressure : Z }.
Record guest_touch := mkGuest { g_current : Z; g_slots : list guest_slot }.

Definition in_slot (f : guest_slot -> guest_slot) (g : guest_touch) : guest_touch :=
  mkGuest (g_current g) (alter f (Z.to_nat (g_current g)) (g_slots g)).

Definition guest_event (g : guest_touch) (e : event) : guest_touch :=
  let '(t, c, v) := e in
  if t =? EV_ABS then
    if c =? ABS_MT_SLOT then mkGuest v (g_slots g)
    else if c =? ABS_MT_TRACKING_ID then in_slot (fun q => mkSlot v (g_x q) (g_y q) (g_pressure q)) g
    else if c =? ABS_MT_POSITION_X then in_slot (fun q => mkSlot (g_id q) v (g_y q) (g_pressure q)) g
    else if c =? ABS_MT_POSITION_Y then in_slot (fun q => mkSlot (g_id q) (g_x q) v (g_pressure q)) g
    else if c =? ABS_MT_PRESSURE then in_slot (fun q => mkSlot (g_id q) (g_x q) (g_y q) v) g
    else g
  else g.

Definition guest_events (g : guest_touch) (l : list event) : guest_touch := foldl guest_event g l.

(** No contact yet. *)
Definition guest_init : guest_touch := mkGuest 0 (replicate (Z.to_nat MTS_POINTERS_NUM) (mkSlot (-1) 0 0 0)).

(** Slot [i] of the guest shows pointer [p]. *)
Definition shows_pointer (i : nat) (p : MTSPointerState) (q : guest_slot) : Prop :=
  if tracking_id p =? MTS_POINTER_UP then g_id q = -1
  else q = mkSlot (Z.of_nat i) (ptr_x p) (ptr_y p) (ptr_pressure p).

Record guest_knows (s : MTSState) (g : guest_touch) : Prop := {
  knows_slot : current_slot s <> -1 -> g_current g = current_slot s;
  knows_length : length (g_slots g) = length (tracked_pointers s);
  knows_pointer : forall i p q, tracked_pointers s !! i = Some p -> g_slots g !! i = Some q -> shows_pointer i p q;
}.

(** ** The pointers that are down *)

Definition is_down (p : MTSPointerState) : Prop := tracking_id p <> MTS_POINTER_UP.
#[export] Instance is_down_dec p : Decision (is_down p) := not_dec (decide (tracking_id p = MTS_POINTER_UP)).

Definition entry (p : MTSPointerState) : Z * (Z * Z * Z) := (tracking_id p, (ptr_x p, ptr_y p, ptr_pressure p)).
Definition entries (l : list MTSPointerState) : list (Z * (Z * Z * Z)) := entry <$> filter is_down l.

Record mts_ok (s : MTSState) : Prop := {
  mts_length : length (tracked_pointers s) = Z.to_nat MTS_POINTERS_NUM;
  mts_num : tracked_ptr_num s = Z.of_nat (length (entries (tracked_pointers s)));
  mts_nodup : NoDup (entries (tracked_pointers s)).*1;
  mts_slot : current_slot s = -1 \/ 0 <= current_slot s < MTS_POINTERS_NUM;
}.

Lemma entries_app l1 l2 : entries (l1 ++ l2) = entries l1 ++ entries l2.
Proof. unfold entries. by rewrite filter_app, fmap_app. Qed.

Lemma entries_cons p l : entries (p :: l) = (if decide (is_down p) then [entry p] else []) ++ entries l.
Proof. unfold entries. rewrite filter_cons. by destruct (decide (is_down p)). Qed.

(** The entries around a slot. *)
Lemma entries_slot l i p q : l !! i = Some p ->
  exists E, entries l ≡ₚ (if decide (is_down p) then [entry p] else []) ++ E
    /\ entries (<[i := q]> l) ≡ₚ (if decide (is_down q) then [entry q] else []) ++ E.
Proof.
  intros Hi. exists (entries (take i l) ++ entries (drop (S i) l)).
  rewrite insert_take_drop by (by eapply lookup_lt_Some).
  rewrite <- (take_drop_middle l i p Hi) at 1. rewrite !entries_app, !entries_cons.
  split; solve_Permutation.
Qed.

(** The search returns the first slot of the id. *)
Lemma pointer_index_spec l k tid :
  (pointer_index l k tid = -1 /\ forall p, p ∈ l -> tracking_id p <> tid)
  \/ exists i p, pointer_index l k tid = k + Z.of_nat i /\ l !! i = Some p /\ tracking_id p = tid.
Proof.
  revert k. induction l as [|p l IH]; intros k; simpl; [left; set_solver|].
  destruct (Z.eqb_spec (tracking_id p) tid) as [E|E].
  { right. exists O, p. split_and!; [lia|done|done]. }
  destruct (IH (k + 1)) as [[H1 H2]|(i & p' & H1 & H2 & H3)].
  - left. split; [done|]. set_solver.
  - right. exists (S i), p'. split_and!; [lia|done|done].
Qed.

Lemma get_pointer_index_spec s tid :
  (_mtsstate_get_pointer_index s tid = -1 /\ forall p, p ∈ tracked_pointers s -> tracking_id p <> tid)
  \/ exists i p, _mtsstate_get_pointer_index s tid = Z.of_nat i /\ tracked_pointers s !! i = Some p /\ tracking_id p = tid.
Proof. apply (pointer_index_spec (tracked_pointers s) 0 tid). Qed.

Lemma elem_of_entries l tid v : (tid, v) ∈ entries l <-> exists p, p ∈ l /\ is_down p /\ entry p = (tid, v).
Proof. unfold entries. rewrite list_elem_of_fmap. setoid_rewrite list_elem_of_filter. naive_solver. Qed.

Lemma all_down_length l : (forall p, p ∈ l -> tracking_id p <> MTS_POINTER_UP) -> length (entries l) = length l.
Proof.
  intros H. unfold entries. rewrite length_fmap. induction l as [|p l IH]; [done|].
  rewrite filter_cons_True by (apply H; set_solver). simpl. f_equal. apply IH. set_solver.
Qed.

(** ** The abstract screen *)

(** A report of the mouse or of the phone. *)
Inductive touch := Touch (source : MTESource) (tid x y pressure : Z).

Definition touch_id (t : touch) : Z :=
  let '(Touch src tid _ _ _) := t in
  match src with MTES_MOUSE => MTS_POINTER_MOUSE | MTES_DEVICE => tid end.

(** A screen that holds at most ten pointers by their id: a new pointer is
    added when there is room, a pressure of 0 removes it, and a report at
    the same place changes nothing. *)
Definition touch_step (m : gmap Z (Z * Z * Z)) (t : touch) : gmap Z (Z * Z * Z) :=
  let '(Touch _ _ x y pressure) := t in
  match m !! touch_id t with
  | None =>
      if (pressure =? 0) || bool_decide (10 <= size m)%nat then m else <[touch_id t := (x, y, pressure)]> m
  | Some (x0, y0, _) =>
      if pressure =? 0 then delete (touch_id t) m
      else if (x0 =? x) && (y0 =? y) then m else <[touch_id t := (x, y, pressure)]> m
  end.

Definition touch_map (s : MTSState) : gmap Z (Z * Z * Z) := list_to_map (entries (tracked_pointers s)).

Lemma touch_map_lookup s tid v : mts_ok s ->
  touch_map s !! tid = Some v <-> (tid, v) ∈ entries (tracked_pointers s).
Proof. intros Hok. symmetry. apply elem_of_list_to_map, Hok. Qed.

Lemma touch_map_slot s i p : mts_ok s -> tracked_pointers s !! i = Some p -> is_down p ->
  touch_map s !! tracking_id p = Some (ptr_x p, ptr_y p, ptr_pressure p).
Proof. intros Hok Hi Hp. apply touch_map_lookup; [done|]. apply elem_of_entries. exists p. eauto using list_elem_of_lookup_2. Qed.

Lemma touch_map_absent s tid : (forall p, p ∈ tracked_pointers s -> tracking_id p <> tid) -> touch_map s !! tid = None.
Proof.
  intros H. apply not_elem_of_list_to_map_1. intros ([k v] & E & Hkv)%list_elem_of_fmap.
  apply elem_of_entries in Hkv as (p & Hp & _ & Hv). injection Hv as Hk _. simpl in E. subst k tid. by apply (H p).
Qed.

Lemma touch_map_size s : mts_ok s -> size (touch_map s) = length (entries (tracked_pointers s)).
Proof. intros Hok. unfold touch_map. apply map_size_list_to_map, Hok. Qed.

Lemma touch_map_room s : mts_ok s -> (size (touch_map s) <= 10)%nat.
Proof.
  intros Hok. rewrite (touch_map_size s Hok). unfold entries. rewrite length_fmap.
  pose proof (mts_length s Hok). etransitivity; [apply length_filter|]. unfold MTS_POINTERS_NUM in *. lia.
Qed.

(** *** Writing a slot *)

Section write_slot.
Context (s s' : MTSState) (i : nat) (p q : MTSPointerState).
Context (Hok : mts_ok s) (Hi : tracked_pointers s !! i = Some p).
Context (Hs' : tracked_pointers s' = <[i := q]> (tracked_pointers s)).
Context (Hcur : current_slot s' = -1 \/ current_slot s' = Z.of_nat i).

Lemma written_length : length (tracked_pointers s') = Z.to_nat MTS_POINTERS_NUM.
Proof. rewrite Hs', length_insert. apply Hok. Qed.

Lemma written_slot : current_slot s' = -1 \/ 0 <= current_slot s' < MTS_POINTERS_NUM.
Proof.
  apply lookup_lt_Some in Hi. rewrite (mts_length s Hok) in Hi.
  destruct Hcur as [? | ->]; [by left|right]. unfold MTS_POINTERS_NUM in *. lia.
Qed.

Lemma write_down : ~ is_down p -> is_down q -> touch_map s !! tracking_id q = None ->
  tracked_ptr_num s' = tracked_ptr_num s + 1 ->
  mts_ok s' /\ touch_map s' = <[tracking_id q := (ptr_x q, ptr_y q, ptr_pressure q)]> (touch_map s).
Proof.
  intros Hp Hq Hnew Hnum. destruct (entries_slot _ i p q Hi) as (E & H1 & H2). rewrite <- Hs' in H2.
  rewrite decide_False in H1 by done. rewrite decide_True in H2 by done. simpl in H1, H2.
  assert (entries (tracked_pointers s') ≡ₚ entry q :: entries (tracked_pointers s)) as HP by by rewrite H1, H2.
  assert (NoDup (entry q :: entries (tracked_pointers s)).*1) as HN.
  { rewrite fmap_cons. apply NoDup_cons. split; [|apply Hok]. by apply not_elem_of_list_to_map. }
  assert (NoDup (entries (tracked_pointers s')).*1) as HN' by by rewrite HP.
  split; [split; [apply written_length| |done|apply written_slot]|].
  - rewrite Hnum, (mts_num s Hok), HP. simpl. lia.
  - unfold touch_map. by rewrite (list_to_map_proper _ _ HN' HP).
Qed.

Lemma write_up : is_down p -> ~ is_down q -> tracked_ptr_num s' = tracked_ptr_num s - 1 ->
  mts_ok s' /\ touch_map s' = delete (tracking_id p) (touch_map s) /\ 0 <= tracked_ptr_num s'.
Proof.
  intros Hp Hq Hnum. destruct (entries_slot _ i p q Hi) as (E & H1 & H2). rewrite <- Hs' in H2.
  rewrite decide_True in H1 by done. rewrite decide_False in H2 by done. simpl in H1, H2.
  rewrite <- H2 in H1. pose proof (mts_nodup s Hok) as HN. assert (NoDup (entry p :: entries (tracked_pointers s')).*1) as HN'.
  { by rewrite <- H1. }
  rewrite fmap_cons in HN'. apply NoDup_cons in HN' as [Hnot HN'].
  assert (tracked_ptr_num s' = Z.of_nat (length (entries (tracked_pointers s')))) as Hn.
  { rewrite Hnum, (mts_num s Hok), H1. simpl. lia. }
  split; [split; [apply written_length|done|done|apply written_slot]|]. split; [|lia].
  unfold touch_map. rewrite (list_to_map_proper _ _ HN H1). simpl.
  rewrite delete_insert_id; [done|]. by apply not_elem_of_list_to_map.
Qed.

Lemma write_move : is_down p -> tracking_id q = tracking_id p -> tracked_ptr_num s' = tracked_ptr_num s ->
  mts_ok s' /\ touch_map s' = <[tracking_id q := (ptr_x q, ptr_y q, ptr_pressure q)]> (touch_map s).
Proof.
  intros Hp Hid Hnum. destruct (entries_slot _ i p q Hi) as (E & H1 & H2). rewrite <- Hs' in H2.
  assert (is_down q) as Hq by (unfold is_down in *; congruence).
  rewrite decide_True in H1 by done. rewrite decide_True in H2 by done. simpl in H1, H2. pose proof (mts_nodup s Hok) as HN.
  assert (NoDup (entry q :: E).*1) as HN'.
  { rewrite fmap_cons. simpl. rewrite Hid. by rewrite H1 in HN. }
  assert (NoDup (entries (tracked_pointers s')).*1) as HN'' by by rewrite H2.
  split; [split; [apply written_length| |done|apply written_slot]|].
  - rewrite Hnum, (mts_num s Hok), H1, H2. done.
  - unfold touch_map. rewrite (list_to_map_proper _ _ HN H1), (list_to_map_proper _ _ HN'' H2). simpl.
    rewrite Hid. by rewrite insert_insert_eq.
Qed.

Lemma knows_write g f : guest_knows s g ->
  (forall r, g_slots g !! i = Some r -> shows_pointer i q (f r)) ->
  guest_knows s' (mkGuest (Z.of_nat i) (alter f i (g_slots g))).
Proof.
  intros [_ Hl Hk] Hf. split; simpl.
  - intros Hne. destruct Hcur; congruence.
  - by rewrite length_alter, Hs', length_insert.
  - intros j p' r. rewrite Hs'. intros [(<- & -> & _)|(Hne & Hj)]%list_lookup_insert_Some.
    + rewrite list_lookup_alter_eq. intros (r0 & Hr & ->)%fmap_Some. by apply Hf.
    + rewrite list_lookup_alter_ne by done. by apply Hk.
Qed.
End write_slot.

Lemma select_known s g i : guest_knows s g -> guest_events g (select_slot s (Z.of_nat i)) = mkGuest (Z.of_nat i) (g_slots g).
Proof.
  intros [Hc _ _]. unfold select_slot. destruct (Z.eqb_spec (Z.of_nat i) (current_slot s)) as [E|]; [|done].
  simpl. rewrite E, <- Hc by lia. by destruct g.
Qed.

Lemma in_slot_at f i l : in_slot f (mkGuest (Z.of_nat i) l) = mkGuest (Z.of_nat i) (alter f i l).
Proof. unfold in_slot. simpl. by rewrite Nat2Z.id. Qed.

Lemma guest_events_app g l1 l2 : guest_events g (l1 ++ l2) = guest_events (guest_events g l1) l2.
Proof. apply foldl_app. Qed.

(** ** Every report *)

Definition run_touch (s : MTSState) (t : touch) : outcome (MTSState * list event) :=
  let '(Touch src tid x y pressure) := t in multitouch_update_pointer s src tid x y pressure.

(** Reports one after the other, with everything that is pushed. *)
Definition run_touches (s : MTSState) (ts : list touch) : outcome (MTSState * list event) :=
  foldM (fun st t => r ← run_touch st.1 t; Ret (r.1, st.2 ++ r.2)) (s, []) ts.

(** The last event, if there is one, is a report. *)
Definition ends_in_report (l : list event) : Prop := l = [] \/ list.last l = Some (EV_SYN, SYN_REPORT, 0).

Lemma ends_in_report_app l1 l2 : list.last l2 = Some (EV_SYN, SYN_REPORT, 0) -> ends_in_report (l1 ++ l2).
Proof. intros H. right. by rewrite last_app, H. Qed.

(** What a report has to do: keep the state in order, do the abstract step,
    tell the guest, and end what it tells with a report event. *)
Definition report_ok (s : MTSState) (g : guest_touch) (t : touch) (r : outcome (MTSState * list event)) : Prop :=
  exists s' evs, r = Ret (s', evs) /\ mts_ok s' /\ touch_map s' = touch_step (touch_map s) t
    /\ guest_knows s' (guest_events g evs) /\ ends_in_report evs.

Lemma report_nothing s g t : mts_ok s -> guest_knows s g -> touch_step (touch_map s) t = touch_map s ->
  report_ok s g t (Ret (s, [])).
Proof. intros. exists s, []. split_and!; [done|done|done|done|by left]. Qed.

Lemma down_report s g src tid x y pressure :
  let t := Touch src tid x y pressure in
  mts_ok s -> guest_knows s g -> touch_id t <> MTS_POINTER_UP -> pressure <> 0 -> touch_map s !! touch_id t = None ->
  report_ok s g t (Ret (_mts_pointer_down s (touch_id t) x y pressure)).
Proof.
  intros t Hok Hg Hid Hp Hnew. unfold _mts_pointer_down, _mtsstate_get_available_pointer_index.
  assert (touch_step (touch_map s) t = if bool_decide (10 <= size (touch_map s))%nat then touch_map s
                                       else <[touch_id t := (x, y, pressure)]> (touch_map s)) as Hst.
  { unfold touch_step, t. fold t. rewrite Hnew. by rewrite (proj2 (Z.eqb_neq _ _) Hp). }
  pose proof (touch_map_size s Hok) as Hsz. pose proof (mts_length s Hok) as Hlen.
  destruct (get_pointer_index_spec s MTS_POINTER_UP) as [[-> Hfull]|(i & p & -> & Hi & Hup)]; simpl.
  { apply report_nothing; [done|done|]. rewrite Hst, Hsz, (all_down_length _ Hfull), Hlen. done. }
  rewrite (proj2 (Z.leb_le 0 _)) by lia. rewrite Nat2Z.id. set (q := mkPtr (touch_id t) x y pressure).
  set (s' := set_pointers _ _ _ _ s).
  destruct (write_down s s' i p q Hok Hi eq_refl (or_intror eq_refl) ltac:(unfold is_down; congruence) Hid Hnew eq_refl) as [Hok' Hm].
  exists s'. eexists. split; [done|]. split; [done|]. split.
  { rewrite Hst, bool_decide_eq_false_2; [done|]. pose proof (touch_map_room s' Hok') as Hroom.
    rewrite Hm, map_size_insert_None in Hroom by done. lia. }
  split; [|by apply ends_in_report_app].
  rewrite guest_events_app, (select_known s g i Hg). simpl. rewrite !in_slot_at, !list_alter_alter_eq.
  apply (knows_write s s' i q eq_refl (or_intror eq_refl) g); [done|].
  intros r _. unfold shows_pointer. by rewrite (proj2 (Z.eqb_neq (tracking_id q) _) Hid).
Qed.

Lemma up_report s g src tid x y i p :
  let t := Touch src tid x y 0 in
  mts_ok s -> guest_knows s g -> is_down p -> tracked_pointers s !! i = Some p -> tracking_id p = touch_id t ->
  report_ok s g t (_mts_pointer_up s (Z.of_nat i)).
Proof.
  intros t Hok Hg Hp Hi Hid. unfold _mts_pointer_up. rewrite Nat2Z.id. set (q := mkPtr MTS_POINTER_UP 0 0 0).
  set (s' := set_pointers _ _ _ _ s).
  destruct (write_up s s' i p q Hok Hi eq_refl (or_introl eq_refl) Hp ltac:(by intros []) eq_refl) as (Hok' & Hm & Hn).
  rewrite (proj2 (Z.leb_le 0 (tracked_ptr_num s - 1)) Hn). exists s'. eexists. split; [done|]. split; [done|]. split.
  { rewrite Hm. unfold touch_step, t. fold t. rewrite <- Hid, (touch_map_slot s i p Hok Hi Hp). done. }
  split; [|by apply ends_in_report_app].
  rewrite guest_events_app, (select_known s g i Hg). simpl. rewrite in_slot_at.
  by apply (knows_write s s' i q eq_refl (or_introl eq_refl) g).
Qed.

Lemma move_report s g src tid x y pressure i p :
  let t := Touch src tid x y pressure in
  mts_ok s -> guest_knows s g -> is_down p -> tracked_pointers s !! i = Some p -> tracking_id p = touch_id t ->
  pressure <> 0 -> report_ok s g t (_mts_pointer_move s (Z.of_nat i) x y pressure).
Proof.
  intros t Hok Hg Hp Hi Hid Hpr. unfold _mts_pointer_move. rewrite Nat2Z.id, Hi.
  assert (touch_step (touch_map s) t = if (ptr_x p =? x) && (ptr_y p =? y) then touch_map s
                                       else <[touch_id t := (x, y, pressure)]> (touch_map s)) as Hst.
  { unfold touch_step, t. fold t. rewrite <- Hid, (touch_map_slot s i p Hok Hi Hp).
    by rewrite (proj2 (Z.eqb_neq _ _) Hpr). }
  destruct ((ptr_x p =? x) && (ptr_y p =? y)) eqn:E; [by apply report_nothing|].
  set (q := moved p x y pressure). set (s' := set_pointers _ _ _ _ s).
  destruct (write_move s s' i p q Hok Hi eq_refl (or_intror eq_refl) Hp eq_refl eq_refl) as (Hok' & Hm).
  exists s'. eexists. split; [done|]. split; [done|]. split.
  { rewrite Hm, Hst. simpl. rewrite Hid. do 2 f_equal. rewrite (proj2 (Z.eqb_neq pressure 0) Hpr), andb_true_r.
    by destruct (Z.eqb_spec (ptr_pressure p) pressure) as [->|]. }
  split; [|rewrite !app_assoc; by apply ends_in_report_app].
  rewrite guest_events_app, (select_known s g i Hg).
  assert (forall r, g_slots g !! i = Some r -> r = mkSlot (Z.of_nat i) (ptr_x p) (ptr_y p) (ptr_pressure p)) as Hr.
  { intros r Hr. pose proof (knows_pointer s g Hg i p r Hi Hr) as Hsh. unfold shows_pointer in Hsh.
    by rewrite (proj2 (Z.eqb_neq _ _) Hp) in Hsh. }
  assert (shows_pointer i q (mkSlot (Z.of_nat i) x y (ptr_pressure q))) as Hq.
  { unfold shows_pointer. by rewrite (proj2 (Z.eqb_neq (tracking_id q) _) Hp). }
  revert Hq. unfold q at 2. cbn [moved ptr_pressure].
  destruct (negb (ptr_pressure p =? pressure) && negb (pressure =? 0)),
    (Z.eqb_spec (ptr_x p) x) as [<-|], (Z.eqb_spec (ptr_y p) y) as [<-|]; try done; intros Hq;
    simpl; rewrite !in_slot_at, ?list_alter_alter_eq;
    (apply (knows_write s s' i q eq_refl (or_intror eq_refl) g); [done|]); intros r ->%Hr; exact Hq.
Qed.

Lemma touch_report s g t : mts_ok s -> guest_knows s g -> touch_id t <> MTS_POINTER_UP -> report_ok s g t (run_touch s t).
Proof.
  intros Hok Hg Hid. destruct t as [src tid x y pressure]. set (t := Touch src tid x y pressure) in *.
  change (run_touch s t) with (multitouch_update_pointer s src tid x y pressure).
  unfold multitouch_update_pointer. change (match src with MTES_MOUSE => _ | MTES_DEVICE => _ end) with (touch_id t).
  destruct (get_pointer_index_spec s (touch_id t)) as [[-> Hno]|(i & p & -> & Hi & Hp)].
  - pose proof (touch_map_absent s _ Hno) as Hm. simpl. destruct (Z.eqb_spec pressure 0) as [->|].
    + apply report_nothing; [done|done|]. unfold touch_step, t. fold t. by rewrite Hm.
    + by apply down_report.
  - rewrite (proj2 (Z.ltb_ge _ _)) by lia. assert (is_down p) by (unfold is_down; congruence).
    destruct (Z.eqb_spec pressure 0) as [E|].
    + unfold t in *. rewrite E in *. by eapply up_report.
    + by eapply move_report.
Qed.

(** Some guest that knows the pointers. *)
Definition informed (s : MTSState) : guest_touch :=
  mkGuest (current_slot s) (imap (fun i p =>
    if tracking_id p =? MTS_POINTER_UP then mkSlot (-1) 0 0 0
    else mkSlot (Z.of_nat i) (ptr_x p) (ptr_y p) (ptr_pressure p)) (tracked_pointers s)).

Lemma informed_knows s : guest_knows s (informed s).
Proof.
  split; simpl; [done|by rewrite length_imap|]. intros i p q Hp. rewrite list_lookup_imap, Hp. intros [= <-].
  unfold shows_pointer. by case_match.
Qed.

Lemma touch_keeps_ok s t s' evs : mts_ok s -> touch_id t <> MTS_POINTER_UP -> run_touch s t = Ret (s', evs) -> mts_ok s'.
Proof.
  intros Hok Ht E. destruct (touch_report s _ t Hok (informed_knows s) Ht) as (s1 & e1 & E1 & Hok1 & _). congruence.
Qed.

Lemma run_touches_cons s t ts : run_touches s (t :: ts) =
  r ← run_touch s t; r' ← run_touches r.1 ts; Ret (r'.1, r.2 ++ r'.2).
Proof.
  unfold run_touches. cbn [foldM fst snd]. destruct (run_touch s t) as [[s1 e1]| | | | |]; [|done..]. cbn.
  enough (forall l s1, foldM (fun st t => r ← run_touch st.1 t; Ret (r.1, st.2 ++ r.2)) (s1, l) ts
     = r' ← foldM (fun st t => r ← run_touch st.1 t; Ret (r.1, st.2 ++ r.2)) (s1, []) ts; Ret (r'.1, l ++ r'.2)) as H by apply H.
  clear. induction ts as [|t ts IH]; intros l s1; cbn [foldM fst snd]; [cbn; by rewrite app_nil_r|].
  destruct (run_touch s1 t) as [[s2 e2]| | | | |]; [|done..]. cbn. rewrite IH, (IH e2).
  destruct (foldM _ (s2, []) ts) as [[s3 e3]| | | | |]; [|done..]. cbn. by rewrite app_assoc.
Qed.

Lemma run_touches_ok ts s g : mts_ok s -> guest_knows s g -> Forall (fun t => touch_id t <> MTS_POINTER_UP) ts ->
  exists s' evs, run_touches s ts = Ret (s', evs) /\ mts_ok s'
    /\ touch_map s' = foldl touch_step (touch_map s) ts /\ guest_knows s' (guest_events g evs) /\ ends_in_report evs.
Proof.
  revert s g. induction ts as [|t ts IH]; intros s g Hok Hg Hts.
  { exists s, []. split_and!; try done. by left. }
  apply Forall_cons in Hts as [Ht Hts].
  destruct (touch_report s g t Hok Hg Ht) as (s1 & e1 & E1 & Hok1 & Hm1 & Hg1 & Hr1).
  destruct (IH s1 _ Hok1 Hg1 Hts) as (s2 & e2 & E2 & Hok2 & Hm2 & Hg2 & Hr2).
  exists s2, (e1 ++ e2). rewrite run_touches_cons, E1. cbn. rewrite E2. cbn. rewrite Hm2, Hm1, guest_events_app.
  split_and!; try done. destruct Hr2 as [->|Hl]; [by rewrite app_nil_r|by apply ends_in_report_app].
Qed.

Lemma init_ok ds : mts_ok (multitouch_init ds MTSState_zero) /\ guest_knows (multitouch_init ds MTSState_zero) guest_init.
Proof.
  split; split; try done; try (by apply NoDup_nil); [by left|].
  intros i p q Hp Hq. apply lookup_replicate in Hp as [-> _]. by apply lookup_replicate in Hq as [-> _].
Qed.

(** The guest's contacts: the slots that hold one. *)
Definition contact (q : guest_slot) : Z * Z * Z := (g_x q, g_y q, g_pressure q).
Definition contacts (g : guest_touch) : list (Z * Z * Z) := contact <$> filter (fun q => g_id q <> -1) (g_slots g).

Lemma shown_contacts lp lq k : length lq = length lp ->
  (forall i p q, lp !! i = Some p -> lq !! i = Some q -> shows_pointer (k + i) p q) ->
  contact <$> filter (fun q => g_id q <> -1) lq = (entries lp).*2.
Proof.
  revert lp k. induction lq as [|q lq IH]; intros [|p lp] k Hl H; simplify_eq/=; [done|].
  pose proof (H 0%nat p q eq_refl eq_refl) as H0. unfold shows_pointer in H0.
  rewrite entries_cons, fmap_app, <- (IH lp (S k)) by
    (done || (intros i p' q' ??; rewrite Nat.add_succ_l, <- Nat.add_succ_r; by apply H)).
  destruct (Z.eqb_spec (tracking_id p) MTS_POINTER_UP) as [E|E].
  - rewrite filter_cons_False by (rewrite H0; auto). by rewrite decide_False by (unfold is_down; auto).
  - rewrite filter_cons_True by (subst q; simpl; lia). rewrite decide_True by done. by subst q.
Qed.

Lemma contacts_map s g : mts_ok s -> guest_knows s g -> contacts g ≡ₚ (map_to_list (touch_map s)).*2.
Proof.
  intros Hok [_ Hl Hk]. unfold contacts, touch_map. rewrite (shown_contacts (tracked_pointers s) _ 0 Hl Hk).
  by rewrite map_to_list_to_map by apply Hok.
Qed.

(** C21: The guest sees the fingers. For every sequence of reports of the mouse
    and of the phone, whatever their ids (but the reserved -1), the emulator
    does not abort, and a guest that reads the pushed events by the slot
    protocol ends with exactly the contacts of the abstract screen of at most
    ten pointers, with their positions and pressures; the events end with a
    report. *)
Theorem touch_screen_tells_guest ds ts :
  Forall (fun t => touch_id t <> MTS_POINTER_UP) ts ->
  exists s evs, run_touches (multitouch_init ds MTSState_zero) ts = Ret (s, evs)
    /\ contacts (guest_events guest_init evs) ≡ₚ (map_to_list (foldl touch_step ∅ ts)).*2
    /\ tracked_ptr_num s = Z.of_nat (size (foldl touch_step ∅ ts)) /\ tracked_ptr_num s <= 10
    /\ ends_in_report evs.
Proof.
  intros Hts. destruct (init_ok ds) as [Hok Hg].
  destruct (run_touches_ok ts _ _ Hok Hg Hts) as (s & evs & E & Hok' & Hm & Hg' & Hr).
  change (touch_map (multitouch_init ds MTSState_zero)) with (∅ : gmap Z (Z * Z * Z)) in Hm.
  exists s, evs. rewrite <- Hm. pose proof (touch_map_room s Hok').
  rewrite (mts_num s Hok'), <- touch_map_size by done. split_and!; [done|by apply contacts_map|done|lia|done].
Qed.

Definition example_surface : DisplaySurface := mkSurface 480 800 1920 4 0x1000.

Lemma touch_screen_tells_guest_witness :
  exists s evs, run_touches (multitouch_init example_surface MTSState_zero)
      [Touch MTES_MOUSE 0 10 20 0x81; Touch MTES_DEVICE 7 30 40 5; Touch MTES_DEVICE 7 31 40 5; Touch MTES_MOUSE 0 0 0 0]
      = Ret (s, evs) /\ contacts (guest_events guest_init evs) ≡ₚ [(31, 40, 5)].
Proof.
  destruct (touch_screen_tells_guest example_surface
    [Touch MTES_MOUSE 0 10 20 0x81; Touch MTES_DEVICE 7 30 40 5; Touch MTES_DEVICE 7 31 40 5; Touch MTES_MOUSE 0 0 0 0])
    as (s & evs & E & Hc & _); [repeat constructor; done|].
  exists s, evs. split; [done|]. rewrite Hc. vm_compute. done.
Defined.

(** The id -1 marks a free slot, and the phone's ids are not checked: the
    release of a pointer -1 on a screen without pointers fails the assertion
    on their number and ends the emulator. *)
Lemma reserved_id_aborts ds x y :
  multitouch_update_pointer (multitouch_init ds MTSState_zero) MTES_DEVICE MTS_POINTER_UP x y 0 = CpuAbort.
Proof. reflexivity. Qed.

(** ** Through the ring of the events device *)

(** [events_put_generic], which [events_dev_init] registers. *)
Definition ring_callback {W} (irq : qemu_irq W) (type code value : Z) (sw : events_state * W) : events_state * W :=
  events_put_generic irq sw.1 sw.2 type code value.

(** The guest's reading of the words it fetches. *)
Fixpoint events_of_words (l : list Z) : list event :=
  match l with
  | t :: c :: v :: l => (s32 t, s32 c, s32 v) :: events_of_words l
  | _ => []
  end.

Definition event_words (e : event) : list Z := let '(t, c, v) := e in [u32 t; u32 c; u32 v].
Definition event_ok (e : event) : Prop := let '(t, c, v) := e in in_s 32 t /\ in_s 32 c /\ in_s 32 v.

Lemma events_of_event_words l : Forall event_ok l -> events_of_words (concat (event_words <$> l)) = l.
Proof.
  induction 1 as [|[[t c] v] l (Ht & Hc & Hv) _ IH]; [done|]. cbn. by rewrite IH, !swrap_wrap_id by done.
Qed.

Lemma pushed_queue {W} (irq : qemu_irq W) l s (w : W) : ring_ok s -> count s + 3 * Z.of_nat (length l) < MAX_EVENTS ->
  let r := push_events (Some (ring_callback irq)) l (s, w) in
  ring_ok r.1 /\ queue r.1 = queue s ++ concat (event_words <$> l).
Proof.
  revert s w. induction l as [|[[t c] v] l IH]; intros s w Hs Hc; [by rewrite app_nil_r|].
  assert (push_events (Some (ring_callback irq)) ((t, c, v) :: l) (s, w)
          = push_events (Some (ring_callback irq)) l (enqueue_event irq s w (u32 t) (u32 c) v)) as -> by done.
  cbn [length] in Hc. pose proof (enqueue_ring irq s w (u32 t) (u32 c) v Hs) as Hs1.
  pose proof (enqueue_room irq s w (u32 t) (u32 c) v Hs ltac:(lia)) as Hq1.
  pose proof (length_queue s) as L0. destruct (enqueue_event irq s w (u32 t) (u32 c) v) as [s1 w1]. simpl in Hs1, Hq1.
  pose proof (length_queue s1) as L1. rewrite Hq1, length_app, Nat2Z.inj_add, L0 in L1. simpl in L1.
  destruct (IH s1 w1 Hs1 ltac:(lia)) as [H1 H2]. split; [done|]. cbv zeta in H2. rewrite H2, Hq1. by rewrite <- app_assoc.
Qed.

(** A report of values that fit an [int]. *)
Definition touch_ok (t : touch) : Prop :=
  let '(Touch _ _ x y pressure) := t in touch_id t <> MTS_POINTER_UP /\ in_s 32 x /\ in_s 32 y /\ in_s 32 pressure.

(** A report pushes at most seven events, of values that fit an [int]. *)
Definition pushes_ok (l : list event) : Prop := (length l <= 7)%nat /\ Forall event_ok l.

Lemma abs_event_ok c v : in_s 32 c -> in_s 32 v -> event_ok (EV_ABS, c, v).
Proof. intros. cbn. by split_and!. Qed.

Lemma syn_event_ok : event_ok (EV_SYN, SYN_REPORT, 0).
Proof. done. Qed.

Ltac events_ok :=
  repeat match goal with
  | |- Forall _ [] => apply Forall_nil_2
  | |- Forall _ (_ :: _) => apply Forall_cons; split
  | |- event_ok (EV_SYN, _, _) => apply syn_event_ok
  | |- event_ok (EV_ABS, _, _) => apply abs_event_ok; [done|]
  end; try assumption; unfold in_s; try lia.

Lemma select_slot_pushes s i : (i < 10)%nat -> (length (select_slot s (Z.of_nat i)) <= 1)%nat /\ Forall event_ok (select_slot s (Z.of_nat i)).
Proof.
  intros Hi. unfold select_slot. case_match; (split; [simpl; lia|]); [|apply Forall_nil_2].
  events_ok.
Qed.

Lemma touch_pushes s t s' evs : mts_ok s -> touch_ok t -> run_touch s t = Ret (s', evs) -> pushes_ok evs.
Proof.
  intros Hok Ht. destruct t as [src tid x y pressure]. destruct Ht as (_ & Hx & Hy & Hp). cbn [run_touch].
  unfold multitouch_update_pointer. set (id := match src with MTES_MOUSE => _ | MTES_DEVICE => _ end). clearbody id.
  assert (forall i p, tracked_pointers s !! i = Some p -> (i < 10)%nat) as Hlt.
  { intros i p Hi%lookup_lt_Some. by rewrite (mts_length s Hok) in Hi. }
  destruct (get_pointer_index_spec s id) as [[-> _]|(i & p & -> & Hi & _)].
  - simpl. case_match; [intros [= <- <-]; split; [simpl; lia|done]|].
    unfold _mts_pointer_down, _mtsstate_get_available_pointer_index.
    destruct (get_pointer_index_spec s MTS_POINTER_UP) as [[-> _]|(i & p & -> & Hi & _)]; simpl.
    { intros [= <- <-]. split; [simpl; lia|done]. }
    rewrite (proj2 (Z.leb_le 0 _)) by lia. intros [= <- <-]. apply Hlt in Hi.
    destruct (select_slot_pushes s i Hi) as [H1 H2]. pose proof (swrap_range 32 (touch_major s + 1) ltac:(lia)).
    split; [rewrite length_app; simpl; lia|]. apply Forall_app. split; [done|]. events_ok.
  - apply Hlt in Hi as Hi'. destruct (select_slot_pushes s i Hi') as [H1 H2].
    rewrite (proj2 (Z.ltb_ge _ _)) by lia. destruct (pressure =? 0).
    + unfold _mts_pointer_up. case_match; [|done]. intros [= <- <-]. split; [rewrite length_app; simpl; lia|].
      apply Forall_app. split; [done|]. events_ok.
    + unfold _mts_pointer_move. rewrite Nat2Z.id, Hi. case_match; intros [= <- <-]; [split; [simpl; lia|done]|].
      split; [rewrite !length_app; repeat case_match; simpl; lia|].
      rewrite !Forall_app. split_and!; [done|repeat case_match; events_ok..].
Qed.

Lemma touches_push ts s s' evs : mts_ok s -> Forall touch_ok ts -> run_touches s ts = Ret (s', evs) ->
  (length evs <= 7 * length ts)%nat /\ Forall event_ok evs.
Proof.
  revert s evs. induction ts as [|t ts IH]; intros s evs Hok Hts; [by intros [= <- <-]|].
  apply Forall_cons in Hts as [Ht Hts]. rewrite run_touches_cons.
  intros ([s1 e1] & E1 & ([s2 e2] & E2 & [= <- <-])%bind_Ret)%bind_Ret.
  destruct (touch_pushes s t s1 e1 Hok Ht E1) as [L1 F1].
  assert (mts_ok s1) as Hok1 by (eapply touch_keeps_ok; [done| |done]; by destruct t; apply Ht).
  destruct (IH s1 e2 Hok1 Hts E2) as [L2 F2]. rewrite length_app, Forall_app. simpl. split; [lia|done].
Qed.

(** From the finger to the guest's reads: reports of the mouse and of the
    phone, pushed through the hook of the events device into its ring, come
    out as words from which a guest rebuilds exactly the contacts of the
    abstract screen. The ring holds any 48 reports. *)
Theorem touches_reach_the_guest {W} (irq : qemu_irq W) dev (w : W) ds ts :
  ring_ok dev -> queue dev = [] -> Forall touch_ok ts -> (length ts <= 48)%nat ->
  exists s evs, run_touches (multitouch_init ds MTSState_zero) ts = Ret (s, evs)
    /\ contacts (guest_events guest_init
         (events_of_words (queue (push_events (Some (ring_callback irq)) evs (dev, w)).1)))
       ≡ₚ (map_to_list (foldl touch_step ∅ ts)).*2.
Proof.
  intros Hr Hq Hts Hl. destruct (init_ok ds) as [Hok Hg].
  destruct (run_touches_ok ts _ _ Hok Hg) as (s & evs & E & Hok' & Hm & Hg' & _).
  { eapply Forall_impl; [done|]. intros [????] H. apply H. }
  exists s, evs. split; [done|]. destruct (touches_push ts _ _ _ Hok Hts E) as [Hn Hv].
  destruct (pushed_queue irq evs dev w Hr) as [_ ->].
  { pose proof (length_queue dev) as L. rewrite Hq in L. simpl in L. unfold MAX_EVENTS. lia. }
  rewrite Hq. simpl. rewrite events_of_event_words by done.
  change (touch_map (multitouch_init ds MTSState_zero)) with (∅ : gmap Z (Z * Z * Z)) in Hm.
  rewrite <- Hm. by apply contacts_map.
Qed.

Lemma touches_reach_the_guest_witness :
  exists s evs, run_touches (multitouch_init example_surface MTSState_zero) [Touch MTES_MOUSE 0 10 20 0x81] = Ret (s, evs)
    /\ contacts (guest_events guest_init
         (events_of_words (queue (push_events (Some (ring_callback (None : qemu_irq unit))) evs
            (events_dev_init example_config, ())).1))) ≡ₚ [(10, 20, 0x81)].
Proof.
  apply (touches_reach_the_guest (None : qemu_irq unit) (events_dev_init example_config) () example_surface
           [Touch MTES_MOUSE 0 10 20 0x81]).
  - split_and!; vm_compute; done.
  - vm_compute. done.
  - repeat constructor; vm_compute; done.
  - simpl. lia.
Defined.

(** ** Framebuffer updates *)

(** What happens to the framebuffer: the renderers change a rectangle, the
    phone asks for a refresh, reports that it handled a frame, or the socket
    that one was sent. Each comes with the state of the port. *)
Inductive fb_op :=
| Software (ready : bool) (ds : DisplaySurface) (x y w h : Z)
| OpenGLES (ready : bool) (w h yd pixels : Z)
| Refresh (ready : bool)
| Handled (ready : bool)
| SentCallback (ready succeeded : bool).

Definition fb_step (s : MTSState) (op : fb_op) : MTSState * list frame :=
  match op with
  | Software ready ds x y w h => _mt_fb_update ready ds s x y w h
  | OpenGLES ready w h yd pixels => multitouch_opengles_fb_update ready s w h yd pixels
  | Refresh ready => multitouch_refresh_screen ready s
  | Handled ready => multitouch_fb_updated ready s
  | SentCallback ready succeeded => _on_fb_sent ready succeeded s
  end.

(** A pixel of the rectangle an operation changes. *)
Definition in_rect (x y w h : Z) (px : Z * Z) : Prop := x <= px.1 < x + w /\ y <= px.2 < y + h.
Definition in_header (hd : MTFrameHeader) (px : Z * Z) : Prop := in_rect (hdr_x hd) (hdr_y hd) (hdr_w hd) (hdr_h hd) px.

Definition changes (s : MTSState) (op : fb_op) (px : Z * Z) : Prop :=
  match op with
  | Software _ _ x y w h => in_rect x y w h px
  | OpenGLES _ w h _ _ => in_rect 0 0 w h px
  | Refresh _ => current_fb s <> None /\ in_rect 0 0 (disp_width (fb_header s)) (disp_height (fb_header s)) px
  | Handled _ | SentCallback _ _ => False
  end.

Definition rect_ok (x y w h : Z) : Prop := 0 <= x /\ 0 <= w /\ x + w < 2 ^ 31 /\ 0 <= y /\ 0 <= h /\ y + h < 2 ^ 31.

Definition fb_op_ok (op : fb_op) : Prop :=
  match op with
  | Software _ ds x y w h => rect_ok x y w h /\ rect_ok 0 0 (surface_width ds) (surface_height ds)
  | OpenGLES _ w h _ _ => rect_ok 0 0 w h
  | _ => True
  end.

Record fb_ok (s : MTSState) : Prop := {
  fb_initialized : mt_initialized s = true;
  fb_rect : rect_ok (hdr_x (fb_header s)) (hdr_y (fb_header s)) (hdr_w (fb_header s)) (hdr_h (fb_header s));
  fb_display : rect_ok 0 0 (disp_width (fb_header s)) (disp_height (fb_header s));
}.

(** The pixel has been sent with one of the frames or waits in the header. *)
Definition accounted (r : MTSState * list frame) (px : Z * Z) : Prop :=
  Exists (fun f => in_header f.1.1 px) r.2 \/ in_header (fb_header r.1) px.

Lemma accumulate_ok hd x y w h :
  rect_ok (hdr_x hd) (hdr_y hd) (hdr_w hd) (hdr_h hd) -> rect_ok x y w h ->
  let a := accumulate hd x y w h in
  rect_ok (hdr_x a) (hdr_y a) (hdr_w a) (hdr_h a) /\ disp_width a = disp_width hd /\ disp_height a = disp_height hd
  /\ forall px, in_header hd px \/ in_rect x y w h px -> in_header a px.
Proof.
  unfold rect_ok. intros H1 H2. unfold accumulate, in_header, in_rect.
  destruct (Z.eqb_spec (hdr_w hd) 0), (Z.eqb_spec (hdr_h hd) 0); cbn [andb hdr_x hdr_y hdr_w hdr_h set_rect disp_width disp_height];
    [split_and!; try lia; intros; lia|..];
    rewrite !(swrap_small 32 (_ + _)) by (unfold in_s; lia);
    repeat match goal with |- context [if ?a <? ?b then _ else _] => destruct (Z.ltb_spec a b) end;
    rewrite !swrap_small by (unfold in_s; lia); (split_and!; try lia; intros; lia).
Qed.

Lemma start_transfer_ok ready s : fb_ok s ->
  fb_ok (start_transfer ready s).1 /\ forall px, in_header (fb_header s) px -> accounted (start_transfer ready s) px.
Proof.
  intros [H1 H2 H3]. unfold start_transfer, mts_port_send_frame. destruct ready; cbn.
  - split; [split; cbn; [done| |done]; unfold rect_ok; lia|]. intros px Hpx. left. by apply Exists_cons_hd.
  - split; [by split|]. intros px Hpx. by right.
Qed.

Lemma common_update_ok ready s x y w h : fb_ok s -> rect_ok x y w h ->
  let r := _mt_fb_common_update ready s x y w h in
  fb_ok r.1 /\ forall px, in_header (fb_header s) px \/ in_rect x y w h px -> accounted r px.
Proof.
  intros [H1 H2 H3] Hr. destruct (accumulate_ok _ x y w h H2 Hr) as (A1 & A2 & A3 & A4).
  unfold _mt_fb_common_update. set (s1 := set_fb _ _ s).
  assert (fb_ok s1) as Hs1. { split; [done|done|]. cbn. by rewrite A2, A3. }
  case_match; [|by split; [|right; apply A4]].
  destruct (start_transfer_ok ready s1 Hs1) as [B1 B2]. split; [done|]. intros px Hpx. by apply B2, A4.
Qed.

Lemma fb_step_ok s op : fb_ok s -> fb_op_ok op ->
  fb_ok (fb_step s op).1 /\ forall px, in_header (fb_header s) px \/ changes s op px -> accounted (fb_step s op) px.
Proof.
  intros Hok Hop. pose proof Hok as [H1 H2 H3]. destruct op as [ready ds x y w h|ready w h yd pixels|ready|ready|ready b]; cbn [fb_step changes].
  - destruct Hop as [Hr Hd]. unfold _mt_fb_update. set (s1 := set_surface _ _ _).
    assert (fb_ok s1) as Hs1 by by split. by apply (common_update_ok ready s1).
  - unfold multitouch_opengles_fb_update. rewrite H1. cbn [negb]. set (s1 := set_surface _ _ _).
    assert (fb_ok s1) as Hs1 by by split. by apply (common_update_ok ready s1).
  - unfold multitouch_refresh_screen. rewrite H1. cbn [negb]. destruct (current_fb s) eqn:E.
    + destruct (common_update_ok ready s 0 0 _ _ Hok H3) as [A1 A2]. split; [done|]. intros px Hpx. apply A2. naive_solver.
    + split; [done|]. intros px [?|[? _]]; [by right|done].
  - unfold multitouch_fb_updated. set (s1 := set_fb _ _ s). assert (fb_ok s1) as Hs1 by by split.
    case_match; [|by split; [|intros px [?|[]]; right]].
    destruct (start_transfer_ok ready s1 Hs1) as [A1 A2]. split; [done|]. intros px [?|[]]. by apply A2.
  - unfold _on_fb_sent. case_match; [|by split; [|intros px [?|[]]; right]].
    destruct (start_transfer_ok ready s Hok) as [A1 A2]. split; [done|]. intros px [?|[]]. by apply A2.
Qed.

Fixpoint fb_run (s : MTSState) (ops : list fb_op) : MTSState * list frame :=
  match ops with
  | [] => (s, [])
  | op :: ops => let '(s, f1) := fb_step s op in let '(s, f2) := fb_run s ops in (s, f1 ++ f2)
  end.

Lemma fb_run_ok ops s : fb_ok s -> Forall fb_op_ok ops ->
  fb_ok (fb_run s ops).1 /\ forall px, in_header (fb_header s) px -> accounted (fb_run s ops) px.
Proof.
  revert s. induction ops as [|op ops IH]; intros s Hok Hops; [by split; [|right]|].
  apply Forall_cons in Hops as [Hop Hops]. destruct (fb_step_ok s op Hok Hop) as [A1 A2].
  cbn [fb_run]. destruct (fb_step s op) as [s1 f1]. destruct (IH s1 A1 Hops) as [B1 B2].
  destruct (fb_run s1 ops) as [s2 f2]. split; [done|]. intros px Hpx. unfold accounted. cbn. rewrite Exists_app.
  destruct (A2 px (or_introl Hpx)) as [|Hh]; [by left; left|]. destruct (B2 px Hh); [by left; right|by right].
Qed.

(** No change of the screen is lost on the way to the phone. At any point
    of any run of the screen's framebuffer operations, a pixel that an
    operation changes is in a frame sent then or later, or still in the
    rectangle that waits to be sent; and when the phone reports a frame as
    handled and the port is ready, nothing is left waiting. *)
Theorem no_fb_change_is_lost ds before op after px :
  rect_ok 0 0 (surface_width ds) (surface_height ds) -> Forall fb_op_ok (before ++ op :: after) ->
  let s := (fb_run (multitouch_init ds MTSState_zero) before).1 in
  (changes s op px -> accounted (fb_run s (op :: after)) px)
  /\ forall px', ~ in_header (fb_header (fb_step s (Handled true)).1) px'.
Proof.
  intros Hd Hops s. apply Forall_app in Hops as [Hb Ha]. apply Forall_cons in Ha as [Hop Ha].
  assert (fb_ok (multitouch_init ds MTSState_zero)) as Hi by (split; [done| |done]; unfold rect_ok; cbn; lia).
  destruct (fb_run_ok before _ Hi Hb) as [Hs _]. fold s in Hs. split.
  - intros Hch. destruct (fb_step_ok s op Hs Hop) as [A1 A2]. cbn [fb_run].
    destruct (fb_step s op) as [s1 f1]. destruct (fb_run_ok after s1 A1 Ha) as [_ B].
    destruct (fb_run s1 after) as [s2 f2]. unfold accounted. cbn. rewrite Exists_app.
    destruct (A2 px (or_intror Hch)) as [|Hh]; [by left; left|]. destruct (B px Hh); [by left; right|by right].
  - intros px'. cbn [fb_step]. unfold multitouch_fb_updated. cbn [set_fb fb_header]. destruct (has_update (fb_header s)) eqn:E.
    + cbn. unfold in_header, in_rect. cbn. lia.
    + cbn. unfold has_update in E. apply andb_false_iff in E. rewrite !nz_false in E. unfold in_header, in_rect. lia.
Qed.

Lemma no_fb_change_is_lost_witness :
  let s := (fb_run (multitouch_init example_surface MTSState_zero) [Software true example_surface 0 0 10 10]).1 in
  accounted (fb_run s [Software true example_surface 5 5 20 20; Handled true]) (7, 7).
Proof.
  apply (no_fb_change_is_lost example_surface [Software true example_surface 0 0 10 10]
           (Software true example_surface 5 5 20 20) [Handled true] (7, 7)).
  - unfold rect_ok. cbn. lia.
  - repeat (apply Forall_cons; split); try done; unfold fb_op_ok, rect_ok; cbn; lia.
  - unfold changes, in_rect. cbn. lia.
Defined.
