(* ===== verification/GoldfishBattery.v ===== *)
(** The goldfish battery: hw/android/goldfish/battery.c, with the codes of
    include/hw/power_supply.h. The console sets properties of the battery and
    of the AC line; the guest reads them and the kind of change that raised
    the interrupt. *)
From stdpp Require Import pretty.
From Stdlib Require Import String Ascii.
From S2P Require Import Prelude ByteStream Irq GoldfishInt GoldfishDevice.
Open Scope list_scope.

Definition BATTERY_INT_STATUS : Z := 0x00.
Definition BATTERY_INT_ENABLE : Z := 0x04.
Definition BATTERY_AC_ONLINE : Z := 0x08.
Definition BATTERY_STATUS : Z := 0x0C.
Definition BATTERY_HEALTH : Z := 0x10.
Definition BATTERY_PRESENT : Z := 0x14.
Definition BATTERY_CAPACITY : Z := 0x18.
Definition BATTERY_STATUS_CHANGED : Z := 1 .<< 0.
Definition AC_STATUS_CHANGED : Z := 1 .<< 1.
Definition BATTERY_INT_MASK : Z := BATTERY_STATUS_CHANGED .| AC_STATUS_CHANGED.

Definition POWER_SUPPLY_STATUS_CHARGING : Z := 1.
Definition POWER_SUPPLY_STATUS_DISCHARGING : Z := 2.
Definition POWER_SUPPLY_STATUS_NOT_CHARGING : Z := 3.
Definition POWER_SUPPLY_STATUS_FULL : Z := 4.
Definition POWER_SUPPLY_HEALTH_GOOD : Z := 1.
Definition POWER_SUPPLY_HEALTH_OVERHEAT : Z := 2.
Definition POWER_SUPPLY_HEALTH_DEAD : Z := 3.
Definition POWER_SUPPLY_HEALTH_OVERVOLTAGE : Z := 4.
Definition POWER_SUPPLY_HEALTH_UNSPEC_FAILURE : Z := 5.
Definition POWER_SUPPLY_PROP_STATUS : Z := 0.
Definition POWER_SUPPLY_PROP_HEALTH : Z := 1.
Definition POWER_SUPPLY_PROP_PRESENT : Z := 2.
Definition POWER_SUPPLY_PROP_ONLINE : Z := 3.
Definition POWER_SUPPLY_PROP_CAPACITY : Z := 23.

Record goldfish_battery_state := mkBat {
  bat_dev : goldfish_device;
  int_status : Z;
  int_enable : Z;
  ac_online : Z;
  status : Z;
  health : Z;
  present : Z;
  capacity : Z;
  hw_has_battery : bool;
}.

Definition set_int_status (v : Z) (s : goldfish_battery_state) : goldfish_battery_state :=
  mkBat (bat_dev s) v (int_enable s) (ac_online s) (status s) (health s) (present s) (capacity s) (hw_has_battery s).
Definition set_int_enable (v : Z) (s : goldfish_battery_state) : goldfish_battery_state :=
  mkBat (bat_dev s) (int_status s) v (ac_online s) (status s) (health s) (present s) (capacity s) (hw_has_battery s).
Definition set_ac_online (v : Z) (s : goldfish_battery_state) : goldfish_battery_state :=
  mkBat (bat_dev s) (int_status s) (int_enable s) v (status s) (health s) (present s) (capacity s) (hw_has_battery s).
Definition set_status (v : Z) (s : goldfish_battery_state) : goldfish_battery_state :=
  mkBat (bat_dev s) (int_status s) (int_enable s) (ac_online s) v (health s) (present s) (capacity s) (hw_has_battery s).
Definition set_health (v : Z) (s : goldfish_battery_state) : goldfish_battery_state :=
  mkBat (bat_dev s) (int_status s) (int_enable s) (ac_online s) (status s) v (present s) (capacity s) (hw_has_battery s).
Definition set_present (v : Z) (s : goldfish_battery_state) : goldfish_battery_state :=
  mkBat (bat_dev s) (int_status s) (int_enable s) (ac_online s) (status s) (health s) v (capacity s) (hw_has_battery s).
Definition set_capacity (v : Z) (s : goldfish_battery_state) : goldfish_battery_state :=
  mkBat (bat_dev s) (int_status s) (int_enable s) (ac_online s) (status s) (health s) (present s) v (hw_has_battery s).

Definition BATTERY_STATE_SAVE_VERSION : Z := 1.

Definition goldfish_battery_fields : list (QField goldfish_battery_state) := [
  Q_FIELD_INT32 int_status set_int_status;
  Q_FIELD_INT32 int_enable set_int_enable;
  Q_FIELD_INT32 (fun s => u32 (ac_online s)) (fun v => set_ac_online (s32 v));
  Q_FIELD_INT32 (fun s => u32 (status s)) (fun v => set_status (s32 v));
  Q_FIELD_INT32 (fun s => u32 (health s)) (fun v => set_health (s32 v));
  Q_FIELD_INT32 (fun s => u32 (present s)) (fun v => set_present (s32 v));
  Q_FIELD_INT32 (fun s => u32 (capacity s)) (fun v => set_capacity (s32 v))].

Definition goldfish_battery_save {F} `{ByteWriter F} (f : F) (s : goldfish_battery_state) : F :=
  qemu_put_struct f goldfish_battery_fields s.

Definition goldfish_battery_load {G} `{ByteReader G} (g : G) (s : goldfish_battery_state) (version_id : Z) :
    Z * goldfish_battery_state * G :=
  if negb (version_id =? BATTERY_STATE_SAVE_VERSION) then (-1, s, g)
  else qemu_get_struct g goldfish_battery_fields s.

(** [goldfish_battery_init] before the device is registered. *)
Definition goldfish_battery_init (has_battery : bool) : goldfish_battery_state :=
  let dev := mkDev None 0 [103; 111; 108; 100; 102; 105; 115; 104; 45; 98; 97; 116; 116; 101; 114; 121] 0 0 0x1000 0 1 in
  if has_battery then
    mkBat dev 0 0 1 POWER_SUPPLY_STATUS_CHARGING POWER_SUPPLY_HEALTH_GOOD 1 50 true
  else
    mkBat dev 0 0 1 POWER_SUPPLY_STATUS_NOT_CHARGING POWER_SUPPLY_HEALTH_DEAD 0 0 false.

Section device.
Context {W : Type} (pic : list (qemu_irq W)).

(** [None] is [cpu_abort]. *)
Definition goldfish_battery_read (s : goldfish_battery_state) (w : W) (offset : Z) :
    option (Z * goldfish_battery_state * W) :=
  if offset =? BATTERY_INT_STATUS then
    let ret := int_status s .& int_enable s in
    if nz ret then
      w ← goldfish_device_set_irq pic (bat_dev s) 0 0 w;
      Some (ret, set_int_status 0 s, w)
    else Some (ret, s, w)
  else if offset =? BATTERY_INT_ENABLE then Some (int_enable s, s, w)
  else if offset =? BATTERY_AC_ONLINE then Some (u32 (ac_online s), s, w)
  else if offset =? BATTERY_STATUS then Some (u32 (status s), s, w)
  else if offset =? BATTERY_HEALTH then Some (u32 (health s), s, w)
  else if offset =? BATTERY_PRESENT then Some (u32 (present s), s, w)
  else if offset =? BATTERY_CAPACITY then Some (u32 (capacity s), s, w)
  else None.

Definition goldfish_battery_write (s : goldfish_battery_state) (offset val : Z) : option goldfish_battery_state :=
  if offset =? BATTERY_INT_ENABLE then Some (set_int_enable val s) else None.

(** The property switch of [goldfish_battery_set_prop]. *)
Definition assign_prop (ac : bool) (property value : Z) (s : goldfish_battery_state) : goldfish_battery_state :=
  if ac then
    if property =? POWER_SUPPLY_PROP_ONLINE then set_ac_online value s else s
  else
    if property =? POWER_SUPPLY_PROP_STATUS then set_status value s
    else if property =? POWER_SUPPLY_PROP_HEALTH then set_health value s
    else if property =? POWER_SUPPLY_PROP_PRESENT then set_present value s
    else if property =? POWER_SUPPLY_PROP_CAPACITY then set_capacity value s
    else s.

(** [battery_state] is NULL before the initialisation: [None] in [bs]. *)
Definition goldfish_battery_set_prop (bs : option goldfish_battery_state) (w : W) (ac : bool) (property value : Z) :
    option (option goldfish_battery_state * W) :=
  let new_status := if ac then AC_STATUS_CHANGED else BATTERY_STATUS_CHANGED in
  match bs with
  | None => Some (None, w)
  | Some s =>
      if negb (hw_has_battery s) then Some (Some s, w)
      else
        let s := assign_prop ac property value s in
        if negb (new_status =? int_status s) then
          let s := set_int_status (int_status s .| new_status) s in
          w ← goldfish_device_set_irq pic (bat_dev s) 0 (s32 (int_status s .& int_enable s)) w;
          Some (Some s, w)
        else Some (Some s, w)
  end.
End device.

(** The lines [goldfish_battery_display] hands to its callback; [snprintf] to
    the 100-byte buffer does not cut any of them. *)
Definition status_name (v : Z) : string :=
  if v =? POWER_SUPPLY_STATUS_CHARGING then "Charging"
  else if v =? POWER_SUPPLY_STATUS_DISCHARGING then "Discharging"
  else if v =? POWER_SUPPLY_STATUS_NOT_CHARGING then "Not charging"
  else if v =? POWER_SUPPLY_STATUS_FULL then "Full"
  else "Unknown".

Definition health_name (v : Z) : string :=
  if v =? POWER_SUPPLY_HEALTH_GOOD then "Good"
  else if v =? POWER_SUPPLY_HEALTH_OVERHEAT then "Overhead"
  else if v =? POWER_SUPPLY_HEALTH_DEAD then "Dead"
  else if v =? POWER_SUPPLY_HEALTH_OVERVOLTAGE then "Overvoltage"
  else if v =? POWER_SUPPLY_HEALTH_UNSPEC_FAILURE then "Unspecified failure"
  else "Unknown".

Definition CRLF : string := String (ascii_of_nat 13) (String (ascii_of_nat 10) EmptyString).

(** [%d] is the decimal form. *)
Definition goldfish_battery_display (s : goldfish_battery_state) : list string := [
  String.append "AC: " (String.append (if nz (ac_online s) then "online" else "offline") CRLF);
  String.append "status: " (String.append (status_name (status s)) CRLF);
  String.append "health: " (String.append (health_name (health s)) CRLF);
  String.append "present: " (String.append (if nz (present s) then "true" else "false") CRLF);
  String.append "capacity: " (String.append (pretty (capacity s)) CRLF)].

(** ** The interrupt *)

Section interrupt.
Context {W : Type} (pic : list (qemu_irq W)) `{IrqLines W pic}.

(** The battery's line; [int_enable] and [int_status] hold the two kinds of
    change. *)
Definition bat_ok (s : goldfish_battery_state) (w : W) : Prop :=
  0 < dev_irq_count (bat_dev s) /\ (Z.to_nat (u32 (dev_irq (bat_dev s))) < length pic)%nat
  /\ lines_ok w /\ hw_has_battery s = true /\ 0 <= int_status s <= 3 /\ 0 <= int_enable s <= 3.

Definition bat_line (s : goldfish_battery_state) (w : W) : bool := line_level w (u32 (dev_irq (bat_dev s))).

Lemma bat_set_irq s w l : bat_ok s w ->
  exists w', goldfish_device_set_irq pic (bat_dev s) 0 l w = Some w' /\ lines_ok w' /\ bat_line s w' = nz l.
Proof.
  intros (Hc & Hl & Hw & _). destruct (device_set_irq_some pic (bat_dev s) 0 l w) as (line & Hn & E);
    [lia|done|by rewrite Z.add_0_r|]. rewrite Z.add_0_r in Hn. exists (qemu_set_irq w line l).
  split; [done|]. split; [by eapply set_line_ok|]. apply (set_line_same pic); [apply (wrap_range 32); lia|done..].
Qed.

(** Small masks. *)
Lemma mask3_cases (v : Z) : 0 <= v <= 3 -> v = 0 \/ v = 1 \/ v = 2 \/ v = 3.
Proof. lia. Qed.

Lemma s32_mask (a b : Z) : 0 <= a <= 3 -> 0 <= b <= 3 -> s32 (a .& b) = a .& b.
Proof.
  intros Ha%mask3_cases Hb%mask3_cases.
  destruct Ha as [->|[->|[-> | ->]]], Hb as [->|[->|[-> | ->]]]; reflexivity.
Qed.

(** The line is up exactly when an enabled change is recorded. *)
Definition line_matches (s : goldfish_battery_state) (w : W) : Prop :=
  bat_line s w = nz (int_status s .& int_enable s).

Lemma set_prop_spec s w (ac : bool) property value : bat_ok s w ->
  let k := if ac then AC_STATUS_CHANGED else BATTERY_STATUS_CHANGED in
  exists s' w', goldfish_battery_set_prop pic (Some s) w ac property value = Some (Some s', w')
    /\ bat_ok s' w' /\ int_status s' = int_status s .| k /\ int_enable s' = int_enable s
    /\ (int_status s <> k -> line_matches s' w') /\ (int_status s = k -> w' = w).
Proof.
  intros Hok k. unfold goldfish_battery_set_prop. fold k. pose proof Hok as (Hc & Hl & Hw & Hb & Hs & He).
  rewrite Hb. cbn [negb]. set (s1 := assign_prop ac property value s).
  assert (bat_dev s1 = bat_dev s /\ int_status s1 = int_status s /\ int_enable s1 = int_enable s
    /\ hw_has_battery s1 = true) as (Ed & Ei & Ee & Eb).
  { subst s1. unfold assign_prop. repeat case_match; done. }
  rewrite Ei. destruct (Z.eqb_spec k (int_status s)) as [E|E]; cbn [negb].
  - exists s1, w. rewrite Ei, <- E. unfold bat_ok. rewrite Ed, Ei, Ee. split_and!; try done; try lia.
    subst k. by destruct ac.
  - set (s2 := set_int_status (int_status s .| k) s1).
    assert (0 <= int_status s .| k <= 3) as Hk.
    { subst k. apply mask3_cases in Hs. destruct ac, Hs as [->|[->|[-> | ->]]]; vm_compute; split; discriminate. }
    assert (bat_ok s2 w) as Hok2. { unfold bat_ok, s2. cbn. rewrite Ed, Ee. split_and!; try done; lia. }
    destruct (bat_set_irq s2 w (s32 (int_status s2 .& int_enable s2)) Hok2) as (w' & Ew & Hw' & Hlev).
    exists s2, w'. rewrite Ew. split; [done|]. split.
    { destruct Hok2 as (? & ? & _ & ? & ? & ?). split_and!; try done; lia. }
    split; [done|]. split; [done|]. split; [|done]. intros _. unfold line_matches. rewrite Hlev.
    rewrite s32_mask by (cbn; rewrite ?Ee; lia). done.
Qed.
End interrupt.

(** A property change of a kind the guest has enabled, when nothing is
    waiting to be acknowledged, raises the battery's line; the guest's read of
    the status register then reports exactly that kind, lowers the line and
    leaves nothing waiting. *)
Theorem battery_change_interrupts {W} (pic : list (qemu_irq W)) `{IrqLines W pic} s w (ac : bool) property value :
  let k := if ac then AC_STATUS_CHANGED else BATTERY_STATUS_CHANGED in
  bat_ok pic s w -> int_status s = 0 -> nz (k .& int_enable s) = true ->
  exists s' w' s'' w'', goldfish_battery_set_prop pic (Some s) w ac property value = Some (Some s', w')
    /\ bat_line pic s' w' = true
    /\ goldfish_battery_read pic s' w' BATTERY_INT_STATUS = Some (k, s'', w'')
    /\ int_status s'' = 0 /\ bat_line pic s'' w'' = false.
Proof.
  intros k Hok Hs0 Hen. destruct (set_prop_spec pic s w ac property value Hok)
    as (s' & w' & E & Hok' & Hst & Hie & Hlm & _). fold k in Hst, Hlm. rewrite Hs0 in Hst, Hlm. simpl in Hst.
  assert (0 <> k) as Hk by (subst k; destruct ac; done). specialize (Hlm Hk).
  destruct (bat_set_irq pic s' w' 0 Hok') as (w'' & Ew & _ & Hlow).
  exists s', w', (set_int_status 0 s'), w''. split; [done|].
  assert (nz (int_status s' .& int_enable s') = true) as Hnz by by rewrite Hst, Hie.
  split; [by rewrite Hlm|]. unfold goldfish_battery_read. cbn [Z.eqb BATTERY_INT_STATUS]. cbv zeta.
  rewrite Hnz, Ew. split; [|done]. cbn. do 3 f_equal. rewrite Hst, Hie.
  destruct Hok as (_ & _ & _ & _ & _ & He). clear -Hen He. apply mask3_cases in He. subst k.
  destruct ac, He as [E|[E|[E|E]]]; rewrite E in *; done.
Qed.

Definition example_battery : goldfish_battery_state :=
  set_int_enable BATTERY_INT_MASK (mkBat (mkDev None 0 [] 0 0 0x1000 5 1) 0 0 1 1 1 1 50 true).

Lemma example_battery_ok : bat_ok (goldfish_int_lines 32) (H := int_irq_lines 32 ltac:(lia)) example_battery goldfish_interrupt_init.
Proof. split; [done|]. split; [vm_compute; lia|]. split; [exact init_inv|]. split; [done|]. split; vm_compute; split; discriminate. Qed.

Lemma battery_change_interrupts_witness :
  exists s' w' s'' w'', goldfish_battery_set_prop (goldfish_int_lines 32) (Some example_battery) goldfish_interrupt_init
      true POWER_SUPPLY_PROP_ONLINE 0 = Some (Some s', w')
    /\ Z.testbit (level w') (u32 5) = true
    /\ goldfish_battery_read (goldfish_int_lines 32) s' w' BATTERY_INT_STATUS = Some (AC_STATUS_CHANGED, s'', w'')
    /\ int_status s'' = 0 /\ Z.testbit (level w'') (u32 5) = false.
Proof.
  destruct (battery_change_interrupts (goldfish_int_lines 32) (H := int_irq_lines 32 ltac:(lia)) example_battery
    goldfish_interrupt_init true POWER_SUPPLY_PROP_ONLINE 0) as (s' & w' & s'' & w'' & H1 & H2 & H3 & H4 & H5).
  - exact example_battery_ok.
  - reflexivity.
  - reflexivity.
  - exists s', w', s'', w''. split; [exact H1|]. injection H1 as <- <-. split; [exact H2|]. split; [exact H3|].
    split; [exact H4|]. vm_compute in H3. injection H3 as <- <-. exact H5.
Defined.

(** A change recorded while its interrupt was masked, and so never
    acknowledged, silences later changes of the same kind: with the interrupt
    enabled, setting the property again leaves the line as it is although an
    enabled change is recorded. *)
Theorem battery_masked_change_is_silent {W} (pic : list (qemu_irq W)) `{IrqLines W pic} s w (ac : bool) property value value' :
  let k := if ac then AC_STATUS_CHANGED else BATTERY_STATUS_CHANGED in
  bat_ok pic s w -> int_status s = 0 -> int_enable s = 0 ->
  exists s1 w1 s2 s3, goldfish_battery_set_prop pic (Some s) w ac property value = Some (Some s1, w1)
    /\ goldfish_battery_write s1 BATTERY_INT_ENABLE BATTERY_INT_MASK = Some s2
    /\ goldfish_battery_set_prop pic (Some s2) w1 ac property value' = Some (Some s3, w1)
    /\ nz (int_status s3 .& int_enable s3) = true /\ bat_line pic s3 w1 = false.
Proof.
  intros k Hok Hs0 He0. destruct (set_prop_spec pic s w ac property value Hok)
    as (s1 & w1 & E1 & Hok1 & Hst1 & Hie1 & Hlm & _). fold k in Hst1, Hlm. rewrite Hs0 in Hst1, Hlm. simpl in Hst1.
  assert (0 <> k) as Hk by (subst k; destruct ac; done). specialize (Hlm Hk).
  set (s2 := set_int_enable BATTERY_INT_MASK s1).
  assert (bat_ok pic s2 w1) as Hok2.
  { destruct Hok1 as (? & ? & ? & ? & ? & ?). split_and!; try done; cbn; lia. }
  destruct (set_prop_spec pic s2 w1 ac property value' Hok2) as (s3 & w3 & E3 & _ & Hst3 & Hie3 & _ & Hsame).
  fold k in Hst3, Hsame. specialize (Hsame Hst1). subst w3. exists s1, w1, s2, s3.
  split; [exact E1|]. split; [done|]. split; [exact E3|]. split.
  - rewrite Hst3, Hie3. cbn. rewrite Hst1. subst k. by destruct ac.
  - assert (bat_dev s3 = bat_dev s1) as Hd.
    { unfold goldfish_battery_set_prop in E3. destruct (negb (hw_has_battery s2)); [by injection E3 as <-|].
      revert E3. unfold assign_prop. repeat case_match; simpl; intros E3;
        try (apply bind_Some in E3 as (? & _ & E3)); by injection E3 as <-. }
    unfold line_matches, bat_line in *. rewrite Hd, Hlm, Hie1, He0. by rewrite Z.land_0_r.
Qed.

Lemma battery_masked_change_is_silent_witness :
  exists s1 w1 s2 s3, goldfish_battery_set_prop (goldfish_int_lines 32) (Some (set_int_enable 0 example_battery))
      goldfish_interrupt_init true POWER_SUPPLY_PROP_ONLINE 0 = Some (Some s1, w1)
    /\ goldfish_battery_write s1 BATTERY_INT_ENABLE BATTERY_INT_MASK = Some s2
    /\ goldfish_battery_set_prop (goldfish_int_lines 32) (Some s2) w1 true POWER_SUPPLY_PROP_ONLINE 1 = Some (Some s3, w1).
Proof.
  destruct (battery_masked_change_is_silent (goldfish_int_lines 32) (H := int_irq_lines 32 ltac:(lia))
    (set_int_enable 0 example_battery) goldfish_interrupt_init true POWER_SUPPLY_PROP_ONLINE 0 1)
    as (s1 & w1 & s2 & s3 & H1 & H2 & H3 & _).
  - pose proof example_battery_ok as (? & ? & ? & ? & ? & ?). split_and!; try done; cbn; lia.
  - reflexivity.
  - reflexivity.
  - exists s1, w1, s2, s3. split; [exact H1|]. split; [exact H2|exact H3].
Defined.
