(* ===== verification/I8259.v ===== *)
(** The PC's pair of interrupt controllers: hw/intc/i8259.c. A [PicState] is
    one 8259A with its eight inputs, a [PicState2] the master (0) and the
    slave (1), which is cascaded on the master's input 2; the slave's lines
    are 8 to 15. *)
From S2P Require Import Prelude ByteStream Irq.

Record PicState := mkPic {
  last_irr : Z;
  irr : Z;
  imr : Z;
  isr : Z;
  priority_add : Z;
  irq_base : Z;
  read_reg_select : Z;
  poll : Z;
  special_mask : Z;
  init_state : Z;
  auto_eoi : Z;
  rotate_on_auto_eoi : Z;
  special_fully_nested_mode : Z;
  init4 : Z;
  single_mode : Z;
  elcr : Z;
  elcr_mask : Z;
}.

Definition with_last_irr (v : Z) (s : PicState) : PicState :=
  mkPic v (irr s) (imr s) (isr s) (priority_add s) (irq_base s) (read_reg_select s) (poll s) (special_mask s) (init_state s) (auto_eoi s) (rotate_on_auto_eoi s) (special_fully_nested_mode s) (init4 s) (single_mode s) (elcr s) (elcr_mask s).
Definition with_irr (v : Z) (s : PicState) : PicState :=
  mkPic (last_irr s) v (imr s) (isr s) (priority_add s) (irq_base s) (read_reg_select s) (poll s) (special_mask s) (init_state s) (auto_eoi s) (rotate_on_auto_eoi s) (special_fully_nested_mode s) (init4 s) (single_mode s) (elcr s) (elcr_mask s).
Definition with_imr (v : Z) (s : PicState) : PicState :=
  mkPic (last_irr s) (irr s) v (isr s) (priority_add s) (irq_base s) (read_reg_select s) (poll s) (special_mask s) (init_state s) (auto_eoi s) (rotate_on_auto_eoi s) (special_fully_nested_mode s) (init4 s) (single_mode s) (elcr s) (elcr_mask s).
Definition with_isr (v : Z) (s : PicState) : PicState :=
  mkPic (last_irr s) (irr s) (imr s) v (priority_add s) (irq_base s) (read_reg_select s) (poll s) (special_mask s) (init_state s) (auto_eoi s) (rotate_on_auto_eoi s) (special_fully_nested_mode s) (init4 s) (single_mode s) (elcr s) (elcr_mask s).
Definition with_priority_add (v : Z) (s : PicState) : PicState :=
  mkPic (last_irr s) (irr s) (imr s) (isr s) v (irq_base s) (read_reg_select s) (poll s) (special_mask s) (init_state s) (auto_eoi s) (rotate_on_auto_eoi s) (special_fully_nested_mode s) (init4 s) (single_mode s) (elcr s) (elcr_mask s).
Definition with_irq_base (v : Z) (s : PicState) : PicState :=
  mkPic (last_irr s) (irr s) (imr s) (isr s) (priority_add s) v (read_reg_select s) (poll s) (special_mask s) (init_state s) (auto_eoi s) (rotate_on_auto_eoi s) (special_fully_nested_mode s) (init4 s) (single_mode s) (elcr s) (elcr_mask s).
Definition with_read_reg_select (v : Z) (s : PicState) : PicState :=
  mkPic (last_irr s) (irr s) (imr s) (isr s) (priority_add s) (irq_base s) v (poll s) (special_mask s) (init_state s) (auto_eoi s) (rotate_on_auto_eoi s) (special_fully_nested_mode s) (init4 s) (single_mode s) (elcr s) (elcr_mask s).
Definition with_poll (v : Z) (s : PicState) : PicState :=
  mkPic (last_irr s) (irr s) (imr s) (isr s) (priority_add s) (irq_base s) (read_reg_select s) v (special_mask s) (init_state s) (auto_eoi s) (rotate_on_auto_eoi s) (special_fully_nested_mode s) (init4 s) (single_mode s) (elcr s) (elcr_mask s).
Definition with_special_mask (v : Z) (s : PicState) : PicState :=
  mkPic (last_irr s) (irr s) (imr s) (isr s) (priority_add s) (irq_base s) (read_reg_select s) (poll s) v (init_state s) (auto_eoi s) (rotate_on_auto_eoi s) (special_fully_nested_mode s) (init4 s) (single_mode s) (elcr s) (elcr_mask s).
Definition with_init_state (v : Z) (s : PicState) : PicState :=
  mkPic (last_irr s) (irr s) (imr s) (isr s) (priority_add s) (irq_base s) (read_reg_select s) (poll s) (special_mask s) v (auto_eoi s) (rotate_on_auto_eoi s) (special_fully_nested_mode s) (init4 s) (single_mode s) (elcr s) (elcr_mask s).
Definition with_auto_eoi (v : Z) (s : PicState) : PicState :=
  mkPic (last_irr s) (irr s) (imr s) (isr s) (priority_add s) (irq_base s) (read_reg_select s) (poll s) (special_mask s) (init_state s) v (rotate_on_auto_eoi s) (special_fully_nested_mode s) (init4 s) (single_mode s) (elcr s) (elcr_mask s).
Definition with_rotate_on_auto_eoi (v : Z) (s : PicState) : PicState :=
  mkPic (last_irr s) (irr s) (imr s) (isr s) (priority_add s) (irq_base s) (read_reg_select s) (poll s) (special_mask s) (init_state s) (auto_eoi s) v (special_fully_nested_mode s) (init4 s) (single_mode s) (elcr s) (elcr_mask s).
Definition with_special_fully_nested_mode (v : Z) (s : PicState) : PicState :=
  mkPic (last_irr s) (irr s) (imr s) (isr s) (priority_add s) (irq_base s) (read_reg_select s) (poll s) (special_mask s) (init_state s) (auto_eoi s) (rotate_on_auto_eoi s) v (init4 s) (single_mode s) (elcr s) (elcr_mask s).
Definition with_init4 (v : Z) (s : PicState) : PicState :=
  mkPic (last_irr s) (irr s) (imr s) (isr s) (priority_add s) (irq_base s) (read_reg_select s) (poll s) (special_mask s) (init_state s) (auto_eoi s) (rotate_on_auto_eoi s) (special_fully_nested_mode s) v (single_mode s) (elcr s) (elcr_mask s).
Definition with_single_mode (v : Z) (s : PicState) : PicState :=
  mkPic (last_irr s) (irr s) (imr s) (isr s) (priority_add s) (irq_base s) (read_reg_select s) (poll s) (special_mask s) (init_state s) (auto_eoi s) (rotate_on_auto_eoi s) (special_fully_nested_mode s) (init4 s) v (elcr s) (elcr_mask s).
Definition with_elcr (v : Z) (s : PicState) : PicState :=
  mkPic (last_irr s) (irr s) (imr s) (isr s) (priority_add s) (irq_base s) (read_reg_select s) (poll s) (special_mask s) (init_state s) (auto_eoi s) (rotate_on_auto_eoi s) (special_fully_nested_mode s) (init4 s) (single_mode s) v (elcr_mask s).
Definition with_elcr_mask (v : Z) (s : PicState) : PicState :=
  mkPic (last_irr s) (irr s) (imr s) (isr s) (priority_add s) (irq_base s) (read_reg_select s) (poll s) (special_mask s) (init_state s) (auto_eoi s) (rotate_on_auto_eoi s) (special_fully_nested_mode s) (init4 s) (single_mode s) (elcr s) v.

(** Set or clear the bit of a line in a register. *)
Definition set_line (irq v : Z) : Z := v .| (1 .<< irq).
Definition clear_line (irq v : Z) : Z := v .& .~ (1 .<< irq).

(** [elcr] chooses level or edge triggering of each line. *)
Definition pic_set_irq1 (s : PicState) (irq level : Z) : PicState :=
  let mask := 1 .<< irq in
  if nz (elcr s .& mask) then
    if nz level then with_last_irr (set_line irq (last_irr s)) (with_irr (set_line irq (irr s)) s)
    else with_last_irr (clear_line irq (last_irr s)) (with_irr (clear_line irq (irr s)) s)
  else
    if nz level then
      let s := if last_irr s .& mask =? 0 then with_irr (set_line irq (irr s)) s else s in
      with_last_irr (set_line irq (last_irr s)) s
    else with_last_irr (clear_line irq (last_irr s)) s.

(** The search of [get_priority]; a nonzero 8-bit mask ends it within eight
    steps. *)
Fixpoint find_priority (fuel : nat) (s : PicState) (mask priority : Z) : Z :=
  match fuel with
  | O => priority
  | S fuel =>
      if mask .& (1 .<< ((priority + priority_add s) .& 7)) =? 0
      then find_priority fuel s mask (priority + 1)
      else priority
  end.

Definition get_priority (s : PicState) (mask : Z) : Z :=
  if mask =? 0 then 8 else find_priority 8 s mask 0.

(** [master] is [s == &s->pics_state->pics[0]]. *)
Definition pic_get_irq (master : bool) (s : PicState) : Z :=
  let mask := irr s .& .~ imr s in
  let priority := get_priority s mask in
  if priority =? 8 then -1
  else
    let mask := isr s in
    let mask := if nz (special_mask s) then mask .& .~ imr s else mask in
    let mask := if nz (special_fully_nested_mode s) && master then mask .& .~ (1 .<< 2) else mask in
    let cur_priority := get_priority s mask in
    if priority <? cur_priority then (priority + priority_add s) .& 7 else -1.

Section pair.
(** The target lowers the CPU's line when nothing is requested; the I/O
    APIC's callback. *)
Context (target_lowers : bool) {A : Type} (alt_irq_func : option (A -> Z -> Z -> A)).

Record PicState2 := mkPic2 { pic0 : PicState; pic1 : PicState; parent_irq : bool; alt : A }.

Definition pics (s : PicState2) (i : bool) : PicState := if i then pic1 s else pic0 s.
Definition set_pic (i : bool) (p : PicState) (s : PicState2) : PicState2 :=
  if i then mkPic2 (pic0 s) p (parent_irq s) (alt s) else mkPic2 p (pic1 s) (parent_irq s) (alt s).
Definition set_parent (b : bool) (s : PicState2) : PicState2 := mkPic2 (pic0 s) (pic1 s) b (alt s).

Definition pic_update_irq (s : PicState2) : PicState2 :=
  let irq2 := pic_get_irq false (pic1 s) in
  let s := if 0 <=? irq2 then set_pic false (pic_set_irq1 (pic_set_irq1 (pic0 s) 2 1) 2 0) s else s in
  let irq := pic_get_irq true (pic0 s) in
  if 0 <=? irq then set_parent true s
  else if target_lowers then set_parent false s else s.

(** [irq >> 3] selects the controller. *)
Definition i8259_set_irq (s : PicState2) (irq level : Z) : PicState2 :=
  let i := nz (irq .>> 3) in
  let s := set_pic i (pic_set_irq1 (pics s i) (irq .& 7) level) s in
  let s := match alt_irq_func with
           | Some f => mkPic2 (pic0 s) (pic1 s) (parent_irq s) (f (alt s) irq level)
           | None => s
           end in
  pic_update_irq s.

Definition pic_intack (s : PicState) (irq : Z) : PicState :=
  let s :=
    if nz (auto_eoi s) then
      if nz (rotate_on_auto_eoi s) then with_priority_add ((irq + 1) .& 7) s else s
    else with_isr (set_line irq (isr s)) s in
  if negb (nz (elcr s .& (1 .<< irq))) then with_irr (clear_line irq (irr s)) s else s.

Definition pic_read_irq (s : PicState2) : Z * PicState2 :=
  let irq := pic_get_irq true (pic0 s) in
  let '(intno, s) :=
    if 0 <=? irq then
      let s := set_pic false (pic_intack (pic0 s) irq) s in
      if irq =? 2 then
        let irq2 := pic_get_irq false (pic1 s) in
        let '(irq2, s) :=
          if 0 <=? irq2 then (irq2, set_pic true (pic_intack (pic1 s) irq2) s) else (7, s) in
        (irq_base (pic1 s) + irq2, s)
      else (irq_base (pic0 s) + irq, s)
    else (irq_base (pic0 s) + 7, s) in
  (intno, pic_update_irq s).

(** ELCR and its mask are not reset. *)
Definition pic_reset (s : PicState) : PicState :=
  mkPic 0 0 0 0 0 0 0 0 0 0 0 0 0 0 0 (elcr s) (elcr_mask s).

(** The end of an OCW2 command that frees line [irq]. *)
Definition end_irq (i : bool) (irq : Z) (rotate : bool) (s : PicState2) : PicState2 :=
  let p := with_isr (clear_line irq (isr (pics s i))) (pics s i) in
  let p := if rotate then with_priority_add ((irq + 1) .& 7) p else p in
  pic_update_irq (set_pic i p s).

(** OCW2: [cmd] is [val >> 5]. *)
Definition pic_ocw2 (s : PicState2) (i : bool) (val : Z) : PicState2 :=
  let cmd := val .>> 5 in
  let p := pics s i in
  if (cmd =? 0) || (cmd =? 4) then set_pic i (with_rotate_on_auto_eoi (cmd .>> 2) p) s
  else if (cmd =? 1) || (cmd =? 5) then
    let priority := get_priority p (isr p) in
    if negb (priority =? 8) then
      end_irq i ((priority + priority_add p) .& 7) (cmd =? 5) s
    else s
  else if cmd =? 3 then end_irq i (val .& 7) false s
  else if cmd =? 6 then pic_update_irq (set_pic i (with_priority_add ((val + 1) .& 7) p) s)
  else if cmd =? 7 then end_irq i (val .& 7) true s
  else s.

(** A write to port [addr] of controller [i]; [None] is [hw_error]. *)
Definition pic_ioport_write (s : PicState2) (i : bool) (addr val : Z) : option PicState2 :=
  let p := pics s i in
  if addr .& 1 =? 0 then
    if nz (val .& 0x10) then
      let p := with_single_mode (val .& 2) (with_init4 (val .& 1) (with_init_state 1 (pic_reset p))) in
      if nz (val .& 0x08) then None else Some (set_parent false (set_pic i p s))
    else if nz (val .& 0x08) then
      let p := if nz (val .& 0x04) then with_poll 1 p else p in
      let p := if nz (val .& 0x02) then with_read_reg_select (val .& 1) p else p in
      let p := if nz (val .& 0x40) then with_special_mask ((val .>> 5) .& 1) p else p in
      Some (set_pic i p s)
    else Some (pic_ocw2 s i val)
  else
    if init_state p =? 0 then Some (pic_update_irq (set_pic i (with_imr (u8 val) p) s))
    else if init_state p =? 1 then
      let st := if nz (single_mode p) then (if nz (init4 p) then 3 else 0) else 2 in
      Some (set_pic i (with_init_state st (with_irq_base (val .& 0xf8) p)) s)
    else if init_state p =? 2 then
      Some (set_pic i (with_init_state (if nz (init4 p) then 3 else 0) p) s)
    else if init_state p =? 3 then
      Some (set_pic i (with_init_state 0 (with_auto_eoi ((val .>> 1) .& 1)
              (with_special_fully_nested_mode ((val .>> 4) .& 1) p))) s)
    else Some s.

Definition pic_poll_read (s : PicState2) (i : bool) (addr1 : Z) : Z * PicState2 :=
  let ret := pic_get_irq (negb i) (pics s i) in
  if 0 <=? ret then
    let s :=
      if nz (addr1 .>> 7) then
        set_pic false (with_irr (clear_line 2 (irr (pic0 s))) (with_isr (clear_line 2 (isr (pic0 s))) (pic0 s))) s
      else s in
    let p := pics s i in
    let s := set_pic i (with_isr (clear_line ret (isr p)) (with_irr (clear_line ret (irr p)) p)) s in
    (ret, if nz (addr1 .>> 7) || negb (ret =? 2) then pic_update_irq s else s)
  else (0x07, pic_update_irq s).

Definition pic_ioport_read (s : PicState2) (i : bool) (addr1 : Z) : Z * PicState2 :=
  let addr := addr1 .& 1 in
  let p := pics s i in
  if nz (poll p) then
    let '(ret, s) := pic_poll_read s i addr1 in
    (ret, set_pic i (with_poll 0 (pics s i)) s)
  else if addr =? 0 then (if nz (read_reg_select p) then isr p else irr p, s)
  else (imr p, s).

Definition pic_intack_read (s : PicState2) : Z * PicState2 :=
  let '(ret, s) := pic_poll_read s false 0x00 in
  let '(ret, s) :=
    if ret =? 2 then let '(r, s) := pic_poll_read s true 0x80 in (r + 8, s) else (ret, s) in
  (ret, set_pic false (with_read_reg_select 1 (pic0 s)) s).

Definition elcr_ioport_write (s : PicState2) (i : bool) (val : Z) : PicState2 :=
  set_pic i (with_elcr (val .& elcr_mask (pics s i)) (pics s i)) s.
Definition elcr_ioport_read (s : PicState2) (i : bool) : Z := elcr (pics s i).

Definition pic_zero (mask : Z) : PicState := mkPic 0 0 0 0 0 0 0 0 0 0 0 0 0 0 0 0 mask.
Definition i8259_init (a : A) : PicState2 := mkPic2 (pic_zero 0xf8) (pic_zero 0xde) false a.
End pair.

Arguments PicState2 : clear implicits.

(** ** Snapshots *)

Definition pic_fields : list (QField PicState) := [
  Q_FIELD_BYTE last_irr with_last_irr; Q_FIELD_BYTE irr with_irr; Q_FIELD_BYTE imr with_imr;
  Q_FIELD_BYTE isr with_isr; Q_FIELD_BYTE priority_add with_priority_add; Q_FIELD_BYTE irq_base with_irq_base;
  Q_FIELD_BYTE read_reg_select with_read_reg_select; Q_FIELD_BYTE poll with_poll;
  Q_FIELD_BYTE special_mask with_special_mask; Q_FIELD_BYTE init_state with_init_state;
  Q_FIELD_BYTE auto_eoi with_auto_eoi; Q_FIELD_BYTE rotate_on_auto_eoi with_rotate_on_auto_eoi;
  Q_FIELD_BYTE special_fully_nested_mode with_special_fully_nested_mode; Q_FIELD_BYTE init4 with_init4;
  Q_FIELD_BYTE single_mode with_single_mode; Q_FIELD_BYTE elcr with_elcr].

(** [qemu_put_8s] of each register, in this order. *)
Definition pic_save {F} `{ByteWriter F} (f : F) (s : PicState) : F := qemu_put_struct f pic_fields s.

Definition pic_load {G} `{ByteReader G} (g : G) (s : PicState) (version_id : Z) : Z * PicState * G :=
  if negb (version_id =? 1) then (- EINVAL, s, g) else qemu_get_struct g pic_fields s.

(** ** Priorities *)

(** The priority of a line: 0 is the highest. *)
Definition prio (s : PicState) (i : Z) : Z := (i - priority_add s) mod 8.

(** The registers hold bytes, and the rotation is a line number. *)
Definition pic_ok (s : PicState) : Prop :=
  Forall (in_u 8) [last_irr s; irr s; imr s; isr s; priority_add s; irq_base s; read_reg_select s; poll s;
    special_mask s; init_state s; auto_eoi s; rotate_on_auto_eoi s; special_fully_nested_mode s; init4 s;
    single_mode s; elcr s; elcr_mask s]
  /\ priority_add s < 8.

Lemma land_7_mod a : a .& 7 = a mod 8.
Proof. change 7 with (Z.ones 3). by rewrite Z.land_ones by lia. Qed.

Lemma line_test mask i : 0 <= i -> (mask .& (1 .<< i) =? 0) = negb (Z.testbit mask i).
Proof. intros Hi. pose proof (nz_land_bit mask i Hi) as E. unfold nz in E. rewrite <- E. by rewrite negb_involutive. Qed.

Lemma find_priority_spec fuel s mask p :
  (exists q, p <= q < p + Z.of_nat fuel /\ Z.testbit mask ((q + priority_add s) mod 8) = true) ->
  let r := find_priority fuel s mask p in
  p <= r < p + Z.of_nat fuel /\ Z.testbit mask ((r + priority_add s) mod 8) = true
  /\ forall q, p <= q < r -> Z.testbit mask ((q + priority_add s) mod 8) = false.
Proof.
  revert p. induction fuel as [|fuel IH]; intros p (q & Hq & Hb); [lia|]. cbv zeta. cbn [find_priority].
  rewrite land_7_mod, line_test by (apply Z.mod_pos_bound; lia).
  destruct (Z.testbit mask ((p + priority_add s) mod 8)) eqn:E; cbn [negb].
  - split; [lia|]. split; [done|]. lia.
  - assert (p <> q) by congruence. destruct (IH (p + 1)) as (H1 & H2 & H3); [exists q; split; [lia|done]|].
    split; [lia|]. split; [done|]. intros q' Hq'. destruct (decide (q' = p)) as [->|]; [done|]. apply H3. lia.
Qed.

Lemma prio_range s i : 0 <= prio s i < 8.
Proof. apply Z.mod_pos_bound. lia. Qed.

Lemma prio_line s r : 0 <= r < 8 -> prio s ((r + priority_add s) mod 8) = r.
Proof.
  intros. unfold prio. rewrite Zminus_mod_idemp_l. replace (r + priority_add s - priority_add s) with r by lia.
  by apply Z.mod_small.
Qed.

Lemma line_prio s i : 0 <= i < 8 -> (prio s i + priority_add s) mod 8 = i.
Proof.
  intros. unfold prio. rewrite Zplus_mod_idemp_l. replace (i - priority_add s + priority_add s) with i by lia.
  by apply Z.mod_small.
Qed.

(** [get_priority] is the least priority of a line of the mask. *)
Lemma get_priority_spec s mask : in_u 8 mask ->
  let r := get_priority s mask in
  (mask = 0 /\ r = 8) \/
  (mask <> 0 /\ 0 <= r < 8 /\ Z.testbit mask ((r + priority_add s) mod 8) = true
   /\ forall i, 0 <= i < 8 -> Z.testbit mask i = true -> r <= prio s i).
Proof.
  intros Hm r. unfold r, get_priority. destruct (Z.eqb_spec mask 0) as [->|Hne]; [by left|right]. split; [done|].
  assert (exists i, 0 <= i < 8 /\ Z.testbit mask i = true) as (i & Hi & Hb).
  { destruct (nz_testbit_exists mask) as (i & Hi & Hb); [apply Hm|by apply nz_true|].
    exists i. split; [|done]. destruct (Z.le_gt_cases 8 i); [|lia]. by rewrite (testbit_ge_range 8) in Hb. }
  destruct (find_priority_spec 8 s mask 0) as (H1 & H2 & H3).
  { exists (prio s i). pose proof (prio_range s i). rewrite line_prio by done. split; [lia|done]. }
  split; [lia|]. split; [done|]. intros j Hj Hbj.
  destruct (Z.le_gt_cases (find_priority 8 s mask 0) (prio s j)) as [|Hlt]; [done|].
  pose proof (prio_range s j). rewrite <- (line_prio s j Hj) in Hbj. by rewrite H3 in Hbj by lia.
Qed.

(** The lines that count as in service. *)
Definition in_service (master : bool) (s : PicState) (j : Z) : bool :=
  Z.testbit (isr s) j && negb (nz (special_mask s) && Z.testbit (imr s) j)
  && negb (nz (special_fully_nested_mode s) && master && (j =? 2)).

Definition requested (s : PicState) (i : Z) : bool := Z.testbit (irr s) i && negb (Z.testbit (imr s) i).

(** The line the controller wants served. *)
Definition next_line (master : bool) (s : PicState) (r : Z) : Prop :=
  0 <= r < 8 /\ requested s r = true
  /\ (forall i, 0 <= i < 8 -> requested s i = true -> prio s r <= prio s i)
  /\ (forall j, 0 <= j < 8 -> in_service master s j = true -> prio s r < prio s j).

(** Every request waits behind a line in service of at least its priority. *)
Definition no_next_line (master : bool) (s : PicState) : Prop :=
  forall i, 0 <= i < 8 -> requested s i = true ->
  exists j, 0 <= j < 8 /\ in_service master s j = true /\ prio s j <= prio s i.

Lemma requested_bit s i : 0 <= i -> Z.testbit (irr s .& .~ imr s) i = requested s i.
Proof. intros. unfold requested. by rewrite Z.land_spec, Z.lnot_spec. Qed.

Lemma service_bit master s j : 0 <= j ->
  let mask := isr s in
  let mask := if nz (special_mask s) then mask .& .~ imr s else mask in
  let mask := if nz (special_fully_nested_mode s) && master then mask .& .~ (1 .<< 2) else mask in
  Z.testbit mask j = in_service master s j.
Proof.
  intros Hj. cbv zeta. unfold in_service.
  destruct (nz (special_mask s)), (nz (special_fully_nested_mode s) && master); simpl;
    rewrite ?Z.land_spec, ?Z.lnot_spec, ?(shiftl_1_testbit 2) by lia; rewrite ?(Z.eqb_sym 2 j); btauto.
Qed.

Lemma pic_get_irq_spec master s : pic_ok s ->
  (0 <= pic_get_irq master s /\ next_line master s (pic_get_irq master s))
  \/ (pic_get_irq master s = -1 /\ no_next_line master s).
Proof.
  intros [Hok _]. assert (in_u 8 (irr s) /\ in_u 8 (isr s)) as [Hirr Hisr].
  { rewrite Forall_forall in Hok. split; apply Hok; set_solver. }
  unfold pic_get_irq. cbv zeta. set (m := irr s .& .~ imr s).
  destruct (get_priority_spec s m) as [(Em & Er)|(Hm & Hr & Hb & Hle)]; [by apply in_u_land_l| |].
  { rewrite Er. right. split; [done|]. intros i Hi Hreq. rewrite <- requested_bit in Hreq by lia.
    fold m in Hreq. by rewrite Em, Z.bits_0 in Hreq. }
  rewrite (proj2 (Z.eqb_neq _ 8)) by lia. set (m2 := if _ && master then _ else _).
  assert (in_u 8 m2) as Hm2 by (unfold m2; repeat case_match; repeat apply in_u_land_l; done).
  assert (forall j, 0 <= j -> Z.testbit m2 j = in_service master s j) as Hserv by (intros; by apply service_bit).
  set (p := get_priority s m) in *.
  destruct (get_priority_spec s m2 Hm2) as [(Em2 & Er2)|(Hm2' & Hr2 & Hb2 & Hle2)].
  - rewrite Er2, (proj2 (Z.ltb_lt p 8)) by lia. left. rewrite land_7_mod.
    pose proof (Z.mod_pos_bound (p + priority_add s) 8 ltac:(lia)) as Hpos. split; [lia|]. split; [done|].
    rewrite <- requested_bit by lia. split; [done|]. rewrite prio_line by done. split.
    + intros i Hi Hreq. apply Hle; [done|]. unfold m. by rewrite requested_bit by lia.
    + intros j Hj Hs. rewrite <- Hserv, Em2, Z.bits_0 in Hs by lia. done.
  - destruct (Z.ltb_spec p (get_priority s m2)) as [Hlt|Hge].
    + left. rewrite land_7_mod. pose proof (Z.mod_pos_bound (p + priority_add s) 8 ltac:(lia)) as Hpos.
      split; [lia|]. split; [done|]. rewrite <- requested_bit by lia. split; [done|]. rewrite prio_line by done. split.
      * intros i Hi Hreq. apply Hle; [done|]. unfold m. by rewrite requested_bit by lia.
      * intros j Hj Hs. rewrite <- Hserv in Hs by lia. specialize (Hle2 j Hj Hs). lia.
    + right. split; [done|]. intros i Hi Hreq. exists ((get_priority s m2 + priority_add s) mod 8).
      pose proof (Z.mod_pos_bound (get_priority s m2 + priority_add s) 8 ltac:(lia)). split; [lia|].
      rewrite <- Hserv by lia. split; [done|]. rewrite prio_line by done.
      rewrite <- requested_bit in Hreq by lia. specialize (Hle i Hi Hreq). lia.
Qed.

(** ** The registers stay bytes *)

Lemma in_u8_small v : 0 <= v < 256 -> in_u 8 v.
Proof. done. Qed.

Lemma mod8_u8 a : in_u 8 (a .& 7) /\ a .& 7 < 8.
Proof. rewrite land_7_mod. pose proof (Z.mod_pos_bound a 8 ltac:(lia)). split; [unfold in_u|]; lia. Qed.

Lemma in_u8_set_line i v : 0 <= i < 8 -> in_u 8 v -> in_u 8 (set_line i v).
Proof. intros. apply in_u_lor; [lia|done|]. rewrite Z.shiftl_1_l. by apply in_u_pow2. Qed.

Lemma in_u8_clear_line i v : in_u 8 v -> in_u 8 (clear_line i v).
Proof. intros. by apply in_u_land_l. Qed.

Lemma in_u8_land_r a b : in_u 8 b -> in_u 8 (a .& b).
Proof. rewrite Z.land_comm. intros. by apply in_u_land_l. Qed.

Create HintDb pic.
#[local] Hint Resolve in_u8_set_line in_u8_clear_line : pic.

(** Split [pic_ok] of a state with some registers replaced. *)
Ltac pic_ok_solve :=
  match goal with H : pic_ok ?s |- _ => destruct H as [?HF ?HP] end;
  rewrite !Forall_cons in *; destruct_and!;
  split; [rewrite !Forall_cons; split_and!|]; cbn; auto with pic;
  try (unfold in_u in *; cbn in *; lia).

Lemma set_irq1_ok s irq level : 0 <= irq < 8 -> pic_ok s -> pic_ok (pic_set_irq1 s irq level).
Proof. intros Hi Hs. unfold pic_set_irq1. repeat case_match; pic_ok_solve. Qed.

Lemma intack_ok s irq : 0 <= irq < 8 -> pic_ok s -> pic_ok (pic_intack s irq).
Proof.
  intros Hi Hs. pose proof (mod8_u8 (irq + 1)) as [? ?]. unfold pic_intack. repeat case_match; pic_ok_solve.
Qed.

Lemma get_irq_range master s : pic_ok s -> -1 <= pic_get_irq master s < 8.
Proof. intros Hs. destruct (pic_get_irq_spec master s Hs) as [[_ [? _]]|[-> _]]; lia. Qed.

Section reachable.
Context (target_lowers : bool) {A : Type} (alt_irq_func : option (A -> Z -> Z -> A)).

Definition pics_ok (s : PicState2 A) : Prop := pic_ok (pic0 s) /\ pic_ok (pic1 s).

Lemma set_pic_ok i p s : pic_ok p -> pics_ok s -> pics_ok (set_pic i p s).
Proof. intros Hp [H0 H1]. by destruct i. Qed.

Lemma pics_ok_pic i s : pics_ok s -> pic_ok (pics s i).
Proof. intros [H0 H1]. by destruct i. Qed.

Lemma update_ok s : pics_ok s -> pics_ok (pic_update_irq target_lowers s).
Proof.
  intros [H0 H1]. unfold pic_update_irq. cbv zeta.
  assert (pic_ok (pic_set_irq1 (pic_set_irq1 (pic0 s) 2 1) 2 0)) by (repeat apply set_irq1_ok; done || lia).
  repeat case_match; by split.
Qed.

Lemma i8259_set_irq_ok s irq level : pics_ok s -> pics_ok (i8259_set_irq target_lowers alt_irq_func s irq level).
Proof.
  intros Hs. unfold i8259_set_irq. cbv zeta. apply update_ok. pose proof (mod8_u8 irq) as [? ?].
  assert (pics_ok (set_pic (nz (irq .>> 3)) (pic_set_irq1 (pics s (nz (irq .>> 3))) (irq .& 7) level) s)).
  { apply set_pic_ok; [|done]. apply set_irq1_ok; [unfold in_u in *; lia|]. by apply pics_ok_pic. }
  by destruct alt_irq_func.
Qed.

Lemma read_irq_ok s : pics_ok s -> pics_ok (pic_read_irq target_lowers s).2.
Proof.
  intros Hs. pose proof Hs as [H0 H1]. unfold pic_read_irq. cbv zeta.
  pose proof (get_irq_range true _ H0). destruct (Z.leb_spec 0 (pic_get_irq true (pic0 s))); [|by apply update_ok].
  assert (pics_ok (set_pic false (pic_intack (pic0 s) (pic_get_irq true (pic0 s))) s)) as Hs1.
  { apply set_pic_ok; [|done]. apply intack_ok; [lia|done]. }
  destruct (pic_get_irq true (pic0 s) =? 2); [|by apply update_ok]. cbn [pic1 set_pic]. pose proof (get_irq_range false _ H1).
  destruct (Z.leb_spec 0 (pic_get_irq false (pic1 s))); [|by apply update_ok].
  apply update_ok. split; [apply Hs1|]. apply intack_ok; [lia|done].
Qed.

Lemma end_irq_ok i irq r s : pics_ok s -> pics_ok (end_irq target_lowers i irq r s).
Proof.
  intros Hs. unfold end_irq. apply update_ok, set_pic_ok; [|done]. pose proof (pics_ok_pic i s Hs).
  pose proof (mod8_u8 (irq + 1)) as [? ?]. destruct r; pic_ok_solve.
Qed.

Lemma ocw2_ok s i val : in_u 8 val -> pics_ok s -> pics_ok (pic_ocw2 target_lowers s i val).
Proof.
  intros Hv Hs. pose proof (pics_ok_pic i s Hs). unfold pic_ocw2. cbv zeta.
  destruct ((val .>> 5 =? 0) || _) eqn:E0.
  { apply set_pic_ok; [|done]. apply orb_true_iff in E0. rewrite !Z.eqb_eq in E0.
    assert (in_u 8 ((val .>> 5) .>> 2)) by (destruct E0 as [-> | ->]; done). pic_ok_solve. }
  case_match; [case_match; [by apply end_irq_ok|done]|].
  case_match; [by apply end_irq_ok|]. case_match; [|case_match; [by apply end_irq_ok|done]].
  apply update_ok, set_pic_ok; [|done]. pose proof (mod8_u8 (val + 1)) as [? ?]. pic_ok_solve.
Qed.

Lemma ioport_write_ok s i addr val s' : in_u 8 val -> pics_ok s ->
  pic_ioport_write target_lowers s i addr val = Some s' -> pics_ok s'.
Proof.
  intros Hv Hs. pose proof (pics_ok_pic i s Hs) as Hp. unfold pic_ioport_write. cbv zeta.
  assert (forall k, 0 <= k < 8 -> forall b, in_u 8 b -> in_u 8 (b .& k)) as Hand.
  { intros k Hk b Hb. by apply in_u_land_l. }
  assert (in_u 8 (val .& 1) /\ in_u 8 (val .& 2) /\ in_u 8 (val .& 0xf8)) as (? & ? & ?)
    by (split_and!; by apply in_u_land_l).
  assert (forall n, in_u 8 ((val .>> n) .& 1)) as Hbit by (intros; by apply in_u8_land_r).
  pose proof (wrap_range 8 val ltac:(lia)).
  case_match; [case_match; [case_match; [done|]|case_match]|]; [intros [= <-]| |intros [= <-]|].
  - assert (pics_ok (set_pic i (with_single_mode (val .& 2) (with_init4 (val .& 1) (with_init_state 1
      (pic_reset (pics s i))))) s)) as Hr; [|by destruct i].
    apply set_pic_ok; [|done]. pic_ok_solve.
  - intros [= <-]. apply set_pic_ok; [|done]. pose proof (Hbit 5). repeat case_match; pic_ok_solve.
  - by apply ocw2_ok.
  - pose proof (Hbit 1). pose proof (Hbit 4).
    repeat case_match; intros [= <-]; try (apply update_ok); try (apply set_pic_ok; [|done]); try done; pic_ok_solve.
Qed.
End reachable.

Section machine.
Context (target_lowers : bool) {A : Type} (alt_irq_func : option (A -> Z -> Z -> A)).

Implicit Types s : PicState2 A.

Lemma poll_read_ok s i addr1 : pics_ok s -> pics_ok (pic_poll_read target_lowers s i addr1).2.
Proof.
  intros Hs. unfold pic_poll_read. cbv zeta. case_match; [|by apply update_ok]. cbn [snd].
  set (s1 := if nz (addr1 .>> 7) then _ else s).
  assert (pics_ok s1) as Hs1.
  { unfold s1. case_match; [|done]. pose proof (pics_ok_pic false s Hs) as Hp. simpl in Hp.
    apply set_pic_ok; [|done]. pic_ok_solve. }
  set (s2 := set_pic i _ s1).
  assert (pics_ok s2) as Hs2.
  { unfold s2. apply set_pic_ok; [|done]. pose proof (pics_ok_pic i s1 Hs1). pic_ok_solve. }
  case_match; [by apply update_ok|done].
Qed.

Lemma ioport_read_ok s i addr1 : pics_ok s -> pics_ok (pic_ioport_read target_lowers s i addr1).2.
Proof.
  intros Hs. unfold pic_ioport_read. cbv zeta. case_match; [|case_match; done].
  pose proof (poll_read_ok s i addr1 Hs) as Hp. destruct (pic_poll_read target_lowers s i addr1) as [ret s'].
  cbn [snd] in *. apply set_pic_ok; [|done]. pose proof (pics_ok_pic i s' Hp). pic_ok_solve.
Qed.

Lemma intack_read_ok s : pics_ok s -> pics_ok (pic_intack_read target_lowers s).2.
Proof.
  intros Hs. unfold pic_intack_read. pose proof (poll_read_ok s false 0x00 Hs) as Hp.
  destruct (pic_poll_read target_lowers s false 0x00) as [ret s']. cbn [snd] in Hp.
  assert (forall s : PicState2 A, pics_ok s -> pics_ok (set_pic false (with_read_reg_select 1 (pic0 s)) s)) as Hr.
  { intros s0 H0. apply set_pic_ok; [|done]. pose proof (pics_ok_pic false s0 H0) as H1. simpl in H1. pic_ok_solve. }
  destruct (ret =? 2); [|by apply Hr]. pose proof (poll_read_ok s' true 0x80 Hp) as Hp'.
  destruct (pic_poll_read target_lowers s' true 0x80) as [r s'']. by apply Hr.
Qed.

Lemma elcr_write_ok s i val : pics_ok s -> pics_ok (elcr_ioport_write s i val).
Proof.
  intros Hs. apply set_pic_ok; [|done]. pose proof (pics_ok_pic i s Hs) as Hp.
  assert (in_u 8 (val .& elcr_mask (pics s i))).
  { apply in_u8_land_r. destruct Hp as [HF _]. rewrite Forall_forall in HF. apply HF. set_solver. }
  pic_ok_solve.
Qed.

(** What drives the pair: its 16 lines, the guest's port accesses, the CPU's
    acknowledgements. *)
Inductive pic_step : PicState2 A -> PicState2 A -> Prop :=
| step_line s irq level : 0 <= irq < 16 -> pic_step s (i8259_set_irq target_lowers alt_irq_func s irq level)
| step_ack s : pic_step s (pic_read_irq target_lowers s).2
| step_out s i addr val s' : in_u 8 val -> pic_ioport_write target_lowers s i addr val = Some s' -> pic_step s s'
| step_in s i addr : pic_step s (pic_ioport_read target_lowers s i addr).2
| step_intack_read s : pic_step s (pic_intack_read target_lowers s).2
| step_elcr s i val : pic_step s (elcr_ioport_write s i val)
| step_reset s i : pic_step s (set_pic i (pic_reset (pics s i)) s).

Lemma pic_step_ok s s' : pic_step s s' -> pics_ok s -> pics_ok s'.
Proof.
  intros [] Hs; [by apply i8259_set_irq_ok|by apply read_irq_ok|by eapply ioport_write_ok|by apply ioport_read_ok
    |by apply intack_read_ok|by apply elcr_write_ok|].
  apply set_pic_ok; [|done]. pose proof (pics_ok_pic i s0 Hs). pic_ok_solve.
Qed.

Lemma pic_init_ok (a : A) : pics_ok (i8259_init a).
Proof. split; (split; [|done]); repeat constructor; done. Qed.

Lemma pic_reachable_ok (a : A) s : rtc pic_step (i8259_init a) s -> pics_ok s.
Proof.
  intros Hr. enough (forall s0, rtc pic_step s0 s -> pics_ok s0 -> pics_ok s) as HG.
  { by eapply HG, pic_init_ok. }
  clear Hr. induction 1 as [|s1 s2 s3 Hs _ IH]; [done|]. intros Hi. by eapply IH, pic_step_ok.
Qed.
End machine.

(** C9: in every reachable state of the two controllers, the interrupt a
    controller asks for is the unmasked request of the highest rotated
    priority, strictly above every line in service; it asks for none only
    when every unmasked request waits behind a line in service of at least
    its priority. *)
Theorem pic_asks_for_highest_priority target_lowers {A} alt_irq_func (a : A) s i master :
  rtc (pic_step target_lowers alt_irq_func) (i8259_init a) s ->
  (0 <= pic_get_irq master (pics s i) /\ next_line master (pics s i) (pic_get_irq master (pics s i)))
  \/ (pic_get_irq master (pics s i) = -1 /\ no_next_line master (pics s i)).
Proof. intros Hr. apply pic_get_irq_spec, pics_ok_pic. by eapply pic_reachable_ok. Qed.

(** Line 3 of the master raised, from the initial state. *)
Definition example_pics : PicState2 unit := i8259_set_irq false None (i8259_init ()) 3 1.

Lemma pic_asks_for_highest_priority_witness : pic_get_irq true (pic0 example_pics) = 3 /\ next_line true (pic0 example_pics) 3.
Proof.
  split; [reflexivity|].
  destruct (pic_asks_for_highest_priority false None () example_pics false true) as [[_ H]|[H _]].
  - apply rtc_once. apply (step_line false None (i8259_init ()) 3 1). lia.
  - exact H.
  - discriminate H.
Defined.

(** ** Delivery *)

Lemma set_line_bit i v j : 0 <= i -> Z.testbit (set_line i v) j = Z.testbit v j || (i =? j).
Proof. intros. unfold set_line. by rewrite Z.lor_spec, shiftl_1_testbit by done. Qed.

Lemma clear_line_bit i v j : 0 <= i -> 0 <= j -> Z.testbit (clear_line i v) j = Z.testbit v j && negb (i =? j).
Proof. intros. unfold clear_line. by rewrite Z.land_spec, Z.lnot_spec, shiftl_1_testbit by done. Qed.

(** A single unmasked request with nothing in service is the one served. *)
Lemma get_irq_single master s k : pic_ok s -> isr s = 0 -> requested s k = true -> 0 <= k < 8 ->
  (forall j, 0 <= j < 8 -> requested s j = true -> j = k) -> pic_get_irq master s = k.
Proof.
  intros Hs Hi Hk Hr Hu. destruct (pic_get_irq_spec master s Hs) as [(_ & Hr' & Hq & _)|[_ Hn]]; [by apply Hu|].
  destruct (Hn k Hr Hk) as (j & _ & Hj & _). unfold in_service in Hj. by rewrite Hi, Z.bits_0 in Hj.
Qed.

Lemma get_irq_none master s : pic_ok s -> (forall j, 0 <= j < 8 -> requested s j = false) ->
  pic_get_irq master s = -1.
Proof.
  intros Hs Hn. destruct (pic_get_irq_spec master s Hs) as [(_ & Hr & Hq & _)|[-> _]]; [|done].
  by rewrite Hn in Hq.
Qed.

Lemma falling_edge s k : 0 <= k -> Z.testbit (elcr s) k = false ->
  pic_set_irq1 s k 0 = with_last_irr (clear_line k (last_irr s)) s.
Proof. intros Hk He. unfold pic_set_irq1. cbv zeta. by rewrite nz_land_bit, He by done. Qed.

(** An edge on line [k] of a quiet controller. *)
Definition quiet (s : PicState) (k : Z) : Prop :=
  pic_ok s /\ irr s = 0 /\ isr s = 0 /\ Z.testbit (imr s) k = false /\ Z.testbit (elcr s) k = false
  /\ Z.testbit (last_irr s) k = false.

Lemma edge_request s k : quiet s k -> 0 <= k < 8 ->
  let s' := pic_set_irq1 s k 1 in
  pic_ok s' /\ irr s' = 1 .<< k /\ isr s' = 0 /\ imr s' = imr s /\ elcr s' = elcr s /\ irq_base s' = irq_base s
  /\ auto_eoi s' = auto_eoi s /\ (forall m, pic_get_irq m s' = k).
Proof.
  intros (Hok & Hi & Hs & Hm & He & Hl) Hk s'. assert (pic_ok s') as Hok' by by apply set_irq1_ok.
  assert (s' = with_last_irr (set_line k (last_irr s)) (with_irr (set_line k (irr s)) s)) as E.
  { unfold s', pic_set_irq1. cbv zeta. rewrite nz_land_bit, He, line_test, Hl by lia. done. }
  assert (irr s' = 1 .<< k) as Ei. { rewrite E. cbn. by rewrite Hi. }
  split; [done|]. split; [done|]. rewrite E. do 5 (split; [done|]). intros m. rewrite <- E.
  assert (imr s' = imr s) as Em by by rewrite E.
  apply get_irq_single; [done|by rewrite E| |done|].
  - unfold requested. by rewrite Ei, Em, shiftl_1_testbit, Z.eqb_refl, Hm by lia.
  - intros j Hj. unfold requested. rewrite Ei, shiftl_1_testbit by lia. intros [Hjk _]%andb_true_iff.
    apply Z.eqb_eq in Hjk. lia.
Qed.

(** Acknowledging the only request leaves none. *)
Lemma ack_request s k : pic_ok s -> irr s = 1 .<< k -> isr s = 0 -> Z.testbit (elcr s) k = false -> 0 <= k < 8 ->
  let s' := pic_intack s k in
  pic_ok s' /\ irr s' = 0 /\ irq_base s' = irq_base s /\ (forall m, pic_get_irq m s' = -1)
  /\ (auto_eoi s = 0 -> isr s' = 1 .<< k).
Proof.
  intros Hok Hi Hs He Hk s'. assert (pic_ok s') as Hok' by by apply intack_ok.
  assert (irr s' = 0 /\ irq_base s' = irq_base s /\ (auto_eoi s = 0 -> isr s' = 1 .<< k)) as (E1 & E2 & E3).
  { unfold s', pic_intack. cbv zeta. assert (clear_line k (1 .<< k) = 0) as Hc.
    { apply zero_by_bits. intros j Hj. rewrite clear_line_bit, shiftl_1_testbit by lia. zbits_cases; done. }
    destruct (nz (auto_eoi s)) eqn:Ea; [destruct (nz (rotate_on_auto_eoi s))|]; cbn;
      rewrite nz_land_bit, He by lia; cbn; rewrite Hi, Hc; (split; [done|]); (split; [done|]); intros E0.
    - by rewrite E0 in Ea.
    - by rewrite E0 in Ea.
    - rewrite Hs. by unfold set_line. }
  split; [done|]. split; [done|]. split; [done|]. split; [|done]. intros m. apply get_irq_none; [done|].
  intros j Hj. unfold requested. by rewrite E1, Z.bits_0.
Qed.

Section delivery.
Context (target_lowers : bool) {A : Type} (alt_irq_func : option (A -> Z -> Z -> A)).

Lemma update_idle_slave (s : PicState2 A) : pic_get_irq false (pic1 s) = -1 ->
  pic0 (pic_update_irq target_lowers s) = pic0 s /\ pic1 (pic_update_irq target_lowers s) = pic1 s
  /\ (0 <= pic_get_irq true (pic0 s) -> parent_irq (pic_update_irq target_lowers s) = true).
Proof.
  intros E. unfold pic_update_irq. rewrite E. cbn [Z.leb Z.compare].
  destruct (Z.leb_spec 0 (pic_get_irq true (pic0 s))); [done|]. destruct target_lowers; simpl; split_and!; done || lia.
Qed.

Lemma master_delivery (s : PicState2 A) k : 0 <= k < 8 -> k <> 2 -> quiet (pic0 s) k ->
  pic_ok (pic1 s) -> irr (pic1 s) = 0 ->
  let s1 := i8259_set_irq target_lowers alt_irq_func s k 1 in
  let '(v, s2) := pic_read_irq target_lowers s1 in
  parent_irq s1 = true /\ v = irq_base (pic0 s) + k /\ irr (pic0 s2) = 0
  /\ (auto_eoi (pic0 s) = 0 -> isr (pic0 s2) = 1 .<< k).
Proof.
  intros Hk Hk2 Hq Hok1 Hi1 s1.
  destruct (edge_request (pic0 s) k Hq Hk) as (Ho & Ei & Es & Em & Ee & Eb & Ea & Eg).
  assert (forall m, pic_get_irq m (pic1 s) = -1) as Hn1.
  { intros m. apply get_irq_none; [done|]. intros j Hj. unfold requested. by rewrite Hi1, Z.bits_0. }
  assert (nz (k .>> 3) = false /\ k .& 7 = k) as [E3 E7].
  { rewrite land_7_mod, Z.mod_small by lia. split; [|done]. apply nz_false. rewrite Z.shiftr_div_pow2 by lia.
    apply Z.div_small. lia. }
  assert (pic0 s1 = pic_set_irq1 (pic0 s) k 1 /\ pic1 s1 = pic1 s /\ parent_irq s1 = true) as (P0 & P1 & Pp).
  { unfold s1, i8259_set_irq. rewrite E3, E7. cbv zeta. cbn [pics set_pic pic0 pic1].
    match goal with |- context [pic_update_irq _ ?t] =>
      destruct (update_idle_slave t) as (-> & -> & Hp); [by destruct alt_irq_func; apply Hn1|];
      rewrite Hp; [by destruct alt_irq_func|] end.
    destruct alt_irq_func; cbn [pic0]; rewrite Eg; lia. }
  destruct (ack_request (pic_set_irq1 (pic0 s) k 1) k Ho Ei Es) as (Ao & Ai & Ab & Ag & As); [|done|].
  { rewrite Ee. apply Hq. }
  unfold pic_read_irq. cbv zeta. rewrite P0, Eg, (proj2 (Z.leb_le 0 k)), (proj2 (Z.eqb_neq k 2)) by lia.
  cbn [pic0 set_pic]. match goal with |- context [pic_update_irq _ ?t] =>
    destruct (update_idle_slave t) as (U0 & _ & _) end; [cbn [pic1 set_pic]; rewrite P1; apply Hn1|].
  rewrite U0. cbn [pic0 set_pic]. split_and!; try done.
  - by rewrite Ab, Eb.
  - intros Ha. apply As. by rewrite Ea.
Qed.

(** [pic_update_irq] passes a request of the slave on to the master. *)
Lemma update_cascade (s : PicState2 A) : 0 <= pic_get_irq false (pic1 s) -> quiet (pic0 s) 2 ->
  let s' := pic_update_irq target_lowers s in
  let p := pic0 s' in
  pic1 s' = pic1 s /\ parent_irq s' = true /\ pic_ok p /\ irr p = 1 .<< 2 /\ isr p = 0
  /\ Z.testbit (elcr p) 2 = false /\ pic_get_irq true p = 2.
Proof.
  intros Hs Hq. destruct (edge_request (pic0 s) 2 Hq ltac:(lia)) as (Ho & Ei & Es & Em & Ee & Eb & Ea & Eg).
  set (p := pic_set_irq1 (pic_set_irq1 (pic0 s) 2 1) 2 0).
  assert (p = with_last_irr (clear_line 2 (last_irr (pic_set_irq1 (pic0 s) 2 1))) (pic_set_irq1 (pic0 s) 2 1)) as Ep.
  { unfold p. apply falling_edge; [lia|]. rewrite Ee. apply Hq. }
  assert (pic_get_irq true p = 2) as Hg. { rewrite Ep. exact (Eg true). }
  unfold pic_update_irq. cbv zeta. rewrite (proj2 (Z.leb_le 0 (pic_get_irq false (pic1 s)))) by done. cbn [set_pic pic0].
  fold p. rewrite Hg. cbn [Z.leb Z.compare set_parent pic0 pic1 parent_irq].
  split; [done|]. split; [done|]. split; [by apply set_irq1_ok; [lia|]|].
  rewrite Ep. cbn. split; [done|]. split; [done|]. split; [rewrite Ee; apply Hq|]. rewrite <- Ep. exact Hg.
Qed.

Lemma slave_delivery (s : PicState2 A) k : 0 <= k < 8 -> quiet (pic1 s) k -> quiet (pic0 s) 2 ->
  let s1 := i8259_set_irq target_lowers alt_irq_func s (8 + k) 1 in
  let '(v, s2) := pic_read_irq target_lowers s1 in
  parent_irq s1 = true /\ v = irq_base (pic1 s) + k /\ irr (pic1 s2) = 0 /\ irr (pic0 s2) = 0
  /\ (auto_eoi (pic1 s) = 0 -> isr (pic1 s2) = 1 .<< k).
Proof.
  intros Hk Hq Hq0 s1.
  destruct (edge_request (pic1 s) k Hq Hk) as (Ho & Ei & Es & Em & Ee & Eb & Ea & Eg).
  assert (nz ((8 + k) .>> 3) = true /\ (8 + k) .& 7 = k) as [E3 E7].
  { rewrite land_7_mod. replace (8 + k) with (k + 1 * 8) by lia. rewrite Z_mod_plus_full, Z.mod_small by lia.
    split; [|done]. rewrite Z.shiftr_div_pow2 by lia. change (2 ^ 3) with 8.
    rewrite Z.div_add, Z.div_small by lia. done. }
  assert (exists t, s1 = pic_update_irq target_lowers t /\ pic0 t = pic0 s /\ pic1 t = pic_set_irq1 (pic1 s) k 1)
    as (t & Et & T0 & T1).
  { unfold s1, i8259_set_irq. rewrite E3, E7. cbv zeta. cbn [pics set_pic pic0 pic1].
    destruct alt_irq_func; (eexists; split; [reflexivity|done]). }
  destruct (update_cascade t) as (P1 & Pp & Po & Pi & Ps & Pe & Pg); [rewrite T1, Eg; lia|by rewrite T0|].
  rewrite <- Et in *. rewrite T1 in P1.
  destruct (ack_request (pic0 s1) 2 Po Pi Ps Pe ltac:(lia)) as (Ao & Ai & Ab & Ag & As).
  destruct (ack_request (pic_set_irq1 (pic1 s) k 1) k Ho Ei Es) as (Bo & Bi & Bb & Bg & Bs); [|done|].
  { rewrite Ee. apply Hq. }
  unfold pic_read_irq. cbv zeta. rewrite Pg. cbn [Z.leb Z.compare Z.eqb Pos.eqb set_pic pic1 pic0].
  rewrite P1, Eg, (proj2 (Z.leb_le 0 k)) by lia. cbn [pic1 pic0].
  match goal with |- context [pic_update_irq _ ?t] => destruct (update_idle_slave t) as (U0 & U1 & _) end;
    [cbn [pic1]; apply Bg|].
  rewrite U0, U1. cbn [pic0 pic1]. split_and!; try done.
  - by rewrite Bb, Eb.
  - intros Ha. apply Bs. by rewrite Ea.
Qed.
End delivery.

(** An edge on one of the sixteen lines of quiet controllers, unmasked
    there and (for the slave's lines) at the cascade input, interrupts the
    CPU; the acknowledge cycle returns the vector of that line, clears the
    request on both controllers, and marks the line in service unless it ends
    automatically. *)
Theorem pic_edge_delivers_vector target_lowers {A} alt_irq_func (s : PicState2 A) irq :
  let i := 8 <=? irq in
  let k := irq mod 8 in
  0 <= irq < 16 -> irq <> 2 -> quiet (pics s i) k ->
  (i = true -> quiet (pic0 s) 2) -> pic_ok (pic1 s) -> irr (pic1 s) = 0 ->
  let s1 := i8259_set_irq target_lowers alt_irq_func s irq 1 in
  let '(v, s2) := pic_read_irq target_lowers s1 in
  parent_irq s1 = true /\ v = irq_base (pics s i) + k /\ irr (pics s2 i) = 0
  /\ (auto_eoi (pics s i) = 0 -> isr (pics s2 i) = 1 .<< k).
Proof.
  intros i k Hirq Hne Hq Hc Hok Hi0. subst i k. pose proof (Z.mod_pos_bound irq 8 ltac:(lia)) as Hk.
  destruct (Z.leb_spec 8 irq) as [H8|H8].
  - pose proof (slave_delivery target_lowers alt_irq_func s (irq mod 8) Hk Hq (Hc eq_refl)) as H.
    replace (8 + irq mod 8) with irq in H.
    2: { replace irq with ((irq - 8) + 1 * 8) at 2 by lia. rewrite Z_mod_plus_full, Z.mod_small by lia. lia. }
    cbv zeta in *. destruct (pic_read_irq _ _) as [v s2]. cbn [pics] in *. naive_solver.
  - rewrite Z.mod_small in * by lia.
    pose proof (master_delivery target_lowers alt_irq_func s irq ltac:(lia) Hne Hq Hok Hi0) as H.
    cbv zeta in *. destruct (pic_read_irq _ _) as [v s2]. exact H.
Qed.

(** The pair after a PC-style initialisation: vectors 0x20 and 0x28. *)
Definition example_pc_pics : PicState2 unit :=
  mkPic2 (with_irq_base 0x20 (pic_zero 0xf8)) (with_irq_base 0x28 (pic_zero 0xde)) false ().

Lemma pic_edge_delivers_vector_witness :
  let s1 := i8259_set_irq false None example_pc_pics 12 1 in
  let '(v, s2) := pic_read_irq false s1 in
  parent_irq s1 = true /\ v = 0x2c /\ irr (pic1 s2) = 0 /\ (auto_eoi (pic1 example_pc_pics) = 0 -> isr (pic1 s2) = 16).
Proof.
  apply (pic_edge_delivers_vector false None example_pc_pics 12).
  - lia.
  - lia.
  - split; [|done]. split; [|done]. repeat constructor; done.
  - intros _. split; [|done]. split; [|done]. repeat constructor; done.
  - split; [|done]. repeat constructor; done.
  - reflexivity.
Defined.

(** ** End of interrupt *)

Lemma set_irq1_isr s k l : isr (pic_set_irq1 s k l) = isr s /\ priority_add (pic_set_irq1 s k l) = priority_add s.
Proof. unfold pic_set_irq1. repeat case_match; done. Qed.

Lemma update_isr target_lowers {A} (s : PicState2 A) i : isr (pics (pic_update_irq target_lowers s) i) = isr (pics s i).
Proof.
  unfold pic_update_irq. cbv zeta.
  assert (forall b (t : PicState2 A), isr (pics (set_parent b t) i) = isr (pics t i)) as Hp by by destruct i.
  assert (isr (pics (set_pic false (pic_set_irq1 (pic_set_irq1 (pic0 s) 2 1) 2 0) s) i) = isr (pics s i)) as Hc.
  { destruct i; simpl; [done|]. rewrite (proj1 (set_irq1_isr (pic_set_irq1 (pic0 s) 2 1) 2 0)). apply set_irq1_isr. }
  repeat case_match; by rewrite ?Hp.
Qed.

(** The non-specific end-of-interrupt command (0x20 to port 0) frees
    exactly the line in service of the highest rotated priority of the
    controller it is written to, and nothing when no line is in service. *)
Theorem pic_eoi_frees_highest target_lowers {A} (s : PicState2 A) (i : bool) :
  pics_ok s ->
  exists s', pic_ioport_write target_lowers s i 0 0x20 = Some s'
    /\ (isr (pics s i) = 0 -> s' = s)
    /\ (isr (pics s i) <> 0 -> exists k, 0 <= k < 8 /\ Z.testbit (isr (pics s i)) k = true
         /\ (forall j, 0 <= j < 8 -> Z.testbit (isr (pics s i)) j = true -> prio (pics s i) k <= prio (pics s i) j)
         /\ isr (pics s' i) = clear_line k (isr (pics s i))).
Proof.
  intros Hok. pose proof (pics_ok_pic i s Hok) as Hp.
  assert (in_u 8 (isr (pics s i))) as Hi. { destruct Hp as [HF _]. rewrite Forall_forall in HF. apply HF. set_solver. }
  exists (pic_ocw2 target_lowers s i 0x20). split; [done|]. unfold pic_ocw2. cbv zeta. change (0x20 .>> 5) with 1. cbn [Z.eqb Pos.eqb orb].
  destruct (get_priority_spec (pics s i) (isr (pics s i)) Hi) as [(E0 & Er)|(Hne & Hr & Hb & Hle)].
  - rewrite Er. split; [done|]. by intros [].
  - rewrite (proj2 (Z.eqb_neq _ 8)) by lia. split; [done|]. intros _.
    exists ((get_priority (pics s i) (isr (pics s i)) + priority_add (pics s i)) .& 7). rewrite land_7_mod.
    pose proof (Z.mod_pos_bound (get_priority (pics s i) (isr (pics s i)) + priority_add (pics s i)) 8 ltac:(lia)).
    split; [lia|]. split; [done|]. split.
    + intros j Hj Hbj. rewrite prio_line by done. by apply Hle.
    + unfold end_irq. cbn [negb]. rewrite update_isr. by destruct i.
Qed.

Definition example_in_service : PicState2 unit := (pic_read_irq false example_pics).2.

Lemma pic_eoi_frees_highest_witness :
  exists s', pic_ioport_write false example_in_service false 0 0x20 = Some s' /\ isr (pic0 example_in_service) = 8
    /\ (isr (pic0 example_in_service) = 0 -> s' = example_in_service).
Proof.
  destruct (pic_eoi_frees_highest false example_in_service false) as (s' & H1 & H2 & _).
  - split; (split; [|done]); repeat constructor; done.
  - exists s'. split; [exact H1|]. split; [reflexivity|exact H2].
Defined.
