(* ===== verification/Cbuffer.v ===== *)
(** Circular byte buffers: android/cbuffer.c and include/android/cbuffer.h,
    used by the modem, the GPS and the charpipe code. The contents of a
    buffer are the [count] bytes that start at [rpos] and wrap around. *)
From S2P Require Import Prelude.

Record CBuffer := mkCB { buff : list Z; size : Z; rpos : Z; count : Z }.

Definition cbuffer_reset (b : list Z) (n : Z) : CBuffer := mkCB b n 0 0.
Definition cbuffer_write_avail (cb : CBuffer) : Z := size cb - count cb.
Definition cbuffer_read_avail (cb : CBuffer) : Z := count cb.

(** [memcpy] of [data] to [b + i]. *)
Definition splice (i : nat) (data b : list Z) : list Z := take i b ++ data ++ drop (i + length data) b.

(** The offset of the region to write to, and its length. *)
Definition cbuffer_write_peek (cb : CBuffer) : Z * Z :=
  let wpos := rpos cb + count cb in
  let avail := size cb - count cb in
  let wpos := if size cb <=? wpos then wpos - size cb else wpos in
  let avail := if size cb <? wpos + avail then size cb - wpos else avail in
  (wpos, avail).

Definition cbuffer_write_step (cb : CBuffer) (len : Z) : CBuffer :=
  let c := count cb + len in
  mkCB (buff cb) (size cb) (rpos cb) (if size cb <? c then size cb else c).

(** The [while (len2 > 0)] of [cbuffer_write]: [from] are the bytes left;
    the result is the number of bytes not written. [None]: out of fuel. *)
Fixpoint write_loop (fuel : nat) (cb : CBuffer) (from : list Z) : option (Z * CBuffer) :=
  let len2 := Z.of_nat (length from) in
  if 0 <? len2 then
    let avail := size cb - count cb in
    let wpos := rpos cb + count cb in
    if avail =? 0 then Some (len2, cb)
    else
      let wpos := if size cb <=? wpos then wpos - size cb else wpos in
      let avail := if size cb <? wpos + avail then size cb - wpos else avail in
      let avail := if len2 <? avail then len2 else avail in
      match fuel with
      | O => None
      | S fuel =>
          let b := splice (Z.to_nat wpos) (take (Z.to_nat avail) from) (buff cb) in
          write_loop fuel (mkCB b (size cb) (rpos cb) (count cb + avail)) (drop (Z.to_nat avail) from)
      end
  else Some (len2, cb).

(** Two iterations do: the free space is at most two runs. *)
Definition cbuffer_write (cb : CBuffer) (from : list Z) : option (Z * CBuffer) :=
  '(len2, cb) ← write_loop 2 cb from; Some (Z.of_nat (length from) - len2, cb).

(** The bytes read so far are accumulated in [to]. *)
Fixpoint read_loop (fuel : nat) (cb : CBuffer) (len2 : Z) (to : list Z) : option (list Z * CBuffer) :=
  if 0 <? len2 then
    let avail := count cb in
    if avail =? 0 then Some (to, cb)
    else
      let avail := if size cb <? rpos cb + avail then size cb - rpos cb else avail in
      let avail := if len2 <? avail then len2 else avail in
      match fuel with
      | O => None
      | S fuel =>
          let bytes := take (Z.to_nat avail) (drop (Z.to_nat (rpos cb)) (buff cb)) in
          let r := rpos cb + avail in
          let r := if size cb <=? r then r - size cb else r in
          read_loop fuel (mkCB (buff cb) (size cb) r (count cb - avail)) (len2 - avail) (to ++ bytes)
      end
  else Some (to, cb).

(** The bytes stored to [to]; their number is the C result. *)
Definition cbuffer_read (cb : CBuffer) (len : Z) : option (list Z * CBuffer) := read_loop 2 cb len [].

Definition cbuffer_read_peek (cb : CBuffer) : Z * Z :=
  let avail := count cb in
  let avail := if size cb <? rpos cb + avail then size cb - rpos cb else avail in
  (rpos cb, avail).

Definition cbuffer_read_step (cb : CBuffer) (len : Z) : CBuffer :=
  let len := if count cb <? len then count cb else len in
  let r := rpos cb + len in
  let r := if size cb <=? r then r - size cb else r in
  mkCB (buff cb) (size cb) r (count cb - len).

(** ** Contents *)

Record cb_ok (cb : CBuffer) : Prop := {
  cb_len : Z.of_nat (length (buff cb)) = size cb;
  cb_rpos : 0 <= rpos cb < size cb;
  cb_count : 0 <= count cb <= size cb;
}.

Definition at_index (cb : CBuffer) (i : Z) : Z := default 0 (buff cb !! Z.to_nat ((rpos cb + i) mod size cb)).
Definition contents (cb : CBuffer) : list Z := at_index cb <$> seqZ 0 (count cb).

Lemma length_contents cb : cb_ok cb -> Z.of_nat (length (contents cb)) = count cb.
Proof. intros [_ _ ?]. unfold contents. rewrite length_fmap, length_seqZ. lia. Qed.

Lemma splice_lookup i d b j : (i + length d <= length b)%nat ->
  splice i d b !! j = if decide (i <= j < i + length d)%nat then d !! (j - i)%nat else b !! j.
Proof.
  intros Hl. unfold splice. destruct (decide (j < i)%nat) as [Hj|Hj].
  - rewrite lookup_app_l by (rewrite length_take; lia). rewrite lookup_take_lt by done.
    by rewrite decide_False by lia.
  - rewrite lookup_app_r by (rewrite length_take; lia). rewrite length_take, Nat.min_l by lia.
    destruct (decide (j < i + length d)%nat).
    + rewrite lookup_app_l by lia. by rewrite decide_True by lia.
    + rewrite lookup_app_r by lia. rewrite lookup_drop, decide_False by lia. f_equal. lia.
Qed.

Lemma length_splice i d b : (i + length d <= length b)%nat -> length (splice i d b) = length b.
Proof. intros. unfold splice. rewrite !length_app, length_take, length_drop. lia. Qed.

(** Distinct positions of a ring. *)
Lemma ring_index_inj r s a b : 0 <= a < s -> 0 <= b < s -> (r + a) mod s = (r + b) mod s -> a = b.
Proof.
  intros Ha Hb E. assert ((a - b) mod s = 0) as Hz.
  { replace (a - b) with ((r + a) - (r + b)) by lia. rewrite Zminus_mod, E, Z.sub_diag. apply Z.mod_0_l. lia. }
  apply Z.mod_divide in Hz as [k Hk]; [|lia]. destruct (Z.lt_trichotomy k 0) as [|[->|]]; [nia|lia|nia].
Qed.

Lemma wrap_index a s : 0 <= a < 2 * s -> (if s <=? a then a - s else a) = a mod s.
Proof.
  intros. destruct (Z.leb_spec s a).
  - apply (Z.mod_unique_pos _ _ 1); lia.
  - symmetry. apply Z.mod_small. lia.
Qed.

(** Bytes stored behind the contents, without passing the end of the array. *)
Lemma contents_append cb d : cb_ok cb -> count cb + Z.of_nat (length d) <= size cb ->
  let w := (rpos cb + count cb) mod size cb in
  w + Z.of_nat (length d) <= size cb ->
  let cb' := mkCB (splice (Z.to_nat w) d (buff cb)) (size cb) (rpos cb) (count cb + Z.of_nat (length d)) in
  cb_ok cb' /\ contents cb' = contents cb ++ d.
Proof.
  intros [Hlen Hr Hc] Hd w Hw cb'. pose proof (Z.mod_pos_bound (rpos cb + count cb) (size cb) ltac:(lia)) as Hw0.
  fold w in Hw0. assert (Z.to_nat w + length d <= length (buff cb))%nat as Hfit by lia. split.
  - split; cbn; [by rewrite length_splice|done|lia].
  - unfold contents. cbn [count cb']. rewrite seqZ_app, fmap_app by lia. f_equal.
    + apply list_fmap_ext. intros k i Hi. apply lookup_seqZ in Hi as [-> Hk]. unfold at_index. cbn.
      rewrite splice_lookup by done. rewrite decide_False; [done|]. intros Hin.
      pose proof (Z.mod_pos_bound (rpos cb + (0 + Z.of_nat k)) (size cb) ltac:(lia)).
      set (t := (rpos cb + (0 + Z.of_nat k)) mod size cb - w).
      assert (0 + Z.of_nat k = count cb + t); [|lia]. apply (ring_index_inj (rpos cb) (size cb)); [lia..|].
      transitivity ((w + t) mod size cb); [|unfold w; rewrite Zplus_mod_idemp_l; f_equal; lia].
      replace (w + t) with ((rpos cb + (0 + Z.of_nat k)) mod size cb) by (unfold t; lia). by rewrite Zmod_mod.
    + apply list_eq. intros k. rewrite list_lookup_fmap. destruct (decide (k < length d)%nat) as [Hk|Hk].
      * rewrite lookup_seqZ_lt by lia. cbn. unfold at_index. cbn.
        assert ((rpos cb + (0 + count cb + Z.of_nat k)) mod size cb = w + Z.of_nat k) as ->.
        { replace (rpos cb + (0 + count cb + Z.of_nat k)) with (rpos cb + count cb + Z.of_nat k) by lia.
          rewrite <- Zplus_mod_idemp_l. apply Z.mod_small. fold w. lia. }
        rewrite splice_lookup, decide_True by lia. replace (Z.to_nat (w + Z.of_nat k) - Z.to_nat w)%nat with k by lia.
        destruct (lookup_lt_is_Some_2 d k Hk) as [x ->]. done.
      * rewrite lookup_seqZ_ge, lookup_ge_None_2 by lia. done.
Qed.

(** Bytes taken off the front, without passing the end of the array. *)
Lemma contents_take cb n : cb_ok cb -> 0 <= n <= count cb -> rpos cb + n <= size cb ->
  let cb' := mkCB (buff cb) (size cb) ((rpos cb + n) mod size cb) (count cb - n) in
  cb_ok cb' /\ contents cb = take (Z.to_nat n) (drop (Z.to_nat (rpos cb)) (buff cb)) ++ contents cb'.
Proof.
  intros [Hlen Hr Hc] Hn Hw cb'. split.
  - split; cbn; [done|apply Z.mod_pos_bound; lia|lia].
  - unfold contents. cbn [count cb']. replace (count cb) with (n + (count cb - n)) at 1 by lia.
    rewrite seqZ_app, fmap_app by lia. f_equal.
    + apply list_eq. intros k. rewrite list_lookup_fmap. destruct (decide (k < Z.to_nat n)%nat) as [Hk|Hk].
      * rewrite lookup_seqZ_lt, lookup_take_lt, lookup_drop by lia. cbn. unfold at_index.
        rewrite Z.mod_small by lia. replace (Z.to_nat (rpos cb + (0 + Z.of_nat k))) with (Z.to_nat (rpos cb) + k)%nat by lia.
        destruct (lookup_lt_is_Some_2 (buff cb) (Z.to_nat (rpos cb) + k)%nat) as [x ->]; [lia|done].
      * rewrite lookup_seqZ_ge, lookup_ge_None_2 by (rewrite ?length_take; lia). done.
    + rewrite (Z.add_comm 0 n), <- (fmap_add_seqZ n 0), <- list_fmap_compose. apply list_fmap_ext. intros k i Hi. cbn.
      unfold at_index. cbn. rewrite Zplus_mod_idemp_l. do 4 f_equal. lia.
Qed.

(** ** Writing *)

(** The bytes that can be accepted, and where the next one goes. *)
Definition room (cb : CBuffer) (from : list Z) : Z := Z.min (Z.of_nat (length from)) (size cb - count cb).
Definition wpos (cb : CBuffer) : Z := (rpos cb + count cb) mod size cb.

(** How many runs of the array the write touches. *)
Definition write_runs (cb : CBuffer) (from : list Z) : nat :=
  if room cb from =? 0 then 0 else if wpos cb + room cb from <=? size cb then 1 else 2.

Lemma wpos_range cb : cb_ok cb -> 0 <= wpos cb < size cb.
Proof. intros [_ ? _]. apply Z.mod_pos_bound. lia. Qed.

(** One iteration of the loop. *)
Lemma write_loop_step fuel cb from : cb_ok cb -> 0 < room cb from ->
  let a := Z.min (room cb from) (size cb - wpos cb) in
  let d := take (Z.to_nat a) from in
  let cb' := mkCB (splice (Z.to_nat (wpos cb)) d (buff cb)) (size cb) (rpos cb) (count cb + a) in
  write_loop (S fuel) cb from = write_loop fuel cb' (drop (Z.to_nat a) from)
  /\ cb_ok cb' /\ contents cb' = contents cb ++ d.
Proof.
  intros Hok Hroom a d cb'. pose proof (wpos_range cb Hok) as Hw. pose proof Hok as [Hlen Hr Hc].
  unfold room in *. assert (Z.of_nat (length d) = a) as Hd by (unfold d; rewrite length_take; lia).
  split.
  - cbn [write_loop]. rewrite (proj2 (Z.ltb_lt 0 _)) by lia. rewrite (proj2 (Z.eqb_neq _ 0)) by lia.
    rewrite (wrap_index (rpos cb + count cb)) by lia. fold (wpos cb).
    assert ((if Z.of_nat (length from) <? (if size cb <? wpos cb + (size cb - count cb) then size cb - wpos cb
      else size cb - count cb) then Z.of_nat (length from)
      else (if size cb <? wpos cb + (size cb - count cb) then size cb - wpos cb else size cb - count cb)) = a) as ->.
    { unfold a. repeat case_match; lia. }
    done.
  - assert (cb' = mkCB (splice (Z.to_nat (wpos cb)) d (buff cb)) (size cb) (rpos cb) (count cb + Z.of_nat (length d)))
      as -> by (unfold cb'; by rewrite Hd).
    apply contents_append; [done|lia|]. fold (wpos cb). lia.
Qed.

Lemma write_loop_full fuel cb from : cb_ok cb -> room cb from = 0 ->
  write_loop fuel cb from = Some (Z.of_nat (length from), cb).
Proof.
  intros [_ _ Hc] Hroom. unfold room in Hroom. destruct fuel; cbn [write_loop];
    (destruct (Z.ltb_spec 0 (Z.of_nat (length from))); [|done]); by rewrite (proj2 (Z.eqb_eq _ 0)) by lia.
Qed.

Lemma write_loop_spec fuel cb from : cb_ok cb -> (write_runs cb from <= fuel)%nat ->
  exists cb', write_loop fuel cb from = Some (Z.of_nat (length from) - room cb from, cb')
    /\ cb_ok cb' /\ size cb' = size cb /\ contents cb' = contents cb ++ take (Z.to_nat (room cb from)) from.
Proof.
  revert cb from. induction fuel as [|fuel IH]; intros cb from Hok Hf; unfold write_runs in Hf;
    destruct (Z.eqb_spec (room cb from) 0) as [E0|E0].
  1, 3: exists cb; rewrite write_loop_full by done; rewrite E0; split_and!; try done; [by rewrite Z.sub_0_r|];
    by rewrite take_0, app_nil_r.
  { case_match; lia. }
  pose proof (wpos_range cb Hok) as Hw. pose proof Hok as [_ Hr Hc].
  destruct (write_loop_step fuel cb from Hok) as (-> & Hok' & Hcont); [unfold room in *; lia|].
  set (a := Z.min (room cb from) (size cb - wpos cb)) in *. set (cb1 := mkCB _ _ _ _) in *.
  set (from1 := drop (Z.to_nat a) from).
  assert (room cb1 from1 = room cb from - a) as Hroom1.
  { unfold room, from1. cbn. rewrite length_drop. unfold a, room in *. lia. }
  destruct (IH cb1 from1 Hok') as (cb2 & E2 & Hok2 & Hs2 & Hc2).
  { unfold write_runs. rewrite Hroom1. destruct (Z.leb_spec (wpos cb + room cb from) (size cb)).
    - rewrite (proj2 (Z.eqb_eq (room cb from - a) 0)) by (unfold a; lia). lia.
    - assert (a = size cb - wpos cb) as Ha by (unfold a; lia).
      assert (wpos cb1 = 0) as ->.
      { unfold wpos at 1. cbn. rewrite Ha.
        replace (rpos cb + (count cb + (size cb - wpos cb))) with ((rpos cb + count cb) + (size cb - wpos cb)) by lia.
        rewrite <- Zplus_mod_idemp_l. fold (wpos cb). replace (wpos cb + (size cb - wpos cb)) with (size cb) by lia.
        apply Z_mod_same_full. }
      cbn [size cb1]. case_match; [lia|]. rewrite (proj2 (Z.leb_le (0 + (room cb from - a)) (size cb))) by (unfold room in *; lia).
      lia. }
  exists cb2. split_and!; [|done|done|].
  - rewrite E2. do 2 f_equal. rewrite Hroom1. unfold from1. rewrite length_drop. unfold a, room in *. lia.
  - rewrite Hc2, Hcont, <- app_assoc, Hroom1. f_equal. unfold from1.
    replace (Z.to_nat (room cb from)) with (Z.to_nat a + Z.to_nat (room cb from - a))%nat by (unfold a, room in *; lia).
    apply take_take_drop.
Qed.

(** ** Reading *)

Definition ready (cb : CBuffer) (len : Z) : Z := Z.min len (count cb).

Definition read_runs (cb : CBuffer) (len : Z) : nat :=
  if ready cb len <=? 0 then 0 else if rpos cb + ready cb len <=? size cb then 1 else 2.

Lemma read_loop_step fuel cb len to : cb_ok cb -> 0 < ready cb len ->
  let a := Z.min (ready cb len) (size cb - rpos cb) in
  let cb' := mkCB (buff cb) (size cb) ((rpos cb + a) mod size cb) (count cb - a) in
  let d := take (Z.to_nat a) (drop (Z.to_nat (rpos cb)) (buff cb)) in
  read_loop (S fuel) cb len to = read_loop fuel cb' (len - a) (to ++ d)
  /\ cb_ok cb' /\ contents cb = d ++ contents cb'.
Proof.
  intros Hok Hready a cb' d. pose proof Hok as [Hlen Hr Hc]. unfold ready in *. split.
  - cbn [read_loop]. rewrite (proj2 (Z.ltb_lt 0 len)) by lia. rewrite (proj2 (Z.eqb_neq _ 0)) by lia.
    assert ((if len <? (if size cb <? rpos cb + count cb then size cb - rpos cb else count cb) then len
      else (if size cb <? rpos cb + count cb then size cb - rpos cb else count cb)) = a) as ->
      by (unfold a; repeat case_match; lia).
    rewrite wrap_index by lia. done.
  - apply contents_take; [done|lia..].
Qed.

Lemma read_loop_empty fuel cb len to : cb_ok cb -> ready cb len <= 0 -> read_loop fuel cb len to = Some (to, cb).
Proof.
  intros [_ _ Hc] Hready. unfold ready in Hready. destruct fuel; cbn [read_loop];
    (destruct (Z.ltb_spec 0 len); [|done]); by rewrite (proj2 (Z.eqb_eq _ 0)) by lia.
Qed.

Lemma read_loop_spec fuel cb len to : cb_ok cb -> (read_runs cb len <= fuel)%nat ->
  exists cb', read_loop fuel cb len to = Some (to ++ take (Z.to_nat (ready cb len)) (contents cb), cb')
    /\ cb_ok cb' /\ size cb' = size cb /\ contents cb' = drop (Z.to_nat (ready cb len)) (contents cb).
Proof.
  revert cb len to. induction fuel as [|fuel IH]; intros cb len to Hok Hf; unfold read_runs in Hf;
    destruct (Z.leb_spec (ready cb len) 0) as [E0|E0].
  1, 3: exists cb; rewrite read_loop_empty by done; replace (Z.to_nat (ready cb len)) with 0%nat by lia;
    by rewrite take_0, app_nil_r, drop_0.
  { case_match; lia. }
  pose proof Hok as [Hlen Hr Hc]. destruct (read_loop_step fuel cb len to Hok E0) as (-> & Hok' & Hcont).
  set (a := Z.min (ready cb len) (size cb - rpos cb)) in *. set (cb1 := mkCB _ _ _ _) in *.
  set (d := take (Z.to_nat a) (drop (Z.to_nat (rpos cb)) (buff cb))) in *.
  assert (length d = Z.to_nat a) as Hd. { unfold d. rewrite length_take, length_drop. lia. }
  assert (ready cb1 (len - a) = ready cb len - a) as Hready1 by (unfold ready; cbn; unfold a, ready in *; lia).
  destruct (IH cb1 (len - a) (to ++ d) Hok') as (cb2 & E2 & Hok2 & Hs2 & Hc2).
  { unfold read_runs. rewrite Hready1. destruct (Z.leb_spec (rpos cb + ready cb len) (size cb)).
    - rewrite (proj2 (Z.leb_le (ready cb len - a) 0)) by (unfold a; lia). lia.
    - assert (a = size cb - rpos cb) as Ha by (unfold a; lia). cbn [rpos size cb1].
      replace (rpos cb + a) with (size cb) by lia. rewrite Z_mod_same_full.
      case_match; [lia|]. rewrite (proj2 (Z.leb_le (0 + (ready cb len - a)) (size cb))) by (unfold ready in *; lia). lia. }
  assert (Z.to_nat (ready cb len) = length d + Z.to_nat (ready cb len - a))%nat as Hsum
    by (rewrite Hd; unfold a, ready in *; lia).
  exists cb2. split_and!; [|done|done|].
  - rewrite E2, Hready1, Hcont, Hsum, take_app_add, app_assoc. done.
  - rewrite Hc2, Hready1, Hcont, Hsum, drop_app_add. done.
Qed.

Lemma read_runs_le cb len : (read_runs cb len <= 2)%nat.
Proof. unfold read_runs. repeat case_match; lia. Qed.

Lemma write_runs_le cb from : (write_runs cb from <= 2)%nat.
Proof. unfold write_runs. repeat case_match; lia. Qed.

(** [cbuffer_write] accepts as many bytes as fit, returns their number,
    and appends exactly those bytes to the contents; it ends after at most two
    runs of the array. *)
Theorem cbuffer_write_appends cb from :
  cb_ok cb ->
  let n := Z.min (Z.of_nat (length from)) (cbuffer_write_avail cb) in
  exists cb', cbuffer_write cb from = Some (n, cb') /\ cb_ok cb'
    /\ contents cb' = contents cb ++ take (Z.to_nat n) from.
Proof.
  intros Hok n. destruct (write_loop_spec 2 cb from Hok (write_runs_le cb from)) as (cb' & E & Hok' & _ & Hc).
  exists cb'. unfold cbuffer_write. rewrite E. cbn. split_and!; [|done|done].
  do 2 f_equal. unfold n, room, cbuffer_write_avail. lia.
Qed.

Definition example_cb : CBuffer := mkCB [1; 2; 3; 4] 4 3 2.

Lemma example_cb_ok : cb_ok example_cb.
Proof. split; cbn; lia. Qed.

Lemma cbuffer_write_appends_witness :
  exists cb', cbuffer_write example_cb [7; 8; 9] = Some (2, cb') /\ cb_ok cb' /\ contents cb' = [4; 1; 7; 8].
Proof. apply (cbuffer_write_appends example_cb [7; 8; 9]). exact example_cb_ok. Defined.

(** [cbuffer_read] hands out the oldest bytes, as many as asked for and
    available, and removes exactly those from the contents. *)
Theorem cbuffer_read_takes cb len :
  cb_ok cb ->
  let n := Z.to_nat (Z.min len (cbuffer_read_avail cb)) in
  exists cb', cbuffer_read cb len = Some (take n (contents cb), cb') /\ cb_ok cb'
    /\ contents cb' = drop n (contents cb).
Proof.
  intros Hok n. destruct (read_loop_spec 2 cb len [] Hok (read_runs_le cb len)) as (cb' & E & Hok' & _ & Hc).
  exists cb'. by split_and!.
Qed.

Lemma cbuffer_read_takes_witness :
  exists cb', cbuffer_read example_cb 5 = Some ([4; 1], cb') /\ cb_ok cb' /\ contents cb' = [].
Proof. apply (cbuffer_read_takes example_cb 5). exact example_cb_ok. Defined.

(** ** The two-step interface *)

(** Reading in place: the bytes peeked at are the first of the contents, and
    stepping over them removes them. *)
Lemma read_peek_step cb n : cb_ok cb ->
  let '(pos, avail) := cbuffer_read_peek cb in
  0 <= n <= avail ->
  cb_ok (cbuffer_read_step cb n)
  /\ contents cb = take (Z.to_nat n) (drop (Z.to_nat pos) (buff cb)) ++ contents (cbuffer_read_step cb n).
Proof.
  intros Hok. unfold cbuffer_read_peek. pose proof Hok as [Hlen Hr Hc]. intros Hn.
  assert (n <= count cb /\ rpos cb + n <= size cb) as [H1 H2] by (revert Hn; case_match; lia).
  unfold cbuffer_read_step. rewrite (proj2 (Z.ltb_ge (count cb) n)) by lia. rewrite wrap_index by lia.
  apply contents_take; [done|lia..].
Qed.

(** Writing in place: bytes copied to the peeked region and stepped over are
    appended to the contents. *)
Lemma write_peek_step cb d : cb_ok cb ->
  let '(pos, avail) := cbuffer_write_peek cb in
  Z.of_nat (length d) <= avail ->
  let cb' := cbuffer_write_step (mkCB (splice (Z.to_nat pos) d (buff cb)) (size cb) (rpos cb) (count cb))
    (Z.of_nat (length d)) in
  cb_ok cb' /\ contents cb' = contents cb ++ d.
Proof.
  intros Hok. pose proof Hok as [Hlen Hr Hc]. unfold cbuffer_write_peek. cbv zeta.
  rewrite (wrap_index (rpos cb + count cb)) by lia. intros Hd.
  pose proof (Z.mod_pos_bound (rpos cb + count cb) (size cb) ltac:(lia)).
  assert (count cb + Z.of_nat (length d) <= size cb /\ (rpos cb + count cb) mod size cb + Z.of_nat (length d) <= size cb)
    as [H1 H2] by (revert Hd; case_match; lia).
  unfold cbuffer_write_step. cbn. rewrite (proj2 (Z.ltb_ge _ _)) by lia. by apply contents_append.
Qed.
