(* ===== verification/GoldfishTty.v ===== *)
(** The goldfish tty, hw/android/goldfish/tty.c, with the process tracer this
    emulator adds to it. The guest's terminal output passes through a line
    buffer; every line that names the traced process (of a [top] listing)
    gives the thread id to track. [tracer] holds the file's static variables
    and the globals of gemdroid-tracer.c they feed, [tty_state] the device,
    [tty_machine] both with what they act on: the character device, the
    guest's memory and the interrupt lines. *)
From stdpp Require Import strings.
From S2P Require Import Prelude CStrings ByteStream QemuFile Irq GoldfishInt GoldfishDevice GoldfishTimer.

Definition TTY_PUT_CHAR : Z := 0x00.
Definition TTY_BYTES_READY : Z := 0x04.
Definition TTY_CMD : Z := 0x08.
Definition TTY_DATA_PTR : Z := 0x10.
Definition TTY_DATA_LEN : Z := 0x14.
Definition TTY_DATA_PTR_HIGH : Z := 0x18.
Definition TTY_VERSION : Z := 0x20.
Definition TTY_CMD_INT_DISABLE : Z := 0.
Definition TTY_CMD_INT_ENABLE : Z := 1.
Definition TTY_CMD_WRITE_BUFFER : Z := 2.
Definition TTY_CMD_READ_BUFFER : Z := 3.
Definition TTY_DEVICE_VERSION : Z := 0.
Definition GOLDFISH_TTY_SAVE_VERSION : Z := 2.

(** ** C strings *)

Definition SPACE : Z := 32.
Definition NEWLINE : Z := 10.
Definition DIGIT_0 : Z := 48.
Definition DIGIT_9 : Z := 57.

Fixpoint has_prefix (p l : list Z) : bool :=
  match p, l with
  | [], _ => true
  | a :: p, b :: l => (a =? b) && has_prefix p l
  | _ :: _, [] => false
  end.

(** [strstr] as the offset of the first occurrence. *)
Fixpoint strstr (l p : list Z) : option Z :=
  if has_prefix p l then Some 0
  else match l with
       | [] => None
       | _ :: l => Z.succ <$> strstr l p
       end.

(** ** The tracer *)

Definition NEEDED_PROC_NAME : list Z := chars "beeready".
Definition NEEDED_PROC_NAME_LOGCAT_FLAG : bool := false.
Definition LINE_SIZE : Z := 1000.
Definition TIDS_SIZE : Z := 1000.

Record tracer := mkTracer {
  pras_temp_line : list Z;
  pras_line_length : Z;
  needed_pid : Z;
  needed_tids : list Z;
  print_tids : list Z;
  needed_tid_length : Z;
}.

Definition tracer_init : tracer :=
  mkTracer (replicate (Z.to_nat LINE_SIZE) 0) 0 (-1) (replicate (Z.to_nat TIDS_SIZE) 0)
    (replicate (Z.to_nat TIDS_SIZE) 0) 0.

Definition with_line (l : list Z) (s : tracer) : tracer :=
  mkTracer l (pras_line_length s) (needed_pid s) (needed_tids s) (print_tids s) (needed_tid_length s).
Definition with_line_length (n : Z) (s : tracer) : tracer :=
  mkTracer (pras_temp_line s) n (needed_pid s) (needed_tids s) (print_tids s) (needed_tid_length s).
Definition with_pid (p : Z) (s : tracer) : tracer :=
  mkTracer (pras_temp_line s) (pras_line_length s) p (needed_tids s) (print_tids s) (needed_tid_length s).
Definition with_tids (t p : list Z) (n : Z) (s : tracer) : tracer :=
  mkTracer (pras_temp_line s) (pras_line_length s) (needed_pid s) t p n.

Definition at_pos (l : list Z) (i : Z) : Z := default 0 (l !! Z.to_nat i).

(** The scan for [tid_now] among the [needed_tid_length] tracked ids. *)
Fixpoint tid_index (n : nat) (i : Z) (tids : list Z) (tid_now : Z) : Z :=
  match n with
  | O => i
  | S n => if tid_now =? at_pos tids i then i else tid_index n (i + 1) tids tid_now
  end.

(** The second half of both accumulators: a new id takes the place of the
    first one, which moves to the end; at 999 ids the emulator gives up. *)
Definition track_tid (tid_now : Z) (s : tracer) : outcome tracer :=
  let len := needed_tid_length s in
  let tIter := tid_index (Z.to_nat len) 0 (needed_tids s) tid_now in
  if tIter =? len then
    if 0 <? len then
      let temp := at_pos (needed_tids s) 0 in
      let tids := <[Z.to_nat tIter := temp]> (<[0%nat := tid_now]> (needed_tids s)) in
      let temp := at_pos (print_tids s) 0 in
      let prints := <[Z.to_nat tIter := temp]> (<[0%nat := 0]> (print_tids s)) in
      if len =? 999 then ExitProcess
      else Ret (with_tids tids prints (len + 1) s)
    else Ret (with_tids (<[Z.to_nat tIter := tid_now]> (needed_tids s)) (print_tids s) (len + 1) s)
  else Ret s.

(** The loop over the nine columns of a [top] line that hold the id. [char]
    is signed. *)
Fixpoint top_tid (n : nat) (line : list Z) (temp_it tid_now : Z) : Z :=
  match n with
  | O => tid_now
  | S n =>
      let c := at_pos line (6 + temp_it) in
      let tid_now := if negb (c =? SPACE) then s32 (tid_now * 10 + (s8 c - DIGIT_0)) else tid_now in
      if nz tid_now && (c =? SPACE) then tid_now else top_tid n line (temp_it + 1) tid_now
  end.

Definition oldPidAccumulatorFromTopCommand (s : tracer) : outcome tracer :=
  if at_pos (pras_temp_line s) 1 =? SPACE then
    let tid_now := top_tid 9 (pras_temp_line s) 0 0 in
    let s := with_pid tid_now s in
    if needed_pid s =? 0 then ExitProcess else track_tid tid_now s
  else Ret s.

(** The loop over the nine characters after the name in a [logcat] line. *)
Fixpoint logcat_tid (n : nat) (line : list Z) (tidPtr tid_now : Z) : outcome Z :=
  match n with
  | O => Ret tid_now
  | S n =>
      match line !! Z.to_nat tidPtr with
      | None => OutOfBounds
      | Some c =>
          let tid_now := if (DIGIT_0 <=? c) && (c <=? DIGIT_9) then s32 (tid_now * 10 + (c - DIGIT_0)) else tid_now in
          if nz tid_now && (c =? 0) then Ret tid_now else logcat_tid n line (tidPtr + 1) tid_now
      end
  end.

(** Called only when the name occurs in the line. *)
Definition newPidAccumulatorFromLogcatCommand (s : tracer) : outcome tracer :=
  match strstr (cstr (pras_temp_line s)) NEEDED_PROC_NAME with
  | None => OutOfBounds
  | Some pos =>
      tid_now ← logcat_tid 9 (pras_temp_line s) (pos + Z.of_nat (length NEEDED_PROC_NAME)) 0;
      let s := with_line_length 0 s in
      if tid_now =? 0 then Ret s else track_tid tid_now (with_pid tid_now s)
  end.

(** One turn of the loop over the characters of a chunk. The line is not
    cleared between lines: the next one starts at index 1. *)
Definition scan_char (s : tracer) (c : Z) : outcome tracer :=
  let n := pras_line_length s in
  if LINE_SIZE <=? n + 1 then OutOfBounds else
  let s := with_line (<[Z.to_nat (n + 1) := 0]> (<[Z.to_nat n := c]> (pras_temp_line s))) s in
  s ← (if c =? NEWLINE then
         s ← (match strstr (cstr (pras_temp_line s)) NEEDED_PROC_NAME with
              | Some _ =>
                  if NEEDED_PROC_NAME_LOGCAT_FLAG then newPidAccumulatorFromLogcatCommand s
                  else oldPidAccumulatorFromTopCommand s
              | None => Ret s
              end);
         Ret (with_line_length 0 s)
       else Ret s);
  Ret (with_line_length (pras_line_length s + 1) s).

Definition scan_chars (s : tracer) (temp : list Z) : outcome tracer := foldM scan_char s temp.

(** ** The device *)

Definition DATA_SIZE : Z := 128.

Record tty_state := mkTty {
  tty_dev : goldfish_device;
  cs : bool;
  ptr : Z;
  ptr_len : Z;
  ready : Z;
  data : list Z;
  data_count : Z;
}.

Definition with_ptr (v : Z) (s : tty_state) : tty_state :=
  mkTty (tty_dev s) (cs s) v (ptr_len s) (ready s) (data s) (data_count s).
Definition with_ptr_len (v : Z) (s : tty_state) : tty_state :=
  mkTty (tty_dev s) (cs s) (ptr s) v (ready s) (data s) (data_count s).
Definition with_ready (v : Z) (s : tty_state) : tty_state :=
  mkTty (tty_dev s) (cs s) (ptr s) (ptr_len s) v (data s) (data_count s).
Definition with_data (d : list Z) (n : Z) (s : tty_state) : tty_state :=
  mkTty (tty_dev s) (cs s) (ptr s) (ptr_len s) (ready s) d n.

(** What [goldfish_tty_add] allocates, before the bus gives it its place. *)
Definition goldfish_tty_add (has_cs : bool) (id base irq : Z) : tty_state :=
  mkTty (mkDev None 0 (chars "goldfish_tty") (u32 id) base 0x1000 irq 1) has_cs 0 0 0
    (replicate (Z.to_nat DATA_SIZE) 0) 0.

Definition goldfish_tty_save {F} `{ByteWriter F} (f : F) (s : tty_state) : F :=
  let f := qemu_put_be64 f (ptr s) in
  let f := qemu_put_be32 f (ptr_len s) in
  let f := qemu_put_byte f (ready s) in
  let f := qemu_put_byte f (data_count s) in
  qemu_put_buffer f (take (Z.to_nat (data_count s)) (data s)).

(** The byte count of the stream is not checked against the buffer. *)
Definition goldfish_tty_load {G} `{ByteReader G} (g : G) (s : tty_state) (version_id : Z) :
    outcome (Z * tty_state * G) :=
  if negb (version_id =? GOLDFISH_TTY_SAVE_VERSION) && negb (version_id =? GOLDFISH_TTY_SAVE_VERSION - 1)
  then Ret (-1, s, g)
  else
    let '(p, g) := if version_id =? GOLDFISH_TTY_SAVE_VERSION - 1 then qemu_get_be32 g else qemu_get_be64 g in
    let '(l, g) := qemu_get_be32 g in
    let '(r, g) := qemu_get_byte g in
    let '(n, g) := qemu_get_byte g in
    if DATA_SIZE <? n then OutOfBounds
    else
      let '(bs, g) := qemu_get_buffer g n in
      Ret (0, with_data (bs ++ drop (length bs) (data s)) n (with_ready r (with_ptr_len l (with_ptr p s))), g).

Definition goldfish_tty_read (s : tty_state) (offset : Z) : outcome Z :=
  if offset =? TTY_BYTES_READY then Ret (data_count s)
  else if offset =? TTY_VERSION then Ret TTY_DEVICE_VERSION
  else CpuAbort.

Section tty_device.
(** [target_ulong]'s width, and the controller's lines. *)
Context {W : Type} (TARGET_LONG_BITS : Z) (pic : list (qemu_irq W)).

(** [gmem] is the guest's address space as [cpu_memory_rw_debug] sees it,
    with the pages the tty uses mapped. *)
Record tty_machine := mkTM {
  tty : tty_state;
  trc : tracer;
  printLength : Z;
  chr_out : list Z;
  gmem : Z -> Z;
  irqs : W;
}.

Definition set_tty (s : tty_state) (m : tty_machine) : tty_machine :=
  mkTM s (trc m) (printLength m) (chr_out m) (gmem m) (irqs m).
Definition set_irqs (w : W) (m : tty_machine) : tty_machine :=
  mkTM (tty m) (trc m) (printLength m) (chr_out m) (gmem m) w.
Definition set_trc (t : tracer) (m : tty_machine) : tty_machine :=
  mkTM (tty m) t (printLength m) (chr_out m) (gmem m) (irqs m).

Definition tty_machine_init (s : tty_state) (mem : Z -> Z) (w : W) : tty_machine :=
  mkTM s tracer_init 1000 [] mem w.

(** [qemu_chr_write] *)
Definition chr_write (bs : list Z) (m : tty_machine) : tty_machine :=
  mkTM (tty m) (trc m) (printLength m) (chr_out m ++ bs) (gmem m) (irqs m).

(** [safe_memory_rw_debug], reading and writing. *)
Definition guest_bytes (mem : Z -> Z) (addr len : Z) : list Z :=
  (fun i => u8 (mem (wrap TARGET_LONG_BITS (addr + Z.of_nat i)))) <$> seq 0 (Z.to_nat len).

Definition guest_store (mem : Z -> Z) (addr : Z) (bs : list Z) : Z -> Z := fun a =>
  match bs !! Z.to_nat (wrap TARGET_LONG_BITS (a - addr)) with
  | Some b => b
  | None => mem a
  end.

Definition set_irq (level : Z) (m : tty_machine) : outcome tty_machine :=
  w ← or_abort (goldfish_device_set_irq pic (tty_dev (tty m)) 0 level (irqs m));
  Ret (set_irqs w m).

(** The [while (len)] of [TTY_CMD_WRITE_BUFFER], in chunks of 64 bytes: the
    chunk is scanned, then echoed while no process has been found and the
    echo budget lasts. *)
Fixpoint write_chunks (fuel : nat) (m : tty_machine) (buf len : Z) : outcome tty_machine :=
  match fuel with
  | O => Ret m
  | S fuel =>
      if nz len then
        let to_write := if len <? 64 then len else 64 in
        let temp := guest_bytes (gmem m) buf to_write in
        t ← scan_chars (trc m) temp;
        let m := set_trc t m in
        let m := if (needed_pid (trc m) =? -1) && nz (printLength m) then
                   let m := chr_write temp m in
                   mkTM (tty m) (trc m) (printLength m - 1) (chr_out m) (gmem m) (irqs m)
                 else m in
        write_chunks fuel m (wrap TARGET_LONG_BITS (buf + to_write)) (len - to_write)
      else Ret m
  end.

(** Every chunk but the last has 64 bytes. *)
Definition chunk_fuel (len : Z) : nat := S (S (Z.to_nat (len / 64))).

Definition tty_cmd (m : tty_machine) (value : Z) : outcome tty_machine :=
  let s := tty m in
  if value =? TTY_CMD_INT_DISABLE then
    if nz (ready s) then
      m ← (if 0 <? data_count s then set_irq 0 m else Ret m);
      Ret (set_tty (with_ready 0 (tty m)) m)
    else Ret m
  else if value =? TTY_CMD_INT_ENABLE then
    if negb (nz (ready s)) then
      m ← (if 0 <? data_count s then set_irq 1 m else Ret m);
      Ret (set_tty (with_ready 1 (tty m)) m)
    else Ret m
  else if value =? TTY_CMD_WRITE_BUFFER then
    if cs s then
      let len := s32 (ptr_len s) in
      write_chunks (chunk_fuel len) m (wrap TARGET_LONG_BITS (ptr s)) len
    else Ret m
  else if value =? TTY_CMD_READ_BUFFER then
    if data_count s <? ptr_len s then CpuAbort else
    let mem := guest_store (gmem m) (wrap TARGET_LONG_BITS (ptr s)) (take (Z.to_nat (ptr_len s)) (data s)) in
    let m := mkTM (tty m) (trc m) (printLength m) (chr_out m) mem (irqs m) in
    let d := if ptr_len s <? data_count s
             then blit (data s) 0 (range (data s) (ptr_len s) (data_count s - ptr_len s))
             else data s in
    let m := set_tty (with_data d (u32 (data_count s - ptr_len s)) s) m in
    if (data_count (tty m) =? 0) && nz (ready (tty m)) then set_irq 0 m else Ret m
  else CpuAbort.

Definition goldfish_tty_write (m : tty_machine) (offset value : Z) : outcome tty_machine :=
  let s := tty m in
  if offset =? TTY_PUT_CHAR then
    Ret (if cs s then chr_write [u8 value] m else m)
  else if offset =? TTY_CMD then tty_cmd m value
  else if offset =? TTY_DATA_PTR then Ret (set_tty (with_ptr (uint64_set_low (ptr s) value) s) m)
  else if offset =? TTY_DATA_PTR_HIGH then Ret (set_tty (with_ptr (uint64_set_high (ptr s) value) s) m)
  else if offset =? TTY_DATA_LEN then Ret (set_tty (with_ptr_len value s) m)
  else CpuAbort.

Definition tty_can_receive (s : tty_state) : Z := DATA_SIZE - data_count s.

(** The character layer asks [tty_can_receive] first; the copy itself is
    unchecked. *)
Definition tty_receive (m : tty_machine) (bs : list Z) : outcome tty_machine :=
  let s := tty m in
  if DATA_SIZE <? data_count s + Z.of_nat (length bs) then OutOfBounds else
  let s := with_data (blit (data s) (data_count s) bs) (u32 (data_count s + Z.of_nat (length bs))) s in
  let m := set_tty s m in
  if (0 <? data_count s) && nz (ready s) then set_irq 1 m else Ret m.
End tty_device.

(** ** The tracked ids *)

Section tracked.
Implicit Types s : tracer.

(** The tracked ids with their print flags, in the order of the arrays. *)
Definition tracked s : list (Z * Z) :=
  zip (take (Z.to_nat (needed_tid_length s)) (needed_tids s)) (take (Z.to_nat (needed_tid_length s)) (print_tids s)).

Definition tids_of s : list Z := take (Z.to_nat (needed_tid_length s)) (needed_tids s).

Record tids_ok s : Prop := {
  tids_size : Z.of_nat (length (needed_tids s)) = TIDS_SIZE;
  prints_size : Z.of_nat (length (print_tids s)) = TIDS_SIZE;
  tids_count : 0 <= needed_tid_length s <= 999;
  tids_distinct : NoDup (tids_of s);
}.

Lemma tid_index_spec n i tids tid :
  let r := tid_index n i tids tid in
  i <= r <= i + Z.of_nat n /\ (r < i + Z.of_nat n -> at_pos tids r = tid)
  /\ forall j, i <= j < r -> at_pos tids j <> tid.
Proof.
  revert i. induction n as [|n IH]; intros i; cbn [tid_index]; cbv zeta; [split_and!; intros; lia|].
  destruct (Z.eqb_spec tid (at_pos tids i)) as [->|Hne].
  - split_and!; intros; (lia || done).
  - destruct (IH (i + 1)) as (H1 & H2 & H3). split; [lia|]. split; [intros; apply H2; lia|].
    intros j Hj. destruct (decide (j = i)) as [->|]; [congruence|]. apply H3. lia.
Qed.

Lemma elem_of_take_at tids n tid : (n <= length tids)%nat ->
  tid ∈ take n tids <-> exists j, 0 <= j < Z.of_nat n /\ at_pos tids j = tid.
Proof.
  intros Hn. rewrite list_elem_of_lookup. unfold at_pos. split.
  - intros [j [Hj Hl]%lookup_take_Some]. exists (Z.of_nat j). rewrite Nat2Z.id, Hj. split; [lia|done].
  - intros (j & Hj & E). exists (Z.to_nat j). apply lookup_take_Some. split; [|lia].
    destruct (lookup_lt_is_Some_2 tids (Z.to_nat j)) as [x Hx]; [lia|]. rewrite Hx in *. simpl in E. congruence.
Qed.

(** The scan ends at the count exactly for an untracked id. *)
Lemma tid_index_new s tid : tids_ok s ->
  let r := tid_index (Z.to_nat (needed_tid_length s)) 0 (needed_tids s) tid in
  (r =? needed_tid_length s) = bool_decide (tid ∉ tids_of s).
Proof.
  intros [Hl _ Hc _]. cbv zeta. unfold TIDS_SIZE in Hl.
  destruct (tid_index_spec (Z.to_nat (needed_tid_length s)) 0 (needed_tids s) tid) as (H1 & H2 & H3).
  set (r := tid_index _ _ _ _) in *. unfold tids_of. case_bool_decide as Hin.
  - apply Z.eqb_eq. destruct (Z.eq_dec r (needed_tid_length s)); [done|]. exfalso. apply Hin.
    apply elem_of_take_at; [lia|]. exists r. split; [lia|]. apply H2. lia.
  - apply elem_of_take_at in Hin as (j & Hj & E); [|lia]. apply Z.eqb_neq. intros Hr.
    apply (H3 j); [lia|done].
Qed.

(** What the four stores of an insertion leave in the first [n + 1] cells. *)
Lemma swap_insert (l : list Z) n x : (0 < n < length l)%nat ->
  take (S n) (<[n := at_pos l 0]> (<[0%nat := x]> l)) = x :: tail (take n l) ++ [at_pos l 0].
Proof.
  intros Hn. destruct l as [|a l]; simpl in *; [lia|]. destruct n as [|n]; [lia|].
  simpl. f_equal. unfold at_pos. simpl.
  rewrite (take_S_r _ _ a) by (rewrite list_lookup_insert_eq by lia; done).
  f_equal. by rewrite take_insert_ge by lia.
Qed.

Lemma tracked_tids s : tids_ok s -> (tracked s).*1 = tids_of s.
Proof.
  intros [Hl Hp Hc _]. unfold tracked, tids_of. rewrite fst_zip; [done|].
  rewrite !length_take. unfold TIDS_SIZE in *. lia.
Qed.

Lemma take_pos_cons (l : list Z) n : (0 < n <= length l)%nat -> take n l = at_pos l 0 :: tail (take n l).
Proof. intros Hn. destruct l, n; simpl in *; try lia. done. Qed.

(** Tracking an id: a known one changes nothing; a new one comes first, with
    a clear print flag, and the others keep theirs; the thousandth ends the
    emulator. *)
Lemma track_tid_spec s tid : tids_ok s ->
  if bool_decide (tid ∉ tids_of s) then
    if needed_tid_length s =? 999 then track_tid tid s = ExitProcess
    else exists s', track_tid tid s = Ret s' /\ tids_ok s' /\ head (tids_of s') = Some tid
      /\ tracked s' ≡ₚ (tid, if 0 <? needed_tid_length s then 0 else at_pos (print_tids s) 0) :: tracked s
      /\ pras_temp_line s' = pras_temp_line s /\ pras_line_length s' = pras_line_length s
      /\ needed_pid s' = needed_pid s /\ needed_tid_length s' = needed_tid_length s + 1
  else track_tid tid s = Ret s.
Proof.
  intros Hok. pose proof Hok as [Hl Hp Hc Hd]. unfold TIDS_SIZE in *. unfold track_tid.
  rewrite (tid_index_new s tid Hok). case_bool_decide as Hin; [|done].
  pose proof (tid_index_new s tid Hok) as Ht. rewrite bool_decide_eq_true_2 in Ht by done.
  apply Z.eqb_eq in Ht. rewrite Ht. set (n := needed_tid_length s) in *.
  destruct (Z.ltb_spec 0 n).
  - destruct (Z.eqb_spec n 999); [done|].
    assert (take (Z.to_nat (n + 1)) (<[Z.to_nat n := at_pos (needed_tids s) 0]> (<[0%nat := tid]> (needed_tids s)))
      = tid :: tail (take (Z.to_nat n) (needed_tids s)) ++ [at_pos (needed_tids s) 0]) as E1.
    { replace (Z.to_nat (n + 1)) with (S (Z.to_nat n)) by lia. apply swap_insert. lia. }
    assert (take (Z.to_nat (n + 1)) (<[Z.to_nat n := at_pos (print_tids s) 0]> (<[0%nat := 0]> (print_tids s)))
      = 0 :: tail (take (Z.to_nat n) (print_tids s)) ++ [at_pos (print_tids s) 0]) as E2.
    { replace (Z.to_nat (n + 1)) with (S (Z.to_nat n)) by lia. apply swap_insert. lia. }
    pose proof (take_pos_cons (needed_tids s) (Z.to_nat n) ltac:(lia)) as T1.
    pose proof (take_pos_cons (print_tids s) (Z.to_nat n) ltac:(lia)) as T2.
    eexists. split; [done|]. unfold tids_of, tracked. fold n. cbn [needed_tids print_tids needed_tid_length with_tids].
    rewrite E1, E2. split_and!; try done.
    + split; unfold tids_of, TIDS_SIZE; cbn [needed_tids print_tids needed_tid_length with_tids];
        rewrite ?length_insert; try lia. rewrite E1. apply NoDup_cons.
      unfold tids_of in Hin, Hd. fold n in Hin, Hd. rewrite T1 in Hin, Hd.
      rewrite not_elem_of_cons in Hin. apply NoDup_cons in Hd as [Hd1 Hd2].
      split; [rewrite elem_of_app, list_elem_of_singleton; naive_solver|].
      apply NoDup_app. split; [done|]. split; [|apply NoDup_singleton].
      intros x Hx ->%list_elem_of_singleton. done.
    + rewrite T1, T2. simpl. apply perm_skip.
      rewrite zip_with_app by (rewrite !List.length_tl, !length_take; lia). simpl.
      by rewrite Permutation_app_comm.
  - assert (n = 0) as E by lia. rewrite E in *. simpl.
    eexists. split; [done|]. unfold tids_of, tracked. cbn [needed_tids print_tids needed_tid_length with_tids]. fold n.
    rewrite E. simpl. destruct (needed_tids s) as [|a l] eqn:En; [simpl in Hl; lia|].
    destruct (print_tids s) as [|b l'] eqn:Ep; [simpl in Hp; lia|]. simpl.
    split_and!; try done.
    split; simpl; rewrite ?En, ?Ep; unfold TIDS_SIZE; simpl in *; try lia.
    unfold tids_of. simpl. apply NoDup_singleton.
Qed.
End tracked.

(** ** Reading the id of a listing *)

Definition is_digit (c : Z) : Prop := DIGIT_0 <= c <= DIGIT_9.

Definition decimal_value (t : Z) (ds : list Z) : Z := foldl (fun t c => t * 10 + (c - DIGIT_0)) t ds.

(** [top_tid] on the characters from column 6 on. *)
Fixpoint top_on (n : nat) (l : list Z) (tid_now : Z) : Z :=
  match n with
  | O => tid_now
  | S n =>
      let c := default 0 (head l) in
      let tid_now := if negb (c =? SPACE) then s32 (tid_now * 10 + (s8 c - DIGIT_0)) else tid_now in
      if nz tid_now && (c =? SPACE) then tid_now else top_on n (tail l) tid_now
  end.

Lemma top_tid_on n line i t : 0 <= i -> top_tid n line i t = top_on n (drop (Z.to_nat (6 + i)) line) t.
Proof.
  revert i t. induction n as [|n IH]; intros i t Hi; [done|]. cbn [top_tid top_on].
  assert (head (drop (Z.to_nat (6 + i)) line) = line !! Z.to_nat (6 + i)) as Hh.
  { by rewrite head_lookup, lookup_drop, Nat.add_0_r. }
  rewrite Hh. unfold at_pos. rewrite IH by lia.
  assert (tail (drop (Z.to_nat (6 + i)) line) = drop (Z.to_nat (6 + (i + 1))) line) as ->; [|done].
  replace (Z.to_nat (6 + (i + 1))) with (S (Z.to_nat (6 + i))) by lia.
  generalize (Z.to_nat (6 + i)). clear. intros k. revert line. induction k; intros [|a line]; simpl; auto.
Qed.

Lemma top_on_spaces n k l : top_on (k + n) (replicate k SPACE ++ l) 0 = top_on n l 0.
Proof. induction k as [|k IH]; simpl; [done|]. apply IH. Qed.

Lemma decimal_bounds t ds : 0 <= t -> Forall is_digit ds ->
  t <= decimal_value t ds < (t + 1) * 10 ^ Z.of_nat (length ds).
Proof.
  revert t. induction ds as [|d ds IH]; intros t Ht Hd; unfold decimal_value in *; simpl foldl.
  { simpl. lia. }
  apply Forall_cons in Hd as [[H1 H2] Hd]. unfold DIGIT_0, DIGIT_9 in *.
  specialize (IH (t * 10 + (d - 48)) ltac:(lia) Hd). simpl length.
  rewrite Nat2Z.inj_succ, Z.pow_succ_r by lia.
  assert (0 < 10 ^ Z.of_nat (length ds)) by (apply Z.pow_pos_nonneg; lia). split; [lia|]. nia.
Qed.

(** The digits are read up to the space that ends them, or to the last
    column. *)
Lemma top_on_digits n ds rest t : (length ds <= n)%nat -> Forall is_digit ds -> 0 <= t ->
  0 < decimal_value t ds < 2 ^ 31 -> (length ds < n -> exists r, rest = SPACE :: r)%nat ->
  top_on n (ds ++ rest) t = decimal_value t ds.
Proof.
  revert n t. induction ds as [|d ds IH]; intros n t Hn Hd Ht Hb Hr.
  - destruct n as [|n]; [done|]. destruct (Hr ltac:(simpl; lia)) as (r & ->). unfold decimal_value in Hb. simpl in *.
    rewrite (proj2 (nz_true t)) by lia. done.
  - destruct n as [|n]; [simpl in Hn; lia|]. apply Forall_cons in Hd as [Hdig Hd].
    pose proof Hdig as [H1 H2]. unfold DIGIT_0, DIGIT_9 in H1, H2. cbn [top_on].
    change (default 0 (head ((d :: ds) ++ rest))) with d. change (tail ((d :: ds) ++ rest)) with (ds ++ rest).
    assert (s8 d = d) as -> by (apply swrap_small; [|unfold in_s]; lia).
    destruct (Z.eqb_spec d SPACE); [unfold SPACE in *; lia|]. simpl negb. cbv iota. rewrite andb_false_r.
    unfold decimal_value in Hb. simpl in Hb. fold (decimal_value (t * 10 + (d - DIGIT_0)) ds) in Hb.
    pose proof (decimal_bounds (t * 10 + (d - DIGIT_0)) ds ltac:(unfold DIGIT_0; lia) Hd).
    rewrite swrap_small by (unfold in_s, DIGIT_0 in *; lia). apply IH; try done.
    + simpl in Hn. lia.
    + unfold DIGIT_0. lia.
    + intros Hlt. apply Hr. simpl. lia.
Qed.

(** The columns of a [top] line: blanks, the id, a blank. *)
Lemma top_tid_columns line pre k ds rest :
  line = pre ++ replicate k SPACE ++ ds ++ SPACE :: rest -> length pre = 6%nat ->
  (k + length ds <= 9)%nat -> Forall is_digit ds -> 0 < decimal_value 0 ds ->
  top_tid 9 line 0 0 = decimal_value 0 ds.
Proof.
  intros -> Hp Hk Hd Hpos. rewrite top_tid_on by lia. change (Z.to_nat (6 + 0)) with 6%nat.
  rewrite drop_app_length' by done. replace 9%nat with (k + (9 - k))%nat by lia. rewrite top_on_spaces.
  pose proof (decimal_bounds 0 ds ltac:(lia) Hd).
  apply top_on_digits; [lia|done|lia| |by eauto].
  split; [done|]. assert (10 ^ Z.of_nat (length ds) <= 10 ^ 9) by (apply Z.pow_le_mono_r; lia). lia.
Qed.

(** ** The line buffer *)

Definition tracer_ok (s : tracer) : Prop :=
  tids_ok s /\ Z.of_nat (length (pras_temp_line s)) = LINE_SIZE /\ 0 <= pras_line_length s.

Lemma replicate_size n : 0 <= n -> Z.of_nat (length (replicate (Z.to_nat n) 0)) = n.
Proof. intros. rewrite length_replicate. lia. Qed.

Lemma tracer_init_ok : tracer_ok tracer_init.
Proof.
  split; [|split; [|simpl; lia]].
  - split; [by apply replicate_size|by apply replicate_size|simpl; lia|apply NoDup_nil_2].
  - apply replicate_size. unfold LINE_SIZE. lia.
Qed.

Lemma scan_char_plain s c : c <> NEWLINE -> pras_line_length s + 1 < LINE_SIZE ->
  scan_char s c = Ret (with_line_length (pras_line_length s + 1)
    (with_line (<[Z.to_nat (pras_line_length s + 1) := 0]> (<[Z.to_nat (pras_line_length s) := c]> (pras_temp_line s))) s)).
Proof.
  intros Hc Hn. unfold scan_char. destruct (Z.leb_spec LINE_SIZE (pras_line_length s + 1)); [lia|].
  by rewrite (proj2 (Z.eqb_neq _ _) Hc).
Qed.

(** Characters that do not end a line are stored one after the other. *)
Lemma scan_plain l s : Forall (fun c => c <> NEWLINE) l ->
  Z.of_nat (length (pras_temp_line s)) = LINE_SIZE -> 0 <= pras_line_length s ->
  pras_line_length s + Z.of_nat (length l) < LINE_SIZE ->
  let n := Z.to_nat (pras_line_length s) in
  exists L, scan_chars s l = Ret (with_line_length (pras_line_length s + Z.of_nat (length l)) (with_line L s))
    /\ length L = length (pras_temp_line s) /\ take (n + length l) L = take n (pras_temp_line s) ++ l
    /\ drop (n + length l + 1) L = drop (n + length l + 1) (pras_temp_line s).
Proof.
  revert s. induction l as [|c l IH]; intros s Hl Hsz Hn Hb; cbv zeta.
  { exists (pras_temp_line s). simpl. rewrite Z.add_0_r, Nat.add_0_r, app_nil_r. by destruct s. }
  apply Forall_cons in Hl as [Hc Hl]. simpl in Hb. unfold scan_chars in *. cbn [foldM].
  rewrite scan_char_plain by (done || lia). cbn [mbind outcome_bind].
  set (n := Z.to_nat (pras_line_length s)).
  set (L1 := <[Z.to_nat (pras_line_length s + 1) := 0]> (<[n := c]> (pras_temp_line s))).
  edestruct (IH (with_line_length (pras_line_length s + 1) (with_line L1 s))) as (L & E & HL & Ht & Hd);
    cbn [pras_line_length pras_temp_line with_line with_line_length] in *; try done.
  { unfold L1. by rewrite !length_insert. }
  { lia. }
  { lia. }
  assert (length L1 = length (pras_temp_line s)) as HL1 by (unfold L1; by rewrite !length_insert).
  replace (Z.to_nat (pras_line_length s + 1)) with (S n) in * by lia.
  exists L. rewrite E. unfold with_line_length, with_line. simpl. split; [f_equal; f_equal; lia|].
  split; [lia|]. split.
  - replace (n + S (length l))%nat with (S n + length l)%nat by lia. rewrite Ht. unfold L1.
    rewrite take_insert_ge by lia. rewrite (take_S_r _ _ c) by (rewrite list_lookup_insert_eq by lia; done).
    by rewrite take_insert_ge, <- app_assoc by lia.
  - replace (n + S (length l) + 1)%nat with (S n + length l + 1)%nat by lia. rewrite Hd. unfold L1.
    rewrite !drop_insert_lt by lia. done.
Qed.

(** What a whole line does: the buffer holds what was before the line, the
    line, its newline and a NUL; the line is examined if it names the
    process, and the next one starts at index 1. *)
Lemma scan_line l s : Forall (fun c => c <> NEWLINE) l ->
  Z.of_nat (length (pras_temp_line s)) = LINE_SIZE -> 0 <= pras_line_length s ->
  pras_line_length s + Z.of_nat (length l) + 1 < LINE_SIZE ->
  exists L, length L = length (pras_temp_line s)
    /\ (exists after, L = take (Z.to_nat (pras_line_length s)) (pras_temp_line s) ++ l ++ NEWLINE :: 0 :: after)
    /\ scan_chars s (l ++ [NEWLINE])
      = let s1 := with_line_length (pras_line_length s + Z.of_nat (length l)) (with_line L s) in
        s2 ← (match strstr (cstr L) NEEDED_PROC_NAME with
              | Some _ => oldPidAccumulatorFromTopCommand s1
              | None => Ret s1
              end);
        Ret (with_line_length 1 s2).
Proof.
  intros Hl Hsz Hn Hb. destruct (scan_plain l s Hl Hsz Hn ltac:(lia)) as (L & E & HL & Ht & _).
  set (n := Z.to_nat (pras_line_length s)) in *.
  unfold scan_chars in *. rewrite foldM_app, E. cbn [mbind outcome_bind foldM].
  unfold scan_char at 1. cbn [pras_line_length pras_temp_line with_line_length with_line].
  destruct (Z.leb_spec LINE_SIZE (pras_line_length s + Z.of_nat (length l) + 1)); [lia|].
  rewrite Z.eqb_refl. set (n' := (n + length l)%nat).
  replace (Z.to_nat (pras_line_length s + Z.of_nat (length l))) with n' by lia.
  replace (Z.to_nat (pras_line_length s + Z.of_nat (length l) + 1)) with (S n') by lia.
  set (L' := <[S n' := 0]> (<[n' := NEWLINE]> L)). exists L'.
  split; [unfold L'; by rewrite !length_insert|]. split.
  - exists (drop (S (S n')) L). unfold L'. rewrite (insert_take_drop _ (S n')) by (rewrite length_insert; lia).
    rewrite (take_S_r _ n' NEWLINE) by (rewrite list_lookup_insert_eq by lia; done).
    rewrite take_insert_ge, drop_insert_lt by lia. unfold n'. rewrite Ht, <- !app_assoc. done.
  - unfold with_line, with_line_length. cbn [pras_line_length pras_temp_line needed_pid needed_tids print_tids needed_tid_length].
    destruct (strstr (cstr L') NEEDED_PROC_NAME); [|done]. cbn [NEEDED_PROC_NAME_LOGCAT_FLAG].
    by destruct (oldPidAccumulatorFromTopCommand _).
Qed.

Lemma has_prefix_app p l : has_prefix p (p ++ l) = true.
Proof. induction p as [|a p IH]; simpl; [done|]. by rewrite Z.eqb_refl. Qed.

Lemma strstr_found a p b : is_Some (strstr (a ++ p ++ b) p).
Proof.
  induction a as [|x a IH]; simpl.
  - destruct (p ++ b) eqn:E; simpl; rewrite <- E, has_prefix_app; by eexists.
  - destruct (has_prefix p (x :: a ++ p ++ b)); [by eexists|]. destruct IH as [k ->]. by eexists.
Qed.

(** Every character, whatever it does, keeps the tracer well formed. *)
Lemma old_pid_ok s s' : tids_ok s -> oldPidAccumulatorFromTopCommand s = Ret s' ->
  tids_ok s' /\ pras_temp_line s' = pras_temp_line s /\ pras_line_length s' = pras_line_length s
  /\ tids_of s ⊆ tids_of s'.
Proof.
  intros Hok. unfold oldPidAccumulatorFromTopCommand. destruct (_ =? SPACE); [|intros [= <-]; split_and!; [done..|reflexivity]].
  set (tid := top_tid _ _ _ _). destruct (_ =? 0); [done|].
  assert (tids_ok (with_pid tid s)) as Hok' by (destruct Hok; by split).
  pose proof (track_tid_spec (with_pid tid s) tid Hok') as HT. case_bool_decide.
  - destruct (_ =? 999); [by rewrite HT|]. destruct HT as (s1 & E & H1 & _ & Hp & H2 & H3 & _).
    rewrite E. intros [= <-]. split; [done|]. split; [done|]. split; [done|].
    rewrite <- (tracked_tids s1), <- (tracked_tids s) by done. change (tracked s) with (tracked (with_pid tid s)).
    apply (fmap_Permutation fst) in Hp. intros x Hx. rewrite Hp. simpl. by right.
  - rewrite HT. intros [= <-]. split_and!; [done..|reflexivity].
Qed.

Lemma scan_char_ok s c s' : tracer_ok s -> scan_char s c = Ret s' ->
  tracer_ok s' /\ tids_of s ⊆ tids_of s'.
Proof.
  intros (Ht & Hl & Hn). unfold scan_char. destruct (_ <=? _); [done|]. set (L := <[_ := 0]> _).
  assert (Z.of_nat (length L) = LINE_SIZE) as HL by (unfold L; by rewrite !length_insert).
  assert (tids_ok (with_line L s)) as Ht' by (destruct Ht; by split).
  intros (s1 & H1 & [= <-])%bind_Ret.
  enough (tids_ok s1 /\ Z.of_nat (length (pras_temp_line s1)) = LINE_SIZE /\ 0 <= pras_line_length s1
    /\ tids_of s ⊆ tids_of s1) as ([] & ? & ? & ?).
  { split; [split; [by split|]|done]. split; [done|]. simpl. lia. }
  destruct (c =? NEWLINE); [|injection H1 as <-; by split_and!].
  apply bind_Ret in H1 as (s2 & H1 & [= <-]). destruct (strstr _ _); simpl in *; [|injection H1 as <-; split_and!; try done; destruct Ht'; by split].
  apply old_pid_ok in H1 as (H1 & H2 & H3 & H4); [|done]. rewrite H2. simpl.
  split; [destruct H1; by split|]. split; [done|]. split; [lia|done].
Qed.

(** ** What the tracer promises *)

(** What a line of a [top] listing does to the tracked ids. *)
Lemma top_line_scanned s cols k ds rest a b :
  tracer_ok s -> pras_line_length s = 1 -> at_pos (pras_temp_line s) 0 <> 0 ->
  length cols = 4%nat -> Forall is_digit ds -> (k + length ds <= 9)%nat -> 0 < decimal_value 0 ds ->
  let line := SPACE :: cols ++ replicate k SPACE ++ ds ++ SPACE :: rest in
  line = a ++ NEEDED_PROC_NAME ++ b -> Forall (fun c => c <> 0 /\ c <> NEWLINE) line ->
  Z.of_nat (length line) <= 997 -> needed_tid_length s < 999 ->
  exists s', scan_chars s (line ++ [NEWLINE]) = Ret s' /\ tracer_ok s'
    /\ needed_pid s' = decimal_value 0 ds /\ (forall c, c ∈ tids_of s' <-> c = decimal_value 0 ds \/ c ∈ tids_of s)
    /\ pras_line_length s' = 1.
Proof.
  intros Hok Hn Hc0 Hcols Hds Hk Hpos line Hname Hline Hlen Hroom. pose proof Hok as (Ht & Hsz & _).
  destruct (scan_line line s) as (L & HL & (after & EL) & E).
  { eapply Forall_impl; [exact Hline|]. by intros c []. }
  { done. }
  { lia. }
  { unfold LINE_SIZE. lia. }
  rewrite Hn in E, EL. change (Z.to_nat 1) with 1%nat in EL.
  rewrite (take_pos_cons _ 1) in EL by (unfold LINE_SIZE in Hsz; lia).
  set (c0 := at_pos (pras_temp_line s) 0) in *.
  assert (tail (take 1 (pras_temp_line s)) = []) as Et by (by destruct (pras_temp_line s)).
  rewrite Et in EL. cbn [app] in EL. rewrite E. clear E.
  assert (is_Some (strstr (cstr L) NEEDED_PROC_NAME)) as [p ->].
  { assert (L = (c0 :: line ++ [NEWLINE]) ++ 0 :: after) as ->.
    { rewrite EL. change ((c0 :: line ++ [NEWLINE]) ++ 0 :: after) with (c0 :: (line ++ [NEWLINE]) ++ 0 :: after).
      by rewrite <- app_assoc. }
    rewrite cstr_app; [|constructor; [done|]; apply Forall_app; split; [|by repeat constructor]].
    - simpl cstr. rewrite app_nil_r, Hname.
      replace (c0 :: (a ++ NEEDED_PROC_NAME ++ b) ++ [NEWLINE]) with ((c0 :: a) ++ NEEDED_PROC_NAME ++ b ++ [NEWLINE])
        by (simpl; by rewrite <- !app_assoc).
      apply strstr_found.
    - eapply Forall_impl; [exact Hline|]. by intros c []. }
  set (s1 := with_line_length _ _). unfold oldPidAccumulatorFromTopCommand.
  change (pras_temp_line s1) with L.
  assert (at_pos L 1 = SPACE) as -> by (by rewrite EL). rewrite Z.eqb_refl.
  assert (top_tid 9 L 0 0 = decimal_value 0 ds) as ->.
  { apply (top_tid_columns L (c0 :: SPACE :: cols) k ds (rest ++ NEWLINE :: 0 :: after)); try done; [|simpl; lia].
    rewrite EL. unfold line. simpl. rewrite <- !app_assoc. done. }
  set (tid := decimal_value 0 ds) in *. cbn [needed_pid with_pid]. destruct (Z.eqb_spec tid 0); [lia|].
  assert (tids_ok (with_pid tid s1)) as Ht1 by (destruct Ht; by split).
  pose proof (track_tid_spec (with_pid tid s1) tid Ht1) as HT.
  change (needed_tid_length (with_pid tid s1)) with (needed_tid_length s) in HT.
  rewrite (proj2 (Z.eqb_neq _ 999)) in HT by lia.
  enough (exists s2, track_tid tid (with_pid tid s1) = Ret s2 /\ tids_ok s2
    /\ (forall c, c ∈ tids_of s2 <-> c = tid \/ c ∈ tids_of s) /\ needed_pid s2 = tid /\ pras_temp_line s2 = L) as (s2 & Es2 & H1 & H2 & H4 & H5).
  { exists (with_line_length 1 s2). split; [by apply bind_Ret; eauto|]. split_and!; try done. split; [destruct H1; by split|]. simpl. rewrite H5, HL. done. }
  case_bool_decide as Hin.
  - destruct HT as (s2 & -> & H1 & H2 & Hp & H3 & _ & H4 & _). exists s2. split_and!; try done.
    rewrite <- (tracked_tids s2) by done. change (tids_of s) with (tids_of (with_pid tid s1)).
    rewrite <- (tracked_tids (with_pid tid s1)) by done. apply (fmap_Permutation fst) in Hp. intros c. by rewrite Hp, fmap_cons, elem_of_cons.
  - exists (with_pid tid s1). split_and!; try done. intros c. change (tids_of (with_pid tid s1)) with (tids_of s) in *.
    split; [by right|]. intros [->|]; [|done]. by destruct (decide (tid ∈ tids_of s)).
Qed.

(** A complete line of a [top] listing that names the traced process makes
    the process's id the needed one and tracks it: for a line made of a
    blank, four characters, the right-aligned decimal id, a blank and
    anything else that contains the name, the scanner reads the id back
    exactly, keeps every id tracked before, and is ready for the next line. *)
Theorem top_line_tracks_process s cols k ds rest a b :
  tracer_ok s -> pras_line_length s = 1 -> at_pos (pras_temp_line s) 0 <> 0 ->
  length cols = 4%nat -> Forall is_digit ds -> (k + length ds <= 9)%nat -> 0 < decimal_value 0 ds ->
  let line := SPACE :: cols ++ replicate k SPACE ++ ds ++ SPACE :: rest in
  line = a ++ NEEDED_PROC_NAME ++ b -> Forall (fun c => c <> 0 /\ c <> NEWLINE) line ->
  Z.of_nat (length line) <= 997 -> needed_tid_length s < 999 ->
  exists s', scan_chars s (line ++ [NEWLINE]) = Ret s' /\ tracer_ok s'
    /\ needed_pid s' = decimal_value 0 ds /\ decimal_value 0 ds ∈ tids_of s' /\ tids_of s ⊆ tids_of s'
    /\ pras_line_length s' = 1.
Proof.
  intros Hok Hn Hc0 Hcols Hds Hk Hpos line Hname Hline Hlen Hroom.
  destruct (top_line_scanned s cols k ds rest a b) as (s' & E & Ho & Hp & Ht & Hl); try done.
  exists s'. split_and!; try done; [apply Ht; by left|]. intros c Hc. apply Ht. by right.
Qed.

(** The tracer after a first line of the terminal. *)
Definition after_first_line : tracer :=
  match scan_chars tracer_init (chars "$ top" ++ [NEWLINE]) with Ret s => s | _ => tracer_init end.

Lemma scan_chars_ok l s s' : tracer_ok s -> scan_chars s l = Ret s' -> tracer_ok s'.
Proof. intros Hs. apply (foldM_inv tracer_ok); [|done]. intros b c b' Hb E. by eapply scan_char_ok. Qed.

Lemma after_first_line_ok : tracer_ok after_first_line.
Proof. apply (scan_chars_ok (chars "$ top" ++ [NEWLINE]) tracer_init); [apply tracer_init_ok|]. vm_compute. reflexivity. Qed.

Lemma top_line_tracks_process_witness :
  exists s', scan_chars after_first_line (chars "     " ++ chars "  1234 S app.beeready" ++ [NEWLINE]) = Ret s'
    /\ needed_pid s' = 1234 /\ 1234 ∈ tids_of s'.
Proof.
  destruct (top_line_tracks_process after_first_line (chars "    ") 2 (chars "1234") (chars "S app.beeready")
    (chars "       1234 S app.") [] after_first_line_ok) as (s' & E & _ & Hp & Ht & _).
  - vm_compute. reflexivity.
  - vm_compute. congruence.
  - reflexivity.
  - repeat constructor; vm_compute; congruence.
  - simpl. lia.
  - reflexivity.
  - vm_compute. reflexivity.
  - repeat constructor; vm_compute; congruence.
  - simpl. lia.
  - vm_compute. reflexivity.
  - exists s'. split; [exact E|]. split; [exact Hp|exact Ht].
Defined.

Lemma scan_char_overrun s c : LINE_SIZE <= pras_line_length s + 1 -> scan_char s c = OutOfBounds.
Proof. intros Hn. unfold scan_char. by rewrite (proj2 (Z.leb_le _ _) Hn). Qed.

(** The line buffer is not bounded: from any position, enough characters
    without a newline write past its 1000 bytes. The guest chooses the
    characters, so it can make the emulator write outside of the buffer. *)
Theorem long_line_overruns_buffer s l :
  Z.of_nat (length (pras_temp_line s)) = LINE_SIZE -> 0 <= pras_line_length s -> pras_line_length s < LINE_SIZE ->
  Forall (fun c => c <> NEWLINE) l -> LINE_SIZE <= pras_line_length s + Z.of_nat (length l) ->
  scan_chars s l = OutOfBounds.
Proof.
  intros Hsz Hn Hn' Hl Hlen. set (k := Z.to_nat (LINE_SIZE - 1 - pras_line_length s)).
  unfold LINE_SIZE in *. rewrite <- (take_drop k l). unfold scan_chars. rewrite foldM_app.
  assert (length (take k l) = k) as Hk by (rewrite length_take; lia).
  destruct (scan_plain (take k l) s) as (L & E & _); [by apply Forall_take|done|done|unfold LINE_SIZE; lia|].
  unfold scan_chars in E. rewrite E. cbn [mbind outcome_bind].
  destruct (drop k l) as [|c r] eqn:Ed.
  { apply (f_equal length) in Ed. rewrite length_drop in Ed. simpl in Ed. lia. }
  cbn [foldM]. rewrite scan_char_overrun; [done|]. unfold LINE_SIZE. cbn [pras_line_length with_line_length]. lia.
Qed.

Lemma long_line_overruns_buffer_witness : scan_chars tracer_init (replicate 1000 65) = OutOfBounds.
Proof.
  apply (long_line_overruns_buffer tracer_init (replicate 1000 65)).
  - apply tracer_init_ok.
  - vm_compute. congruence.
  - vm_compute. reflexivity.
  - apply Forall_replicate. vm_compute. congruence.
  - rewrite length_replicate. vm_compute. congruence.
Defined.

(** ** Output in chunks *)

Section output.
Context {W : Type} (TL : Z).
Implicit Types m : tty_machine (W := W).

Lemma guest_bytes_app mem addr a b : 0 <= a -> 0 <= b ->
  guest_bytes TL mem addr (a + b) = guest_bytes TL mem addr a ++ guest_bytes TL mem (wrap TL (addr + a)) b.
Proof.
  intros Ha Hb. unfold guest_bytes. rewrite Z2Nat.inj_add, seq_app, fmap_app by done. f_equal.
  rewrite Nat.add_comm, <- fmap_add_seq, <- list_fmap_compose. apply list_fmap_ext. intros i x _. simpl.
  f_equal. f_equal. unfold wrap. rewrite Zplus_mod_idemp_l. f_equal. lia.
Qed.

Lemma scan_chars_app s l1 l2 : scan_chars s (l1 ++ l2) = s' ← scan_chars s l1; scan_chars s' l2.
Proof. apply foldM_app. Qed.

(** The chunks of a buffer are scanned like the whole buffer, and sending
    them changes neither the device, nor the memory, nor the lines. *)
Lemma write_chunks_scan fuel m buf len : len < 64 * Z.of_nat fuel -> 0 <= len ->
  trc <$> write_chunks TL (S fuel) m buf len = scan_chars (trc m) (guest_bytes TL (gmem m) buf len)
  /\ forall m', write_chunks TL (S fuel) m buf len = Ret m' ->
       tty m' = tty m /\ gmem m' = gmem m /\ irqs m' = irqs m.
Proof.
  revert m buf len. induction fuel as [|fuel IH]; intros m buf len Hf Hl; [lia|].
  cbn [write_chunks]. fold (write_chunks (W := W) TL (S fuel)). destruct (nz len) eqn:En.
  2: { apply nz_false in En as ->. split; [done|]. by intros m' [= <-]. }
  set (to_write := if len <? 64 then len else 64).
  assert (0 <= to_write <= len /\ len - to_write < 64 * Z.of_nat fuel + (if len <? 64 then 1 else 0)) as [Hw Hr].
  { unfold to_write. destruct (Z.ltb_spec len 64); lia. }
  pose proof (guest_bytes_app (gmem m) buf to_write (len - to_write) ltac:(lia) ltac:(lia)) as Eb.
  replace (to_write + (len - to_write)) with len in Eb by lia. rewrite Eb, scan_chars_app.
  destruct (scan_chars (trc m) (guest_bytes TL (gmem m) buf to_write)) as [t| | | | |] eqn:Es; [|by split..].
  cbn [mbind outcome_bind]. set (m1 := if _ && _ then _ else _).
  assert (trc m1 = t /\ gmem m1 = gmem m /\ tty m1 = tty m /\ irqs m1 = irqs m) as (E1 & E2 & E3 & E4).
  { unfold m1. by destruct (_ && _). }
  clearbody m1. rewrite <- E1, <- E2, <- E3, <- E4.
  destruct fuel as [|fuel].
  - destruct (Z.ltb_spec len 64); [|lia]. assert (len - to_write = 0) as -> by (unfold to_write; lia).
    split; [done|]. by intros m' [= <-].
  - apply IH; destruct (Z.ltb_spec len 64); unfold to_write in *; lia.
Qed.
End output.

(** What the tracer learns from a write does not depend on how the output
    is cut into 64-byte chunks: TTY_CMD_WRITE_BUFFER scans the guest's buffer
    as one sequence of characters, ends the emulator exactly when that scan
    does, and leaves the device, the guest's memory and the interrupt lines
    alone. *)
Theorem tty_write_scans_whole_buffer {W} (TL : Z) (pic : list (qemu_irq W)) m :
  cs (tty m) = true -> 0 <= ptr_len (tty m) < 2 ^ 31 ->
  let bytes := guest_bytes TL (gmem m) (wrap TL (ptr (tty m))) (ptr_len (tty m)) in
  trc <$> goldfish_tty_write TL pic m TTY_CMD TTY_CMD_WRITE_BUFFER = scan_chars (trc m) bytes
  /\ forall m', goldfish_tty_write TL pic m TTY_CMD TTY_CMD_WRITE_BUFFER = Ret m' ->
       tty m' = tty m /\ gmem m' = gmem m /\ irqs m' = irqs m.
Proof.
  intros Hcs Hl bytes.
  assert (goldfish_tty_write TL pic m TTY_CMD TTY_CMD_WRITE_BUFFER
    = if cs (tty m) then write_chunks TL (chunk_fuel (s32 (ptr_len (tty m)))) m (wrap TL (ptr (tty m))) (s32 (ptr_len (tty m)))
      else Ret m) as -> by reflexivity.
  rewrite Hcs, swrap_small by (unfold in_s; lia).
  apply write_chunks_scan; [|lia]. pose proof (Z.div_mod (ptr_len (tty m)) 64 ltac:(lia)).
  pose proof (Z.mod_pos_bound (ptr_len (tty m)) 64 ltac:(lia)).
  pose proof (Z.div_pos (ptr_len (tty m)) 64 ltac:(lia) ltac:(lia)). lia.
Qed.

(** A guest whose memory holds one [top] line. *)
Definition example_output : list Z := chars "       1234 S app.beeready" ++ [NEWLINE].
Definition example_tty : tty_machine (W := goldfish_int_state) :=
  mkTM (mkTty (mkDev None 0 [] 0 0 0x1000 2 1) true 0x8000 27 0 (replicate 128 0) 0) after_first_line 1000 []
    (fun a => at_pos example_output (a - 0x8000)) goldfish_interrupt_init.

Lemma tty_write_scans_whole_buffer_witness :
  needed_pid ∘ trc <$> goldfish_tty_write 32 int_lines example_tty TTY_CMD TTY_CMD_WRITE_BUFFER = Ret 1234.
Proof.
  destruct (tty_write_scans_whole_buffer 32 int_lines example_tty) as [E _]; [reflexivity|simpl; lia|].
  transitivity (needed_pid <$> (trc <$> goldfish_tty_write 32 int_lines example_tty TTY_CMD TTY_CMD_WRITE_BUFFER)).
  - by destruct (goldfish_tty_write _ _ _ _ _).
  - rewrite E. vm_compute. reflexivity.
Defined.

(** ** Input *)

(** The bytes received and not yet fetched. *)
Definition input (s : tty_state) : list Z := take (Z.to_nat (data_count s)) (data s).

Section input.
Context {W : Type} (TL : Z) (HTL : 7 <= TL) (pic : list (qemu_irq W)) `{IrqLines W pic}.
Implicit Types m : tty_machine (W := W).

Record tty_ok m : Prop := {
  ok_lines : lines_ok (irqs m);
  ok_dev : dev_ok pic (tty_dev (tty m));
  ok_data : Z.of_nat (length (data (tty m))) = DATA_SIZE;
  ok_count : 0 <= data_count (tty m) <= DATA_SIZE;
  ok_len : in_u 32 (ptr_len (tty m));
  ok_bytes : Forall (in_u 8) (input (tty m));
  ok_line : dev_level pic (tty_dev (tty m)) (irqs m) = nz (ready (tty m)) && (0 <? data_count (tty m));
}.

Lemma length_input m : tty_ok m -> Z.of_nat (length (input (tty m))) = data_count (tty m).
Proof. intros []. unfold input. rewrite length_take. lia. Qed.

Lemma tty_set_irq m l : dev_ok pic (tty_dev (tty m)) -> lines_ok (irqs m) ->
  exists w, set_irq pic l m = Ret (set_irqs w m) /\ lines_ok w /\ dev_level pic (tty_dev (tty m)) w = nz l.
Proof.
  intros Hd Hw. destruct (dev_set_irq pic _ l _ Hd Hw) as (w & E & Hok & Hl).
  exists w. unfold set_irq. by rewrite E.
Qed.

(** A device register that does not touch the input keeps the invariant. *)
Lemma tty_ok_regs m s : tty_ok m -> tty_dev s = tty_dev (tty m) -> data s = data (tty m) ->
  data_count s = data_count (tty m) -> ready s = ready (tty m) -> in_u 32 (ptr_len s) -> tty_ok (set_tty s m).
Proof.
  intros [H1 H2 H3 H4 H5 H6 H7] E1 E2 E3 E4 Hl. split; simpl; unfold input in *; rewrite ?E1, ?E2, ?E3, ?E4; done.
Qed.

Lemma set_irqs_same m s : set_irqs (irqs m) (set_tty s m) = set_tty s m.
Proof. done. Qed.

Lemma receive_ok m bs : tty_ok m -> Forall (in_u 8) bs ->
  Z.of_nat (length bs) <= tty_can_receive (tty m) ->
  exists m', tty_receive pic m bs = Ret m' /\ tty_ok m' /\ input (tty m') = input (tty m) ++ bs
    /\ ptr (tty m') = ptr (tty m).
Proof.
  intros Hok Hbs Hlen. pose proof Hok as [H1 H2 H3 H4 H5 H6 H7]. unfold tty_can_receive, DATA_SIZE in *.
  unfold tty_receive, DATA_SIZE. destruct (Z.ltb_spec 128 (data_count (tty m) + Z.of_nat (length bs))); [lia|].
  rewrite (wrap_small 32) by (unfold in_u; lia).
  set (n := data_count (tty m) + Z.of_nat (length bs)). set (s := with_data _ n _).
  assert (input s = input (tty m) ++ bs) as Hin.
  { unfold input, s, n. simpl. rewrite Z2Nat.inj_add, Nat2Z.id by lia. unfold blit.
    rewrite app_assoc. apply take_app_length'. rewrite length_app, length_take. lia. }
  assert (forall w, lines_ok w -> dev_level pic (tty_dev (tty m)) w = nz (ready (tty m)) && (0 <? n) ->
    tty_ok (set_irqs w (set_tty s m))) as Hnew.
  { intros w Hw Hl. split; simpl; try done; unfold DATA_SIZE, n; try lia.
    - rewrite length_blit; lia.
    - rewrite Hin. by apply Forall_app. }
  change (data_count s) with n. change (ready s) with (ready (tty m)).
  destruct (Z.ltb_spec 0 n), (nz (ready (tty m))) eqn:Er; simpl.
  - destruct (tty_set_irq (set_tty s m) 1 H2 H1) as (w & -> & Hw & Hl).
    eexists. split; [done|]. split; [|done]. by apply Hnew.
  - eexists. split; [done|]. split; [|done]. rewrite <- (set_irqs_same m). apply Hnew; [done|]. by rewrite H7.
  - eexists. split; [done|]. split; [|done]. rewrite <- (set_irqs_same m). apply Hnew; [done|].
    rewrite H7. simpl. apply Z.ltb_ge. unfold n in *. lia.
  - eexists. split; [done|]. split; [|done]. rewrite <- (set_irqs_same m). apply Hnew; [done|]. by rewrite H7.
Qed.

(** The guest reads back what was stored at the address. *)
Lemma guest_store_bytes mem addr bs : Forall (in_u 8) bs -> Z.of_nat (length bs) <= 2 ^ TL ->
  guest_bytes TL (guest_store TL mem addr bs) addr (Z.of_nat (length bs)) = bs.
Proof.
  intros Hbs Hl. apply list_eq. intros i. unfold guest_bytes. rewrite list_lookup_fmap, Nat2Z.id.
  destruct (Nat.lt_ge_cases i (length bs)) as [Hi|Hi].
  - rewrite lookup_seq_lt by done. simpl. unfold guest_store.
    assert (wrap TL (wrap TL (addr + Z.of_nat i) - addr) = Z.of_nat i) as ->.
    { unfold wrap. rewrite Zminus_mod_idemp_l. replace (addr + Z.of_nat i - addr) with (Z.of_nat i) by lia.
      apply Z.mod_small. lia. }
    rewrite Nat2Z.id. destruct (lookup_lt_is_Some_2 bs i Hi) as [b Hb]. rewrite Hb.
    rewrite wrap_small; [done|]. by apply (Forall_lookup_1 _ _ _ _ Hbs Hb).
  - rewrite lookup_seq_ge by done. simpl. symmetry. by apply lookup_ge_None_2.
Qed.

Lemma read_buffer_ok m : tty_ok m -> ptr_len (tty m) <= data_count (tty m) ->
  exists m', tty_cmd TL pic m TTY_CMD_READ_BUFFER = Ret m' /\ tty_ok m'
    /\ input (tty m') = drop (Z.to_nat (ptr_len (tty m))) (input (tty m))
    /\ guest_bytes TL (gmem m') (wrap TL (ptr (tty m))) (ptr_len (tty m))
       = take (Z.to_nat (ptr_len (tty m))) (input (tty m))
    /\ ptr (tty m') = ptr (tty m).
Proof.
  intros Hok Hle. pose proof Hok as [H1 H2 H3 H4 H5 H6 H7]. unfold DATA_SIZE, in_u in H3, H4, H5.
  change (tty_cmd TL pic m TTY_CMD_READ_BUFFER) with
    (let s := tty m in
     if data_count s <? ptr_len s then CpuAbort else
     let mem := guest_store TL (gmem m) (wrap TL (ptr s)) (take (Z.to_nat (ptr_len s)) (data s)) in
     let m := mkTM (tty m) (trc m) (printLength m) (chr_out m) mem (irqs m) in
     let d := if ptr_len s <? data_count s
              then blit (data s) 0 (range (data s) (ptr_len s) (data_count s - ptr_len s)) else data s in
     let m := set_tty (with_data d (u32 (data_count s - ptr_len s)) s) m in
     if (data_count (tty m) =? 0) && nz (ready (tty m)) then set_irq pic 0 m else Ret m).
  cbv zeta. destruct (Z.ltb_spec (data_count (tty m)) (ptr_len (tty m))); [lia|].
  rewrite (wrap_small 32) by (unfold in_u; lia).
  set (n := ptr_len (tty m)) in *. set (c := data_count (tty m)) in *. set (mem := guest_store _ _ _ _).
  set (d := if n <? c then _ else _).
  assert (Z.of_nat (length d) = 128 /\ take (Z.to_nat (c - n)) d = drop (Z.to_nat n) (input (tty m))) as [Hd Hin].
  { unfold d, input. fold c. destruct (Z.ltb_spec n c).
    - pose proof (length_range (data (tty m)) n (c - n) ltac:(lia) ltac:(lia) ltac:(lia)) as Hlr.
      split; [rewrite length_blit; lia|]. unfold blit. simpl. rewrite take_app_length' by lia.
      unfold range. rewrite skipn_firstn_comm. f_equal. lia.
    - split; [done|]. replace (Z.to_nat (c - n)) with O by lia. rewrite take_0. symmetry.
      apply drop_ge. rewrite length_take. lia. }
  assert (take (Z.to_nat n) (data (tty m)) = take (Z.to_nat n) (input (tty m))) as Htk.
  { unfold input. fold c. rewrite take_take. f_equal. lia. }
  assert (guest_bytes TL mem (wrap TL (ptr (tty m))) n = take (Z.to_nat n) (input (tty m))) as Hg.
  { unfold mem. rewrite Htk.
    assert (2 ^ 7 <= 2 ^ TL) by (apply Z.pow_le_mono_r; lia).
    assert (Z.of_nat (length (take (Z.to_nat n) (input (tty m)))) = n) as Hl.
    { pose proof (length_input m Hok). rewrite length_take. fold c in H8. lia. }
    rewrite <- Hl at 2. apply guest_store_bytes; [by apply Forall_take|]. lia. }
  set (s := with_data d (c - n) (tty m)). set (m1 := set_tty s _).
  assert (forall w, lines_ok w -> dev_level pic (tty_dev (tty m)) w = nz (ready (tty m)) && (0 <? c - n) ->
    tty_ok (set_irqs w m1)) as Hnew.
  { intros w Hw Hl. split; simpl; unfold DATA_SIZE, in_u; try done; try lia.
    unfold input. simpl. rewrite Hin. by apply Forall_drop. }
  enough (exists m', (if (data_count (tty m1) =? 0) && nz (ready (tty m1)) then set_irq pic 0 m1 else Ret m1) = Ret m'
    /\ tty_ok m' /\ tty m' = s /\ gmem m' = mem) as (m' & -> & H8 & H9 & H10).
  { exists m'. rewrite H9, H10. done. }
  change (data_count (tty m1)) with (c - n). change (ready (tty m1)) with (ready (tty m)).
  destruct (Z.eqb_spec (c - n) 0) as [E|E], (nz (ready (tty m))) eqn:Er; simpl.
  - destruct (tty_set_irq m1 0 H2 H1) as (w & -> & Hw & Hl). eexists. split; [done|]. split; [|done].
    apply Hnew; [done|]. by rewrite E.
  - exists m1. split; [done|]. split; [|done]. apply (Hnew (irqs m)); [done|]. by rewrite H7.
  - exists m1. split; [done|]. split; [|done]. apply (Hnew (irqs m)); [done|]. rewrite H7. simpl. lia.
  - exists m1. split; [done|]. split; [|done]. apply (Hnew (irqs m)); [done|]. by rewrite H7.
Qed.

(** Switching the interrupt on or off moves the line with it. *)
Lemma set_ready_ok m r m' : tty_ok m -> nz (ready (tty m)) = negb (nz r) ->
  (m1 ← (if 0 <? data_count (tty m) then set_irq pic r m else Ret m); Ret (set_tty (with_ready r (tty m1)) m1)) = Ret m' ->
  tty_ok m'.
Proof.
  intros Hok Hr. pose proof Hok as [H1 H2 H3 H4 H5 H6 H7]. destruct (0 <? data_count (tty m)) eqn:Ec.
  - destruct (tty_set_irq m r H2 H1) as (w & -> & Hw & Hl). intros [= <-].
    split; simpl; try done. by rewrite Hl, Ec, andb_true_r.
  - intros [= <-]. split; simpl; try done. by rewrite H7, Ec, !andb_false_r.
Qed.

Lemma tty_ok_frame m m' : tty m' = tty m -> irqs m' = irqs m -> tty_ok m -> tty_ok m'.
Proof. intros E1 E2 []. split; rewrite ?E1, ?E2; done. Qed.

Lemma write_chunks_frame fuel m buf len m' : write_chunks TL fuel m buf len = Ret m' ->
  tty m' = tty m /\ irqs m' = irqs m.
Proof.
  revert m buf len. induction fuel as [|fuel IH]; intros m buf len; cbn [write_chunks]; [by intros [= <-]|].
  destruct (nz len); [|by intros [= <-]]. intros (t & _ & E)%bind_Ret. apply IH in E as [-> ->].
  by destruct (_ && _).
Qed.

Lemma tty_write_ok m offset value m' : tty_ok m -> in_u 32 value ->
  goldfish_tty_write TL pic m offset value = Ret m' -> tty_ok m'.
Proof.
  intros Hok Hv. unfold goldfish_tty_write.
  destruct (offset =? TTY_PUT_CHAR). { intros [= <-]. destruct (cs (tty m)); [|done]. by apply (tty_ok_frame m). }
  destruct (offset =? TTY_CMD).
  2: { destruct (offset =? TTY_DATA_PTR), (offset =? TTY_DATA_PTR_HIGH), (offset =? TTY_DATA_LEN); try done;
         intros [= <-]; apply tty_ok_regs; try done; apply Hok. }
  destruct (Z.eqb_spec value TTY_CMD_READ_BUFFER) as [->|Hne].
  { destruct (Z.le_gt_cases (ptr_len (tty m)) (data_count (tty m))) as [Hle|Hgt].
    - destruct (read_buffer_ok m Hok Hle) as (m1 & -> & H1 & _). by intros [= <-].
    - unfold tty_cmd. simpl. by rewrite (proj2 (Z.ltb_lt _ _)) by lia. }
  unfold tty_cmd. destruct (value =? TTY_CMD_INT_DISABLE).
  { destruct (nz (ready (tty m))) eqn:Er; [|by intros [= <-]]. by apply set_ready_ok. }
  destruct (value =? TTY_CMD_INT_ENABLE).
  { destruct (nz (ready (tty m))) eqn:Er; simpl; [by intros [= <-]|]. by apply set_ready_ok. }
  destruct (value =? TTY_CMD_WRITE_BUFFER).
  - destruct (cs (tty m)); [|by intros [= <-]]. intros [E1 E2]%write_chunks_frame. by apply (tty_ok_frame m).
  - rewrite (proj2 (Z.eqb_neq _ _) Hne). done.
Qed.

(** What happens to the tty: guest writes that return, and input within what
    it said it can take. *)
Inductive tty_step : tty_machine (W := W) -> tty_machine (W := W) -> Prop :=
| tty_step_write m offset value m' : in_u 32 value ->
    goldfish_tty_write TL pic m offset value = Ret m' -> tty_step m m'
| tty_step_receive m bs m' : Forall (in_u 8) bs -> Z.of_nat (length bs) <= tty_can_receive (tty m) ->
    tty_receive pic m bs = Ret m' -> tty_step m m'.

Lemma tty_steps_ok m m' : rtc tty_step m m' -> tty_ok m -> tty_ok m'.
Proof.
  induction 1 as [|m m1 m2 Hs _ IH]; [done|]. intros Hok. apply IH. destruct Hs as [????? E|m bs m1 Hb Hl E].
  - by eapply tty_write_ok.
  - destruct (receive_ok m bs Hok Hb Hl) as (m2' & E' & H1 & _). rewrite E in E'. by injection E' as ->.
Qed.

Lemma tty_init_ok s mem w : lines_ok w -> dev_ok pic (tty_dev s) -> dev_level pic (tty_dev s) w = false ->
  Z.of_nat (length (data s)) = DATA_SIZE -> data_count s = 0 -> in_u 32 (ptr_len s) -> tty_ok (tty_machine_init s mem w).
Proof.
  intros Hw Hd Hl Hlen Hc Hp. split; simpl; try done; unfold input; rewrite ?Hc; simpl; [lia|constructor|].
  by rewrite andb_false_r.
Qed.

(** ** The input as a queue *)

(** The guest fetches [n] bytes: it writes the length, then the command. *)
Inductive in_op := Receive (bs : list Z) | Fetch (n : Z).

Definition in_op_ok (op : in_op) : Prop :=
  match op with Receive bs => Forall (in_u 8) bs | Fetch n => in_u 32 n end.

(** The bytes the guest finds at its address, and the machine. *)
Definition in_step m (op : in_op) : outcome (list Z * tty_machine) :=
  match op with
  | Receive bs => m ← tty_receive pic m bs; Ret ([], m)
  | Fetch n =>
      m ← goldfish_tty_write TL pic m TTY_DATA_LEN n;
      m ← goldfish_tty_write TL pic m TTY_CMD TTY_CMD_READ_BUFFER;
      Ret (guest_bytes TL (gmem m) (wrap TL (ptr (tty m))) n, m)
  end.

Fixpoint in_run m (ops : list in_op) : outcome (list Z * tty_machine) :=
  match ops with
  | [] => Ret ([], m)
  | op :: ops => '(out, m) ← in_step m op; '(out', m) ← in_run m ops; Ret (out ++ out', m)
  end.
End input.

(** The specification: a queue of at most 128 bytes. *)
Definition queue_step (q : list Z) (op : in_op) : outcome (list Z * list Z) :=
  match op with
  | Receive bs => if DATA_SIZE <? Z.of_nat (length q + length bs) then OutOfBounds else Ret ([], q ++ bs)
  | Fetch n => if Z.of_nat (length q) <? n then CpuAbort else Ret (take (Z.to_nat n) q, drop (Z.to_nat n) q)
  end.

Fixpoint queue_run (q : list Z) (ops : list in_op) : outcome (list Z * list Z) :=
  match ops with
  | [] => Ret ([], q)
  | op :: ops => '(out, q) ← queue_step q op; '(out', q) ← queue_run q ops; Ret (out ++ out', q)
  end.

Section queue_refinement.
Context {W : Type} (TL : Z) (HTL : 7 <= TL) (pic : list (qemu_irq W)) `{IrqLines W pic}.
Implicit Types m : tty_machine (W := W).

(** One operation and its specification end alike, with the same bytes. *)
Lemma in_step_refines m op : tty_ok pic m -> in_op_ok op ->
  match queue_step (input (tty m)) op with
  | Ret (out, q) => exists m', in_step TL pic m op = Ret (out, m') /\ tty_ok pic m' /\ input (tty m') = q
  | CpuAbort => in_step TL pic m op = CpuAbort
  | ExitProcess => False
  | OutOfBounds => in_step TL pic m op = OutOfBounds
  | SignedOverflow | StillRunning => False
  end.
Proof.
  intros Hok Hop. pose proof (length_input pic m Hok) as Hlen. destruct op as [bs|n]; simpl in *.
  - destruct (Z.ltb_spec DATA_SIZE (Z.of_nat (length (input (tty m)) + length bs))).
    + unfold tty_receive. by rewrite (proj2 (Z.ltb_lt _ _)) by lia.
    + destruct (receive_ok pic m bs Hok Hop) as (m' & -> & H1 & H2 & _); [unfold tty_can_receive; lia|]. by eauto.
  - change (goldfish_tty_write TL pic m TTY_DATA_LEN n) with (Ret (set_tty (with_ptr_len n (tty m)) m)).
    cbn [mbind outcome_bind]. set (m1 := set_tty _ _).
    assert (tty_ok pic m1) as Hok1 by (apply tty_ok_regs; done).
    change (goldfish_tty_write TL pic m1 TTY_CMD TTY_CMD_READ_BUFFER) with (tty_cmd TL pic m1 TTY_CMD_READ_BUFFER).
    destruct (Z.ltb_spec (Z.of_nat (length (input (tty m)))) n).
    + unfold tty_cmd. simpl. by rewrite (proj2 (Z.ltb_lt _ _)) by lia.
    + destruct (read_buffer_ok TL HTL pic m1 Hok1) as (m' & -> & H1 & H2 & H3 & H4); [simpl; lia|].
      cbn [mbind outcome_bind]. rewrite H4. exists m'. split; [|by split]. do 2 f_equal. exact H3.
Qed.

Lemma in_run_refines ops m : tty_ok pic m -> Forall in_op_ok ops ->
  prod_map id (input ∘ tty) <$> in_run TL pic m ops = queue_run (input (tty m)) ops.
Proof.
  revert m. induction ops as [|op ops IH]; intros m Hok Hops; simpl; [done|].
  apply Forall_cons in Hops as [Hop Hops]. pose proof (in_step_refines m op Hok Hop) as HS.
  destruct (queue_step (input (tty m)) op) as [[out q]| | | | |]; [|by rewrite HS|done|by rewrite HS|done|done].
  destruct HS as (m' & -> & Hok' & <-). simpl. rewrite <- (IH m' Hok' Hops).
  by destruct (in_run TL pic m' ops) as [[? ?]| | | | |].
Qed.
End queue_refinement.


#[local] Instance int_lines_32 : IrqLines int_lines := int_irq_lines 32 (le_n 32).

Definition example_tty_init : tty_machine (W := goldfish_int_state) :=
  tty_machine_init (goldfish_tty_add true 0 0 2) (fun _ => 0) goldfish_interrupt_init.

Lemma example_tty_ok : tty_ok int_lines example_tty_init.
Proof.
  apply tty_init_ok; [apply init_inv|split; [simpl; lia|vm_compute; lia]|done|by apply replicate_size|done|done].
Qed.


(** Whatever the guest writes and the terminal sends, the tty's interrupt
    line is up exactly when interrupts are enabled and input is waiting, and
    TTY_BYTES_READY reads the number of waiting bytes, at most 128. *)
Theorem tty_line_follows_input {W} (TL : Z) (pic : list (qemu_irq W)) `{IrqLines W pic} m m' :
  7 <= TL -> tty_ok pic m -> rtc (tty_step TL pic) m m' ->
  dev_level pic (tty_dev (tty m')) (irqs m') = nz (ready (tty m')) && bool_decide (input (tty m') <> [])
  /\ goldfish_tty_read (tty m') TTY_BYTES_READY = Ret (Z.of_nat (length (input (tty m'))))
  /\ Z.of_nat (length (input (tty m'))) <= 128.
Proof.
  intros HTL Hok Hs. pose proof (tty_steps_ok TL HTL pic m m' Hs Hok) as Hok'.
  pose proof (length_input pic m' Hok') as Hl. destruct Hok' as [_ _ _ Hc _ _ ->]. unfold DATA_SIZE in Hc.
  split; [|split; [unfold goldfish_tty_read; simpl; by rewrite Hl|lia]]. f_equal.
  case_bool_decide as Hin; destruct (input (tty m')); simpl in *; try done; lia.
Qed.

Lemma tty_line_follows_input_witness :
  exists m', rtc (tty_step 32 int_lines) example_tty_init m'
    /\ dev_level int_lines (tty_dev (tty m')) (irqs m') = true
    /\ goldfish_tty_read (tty m') TTY_BYTES_READY = Ret 3.
Proof.
  destruct (tty_receive int_lines (set_tty (with_ready 1 (tty example_tty_init)) example_tty_init) [7; 8; 9])
    as [m'| | | | |] eqn:E; [|by vm_compute in E..].
  assert (rtc (tty_step 32 int_lines) example_tty_init m') as Hs.
  { eapply rtc_l; [apply (tty_step_write 32 int_lines _ TTY_CMD TTY_CMD_INT_ENABLE); [done|reflexivity]|].
    apply rtc_once. apply (tty_step_receive 32 int_lines _ [7; 8; 9]); [|vm_compute; congruence|exact E].
    repeat constructor; simpl; lia. }
  exists m'. split; [exact Hs|].
  destruct (tty_line_follows_input 32 int_lines example_tty_init m' ltac:(lia) example_tty_ok Hs) as (-> & -> & _).
  vm_compute in E. injection E as <-. split; reflexivity.
Defined.

(** ** Snapshots *)

Definition tty_bytes (s : tty_state) : list Z :=
  be64 (ptr s) ++ be32 (ptr_len s) ++ [u8 (ready s)] ++ [u8 (data_count s)] ++ input s.

Lemma tty_save_emits {F} `{WriterLaws F} (f : F) s : w_ok f -> Forall (in_u 8) (input s) ->
  emits f (tty_bytes s) (goldfish_tty_save f s).
Proof.
  intros Hf Hin. pose proof (put_be64_emits f (ptr s) Hf) as H1.
  pose proof (put_be32_emits _ (ptr_len s) (emits_ok _ _ _ H1)) as H2.
  pose proof (put_byte_emits _ (ready s) (emits_ok _ _ _ H2)) as H3.
  pose proof (put_byte_emits _ (data_count s) (emits_ok _ _ _ H3)) as H4.
  pose proof (put_buffer_emits _ (input s) (emits_ok _ _ _ H4) Hin) as H5.
  exact (emits_trans _ _ _ _ _ H1 (emits_trans _ _ _ _ _ H2 (emits_trans _ _ _ _ _ H3 (emits_trans _ _ _ _ _ H4 H5)))).
Qed.

(** Loading a saved tty restores its registers and its waiting input on
    any device, from any implementation of the snapshot files; but the byte
    count of the stream is trusted, so a stream that claims more than 128
    bytes makes the load write outside of the buffer. *)
Theorem tty_save_load {F G} `{WriterLaws F} `{ReaderLaws G} (f : F) (g : G) s s0 l :
  w_ok f -> r_ok g -> in_u 64 (ptr s) -> in_u 32 (ptr_len s) -> in_u 8 (ready s) ->
  0 <= data_count s <= 128 -> Z.of_nat (length (data s)) = 128 -> Forall (in_u 8) (input s) ->
  r_in g = tty_bytes s ++ l ->
  w_out (goldfish_tty_save f s) = w_out f ++ tty_bytes s
  /\ (exists s' g', goldfish_tty_load g s0 GOLDFISH_TTY_SAVE_VERSION = Ret (0, s', g') /\ r_in g' = l
       /\ ptr s' = ptr s /\ ptr_len s' = ptr_len s /\ ready s' = ready s /\ input s' = input s)
  /\ (forall n l' (g2 : G), r_ok g2 -> 128 < n < 256 ->
       r_in g2 = be64 (ptr s) ++ be32 (ptr_len s) ++ [u8 (ready s)] ++ [u8 n] ++ l' ->
       goldfish_tty_load g2 s0 GOLDFISH_TTY_SAVE_VERSION = OutOfBounds).
Proof.
  intros Hf Hg Hp Hpl Hr Hc Hd Hin E. split; [by apply tty_save_emits|].
  assert (forall n l' (g2 : G), r_ok g2 -> r_in g2 = be64 (ptr s) ++ be32 (ptr_len s) ++ [u8 (ready s)] ++ [u8 n] ++ l' ->
    exists g3, goldfish_tty_load g2 s0 GOLDFISH_TTY_SAVE_VERSION
      = (if DATA_SIZE <? u8 n then OutOfBounds else
         let '(bs, g) := qemu_get_buffer g3 (u8 n) in
         Ret (0, with_data (bs ++ drop (length bs) (data s0)) (u8 n)
                   (with_ready (ready s) (with_ptr_len (ptr_len s) (with_ptr (ptr s) s0))), g))
      /\ consumed l' g3) as Hload.
  { intros n l' g2 Hg2 E2. unfold goldfish_tty_load. simpl negb. cbv iota.
    change (GOLDFISH_TTY_SAVE_VERSION =? GOLDFISH_TTY_SAVE_VERSION - 1) with false. cbv iota.
    destruct (get_be64_consumes g2 _ _ Hg2 E2) as (g4 & -> & Hg4 & E4).
    destruct (get_be32_consumes g4 _ _ Hg4 E4) as (g5 & -> & Hg5 & E5).
    destruct (get_byte_consumes g5 _ _ Hg5 E5) as (g6 & -> & Hg6 & E6).
    destruct (get_byte_consumes g6 _ _ Hg6 E6) as (g7 & -> & Hg7 & E7).
    exists g7. rewrite !(wrap_small 64), !(wrap_small 32), (wrap_small 8 (ready s)) by done. done. }
  split.
  - unfold tty_bytes in E. rewrite <- !app_assoc in E.
    destruct (Hload (data_count s) _ g Hg E) as (g3 & -> & Hg3 & E3).
    assert (Z.of_nat (length (input s)) = data_count s) as Hl by (unfold input; rewrite length_take; lia).
    rewrite (wrap_small 8) by (unfold in_u; lia). unfold DATA_SIZE.
    destruct (Z.ltb_spec 128 (data_count s)); [lia|]. rewrite <- Hl.
    destruct (get_buffer_consumes g3 _ _ Hg3 E3) as (g4 & -> & Hg4 & E4).
    eexists _, g4. split; [done|]. split_and!; try done. unfold input at 1. simpl. rewrite Nat2Z.id.
    apply take_app_length.
  - intros n l' g2 Hg2 Hn E2. destruct (Hload n l' g2 Hg2 E2) as (g3 & -> & _).
    rewrite (wrap_small 8) by (unfold in_u; lia). unfold DATA_SIZE. by rewrite (proj2 (Z.ltb_lt _ _)) by lia.
Qed.

Definition example_tty_state : tty_state :=
  mkTty (mkDev None 0 [] 0 0 0x1000 2 1) true 0x8000 27 1 ([5; 6] ++ replicate 126 0) 2.

Lemma tty_save_load_witness :
  exists s' g', goldfish_tty_load (mem_in (tty_bytes example_tty_state ++ [])) (goldfish_tty_add true 0 0 2) 2 = Ret (0, s', g')
    /\ input s' = [5; 6].
Proof.
  destruct (tty_save_load (mem_out []) (mem_in (tty_bytes example_tty_state ++ [])) example_tty_state
    (goldfish_tty_add true 0 0 2) []) as (_ & (s' & g' & E & _ & _ & _ & _ & Hi) & _).
  - exact I.
  - exact I.
  - unfold in_u. simpl. lia.
  - unfold in_u. simpl. lia.
  - unfold in_u. simpl. lia.
  - simpl. lia.
  - reflexivity.
  - repeat constructor; simpl; lia.
  - reflexivity.
  - exists s', g'. split; [exact E|]. rewrite Hi. reflexivity.
Defined.
