(* ===== verification/GemTrace.v ===== *)
(** The tracer of GemDroid, disas.c: which threads are traced, and what is
    printed for the blocks of guest code they execute. The thread ids are
    those [GoldfishTty] finds in the output of the guest's console. *)
From stdpp Require Import strings pretty.
From S2P Require Import Prelude CStrings GoldfishTty.
Open Scope list_scope.

(** ** Registers *)

(** A member of [CPUARMState] by its name and its index, 0 for one that is not
    an array. *)
Definition cpu_field : Type := string * nat.

Definition single (names : list string) : list cpu_field := (fun n => (n, 0%nat)) <$> names.
Definition fields_of (n : nat) (names : list string) : list cpu_field := i ← seq 0 n; (fun s => (s, i)) <$> names.

(** The members [printFloatStatus] looks at. *)
Definition float_fields : list cpu_field := single [
  "vfp.fp_status.float_detect_tininess"; "vfp.fp_status.float_rounding_mode"; "vfp.fp_status.float_exception_flags";
  "vfp.fp_status.floatx80_rounding_precision"; "vfp.fp_status.flush_to_zero"; "vfp.fp_status.flush_inputs_to_zero";
  "vfp.fp_status.default_nan_mode"; "vfp.standard_fp_status.float_detect_tininess"; "vfp.standard_fp_status.float_rounding_mode";
  "vfp.standard_fp_status.float_exception_flags"; "vfp.standard_fp_status.floatx80_rounding_precision";
  "vfp.standard_fp_status.flush_to_zero"; "vfp.standard_fp_status.flush_inputs_to_zero"; "vfp.standard_fp_status.default_nan_mode"]%string.

(** The members [printRegisters] looks at before the float status, and after. *)
Definition fields_before : list cpu_field :=
  fields_of 16 ["regs"%string] ++ fields_of 7 ["banked_spsr"; "banked_r13"; "banked_r14"]%string ++ fields_of 5 ["usr_regs"; "fiq_regs"]%string
  ++ single ["cp15.c0_cpuid"; "cp15.c0_cachetype"]%string ++ fields_of 16 ["cp15.c0_ccsid"%string]
  ++ single ["cp15.c0_clid"; "cp15.c0_cssel"]%string ++ fields_of 8 ["cp15.c0_c1"; "cp15.c0_c2"]%string
  ++ single ["cp15.c1_sys"; "cp15.c1_coproc"; "cp15.c1_xscaleauxcr"; "cp15.c1_secfg"; "cp15.c1_sedbg"; "cp15.c1_nseac"; "cp15.c2_base0";
             "cp15.c2_base1"; "cp15.c2_control"; "cp15.c2_mask"; "cp15.c2_base_mask"; "cp15.c2_insn"; "cp15.c2_data"; "cp15.c3";
             "cp15.c5_insn"; "cp15.c5_data"]%string
  ++ fields_of 8 ["cp15.c6_region"%string]
  ++ single ["cp15.c6_insn"; "cp15.c6_data"; "cp15.c7_par"; "cp15.c9_insn"; "cp15.c9_data"; "cp15.c9_pmcr"; "cp15.c9_pmcnten"; "cp15.c9_pmovsr";
             "cp15.c9_pmxevtyper"; "cp15.c9_pmuserenr"; "cp15.c9_pminten"; "cp15.c12_vbar"; "cp15.c12_mvbar"; "cp15.c13_fcse";
             "cp15.c13_context"; "cp15.c13_tls1"; "cp15.c13_tls2"; "cp15.c13_tls3"; "cp15.c15_cpar"; "cp15.c15_ticonfig"; "cp15.c15_i_max";
             "cp15.c15_i_min"; "cp15.c15_threadid"; "v7m.other_sp"; "v7m.vecbase"; "v7m.basepri"; "v7m.control"; "v7m.current_sp";
             "v7m.exception"; "v7m.pending_exception"; "teecr"; "teehbr"; "features"; "vfp.vec_len"; "vfp.vec_stride"]%string
  ++ fields_of 32 ["vfp.regs"%string] ++ fields_of 16 ["vfp.xregs"%string] ++ fields_of 8 ["vfp.scratch"%string].
Definition fields_after : list cpu_field := single ["iwmmxt.val"%string] ++ fields_of 16 ["iwmmxt.cregs"; "iwmmxt.regs"]%string.

(** The contents of the registers. *)
Definition cpu_regs : Type := cpu_field -> Z.
Definition no_regs : cpu_regs := fun _ => 0.
Definition CONTEXT : cpu_field := ("cp15.c13_context"%string, 0%nat).

(** [getMeContextId]: the thread id, an [int]. *)
Definition getMeContextId (env : cpu_regs) : Z := s32 (env CONTEXT).
Definition getMePCVal (env : cpu_regs) : Z := s32 (env ("regs"%string, 15%nat)).

(** ** What is printed *)

Inductive gem_line :=
| LText (s : list Z)
| LReg (f : cpu_field) (v : Z)
| LNewline
| LInsn (tid pc : Z)
| LDisagree
| LEnd
| LLookup (tid pc size : Z)
| LMem (st : bool) (tid pc addr : Z) (text : list Z) (mem_req l len : Z).

(** A member is printed when it differs from the state kept in [prev], which
    then takes its value. *)
Definition print_field (r : cpu_regs * list gem_line) (env : cpu_regs) (f : cpu_field) : cpu_regs * list gem_line :=
  let '(prev, out) := r in
  if env f =? prev f then (prev, out) else (fun g => if decide (g = f) then env f else prev g, out ++ [LReg f (env f)]).

Definition print_fields (env prev : cpu_regs) (l : list cpu_field) : cpu_regs * list gem_line :=
  foldl (fun r f => print_field r env f) (prev, []) l.

Definition printFloatStatus (env prev : cpu_regs) : cpu_regs * list gem_line :=
  let '(prev, out) := print_fields env prev float_fields in (prev, out ++ [LNewline]).

Definition printRegisters (env prev : cpu_regs) (text : list Z) : cpu_regs * list gem_line :=
  let '(prev, out1) := print_fields env prev fields_before in
  let '(prev, out2) := printFloatStatus env prev in
  let '(prev, out3) := print_fields env prev fields_after in
  (prev, LText text :: out1 ++ out2 ++ out3).

(** ** State *)

Definition ALL_PIDS_SIZE : Z := 10000.

Record hashset := mkHashset { printed_blocks : list (Z * Z); hs_max : Z }.

(** The globals of gemdroid-tracer.c and disas.c, and the lines printed. The
    flags are set when the emulator is built. *)
Record gem := mkGem {
  g_trc : tracer;
  CPU_tracer : bool;
  arm_helper_tid_now : Z;
  allPidsChecked : list Z;
  allPidsLength : Z;
  my_hashset : option hashset;
  myPrevState : cpu_regs;
  g_out : list gem_line;
}.

Definition gem_init (trc : tracer) : gem := mkGem trc true (-1) (replicate (Z.to_nat ALL_PIDS_SIZE) 0) 0 None no_regs [].

Definition with_trc (t : tracer) (g : gem) : gem :=
  mkGem t (CPU_tracer g) (arm_helper_tid_now g) (allPidsChecked g) (allPidsLength g) (my_hashset g) (myPrevState g) (g_out g).
Definition with_helper_tid (t : Z) (g : gem) : gem :=
  mkGem (g_trc g) (CPU_tracer g) t (allPidsChecked g) (allPidsLength g) (my_hashset g) (myPrevState g) (g_out g).
Definition with_pids (l : list Z) (n : Z) (g : gem) : gem :=
  mkGem (g_trc g) (CPU_tracer g) (arm_helper_tid_now g) l n (my_hashset g) (myPrevState g) (g_out g).
Definition with_hashset (h : hashset) (g : gem) : gem :=
  mkGem (g_trc g) (CPU_tracer g) (arm_helper_tid_now g) (allPidsChecked g) (allPidsLength g) (Some h) (myPrevState g) (g_out g).
Definition print_lines (l : list gem_line) (g : gem) : gem :=
  mkGem (g_trc g) (CPU_tracer g) (arm_helper_tid_now g) (allPidsChecked g) (allPidsLength g) (my_hashset g) (myPrevState g) (g_out g ++ l).
Definition with_prev_state (p : cpu_regs) (g : gem) : gem :=
  mkGem (g_trc g) (CPU_tracer g) (arm_helper_tid_now g) (allPidsChecked g) (allPidsLength g) (my_hashset g) p (g_out g).

(** ** Threads *)

Definition swap0 (l : list Z) (i : nat) : list Z := <[0%nat := at_pos l (Z.of_nat i)]> (<[i := at_pos l 0]> l).

(** The first of the tracked ids that is one of the two. *)
Fixpoint match_index (n : nat) (i : nat) (tids : list Z) (context context1 : Z) : option nat :=
  match n with
  | O => None
  | S n => let t := at_pos tids (Z.of_nat i) in
           if (context =? t) || (t =? context1) then Some i else match_index n (S i) tids context context1
  end.

Definition indexPidTid (tid : Z) (s : tracer) : Z :=
  if needed_pid s =? tid then 0
  else match match_index (Z.to_nat (needed_tid_length s)) 0 (needed_tids s) tid tid with Some i => Z.of_nat i | None => -1 end.

(** The id found at [i] moves to the front, with its flags. *)
Definition splay (i : nat) (context : Z) (s : tracer) : tracer :=
  let temp := at_pos (needed_tids s) 0 in
  with_pid context (with_tids (<[i := temp]> (<[0%nat := context]> (needed_tids s))) (swap0 (print_tids s) i) (needed_tid_length s) s).

(** [print_tids[0] & val > 0] is [print_tids[0] & (val > 0)]; dividing by zero
    stops the emulator. *)
Definition add_print (val : Z) (s : tracer) : outcome tracer :=
  let p := at_pos (print_tids s) 0 in
  if (0 <? val) && Z.testbit p 0 then CpuAbort
  else if bool_decide (in_s 32 (p + val)) then Ret (with_tids (needed_tids s) (<[0%nat := p + val]> (print_tids s)) (needed_tid_length s) s)
  else SignedOverflow.

Definition addPrintTid (context val : Z) (s : tracer) : outcome tracer :=
  if needed_pid s =? context then add_print val s
  else match match_index (Z.to_nat (needed_tid_length s)) 0 (needed_tids s) context context with
       | Some i => if context =? 0 then ExitProcess else add_print val (splay i context s)
       | None => Ret s
       end.

(** The loop of [insertIntoAllPids]: [None] when it returns from the function. *)
Fixpoint pids_loop (todo i : nat) (one two : Z) (oneF twoF : bool) (l : list Z) : list Z * option (bool * bool) :=
  match todo with
  | O => (l, Some (oneF, twoF))
  | S todo =>
      let oneF := oneF || (one =? at_pos l (Z.of_nat i)) in
      let twoF := twoF || (two =? at_pos l (Z.of_nat i)) in
      if oneF then
        let l := swap0 l i in
        if twoF then (l, None) else pids_loop todo (S i) one two oneF twoF l
      else pids_loop todo (S i) one two oneF twoF l
  end.

(** A write to [allPidsChecked]. *)
Definition put_pid (l : list Z) (i v : Z) : outcome (list Z) :=
  if (0 <=? i) && (i <? ALL_PIDS_SIZE) then Ret (<[Z.to_nat i := v]> l) else OutOfBounds.

Definition insertIntoAllPids (one two : Z) (g : gem) : outcome gem :=
  match pids_loop (Z.to_nat (allPidsLength g)) 0 one two false false (allPidsChecked g) with
  | (l, None) => Ret (with_pids l (allPidsLength g) g)
  | (l, Some (oneF, twoF)) =>
      '(l, n) ←
        (if negb oneF then
           let t := at_pos l 0 in
           l ← put_pid (<[0%nat := one]> l) (allPidsLength g) t; Ret (l, allPidsLength g + 1)
         else Ret (l, allPidsLength g));
      if negb (one =? two) && twoF then l ← put_pid l n two; Ret (with_pids l (n + 1) g)
      else Ret (with_pids l n g)
  end.

(** [context] is the id of [env], [context1] that of [cpu_single_env]; 0 is not
    traced. *)
Definition matchMeInPidTid (context context1 : Z) (g : gem) : outcome (Z * gem) :=
  if negb (CPU_tracer g) then Ret (0, g)
  else
    g ← insertIntoAllPids context context1 g;
    let s := g_trc g in
    if needed_pid s =? 0 then ExitProcess
    else if (needed_pid s =? context) || (context1 =? needed_pid s) then Ret (1, with_helper_tid context g)
    else match match_index (Z.to_nat (needed_tid_length s)) 0 (needed_tids s) context context1 with
         | Some i =>
             if context =? 0 then ExitProcess
             else Ret (Z.of_nat i + 1, with_helper_tid context (with_trc (splay i context s) g))
         | None => Ret (0, g)
         end.

(** ** Blocks *)

Fixpoint find_block (l : list (Z * Z)) (pc size : Z) : option nat :=
  match l with
  | [] => None
  | (p, s) :: l => if (p =? pc) && (s =? size) then Some 0%nat else S <$> find_block l pc size
  end.

Definition foundInHashset (h : hashset) (pc size : Z) : Z :=
  match find_block (printed_blocks h) pc size with Some i => Z.of_nat i | None => 0 end.

(** [realloc] succeeds. *)
Definition alreadyPrinted (pc size : Z) (g : gem) : Z * gem :=
  match my_hashset g with
  | None => (0, with_hashset (mkHashset [(pc, size)] 100) g)
  | Some h =>
      match find_block (printed_blocks h) pc size with
      | Some i => (Z.of_nat i + 1, g)
      | None =>
          let max := if Z.of_nat (length (printed_blocks h)) <? hs_max h then hs_max h else hs_max h + 100 in
          (0, with_hashset (mkHashset (printed_blocks h ++ [(pc, size)]) max) g)
      end
  end.

Section Disas.
(** The disassembler: how many bytes the instruction at an address takes,
    [None] when it cannot be read; and the width of addresses. *)
Context (TL : Z) (print_insn : Z -> option positive).

(** The loop over the instructions of a block; each takes a byte at least, so
    [fuel] is one more than the size. *)
Fixpoint list_insns (fuel : nat) (tid pc size : Z) : list gem_line :=
  match fuel with
  | O => []
  | S fuel =>
      if size <=? 0 then []
      else
        LInsn tid pc ::
        match print_insn pc with
        | None => []
        | Some count =>
            if size <? Z.pos count then [LDisagree]
            else list_insns fuel tid (wrap TL (pc + Z.pos count)) (size - Z.pos count)
        end
  end.

Definition target_disas (env : cpu_regs) (context1 code size : Z) (g : gem) : outcome gem :=
  let tid := getMeContextId env in
  if negb (CPU_tracer g) then Ret g
  else
    '(r, g) ← matchMeInPidTid tid context1 g;
    if r =? 0 then Ret g
    else
      let '(prev, lines) := printRegisters env (myPrevState g) (chars "before entering:") in
      let g := print_lines lines (with_prev_state prev g) in
      let '(known, g) := alreadyPrinted code size g in
      Ret (print_lines (if known =? 0 then list_insns (S (Z.to_nat size)) tid code size ++ [LEnd] else [LLookup tid code size]) g).

(** The part of [cpu_exec] that records the block about to be executed. *)
Definition record_block (env : cpu_regs) (pc size : Z) (g : gem) : outcome gem :=
  let tid := getMeContextId env in
  '(r, g) ← matchMeInPidTid tid tid g;
  let g := if r =? 0 then g else print_lines [LText (chars "from cpu-exec:604")] g in
  target_disas env tid pc size g.

(** A block: the registers on entry, its address and its size. *)
Definition block : Type := cpu_regs * Z * Z.
Definition record_blocks (g : gem) (l : list block) : outcome gem := foldM (fun g '(env, pc, size) => record_block env pc size g) g l.

End Disas.

(** ** Lists rearranged by swaps *)

Lemma swap_perm {A} (l : list A) i x y : l !! 0%nat = Some x -> l !! i = Some y -> <[0%nat := y]> (<[i := x]> l) ≡ₚ l.
Proof.
  destruct l as [|a l]; [done|]. intros [= ->]. destruct i as [|i]; [by intros [= ->]|]. intros Hi.
  change (l !! i = Some y) in Hi. change (y :: <[i := x]> l ≡ₚ x :: l). rewrite insert_take_drop by (by eapply lookup_lt_Some). rewrite <- (take_drop_middle _ _ _ Hi) at 3. solve_Permutation.
Qed.

Lemma at_pos_lookup l i : (i < length l)%nat -> l !! i = Some (at_pos l (Z.of_nat i)).
Proof. intros Hi. unfold at_pos. rewrite Nat2Z.id. destruct (l !! i) eqn:E; [done|]. apply lookup_ge_None in E. lia. Qed.

(** ** The tracked threads *)

Lemma match_index_spec n i tids c : match match_index n i tids c c with
  | Some j => (i <= j < i + n)%nat /\ at_pos tids (Z.of_nat j) = c
  | None => forall j, (i <= j < i + n)%nat -> at_pos tids (Z.of_nat j) <> c
  end.
Proof.
  revert i. induction n as [|n IH]; intros i; cbn [match_index]; [intros j; lia|].
  destruct (Z.eqb_spec c (at_pos tids (Z.of_nat i))) as [E|E]; cbn [orb]; [split; [lia|done]|].
  destruct (Z.eqb_spec (at_pos tids (Z.of_nat i)) c) as [E'|_]; [by symmetry in E'|].
  specialize (IH (S i)). destruct (match_index n (S i) tids c c) as [j|]; [split; [lia|by apply IH]|].
  intros j Hj. destruct (decide (j = i)) as [->|]; [by symmetry|]. apply IH. lia.
Qed.

Lemma tids_of_pos s j : tids_ok s -> (j < Z.to_nat (needed_tid_length s))%nat -> tids_of s !! j = Some (at_pos (needed_tids s) (Z.of_nat j)).
Proof.
  intros [Hl _ Hc _] Hj. unfold tids_of. rewrite lookup_take_lt by done. apply at_pos_lookup. unfold TIDS_SIZE in Hl. lia.
Qed.

(** Looking for a thread finds it exactly when it is tracked. *)
Lemma match_index_tracked s c : tids_ok s ->
  match match_index (Z.to_nat (needed_tid_length s)) 0 (needed_tids s) c c with
  | Some j => (j < Z.to_nat (needed_tid_length s))%nat /\ at_pos (needed_tids s) (Z.of_nat j) = c /\ c ∈ tids_of s
  | None => c ∉ tids_of s
  end.
Proof.
  intros Hok. pose proof (match_index_spec (Z.to_nat (needed_tid_length s)) 0 (needed_tids s) c) as H.
  destruct (match_index _ _ _ _ _) as [j|].
  - destruct H as [Hj Hc]. split_and!; [lia|done|]. apply list_elem_of_lookup. exists j. rewrite tids_of_pos by (done || lia). by rewrite Hc.
  - intros (j & Hj)%list_elem_of_lookup. pose proof (lookup_lt_Some _ _ _ Hj) as Hl. unfold tids_of in Hl. rewrite length_take in Hl.
    rewrite tids_of_pos in Hj by (done || lia). injection Hj as Hj. apply (H j); [lia|done].
Qed.

(** The front moves: the same ids with the same flags. *)
Lemma splay_tracked s i c : tids_ok s -> (i < Z.to_nat (needed_tid_length s))%nat -> at_pos (needed_tids s) (Z.of_nat i) = c ->
  tracked (splay i c s) ≡ₚ tracked s /\ tids_ok (splay i c s) /\ tids_of (splay i c s) ≡ₚ tids_of s.
Proof.
  intros Hok Hi Hc. pose proof Hok as [Hl Hp Hn Hd]. unfold TIDS_SIZE in Hl, Hp. set (n := Z.to_nat (needed_tid_length s)) in *.
  assert (needed_tids (splay i c s) = <[0%nat := c]> (<[i := at_pos (needed_tids s) 0]> (needed_tids s))) as Et.
  { unfold splay. cbn [needed_tids with_pid with_tids]. destruct i as [|i]; [|by rewrite list_insert_insert_ne].
    cbn in Hc. destruct (needed_tids s); cbn in *; [lia|]. by subst. }
  assert (tracked (splay i c s) = <[0%nat := (c, at_pos (print_tids s) (Z.of_nat i))]>
    (<[i := (at_pos (needed_tids s) 0, at_pos (print_tids s) 0)]> (tracked s))) as E.
  { unfold tracked. change (needed_tid_length (splay i c s)) with (needed_tid_length s). fold n. rewrite Et.
    change (print_tids (splay i c s)) with (swap0 (print_tids s) i). unfold swap0. rewrite !take_insert_lt by lia. by rewrite <- !insert_zip_with. }
  assert (tracked (splay i c s) ≡ₚ tracked s) as Hperm.
  { rewrite E. apply swap_perm; unfold tracked; fold n; apply lookup_zip_with_Some.
    - exists (at_pos (needed_tids s) 0), (at_pos (print_tids s) 0). split; [done|].
      split; rewrite lookup_take_lt by lia; apply (at_pos_lookup _ 0); lia.
    - exists (at_pos (needed_tids s) (Z.of_nat i)), (at_pos (print_tids s) (Z.of_nat i)). split; [by rewrite Hc|].
      split; rewrite lookup_take_lt by lia; apply at_pos_lookup; lia. }
  assert (tids_of (splay i c s) ≡ₚ tids_of s) as Htids.
  { rewrite <- (tracked_tids s Hok). unfold tids_of. change (needed_tid_length (splay i c s)) with (needed_tid_length s). fold n.
    rewrite <- Hperm. unfold tracked. change (needed_tid_length (splay i c s)) with (needed_tid_length s). fold n.
    rewrite fst_zip; [done|]. rewrite !length_take, Et. cbn [print_tids splay with_pid with_tids]. unfold swap0. rewrite !length_insert. lia. }
  split_and!; [done| |done]. constructor.
  - rewrite Et, !length_insert. done.
  - cbn. unfold swap0. by rewrite !length_insert.
  - done.
  - by rewrite Htids.
Qed.

(** ** The table of all ids *)

Lemma length_swap0 l i : length (swap0 l i) = length l.
Proof. unfold swap0. by rewrite !length_insert. Qed.

Lemma pids_loop_same n i c l : exists l', length l' = length l
  /\ (pids_loop n i c c false false l = (l', None)
      \/ l' = l /\ pids_loop n i c c false false l = (l, Some (false, false)) /\ forall j, (i <= j < i + n)%nat -> at_pos l (Z.of_nat j) <> c).
Proof.
  revert i. induction n as [|n IH]; intros i; cbn [pids_loop]; [exists l; split; [done|]; right; split_and!; [done|done|intros; lia]|].
  destruct (Z.eqb_spec c (at_pos l (Z.of_nat i))) as [E|E]; cbn [orb].
  - exists (swap0 l i). split; [apply length_swap0|by left].
  - destruct (IH (S i)) as (l' & Hl & [H|(E' & H & Hn)]); exists l'; (split; [done|]); [by left|].
    right. split_and!; [done|done|]. intros j Hj. destruct (decide (j = i)) as [->|]; [by symmetry|]. apply Hn. lia.
Qed.

(** The id of one thread is entered once, as long as there is room. *)
Lemma insert_same c g : 0 <= allPidsLength g < ALL_PIDS_SIZE ->
  exists l n, insertIntoAllPids c c g = Ret (with_pids l n g) /\ allPidsLength g <= n <= allPidsLength g + 1 /\ length l = length (allPidsChecked g).
Proof.
  intros Hn. unfold insertIntoAllPids. destruct (pids_loop_same (Z.to_nat (allPidsLength g)) 0 c (allPidsChecked g)) as (l & Hl & [->|(-> & -> & _)]).
  - exists l, (allPidsLength g). split_and!; [done|lia|lia|done].
  - cbn [negb]. unfold put_pid. rewrite (proj2 (Z.leb_le 0 _)), (proj2 (Z.ltb_lt _ ALL_PIDS_SIZE)) by lia. cbn [andb mbind outcome_bind].
    rewrite Z.eqb_refl. cbn [negb andb]. eexists _, _. split_and!; [done|lia|lia|by rewrite !length_insert].
Qed.

(** ** Matching a thread *)

(** The threads that are traced. *)
Definition traced (s : tracer) (c : Z) : Prop := c = needed_pid s \/ c ∈ tids_of s.

Record gem_ok (g : gem) : Prop := {
  gem_on : CPU_tracer g = true;
  gem_tids : tids_ok (g_trc g);
  gem_pid : needed_pid (g_trc g) <> 0;
  gem_known : needed_pid (g_trc g) ∈ tids_of (g_trc g) \/ tids_of (g_trc g) = [];
  gem_nonzero : 0 ∉ tids_of (g_trc g);
  gem_pids : 0 <= allPidsLength g;
}.

(** Nothing but the order of the tracked ids, the needed one and the table of
    all ids differs. *)
Record gem_like (g g' : gem) : Prop := {
  like_traced c : traced (g_trc g') c <-> traced (g_trc g) c;
  like_tracked : tracked (g_trc g') ≡ₚ tracked (g_trc g);
  like_pids : allPidsLength g <= allPidsLength g' <= allPidsLength g + 1;
  like_blocks : my_hashset g' = my_hashset g;
  like_prev : myPrevState g' = myPrevState g;
  like_out : g_out g' = g_out g;
}.

(** Matching a thread once its id is in the table. *)
Lemma match_inserted c g l n : gem_ok g -> insertIntoAllPids c c g = Ret (with_pids l n g) -> allPidsLength g <= n <= allPidsLength g + 1 ->
  exists r g', matchMeInPidTid c c g = Ret (r, g') /\ gem_ok g' /\ gem_like g g' /\ (r <> 0 <-> traced (g_trc g) c)
    /\ allPidsChecked g' = l /\ allPidsLength g' = n.
Proof.
  intros [Hon Ht Hp Hk Hz Hl] E Hn. unfold matchMeInPidTid.
  rewrite Hon, E. cbn [negb mbind outcome_bind]. change (g_trc (with_pids l n g)) with (g_trc g).
  rewrite (proj2 (Z.eqb_neq _ _) Hp). rewrite (Z.eqb_sym c (needed_pid (g_trc g))), orb_diag.
  destruct (Z.eqb_spec (needed_pid (g_trc g)) c) as [Ec|Ec].
  - exists 1, (with_helper_tid c (with_pids l n g)). split_and!; [done| | |by rewrite <- Ec; unfold traced; intuition|done|done].
    + constructor; cbn; done || lia.
    + constructor; cbn; done || lia.
  - pose proof (match_index_tracked (g_trc g) c Ht) as Hm. destruct (match_index _ _ _ _ _) as [i|].
    + destruct Hm as (Hi & Hat & Hin). destruct (Z.eqb_spec c 0) as [->|Hc0]; [done|].
      destruct (splay_tracked _ i c Ht Hi Hat) as (Htr & Hok & Hperm).
      eexists _, _. split_and!; [done| | |unfold traced; split; [by right|lia]|done|done].
      * constructor; cbn [CPU_tracer g_trc allPidsLength with_helper_tid with_trc with_pids]; try done; [| |lia].
        -- left. by rewrite Hperm.
        -- by rewrite Hperm.
      * constructor; cbn [g_trc allPidsLength my_hashset myPrevState g_out with_helper_tid with_trc with_pids]; try done.
        intros c'. unfold traced. rewrite Hperm. change (needed_pid (splay i c (g_trc g))) with c.
        destruct Hk as [Hk|Hk]; [|rewrite Hk in Hin; by apply not_elem_of_nil in Hin].
        split; [intros [->|]; by right|intros [->|]; by right].
    + exists 0, (with_pids l n g). split_and!; [done| | |unfold traced; split; [done|intros [->|]; done]|done|done].
      * constructor; cbn; done || lia.
      * constructor; cbn; done || lia.
Qed.

Lemma match_same c g : gem_ok g -> allPidsLength g < ALL_PIDS_SIZE ->
  exists r g', matchMeInPidTid c c g = Ret (r, g') /\ gem_ok g' /\ gem_like g g' /\ (r <> 0 <-> traced (g_trc g) c).
Proof.
  intros Hok Hlt. pose proof (gem_pids _ Hok). destruct (insert_same c g ltac:(lia)) as (l & n & E & Hn & _).
  destruct (match_inserted c g l n Hok E Hn) as (r & g' & Em & Hok' & Hlike & Hr & _). by exists r, g'.
Qed.

(** A thread that is in the table of all ids. *)
Record steady (c : Z) (g : gem) : Prop := {
  steady_ok : gem_ok g;
  steady_size : Z.of_nat (length (allPidsChecked g)) = ALL_PIDS_SIZE;
  steady_length : allPidsLength g <= ALL_PIDS_SIZE;
  steady_known : c ∈ take (Z.to_nat (allPidsLength g)) (allPidsChecked g);
}.

Lemma loop_finds n i c l : (exists j, (i <= j < i + n)%nat /\ at_pos l (Z.of_nat j) = c) ->
  exists j, (i <= j < i + n)%nat /\ at_pos l (Z.of_nat j) = c /\ pids_loop n i c c false false l = (swap0 l j, None).
Proof.
  revert i. induction n as [|n IH]; intros i (j & Hj & E); [lia|]. cbn [pids_loop].
  destruct (Z.eqb_spec c (at_pos l (Z.of_nat i))) as [Ei|Ei]; cbn [orb]; [exists i; split_and!; [lia|lia|done|done]|].
  destruct (IH (S i)) as (k & Hk & Ek & ->); [exists j; split; [destruct (decide (j = i)) as [->|]; [by symmetry in E|lia]|done]|].
  exists k. split_and!; [lia|lia|done|done].
Qed.

(** Such a thread is matched without the table growing. *)
Lemma match_steady c g : steady c g ->
  exists r g', matchMeInPidTid c c g = Ret (r, g') /\ steady c g' /\ gem_like g g' /\ (r <> 0 <-> traced (g_trc g) c).
Proof.
  intros [Hok Hs Hl Hk]. set (n := Z.to_nat (allPidsLength g)) in *. unfold ALL_PIDS_SIZE in *.
  apply list_elem_of_lookup in Hk as (j & Hj). pose proof (lookup_lt_Some _ _ _ Hj) as Hjn. rewrite length_take in Hjn.
  rewrite lookup_take_lt in Hj by lia.
  destruct (loop_finds n 0 c (allPidsChecked g)) as (i & Hi & Ei & Eloop).
  { exists j. split; [lia|]. unfold at_pos. by rewrite Nat2Z.id, Hj. }
  destruct (match_inserted c g (swap0 (allPidsChecked g) i) (allPidsLength g) Hok) as (r & g' & Em & Hok' & Hlike & Hr & Ec & En);
    [|lia|].
  - unfold insertIntoAllPids. fold n. by rewrite Eloop.
  - exists r, g'. split_and!; [done| |done|done]. constructor; [done|by rewrite Ec, length_swap0|by rewrite En|].
    rewrite Ec, En. fold n. apply list_elem_of_lookup. exists 0%nat. rewrite lookup_take_lt by lia.
    unfold swap0. rewrite list_lookup_insert_eq by (rewrite length_insert; lia). by rewrite Ei.
Qed.

(** ** Registers that changed *)

Definition printed_fields : list cpu_field := fields_before ++ float_fields ++ fields_after.

Definition reg_changes (env prev : cpu_regs) (l : list cpu_field) : list gem_line := (fun f => LReg f (env f)) <$> filter (fun f => env f <> prev f) l.

(** What is printed of the registers on entry to a block. *)
Definition regs_lines (env prev : cpu_regs) : list gem_line :=
  LText (chars "before entering:") :: reg_changes env prev fields_before ++ (reg_changes env prev float_fields ++ [LNewline]) ++ reg_changes env prev fields_after.

Lemma changes_ext env p q l : (forall f, f ∈ l -> p f = q f) -> reg_changes env p l = reg_changes env q l.
Proof.
  intros H. unfold reg_changes. f_equal. induction l as [|f l IH]; [done|]. rewrite !filter_cons, (H f) by set_solver.
  rewrite IH by set_solver. done.
Qed.

Lemma print_fields_spec env l : forall prev out, NoDup l ->
  exists prev', foldl (fun r f => print_field r env f) (prev, out) l = (prev', out ++ reg_changes env prev l)
    /\ forall f, prev' f = if decide (f ∈ l) then env f else prev f.
Proof.
  induction l as [|f l IH]; intros prev out Hnd; cbn [foldl]; [exists prev; split; [by rewrite app_nil_r|done]|].
  apply NoDup_cons in Hnd as [Hf Hnd].
  change (print_field (prev, out) env f) 
    with (if env f =? prev f then (prev, out) else @pair cpu_regs _ (fun g => if decide (g = f) then env f else prev g) (out ++ [LReg f (env f)])).
  destruct (Z.eqb_spec (env f) (prev f)) as [E|E].
  - destruct (IH prev out Hnd) as (p' & -> & Hp). exists p'. split.
    + f_equal. f_equal. unfold reg_changes. rewrite (filter_cons_False _ f l) by (by intros []). done.
    + intros f'. rewrite Hp. destruct (decide (f' = f)) as [->|]; repeat case_decide; try done; set_solver.
  - match goal with |- context [foldl _ (?q, ?o) l] => destruct (IH q o Hnd) as (p' & -> & Hp) end. exists p'. split.
    + f_equal. rewrite <- app_assoc. f_equal. unfold reg_changes at 2. rewrite filter_cons_True by done. rewrite fmap_cons. cbn [app]. f_equal.
      apply changes_ext. intros f' Hf'. destruct (decide (f' = f)) as [->|]; done.
    + intros f'. rewrite Hp. destruct (decide (f' = f)) as [->|]; repeat case_decide; try done; set_solver.
Qed.

Lemma printed_nodup : NoDup printed_fields.
Proof. apply (bool_decide_unpack _). by vm_compute. Qed.

Lemma printRegisters_spec env prev : exists prev', printRegisters env prev (chars "before entering:") = (prev', regs_lines env prev)
  /\ forall f, prev' f = if decide (f ∈ printed_fields) then env f else prev f.
Proof.
  pose proof printed_nodup as Hnd. unfold printRegisters, printFloatStatus, print_fields, regs_lines, printed_fields in *.
  set (A := fields_before) in *. set (B := float_fields) in *. set (C := fields_after) in *. clearbody A B C.
  apply NoDup_app in Hnd as (H1 & D1 & Hnd). apply NoDup_app in Hnd as (H2 & D2 & H3).
  destruct (print_fields_spec env A prev [] H1) as (p1 & -> & E1).
  destruct (print_fields_spec env B p1 [] H2) as (p2 & -> & E2).
  destruct (print_fields_spec env C p2 [] H3) as (p3 & -> & E3). cbn [app]. exists p3. split.
  - assert (reg_changes env p1 B = reg_changes env prev B) as ->.
    { apply changes_ext. intros f Hf. rewrite E1, decide_False; [done|]. intros Hf'. apply (D1 f Hf'). set_solver. }
    assert (reg_changes env p2 C = reg_changes env prev C) as ->; [|done].
    apply changes_ext. intros f Hf. rewrite E2, E1, !decide_False; [done| |]; intros Hf'; [apply (D1 f Hf')|apply (D2 f Hf')]; set_solver.
  - intros f. rewrite E3, E2, E1. repeat case_decide; done || set_solver.
Qed.

(** ** Blocks *)

Definition seen_blocks (g : gem) : list (Z * Z) := match my_hashset g with Some h => printed_blocks h | None => [] end.

Lemma find_block_spec l pc size : is_Some (find_block l pc size) <-> (pc, size) ∈ l.
Proof.
  induction l as [|[p s] l IH]; cbn [find_block]; [split; [by intros []|intros H; by apply not_elem_of_nil in H]|].
  rewrite elem_of_cons. destruct (Z.eqb_spec p pc), (Z.eqb_spec s size); subst; cbn [andb]; [split; [by left|by eexists]|..];
    rewrite fmap_is_Some, IH; naive_solver.
Qed.

(** A block is remembered the first time. *)
Lemma alreadyPrinted_spec pc size g : exists r g', alreadyPrinted pc size g = (r, g') /\ (r =? 0 = negb (bool_decide ((pc, size) ∈ seen_blocks g)))
  /\ (forall b, b ∈ seen_blocks g' <-> b = (pc, size) \/ b ∈ seen_blocks g)
  /\ g_trc g' = g_trc g /\ CPU_tracer g' = CPU_tracer g /\ allPidsLength g' = allPidsLength g /\ myPrevState g' = myPrevState g /\ g_out g' = g_out g.
Proof.
  unfold alreadyPrinted, seen_blocks. destruct (my_hashset g) as [h|] eqn:Eh.
  - pose proof (find_block_spec (printed_blocks h) pc size) as Hf. destruct (find_block _ _ _) as [i|].
    + eexists _, _. assert ((pc, size) ∈ printed_blocks h) as Hin by (apply Hf; by eexists). split_and!; try done.
      * rewrite bool_decide_true by done. apply Z.eqb_neq. lia.
      * rewrite Eh. intros b. split; [by right|intros [->|]; done].
    + eexists _, _. assert ((pc, size) ∉ printed_blocks h) as Hn by (intros H; apply Hf in H; by destruct H). split_and!; try done.
      * by rewrite bool_decide_false.
      * cbn. intros b. set_solver.
  - eexists _, _. split_and!; try done. cbn. intros b. set_solver.
Qed.

#[export] Instance traced_dec s c : Decision (traced s c).
Proof. unfold traced. apply _. Defined.

Section Recording.
Context (TL : Z) (print_insn : Z -> option positive).

(** The trace of a run: for each block of a traced thread a mark, the registers
    that changed since the last such block, and the instructions of the block,
    or a reference when they have been listed before. *)
Fixpoint trace_spec (T : Z -> bool) (prev : cpu_regs) (seen : list (Z * Z)) (l : list block) : list gem_line :=
  match l with
  | [] => []
  | (env, pc, size) :: l =>
      let tid := getMeContextId env in
      if T tid then
        LText (chars "from cpu-exec:604") :: regs_lines env prev
        ++ (if bool_decide ((pc, size) ∈ seen) then [LLookup tid pc size]
            else list_insns TL print_insn (S (Z.to_nat size)) tid pc size ++ [LEnd])
        ++ trace_spec T env ((pc, size) :: seen) l
      else trace_spec T prev seen l
  end.

Lemma regs_lines_ext env p q : (forall f, f ∈ printed_fields -> p f = q f) -> regs_lines env p = regs_lines env q.
Proof.
  intros H. unfold regs_lines, printed_fields in *. set (A := fields_before) in *. set (B := float_fields) in *. set (C := fields_after) in *.
  clearbody A B C. rewrite (changes_ext env p q A), (changes_ext env p q B), (changes_ext env p q C); done || (intros; apply H; set_solver).
Qed.

Lemma trace_spec_ext T l : forall T' p q s s', (forall c, T c = T' c) -> (forall f, f ∈ printed_fields -> p f = q f) -> (forall b, b ∈ s <-> b ∈ s') ->
  trace_spec T p s l = trace_spec T' q s' l.
Proof.
  induction l as [|[[env pc] size] l IH]; intros T' p q s s' HT Hp Hs; cbn [trace_spec]; [done|]. rewrite <- HT. destruct (T _); [|by apply IH].
  rewrite (regs_lines_ext env p q Hp), (bool_decide_ext _ _ (Hs (pc, size))). do 3 f_equal. apply IH; [done|done|]. intros b. rewrite !elem_of_cons, Hs. done.
Qed.

(** One block: a traced thread adds to the trace, others leave no mark. *)
Lemma record_block_spec g env pc size : gem_ok g -> allPidsLength g + 2 <= ALL_PIDS_SIZE ->
  let T c := bool_decide (traced (g_trc g) c) in
  exists g', record_block TL print_insn env pc size g = Ret g' /\ gem_ok g' /\ (forall c, traced (g_trc g') c <-> traced (g_trc g) c)
    /\ allPidsLength g' <= allPidsLength g + 2
    /\ forall l, g_out g ++ trace_spec T (myPrevState g) (seen_blocks g) ((env, pc, size) :: l)
                 = g_out g' ++ trace_spec T (myPrevState g') (seen_blocks g') l.
Proof.
  intros Hok Hn T. set (tid := getMeContextId env).
  destruct (match_same tid g Hok ltac:(lia)) as (r & g1 & E1 & Ho1 & [L1 _ P1 B1 V1 O1] & Hr).
  unfold record_block. fold tid. rewrite E1. cbn [mbind outcome_bind]. unfold target_disas. fold tid.
  set (g2 := if r =? 0 then g1 else print_lines [LText (chars "from cpu-exec:604")] g1).
  assert (gem_ok g2 /\ g_trc g2 = g_trc g1 /\ allPidsLength g2 = allPidsLength g1 /\ my_hashset g2 = my_hashset g1 /\ myPrevState g2 = myPrevState g1
    /\ g_out g2 = g_out g1 ++ if r =? 0 then [] else [LText (chars "from cpu-exec:604")]) as (Ho2 & Et2 & Ep2 & Eb2 & Ev2 & Eo2).
  { unfold g2. destruct (r =? 0); [rewrite app_nil_r; done|]. split_and!; try done. destruct Ho1. by constructor. }
  clearbody g2. rewrite (gem_on _ Ho2). cbn [negb].
  destruct (match_same tid g2 Ho2 ltac:(lia)) as (r' & g3 & E3 & Ho3 & [L3 _ P3 B3 V3 O3] & Hr'). rewrite E3. cbn [mbind outcome_bind].
  assert (r' <> 0 <-> traced (g_trc g) tid) as Hrr by (rewrite Hr', Et2; apply L1).
  assert (forall c, traced (g_trc g3) c <-> traced (g_trc g) c) as HL by (intros c; rewrite L3, Et2; apply L1).
  assert (my_hashset g3 = my_hashset g /\ myPrevState g3 = myPrevState g) as [Hb Hv] by (split; congruence).
  destruct (Z.eqb_spec r' 0) as [->|Hne].
  - assert (~ traced (g_trc g) tid) as Hnt by (rewrite <- Hrr; lia). assert (r = 0) as -> by (destruct (Z.eq_dec r 0); [done|by rewrite Hr in *]).
    exists g3. split_and!; [done|done|done|lia|]. intros l. cbn [trace_spec]. fold tid. unfold T at 1. rewrite bool_decide_false by done.
    unfold seen_blocks. rewrite Hb, Hv, O3, Eo2, O1, app_nil_r. done.
  - assert (traced (g_trc g) tid) as Htr by by apply Hrr. assert (r =? 0 = false) as Er by (apply Z.eqb_neq; by apply Hr). rewrite Er in Eo2.
    destruct (printRegisters_spec env (myPrevState g3)) as (prev & -> & Hprev).
    set (g4 := print_lines _ (with_prev_state prev g3)). destruct (alreadyPrinted_spec pc size g4) as (k & g5 & -> & Hk & Hs & Et & Ec & El & Em & Eo).
    rewrite Hk. assert (seen_blocks g4 = seen_blocks g) as Hsb by (unfold seen_blocks; cbn; by rewrite Hb). rewrite Hsb in *.
    eexists. split; [reflexivity|]. cbn [g_trc print_lines allPidsLength]. rewrite Et, El. split_and!.
    + destruct Ho3. constructor; cbn; rewrite ?Ec, ?Et, ?El; done.
    + exact HL.
    + cbn. lia.
    + intros l. cbn [trace_spec]. fold tid. unfold T at 1. rewrite bool_decide_true by done. cbn [g_out print_lines myPrevState].
      rewrite Eo, Em. cbn [g4 g_out print_lines myPrevState with_prev_state]. rewrite O3, Eo2, O1, Hv, <- !app_assoc. f_equal. cbn [app]. f_equal. f_equal. f_equal.
      { by destruct (bool_decide _). }
      apply trace_spec_ext; [done| |].
      * intros f Hf. cbn. by rewrite Hprev, decide_True.
      * intros b. change (seen_blocks (print_lines _ g5)) with (seen_blocks g5). rewrite Hs, elem_of_cons. done.
Qed.

(** The whole run. *)
Lemma record_blocks_spec l : forall g, gem_ok g -> allPidsLength g + 2 * Z.of_nat (length l) <= ALL_PIDS_SIZE ->
  exists g', record_blocks TL print_insn g l = Ret g' /\ gem_ok g' /\ (forall c, traced (g_trc g') c <-> traced (g_trc g) c)
    /\ g_out g' = g_out g ++ trace_spec (fun c => bool_decide (traced (g_trc g) c)) (myPrevState g) (seen_blocks g) l.
Proof.
  induction l as [|[[env pc] size] l IH]; intros g Hok Hn.
  - exists g. split_and!; [done|done|done|]. cbn. by rewrite app_nil_r.
  - cbn [length] in Hn. destruct (record_block_spec g env pc size Hok ltac:(lia)) as (g1 & E1 & Ho1 & L1 & P1 & Hout).
    destruct (IH g1 Ho1 ltac:(lia)) as (g' & E & Ho & L & Eo). exists g'. split_and!; [|done|by intros c; rewrite L, L1|].
    + unfold record_blocks. cbn [foldM]. rewrite E1. exact E.
    + rewrite Eo, Hout. f_equal. apply trace_spec_ext; [|done|done]. intros c. by apply bool_decide_ext.
Qed.

End Recording.

(** ** From the console to the trace *)


Definition example_regs (tid r0 : Z) : cpu_regs := fun f => if decide (f = CONTEXT) then tid else if decide (f = ("regs"%string, 0%nat)) then r0 else 0.
Definition example_blocks : list block :=
  [(example_regs 1234 5, 0x8000, 8); (example_regs 77 6, 0x9000, 4); (example_regs 1234 7, 0x8000, 8)].


(** ** Reading the trace back *)

(** A reader of the trace keeps the registers of the last block. *)
Definition read_line (r : cpu_regs) (x : gem_line) : cpu_regs :=
  match x with LReg f v => fun f' => if decide (f' = f) then v else r f' | _ => r end.
Definition read_trace (r : cpu_regs) (l : list gem_line) : cpu_regs := foldl read_line r l.

(** The registers with which the last traced block was entered. *)
Definition last_entry (T : Z -> bool) (r : cpu_regs) (l : list block) : cpu_regs :=
  foldl (fun r '(env, _, _) => if T (getMeContextId env) then env else r) r l.

Lemma read_changes env prev l : forall r f, NoDup l ->
  read_trace r (reg_changes env prev l) f = if decide (f ∈ l /\ env f <> prev f) then env f else r f.
Proof.
  induction l as [|f0 l IH]; intros r f Hnd; [rewrite decide_False; [done|set_solver]|]. apply NoDup_cons in Hnd as [Hf0 Hnd].
  unfold reg_changes. destruct (decide (env f0 <> prev f0)) as [Hd|Hd].
  - rewrite filter_cons_True by done. rewrite fmap_cons. cbn [read_trace foldl read_line].
    fold (reg_changes env prev l). match goal with |- foldl read_line ?a _ _ = _ => fold (read_trace a (reg_changes env prev l)) end.
    rewrite IH by done. repeat case_decide; subst; done || set_solver.
  - rewrite filter_cons_False by done. fold (reg_changes env prev l). rewrite IH by done. repeat case_decide; done || set_solver.
Qed.

Lemma read_trace_app r l l' : read_trace r (l ++ l') = read_trace (read_trace r l) l'.
Proof. apply foldl_app. Qed.

Lemma read_other r l : Forall (fun x => match x with LReg _ _ => False | _ => True end) l -> read_trace r l = r.
Proof. induction 1 as [|[] l Hx _ IH]; done. Qed.

(** The registers printed on entry bring the reader's copy up to date. *)
Lemma read_regs env prev r : (forall f, f ∈ printed_fields -> r f = prev f) ->
  forall f, f ∈ printed_fields -> read_trace r (regs_lines env prev) f = env f.
Proof.
  pose proof printed_nodup as Hnd. unfold regs_lines, printed_fields in *.
  set (A := fields_before) in *. set (B := float_fields) in *. set (C := fields_after) in *. clearbody A B C.
  apply NoDup_app in Hnd as (H1 & D1 & Hnd). apply NoDup_app in Hnd as (H2 & D2 & H3). intros Hr f Hf.
  change (read_trace r (?x :: ?l)) with (read_trace r l). rewrite !read_trace_app, read_changes, (read_other _ [LNewline]), !read_changes by (done || by repeat constructor).
  specialize (Hr f Hf). destruct (Z.eq_dec (env f) (prev f)); repeat case_decide; set_solver || congruence.
Qed.

Section Rebuild.
Context (TL : Z) (print_insn : Z -> option positive).

Lemma insns_other fuel tid : forall pc size, Forall (fun x => match x with LReg _ _ => False | _ => True end) (list_insns TL print_insn fuel tid pc size).
Proof.
  induction fuel as [|fuel IH]; intros pc size; cbn [list_insns]; [done|]. destruct (size <=? 0); [done|]. constructor; [done|].
  destruct (print_insn pc) as [n|]; [|done]. destruct (size <? Z.pos n); [by repeat constructor|apply IH].
Qed.

Lemma read_spec T l : forall r prev seen, (forall f, f ∈ printed_fields -> r f = prev f) ->
  forall f, f ∈ printed_fields -> read_trace r (trace_spec TL print_insn T prev seen l) f = last_entry T prev l f.
Proof.
  induction l as [|[[env pc] size] l IH]; intros r prev seen Hr f Hf; cbn [trace_spec last_entry foldl]; [by apply Hr|].
  destruct (T _); [|by apply IH]. change (read_trace r (LText ?x :: ?l)) with (read_trace r l). rewrite !read_trace_app. apply IH; [|done].
  intros f' Hf'. rewrite (read_other (read_trace r _)); [by apply read_regs|].
  case_bool_decide; [by repeat constructor|]. apply Forall_app. split; [apply insns_other|by repeat constructor].
Qed.


End Rebuild.

(** A tracer that follows one thread. *)
Definition example_tracer : tracer :=
  with_pid 1234 (with_tids (<[0%nat := 1234]> (needed_tids tracer_init)) (print_tids tracer_init) 1 tracer_init).

Lemma example_gem_ok : gem_ok (gem_init example_tracer).
Proof.
  constructor; cbn [CPU_tracer g_trc gem_init allPidsLength].
  - done.
  - constructor; [vm_compute; reflexivity|vm_compute; reflexivity|simpl; lia|].
    change (tids_of example_tracer) with [1234]. apply NoDup_singleton.
  - done.
  - left. change (tids_of example_tracer) with [1234]. set_solver.
  - change (tids_of example_tracer) with [1234]. set_solver.
  - done.
Qed.


(** ** Too many threads *)

Lemma loop_misses n i c l : (i + n <= length l)%nat -> c ∉ l -> pids_loop n i c c false false l = (l, Some (false, false)).
Proof.
  intros Hl Hc. revert i Hl. induction n as [|n IH]; intros i Hl; cbn [pids_loop]; [done|].
  destruct (Z.eqb_spec c (at_pos l (Z.of_nat i))) as [E|_]; [|apply IH; lia].
  destruct Hc. apply list_elem_of_lookup. exists i. rewrite E. apply at_pos_lookup. lia.
Qed.

(** A new id enters the table, or does not fit. *)
Lemma insert_new c g : Z.of_nat (length (allPidsChecked g)) = ALL_PIDS_SIZE -> 0 <= allPidsLength g <= ALL_PIDS_SIZE -> c ∉ allPidsChecked g ->
  if decide (allPidsLength g < ALL_PIDS_SIZE) then
    exists l, insertIntoAllPids c c g = Ret (with_pids l (allPidsLength g + 1) g) /\ length l = length (allPidsChecked g)
      /\ (forall x, x ∈ l -> x = c \/ x ∈ allPidsChecked g)
  else insertIntoAllPids c c g = OutOfBounds.
Proof.
  intros Hl Hn Hc. unfold insertIntoAllPids. rewrite loop_misses by (done || lia). cbn [negb]. unfold put_pid.
  rewrite (proj2 (Z.leb_le 0 _)) by lia. cbn [andb]. destruct (decide _) as [H|H].
  - rewrite (proj2 (Z.ltb_lt _ _)) by done. cbn [mbind outcome_bind]. rewrite Z.eqb_refl. cbn [negb andb].
    eexists. split_and!; [done|by rewrite !length_insert|]. intros x Hx. apply list_elem_of_lookup in Hx as (j & Hj).
    apply list_lookup_insert_Some in Hj as [(_ & <- & _)|(_ & Hj)].
    + right. apply list_elem_of_lookup. exists 0%nat. apply (at_pos_lookup _ 0). unfold ALL_PIDS_SIZE in *. lia.
    + apply list_lookup_insert_Some in Hj as [(_ & <- & _)|(_ & Hj)]; [by left|right]. by eapply list_elem_of_lookup_2.
  - by rewrite (proj2 (Z.ltb_ge _ _)) by lia.
Qed.

(** C40: The table of all ids is not bounded: when the threads that have run
    are more than its 10000 entries, looking up one more writes outside of it.
    The guest chooses the ids, so it can make the emulator write there. *)
Theorem many_threads_overrun g l :
  gem_ok g -> Z.of_nat (length (allPidsChecked g)) = ALL_PIDS_SIZE -> allPidsLength g <= ALL_PIDS_SIZE ->
  NoDup l -> (forall c, c ∈ l -> c ∉ allPidsChecked g) -> ALL_PIDS_SIZE < allPidsLength g + Z.of_nat (length l) ->
  foldM (fun g c => '(_, g) ← matchMeInPidTid c c g; Ret g) g l = OutOfBounds.
Proof.
  revert g. induction l as [|c l IH]; intros g Hok Hs Hn Hnd Hc Hl; [simpl in Hl; lia|]. apply NoDup_cons in Hnd as [Hcl Hnd]. cbn [foldM].
  pose proof (insert_new c g Hs (conj (gem_pids _ Hok) Hn) (Hc c ltac:(set_solver))) as Hi. destruct (decide _) as [Hlt|Hge].
  - destruct Hi as (t & Et & Ht & Htc). destruct (match_inserted c g t (allPidsLength g + 1) Hok Et ltac:(lia)) as (r & g' & E & Hok' & _ & _ & Ec & En).
    rewrite E. cbn [mbind outcome_bind].
    cbn [length] in Hl. apply IH; [done|rewrite Ec; lia|lia|done| |lia]. rewrite Ec. intros x Hx [->|Hx']%Htc; [done|]. apply (Hc x); set_solver.
  - unfold matchMeInPidTid. by rewrite (gem_on _ Hok), Hi.
Qed.

Lemma many_threads_overrun_witness :
  foldM (fun g c => '(_, g) ← matchMeInPidTid c c g; Ret g) (gem_init example_tracer) (seqZ 1 10001) = OutOfBounds.
Proof.
  apply many_threads_overrun.
  - exact example_gem_ok.
  - vm_compute. reflexivity.
  - vm_compute. congruence.
  - apply NoDup_seqZ.
  - intros c Hc Hin. apply elem_of_replicate in Hin as [-> _]. apply elem_of_seqZ in Hc. lia.
  - rewrite length_seqZ. cbn [gem_init allPidsLength]. unfold ALL_PIDS_SIZE. lia.
Defined.
