(* ===== verification/GuestMem.v ===== *)
(** Access to the guest's memory from outside of the guest, exec.c: physical
    addresses, with devices behind some pages, and virtual addresses, where
    each page accessed can add a line to the trace. *)
From S2P Require Import Prelude CStrings GoldfishTty GemTrace.
Open Scope list_scope.

Definition IO_MEM_SHIFT : Z := 3.
Definition IO_MEM_RAM : Z := 0 .<< IO_MEM_SHIFT.
Definition IO_MEM_ROM : Z := 1 .<< IO_MEM_SHIFT.
Definition IO_MEM_UNASSIGNED : Z := 2 .<< IO_MEM_SHIFT.
Definition IO_MEM_ROMD : Z := 1.

(** Where a request comes from; the members the modelled code compares. *)
Definition MEM_REQ_DISAS : Z := 19.
Definition MEM_REQ_VMEM : Z := 22.

Definition twoAts : bool := true.

Record PhysPageDesc := mkPage { phys_offset : Z; region_offset : Z }.

(** [memcpy] to and from an integer, on a little-endian host. *)
Definition le_value (bs : list Z) : Z := foldr (fun b v => b + 256 * v) 0 bs.
Definition le_bytes (n : nat) (v : Z) : list Z := (fun i => u8 (v .>> (8 * Z.of_nat i))) <$> seq 0 n.

(** [%x] of a byte. *)
Definition byte_hex (b : Z) : list Z := hex_loop 2 b.

(** Bytes of RAM, by their offset. *)
Definition ram_read (ram : Z -> Z) (a : Z) (n : nat) : list Z := (fun i => ram (a + Z.of_nat i)) <$> seq 0 n.
Definition ram_write (ram : Z -> Z) (a : Z) (bs : list Z) : Z -> Z := fun x =>
  match bs !! Z.to_nat (x - a) with Some b => if a <=? x then b else ram x | None => ram x end.

Section Memory.
(** [W] is the state of the devices behind I/O pages; the width of virtual
    addresses, the bits of an offset in a page, the table of physical pages,
    the guest's translation of virtual pages, and the running CPU's registers. *)
Context {W : Type} (io_mem_write : Z -> Z -> Z -> Z -> W -> W) (io_mem_read : Z -> Z -> Z -> W -> Z * W).
Context (TL PB : Z) (phys_page_find : Z -> option PhysPageDesc) (cpu_get_phys_page_debug : Z -> option Z) (env : cpu_regs).

Record gmachine := mkGM { gm_ram : Z -> Z; gm_io : W; gm_gem : gem }.

Definition set_ram (r : Z -> Z) (m : gmachine) : gmachine := mkGM r (gm_io m) (gm_gem m).
Definition set_io (w : W) (m : gmachine) : gmachine := mkGM (gm_ram m) w (gm_gem m).
Definition set_gem (g : gem) (m : gmachine) : gmachine := mkGM (gm_ram m) (gm_io m) g.

Definition TARGET_PAGE_SIZE : Z := 1 .<< PB.
Definition TARGET_PAGE_MASK : Z := .~ (TARGET_PAGE_SIZE - 1).
Definition IO_MEM_NB_ENTRIES : Z := 1 .<< (PB - IO_MEM_SHIFT).

Definition page_desc (addr : Z) : Z :=
  match phys_page_find ((addr .& TARGET_PAGE_MASK) .>> PB) with Some p => phys_offset p | None => IO_MEM_UNASSIGNED end.

(** The bytes of one page that are accessed. *)
Definition page_part (w addr len : Z) : Z := Z.min (wrap w ((addr .& TARGET_PAGE_MASK) + TARGET_PAGE_SIZE - addr)) len.

(** The device, the address it sees and the width of an access to an I/O page. *)
Definition io_index (pd : Z) : Z := (pd .>> IO_MEM_SHIFT) .& (IO_MEM_NB_ENTRIES - 1).
Definition io_addr (addr : Z) : Z :=
  match phys_page_find ((addr .& TARGET_PAGE_MASK) .>> PB) with
  | Some p => u64 ((addr .& .~ TARGET_PAGE_MASK) + region_offset p)
  | None => addr
  end.
Definition io_width (addr1 l : Z) : Z :=
  if (4 <=? l) && (addr1 .& 3 =? 0) then 4 else if (2 <=? l) && (addr1 .& 1 =? 0) then 2 else 1.

(** The origin of a request is looked up for every I/O access, which can
    rearrange the tracer's tables. *)
Definition match_now (m : gmachine) : outcome gmachine :=
  '(_, g) ← matchMeInPidTid (getMeContextId env) (getMeContextId env) (gm_gem m); Ret (set_gem g m).

(** [cpu_physical_memory_rw], writing. [fuel] is one more than the number of
    bytes, each round takes one at least. *)
Fixpoint phys_write (fuel : nat) (m : gmachine) (addr : Z) (buf : list Z) : outcome gmachine :=
  match fuel, buf with
  | S fuel, _ :: _ =>
      let pd := page_desc addr in
      let l := page_part 64 addr (Z.of_nat (length buf)) in
      if negb (pd .& .~ TARGET_PAGE_MASK =? IO_MEM_RAM) then
        let addr1 := io_addr addr in
        let l := io_width addr1 l in
        m ← match_now m;
        phys_write fuel (set_io (io_mem_write (io_index pd) addr1 (le_value (take (Z.to_nat l) buf)) l (gm_io m)) m)
          (u64 (addr + l)) (drop (Z.to_nat l) buf)
      else
        let addr1 := (pd .& TARGET_PAGE_MASK) + (addr .& .~ TARGET_PAGE_MASK) in
        phys_write fuel (set_ram (ram_write (gm_ram m) addr1 (take (Z.to_nat l) buf)) m) (u64 (addr + l)) (drop (Z.to_nat l) buf)
  | _, _ => Ret m
  end.

(** [cpu_physical_memory_rw], reading. *)
Fixpoint phys_read (fuel : nat) (m : gmachine) (addr len : Z) : outcome (list Z * gmachine) :=
  match fuel with
  | S fuel =>
      if len <=? 0 then Ret ([], m)
      else
        let pd := page_desc addr in
        let l := page_part 64 addr len in
        if (IO_MEM_ROM <? pd .& .~ TARGET_PAGE_MASK) && negb (nz (pd .& IO_MEM_ROMD)) then
          let addr1 := io_addr addr in
          let l := io_width addr1 l in
          let '(val, w) := io_mem_read (io_index pd) addr1 l (gm_io m) in
          m ← match_now (set_io w m);
          '(bs, m) ← phys_read fuel m (u64 (addr + l)) (len - l);
          Ret (le_bytes (Z.to_nat l) val ++ bs, m)
        else
          let bs := ram_read (gm_ram m) ((pd .& TARGET_PAGE_MASK) + (addr .& .~ TARGET_PAGE_MASK)) (Z.to_nat l) in
          '(bs', m) ← phys_read fuel m (u64 (addr + l)) (len - l);
          Ret (bs ++ bs', m)
  | O => Ret ([], m)
  end.

Fixpoint write_rom (fuel : nat) (ram : Z -> Z) (addr : Z) (buf : list Z) : Z -> Z :=
  match fuel, buf with
  | S fuel, _ :: _ =>
      let pd := page_desc addr in
      let l := page_part 64 addr (Z.of_nat (length buf)) in
      let low := pd .& .~ TARGET_PAGE_MASK in
      let ram := if negb (low =? IO_MEM_RAM) && negb (low =? IO_MEM_ROM) && negb (nz (pd .& IO_MEM_ROMD)) then ram
                 else ram_write ram ((pd .& TARGET_PAGE_MASK) + (addr .& .~ TARGET_PAGE_MASK)) (take (Z.to_nat l) buf) in
      write_rom fuel ram (u64 (addr + l)) (drop (Z.to_nat l) buf)
  | _, _ => ram
  end.

Definition cpu_physical_memory_write (m : gmachine) (addr : Z) (buf : list Z) : outcome gmachine := phys_write (S (length buf)) m addr buf.
Definition cpu_physical_memory_read (m : gmachine) (addr len : Z) : outcome (list Z * gmachine) := phys_read (S (Z.to_nat len)) m addr len.
Definition cpu_physical_memory_write_rom (m : gmachine) (addr : Z) (buf : list Z) : gmachine :=
  set_ram (write_rom (S (length buf)) (gm_ram m) addr buf) m.

(** The line printed for a page that was accessed; the bytes are printed
    without leading zeros. *)
Definition trace_access (st : bool) (mem_req addr : Z) (buf : list Z) (len : Z) (m : gmachine) : outcome gmachine :=
  if twoAts then
    '(r, g) ← matchMeInPidTid (getMeContextId env) (getMeContextId env) (gm_gem m);
    Ret (set_gem (if (r =? 0) || (mem_req =? MEM_REQ_DISAS) then g
                  else print_lines [LMem st (getMeContextId env) (getMePCVal env) addr (concat (byte_hex <$> buf)) mem_req (Z.of_nat (length buf)) len] g) m)
  else Ret m.

(** [cpu_memory_rw_debug], writing: 0, or -1 at the first page that is not
    mapped. *)
Fixpoint virt_write (fuel : nat) (mem_req : Z) (m : gmachine) (addr : Z) (buf : list Z) : outcome (Z * gmachine) :=
  match fuel, buf with
  | S fuel, _ :: _ =>
      match cpu_get_phys_page_debug (addr .& TARGET_PAGE_MASK) with
      | None => Ret (-1, m)
      | Some phys_addr =>
          let l := page_part TL addr (Z.of_nat (length buf)) in
          let bs := take (Z.to_nat l) buf in
          m ← trace_access true mem_req addr bs (Z.of_nat (length buf))
                (cpu_physical_memory_write_rom m (u64 (phys_addr + (addr .& .~ TARGET_PAGE_MASK))) bs);
          virt_write fuel mem_req m (wrap TL (addr + l)) (drop (Z.to_nat l) buf)
      end
  | _, _ => Ret (0, m)
  end.

(** The same, reading: the bytes stored in the buffer as well. *)
Fixpoint virt_read (fuel : nat) (mem_req : Z) (m : gmachine) (addr len : Z) : outcome (Z * list Z * gmachine) :=
  match fuel with
  | S fuel =>
      if len <=? 0 then Ret (0, [], m)
      else
        match cpu_get_phys_page_debug (addr .& TARGET_PAGE_MASK) with
        | None => Ret (-1, [], m)
        | Some phys_addr =>
            let l := page_part TL addr len in
            '(bs, m) ← cpu_physical_memory_read m (u64 (phys_addr + (addr .& .~ TARGET_PAGE_MASK))) l;
            m ← trace_access false mem_req addr bs len m;
            '(r, bs', m) ← virt_read fuel mem_req m (wrap TL (addr + l)) (len - l);
            Ret (r, bs ++ bs', m)
        end
  | O => Ret (0, [], m)
  end.

(** [safe_memory_rw_debug] of the goldfish devices, [len] an [int]; without
    KVM. *)
Definition safe_memory_write (m : gmachine) (addr : Z) (buf : list Z) (len : Z) : outcome (Z * gmachine) :=
  let bs := take (Z.to_nat len) buf in virt_write (S (length bs)) MEM_REQ_VMEM m addr bs.
Definition safe_memory_read (m : gmachine) (addr len : Z) : outcome (Z * list Z * gmachine) :=
  virt_read (S (Z.to_nat len)) MEM_REQ_VMEM m addr len.

End Memory.

(** ** Bytes at a list of addresses *)

(** Storing bytes one by one. *)
Definition scatter (ram : Z -> Z) (addrs bs : list Z) : Z -> Z :=
  foldl (fun (ram : Z -> Z) '(a, b) x => if x =? a then b else ram x) ram (zip addrs bs).

Lemma scatter_app ram a1 a2 b1 b2 : length a1 = length b1 -> scatter ram (a1 ++ a2) (b1 ++ b2) = scatter (scatter ram a1 b1) a2 b2.
Proof. intros H. unfold scatter. by rewrite zip_with_app, foldl_app. Qed.

Lemma scatter_ext addrs : forall bs r r', (forall x, r x = r' x) -> forall x, scatter r addrs bs x = scatter r' addrs bs x.
Proof.
  induction addrs as [|a addrs IH]; intros [|b bs] r r' H x; try apply H. change (scatter ?q (a :: addrs) (b :: bs)) with (scatter (fun x => if x =? a then b else q x) addrs bs).
  apply IH. intros y. by rewrite H.
Qed.

Lemma scatter_out addrs : forall bs r x, x ∉ addrs -> scatter r addrs bs x = r x.
Proof.
  induction addrs as [|a addrs IH]; intros [|b bs] r x Hx; try done. change (scatter ?q (a :: addrs) (b :: bs)) with (scatter (fun x => if x =? a then b else q x) addrs bs).
  rewrite IH by set_solver. destruct (Z.eqb_spec x a); [set_solver|done].
Qed.

Lemma scatter_gather addrs : forall bs r, NoDup addrs -> length addrs = length bs -> scatter r addrs bs <$> addrs = bs.
Proof.
  induction addrs as [|a addrs IH]; intros [|b bs] r Hnd Hl; try done. apply NoDup_cons in Hnd as [Ha Hnd].
  change (scatter r (a :: addrs) (b :: bs)) with (scatter (fun x => if x =? a then b else r x) addrs bs).
  rewrite fmap_cons. f_equal; [by rewrite scatter_out, Z.eqb_refl by done|]. apply IH; [done|by injection Hl].
Qed.

(** Consecutive bytes. *)
Lemma ram_write_cons r a b bs x : ram_write r a (b :: bs) x = ram_write (fun y => if y =? a then b else r y) (a + 1) bs x.
Proof.
  unfold ram_write. destruct (Z.le_gt_cases a x).
  - destruct (Z.eq_dec x a) as [->|]; [rewrite Z.sub_diag, Z.leb_refl, Z.eqb_refl; change (Z.to_nat 0) with 0%nat; cbn [lookup list_lookup]; by repeat case_match; lia|].
    replace (Z.to_nat (x - a)) with (S (Z.to_nat (x - (a + 1)))) by lia. cbn [lookup list_lookup]. change (list_lookup ?i bs) with (bs !! i).
    rewrite (proj2 (Z.leb_le a x)), (proj2 (Z.leb_le (a + 1) x)), (proj2 (Z.eqb_neq x a)) by lia. done.
  - rewrite (proj2 (Z.leb_gt a x)), (proj2 (Z.leb_gt (a + 1) x)), (proj2 (Z.eqb_neq x a)) by lia. by repeat case_match.
Qed.

Lemma ram_write_scatter addrs : forall bs r a, length addrs = length bs -> (forall i x, addrs !! i = Some x -> x = a + Z.of_nat i) ->
  forall x, ram_write r a bs x = scatter r addrs bs x.
Proof.
  induction addrs as [|a0 addrs IH]; intros [|b bs] r a Hl Ha x; try done.
  rewrite ram_write_cons. assert (a0 = a) as -> by (rewrite (Ha 0%nat a0 eq_refl); lia).
  change (scatter r (a :: addrs) (b :: bs)) with (scatter (fun y => if y =? a then b else r y) addrs bs).
  apply IH; [by injection Hl|]. intros i y Hy. rewrite (Ha (S i) y Hy). lia.
Qed.

Lemma ram_read_gather r a addrs : (forall i x, addrs !! i = Some x -> x = a + Z.of_nat i) -> ram_read r a (length addrs) = r <$> addrs.
Proof.
  intros Ha. apply list_eq. intros i. unfold ram_read. rewrite !list_lookup_fmap.
  destruct (addrs !! i) as [x|] eqn:E.
  - rewrite lookup_seq_lt by (by eapply lookup_lt_Some). cbn. by rewrite (Ha _ _ E).
  - rewrite lookup_seq_ge by (by apply lookup_ge_None). done.
Qed.

Section Pages.
Context {W : Type} (io_mem_write : Z -> Z -> Z -> Z -> W -> W) (io_mem_read : Z -> Z -> Z -> W -> Z * W).
Context (TL PB : Z) (phys_page_find : Z -> option PhysPageDesc) (cpu_get_phys_page_debug : Z -> option Z) (env : cpu_regs).
Context (HPB : 0 <= PB < 64) (HTL : PB < TL).

(** ** Pages *)

Lemma page_size_pow2 : TARGET_PAGE_SIZE PB = 2 ^ PB.
Proof. unfold TARGET_PAGE_SIZE. apply Z.shiftl_1_l. Qed.

Lemma land_off a : a .& .~ TARGET_PAGE_MASK PB = a mod 2 ^ PB.
Proof. unfold TARGET_PAGE_MASK. rewrite Z.lnot_involutive, page_size_pow2, <- Z.land_ones, Z.ones_equiv by lia. f_equal. Qed.

Lemma land_page a : a .& TARGET_PAGE_MASK PB = a - a mod 2 ^ PB.
Proof.
  unfold TARGET_PAGE_MASK. rewrite page_size_pow2, <- Z.ldiff_land. replace (2 ^ PB - 1) with (Z.ones PB) by (rewrite Z.ones_equiv; lia).
  rewrite Z.ldiff_ones_r, Z.shiftl_mul_pow2, Z.shiftr_div_pow2 by lia. pose proof (Z.div_mod a (2 ^ PB) ltac:(lia)). lia.
Qed.

Lemma page_part_eq w a len : PB < w -> page_part PB w a len = Z.min (2 ^ PB - a mod 2 ^ PB) len.
Proof.
  intros Hw. unfold page_part. rewrite land_page, page_size_pow2. replace (a - a mod 2 ^ PB + 2 ^ PB - a) with (2 ^ PB - a mod 2 ^ PB) by lia.
  pose proof (Z.mod_pos_bound a (2 ^ PB) ltac:(lia)). rewrite wrap_small; [done|]. split; [lia|].
  enough (2 ^ PB < 2 ^ w) by lia. apply Z.pow_lt_mono_r; lia.
Qed.

(** Addresses of one page. *)
Lemma in_page w a i : in_u w a -> PB < w -> 0 <= i < 2 ^ PB - a mod 2 ^ PB -> wrap w (a + i) = a + i /\ (a + i) mod 2 ^ PB = a mod 2 ^ PB + i.
Proof.
  intros [Ha0 Ha] Hw Hi. pose proof (Z.mod_pos_bound a (2 ^ PB) ltac:(lia)) as Hm. pose proof (Z.div_mod a (2 ^ PB) ltac:(lia)) as Hd.
  assert (2 ^ w = 2 ^ PB * 2 ^ (w - PB)) as Ew by (rewrite <- Z.pow_add_r by lia; f_equal; lia).
  assert (a / 2 ^ PB < 2 ^ (w - PB)) as Hq by (apply Z.div_lt_upper_bound; lia). split.
  - apply wrap_small. split; [lia|]. nia.
  - symmetry. apply (Z.mod_unique_pos _ _ (a / 2 ^ PB)); lia.
Qed.

(** ** Physical addresses of RAM and ROM *)

Definition is_mem (pd : Z) : bool :=
  let low := pd .& .~ TARGET_PAGE_MASK PB in (low =? IO_MEM_RAM) || (low =? IO_MEM_ROM) || nz (pd .& IO_MEM_ROMD).

(** Where the byte at a physical address is kept. *)
Definition ram_at (p : Z) : option Z :=
  let pd := page_desc PB phys_page_find p in
  if is_mem pd then Some ((pd .& TARGET_PAGE_MASK PB) + (p .& .~ TARGET_PAGE_MASK PB)) else None.

Definition resolves (p : Z) (addrs : list Z) : Prop := forall i x, addrs !! i = Some x -> ram_at (u64 (p + Z.of_nat i)) = Some x.

(** The part of an access that is in one page. *)
Lemma resolves_page p addrs : in_u 64 p -> addrs <> [] -> resolves p addrs ->
  let l := page_part PB 64 p (Z.of_nat (length addrs)) in
  let base := (page_desc PB phys_page_find p .& TARGET_PAGE_MASK PB) + (p .& .~ TARGET_PAGE_MASK PB) in
  0 < l <= Z.of_nat (length addrs) /\ is_mem (page_desc PB phys_page_find p) = true
  /\ (forall i x, take (Z.to_nat l) addrs !! i = Some x -> x = base + Z.of_nat i) /\ resolves (u64 (p + l)) (drop (Z.to_nat l) addrs).
Proof.
  intros Hp Hne Hr l base. unfold l. rewrite page_part_eq by lia. clear l. set (S := 2 ^ PB) in *. set (l := Z.min _ _).
  pose proof (Z.mod_pos_bound p S ltac:(unfold S; lia)) as Hm. assert (0 < Z.of_nat (length addrs)) by (destruct addrs; [done|simpl; lia]).
  assert (forall i, 0 <= i < S - p mod S -> ram_at (u64 (p + i)) = if is_mem (page_desc PB phys_page_find p) then Some (base + i) else None) as Hat.
  { intros i Hi. destruct (in_page 64 p i Hp ltac:(lia) Hi) as [-> E]. unfold ram_at, page_desc, base. rewrite !land_page, !land_off, E.
    fold S. replace (p + i - (p mod S + i)) with (p - p mod S) by lia. unfold page_desc. rewrite !land_page. fold S.
    destruct (is_mem _); [|done]. f_equal. lia. }
  destruct (lookup_lt_is_Some_2 addrs 0 ltac:(lia)) as [x0 Hx0].
  assert (is_mem (page_desc PB phys_page_find p) = true) as Hmem.
  { pose proof (Hr 0%nat x0 Hx0) as H0. change (Z.of_nat 0) with 0 in H0. rewrite Hat in H0 by lia. by destruct (is_mem _). }
  rewrite Hmem in Hat. split_and!; [lia|lia|done| |].
  - intros i x Hx. apply lookup_take_Some in Hx as [Hx Hi]. specialize (Hr i x Hx). rewrite Hat in Hr by lia. by injection Hr.
  - intros i x Hx. rewrite lookup_drop in Hx. specialize (Hr _ x Hx). rewrite wrap_add_l. rewrite <- Hr. do 2 f_equal. lia.
Qed.

Lemma phys_read_ram fuel : forall (m : gmachine (W := W)) p addrs, in_u 64 p -> resolves p addrs -> (length addrs < fuel)%nat ->
  phys_read io_mem_read PB phys_page_find env fuel m p (Z.of_nat (length addrs)) = Ret (gm_ram m <$> addrs, m).
Proof.
  induction fuel as [|fuel IH]; intros m p addrs Hp Hr Hf; [lia|]. cbn [phys_read].
  destruct (decide (addrs = [])) as [->|Hne]; [done|]. destruct (Z.leb_spec (Z.of_nat (length addrs)) 0); [destruct addrs; simpl in *; [done|lia]|].
  destruct (resolves_page p addrs Hp Hne Hr) as (Hl & Hmem & Hat & Hr'). set (l := page_part _ _ _ _) in *. set (pd := page_desc _ _ _) in *.
  assert ((IO_MEM_ROM <? pd .& .~ TARGET_PAGE_MASK PB) && negb (nz (pd .& IO_MEM_ROMD)) = false) as ->.
  { unfold is_mem in Hmem. destruct (nz _); [by rewrite andb_false_r|]. rewrite orb_false_r in Hmem.
    apply orb_true_iff in Hmem as [E%Z.eqb_eq|E%Z.eqb_eq]; rewrite E; done. }
  assert (length (take (Z.to_nat l) addrs) = Z.to_nat l) as El by (rewrite length_take; lia).
  replace (Z.of_nat (length addrs) - l) with (Z.of_nat (length (drop (Z.to_nat l) addrs))) by (rewrite length_drop; lia).
  rewrite (IH m (u64 (p + l)) (drop (Z.to_nat l) addrs)); [|by apply wrap_range|done|rewrite length_drop; lia].
  cbn [mbind outcome_bind]. rewrite <- El, (ram_read_gather _ _ _ Hat), <- fmap_app, El, take_drop. done.
Qed.

Lemma write_rom_ram fuel : forall r p addrs buf, in_u 64 p -> resolves p addrs -> length addrs = length buf -> (length buf < fuel)%nat ->
  forall x, write_rom PB phys_page_find fuel r p buf x = scatter r addrs buf x.
Proof.
  induction fuel as [|fuel IH]; intros r p addrs buf Hp Hr Hlen Hf x; [lia|]. cbn [write_rom].
  destruct (decide (addrs = [])) as [->|Hne]; [by destruct buf|]. destruct buf as [|b buf']; [by destruct addrs|]. set (buf := b :: buf') in *.
  destruct (resolves_page p addrs Hp Hne Hr) as (Hl & Hmem & Hat & Hr'). rewrite <- Hlen. set (l := page_part _ _ _ _) in *. set (pd := page_desc _ _ _) in *.
  assert (negb (pd .& .~ TARGET_PAGE_MASK PB =? IO_MEM_RAM) && negb (pd .& .~ TARGET_PAGE_MASK PB =? IO_MEM_ROM) && negb (nz (pd .& IO_MEM_ROMD)) = false) as ->.
  { unfold is_mem in Hmem. by rewrite <- !negb_orb, Hmem. }
  rewrite (IH _ (u64 (p + l)) (drop (Z.to_nat l) addrs)); [|by apply wrap_range|done|rewrite !length_drop; lia|rewrite length_drop; lia].
  rewrite <- (take_drop (Z.to_nat l) addrs) at 2. rewrite <- (take_drop (Z.to_nat l) buf) at 3.
  rewrite scatter_app by (rewrite !length_take; lia). apply scatter_ext. apply ram_write_scatter; [rewrite !length_take; lia|done].
Qed.

(** ** Virtual addresses *)

Definition virt_at (a : Z) : option Z :=
  p ← cpu_get_phys_page_debug (a .& TARGET_PAGE_MASK PB); ram_at (u64 (p + (a .& .~ TARGET_PAGE_MASK PB))).

(** The bytes at virtual address [a] and following are kept at [addrs]. *)
Definition virt_resolves (a : Z) (addrs : list Z) : Prop := forall i x, addrs !! i = Some x -> virt_at (wrap TL (a + Z.of_nat i)) = Some x.

Lemma virt_resolves_page a addrs : in_u TL a -> addrs <> [] -> virt_resolves a addrs ->
  let l := page_part PB TL a (Z.of_nat (length addrs)) in
  0 < l <= Z.of_nat (length addrs) /\ virt_resolves (wrap TL (a + l)) (drop (Z.to_nat l) addrs)
  /\ exists p, cpu_get_phys_page_debug (a .& TARGET_PAGE_MASK PB) = Some p
       /\ resolves (u64 (p + (a .& .~ TARGET_PAGE_MASK PB))) (take (Z.to_nat l) addrs).
Proof.
  intros Ha Hne Hr l. unfold l. rewrite page_part_eq by lia. clear l. set (S := 2 ^ PB) in *. set (l := Z.min _ _).
  pose proof (Z.mod_pos_bound a S ltac:(unfold S; lia)) as Hm. assert (0 < Z.of_nat (length addrs)) by (destruct addrs; [done|simpl; lia]).
  split_and!; [lia|lia| |].
  { intros i x Hx. rewrite lookup_drop in Hx. specialize (Hr _ x Hx). rewrite wrap_add_l. rewrite <- Hr. do 2 f_equal. lia. }
  destruct (lookup_lt_is_Some_2 addrs 0 ltac:(lia)) as [x0 Hx0]. pose proof (Hr 0%nat x0 Hx0) as H0.
  change (Z.of_nat 0) with 0 in H0. rewrite Z.add_0_r, wrap_small in H0 by done. unfold virt_at in H0.
  destruct (cpu_get_phys_page_debug (a .& TARGET_PAGE_MASK PB)) as [p|] eqn:Ep; [|done]. exists p. split; [done|].
  intros i x Hx. apply lookup_take_Some in Hx as [Hx Hi]. specialize (Hr i x Hx). destruct (in_page TL a (Z.of_nat i) Ha HTL ltac:(fold S; lia)) as [E1 E2].
  rewrite E1 in Hr. unfold virt_at in Hr. rewrite land_page, land_off, E2 in Hr. fold S in E2, Hr.
  replace (a + Z.of_nat i - (a mod S + Z.of_nat i)) with (a .& TARGET_PAGE_MASK PB) in Hr by (rewrite land_page; fold S; lia).
  rewrite Ep in Hr. cbn in Hr. rewrite <- Hr, land_off, wrap_add_l. fold S. f_equal. f_equal. lia.
Qed.

(** ** The tracer during an access *)

Definition tid : Z := getMeContextId env.

Definition line_text (x : gem_line) : list Z := match x with LMem _ _ _ _ text _ _ _ => text | _ => [] end.

(** [lines] were printed, all for the running thread, and they show [bs]. *)
Record gem_after (st : bool) (bs : list Z) (g g' : gem) : Prop := {
  after_steady : steady tid g';
  after_traced c : traced (g_trc g') c <-> traced (g_trc g) c;
  after_blocks : my_hashset g' = my_hashset g;
  after_prev : myPrevState g' = myPrevState g;
  after_out : exists lines, g_out g' = g_out g ++ lines
    /\ concat (line_text <$> lines) = (if bool_decide (traced (g_trc g) tid) then concat (byte_hex <$> bs) else [])
    /\ Forall (fun x => match x with LMem st' t _ _ _ _ _ _ => st' = st /\ t = tid /\ traced (g_trc g) tid | _ => False end) lines;
}.

Lemma gem_after_nil st g : steady tid g -> gem_after st [] g g.
Proof.
  intros H. constructor; [done..|]. exists []. rewrite app_nil_r. split_and!; [done| |done]. by case_bool_decide.
Qed.

Lemma gem_after_app st bs1 bs2 g1 g2 g3 : gem_after st bs1 g1 g2 -> gem_after st bs2 g2 g3 -> gem_after st (bs1 ++ bs2) g1 g3.
Proof.
  intros [S1 T1 B1 P1 (l1 & O1 & X1 & F1)] [S2 T2 B2 P2 (l2 & O2 & X2 & F2)]. constructor; [done|intros c; by rewrite T2, T1|congruence|congruence|].
  exists (l1 ++ l2). rewrite O2, O1, app_assoc, !fmap_app, !concat_app, X1, X2. split_and!; [done| |].
  - rewrite (bool_decide_ext _ _ (T1 tid)). by destruct (bool_decide (traced (g_trc g1) tid)).
  - apply Forall_app. split; [done|]. eapply Forall_impl; [done|]. intros [] Hx; try done. by rewrite T1 in Hx.
Qed.

Lemma trace_access_spec st a bs len (m : gmachine (W := W)) : steady tid (gm_gem m) ->
  exists g', trace_access env st MEM_REQ_VMEM a bs len m = Ret (set_gem g' m) /\ gem_after st bs (gm_gem m) g'.
Proof.
  intros Hs. unfold trace_access. cbn [twoAts]. fold tid.
  destruct (match_steady tid _ Hs) as (r & g & -> & Hs' & [L _ _ B P O] & Hr). cbn [mbind outcome_bind].
  change (MEM_REQ_VMEM =? MEM_REQ_DISAS) with false. rewrite orb_false_r. eexists. split; [done|].
  destruct (Z.eqb_spec r 0) as [->|Hne].
  - constructor; [done..|]. exists []. rewrite O, app_nil_r, bool_decide_false by (rewrite <- Hr; lia). done.
  - assert (traced (g_trc (gm_gem m)) tid) as Ht by by apply Hr. constructor; [|done|done|done|].
    + destruct Hs' as [[] H1 H2 H3]. by constructor.
    + exists [LMem st tid (getMePCVal env) a (concat (byte_hex <$> bs)) MEM_REQ_VMEM (Z.of_nat (length bs)) len].
      cbn [print_lines g_out]. rewrite O, bool_decide_true by done. split_and!; [done| |].
      * cbn. by rewrite app_nil_r.
      * by apply Forall_singleton.
Qed.

(** ** Access to mapped memory *)

Lemma virt_write_ram fuel : forall (m : gmachine (W := W)) a addrs buf, in_u TL a -> virt_resolves a addrs -> length addrs = length buf ->
  (length buf < fuel)%nat -> steady tid (gm_gem m) ->
  exists m', virt_write TL PB phys_page_find cpu_get_phys_page_debug env fuel MEM_REQ_VMEM m a buf = Ret (0, m')
    /\ (forall x, gm_ram m' x = scatter (gm_ram m) addrs buf x) /\ gm_io m' = gm_io m /\ gem_after true buf (gm_gem m) (gm_gem m').
Proof.
  induction fuel as [|fuel IH]; intros m a addrs buf Ha Hr Hlen Hf Hs; [lia|]. cbn [virt_write].
  destruct buf as [|b buf']; [destruct addrs; [|done]; exists m; split_and!; [done..|by apply gem_after_nil]|].
  set (buf := b :: buf') in *. assert (addrs <> []) as Hne by (intros ->; done).
  destruct (virt_resolves_page a addrs Ha Hne Hr) as (Hl & Hr' & p & Ep & Hp). rewrite Ep. rewrite <- Hlen. set (l := page_part _ _ _ _) in *.
  set (m1 := cpu_physical_memory_write_rom _ _ m _ _).
  assert (forall x, gm_ram m1 x = scatter (gm_ram m) (take (Z.to_nat l) addrs) (take (Z.to_nat l) buf) x) as Em1.
  { unfold m1. cbn [cpu_physical_memory_write_rom set_ram gm_ram]. apply write_rom_ram; [by apply wrap_range|done|rewrite !length_take; lia|lia]. }
  destruct (trace_access_spec true a (take (Z.to_nat l) buf) (Z.of_nat (length addrs)) m1 Hs) as (g' & -> & Hg). cbn [mbind outcome_bind].
  destruct (IH (set_gem g' m1) (wrap TL (a + l)) (drop (Z.to_nat l) addrs) (drop (Z.to_nat l) buf)) as (m' & E & Em & Ei & Hg');
    [apply wrap_range; lia|done|rewrite !length_drop; lia|rewrite length_drop; lia|apply Hg|].
  exists m'. split_and!; [exact E| |by rewrite Ei|].
  - intros x. rewrite Em. rewrite <- (take_drop (Z.to_nat l) addrs) at 2. rewrite <- (take_drop (Z.to_nat l) buf) at 2.
    rewrite scatter_app by (rewrite !length_take; lia). apply scatter_ext. intros y. apply Em1.
  - rewrite <- (take_drop (Z.to_nat l) buf). by eapply gem_after_app.
Qed.

Lemma virt_read_ram fuel : forall (m : gmachine (W := W)) a addrs, in_u TL a -> virt_resolves a addrs -> (length addrs < fuel)%nat ->
  steady tid (gm_gem m) ->
  exists g', virt_read io_mem_read TL PB phys_page_find cpu_get_phys_page_debug env fuel MEM_REQ_VMEM m a (Z.of_nat (length addrs))
      = Ret (0, gm_ram m <$> addrs, set_gem g' m)
    /\ gem_after false (gm_ram m <$> addrs) (gm_gem m) g'.
Proof.
  induction fuel as [|fuel IH]; intros m a addrs Ha Hr Hf Hs; [lia|]. cbn [virt_read].
  destruct (decide (addrs = [])) as [->|Hne]; [exists (gm_gem m); split; [by destruct m|by apply gem_after_nil]|].
  destruct (Z.leb_spec (Z.of_nat (length addrs)) 0); [destruct addrs; simpl in *; [done|lia]|].
  destruct (virt_resolves_page a addrs Ha Hne Hr) as (Hl & Hr' & p & Ep & Hp). rewrite Ep. set (l := page_part _ _ _ _) in *.
  assert (length (take (Z.to_nat l) addrs) = Z.to_nat l) as El by (rewrite length_take; lia).
  pose proof (phys_read_ram (S (Z.to_nat l)) m _ _ (wrap_range 64 _ ltac:(lia)) Hp ltac:(lia)) as Erd.
  rewrite El, Z2Nat.id in Erd by lia. unfold cpu_physical_memory_read. rewrite Erd. cbn [mbind outcome_bind].
  destruct (trace_access_spec false a (gm_ram m <$> take (Z.to_nat l) addrs) (Z.of_nat (length addrs)) m Hs) as (g1 & -> & Hg1). cbn [mbind outcome_bind].
  replace (Z.of_nat (length addrs) - l) with (Z.of_nat (length (drop (Z.to_nat l) addrs))) by (rewrite length_drop; lia).
  destruct (IH (set_gem g1 m) (wrap TL (a + l)) (drop (Z.to_nat l) addrs)) as (g2 & -> & Hg2);
    [apply wrap_range; lia|done|rewrite length_drop; lia|apply Hg1|].
  cbn [mbind outcome_bind gm_ram set_gem]. exists g2. rewrite <- fmap_app, take_drop. split; [done|].
  rewrite <- (take_drop (Z.to_nat l) addrs), fmap_app. by eapply gem_after_app.
Qed.

(** ** Memory as the guest sees it *)

(** The byte at a virtual address. *)
Definition guest_view (m : gmachine (W := W)) (a : Z) : Z := match virt_at a with Some x => gm_ram m x | None => 0 end.

(** No byte has two virtual addresses. *)
Definition no_alias : Prop := forall a b x, in_u TL a -> in_u TL b -> virt_at a = Some x -> virt_at b = Some x -> a = b.

Definition mapped (a : Z) (n : nat) : Prop := forall i, (i < n)%nat -> is_Some (virt_at (wrap TL (a + Z.of_nat i))).

Lemma mapped_resolves a n : mapped a n -> exists addrs, length addrs = n /\ virt_resolves a addrs.
Proof.
  intros H. exists ((fun i => default 0 (virt_at (wrap TL (a + Z.of_nat i)))) <$> seq 0 n). split; [by rewrite length_fmap, length_seq|].
  intros i x Hx. rewrite list_lookup_fmap in Hx. apply fmap_Some in Hx as (j & Hj & ->). apply lookup_seq in Hj as [-> Hj].
  destruct (H i Hj) as [y E]. cbn. by rewrite E.
Qed.

Lemma resolves_nodup a addrs : no_alias -> Z.of_nat (length addrs) <= 2 ^ TL -> virt_resolves a addrs -> NoDup addrs.
Proof.
  intros Hna Hl Hr. apply NoDup_alt. intros i j x Hi Hj. pose proof (lookup_lt_Some _ _ _ Hi). pose proof (lookup_lt_Some _ _ _ Hj).
  pose proof (Hna _ _ x (wrap_range TL _ ltac:(lia)) (wrap_range TL _ ltac:(lia)) (Hr i x Hi) (Hr j x Hj)) as E.
  assert (wrap TL (wrap TL (a + Z.of_nat i) - a) = wrap TL (wrap TL (a + Z.of_nat j) - a)) as E' by by rewrite E.
  rewrite !wrap_sub_l in E'. replace (a + Z.of_nat i - a) with (Z.of_nat i) in E' by lia. replace (a + Z.of_nat j - a) with (Z.of_nat j) in E' by lia.
  rewrite !wrap_small in E' by (unfold in_u; lia). lia.
Qed.

(** Storing at the addresses of a range is storing in the flat memory. *)
Lemma view_store (m m' : gmachine (W := W)) a addrs buf : no_alias -> Z.of_nat (length buf) <= 2 ^ TL -> length addrs = length buf -> virt_resolves a addrs ->
  (forall x, gm_ram m' x = scatter (gm_ram m) addrs buf x) ->
  forall b, in_u TL b -> is_Some (virt_at b) -> guest_view m' b = guest_store TL (guest_view m) a buf b.
Proof.
  intros Hna Hl Hlen Hr Em b Hbu [x Hx]. unfold guest_view, guest_store. rewrite Hx, Em.
  destruct (buf !! Z.to_nat (wrap TL (b - a))) as [v|] eqn:Ev.
  - pose proof (lookup_lt_Some _ _ _ Ev) as Hj. set (j := Z.to_nat _) in *. destruct (lookup_lt_is_Some_2 addrs j ltac:(lia)) as [y Hy].
    assert (y = x) as ->.
    { pose proof (Hr j y Hy) as Hv. unfold j in Hv. rewrite Z2Nat.id in Hv by (apply wrap_range; lia). rewrite wrap_add_r in Hv.
      replace (a + (b - a)) with b in Hv by lia. rewrite wrap_small in Hv by done. congruence. }
    pose proof (scatter_gather addrs buf (gm_ram m) (resolves_nodup a addrs Hna ltac:(lia) Hr) Hlen) as Hg'.
    apply (f_equal (fun l => l !! j)) in Hg'. rewrite list_lookup_fmap, Hy, Ev in Hg'. by injection Hg'.
  - apply scatter_out. intros (i & Hi)%list_elem_of_lookup. pose proof (lookup_lt_Some _ _ _ Hi).
    pose proof (Hna _ _ x (wrap_range TL _ ltac:(lia)) Hbu (Hr i x Hi) Hx) as <-. rewrite wrap_sub_l in Ev.
    replace (a + Z.of_nat i - a) with (Z.of_nat i) in Ev by lia. rewrite wrap_small, Nat2Z.id in Ev by (unfold in_u; lia).
    apply lookup_ge_None in Ev. lia.
Qed.

(** Loading from them is loading from the flat memory. *)
Lemma view_load (m : gmachine (W := W)) a addrs : (forall x, in_u 8 (gm_ram m x)) -> virt_resolves a addrs ->
  guest_bytes TL (guest_view m) a (Z.of_nat (length addrs)) = gm_ram m <$> addrs.
Proof.
  intros Hb Hr. apply list_eq. intros i. unfold guest_bytes. rewrite !list_lookup_fmap, Nat2Z.id. destruct (addrs !! i) as [x|] eqn:E.
  - pose proof (lookup_lt_Some _ _ _ E). rewrite lookup_seq_lt by lia. cbn. unfold guest_view. rewrite (Hr i x E), wrap_small; [done|apply Hb].
  - apply lookup_ge_None in E. by rewrite lookup_seq_ge by lia.
Qed.

(** C6: Devices that reach into the guest's memory page by page, through the
    guest's page tables and the table of physical pages, act on one flat
    memory: where all bytes are mapped to RAM or ROM and none twice, a store
    of [buf] is [guest_store] on what the guest sees, and a load gives
    [guest_bytes] of it, which is what the goldfish devices are modelled with.
    The tracer prints the bytes exactly when the running thread is traced. *)
Theorem guest_memory_is_flat (m : gmachine (W := W)) a buf :
  in_u TL a -> Z.of_nat (length buf) <= 2 ^ TL -> mapped a (length buf) -> no_alias -> (forall x, in_u 8 (gm_ram m x)) -> steady tid (gm_gem m) ->
  (exists m', safe_memory_write TL PB phys_page_find cpu_get_phys_page_debug env m a buf (Z.of_nat (length buf)) = Ret (0, m')
     /\ (forall b, in_u TL b -> is_Some (virt_at b) -> guest_view m' b = guest_store TL (guest_view m) a buf b)
     /\ gm_io m' = gm_io m /\ gem_after true buf (gm_gem m) (gm_gem m'))
  /\ (exists g', let bs := guest_bytes TL (guest_view m) a (Z.of_nat (length buf)) in
       safe_memory_read io_mem_read TL PB phys_page_find cpu_get_phys_page_debug env m a (Z.of_nat (length buf)) = Ret (0, bs, set_gem g' m)
       /\ gem_after false bs (gm_gem m) g').
Proof.
  intros Ha Hl Hm Hna Hb Hs. destruct (mapped_resolves a _ Hm) as (addrs & Hlen & Hr). split.
  - unfold safe_memory_write. rewrite Nat2Z.id, firstn_all.
    destruct (virt_write_ram (S (length buf)) m a addrs buf Ha Hr Hlen ltac:(lia) Hs) as (m' & -> & Em & Ei & Hg).
    exists m'. split_and!; [done| |done|done]. by apply (view_store m m' a addrs).
  - rewrite <- Hlen, (view_load m a addrs Hb Hr). unfold safe_memory_read. apply virt_read_ram; [done|done|lia|done].
Qed.

End Pages.

(** Two virtual pages that are apart in physical memory. *)
Definition example_translation (page : Z) : option Z := if page =? 0x1000 then Some 0x5000 else if page =? 0x2000 then Some 0x3000 else None.
Definition example_pages (n : Z) : option PhysPageDesc := Some (mkPage (n .<< 12) 0).
Definition example_machine : gmachine (W := unit) :=
  mkGM (fun _ => 0) tt (with_pids (1234 :: replicate 9999 0) 1 (gem_init example_tracer)).

Lemma example_virt_at a : virt_at 12 example_pages example_translation a =
  if a .>> 12 =? 1 then Some (a + 0x4000) else if a .>> 12 =? 2 then Some (a + 0x1000) else None.
Proof.
  unfold virt_at, example_translation. rewrite land_page, land_off by lia. rewrite Z.shiftr_div_pow2 by lia. change (2 ^ 12) with 4096.
  pose proof (Z.div_mod a 4096 ltac:(lia)) as Hd. pose proof (Z.mod_pos_bound a 4096 ltac:(lia)) as Hm.
  assert (forall p, p mod 4096 = 0 -> 0 <= p < 65536 -> ram_at 12 example_pages (u64 (p + a mod 4096)) = Some (p + a mod 4096)) as Hra.
  { intros p Hp Hpr. rewrite wrap_small by (unfold in_u; lia). unfold ram_at, page_desc, example_pages. cbn [phys_offset]. rewrite !land_page by lia. rewrite land_off by lia.
    change (2 ^ 12) with 4096. assert ((p + a mod 4096) mod 4096 = a mod 4096) as E by (rewrite Zplus_mod, Hp, Z.mod_mod by lia; rewrite Z.add_0_l; apply Z.mod_mod; lia).
    rewrite E. replace (p + a mod 4096 - a mod 4096) with p by lia. rewrite Z.shiftr_div_pow2, Z.shiftl_mul_pow2 by lia. change (2 ^ 12) with 4096.
    assert (p / 4096 * 4096 = p) as Ep by (pose proof (Z.div_mod p 4096 ltac:(lia)); lia). rewrite Ep, Hp.
    unfold is_mem. rewrite land_off by lia. change (2 ^ 12) with 4096. rewrite Hp. cbn. f_equal. lia. }
  destruct (Z.eqb_spec (a - a mod 4096) 4096), (Z.eqb_spec (a / 4096) 1); try lia; cbn [mbind option_bind].
  - rewrite Hra by (done || lia). f_equal. lia.
  - destruct (Z.eqb_spec (a - a mod 4096) 8192), (Z.eqb_spec (a / 4096) 2); try lia; [|done]. cbn [mbind option_bind].
    rewrite Hra by (done || lia). f_equal. lia.
Qed.

Lemma example_machine_steady : steady (tid (example_regs 1234 0)) (gm_gem example_machine).
Proof.
  constructor; [|vm_compute; reflexivity|vm_compute; congruence|].
  - pose proof example_gem_ok as [H1 H2 H3 H4 H5 _]. constructor; [exact H1|exact H2|exact H3|exact H4|exact H5|done].
  - change (tid (example_regs 1234 0)) with 1234. change (Z.to_nat (allPidsLength (gm_gem example_machine))) with 1%nat. set_solver.
Qed.

Lemma example_no_alias : no_alias 32 12 example_pages example_translation.
Proof.
  intros a b x Ha Hb. rewrite !example_virt_at, !Z.shiftr_div_pow2 by lia. change (2 ^ 12) with 4096.
  pose proof (Z.div_mod a 4096 ltac:(lia)). pose proof (Z.mod_pos_bound a 4096 ltac:(lia)). pose proof (Z.div_mod b 4096 ltac:(lia)). pose proof (Z.mod_pos_bound b 4096 ltac:(lia)).
  repeat case_match; intros [= <-] [= E]; repeat match goal with H : (_ =? _) = true |- _ => apply Z.eqb_eq in H end; lia.
Qed.

Lemma example_mapped a n : 0x1000 <= a -> a + Z.of_nat n <= 0x3000 -> mapped 32 12 example_pages example_translation a n.
Proof.
  intros Ha Hn i Hi. rewrite wrap_small by (unfold in_u; lia). rewrite example_virt_at, Z.shiftr_div_pow2 by lia. change (2 ^ 12) with 4096.
  pose proof (Z.div_mod (a + Z.of_nat i) 4096 ltac:(lia)). pose proof (Z.mod_pos_bound (a + Z.of_nat i) 4096 ltac:(lia)).
  destruct (Z.eqb_spec ((a + Z.of_nat i) / 4096) 1); [by eexists|]. destruct (Z.eqb_spec ((a + Z.of_nat i) / 4096) 2); [by eexists|]. lia.
Qed.

(** Four bytes across the boundary of the two pages. *)
Lemma guest_memory_is_flat_witness :
  exists m', safe_memory_write 32 12 example_pages example_translation (example_regs 1234 0) example_machine 0x1ffe [10; 11; 12; 13] 4 = Ret (0, m')
    /\ guest_view 12 example_pages example_translation m' 0x2001 = 13
    /\ exists lines, g_out (gm_gem m') = lines /\ concat (line_text <$> lines) = [97; 98; 99; 100].
Proof.
  destruct (guest_memory_is_flat (W := unit) (fun _ _ _ w => (0, w)) 32 12 example_pages example_translation (example_regs 1234 0)
    ltac:(lia) ltac:(lia) example_machine 0x1ffe [10; 11; 12; 13]) as [(m' & E & Hv & _ & Hg) _].
  - unfold in_u. lia.
  - simpl. lia.
  - apply example_mapped; simpl; lia.
  - exact example_no_alias.
  - intros x. cbn. unfold in_u. lia.
  - exact example_machine_steady.
  - exists m'. split; [exact E|]. split.
    + rewrite Hv; [vm_compute; reflexivity|unfold in_u; lia|rewrite example_virt_at; by eexists].
    + destruct Hg as [_ _ _ _ (lines & Eo & Ex & _)]. exists lines. split; [exact Eo|]. rewrite Ex. rewrite bool_decide_true; [reflexivity|]. by left.
Defined.
