(* ===== verification/Block.v ===== *)
(** The synchronous part of the block layer, block.c: requests for sectors and
    for bytes, their checks, the size of a drive, dirty tracking, and the
    interface of the drivers behind it. *)
From S2P Require Import Prelude QemuFile HostFile.
Open Scope list_scope.

Definition BDRV_SECTOR_BITS : Z := 9.
Definition BDRV_SECTOR_SIZE : Z := 1 .<< BDRV_SECTOR_BITS.
Definition BDRV_SECTORS_PER_DIRTY_CHUNK : Z := 2048.

Definition BDRV_O_RDWR : Z := 0x0002.
Definition BDRV_O_SNAPSHOT : Z := 0x0008.
Definition BDRV_O_NOCACHE : Z := 0x0020.
Definition BDRV_O_NO_BACKING : Z := 0x0100.

Definition EACCES : Z := 13.
Definition EBUSY : Z := 16.
Definition ENOTSUP : Z := 95.
Definition ENOMEDIUM : Z := 123.

(** A drive. [D] is what its driver keeps: [opaque], and the drive [file] it is
    layered on; [bs_drv] is [None] without a medium. The dirty bitmap is the
    whole words of what was allocated. *)
Record BlockDriverState (D : Type) := mkBs {
  total_sectors : Z;
  read_only : bool;
  bs_locked : bool;
  tray_open : bool;
  bs_sg : bool;
  probed : bool;
  growable : bool;
  wr_highest_sector : Z;
  dirty_bitmap : option (list Z);
  dirty_count : Z;
  bs_drv : option D;
}.
Arguments mkBs {D} _ _ _ _ _ _ _ _ _ _ _.
Arguments total_sectors {D} _.
Arguments read_only {D} _.
Arguments bs_locked {D} _.
Arguments tray_open {D} _.
Arguments bs_sg {D} _.
Arguments probed {D} _.
Arguments growable {D} _.
Arguments wr_highest_sector {D} _.
Arguments dirty_bitmap {D} _.
Arguments dirty_count {D} _.
Arguments bs_drv {D} _.

Section Setters.
Context {D : Type}.
Implicit Type bs : BlockDriverState D.

Definition set_total (v : Z) bs : BlockDriverState D :=
  mkBs v (read_only bs) (bs_locked bs) (tray_open bs) (bs_sg bs) (probed bs) (growable bs) (wr_highest_sector bs) (dirty_bitmap bs) (dirty_count bs) (bs_drv bs).
Definition set_tray (v : bool) bs : BlockDriverState D :=
  mkBs (total_sectors bs) (read_only bs) (bs_locked bs) v (bs_sg bs) (probed bs) (growable bs) (wr_highest_sector bs) (dirty_bitmap bs) (dirty_count bs) (bs_drv bs).
Definition set_lock (v : bool) bs : BlockDriverState D :=
  mkBs (total_sectors bs) (read_only bs) v (tray_open bs) (bs_sg bs) (probed bs) (growable bs) (wr_highest_sector bs) (dirty_bitmap bs) (dirty_count bs) (bs_drv bs).
Definition set_grow (v : bool) bs : BlockDriverState D :=
  mkBs (total_sectors bs) (read_only bs) (bs_locked bs) (tray_open bs) (bs_sg bs) (probed bs) v (wr_highest_sector bs) (dirty_bitmap bs) (dirty_count bs) (bs_drv bs).
Definition set_highest (v : Z) bs : BlockDriverState D :=
  mkBs (total_sectors bs) (read_only bs) (bs_locked bs) (tray_open bs) (bs_sg bs) (probed bs) (growable bs) v (dirty_bitmap bs) (dirty_count bs) (bs_drv bs).
Definition set_dirty (m : option (list Z)) (n : Z) bs : BlockDriverState D :=
  mkBs (total_sectors bs) (read_only bs) (bs_locked bs) (tray_open bs) (bs_sg bs) (probed bs) (growable bs) (wr_highest_sector bs) m n (bs_drv bs).
Definition set_drv (d : D) bs : BlockDriverState D :=
  mkBs (total_sectors bs) (read_only bs) (bs_locked bs) (tray_open bs) (bs_sg bs) (probed bs) (growable bs) (wr_highest_sector bs) (dirty_bitmap bs) (dirty_count bs) (Some d).
End Setters.

(** What a driver provides, with [None] for what it leaves out. A buffer is its
    address and its bytes; reading gives the bytes it has afterwards. *)
Class BlockDriver (D : Type) := {
  drv_read : BlockDriverState D -> Z -> Z -> list Z -> Z -> outcome (Z * list Z * BlockDriverState D);
  drv_write : BlockDriverState D -> Z -> Z -> list Z -> Z -> outcome (Z * BlockDriverState D);
  drv_getlength : option (BlockDriverState D -> Z);
  drv_truncate : option (BlockDriverState D -> Z -> Z * BlockDriverState D);
  drv_is_inserted : option (BlockDriverState D -> bool);
  drv_eject : option (BlockDriverState D -> bool -> Z * BlockDriverState D);
  drv_set_locked : option (BlockDriverState D -> bool -> BlockDriverState D);
}.

Section Block.
Context {D : Type} `{BlockDriver D}.
Implicit Type bs : BlockDriverState D.

(** ** Size and medium *)

Definition bdrv_getlength bs : Z :=
  match bs_drv bs with
  | None => - ENOMEDIUM
  | Some _ =>
      match growable bs, drv_getlength with
      | true, Some f => f bs
      | _, _ => s64 (total_sectors bs * BDRV_SECTOR_SIZE)
      end
  end.

(** A number of sectors. *)
Definition bdrv_get_geometry bs : Z :=
  let length := bdrv_getlength bs in if length <? 0 then 0 else length .>> BDRV_SECTOR_BITS.

Definition refresh_total_sectors bs (hint : Z) : Z * BlockDriverState D :=
  if bs_sg bs then (0, bs)
  else
    match drv_getlength with
    | Some f => let length := f bs in if length <? 0 then (s32 length, bs) else (0, set_total (length .>> BDRV_SECTOR_BITS) bs)
    | None => (0, set_total hint bs)
    end.

Definition bdrv_is_read_only bs : bool := read_only bs.

Definition bdrv_is_inserted bs : bool :=
  match bs_drv bs with
  | None => false
  | Some _ => match drv_is_inserted with None => negb (tray_open bs) | Some f => f bs end
  end.

Definition bdrv_eject bs (eject_flag : bool) : Z * BlockDriverState D :=
  if bs_locked bs then (- EBUSY, bs)
  else
    let '(ret, bs) := match bs_drv bs, drv_eject with Some _, Some f => f bs eject_flag | _, _ => (- ENOTSUP, bs) end in
    let ret := if ret =? - ENOTSUP then 0 else ret in
    (ret, if 0 <=? ret then set_tray eject_flag bs else bs).

Definition bdrv_set_locked bs (locked : bool) : BlockDriverState D :=
  let bs := set_lock locked bs in
  match bs_drv bs, drv_set_locked with Some _, Some f => f bs locked | _, _ => bs end.

Definition bdrv_truncate bs (offset : Z) : Z * BlockDriverState D :=
  match bs_drv bs, drv_truncate with
  | None, _ => (- ENOMEDIUM, bs)
  | _, None => (- ENOTSUP, bs)
  | _, Some f =>
      if read_only bs then (- EACCES, bs)
      else
        let '(ret, bs) := f bs offset in
        if ret =? 0 then refresh_total_sectors bs (offset .>> BDRV_SECTOR_BITS) else (ret, bs)
  end.

(** ** Opening *)

Definition bdrv_new : BlockDriverState D := mkBs 0 false false false false false false 0 None 0 None.

(** [open] opens the file and the format; it gives the driver's state and
    whether it is a SCSI device, or an error. *)
Definition bdrv_open_common bs (flags : Z) (is_temporary : bool) (open : Z -> Z + D * bool) : Z * BlockDriverState D :=
  let open_flags := flags .& .~ (BDRV_O_SNAPSHOT .| BDRV_O_NO_BACKING) in
  let open_flags := if is_temporary then open_flags .| BDRV_O_RDWR else open_flags in
  let bs := set_total 0 bs in
  let failed ret := (ret, mkBs (total_sectors bs) (read_only bs) (bs_locked bs) (tray_open bs) (bs_sg bs) (probed bs) (growable bs)
                            (wr_highest_sector bs) (dirty_bitmap bs) (dirty_count bs) None) in
  match open open_flags with
  | inl ret => failed ret
  | inr (d, sg) =>
      let bs := mkBs (total_sectors bs) (negb (nz (open_flags .& BDRV_O_RDWR))) (bs_locked bs) (tray_open bs) sg (probed bs) (growable bs)
                  (wr_highest_sector bs) (dirty_bitmap bs) (dirty_count bs) (Some d) in
      let '(ret, bs') := refresh_total_sectors bs (total_sectors bs) in
      if ret <? 0 then failed ret else (0, bs')
  end.

(** ** Requests for sectors *)

Definition bdrv_check_byte_request bs (offset size : Z) : Z :=
  if negb (bdrv_is_inserted bs) then - ENOMEDIUM
  else if growable bs then 0
  else
    let len := bdrv_getlength bs in
    if offset <? 0 then - EIO
    else if (len <? offset) || (u64 (len - offset) <? size) then - EIO
    else 0.

Definition bdrv_check_request bs (sector_num nb_sectors : Z) : Z :=
  bdrv_check_byte_request bs (s64 (sector_num * BDRV_SECTOR_SIZE)) (u64 (nb_sectors * BDRV_SECTOR_SIZE)).

Definition bdrv_read bs (sector_num ba : Z) (buf : list Z) (nb_sectors : Z) : outcome (Z * list Z * BlockDriverState D) :=
  match bs_drv bs with
  | None => Ret (- ENOMEDIUM, buf, bs)
  | Some _ =>
      if nz (bdrv_check_request bs sector_num nb_sectors) then Ret (- EIO, buf, bs)
      else drv_read bs sector_num ba buf nb_sectors
  end.

(** The loop of [set_dirty_bitmap] over [n] chunks; the mask is an [int], which
    has no bit 31 and above to shift to. *)
Fixpoint dirty_loop (n : nat) (start : Z) (dirty : bool) (map : list Z) (count : Z) : outcome (list Z * Z) :=
  match n with
  | O => Ret (map, count)
  | S n =>
      let idx := u64 start / 64 in
      let bit := u64 start mod 64 in
      match map !! Z.to_nat idx with
      | None => OutOfBounds
      | Some val =>
          if 31 <=? bit then SignedOverflow
          else
            let isset := nz (val .& (1 .<< bit)) in
            let '(val, count) :=
              if dirty then if negb isset then (val .| (1 .<< bit), count + 1) else (val, count)
              else if isset then (val .& u64 (.~ (1 .<< bit)), count - 1) else (val, count) in
            dirty_loop n (start + 1) dirty (<[Z.to_nat idx := val]> map) count
      end
  end.

Definition set_dirty_bitmap bs (sector_num nb_sectors : Z) (dirty : bool) : outcome (BlockDriverState D) :=
  match dirty_bitmap bs with
  | None => OutOfBounds
  | Some map =>
      let start := Z.quot sector_num BDRV_SECTORS_PER_DIRTY_CHUNK in
      let last := Z.quot (sector_num + nb_sectors - 1) BDRV_SECTORS_PER_DIRTY_CHUNK in
      '(map, count) ← dirty_loop (Z.to_nat (last - start + 1)) start dirty map (dirty_count bs);
      Ret (set_dirty (Some map) count bs)
  end.

Definition bdrv_write bs (sector_num ba : Z) (buf : list Z) (nb_sectors : Z) : outcome (Z * BlockDriverState D) :=
  match bs_drv bs with
  | None => Ret (- ENOMEDIUM, bs)
  | Some _ =>
      if read_only bs then Ret (- EACCES, bs)
      else if nz (bdrv_check_request bs sector_num nb_sectors) then Ret (- EIO, bs)
      else
        bs ← (match dirty_bitmap bs with Some _ => set_dirty_bitmap bs sector_num nb_sectors true | None => Ret bs end);
        let last := u64 (sector_num + nb_sectors - 1) in
        let bs := if wr_highest_sector bs <? last then set_highest last bs else bs in
        drv_write bs sector_num ba buf nb_sectors
  end.

(** ** Dirty tracking *)

Definition bdrv_set_dirty_tracking bs (enable : bool) : BlockDriverState D :=
  if enable then
    match dirty_bitmap bs with
    | Some m => set_dirty (Some m) 0 bs
    | None =>
        let bitmap_size := Z.quot ((bdrv_getlength bs .>> BDRV_SECTOR_BITS) + BDRV_SECTORS_PER_DIRTY_CHUNK * 8 - 1) (BDRV_SECTORS_PER_DIRTY_CHUNK * 8) in
        set_dirty (Some (replicate (Z.to_nat (bitmap_size / 8)) 0)) 0 bs
    end
  else set_dirty None 0 bs.

Definition bdrv_get_dirty bs (sector : Z) : outcome Z :=
  let chunk := Z.quot sector BDRV_SECTORS_PER_DIRTY_CHUNK in
  match dirty_bitmap bs with
  | Some map =>
      if s64 (sector .<< BDRV_SECTOR_BITS) <? bdrv_getlength bs then
        match map !! Z.to_nat (u64 chunk / 64) with
        | None => OutOfBounds
        | Some val => let bit := u64 chunk mod 64 in if 31 <=? bit then SignedOverflow else Ret (val .& (1 .<< bit))
        end
      else Ret 0
  | None => Ret 0
  end.

Definition bdrv_reset_dirty bs (cur_sector nr_sectors : Z) : outcome (BlockDriverState D) := set_dirty_bitmap bs cur_sector nr_sectors false.

Definition bdrv_get_dirty_count bs : Z := dirty_count bs.

(** ** Requests for bytes *)

(** [tmp_addr] is where the local [tmp_buf] is and [junk] what it holds on
    entry. *)
Context (tmp_addr : Z) (junk : list Z).

(** The bytes of the last sector; [done] bytes of [buf] are read already. *)
Definition pread_tail bs (sector_num : Z) (tmp buf : list Z) (done count count1 : Z) : outcome (Z * list Z * BlockDriverState D) :=
  if 0 <? count then
    '(ret, tmp, bs) ← bdrv_read bs sector_num tmp_addr tmp 1;
    if ret <? 0 then Ret (ret, buf, bs) else Ret (count1, blit buf done (range tmp 0 count), bs)
  else Ret (count1, buf, bs).

(** The sectors in between, read in place. *)
Definition pread_sectors bs (sector_num : Z) (tmp : list Z) (ba : Z) (buf : list Z) (done count count1 : Z) : outcome (Z * list Z * BlockDriverState D) :=
  let nb_sectors := count .>> BDRV_SECTOR_BITS in
  if 0 <? nb_sectors then
    '(ret, part, bs) ← bdrv_read bs sector_num (ba + done) (drop (Z.to_nat done) buf) nb_sectors;
    let buf := take (Z.to_nat done) buf ++ part in
    if ret <? 0 then Ret (ret, buf, bs)
    else
      let len := nb_sectors .<< BDRV_SECTOR_BITS in
      pread_tail bs (sector_num + nb_sectors) tmp buf (done + len) (count - len) count1
  else pread_tail bs sector_num tmp buf done count count1.

Definition bdrv_pread bs (offset ba : Z) (buf : list Z) (count1 : Z) : outcome (Z * list Z * BlockDriverState D) :=
  let len := Z.min (u64 (BDRV_SECTOR_SIZE - offset) .& (BDRV_SECTOR_SIZE - 1)) count1 in
  let sector_num := offset .>> BDRV_SECTOR_BITS in
  if 0 <? len then
    '(ret, tmp, bs) ← bdrv_read bs sector_num tmp_addr junk 1;
    if ret <? 0 then Ret (ret, buf, bs)
    else
      let buf := blit buf 0 (range tmp (offset .& (BDRV_SECTOR_SIZE - 1)) len) in
      if count1 - len =? 0 then Ret (count1, buf, bs)
      else pread_sectors bs (sector_num + 1) tmp ba buf len (count1 - len) count1
  else pread_sectors bs sector_num junk ba buf 0 count1 count1.

(** One sector is read, changed from [at_] on and written back. *)
Definition rmw_sector bs (sector_num : Z) (tmp : list Z) (at_ : Z) (bytes : list Z) : outcome (Z * list Z * BlockDriverState D) :=
  '(ret, tmp, bs) ← bdrv_read bs sector_num tmp_addr tmp 1;
  if ret <? 0 then Ret (ret, tmp, bs)
  else
    let tmp := blit tmp at_ bytes in
    '(ret, bs) ← bdrv_write bs sector_num tmp_addr tmp 1; Ret (ret, tmp, bs).

Definition pwrite_tail bs (sector_num : Z) (tmp buf : list Z) (count1 : Z) : outcome (Z * BlockDriverState D) :=
  if 0 <? Z.of_nat (length buf) then
    '(ret, _, bs) ← rmw_sector bs sector_num tmp 0 buf;
    if ret <? 0 then Ret (ret, bs) else Ret (count1, bs)
  else Ret (count1, bs).

(** [buf] is what is still to write. *)
Definition pwrite_sectors bs (sector_num : Z) (tmp : list Z) (ba : Z) (buf : list Z) (count1 : Z) : outcome (Z * BlockDriverState D) :=
  let nb_sectors := Z.of_nat (length buf) .>> BDRV_SECTOR_BITS in
  if 0 <? nb_sectors then
    '(ret, bs) ← bdrv_write bs sector_num ba buf nb_sectors;
    if ret <? 0 then Ret (ret, bs)
    else pwrite_tail bs (sector_num + nb_sectors) tmp (drop (Z.to_nat (nb_sectors .<< BDRV_SECTOR_BITS)) buf) count1
  else pwrite_tail bs sector_num tmp buf count1.

(** [count1] is the number of bytes of [buf]. *)
Definition bdrv_pwrite bs (offset ba : Z) (buf : list Z) : outcome (Z * BlockDriverState D) :=
  let count1 := Z.of_nat (length buf) in
  let len := Z.min (u64 (BDRV_SECTOR_SIZE - offset) .& (BDRV_SECTOR_SIZE - 1)) count1 in
  let sector_num := offset .>> BDRV_SECTOR_BITS in
  if 0 <? len then
    '(ret, tmp, bs) ← rmw_sector bs sector_num junk (offset .& (BDRV_SECTOR_SIZE - 1)) (take (Z.to_nat len) buf);
    if ret <? 0 then Ret (ret, bs)
    else if count1 - len =? 0 then Ret (count1, bs)
    else pwrite_sectors bs (sector_num + 1) tmp (ba + len) (drop (Z.to_nat len) buf) count1
  else pwrite_sectors bs sector_num junk ba buf count1.

(** Without the flush, which does not change a drive. *)
Definition bdrv_pwrite_sync bs (offset ba : Z) (buf : list Z) : outcome (Z * BlockDriverState D) :=
  '(ret, bs) ← bdrv_pwrite bs offset ba buf; Ret (if ret <? 0 then ret else 0, bs).
Definition bdrv_write_sync bs (sector_num ba : Z) (buf : list Z) (nb_sectors : Z) : outcome (Z * BlockDriverState D) :=
  bdrv_pwrite_sync bs (s64 (BDRV_SECTOR_SIZE * sector_num)) ba (take (Z.to_nat (s32 (BDRV_SECTOR_SIZE * nb_sectors))) buf).

End Block.
