(* ===== verification/BlockRaw.v ===== *)
(** Two drivers of the block layer: files of the host, block/raw-posix.c, and
    the raw format on top of any driver, block/raw.c. *)
From S2P Require Import Prelude QemuFile HostFile Block.
Open Scope list_scope.

(** ** Files of the host *)

Definition ENOSPC : Z := 28.
Definition ALIGNED_BUFFER_SIZE : Z := 32 * 512.

(** A regular file; [aligned_buf] is allocated when it is opened with
    [O_DIRECT]. *)
Record BDRVRawState := mkRawState { raw_fd : hfile; aligned_buf : option (list Z) }.

Definition with_file (f : hfile) (s : BDRVRawState) : BDRVRawState := mkRawState f (aligned_buf s).
Definition with_aligned (b : list Z) (s : BDRVRawState) : BDRVRawState := mkRawState (raw_fd s) (Some b).

(** The system calls, with the error in place of -1. A size that is negative as
    an [int] is larger than any buffer. *)
Definition pread (f : hfile) (count offset : Z) : outcome (Z * list Z) :=
  if count <? 0 then OutOfBounds
  else if offset <? 0 then Ret (- EINVAL, [])
  else let bs := range (f_bytes f) offset count in Ret (Z.of_nat (length bs), bs).

Definition pwrite (f : hfile) (bs : list Z) (offset : Z) : Z * hfile :=
  if offset <? 0 then (- EINVAL, f)
  else
    let k := Z.min (Z.of_nat (length bs)) (Z.max 0 (f_room f - offset)) in
    if (k =? 0) && negb (Z.of_nat (length bs) =? 0) then (- ENOSPC, f)
    else if k =? 0 then (0, f)
    else (k, mkFile (image_put (f_bytes f) offset (take (Z.to_nat k) bs)) (f_pos f) (f_room f)).

Section File.
Abbreviation bdrv := (BlockDriverState BDRVRawState).

(** The driver's functions are called with a driver only. *)
Definition raw_state (bs : bdrv) : BDRVRawState := default (mkRawState (mkFile [] 0 0) None) (bs_drv bs).

Definition file_getlength (bs : bdrv) : Z := f_size (raw_fd (raw_state bs)).

Definition file_truncate (bs : bdrv) (offset : Z) : Z * bdrv :=
  if offset <? 0 then (- EINVAL, bs)
  else let '(_, f) := do_ftruncate (raw_fd (raw_state bs)) offset in (0, set_drv (with_file f (raw_state bs)) bs).

(** The bytes go to the start of [buf]. *)
Definition raw_pread_aligned (bs : bdrv) (offset : Z) (buf : list Z) (count : Z) : outcome (Z * list Z) :=
  '(ret, bytes) ← pread (raw_fd (raw_state bs)) count offset;
  if ret =? count then Ret (ret, blit buf 0 bytes)
  else if (ret =? 0) && growable bs && (file_getlength bs <=? offset) then Ret (count, blit buf 0 (replicate (Z.to_nat count) 0))
  else Ret (ret, blit buf 0 bytes).

Definition raw_pwrite_aligned (bs : bdrv) (offset : Z) (buf : list Z) : Z * bdrv :=
  let '(ret, f) := pwrite (raw_fd (raw_state bs)) buf offset in (ret, set_drv (with_file f (raw_state bs)) bs).

(** A size rounded up to sectors, at most that of the aligned buffer. *)
Definition bounce_size (size : Z) : Z := Z.min ((size + 0x1ff) .& .~ 0x1ff) ALIGNED_BUFFER_SIZE.

(** Reading through the aligned buffer [ab]. [done] bytes of [buf] are read, a
    round reads one more at least; [fuel] is one more than [count]. *)
Fixpoint raw_pread_loop (fuel : nat) (bs : bdrv) (offset : Z) (ab buf : list Z) (done count sum : Z) : outcome (Z * list Z * bdrv) :=
  match fuel with
  | O => CpuAbort
  | S fuel =>
      if count =? 0 then Ret (sum, buf, bs)
      else
        '(ret, ab) ← raw_pread_aligned bs offset ab (bounce_size count);
        let bs := set_drv (with_aligned ab (raw_state bs)) bs in
        if ret <? 0 then Ret (ret, buf, bs)
        else if ret =? 0 then CpuAbort
        else
          let size := Z.min ret count in
          raw_pread_loop fuel bs (offset + size) ab (blit buf done (range ab 0 size)) (done + size) (count - size) (sum + size)
  end.

(** What is left when the offset is aligned. *)
Definition raw_pread_rest (bs : bdrv) (offset ba : Z) (buf : list Z) (done count sum : Z) : outcome (Z * list Z * bdrv) :=
  match aligned_buf (raw_state bs) with
  | Some ab =>
      if nz (count .& 0x1ff) || nz ((ba + done) .& 0x1ff) then raw_pread_loop (S (Z.to_nat count)) bs offset ab buf done count sum
      else '(ret, part) ← raw_pread_aligned bs offset (drop (Z.to_nat done) buf) count; Ret (ret + sum, take (Z.to_nat done) buf ++ part, bs)
  | None => '(ret, part) ← raw_pread_aligned bs offset (drop (Z.to_nat done) buf) count; Ret (ret + sum, take (Z.to_nat done) buf ++ part, bs)
  end.

Definition raw_pread (bs : bdrv) (offset ba : Z) (buf : list Z) (count : Z) : outcome (Z * list Z * bdrv) :=
  match aligned_buf (raw_state bs) with
  | Some ab =>
      if nz (offset .& 0x1ff) then
        let shift := offset .& 0x1ff in
        '(ret, ab) ← raw_pread_aligned bs (offset - shift) ab (bounce_size (shift + count));
        let bs := set_drv (with_aligned ab (raw_state bs)) bs in
        if ret <? 0 then Ret (ret, buf, bs)
        else
          let size := Z.min (512 - shift) count in
          let buf := blit buf 0 (range ab shift size) in
          if count - size =? 0 then Ret (size, buf, bs)
          else raw_pread_rest bs (offset + size) ba buf size (count - size) size
      else raw_pread_rest bs offset ba buf 0 count 0
  | None => raw_pread_rest bs offset ba buf 0 count 0
  end.

Definition file_read (bs : bdrv) (sector_num ba : Z) (buf : list Z) (nb_sectors : Z) : outcome (Z * list Z * bdrv) :=
  let count := s32 (nb_sectors * BDRV_SECTOR_SIZE) in
  if (count <? 0) || (Z.of_nat (length buf) <? count) then OutOfBounds
  else
    '(ret, buf, bs) ← raw_pread bs (s64 (sector_num * BDRV_SECTOR_SIZE)) ba buf count;
    Ret (if u64 ret =? u64 (nb_sectors * BDRV_SECTOR_SIZE) then 0 else ret, buf, bs).

(** A sector through the aligned buffer: it is read, changed from [at_] on and
    written back. *)
Definition rmw_aligned (bs : bdrv) (offset : Z) (ab : list Z) (at_ : Z) (bytes : list Z) : outcome (Z * list Z * bdrv) :=
  '(ret, ab) ← raw_pread_aligned bs offset ab 512;
  if ret <? 0 then Ret (ret, ab, bs)
  else
    let ab := blit ab at_ bytes in
    let '(ret, bs) := raw_pwrite_aligned bs offset (range ab 0 512) in
    Ret (ret, ab, set_drv (with_aligned ab (raw_state bs)) bs).

(** Writing through the aligned buffer; [buf] is what is left, and [fuel] one
    more than its bytes. *)
Fixpoint raw_pwrite_loop (fuel : nat) (bs : bdrv) (offset : Z) (ab buf : list Z) (sum : Z) : outcome (Z * bdrv) :=
  match fuel with
  | O => CpuAbort
  | S fuel =>
      let count := Z.of_nat (length buf) in
      let size := Z.min (count .& .~ 0x1ff) ALIGNED_BUFFER_SIZE in
      if negb (size =? 0) then
        let ab := blit ab 0 (take (Z.to_nat size) buf) in
        let '(ret, bs) := raw_pwrite_aligned (set_drv (with_aligned ab (raw_state bs)) bs) offset (range ab 0 size) in
        if ret <? 0 then Ret (ret, bs)
        else raw_pwrite_loop fuel bs (offset + ret) ab (drop (Z.to_nat ret) buf) (sum + ret)
      else if negb (count =? 0) then
        '(ret, _, bs) ← rmw_aligned bs offset ab 0 buf;
        if ret <? 0 then Ret (ret, bs) else Ret (sum + Z.min ret count, bs)
      else Ret (sum, bs)
  end.

Definition raw_pwrite_rest (bs : bdrv) (offset ba : Z) (buf : list Z) (sum : Z) : outcome (Z * bdrv) :=
  match aligned_buf (raw_state bs) with
  | Some ab =>
      if nz (Z.of_nat (length buf) .& 0x1ff) || nz (ba .& 0x1ff) then raw_pwrite_loop (S (length buf)) bs offset ab buf sum
      else let '(ret, bs) := raw_pwrite_aligned bs offset buf in Ret (ret + sum, bs)
  | None => let '(ret, bs) := raw_pwrite_aligned bs offset buf in Ret (ret + sum, bs)
  end.

Definition raw_pwrite (bs : bdrv) (offset ba : Z) (buf : list Z) : outcome (Z * bdrv) :=
  match aligned_buf (raw_state bs) with
  | Some ab =>
      if nz (offset .& 0x1ff) then
        let shift := offset .& 0x1ff in
        let size := Z.min (512 - shift) (Z.of_nat (length buf)) in
        '(ret, _, bs) ← rmw_aligned bs (offset - shift) ab shift (take (Z.to_nat size) buf);
        if ret <? 0 then Ret (ret, bs)
        else if Z.of_nat (length buf) - size =? 0 then Ret (size, bs)
        else raw_pwrite_rest bs (offset + size) (ba + size) (drop (Z.to_nat size) buf) size
      else raw_pwrite_rest bs offset ba buf 0
  | None => raw_pwrite_rest bs offset ba buf 0
  end.

Definition file_write (bs : bdrv) (sector_num ba : Z) (buf : list Z) (nb_sectors : Z) : outcome (Z * bdrv) :=
  let count := s32 (nb_sectors * BDRV_SECTOR_SIZE) in
  if (count <? 0) || (Z.of_nat (length buf) <? count) then OutOfBounds
  else
    '(ret, bs) ← raw_pwrite bs (s64 (sector_num * BDRV_SECTOR_SIZE)) ba (take (Z.to_nat count) buf);
    Ret (if u64 ret =? u64 (nb_sectors * BDRV_SECTOR_SIZE) then 0 else ret, bs).

#[export] Instance file_driver : BlockDriver BDRVRawState := {|
  drv_read := file_read;
  drv_write := file_write;
  drv_getlength := Some file_getlength;
  drv_truncate := Some file_truncate;
  drv_is_inserted := None;
  drv_eject := None;
  drv_set_locked := None;
|}.

(** [raw_open] of a file that exists; [ab] is what the aligned buffer holds
    when it is allocated. *)
Definition file_open (f : hfile) (ab : list Z) (flags : Z) : BDRVRawState :=
  mkRawState f (if nz (flags .& BDRV_O_NOCACHE) then Some ab else None).

(** [bdrv_file_open] with the file driver. *)
Definition bdrv_file_open (f : hfile) (ab : list Z) (flags : Z) : Z * bdrv :=
  let '(ret, bs) := bdrv_open_common bdrv_new flags false (fun fl => inr (file_open f ab fl, false)) in
  if ret <? 0 then (ret, bs) else (0, set_grow true bs).
End File.

(** ** The raw format *)

Section Raw.
Context {D : Type} `{BlockDriver D}.
Abbreviation bdrv := (BlockDriverState (BlockDriverState D)).

(** The drive [file] is the driver's state. *)
Definition raw_file (bs : bdrv) : BlockDriverState D := default bdrv_new (bs_drv bs).

Definition signatures : list (list Z) := [[81; 70; 73; 0xfb]; [67; 79; 87; 68]; [86; 77; 68; 75]; [79; 79; 79; 77]].

Definition check_for_block_signature (buf : list Z) : bool := bool_decide (take 4 buf ∈ signatures).

Definition check_write_unsafe (bs : bdrv) (sector_num : Z) (buf : list Z) (nb_sectors : Z) : bool :=
  if negb (probed bs) then false
  else if (sector_num =? 0) && (0 <? nb_sectors) then check_for_block_signature buf
  else false.

Definition raw_read (bs : bdrv) (sector_num ba : Z) (buf : list Z) (nb_sectors : Z) : outcome (Z * list Z * bdrv) :=
  '(ret, buf, file) ← bdrv_read (raw_file bs) sector_num ba buf nb_sectors; Ret (ret, buf, set_drv file bs).

(** [bootsect] is a local of the function, at [tmp_addr]. *)
Definition raw_write_scrubbed_bootsect (bs : bdrv) (tmp_addr : Z) (buf : list Z) : outcome (Z * bdrv) :=
  let bootsect := blit (take 512 buf) 0 [0; 0; 0; 0] in
  '(ret, file) ← bdrv_write (raw_file bs) 0 tmp_addr bootsect 1; Ret (ret, set_drv file bs).

Definition raw_write (tmp_addr : Z) (bs : bdrv) (sector_num ba : Z) (buf : list Z) (nb_sectors : Z) : outcome (Z * bdrv) :=
  if check_write_unsafe bs sector_num buf nb_sectors then
    '(ret, bs) ← raw_write_scrubbed_bootsect bs tmp_addr buf;
    if ret <? 0 then Ret (ret, bs)
    else
      '(ret, file) ← bdrv_write (raw_file bs) 1 (ba + 512) (drop 512 buf) (nb_sectors - 1);
      let bs := set_drv file bs in
      if ret <? 0 then Ret (ret, bs) else Ret (ret + 512, bs)
  else
    '(ret, file) ← bdrv_write (raw_file bs) sector_num ba buf nb_sectors; Ret (ret, set_drv file bs).

Definition raw_getlength (bs : bdrv) : Z := bdrv_getlength (raw_file bs).
Definition raw_truncate (bs : bdrv) (offset : Z) : Z * bdrv :=
  let '(ret, file) := bdrv_truncate (raw_file bs) offset in (ret, set_drv file bs).
Definition raw_is_inserted (bs : bdrv) : bool := bdrv_is_inserted (raw_file bs).
Definition raw_eject (bs : bdrv) (eject_flag : bool) : Z * bdrv :=
  let '(ret, file) := bdrv_eject (raw_file bs) eject_flag in (ret, set_drv file bs).
Definition raw_set_locked (bs : bdrv) (locked : bool) : bdrv := set_drv (bdrv_set_locked (raw_file bs) locked) bs.

(** [tmp_addr] is where the stack puts the boot sector. *)
Definition raw_driver (tmp_addr : Z) : BlockDriver (BlockDriverState D) := {|
  drv_read := raw_read;
  drv_write := raw_write tmp_addr;
  drv_getlength := Some raw_getlength;
  drv_truncate := Some raw_truncate;
  drv_is_inserted := Some raw_is_inserted;
  drv_eject := Some raw_eject;
  drv_set_locked := Some raw_set_locked;
|}.

Definition raw_open (file : BlockDriverState D) : BlockDriverState D * bool := (file, bs_sg file).
End Raw.

Definition set_probed {D} (v : bool) (bs : BlockDriverState D) : BlockDriverState D :=
  mkBs (total_sectors bs) (read_only bs) (bs_locked bs) (tray_open bs) (bs_sg bs) v (growable bs) (wr_highest_sector bs) (dirty_bitmap bs) (dirty_count bs) (bs_drv bs).

(** A drive in the raw format on a file of the host. *)
Abbreviation disk := (BlockDriverState (BlockDriverState BDRVRawState)).

(** [bdrv_open] of a file without [BDRV_O_SNAPSHOT], when the format is raw;
    [guessed] if it was not named. *)
Definition bdrv_open (tmp_addr : Z) (f : hfile) (ab : list Z) (flags : Z) (guessed : bool) : Z * disk :=
  let '(ret, bs) := bdrv_open_common (H := raw_driver tmp_addr) bdrv_new flags false
    (fun fl => let '(ret, file) := bdrv_file_open f ab fl in if ret <? 0 then inl ret else inr (raw_open file)) in
  if ret <? 0 then (ret, bs) else (0, set_probed guessed bs).
