(* ===== verification/BlockSpec.v ===== *)
(** What the block layer promises, whichever driver is behind a drive: the laws
    of a driver, that the drivers of [BlockRaw] satisfy them, and that requests
    of any alignment act on a flat image. *)
From S2P Require Import Prelude QemuFile HostFile Block BlockRaw.
Open Scope list_scope.

(** ** The laws of a driver *)

(** What a request leaves as it is. *)
Definition frame {D} (bs bs' : BlockDriverState D) : Prop :=
  total_sectors bs' = total_sectors bs /\ read_only bs' = read_only bs /\ tray_open bs' = tray_open bs /\ probed bs' = probed bs
  /\ growable bs' = growable bs /\ (is_Some (bs_drv bs) -> is_Some (bs_drv bs')).

(** What the layer writes before it calls a driver. *)
Definition counted {D} (bs bs' : BlockDriverState D) : Prop :=
  frame bs bs' /\ bs_drv bs' = bs_drv bs.

#[export] Instance frame_refl {D} : Reflexive (@frame D).
Proof. done. Qed.
#[export] Instance frame_trans {D} : Transitive (@frame D).
Proof. intros a b c (?&?&?&?&?&?) (?&?&?&?&?&?). split_and!; (congruence || auto). Qed.

(** [drv_image] is what the drive holds. [drv_takes] says which sectors are
    written as they are, given whether the format was probed. *)
Class DriverLaws (D : Type) `{BlockDriver D} := {
  drv_ok : BlockDriverState D -> Prop;
  drv_image : BlockDriverState D -> list Z;
  drv_takes : bool -> Z -> list Z -> Prop;
  law_counted bs bs' : counted bs bs' -> drv_ok bs -> drv_ok bs' /\ drv_image bs' = drv_image bs;
  law_size bs : drv_ok bs -> Z.of_nat (length (drv_image bs)) < 2 ^ 63;
  law_inserted bs : drv_ok bs -> is_Some (bs_drv bs) /\ bdrv_is_inserted bs = true;
  law_read bs s ba buf n : drv_ok bs -> 0 <= s -> 0 <= n < 2 ^ 22 -> (s + n) * 512 <= Z.of_nat (length (drv_image bs)) ->
    n * 512 <= Z.of_nat (length buf) ->
    exists bs', drv_read bs s ba buf n = Ret (0, range (drv_image bs) (s * 512) (n * 512) ++ drop (Z.to_nat (n * 512)) buf, bs')
      /\ frame bs bs' /\ dirty_bitmap bs' = dirty_bitmap bs /\ drv_ok bs' /\ drv_image bs' = drv_image bs;
  law_write bs s ba buf n : drv_ok bs -> read_only bs = false -> 0 <= s -> 0 <= n < 2 ^ 22 -> (s + n) * 512 <= Z.of_nat (length (drv_image bs)) ->
    n * 512 <= Z.of_nat (length buf) -> drv_takes (probed bs) s buf ->
    exists bs', drv_write bs s ba buf n = Ret (0, bs') /\ frame bs bs' /\ dirty_bitmap bs' = dirty_bitmap bs
      /\ drv_ok bs' /\ drv_image bs' = image_put (drv_image bs) (s * 512) (take (Z.to_nat (n * 512)) buf);
}.

(** ** Images *)

Lemma image_put_blit img a bs : 0 <= a -> a + Z.of_nat (length bs) <= Z.of_nat (length img) -> image_put img a bs = blit img a bs.
Proof.
  intros Ha Hl. unfold image_put. case_decide as E.
  - subst. unfold blit. cbn [app length]. by rewrite Nat.add_0_r, take_drop.
  - f_equal. unfold pad_to. replace (Z.to_nat a - length img)%nat with 0%nat by lia. apply app_nil_r.
Qed.

Lemma length_image_put_in img a bs : 0 <= a -> a + Z.of_nat (length bs) <= Z.of_nat (length img) -> length (image_put img a bs) = length img.
Proof. intros Ha Hl. rewrite image_put_blit by done. unfold blit. rewrite !length_app, length_take, length_drop. lia. Qed.

Lemma blit_over (l : list Z) bs : (length bs <= length l)%nat -> blit l 0 bs = bs ++ drop (length bs) l.
Proof. intros. unfold blit. change (Z.to_nat 0) with 0%nat. by rewrite take_0. Qed.

Lemma range_lookup (l : list Z) a n i : range l a n !! i = if decide (i < Z.to_nat n)%nat then l !! (Z.to_nat a + i)%nat else None.
Proof.
  unfold range. case_decide; [by rewrite lookup_take_lt, lookup_drop|]. by rewrite lookup_take_ge by lia.
Qed.

(** A sector read, changed and written back. *)
Lemma image_put_rmw img a at_ bytes : 0 <= a -> 0 <= at_ -> at_ + Z.of_nat (length bytes) <= 512 -> a + 512 <= Z.of_nat (length img) ->
  image_put img a (blit (range img a 512) at_ bytes) = image_put img (a + at_) bytes.
Proof.
  intros Ha Hat Hb Hl. assert (length (range img a 512) = 512%nat) as Er by (pose proof (length_range img a 512); lia).
  assert (length (blit (range img a 512) at_ bytes) = 512%nat) as Eb by (pose proof (length_blit (range img a 512) at_ bytes); lia).
  rewrite !image_put_blit by lia. apply list_eq. intros i. rewrite (blit_lookup img) by lia. rewrite Eb.
  rewrite (blit_lookup img (a + at_)) by lia. rewrite blit_lookup by lia. rewrite range_lookup.
  repeat case_decide; try lia; f_equal; lia.
Qed.

Lemma range_put_other img a bs b n : 0 <= a -> a + Z.of_nat (length bs) <= Z.of_nat (length img) -> 0 <= b -> 0 <= n ->
  b + n <= a \/ a + Z.of_nat (length bs) <= b -> range (image_put img a bs) b n = range img b n.
Proof.
  intros Ha Hl Hb Hn Hd. rewrite image_put_blit by done. apply list_eq. intros i. rewrite !range_lookup. case_decide; [|done].
  rewrite blit_lookup by lia. case_decide; [lia|done].
Qed.

(** A buffer whose first [k] bytes were read from [a] on. *)
Definition filled (img : list Z) (a : Z) (buf : list Z) (k : Z) : list Z := range img a k ++ drop (Z.to_nat k) buf.

Section Filled.
Context (img buf : list Z) (a : Z) (Ha : 0 <= a).

Lemma filled_0 : filled img a buf 0 = buf.
Proof. done. Qed.

Lemma take_filled k : 0 <= k -> a + k <= Z.of_nat (length img) -> take (Z.to_nat k) (filled img a buf k) = range img a k.
Proof. intros Hk Hi. pose proof (length_range img a k). unfold filled. apply take_app_length'. lia. Qed.

Lemma drop_filled k : 0 <= k -> a + k <= Z.of_nat (length img) -> drop (Z.to_nat k) (filled img a buf k) = drop (Z.to_nat k) buf.
Proof. intros Hk Hi. pose proof (length_range img a k). unfold filled. apply drop_app_length'. lia. Qed.

Lemma length_filled k : 0 <= k <= Z.of_nat (length buf) -> a + k <= Z.of_nat (length img) -> length (filled img a buf k) = length buf.
Proof. intros Hk Hi. pose proof (length_range img a k). unfold filled. rewrite length_app, length_drop. lia. Qed.

(** Reading in place, and copying. *)
Lemma filled_in_place k m : 0 <= k -> 0 <= m -> a + k + m <= Z.of_nat (length img) ->
  take (Z.to_nat k) (filled img a buf k) ++ filled img (a + k) (drop (Z.to_nat k) (filled img a buf k)) m = filled img a buf (k + m).
Proof.
  intros Hk Hm Hi. rewrite take_filled, drop_filled by lia. unfold filled. rewrite drop_drop, app_assoc, <- range_app by lia.
  do 2 f_equal. lia.
Qed.

Lemma filled_copy k m : 0 <= k -> 0 <= m -> a + k + m <= Z.of_nat (length img) ->
  blit (filled img a buf k) k (range img (a + k) m) = filled img a buf (k + m).
Proof.
  intros Hk Hm Hi. pose proof (length_range img (a + k) m). unfold blit. rewrite <- filled_in_place by done. f_equal. unfold filled at 2. f_equal.
  rewrite drop_drop. f_equal. lia.
Qed.
End Filled.

(** ** Requests for sectors *)

Section Layer.
Context {D : Type} `{HD : DriverLaws D}.
Implicit Type bs : BlockDriverState D.

(** The bytes a request may touch. *)
Definition bdrv_limit bs : Z := if growable bs then Z.of_nat (length (drv_image bs)) else total_sectors bs * 512.

Record bdrv_ok bs : Prop := {
  ok_drv : drv_ok bs;
  ok_total : 0 <= bdrv_limit bs <= Z.of_nat (length (drv_image bs));
  ok_dirty : dirty_bitmap bs = None;
}.

(** A request that leaves [bs'] behind, with the image [img]. *)
Definition becomes bs (img : list Z) bs' : Prop := frame bs bs' /\ bdrv_ok bs' /\ drv_image bs' = img.

Lemma limit_frame bs bs' : frame bs bs' -> length (drv_image bs') = length (drv_image bs) -> bdrv_limit bs' = bdrv_limit bs.
Proof. intros (E1 & _ & _ & _ & E2 & _) E. unfold bdrv_limit. by rewrite E1, E2, E. Qed.

Lemma becomes_ok bs bs' img : bdrv_ok bs -> frame bs bs' -> drv_ok bs' -> dirty_bitmap bs' = dirty_bitmap bs -> drv_image bs' = img ->
  length img = length (drv_image bs) -> becomes bs img bs'.
Proof.
  intros [H1 H2 H3] Hf Hok Hd Hi Hl. assert (bdrv_limit bs' = bdrv_limit bs) by (apply limit_frame; [done|congruence]).
  split_and!; [done| |done]. split; [done| |congruence]. rewrite Hi, Hl. lia.
Qed.

Lemma becomes_refl bs : bdrv_ok bs -> becomes bs (drv_image bs) bs.
Proof. done. Qed.

Lemma becomes_trans bs bs1 bs2 img1 img2 : becomes bs img1 bs1 -> becomes bs1 img2 bs2 -> becomes bs img2 bs2.
Proof. intros (H1 & _) (H2 & H3). split; [by etrans|done]. Qed.

Lemma check_request_ok bs s n : drv_ok bs -> bdrv_limit bs <= Z.of_nat (length (drv_image bs)) -> 0 <= s -> 0 <= n < 2 ^ 22 -> (s + n) * 512 <= bdrv_limit bs ->
  bdrv_check_request bs s n = 0.
Proof.
  intros H1 H2 Hs Hn Hl. pose proof (law_size _ H1) as Hsz. destruct (law_inserted _ H1) as [[d Ed] Hin].
  unfold bdrv_check_request, bdrv_check_byte_request. rewrite Hin. cbn [negb]. unfold bdrv_limit, bdrv_getlength in *. rewrite Ed.
  destruct (growable bs); [done|]. change BDRV_SECTOR_SIZE with 512. rewrite !swrap_small by (unfold in_s; lia).
  rewrite !wrap_small by (unfold in_u; lia). rewrite (proj2 (Z.ltb_ge _ 0)), !(proj2 (Z.ltb_ge _ _)) by lia. done.
Qed.

Lemma bdrv_read_ok bs s ba buf n : bdrv_ok bs -> 0 <= s -> 0 <= n < 2 ^ 22 -> (s + n) * 512 <= bdrv_limit bs -> n * 512 <= Z.of_nat (length buf) ->
  exists bs', bdrv_read bs s ba buf n = Ret (0, filled (drv_image bs) (s * 512) buf (n * 512), bs') /\ becomes bs (drv_image bs) bs'.
Proof.
  intros Hok Hs Hn Hl Hb. unfold bdrv_read. rewrite check_request_ok by (done || apply Hok). destruct Hok as [H1 H2 H3].
  destruct (law_inserted _ H1) as [[d ->] _]. cbn [nz Z.eqb negb].
  destruct (law_read bs s ba buf n H1 Hs Hn ltac:(lia) Hb) as (bs' & E & Hf & Hd & Hok' & Ei). exists bs'. split; [done|].
  by apply becomes_ok.
Qed.

Lemma highest_counted bs v : counted bs (if wr_highest_sector bs <? v then set_highest v bs else bs).
Proof. by destruct (_ <? _). Qed.

Lemma bdrv_write_ok bs s ba buf n : bdrv_ok bs -> read_only bs = false -> 0 <= s -> 0 <= n < 2 ^ 22 -> (s + n) * 512 <= bdrv_limit bs ->
  n * 512 <= Z.of_nat (length buf) -> drv_takes (probed bs) s buf ->
  exists bs', bdrv_write bs s ba buf n = Ret (0, bs') /\ becomes bs (image_put (drv_image bs) (s * 512) (take (Z.to_nat (n * 512)) buf)) bs'.
Proof.
  intros Hok Hro Hs Hn Hl Hb Ht. unfold bdrv_write. rewrite check_request_ok by (done || apply Hok). pose proof Hok as [H1 H2 H3].
  destruct (law_inserted _ H1) as [[d ->] _]. rewrite Hro, H3. cbn [nz Z.eqb negb mbind outcome_bind]. set (bs0 := if _ <? _ then _ else _).
  assert (counted bs bs0 /\ dirty_bitmap bs0 = dirty_bitmap bs) as [Hc Hd0] by (unfold bs0; split; [apply highest_counted|by destruct (_ <? _)]).
  destruct (law_counted _ _ Hc H1) as [Hk0 Ei0]. pose proof (proj1 Hc) as Hf0. pose proof Hf0 as (_ & Er & _ & Ep & _ & _).
  destruct (law_write bs0 s ba buf n Hk0 ltac:(congruence) Hs Hn ltac:(rewrite Ei0; lia) Hb ltac:(by rewrite Ep)) as (bs' & E & Hf & Hd & Hok' & Ei).
  exists bs'. split; [done|]. rewrite Ei0 in Ei. apply becomes_ok; [done|by etrans|done|congruence|done|].
  apply length_image_put_in; [lia|]. rewrite length_take. lia.
Qed.
(** Bytes of whole sectors of the drive. *)
Definition in_sectors bs (offset count : Z) : Prop := 0 <= offset /\ 0 <= count < 2 ^ 31 /\ offset + count <= 512 * (bdrv_limit bs / 512).

Lemma sectors_in_limit bs : 0 <= bdrv_limit bs -> 512 * (bdrv_limit bs / 512) <= bdrv_limit bs.
Proof. intros. apply Z.mul_div_le. lia. Qed.

Lemma becomes_limit bs img bs' : becomes bs img bs' -> length img = length (drv_image bs) -> bdrv_limit bs' = bdrv_limit bs.
Proof. intros (Hf & _ & E) Hl. apply limit_frame; [done|congruence]. Qed.
End Layer.

(** ** Dirty tracking *)

(** The bitmap is sized in bytes and used in words: when a drive of up to 56 MB
    is tracked, its first write is outside of the bitmap. *)
Theorem dirty_tracking_overruns {D} `{HD : DriverLaws D} (bs : BlockDriverState D) s ba buf n : bdrv_ok bs -> read_only bs = false -> growable bs = false ->
  total_sectors bs <= 7 * 16384 -> 0 <= s -> 0 < n < 2 ^ 22 -> (s + n) * 512 <= bdrv_limit bs ->
  bdrv_write (bdrv_set_dirty_tracking bs true) s ba buf n = OutOfBounds.
Proof.
  intros [H1 H2 H3] Hro Hg Ht Hs Hn Hl. pose proof (law_inserted _ H1) as [[d Ed] _]. assert (0 <= total_sectors bs) as Ht0 by (unfold bdrv_limit in H2; rewrite Hg in H2; lia).
  assert (bdrv_set_dirty_tracking bs true = set_dirty (Some []) 0 bs) as ->.
  { unfold bdrv_set_dirty_tracking, bdrv_getlength. rewrite H3, Ed, Hg. unfold BDRV_SECTOR_SIZE, BDRV_SECTOR_BITS, BDRV_SECTORS_PER_DIRTY_CHUNK.
    change (1 .<< 9) with 512. rewrite swrap_small by (unfold in_s; lia). rewrite Z.shiftr_div_pow2 by lia. change (2 ^ 9) with 512. rewrite Z.div_mul by lia.
    rewrite Z.quot_div_nonneg by lia. rewrite (Z.div_small (_ / _)); [done|]. change (2048 * 8) with 16384. split; [apply Z.div_pos; lia|]. apply Z.div_lt_upper_bound; lia. }
  assert (counted bs (set_dirty (Some []) 0 bs)) as Hc by done. destruct (law_counted _ _ Hc H1) as [Hk Ei].
  pose proof (limit_frame _ _ (proj1 Hc) ltac:(by rewrite Ei)) as El. unfold bdrv_write. rewrite check_request_ok; [|done|rewrite El, Ei; lia|done|lia|by rewrite El]. cbn [set_dirty bs_drv read_only dirty_bitmap]. rewrite Ed, Hro. cbn [nz Z.eqb negb].
  unfold set_dirty_bitmap. cbn [dirty_bitmap set_dirty]. assert (exists k, Z.to_nat (Z.quot (s + n - 1) BDRV_SECTORS_PER_DIRTY_CHUNK - Z.quot s BDRV_SECTORS_PER_DIRTY_CHUNK + 1) = S k) as [k ->].
  { unfold BDRV_SECTORS_PER_DIRTY_CHUNK. rewrite !Z.quot_div_nonneg by lia. pose proof (Z.div_le_mono s (s + n - 1) 2048 ltac:(lia) ltac:(lia)).
    eexists (Nat.pred _). rewrite Nat.succ_pred; [done|lia]. }
  done.
Qed.

(** ** Requests for bytes *)

Lemma sector_size_512 : BDRV_SECTOR_SIZE = 512.
Proof. done. Qed.

Lemma land_511 z : z .& (BDRV_SECTOR_SIZE - 1) = z mod 512.
Proof. change (BDRV_SECTOR_SIZE - 1) with (Z.ones 9). by rewrite Z.land_ones by lia. Qed.

Lemma shiftr_9 z : z .>> BDRV_SECTOR_BITS = z / 512.
Proof. unfold BDRV_SECTOR_BITS. by rewrite Z.shiftr_div_pow2 by lia. Qed.

Lemma shiftl_9 z : z .<< BDRV_SECTOR_BITS = z * 512.
Proof. unfold BDRV_SECTOR_BITS. by rewrite Z.shiftl_mul_pow2 by lia. Qed.

Lemma to_sector_start offset : u64 (BDRV_SECTOR_SIZE - offset) .& (BDRV_SECTOR_SIZE - 1) = (- offset) mod 512.
Proof.
  rewrite land_511, sector_size_512. unfold wrap. rewrite Z.mod_mod_divide by (by exists (2 ^ 55)).
  replace (512 - offset) with (- offset + 1 * 512) by lia. by rewrite Z.mod_add by lia.
Qed.

Lemma range_filled img a buf k o c : 0 <= a -> 0 <= o -> 0 <= c -> o + c <= k -> a + k <= Z.of_nat (length img) ->
  range (filled img a buf k) o c = range img (a + o) c.
Proof.
  intros Ha Ho Hc Hk Hi. pose proof (length_range img a k). apply list_eq. intros i. rewrite !range_lookup. case_decide; [|done].
  unfold filled. rewrite lookup_app_l by lia. rewrite range_lookup, decide_True by lia. f_equal. lia.
Qed.

Section Bytes.
Context {D : Type} `{HD : DriverLaws D} (tmp_addr : Z) (junk : list Z) (Hjunk : length junk = 512%nat).
Implicit Type bs : BlockDriverState D.

Lemma pread_tail_ok bs s tmp buf offset done count count1 : bdrv_ok bs -> s * 512 = offset + done -> 0 <= offset -> 0 <= done -> 0 <= count < 512 ->
  offset + (done + count) <= 512 * (bdrv_limit bs / 512) -> length tmp = 512%nat ->
  exists bs', pread_tail tmp_addr bs s tmp (filled (drv_image bs) offset buf done) done count count1
              = Ret (count1, filled (drv_image bs) offset buf (done + count), bs') /\ becomes bs (drv_image bs) bs'.
Proof.
  intros Hok Hs Ho Hd Hc Hl Htmp. pose proof (sectors_in_limit bs (proj1 (ok_total _ Hok))). pose proof (ok_total _ Hok). unfold pread_tail.
  destruct (Z.ltb_spec 0 count).
  - destruct (bdrv_read_ok bs s tmp_addr tmp 1 Hok ltac:(lia) ltac:(lia) ltac:(lia) ltac:(lia)) as (bs' & -> & Hb).
    cbn [mbind outcome_bind Z.ltb Z.compare]. exists bs'. split; [|done]. do 3 f_equal.
    rewrite range_filled by lia. rewrite Z.add_0_r, Hs. apply filled_copy; lia.
  - exists bs. replace count with 0 by lia. rewrite Z.add_0_r. split; [done|]. by apply becomes_refl.
Qed.

Lemma pread_sectors_ok bs s tmp ba buf offset done count count1 : bdrv_ok bs -> s * 512 = offset + done -> 0 <= offset -> 0 <= done -> 0 <= count < 2 ^ 31 ->
  offset + (done + count) <= 512 * (bdrv_limit bs / 512) -> length tmp = 512%nat -> done + count <= Z.of_nat (length buf) ->
  exists bs', pread_sectors tmp_addr bs s tmp ba (filled (drv_image bs) offset buf done) done count count1
              = Ret (count1, filled (drv_image bs) offset buf (done + count), bs') /\ becomes bs (drv_image bs) bs'.
Proof.
  intros Hok Hs Ho Hd Hc Hl Htmp Hbuf. pose proof (sectors_in_limit bs (proj1 (ok_total _ Hok))). pose proof (ok_total _ Hok).
  unfold pread_sectors. rewrite shiftr_9. pose proof (Z.div_mod count 512 ltac:(lia)) as Hdm. pose proof (Z.mod_pos_bound count 512 ltac:(lia)) as Hm.
  set (nb := count / 512) in *. destruct (Z.ltb_spec 0 nb).
  - destruct (bdrv_read_ok bs s (ba + done) (drop (Z.to_nat done) (filled (drv_image bs) offset buf done)) nb Hok ltac:(lia) ltac:(lia) ltac:(lia)
      ltac:(rewrite drop_filled, length_drop by lia; lia)) as (bs1 & -> & Hb1).
    cbn [mbind outcome_bind Z.ltb Z.compare]. rewrite shiftl_9. rewrite Hs, filled_in_place by lia.
    pose proof (becomes_limit _ _ _ Hb1 eq_refl) as El. pose proof Hb1 as (Hf1 & Hok1 & Ei1). rewrite <- Ei1.
    destruct (pread_tail_ok bs1 (s + nb) tmp buf offset (done + nb * 512) (count - nb * 512) count1 Hok1) as (bs' & -> & Hb'); try lia; [by rewrite El; lia|].
    exists bs'. split; [do 4 f_equal; lia|]. by eapply becomes_trans.
  - apply pread_tail_ok; (done || lia).
Qed.

Lemma bdrv_pread_ok bs offset ba buf count : bdrv_ok bs -> in_sectors bs offset count -> count <= Z.of_nat (length buf) ->
  exists bs', bdrv_pread tmp_addr junk bs offset ba buf count = Ret (count, filled (drv_image bs) offset buf count, bs') /\ becomes bs (drv_image bs) bs'.
Proof.
  intros Hok (Ho & Hc & Hl) Hbuf. pose proof (sectors_in_limit bs (proj1 (ok_total _ Hok))). pose proof (ok_total _ Hok).
  unfold bdrv_pread. rewrite to_sector_start, land_511, shiftr_9.
  pose proof (Z.div_mod offset 512 ltac:(lia)) as Hdm. pose proof (Z.mod_pos_bound offset 512 ltac:(lia)) as Hm.
  destruct (Z.eq_dec (offset mod 512) 0) as [E0|E0].
  - rewrite (Z_mod_zero_opp_full _ _ E0). rewrite Z.min_l by lia. cbn [Z.ltb Z.compare].
    destruct (pread_sectors_ok bs (offset / 512) junk ba buf offset 0 count count) as (bs' & E & Hb); (done || lia || eauto).
  - rewrite (Z_mod_nz_opp_full _ _ E0). set (len := Z.min _ _). destruct (Z.ltb_spec 0 len).
    + destruct (bdrv_read_ok bs (offset / 512) tmp_addr junk 1 Hok ltac:(lia) ltac:(lia) ltac:(lia) ltac:(lia)) as (bs1 & -> & Hb1).
      cbn [mbind outcome_bind Z.ltb Z.compare]. rewrite range_filled by lia. replace (offset / 512 * 512 + offset mod 512) with (offset + 0) by lia.
      set (tmp' := filled _ _ junk _). assert (length tmp' = 512%nat) as Ht by (unfold tmp'; rewrite length_filled; lia). clearbody tmp'.
      cbv zeta. change (blit buf 0 ?r) with (blit (filled (drv_image bs) offset buf 0) 0 r). rewrite filled_copy by lia. rewrite Z.add_0_l.
      destruct (Z.eqb_spec (count - len) 0); [exists bs1; replace count with len by lia; done|].
      pose proof (becomes_limit _ _ _ Hb1 eq_refl) as El. pose proof Hb1 as (Hf1 & Hok1 & Ei1). rewrite <- Ei1.
      destruct (pread_sectors_ok bs1 (offset / 512 + 1) tmp' ba buf offset len (count - len) count Hok1)
        as (bs' & -> & Hb'); try lia; [by rewrite El; lia|].
      exists bs'. split; [do 4 f_equal; lia|]. by eapply becomes_trans.
    + assert (count = 0) as -> by lia. exists bs. unfold pread_sectors, pread_tail. cbn. split; [done|]. by apply becomes_refl.
Qed.

(** Every sector is written as it is. *)
Definition takes_all bs : Prop := forall s b, drv_takes (probed bs) s b.

Lemma rmw_sector_ok bs s tmp at_ bytes : bdrv_ok bs -> read_only bs = false -> takes_all bs -> 0 <= s -> (s + 1) * 512 <= bdrv_limit bs ->
  length tmp = 512%nat -> 0 <= at_ -> at_ + Z.of_nat (length bytes) <= 512 ->
  exists tmp' bs', rmw_sector tmp_addr bs s tmp at_ bytes = Ret (0, tmp', bs') /\ length tmp' = 512%nat
    /\ becomes bs (image_put (drv_image bs) (s * 512 + at_) bytes) bs'.
Proof.
  intros Hok Hro Ht Hs Hl Htmp Hat Hb. pose proof (ok_total _ Hok). unfold rmw_sector.
  destruct (bdrv_read_ok bs s tmp_addr tmp 1 Hok Hs ltac:(lia) Hl ltac:(lia)) as (bs1 & -> & Hb1). cbn [mbind outcome_bind Z.ltb Z.compare].
  pose proof (becomes_limit _ _ _ Hb1 eq_refl) as El. pose proof Hb1 as ((_ & Er & _ & Ep & _ & _) & Hok1 & Ei1).
  assert (filled (drv_image bs) (s * 512) tmp (1 * 512) = range (drv_image bs) (s * 512) 512) as ->.
  { unfold filled. rewrite drop_ge by lia. apply app_nil_r. }
  pose proof (length_range (drv_image bs) (s * 512) 512) as Lr. set (sec := blit _ at_ bytes).
  assert (length sec = 512%nat) as Ls by (unfold sec; rewrite length_blit; lia).
  destruct (bdrv_write_ok bs1 s tmp_addr sec 1 Hok1 ltac:(congruence) Hs ltac:(lia) ltac:(lia) ltac:(lia) ltac:(rewrite Ep; apply Ht)) as (bs' & -> & Hb').
  exists sec, bs'. split; [done|]. split; [done|]. rewrite take_ge in Hb' by lia. rewrite Ei1 in Hb'. unfold sec in Hb'.
  rewrite image_put_rmw in Hb' by lia. by eapply becomes_trans.
Qed.

Lemma image_put_nil img a : image_put img a [] = img.
Proof. done. Qed.

(** Two writes, the second after the first. *)
Lemma becomes_put_app bs bs1 bs2 a b1 b2 : 0 <= a -> a + Z.of_nat (length b1) <= Z.of_nat (length (drv_image bs)) ->
  becomes bs (image_put (drv_image bs) a b1) bs1 -> becomes bs1 (image_put (drv_image bs1) (a + Z.of_nat (length b1)) b2) bs2 ->
  becomes bs (image_put (drv_image bs) a (b1 ++ b2)) bs2.
Proof.
  intros Ha Hl H1 H2. pose proof H1 as (_ & _ & E1). rewrite E1, image_put_app in H2 by done. by eapply becomes_trans.
Qed.

Lemma becomes_takes bs bs' img : becomes bs img bs' -> takes_all bs -> read_only bs = false -> takes_all bs' /\ read_only bs' = false.
Proof. intros ((_ & Er & _ & Ep & _ & _) & _) Ht Hr. split; [intros s b; rewrite Ep; apply Ht|congruence]. Qed.

Lemma pwrite_tail_ok bs s tmp buf count1 : bdrv_ok bs -> read_only bs = false -> takes_all bs -> 0 <= s -> Z.of_nat (length buf) < 512 ->
  s * 512 + Z.of_nat (length buf) <= 512 * (bdrv_limit bs / 512) -> length tmp = 512%nat ->
  exists bs', pwrite_tail tmp_addr bs s tmp buf count1 = Ret (count1, bs') /\ becomes bs (image_put (drv_image bs) (s * 512) buf) bs'.
Proof.
  intros Hok Hro Ht Hs Hb Hl Htmp. pose proof (sectors_in_limit bs (proj1 (ok_total _ Hok))). unfold pwrite_tail.
  destruct (Z.ltb_spec 0 (Z.of_nat (length buf))).
  - destruct (rmw_sector_ok bs s tmp 0 buf Hok Hro Ht Hs ltac:(lia) Htmp ltac:(lia) ltac:(lia)) as (tmp' & bs' & -> & _ & Hb').
    rewrite Z.add_0_r in Hb'. cbn [mbind outcome_bind Z.ltb Z.compare]. eauto.
  - destruct buf; [|simpl in *; lia]. exists bs. split; [done|]. by apply becomes_refl.
Qed.

Lemma pwrite_sectors_ok bs s tmp ba buf count1 : bdrv_ok bs -> read_only bs = false -> takes_all bs -> 0 <= s -> Z.of_nat (length buf) < 2 ^ 31 ->
  s * 512 + Z.of_nat (length buf) <= 512 * (bdrv_limit bs / 512) -> length tmp = 512%nat ->
  exists bs', pwrite_sectors tmp_addr bs s tmp ba buf count1 = Ret (count1, bs') /\ becomes bs (image_put (drv_image bs) (s * 512) buf) bs'.
Proof.
  intros Hok Hro Ht Hs Hb Hl Htmp. pose proof (sectors_in_limit bs (proj1 (ok_total _ Hok))). pose proof (ok_total _ Hok).
  unfold pwrite_sectors. rewrite shiftr_9, shiftl_9. pose proof (Z.div_mod (Z.of_nat (length buf)) 512 ltac:(lia)) as Hdm.
  pose proof (Z.mod_pos_bound (Z.of_nat (length buf)) 512 ltac:(lia)) as Hm. set (nb := Z.of_nat (length buf) / 512) in *.
  destruct (Z.ltb_spec 0 nb); [|apply pwrite_tail_ok; (done || lia)].
  destruct (bdrv_write_ok bs s ba buf nb Hok Hro Hs ltac:(lia) ltac:(lia) ltac:(lia) (Ht _ _)) as (bs1 & -> & Hb1).
  cbn [mbind outcome_bind Z.ltb Z.compare]. set (b1 := take _ buf) in *. set (b2 := drop _ buf).
  assert (Z.of_nat (length b1) = nb * 512) as L1 by (unfold b1; rewrite length_take; lia).
  assert (Z.of_nat (length b2) = Z.of_nat (length buf) - nb * 512) as L2 by (unfold b2; rewrite length_drop; lia).
  assert (bdrv_limit bs1 = bdrv_limit bs) as El by (eapply becomes_limit; [done|apply length_image_put_in; lia]).
  destruct (becomes_takes _ _ _ Hb1 Ht Hro) as [Ht1 Hr1].
  destruct (pwrite_tail_ok bs1 (s + nb) tmp b2 count1 (proj1 (proj2 Hb1)) Hr1 Ht1) as (bs' & -> & Hb'); [lia|lia|rewrite El; lia|done|].
  exists bs'. split; [done|]. rewrite <- (take_drop (Z.to_nat (nb * 512)) buf). fold b1 b2.
  eapply (becomes_put_app bs bs1); [lia|lia|done|]. by replace (s * 512 + Z.of_nat (length b1)) with ((s + nb) * 512) by lia.
Qed.

Lemma bdrv_pwrite_ok bs offset ba buf : bdrv_ok bs -> read_only bs = false -> takes_all bs -> in_sectors bs offset (Z.of_nat (length buf)) ->
  exists bs', bdrv_pwrite tmp_addr junk bs offset ba buf = Ret (Z.of_nat (length buf), bs') /\ becomes bs (image_put (drv_image bs) offset buf) bs'.
Proof.
  intros Hok Hro Ht (Ho & Hc & Hl). pose proof (sectors_in_limit bs (proj1 (ok_total _ Hok))). pose proof (ok_total _ Hok).
  unfold bdrv_pwrite. rewrite to_sector_start, land_511, shiftr_9.
  pose proof (Z.div_mod offset 512 ltac:(lia)) as Hdm. pose proof (Z.mod_pos_bound offset 512 ltac:(lia)) as Hm.
  destruct (Z.eq_dec (offset mod 512) 0) as [E0|E0].
  - rewrite (Z_mod_zero_opp_full _ _ E0). rewrite Z.min_l by lia. cbn [Z.ltb Z.compare].
    destruct (pwrite_sectors_ok bs (offset / 512) junk ba buf (Z.of_nat (length buf))) as (bs' & E & Hb); try (done || lia).
    exists bs'. replace (offset / 512 * 512) with offset in Hb by lia. done.
  - rewrite (Z_mod_nz_opp_full _ _ E0). set (len := Z.min _ _). destruct (Z.ltb_spec 0 len).
    + set (b1 := take (Z.to_nat len) buf). set (b2 := drop (Z.to_nat len) buf).
      assert (Z.of_nat (length b1) = len) as L1 by (unfold b1; rewrite length_take; lia).
      destruct (rmw_sector_ok bs (offset / 512) junk (offset mod 512) b1 Hok Hro Ht ltac:(lia) ltac:(lia) Hjunk ltac:(lia) ltac:(lia))
        as (tmp' & bs1 & -> & Htmp & Hb1). cbn [mbind outcome_bind Z.ltb Z.compare].
      replace (offset / 512 * 512 + offset mod 512) with offset in Hb1 by lia.
      destruct (Z.eqb_spec (Z.of_nat (length buf) - len) 0) as [E|E].
      { exists bs1. split; [done|]. unfold b1 in Hb1. by rewrite take_ge in Hb1 by lia. }
      assert (Z.of_nat (length b2) = Z.of_nat (length buf) - len) as L2 by (unfold b2; rewrite length_drop; lia).
      assert (bdrv_limit bs1 = bdrv_limit bs) as El by (eapply becomes_limit; [done|apply length_image_put_in; lia]).
      destruct (becomes_takes _ _ _ Hb1 Ht Hro) as [Ht1 Hr1].
      destruct (pwrite_sectors_ok bs1 (offset / 512 + 1) tmp' (ba + len) b2 (Z.of_nat (length buf)) (proj1 (proj2 Hb1)) Hr1 Ht1) as (bs' & -> & Hb');
        [lia|lia|rewrite El; lia|done|].
      exists bs'. split; [done|]. rewrite <- (take_drop (Z.to_nat len) buf). fold b1 b2.
      eapply (becomes_put_app bs bs1); [lia|lia|done|]. by replace (offset + Z.of_nat (length b1)) with ((offset / 512 + 1) * 512) by lia.
    + destruct buf; [|simpl in *; lia]. exists bs. split; [done|]. by apply becomes_refl.
Qed.
End Bytes.

(** ** Requests one after the other *)

Inductive byte_req := ReqRead (offset ba count : Z) | ReqWrite (offset ba : Z) (bytes : list Z).

Definition req_offset (r : byte_req) : Z := match r with ReqRead o _ _ | ReqWrite o _ _ => o end.
Definition req_count (r : byte_req) : Z := match r with ReqRead _ _ n => n | ReqWrite _ _ b => Z.of_nat (length b) end.

(** Reading and writing an array of bytes: what is returned, and what is read. *)
Definition flat_req (st : list Z * list (Z * list Z)) (r : byte_req) : list Z * list (Z * list Z) :=
  let '(img, out) := st in
  match r with
  | ReqRead o _ n => (img, out ++ [(n, range img o n)])
  | ReqWrite o _ b => (image_put img o b, out ++ [(Z.of_nat (length b), [])])
  end.

Section Runs.
Context {D : Type} `{HD : DriverLaws D} (tmp_addr : Z) (junk : list Z) (Hjunk : length junk = 512%nat).
Implicit Type bs : BlockDriverState D.

Definition run_req (st : BlockDriverState D * list (Z * list Z)) (r : byte_req) : outcome (BlockDriverState D * list (Z * list Z)) :=
  let '(bs, out) := st in
  match r with
  | ReqRead o ba n => '(ret, buf, bs) ← bdrv_pread tmp_addr junk bs o ba (replicate (Z.to_nat n) 0) n; Ret (bs, out ++ [(ret, buf)])
  | ReqWrite o ba b => '(ret, bs) ← bdrv_pwrite tmp_addr junk bs o ba b; Ret (bs, out ++ [(ret, [])])
  end.

Lemma run_req_ok bs out r : bdrv_ok bs -> read_only bs = false -> takes_all bs -> in_sectors bs (req_offset r) (req_count r) ->
  exists bs', run_req (bs, out) r = Ret (bs', (flat_req (drv_image bs, out) r).2) /\ becomes bs (flat_req (drv_image bs, out) r).1 bs'
    /\ bdrv_limit bs' = bdrv_limit bs.
Proof.
  intros Hok Hro Ht Hin. pose proof Hin as (Ho & Hc & Hl). pose proof (sectors_in_limit bs (proj1 (ok_total _ Hok))). pose proof (ok_total _ Hok).
  destruct r as [o ba n|o ba b]; simpl in *.
  - destruct (bdrv_pread_ok tmp_addr junk Hjunk bs o ba (replicate (Z.to_nat n) 0) n Hok Hin ltac:(rewrite length_replicate; lia)) as (bs' & -> & Hb).
    exists bs'. cbn [mbind outcome_bind]. split; [|split; [done|by eapply becomes_limit]]. do 5 f_equal. unfold filled.
    rewrite drop_ge by (rewrite length_replicate; lia). apply app_nil_r.
  - destruct (bdrv_pwrite_ok tmp_addr junk Hjunk bs o ba b Hok Hro Ht Hin) as (bs' & -> & Hb). exists bs'. split; [done|]. split; [done|].
    eapply becomes_limit; [done|]. apply length_image_put_in; lia.
Qed.

End Runs.

(** ** The file driver *)

Section File.
Abbreviation bdrv := (BlockDriverState BDRVRawState).
Implicit Type bs : bdrv.

(** A drive on a file that holds [img]. *)
Definition file_is bs (img : list Z) : Prop :=
  exists st, bs_drv bs = Some st /\ f_bytes (raw_fd st) = img /\ Z.of_nat (length img) <= f_room (raw_fd st) /\ Z.of_nat (length img) < 2 ^ 63
    /\ tray_open bs = false /\ (forall ab, aligned_buf st = Some ab -> Z.of_nat (length ab) = ALIGNED_BUFFER_SIZE).

(** The driver keeps to its own part of a drive. *)
Definition drv_only bs bs' : Prop := frame bs bs' /\ dirty_bitmap bs' = dirty_bitmap bs.

Lemma drv_only_refl bs : drv_only bs bs.
Proof. done. Qed.
Lemma drv_only_trans bs bs1 bs2 : drv_only bs bs1 -> drv_only bs1 bs2 -> drv_only bs bs2.
Proof. intros [? ?] [? ?]. split; [by etrans|congruence]. Qed.
Lemma drv_only_set bs d : drv_only bs (set_drv d bs).
Proof. split; [|done]. by split_and!. Qed.

Lemma file_is_aligned bs img ab : file_is bs img -> Z.of_nat (length ab) = ALIGNED_BUFFER_SIZE ->
  file_is (set_drv (with_aligned ab (raw_state bs)) bs) img.
Proof.
  intros (st & E & Ei & Hr & Hs & Ht & Ha) Hab. unfold raw_state. rewrite E. exists (with_aligned ab st). split_and!; try done.
  intros ab' [= <-]. done.
Qed.

Lemma pread_aligned_ok bs img offset buf count : file_is bs img -> 0 <= offset -> 0 <= count -> offset + count <= Z.of_nat (length img) ->
  raw_pread_aligned bs offset buf count = Ret (count, blit buf 0 (range img offset count)).
Proof.
  intros (st & E & Ei & _) Ho Hc Hl. pose proof (length_range img offset count Ho Hc Hl) as Lr. unfold raw_pread_aligned, raw_state. rewrite E. cbn [default id from_option].
  unfold pread. rewrite (proj2 (Z.ltb_ge count 0)), (proj2 (Z.ltb_ge offset 0)), Ei by lia. cbn [mbind outcome_bind]. by rewrite Lr, Z.eqb_refl.
Qed.

Lemma pwrite_aligned_ok bs img offset buf : file_is bs img -> 0 <= offset -> offset + Z.of_nat (length buf) <= Z.of_nat (length img) ->
  exists bs', raw_pwrite_aligned bs offset buf = (Z.of_nat (length buf), bs') /\ drv_only bs bs' /\ file_is bs' (image_put img offset buf)
    /\ aligned_buf (raw_state bs') = aligned_buf (raw_state bs).
Proof.
  intros (st & E & Ei & Hr & Hs & Ht & Ha) Ho Hl. unfold raw_pwrite_aligned, raw_state. rewrite E. cbn [default id from_option].
  unfold pwrite. rewrite (proj2 (Z.ltb_ge offset 0)) by lia. rewrite Z.min_l by lia.
  destruct (Z.eqb_spec (Z.of_nat (length buf)) 0) as [E0|E0]; cbn [andb negb]; eexists; (split; [by rewrite ?E0|split; [apply drv_only_set|split; [|done]]]).
  - destruct buf; [|simpl in *; lia]. exists (with_file (raw_fd st) st). by split_and!.
  - exists (with_file (mkFile (image_put (f_bytes (raw_fd st)) offset (take (Z.to_nat (Z.of_nat (length buf))) buf)) (f_pos (raw_fd st)) (f_room (raw_fd st))) st).
    cbn [raw_fd with_file f_bytes f_room aligned_buf set_drv bs_drv tray_open]. rewrite Nat2Z.id, firstn_all, Ei, length_image_put_in by lia. by split_and!.
Qed.

(** Whole sectors through the aligned buffer. *)
Lemma land_not_511 z : z .& .~ 0x1ff = z - z mod 512.
Proof.
  rewrite <- Z.ldiff_land. change 0x1ff with (Z.ones 9). rewrite Z.ldiff_ones_r, Z.shiftl_mul_pow2, Z.shiftr_div_pow2 by lia.
  change (2 ^ 9) with 512. pose proof (Z.div_mod z 512 ltac:(lia)). lia.
Qed.

Lemma land_0x1ff z : z .& 0x1ff = z mod 512.
Proof. change 0x1ff with (Z.ones 9). by rewrite Z.land_ones by lia. Qed.

Lemma bounce_sectors n : bounce_size (n * 512) = Z.min (n * 512) ALIGNED_BUFFER_SIZE.
Proof.
  unfold bounce_size. rewrite land_not_511. change 0x1ff with 511. rewrite Z.add_comm, Z.mod_add by lia. change (511 mod 512) with 511. f_equal. lia.
Qed.

Lemma pread_loop_ok fuel : forall bs img a ab buf done n sum, file_is bs img -> Z.of_nat (length ab) = ALIGNED_BUFFER_SIZE -> 0 <= a -> 0 <= done -> 0 <= n ->
  a + done + n * 512 <= Z.of_nat (length img) -> (Z.to_nat (n * 512) < fuel)%nat ->
  exists bs', raw_pread_loop fuel bs (a + done) ab (filled img a buf done) done (n * 512) sum = Ret (sum + n * 512, filled img a buf (done + n * 512), bs')
    /\ drv_only bs bs' /\ file_is bs' img.
Proof.
  induction fuel as [|fuel IH]; intros bs img a ab buf done n sum Hf Hab Ha Hd Hn Hl Hfuel; [lia|]. cbn [raw_pread_loop].
  destruct (Z.eqb_spec (n * 512) 0) as [E0|E0]; [exists bs; rewrite E0, !Z.add_0_r; done|]. rewrite bounce_sectors.
  assert (exists k, Z.min (n * 512) ALIGNED_BUFFER_SIZE = k * 512 /\ 0 < k <= n /\ k * 512 <= ALIGNED_BUFFER_SIZE) as (k & -> & Hk & Hka).
  { exists (Z.min n 32). unfold ALIGNED_BUFFER_SIZE. lia. }
  pose proof (length_range img (a + done) (k * 512)) as Lr. rewrite (pread_aligned_ok _ img) by (done || lia). cbn [mbind outcome_bind].
  rewrite (proj2 (Z.ltb_ge _ 0)), (proj2 (Z.eqb_neq _ 0)), Z.min_l by lia. set (ab' := blit ab 0 _).
  assert (Z.of_nat (length ab') = ALIGNED_BUFFER_SIZE) as Hab' by (unfold ab'; rewrite length_blit by lia; done).
  assert (range ab' 0 (k * 512) = range img (a + done) (k * 512)) as ->.
  { rewrite <- Lr at 1 by lia. unfold ab'. apply range_blit_eq; lia. }
  rewrite filled_copy by lia. rewrite <- Z.add_assoc. replace (n * 512 - k * 512) with ((n - k) * 512) by lia.
  edestruct (IH (set_drv (with_aligned ab' (raw_state bs)) bs) img a ab' buf (done + k * 512) (n - k) (sum + k * 512)) as (bs' & -> & Ho & Hf');
    [by apply file_is_aligned|done|lia..|].
  exists bs'. split; [do 3 f_equal; [lia|f_equal; lia]|]. split; [|done]. eapply drv_only_trans; [apply drv_only_set|done].
Qed.

Lemma file_read_ok bs img s ba buf n : file_is bs img -> 0 <= s -> 0 <= n < 2 ^ 22 -> (s + n) * 512 <= Z.of_nat (length img) -> n * 512 <= Z.of_nat (length buf) ->
  exists bs', file_read bs s ba buf n = Ret (0, filled img (s * 512) buf (n * 512), bs') /\ drv_only bs bs' /\ file_is bs' img.
Proof.
  intros Hf Hs Hn Hl Hb. assert (Z.of_nat (length img) < 2 ^ 63) as Hsz by (destruct Hf as (?&?&?&?&?&?); lia).
  assert (exists bs', raw_pread bs (s * 512) ba buf (n * 512) = Ret (n * 512, filled img (s * 512) buf (n * 512), bs') /\ drv_only bs bs' /\ file_is bs' img) as (bs' & E & H).
  { assert (raw_pread bs (s * 512) ba buf (n * 512) = raw_pread_rest bs (s * 512) ba buf 0 (n * 512) 0) as ->.
    { unfold raw_pread. rewrite land_0x1ff, Z.mod_mul by lia. by destruct (aligned_buf _). }
    pose proof (length_range img (s * 512) (n * 512)) as Lr.
    assert (forall b, (length b = length buf) -> raw_pread_aligned bs (s * 512) b (n * 512) = Ret (n * 512, filled img (s * 512) b (n * 512))) as Hp.
    { intros b Eb. rewrite (pread_aligned_ok _ img) by (done || lia). rewrite blit_over by lia. unfold filled. do 4 f_equal. lia. }
    unfold raw_pread_rest. rewrite drop_0, Hp by done. cbn [mbind outcome_bind]. change (Z.to_nat 0) with 0%nat. rewrite take_0, app_nil_l, !Z.add_0_r.
    destruct (aligned_buf (raw_state bs)) as [ab|] eqn:Ea; [destruct (_ || _)|]; [|by exists bs..].
    pose proof Hf as (st & Est & _ & _ & _ & _ & Hab). unfold raw_state in Ea. rewrite Est in Ea.
    destruct (pread_loop_ok (S (Z.to_nat (n * 512))) bs img (s * 512) ab buf 0 n 0 Hf (Hab _ Ea)) as (bs' & E & H); try lia.
    rewrite Z.add_0_r, !Z.add_0_l in E. by exists bs'. }
  exists bs'. split; [|done]. unfold file_read. rewrite sector_size_512, !swrap_small by (unfold in_s; lia).
  rewrite (proj2 (Z.ltb_ge (n * 512) 0)), (proj2 (Z.ltb_ge _ (n * 512))) by lia. cbn [orb]. rewrite E. cbn [mbind outcome_bind]. by rewrite Z.eqb_refl.
Qed.

Lemma pwrite_loop_ok fuel : forall bs img a ab buf n sum, file_is bs img -> Z.of_nat (length ab) = ALIGNED_BUFFER_SIZE -> 0 <= a -> 0 <= n ->
  Z.of_nat (length buf) = n * 512 -> a + n * 512 <= Z.of_nat (length img) -> (length buf < fuel)%nat ->
  exists bs', raw_pwrite_loop fuel bs a ab buf sum = Ret (sum + n * 512, bs') /\ drv_only bs bs' /\ file_is bs' (image_put img a buf).
Proof.
  induction fuel as [|fuel IH]; intros bs img a ab buf n sum Hf Hab Ha Hn Hb Hl Hfuel; [lia|]. cbn [raw_pwrite_loop].
  rewrite Hb, land_not_511, Z.mod_mul, Z.sub_0_r by lia.
  destruct (Z.eq_dec n 0) as [->|Hn0].
  { destruct buf; [|simpl in *; lia]. exists bs. cbn. by rewrite Z.add_0_r. }
  assert (exists k, Z.min (n * 512) ALIGNED_BUFFER_SIZE = k * 512 /\ 0 < k <= n /\ k * 512 <= ALIGNED_BUFFER_SIZE) as (k & -> & Hk & Hka).
  { exists (Z.min n 32). unfold ALIGNED_BUFFER_SIZE. lia. }
  rewrite (proj2 (Z.eqb_neq (k * 512) 0)) by lia. cbn [negb]. set (b1 := take _ buf). set (ab' := blit ab 0 b1). set (bs1 := set_drv _ bs).
  assert (Z.of_nat (length b1) = k * 512) as L1 by (unfold b1; rewrite length_take; lia).
  assert (Z.of_nat (length ab') = ALIGNED_BUFFER_SIZE) as Hab' by (unfold ab'; rewrite length_blit by lia; done).
  assert (range ab' 0 (k * 512) = b1) as -> by (rewrite <- L1; apply range_blit_eq; lia).
  assert (file_is bs1 img) as Hf1 by (by apply file_is_aligned).
  destruct (pwrite_aligned_ok bs1 img a b1 Hf1 Ha ltac:(lia)) as (bs2 & -> & Ho2 & Hf2 & _). rewrite L1, (proj2 (Z.ltb_ge _ 0)) by lia.
  set (b2 := drop _ buf). assert (Z.of_nat (length b2) = (n - k) * 512) as L2 by (unfold b2; rewrite length_drop; lia).
  destruct (IH bs2 (image_put img a b1) (a + k * 512) ab' b2 (n - k) (sum + k * 512) Hf2 Hab') as (bs' & -> & Ho & Hf'); try lia.
  { rewrite length_image_put_in by lia. lia. }
  exists bs'. split; [do 2 f_equal; lia|]. split.
  - eapply drv_only_trans; [apply drv_only_set|]. by eapply drv_only_trans.
  - rewrite <- L1, image_put_app in Hf' by lia. unfold b1, b2 in Hf'. by rewrite take_drop in Hf'.
Qed.

Lemma file_write_ok bs img s ba buf n : file_is bs img -> 0 <= s -> 0 <= n < 2 ^ 22 -> (s + n) * 512 <= Z.of_nat (length img) -> n * 512 <= Z.of_nat (length buf) ->
  exists bs', file_write bs s ba buf n = Ret (0, bs') /\ drv_only bs bs' /\ file_is bs' (image_put img (s * 512) (take (Z.to_nat (n * 512)) buf)).
Proof.
  intros Hf Hs Hn Hl Hb. assert (Z.of_nat (length img) < 2 ^ 63) as Hsz by (destruct Hf as (?&?&?&?&?&?); lia).
  set (b := take _ buf). assert (Z.of_nat (length b) = n * 512) as Lb by (unfold b; rewrite length_take; lia).
  assert (exists bs', raw_pwrite bs (s * 512) ba b = Ret (n * 512, bs') /\ drv_only bs bs' /\ file_is bs' (image_put img (s * 512) b)) as (bs' & E & H).
  { assert (raw_pwrite bs (s * 512) ba b = raw_pwrite_rest bs (s * 512) ba b 0) as ->.
    { unfold raw_pwrite. rewrite land_0x1ff, Z.mod_mul by lia. by destruct (aligned_buf _). }
    destruct (pwrite_aligned_ok bs img (s * 512) b Hf ltac:(lia) ltac:(lia)) as (bs1 & E1 & Ho1 & Hf1 & _).
    unfold raw_pwrite_rest. rewrite E1, Lb, Z.add_0_r. destruct (aligned_buf (raw_state bs)) as [ab|] eqn:Ea; [destruct (_ || _)|]; [|by exists bs1..].
    pose proof Hf as (st & Est & _ & _ & _ & _ & Hab). unfold raw_state in Ea. rewrite Est in Ea.
    destruct (pwrite_loop_ok (S (length b)) bs img (s * 512) ab b n 0 Hf (Hab _ Ea)) as (bs' & E & H); try lia. by exists bs'. }
  exists bs'. split; [|done]. unfold file_write. rewrite sector_size_512, !swrap_small by (unfold in_s; lia).
  rewrite (proj2 (Z.ltb_ge (n * 512) 0)), (proj2 (Z.ltb_ge _ (n * 512))) by lia. cbn [orb]. fold b. rewrite E. cbn [mbind outcome_bind]. by rewrite Z.eqb_refl.
Qed.

(** The laws. *)
Definition file_image bs : list Z := f_bytes (raw_fd (raw_state bs)).
Definition file_ok bs : Prop := file_is bs (file_image bs).

Lemma file_is_image bs img : file_is bs img -> file_ok bs /\ file_image bs = img.
Proof.
  intros Hf. assert (file_image bs = img) as E by (destruct Hf as (st & E & Ei & _); unfold file_image, raw_state; by rewrite E).
  split; [|done]. unfold file_ok. by rewrite E.
Qed.

Lemma file_law_counted bs bs' : counted bs bs' -> file_ok bs -> file_ok bs' /\ file_image bs' = file_image bs.
Proof.
  intros ((_ & _ & Et & _) & Ed) (st & E & H). apply file_is_image. exists st. rewrite Ed, Et. done.
Qed.

Lemma file_law_inserted bs : file_ok bs -> is_Some (bs_drv bs) /\ bdrv_is_inserted bs = true.
Proof. intros (st & E & _ & _ & _ & Ht & _). split; [by exists st|]. unfold bdrv_is_inserted. rewrite E. cbn. by rewrite Ht. Qed.

Lemma file_law_size bs : file_ok bs -> Z.of_nat (length (file_image bs)) < 2 ^ 63.
Proof. by intros (st & _ & _ & _ & H & _). Qed.

Lemma file_law_read bs s ba buf n : file_ok bs -> 0 <= s -> 0 <= n < 2 ^ 22 -> (s + n) * 512 <= Z.of_nat (length (file_image bs)) ->
  n * 512 <= Z.of_nat (length buf) ->
  exists bs', file_read bs s ba buf n = Ret (0, range (file_image bs) (s * 512) (n * 512) ++ drop (Z.to_nat (n * 512)) buf, bs')
    /\ frame bs bs' /\ dirty_bitmap bs' = dirty_bitmap bs /\ file_ok bs' /\ file_image bs' = file_image bs.
Proof.
  intros Hf Hs Hn Hl Hb. destruct (file_read_ok bs _ s ba buf n Hf Hs Hn Hl Hb) as (bs' & E & [H1 H2] & H3).
  exists bs'. split; [done|]. split; [done|]. split; [done|]. by apply file_is_image.
Qed.

Lemma file_law_write bs s ba buf n : file_ok bs -> read_only bs = false -> 0 <= s -> 0 <= n < 2 ^ 22 -> (s + n) * 512 <= Z.of_nat (length (file_image bs)) ->
  n * 512 <= Z.of_nat (length buf) -> True ->
  exists bs', file_write bs s ba buf n = Ret (0, bs') /\ frame bs bs' /\ dirty_bitmap bs' = dirty_bitmap bs
    /\ file_ok bs' /\ file_image bs' = image_put (file_image bs) (s * 512) (take (Z.to_nat (n * 512)) buf).
Proof.
  intros Hf _ Hs Hn Hl Hb _. destruct (file_write_ok bs _ s ba buf n Hf Hs Hn Hl Hb) as (bs' & E & [H1 H2] & H3).
  exists bs'. split; [done|]. split; [done|]. split; [done|]. by apply file_is_image.
Qed.

#[export] Instance file_laws : DriverLaws BDRVRawState := {|
  drv_ok := file_ok;
  drv_image := file_image;
  drv_takes _ _ _ := True;
  law_counted := file_law_counted;
  law_size := file_law_size;
  law_inserted := file_law_inserted;
  law_read := file_law_read;
  law_write := file_law_write;
|}.
End File.

(** ** The raw format *)

Section Raw.
Context {D : Type} `{HD : DriverLaws D} (Htakes : forall p s b, drv_takes (D := D) p s b) (tmp_addr : Z).
Abbreviation bdrv := (BlockDriverState (BlockDriverState D)).
Implicit Type bs : bdrv.

(** The whole of the file below is accessible. *)
Definition raw_ok bs : Prop :=
  exists file, bs_drv bs = Some file /\ bdrv_ok file /\ bdrv_limit file = Z.of_nat (length (drv_image file)) /\ read_only file = read_only bs.
Definition raw_image bs : list Z := drv_image (raw_file bs).

(** All but a first sector that looks like another format, when the format of
    the image was guessed. *)
Definition raw_takes (p : bool) (s : Z) (b : list Z) : Prop := p = true -> s = 0 -> check_for_block_signature b = false.

Lemma raw_law_counted bs bs' : counted bs bs' -> raw_ok bs -> raw_ok bs' /\ raw_image bs' = raw_image bs.
Proof.
  intros ((_ & Er & _) & Ed) (file & E & H1 & H2 & H3). unfold raw_image, raw_file. rewrite Ed. split; [|done]. exists file. split_and!; congruence.
Qed.

Lemma raw_law_size bs : raw_ok bs -> Z.of_nat (length (raw_image bs)) < 2 ^ 63.
Proof. intros (file & E & Hk & _). unfold raw_image, raw_file. rewrite E. apply law_size, Hk. Qed.

Lemma raw_law_inserted bs : raw_ok bs -> is_Some (bs_drv bs) /\ @bdrv_is_inserted _ (raw_driver tmp_addr) bs = true.
Proof.
  intros (file & E & Hk & _). split; [by exists file|]. unfold bdrv_is_inserted at 1. rewrite E. cbn. unfold raw_is_inserted, raw_file. rewrite E.
  apply law_inserted, Hk.
Qed.

(** The file below after a request. *)
Lemma raw_becomes bs file file' img : raw_ok bs -> bs_drv bs = Some file -> becomes file img file' -> length img = length (drv_image file) ->
  frame bs (set_drv file' bs) /\ dirty_bitmap (set_drv file' bs) = dirty_bitmap bs /\ raw_ok (set_drv file' bs) /\ raw_image (set_drv file' bs) = img.
Proof.
  intros (file0 & E0 & H1 & H2 & H3) E Hb Hl. assert (file0 = file) as -> by congruence. pose proof (becomes_limit _ _ _ Hb Hl) as El.
  destruct Hb as (Hf & Hok & Ei). split_and!; try done. exists file'. split_and!; [done|done|by rewrite El, H2, Ei, Hl|].
  destruct Hf as (_ & -> & _). done.
Qed.

Lemma raw_law_read bs s ba buf n : raw_ok bs -> 0 <= s -> 0 <= n < 2 ^ 22 -> (s + n) * 512 <= Z.of_nat (length (raw_image bs)) ->
  n * 512 <= Z.of_nat (length buf) ->
  exists bs', raw_read bs s ba buf n = Ret (0, range (raw_image bs) (s * 512) (n * 512) ++ drop (Z.to_nat (n * 512)) buf, bs')
    /\ frame bs bs' /\ dirty_bitmap bs' = dirty_bitmap bs /\ raw_ok bs' /\ raw_image bs' = raw_image bs.
Proof.
  intros Hr Hs Hn Hl Hb. pose proof Hr as (file & E & Hok & Hlim & Hro). unfold raw_read, raw_image, raw_file in *. rewrite E in *. cbn [default id from_option] in *.
  destruct (bdrv_read_ok file s ba buf n Hok Hs Hn ltac:(lia) Hb) as (file' & -> & Hb'). cbn [mbind outcome_bind]. eexists. split; [done|].
  by eapply raw_becomes.
Qed.

Lemma raw_law_write bs s ba buf n : raw_ok bs -> read_only bs = false -> 0 <= s -> 0 <= n < 2 ^ 22 -> (s + n) * 512 <= Z.of_nat (length (raw_image bs)) ->
  n * 512 <= Z.of_nat (length buf) -> raw_takes (probed bs) s buf ->
  exists bs', raw_write tmp_addr bs s ba buf n = Ret (0, bs') /\ frame bs bs' /\ dirty_bitmap bs' = dirty_bitmap bs
    /\ raw_ok bs' /\ raw_image bs' = image_put (raw_image bs) (s * 512) (take (Z.to_nat (n * 512)) buf).
Proof.
  intros Hr Hro Hs Hn Hl Hb Ht. pose proof Hr as (file & E & Hok & Hlim & Hro').
  assert (check_write_unsafe bs s buf n = false) as Hu.
  { unfold check_write_unsafe, raw_takes in *. destruct (probed bs); [|done]. cbn [negb]. destruct (Z.eqb_spec s 0); [|done]. destruct (0 <? n); [by apply Ht|done]. }
  unfold raw_write. rewrite Hu. unfold raw_image, raw_file in *. rewrite E in *. cbn [default id from_option] in *.
  destruct (bdrv_write_ok file s ba buf n Hok ltac:(congruence) Hs Hn ltac:(lia) Hb (Htakes _ _ _)) as (file' & -> & Hb'). cbn [mbind outcome_bind].
  eexists. split; [done|]. eapply raw_becomes; [done..|]. apply length_image_put_in; [lia|]. rewrite length_take. lia.
Qed.

Definition raw_laws : @DriverLaws (BlockDriverState D) (raw_driver tmp_addr) := {|
  drv_ok := raw_ok;
  drv_image := raw_image;
  drv_takes := raw_takes;
  law_counted := raw_law_counted;
  law_size := raw_law_size;
  law_inserted := raw_law_inserted;
  law_read := raw_law_read;
  law_write := raw_law_write;
|}.
End Raw.

(** ** An opened image *)

#[export] Instance disk_driver : BlockDriver (BlockDriverState BDRVRawState) := raw_driver 0.
#[export] Instance disk_laws : DriverLaws (BlockDriverState BDRVRawState) := raw_laws (fun _ _ _ => I) 0.

(** A file that the host has room for, and what the aligned buffer holds. *)
Definition image_file (f : hfile) (ab : list Z) : Prop :=
  Z.of_nat (length (f_bytes f)) <= f_room f /\ Z.of_nat (length (f_bytes f)) < 2 ^ 63 /\ Z.of_nat (length ab) = ALIGNED_BUFFER_SIZE.

Definition open_flags_of (flags : Z) : Z := flags .& .~ (BDRV_O_SNAPSHOT .| BDRV_O_NO_BACKING).

Lemma file_opened f ab flags : image_file f ab ->
  exists file, bdrv_file_open f ab flags = (0, file) /\ bdrv_ok file /\ bdrv_limit file = Z.of_nat (length (f_bytes f)) /\ drv_image file = f_bytes f
    /\ growable file = true /\ bs_sg file = false /\ read_only file = negb (nz (open_flags_of flags .& BDRV_O_RDWR)).
Proof.
  intros (Hr & Hs & Ha). unfold bdrv_file_open, bdrv_open_common, refresh_total_sectors. cbn [bs_sg drv_getlength file_driver]. unfold file_getlength, raw_state.
  cbn [bs_drv default id from_option file_open raw_fd]. unfold f_size. rewrite (proj2 (Z.ltb_ge _ 0)) by lia. cbn [Z.ltb Z.compare]. eexists. split; [done|].
  match goal with |- bdrv_ok ?x /\ _ => set (file := x) end.
  assert (file_is file (f_bytes f)) as Hf.
  { eexists. split; [done|]. split_and!; try done. cbn. unfold file_open. cbn. clear -Ha. intros b Hb. case_match; by simplify_eq. }
  destruct (file_is_image _ _ Hf) as [Hok Ei]. assert (drv_image file = f_bytes f) as Ei' by done.
  assert (bdrv_limit file = Z.of_nat (length (f_bytes f))) as El by (unfold bdrv_limit; by rewrite Ei').
  split_and!; try done. split; [done|rewrite El, Ei'; lia|done].
Qed.

Lemma disk_opened f ab flags guessed : image_file f ab ->
  exists bs, bdrv_open 0 f ab flags guessed = (0, bs) /\ bdrv_ok bs /\ bdrv_limit bs = 512 * (Z.of_nat (length (f_bytes f)) / 512) /\ drv_image bs = f_bytes f
    /\ growable bs = false /\ probed bs = guessed /\ read_only bs = negb (nz (open_flags_of flags .& BDRV_O_RDWR)).
Proof.
  intros Hi. pose proof Hi as (Hr & Hs & Ha). unfold bdrv_open, bdrv_open_common. fold (open_flags_of flags).
  destruct (file_opened f ab (open_flags_of flags) Hi) as (file & -> & Hok & Hlim & Eim & Hg & Hsg & Hro). cbn [Z.ltb Z.compare raw_open].
  unfold refresh_total_sectors. cbn [bs_sg drv_getlength raw_driver]. rewrite Hsg. unfold raw_getlength, raw_file. cbn [bs_drv default id from_option].
  destruct (law_inserted _ (ok_drv _ Hok)) as [[d Ed] _].
  assert (bdrv_getlength file = Z.of_nat (length (f_bytes f))) as ->.
  { unfold bdrv_getlength. rewrite Ed, Hg. cbn. unfold file_getlength, f_size. by rewrite <- Eim. }
  rewrite (proj2 (Z.ltb_ge _ 0)) by lia. cbn [Z.ltb Z.compare]. eexists. split; [done|]. match goal with |- bdrv_ok ?x /\ _ => set (bs := x) end.
  assert (raw_ok bs) as Hk.
  { exists file. split_and!; [done|done|by rewrite Hlim, Eim|]. rewrite Hro. unfold bs. cbn. do 2 f_equal. unfold open_flags_of. by rewrite <- !Z.land_assoc. }
  assert (bdrv_limit bs = 512 * (Z.of_nat (length (f_bytes f)) / 512)) as El.
  { unfold bdrv_limit, bs. cbn. unfold BDRV_SECTOR_BITS. rewrite Z.shiftr_div_pow2 by lia. change (2 ^ 9) with 512. lia. }
  assert (drv_image bs = f_bytes f) as Ei by done. split_and!; try done. split; [done| |done]. rewrite El, Ei.
  pose proof (Z.mul_div_le (Z.of_nat (length (f_bytes f))) 512 ltac:(lia)). pose proof (Z.div_pos (Z.of_nat (length (f_bytes f))) 512 ltac:(lia) ltac:(lia)). lia.
Qed.

(** An image of three sectors that is written across their boundaries and read
    back, through a buffer that is not aligned. *)
Definition example_image : hfile := mkFile (replicate (Z.to_nat (3 * 512)) 7) 0 65536.
Definition example_image_disk : disk := (bdrv_open 0 example_image (replicate (Z.to_nat ALIGNED_BUFFER_SIZE) 0) (BDRV_O_RDWR .| BDRV_O_NOCACHE) false).2.
Definition example_reqs : list byte_req := [ReqWrite 510 1001 [1; 2; 3; 4]; ReqRead 509 3 6; ReqWrite 1000 8 (replicate (Z.to_nat 530) 9); ReqRead 1529 5 3].


(** ** The end of a file *)

Section End.
Context (tmp_addr : Z) (junk : list Z) (Hjunk : length junk = 512%nat).
Implicit Type bs : BlockDriverState BDRVRawState.

(** A file whose last sector is [k] bytes. *)
Record short_file bs (img : list Z) (s k : Z) : Prop := {
  short_is : file_is bs img;
  short_grow : growable bs = true /\ read_only bs = false /\ dirty_bitmap bs = None;
  short_cached : aligned_buf (raw_state bs) = None;
  short_room : (s + 1) * 512 <= f_room (raw_fd (raw_state bs)) /\ (s + 1) * 512 < 2 ^ 63;
  short_length : Z.of_nat (length img) = s * 512 + k;
  short_rest : 0 <= s /\ 0 < k < 512;
}.

Lemma short_check bs img s k n : short_file bs img s k -> bdrv_check_request bs s n = 0 /\ is_Some (bs_drv bs).
Proof.
  intros [(st & E & _ & _ & _ & Ht & _) [Hg _] _ _ _ _]. unfold bdrv_check_request, bdrv_check_byte_request, bdrv_is_inserted. rewrite E. cbn. rewrite Ht, Hg. by eauto.
Qed.

(** Its last sector is read in part, and that is no error. *)
Lemma short_read bs img s k tmp : short_file bs img s k -> length tmp = 512%nat ->
  bdrv_read bs s tmp_addr tmp 1 = Ret (k, range img (s * 512) 512 ++ drop (Z.to_nat k) tmp, bs) /\ Z.of_nat (length (range img (s * 512) 512)) = k.
Proof.
  intros Hs Htmp. destruct (short_check bs img s k 1 Hs) as [Ec [d Ed]]. destruct Hs as [(st & E & Ei & _) _ Ha [_ Hm] Hl Hk].
  assert (Z.of_nat (length (range img (s * 512) 512)) = k) as Lr by (unfold range; rewrite length_take, length_drop; lia). split; [|done].
  unfold bdrv_read. rewrite Ed, Ec. cbn [nz Z.eqb negb drv_read file_driver]. unfold file_read. change (1 * BDRV_SECTOR_SIZE) with 512. rewrite sector_size_512.
  change (s32 512) with 512. rewrite (proj2 (Z.ltb_ge _ 512)) by lia. cbn [Z.ltb Z.compare orb]. rewrite swrap_small by (unfold in_s; lia).
  unfold raw_pread, raw_pread_rest. rewrite Ha. unfold raw_pread_aligned, raw_state in *. rewrite E in *. cbn [default id from_option] in *.
  unfold pread. rewrite (proj2 (Z.ltb_ge (s * 512) 0)), Ei by lia. cbn [Z.ltb Z.compare mbind outcome_bind]. rewrite Lr, (proj2 (Z.eqb_neq k 512)), (proj2 (Z.eqb_neq k 0)) by lia.
  cbn [andb mbind outcome_bind]. change (Z.to_nat 0) with 0%nat. rewrite take_0, drop_0, app_nil_l, Z.add_0_r, blit_over by lia.
  rewrite (wrap_small 64 k) by (unfold in_u; lia). change (u64 512) with 512. rewrite (proj2 (Z.eqb_neq k 512)) by lia. do 5 f_equal. lia.
Qed.

(** Writing the whole sector extends the file. *)
Lemma short_write bs img s k sec : short_file bs img s k -> length sec = 512%nat ->
  exists bs', bdrv_write bs s tmp_addr sec 1 = Ret (0, bs') /\ file_image bs' = image_put img (s * 512) sec.
Proof.
  intros Hs Hsec. destruct (short_check bs img s k 1 Hs) as [Ec [d Ed]]. destruct Hs as [(st & E & Ei & _) (_ & Hro & Hd) Ha [Hr Hm] Hl Hk].
  unfold bdrv_write. rewrite Ed, Hro, Ec, Hd. cbn [nz Z.eqb negb mbind outcome_bind]. set (bs0 := if _ <? _ then _ else _).
  assert (raw_state bs0 = raw_state bs) as E0 by (unfold bs0; by destruct (_ <? _)). cbn [drv_write file_driver].
  unfold file_write. change (1 * BDRV_SECTOR_SIZE) with 512. rewrite sector_size_512. change (s32 512) with 512. rewrite (proj2 (Z.ltb_ge _ 512)) by lia. cbn [Z.ltb Z.compare orb].
  rewrite swrap_small by (unfold in_s; lia). rewrite take_ge by lia. unfold raw_pwrite, raw_pwrite_rest. rewrite E0, Ha. unfold raw_pwrite_aligned. rewrite E0.
  unfold pwrite. rewrite (proj2 (Z.ltb_ge (s * 512) 0)) by lia. rewrite Hsec. change (Z.of_nat 512) with 512. rewrite Z.min_l by lia. cbn [Z.eqb andb negb mbind outcome_bind].
  rewrite Z.add_0_r. eexists. split; [done|]. unfold file_image, raw_state in *. rewrite E in *. cbn [default id from_option set_drv bs_drv with_file raw_fd f_bytes] in *.
  rewrite Ei, take_ge by lia. done.
Qed.

Lemma short_put img s k at_ b : Z.of_nat (length img) = s * 512 + k -> 0 <= s -> 0 < k < 512 -> 0 <= at_ -> at_ + Z.of_nat (length b) <= 512 ->
  image_put img (s * 512) (blit (range img (s * 512) 512 ++ drop (Z.to_nat k) junk) at_ b) = image_put (img ++ drop (Z.to_nat k) junk) (s * 512 + at_) b.
Proof.
  intros Hl Hs Hk Ha Hb. set (X := img ++ _). assert (Z.of_nat (length X) = (s + 1) * 512) as LX by (unfold X; rewrite length_app, length_drop; lia).
  assert (range img (s * 512) 512 ++ drop (Z.to_nat k) junk = range X (s * 512) 512) as ->.
  { unfold range, X. rewrite drop_app_le, take_app_ge by (rewrite ?length_drop; lia). rewrite !(take_ge (drop _ img)) by (rewrite length_drop; lia).
    f_equal. symmetry. apply take_ge. rewrite !length_drop. lia. }
  rewrite <- (image_put_rmw X) by lia. set (T := blit _ at_ b).
  pose proof (length_range X (s * 512) 512) as Lr. assert (length T = 512%nat) as LT by (unfold T; rewrite length_blit by lia; lia).
  apply list_eq. intros i. rewrite !image_put_lookup by (intros E; rewrite E in LT; done). rewrite LT. repeat case_decide; try lia; try done.
  unfold X. destruct (Nat.lt_ge_cases i (length img)); [by rewrite lookup_app_l|].
  rewrite (proj2 (lookup_ge_None img i)) by done. symmetry. apply lookup_ge_None. unfold X in LX. lia.
Qed.

(** A write of less than a sector into the last sector of a file that does
    not end at a sector leaves bytes of the emulator's stack in the file: the
    file is extended to the whole sector, and all of the extension that was not
    written holds what the local buffer of [bdrv_pwrite] held on entry, since
    the sector was read in part and that is not noticed. *)
Theorem pwrite_leaks_stack bs img s k offset ba b : short_file bs img s k -> s * 512 <= offset -> b <> [] -> Z.of_nat (length b) < 512 ->
  offset + Z.of_nat (length b) <= (s + 1) * 512 ->
  exists bs', bdrv_pwrite tmp_addr junk bs offset ba b = Ret (Z.of_nat (length b), bs') /\ file_image bs' = image_put (img ++ drop (Z.to_nat k) junk) offset b.
Proof.
  intros Hs Ho Hb Hb2 Hend. pose proof (short_length _ _ _ _ Hs) as Hl. pose proof (short_rest _ _ _ _ Hs) as [Hs0 Hk].
  assert (0 < Z.of_nat (length b)) as Hb0 by (destruct b; [done|simpl; lia]). set (at_ := offset - s * 512).
  assert (exists tmp bs', rmw_sector tmp_addr bs s junk at_ b = Ret (0, tmp, bs') /\ file_image bs' = image_put (img ++ drop (Z.to_nat k) junk) offset b) as (tmp & bs' & E & Ei).
  { unfold rmw_sector. destruct (short_read bs img s k junk Hs Hjunk) as [-> Lr]. cbn [mbind outcome_bind]. rewrite (proj2 (Z.ltb_ge k 0)) by lia.
    set (sec := blit _ at_ b). assert (length sec = 512%nat) as Ls by (unfold sec; rewrite length_blit; rewrite ?length_app, ?length_drop; lia).
    destruct (short_write bs img s k sec Hs Ls) as (bs' & -> & Ei). cbn [mbind outcome_bind]. exists sec, bs'. split; [done|].
    rewrite Ei. unfold sec. rewrite (short_put img s k) by lia. f_equal. lia. }
  exists bs'. split; [|done]. unfold bdrv_pwrite. rewrite to_sector_start, land_511, shiftr_9.
  assert (offset / 512 = s) as -> by (symmetry; apply (Z.div_unique_pos _ _ _ at_); lia).
  assert (offset mod 512 = at_) as -> by (symmetry; apply (Z.mod_unique_pos _ _ s); lia).
  destruct (Z.eq_dec at_ 0) as [E0|E0].
  - replace ((- offset) mod 512) with 0 by (apply (Z.mod_unique_pos _ _ (- s)); lia). rewrite Z.min_l by lia. cbn [Z.ltb Z.compare].
    unfold pwrite_sectors. rewrite shiftr_9, (Z.div_small (Z.of_nat (length b))) by lia. cbn [Z.ltb Z.compare]. unfold pwrite_tail. rewrite (proj2 (Z.ltb_lt 0 _)) by lia.
    rewrite E0 in E. rewrite E. done.
  - replace ((- offset) mod 512) with (512 - at_) by (apply (Z.mod_unique_pos _ _ (- s - 1)); lia). rewrite Z.min_r by lia. rewrite (proj2 (Z.ltb_lt 0 _)) by lia.
    rewrite take_ge by lia. rewrite E. cbn [mbind outcome_bind Z.ltb Z.compare]. by rewrite Z.sub_diag.
Qed.
End End.

(** A file of two bytes: the first is overwritten. *)
Definition example_short : hfile := mkFile [10; 11] 0 4096.
Lemma pwrite_leaks_stack_witness :
  exists bs', bdrv_pwrite 0 (replicate (Z.to_nat 512) 99) (bdrv_file_open example_short [] BDRV_O_RDWR).2 0 0 [1] = Ret (1, bs')
    /\ file_image bs' = [1; 11] ++ replicate (Z.to_nat 510) 99.
Proof.
  destruct (pwrite_leaks_stack 0 (replicate (Z.to_nat 512) 99) ltac:(by vm_compute) (bdrv_file_open example_short [] BDRV_O_RDWR).2 [10; 11] 0 2 0 0 [1]) as (bs' & E & Ei).
  - split; try (vm_compute; repeat split; discriminate || reflexivity). eexists. split; [reflexivity|]. repeat split; try (vm_compute; discriminate || reflexivity).
  - lia.
  - discriminate.
  - simpl. lia.
  - simpl. lia.
  - exists bs'. split; [exact E|]. rewrite Ei. vm_compute. reflexivity.
Defined.
