(* ===== verification/Nand.v ===== *)
(** The NAND controller hw/android/goldfish/nand.c: the guest reads, writes and
    erases ranges of disk images, which are files of the host; a snapshot holds
    the images as well. *)
From S2P Require Import Prelude ByteStream QemuFile HostFile GoldfishDevice GoldfishTty GemTrace GuestMem.
Open Scope list_scope.

(** ** Commands and registers *)

Definition NAND_CMD_GET_DEV_NAME : Z := 0.
Definition NAND_CMD_READ : Z := 1.
Definition NAND_CMD_WRITE : Z := 2.
Definition NAND_CMD_ERASE : Z := 3.
Definition NAND_CMD_BLOCK_BAD_GET : Z := 4.
Definition NAND_CMD_BLOCK_BAD_SET : Z := 5.
Definition NAND_CMD_READ_BATCH : Z := 6.
Definition NAND_CMD_WRITE_BATCH : Z := 7.
Definition NAND_CMD_ERASE_BATCH : Z := 8.

Definition NAND_DEV_FLAG_READ_ONLY : Z := 0x00000001.
Definition NAND_DEV_FLAG_BATCH_CAP : Z := 0x00000002.
Definition NAND_VERSION_CURRENT : Z := 1.

Definition NAND_VERSION : Z := 0x000.
Definition NAND_NUM_DEV : Z := 0x004.
Definition NAND_DEV : Z := 0x008.
Definition NAND_DEV_FLAGS : Z := 0x010.
Definition NAND_DEV_NAME_LEN : Z := 0x014.
Definition NAND_DEV_PAGE_SIZE : Z := 0x018.
Definition NAND_DEV_EXTRA_SIZE : Z := 0x01c.
Definition NAND_DEV_ERASE_SIZE : Z := 0x020.
Definition NAND_DEV_SIZE_LOW : Z := 0x028.
Definition NAND_DEV_SIZE_HIGH : Z := 0x02c.
Definition NAND_RESULT : Z := 0x040.
Definition NAND_COMMAND : Z := 0x044.
Definition NAND_DATA : Z := 0x048.
Definition NAND_TRANSFER_SIZE : Z := 0x04c.
Definition NAND_ADDR_LOW : Z := 0x050.
Definition NAND_ADDR_HIGH : Z := 0x054.
Definition NAND_BATCH_ADDR_LOW : Z := 0x058.
Definition NAND_BATCH_ADDR_HIGH : Z := 0x05c.
Definition NAND_DATA_HIGH : Z := 0x100.

(** ** Devices and the controller *)

Record nand_dev := mkNand {
  devname : list Z;
  nd_data : list Z;
  nd_fd : option hfile;
  nd_flags : Z;
  page_size : Z;
  extra_size : Z;
  erase_size : Z;
  max_size : Z;
}.

Definition with_fd (f : hfile) (buf : list Z) (d : nand_dev) : nand_dev :=
  mkNand (devname d) buf (Some f) (nd_flags d) (page_size d) (extra_size d) (erase_size d) (max_size d).
Definition with_nd_data (buf : list Z) (d : nand_dev) : nand_dev :=
  mkNand (devname d) buf (nd_fd d) (nd_flags d) (page_size d) (extra_size d) (erase_size d) (max_size d).

Record controller := mkCtl {
  n_base : Z;
  n_dev : Z;
  n_addr_low : Z;
  n_addr_high : Z;
  n_transfer_size : Z;
  n_data : Z;
  n_batch_addr_low : Z;
  n_batch_addr_high : Z;
  n_result : Z;
}.

Definition set_n_dev (v : Z) (s : controller) : controller :=
  mkCtl (n_base s) v (n_addr_low s) (n_addr_high s) (n_transfer_size s) (n_data s) (n_batch_addr_low s) (n_batch_addr_high s) (n_result s).
Definition set_n_addr_low (v : Z) (s : controller) : controller :=
  mkCtl (n_base s) (n_dev s) v (n_addr_high s) (n_transfer_size s) (n_data s) (n_batch_addr_low s) (n_batch_addr_high s) (n_result s).
Definition set_n_addr_high (v : Z) (s : controller) : controller :=
  mkCtl (n_base s) (n_dev s) (n_addr_low s) v (n_transfer_size s) (n_data s) (n_batch_addr_low s) (n_batch_addr_high s) (n_result s).
Definition set_n_transfer_size (v : Z) (s : controller) : controller :=
  mkCtl (n_base s) (n_dev s) (n_addr_low s) (n_addr_high s) v (n_data s) (n_batch_addr_low s) (n_batch_addr_high s) (n_result s).
Definition set_n_data (v : Z) (s : controller) : controller :=
  mkCtl (n_base s) (n_dev s) (n_addr_low s) (n_addr_high s) (n_transfer_size s) v (n_batch_addr_low s) (n_batch_addr_high s) (n_result s).
Definition set_n_batch_addr_low (v : Z) (s : controller) : controller :=
  mkCtl (n_base s) (n_dev s) (n_addr_low s) (n_addr_high s) (n_transfer_size s) (n_data s) v (n_batch_addr_high s) (n_result s).
Definition set_n_batch_addr_high (v : Z) (s : controller) : controller :=
  mkCtl (n_base s) (n_dev s) (n_addr_low s) (n_addr_high s) (n_transfer_size s) (n_data s) (n_batch_addr_low s) v (n_result s).
Definition set_n_result (v : Z) (s : controller) : controller :=
  mkCtl (n_base s) (n_dev s) (n_addr_low s) (n_addr_high s) (n_transfer_size s) (n_data s) (n_batch_addr_low s) (n_batch_addr_high s) v.

(** The controller with [nand_devs]. *)
Record nand := mkN { ctl : controller; devs : list nand_dev }.
Definition set_ctl (c : controller) (n : nand) : nand := mkN c (devs n).
Definition set_dev (i : Z) (d : nand_dev) (n : nand) : nand := mkN (ctl n) (<[Z.to_nat i := d]> (devs n)).
Definition nand_dev_count (n : nand) : Z := Z.of_nat (length (devs n)).

Definition nand_dev_init (base : Z) : controller := mkCtl base 0 0 0 0 0 0 0 0.

(** ** Snapshots *)

Definition NAND_DEV_STATE_SAVE_VERSION : Z := 5.
Definition NAND_DEV_STATE_SAVE_VERSION_LEGACY : Z := 4.
Definition NAND_DEV_SAVE_DISK_BUF_SIZE : Z := 2048.

Definition nand_dev_controller_state_legacy_1_fields : list (QField controller) := [
  Q_FIELD_INT32 n_dev set_n_dev; Q_FIELD_INT32 n_addr_low set_n_addr_low; Q_FIELD_INT32 n_addr_high set_n_addr_high;
  Q_FIELD_INT32 n_transfer_size set_n_transfer_size].
Definition nand_dev_controller_state_legacy_2_fields : list (QField controller) := [
  Q_FIELD_INT32 n_batch_addr_low set_n_batch_addr_low; Q_FIELD_INT32 n_batch_addr_high set_n_batch_addr_high;
  Q_FIELD_INT32 n_result set_n_result].
Definition nand_dev_controller_state_fields : list (QField controller) := [
  Q_FIELD_INT32 n_dev set_n_dev; Q_FIELD_INT32 n_addr_low set_n_addr_low; Q_FIELD_INT32 n_addr_high set_n_addr_high;
  Q_FIELD_INT32 n_transfer_size set_n_transfer_size; Q_FIELD_INT64 n_data set_n_data;
  Q_FIELD_INT32 n_batch_addr_low set_n_batch_addr_low; Q_FIELD_INT32 n_batch_addr_high set_n_batch_addr_high;
  Q_FIELD_INT32 n_result set_n_result].

Section Snapshot.
Context {F G : Type} `{ByteWriter F} `{ByteReader G}.

(** The loop of [nand_dev_save_disk_state]; [fuel] is one more than the bytes of
    the file. *)
Fixpoint save_disk_loop (fuel : nat) (f : F) (d : hfile) (total_copied maxsize : Z) : F * hfile :=
  match fuel with
  | O => (f, d)
  | S fuel =>
      let '(bs, d) := do_read d NAND_DEV_SAVE_DISK_BUF_SIZE in
      let f := qemu_put_buffer f bs in
      let ret := Z.of_nat (length bs) in
      let total_copied := total_copied + ret in
      if (ret =? NAND_DEV_SAVE_DISK_BUF_SIZE) && (total_copied <? maxsize) then save_disk_loop fuel f d total_copied maxsize else (f, d)
  end.

(** Without a file the seek fails, and only the stream's error is set. *)
Definition nand_dev_save_disk_state (f : F) (dev : nand_dev) : F * nand_dev :=
  match nd_fd dev with
  | None => (f, dev)
  | Some d =>
      let '(total_size, d) := do_lseek_end d in
      let f := qemu_put_be64 f total_size in
      let '(_, d) := do_lseek d 0 in
      let '(f, d) := save_disk_loop (S (length (f_bytes d))) f d 0 (max_size dev) in
      (f, with_fd d (nd_data dev) dev)
  end.

Fixpoint nand_dev_save_disks (f : F) (l : list nand_dev) : F * list nand_dev :=
  match l with
  | [] => (f, [])
  | dev :: l =>
      let '(f, dev) := nand_dev_save_disk_state f dev in
      let '(f, l) := nand_dev_save_disks f l in (f, dev :: l)
  end.

Definition nand_dev_controller_state_save (f : F) (n : nand) : F * nand :=
  let f := qemu_put_struct f nand_dev_controller_state_fields (ctl n) in
  let '(f, l) := nand_dev_save_disks f (devs n) in (f, mkN (ctl n) l).

(** The loop of [nand_dev_load_disk_state]; each round takes a byte at least, so
    [fuel] is one more than the size. *)
Fixpoint load_disk_loop (fuel : nat) (g : G) (d : hfile) (next_offset total_size buf_size : Z) : Z * hfile * G :=
  match fuel with
  | O => (0, d, g)
  | S fuel =>
      if next_offset <? total_size then
        let buf_size := if total_size - next_offset <? buf_size then total_size - next_offset else buf_size in
        let '(bs, g) := qemu_get_buffer g buf_size in
        if negb (Z.of_nat (length bs) =? buf_size) then (- EIO, d, g)
        else
          let '(ret, d) := do_write d bs in
          if negb (ret =? buf_size) then (- EIO, d, g)
          else load_disk_loop fuel g d (next_offset + buf_size) total_size buf_size
      else (0, d, g)
  end.

Definition nand_dev_load_disk_state (g : G) (dev : nand_dev) : Z * nand_dev * G :=
  let '(total_size, g) := qemu_get_be64 g in
  if max_size dev <? total_size then (- EIO, dev, g)
  else
    match nd_fd dev with
    | None => (- EIO, dev, g)
    | Some d =>
        let '(_, d) := do_lseek d 0 in
        let '(r, d, g) := load_disk_loop (S (Z.to_nat total_size)) g d 0 total_size NAND_DEV_SAVE_DISK_BUF_SIZE in
        if nz r then (r, with_fd d (nd_data dev) dev, g)
        else let '(_, d) := do_ftruncate d total_size in (0, with_fd d (nd_data dev) dev, g)
    end.

Fixpoint nand_dev_load_disks (g : G) (l : list nand_dev) : Z * list nand_dev * G :=
  match l with
  | [] => (0, [], g)
  | dev :: l =>
      let '(r, dev, g) := nand_dev_load_disk_state g dev in
      if nz r then (r, dev :: l, g)
      else let '(r, l, g) := nand_dev_load_disks g l in (r, dev :: l, g)
  end.

Definition nand_dev_controller_state_load (g : G) (n : nand) (version_id : Z) : Z * nand * G :=
  let '(ret, s, g) :=
    if version_id =? NAND_DEV_STATE_SAVE_VERSION then qemu_get_struct g nand_dev_controller_state_fields (ctl n)
    else if version_id =? NAND_DEV_STATE_SAVE_VERSION_LEGACY then
      let '(ret, s, g) := qemu_get_struct g nand_dev_controller_state_legacy_1_fields (ctl n) in
      if nz ret then (ret, s, g)
      else let '(v, g) := qemu_get_be32 g in qemu_get_struct g nand_dev_controller_state_legacy_2_fields (set_n_data v s)
    else (-1, ctl n, g) in
  if nz ret then (ret, set_ctl s n, g)
  else let '(ret, l, g) := nand_dev_load_disks g (devs n) in (ret, mkN s l, g).

End Snapshot.

(** ** Transfers *)

Section Transfer.
Context {W : Type} (io_mem_write : Z -> Z -> Z -> Z -> W -> W) (io_mem_read : Z -> Z -> Z -> W -> Z * W).
Context (TL PB : Z) (phys_page_find : Z -> option PhysPageDesc) (cpu_get_phys_page_debug : Z -> option Z) (env : cpu_regs).

Let machine : Type := gmachine (W := W).
Let safe_write := safe_memory_write (W := W) TL PB phys_page_find cpu_get_phys_page_debug env.
Let safe_read := safe_memory_read (W := W) io_mem_read TL PB phys_page_find cpu_get_phys_page_debug env.

(** The loop of [nand_dev_read_file]: past the end of the file the guest gets
    0xff. Every second round takes a byte at least, so [fuel] is twice the
    length and one more. *)
Fixpoint read_file_loop (fuel : nat) (erase : Z) (f : hfile) (buf : list Z) (m : machine) (data len read_len : Z) (eof : bool) :
    outcome (hfile * list Z * machine) :=
  match fuel with
  | O => Ret (f, buf, m)
  | S fuel =>
      if len <=? 0 then Ret (f, buf, m)
      else
        let '(buf, read_len, eof) := if read_len <? erase then (replicate (Z.to_nat erase) 0xff, erase, true) else (buf, read_len, eof) in
        let read_len := if len <? read_len then len else read_len in
        let '(read_len, buf, f) :=
          if eof : bool then (read_len, buf, f)
          else let '(bs, f) := do_read f read_len in (Z.of_nat (length bs), blit buf 0 bs, f) in
        '(_, m) ← safe_write m data buf (s32 read_len);
        read_file_loop fuel erase f buf m (wrap TL (data + read_len)) (u32 (len - read_len)) read_len eof
  end.

Definition nand_dev_read_file (dev : nand_dev) (f : hfile) (m : machine) (data addr total_len : Z) : outcome (Z * nand_dev * machine) :=
  let '(_, f) := do_lseek f addr in
  '(f, buf, m) ← read_file_loop (S (2 * Z.to_nat total_len)) (erase_size dev) f (nd_data dev) m data total_len (erase_size dev) false;
  Ret (total_len, with_fd f buf dev, m).

(** The loop of [nand_dev_write_file], with what is left of the length. The
    result of the write, an [int], is compared as a [size_t]. *)
Fixpoint write_file_loop (fuel : nat) (f : hfile) (buf : list Z) (m : machine) (data len write_len : Z) : outcome (Z * hfile * list Z * machine) :=
  match fuel with
  | O => Ret (len, f, buf, m)
  | S fuel =>
      if len <=? 0 then Ret (len, f, buf, m)
      else
        let write_len := if len <? write_len then len else write_len in
        '(_, bs, m) ← safe_read m data (s32 write_len);
        let buf := blit buf 0 bs in
        let '(ret, f) := do_write f (take (Z.to_nat write_len) buf) in
        if u64 ret <? write_len then Ret (len, f, buf, m)
        else write_file_loop fuel f buf m (wrap TL (data + write_len)) (u32 (len - write_len)) write_len
  end.

Definition nand_dev_write_file (dev : nand_dev) (f : hfile) (m : machine) (data addr total_len : Z) : outcome (Z * nand_dev * machine) :=
  let '(_, f) := do_lseek f addr in
  '(len, f, buf, m) ← write_file_loop (S (Z.to_nat total_len)) f (nd_data dev) m data total_len (erase_size dev);
  Ret (u32 (total_len - len), with_fd f buf dev, m).

Fixpoint erase_file_loop (fuel : nat) (f : hfile) (buf : list Z) (len write_len : Z) : Z * hfile :=
  match fuel with
  | O => (len, f)
  | S fuel =>
      if len <=? 0 then (len, f)
      else
        let write_len := if len <? write_len then len else write_len in
        let '(ret, f) := do_write f (take (Z.to_nat write_len) buf) in
        if u64 ret <? write_len then (len, f) else erase_file_loop fuel f buf (u32 (len - write_len)) write_len
  end.

Definition nand_dev_erase_file (dev : nand_dev) (f : hfile) (addr total_len : Z) : Z * nand_dev :=
  let '(_, f) := do_lseek f addr in
  let buf := replicate (Z.to_nat (erase_size dev)) 0xff in
  let '(len, f) := erase_file_loop (S (Z.to_nat total_len)) f buf total_len (erase_size dev) in
  (u32 (total_len - len), with_fd f buf dev).

(** ** Commands *)

Definition is_batch (cmd : Z) : bool := (cmd =? NAND_CMD_WRITE_BATCH) || (cmd =? NAND_CMD_READ_BATCH) || (cmd =? NAND_CMD_ERASE_BATCH).

(** The members of [struct batch_data_64] and [struct batch_data] in memory. *)
Definition BATCH_SIZE (is64 : bool) : Z := if is64 then 32 else 24.
Definition RESULT_OFFSET (is64 : bool) : Z := if is64 then 24 else 20.
Definition load_batch (is64 : bool) (bs : list Z) (s : controller) : controller :=
  let word i n := le_value (range bs i n) in
  set_n_data (word 16 (if is64 then 8 else 4)) (set_n_transfer_size (word 12 4)
    (set_n_addr_high (word 8 4) (set_n_addr_low (word 4 4) (set_n_dev (word 0 4) s)))).

Definition bd_addr (s : controller) : Z := u64 (n_batch_addr_high s .<< 32) .| n_batch_addr_low s.

(** The part of an image a command acts on: [None] when it starts behind the end. *)
Definition clip (dev : nand_dev) (addr size : Z) : option Z :=
  if max_size dev <=? addr then None else Some (if max_size dev - addr <? size then u32 (max_size dev - addr) else size).

(** An image in memory, when there is no file. *)
Definition data_range (dev : nand_dev) (addr size : Z) : outcome unit :=
  if addr + size <=? Z.of_nat (length (nd_data dev)) then Ret () else OutOfBounds.

Definition nand_dev_do_cmd (is64 : bool) (n : nand) (m : machine) (cmd : Z) : outcome (Z * nand * machine) :=
  '(n, m) ← (if is_batch cmd then
               '(bs, m) ← cpu_physical_memory_read io_mem_read PB phys_page_find env m (bd_addr (ctl n)) (BATCH_SIZE is64);
               Ret (set_ctl (load_batch is64 bs (ctl n)) n, m)
             else Ret (n, m));
  let s := ctl n in
  let addr := n_addr_low s .| u64 (n_addr_high s .<< 32) in
  let size := n_transfer_size s in
  let data := wrap TL (n_data s) in
  match (if n_dev s <? nand_dev_count n then devs n !! Z.to_nat (n_dev s) else None) with
  | None => Ret (0, n, m)
  | Some dev =>
      let upd d := set_dev (n_dev s) d n in
      let read_only := nz (nd_flags dev .& NAND_DEV_FLAG_READ_ONLY) in
      if cmd =? NAND_CMD_GET_DEV_NAME then
        let size := if Z.of_nat (length (devname dev)) <? size then u32 (Z.of_nat (length (devname dev))) else size in
        '(_, m) ← safe_write m data (devname dev) (s32 size); Ret (size, n, m)
      else if (cmd =? NAND_CMD_READ_BATCH) || (cmd =? NAND_CMD_READ) then
        match clip dev addr size with
        | None => Ret (0, n, m)
        | Some size =>
            match nd_fd dev with
            | Some f => '(r, d, m) ← nand_dev_read_file dev f m data addr size; Ret (r, upd d, m)
            | None => _ ← data_range dev addr size;
                      '(_, m) ← safe_write m data (drop (Z.to_nat addr) (nd_data dev)) (s32 size); Ret (size, n, m)
            end
        end
      else if (cmd =? NAND_CMD_WRITE_BATCH) || (cmd =? NAND_CMD_WRITE) then
        if read_only then Ret (0, n, m)
        else
          match clip dev addr size with
          | None => Ret (0, n, m)
          | Some size =>
              match nd_fd dev with
              | Some f => '(r, d, m) ← nand_dev_write_file dev f m data addr size; Ret (r, upd d, m)
              | None => _ ← data_range dev addr size;
                        '(_, bs, m) ← safe_read m data (s32 size); Ret (size, upd (with_nd_data (blit (nd_data dev) addr bs) dev), m)
              end
          end
      else if (cmd =? NAND_CMD_ERASE_BATCH) || (cmd =? NAND_CMD_ERASE) then
        if read_only then Ret (0, n, m)
        else
          match clip dev addr size with
          | None => Ret (0, n, m)
          | Some size =>
              match nd_fd dev with
              | Some f => let '(r, d) := nand_dev_erase_file dev f addr size in Ret (r, upd d, m)
              | None => _ ← data_range dev addr size;
                        Ret (size, upd (with_nd_data (blit (nd_data dev) addr (replicate (Z.to_nat size) 0xff)) dev), m)
              end
          end
      else if cmd =? NAND_CMD_BLOCK_BAD_GET then Ret (0, n, m)
      else if cmd =? NAND_CMD_BLOCK_BAD_SET then Ret (0, n, m)
      else CpuAbort
  end.

(** ** Registers *)

(** [junk] is what the local [bd] or [bd64] holds, which is written to the
    guest's memory with nothing but its result set. *)
Definition nand_dev_write (is64 : bool) (junk : list Z) (n : nand) (m : machine) (offset value : Z) : outcome (nand * machine) :=
  let s := ctl n in
  if offset =? NAND_DEV then
    if nand_dev_count n <=? value then CpuAbort else Ret (set_ctl (set_n_dev value s) n, m)
  else if offset =? NAND_ADDR_HIGH then Ret (set_ctl (set_n_addr_high value s) n, m)
  else if offset =? NAND_ADDR_LOW then Ret (set_ctl (set_n_addr_low value s) n, m)
  else if offset =? NAND_BATCH_ADDR_LOW then Ret (set_ctl (set_n_batch_addr_low value s) n, m)
  else if offset =? NAND_BATCH_ADDR_HIGH then Ret (set_ctl (set_n_batch_addr_high value s) n, m)
  else if offset =? NAND_TRANSFER_SIZE then Ret (set_ctl (set_n_transfer_size value s) n, m)
  else if offset =? NAND_DATA then Ret (set_ctl (set_n_data (uint64_set_low (n_data s) value) s) n, m)
  else if offset =? NAND_DATA_HIGH then Ret (set_ctl (set_n_data (uint64_set_high (n_data s) value) s) n, m)
  else if offset =? NAND_COMMAND then
    '(r, n, m) ← nand_dev_do_cmd is64 n m value;
    let n := set_ctl (set_n_result r (ctl n)) n in
    if is_batch value then
      let bd := blit (take (Z.to_nat (BATCH_SIZE is64)) junk) (RESULT_OFFSET is64) (le_bytes 4 r) in
      m ← cpu_physical_memory_write io_mem_write PB phys_page_find env m (bd_addr (ctl n)) bd; Ret (n, m)
    else Ret (n, m)
  else CpuAbort.

End Transfer.

Definition nand_dev_read (n : nand) (offset : Z) : outcome Z :=
  if offset =? NAND_VERSION then Ret NAND_VERSION_CURRENT
  else if offset =? NAND_NUM_DEV then Ret (nand_dev_count n)
  else if offset =? NAND_RESULT then Ret (n_result (ctl n))
  else
    match (if n_dev (ctl n) <? nand_dev_count n then devs n !! Z.to_nat (n_dev (ctl n)) else None) with
    | None => Ret 0
    | Some dev =>
        if offset =? NAND_DEV_FLAGS then Ret (nd_flags dev)
        else if offset =? NAND_DEV_NAME_LEN then Ret (u32 (Z.of_nat (length (devname dev))))
        else if offset =? NAND_DEV_PAGE_SIZE then Ret (page_size dev)
        else if offset =? NAND_DEV_EXTRA_SIZE then Ret (extra_size dev)
        else if offset =? NAND_DEV_ERASE_SIZE then Ret (if extra_size dev =? 0 then 0 else erase_size dev)
        else if offset =? NAND_DEV_SIZE_LOW then Ret (u32 (max_size dev))
        else if offset =? NAND_DEV_SIZE_HIGH then Ret (u32 (max_size dev .>> 32))
        else CpuAbort
    end.

(** ** Transfers in pieces *)

Section Pieces.
Context {W : Type} (io_mem_write : Z -> Z -> Z -> Z -> W -> W) (io_mem_read : Z -> Z -> Z -> W -> Z * W).
Context (TL PB : Z) (phys_page_find : Z -> option PhysPageDesc) (cpu_get_phys_page_debug : Z -> option Z) (env : cpu_regs).
Context (HPB : 0 <= PB < 64) (HTL : PB < TL).

Abbreviation machine := (gmachine (W := W)).
Abbreviation safe_write := (safe_memory_write (W := W) TL PB phys_page_find cpu_get_phys_page_debug env).
Abbreviation safe_read := (safe_memory_read (W := W) io_mem_read TL PB phys_page_find cpu_get_phys_page_debug env).
Abbreviation at_virt := (virt_resolves TL PB phys_page_find cpu_get_phys_page_debug).
Abbreviation thread := (tid env).

(** [bs] was stored in RAM at [addrs]. *)
Record stored (m m' : machine) (addrs bs : list Z) : Prop := {
  stored_ram x : gm_ram m' x = scatter (gm_ram m) addrs bs x;
  stored_io : gm_io m' = gm_io m;
  stored_gem : gem_after env true bs (gm_gem m) (gm_gem m');
}.

Lemma stored_nil m : steady thread (gm_gem m) -> stored m m [] [].
Proof. intros H. constructor; [done|done|by apply gem_after_nil]. Qed.

Lemma stored_app m m1 m2 a1 b1 a2 b2 : length a1 = length b1 -> stored m m1 a1 b1 -> stored m1 m2 a2 b2 -> stored m m2 (a1 ++ a2) (b1 ++ b2).
Proof.
  intros Hl [R1 I1 G1] [R2 I2 G2]. constructor; [|congruence|by eapply gem_after_app].
  intros x. rewrite R2, scatter_app by done. by apply scatter_ext.
Qed.

Lemma at_virt_drop a n addrs : at_virt a addrs -> at_virt (wrap TL (a + Z.of_nat n)) (drop n addrs).
Proof. intros H i x Hx. rewrite lookup_drop in Hx. specialize (H _ x Hx). rewrite wrap_add_l, <- H. do 2 f_equal. lia. Qed.

Lemma at_virt_take a n addrs : at_virt a addrs -> at_virt a (take n addrs).
Proof. intros H i x Hx. apply H. by apply lookup_take_Some in Hx as []. Qed.

Lemma safe_write_piece m data addrs bs buf n : in_u TL data -> at_virt data addrs -> steady thread (gm_gem m) ->
  take n buf = bs -> length bs = n -> length addrs = n -> Z.of_nat n < 2 ^ 31 ->
  exists r m', safe_write m data buf (s32 (Z.of_nat n)) = Ret (r, m') /\ stored m m' addrs bs.
Proof.
  intros Hd Hr Hs Et Hn Ha Hlt. unfold safe_memory_write. rewrite swrap_small, Nat2Z.id, Et by (unfold in_s; lia).
  destruct (virt_write_ram TL PB phys_page_find cpu_get_phys_page_debug env HPB HTL (S (length bs)) m data addrs bs Hd Hr ltac:(lia) ltac:(lia) Hs)
    as (m' & E & Em & Ei & Hg).
  exists 0, m'. split; [exact E|by constructor].
Qed.

Lemma safe_read_piece m data addrs n : in_u TL data -> at_virt data addrs -> steady thread (gm_gem m) -> length addrs = n -> Z.of_nat n < 2 ^ 31 ->
  exists r g', safe_read m data (s32 (Z.of_nat n)) = Ret (r, gm_ram m <$> addrs, set_gem g' m)
    /\ gem_after env false (gm_ram m <$> addrs) (gm_gem m) g'.
Proof.
  intros Hd Hr Hs <- Hlt. unfold safe_memory_read. rewrite swrap_small by (unfold in_s; lia). rewrite Nat2Z.id.
  destruct (virt_read_ram io_mem_read TL PB phys_page_find cpu_get_phys_page_debug env HPB HTL (S (length addrs)) m data addrs Hd Hr ltac:(lia) Hs)
    as (g' & E & Hg).
  by exists 0, g'.
Qed.

(** ** Reading an image *)

Section Reading.
Context (erase : Z) (Herase : 0 < erase < 2 ^ 31).
Abbreviation FF := (replicate (Z.to_nat erase) 0xff).
Abbreviation read_loop := (read_file_loop (W := W) TL PB phys_page_find cpu_get_phys_page_debug env).

(** A round behind the end of the file. *)
Lemma read_eof fuel : forall f m data addrs, in_u TL data -> at_virt data addrs -> steady thread (gm_gem m) ->
  (length addrs < fuel)%nat -> Z.of_nat (length addrs) < 2 ^ 32 ->
  exists m', read_loop fuel erase f FF m data (Z.of_nat (length addrs)) erase true = Ret (f, FF, m')
    /\ stored m m' addrs (replicate (length addrs) 0xff).
Proof.
  induction fuel as [|fuel IH]; intros f m data addrs Hd Hr Hs Hf Hl; [lia|]. cbn [read_file_loop].
  destruct (Z.leb_spec (Z.of_nat (length addrs)) 0) as [H0|H0]; [destruct addrs; [|simpl in H0; lia]; exists m; split; [done|by apply stored_nil]|].
  rewrite Z.ltb_irrefl. set (n := Nat.min (length addrs) (Z.to_nat erase)).
  assert ((if Z.of_nat (length addrs) <? erase then Z.of_nat (length addrs) else erase) = Z.of_nat n) as ->
    by (destruct (Z.ltb_spec (Z.of_nat (length addrs)) erase); lia).
  destruct (safe_write_piece m data (take n addrs) (replicate n 0xff) FF n) as (r & m1 & -> & H1);
    [done|by apply at_virt_take|done|rewrite take_replicate; f_equal; lia|apply length_replicate|rewrite length_take; lia|lia|].
  cbn [mbind outcome_bind]. rewrite (wrap_small 32) by (unfold in_u; lia).
  destruct (decide (n = length addrs)) as [En|En].
  - rewrite En, Z.sub_diag. exists m1. split; [by destruct fuel|]. by rewrite En, firstn_all in H1.
  - assert (Z.of_nat n = erase) as Ee by lia. replace (Z.of_nat (length addrs) - Z.of_nat n) with (Z.of_nat (length (drop n addrs))) by (rewrite length_drop; lia).
    rewrite Ee. destruct (IH f m1 (wrap TL (data + erase)) (drop n addrs)) as (m2 & E2 & H2);
      [apply wrap_range; lia|rewrite <- Ee; by apply at_virt_drop|apply H1|rewrite length_drop; lia|rewrite length_drop; lia|].
    exists m2. split; [exact E2|]. assert (length (take n addrs) = length (replicate n 0xff)) as Hl1 by (rewrite length_take, length_replicate; lia).
    pose proof (stored_app _ _ _ _ _ _ _ Hl1 H1 H2) as H12.
    rewrite take_drop, <- replicate_add, length_drop in H12. replace (n + (length addrs - n))%nat with (length addrs) in H12 by lia. done.
Qed.

(** A short read shows where the file ends. *)
Lemma read_short fuel f buf m data len rl : 0 < len -> rl < erase ->
  read_loop (S fuel) erase f buf m data len rl false = read_loop (S fuel) erase f FF m data len erase true.
Proof.
  intros Hl Hrl. cbn [read_file_loop]. rewrite (proj2 (Z.leb_gt len 0)), (proj2 (Z.ltb_lt rl erase)), Z.ltb_irrefl by done. done.
Qed.

Lemma read_main fuel : forall f buf m data addrs, 0 <= f_pos f -> length buf = Z.to_nat erase -> in_u TL data -> at_virt data addrs -> steady thread (gm_gem m) ->
  (2 * length addrs < fuel)%nat -> Z.of_nat (length addrs) < 2 ^ 32 ->
  exists f' buf' m', read_loop fuel erase f buf m data (Z.of_nat (length addrs)) erase false = Ret (f', buf', m')
    /\ f_bytes f' = f_bytes f /\ f_room f' = f_room f /\ length buf' = Z.to_nat erase
    /\ stored m m' addrs (image_bytes (f_bytes f) (f_pos f) (length addrs)).
Proof.
  induction fuel as [|fuel IH]; intros f buf m data addrs Hp Hb Hd Hr Hs Hf Hl; [lia|]. cbn [read_file_loop].
  destruct (Z.leb_spec (Z.of_nat (length addrs)) 0) as [H0|H0].
  { destruct addrs; [|simpl in H0; lia]. exists f, buf, m. split_and!; [done..|by apply stored_nil]. }
  rewrite Z.ltb_irrefl. set (n := Nat.min (length addrs) (Z.to_nat erase)).
  assert ((if Z.of_nat (length addrs) <? erase then Z.of_nat (length addrs) else erase) = Z.of_nat n) as ->
    by (destruct (Z.ltb_spec (Z.of_nat (length addrs)) erase); lia).
  unfold do_read. set (bs := range (f_bytes f) (f_pos f) (Z.of_nat n)). set (k := length bs).
  assert (k <= n)%nat as Hk by (unfold k, bs; rewrite range_image, length_take; lia).
  destruct (safe_write_piece m data (take k addrs) bs (blit buf 0 bs) k) as (r & m1 & -> & H1);
    [done|by apply at_virt_take|done|unfold blit; rewrite take_0, app_nil_l; apply take_app_length|done|rewrite length_take; lia|lia|].
  cbn [mbind outcome_bind]. rewrite (wrap_small 32) by (unfold in_u; lia).
  replace (Z.of_nat (length addrs) - Z.of_nat k) with (Z.of_nat (length (drop k addrs))) by (rewrite length_drop; lia).
  assert (length (blit buf 0 bs) = Z.to_nat erase) as Hb' by (unfold blit; rewrite take_0, app_nil_l, length_app, length_drop; fold k; change (Z.to_nat 0) with 0%nat; lia).
  set (f1 := with_pos (f_pos f + Z.of_nat k) f). assert (length (take k addrs) = length bs) as Hl1 by (rewrite length_take; fold k; lia).
  assert (at_virt (wrap TL (data + Z.of_nat k)) (drop k addrs)) as Hr1 by by apply at_virt_drop.
  assert (in_u TL (wrap TL (data + Z.of_nat k))) as Hd1 by (apply wrap_range; lia).
  destruct (decide (k = n)) as [Ek|Ek].
  - assert (image_bytes (f_bytes f) (f_pos f) k = bs) as Ebs.
    { pose proof (image_bytes_range (f_bytes f) (f_pos f) n) as E. fold bs in E. fold k in E. rewrite Ek, Nat.sub_diag, app_nil_r in E. by rewrite Ek. }
    destruct (decide (n = length addrs)) as [En|En].
    + assert (length (drop k addrs) = 0%nat) as -> by (rewrite length_drop; lia). exists f1, (blit buf 0 bs), m1.
      split_and!; [by destruct fuel|done|done|done|]. rewrite <- En, <- Ek, Ebs. by rewrite (firstn_all2 addrs) in H1 by lia.
    + assert (Z.of_nat k = erase) as Ee by lia. rewrite Ee.
      destruct (IH f1 (blit buf 0 bs) m1 (wrap TL (data + erase)) (drop k addrs)) as (f' & buf' & m' & E & Ef & Er & Hbl & H2);
        [cbn; lia|done|by rewrite <- Ee|by rewrite <- Ee|apply H1|rewrite length_drop; lia|rewrite length_drop; lia|].
      exists f', buf', m'. split_and!; [exact E|by rewrite Ef|by rewrite Er|done|]. cbn [f1 with_pos f_bytes f_pos] in H2.
      pose proof (stored_app _ _ _ _ _ _ _ Hl1 H1 H2) as H12. rewrite take_drop, <- Ebs, <- image_bytes_app in H12 by done.
      rewrite length_drop in H12. replace (k + (length addrs - k))%nat with (length addrs) in H12 by lia. done.
  - assert (0 < length (drop k addrs))%nat as Hd0 by (rewrite length_drop; lia).
    destruct fuel as [|fuel]; [lia|]. rewrite read_short by lia.
    destruct (read_eof (S fuel) f1 m1 (wrap TL (data + Z.of_nat k)) (drop k addrs)) as (m' & E & H2);
      [done|done|apply H1|rewrite length_drop; lia|rewrite length_drop; lia|].
    exists f1, FF, m'. split_and!; [exact E|done|done|by rewrite length_replicate|].
    pose proof (stored_app _ _ _ _ _ _ _ Hl1 H1 H2) as H12. rewrite take_drop in H12.
    assert (bs = range (f_bytes f) (f_pos f) (Z.of_nat (length addrs))) as Ebs.
    { unfold bs. rewrite !range_image. assert (length (drop (Z.to_nat (f_pos f)) (f_bytes f)) < n)%nat.
      { assert (k = Nat.min n (length (drop (Z.to_nat (f_pos f)) (f_bytes f)))) by (unfold k, bs; by rewrite range_image, length_take). lia. }
      rewrite !firstn_all2 by lia. done. }
    rewrite (image_bytes_range (f_bytes f)), <- Ebs. fold k. by rewrite length_drop in H12.
Qed.

End Reading.

(** ** Writing an image *)

Section Writing.
Context (erase : Z) (Herase : 0 < erase < 2 ^ 31).
Abbreviation write_loop := (write_file_loop (W := W) io_mem_read TL PB phys_page_find cpu_get_phys_page_debug env).

(** One round: the bytes of the guest's memory are given to the host, and the
    loop goes on unless fewer of them were written. *)
Lemma write_round fuel f buf m data addrs n ret f1 :
  length buf = Z.to_nat erase -> in_u TL data -> at_virt data addrs -> steady thread (gm_gem m) -> addrs <> [] ->
  n = Nat.min (length addrs) (Z.to_nat erase) -> Z.of_nat (length addrs) < 2 ^ 32 ->
  do_write f (gm_ram m <$> take n addrs) = (ret, f1) -> Z.of_nat n <= u64 ret ->
  exists buf' g1, length buf' = Z.to_nat erase /\ gem_after env false (gm_ram m <$> take n addrs) (gm_gem m) g1
    /\ write_loop (S fuel) f buf m data (Z.of_nat (length addrs)) erase
       = write_loop fuel f1 buf' (set_gem g1 m) (wrap TL (data + Z.of_nat n)) (Z.of_nat (length (drop n addrs))) (Z.of_nat n).
Proof.
  intros Hb Hd Hr Hs Hne En Hl Ew Hret. cbn [write_file_loop]. destruct (Z.leb_spec (Z.of_nat (length addrs)) 0) as [H0|H0]; [by destruct addrs; simpl in *; [|lia]|].
  assert ((if Z.of_nat (length addrs) <? erase then Z.of_nat (length addrs) else erase) = Z.of_nat n) as ->
    by (destruct (Z.ltb_spec (Z.of_nat (length addrs)) erase); lia).
  assert (length (take n addrs) = n) as Etn by (rewrite length_take; lia).
  destruct (safe_read_piece m data (take n addrs) n) as (r & g1 & -> & Hg); [done|by apply at_virt_take|done|done|lia|].
  cbn [mbind outcome_bind]. set (bs := gm_ram m <$> take n addrs) in *. assert (length bs = n) as Ebs by (unfold bs; by rewrite length_fmap).
  rewrite Nat2Z.id. assert (take n (blit buf 0 bs) = bs) as -> by (unfold blit; rewrite take_0, app_nil_l; rewrite <- Ebs at 1; apply take_app_length).
  rewrite Ew, (proj2 (Z.ltb_ge _ _) Hret), (wrap_small 32) by (unfold in_u; lia).
  exists (blit buf 0 bs), g1. split_and!; [|done|].
  - unfold blit. rewrite take_0, app_nil_l, length_app, length_drop, Ebs. change (Z.to_nat 0) with 0%nat. lia.
  - do 2 f_equal. rewrite length_drop. lia.
Qed.

(** The round behind the last byte. *)
Lemma write_done fuel f buf m data wl : write_loop fuel f buf m data 0 wl = Ret (0, f, buf, m).
Proof. by destruct fuel. Qed.

Lemma gem_after_steady st bs g g' : gem_after env st bs g g' -> steady thread g'.
Proof. by intros []. Qed.

(** All rounds, when every write succeeds ([put] is what it does to the file) or
    is taken for a success. *)
Lemma write_rounds (put : hfile -> list Z -> hfile) (good : hfile -> nat -> Prop) fuel :
  (forall f b1 b2, good f (length (b1 ++ b2)) -> put (put f b1) b2 = put f (b1 ++ b2)) ->
  (forall f b n, good f (length b + n)%nat -> b <> [] -> (length b <= Z.to_nat erase)%nat ->
     (exists ret, do_write f b = (ret, put f b) /\ Z.of_nat (length b) <= u64 ret) /\ good (put f b) n) ->
  (forall f, put f [] = f) ->
  forall f buf m data addrs, good f (length addrs) -> length buf = Z.to_nat erase -> in_u TL data -> at_virt data addrs -> steady thread (gm_gem m) ->
  (length addrs < fuel)%nat -> Z.of_nat (length addrs) < 2 ^ 32 ->
  exists buf' g', write_loop fuel f buf m data (Z.of_nat (length addrs)) erase = Ret (0, put f (gm_ram m <$> addrs), buf', set_gem g' m)
    /\ length buf' = Z.to_nat erase /\ gem_after env false (gm_ram m <$> addrs) (gm_gem m) g'.
Proof.
  intros Hput Hgood Hnil. induction fuel as [|fuel IH]; intros f buf m data addrs Hg Hb Hd Hr Hs Hf Hl; [lia|].
  destruct (decide (addrs = [])) as [->|Hne].
  { exists buf, (gm_gem m). cbn [length Z.of_nat fmap list_fmap]. rewrite write_done, Hnil. split_and!; [by destruct m|done|by apply gem_after_nil]. }
  set (n := Nat.min (length addrs) (Z.to_nat erase)). assert (0 < length addrs)%nat by (destruct addrs; simpl; [done|lia]).
  set (bs := gm_ram m <$> take n addrs). assert (length bs = n) as Ebs by (unfold bs; rewrite length_fmap, length_take; lia).
  destruct (Hgood f bs (length (drop n addrs))) as ((ret & Ew & Hret) & Hg1).
  { rewrite Ebs, length_drop. by replace (n + (length addrs - n))%nat with (length addrs) by lia. }
  { intros E. rewrite E in Ebs. simpl in Ebs. lia. }
  { lia. }
  destruct (write_round fuel f buf m data addrs n ret (put f bs) Hb Hd Hr Hs Hne eq_refl Hl Ew ltac:(lia)) as (buf1 & g1 & Hb1 & Ha1 & ->).
  destruct (decide (n = length addrs)) as [En|En].
  - assert (length (drop n addrs) = 0%nat) as -> by (rewrite length_drop; lia). rewrite write_done. unfold bs in *.
    rewrite En, firstn_all in *. by exists buf1, g1.
  - assert (Z.of_nat n = erase) as Ee by lia. rewrite Ee.
    destruct (IH (put f bs) buf1 (set_gem g1 m) (wrap TL (data + erase)) (drop n addrs)) as (buf2 & g2 & E2 & Hb2 & Ha2);
      [done|done|apply wrap_range; lia|rewrite <- Ee; by apply at_virt_drop|by eapply gem_after_steady|rewrite length_drop; lia|rewrite length_drop; lia|].
    cbn [gm_ram set_gem] in *. exists buf2, g2. rewrite E2. split_and!; [|done|].
    + unfold bs. rewrite Hput, <- fmap_app, take_drop; [done|]. by rewrite <- fmap_app, take_drop, length_fmap.
    + rewrite <- (take_drop n addrs), fmap_app. by eapply gem_after_app.
Qed.

Lemma write_all f buf m data addrs : 0 <= f_pos f -> f_pos f + Z.of_nat (length addrs) <= f_room f -> length buf = Z.to_nat erase ->
  in_u TL data -> at_virt data addrs -> steady thread (gm_gem m) -> Z.of_nat (length addrs) < 2 ^ 32 ->
  exists buf' g', write_loop (S (length addrs)) f buf m data (Z.of_nat (length addrs)) erase = Ret (0, file_put f (gm_ram m <$> addrs), buf', set_gem g' m)
    /\ length buf' = Z.to_nat erase /\ gem_after env false (gm_ram m <$> addrs) (gm_gem m) g'.
Proof.
  intros Hp Hroom Hb Hd Hr Hs Hl. apply (write_rounds file_put (fun f n => 0 <= f_pos f /\ f_pos f + Z.of_nat n <= f_room f)); try done || lia.
  - intros f0 b1 b2 [H0 _]. by apply file_put_app.
  - intros f0 b n [H0 Hn] Hbn Hbe. split.
    + exists (Z.of_nat (length b)). split; [apply do_write_room; lia|]. rewrite wrap_small; [lia|]. unfold in_u. lia.
    + cbn. lia.
  - apply file_put_nil.
Qed.

(** A host without room: nothing is written, and no round notices. *)
Lemma write_none f buf m data addrs : f_room f <= f_pos f -> length buf = Z.to_nat erase ->
  in_u TL data -> at_virt data addrs -> steady thread (gm_gem m) -> Z.of_nat (length addrs) < 2 ^ 32 ->
  exists buf' g', write_loop (S (length addrs)) f buf m data (Z.of_nat (length addrs)) erase = Ret (0, f, buf', set_gem g' m)
    /\ length buf' = Z.to_nat erase /\ gem_after env false (gm_ram m <$> addrs) (gm_gem m) g'.
Proof.
  intros Hroom Hb Hd Hr Hs Hl. apply (write_rounds (fun f _ => f) (fun f _ => f_room f <= f_pos f)); try done || lia.
  intros f0 b n Hn Hbn Hbe. split; [|done]. exists (-1). split; [by apply do_write_full|]. change (u64 (-1)) with (2 ^ 64 - 1). lia.
Qed.

Lemma erase_all fuel : forall f n, 0 <= f_pos f -> f_pos f + Z.of_nat n <= f_room f -> (n < fuel)%nat -> Z.of_nat n < 2 ^ 32 ->
  erase_file_loop fuel f (replicate (Z.to_nat erase) 0xff) (Z.of_nat n) erase = (0, file_put f (replicate n 0xff)).
Proof.
  induction fuel as [|fuel IH]; intros f n Hp Hroom Hf Hl; [lia|]. cbn [erase_file_loop].
  destruct (Z.leb_spec (Z.of_nat n) 0); [replace n with 0%nat by lia; by rewrite file_put_nil|].
  set (k := Nat.min n (Z.to_nat erase)).
  assert ((if Z.of_nat n <? erase then Z.of_nat n else erase) = Z.of_nat k) as -> by (destruct (Z.ltb_spec (Z.of_nat n) erase); lia).
  rewrite Nat2Z.id, take_replicate, (Nat.min_l k) by lia. rewrite do_write_room by (rewrite ?length_replicate; lia). rewrite length_replicate.
  rewrite (wrap_small 64), Z.ltb_irrefl, (wrap_small 32) by (unfold in_u; lia). destruct (decide (k = n)) as [->|Hk].
  - rewrite Z.sub_diag. by destruct fuel.
  - assert (Z.of_nat k = erase) as Ee by lia. rewrite Ee. replace (Z.of_nat n - erase) with (Z.of_nat (n - k)) by lia.
    rewrite IH; [|cbn; rewrite ?length_replicate; lia..]. rewrite file_put_app, <- replicate_add by done. do 3 f_equal. lia.
Qed.

End Writing.
End Pieces.
