(* ===== verification/NandSpec.v ===== *)
(** What the NAND controller of [Nand] does for its guest: reading, writing and
    erasing act on flat images and a flat memory, whatever the sizes of the
    buffers and pages in between; a full host; snapshots. *)
From S2P Require Import Prelude ByteStream QemuFile HostFile GoldfishDevice GoldfishTty GemTrace GuestMem Nand.
Open Scope list_scope.

(** ** Requests of the guest *)

Record nand_op := mkOp { op_cmd : Z; op_dev : Z; op_addr : Z; op_size : Z; op_data : Z }.

(** The registers a driver writes for a request. *)
Definition op_writes (o : nand_op) : list (Z * Z) :=
  [(NAND_DEV, op_dev o); (NAND_ADDR_LOW, u32 (op_addr o)); (NAND_ADDR_HIGH, op_addr o .>> 32);
   (NAND_DATA, u32 (op_data o)); (NAND_DATA_HIGH, op_data o .>> 32); (NAND_TRANSFER_SIZE, op_size o); (NAND_COMMAND, op_cmd o)].

(** ** Flat disks and a flat memory *)

Record flat := mkFlat { images : list (list Z); memory : Z -> Z; results : list Z }.

(** The size of an image, and whether it is read-only. *)
Abbreviation disk_info := (Z * bool)%type.
Definition info_of (d : nand_dev) : disk_info := (max_size d, nz (nd_flags d .& NAND_DEV_FLAG_READ_ONLY)).

(** How many bytes of a request are in the image. *)
Definition op_count (limit : Z) (o : nand_op) : nat := if limit <=? op_addr o then 0%nat else Z.to_nat (Z.min (op_size o) (limit - op_addr o)).

Definition spec_op (TL : Z) (infos : list disk_info) (st : flat) (o : nand_op) : flat :=
  match infos !! Z.to_nat (op_dev o), images st !! Z.to_nat (op_dev o) with
  | Some (limit, ro), Some img =>
      let read_only : bool := ro in
      let k := op_count limit o in
      let done (r : Z) := mkFlat (images st) (memory st) (results st ++ [r]) in
      let put (bs : list Z) := mkFlat (<[Z.to_nat (op_dev o) := image_put img (op_addr o) bs]> (images st)) (memory st) (results st ++ [Z.of_nat k]) in
      if op_cmd o =? NAND_CMD_READ then
        mkFlat (images st) (guest_store TL (memory st) (op_data o) (image_bytes img (op_addr o) k)) (results st ++ [Z.of_nat k])
      else if read_only then done 0
      else if op_cmd o =? NAND_CMD_WRITE then put (guest_bytes TL (memory st) (op_data o) (Z.of_nat k))
      else put (replicate k 0xff)
  | _, _ => st
  end.

Section Refinement.
Context {W : Type} (io_mem_write : Z -> Z -> Z -> Z -> W -> W) (io_mem_read : Z -> Z -> Z -> W -> Z * W).
Context (TL PB : Z) (phys_page_find : Z -> option PhysPageDesc) (cpu_get_phys_page_debug : Z -> option Z) (env : cpu_regs).
Context (HPB : 0 <= PB < 64) (HTL : PB < TL) (HTL32 : 32 <= TL <= 64).
Context (Hna : no_alias TL PB phys_page_find cpu_get_phys_page_debug).
Context (is64 : bool) (junk : list Z).

Abbreviation machine := (gmachine (W := W)).
Abbreviation view := (guest_view (W := W) PB phys_page_find cpu_get_phys_page_debug).
Abbreviation mapped_at := (mapped TL PB phys_page_find cpu_get_phys_page_debug).
Abbreviation write_reg := (nand_dev_write (W := W) io_mem_write io_mem_read TL PB phys_page_find cpu_get_phys_page_debug env is64 junk).
Abbreviation do_cmd := (nand_dev_do_cmd (W := W) io_mem_read TL PB phys_page_find cpu_get_phys_page_debug env is64).

(** One request and its result, and a sequence of them. *)
Definition nand_request (st : nand * machine * list Z) (o : nand_op) : outcome (nand * machine * list Z) :=
  let '(n, m, rs) := st in
  '(n, m) ← foldM (fun '(n, m) '(off, v) => write_reg n m off v) (n, m) (op_writes o);
  r ← nand_dev_read n NAND_RESULT;
  Ret (n, m, rs ++ [r]).
Definition nand_requests (st : nand * machine * list Z) (l : list nand_op) : outcome (nand * machine * list Z) := foldM nand_request st l.

(** ** What relates the two *)

Record dev_good (d : nand_dev) (f : hfile) : Prop := {
  good_fd : nd_fd d = Some f;
  good_erase : 0 < erase_size d < 2 ^ 31;
  good_buf : length (nd_data d) = Z.to_nat (erase_size d);
  good_max : 0 <= max_size d < 2 ^ 63;
  good_room : max_size d <= f_room f;
  good_bytes : Forall (in_u 8) (f_bytes f);
}.

Definition holds_image (d : nand_dev) (img : list Z) : Prop := exists f, dev_good d f /\ f_bytes f = img.

Record represents (infos : list disk_info) (st : flat) (n : nand) (m : machine) : Prop := {
  rep_infos : infos = info_of <$> devs n;
  rep_images : Forall2 holds_image (devs n) (images st);
  rep_memory b : in_u TL b -> is_Some (virt_at PB phys_page_find cpu_get_phys_page_debug b) -> view m b = memory st b;
  rep_bytes x : in_u 8 (gm_ram m x);
  rep_steady : steady (tid env) (gm_gem m);
  rep_data : in_u 64 (n_data (ctl n));
}.

Record op_ok (infos : list disk_info) (o : nand_op) : Prop := {
  ok_cmd : op_cmd o = NAND_CMD_READ \/ op_cmd o = NAND_CMD_WRITE \/ op_cmd o = NAND_CMD_ERASE;
  ok_dev : 0 <= op_dev o < Z.of_nat (length infos);
  ok_addr : in_u 64 (op_addr o);
  ok_size : in_u 32 (op_size o);
  ok_data : in_u TL (op_data o);
  ok_mapped : mapped_at (op_data o) (Z.to_nat (op_size o));
}.

(** ** Bytes stay bytes *)

Lemma scatter_bytes addrs : forall bs r, Forall (in_u 8) bs -> (forall x, in_u 8 (r x)) -> forall x, in_u 8 (scatter r addrs bs x).
Proof.
  induction addrs as [|a addrs IH]; intros [|b bs] r Hbs Hr x; try apply Hr. apply Forall_cons in Hbs as [Hb Hbs].
  change (scatter r (a :: addrs) (b :: bs)) with (scatter (fun y => if y =? a then b else r y) addrs bs). apply IH; [done|].
  intros y. by destruct (y =? a).
Qed.

Lemma image_bytes_in img a n : Forall (in_u 8) img -> Forall (in_u 8) (image_bytes img a n).
Proof.
  intros H. unfold image_bytes. apply Forall_fmap, Forall_true. intros i. cbn. destruct (img !! _) as [b|] eqn:E; [|unfold in_u; simpl; lia].
  by apply (Forall_lookup_1 _ _ _ _ H E).
Qed.

Lemma image_put_in img a bs : Forall (in_u 8) img -> Forall (in_u 8) bs -> Forall (in_u 8) (image_put img a bs).
Proof.
  intros H Hb. unfold image_put. case_decide; [done|]. unfold blit, pad_to. repeat apply Forall_app_2; try done; [apply Forall_take|apply Forall_drop];
    (apply Forall_app; split; [done|]; apply Forall_replicate; unfold in_u; lia).
Qed.

(** ** Registers *)

(** The two halves of a 64-bit value. *)
Lemma halves_testbit v i : in_u 64 v -> 0 <= i -> Z.testbit (u64 ((v .>> 32) .<< 32)) i = (32 <=? i) && Z.testbit v i.
Proof.
  intros Hv Hi. rewrite wrap_spec, Z.shiftl_spec by lia. destruct (Z.leb_spec 32 i); [|by rewrite (Z.testbit_neg_r _ (i - 32)), andb_false_r by lia].
  rewrite Z.shiftr_spec by lia. replace (i - 32 + 32) with i by lia. destruct (Z.ltb_spec i 64); [done|]. by rewrite (testbit_ge_range 64 v) by (done || lia).
Qed.

Lemma set_low_high d v : in_u 64 d -> in_u 64 v -> uint64_set_high (uint64_set_low d (u32 v)) (v .>> 32) = v.
Proof.
  intros Hd Hv. unfold uint64_set_high, uint64_set_low. change 0xFFFFFFFF with (Z.ones 32). apply Z.bits_inj'. intros i Hi.
  rewrite Z.lor_spec, halves_testbit by done. rewrite Z.land_spec, Z.lor_spec, Z.land_spec, !wrap_spec, Z.lnot_spec, Z.testbit_ones_nonneg by lia.
  destruct (Z.ltb_spec i 32), (Z.leb_spec 32 i); try lia; [|by rewrite andb_false_r].
  cbn [negb]. by rewrite !andb_false_r, andb_true_r, orb_false_r.
Qed.

Lemma join_address a : in_u 64 a -> u32 a .| u64 ((a .>> 32) .<< 32) = a.
Proof.
  intros Ha. apply Z.bits_inj'. intros i Hi. rewrite Z.lor_spec, halves_testbit, wrap_spec by (done || lia).
  destruct (Z.ltb_spec i 32), (Z.leb_spec 32 i); try lia; [apply orb_false_r|done].
Qed.

(** The registers of a request. *)
Definition op_ctl (o : nand_op) (c : controller) : Prop :=
  n_dev c = op_dev o /\ n_addr_low c .| u64 (n_addr_high c .<< 32) = op_addr o /\ n_data c = op_data o /\ n_transfer_size c = op_size o.

Lemma write_dev n m v : 0 <= v < nand_dev_count n -> write_reg n m NAND_DEV v = Ret (set_ctl (set_n_dev v (ctl n)) n, m).
Proof. intros Hv. unfold nand_dev_write. change (NAND_DEV =? NAND_DEV) with true. cbv iota. by rewrite (proj2 (Z.leb_gt _ _)) by lia. Qed.

Lemma run_registers infos st n m o : represents infos st n m -> op_ok infos o ->
  exists c, op_ctl o c /\ foldM (fun '(n, m) '(off, v) => write_reg n m off v) (n, m) (op_writes o) = write_reg (set_ctl c n) m NAND_COMMAND (op_cmd o).
Proof.
  intros [Hi _ _ _ _ Hd] [_ Hdev Ha Hs Hda _]. assert (in_u 64 (op_data o)) as Hda64.
  { destruct Hda. split; [lia|]. assert (2 ^ TL <= 2 ^ 64) by (apply Z.pow_le_mono_r; lia). lia. }
  rewrite Hi, length_fmap in Hdev. unfold op_writes. cbn [foldM].
  rewrite write_dev by done. cbn [mbind outcome_bind].
  assert (forall n0 m0 v, write_reg n0 m0 NAND_ADDR_LOW v = Ret (set_ctl (set_n_addr_low v (ctl n0)) n0, m0)) as -> by done. cbn [mbind outcome_bind].
  assert (forall n0 m0 v, write_reg n0 m0 NAND_ADDR_HIGH v = Ret (set_ctl (set_n_addr_high v (ctl n0)) n0, m0)) as -> by done. cbn [mbind outcome_bind].
  assert (forall n0 m0 v, write_reg n0 m0 NAND_DATA v = Ret (set_ctl (set_n_data (uint64_set_low (n_data (ctl n0)) v) (ctl n0)) n0, m0)) as -> by done.
  cbn [mbind outcome_bind].
  assert (forall n0 m0 v, write_reg n0 m0 NAND_DATA_HIGH v = Ret (set_ctl (set_n_data (uint64_set_high (n_data (ctl n0)) v) (ctl n0)) n0, m0)) as -> by done.
  cbn [mbind outcome_bind].
  assert (forall n0 m0 v, write_reg n0 m0 NAND_TRANSFER_SIZE v = Ret (set_ctl (set_n_transfer_size v (ctl n0)) n0, m0)) as -> by done.
  cbn [mbind outcome_bind set_ctl ctl devs].
  eexists. split; [|match goal with |- ?x ≫= _ = _ => destruct x as [[]| | | | |] eqn:E end; symmetry; exact E].
  unfold op_ctl. cbn. split_and!; [done|by apply join_address|by apply set_low_high|done].
Qed.

(** ** One command *)

(** The addresses of the first bytes of the guest's buffer. *)
Lemma buffer_addrs infos o k : op_ok infos o -> (k <= Z.to_nat (op_size o))%nat ->
  exists addrs, length addrs = k /\ virt_resolves TL PB phys_page_find cpu_get_phys_page_debug (op_data o) addrs /\ Z.of_nat (length addrs) < 2 ^ 32.
Proof.
  intros Ho Hk. destruct (mapped_resolves TL PB phys_page_find cpu_get_phys_page_debug (op_data o) k) as (addrs & El & Hr).
  { intros i Hi. apply (ok_mapped _ _ Ho). lia. }
  exists addrs. split_and!; [done|done|]. destruct (ok_size _ _ Ho). lia.
Qed.

Lemma op_count_le limit o : (op_count limit o <= Z.to_nat (op_size o))%nat.
Proof. unfold op_count. destruct (limit <=? op_addr o); lia. Qed.

(** The image of the device a request names. *)
Lemma find_device infos st n m o : represents infos st n m -> op_ok infos o ->
  exists d f, devs n !! Z.to_nat (op_dev o) = Some d /\ dev_good d f /\ images st !! Z.to_nat (op_dev o) = Some (f_bytes f)
    /\ infos !! Z.to_nat (op_dev o) = Some (info_of d) /\ (op_dev o <? nand_dev_count n) = true.
Proof.
  intros [Hi Him _ _ _ _] [_ Hd _ _ _ _]. rewrite Hi, length_fmap in Hd. destruct (lookup_lt_is_Some_2 (devs n) (Z.to_nat (op_dev o)) ltac:(lia)) as [d Ed].
  destruct (Forall2_lookup_l _ _ _ _ _ Him Ed) as (img & Eimg & f & Hf & <-). exists d, f. split_and!; [done|done|done| |].
  - by rewrite Hi, list_lookup_fmap, Ed.
  - apply Z.ltb_lt. unfold nand_dev_count. lia.
Qed.

(** A device whose file changes. *)
Lemma represents_dev infos st n m o d f f' buf img' : represents infos st n m -> devs n !! Z.to_nat (op_dev o) = Some d -> dev_good d f ->
  f_room f' = f_room f -> f_bytes f' = img' -> Forall (in_u 8) img' -> length buf = Z.to_nat (erase_size d) ->
  represents infos (mkFlat (<[Z.to_nat (op_dev o) := img']> (images st)) (memory st) (results st)) (set_dev (op_dev o) (with_fd f' buf d) n) m.
Proof.
  intros [Hi Him Hm Hb Hs Hd] Ed [H1 H2 H3 H4 H5 H6] Hroom Hbytes Hin Hbuf. constructor; cbn [images memory devs ctl set_dev]; [|..|done|done|done|done].
  - rewrite Hi, list_fmap_insert. symmetry. apply list_insert_id. rewrite list_lookup_fmap, Ed. done.
  - apply Forall2_insert; [done|]. exists f'. split; [|done]. constructor; cbn; try done; [lia|by rewrite Hbytes].
Qed.

(** The flat memory after bytes were stored. *)
Lemma represents_stored infos st n m m' o addrs bs : represents infos st n m -> stored env m m' addrs bs -> length addrs = length bs ->
  virt_resolves TL PB phys_page_find cpu_get_phys_page_debug (op_data o) addrs -> Z.of_nat (length bs) <= 2 ^ TL -> Forall (in_u 8) bs ->
  represents infos (mkFlat (images st) (guest_store TL (memory st) (op_data o) bs) (results st)) n m'.
Proof.
  intros [Hi Him Hm Hb Hs Hd] [Hr Hio Hg] Hl Hv Hlen Hbs. constructor; cbn [images memory]; [done|done|..|apply Hg|done].
  - intros b Hbu Hmap. rewrite (view_store TL PB phys_page_find cpu_get_phys_page_debug ltac:(lia) ltac:(lia) m m' (op_data o) addrs bs) by done.
    unfold guest_store. case_match; [done|]. by apply Hm.
  - intros x. rewrite Hr. by apply scatter_bytes.
Qed.

(** Only the tracer differs. *)
Lemma represents_gem infos st n m g : represents infos st n m -> steady (tid env) g -> represents infos st n (set_gem g m).
Proof. intros [Hi Him Hm Hb Hs Hd] Hg. by constructor. Qed.

(** What the controller takes from the guest's memory. *)
Lemma memory_bytes infos st n m o addrs : represents infos st n m -> virt_resolves TL PB phys_page_find cpu_get_phys_page_debug (op_data o) addrs ->
  guest_bytes TL (memory st) (op_data o) (Z.of_nat (length addrs)) = gm_ram m <$> addrs.
Proof.
  intros [Hi Him Hm Hb Hs Hd] Hr. rewrite <- (view_load TL PB phys_page_find cpu_get_phys_page_debug m (op_data o) addrs Hb Hr). unfold guest_bytes.
  apply list_fmap_ext. intros i j Hj. rewrite Nat2Z.id in Hj. apply lookup_seq in Hj as [-> Hj]. cbn. f_equal. symmetry. apply Hm; [apply wrap_range; lia|].
  destruct (lookup_lt_is_Some_2 addrs i Hj) as [x Hx]. by rewrite (Hr i x Hx).
Qed.

Lemma seek_image (f : hfile) a limit : in_u 64 a -> a < limit -> limit < 2 ^ 63 -> do_lseek f a = (a, with_pos a f).
Proof.
  intros [Ha _] Hl Hlim. unfold do_lseek. rewrite swrap_small by (unfold in_s; lia). by rewrite (proj2 (Z.ltb_ge a 0)) by lia.
Qed.

(** Decide which command it is. *)
Ltac select_cmd :=
  repeat match goal with |- context [?a =? ?b] => let v := eval vm_compute in (a =? b) in (lazymatch v with true => idtac | false => idtac end; change (a =? b) with v) end;
  cbn [orb]; cbv iota.

(** The part of the request in the image, as the code computes it. *)
Lemma clip_count d o : in_u 32 (op_size o) -> 0 <= max_size d < 2 ^ 63 ->
  clip d (op_addr o) (op_size o) = if max_size d <=? op_addr o then None else Some (Z.of_nat (op_count (max_size d) o)).
Proof.
  intros [Hs Hs'] Hm. unfold clip, op_count. destruct (Z.leb_spec (max_size d) (op_addr o)); [done|]. f_equal.
  destruct (Z.ltb_spec (max_size d - op_addr o) (op_size o)); [rewrite wrap_small by (unfold in_u; lia)|]; lia.
Qed.

Lemma cmd_read infos st n m o : represents infos st n m -> op_ok infos o -> op_ctl o (ctl n) -> op_cmd o = NAND_CMD_READ ->
  exists r n' m' mem', do_cmd n m (op_cmd o) = Ret (r, n', m') /\ represents infos (mkFlat (images st) mem' (results st)) n' m'
    /\ spec_op TL infos st o = mkFlat (images st) mem' (results st ++ [r]) /\ ctl n' = ctl n.
Proof.
  intros HR Ho (Ec1 & Ec2 & Ec3 & Ec4) Ecmd. destruct (find_device infos st n m o HR Ho) as (d & f & Ed & Hf & Eimg & Einfo & Ecount).
  pose proof Hf as [F1 F2 F3 F4 F5 F6]. unfold spec_op. rewrite Einfo, Eimg. unfold info_of. rewrite Ecmd. change (NAND_CMD_READ =? NAND_CMD_READ) with true. cbv iota.
  unfold nand_dev_do_cmd. change (is_batch NAND_CMD_READ) with false. cbv iota. cbn [mbind outcome_bind]. rewrite Ec1, Ec2, Ec3, Ec4, Ecount, Ed.
  select_cmd.
  rewrite clip_count, F1 by (done || apply Ho). destruct (Z.leb_spec (max_size d) (op_addr o)) as [Hout|Hin].
  - assert (op_count (max_size d) o = 0%nat) as -> by (unfold op_count; by rewrite (proj2 (Z.leb_le _ _)) by lia).
    exists 0, n, m, (guest_store TL (memory st) (op_data o) []). split_and!; [done| |done|done]. destruct HR. constructor; try done.
  - set (k := op_count (max_size d) o). destruct (buffer_addrs infos o k Ho (op_count_le _ _)) as (addrs & El & Hr & Hl32).
    unfold nand_dev_read_file. rewrite (seek_image f _ (max_size d)) by (done || apply Ho || apply F4). rewrite Nat2Z.id, (wrap_small TL) by apply Ho. rewrite <- El.
    destruct (read_main TL PB phys_page_find cpu_get_phys_page_debug env HPB HTL (erase_size d) F2 (S (2 * length addrs)) (with_pos (op_addr o) f) (nd_data d) m
      (op_data o) addrs) as (f' & buf' & m' & E & Ef & Er & Hb' & Hst); [cbn; apply Ho|done|apply Ho|done|apply HR|lia|lia|].
    cbn [f_pos f_bytes with_pos f_room] in *. rewrite E. cbn [mbind outcome_bind].
    eexists _, _, m', (guest_store TL (memory st) (op_data o) (image_bytes (f_bytes f) (op_addr o) (length addrs))). split_and!; [done| |done|done].
    pose proof (represents_dev infos st n m o d f f' buf' (f_bytes f) HR Ed Hf Er Ef F6 Hb') as HR1. rewrite list_insert_id in HR1 by done.
    eapply (represents_stored _ (mkFlat (images st) (memory st) (results st)) _ m m' o addrs); [exact HR1|done|by rewrite length_image_bytes|done| |by apply image_bytes_in].
    rewrite length_image_bytes. assert (2 ^ 32 <= 2 ^ TL) by (apply Z.pow_le_mono_r; lia). lia.
Qed.

(** Commands that change an image. *)
Lemma put_nothing (img : list Z) a : image_put img a [] = img.
Proof. done. Qed.

Lemma spec_put infos st o d f bs r :
  infos !! Z.to_nat (op_dev o) = Some (info_of d) -> images st !! Z.to_nat (op_dev o) = Some (f_bytes f) -> op_cmd o <> NAND_CMD_READ ->
  nz (nd_flags d .& NAND_DEV_FLAG_READ_ONLY) = false -> r = Z.of_nat (op_count (max_size d) o) ->
  bs = (if op_cmd o =? NAND_CMD_WRITE then guest_bytes TL (memory st) (op_data o) r else replicate (op_count (max_size d) o) 0xff) ->
  spec_op TL infos st o = mkFlat (<[Z.to_nat (op_dev o) := image_put (f_bytes f) (op_addr o) bs]> (images st)) (memory st) (results st ++ [r]).
Proof.
  intros Einfo Eimg Hcmd Hro -> ->. unfold spec_op. rewrite Einfo, Eimg. unfold info_of. rewrite (proj2 (Z.eqb_neq _ _) Hcmd), Hro.
  by destruct (op_cmd o =? NAND_CMD_WRITE).
Qed.

Lemma cmd_write infos st n m o : represents infos st n m -> op_ok infos o -> op_ctl o (ctl n) -> op_cmd o = NAND_CMD_WRITE ->
  exists r n' m' imgs, do_cmd n m (op_cmd o) = Ret (r, n', m') /\ represents infos (mkFlat imgs (memory st) (results st)) n' m'
    /\ spec_op TL infos st o = mkFlat imgs (memory st) (results st ++ [r]) /\ ctl n' = ctl n.
Proof.
  intros HR Ho (Ec1 & Ec2 & Ec3 & Ec4) Ecmd. destruct (find_device infos st n m o HR Ho) as (d & f & Ed & Hf & Eimg & Einfo & Ecount).
  pose proof Hf as [F1 F2 F3 F4 F5 F6]. unfold nand_dev_do_cmd. rewrite Ecmd. change (is_batch NAND_CMD_WRITE) with false. cbv iota. cbn [mbind outcome_bind].
  rewrite Ec1, Ec2, Ec3, Ec4, Ecount, Ed. select_cmd.
  destruct (nz (nd_flags d .& NAND_DEV_FLAG_READ_ONLY)) eqn:Ero.
  { exists 0, n, m, (images st). split_and!; [done|by destruct st| |done]. unfold spec_op. rewrite Einfo, Eimg. unfold info_of. by rewrite Ecmd, Ero. }
  rewrite clip_count, F1 by (done || apply Ho). set (k := op_count (max_size d) o).
  destruct (buffer_addrs infos o k Ho (op_count_le _ _)) as (addrs & El & Hr & Hl32). pose proof (memory_bytes infos st n m o addrs HR Hr) as Emem. rewrite El in Emem.
  assert (spec_op TL infos st o = mkFlat (<[Z.to_nat (op_dev o) := image_put (f_bytes f) (op_addr o) (gm_ram m <$> addrs)]> (images st)) (memory st) (results st ++ [Z.of_nat k])) as Espec.
  { apply (spec_put infos st o d f _ _ Einfo Eimg); [by rewrite Ecmd|done|done|]. by rewrite Ecmd, Emem. }
  destruct (Z.leb_spec (max_size d) (op_addr o)) as [Hout|Hin].
  - assert (k = 0%nat) as Ek by (unfold k, op_count; by rewrite (proj2 (Z.leb_le _ _)) by lia).
    exists 0, n, m, (images st). split_and!; [done|by destruct st| |done]. rewrite Espec. assert (addrs = []) as -> by (destruct addrs; [done|simpl in El; lia]).
    cbn [fmap list_fmap]. by rewrite put_nothing, list_insert_id, Ek.
  - unfold nand_dev_write_file. rewrite (seek_image f _ (max_size d)) by (done || apply Ho || apply F4). rewrite Nat2Z.id, (wrap_small TL) by apply Ho. rewrite <- El.
    destruct (write_all io_mem_read TL PB phys_page_find cpu_get_phys_page_debug env HPB HTL (erase_size d) F2 (with_pos (op_addr o) f) (nd_data d) m (op_data o) addrs)
      as (buf' & g' & E & Hb' & Hg); [cbn; apply Ho| |done|apply Ho|done|apply HR|done|].
    { cbn. rewrite El. unfold k, op_count. rewrite (proj2 (Z.leb_gt _ _)) by lia. destruct (ok_size _ _ Ho). lia. }
    rewrite E. cbn [mbind outcome_bind]. rewrite Z.sub_0_r, (wrap_small 32) by (unfold in_u; lia). rewrite El.
    eexists _, _, _, _. split_and!; [done| |exact Espec|done]. apply represents_gem; [|apply Hg].
    eapply represents_dev; [done|done|done|done|done| |done]. apply image_put_in; [done|]. apply Forall_fmap, Forall_true. intros x. apply HR.
Qed.

Lemma cmd_erase infos st n m o : represents infos st n m -> op_ok infos o -> op_ctl o (ctl n) -> op_cmd o = NAND_CMD_ERASE ->
  exists r n' m' imgs, do_cmd n m (op_cmd o) = Ret (r, n', m') /\ represents infos (mkFlat imgs (memory st) (results st)) n' m'
    /\ spec_op TL infos st o = mkFlat imgs (memory st) (results st ++ [r]) /\ ctl n' = ctl n.
Proof.
  intros HR Ho (Ec1 & Ec2 & Ec3 & Ec4) Ecmd. destruct (find_device infos st n m o HR Ho) as (d & f & Ed & Hf & Eimg & Einfo & Ecount).
  pose proof Hf as [F1 F2 F3 F4 F5 F6]. unfold nand_dev_do_cmd. rewrite Ecmd. change (is_batch NAND_CMD_ERASE) with false. cbv iota. cbn [mbind outcome_bind].
  rewrite Ec1, Ec2, Ec3, Ec4, Ecount, Ed. select_cmd.
  destruct (nz (nd_flags d .& NAND_DEV_FLAG_READ_ONLY)) eqn:Ero.
  { exists 0, n, m, (images st). split_and!; [done|by destruct st| |done]. unfold spec_op. rewrite Einfo, Eimg. unfold info_of. by rewrite Ecmd, Ero. }
  rewrite clip_count, F1 by (done || apply Ho). set (k := op_count (max_size d) o). pose proof (op_count_le (max_size d) o) as Hk. fold k in Hk.
  assert (spec_op TL infos st o = mkFlat (<[Z.to_nat (op_dev o) := image_put (f_bytes f) (op_addr o) (replicate k 0xff)]> (images st)) (memory st) (results st ++ [Z.of_nat k])) as Espec.
  { apply (spec_put infos st o d f _ _ Einfo Eimg); [by rewrite Ecmd|done|done|]. by rewrite Ecmd. }
  destruct (Z.leb_spec (max_size d) (op_addr o)) as [Hout|Hin].
  - assert (k = 0%nat) as Ek by (unfold k, op_count; by rewrite (proj2 (Z.leb_le _ _)) by lia).
    exists 0, n, m, (images st). split_and!; [done|by destruct st| |done]. rewrite Espec, Ek. cbn [replicate]. by rewrite put_nothing, list_insert_id.
  - unfold nand_dev_erase_file. rewrite (seek_image f _ (max_size d)) by (done || apply Ho || apply F4). rewrite Nat2Z.id. destruct (ok_size _ _ Ho).
    rewrite erase_all; [|done|cbn; apply Ho| |lia|lia].
    2: { cbn. unfold k, op_count. rewrite (proj2 (Z.leb_gt _ _)) by lia. lia. }
    rewrite Z.sub_0_r, (wrap_small 32) by (unfold in_u; lia). eexists _, _, _, _. split_and!; [done| |exact Espec|done].
    eapply represents_dev; [done|done|done|done|done| |by rewrite length_replicate]. apply image_put_in; [done|]. apply Forall_replicate. unfold in_u. lia.
Qed.

(** Every command of a request. *)
Lemma cmd_spec infos st n m o : represents infos st n m -> op_ok infos o -> op_ctl o (ctl n) ->
  exists r n' m' st', do_cmd n m (op_cmd o) = Ret (r, n', m') /\ represents infos st' n' m'
    /\ spec_op TL infos st o = mkFlat (images st') (memory st') (results st ++ [r]) /\ ctl n' = ctl n.
Proof.
  intros HR Ho Hc. destruct (ok_cmd _ _ Ho) as [E|[E|E]].
  - destruct (cmd_read infos st n m o HR Ho Hc E) as (r & n' & m' & mem & H1 & H2 & H3 & H4). by exists r, n', m', (mkFlat (images st) mem (results st)).
  - destruct (cmd_write infos st n m o HR Ho Hc E) as (r & n' & m' & imgs & H1 & H2 & H3 & H4). by exists r, n', m', (mkFlat imgs (memory st) (results st)).
  - destruct (cmd_erase infos st n m o HR Ho Hc E) as (r & n' & m' & imgs & H1 & H2 & H3 & H4). by exists r, n', m', (mkFlat imgs (memory st) (results st)).
Qed.

Lemma nand_request_spec infos st n m o : represents infos st n m -> op_ok infos o ->
  exists n' m', nand_request (n, m, results st) o = Ret (n', m', results (spec_op TL infos st o)) /\ represents infos (spec_op TL infos st o) n' m'.
Proof.
  intros HR Ho. unfold nand_request. destruct (run_registers infos st n m o HR Ho) as (c & Hc & ->).
  assert (represents infos st (set_ctl c n) m) as HR1.
  { destruct HR as [H1 H2 H3 H4 H5 H6]. constructor; try done. cbn. destruct Hc as (_ & _ & -> & _). destruct (ok_data _ _ Ho) as [? Hd].
    split; [lia|]. assert (2 ^ TL <= 2 ^ 64) by (apply Z.pow_le_mono_r; lia). lia. }
  destruct (cmd_spec infos st (set_ctl c n) m o HR1 Ho Hc) as (r & n' & m' & st' & E & HR' & Espec & Ec).
  unfold nand_dev_write. select_cmd. rewrite E. cbn [mbind outcome_bind].
  assert (is_batch (op_cmd o) = false) as -> by (by destruct (ok_cmd _ _ Ho) as [->|[->| ->]]).
  cbn [mbind outcome_bind nand_dev_read]. unfold nand_dev_read. select_cmd. cbn [mbind outcome_bind set_ctl ctl devs set_n_result n_result].
  rewrite Espec. cbn [results]. eexists _, m'. split; [done|]. destruct HR' as [H1 H2 H3 H4 H5 H6]. by constructor.
Qed.


(** C35: A host that is full loses what the guest writes. When the file cannot
    grow up to the place of a write, every write to it fails; the -1 it returns
    is compared as an unsigned number, so the command reports all bytes as
    written and the image is as it was. *)
Theorem full_host_loses_writes n m o d f :
  op_ctl o (ctl n) -> 0 <= op_dev o -> devs n !! Z.to_nat (op_dev o) = Some d -> nd_fd d = Some f ->
  0 < erase_size d < 2 ^ 31 -> length (nd_data d) = Z.to_nat (erase_size d) -> max_size d < 2 ^ 63 ->
  nz (nd_flags d .& NAND_DEV_FLAG_READ_ONLY) = false -> 0 <= f_room f <= op_addr o -> op_addr o < max_size d ->
  in_u 32 (op_size o) -> in_u TL (op_data o) -> mapped_at (op_data o) (Z.to_nat (op_size o)) -> steady (tid env) (gm_gem m) ->
  exists n' g' d' f', do_cmd n m NAND_CMD_WRITE = Ret (Z.min (op_size o) (max_size d - op_addr o), n', set_gem g' m)
    /\ devs n' !! Z.to_nat (op_dev o) = Some d' /\ nd_fd d' = Some f' /\ f_bytes f' = f_bytes f.
Proof.
  intros (Ec1 & Ec2 & Ec3 & Ec4) Hdev Ed F1 F2 F3 F4 Hro Hroom Hin Hsz Hda Hmap Hs. pose proof Hsz as [Hs0 Hs1].
  unfold nand_dev_do_cmd. change (is_batch NAND_CMD_WRITE) with false. cbv iota. cbn [mbind outcome_bind]. pose proof (lookup_lt_Some _ _ _ Ed) as Hlt.
  rewrite Ec1, Ec2, Ec3, Ec4. rewrite (proj2 (Z.ltb_lt (op_dev o) (nand_dev_count n))) by (unfold nand_dev_count; lia). rewrite Ed. select_cmd.
  rewrite Hro, clip_count, F1, (proj2 (Z.leb_gt (max_size d) (op_addr o))) by (done || lia). set (k := op_count (max_size d) o).
  assert (Z.of_nat k = Z.min (op_size o) (max_size d - op_addr o)) as Ek by (unfold k, op_count; rewrite (proj2 (Z.leb_gt _ _)) by lia; lia).
  destruct (mapped_resolves TL PB phys_page_find cpu_get_phys_page_debug (op_data o) k) as (addrs & El & Hr); [intros i Hi; apply Hmap; lia|].
  unfold nand_dev_write_file. rewrite (seek_image f _ (max_size d)) by (unfold in_u; lia). rewrite Nat2Z.id, (wrap_small TL) by done. rewrite <- El.
  destruct (write_none io_mem_read TL PB phys_page_find cpu_get_phys_page_debug env HPB HTL (erase_size d) F2 (with_pos (op_addr o) f) (nd_data d) m (op_data o) addrs)
    as (buf' & g' & E & Hb' & Hg); [cbn; lia|done|done|done|done|lia|].
  rewrite E. cbn [mbind outcome_bind]. rewrite Z.sub_0_r, (wrap_small 32), El, Ek by (unfold in_u; lia).
  eexists _, g', _, _. split_and!; [done|cbn [set_dev devs]; by apply list_lookup_insert_eq|done|done].
Qed.

End Refinement.

Definition example_disk : nand_dev := mkNand [100] (replicate 4 0) (Some (mkFile [1; 2; 3] 0 100)) 0 2 2 4 64.
Definition example_nand : nand := mkN (nand_dev_init 0) [example_disk].
Definition example_nand_memory : gmachine (W := unit) := set_ram u8 example_machine.
Definition example_flat : flat := mkFlat [[1; 2; 3]] (guest_view 12 example_pages example_translation example_nand_memory) [].

(** Five bytes are written behind the end of the file, across two pages, the
    first two bytes are erased, and sixteen bytes are read back. *)
Definition example_ops : list nand_op :=
  [mkOp NAND_CMD_WRITE 0 6 5 0x1ffe; mkOp NAND_CMD_ERASE 0 0 2 0x1000; mkOp NAND_CMD_READ 0 0 16 0x2100].

Lemma example_represents : represents 32 12 example_pages example_translation (example_regs 1234 0) [(64, false)] example_flat example_nand example_nand_memory.
Proof.
  constructor.
  - reflexivity.
  - repeat constructor. exists (mkFile [1; 2; 3] 0 100). split; [|done]. constructor; cbn; [done|lia|done|lia|lia|repeat constructor; unfold in_u; lia].
  - done.
  - intros x. cbn. apply wrap_range. lia.
  - exact example_machine_steady.
  - unfold in_u. cbn. lia.
Qed.


Definition full_nand : nand := mkN (mkCtl 0 0 3 0 8 0x1000 0 0 0) [mkNand [100] (replicate 4 0) (Some (mkFile [1; 2; 3] 0 3)) 0 2 2 4 64].

Lemma full_host_loses_writes_witness :
  exists n' g' d' f',
    nand_dev_do_cmd (fun _ _ _ w => (0, w)) 32 12 example_pages example_translation (example_regs 1234 0) false full_nand example_nand_memory NAND_CMD_WRITE
      = Ret (8, n', set_gem g' example_nand_memory)
    /\ devs n' !! 0%nat = Some d' /\ nd_fd d' = Some f' /\ f_bytes f' = [1; 2; 3].
Proof.
  apply (full_host_loses_writes (W := unit) (fun _ _ _ w => (0, w)) 32 12 example_pages example_translation (example_regs 1234 0)
    ltac:(lia) ltac:(lia) false full_nand example_nand_memory (mkOp NAND_CMD_WRITE 0 3 8 0x1000)
    (mkNand [100] (replicate 4 0) (Some (mkFile [1; 2; 3] 0 3)) 0 2 2 4 64) (mkFile [1; 2; 3] 0 3)); try (cbn; lia); try reflexivity.
  - repeat split; reflexivity.
  - cbn. unfold in_u. lia.
  - cbn. unfold in_u. lia.
  - apply example_mapped; simpl; lia.
  - exact example_machine_steady.
Defined.

(** ** Snapshots *)

Definition image_of (d : nand_dev) : list Z := match nd_fd d with Some f => f_bytes f | None => [] end.

(** An image in a snapshot. *)
Definition enc_image (img : list Z) : list Z := be64 (Z.of_nat (length img)) ++ img.

(** A device whose image is no larger than its limit. *)
Definition disk_saved (d : nand_dev) : Prop :=
  exists f, nd_fd d = Some f /\ Forall (in_u 8) (f_bytes f) /\ f_size f <= max_size d < 2 ^ 63.

(** A device that can take the image. *)
Definition disk_takes (d : nand_dev) (img : list Z) : Prop :=
  exists f, nd_fd d = Some f /\ Z.of_nat (length img) <= max_size d < 2 ^ 63 /\ Z.of_nat (length img) <= f_room f.

Section Saving.
Context {F : Type} `{WriterLaws F}.

Lemma save_disk_all fuel : forall (f : F) d total limit, w_ok f -> f_pos d = total -> 0 <= total <= f_size d -> f_size d <= limit ->
  Forall (in_u 8) (f_bytes d) -> f_size d - total < Z.of_nat fuel ->
  exists f' d', save_disk_loop fuel f d total limit = (f', d') /\ emits f (drop (Z.to_nat total) (f_bytes d)) f' /\ f_bytes d' = f_bytes d /\ f_room d' = f_room d.
Proof.
  induction fuel as [|fuel IH]; intros f d total limit Hf Hp Ht Hlim Hb Hfuel; [lia|]. cbn [save_disk_loop]. unfold do_read. rewrite Hp.
  set (bs := range (f_bytes d) total NAND_DEV_SAVE_DISK_BUF_SIZE). change NAND_DEV_SAVE_DISK_BUF_SIZE with 2048 in *.
  unfold f_size in *. assert (bs = take 2048 (drop (Z.to_nat total) (f_bytes d))) as Ebs by done.
  assert (length bs = Nat.min 2048 (length (f_bytes d) - Z.to_nat total)) as Elen by (rewrite Ebs, length_take, length_drop; lia).
  pose proof (put_buffer_emits f bs Hf) as He. specialize (He ltac:(rewrite Ebs; by apply Forall_take, Forall_drop)).
  destruct ((Z.of_nat (length bs) =? 2048) && (total + Z.of_nat (length bs) <? limit)) eqn:Ego.
  - apply andb_true_iff in Ego as [Efull%Z.eqb_eq Hlt%Z.ltb_lt].
    destruct (IH (qemu_put_buffer f bs) (with_pos (total + Z.of_nat (length bs)) d) (total + Z.of_nat (length bs)) limit) as (f' & d' & E & Hem & Ed & Er);
      [apply He|done|cbn; lia|done|done|cbn; lia|].
    exists f', d'. split_and!; [exact E| |done|done]. cbn [f_bytes with_pos] in Hem.
    replace (drop (Z.to_nat total) (f_bytes d)) with (bs ++ drop (Z.to_nat (total + Z.of_nat (length bs))) (f_bytes d)); [by eapply emits_trans|].
    rewrite <- (take_drop 2048 (drop (Z.to_nat total) (f_bytes d))), <- Ebs, drop_drop. do 2 f_equal. lia.
  - eexists _, _. split_and!; [done| |done|done]. replace (drop (Z.to_nat total) (f_bytes d)) with bs; [done|]. rewrite Ebs. apply firstn_all2. rewrite length_drop.
    apply andb_false_iff in Ego as [Eshort%Z.eqb_neq|Hge%Z.ltb_ge]; lia.
Qed.

Lemma save_disk_emits (f : F) d : w_ok f -> disk_saved d ->
  exists f' d', nand_dev_save_disk_state f d = (f', d') /\ emits f (enc_image (image_of d)) f' /\ image_of d' = image_of d.
Proof.
  intros Hf (h & Eh & Hb & Hsz). unfold nand_dev_save_disk_state, image_of. rewrite Eh. unfold do_lseek_end. cbn [do_lseek].
  pose proof (put_be64_emits f (f_size h) Hf) as H1.
  change (do_lseek (with_pos (f_size h) h) 0) with (0, with_pos 0 h).
  destruct (save_disk_all (S (length (f_bytes h))) (qemu_put_be64 f (f_size h)) (with_pos 0 h) 0 (max_size d)) as (f' & d' & E & Hem & Ed & _);
    [apply H1|done|unfold f_size; cbn; lia|cbn; apply Hsz|done|unfold f_size; cbn; lia|].
  cbn [f_bytes with_pos] in *. rewrite E. exists f', (with_fd d' (nd_data d) d). split_and!; [done|by eapply emits_trans|done].
Qed.

Lemma save_disks_emits (l : list nand_dev) : forall f : F, w_ok f -> Forall disk_saved l ->
  exists f' l', nand_dev_save_disks f l = (f', l') /\ emits f (concat (enc_image <$> (image_of <$> l))) f' /\ image_of <$> l' = image_of <$> l.
Proof.
  induction l as [|d l IH]; intros f Hf Hl; cbn [nand_dev_save_disks]; [exists f, []; split_and!; [done|by apply emits_refl|done]|].
  apply Forall_cons in Hl as [Hd Hl]. destruct (save_disk_emits f d Hf Hd) as (f1 & d' & -> & H1 & E1).
  destruct (IH f1 ltac:(apply H1) Hl) as (f2 & l' & -> & H2 & E2). exists f2, (d' :: l'). rewrite !fmap_cons, E1, E2. split_and!; [done| |done].
  cbn [concat]. by eapply emits_trans.
Qed.

End Saving.

Section Loading.
Context {G : Type} `{ReaderLaws G}.

Lemma load_loop_consumes fuel : forall (g : G) d next buf_size img l, r_ok g -> r_in g = img ++ l -> 0 < buf_size -> 0 <= f_pos d -> f_pos d + Z.of_nat (length img) <= f_room d ->
  0 <= next -> (length img < fuel)%nat ->
  exists g', load_disk_loop fuel g d next (next + Z.of_nat (length img)) buf_size = (0, file_put d img, g') /\ consumed l g'.
Proof.
  induction fuel as [|fuel IH]; intros g d next buf_size img l Hg Hin Hbs Hp Hroom Hn Hf; [lia|]. cbn [load_disk_loop].
  destruct (decide (img = [])) as [->|Hne]; [cbn [length Z.of_nat]; rewrite Z.add_0_r, Z.ltb_irrefl, file_put_nil; by exists g|].
  assert (0 < length img)%nat by (destruct img; simpl; [done|lia]). rewrite (proj2 (Z.ltb_lt next _)) by lia.
  replace (next + Z.of_nat (length img) - next) with (Z.of_nat (length img)) by lia. set (k := Nat.min (length img) (Z.to_nat buf_size)).
  assert ((if Z.of_nat (length img) <? buf_size then Z.of_nat (length img) else buf_size) = Z.of_nat k) as -> by (destruct (Z.ltb_spec (Z.of_nat (length img)) buf_size); lia).
  assert (length (take k img) = k) as Ek by (rewrite length_take; lia). rewrite <- (take_drop k img), <- app_assoc in Hin.
  destruct (get_buffer_consumes g (take k img) _ Hg Hin) as (g1 & E1 & Hg1 & Hin1). rewrite Ek in E1. rewrite E1, Ek, Z.eqb_refl. cbn [negb].
  rewrite do_write_room by lia. rewrite Ek, Z.eqb_refl. cbn [negb].
  destruct (IH g1 (file_put d (take k img)) (next + Z.of_nat k) (Z.of_nat k) (drop k img) l) as (g2 & E2 & Hg2);
    [done|done|lia|cbn; lia|cbn; rewrite length_drop, Ek; lia|lia|rewrite length_drop; lia|].
  rewrite length_drop in E2. replace (next + Z.of_nat k + Z.of_nat (length img - k)) with (next + Z.of_nat (length img)) in E2 by lia.
  rewrite file_put_app, take_drop in E2 by done. by exists g2.
Qed.

Lemma load_disk_consumes (g : G) d img l : r_ok g -> r_in g = enc_image img ++ l -> disk_takes d img ->
  exists d' g', nand_dev_load_disk_state g d = (0, d', g') /\ image_of d' = img /\ consumed l g'.
Proof.
  intros Hg Hin (h & Eh & Hsz & Hroom). unfold nand_dev_load_disk_state, enc_image in *. rewrite <- app_assoc in Hin.
  destruct (get_be64_consumes g _ _ Hg Hin) as (g1 & -> & Hg1 & Hin1). rewrite wrap_small by (unfold in_u; lia).
  rewrite (proj2 (Z.ltb_ge (max_size d) _)), Eh by lia. change (do_lseek h 0) with (0, with_pos 0 h). rewrite Nat2Z.id.
  destruct (load_loop_consumes (S (length img)) g1 (with_pos 0 h) 0 NAND_DEV_SAVE_DISK_BUF_SIZE img l) as (g2 & E2 & Hg2); [done|done|done|done|cbn; lia|lia|lia|].
  rewrite Z.add_0_l in E2. rewrite E2. change (nz 0) with false. cbv iota. unfold do_ftruncate. eexists _, g2. split_and!; [done| |done].
  unfold image_of. cbn [nd_fd with_fd f_bytes]. rewrite Nat2Z.id. unfold pad_to. cbn [f_bytes file_put with_pos].
  destruct (decide (img = [])) as [->|Hne]; [done|]. rewrite take_app_le by (rewrite length_image_put by done; cbn; lia).
  unfold image_put. rewrite decide_False by done. unfold blit, pad_to. change (Z.to_nat 0) with 0%nat. rewrite take_0, app_nil_l. apply take_app_length.
Qed.

Lemma load_disks_consume (imgs : list (list Z)) : forall (g : G) ds l, r_ok g -> r_in g = concat (enc_image <$> imgs) ++ l -> Forall2 disk_takes ds imgs ->
  exists ds' g', nand_dev_load_disks g ds = (0, ds', g') /\ image_of <$> ds' = imgs /\ consumed l g'.
Proof.
  induction imgs as [|img imgs IH]; intros g ds l Hg Hin Hd; [apply Forall2_nil_inv_r in Hd as ->; by exists [], g|].
  apply Forall2_cons_inv_r in Hd as (d & ds0 & Hd & Hds & ->). rewrite fmap_cons in Hin. cbn [concat] in Hin. rewrite <- app_assoc in Hin. cbn [nand_dev_load_disks].
  destruct (load_disk_consumes g d img _ Hg Hin Hd) as (d' & g1 & -> & E1 & Hg1 & Hin1). change (nz 0) with false. cbv iota.
  destruct (IH g1 ds0 l Hg1 Hin1 Hds) as (ds' & g2 & -> & E2 & Hg2). exists (d' :: ds'), g2. by rewrite fmap_cons, E1, E2.
Qed.

End Loading.

Definition nand_bytes (n : nand) : list Z :=
  enc_struct nand_dev_controller_state_fields (ctl n) ++ concat (enc_image <$> (image_of <$> devs n)).


