(* ===== verification/Mmc.v ===== *)
(** The SD card of the goldfish platform, hw/android/goldfish/mmc.c: registers,
    the command set, the card's description and its snapshots. The card's
    contents are a drive of the block layer. *)
From S2P Require Import Prelude ByteStream QemuFile HostFile Irq GoldfishDevice GoldfishTty GemTrace GuestMem Block.
Open Scope list_scope.

(** ** Registers and commands *)

Definition MMC_INT_STATUS : Z := 0x00.
Definition MMC_INT_ENABLE : Z := 0x04.
Definition MMC_SET_BUFFER : Z := 0x08.
Definition MMC_CMD : Z := 0x0C.
Definition MMC_ARG : Z := 0x10.
Definition MMC_RESP_0 : Z := 0x14.
Definition MMC_RESP_1 : Z := 0x18.
Definition MMC_RESP_2 : Z := 0x1C.
Definition MMC_RESP_3 : Z := 0x20.
Definition MMC_BLOCK_LENGTH : Z := 0x24.
Definition MMC_BLOCK_COUNT : Z := 0x28.
Definition MMC_STATE : Z := 0x2C.
Definition MMC_SET_BUFFER_HIGH : Z := 0x30.
Definition MMC_STAT_END_OF_CMD : Z := 1 .<< 0.
Definition MMC_STAT_END_OF_DATA : Z := 1 .<< 1.
Definition MMC_STATE_INSERTED : Z := 1 .<< 0.
Definition MMC_STATE_READ_ONLY : Z := 1 .<< 1.

Definition MMC_ALL_SEND_CID : Z := 2.
Definition MMC_SET_RELATIVE_ADDR : Z := 3.
Definition MMC_SWITCH : Z := 6.
Definition MMC_SELECT_CARD : Z := 7.
Definition MMC_SEND_EXT_CSD : Z := 8.
Definition MMC_SEND_CSD : Z := 9.
Definition MMC_STOP_TRANSMISSION : Z := 12.
Definition MMC_SEND_STATUS : Z := 13.
Definition MMC_SET_BLOCKLEN : Z := 16.
Definition MMC_READ_SINGLE_BLOCK : Z := 17.
Definition MMC_READ_MULTIPLE_BLOCK : Z := 18.
Definition MMC_WRITE_BLOCK : Z := 24.
Definition MMC_WRITE_MULTIPLE_BLOCK : Z := 25.
Definition SD_APP_OP_COND : Z := 41.
Definition SD_APP_SEND_SCR : Z := 51.
Definition MMC_APP_CMD : Z := 55.

Definition R1_READY_FOR_DATA : Z := 1 .<< 8.
Definition R1_APP_CMD : Z := 1 .<< 5.
Definition SET_R1_CURRENT_STATE (s : Z) : Z := (s .<< 9) .& 0x00001E00.

(** ** The device *)

(** [mm_buf] is the 512-byte buffer at [mm_buf_addr]. *)
Record goldfish_mmc_state (D : Type) := mkMmc {
  mm_dev : goldfish_device;
  mm_bs : BlockDriverState D;
  buffer_address : Z;
  read_offset : Z;
  write_offset : Z;
  mm_int_status : Z;
  mm_int_enable : Z;
  mm_arg : Z;
  mm_resp : list Z;
  block_length : Z;
  block_count : Z;
  is_SDHC : Z;
  mm_buf_addr : Z;
  mm_buf : list Z;
}.
Arguments mkMmc {D} _ _ _ _ _ _ _ _ _ _ _ _ _ _.
Arguments mm_dev {D} _.
Arguments mm_bs {D} _.
Arguments buffer_address {D} _.
Arguments read_offset {D} _.
Arguments write_offset {D} _.
Arguments mm_int_status {D} _.
Arguments mm_int_enable {D} _.
Arguments mm_arg {D} _.
Arguments mm_resp {D} _.
Arguments block_length {D} _.
Arguments block_count {D} _.
Arguments is_SDHC {D} _.
Arguments mm_buf_addr {D} _.
Arguments mm_buf {D} _.

Section Setters.
Context {D : Type}.
Implicit Type s : goldfish_mmc_state D.
Abbreviation mmc := (goldfish_mmc_state D).

Definition set_drive (bs : BlockDriverState D) (buf : list Z) s : mmc :=
  mkMmc (mm_dev s) bs (buffer_address s) (read_offset s) (write_offset s) (mm_int_status s) (mm_int_enable s) (mm_arg s) (mm_resp s) (block_length s) (block_count s) (is_SDHC s) (mm_buf_addr s) buf.
Definition set_buffer_address (v : Z) s : mmc :=
  mkMmc (mm_dev s) (mm_bs s) v (read_offset s) (write_offset s) (mm_int_status s) (mm_int_enable s) (mm_arg s) (mm_resp s) (block_length s) (block_count s) (is_SDHC s) (mm_buf_addr s) (mm_buf s).
Definition set_read_offset (v : Z) s : mmc :=
  mkMmc (mm_dev s) (mm_bs s) (buffer_address s) v (write_offset s) (mm_int_status s) (mm_int_enable s) (mm_arg s) (mm_resp s) (block_length s) (block_count s) (is_SDHC s) (mm_buf_addr s) (mm_buf s).
Definition set_write_offset (v : Z) s : mmc :=
  mkMmc (mm_dev s) (mm_bs s) (buffer_address s) (read_offset s) v (mm_int_status s) (mm_int_enable s) (mm_arg s) (mm_resp s) (block_length s) (block_count s) (is_SDHC s) (mm_buf_addr s) (mm_buf s).
Definition set_mm_status (v : Z) s : mmc :=
  mkMmc (mm_dev s) (mm_bs s) (buffer_address s) (read_offset s) (write_offset s) v (mm_int_enable s) (mm_arg s) (mm_resp s) (block_length s) (block_count s) (is_SDHC s) (mm_buf_addr s) (mm_buf s).
Definition set_mm_enable (v : Z) s : mmc :=
  mkMmc (mm_dev s) (mm_bs s) (buffer_address s) (read_offset s) (write_offset s) (mm_int_status s) v (mm_arg s) (mm_resp s) (block_length s) (block_count s) (is_SDHC s) (mm_buf_addr s) (mm_buf s).
Definition set_mm_arg (v : Z) s : mmc :=
  mkMmc (mm_dev s) (mm_bs s) (buffer_address s) (read_offset s) (write_offset s) (mm_int_status s) (mm_int_enable s) v (mm_resp s) (block_length s) (block_count s) (is_SDHC s) (mm_buf_addr s) (mm_buf s).
Definition set_mm_resp (v : list Z) s : mmc :=
  mkMmc (mm_dev s) (mm_bs s) (buffer_address s) (read_offset s) (write_offset s) (mm_int_status s) (mm_int_enable s) (mm_arg s) v (block_length s) (block_count s) (is_SDHC s) (mm_buf_addr s) (mm_buf s).
Definition set_block_length (v : Z) s : mmc :=
  mkMmc (mm_dev s) (mm_bs s) (buffer_address s) (read_offset s) (write_offset s) (mm_int_status s) (mm_int_enable s) (mm_arg s) (mm_resp s) v (block_count s) (is_SDHC s) (mm_buf_addr s) (mm_buf s).
Definition set_block_count (v : Z) s : mmc :=
  mkMmc (mm_dev s) (mm_bs s) (buffer_address s) (read_offset s) (write_offset s) (mm_int_status s) (mm_int_enable s) (mm_arg s) (mm_resp s) (block_length s) v (is_SDHC s) (mm_buf_addr s) (mm_buf s).
Definition set_is_SDHC (v : Z) s : mmc :=
  mkMmc (mm_dev s) (mm_bs s) (buffer_address s) (read_offset s) (write_offset s) (mm_int_status s) (mm_int_enable s) (mm_arg s) (mm_resp s) (block_length s) (block_count s) v (mm_buf_addr s) (mm_buf s).

(** One word of the response. *)
Definition resp (i : nat) s : Z := default 0 (mm_resp s !! i).
Definition set_resp (i : nat) (v : Z) s : mmc := set_mm_resp (<[i := v]> (mm_resp s)) s.

(** ** Snapshots *)

Definition GOLDFISH_MMC_SAVE_VERSION : Z := 3.
Definition GOLDFISH_MMC_SAVE_VERSION_LEGACY : Z := 2.

Definition goldfish_mmc_fields : list (QField mmc) := [
  Q_FIELD_INT32 read_offset set_read_offset; Q_FIELD_INT32 write_offset set_write_offset;
  Q_FIELD_INT32 mm_int_status set_mm_status; Q_FIELD_INT32 mm_int_enable set_mm_enable; Q_FIELD_INT32 mm_arg set_mm_arg;
  Q_FIELD_INT32 (resp 0) (set_resp 0); Q_FIELD_INT32 (resp 1) (set_resp 1); Q_FIELD_INT32 (resp 2) (set_resp 2); Q_FIELD_INT32 (resp 3) (set_resp 3);
  Q_FIELD_INT32 block_length set_block_length; Q_FIELD_INT32 block_count set_block_count;
  Q_FIELD_INT32 (fun s => u32 (is_SDHC s)) (fun v => set_is_SDHC (s32 v))].

Definition goldfish_mmc_save {F} `{ByteWriter F} (f : F) s : F :=
  qemu_put_struct (qemu_put_be64 f (buffer_address s)) goldfish_mmc_fields s.

Definition goldfish_mmc_load {G} `{ByteReader G} (g : G) s (version_id : Z) : Z * mmc * G :=
  if version_id =? GOLDFISH_MMC_SAVE_VERSION then
    let '(v, g) := qemu_get_be64 g in qemu_get_struct g goldfish_mmc_fields (set_buffer_address v s)
  else if version_id =? GOLDFISH_MMC_SAVE_VERSION_LEGACY then
    let '(v, g) := qemu_get_be32 g in qemu_get_struct g goldfish_mmc_fields (set_buffer_address v s)
  else (-1, s, g).

(** [goldfish_mmc_init] before the device is registered. *)
Definition goldfish_mmc_init (base id : Z) (bs : BlockDriverState D) (buf_addr : Z) (buf : list Z) : mmc :=
  mkMmc (mkDev None 0 [103; 111; 108; 100; 102; 105; 115; 104; 95; 109; 109; 99] id base 0x1000 0 1) bs 0 0 0 0 0 0 [0; 0; 0; 0] 0 0 0 buf_addr buf.
End Setters.

(** ** The card's description *)

(** Halving the capacity until it fits 12 bits; a 64-bit number takes less than
    64 rounds. *)
Fixpoint csd_loop (fuel : nat) (capacity exponent : Z) : Z * Z :=
  match fuel with
  | O => (capacity, exponent)
  | S fuel => if 4096 <? capacity then csd_loop fuel (capacity .>> 1) (u8 (exponent + 1)) else (capacity, exponent)
  end.

(** The response to [MMC_SEND_CSD], lowest word first, and [is_SDHC]. *)
Definition send_csd (sector_count : Z) : outcome (list Z * Z) :=
  let capacity := u64 (sector_count * 512) in
  if 2147483648 <? capacity then
    let m := u32 (u32 (capacity / (512 * 1024)) - 1) in
    if nz (m .& 0xFFC00000) then CpuAbort
    else Ret ([0x0A4040DF; 0x00007F80 .| u32 ((m .& 0x0000FFFF) .<< 16); 0x5B590000 .| (m .>> 16); 0x400E0032], 1)
  else
    let '(capacity, exponent) := csd_loop 64 (capacity .>> 10) 0 in
    let capacity := u64 (capacity - 1) in
    if exponent <? 2 then CpuAbort
    else
      let exponent := u8 (exponent - 2) in
      if 7 <? exponent then CpuAbort
      else Ret ([0x928040CB; 0x3EF84FFF .| u32 ((u32 capacity .& 3) .<< 30) .| (exponent .<< (47 - 32)); 0x5F5A8000 .| ((u32 capacity .>> 2) .& 0x3FF); 0x00260032], 0).

(** ** Transfers and commands *)

Section Device.
Context {D : Type} `{BlockDriver D}.
Context {V W : Type} (pic : list (qemu_irq V)).
Context (io_mem_write : Z -> Z -> Z -> Z -> W -> W) (io_mem_read : Z -> Z -> Z -> W -> Z * W).
Context (PB : Z) (phys_page_find : Z -> option PhysPageDesc) (env : cpu_regs).

Abbreviation mmc := (goldfish_mmc_state D).
Abbreviation machine := (gmachine (W := W)).
Abbreviation phys_write_buf := (cpu_physical_memory_write (W := W) io_mem_write PB phys_page_find env).
Abbreviation phys_read_buf := (cpu_physical_memory_read (W := W) io_mem_read PB phys_page_find env).

(** The loops of the two transfers over [n] sectors. *)
Fixpoint goldfish_mmc_bdrv_read (n : nat) (s : mmc) (m : machine) (sector_number dst_address : Z) : outcome (Z * mmc * machine) :=
  match n with
  | O => Ret (0, s, m)
  | S n =>
      '(ret, buf, bs) ← bdrv_read (mm_bs s) sector_number (mm_buf_addr s) (mm_buf s) 1;
      let s := set_drive bs buf s in
      if ret <? 0 then Ret (ret, s, m)
      else
        m ← phys_write_buf m dst_address (take 512 buf);
        goldfish_mmc_bdrv_read n s m (sector_number + 1) (u64 (dst_address + 512))
  end.

Fixpoint goldfish_mmc_bdrv_write (n : nat) (s : mmc) (m : machine) (sector_number dst_address : Z) : outcome (Z * mmc * machine) :=
  match n with
  | O => Ret (0, s, m)
  | S n =>
      '(bytes, m) ← phys_read_buf m dst_address 512;
      let buf := blit (mm_buf s) 0 bytes in
      '(ret, bs) ← bdrv_write (mm_bs s) sector_number (mm_buf_addr s) buf 1;
      let s := set_drive bs buf s in
      if ret <? 0 then Ret (ret, s, m)
      else goldfish_mmc_bdrv_write n s m (sector_number + 1) (u64 (dst_address + 512))
  end.

(** The block of an argument: the division stops the emulator when the block
    length is 0. *)
Definition arg_block (s : mmc) (arg : Z) : outcome Z :=
  if nz (is_SDHC s) then Ret arg
  else if block_length s =? 0 then CpuAbort
  else Ret (arg / block_length s).

(** The commands that move data, with the bits of the status they set. *)
Definition mmc_transfer (reading : bool) (s : mmc) (m : machine) (arg : Z) : outcome (mmc * machine * Z) :=
  block ← arg_block s arg;
  '(_, s, m) ← (let n := Z.to_nat (s32 (block_count s)) in
                if reading then goldfish_mmc_bdrv_read n s m block (buffer_address s) else goldfish_mmc_bdrv_write n s m block (buffer_address s));
  Ret (set_resp 0 (SET_R1_CURRENT_STATE 4 .| R1_READY_FOR_DATA) s, m, MMC_STAT_END_OF_CMD .| MMC_STAT_END_OF_DATA).

Definition mmc_opcode (s : mmc) (m : machine) (opcode arg : Z) : outcome (mmc * machine * Z) :=
  let ready := SET_R1_CURRENT_STATE 4 .| R1_READY_FOR_DATA in
  let plain (s : mmc) : outcome (mmc * machine * Z) := Ret (s, m, MMC_STAT_END_OF_CMD) in
  if opcode =? MMC_SEND_CSD then
    '(r, sdhc) ← send_csd (bdrv_get_geometry (mm_bs s)); plain (set_is_SDHC sdhc (set_mm_resp r s))
  else if opcode =? MMC_SEND_EXT_CSD then plain (set_resp 0 arg s)
  else if opcode =? MMC_APP_CMD then plain (set_resp 0 (ready .| R1_APP_CMD) s)
  else if opcode =? SD_APP_OP_COND then plain (set_resp 0 0x80FF8000 s)
  else if opcode =? SD_APP_SEND_SCR then
    m ← phys_write_buf m (buffer_address s) [0x02; 0x25; 0; 0; 0; 0; 0; 0];
    Ret (set_resp 0 (ready .| R1_APP_CMD) s, m, MMC_STAT_END_OF_CMD .| MMC_STAT_END_OF_DATA)
  else if opcode =? MMC_SET_RELATIVE_ADDR then plain (set_resp 0 (u32 (-518519520)) s)
  else if opcode =? MMC_ALL_SEND_CID then plain (set_mm_resp [u32 (-436179883); u32 (-2147479692); 1429221959; 55788627] s)
  else if opcode =? MMC_SELECT_CARD then plain (set_resp 0 (SET_R1_CURRENT_STATE 3 .| R1_READY_FOR_DATA) s)
  else if opcode =? MMC_SWITCH then
    '(m, st) ← (if (arg =? 0x00FFFFF1) || (arg =? 0x80FFFFF1) then
                  m ← phys_write_buf m (buffer_address s) (<[13%nat := 2]> (replicate 64 0));
                  Ret (m, MMC_STAT_END_OF_CMD .| MMC_STAT_END_OF_DATA)
                else Ret (m, MMC_STAT_END_OF_CMD));
    Ret (set_resp 0 (ready .| R1_APP_CMD) s, m, st)
  else if opcode =? MMC_SET_BLOCKLEN then plain (set_resp 0 ready (set_block_length arg s))
  else if opcode =? MMC_READ_SINGLE_BLOCK then mmc_transfer true (set_block_count 1 s) m arg
  else if opcode =? MMC_READ_MULTIPLE_BLOCK then mmc_transfer true s m arg
  else if opcode =? MMC_WRITE_BLOCK then mmc_transfer false (set_block_count 1 s) m arg
  else if opcode =? MMC_WRITE_MULTIPLE_BLOCK then mmc_transfer false s m arg
  else if opcode =? MMC_STOP_TRANSMISSION then plain (set_resp 0 (SET_R1_CURRENT_STATE 5 .| R1_READY_FOR_DATA) s)
  else if opcode =? MMC_SEND_STATUS then plain (set_resp 0 ready s)
  else plain s.

Definition goldfish_mmc_do_command (s : mmc) (m : machine) (w : V) (cmd arg : Z) : outcome (mmc * machine * V) :=
  '(s, m, new_status) ← mmc_opcode (set_mm_resp [0; 0; 0; 0] s) m (cmd .& 63) arg;
  let s := set_mm_status (mm_int_status s .| new_status) s in
  let on := mm_int_status s .& mm_int_enable s in
  if nz on then w ← or_abort (goldfish_device_set_irq pic (mm_dev s) 0 (s32 on) w); Ret (s, m, w) else Ret (s, m, w).

Definition goldfish_mmc_read (s : mmc) (offset : Z) : outcome Z :=
  if offset =? MMC_INT_STATUS then Ret (mm_int_status s .& mm_int_enable s)
  else if offset =? MMC_RESP_0 then Ret (resp 0 s)
  else if offset =? MMC_RESP_1 then Ret (resp 1 s)
  else if offset =? MMC_RESP_2 then Ret (resp 2 s)
  else if offset =? MMC_RESP_3 then Ret (resp 3 s)
  else if offset =? MMC_STATE then Ret (if bdrv_is_read_only (mm_bs s) then MMC_STATE_INSERTED .| MMC_STATE_READ_ONLY else MMC_STATE_INSERTED)
  else CpuAbort.

Definition goldfish_mmc_write (s : mmc) (m : machine) (w : V) (offset val : Z) : outcome (mmc * machine * V) :=
  if offset =? MMC_INT_STATUS then
    let old_status := s32 (mm_int_status s) in
    let status := s32 (mm_int_status s .& u32 (.~ val)) in
    let s := set_mm_status (u32 status) s in
    if negb (status =? old_status) then w ← or_abort (goldfish_device_set_irq pic (mm_dev s) 0 status w); Ret (s, m, w) else Ret (s, m, w)
  else if offset =? MMC_INT_ENABLE then
    let s := set_mm_status 0 (set_mm_enable val s) in
    w ← or_abort (goldfish_device_set_irq pic (mm_dev s) 0 0 w); Ret (s, m, w)
  else if offset =? MMC_SET_BUFFER then Ret (set_buffer_address (uint64_set_low (buffer_address s) val) s, m, w)
  else if offset =? MMC_SET_BUFFER_HIGH then Ret (set_buffer_address (uint64_set_high (buffer_address s) val) s, m, w)
  else if offset =? MMC_CMD then goldfish_mmc_do_command s m w val (mm_arg s)
  else if offset =? MMC_ARG then Ret (set_mm_arg val s, m, w)
  else if offset =? MMC_BLOCK_LENGTH then Ret (set_block_length (u32 (val + 1)) s, m, w)
  else if offset =? MMC_BLOCK_COUNT then Ret (set_block_count (u32 (val + 1)) s, m, w)
  else CpuAbort.
End Device.
