(* ===== verification/MmcSpec.v ===== *)
(** What the SD card of [Mmc] does for its guest: the capacity its description
    tells, transfers between a flat card and a flat memory, interrupts, and
    snapshots. *)
From S2P Require Import Prelude ByteStream QemuFile HostFile Irq GoldfishInt GoldfishDevice GoldfishTty GemTrace GuestMem Block BlockRaw BlockSpec NandSpec Mmc.
Open Scope list_scope.

(** ** The capacity *)

(** Bits of the 128-bit description, lowest word first. *)
Definition csd_value (r : list Z) : Z := foldr (fun w v => w + 2 ^ 32 * v) 0 r.
Definition UNSTUFF_BITS (r : list Z) (start size : Z) : Z := (csd_value r / 2 ^ start) mod 2 ^ size.

(** The bytes of a card: by version 1 of the description, blocks of
    2^[READ_BL_LEN] bytes, or by version 2, units of 512 kB. *)
Definition csd_capacity (r : list Z) : Z :=
  if UNSTUFF_BITS r 126 2 =? 0 then
    let e := UNSTUFF_BITS r 47 3 in
    let m := UNSTUFF_BITS r 62 12 in
    (1 + m) * 2 ^ (e + 2) * 2 ^ UNSTUFF_BITS r 80 4
  else (1 + UNSTUFF_BITS r 48 22) * (512 * 1024).

(** Fields that do not overlap. *)
Lemma lor_shifted a b k : 0 <= k -> 0 <= a < 2 ^ k -> a .| (b .<< k) = a + b * 2 ^ k.
Proof.
  intros Hk Ha. rewrite <- Z.add_nocarry_lor; [by rewrite Z.shiftl_mul_pow2|]. apply Z.bits_inj'. intros i Hi.
  rewrite Z.land_spec, Z.bits_0, Z.shiftl_spec by done. destruct (Z.lt_ge_cases i k).
  - by rewrite (Z.testbit_neg_r b), andb_false_r by lia.
  - rewrite <- (Z.mod_small a (2 ^ k)) by done. by rewrite Z.mod_pow2_bits_high by lia.
Qed.

Lemma field_at r start size lo x hi : 0 <= start -> 0 <= size -> csd_value r = lo + 2 ^ start * (x + 2 ^ size * hi) -> 0 <= lo < 2 ^ start -> 0 <= x < 2 ^ size ->
  UNSTUFF_BITS r start size = x.
Proof.
  intros Hs Hk E Hl Hx. unfold UNSTUFF_BITS. rewrite E, Z.add_comm, Z.mul_comm, Z.div_add_l, (Z.div_small lo), Z.add_0_r by lia.
  rewrite Z.mul_comm, Z.mod_add by lia. by apply Z.mod_small.
Qed.

Lemma csd_loop_spec fuel : forall c e, 0 <= c <= 4096 * 2 ^ Z.of_nat fuel -> 0 <= e -> e + Z.of_nat fuel < 256 ->
  exists k, csd_loop fuel c e = (c / 2 ^ k, e + k) /\ 0 <= k /\ c / 2 ^ k <= 4096 /\ (0 < k -> 4096 < c / 2 ^ (k - 1)).
Proof.
  induction fuel as [|fuel IH]; intros c e Hc He Hf.
  { exists 0. cbn. rewrite Z.div_1_r, Z.add_0_r. split_and!; [done|lia|simpl in Hc; lia|lia]. }
  cbn [csd_loop]. destruct (Z.ltb_spec 4096 c); [|exists 0; cbn; rewrite Z.div_1_r, Z.add_0_r; split_and!; (done || lia)].
  rewrite wrap_small by (unfold in_u; lia). rewrite Z.shiftr_div_pow2 by lia. change (2 ^ 1) with 2.
  rewrite Nat2Z.inj_succ, Z.pow_succ_r in Hc by lia.
  destruct (IH (c / 2) (e + 1)) as (k & -> & Hk & Hle & Hgt); [split; [apply Z.div_pos; lia|apply Z.div_le_upper_bound; lia]|lia|lia|].
  assert (forall j, 0 <= j -> c / 2 / 2 ^ j = c / 2 ^ (j + 1)) as Hdd by (intros j Hj; rewrite Z.div_div, Z.pow_add_r by lia; f_equal; lia).
  exists (k + 1). rewrite Hdd in Hle |- * by done. split_and!; [f_equal; lia|lia|done|]. intros _. destruct (Z.eq_dec k 0) as [->|Hk0].
  - change (2 ^ (0 + 1 - 1)) with 1. by rewrite Z.div_1_r.
  - specialize (Hgt ltac:(lia)). rewrite Hdd in Hgt by lia. by replace (k + 1 - 1) with (k - 1 + 1) by lia.
Qed.

(** The words of the two kinds of description. *)
Lemma sd_words c e : 0 <= c < 2 ^ 12 -> 0 <= e < 8 ->
  let r := [0x928040CB; 0x3EF84FFF .| u32 ((c .& 3) .<< 30) .| (e .<< 15); 0x5F5A8000 .| ((c .>> 2) .& 0x3FF); 0x00260032] in
  UNSTUFF_BITS r 126 2 = 0 /\ csd_capacity r = (1 + c) * 2 ^ (e + 12).
Proof.
  intros Hc He. cbv zeta. change 3 with (Z.ones 2). change 0x3FF with (Z.ones 10). rewrite !Z.land_ones, Z.shiftr_div_pow2 by lia. change (2 ^ 2) with 4. change (2 ^ 10) with 1024.
  pose proof (Z.div_mod c 4 ltac:(lia)) as Hd. pose proof (Z.mod_pos_bound c 4 ltac:(lia)) as Hm. set (c2 := c mod 4) in *. set (c10 := c / 4) in *.
  rewrite (Z.mod_small c10) by lia. rewrite wrap_small by (unfold in_u; rewrite Z.shiftl_mul_pow2 by lia; lia).
  rewrite (lor_shifted 0x3EF84FFF) by lia. rewrite (Z.lor_comm 0x5F5A8000). change 0x5F5A8000 with (0xBEB5 .<< 15). rewrite (lor_shifted c10) by lia.
  replace (0x3EF84FFF + c2 * 2 ^ 30) with (0x4FFF .| ((0xFBE + c2 * 2 ^ 12) .<< 18)) by (rewrite lor_shifted; lia).
  rewrite <- Z.lor_assoc. replace ((0xFBE + c2 * 2 ^ 12) .<< 18) with (((0xFBE + c2 * 2 ^ 12) .<< 3) .<< 15) by (rewrite Z.shiftl_shiftl by lia; done).
  rewrite <- Z.shiftl_lor, (Z.lor_comm (_ .<< 3)), (lor_shifted e) by lia. rewrite lor_shifted by lia. set (r := [_; _; _; _]).
  assert (csd_value r = 0x928040CB + 2 ^ 32 * (0x4FFF + (e + (0xFBE + c2 * 2 ^ 12) * 2 ^ 3) * 2 ^ 15) + 2 ^ 64 * (c10 + 0xBEB5 * 2 ^ 15) + 2 ^ 96 * 0x00260032) as Er
    by (unfold r, csd_value; cbn [foldr]; lia).
  clearbody r. assert (UNSTUFF_BITS r 126 2 = 0) as Ev by (apply (field_at r 126 2 (0x928040CB + 2 ^ 32 * (0x4FFF + (e + (0xFBE + c2 * 2 ^ 12) * 2 ^ 3) * 2 ^ 15) + 2 ^ 64 * (c10 + 0xBEB5 * 2 ^ 15) + 2 ^ 96 * 0x00260032) 0 0); lia).
  split; [done|]. unfold csd_capacity. rewrite Ev.
  rewrite (field_at r 47 3 (0x928040CB + 2 ^ 32 * 0x4FFF) e (0xFBE + c2 * 2 ^ 12 + 2 ^ 14 * (c10 + 0xBEB5 * 2 ^ 15) + 2 ^ 46 * 0x00260032)) by lia.
  rewrite (field_at r 62 12 (0x928040CB + 2 ^ 32 * (0x4FFF + (e + 0xFBE * 2 ^ 3) * 2 ^ 15)) c (0xBEB5 * 2 ^ 5 + 2 ^ 22 * 0x00260032)) by lia.
  rewrite (field_at r 80 4 (0x928040CB + 2 ^ 32 * (0x4FFF + (e + (0xFBE + c2 * 2 ^ 12) * 2 ^ 3) * 2 ^ 15) + 2 ^ 64 * (c10 + 2 ^ 15)) 10 (0x5F5 + 2 ^ 12 * 0x00260032)) by lia.
  cbn [Z.eqb]. rewrite <- Z.mul_assoc, <- Z.pow_add_r by lia. do 2 f_equal. lia.
Qed.

Lemma sdhc_words m : 0 <= m < 2 ^ 22 ->
  let r := [0x0A4040DF; 0x00007F80 .| u32 ((m .& 0x0000FFFF) .<< 16); 0x5B590000 .| (m .>> 16); 0x400E0032] in
  UNSTUFF_BITS r 126 2 = 1 /\ csd_capacity r = (1 + m) * (512 * 1024).
Proof.
  intros Hm. cbv zeta. change 0x0000FFFF with (Z.ones 16). rewrite Z.land_ones, Z.shiftr_div_pow2 by lia.
  pose proof (Z.div_mod m (2 ^ 16) ltac:(lia)) as Hd. pose proof (Z.mod_pos_bound m (2 ^ 16) ltac:(lia)) as Hb. set (lo := m mod 2 ^ 16) in *. set (hi := m / 2 ^ 16) in *.
  rewrite wrap_small by (unfold in_u; rewrite Z.shiftl_mul_pow2 by lia; lia). rewrite lor_shifted by lia. rewrite (Z.lor_comm 0x5B590000).
  change 0x5B590000 with (0x5B59 .<< 16). rewrite lor_shifted by lia. set (r := [_; _; _; _]).
  assert (csd_value r = 0x0A4040DF + 2 ^ 32 * (0x7F80 + lo * 2 ^ 16) + 2 ^ 64 * (hi + 0x5B59 * 2 ^ 16) + 2 ^ 96 * 0x400E0032) as Er by (unfold r, csd_value; cbn [foldr]; lia).
  clearbody r. assert (UNSTUFF_BITS r 126 2 = 1) as Ev by (apply (field_at r 126 2 (0x0A4040DF + 2 ^ 32 * (0x7F80 + lo * 2 ^ 16) + 2 ^ 64 * (hi + 0x5B59 * 2 ^ 16) + 2 ^ 96 * 0xE0032) 1 0); lia).
  split; [done|]. unfold csd_capacity. rewrite Ev. cbn [Z.eqb].
  by rewrite (field_at r 48 22 (0x0A4040DF + 2 ^ 32 * 0x7F80) m (0x5B59 * 2 ^ 10 + 2 ^ 26 * 0x400E0032)) by lia.
Qed.

Lemma sd_csd sc : 8194 * 1024 <= sc * 512 <= 2 ^ 31 ->
  exists r, send_csd sc = Ret (r, 0) /\ UNSTUFF_BITS r 126 2 = 0 /\ csd_capacity r <= sc * 512 < csd_capacity r + 512 * 1024.
Proof.
  intros Hc. unfold send_csd. rewrite (wrap_small 64 (sc * 512)) by (unfold in_u; lia). rewrite (proj2 (Z.ltb_ge _ _)) by lia.
  rewrite Z.shiftr_div_pow2 by lia. change (2 ^ 10) with 1024. pose proof (Z.div_mod (sc * 512) 1024 ltac:(lia)) as Hd. pose proof (Z.mod_pos_bound (sc * 512) 1024 ltac:(lia)) as Hm.
  set (kb := sc * 512 / 1024) in *. destruct (csd_loop_spec 64 kb 0) as (k & -> & Hk & Hle & Hgt); [split; [lia|change (4096 * 2 ^ Z.of_nat 64) with (2 ^ 76); lia]|lia|lia|].
  rewrite Z.add_0_l.
  assert (2 <= k <= 9) as Hk9.
  { split.
    - destruct (Z.eq_dec k 0) as [->|]; [rewrite Z.div_1_r in Hle; lia|]. destruct (Z.eq_dec k 1) as [->|]; [|lia].
      change (2 ^ 1) with 2 in Hle. pose proof (Z.div_mod kb 2 ltac:(lia)). pose proof (Z.mod_pos_bound kb 2 ltac:(lia)). lia.
    - destruct (Z.le_gt_cases k 9); [done|]. specialize (Hgt ltac:(lia)).
      assert (2 ^ 9 <= 2 ^ (k - 1)) as Hp by (apply Z.pow_le_mono_r; lia). pose proof (Z.mul_div_le kb (2 ^ (k - 1)) ltac:(lia)). nia. }
  pose proof (Z.div_mod kb (2 ^ k) ltac:(lia)) as Hdk. pose proof (Z.mod_pos_bound kb (2 ^ k) ltac:(lia)) as Hmk.
  assert (2 ^ k <= 512) as Hp by (change 512 with (2 ^ 9); apply Z.pow_le_mono_r; lia). set (q := kb / 2 ^ k) in *. assert (1 <= q) by nia.
  rewrite (proj2 (Z.ltb_ge k 2)) by lia. rewrite !(wrap_small 8), (proj2 (Z.ltb_ge 7 _)) by (unfold in_u; lia).
  rewrite (wrap_small 64 (q - 1)), (wrap_small 32 (q - 1)) by (unfold in_u; lia). eexists. split; [done|]. change (47 - 32) with 15.
  destruct (sd_words (q - 1) (k - 2) ltac:(lia) ltac:(lia)) as [Ev ->]. split; [done|]. replace (k - 2 + 12) with (k + 10) by lia. rewrite Z.pow_add_r by lia. change (2 ^ 10) with 1024. nia.
Qed.

Lemma sdhc_csd sc : 2 ^ 31 < sc * 512 <= 2 ^ 41 ->
  exists r, send_csd sc = Ret (r, 1) /\ UNSTUFF_BITS r 126 2 = 1 /\ csd_capacity r <= sc * 512 < csd_capacity r + 512 * 1024.
Proof.
  intros Hc. unfold send_csd. rewrite (wrap_small 64 (sc * 512)) by (unfold in_u; lia). rewrite (proj2 (Z.ltb_lt _ _)) by lia.
  pose proof (Z.div_mod (sc * 512) (512 * 1024) ltac:(lia)) as Hd. pose proof (Z.mod_pos_bound (sc * 512) (512 * 1024) ltac:(lia)) as Hm.
  set (q := sc * 512 / (512 * 1024)) in *. rewrite !(wrap_small 32 q) by (unfold in_u; lia). rewrite !(wrap_small 32 (q - 1)) by (unfold in_u; lia).
  assert (nz ((q - 1) .& 0xFFC00000) = false) as ->.
  { unfold nz. apply negb_false_iff, Z.eqb_eq. change 0xFFC00000 with (Z.ones 10 .<< 22). apply Z.bits_inj'. intros i Hi. rewrite Z.land_spec, Z.bits_0, Z.shiftl_spec by done.
    destruct (Z.lt_ge_cases i 22); [by rewrite (Z.testbit_neg_r (Z.ones 10)), andb_false_r by lia|].
    rewrite <- (Z.mod_small (q - 1) (2 ^ 22)) by lia. by rewrite Z.mod_pow2_bits_high by lia. }
  eexists. split; [done|]. destruct (sdhc_words (q - 1) ltac:(lia)) as [Ev ->]. split; [done|]. lia.
Qed.

(** A card of more than 8 MB and up to 2 TB tells its guest its size: the
    response to [MMC_SEND_CSD] decodes, by version 1 of the description up to
    2 GB and by version 2 above, to the size of the drive rounded down to less
    than 512 kB below it, and the addressing of later commands is switched to
    match the version. *)
Theorem csd_tells_capacity sc : 8194 * 1024 <= sc * 512 <= 2 ^ 41 ->
  exists r sdhc, send_csd sc = Ret (r, sdhc) /\ sdhc = (if 2 ^ 31 <? sc * 512 then 1 else 0)
    /\ (UNSTUFF_BITS r 126 2 =? 0) = (sdhc =? 0) /\ csd_capacity r <= sc * 512 < csd_capacity r + 512 * 1024.
Proof.
  intros Hc. destruct (Z.ltb_spec (2 ^ 31) (sc * 512)).
  - destruct (sdhc_csd sc ltac:(lia)) as (r & E & Ev & Hr). exists r, 1. rewrite Ev. by split_and!; try lia.
  - destruct (sd_csd sc ltac:(lia)) as (r & E & Ev & Hr). exists r, 0. rewrite Ev. by split_and!; try lia.
Qed.

(** A card of 16 MB and one of 4 GB. *)
Lemma csd_tells_capacity_witness :
  (exists r sdhc, send_csd 32768 = Ret (r, sdhc) /\ csd_capacity r = 16777216) /\ (exists r sdhc, send_csd 8388608 = Ret (r, sdhc) /\ csd_capacity r = 4294967296).
Proof.
  split.
  - destruct (csd_tells_capacity 32768 ltac:(lia)) as (r & h & E & _). exists r, h. split; [exact E|]. vm_compute in E. injection E as <- _. vm_compute. reflexivity.
  - destruct (csd_tells_capacity 8388608 ltac:(lia)) as (r & h & E & _). exists r, h. split; [exact E|]. vm_compute in E. injection E as <- _. vm_compute. reflexivity.
Defined.

(** ** Physical memory *)

Lemma guest_store_app mem a b1 b2 x : Z.of_nat (length b1) + Z.of_nat (length b2) <= 2 ^ 64 ->
  guest_store 64 (guest_store 64 mem a b1) (u64 (a + Z.of_nat (length b1))) b2 x = guest_store 64 mem a (b1 ++ b2) x.
Proof.
  intros Hl. unfold guest_store. rewrite wrap_sub_r. replace (x - (a + Z.of_nat (length b1))) with (x - a - Z.of_nat (length b1)) by lia. rewrite <- wrap_sub_l.
  pose proof (wrap_range 64 (x - a) ltac:(lia)) as [Hd0 Hd]. set (d := u64 (x - a)) in *. destruct (Z.lt_ge_cases d (Z.of_nat (length b1))).
  - replace (u64 (d - Z.of_nat (length b1))) with (d - Z.of_nat (length b1) + 2 ^ 64)
      by (unfold wrap; apply (Z.mod_unique_pos _ _ (-1)); lia).
    rewrite lookup_ge_None_2 by lia. by rewrite lookup_app_l by lia.
  - rewrite wrap_small by (unfold in_u; lia). rewrite lookup_app_r by lia. replace (Z.to_nat (d - Z.of_nat (length b1))) with (Z.to_nat d - length b1)%nat by lia.
    destruct (b2 !! _); [done|]. by rewrite lookup_ge_None_2 by lia.
Qed.

Section Phys.
Context {W : Type} (io_mem_write : Z -> Z -> Z -> Z -> W -> W) (io_mem_read : Z -> Z -> Z -> W -> Z * W).
Context (PB : Z) (phys_page_find : Z -> option PhysPageDesc) (env : cpu_regs) (HPB : 0 <= PB < 64).
Abbreviation machine := (gmachine (W := W)).
Abbreviation at_ram := (ram_at PB phys_page_find).
Abbreviation view := (guest_view (W := W) PB phys_page_find Some).

(** A page of RAM, and a buffer in RAM. *)
Definition is_ram (p : Z) : Prop := page_desc PB phys_page_find p .& .~ TARGET_PAGE_MASK PB = IO_MEM_RAM.
Definition ram_buffer (a : Z) (n : nat) : Prop := forall i, (i < n)%nat -> is_ram (u64 (a + Z.of_nat i)).

Lemma virt_at_phys a : in_u 64 a -> virt_at PB phys_page_find Some a = at_ram a.
Proof.
  intros Ha. unfold virt_at. cbn [mbind option_bind]. rewrite land_page, land_off by lia.
  replace (a - a mod 2 ^ PB + a mod 2 ^ PB) with a by lia. by rewrite wrap_small.
Qed.

Lemma ram_buffer_mapped a n : ram_buffer a n -> mapped 64 PB phys_page_find Some a n.
Proof.
  intros Hr i Hi. rewrite virt_at_phys by (apply wrap_range; lia). unfold ram_at, is_mem. rewrite (Hr i Hi). by eexists.
Qed.

Lemma resolves_phys a addrs : virt_resolves 64 PB phys_page_find Some a addrs -> resolves PB phys_page_find a addrs.
Proof. intros Hr i x Hx. rewrite <- (Hr i x Hx). symmetry. apply virt_at_phys, wrap_range. lia. Qed.

Lemma phys_write_ram fuel : forall (m : machine) p addrs buf, in_u 64 p -> resolves PB phys_page_find p addrs -> ram_buffer p (length buf) ->
  length addrs = length buf -> (length buf < fuel)%nat ->
  exists m', phys_write io_mem_write PB phys_page_find env fuel m p buf = Ret m' /\ (forall x, gm_ram m' x = scatter (gm_ram m) addrs buf x).
Proof.
  induction fuel as [|fuel IH]; intros m p addrs buf Hp Hr Hram Hlen Hf; [lia|]. cbn [phys_write].
  destruct buf as [|b buf']; [destruct addrs; [by exists m|done]|]. set (buf := b :: buf') in *. assert (addrs <> []) as Hne by (intros ->; done).
  destruct (resolves_page PB phys_page_find HPB p addrs Hp Hne Hr) as (Hl & Hmem & Hat & Hr'). rewrite <- Hlen. set (l := page_part _ _ _ _) in *.
  pose proof (Hram 0%nat ltac:(unfold buf; simpl; lia)) as H0. change (Z.of_nat 0) with 0 in H0. rewrite Z.add_0_r, wrap_small in H0 by done. unfold is_ram in H0.
  rewrite H0, Z.eqb_refl. cbn [negb]. set (m1 := set_ram _ m).
  destruct (IH m1 (u64 (p + l)) (drop (Z.to_nat l) addrs) (drop (Z.to_nat l) buf)) as (m' & E & Em); [by apply wrap_range|done| |rewrite !length_drop; lia|rewrite length_drop; lia|].
  { intros i Hi. rewrite length_drop in Hi. rewrite wrap_add_l. replace (p + l + Z.of_nat i) with (p + Z.of_nat (Z.to_nat l + i)) by lia. apply Hram. lia. }
  exists m'. split; [done|]. intros x. rewrite Em. rewrite <- (take_drop (Z.to_nat l) addrs) at 2. rewrite <- (take_drop (Z.to_nat l) buf) at 2.
  rewrite scatter_app by (rewrite !length_take; lia). apply scatter_ext. unfold m1. cbn [set_ram gm_ram].
  apply ram_write_scatter; [rewrite !length_take; lia|done].
Qed.

(** The machine's RAM is the flat memory [mem]. *)
Record mem_rel (m : machine) (mem : Z -> Z) : Prop := {
  rel_view b : in_u 64 b -> is_Some (at_ram b) -> view m b = mem b;
  rel_bytes x : in_u 8 (gm_ram m x);
}.

Context (Hna : no_alias 64 PB phys_page_find Some).

Lemma mem_rel_ext m mem mem' : (forall x, mem x = mem' x) -> mem_rel m mem -> mem_rel m mem'.
Proof. intros He [H1 H2]. split; [|done]. intros b Hb Hs. by rewrite <- He, H1. Qed.

Lemma mem_store m mem a buf : in_u 64 a -> Z.of_nat (length buf) <= 2 ^ 64 -> ram_buffer a (length buf) -> mem_rel m mem -> Forall (in_u 8) buf ->
  exists m', cpu_physical_memory_write io_mem_write PB phys_page_find env m a buf = Ret m' /\ mem_rel m' (guest_store 64 mem a buf).
Proof.
  intros Ha Hl Hr [H1 H2] Hb. destruct (mapped_resolves 64 PB phys_page_find Some a _ (ram_buffer_mapped _ _ Hr)) as (addrs & Hlen & Hv).
  destruct (phys_write_ram (S (length buf)) m a addrs buf Ha (resolves_phys _ _ Hv) Hr Hlen ltac:(lia)) as (m' & E & Em). exists m'. split; [done|]. split.
  - intros b Hbu Hs. rewrite <- virt_at_phys in Hs by done. rewrite (view_store (W := W) 64 PB phys_page_find Some HPB ltac:(lia) m m' a addrs buf) by done.
    unfold guest_store. destruct (buf !! _); [done|]. apply H1; [done|]. by rewrite <- virt_at_phys.
  - intros x. rewrite Em. by apply scatter_bytes.
Qed.

Lemma mem_load m mem a n : in_u 64 a -> 0 <= n -> ram_buffer a (Z.to_nat n) -> mem_rel m mem ->
  cpu_physical_memory_read io_mem_read PB phys_page_find env m a n = Ret (guest_bytes 64 mem a n, m).
Proof.
  intros Ha Hn Hr [H1 H2]. destruct (mapped_resolves 64 PB phys_page_find Some a _ (ram_buffer_mapped _ _ Hr)) as (addrs & Hlen & Hv).
  unfold cpu_physical_memory_read. replace n with (Z.of_nat (length addrs)) by lia.
  rewrite (phys_read_ram io_mem_read PB phys_page_find env HPB) by (done || lia || by apply resolves_phys). do 3 f_equal.
  rewrite <- (view_load (W := W) 64 PB phys_page_find Some m a addrs H2 Hv). unfold guest_bytes. apply list_fmap_ext. intros i j Hj.
  apply lookup_seq in Hj as [-> Hj]. f_equal. apply H1; [apply wrap_range; lia|]. rewrite <- virt_at_phys by (apply wrap_range; lia). apply ram_buffer_mapped in Hr. apply Hr. lia.
Qed.
End Phys.

(** ** Transfers *)

Section Card.
Context {D : Type} `{HD : DriverLaws D}.
Context {V W : Type} (pic : list (qemu_irq V)) `{HV : IrqLines V pic}.
Context (io_mem_write : Z -> Z -> Z -> Z -> W -> W) (io_mem_read : Z -> Z -> Z -> W -> Z * W).
Context (PB : Z) (phys_page_find : Z -> option PhysPageDesc) (env : cpu_regs) (HPB : 0 <= PB < 64).
Context (Hna : no_alias 64 PB phys_page_find Some).
Abbreviation machine := (gmachine (W := W)).
Abbreviation mmc := (goldfish_mmc_state D).
Abbreviation memory_is := (mem_rel (W := W) PB phys_page_find).
Abbreviation in_ram := (ram_buffer PB phys_page_find).
Abbreviation write_reg := (goldfish_mmc_write (D := D) pic io_mem_write io_mem_read PB phys_page_find env).
Implicit Types (s : mmc) (m : machine).

Record card_ok s : Prop := {
  card_drive : bdrv_ok (mm_bs s);
  card_writable : read_only (mm_bs s) = false;
  card_bytes : Forall (in_u 8) (drv_image (mm_bs s));
  card_buf : length (mm_buf s) = 512%nat;
}.

(** A drive that holds [img] in place of the one that [s] has. *)
Definition card_holds s (img : list Z) bs' : Prop := becomes (mm_bs s) img bs' /\ length img = length (drv_image (mm_bs s)) /\ Forall (in_u 8) img.

Lemma card_holds_ok s img bs' buf : card_ok s -> card_holds s img bs' -> length buf = 512%nat -> card_ok (set_drive bs' buf s).
Proof.
  intros [H1 H2 H3 H4] ((Hf & Hok & Ei) & Hl & Hb) Hbuf. split; cbn [set_drive mm_bs mm_buf]; try done; [|by rewrite Ei]. destruct Hf as (_ & -> & _). done.
Qed.

Lemma ram_buffer_app a n1 n2 : in_ram a (n1 + n2) -> in_ram a n1 /\ in_ram (u64 (a + Z.of_nat n1)) n2.
Proof.
  intros H1. split; intros i Hi; [apply H1; lia|]. rewrite wrap_add_l. replace (a + Z.of_nat n1 + Z.of_nat i) with (a + Z.of_nat (n1 + i)) by lia. apply H1. lia.
Qed.

Lemma mmc_read_ok n : forall s m mem sector a, card_ok s -> memory_is m mem -> in_u 64 a -> 0 <= sector -> (sector + Z.of_nat n) * 512 <= bdrv_limit (mm_bs s) ->
  in_ram a (n * 512) -> Z.of_nat n * 512 <= 2 ^ 64 ->
  exists bs' buf' m', goldfish_mmc_bdrv_read io_mem_write PB phys_page_find env n s m sector a = Ret (0, set_drive bs' buf' s, m')
    /\ card_holds s (drv_image (mm_bs s)) bs' /\ length buf' = 512%nat
    /\ memory_is m' (guest_store 64 mem a (range (drv_image (mm_bs s)) (sector * 512) (Z.of_nat n * 512))).
Proof.
  induction n as [|n IH]; intros s m mem sector a Hc Hm Ha Hs Hl Hr Hn; cbn [goldfish_mmc_bdrv_read].
  { exists (mm_bs s), (mm_buf s), m. split_and!; [by destruct s| |apply Hc|].
    - split; [by apply becomes_refl, Hc|]. split; [done|apply Hc].
    - eapply mem_rel_ext; [|done]. intros x. cbn. by rewrite range_nil by lia. }
  pose proof Hc as [H1 H2 H3 H4]. pose proof (ok_total _ H1). set (img := drv_image (mm_bs s)) in *.
  destruct (bdrv_read_ok (mm_bs s) sector (mm_buf_addr s) (mm_buf s) 1 H1 Hs ltac:(lia) ltac:(lia) ltac:(lia)) as (bs1 & -> & Hb1). cbn [mbind outcome_bind Z.ltb Z.compare].
  pose proof (length_range img (sector * 512) 512) as Lr. unfold filled. fold img. change (1 * 512) with 512. rewrite drop_ge, app_nil_r, take_ge by lia. set (sec := range img _ 512) in *.
  assert (Forall (in_u 8) sec) as Hsec by (unfold sec, range; by apply Forall_take, Forall_drop).
  destruct (ram_buffer_app a 512 (n * 512) Hr) as [Hr1 Hr2]. change (Z.of_nat 512) with 512 in Hr2. assert (length sec = 512%nat) as Ls by lia.
  destruct (mem_store io_mem_write PB phys_page_find env HPB Hna m mem a sec Ha ltac:(lia) ltac:(by rewrite Ls) Hm Hsec) as (m1 & -> & Hm1). cbn [mbind outcome_bind].
  assert (card_holds s img bs1) as Hh1 by done. pose proof (card_holds_ok s img bs1 sec Hc Hh1 Ls) as Hc1.
  pose proof Hb1 as (_ & _ & Ei1).
  destruct (IH (set_drive bs1 sec s) m1 _ (sector + 1) (u64 (a + 512)) Hc1 Hm1) as (bs' & buf' & m' & E & Hh & Hbuf & Hm');
    [by apply wrap_range|lia|cbn; rewrite (becomes_limit _ _ _ Hb1 eq_refl); lia|done|lia|].
  cbn [set_drive mm_bs] in Hh, Hm'. rewrite Ei1 in Hh, Hm'. exists bs', buf', m'. split; [exact E|]. split; [|split; [done|]].
  - destruct Hh as (Hb & _ & _). split; [by eapply becomes_trans|]. done.
  - eapply mem_rel_ext; [|done]. intros x. replace 512 with (Z.of_nat (length sec)) at 1 by lia. rewrite guest_store_app.
    + f_equal. fold img. replace (Z.of_nat (S n) * 512) with (512 + Z.of_nat n * 512) by lia. rewrite range_app by lia. unfold sec. do 2 f_equal. lia.
    + fold img. pose proof (length_range img ((sector + 1) * 512) (Z.of_nat n * 512)). lia.
Qed.

(** Sectors that are written as they are. *)
Definition plain_sectors s (mem : Z -> Z) (sector a : Z) (n : nat) : Prop :=
  forall i, (i < n)%nat -> drv_takes (probed (mm_bs s)) (sector + Z.of_nat i) (guest_bytes 64 mem (u64 (a + Z.of_nat i * 512)) 512).

Lemma guest_bytes_in mem a n : Forall (in_u 8) (guest_bytes 64 mem a n).
Proof. unfold guest_bytes. apply Forall_fmap, Forall_true. intros i. apply wrap_range. lia. Qed.

Lemma length_guest_bytes mem a n : length (guest_bytes 64 mem a n) = Z.to_nat n.
Proof. unfold guest_bytes. by rewrite length_fmap, length_seq. Qed.

Lemma mmc_write_ok n : forall s m mem sector a, card_ok s -> memory_is m mem -> in_u 64 a -> 0 <= sector -> (sector + Z.of_nat n) * 512 <= bdrv_limit (mm_bs s) ->
  in_ram a (n * 512) -> plain_sectors s mem sector a n ->
  exists bs' buf', goldfish_mmc_bdrv_write io_mem_read PB phys_page_find env n s m sector a = Ret (0, set_drive bs' buf' s, m)
    /\ card_holds s (image_put (drv_image (mm_bs s)) (sector * 512) (guest_bytes 64 mem a (Z.of_nat n * 512))) bs' /\ length buf' = 512%nat.
Proof.
  induction n as [|n IH]; intros s m mem sector a Hc Hm Ha Hs Hl Hr Hp; cbn [goldfish_mmc_bdrv_write].
  { exists (mm_bs s), (mm_buf s). split_and!; [by destruct s| |apply Hc]. split; [by apply becomes_refl, Hc|]. split; [done|apply Hc]. }
  pose proof Hc as [H1 H2 H3 H4]. pose proof (ok_total _ H1). set (img := drv_image (mm_bs s)) in *.
  destruct (ram_buffer_app a 512 (n * 512) Hr) as [Hr1 Hr2]. change (Z.of_nat 512) with 512 in Hr2.
  rewrite (mem_load io_mem_read PB phys_page_find env HPB m mem a 512 Ha ltac:(lia) Hr1 Hm). cbn [mbind outcome_bind]. set (sec := guest_bytes 64 mem a 512).
  assert (length sec = 512%nat) as Ls by apply length_guest_bytes. rewrite blit_over, drop_ge, app_nil_r by lia.
  assert (drv_takes (probed (mm_bs s)) sector sec) as Ht.
  { pose proof (Hp 0%nat ltac:(lia)) as Hx. change (Z.of_nat 0) with 0 in Hx. rewrite Z.mul_0_l, !Z.add_0_r, wrap_small in Hx by done. done. }
  destruct (bdrv_write_ok (mm_bs s) sector (mm_buf_addr s) sec 1 H1 H2 Hs ltac:(lia) ltac:(lia) ltac:(lia) Ht) as (bs1 & -> & Hb1). cbn [mbind outcome_bind Z.ltb Z.compare].
  rewrite take_ge in Hb1 by lia. fold img in Hb1. set (img1 := image_put img (sector * 512) sec) in *.
  assert (length img1 = length img) as Li by (apply length_image_put_in; lia).
  assert (card_holds s img1 bs1) as Hh1 by (split; [done|split; [done|]]; apply image_put_in; [done|apply guest_bytes_in]).
  pose proof (card_holds_ok s img1 bs1 sec Hc Hh1 Ls) as Hc1. pose proof Hb1 as (Hf1 & _ & Ei1).
  destruct (IH (set_drive bs1 sec s) m mem (sector + 1) (u64 (a + 512)) Hc1 Hm) as (bs' & buf' & E & Hh & Hbuf);
    [by apply wrap_range|lia|cbn; rewrite (becomes_limit _ _ _ Hb1 Li); lia|done| |].
  { intros i Hi. cbn. destruct Hf1 as (_ & _ & _ & -> & _). rewrite wrap_add_l. pose proof (Hp (S i) ltac:(lia)) as Hx.
    replace (sector + 1 + Z.of_nat i) with (sector + Z.of_nat (S i)) by lia. by replace (a + 512 + Z.of_nat i * 512) with (a + Z.of_nat (S i) * 512) by lia. }
  cbn [set_drive mm_bs] in Hh. rewrite Ei1 in Hh. exists bs', buf'. split; [exact E|]. split; [|done].
  assert (image_put img1 ((sector + 1) * 512) (guest_bytes 64 mem (u64 (a + 512)) (Z.of_nat n * 512)) = image_put img (sector * 512) (guest_bytes 64 mem a (Z.of_nat (S n) * 512))) as Eq.
  { replace (Z.of_nat (S n) * 512) with (512 + Z.of_nat n * 512) by lia. rewrite guest_bytes_app by lia. fold sec. rewrite <- image_put_app by lia. unfold img1. f_equal. lia. }
  rewrite Eq in Hh. destruct Hh as (Hb & Hlen & Hby). split; [by eapply becomes_trans|]. split; [|done]. cbn [set_drive mm_bs] in Hlen. rewrite Ei1 in Hlen. etrans; [exact Hlen|exact Li].
Qed.

(** ** Requests of the guest *)

(** A transfer of [sd_count] blocks. *)
Record sd_op := mkSd { sd_write : bool; sd_block : Z; sd_count : Z; sd_addr : Z }.

(** A card above 2 GB takes block numbers, a smaller one byte offsets. *)
Definition sd_arg (sdhc : bool) (o : sd_op) : Z := if sdhc then sd_block o else sd_block o * 512.

(** The registers a driver writes for it. *)
Definition sd_regs (sdhc : bool) (o : sd_op) : list (Z * Z) :=
  [(MMC_SET_BUFFER, u32 (sd_addr o)); (MMC_SET_BUFFER_HIGH, sd_addr o .>> 32); (MMC_BLOCK_COUNT, sd_count o - 1); (MMC_ARG, sd_arg sdhc o);
   (MMC_CMD, if sd_write o then MMC_WRITE_MULTIPLE_BLOCK else MMC_READ_MULTIPLE_BLOCK)].

(** A request and the response to it. *)
Definition sd_request (sdhc : bool) (st : mmc * machine * V * list Z) (o : sd_op) : outcome (mmc * machine * V * list Z) :=
  let '(s, m, w, rs) := st in
  '(s, m, w) ← foldM (fun '(s, m, w) '(off, v) => write_reg s m w off v) (s, m, w) (sd_regs sdhc o);
  r ← goldfish_mmc_read s MMC_RESP_0;
  Ret (s, m, w, rs ++ [r]).

(** A flat card, a flat memory and the responses: in the state for transfers,
    and ready. *)
Record sd_flat := mkSdFlat { sd_image : list Z; sd_memory : Z -> Z; sd_results : list Z }.
Definition R1_TRAN_READY : Z := 0x900.
Definition sd_step (st : sd_flat) (o : sd_op) : sd_flat :=
  if sd_write o then
    mkSdFlat (image_put (sd_image st) (sd_block o * 512) (guest_bytes 64 (sd_memory st) (sd_addr o) (sd_count o * 512))) (sd_memory st) (sd_results st ++ [R1_TRAN_READY])
  else
    mkSdFlat (sd_image st) (guest_store 64 (sd_memory st) (sd_addr o) (range (sd_image st) (sd_block o * 512) (sd_count o * 512))) (sd_results st ++ [R1_TRAN_READY]).

Record sd_ready (sdhc : bool) s (w : V) : Prop := {
  ready_card : card_ok s;
  ready_line : 0 < dev_irq_count (mm_dev s) /\ (Z.to_nat (u32 (dev_irq (mm_dev s))) < length pic)%nat;
  ready_lines : lines_ok w;
  ready_mode : nz (is_SDHC s) = sdhc /\ (sdhc = false -> block_length s = 512);
  ready_address : in_u 64 (buffer_address s);
}.

Record sd_fits (sdhc : bool) (limit : Z) (p : bool) (mem : Z -> Z) (o : sd_op) : Prop := {
  fits_block : 0 <= sd_block o;
  fits_count : 0 < sd_count o < 2 ^ 31;
  fits_card : (sd_block o + sd_count o) * 512 <= limit;
  fits_arg : in_u 32 (sd_arg sdhc o);
  fits_addr : in_u 64 (sd_addr o);
  fits_ram : in_ram (sd_addr o) (Z.to_nat (sd_count o) * 512);
  fits_plain i : sd_write o = true -> (i < Z.to_nat (sd_count o))%nat ->
    drv_takes p (sd_block o + Z.of_nat i) (guest_bytes 64 mem (u64 (sd_addr o + Z.of_nat i * 512)) 512);
}.

Lemma arg_block_ok sdhc s w o : sd_ready sdhc s w -> arg_block s (sd_arg sdhc o) = Ret (sd_block o).
Proof.
  intros [_ _ _ [Hm Hb] _]. unfold arg_block, sd_arg. rewrite Hm. destruct sdhc; [done|]. rewrite Hb by done. cbn [Z.eqb]. by rewrite Z.div_mul.
Qed.

Lemma mmc_set_irq sdhc s w l : sd_ready sdhc s w ->
  exists w', or_abort (goldfish_device_set_irq pic (mm_dev s) 0 l w) = Ret w' /\ lines_ok w' /\ line_level w' (u32 (dev_irq (mm_dev s))) = nz l.
Proof.
  intros [_ [Hc Hl] Hw _ _]. destruct (device_set_irq_some pic (mm_dev s) 0 l w) as (line & Hn & E); [lia|done|by rewrite Z.add_0_r|].
  rewrite Z.add_0_r in Hn. exists (qemu_set_irq w line l). rewrite E. split; [done|]. split; [by eapply set_line_ok|].
  apply (set_line_same pic); [apply (wrap_range 32); lia|done..].
Qed.

(** The data of a request, once the registers are written. *)
Lemma mmc_transfer_ok sdhc s m w mem o : sd_ready sdhc s w -> memory_is m mem -> sd_fits sdhc (bdrv_limit (mm_bs s)) (probed (mm_bs s)) mem o ->
  block_count s = sd_count o -> buffer_address s = sd_addr o ->
  let st := sd_step (mkSdFlat (drv_image (mm_bs s)) mem []) o in
  exists bs' buf' m', mmc_transfer io_mem_write io_mem_read PB phys_page_find env (negb (sd_write o)) s m (sd_arg sdhc o)
      = Ret (set_resp 0 R1_TRAN_READY (set_drive bs' buf' s), m', MMC_STAT_END_OF_CMD .| MMC_STAT_END_OF_DATA)
    /\ card_holds s (sd_image st) bs' /\ length buf' = 512%nat /\ memory_is m' (sd_memory st).
Proof.
  intros Hrd Hm [F1 F2 F3 F4 F5 F6 F7] Hcnt Haddr st. unfold mmc_transfer. rewrite (arg_block_ok _ _ _ _ Hrd). cbn [mbind outcome_bind].
  rewrite Hcnt, Haddr, swrap_small by (unfold in_s; lia). assert (Z.of_nat (Z.to_nat (sd_count o)) = sd_count o) as En by lia.
  unfold st, sd_step. destruct (sd_write o) eqn:Ew; cbn [negb sd_image sd_memory].
  - destruct (mmc_write_ok (Z.to_nat (sd_count o)) s m mem (sd_block o) (sd_addr o)) as (bs' & buf' & E & Hh & Hb);
      [apply Hrd|done|done|done|by rewrite En|done|intros i Hi; by apply F7|].
    rewrite E. cbn [mbind outcome_bind]. rewrite En in Hh. by exists bs', buf', m.
  - destruct (mmc_read_ok (Z.to_nat (sd_count o)) s m mem (sd_block o) (sd_addr o)) as (bs' & buf' & m' & E & Hh & Hb & Hm');
      [apply Hrd|done|done|done|by rewrite En|done|lia|].
    rewrite E. cbn [mbind outcome_bind]. rewrite En in Hm'. by exists bs', buf', m'.
Qed.

Definition sd_represents (sdhc : bool) (st : sd_flat) s m (w : V) : Prop :=
  sd_ready sdhc s w /\ drv_image (mm_bs s) = sd_image st /\ memory_is m (sd_memory st).

(** The state in which the command of a request is run. *)
Definition sd_loaded (sdhc : bool) (o : sd_op) s : mmc :=
  set_mm_resp [0; 0; 0; 0] (set_mm_arg (sd_arg sdhc o) (set_block_count (sd_count o) (set_buffer_address (sd_addr o) s))).

Lemma sd_command sdhc s m w o : in_u 64 (buffer_address s) -> in_u 64 (sd_addr o) -> 0 < sd_count o < 2 ^ 31 ->
  foldM (fun '(s, m, w) '(off, v) => write_reg s m w off v) (s, m, w) (sd_regs sdhc o) =
  ('(s, m, new_status) ← mmc_transfer io_mem_write io_mem_read PB phys_page_find env (negb (sd_write o)) (sd_loaded sdhc o s) m (sd_arg sdhc o);
   let s := set_mm_status (mm_int_status s .| new_status) s in
   let on := mm_int_status s .& mm_int_enable s in
   if nz on then w ← or_abort (goldfish_device_set_irq pic (mm_dev s) 0 (s32 on) w); Ret (s, m, w) else Ret (s, m, w)).
Proof.
  intros Hb Ha Hc. unfold sd_regs. cbn [foldM].
  assert (forall s m w v, write_reg s m w MMC_SET_BUFFER v = Ret (set_buffer_address (uint64_set_low (buffer_address s) v) s, m, w)) as -> by done. cbn [mbind outcome_bind].
  assert (forall s m w v, write_reg s m w MMC_SET_BUFFER_HIGH v = Ret (set_buffer_address (uint64_set_high (buffer_address s) v) s, m, w)) as -> by done. cbn [mbind outcome_bind].
  assert (forall s m w v, write_reg s m w MMC_BLOCK_COUNT v = Ret (set_block_count (u32 (v + 1)) s, m, w)) as -> by done. cbn [mbind outcome_bind].
  assert (forall s m w v, write_reg s m w MMC_ARG v = Ret (set_mm_arg v s, m, w)) as -> by done. cbn [mbind outcome_bind].
  assert (forall s m w v, write_reg s m w MMC_CMD v = goldfish_mmc_do_command pic io_mem_write io_mem_read PB phys_page_find env s m w v (mm_arg s)) as -> by done.
  replace (sd_count o - 1 + 1) with (sd_count o) by lia. rewrite (wrap_small 32) by (unfold in_u; lia).
  cbn [set_buffer_address set_block_count buffer_address]. rewrite set_low_high by done. unfold goldfish_mmc_do_command.
  cbn [set_mm_arg mm_arg]. change (set_buffer_address (sd_addr o) (set_buffer_address _ s)) with (set_buffer_address (sd_addr o) s).
  change (mm_arg _) with (sd_arg sdhc o).
  fold (sd_loaded sdhc o s).
  assert (mmc_opcode io_mem_write io_mem_read PB phys_page_find env (sd_loaded sdhc o s) m ((if sd_write o then MMC_WRITE_MULTIPLE_BLOCK else MMC_READ_MULTIPLE_BLOCK) .& 63) (sd_arg sdhc o)
    = mmc_transfer io_mem_write io_mem_read PB phys_page_find env (negb (sd_write o)) (sd_loaded sdhc o s) m (sd_arg sdhc o)) as -> by (by destruct (sd_write o)).
  destruct (mmc_transfer _ _ _ _ _ _ _ _ _) as [[[s1 m1] n1]| | | | |]; [|done..]. cbn [mbind outcome_bind]. destruct (nz _); [|done]. by destruct (or_abort _).
Qed.

Lemma sd_loaded_ready sdhc s w o : sd_ready sdhc s w -> in_u 64 (sd_addr o) -> sd_ready sdhc (sd_loaded sdhc o s) w.
Proof. intros [[H1 H2 H3 H4] H5 H6 H7 H8] Ha. split; [by split|done..]. Qed.

(** One request. *)
Lemma sd_request_ok sdhc st s m w o : sd_represents sdhc st s m w -> sd_fits sdhc (bdrv_limit (mm_bs s)) (probed (mm_bs s)) (sd_memory st) o ->
  exists s' m' w', sd_request sdhc (s, m, w, sd_results st) o = Ret (s', m', w', sd_results (sd_step st o))
    /\ sd_represents sdhc (sd_step st o) s' m' w' /\ bdrv_limit (mm_bs s') = bdrv_limit (mm_bs s) /\ probed (mm_bs s') = probed (mm_bs s)
    /\ mm_int_status s' = mm_int_status s .| (MMC_STAT_END_OF_CMD .| MMC_STAT_END_OF_DATA) /\ mm_int_enable s' = mm_int_enable s /\ mm_dev s' = mm_dev s
    /\ (nz (mm_int_status s' .& mm_int_enable s') = true -> line_level w' (u32 (dev_irq (mm_dev s))) = nz (s32 (mm_int_status s' .& mm_int_enable s'))).
Proof.
  intros (Hrd & Ei & Hm) Hfit. pose proof Hfit as [_ F2 _ _ F5 _ _]. unfold sd_request. rewrite sd_command by (done || apply Hrd).
  pose proof (sd_loaded_ready sdhc s w o Hrd F5) as Hl.
  destruct (mmc_transfer_ok sdhc (sd_loaded sdhc o s) m w (sd_memory st) o Hl Hm Hfit eq_refl eq_refl) as (bs' & buf' & m' & -> & Hh & Hbuf & Hm').
  cbn [mbind outcome_bind]. set (s1 := set_resp 0 _ _). set (s2 := set_mm_status _ s1). change (drv_image (mm_bs (sd_loaded sdhc o s))) with (drv_image (mm_bs s)) in *.
  assert (sd_image (sd_step st o) = sd_image (sd_step (mkSdFlat (drv_image (mm_bs s)) (sd_memory st) []) o)
    /\ sd_memory (sd_step st o) = sd_memory (sd_step (mkSdFlat (drv_image (mm_bs s)) (sd_memory st) []) o)
    /\ sd_results (sd_step st o) = sd_results st ++ [R1_TRAN_READY]) as (E1 & E2 & E3) by (rewrite Ei; unfold sd_step; by destruct (sd_write o)).
  rewrite <- E1 in Hh. rewrite <- E2 in Hm'.
  assert (forall w', lines_ok w' -> sd_represents sdhc (sd_step st o) s2 m' w') as Hrep.
  { intros w' Hw'. split; [|split; [apply Hh|done]]. destruct Hl as [Hl1 Hl2 Hl3 Hl4 Hl5]. split; [|done..].
    pose proof (card_holds_ok _ _ _ _ Hl1 Hh Hbuf) as [C1 C2 C3 C4]. by split. }
  assert (bdrv_limit (mm_bs s2) = bdrv_limit (mm_bs s) /\ probed (mm_bs s2) = probed (mm_bs s)) as [El Ep].
  { destruct Hh as (Hb & Hlen & _). split; [by apply (becomes_limit _ _ _ Hb Hlen)|]. destruct Hb as ((_ & _ & _ & Ep & _) & _). exact Ep. }
  rewrite E3. destruct (nz (mm_int_status s2 .& mm_int_enable s2)) eqn:En.
  - destruct (mmc_set_irq sdhc s2 w (s32 (mm_int_status s2 .& mm_int_enable s2))) as (w' & Ew & Hw' & Hlev); [apply Hrep, Hrd|].
    rewrite Ew. cbn [mbind outcome_bind]. exists s2, m', w'. split_and!; try done. by apply Hrep.
  - cbn [mbind outcome_bind]. exists s2, m', w. split_and!; try done; [|by rewrite En]. apply Hrep, Hrd.
Qed.

(** Each request fits the card and the memory it finds. *)
Fixpoint sd_all_fit (sdhc : bool) (limit : Z) (p : bool) (st : sd_flat) (ops : list sd_op) : Prop :=
  match ops with
  | [] => True
  | o :: ops => sd_fits sdhc limit p (sd_memory st) o /\ sd_all_fit sdhc limit p (sd_step st o) ops
  end.

(** C5: The SD card is a flat array of blocks: a sequence of the guest's
    requests, each written to the card's registers as its kind of card expects
    them, moves the blocks between the drive and the guest's physical memory as
    [sd_step] says, whatever pages the memory has, whichever driver that
    satisfies its laws is behind the drive, and the card reports each of them
    as done. Blocks that the driver would change on the way are excluded. *)
Theorem sd_card_is_flat sdhc st s m w ops : sd_represents sdhc st s m w -> sd_all_fit sdhc (bdrv_limit (mm_bs s)) (probed (mm_bs s)) st ops ->
  let st' := foldl sd_step st ops in
  exists s' m' w', foldM (sd_request sdhc) (s, m, w, sd_results st) ops = Ret (s', m', w', sd_results st') /\ sd_represents sdhc st' s' m' w'.
Proof.
  revert st s m w. induction ops as [|o ops IH]; intros st s m w Hrep Hfit; [by exists s, m, w|]. destruct Hfit as [Hf Hfit]. cbn [foldM foldl].
  destruct (sd_request_ok sdhc st s m w o Hrep Hf) as (s1 & m1 & w1 & -> & Hrep1 & El & Ep & _). cbn [mbind outcome_bind].
  apply IH; [done|]. by rewrite El, Ep.
Qed.
End Card.

(** A card with two blocks, opened with [O_DIRECT] and a guessed format, in a
    machine whose whole memory is RAM. *)
Definition example_card_file : hfile := mkFile (replicate 512 1 ++ replicate 512 2) 0 4096.
Definition example_aligned : list Z := replicate (Z.to_nat ALIGNED_BUFFER_SIZE) 0.
Definition example_card_disk : disk := (bdrv_open 0 example_card_file example_aligned (BDRV_O_RDWR .| BDRV_O_NOCACHE) true).2.
Definition example_card : goldfish_mmc_state (BlockDriverState BDRVRawState) :=
  set_block_length 512 (goldfish_mmc_init 0xff005000 0 example_card_disk 0x7000 (replicate 512 0)).
Definition example_sd_machine : gmachine (W := unit) := mkGM (fun _ => 0) tt (gem_init example_tracer).
Definition example_sd_flat : sd_flat := mkSdFlat (replicate 512 1 ++ replicate 512 2) (fun _ => 0) [].

(** The second block is read to memory across two pages, and written to the
    first one from there. *)
Definition example_sd_ops : list sd_op := [mkSd false 1 1 0x2f00; mkSd true 0 1 0x2f00].

Lemma example_page_desc a : page_desc 12 example_pages a = a - a mod 4096.
Proof.
  unfold page_desc, example_pages. cbn [phys_offset]. rewrite land_page by lia. change (2 ^ 12) with 4096.
  rewrite Z.shiftr_div_pow2, Z.shiftl_mul_pow2 by lia. change (2 ^ 12) with 4096. pose proof (Z.div_mod a 4096 ltac:(lia)).
  replace (a - a mod 4096) with (a / 4096 * 4096) by lia. by rewrite Z.div_mul by lia.
Qed.

Lemma example_is_ram a : is_ram 12 example_pages a.
Proof.
  unfold is_ram. rewrite example_page_desc, land_off by lia. change (2 ^ 12) with 4096. pose proof (Z.div_mod a 4096 ltac:(lia)).
  replace (a - a mod 4096) with (a / 4096 * 4096) by lia. by rewrite Z.mod_mul.
Qed.

Lemma example_ram_at a : ram_at 12 example_pages a = Some a.
Proof.
  unfold ram_at, is_mem. rewrite example_is_ram. cbn [orb Z.eqb IO_MEM_RAM]. rewrite example_page_desc, land_page, land_off by lia. change (2 ^ 12) with 4096.
  f_equal. pose proof (Z.div_mod a 4096 ltac:(lia)). replace (a - a mod 4096) with (a / 4096 * 4096) by lia. rewrite Z.mod_mul by lia. lia.
Qed.

Lemma example_phys_no_alias : no_alias 64 12 example_pages Some.
Proof. intros a b x Ha Hb. rewrite !virt_at_phys, !example_ram_at by (done || lia). congruence. Qed.

Lemma example_image_file : image_file example_card_file example_aligned.
Proof. by vm_compute. Qed.

Lemma example_sd_represents :
  sd_represents (HV := int_irq_lines 32 ltac:(lia)) (goldfish_int_lines 32) 12 example_pages false example_sd_flat example_card example_sd_machine goldfish_interrupt_init
  /\ bdrv_limit (mm_bs example_card) = 1024 /\ probed (mm_bs example_card) = true.
Proof.
  destruct (disk_opened example_card_file example_aligned (BDRV_O_RDWR .| BDRV_O_NOCACHE) true example_image_file) as (bs & E & Hok & Hlim & Him & _ & Hp & Hro).
  assert (mm_bs example_card = bs) as Ebs by (change (mm_bs example_card) with example_card_disk; unfold example_card_disk; by rewrite E).
  rewrite Ebs, Hlim. split; [|split; [by vm_compute|done]]. split; [|split; [by rewrite Ebs, Him|]].
  - split; [|split; [done|vm_compute; lia]|exact init_inv|done|vm_compute; split; [discriminate|reflexivity]].
    split; rewrite ?Ebs; [done|by rewrite Hro|rewrite Him; apply Forall_app; split; apply Forall_replicate; unfold in_u; simpl; lia|done].
  - split; intros; [|unfold in_u; simpl; lia]. unfold guest_view. by destruct (virt_at 12 example_pages Some b).
Qed.

Lemma sd_card_is_flat_witness :
  exists s' m' w', foldM (sd_request (goldfish_int_lines 32) (fun _ _ _ _ w => w) (fun _ _ _ w => (0, w)) 12 example_pages (example_regs 0 0) false)
      (example_card, example_sd_machine, goldfish_interrupt_init, []) example_sd_ops = Ret (s', m', w', [0x900; 0x900])
    /\ drv_image (mm_bs s') = replicate 1024 2 /\ guest_view 12 example_pages Some m' 0x3000 = 2.
Proof.
  destruct example_sd_represents as (Hrep & Hlim & Hp).
  destruct (sd_card_is_flat (HV := int_irq_lines 32 ltac:(lia)) (goldfish_int_lines 32) (fun _ _ _ _ w => w) (fun _ _ _ w => (0, w)) 12 example_pages (example_regs 0 0)
    ltac:(lia) example_phys_no_alias false example_sd_flat example_card example_sd_machine goldfish_interrupt_init example_sd_ops Hrep) as (s' & m' & w' & E & Hr).
  - rewrite Hlim, Hp. split; [|split; [|done]]; (split; [cbn; lia|cbn; lia|cbn; lia|vm_compute; done|vm_compute; done|intros i Hi; apply example_is_ram|]).
    + discriminate.
    + intros i _ Hi. assert (i = 0%nat) as -> by (simpl in Hi; lia). intros _ _. vm_compute. reflexivity.
  - exists s', m', w'. split; [exact E|]. destruct Hr as (_ & Ei & Hm). split; [rewrite Ei; vm_compute; reflexivity|].
    destruct Hm as [Hv _]. rewrite (Hv 0x3000); [|unfold in_u; lia|rewrite example_ram_at; by eexists]. vm_compute. reflexivity.
Defined.

(** ** Interrupts *)

Section Interrupts.
Context {D : Type} `{HD : DriverLaws D}.
Context {V W : Type} (pic : list (qemu_irq V)) `{HV : IrqLines V pic}.
Context (io_mem_write : Z -> Z -> Z -> Z -> W -> W) (io_mem_read : Z -> Z -> Z -> W -> Z * W).
Context (PB : Z) (phys_page_find : Z -> option PhysPageDesc) (env : cpu_regs) (HPB : 0 <= PB < 64).
Context (Hna : no_alias 64 PB phys_page_find Some).

(** A transfer raises the card's line when one of the two kinds of
    interrupt is enabled, and the status register shows the guest the enabled
    ones; but writing back what it has shown lowers the line only when both
    kinds are enabled. Otherwise the line stays up for a kind that the guest
    has not enabled and does not see. *)
Theorem unseen_status_keeps_line sdhc st (s : goldfish_mmc_state D) (m : gmachine (W := W)) w o e :
  sd_represents pic PB phys_page_find sdhc st s m w -> sd_fits PB phys_page_find sdhc (bdrv_limit (mm_bs s)) (probed (mm_bs s)) (sd_memory st) o ->
  mm_int_status s = 0 -> mm_int_enable s = e -> e = 1 \/ e = 2 \/ e = 3 ->
  let line w := line_level w (u32 (dev_irq (mm_dev s))) in
  exists s1 m1 w1 rs s2 w2, sd_request pic io_mem_write io_mem_read PB phys_page_find env sdhc (s, m, w, sd_results st) o = Ret (s1, m1, w1, rs)
    /\ line w1 = true /\ goldfish_mmc_read s1 MMC_INT_STATUS = Ret e
    /\ goldfish_mmc_write pic io_mem_write io_mem_read PB phys_page_find env s1 m1 w1 MMC_INT_STATUS e = Ret (s2, m1, w2)
    /\ goldfish_mmc_read s2 MMC_INT_STATUS = Ret 0 /\ line w2 = negb (e =? 3).
Proof.
  intros Hrep Hfit Hs He Hcase line. destruct (sd_request_ok pic io_mem_write io_mem_read PB phys_page_find env HPB Hna sdhc st s m w o Hrep Hfit)
    as (s1 & m1 & w1 & E & (Hrd1 & _) & _ & _ & Est & Een & Edev & Hline). rewrite Hs in Est. rewrite He in Een.
  assert (mm_int_status s1 = 3) as Est3 by done. assert (s32 (3 .& u32 (.~ e)) = 3 - e /\ 3 .& e = e /\ s32 e = e /\ nz e = true) as (A1 & A2 & A3 & A4)
    by (by destruct Hcase as [->|[-> | ->]]).
  rewrite Est3, Een, A2, A3, A4 in Hline. specialize (Hline eq_refl).
  set (s2 := set_mm_status (u32 (3 - e)) s1).
  assert (sd_ready pic sdhc s2 w1) as Hrd2 by (destruct Hrd1 as [[H1 H2 H3 H4] H5 H6 H7 H8]; split; [by split|done..]).
  destruct (mmc_set_irq pic sdhc s2 w1 (3 - e) Hrd2) as (w2 & Ew & Hw2 & Hlev). change (mm_dev s2) with (mm_dev s1) in Ew, Hlev. rewrite Edev in Ew, Hlev.
  exists s1, m1, w1, (sd_results (sd_step st o)), s2, w2. split; [exact E|]. split; [exact Hline|]. split; [|split; [|split]].
  - unfold goldfish_mmc_read. cbn [Z.eqb MMC_INT_STATUS]. by rewrite Est3, Een, A2.
  - unfold goldfish_mmc_write. cbn [Z.eqb MMC_INT_STATUS]. rewrite Est3, A1. change (s32 3) with 3. fold s2. change (mm_dev s2) with (mm_dev s1). rewrite Edev.
    rewrite (proj2 (Z.eqb_neq (3 - e) 3)) by lia. cbn [negb]. by rewrite Ew.
  - unfold goldfish_mmc_read. cbn [Z.eqb MMC_INT_STATUS]. unfold s2. cbn [set_mm_status mm_int_status mm_int_enable]. rewrite Een. by destruct Hcase as [->|[-> | ->]].
  - unfold line. rewrite Hlev. by destruct Hcase as [->|[-> | ->]].
Qed.
End Interrupts.

(** A driver that waits for the end of the data only. *)
Lemma unseen_status_keeps_line_witness :
  exists s1 m1 w1 rs s2 w2, sd_request (goldfish_int_lines 32) (fun _ _ _ _ w => w) (fun _ _ _ w => (0, w)) 12 example_pages (example_regs 0 0) false
      (set_mm_enable MMC_STAT_END_OF_DATA example_card, example_sd_machine, goldfish_interrupt_init, []) (mkSd false 1 1 0x2f00) = Ret (s1, m1, w1, rs)
    /\ goldfish_mmc_write (goldfish_int_lines 32) (fun _ _ _ _ w => w) (fun _ _ _ w => (0, w)) 12 example_pages (example_regs 0 0) s1 m1 w1 MMC_INT_STATUS 2 = Ret (s2, m1, w2)
    /\ goldfish_mmc_read s2 MMC_INT_STATUS = Ret 0 /\ Z.testbit (level w2) 0 = true.
Proof.
  destruct example_sd_represents as (([[H1 H2 H3 H4] H5 H6 H7 H8] & Ei & Hm) & Hlim & Hp).
  destruct (unseen_status_keeps_line (HV := int_irq_lines 32 ltac:(lia)) (goldfish_int_lines 32) (fun _ _ _ _ w => w) (fun _ _ _ w => (0, w)) 12 example_pages (example_regs 0 0)
    ltac:(lia) example_phys_no_alias false example_sd_flat (set_mm_enable MMC_STAT_END_OF_DATA example_card) example_sd_machine goldfish_interrupt_init (mkSd false 1 1 0x2f00) 2)
    as (s1 & m1 & w1 & rs & s2 & w2 & E & _ & _ & Ew & Er & Hl).
  - split; [|done]. split; [by split|done..].
  - change (mm_bs (set_mm_enable MMC_STAT_END_OF_DATA example_card)) with (mm_bs example_card). rewrite Hlim, Hp.
    split; [cbn; lia|cbn; lia|cbn; lia|vm_compute; done|vm_compute; done|intros i Hi; apply example_is_ram|discriminate].
  - reflexivity.
  - reflexivity.
  - lia.
  - exists s1, m1, w1, rs, s2, w2. split; [exact E|]. split; [exact Ew|]. split; [exact Er|exact Hl].
Defined.

(** ** Snapshots *)

Record mmc_fields_ok {D} (s : goldfish_mmc_state D) : Prop := {
  fields_ints : Forall (in_u 32) [read_offset s; write_offset s; mm_int_status s; mm_int_enable s; mm_arg s; block_length s; block_count s];
  fields_resp : exists a b c d, mm_resp s = [a; b; c; d] /\ Forall (in_u 32) [a; b; c; d];
  fields_address : in_u 64 (buffer_address s);
  fields_mode : in_s 32 (is_SDHC s);
}.

(** What is restored into [s0]: all registers, and not the drive. *)
Definition restored_card {D} (s s0 : goldfish_mmc_state D) : goldfish_mmc_state D :=
  mkMmc (mm_dev s0) (mm_bs s0) (buffer_address s) (read_offset s) (write_offset s) (mm_int_status s) (mm_int_enable s) (mm_arg s) (mm_resp s)
    (block_length s) (block_count s) (is_SDHC s) (mm_buf_addr s0) (mm_buf s0).

(** A snapshot of the card restores its registers; the kind of addressing is
    one of them, so that a driver goes on as it was. *)
Theorem mmc_snapshot_restores {D F G} `{WriterLaws F} `{ReaderLaws G} (f : F) (s s0 : goldfish_mmc_state D) :
  w_ok f -> mmc_fields_ok s -> length (mm_resp s0) = 4%nat ->
  exists l, emits f l (goldfish_mmc_save f s) /\ forall (g : G) rest, r_ok g -> r_in g = l ++ rest ->
    exists g', goldfish_mmc_load g s0 GOLDFISH_MMC_SAVE_VERSION = (0, restored_card s s0, g') /\ consumed rest g'.
Proof.
  intros Hf [Hi (a & b & c & d & Er & Hr) Ha Hm] Hl0. repeat (apply Forall_cons in Hi as [? Hi]). repeat (apply Forall_cons in Hr as [? Hr]).
  assert (Forall (field_ok s) goldfish_mmc_fields) as Hok.
  { repeat (apply Forall_cons; split); try done; unfold field_ok, resp; rewrite ?Er; try done. apply wrap_range. lia. }
  exists (be64 (buffer_address s) ++ enc_struct goldfish_mmc_fields s). split.
  - unfold goldfish_mmc_save. pose proof (put_be64_emits f (buffer_address s) Hf) as H64. eapply emits_trans; [exact H64|]. apply put_struct_emits; [apply H64|done].
  - intros g rest Hg E. rewrite <- app_assoc in E. unfold goldfish_mmc_load. cbn [Z.eqb GOLDFISH_MMC_SAVE_VERSION].
    destruct (get_be64_consumes _ _ _ Hg E) as (g1 & -> & Hg1 & E1). rewrite (wrap_small 64) by done.
    destruct (get_struct_consumes g1 goldfish_mmc_fields s (set_buffer_address (buffer_address s) s0) rest Hg1 Hok E1) as (g' & -> & Hc).
    exists g'. split; [|done]. do 2 f_equal. destruct s0 as [? ? ? ? ? ? ? ? r0 ? ? ? ? ?]. cbn [mm_resp] in Hl0. destruct r0 as [|? [|? [|? [|? [|]]]]]; try done.
    unfold goldfish_mmc_fields, resp. cbn. rewrite Er. cbn. unfold restored_card. cbn. by rewrite Er, swrap_wrap, swrap_small.
Qed.
