(* ===== verification/Qemud.v ===== *)
(** The qemud multiplexer, android/hw-qemud.c: the serial link the daemon of
    the guest talks through, the clients and their framing, the services, and
    the control channel. The build is the one for ARM
    ([SUPPORT_LEGACY_QEMUD] is 1). *)
From stdpp Require Import strings gmap.
From S2P Require Import Prelude CStrings QemuFile.
Open Scope list_scope.

(** ** Hexadecimal numbers, android/utils/misc.c *)

Definition hexdigit_value (c : Z) : Z :=
  let d := u32 (c - 48) in if d <? 10 then d else
  let d := u32 (c - 97) in if d <? 6 then d + 10 else
  let d := u32 (c - 65) in if d <? 6 then d + 10 else -1.

(** The digits are all of [hex]. *)
Fixpoint hex2int_from (result : Z) (hex : list Z) : Z :=
  match hex with
  | [] => result
  | c :: hex => let c := hexdigit_value c in if c <? 0 then -1 else hex2int_from ((result .<< 4) .| c) hex
  end.
Definition hex2int (hex : list Z) : Z := hex2int_from 0 hex.

Fixpoint int2hex (len : nat) (val : Z) : list Z :=
  match len with
  | O => []
  | S len => hexdigit ((val .>> (Z.of_nat len * 4)) .& 15) :: int2hex len val
  end.

(** [%02x] *)
Definition hex02 (v : Z) : list Z := let h := hex_loop 8 v in if (length h <? 2)%nat then 48 :: h else h.

(** ** Sinks *)

(** The buffer of a sink is an argument of the operations that use it. *)
Record QemudSink := mkSink { sk_used : Z; sk_size : Z }.

Definition qemud_sink_reset (size : Z) : QemudSink := mkSink 0 size.

(** Whether the sink is full, the sink, its buffer and what is left of the
    source. *)
Definition qemud_sink_fill (ss : QemudSink) (buff msg : list Z) : outcome (bool * QemudSink * list Z * list Z) :=
  let avail := sk_size ss - sk_used ss in
  if avail <=? 0 then Ret (true, ss, buff, msg) else
  let avail := if Z.of_nat (length msg) <? avail then Z.of_nat (length msg) else avail in
  if (sk_used ss <? 0) || (Z.of_nat (length buff) <? sk_used ss + avail) then OutOfBounds else
  let buff := blit buff (sk_used ss) (take (Z.to_nat avail) msg) in
  let ss := mkSink (sk_used ss + avail) (sk_size ss) in
  Ret (sk_used ss =? sk_size ss, ss, buff, drop (Z.to_nat avail) msg).

Definition qemud_sink_needed (ss : QemudSink) : Z := sk_size ss - sk_used ss.

(** ** The serial link *)

Definition MAX_SERIAL_PAYLOAD : Z := 4000.
Definition HEADER_SIZE : Z := 6.
Definition LENGTH_OFFSET : Z := 2.
Definition LENGTH_SIZE : Z := 4.
Definition CHANNEL_OFFSET : Z := 0.
Definition CHANNEL_SIZE : Z := 2.
Definition LEGACY_LENGTH_OFFSET : Z := 0.
Definition LEGACY_CHANNEL_OFFSET : Z := 4.
Definition FRAME_HEADER_SIZE : Z := 4.
Definition QEMUD_VERSION_UNKNOWN : Z := 0.
Definition QEMUD_VERSION_LEGACY : Z := 1.
Definition QEMUD_VERSION_NORMAL : Z := 2.

(** Both sinks fill [qs_data0]. *)
Record QemudSerial := mkSerial {
  qs_need_header : Z;
  qs_overflow : Z;
  qs_in_size : Z;
  qs_in_channel : Z;
  qs_version : Z;
  qs_header : QemudSink;
  qs_payload : QemudSink;
  qs_data0 : list Z;
}.

Definition set_qs_header h d s := mkSerial (qs_need_header s) (qs_overflow s) (qs_in_size s) (qs_in_channel s) (qs_version s) h (qs_payload s) d.
Definition set_qs_payload n p d s := mkSerial n (qs_overflow s) (qs_in_size s) (qs_in_channel s) (qs_version s) (qs_header s) p d.
Definition set_qs_overflow o s := mkSerial (qs_need_header s) o (qs_in_size s) (qs_in_channel s) (qs_version s) (qs_header s) (qs_payload s) (qs_data0 s).
Definition set_qs_version v s := mkSerial (qs_need_header s) (qs_overflow s) (qs_in_size s) (qs_in_channel s) v (qs_header s) (qs_payload s) (qs_data0 s).
Definition set_qs_in sz ch s := mkSerial (qs_need_header s) (qs_overflow s) sz ch (qs_version s) (qs_header s) (qs_payload s) (qs_data0 s).

Definition qemud_serial_can_read (s : QemudSerial) : Z :=
  if 0 <? qs_overflow s then qs_overflow s
  else if nz (qs_need_header s) then qemud_sink_needed (qs_header s)
  else qemud_sink_needed (qs_payload s).

(** What the first header tells of the daemon, and whether the modem is told. *)
Definition detect_version (s : QemudSerial) : QemudSerial * bool :=
  if qs_version s =? QEMUD_VERSION_UNKNOWN then
    if bool_decide (range (qs_data0 s) 0 6 = chars "001200") then (set_qs_version QEMUD_VERSION_LEGACY s, true)
    else (set_qs_version QEMUD_VERSION_NORMAL s, false)
  else (s, false).

Definition parse_header (s : QemudSerial) : QemudSerial :=
  let s := if qs_version s =? QEMUD_VERSION_LEGACY
    then set_qs_in (hex2int (range (qs_data0 s) LEGACY_LENGTH_OFFSET LENGTH_SIZE)) (hex2int (range (qs_data0 s) LEGACY_CHANNEL_OFFSET CHANNEL_SIZE)) s
    else set_qs_in (hex2int (range (qs_data0 s) LENGTH_OFFSET LENGTH_SIZE)) (hex2int (range (qs_data0 s) CHANNEL_OFFSET CHANNEL_SIZE)) s in
  set_qs_header (mkSink 0 (sk_size (qs_header s))) (qs_data0 s) s.

(** The object a serial link belongs to, and its receiver. A message reaches
    the receiver as its bytes; what the receiver writes over them in
    [qs_data0] is never read again, since the next header and payload are
    stored first. *)
Class SerialHost (M : Type) := {
  serial : M -> QemudSerial;
  with_serial : QemudSerial -> M -> M;
  recv_func : Z -> list Z -> M -> outcome M;
  amodem_set_legacy : M -> M;
}.

Section reading.
Context {M : Type} `{SerialHost M}.
Implicit Types m : M.

(** From "read payload bytes" to the end of the loop's body, which goes on
    with [rest]. *)
Definition read_payload (rest : list Z -> M -> outcome M) (from : list Z) m : outcome M :=
  let s := serial m in
  '(full, p, d, from) ← qemud_sink_fill (qs_payload s) (qs_data0 s) from;
  let s := set_qs_payload (qs_need_header s) p d s in
  if negb full then Ret (with_serial s m) else
  let size := sk_size (qs_payload s) in
  if (size <? 0) || (Z.of_nat (length (qs_data0 s)) <=? size) then OutOfBounds else
  let s := set_qs_payload (qs_need_header s) p (<[Z.to_nat size := 0]> (qs_data0 s)) s in
  m ← recv_func (qs_in_channel s) (range (qs_data0 s) 0 size) (with_serial s m);
  let s := serial m in
  rest from (with_serial (set_qs_payload 1 (qs_payload s) (qs_data0 s) s) m).

Fixpoint serial_read_loop (fuel : nat) (from : list Z) m : outcome M :=
  match from with
  | [] => Ret m
  | _ :: _ =>
      match fuel with
      | O => StillRunning
      | S fuel =>
          let s := serial m in
          if 0 <? qs_overflow s then
            let avail := if Z.of_nat (length from) <? qs_overflow s then Z.of_nat (length from) else qs_overflow s in
            serial_read_loop fuel (drop (Z.to_nat avail) from) m
          else if nz (qs_need_header s) then
            '(full, h, d, from) ← qemud_sink_fill (qs_header s) (qs_data0 s) from;
            let s := set_qs_header h d s in
            if negb full then Ret (with_serial s m) else
            let '(s, legacy) := detect_version s in
            let m := if legacy : bool then amodem_set_legacy m else m in
            let s := parse_header s in
            if (qs_in_size s <=? 0) || (qs_in_channel s <? 0) then serial_read_loop fuel from (with_serial s m) else
            if MAX_SERIAL_PAYLOAD <? qs_in_size s then serial_read_loop fuel from (with_serial (set_qs_overflow (qs_in_size s) s) m) else
            let s := set_qs_payload 0 (qemud_sink_reset (qs_in_size s)) (qs_data0 s) s in
            read_payload (serial_read_loop fuel) from (with_serial s m)
          else read_payload (serial_read_loop fuel) from m
      end
  end.

(** Every round takes a byte, except for one that finds a sink of a bad
    snapshot full. *)
Definition qemud_serial_read (from : list Z) m : outcome M := serial_read_loop (3 * length from + 3) from m.
End reading.

Definition LEGACY_PROBE : list Z :=
  chars "000100X" ++ chars "000b00connect:gsm" ++ chars "000b00connect:gps" ++ chars "000f00connect:control" ++ chars "00c210" ++ replicate 194 0.

(** The link of a structure of zeros, and what goes out to the daemon. *)
Definition qemud_serial_init : QemudSerial * list Z :=
  (mkSerial 1 0 0 (-1) QEMUD_VERSION_UNKNOWN (qemud_sink_reset HEADER_SIZE) (mkSink 0 0) (replicate (Z.to_nat (MAX_SERIAL_PAYLOAD + 1)) 0), LEGACY_PROBE).

Definition packet_header (version channel avail : Z) : list Z :=
  if version =? QEMUD_VERSION_LEGACY
  then int2hex (Z.to_nat LENGTH_SIZE) avail ++ int2hex (Z.to_nat CHANNEL_SIZE) channel
  else int2hex (Z.to_nat CHANNEL_SIZE) channel ++ int2hex (Z.to_nat LENGTH_SIZE) avail.

(** The bytes written to the link. *)
Fixpoint serial_send_loop (fuel : nat) (version channel msglen : Z) (framing : bool) (msg : list Z) (len : Z) : list Z :=
  if len <=? 0 then [] else
  match fuel with
  | O => []
  | S fuel =>
      let avail := if MAX_SERIAL_PAYLOAD <? len then MAX_SERIAL_PAYLOAD else len in
      let header := packet_header version channel avail in
      let frame := if framing then int2hex (Z.to_nat FRAME_HEADER_SIZE) msglen else [] in
      let '(avail, len) := if framing then (avail - FRAME_HEADER_SIZE, len - FRAME_HEADER_SIZE) else (avail, len) in
      header ++ frame ++ take (Z.to_nat avail) msg
        ++ serial_send_loop fuel version channel msglen false (drop (Z.to_nat avail) msg) (len - avail)
  end.

Definition qemud_serial_send (version channel : Z) (framing : bool) (msg : list Z) : list Z :=
  let msglen := Z.of_nat (length msg) in
  if (msglen <=? 0) || (channel <? 0) then [] else
  serial_send_loop (length msg + 4) version channel msglen framing msg (if framing then msglen + FRAME_HEADER_SIZE else msglen).
