(* ===== verification/QemudMux.v ===== *)
(** Clients, services, the control channel and the pipes of the qemud
    multiplexer, android/hw-qemud.c. *)
From stdpp Require Import strings gmap.
From S2P Require Import Prelude CStrings QemuFile Qemud.
Open Scope list_scope.

(** ** Clients and services *)

Definition PIPE_ERROR_AGAIN : Z := -2.
Definition PIPE_WAKE_READ : Z := 1 .<< 1.
Definition PIPE_POLL_IN : Z := 1 .<< 0.
Definition PIPE_POLL_OUT : Z := 1 .<< 1.

(** [pm_offset] bytes of the message are sent. *)
Record QemudPipeMessage := mkPipeMessage { pm_message : list Z; pm_offset : Z }.

(** The pipe of a pipe client is [None] until [_qemudPipe_init] sets it. *)
Inductive QemudProtocol :=
| QEMUD_PROTOCOL_PIPE (messages : list QemudPipeMessage) (qemud_pipe : option nat)
| QEMUD_PROTOCOL_SERIAL (channel : Z).

(** [clie_recv]: the control channel's, the one of a service, or NULL. *)
Inductive receiver := ControlRecv | ServiceRecv | NoRecv.

(** The buffer of the payload sink. *)
Inductive payload_buff := BuffNull | BuffFreed | Buff (b : list Z).

Record QemudClient := mkClient {
  c_protocol : QemudProtocol;
  c_param : option (list Z);
  c_recv : receiver;
  c_close : bool;
  c_service : option nat;
  c_framing : Z;
  c_need_header : Z;
  c_closing : Z;
  c_header : QemudSink;
  c_header0 : list Z;
  c_payload : QemudSink;
  c_buff : payload_buff;
}.

Definition set_protocol p c := mkClient p (c_param c) (c_recv c) (c_close c) (c_service c) (c_framing c) (c_need_header c) (c_closing c) (c_header c) (c_header0 c) (c_payload c) (c_buff c).
Definition set_c_service sv c := mkClient (c_protocol c) (c_param c) (c_recv c) (c_close c) sv (c_framing c) (c_need_header c) (c_closing c) (c_header c) (c_header0 c) (c_payload c) (c_buff c).
Definition set_c_framing n nh b c := mkClient (c_protocol c) (c_param c) (c_recv c) (c_close c) (c_service c) n nh (c_closing c) (c_header c) (c_header0 c) (c_payload c) b.
Definition set_c_header h h0 c := mkClient (c_protocol c) (c_param c) (c_recv c) (c_close c) (c_service c) (c_framing c) (c_need_header c) (c_closing c) h h0 (c_payload c) (c_buff c).
Definition set_c_payload nh p b c := mkClient (c_protocol c) (c_param c) (c_recv c) (c_close c) (c_service c) (c_framing c) nh (c_closing c) (c_header c) (c_header0 c) p b.
Definition set_closing c := mkClient (c_protocol c) (c_param c) (c_recv c) (c_close c) (c_service c) (c_framing c) (c_need_header c) 1 (c_header c) (c_header0 c) (c_payload c) (c_buff c).

(** Services and clients have numbers for the addresses of their
    structures. *)
Record QemudService := mkService {
  sv_id : nat;
  sv_name : list Z;
  max_clients : Z;
  num_clients : Z;
  sv_clients : list nat;
}.
Definition set_sv_clients n l sv := mkService (sv_id sv) (sv_name sv) (max_clients sv) n l.

Record QemudPipe := mkPipe { hwpipe : Z; pipe_service : nat; pipe_client : option nat }.

(** The calls a service makes from its callbacks. *)
Inductive client_call :=
| CallSend (c : nat) (msg : list Z)
| CallSetFraming (c : nat) (framing : Z)
| CallClose (c : nat)
| CallBroadcast (sv : nat) (msg : list Z).

(** [serv_connect] refuses, or registers one client with [qemud_client_new],
    with or without the two optional callbacks, and then makes its calls. *)
Inductive connect_answer (W : Type) :=
| Refused (w : W)
| Accepted (w : W) (recv close : bool) (calls : list client_call).
Arguments Refused {W} w.
Arguments Accepted {W} w recv close calls.

(** What the services, the pipes and the modem do: none of it is in
    android/hw-qemud.c. A callback is given the numbers of its service or
    client; one that closes makes no calls. *)
Class QemudServices (W : Type) := {
  serv_connect : nat -> nat -> Z -> option (list Z) -> W -> connect_answer W;
  clie_recv : nat -> list Z -> W -> W * list client_call;
  clie_close : nat -> W -> W;
  goldfish_pipe_wake : Z -> Z -> W -> W;
  modem_set_legacy : W -> W;
}.

(** The global multiplexer with the objects it reaches: the structures in
    memory, the global lists, what went out to the daemon, and the rest of the
    emulator. *)
Record QemudMultiplexer (W : Type) := mkMux {
  mx_serial : QemudSerial;
  mx_heap : gmap nat QemudClient;
  mx_next : nat;
  mx_clients : list nat;
  mx_services : list QemudService;
  mx_pipes : gmap nat QemudPipe;
  mx_out : list Z;
  mx_world : W;
}.
Arguments mkMux {W} _ _ _ _ _ _ _ _.
Arguments mx_serial {W} _.
Arguments mx_heap {W} _.
Arguments mx_next {W} _.
Arguments mx_clients {W} _.
Arguments mx_services {W} _.
Arguments mx_pipes {W} _.
Arguments mx_out {W} _.
Arguments mx_world {W} _.

Section multiplexer.
Context {W : Type} `{QemudServices W}.
Abbreviation M := (QemudMultiplexer W).
Implicit Types m : M.

Definition set_mx_serial s m : M := mkMux s (mx_heap m) (mx_next m) (mx_clients m) (mx_services m) (mx_pipes m) (mx_out m) (mx_world m).
Definition set_mx_heap h m : M := mkMux (mx_serial m) h (mx_next m) (mx_clients m) (mx_services m) (mx_pipes m) (mx_out m) (mx_world m).
Definition set_mx_clients l m : M := mkMux (mx_serial m) (mx_heap m) (mx_next m) l (mx_services m) (mx_pipes m) (mx_out m) (mx_world m).
Definition set_mx_services l m : M := mkMux (mx_serial m) (mx_heap m) (mx_next m) (mx_clients m) l (mx_pipes m) (mx_out m) (mx_world m).
Definition set_mx_pipes ps m : M := mkMux (mx_serial m) (mx_heap m) (mx_next m) (mx_clients m) (mx_services m) ps (mx_out m) (mx_world m).
Definition set_mx_world w m : M := mkMux (mx_serial m) (mx_heap m) (mx_next m) (mx_clients m) (mx_services m) (mx_pipes m) (mx_out m) w.
Definition write_out bs m : M := mkMux (mx_serial m) (mx_heap m) (mx_next m) (mx_clients m) (mx_services m) (mx_pipes m) (mx_out m ++ bs) (mx_world m).

(** A freed structure is outside of every object. *)
Definition client (c : nat) m : outcome QemudClient := match mx_heap m !! c with Some x => Ret x | None => OutOfBounds end.
Definition set_client (c : nat) (x : QemudClient) m : M := set_mx_heap (<[c := x]> (mx_heap m)) m.
Definition update_service (sv : nat) (f : QemudService -> QemudService) m : M :=
  set_mx_services ((fun x => if decide (sv_id x = sv) then f x else x) <$> mx_services m) m.

(** The doubly linked list of all clients is the list of their numbers. *)
Definition qemud_client_remove (c : nat) m : M := set_mx_clients (filter (fun x => x <> c) (mx_clients m)) m.
Definition qemud_client_prepend (c : nat) m : M := set_mx_clients (c :: mx_clients m) m.

Definition is_pipe_client (x : QemudClient) : bool := match c_protocol x with QEMUD_PROTOCOL_PIPE _ _ => true | _ => false end.

(** ** Sending *)

Definition qemud_pipe_cache_buffer (c : nat) (msg : list Z) m : outcome M :=
  x ← client c m;
  match c_protocol x with
  | QEMUD_PROTOCOL_PIPE messages pipe =>
      let m := set_client c (set_protocol (QEMUD_PROTOCOL_PIPE (messages ++ [mkPipeMessage msg 0]) pipe) x) m in
      match pipe ≫= (mx_pipes m !!.) with
      | Some p => Ret (set_mx_world (goldfish_pipe_wake (hwpipe p) PIPE_WAKE_READ (mx_world m)) m)
      | None => OutOfBounds
      end
  | QEMUD_PROTOCOL_SERIAL _ => OutOfBounds
  end.

Fixpoint pipe_send_loop (fuel : nat) (c : nat) (msglen : Z) (framing : bool) (msg : list Z) (len : Z) m : outcome M :=
  if len <=? 0 then Ret m else
  match fuel with
  | O => StillRunning
  | S fuel =>
      let avail := if MAX_SERIAL_PAYLOAD <? len then MAX_SERIAL_PAYLOAD else len in
      m ← (if framing then qemud_pipe_cache_buffer c (int2hex (Z.to_nat FRAME_HEADER_SIZE) msglen) m else Ret m);
      let '(avail, len) := if framing then (avail - FRAME_HEADER_SIZE, len - FRAME_HEADER_SIZE) else (avail, len) in
      m ← qemud_pipe_cache_buffer c (take (Z.to_nat avail) msg) m;
      pipe_send_loop fuel c msglen false (drop (Z.to_nat avail) msg) (len - avail) m
  end.

Definition qemud_pipe_send (c : nat) (msg : list Z) m : outcome M :=
  x ← client c m;
  let framing := nz (c_framing x) in
  let msglen := Z.of_nat (length msg) in
  if msglen <=? 0 then Ret m else
  pipe_send_loop (length msg + 4) c msglen framing msg (if framing then msglen + FRAME_HEADER_SIZE else msglen) m.

Definition serial_send (channel : Z) (framing : bool) (msg : list Z) m : M :=
  write_out (qemud_serial_send (qs_version (mx_serial m)) channel framing msg) m.

Definition qemud_client_send (c : nat) (msg : list Z) m : outcome M :=
  x ← client c m;
  match c_protocol x with
  | QEMUD_PROTOCOL_PIPE _ _ => qemud_pipe_send c msg m
  | QEMUD_PROTOCOL_SERIAL channel => Ret (serial_send channel (nz (c_framing x)) msg m)
  end.

Definition qemud_client_set_framing (c : nat) (framing : Z) m : outcome M :=
  x ← client c m;
  let x := if nz (c_framing x) && negb (nz (c_need_header x)) then set_c_framing (c_framing x) 1 BuffFreed x else x in
  Ret (set_client c (set_c_framing (if nz framing then 1 else 0) (c_need_header x) (c_buff x) x) m).

(** ** Disconnecting *)

Definition qemud_service_remove_client (sv c : nat) m : M :=
  update_service sv (fun x => if bool_decide (c ∈ sv_clients x) then set_sv_clients (num_clients x - 1) (filter (fun y => y <> c) (sv_clients x)) x else x) m.

(** [_qemud_client_free] at the end only frees memory. *)
Definition qemud_client_disconnect (c : nat) (guest_close : bool) m : outcome M :=
  x ← client c m;
  if nz (c_closing x) then Ret m else
  if is_pipe_client x && negb guest_close then qemud_pipe_send c (chars "disconnect:00") m else
  let m := set_client c (set_closing x) m in
  let m := qemud_client_remove c m in
  m ← match c_protocol x with
      | QEMUD_PROTOCOL_PIPE _ pipe =>
          match pipe with
          | Some p => match mx_pipes m !! p with
                      | Some q => Ret (set_mx_pipes (<[p := mkPipe (hwpipe q) (pipe_service q) None]> (mx_pipes m)) m)
                      | None => OutOfBounds
                      end
          | None => OutOfBounds
          end
      | QEMUD_PROTOCOL_SERIAL channel =>
          Ret (if 0 <? channel then serial_send 0 false (chars "disconnect:" ++ hex02 channel) m else m)
      end;
  let m := if c_close x then set_mx_world (clie_close c (mx_world m)) m else m in
  let m := match c_service x with Some sv => qemud_service_remove_client sv c m | None => m end in
  Ret (set_mx_heap (delete c (mx_heap m)) m).

(** ** The calls of services *)

Definition qemud_service_broadcast (sv : nat) (msg : list Z) m : outcome M :=
  match find (fun x => bool_decide (sv_id x = sv)) (mx_services m) with
  | Some x => foldM (fun m c => qemud_client_send c msg m) m (sv_clients x)
  | None => OutOfBounds
  end.

Definition run_call m (k : client_call) : outcome M :=
  match k with
  | CallSend c msg => qemud_client_send c msg m
  | CallSetFraming c framing => qemud_client_set_framing c framing m
  | CallClose c => qemud_client_disconnect c false m
  | CallBroadcast sv msg => qemud_service_broadcast sv msg m
  end.

(** ** Connecting *)

(** A negative channel makes a pipe client. *)
Definition qemud_client_alloc (channel_id : Z) (param : option (list Z)) (recv : receiver) (close : bool) m : nat * M :=
  let c := mx_next m in
  let x := mkClient (if channel_id <? 0 then QEMUD_PROTOCOL_PIPE [] None else QEMUD_PROTOCOL_SERIAL channel_id)
             param recv close None 0 1 0 (qemud_sink_reset FRAME_HEADER_SIZE) (replicate 4 0) (mkSink 0 0) BuffNull in
  (c, qemud_client_prepend c (mkMux (mx_serial m) (<[c := x]> (mx_heap m)) (S c) (mx_clients m) (mx_services m) (mx_pipes m) (mx_out m) (mx_world m))).

Definition qemud_service_add_client (sv c : nat) m : outcome M :=
  x ← client c m;
  Ret (update_service sv (fun s => set_sv_clients (num_clients s + 1) (c :: sv_clients s) s) (set_client c (set_c_service (Some sv) x) m)).

Definition qemud_client_new (sv : nat) (channel_id : Z) (param : option (list Z)) (recv : receiver) (close : bool) m : outcome (nat * M) :=
  let '(c, m) := qemud_client_alloc channel_id param recv close m in
  m ← qemud_service_add_client sv c m; Ret (c, m).

Definition qemud_service_connect_client (sv : nat) (channel_id : Z) (param : option (list Z)) m : outcome (option nat * M) :=
  match serv_connect sv (mx_next m) channel_id param (mx_world m) with
  | Refused w => Ret (None, set_mx_world w m)
  | Accepted w recv close calls =>
      '(c, m) ← qemud_client_new sv channel_id param (if recv then ServiceRecv else NoRecv) close (set_mx_world w m);
      m ← foldM run_call m calls;
      Ret (Some c, m)
  end.

(** [strcmp(sv->name, name)] *)
Definition qemud_service_find (services : list QemudService) (name : list Z) : option QemudService :=
  find (fun sv => bool_decide (sv_name sv = name)) services.

Definition qemud_multiplexer_connect (name : list Z) (channel_id : Z) m : outcome (Z * M) :=
  match qemud_service_find (mx_services m) name with
  | None => Ret (-1, m)
  | Some sv =>
      if (0 <? max_clients sv) && (max_clients sv <=? num_clients sv) then Ret (-2, m) else
      '(c, m) ← qemud_service_connect_client (sv_id sv) channel_id None m;
      Ret (match c with None => -1 | Some _ => 0 end, m)
  end.

(** The first serial client of the list with this channel. *)
Definition on_channel (channel : Z) m (c : nat) : bool :=
  match mx_heap m !! c with
  | Some x => match c_protocol x with QEMUD_PROTOCOL_SERIAL ch => ch =? channel | _ => false end
  | None => false
  end.
Definition find_channel (channel : Z) m : option nat := find (on_channel channel m) (mx_clients m).

Definition qemud_multiplexer_disconnect (channel : Z) m : outcome M :=
  match find_channel channel m with
  | Some c => x ← client c m; qemud_client_disconnect c false (set_client c (set_protocol (QEMUD_PROTOCOL_SERIAL (-1)) x) m)
  | None => Ret m
  end.

(** ** The control channel *)

(** The string up to [ch] and what follows it; nothing if the string ends
    first. *)
Fixpoint strchr_split (ch : Z) (l : list Z) : option (list Z * list Z) :=
  match l with
  | [] => None
  | c :: l => if c =? ch then Some ([], l) else if c =? 0 then None else
      match strchr_split ch l with Some (a, b) => Some (c :: a, b) | None => None end
  end.

(** [<service>:<id>] up to the end of the message: the name and the channel. *)
Definition parse_connect (msg : list Z) : option (list Z * Z) :=
  match strchr_split 58 msg with
  | Some (name, id) =>
      if negb (Z.of_nat (length id) =? 2) then None else
      let channel := hex2int id in if channel <=? 0 then None else Some (name, channel)
  | None => None
  end.

Definition connect_reply (ret channel : Z) : list Z :=
  if ret <? 0 then
    if ret =? -1 then chars "ko:connect:" ++ hex02 channel ++ chars ":unknown service"
    else chars "ko:connect:" ++ hex02 channel ++ chars ":service busy"
  else chars "ok:connect:" ++ hex02 channel.

(** "ok:connect:", which only a legacy daemon sends. *)
Definition legacy_connect (msg : list Z) m : outcome M :=
  match parse_connect msg with
  | None => Ret m
  | Some (name, channel) =>
      let v := qs_version (mx_serial m) in
      if negb (v =? QEMUD_VERSION_UNKNOWN) && negb (v =? QEMUD_VERSION_LEGACY) then Ret m else
      let m := if v =? QEMUD_VERSION_UNKNOWN then set_mx_serial (set_qs_version QEMUD_VERSION_LEGACY (mx_serial m)) m else m in
      let name := if bool_decide (name = chars "control") then chars "hw-control" else name in
      '(_, m) ← qemud_multiplexer_connect name channel m; Ret m
  end.

Definition qemud_multiplexer_control_recv (msg : list Z) m : outcome M :=
  let msglen := Z.of_nat (length msg) in
  if (8 <? msglen) && bool_decide (take 8 msg = chars "connect:") then
    match parse_connect (drop 8 msg) with
    | None => Ret m
    | Some (name, channel) =>
        '(ret, m) ← qemud_multiplexer_connect name channel m;
        Ret (serial_send 0 false (connect_reply ret channel) m)
    end
  else if (msglen =? 13) && bool_decide (take 11 msg = chars "disconnect:") then
    let channel_id := hex2int (range msg 11 2) in
    if channel_id <=? 0 then Ret m else qemud_multiplexer_disconnect channel_id m
  else if (11 <? msglen) && bool_decide (take 11 msg = chars "ok:connect:") then legacy_connect (drop 11 msg) m
  else if qs_version (mx_serial m) =? QEMUD_VERSION_LEGACY then Ret m
  else Ret (serial_send 0 false (chars "ko:unknown command") m).

(** ** Receiving *)

(** [c->clie_recv], if any. *)
Definition deliver (c : nat) (r : receiver) (msg : list Z) m : outcome M :=
  match r with
  | ControlRecv => qemud_multiplexer_control_recv msg m
  | ServiceRecv => let '(w, calls) := clie_recv c msg (mx_world m) in foldM run_call (set_mx_world w m) calls
  | NoRecv => Ret m
  end.

(** From "read the payload" to the end of the loop's body. The client is not
    needed for [AFREE(data)], only by the next round. *)
Definition client_payload (rest : list Z -> M -> outcome M) (c : nat) (msg : list Z) m : outcome M :=
  x ← client c m;
  match c_buff x with
  | Buff b =>
      '(full, p, b, msg) ← qemud_sink_fill (c_payload x) b msg;
      let x := set_c_payload (c_need_header x) p (Buff b) x in
      if negb full then Ret (set_client c x m) else
      let size := sk_size p in
      if (size <? 0) || (Z.of_nat (length b) <=? size) then OutOfBounds else
      m ← deliver c (c_recv x) (range b 0 size) (set_client c (set_c_payload 1 p BuffFreed x) m);
      rest msg m
  | _ => OutOfBounds
  end.

Fixpoint client_recv_loop (fuel : nat) (c : nat) (msg : list Z) m : outcome M :=
  match msg with
  | [] => Ret m
  | _ :: _ =>
      match fuel with
      | O => StillRunning
      | S fuel =>
          x ← client c m;
          if nz (c_need_header x) then
            '(full, h, h0, msg) ← qemud_sink_fill (c_header x) (c_header0 x) msg;
            let x := set_c_header h h0 x in
            if negb full then Ret (set_client c x m) else
            let frame_size := hex2int (range h0 0 4) in
            if frame_size <=? 0 then client_recv_loop fuel c msg (set_client c x m) else
            let x := set_c_payload 0 (qemud_sink_reset frame_size) (Buff (replicate (Z.to_nat (frame_size + 1)) 0)) x in
            let x := set_c_header (mkSink 0 (sk_size h)) h0 x in
            client_payload (client_recv_loop fuel c) c msg (set_client c x m)
          else client_payload (client_recv_loop fuel c) c msg m
      end
  end.

(** [fuel] rounds are allowed beyond those that the bytes of the message can
    need. *)
Definition qemud_client_recv (fuel : nat) (c : nat) (msg : list Z) m : outcome M :=
  x ← client c m;
  if negb (nz (c_framing x)) then deliver c (c_recv x) msg m else
  let msglen := Z.of_nat (length msg) in
  let len := hex2int (range msg 0 4) in
  if (FRAME_HEADER_SIZE <? msglen) && (c_need_header x =? 1) && (qemud_sink_needed (c_header x) =? 0)
     && (0 <=? len) && (msglen =? len + FRAME_HEADER_SIZE)
  then deliver c (c_recv x) (drop (Z.to_nat FRAME_HEADER_SIZE) msg) m
  else client_recv_loop (3 * length msg + 3 + fuel) c msg m.

Definition qemud_multiplexer_serial_recv (fuel : nat) (channel : Z) (msg : list Z) m : outcome M :=
  match find_channel channel m with
  | Some c => qemud_client_recv fuel c msg m
  | None => Ret m
  end.

(** ** Pipes *)

Definition qemudPipe_init (hw : Z) (args : list Z) (p : nat) m : outcome (option nat * M) :=
  let '(name, client_args) := match strchr_split 58 args with
    | Some (name, client_args) => (take 511 name, match cstr client_args with [] => None | a => Some a end)
    | None => (take 511 (cstr args), None)
    end in
  match qemud_service_find (mx_services m) name with
  | None => Ret (None, m)
  | Some sv =>
      '(c, m) ← qemud_service_connect_client (sv_id sv) (-1) client_args m;
      match c with
      | None => Ret (None, m)
      | Some c =>
          x ← client c m;
          let m := set_mx_pipes (<[p := mkPipe hw (sv_id sv) (Some c)]> (mx_pipes m)) m in
          match c_protocol x with
          | QEMUD_PROTOCOL_PIPE messages _ => Ret (Some p, set_client c (set_protocol (QEMUD_PROTOCOL_PIPE messages (Some p)) x) m)
          | QEMUD_PROTOCOL_SERIAL _ => OutOfBounds
          end
      end
  end.

Definition pipe_of (p : nat) m : outcome QemudPipe := match mx_pipes m !! p with Some q => Ret q | None => OutOfBounds end.

Definition qemudPipe_closeFromGuest (p : nat) m : outcome M :=
  q ← pipe_of p m;
  match pipe_client q with Some c => qemud_client_disconnect c true m | None => Ret m end.

(** One buffer is given to the client as it is, more are copied together. *)
Definition qemudPipe_sendBuffers (fuel : nat) (p : nat) (buffers : list (list Z)) m : outcome (Z * M) :=
  q ← pipe_of p m;
  match pipe_client q with
  | None => Ret (-1, m)
  | Some c => m ← qemud_client_recv fuel c (concat buffers) m; Ret (Z.of_nat (length (concat buffers)), m)
  end.

(** The loop of [_qemudPipe_recvBuffers]: the bytes stored in the buffers, of
    the sizes given, the first of which has room for [size] bytes, and the
    messages that are left. *)
Fixpoint pipe_recv_loop (fuel : nat) (size : Z) (sizes : list Z) (messages : list QemudPipeMessage) : list Z * list QemudPipeMessage :=
  match fuel, messages with
  | S fuel, msg :: next =>
      let to_copy := Z.min (Z.of_nat (length (pm_message msg)) - pm_offset msg) size in
      let sent := range (pm_message msg) (pm_offset msg) to_copy in
      let msg := mkPipeMessage (pm_message msg) (pm_offset msg + to_copy) in
      let messages := if Z.of_nat (length (pm_message msg)) =? pm_offset msg then next else msg :: next in
      if to_copy =? size then
        match sizes with
        | [] => (sent, messages)
        | size :: sizes => let '(bs, l) := pipe_recv_loop fuel size sizes messages in (sent ++ bs, l)
        end
      else let '(bs, l) := pipe_recv_loop fuel (size - to_copy) sizes messages in (sent ++ bs, l)
  | _, _ => ([], messages)
  end.

Definition qemudPipe_recvBuffers (p : nat) (sizes : list Z) m : outcome (Z * list Z * M) :=
  q ← pipe_of p m;
  match pipe_client q with
  | None => Ret (-1, [], m)
  | Some c =>
      x ← client c m;
      match c_protocol x with
      | QEMUD_PROTOCOL_PIPE [] _ => Ret (PIPE_ERROR_AGAIN, [], m)
      | QEMUD_PROTOCOL_PIPE messages pipe =>
          let '(bs, messages) := match sizes with
            | [] => ([], messages)
            | size :: sizes => pipe_recv_loop (S (length sizes) + length messages) size sizes messages
            end in
          Ret (Z.of_nat (length bs), bs, set_client c (set_protocol (QEMUD_PROTOCOL_PIPE messages pipe) x) m)
      | QEMUD_PROTOCOL_SERIAL _ => OutOfBounds
      end
  end.

Definition qemudPipe_poll (p : nat) m : outcome Z :=
  q ← pipe_of p m;
  match pipe_client q with
  | None => Ret 0
  | Some c =>
      x ← client c m;
      Ret (match c_protocol x with
           | QEMUD_PROTOCOL_PIPE (_ :: _) _ => PIPE_POLL_OUT .| PIPE_POLL_IN
           | _ => PIPE_POLL_OUT
           end)
  end.

(** ** Initialization *)

Definition qemud_multiplexer_init (w : W) : M :=
  let '(s, out) := qemud_serial_init in
  snd (qemud_client_alloc 0 None ControlRecv false (mkMux s ∅ 0 [] [] ∅ out w)).

Definition qemud_service_register (name : list Z) (max : Z) m : M :=
  set_mx_services (mkService (length (mx_services m)) name max 0 [] :: mx_services m) m.
End multiplexer.

(** The link of the multiplexer, whose clients may take [fuel] rounds more than
    a message needs. *)
Definition mux_host {W} `{QemudServices W} (fuel : nat) : SerialHost (QemudMultiplexer W) := {|
  serial := mx_serial;
  with_serial := set_mx_serial;
  recv_func := qemud_multiplexer_serial_recv fuel;
  amodem_set_legacy := fun m => set_mx_world (modem_set_legacy (mx_world m)) m;
|}.
