(* ===== verification/QemudSpec.v ===== *)
(** Packets and frames: what is written to the serial link of qemud, in any
    pieces, is received message by message. *)
From stdpp Require Import strings gmap.
From S2P Require Import Prelude CStrings QemuFile Qemud QemudMux.
Open Scope list_scope.

(** ** Hexadecimal numbers *)

Lemma hexdigit_back v : 0 <= v < 16 -> hexdigit_value (hexdigit v) = v.
Proof. intros Hv. assert (exists k, v = Z.of_nat k /\ (k < 16)%nat) as (k & -> & Hk) by (exists (Z.to_nat v); lia). do 16 (destruct k as [|k]; [by vm_compute|]). lia. Qed.

Lemma int2hex_length len v : length (int2hex len v) = len.
Proof. induction len as [|len IH]; [done|]. cbn. by rewrite IH. Qed.

Lemma hex2int_from_int2hex len v r : 0 <= v -> 0 <= r -> hex2int_from r (int2hex len v) = r * 16 ^ Z.of_nat len + v mod 16 ^ Z.of_nat len.
Proof.
  intros Hv. revert r. induction len as [|len IH]; intros r Hr; cbn [int2hex hex2int_from]; [rewrite Z.mod_1_r; lia|].
  set (d := (v .>> (Z.of_nat len * 4)) .& 15).
  assert (0 <= d < 16 /\ d = (v / 16 ^ Z.of_nat len) mod 16) as [Hd Ed].
  { unfold d. change 15 with (Z.ones 4). rewrite Z.land_ones, Z.shiftr_div_pow2 by lia. replace (2 ^ (Z.of_nat len * 4)) with (16 ^ Z.of_nat len) by (rewrite Z.mul_comm, Z.pow_mul_r by lia; done).
    change (2 ^ 4) with 16. split; [apply Z.mod_pos_bound; lia|done]. }
  rewrite hexdigit_back by done. destruct (Z.ltb_spec d 0); [lia|].
  assert (Z.lor (r .<< 4) d = r * 16 + d) as ->.
  { rewrite Z.shiftl_mul_pow2 by lia. change (2 ^ 4) with 16. rewrite <- Z.lxor_lor, <- Z.add_nocarry_lxor; [done|..];
    (apply Z.bits_inj'; intros i Hi; rewrite Z.land_spec, Z.bits_0; destruct (Z.ltb_spec i 4);
     [replace (r * 16) with (r * 2 ^ 4) by lia; rewrite Z.mul_pow2_bits_low by lia; done
     |rewrite (testbit_ge_range 4 d i) by (unfold in_u; lia); apply andb_false_r]). }
  rewrite IH by lia. rewrite Nat2Z.inj_succ, Z.pow_succ_r by lia.
  rewrite (Z.mul_comm 16 (16 ^ Z.of_nat len)), Z.rem_mul_r by lia. rewrite Ed. ring.
Qed.

Lemma hex2int_int2hex len v : 0 <= v < 16 ^ Z.of_nat len -> hex2int (int2hex len v) = v.
Proof. intros Hv. unfold hex2int. rewrite hex2int_from_int2hex by lia. rewrite Z.mod_small by lia. lia. Qed.

(** ** Readers of streams *)

(** A stream of items, each a header and data, that a loop reads in pieces.
    [T k m] is the object [m] whose reader is in the state [k]; what the items
    do, [recv], is stated on the object without it. *)
Class StreamReader (M K I : Type) := {
  T : K -> M -> M;
  item_ok : I -> Prop;
  header : I -> list Z;
  data : I -> list Z;
  recv : I -> M -> outcome M;
  (** The loop, its second half, and the call with one piece. *)
  loop : nat -> list Z -> M -> outcome M;
  half : (list Z -> M -> outcome M) -> list Z -> M -> outcome M;
  read : list Z -> M -> outcome M;
  (** The object is one that is being read, and the reader has read some of a
      header, or a header and some of the data of an item. *)
  good : M -> Prop;
  in_header : list Z -> K -> Prop;
  in_data : I -> list Z -> K -> Prop;
  header_size : nat;
  header_length i : length (header i) = header_size;
  in_header_short p k : in_header p k -> (length p < header_size)%nat;
  in_data_short i p k : in_data i p k -> (length p < length (data i))%nat;
  recv_good i m m' : item_ok i -> good m -> recv i m = Ret m' -> good m';
  loop_nil fuel m : loop fuel [] m = Ret m;
  loop_header fuel p a m k : good m -> in_header p k -> a <> [] -> (length p + length a < header_size)%nat ->
    exists k', loop (S fuel) a (T k m) = Ret (T k' m) /\ in_header (p ++ a) k';
  loop_headed fuel p a b i m k : good m -> item_ok i -> in_header p k -> a <> [] -> p ++ a = header i ->
    exists k', loop (S fuel) (a ++ b) (T k m) = half (loop fuel) b (T k' m) /\ in_data i [] k';
  loop_data fuel i p a m k : good m -> in_data i p k -> a <> [] -> loop (S fuel) a (T k m) = half (loop fuel) a (T k m);
  half_short rest i p a m k : good m -> item_ok i -> in_data i p k -> (length p + length a < length (data i))%nat ->
    exists k', half rest a (T k m) = Ret (T k' m) /\ in_data i (p ++ a) k';
  half_full rest i p a b m k : good m -> item_ok i -> in_data i p k -> p ++ a = data i ->
    exists k', half rest (a ++ b) (T k m) = (m' ← recv i m; rest b (T k' m')) /\ in_header [] k';
  read_loop c m k : good m -> (exists p, in_header p k) \/ (exists i p, in_data i p k) -> exists fuel, (length c <= fuel)%nat /\ read c (T k m) = loop fuel c (T k m);
}.

Section stream.
Context {M K I : Type} `{StreamReader M K I}.
Implicit Types (m : M) (k : K) (its : list I).

Definition item_bytes (i : I) : list Z := header i ++ data i.

(** The items that are received whole. *)
Definition receive its m : outcome M := foldM (fun m i => recv i m) m its.

(** [d] of the first of the items has been read. *)
Definition reading (d : list Z) its k : Prop :=
  match its with
  | [] => d = [] /\ in_header [] k
  | i :: _ => in_header d k \/ exists q, d = header i ++ q /\ in_data i q k
  end.

Lemma reading_idle its k : in_header [] k -> reading [] its k.
Proof. intros Hi. destruct its; [done|by left]. Qed.

(** A piece of the stream is read as [r]: what is left of the items, and of
    the first of them, or the way an item ended the program. *)
Definition piece_read (r : outcome M) (future : list Z) its m : Prop :=
  (exists done todo d k m', its = done ++ todo /\ reading d todo k /\ d ++ future = concat (item_bytes <$> todo)
    /\ receive done m = Ret m' /\ good m' /\ r = Ret (T k m'))
  \/ (forall m', receive its m <> Ret m') /\ forall k, r = T k <$> receive its m.

Lemma piece_read_cons r future i its m m1 : recv i m = Ret m1 -> piece_read r future its m1 -> piece_read r future (i :: its) m.
Proof.
  intros E Hp. assert (forall l, receive (i :: l) m = receive l m1) as Er by (intros l; unfold receive; cbn [foldM]; by rewrite E).
  destruct Hp as [(dn & todo & d & k & m2 & -> & Hr & Hd & E2 & Hg & ->)|[Hno Hr]].
  - left. exists (i :: dn), todo, d, k, m2. by rewrite Er.
  - right. by rewrite Er.
Qed.

(** A piece that ends inside the data of the first item, or after it. *)
Lemma read_data_piece fuel i its q c future m k :
  (forall c future m k, good m -> in_header [] k -> c ++ future = concat (item_bytes <$> its) -> (length c <= fuel)%nat -> piece_read (loop fuel c (T k m)) future its m) ->
  good m -> item_ok i -> in_data i q k -> q ++ c ++ future = data i ++ concat (item_bytes <$> its) -> (length c <= S fuel)%nat ->
  piece_read (half (loop fuel) c (T k m)) future (i :: its) m.
Proof.
  intros IH Hm Hi Hin Hst Hf. pose proof (in_data_short _ _ _ Hin) as Hq. destruct (decide (length q + length c < length (data i))%nat) as [Hlt|Hge].
  - destruct (half_short (loop fuel) i q c m k Hm Hi Hin Hlt) as (k' & E & Hin').
    left. exists [], (i :: its), (header i ++ (q ++ c)), k', m. split_and!; [done|right; eauto| |done..].
    cbn [fmap list_fmap concat]. unfold item_bytes at 1. by rewrite <- !app_assoc, Hst.
  - assert (exists a b, c = a ++ b /\ q ++ a = data i) as (a & b & -> & Hqa).
    { exists (take (length (data i) - length q) c), (drop (length (data i) - length q) c). split; [by rewrite take_drop|].
      apply (f_equal (take (length (data i)))) in Hst. rewrite take_app_length, take_app_ge, take_app_le in Hst by lia. done. }
    assert (b ++ future = concat (item_bytes <$> its)) as Hb by (rewrite <- app_assoc, (app_assoc q), Hqa in Hst; by apply app_inv_head in Hst).
    destruct (half_full (loop fuel) i q a b m k Hm Hi Hin Hqa) as (k' & E & Hi'). rewrite E.
    assert (a <> []) as Ha by (intros ->; rewrite app_nil_r in Hqa; subst; lia). rewrite length_app in Hf. destruct a as [|a0 a]; [done|]. cbn in Hf.
    destruct (recv i m) as [m1| | | | |] eqn:Er; cbn [mbind outcome_bind].
    2-6: right; unfold receive; cbn [foldM]; by rewrite Er.
    eapply piece_read_cons; [done|]. apply IH; [by eapply recv_good|done..|lia].
Qed.

Lemma read_piece its fuel d c future m k : Forall item_ok its -> good m -> reading d its k ->
  d ++ c ++ future = concat (item_bytes <$> its) -> (length c <= fuel)%nat -> piece_read (loop fuel c (T k m)) future its m.
Proof.
  intros His. revert fuel d c future m k. induction its as [|i its IH]; intros fuel d c future m k Hm Hr Hst Hf.
  { destruct Hr as [-> Hr]. cbn in Hst. apply app_nil in Hst as [-> ->]. rewrite loop_nil. left. by exists [], [], [], k, m. }
  destruct (decide (c = [])) as [->|Hc].
  { rewrite loop_nil. left. by exists [], (i :: its), d, k, m. }
  apply Forall_cons in His as [Hi His]. destruct fuel as [|fuel]; [destruct c; [done|cbn in Hf; lia]|].
  assert (forall c future m k, good m -> in_header [] k -> c ++ future = concat (item_bytes <$> its) -> (length c <= fuel)%nat -> piece_read (loop fuel c (T k m)) future its m) as IH'
    by (intros; eapply IH; [done..|by apply reading_idle|done|done]).
  cbn [fmap list_fmap concat] in Hst. unfold item_bytes at 1 in Hst. rewrite <- app_assoc in Hst.
  destruct Hr as [Hr|(q & -> & Hr)].
  2: { rewrite <- app_assoc in Hst. apply app_inv_head in Hst. rewrite (loop_data fuel i q c m k) by done. by eapply read_data_piece. }
  pose proof (in_header_short _ _ Hr) as Hd. pose proof (header_length i) as Hh. destruct (decide (length d + length c < header_size)%nat) as [Hlt|Hge].
  { destruct (loop_header fuel d c m k Hm Hr Hc Hlt) as (k' & E & Hin). left. exists [], (i :: its), (d ++ c), k', m. split_and!; [done|by left| |done..].
    cbn [fmap list_fmap concat]. unfold item_bytes at 1. by rewrite <- !app_assoc. }
  assert (exists a b, c = a ++ b /\ d ++ a = header i) as (a & b & -> & Hda).
  { exists (take (header_size - length d) c), (drop (header_size - length d) c). split; [by rewrite take_drop|].
    apply (f_equal (take (length (header i)))) in Hst. rewrite take_app_length, Hh, take_app_ge, take_app_le in Hst by lia. done. }
  assert (a <> []) as Ha by (intros ->; rewrite app_nil_r in Hda; subst d; lia).
  destruct (loop_headed fuel d a b i m k Hm Hi Hr Ha Hda) as (k' & E & Hin).
  rewrite <- app_assoc, (app_assoc d), Hda in Hst. apply app_inv_head in Hst. rewrite length_app in Hf. rewrite E. eapply read_data_piece; [exact IH'|done..|lia].
Qed.

(** The stream in any pieces. *)
Lemma read_stream chunks its d m k : Forall item_ok its -> good m -> reading d its k -> d ++ concat chunks = concat (item_bytes <$> its) ->
  (exists k', in_header [] k' /\ foldM (fun m c => read c m) (T k m) chunks = T k' <$> receive its m) /\ forall m', receive its m = Ret m' -> good m'.
Proof.
  intros His Hm Hr Hst. split.
  2: { clear -His Hm. revert m Hm. induction its as [|i its IH]; intros m Hm m' E; unfold receive in E; cbn [foldM] in E; [by injection E as <-|].
       apply Forall_cons in His as [Hi His]. destruct (recv i m) as [m1| | | | |] eqn:E1; try done. eapply IH; [done| |exact E]. by eapply recv_good. }
  revert its d m k His Hm Hr Hst. induction chunks as [|c chunks IH]; intros its d m k His Hm Hr Hst.
  { rewrite app_nil_r in Hst. destruct its as [|i its]; [destruct Hr as [-> Hr]; by exists k|]. exfalso.
    apply (f_equal length) in Hst. cbn [fmap list_fmap concat] in Hst. unfold item_bytes at 1 in Hst. rewrite !length_app, header_length in Hst.
    destruct Hr as [Hr|(q & -> & Hr)]; [apply in_header_short in Hr; lia|]. apply in_data_short in Hr. rewrite length_app, header_length in Hst. lia. }
  cbn [concat] in Hst. cbn [foldM].
  destruct (read_loop c m k Hm) as (fuel & Hf & ->). { destruct its as [|i its]; [left; exists []; by destruct Hr|]. destruct Hr as [Hr|(q & _ & Hr)]; [left|right]; eauto. }
  destruct (read_piece its fuel d c (concat chunks) m k His Hm Hr Hst Hf) as [(dn & todo & d' & k1 & m1 & -> & Hr' & Hst' & E1 & Hg & ->)|[Hno E]].
  - apply Forall_app in His as [Hdn Htodo]. cbn [mbind outcome_bind].
    destruct (IH todo d' m1 k1 Htodo Hg Hr' Hst') as (k2 & Hi & E2). exists k2. split; [done|]. rewrite E2.
    unfold receive at 2. rewrite foldM_app. fold (receive dn m). by rewrite E1.
  - assert (exists k', in_header [] k') as [k' Hk'].
    { destruct its as [|i its]; [by destruct (Hno m)|]. apply Forall_cons in His as [Hi His]. destruct Hr as [Hr|(q & -> & Hr)].
      - pose proof (in_header_short _ _ Hr) as Hd. pose proof (header_length i) as Hh. cbn [fmap list_fmap concat] in Hst. unfold item_bytes at 1 in Hst. rewrite <- app_assoc in Hst.
        assert (d = take (length d) (header i)) as Ed. { apply (f_equal (take (length d))) in Hst. rewrite take_app_length, take_app_le in Hst by lia. done. }
        destruct (loop_headed 0 d (drop (length d) (header i)) [] i m k Hm Hi Hr) as (k1 & _ & H1).
        { intros E0. apply (f_equal length) in E0. rewrite length_drop in E0. cbn in E0. lia. } { rewrite Ed at 1. by rewrite take_drop. }
        destruct (half_full (loop 0) i [] (data i) [] m k1 Hm Hi H1 eq_refl) as (k2 & _ & H2). by exists k2.
      - pose proof (in_data_short _ _ _ Hr) as Hq. cbn [fmap list_fmap concat] in Hst. unfold item_bytes at 1 in Hst. rewrite <- !app_assoc in Hst. apply app_inv_head in Hst.
        assert (q = take (length q) (data i)) as Eq. { apply (f_equal (take (length q))) in Hst. rewrite take_app_length, take_app_le in Hst by lia. done. }
        destruct (half_full (loop 0) i q (drop (length q) (data i)) [] m k Hm Hi Hr) as (k2 & _ & H2); [rewrite Eq at 1; by rewrite take_drop|]. by exists k2. }
    exists k'. split; [done|]. specialize (E k). destruct (receive its m) eqn:Er; [by destruct (Hno a)|..]; rewrite E; done.
Qed.
End stream.

(** ** Packets *)

Record packet := mkPacket { p_channel : Z; p_data : list Z }.

Definition packet_bytes (version : Z) (p : packet) : list Z := packet_header version (p_channel p) (Z.of_nat (length (p_data p))) ++ p_data p.

Definition packet_ok (p : packet) : Prop := 0 <= p_channel p < 256 /\ 0 < Z.of_nat (length (p_data p)) <= MAX_SERIAL_PAYLOAD.

(** What the reader relies on of the object its link belongs to: a lens, and a
    receiver that neither reads nor writes the state of the reader. *)
Class HostLaws (M : Type) `{SerialHost M} := {
  serial_with s (m : M) : serial (with_serial s m) = s;
  with_serial_with s s' (m : M) : with_serial s (with_serial s' m) = with_serial s m;
  with_serial_serial (m : M) : with_serial (serial m) m = m;
  recv_apart ch msg s (m : M) : qs_version s = qs_version (serial m) -> qs_version s <> QEMUD_VERSION_UNKNOWN ->
    recv_func ch msg (with_serial s m) = with_serial s <$> recv_func ch msg m;
}.

(** The reader in front of a packet of which it has read [p], and inside the
    data of a packet. *)
Definition in_packet_header (v : Z) (p : list Z) (s : QemudSerial) : Prop :=
  nz (qs_need_header s) = true /\ qs_overflow s = 0 /\ qs_version s = v /\ qs_header s = mkSink (Z.of_nat (length p)) 6
  /\ length (qs_data0 s) = 4001%nat /\ take (length p) (qs_data0 s) = p /\ (length p < 6)%nat.

Definition in_packet_data (v ch : Z) (n : nat) (p : list Z) (s : QemudSerial) : Prop :=
  nz (qs_need_header s) = false /\ qs_overflow s = 0 /\ qs_version s = v /\ qs_header s = mkSink 0 6 /\ qs_in_channel s = ch
  /\ qs_payload s = mkSink (Z.of_nat (length p)) (Z.of_nat n) /\ length (qs_data0 s) = 4001%nat
  /\ take (length p) (qs_data0 s) = p /\ (length p < n <= 4000)%nat.

Definition link_idle (v : Z) (s : QemudSerial) : Prop := in_packet_header v [] s.

Lemma fresh_link_idle v p : link_idle v (mkSerial 1 0 0 0 v (mkSink 0 6) p (replicate 4001 0)).
Proof. unfold link_idle, in_packet_header. cbn [qs_need_header qs_overflow qs_version qs_header qs_data0]. rewrite length_replicate. by repeat split; [..|cbn; lia]. Qed.

Lemma sink_fill_short buff p n msg : take (length p) buff = p -> (length p + length msg < n <= length buff)%nat ->
  exists buff', qemud_sink_fill (mkSink (Z.of_nat (length p)) (Z.of_nat n)) buff msg = Ret (false, mkSink (Z.of_nat (length (p ++ msg))) (Z.of_nat n), buff', [])
    /\ length buff' = length buff /\ take (length (p ++ msg)) buff' = p ++ msg.
Proof.
  intros Hp Hn. unfold qemud_sink_fill. cbn [sk_size sk_used]. rewrite length_app.
  destruct (Z.leb_spec (Z.of_nat n - Z.of_nat (length p)) 0); [lia|]. destruct (Z.ltb_spec (Z.of_nat (length msg)) (Z.of_nat n - Z.of_nat (length p))); [|lia].
  destruct (Z.ltb_spec (Z.of_nat (length p)) 0); [lia|]. destruct (Z.ltb_spec (Z.of_nat (length buff)) (Z.of_nat (length p) + Z.of_nat (length msg))); [lia|]. cbn [orb].
  rewrite Nat2Z.id, take_ge, drop_ge by lia. rewrite (proj2 (Z.eqb_neq _ _)) by lia. rewrite Nat2Z.inj_add. eexists. split; [done|].
  split; [apply length_blit; lia|]. unfold blit. rewrite Nat2Z.id, Hp, app_assoc. apply take_app_length'. by rewrite length_app.
Qed.

Lemma sink_fill_full buff p n a b : take (length p) buff = p -> length (p ++ a) = n -> (length p < n <= length buff)%nat ->
  exists buff', qemud_sink_fill (mkSink (Z.of_nat (length p)) (Z.of_nat n)) buff (a ++ b) = Ret (true, mkSink (Z.of_nat n) (Z.of_nat n), buff', b)
    /\ length buff' = length buff /\ take n buff' = p ++ a.
Proof.
  intros Hp Hl Hn. rewrite length_app in Hl. unfold qemud_sink_fill. cbn [sk_size sk_used]. rewrite length_app.
  destruct (Z.leb_spec (Z.of_nat n - Z.of_nat (length p)) 0); [lia|].
  assert ((if Z.of_nat (length a + length b) <? Z.of_nat n - Z.of_nat (length p) then Z.of_nat (length a + length b) else Z.of_nat n - Z.of_nat (length p)) = Z.of_nat (length a)) as -> by (destruct (Z.ltb_spec (Z.of_nat (length a + length b)) (Z.of_nat n - Z.of_nat (length p))); lia).
  destruct (Z.ltb_spec (Z.of_nat (length p)) 0); [lia|]. destruct (Z.ltb_spec (Z.of_nat (length buff)) (Z.of_nat (length p) + Z.of_nat (length a))); [lia|]. cbn [orb].
  rewrite Nat2Z.id, take_app_length, drop_app_length. replace (Z.of_nat (length p) + Z.of_nat (length a)) with (Z.of_nat n) by lia. rewrite Z.eqb_refl.
  eexists. split; [done|]. split; [apply length_blit; lia|]. unfold blit. rewrite Nat2Z.id, Hp, app_assoc. apply take_app_length'. by rewrite length_app.
Qed.

Lemma range_take (l : list Z) n : range l 0 (Z.of_nat n) = take n l.
Proof. unfold range. by rewrite Nat2Z.id. Qed.

Section packets.
Context {M : Type} `{HostLaws M} (v : Z) (Hv : v <> QEMUD_VERSION_UNKNOWN).
Implicit Types m : M.

Lemma packet_header_length ch n : length (packet_header v ch n) = 6%nat.
Proof. unfold packet_header. destruct (v =? _); rewrite length_app, !int2hex_length; done. Qed.

Lemma parse_packet_header ch n s : qs_version s = v -> 0 <= ch < 256 -> 0 <= n < 65536 -> take 6 (qs_data0 s) = packet_header v ch n ->
  parse_header s = set_qs_header (mkSink 0 (sk_size (qs_header s))) (qs_data0 s) (set_qs_in n ch s).
Proof.
  intros Es Hch Hn Hd. unfold parse_header. rewrite Es. unfold packet_header in Hd.
  assert (forall o l, (Z.to_nat o + Z.to_nat l <= 6)%nat -> range (qs_data0 s) o l = range (take 6 (qs_data0 s)) o l) as Hr.
  { intros o l Hol. unfold range. rewrite skipn_firstn_comm, take_take. f_equal. lia. }
  assert (hex2int (int2hex 4 n) = n) as Hn' by (apply hex2int_int2hex; lia). assert (hex2int (int2hex 2 ch) = ch) as Hc' by (apply hex2int_int2hex; lia).
  destruct (Z.eqb_spec v QEMUD_VERSION_LEGACY); rewrite !Hr, Hd by (cbv; lia); cbn [set_qs_header set_qs_in qs_header qs_data0];
    (replace (set_qs_in _ _ s) with (set_qs_in n ch s); [done|]); f_equal; unfold range; cbn -[hex2int int2hex hexdigit Z.shiftr Z.land]; symmetry; [exact Hn'|exact Hc'|exact Hn'|exact Hc'].
Qed.

Lemma read_header_short fuel p c m : in_packet_header v p (serial m) -> c <> [] -> (length p + length c < 6)%nat ->
  exists s, serial_read_loop (S fuel) c m = Ret (with_serial s m) /\ in_packet_header v (p ++ c) s.
Proof.
  intros (Hn & Ho & Hs & Hh & Hl & Hp & Hp6) Hc Hlt. destruct c as [|b c]; [done|]. cbn [serial_read_loop]. rewrite Ho, Hn. cbn [Z.ltb Z.compare].
  destruct (sink_fill_short (qs_data0 (serial m)) p 6 (b :: c) Hp ltac:(lia)) as (d & E & Hd & Ht). rewrite Hh. change 6 with (Z.of_nat 6). rewrite E. cbn [mbind outcome_bind negb].
  eexists. split; [done|]. unfold in_packet_header. cbn [set_qs_header qs_need_header qs_overflow qs_version qs_header qs_data0]. rewrite Hd, length_app in *. repeat split; try done.
Qed.

Lemma read_header_full fuel p a b m ch (n : nat) : in_packet_header v p (serial m) -> a <> [] -> p ++ a = packet_header v ch (Z.of_nat n) ->
  0 <= ch < 256 -> (0 < n <= 4000)%nat ->
  exists s, serial_read_loop (S fuel) (a ++ b) m = read_payload (serial_read_loop fuel) b (with_serial s m) /\ in_packet_data v ch n [] s.
Proof.
  intros (Hn & Ho & Hs & Hh & Hl & Hp & Hp6) Ha Epa Hch Hn0. pose proof (packet_header_length ch (Z.of_nat n)) as Hpl. rewrite <- Epa in Hpl.
  destruct (sink_fill_full (qs_data0 (serial m)) p 6 a b Hp Hpl ltac:(lia)) as (d & E & Hd & Ht). rewrite Epa in Ht.
  destruct a as [|a0 a]; [done|]. cbn [serial_read_loop app]. rewrite Ho, Hn. cbn [Z.ltb Z.compare]. rewrite Hh. change 6 with (Z.of_nat 6).
  cbn [app] in E. rewrite E. cbn [mbind outcome_bind negb]. unfold detect_version. cbn [set_qs_header qs_version]. rewrite Hs, (proj2 (Z.eqb_neq v _)) by done.
  erewrite parse_packet_header; [|done|exact Hch| |exact Ht]; [|lia]. cbn [set_qs_header set_qs_in qs_in_size qs_in_channel].
  destruct (Z.leb_spec (Z.of_nat n) 0); [lia|]. destruct (Z.ltb_spec ch 0); [lia|]. cbn [orb]. destruct (Z.ltb_spec MAX_SERIAL_PAYLOAD (Z.of_nat n)); [unfold MAX_SERIAL_PAYLOAD in *; lia|].
  eexists. split; [done|]. unfold in_packet_data, qemud_sink_reset. cbn. repeat split; try done; lia.
Qed.

Lemma read_data_short rest ch n p c m : in_packet_data v ch n p (serial m) -> (length p + length c < n)%nat ->
  exists s, read_payload rest c m = Ret (with_serial s m) /\ in_packet_data v ch n (p ++ c) s.
Proof.
  intros (Hn & Ho & Hs & Hh & Hc & Hpl & Hl & Hp & Hlt) Hcn. unfold read_payload. rewrite Hpl.
  destruct (sink_fill_short (qs_data0 (serial m)) p n c Hp ltac:(lia)) as (d & E & Hd & Ht). rewrite E. cbn [mbind outcome_bind negb].
  eexists. split; [done|]. unfold in_packet_data. cbn [set_qs_payload qs_need_header qs_overflow qs_version qs_header qs_in_channel qs_payload qs_data0].
  rewrite Hd, length_app in *. repeat split; try done; lia.
Qed.

Lemma read_data_full rest ch n p a b m : in_packet_data v ch n p (serial m) -> length (p ++ a) = n ->
  exists s, read_payload rest (a ++ b) m = (m' ← recv_func ch (p ++ a) m; rest b (with_serial s m')) /\ link_idle v s.
Proof.
  intros (Hn & Ho & Hs & Hh & Hc & Hpl & Hl & Hp & Hlt) Hpa. unfold read_payload. rewrite Hpl.
  destruct (sink_fill_full (qs_data0 (serial m)) p n a b Hp Hpa ltac:(lia)) as (d & E & Hd & Ht). rewrite E.
  cbn [mbind outcome_bind negb set_qs_payload qs_payload qs_data0 qs_need_header qs_in_channel sk_size]. rewrite Hc.
  destruct (Z.ltb_spec (Z.of_nat n) 0); [lia|]. destruct (Z.leb_spec (Z.of_nat (length d)) (Z.of_nat n)); [lia|]. cbn [orb].
  rewrite Nat2Z.id, range_take, take_insert_ge, Ht by lia.
  set (s1 := set_qs_payload _ _ _ (set_qs_payload _ _ _ _)).
  exists (set_qs_payload 1 (qs_payload s1) (qs_data0 s1) s1). split.
  - rewrite recv_apart by (cbn; congruence). destruct (recv_func ch (p ++ a) m); cbn [mbind outcome_bind fmap outcome_fmap]; try done.
    by rewrite serial_with, with_serial_with.
  - unfold link_idle, in_packet_header, s1. cbn. rewrite length_insert. repeat split; try done; lia.
Qed.


Lemma recv_keeps ch msg m m' : qs_version (serial m) = v -> recv_func ch msg m = Ret m' -> serial m' = serial m.
Proof.
  intros Hm E. pose proof (recv_apart ch msg (serial m) m eq_refl ltac:(by rewrite Hm)) as E'. rewrite with_serial_serial, E in E'. cbn in E'. injection E' as E'. by rewrite E', serial_with.
Qed.

Lemma loop_nil_packet fuel m : serial_read_loop fuel [] m = Ret m.
Proof. by destruct fuel. Qed.

#[local] Instance packet_reader : StreamReader M QemudSerial packet.
Proof.
  refine {| T := with_serial; item_ok := packet_ok; header p := packet_header v (p_channel p) (Z.of_nat (length (p_data p))); data := p_data;
    recv p := recv_func (p_channel p) (p_data p); loop := serial_read_loop; half := read_payload; read := qemud_serial_read;
    good m := qs_version (serial m) = v; in_header := in_packet_header v; in_data p := in_packet_data v (p_channel p) (length (p_data p));
    header_size := 6 |}.
  - intros p. apply packet_header_length.
  - by intros p s (_ & _ & _ & _ & _ & _ & ?).
  - intros p q s (_ & _ & _ & _ & _ & _ & _ & _ & ?). lia.
  - intros p m m' _ Hm E. by rewrite (recv_keeps _ _ _ _ Hm E).
  - apply loop_nil_packet.
  - intros fuel p a m s Hm Hs Ha Hlt. destruct (read_header_short fuel p a (with_serial s m) ltac:(by rewrite serial_with) Ha Hlt) as (s' & E & Hs'). rewrite with_serial_with in E. eauto.
  - intros fuel p a b i m s Hm [Hch Hl] Hs Ha Epa. unfold MAX_SERIAL_PAYLOAD in Hl.
    destruct (read_header_full fuel p a b (with_serial s m) _ _ ltac:(by rewrite serial_with) Ha Epa Hch ltac:(lia)) as (s' & E & Hs'). rewrite with_serial_with in E. eauto.
  - intros fuel i p a m s Hm (Hn & Ho & _) Ha. destruct a as [|b a]; [done|]. cbn [serial_read_loop]. by rewrite serial_with, Ho, Hn.
  - intros rest i p a m s Hm _ Hs Hlt. destruct (read_data_short rest _ _ p a (with_serial s m) ltac:(by rewrite serial_with) Hlt) as (s' & E & Hs'). rewrite with_serial_with in E. eauto.
  - intros rest i p a b m s Hm _ Hs Epa. destruct (read_data_full rest _ _ p a b (with_serial s m) ltac:(by rewrite serial_with) ltac:(by rewrite Epa)) as (s' & E & Hs').
    exists s'. split; [|done]. rewrite E, Epa. assert (qs_version s = v) as Hsv by (by destruct Hs as (_ & _ & ? & _)). rewrite recv_apart by congruence.
    destruct (recv_func _ _ m); cbn; try done. by rewrite with_serial_with.
  - intros c m s Hm _. exists (3 * length c + 3)%nat. split; [lia|done].
Defined.

(** Any pieces of a stream of packets do what the packets do one after the
    other, and leave the link waiting for the next one. *)
Lemma serial_reads_packets chunks ps m : Forall packet_ok ps -> link_idle v (serial m) -> concat chunks = concat (packet_bytes v <$> ps) ->
  exists s, link_idle v s /\ foldM (fun m c => qemud_serial_read c m) m chunks = with_serial s <$> foldM (fun m p => recv_func (p_channel p) (p_data p) m) m ps.
Proof.
  intros Hps Hm Hst. destruct (read_stream (H := packet_reader) chunks ps [] m (serial m) Hps) as [Hr _]; [by destruct Hm as (_ & _ & ? & _)|by apply reading_idle|done|].
  cbn [T packet_reader read] in Hr. by rewrite with_serial_serial in Hr.
Qed.

(** What is sent are packets for the channel whose data are the message behind
    its frame. *)
Lemma send_loop_packets fuel ch msglen (framing : bool) msg : 0 <= ch < 256 ->
  (length msg + (if framing then 4 else 0) <= fuel)%nat -> (framing = true -> msg <> []) ->
  exists ps, serial_send_loop fuel v ch msglen framing msg (Z.of_nat (length msg) + (if framing then 4 else 0)) = concat (packet_bytes v <$> ps)
    /\ Forall packet_ok ps /\ Forall (fun p => p_channel p = ch) ps /\ concat (p_data <$> ps) = (if framing then int2hex 4 msglen else []) ++ msg.
Proof.
  intros Hch. revert framing msg. induction fuel as [|fuel IH]; intros framing msg Hf Hne; cbn [serial_send_loop].
  { destruct framing; [lia|]. destruct msg; [|cbn in Hf; lia]. by exists []. }
  destruct (Z.leb_spec (Z.of_nat (length msg) + (if framing then 4 else 0)) 0) as [Hz|Hz].
  { destruct framing; [lia|]. destruct msg; [|cbn in Hz; lia]. by exists []. }
  set (len := Z.of_nat (length msg) + (if framing then 4 else 0)) in *. set (av := if MAX_SERIAL_PAYLOAD <? len then MAX_SERIAL_PAYLOAD else len).
  assert (0 < av <= 4000 /\ av <= len /\ (framing = true -> 4 < av)) as (Hav & Hal & Hfr).
  { unfold av, MAX_SERIAL_PAYLOAD. assert (framing = true -> 4 < len) as Hl by (intros ->; specialize (Hne eq_refl); destruct msg; [done|unfold len; cbn [length]; lia]).
    destruct (Z.ltb_spec 4000 len); [lia|]. split_and!; [lia..|done]. }
  pose (n := av - (if framing then 4 else 0)). assert (0 < n /\ n <= Z.of_nat (length msg)) as [Hn0 Hn] by (unfold n, len in *; destruct framing; [specialize (Hfr eq_refl)|]; lia).
  destruct (IH false (drop (Z.to_nat n) msg)) as (ps & E & Hok & Hcs & Hd); [rewrite length_drop; destruct framing; lia|done|].
  rewrite length_drop, Z.add_0_r in E. cbn [app] in Hd.
  assert (length ((if framing then int2hex 4 msglen else []) ++ take (Z.to_nat n) msg) = Z.to_nat av) as Hl.
  { rewrite length_app, length_take. unfold n in *. destruct framing; [rewrite int2hex_length|cbn [length]]; lia. }
  exists (mkPacket ch ((if framing then int2hex 4 msglen else []) ++ take (Z.to_nat n) msg) :: ps). split_and!.
  - cbn [fmap list_fmap concat]. unfold packet_bytes at 1. cbn [p_channel p_data]. rewrite Hl, Z2Nat.id by lia. rewrite <- E, <- !app_assoc. f_equal.
    assert ((if framing then (av - FRAME_HEADER_SIZE, len - FRAME_HEADER_SIZE) else (av, len)) = (n, Z.of_nat (length msg))) as -> by (unfold n, len, FRAME_HEADER_SIZE; destruct framing; f_equal; lia).
    change (Z.to_nat FRAME_HEADER_SIZE) with 4%nat. replace (Z.of_nat (length msg) - n) with (Z.of_nat (length msg - Z.to_nat n)) by lia. done.
  - constructor; [|done]. split; [done|]. cbn [p_data]. rewrite Hl. unfold MAX_SERIAL_PAYLOAD. lia.
  - by constructor.
  - cbn [fmap list_fmap concat p_data]. by rewrite Hd, <- app_assoc, take_drop.
Qed.

Lemma send_packets ch framing msg : 0 <= ch < 256 -> msg <> [] ->
  exists ps, qemud_serial_send v ch framing msg = concat (packet_bytes v <$> ps)
    /\ Forall packet_ok ps /\ Forall (fun p => p_channel p = ch) ps /\ concat (p_data <$> ps) = (if framing then int2hex 4 (Z.of_nat (length msg)) else []) ++ msg.
Proof.
  intros Hch Hne. unfold qemud_serial_send. destruct msg as [|b msg]; [done|]. destruct (Z.leb_spec (Z.of_nat (length (b :: msg))) 0); [cbn in *; lia|]. destruct (Z.ltb_spec ch 0); [lia|]. cbn [orb].
  destruct (send_loop_packets (length (b :: msg) + 4) ch (Z.of_nat (length (b :: msg))) framing (b :: msg) Hch) as (ps & E & Hps); [destruct framing; lia|done|]. exists ps. split; [|done].
  rewrite <- E. f_equal. unfold FRAME_HEADER_SIZE. destruct framing; lia.
Qed.
End packets.
