(* ===== verification/QemudCalls.v ===== *)
(** The calls of services and the control channel of qemud neither read nor
    write what its readers keep between two pieces of input: the state of the
    serial link, and the sinks of a client that waits for a header. *)
From stdpp Require Import strings gmap.
From S2P Require Import Prelude CStrings QemuFile Qemud QemudMux QemudSpec.
Open Scope list_scope.

(** ** Other sinks *)

(** What [qemud_client_recv] keeps in a client. *)
Record scratch := mkScratch { sc_need_header : Z; sc_header : QemudSink; sc_header0 : list Z; sc_payload : QemudSink; sc_buff : payload_buff }.

Definition put_scratch (k : scratch) (x : QemudClient) : QemudClient :=
  mkClient (c_protocol x) (c_param x) (c_recv x) (c_close x) (c_service x) (c_framing x) (sc_need_header k) (c_closing x) (sc_header k) (sc_header0 k) (sc_payload k) (sc_buff k).

Section disguise.
Context {W : Type} `{QemudServices W} (s : QemudSerial) (o : option (nat * scratch)).
Abbreviation M := (QemudMultiplexer W).
Implicit Types m : M.

Definition disguise m : M :=
  mkMux s (match o with Some (c, k) => alter (put_scratch k) c (mx_heap m) | None => mx_heap m end)
    (mx_next m) (mx_clients m) (mx_services m) (mx_pipes m) (mx_out m) (mx_world m).

(** The structure of a client behind it. *)
Definition disguise_client (c : nat) (x : QemudClient) : QemudClient :=
  match o with Some (c', k) => if decide (c = c') then put_scratch k x else x | None => x end.

(** The daemon is known, and the client with other sinks waits for a header,
    with either. *)
Definition apart m : Prop :=
  qs_version (mx_serial m) = qs_version s /\ match o with
  | Some (c, k) => nz (sc_need_header k) = true /\ (c < mx_next m)%nat /\ forall x, mx_heap m !! c = Some x -> nz (c_need_header x) = true
  | None => True
  end.

(** [f] does the same behind the disguise. *)
Definition unaware (f : M -> outcome M) : Prop :=
  forall m, apart m -> f (disguise m) = disguise <$> f m /\ forall m', f m = Ret m' -> apart m'.

Lemma unaware_ret f : (forall m, apart m -> f (disguise m) = disguise (f m) /\ apart (f m)) -> unaware (fun m => Ret (f m)).
Proof. intros Hf m Hm. destruct (Hf m Hm) as [-> Ha]. split; [done|by intros m' [= <-]]. Qed.

Lemma unaware_bind f g : unaware f -> unaware g -> unaware (fun m => f m ≫= g).
Proof.
  intros Hf Hg m Hm. destruct (Hf m Hm) as [-> Ha]. destruct (f m) as [m1| | | | |]; cbn; try done. by apply Hg, Ha.
Qed.

Lemma unaware_foldM {A} (f : M -> A -> outcome M) l : (forall a, unaware (fun m => f m a)) -> unaware (fun m => foldM f m l).
Proof.
  intros Hf. induction l as [|a l IH]; intros m Hm; [split; [done|by intros m' [= <-]]|]. cbn [foldM].
  exact (unaware_bind (fun m => f m a) (fun m => foldM f m l) (Hf a) IH m Hm).
Qed.

Lemma client_disguise c m : client c (disguise m) = disguise_client c <$> client c m.
Proof.
  unfold client, disguise_client, disguise. cbn. destruct o as [[c' k]|]; cbn; [|by destruct (mx_heap m !! c)].
  destruct (decide (c = c')) as [->|]; [rewrite lookup_alter_eq|rewrite lookup_alter_ne by done]; by destruct (mx_heap m !! _).
Qed.

(** A step on the structure of a client. *)
Lemma unaware_client c (f : QemudClient -> M -> outcome M) :
  (forall x m, apart m -> mx_heap m !! c = Some x -> f (disguise_client c x) (disguise m) = disguise <$> f x m /\ forall m', f x m = Ret m' -> apart m') ->
  unaware (fun m => client c m ≫= fun x => f x m).
Proof.
  intros Hf m Hm. rewrite client_disguise. unfold client. destruct (mx_heap m !! c) as [x|] eqn:E; cbn; [by apply Hf|done].
Qed.

(** A structure is stored that waits for a header if the old one did. *)
Lemma set_client_disguise c x m : set_client c (disguise_client c x) (disguise m) = disguise (set_client c x m).
Proof.
  unfold set_client, set_mx_heap, disguise, disguise_client. cbn. f_equal. destruct o as [[c' k]|]; [|done].
  destruct (decide (c = c')) as [->|].
  - by rewrite alter_insert_eq, insert_alter_eq.
  - by rewrite alter_insert_ne.
Qed.

Lemma apart_set_client c x y m : apart m -> mx_heap m !! c = Some x -> c_need_header y = c_need_header x -> apart (set_client c y m).
Proof.
  intros [Hv Ho] Hx Hy. split; [done|]. destruct o as [[c' k]|]; [|done]. destruct Ho as (Hk & Hn & Hh). split_and!; [done..|]. intros z.
  cbn. destruct (decide (c = c')) as [->|]; [rewrite lookup_insert_eq; intros [= <-]; rewrite Hy; by apply Hh|rewrite lookup_insert_ne by done; by apply Hh].
Qed.

(** The parts of the multiplexer that the disguise leaves alone. *)
Lemma apart_same m m' : mx_serial m' = mx_serial m -> mx_heap m' = mx_heap m -> mx_next m' = mx_next m -> apart m -> apart m'.
Proof. unfold apart. by intros -> -> ->. Qed.

Lemma version_disguise m : apart m -> qs_version (mx_serial (disguise m)) = qs_version (mx_serial m).
Proof. by intros [-> _]. Qed.

Lemma disguise_fields c x : let y := disguise_client c x in
  c_protocol y = c_protocol x /\ c_param y = c_param x /\ c_recv y = c_recv x /\ c_close y = c_close x /\ c_service y = c_service x /\ c_framing y = c_framing x /\ c_closing y = c_closing x.
Proof. unfold disguise_client. destruct o as [[c' k]|]; [|done]. by destruct (decide _). Qed.

Lemma disguise_setters c x : (forall p, set_protocol p (disguise_client c x) = disguise_client c (set_protocol p x))
  /\ (forall sv, set_c_service sv (disguise_client c x) = disguise_client c (set_c_service sv x)) /\ set_closing (disguise_client c x) = disguise_client c (set_closing x).
Proof. unfold disguise_client. destruct o as [[c' k]|]; [|done]. by destruct (decide _). Qed.

(** The same client, with a pipe or a channel, a service or a close. *)
Lemma set_protocol_disguise c x p m : set_client c (set_protocol p (disguise_client c x)) (disguise m) = disguise (set_client c (set_protocol p x) m).
Proof. by rewrite (proj1 (disguise_setters c x)), set_client_disguise. Qed.

Lemma cache_buffer_unaware c msg : unaware (qemud_pipe_cache_buffer c msg).
Proof.
  apply unaware_client. intros x m Hm Hx. rewrite (proj1 (disguise_fields c x)). destruct (c_protocol x) as [l p|ch]; [|done]. rewrite set_protocol_disguise.
  cbn [mx_pipes disguise set_client set_mx_heap]. destruct (p ≫= _); [|done]. split; [done|]. intros m' [= <-].
  eapply (apart_same (set_client c (set_protocol (QEMUD_PROTOCOL_PIPE (l ++ [mkPipeMessage msg 0]) p) x) m)); [done..|]. by eapply apart_set_client.
Qed.

Lemma pipe_send_loop_unaware fuel c msglen framing msg len : unaware (pipe_send_loop fuel c msglen framing msg len).
Proof.
  revert framing msg len. induction fuel as [|fuel IH]; intros framing msg len; cbn [pipe_send_loop]; (destruct (len <=? 0); [by apply (unaware_ret id)|]); [done|].
  set (av := if MAX_SERIAL_PAYLOAD <? len then _ else _). destruct framing.
  - apply (unaware_bind (fun m => qemud_pipe_cache_buffer c _ m)), (unaware_bind (fun m => qemud_pipe_cache_buffer c _ m)); auto using cache_buffer_unaware.
  - apply (unaware_bind (fun m => Ret m)), (unaware_bind (fun m => qemud_pipe_cache_buffer c _ m)); auto using cache_buffer_unaware. by apply (unaware_ret id).
Qed.

Lemma pipe_send_unaware c msg : unaware (qemud_pipe_send c msg).
Proof.
  apply unaware_client. intros x m Hm Hx. destruct (disguise_fields c x) as (_ & _ & _ & _ & _ & -> & _). destruct (_ <=? 0).
  - split; [done|by intros m' [= <-]].
  - by apply pipe_send_loop_unaware.
Qed.

Lemma serial_send_unaware ch framing msg m : apart m -> serial_send ch framing msg (disguise m) = disguise (serial_send ch framing msg m) /\ apart (serial_send ch framing msg m).
Proof. intros Hm. unfold serial_send. rewrite version_disguise by done. split; [done|]. by eapply apart_same. Qed.

Lemma client_send_unaware c msg : unaware (qemud_client_send c msg).
Proof.
  apply unaware_client. intros x m Hm Hx. destruct (disguise_fields c x) as (-> & _ & _ & _ & _ & -> & _). destruct (c_protocol x) as [l p|ch]; [by apply pipe_send_unaware|].
  destruct (serial_send_unaware ch (nz (c_framing x)) msg m Hm) as [-> Ha]. split; [done|by intros m' [= <-]].
Qed.

Lemma set_framing_unaware c framing : unaware (qemud_client_set_framing c framing).
Proof.
  apply unaware_client. intros x m Hm Hx. destruct (disguise_fields c x) as (_ & _ & _ & _ & _ & -> & _). split.
  - cbn [fmap outcome_fmap mbind outcome_bind]. rewrite <- set_client_disguise. do 2 f_equal. destruct Hm as [_ Ho]. unfold disguise_client.
    destruct o as [[c' k]|]; [|done]. destruct (decide (c = c')) as [->|]; [|done]. destruct Ho as (Hk & _ & Hh). specialize (Hh _ Hx).
    rewrite (andb_comm _ (negb (nz (c_need_header x)))), Hh. change (c_need_header (put_scratch k x)) with (sc_need_header k). by rewrite Hk, andb_false_r.
  - intros m' [= <-]. destruct Hm as [Hv Ho]. split; [done|]. destruct o as [[c' k]|]; [|done]. destruct Ho as (Hk & Hn & Hh). split_and!; [done..|]. intros z.
    cbn. destruct (decide (c = c')) as [->|]; [rewrite lookup_insert_eq|rewrite lookup_insert_ne by done; by apply Hh].
    intros [= <-]. cbn. by destruct (_ && _); [|apply Hh].
Qed.

Lemma apart_delete c m : apart m -> apart (set_mx_heap (delete c (mx_heap m)) m).
Proof.
  intros [Hv Ho]. split; [done|]. destruct o as [[c' k]|]; [|done]. destruct Ho as (Hk & Hn & Hh). split_and!; [done..|]. intros x. cbn.
  intros (_ & Hx)%lookup_delete_Some. by apply Hh.
Qed.

Lemma delete_disguise c m : set_mx_heap (delete c (mx_heap (disguise m))) (disguise m) = disguise (set_mx_heap (delete c (mx_heap m)) m).
Proof.
  unfold set_mx_heap, disguise. cbn. f_equal. destruct o as [[c' k]|]; [|done].
  destruct (decide (c = c')) as [->|]; [by rewrite delete_alter_eq, alter_delete_eq|by rewrite delete_alter_ne, alter_delete_ne by done].
Qed.

(** The end of a disconnection. *)
Definition disconnect_end (c : nat) (x : QemudClient) m : outcome M :=
  let m := if c_close x then set_mx_world (clie_close c (mx_world m)) m else m in
  let m := match c_service x with Some sv => qemud_service_remove_client sv c m | None => m end in
  Ret (set_mx_heap (delete c (mx_heap m)) m).

Lemma disconnect_end_unaware c x : unaware (disconnect_end c x).
Proof.
  unfold disconnect_end. cbv zeta. apply (unaware_ret (fun m => _)). intros m Hm. destruct (c_close x), (c_service x).
  all: split; [by rewrite <- delete_disguise|apply apart_delete; by eapply apart_same].
Qed.

Lemma disconnect_unaware c guest : unaware (qemud_client_disconnect c guest).
Proof.
  apply unaware_client. intros x m Hm Hx. unfold is_pipe_client. destruct (disguise_fields c x) as (-> & _ & _ & Ec & Es & _ & ->). destruct (nz (c_closing x)).
  { split; [done|by intros m' [= <-]]. }
  destruct ((match c_protocol x with QEMUD_PROTOCOL_PIPE _ _ => true | _ => false end) && negb guest); [by apply pipe_send_unaware|].
  rewrite (proj2 (proj2 (disguise_setters c x))), set_client_disguise, Ec, Es.
  change (qemud_client_remove c (disguise (set_client c (set_closing x) m))) with (disguise (qemud_client_remove c (set_client c (set_closing x) m))).
  assert (apart (qemud_client_remove c (set_client c (set_closing x) m))) as Hm1.
  { eapply (apart_same (set_client c (set_closing x) m)); [done..|]. by eapply apart_set_client. }
  set (m1 := qemud_client_remove c (set_client c (set_closing x) m)) in *.
  apply (unaware_bind (fun m => match c_protocol x with QEMUD_PROTOCOL_PIPE _ pipe => match pipe with Some p => match mx_pipes m !! p with Some q => Ret (set_mx_pipes (<[p := mkPipe (hwpipe q) (pipe_service q) None]> (mx_pipes m)) m) | None => OutOfBounds end | None => OutOfBounds end
     | QEMUD_PROTOCOL_SERIAL channel => Ret (if 0 <? channel then serial_send 0 false (chars "disconnect:" ++ hex02 channel) m else m) end) (disconnect_end c x)); [|apply disconnect_end_unaware|done].
  clear. intros m Hm. destruct (c_protocol x) as [l [p|]|ch]; [|done|].
  - cbn [mx_pipes disguise]. destruct (mx_pipes m !! p); [|done]. split; [done|]. intros m' [= <-]. by eapply apart_same.
  - destruct (0 <? ch); [|split; [done|by intros m' [= <-]]]. destruct (serial_send_unaware 0 false (chars "disconnect:" ++ hex02 ch) m Hm) as [-> Ha]. split; [done|by intros m' [= <-]].
Qed.

Lemma run_call_unaware k : unaware (fun m => run_call m k).
Proof.
  destruct k as [c msg|c framing|c|sv msg]; cbn [run_call].
  - apply client_send_unaware.
  - apply set_framing_unaware.
  - apply disconnect_unaware.
  - intros m Hm. unfold qemud_service_broadcast. cbn [mx_services disguise]. destruct (find _ _) as [x|]; [|done].
    apply (unaware_foldM (fun m c => qemud_client_send c msg m)); [intros; apply client_send_unaware|done].
Qed.

(** A callback of a service, with all its calls. *)
Lemma service_deliver_unaware c msg : unaware (deliver c ServiceRecv msg).
Proof.
  intros m Hm. cbn [deliver]. cbn [mx_world disguise]. destruct (clie_recv c msg (mx_world m)) as [w calls].
  apply (unaware_foldM run_call calls run_call_unaware (set_mx_world w m)). by eapply apart_same.
Qed.

(** ** Connecting *)

Lemma alloc_unaware ch param r cl m : apart m ->
  (qemud_client_alloc ch param r cl (disguise m)).1 = (qemud_client_alloc ch param r cl m).1
  /\ (qemud_client_alloc ch param r cl (disguise m)).2 = disguise (qemud_client_alloc ch param r cl m).2
  /\ apart (qemud_client_alloc ch param r cl m).2.
Proof.
  intros [Hv Ho]. split; [done|]. unfold qemud_client_alloc, qemud_client_prepend, set_mx_clients, disguise. cbn [snd mx_serial mx_heap mx_next mx_clients mx_services mx_pipes mx_out mx_world]. split.
  - f_equal. destruct o as [[c' k]|]; [|done]. destruct Ho as (_ & Hn & _). by rewrite alter_insert_ne by lia.
  - split; [done|]. destruct o as [[c' k]|]; [|done]. destruct Ho as (Hk & Hn & Hh). split_and!; [done|cbn; lia|]. intros x. cbn. rewrite lookup_insert_ne by lia. apply Hh.
Qed.

Lemma add_client_unaware sv c : unaware (qemud_service_add_client sv c).
Proof.
  apply unaware_client. intros x m Hm Hx. rewrite (proj1 (proj2 (disguise_setters c x))), set_client_disguise. split; [done|]. intros m' [= <-].
  eapply (apart_same (set_client c (set_c_service (Some sv) x) m)); [done..|]. by eapply apart_set_client.
Qed.

(** With a result beside the multiplexer. *)
Definition unaware2 {A} (f : M -> outcome (A * M)) : Prop :=
  forall m, apart m -> f (disguise m) = (fun '(a, m) => (a, disguise m)) <$> f m /\ forall a m', f m = Ret (a, m') -> apart m'.

Lemma unaware2_bind {A} f (g : A -> M -> outcome M) : unaware2 f -> (forall a, unaware (g a)) -> unaware (fun m => f m ≫= fun '(a, m) => g a m).
Proof.
  intros Hf Hg m Hm. destruct (Hf m Hm) as [-> Ha]. destruct (f m) as [[a m1]| | | | |]; cbn; try done. by eapply Hg, Ha.
Qed.

Lemma unaware_bind2 {A} f (g : M -> A) : unaware f -> (forall m, apart m -> g (disguise m) = g m) -> unaware2 (fun m => f m ≫= fun m => Ret (g m, m)).
Proof.
  intros Hf Hg m Hm. destruct (Hf m Hm) as [-> Ha]. destruct (f m) as [m1| | | | |]; cbn; try done. rewrite Hg by (by apply Ha). split; [done|]. intros ? ? [= <- <-]. by apply Ha.
Qed.

Lemma connect_client_unaware sv ch param : unaware2 (qemud_service_connect_client sv ch param).
Proof.
  intros m Hm. unfold qemud_service_connect_client. cbn [mx_next mx_world disguise]. destruct (serv_connect sv (mx_next m) ch param (mx_world m)) as [w|w r cl calls].
  { split; [done|]. intros a m' [= <- <-]. by eapply apart_same. }
  change (set_mx_world w (disguise m)) with (disguise (set_mx_world w m)). assert (apart (set_mx_world w m)) as Hw by (by eapply apart_same).
  generalize dependent (set_mx_world w m). clear m Hm. intros m Hm. unfold qemud_client_new.
  destruct (alloc_unaware ch param (if r then ServiceRecv else NoRecv) cl m Hm) as (E1 & E2 & Ha).
  destruct (qemud_client_alloc ch param (if r then ServiceRecv else NoRecv) cl (disguise m)) as [c1 m1], (qemud_client_alloc ch param (if r then ServiceRecv else NoRecv) cl m) as [c2 m2]. cbn in E1, E2, Ha. subst c1 m1.
  destruct (add_client_unaware sv c2 m2 Ha) as [-> Ha2]. destruct (qemud_service_add_client sv c2 m2) as [m3| | | | |]; cbn; try done.
  destruct (unaware_foldM run_call calls run_call_unaware m3 (Ha2 m3 eq_refl)) as [-> Ha3]. destruct (foldM run_call m3 calls) as [m4| | | | |]; cbn; try done.
  split; [done|]. intros ? ? [= <- <-]. by apply Ha3.
Qed.

Lemma connect_unaware name ch : unaware2 (qemud_multiplexer_connect name ch).
Proof.
  intros m Hm. unfold qemud_multiplexer_connect. cbn [mx_services disguise]. destruct (qemud_service_find (mx_services m) name) as [sv|]; [|split; [done|by intros ? ? [= <- <-]]].
  destruct (_ && _); [split; [done|by intros ? ? [= <- <-]]|]. destruct (connect_client_unaware (sv_id sv) ch None m Hm) as [-> Ha].
  destruct (qemud_service_connect_client _ _ _ m) as [[c m1]| | | | |]; cbn; try done. split; [done|]. intros ? ? [= <- <-]. by eapply Ha.
Qed.

Lemma find_channel_disguise ch m : find_channel ch (disguise m) = find_channel ch m.
Proof.
  unfold find_channel. cbn [mx_clients disguise]. induction (mx_clients m) as [|c l IH]; [done|]. cbn [find].
  assert (on_channel ch (disguise m) c = on_channel ch m c) as ->; [|by rewrite IH]. pose proof (client_disguise c m) as E. unfold client in E. unfold on_channel.
  destruct (mx_heap (disguise m) !! c) as [y|], (mx_heap m !! c) as [x|]; try done. cbn in E. injection E as ->. by rewrite (proj1 (disguise_fields c x)).
Qed.

Lemma mux_disconnect_unaware ch : unaware (qemud_multiplexer_disconnect ch).
Proof.
  intros m Hm. unfold qemud_multiplexer_disconnect. rewrite find_channel_disguise. destruct (find_channel ch m) as [c|]; [|split; [done|by intros m' [= <-]]].
  apply (unaware_client c (fun x m => qemud_client_disconnect c false (set_client c (set_protocol (QEMUD_PROTOCOL_SERIAL (-1)) x) m))); [|done].
  clear. intros x m Hm Hx. rewrite set_protocol_disguise. apply disconnect_unaware. by eapply apart_set_client.
Qed.

Lemma control_recv_unaware msg : qs_version s <> QEMUD_VERSION_UNKNOWN -> unaware (qemud_multiplexer_control_recv msg).
Proof.
  intros Hs m Hm. unfold qemud_multiplexer_control_recv. destruct (_ && _).
  { destruct (parse_connect (drop 8 msg)) as [[name ch]|]; [|split; [done|by intros m' [= <-]]].
    apply (unaware2_bind _ (fun ret m => Ret (serial_send 0 false (connect_reply ret ch) m)) (connect_unaware name ch)); [|done].
    intros a. apply (unaware_ret (serial_send 0 false (connect_reply a ch))). by apply serial_send_unaware. }
  destruct (_ && _). { destruct (_ <=? 0); [split; [done|by intros m' [= <-]]|by apply mux_disconnect_unaware]. }
  rewrite !version_disguise by done. destruct (_ && _).
  { unfold legacy_connect. destruct (parse_connect (drop 11 msg)) as [[name ch]|]; [|split; [done|by intros m' [= <-]]].
    rewrite version_disguise by done. pose proof Hm as [Hv _]. rewrite Hv, (proj2 (Z.eqb_neq _ QEMUD_VERSION_UNKNOWN)) by done. cbn [negb andb].
    destruct (qs_version s =? QEMUD_VERSION_LEGACY); cbn [negb]; [|split; [done|by intros m' [= <-]]].
    apply (unaware2_bind _ (fun _ m => Ret m) (connect_unaware _ ch)); [|done]. intros a. by apply (unaware_ret id). }
  destruct (_ =? _); [split; [done|by intros m' [= <-]]|]. destruct (serial_send_unaware 0 false (chars "ko:unknown command") m Hm) as [-> Ha]. split; [done|by intros m' [= <-]].
Qed.

Lemma deliver_unaware c r msg : qs_version s <> QEMUD_VERSION_UNKNOWN -> unaware (deliver c r msg).
Proof. intros Hs. destruct r; [by apply control_recv_unaware|apply service_deliver_unaware|by apply (unaware_ret id)]. Qed.
End disguise.

(** ** Another state of the link *)

Section link.
Context {W : Type} `{QemudServices W} (s : QemudSerial) (Hs : qs_version s <> QEMUD_VERSION_UNKNOWN).
Implicit Types m : QemudMultiplexer W.

Lemma disguise_link m : disguise s None m = set_mx_serial s m.
Proof. done. Qed.

Lemma link_set_client c x m : apart s None m -> apart s None (set_client c x m).
Proof. intros [Hv _]. by split. Qed.

Lemma client_payload_unaware rest c msg : (forall msg, unaware s None (rest msg)) -> unaware s None (client_payload rest c msg).
Proof.
  intros Hr. apply unaware_client. intros x m Hm Hx. cbn [disguise_client]. destruct (c_buff x) as [| |b]; try done.
  destruct (qemud_sink_fill (c_payload x) b msg) as [[[[full p] b'] msg']| | | | |]; cbn; try done. destruct full; cbn.
  - destruct (_ || _); [done|].
    refine (unaware_bind s None (deliver c (c_recv x) (range b' 0 (sk_size p))) (rest msg') (deliver_unaware s None c _ _ Hs) (Hr msg') (set_client c _ m) _). by apply link_set_client.
  - split; [done|]. intros m' [= <-]. by apply link_set_client.
Qed.

Lemma client_recv_loop_unaware fuel c msg : unaware s None (client_recv_loop fuel c msg).
Proof.
  revert msg. induction fuel as [|fuel IH]; intros msg; cbn [client_recv_loop].
  { destruct msg; [by apply (unaware_ret s None id)|done]. }
  destruct msg as [|b msg]; [by apply (unaware_ret s None id)|]. apply unaware_client. intros x m Hm Hx. cbn [disguise_client]. destruct (nz (c_need_header x)); [|by apply client_payload_unaware].
  destruct (qemud_sink_fill (c_header x) (c_header0 x) (b :: msg)) as [[[[full h] h0] msg']| | | | |]; cbn; try done. destruct full; cbn.
  - destruct (_ <=? 0); [refine (IH msg' (set_client c _ m) _); by apply link_set_client|].
    refine (client_payload_unaware (client_recv_loop fuel c) c msg' IH (set_client c _ m) _). by apply link_set_client.
  - split; [done|]. intros m' [= <-]. by apply link_set_client.
Qed.

Lemma client_recv_unaware fuel c msg : unaware s None (qemud_client_recv fuel c msg).
Proof.
  apply unaware_client. intros x m Hm Hx. cbn [disguise_client]. destruct (negb _); [by apply deliver_unaware|]. destruct (_ && _); [by apply deliver_unaware|by apply client_recv_loop_unaware].
Qed.
End link.

#[export] Instance mux_laws {W} `{QemudServices W} fuel : HostLaws (QemudMultiplexer W) (H := mux_host fuel).
Proof.
  split; try done; [by intros []|]. intros ch msg s m Hv Hs. cbn in *. unfold qemud_multiplexer_serial_recv. rewrite <- disguise_link, find_channel_disguise.
  destruct (find_channel ch m) as [c|]; [|done]. apply client_recv_unaware; [done|]. by split.
Qed.
