(* ===== verification/QemudFrames.v ===== *)
(** Frames inside packets: the messages a guest's client sends to a service of
    qemud, through the daemon, the serial link and the framing of the client,
    are what the service is called with. *)
From stdpp Require Import strings gmap.
From S2P Require Import Prelude CStrings QemuFile Qemud QemudMux QemudSpec QemudCalls.
Open Scope list_scope.

(** ** A client that stays connected *)

Section up.
Context {W : Type} `{QemudServices W} (c : nat) (ch : Z).
Implicit Types m : QemudMultiplexer W.

(** The client of the channel is one of a service, uses frames and waits for a
    header. *)
Definition up m : Prop :=
  find_channel ch m = Some c /\ (c < mx_next m)%nat /\ exists x, mx_heap m !! c = Some x /\ c_protocol x = QEMUD_PROTOCOL_SERIAL ch /\ nz (c_framing x) = true
    /\ c_recv x = ServiceRecv /\ nz (c_need_header x) = true.

(** A call that neither closes the client nor ends its framing. *)
Definition polite (k : client_call) : Prop :=
  match k with
  | CallSetFraming c' framing => c' = c -> framing <> 0
  | CallClose c' => c' <> c
  | _ => True
  end.

Lemma up_frame m m' : mx_clients m' = mx_clients m -> mx_next m' = mx_next m -> (forall d, on_channel ch m' d = on_channel ch m d) -> mx_heap m' !! c = mx_heap m !! c -> up m -> up m'.
Proof.
  intros Hl Hn Ho Hh (Hf & Hc & Hx). unfold up. rewrite Hn, Hh. split; [|done]. rewrite <- Hf. unfold find_channel. rewrite Hl. clear Hl Hf.
  induction (mx_clients m) as [|d l IH]; [done|]. cbn [find]. by rewrite Ho, IH.
Qed.

Lemma up_same m m' : mx_clients m' = mx_clients m -> mx_next m' = mx_next m -> mx_heap m' = mx_heap m -> up m -> up m'.
Proof. intros Hl Hn Hh. apply up_frame; [done..|intros d; unfold on_channel; by rewrite Hh|by rewrite Hh]. Qed.

(** A client whose protocol stays of its kind. *)
Lemma up_set_client d x y m : mx_heap m !! d = Some x ->
  match c_protocol y with QEMUD_PROTOCOL_SERIAL k => c_protocol x = QEMUD_PROTOCOL_SERIAL k | _ => is_pipe_client x = true end ->
  (d = c -> nz (c_framing y) = true /\ c_recv y = c_recv x /\ nz (c_need_header y) = true) -> up m -> up (set_client d y m).
Proof.
  intros Hx Hp Hd (Hf & Hc & z & Hz & Hzp & Hzf & Hzr & Hzn). split; [|split; [done|]].
  - rewrite <- Hf. unfold find_channel. cbn [mx_clients set_client set_mx_heap]. induction (mx_clients m) as [|e l IH]; [done|]. cbn [find].
    assert (on_channel ch (set_client d y m) e = on_channel ch m e) as ->; [|by rewrite IH]. unfold on_channel. cbn. destruct (decide (d = e)) as [->|]; [|by rewrite lookup_insert_ne].
    rewrite lookup_insert_eq, Hx. unfold is_pipe_client in Hp. destruct (c_protocol y), (c_protocol x); naive_solver.
  - cbn. destruct (decide (d = c)) as [->|]; [rewrite lookup_insert_eq|rewrite lookup_insert_ne by done; eauto 10].
    exists y. destruct (Hd eq_refl) as (? & ? & ?). rewrite Hz in Hx. injection Hx as <-. unfold is_pipe_client in Hp. rewrite Hzp in Hp. destruct (c_protocol y); [done|]. split_and!; congruence.
Qed.

Lemma client_Ret d x m : client d m = Ret x <-> mx_heap m !! d = Some x.
Proof. unfold client. destruct (mx_heap m !! d); naive_solver. Qed.

Lemma cache_buffer_up d msg m m' : up m -> qemud_pipe_cache_buffer d msg m = Ret m' -> up m'.
Proof.
  intros Hu. unfold qemud_pipe_cache_buffer. intros (x & Hx%client_Ret & E)%bind_Ret. destruct (c_protocol x) as [l p|] eqn:Ep; [|done].
  destruct (p ≫= _); [|done]. injection E as <-. eapply (up_same (set_client d (set_protocol (QEMUD_PROTOCOL_PIPE (l ++ [mkPipeMessage msg 0]) p) x) m)); [done..|].
  eapply up_set_client; [done|by unfold is_pipe_client; cbn; rewrite Ep| |done]. intros ->. destruct Hu as (_ & _ & z & Hz & Hzp & _). congruence.
Qed.

Lemma pipe_send_loop_up fuel d msglen framing msg len m m' : up m -> pipe_send_loop fuel d msglen framing msg len m = Ret m' -> up m'.
Proof.
  revert framing msg len m. induction fuel as [|fuel IH]; intros framing msg len m Hu; cbn [pipe_send_loop]; (destruct (len <=? 0); [by intros [= <-]|]); [done|].
  set (av := if MAX_SERIAL_PAYLOAD <? len then _ else _). intros (m1 & E1 & E2)%bind_Ret. assert (up m1) as Hu1 by (destruct framing; [by eapply cache_buffer_up|by injection E1 as <-]).
  destruct framing; cbv beta iota in E2; apply bind_Ret in E2 as (m2 & E2 & E3); (eapply IH; [|exact E3]); by eapply cache_buffer_up.
Qed.

Lemma pipe_send_up d msg m m' : up m -> qemud_pipe_send d msg m = Ret m' -> up m'.
Proof. intros Hu (x & _ & E)%bind_Ret. cbv zeta in E. destruct (_ <=? 0); [by injection E as <-|by eapply pipe_send_loop_up]. Qed.

Lemma client_send_up d msg m m' : up m -> qemud_client_send d msg m = Ret m' -> up m'.
Proof. intros Hu (x & _ & E)%bind_Ret. destruct (c_protocol x); [by eapply pipe_send_up|]. injection E as <-. by eapply up_same. Qed.

Lemma set_framing_up d framing m m' : (d = c -> framing <> 0) -> up m -> qemud_client_set_framing d framing m = Ret m' -> up m'.
Proof.
  intros Hd Hu (x & Hx%client_Ret & E)%bind_Ret. injection E as <-. eapply up_set_client; [done| | |done].
  - cbn. destruct (_ && _); cbn; (destruct (c_protocol x) eqn:Ep; [by unfold is_pipe_client; rewrite Ep|done]).
  - intros ->. specialize (Hd eq_refl). apply nz_true in Hd. cbn. rewrite Hd. destruct Hu as (_ & _ & z & Hz & _ & _ & _ & Hn). assert (z = x) as -> by congruence. by rewrite Hn, andb_false_r.
Qed.

Lemma disconnect_up d guest m m' : d <> c -> up m -> qemud_client_disconnect d guest m = Ret m' -> up m'.
Proof.
  intros Hd Hu (x & Hx%client_Ret & E)%bind_Ret. destruct (nz (c_closing x)); [by injection E as <-|]. destruct (is_pipe_client x && negb guest); [by eapply pipe_send_up|].
  apply bind_Ret in E as (m1 & E1 & E).
  assert (exists x1, mx_clients m1 = filter (fun y => y <> d) (mx_clients m) /\ mx_heap m1 = <[d := x1]> (mx_heap m) /\ mx_next m1 = mx_next m) as (x1 & Hl1 & Hh1 & Hn1).
  { exists (set_closing x). destruct (c_protocol x) as [l [p|]|k]; [|done|]; [|destruct (0 <? k); by injection E1 as <-]. destruct (mx_pipes _ !! p); [|done]. by injection E1 as <-. }
  assert (mx_clients m' = filter (fun y => y <> d) (mx_clients m) /\ mx_heap m' = delete d (mx_heap m) /\ mx_next m' = mx_next m) as (Hl & Hh & Hn).
  { injection E as <-. destruct (c_close x), (c_service x); (split_and!; [exact Hl1| |exact Hn1]); rewrite <- (delete_insert_eq (mx_heap m) d x1), <- Hh1; done. }
  destruct Hu as (Hf & Hc & z & Hz & Hu). unfold up. rewrite Hn. split_and!; [|done|].
  - revert Hf. unfold find_channel. rewrite Hl. clear Hl Hl1. induction (mx_clients m) as [|e l IH]; [done|]. intros Hf. rewrite filter_cons. cbn [find] in Hf. destruct (decide (e <> d)) as [Hed|Hed].
    + cbn [find]. assert (on_channel ch m' e = on_channel ch m e) as -> by (unfold on_channel; by rewrite Hh, lookup_delete_ne). destruct (on_channel ch m e); [done|by apply IH].
    + apply dec_stable in Hed as ->. destruct (on_channel ch m d); [congruence|by apply IH].
  - exists z. rewrite Hh, lookup_delete_ne by done. eauto.
Qed.

Lemma run_call_up k m m' : polite k -> up m -> run_call m k = Ret m' -> up m'.
Proof.
  destruct k as [d msg|d framing|d|sv msg]; cbn [polite run_call]; intros Hk Hu.
  - by apply client_send_up.
  - by apply set_framing_up.
  - by apply disconnect_up.
  - unfold qemud_service_broadcast. destruct (find _ _) as [y|]; [|done]. apply foldM_inv; [|done]. intros b a b' Hb. by apply client_send_up.
Qed.

(** The service is polite to the client. *)
Definition polite_service : Prop := forall msg w, Forall polite (clie_recv c msg w).2.

Lemma deliver_up msg m m' : polite_service -> up m -> deliver c ServiceRecv msg m = Ret m' -> up m'.
Proof.
  intros Hp Hu. cbn [deliver]. specialize (Hp msg (mx_world m)). destruct (clie_recv c msg (mx_world m)) as [w calls]. cbn in Hp.
  assert (up (set_mx_world w m)) as Hw by (by eapply up_same). revert Hw. generalize (set_mx_world w m). clear Hu m. induction Hp as [|k calls Hk _ IH]; intros m Hu; cbn [foldM]; [by intros [= <-]|].
  intros (m1 & E1 & E2)%bind_Ret. eapply IH; [|exact E2]. by eapply run_call_up.
Qed.
End up.

(** ** The frames of a client *)

Definition frame_bytes (msg : list Z) : list Z := int2hex 4 (Z.of_nat (length msg)) ++ msg.

(** A message that a frame of four digits can hold. *)
Definition frame_ok (msg : list Z) : Prop := 0 < Z.of_nat (length msg) < 65536.

Definition in_frame_header (p : list Z) (k : scratch) : Prop :=
  nz (sc_need_header k) = true /\ sc_header k = mkSink (Z.of_nat (length p)) 4 /\ length (sc_header0 k) = 4%nat /\ take (length p) (sc_header0 k) = p /\ (length p < 4)%nat.

Definition in_frame_data (n : nat) (p : list Z) (k : scratch) : Prop :=
  nz (sc_need_header k) = false /\ sc_header k = mkSink 0 4 /\ length (sc_header0 k) = 4%nat /\ sc_payload k = mkSink (Z.of_nat (length p)) (Z.of_nat n)
  /\ (length p < n)%nat /\ exists b, sc_buff k = Buff b /\ length b = S n /\ take (length p) b = p.

Section frames.
Context {W : Type} `{QemudServices W} (extra : nat) (c : nat) (ch : Z) (Hpolite : polite_service c).
Implicit Types (m : QemudMultiplexer W) (k : scratch).

(** The multiplexer whose client keeps [k]. *)
Definition with_scratch k m : QemudMultiplexer W := disguise (mx_serial m) (Some (c, k)) m.

Lemma scratch_client k m x : mx_heap m !! c = Some x -> client c (with_scratch k m) = Ret (put_scratch k x).
Proof. intros Hx. apply client_Ret. cbn. by rewrite lookup_alter_eq, Hx. Qed.

Lemma scratch_set k k' m x y : mx_heap m !! c = Some x -> put_scratch k' x = y -> set_client c y (with_scratch k m) = with_scratch k' m.
Proof.
  intros Hx <-. unfold with_scratch, set_client, set_mx_heap, disguise. cbn. f_equal. rewrite insert_alter_eq. apply map_eq. intros d.
  destruct (decide (d = c)) as [->|]; [by rewrite lookup_insert_eq, lookup_alter_eq, Hx|by rewrite lookup_insert_ne, lookup_alter_ne].
Qed.

Lemma deliver_serial msg m m' : deliver c ServiceRecv msg m = Ret m' -> mx_serial m' = mx_serial m.
Proof.
  intros E. assert (apart (mx_serial m) None m) as Ha by done. destruct (service_deliver_unaware (mx_serial m) None c msg m Ha) as [E' _].
  assert (disguise (mx_serial m) None m = m) as Em by (by destruct m). rewrite Em, E in E'. cbn in E'. injection E' as E'. rewrite E'. done.
Qed.

Lemma deliver_scratch msg k m : up c ch m -> nz (sc_need_header k) = true -> deliver c ServiceRecv msg (with_scratch k m) = with_scratch k <$> deliver c ServiceRecv msg m.
Proof.
  intros (_ & Hc & x & Hx & _ & _ & _ & Hn) Hk. unfold with_scratch at 1. destruct (service_deliver_unaware (mx_serial m) (Some (c, k)) c msg m) as [-> _].
  { split; [done|]. split_and!; [done..|]. intros y Hy. congruence. }
  destruct (deliver c ServiceRecv msg m) as [m'| | | | |] eqn:E; cbn; try done. unfold with_scratch. by rewrite (deliver_serial _ _ _ E).
Qed.

Lemma frame_header_short fuel p a m k : up c ch m -> in_frame_header p k -> a <> [] -> (length p + length a < 4)%nat ->
  exists k', client_recv_loop (S fuel) c a (with_scratch k m) = Ret (with_scratch k' m) /\ in_frame_header (p ++ a) k'.
Proof.
  intros (_ & _ & x & Hx & _) (Hn & Hh & Hl & Hp & Hp4) Ha Hlt. destruct a as [|a0 a]; [done|]. cbn [client_recv_loop]. rewrite (scratch_client _ _ _ Hx). cbn [mbind outcome_bind put_scratch c_need_header c_header c_header0].
  rewrite Hn, Hh. destruct (sink_fill_short (sc_header0 k) p 4 (a0 :: a) Hp ltac:(lia)) as (d & E & Hd & Ht). change 4 with (Z.of_nat 4). rewrite E. cbn [mbind outcome_bind negb].
  exists (mkScratch (sc_need_header k) (mkSink (Z.of_nat (length (p ++ a0 :: a))) 4) d (sc_payload k) (sc_buff k)). split; [f_equal; by eapply scratch_set|].
  unfold in_frame_header. cbn [sc_need_header sc_header sc_header0]. rewrite Hd, length_app in *. repeat split; done.
Qed.

Lemma frame_header_full fuel p a b msg m k : up c ch m -> frame_ok msg -> in_frame_header p k -> a <> [] -> p ++ a = int2hex 4 (Z.of_nat (length msg)) ->
  exists k', client_recv_loop (S fuel) c (a ++ b) (with_scratch k m) = client_payload (client_recv_loop fuel c) c b (with_scratch k' m) /\ in_frame_data (length msg) [] k'.
Proof.
  intros (_ & _ & x & Hx & _) Hok (Hn & Hh & Hl & Hp & Hp4) Ha Epa. unfold frame_ok in Hok. assert (length (p ++ a) = 4%nat) as Hpl by (by rewrite Epa, int2hex_length).
  destruct (sink_fill_full (sc_header0 k) p 4 a b Hp Hpl ltac:(lia)) as (d & E & Hd & Ht). rewrite Epa in Ht.
  destruct a as [|a0 a]; [done|]. cbn [client_recv_loop app]. cbn [app] in E. rewrite (scratch_client _ _ _ Hx). cbn [mbind outcome_bind put_scratch c_need_header c_header c_header0].
  rewrite Hn, Hh. change (Z.of_nat 4) with 4 in E. rewrite E. cbn [mbind outcome_bind negb]. change (range d 0 4) with (range d 0 (Z.of_nat 4)). rewrite range_take, Ht, hex2int_int2hex by (cbn; lia).
  destruct (Z.leb_spec (Z.of_nat (length msg)) 0); [lia|].
  exists (mkScratch 0 (mkSink 0 4) d (mkSink 0 (Z.of_nat (length msg))) (Buff (replicate (Z.to_nat (Z.of_nat (length msg) + 1)) 0))). split; [f_equal; by eapply scratch_set|].
  unfold in_frame_data. cbn [sc_need_header sc_header sc_header0 sc_payload sc_buff]. split_and!; [done|done|lia|done|cbn; lia|]. eexists. split; [done|]. rewrite length_replicate. split; [lia|done].
Qed.

Lemma frame_data_short rest n p a m k : up c ch m -> in_frame_data n p k -> (length p + length a < n)%nat ->
  exists k', client_payload rest c a (with_scratch k m) = Ret (with_scratch k' m) /\ in_frame_data n (p ++ a) k'.
Proof.
  intros (_ & _ & x & Hx & _) (Hn & Hh & Hl & Hpl & Hlt & b & Hb & Hbl & Hp) Ha. unfold client_payload. rewrite (scratch_client _ _ _ Hx). cbn [mbind outcome_bind put_scratch c_buff c_payload]. rewrite Hb, Hpl.
  destruct (sink_fill_short b p n a Hp ltac:(lia)) as (d & E & Hd & Ht). rewrite E. cbn [mbind outcome_bind negb].
  exists (mkScratch (sc_need_header k) (sc_header k) (sc_header0 k) (mkSink (Z.of_nat (length (p ++ a))) (Z.of_nat n)) (Buff d)). split; [f_equal; by eapply scratch_set|].
  unfold in_frame_data. cbn [sc_need_header sc_header sc_header0 sc_payload sc_buff]. rewrite length_app in *. split_and!; [done..|lia|]. exists d. split_and!; [done|lia|done].
Qed.

Lemma frame_data_full rest n p a b m k : up c ch m -> in_frame_data n p k -> length (p ++ a) = n ->
  exists k', client_payload rest c (a ++ b) (with_scratch k m) = (m' ← deliver c ServiceRecv (p ++ a) m; rest b (with_scratch k' m')) /\ in_frame_header [] k'.
Proof.
  intros Hu (Hn & Hh & Hl & Hpl & Hlt & bf & Hb & Hbl & Hp) Hpa. pose proof Hu as (_ & _ & x & Hx & _ & _ & Hr & _). unfold client_payload. rewrite (scratch_client _ _ _ Hx).
  cbn [mbind outcome_bind put_scratch c_buff c_payload]. rewrite Hb, Hpl. destruct (sink_fill_full bf p n a b Hp Hpa ltac:(lia)) as (d & E & Hd & Ht). rewrite E. cbn [mbind outcome_bind negb sk_size].
  destruct (Z.ltb_spec (Z.of_nat n) 0); [lia|]. destruct (Z.leb_spec (Z.of_nat (length d)) (Z.of_nat n)); [lia|]. cbn [orb].
  exists (mkScratch 1 (sc_header k) (sc_header0 k) (mkSink (Z.of_nat n) (Z.of_nat n)) BuffFreed). split.
  - change (c_recv (set_c_payload _ _ _ (put_scratch k x))) with (c_recv x). rewrite Hr, range_take, Ht. match goal with |- context [set_client c ?y (with_scratch k m)] => rewrite (scratch_set k (mkScratch 1 (sc_header k) (sc_header0 k) (mkSink (Z.of_nat n) (Z.of_nat n)) BuffFreed) m x y Hx eq_refl) end.
    rewrite deliver_scratch by done. by destruct (deliver c ServiceRecv (p ++ a) m).
  - unfold in_frame_header. cbn [sc_need_header sc_header sc_header0]. rewrite Hh. split_and!; [done..|cbn; lia].
Qed.

#[local] Instance frame_reader : StreamReader (QemudMultiplexer W) scratch (list Z).
Proof.
  refine {| T := with_scratch; item_ok := frame_ok; header msg := int2hex 4 (Z.of_nat (length msg)); data := id;
    recv msg := deliver c ServiceRecv msg; loop fuel := client_recv_loop fuel c; half rest := client_payload rest c; read := qemud_multiplexer_serial_recv extra ch;
    good := up c ch; in_header := in_frame_header; in_data msg := in_frame_data (length msg); header_size := 4 |}.
  - intros msg. apply int2hex_length.
  - by intros p k (_ & _ & _ & _ & ?).
  - by intros msg p k (_ & _ & _ & _ & ? & _).
  - intros msg m m' _. by apply deliver_up.
  - by intros [] m.
  - intros. by eapply frame_header_short.
  - intros. by eapply frame_header_full.
  - intros fuel msg p a m k (_ & _ & x & Hx & _) (Hn & _) Ha. destruct a as [|a0 a]; [done|]. cbn [client_recv_loop]. rewrite (scratch_client _ _ _ Hx). cbn [mbind outcome_bind put_scratch c_need_header]. by rewrite Hn.
  - intros. by eapply frame_data_short.
  - intros rest msg p a b m k Hm _ Hk Hpa. destruct (frame_data_full rest _ p a b m k Hm Hk ltac:(by rewrite Hpa)) as (k' & E & Hk'). rewrite Hpa in E. eauto.
  - intros a m k (Hf & _ & x & Hx & _ & Hfr & _) Hk. exists (3 * length a + 3 + extra)%nat. split; [lia|]. unfold qemud_multiplexer_serial_recv, qemud_client_recv. unfold with_scratch at 1. rewrite find_channel_disguise, Hf. rewrite (scratch_client _ _ _ Hx). cbn [mbind outcome_bind put_scratch c_framing c_need_header c_header].
    rewrite Hfr. cbn [negb]. assert ((sc_need_header k =? 1) && (qemud_sink_needed (sc_header k) =? 0) = false) as E.
    { destruct Hk as [(p & _ & Hh & _ & _ & Hp)|(msg & p & Hn & _)]; [rewrite Hh; unfold qemud_sink_needed; cbn [sk_size sk_used]; rewrite (proj2 (Z.eqb_neq (4 - _) 0)) by lia; apply andb_false_r|].
      destruct (Z.eqb_spec (sc_need_header k) 1) as [E1|]; [|done]. by rewrite E1 in Hn. }
    by rewrite <- (andb_assoc (FRAME_HEADER_SIZE <? _)), E, andb_false_r.
Defined.

(** Any packets of a stream of frames are the messages, one after the other. *)
Lemma client_reads_frames pieces msgs m k : Forall frame_ok msgs -> up c ch m -> in_frame_header [] k -> concat pieces = concat (frame_bytes <$> msgs) ->
  (exists k', in_frame_header [] k' /\ foldM (fun m p => qemud_multiplexer_serial_recv extra ch p m) (with_scratch k m) pieces = with_scratch k' <$> foldM (fun m msg => deliver c ServiceRecv msg m) m msgs)
  /\ forall m', foldM (fun m msg => deliver c ServiceRecv msg m) m msgs = Ret m' -> up c ch m'.
Proof.
  intros Hok Hu Hk Hst. apply (read_stream (H := frame_reader) pieces msgs [] m k Hok Hu); [by apply reading_idle|done].
Qed.
(** The client has read nothing of a frame. *)
Definition between_frames m : Prop := exists x, mx_heap m !! c = Some x /\ c_header x = mkSink 0 4 /\ length (c_header0 x) = 4%nat.

Lemma between_frames_scratch m : up c ch m -> between_frames m -> exists k, in_frame_header [] k /\ with_scratch k m = m.
Proof.
  intros (_ & _ & x & Hx & _ & _ & _ & Hn) (y & Hy & Hh & Hl). assert (y = x) as -> by congruence.
  exists (mkScratch (c_need_header x) (c_header x) (c_header0 x) (c_payload x) (c_buff x)). split; [unfold in_frame_header; cbn; rewrite Hh; split_and!; [done..|lia]|].
  destruct m as [s h n l sv p o w]. cbn in *. unfold with_scratch, disguise. cbn. f_equal. apply map_eq. intros d. destruct (decide (d = c)) as [->|]; [|by rewrite lookup_alter_ne].
  rewrite lookup_alter_eq, Hx. by destruct x.
Qed.
End frames.

(** The bytes of messages sent one after the other. *)
Definition sent_bytes (v ch : Z) (msgs : list (list Z)) : list Z := concat (qemud_serial_send v ch true <$> msgs).

Lemma sent_packets v ch msgs : 0 <= ch < 256 -> Forall frame_ok msgs -> exists ps, sent_bytes v ch msgs = concat (packet_bytes v <$> ps)
  /\ Forall packet_ok ps /\ Forall (fun p => p_channel p = ch) ps /\ concat (p_data <$> ps) = concat (frame_bytes <$> msgs).
Proof.
  intros Hch. induction 1 as [|msg msgs Hm _ (ps & E & Hok & Hc & Hd)]; [by exists []|]. unfold frame_ok in Hm.
  destruct (send_packets v ch true msg Hch) as (qs & E1 & Hok1 & Hc1 & Hd1); [intros ->; cbn in Hm; lia|]. exists (qs ++ ps). unfold sent_bytes in *. cbn [fmap list_fmap concat].
  rewrite !fmap_app, !concat_app, E1, Hd1. setoid_rewrite E. setoid_rewrite Hd. split_and!; [done|by apply Forall_app..|done].
Qed.

(** Any bytes that carry framed messages are the calls of the service. *)
Lemma frames_reach_service {W} `{QemudServices W} (extra c : nat) (v ch : Z) (m : QemudMultiplexer W) (msgs : list (list Z)) (chunks : list (list Z)) :
  v <> QEMUD_VERSION_UNKNOWN -> 0 <= ch < 256 -> polite_service c -> link_idle v (mx_serial m) -> up c ch m -> between_frames c m ->
  Forall frame_ok msgs -> concat chunks = sent_bytes v ch msgs ->
  exists s k, link_idle v s /\ in_frame_header [] k
    /\ foldM (fun m bytes => qemud_serial_read (H := mux_host extra) bytes m) m chunks
       = (fun m => set_mx_serial s (with_scratch c k m)) <$> foldM (fun m msg => deliver c ServiceRecv msg m) m msgs.
Proof.
  intros Hv Hch Hp Hl Hu Hb Hok Hst. destruct (sent_packets v ch msgs Hch Hok) as (ps & E & Hps & Hc & Hd). rewrite E in Hst.
  destruct (serial_reads_packets (H := mux_host extra) v Hv chunks ps m Hps Hl Hst) as (s & Hs & ->).
  destruct (between_frames_scratch c ch m Hu Hb) as (k & Hk & Ek).
  destruct (client_reads_frames extra c ch Hp (p_data <$> ps) msgs m k Hok Hu Hk Hd) as [(k' & Hk' & E') _]. rewrite Ek in E'.
  exists s, k'. split_and!; [done..|]. assert (forall m, foldM (fun m p => recv_func (SerialHost := mux_host extra) (p_channel p) (p_data p) m) m ps
    = foldM (fun m p => qemud_multiplexer_serial_recv extra ch p m) m (p_data <$> ps)) as ->.
  { clear -Hc. induction Hc as [|p ps Hp _ IH]; intros m; [done|]. cbn [fmap list_fmap foldM]. rewrite Hp. cbn [recv_func mux_host]. destruct (qemud_multiplexer_serial_recv extra ch (p_data p) m); cbn; [apply IH|done..]. }
  rewrite E'. by destruct (foldM (fun m msg => deliver c ServiceRecv msg m) m msgs).
Qed.

(** C7: what a guest's client sends reaches its service message by message.
    The bytes that carry any number of framed messages of 1 to 65535 bytes on
    a channel, packed for the link the way [qemud_serial_send] packs them, may
    arrive at the serial port in any pieces, cut inside headers or data: the
    multiplexer finds the client, the client puts the packets together again,
    and its service is called with exactly these messages, in their order,
    with every answer the service gives. Nothing else of the multiplexer
    changes, and link and client are ready for the next message. The service
    must not close the client or end its framing. *)
Theorem messages_reach_service {W} `{QemudServices W} (extra c : nat) (v ch : Z) (m : QemudMultiplexer W) (msgs : list (list Z)) (chunks : list (list Z)) :
  v <> QEMUD_VERSION_UNKNOWN -> 0 <= ch < 256 -> polite_service c -> link_idle v (mx_serial m) -> up c ch m -> between_frames c m ->
  Forall frame_ok msgs -> concat chunks = sent_bytes v ch msgs ->
  exists s k, link_idle v s /\ in_frame_header [] k
    /\ foldM (fun m bytes => qemud_serial_read (H := mux_host extra) bytes m) m chunks
       = (fun m => set_mx_serial s (with_scratch c k m)) <$> foldM (fun m msg => deliver c ServiceRecv msg m) m msgs.
Proof. apply frames_reach_service. Qed.

(** A service that keeps what it is sent and sends it back. *)
Definition echo_services : QemudServices (list (list Z)) := {|
  serv_connect sv c channel param w := Accepted w true false [CallSetFraming c 1];
  clie_recv c msg w := (w ++ [msg], [CallSend c msg]);
  clie_close c w := w;
  goldfish_pipe_wake hw flags w := w;
  modem_set_legacy w := w;
|}.

(** The multiplexer after the daemon has connected a client to the service on
    channel 5. *)
Definition example_mux : QemudMultiplexer (list (list Z)) :=
  match qemud_serial_read (H := mux_host (H := echo_services) 0) (packet_bytes QEMUD_VERSION_NORMAL (mkPacket 0 (chars "connect:echo:05")))
          (qemud_service_register (chars "echo") 2 (qemud_multiplexer_init [])) with
  | Ret m => m
  | _ => qemud_multiplexer_init []
  end.

Lemma echo_polite c : polite_service (H := echo_services) c.
Proof. intros msg w. by repeat constructor. Qed.

Lemma example_mux_up : up 1 5 example_mux.
Proof. split; [by vm_compute|]. split; [apply Nat.ltb_lt; by vm_compute|]. eexists. split_and!; [by vm_compute|by vm_compute..]. Qed.

Lemma example_mux_between : between_frames 1 example_mux.
Proof. eexists. split_and!; [by vm_compute|by vm_compute..]. Qed.

Lemma example_mux_idle : link_idle QEMUD_VERSION_NORMAL (mx_serial example_mux).
Proof. unfold link_idle, in_packet_header. split_and!; [by vm_compute..|apply Nat.ltb_lt; by vm_compute]. Qed.

Lemma messages_reach_service_witness :
  let msgs := [chars "hello"; replicate 5000 7] in let bytes := sent_bytes QEMUD_VERSION_NORMAL 5 msgs in
  exists s k, link_idle QEMUD_VERSION_NORMAL s /\ in_frame_header [] k
    /\ foldM (fun m bytes => qemud_serial_read (H := mux_host (H := echo_services) 0) bytes m) example_mux [take 3 bytes; drop 3 bytes]
       = (fun m => set_mx_serial s (with_scratch 1 k m)) <$> foldM (fun m msg => deliver (H := echo_services) 1 ServiceRecv msg m) example_mux msgs.
Proof.
  intros msgs bytes.
  apply (messages_reach_service (H := echo_services) 0 1 QEMUD_VERSION_NORMAL 5 example_mux msgs [take 3 bytes; drop 3 bytes]); [done|lia|apply echo_polite|apply example_mux_idle|apply example_mux_up|apply example_mux_between| |].
  - unfold msgs. constructor; [|constructor; [|constructor]]; unfold frame_ok; [cbn; lia|]. rewrite length_replicate. lia.
  - cbn [concat]. by rewrite app_nil_r, take_drop.
Defined.

(** ** What stops the link *)

(** A round of the loop that finds the header of an empty frame complete
    changes nothing, and takes no byte. *)
Lemma stuck_header {W} `{QemudServices W} fuel c b msg (m : QemudMultiplexer W) x : mx_heap m !! c = Some x -> nz (c_need_header x) = true ->
  sk_size (c_header x) <= sk_used (c_header x) -> hex2int (range (c_header0 x) 0 4) <= 0 -> client_recv_loop fuel c (b :: msg) m = StillRunning.
Proof.
  intros Hx Hn Hs Hz. induction fuel as [|fuel IH]; [done|]. cbn [client_recv_loop]. unfold client. rewrite Hx. cbn [mbind outcome_bind]. rewrite Hn. unfold qemud_sink_fill.
  destruct (Z.leb_spec (sk_size (c_header x) - sk_used (c_header x)) 0); [|lia]. cbn [mbind outcome_bind negb]. destruct (Z.leb_spec (hex2int (range (c_header0 x) 0 4)) 0); [|lia].
  replace (set_client c (set_c_header (c_header x) (c_header0 x) x) m) with m; [done|]. destruct m as [s h n l sv p o w]. unfold set_client, set_mx_heap. cbn in *. f_equal. by rewrite insert_id by (rewrite Hx; by destruct x).
Qed.

(** C36: an empty frame hangs the emulator. A client of any service that uses
    frames sends the four digits of a frame of no bytes, and at least one byte
    more in the same packet: however many rounds the loop of
    [qemud_client_recv] is given, it is still running, so that the call from
    the serial port never returns. *)
Theorem empty_frame_hangs {W} `{QemudServices W} (extra c : nat) (v ch : Z) (m : QemudMultiplexer W) (b : Z) (rest : list Z) :
  v <> QEMUD_VERSION_UNKNOWN -> 0 <= ch < 256 -> link_idle v (mx_serial m) -> up c ch m -> between_frames c m -> (length rest < 3996)%nat ->
  qemud_serial_read (H := mux_host extra) (packet_bytes v (mkPacket ch (chars "0000" ++ b :: rest))) m = StillRunning.
Proof.
  intros Hv Hch Hl (Hf & _ & x & Hx & _ & Hfr & _ & Hn) (y & Hy & Hh & Hl0) Hr. assert (y = x) as -> by congruence. set (p := mkPacket ch (chars "0000" ++ b :: rest)).
  assert (packet_ok p) as Hp by (split; [done|unfold p, MAX_SERIAL_PAYLOAD; cbn; lia]).
  destruct (serial_reads_packets (H := mux_host extra) v Hv [packet_bytes v p] [p] m ltac:(by constructor) Hl eq_refl) as (s & _ & E). cbn [foldM] in E.
  assert (recv_func (SerialHost := mux_host extra) (p_channel p) (p_data p) m = StillRunning) as Er.
  { cbn [recv_func mux_host p_channel p_data p]. unfold qemud_multiplexer_serial_recv, qemud_client_recv. rewrite Hf. unfold client at 1. rewrite Hx. cbn [mbind outcome_bind]. rewrite Hfr, Hh. cbn [negb].
    change (qemud_sink_needed (mkSink 0 4) =? 0) with false. rewrite !andb_false_r. cbn [andb]. generalize (3 * length (chars "0000" ++ b :: rest) + 3 + extra)%nat. intros [|fuel]; [done|].
    change (chars "0000" ++ b :: rest) with (48 :: [48; 48; 48] ++ b :: rest). cbn [client_recv_loop]. unfold client at 1. rewrite Hx. cbn [mbind outcome_bind]. rewrite Hn, Hh.
    destruct (sink_fill_full (c_header0 x) [] 4 [48; 48; 48; 48] (b :: rest) eq_refl eq_refl ltac:(cbn; lia)) as (d & E1 & Hd & Ht). cbn [app] in E1. change (Z.of_nat 4) with 4 in E1. change (Z.of_nat (length (@nil Z))) with 0 in E1. cbn [app]. rewrite E1.
    cbn [mbind outcome_bind negb]. change (range d 0 4) with (range d 0 (Z.of_nat 4)). rewrite range_take, Ht. change (hex2int ([] ++ [48; 48; 48; 48])) with 0. cbn [Z.leb Z.compare].
    eapply (stuck_header fuel c b rest _ (set_c_header (mkSink 4 4) d x)); [by cbn; rewrite lookup_insert_eq|done|cbn; lia|]. cbn. change (range d 0 4) with (range d 0 (Z.of_nat 4)). by rewrite range_take, Ht. }
  revert E. rewrite Er. by destruct (qemud_serial_read (packet_bytes v p) m).
Qed.

Lemma empty_frame_hangs_witness :
  qemud_serial_read (H := mux_host (H := echo_services) 100) (packet_bytes QEMUD_VERSION_NORMAL (mkPacket 5 (chars "0000" ++ 65 :: []))) example_mux = StillRunning.
Proof.
  apply (empty_frame_hangs (H := echo_services) 100 1 QEMUD_VERSION_NORMAL 5 example_mux 65 []); [done|lia|apply example_mux_idle|apply example_mux_up|apply example_mux_between|cbn; lia].
Defined.

(** C37: one packet that is too long cuts the serial port off for good. A header
    that announces more than 4000 bytes makes the link skip the packet, but
    nothing counts the bytes skipped: whatever arrives afterwards, in whatever
    pieces, the packet itself and all the packets of all clients behind it, is
    thrown away. *)
Theorem huge_packet_deafens {M} `{HostLaws M} (v ch : Z) (n : Z) (m : M) :
  v <> QEMUD_VERSION_UNKNOWN -> link_idle v (serial m) -> 0 <= ch < 256 -> MAX_SERIAL_PAYLOAD < n < 65536 ->
  exists s, forall later : list (list Z), foldM (fun m bytes => qemud_serial_read bytes m) m (packet_header v ch n :: later) = Ret (with_serial s m).
Proof.
  intros Hv (Hn & Ho & Hs & Hh & Hl & _ & _) Hch Hn4. unfold MAX_SERIAL_PAYLOAD in Hn4.
  destruct (sink_fill_full (qs_data0 (serial m)) [] 6 (packet_header v ch n) [] eq_refl (packet_header_length v ch n) ltac:(cbn; lia)) as (d & E & Hd & Ht). cbn [app] in Ht. rewrite app_nil_r in E. cbn [length] in E. change (Z.of_nat 0) with 0 in E. change (Z.of_nat 6) with 6 in E.
  set (s1 := set_qs_header (mkSink 6 6) d (serial m)).
  assert (exists s, qemud_serial_read (packet_header v ch n) m = Ret (with_serial s m) /\ 0 < qs_overflow s) as (s & E1 & Hov).
  { pose proof (packet_header_length v ch n) as Hpl. unfold qemud_serial_read. rewrite Hpl. destruct (packet_header v ch n) as [|b0 hd] eqn:Ehd; [done|]. change (3 * 6 + 3)%nat with (S 20). generalize 20%nat. intros fuel. cbn [serial_read_loop].
    rewrite Ho, Hn, Hh. cbn [Z.ltb Z.compare]. change (Z.of_nat (length (@nil Z))) with 0. rewrite E. cbn [mbind outcome_bind negb]. fold s1. unfold detect_version. change (qs_version s1) with (qs_version (serial m)). rewrite Hs, (proj2 (Z.eqb_neq v _)) by done.
    rewrite (parse_packet_header v ch n s1) by (cbn; rewrite ?Ehd; done || lia). cbn [set_qs_header set_qs_in qs_in_size qs_in_channel].
    destruct (Z.leb_spec n 0); [lia|]. destruct (Z.ltb_spec ch 0); [lia|]. cbn [orb]. unfold MAX_SERIAL_PAYLOAD. destruct (Z.ltb_spec 4000 n); [|lia]. rewrite loop_nil_packet. eexists. split; [done|]. cbn. lia. }
  exists s. intros later. cbn [foldM]. rewrite E1. cbn [mbind outcome_bind]. induction later as [|bytes later IH]; [done|]. cbn [foldM].
  assert (forall fuel bytes, (length bytes <= fuel)%nat -> serial_read_loop fuel bytes (with_serial s m) = Ret (with_serial s m)) as Hskip; [|assert (qemud_serial_read bytes (with_serial s m) = Ret (with_serial s m)) as -> by (apply Hskip; lia); done].
  clear -Hov H0. induction fuel as [|fuel IH]; intros bytes Hf; [by destruct bytes; [|cbn in Hf; lia]|]. destruct bytes as [|b bytes]; [done|]. cbn [serial_read_loop]. rewrite serial_with.
  destruct (Z.ltb_spec 0 (qs_overflow s)); [|lia]. apply IH. rewrite length_drop. cbn [length] in *. destruct (_ <? _); lia.
Qed.

Lemma huge_packet_deafens_witness :
  exists s, forall later : list (list Z), foldM (fun m bytes => qemud_serial_read (H := mux_host (H := echo_services) 0) bytes m) example_mux (packet_header QEMUD_VERSION_NORMAL 5 4001 :: later) = Ret (set_mx_serial s example_mux).
Proof. apply (huge_packet_deafens (H := mux_host (H := echo_services) 0) QEMUD_VERSION_NORMAL 5 4001 example_mux); [done|apply example_mux_idle|lia|unfold MAX_SERIAL_PAYLOAD; lia]. Defined.

(** A service that closes its client once it has a message. *)
Definition rude_services : QemudServices unit := {|
  serv_connect sv c channel param w := Accepted w true false [CallSetFraming c 1];
  clie_recv c msg w := (w, [CallClose c]);
  clie_close c w := w;
  goldfish_pipe_wake hw flags w := w;
  modem_set_legacy w := w;
|}.

(** The loop goes on with the rest of the packet, and the client is freed. *)
Example closed_client_is_used :
  (m ← qemud_serial_read (H := mux_host (H := rude_services) 0) (packet_bytes QEMUD_VERSION_NORMAL (mkPacket 0 (chars "connect:rude:05")))
         (qemud_service_register (chars "rude") 2 (qemud_multiplexer_init tt));
   qemud_serial_read (H := mux_host (H := rude_services) 0) (packet_bytes QEMUD_VERSION_NORMAL (mkPacket 5 (frame_bytes (chars "bye") ++ frame_bytes (chars "bye")))) m) = OutOfBounds.
Proof. by vm_compute. Qed.
