(* ===== verification/QemudInv.v ===== *)
(** The lists of clients of the qemud multiplexer: what every sequence of
    events keeps, and the pipes, which deliver in order. *)
From stdpp Require Import strings gmap.
From S2P Require Import Prelude CStrings QemuFile Qemud QemudMux QemudSpec QemudCalls QemudFrames.
Open Scope list_scope.

Definition pipe_link (x : QemudClient) : option nat := match c_protocol x with QEMUD_PROTOCOL_PIPE _ p => p | QEMUD_PROTOCOL_SERIAL _ => None end.

(** What the receiver keeps, the reader of the link keeps. *)
Lemma serial_read_keeps {M} `{SerialHost M} (P : M -> Prop) from m m' : (forall s m, P m -> P (with_serial s m)) -> (forall m, P m -> P (amodem_set_legacy m)) ->
  (forall ch msg m m', P m -> recv_func ch msg m = Ret m' -> P m') -> P m -> qemud_serial_read from m = Ret m' -> P m'.
Proof.
  intros Hw Hl Hrv. unfold qemud_serial_read. generalize (3 * length from + 3)%nat. intros fuel. revert from m.
  assert (forall rest, (forall from m, P m -> rest from m = Ret m' -> P m') -> forall from m, P m -> read_payload rest from m = Ret m' -> P m') as Hpay.
  { intros rest Hr from m Hm ([[[full p] d] from'] & _ & E)%bind_Ret. destruct full; cbn [negb] in E; [|injection E as <-; by apply Hw]. cbv zeta in E. destruct (_ || _); [done|].
    apply bind_Ret in E as (m1 & E1 & E2). eapply Hr; [|exact E2]. apply Hw. eapply Hrv; [|exact E1]. by apply Hw. }
  induction fuel as [|fuel IH]; intros from m Hm; cbn [serial_read_loop]; (destruct from as [|b from]; [by intros [= <-]|]); [done|].
  destruct (0 <? _); [by apply IH|]. destruct (nz _); [|by apply Hpay]. intros ([[[full h] d] from'] & _ & E)%bind_Ret. destruct full; cbn [negb] in E; [|injection E as <-; by apply Hw]. cbv zeta in E.
  destruct (detect_version _) as [s1 lg]. assert (P (if lg : bool then amodem_set_legacy m else m)) as Hm1 by (destruct lg; [by apply Hl|done]).
  destruct (_ || _); [eapply IH; [|exact E]; by apply Hw|]. destruct (_ <? _); [eapply IH; [|exact E]; by apply Hw|]. eapply Hpay; [exact IH| |exact E]. by apply Hw.
Qed.

Section invariant.
Context {W : Type} `{QemudServices W}.
Implicit Types m : QemudMultiplexer W.

(** A client in memory: its service lists it, and its pipe points back. *)
Definition client_ok m (c : nat) (x : QemudClient) : Prop :=
  (c < mx_next m)%nat /\ c_closing x = 0
  /\ (forall i, c_service x = Some i -> exists sv, sv ∈ mx_services m /\ sv_id sv = i /\ c ∈ sv_clients sv)
  /\ (forall p, pipe_link x = Some p -> exists q, mx_pipes m !! p = Some q /\ pipe_client q = Some c).

(** A service: it counts its clients, and they are its own. *)
Definition service_ok m (sv : QemudService) : Prop :=
  NoDup (sv_clients sv) /\ num_clients sv = Z.of_nat (length (sv_clients sv))
  /\ forall c, c ∈ sv_clients sv -> exists x, mx_heap m !! c = Some x /\ c_service x = Some (sv_id sv).

(** The global list holds the clients that are in memory, each once. *)
Definition mux_ok m : Prop :=
  NoDup (mx_clients m) /\ (forall c, c ∈ mx_clients m <-> is_Some (mx_heap m !! c))
  /\ (forall c x, mx_heap m !! c = Some x -> client_ok m c x)
  /\ NoDup (sv_id <$> mx_services m) /\ (forall sv, sv ∈ mx_services m -> (sv_id sv < length (mx_services m))%nat /\ service_ok m sv)
  /\ (forall p q c, mx_pipes m !! p = Some q -> pipe_client q = Some c -> exists x, mx_heap m !! c = Some x /\ pipe_link x = Some p).

(** Parts that do not matter. *)
Lemma ok_same m m' : mx_heap m' = mx_heap m -> mx_next m' = mx_next m -> mx_clients m' = mx_clients m -> mx_services m' = mx_services m -> mx_pipes m' = mx_pipes m -> mux_ok m -> mux_ok m'.
Proof. unfold mux_ok, client_ok, service_ok. by intros -> -> -> -> ->. Qed.

(** A client is stored again with the same links. *)
Lemma ok_set_client c x y m : mx_heap m !! c = Some x -> c_service y = c_service x -> c_closing y = c_closing x -> pipe_link y = pipe_link x -> mux_ok m -> mux_ok (set_client c y m).
Proof.
  intros Hx Hs Hc Hp (Hnd & Hin & Hh & Hsv & Hok & Hpipe). split_and!; [done|..].
  - intros d. rewrite (Hin d). cbn. destruct (decide (c = d)) as [->|]; [rewrite lookup_insert_eq, Hx; by split; intros; eexists|by rewrite lookup_insert_ne].
  - intros d z. cbn. destruct (decide (c = d)) as [->|]; [rewrite lookup_insert_eq; intros [= <-]|rewrite lookup_insert_ne by done; apply Hh].
    unfold client_ok. rewrite Hs, Hc, Hp. by apply Hh.
  - done.
  - intros sv Hi. destruct (Hok sv Hi) as (Hlt & Hnd' & Hn & Hcl). split; [done|]. split_and!; [done..|]. intros d Hd. destruct (Hcl d Hd) as (z & Hz & Hzs). cbn.
    destruct (decide (c = d)) as [->|]; [|rewrite lookup_insert_ne by done; eauto]. rewrite lookup_insert_eq. exists y. split; [done|congruence].
  - intros p q d Hq Hd. destruct (Hpipe p q d Hq Hd) as (z & Hz & Hzp). cbn. destruct (decide (c = d)) as [->|]; [|rewrite lookup_insert_ne by done; eauto].
    rewrite lookup_insert_eq. exists y. split; [done|congruence].
Qed.

Lemma cache_buffer_ok c msg m m' : mux_ok m -> qemud_pipe_cache_buffer c msg m = Ret m' -> mux_ok m'.
Proof.
  intros Hm (x & Hx%client_Ret & E)%bind_Ret. destruct (c_protocol x) as [l p|] eqn:Ep; [|done]. cbv zeta in E. destruct (p ≫= _); [|done]. injection E as <-.
  eapply (ok_same (set_client c (set_protocol (QEMUD_PROTOCOL_PIPE (l ++ [mkPipeMessage msg 0]) p) x) m)); [done..|]. eapply ok_set_client; [done..| |done]. unfold pipe_link. cbn. by rewrite Ep.
Qed.

Lemma pipe_send_loop_ok fuel c msglen framing msg len m m' : mux_ok m -> pipe_send_loop fuel c msglen framing msg len m = Ret m' -> mux_ok m'.
Proof.
  revert framing msg len m. induction fuel as [|fuel IH]; intros framing msg len m Hu; cbn [pipe_send_loop]; (destruct (len <=? 0); [by intros [= <-]|]); [done|].
  set (av := if MAX_SERIAL_PAYLOAD <? len then _ else _). intros (m1 & E1 & E2)%bind_Ret. assert (mux_ok m1) as Hu1 by (destruct framing; [by eapply cache_buffer_ok|by injection E1 as <-]).
  destruct framing; cbv beta iota in E2; apply bind_Ret in E2 as (m2 & E2 & E3); (eapply IH; [|exact E3]); by eapply cache_buffer_ok.
Qed.

Lemma pipe_send_ok c msg m m' : mux_ok m -> qemud_pipe_send c msg m = Ret m' -> mux_ok m'.
Proof. intros Hu (x & _ & E)%bind_Ret. cbv zeta in E. destruct (_ <=? 0); [by injection E as <-|by eapply pipe_send_loop_ok]. Qed.

Lemma client_send_ok c msg m m' : mux_ok m -> qemud_client_send c msg m = Ret m' -> mux_ok m'.
Proof. intros Hu (x & _ & E)%bind_Ret. destruct (c_protocol x); [by eapply pipe_send_ok|]. injection E as <-. by eapply ok_same. Qed.

Lemma set_framing_ok c framing m m' : mux_ok m -> qemud_client_set_framing c framing m = Ret m' -> mux_ok m'.
Proof.
  intros Hu (x & Hx%client_Ret & E)%bind_Ret. injection E as <-. eapply ok_set_client; [done|..|done]; by destruct (_ && _).
Qed.

(** The services without a client, and without it in their lists. *)
Lemma remove_client_elem sv c m x : x ∈ mx_services (qemud_service_remove_client sv c m) <->
  exists y, y ∈ mx_services m /\ x = if decide (sv_id y = sv) then (if bool_decide (c ∈ sv_clients y) then set_sv_clients (num_clients y - 1) (filter (fun d => d <> c) (sv_clients y)) y else y) else y.
Proof. unfold qemud_service_remove_client, update_service. cbn. rewrite list_elem_of_fmap. split; intros (y & ? & ?); eauto. Qed.

Lemma update_ids sv f m : (forall x, sv_id (f x) = sv_id x) -> sv_id <$> mx_services (update_service sv f m) = sv_id <$> mx_services m.
Proof.
  intros Hf. unfold update_service. cbn. rewrite <- list_fmap_compose. apply list_fmap_ext. intros i x _. cbn. by destruct (decide _).
Qed.

Lemma length_filter_remove (c : nat) l : NoDup l -> c ∈ l -> Z.of_nat (length (filter (fun d => d <> c) l)) = Z.of_nat (length l) - 1.
Proof.
  induction 1 as [|d l Hd Hl IH]; intros Hc; [by apply not_elem_of_nil in Hc|]. rewrite filter_cons. destruct (decide (d <> c)) as [Hdc|Hdc].
  - apply elem_of_cons in Hc as [->|Hc]; [done|]. cbn [length]. specialize (IH Hc). lia.
  - apply dec_stable in Hdc as ->. cbn [length]. replace (filter (fun d => d <> c) l) with l; [lia|]. symmetry. clear -Hd. induction l as [|e l IH]; [done|].
    apply not_elem_of_cons in Hd as [Hce Hd]. rewrite filter_cons_True by done. by rewrite IH.
Qed.
(** [m'] is [m] without the client [c]. *)
Definition removed (c : nat) (x : QemudClient) m m' : Prop :=
  mx_heap m' = delete c (mx_heap m) /\ mx_next m' = mx_next m /\ mx_clients m' = filter (fun d => d <> c) (mx_clients m)
  /\ mx_services m' = match c_service x with Some sv => mx_services (qemud_service_remove_client sv c m) | None => mx_services m end
  /\ match pipe_link x with
     | Some p => exists q, mx_pipes m !! p = Some q /\ mx_pipes m' = <[p := mkPipe (hwpipe q) (pipe_service q) None]> (mx_pipes m)
     | None => mx_pipes m' = mx_pipes m
     end.

Lemma removed_service_elem c x m m' sv : mux_ok m -> mx_heap m !! c = Some x -> removed c x m m' -> sv ∈ mx_services m' ->
  exists sv0, sv0 ∈ mx_services m /\ sv_id sv = sv_id sv0 /\ (forall d, d ∈ sv_clients sv <-> d ∈ sv_clients sv0 /\ d <> c)
    /\ NoDup (sv_clients sv) /\ num_clients sv = Z.of_nat (length (sv_clients sv)).
Proof.
  intros (_ & _ & Hh & Hids & Hok & _) Hx (_ & _ & _ & Hs & _) Hin. rewrite Hs in Hin.
  assert (forall sv0, sv0 ∈ mx_services m -> c ∈ sv_clients sv0 -> c_service x = Some (sv_id sv0)) as Hown.
  { intros sv0 H0 Hc. destruct (Hok sv0 H0) as (_ & _ & _ & Hcl). destruct (Hcl c Hc) as (y & Hy & ?). congruence. }
  destruct (c_service x) as [i|] eqn:Ei; [apply remove_client_elem in Hin as (sv0 & H0 & ->)|exists sv]; [exists sv0; destruct (decide (sv_id sv0 = i)) as [<-|Hne]; [destruct (bool_decide_reflect (c ∈ sv_clients sv0)) as [Hc|Hc]|]|].
  - destruct (Hok sv0 H0) as (_ & Hnd & Hn & _). split_and!; [done..|intros d; cbn; rewrite list_elem_of_filter; tauto|cbn; by apply NoDup_filter|]. cbn. rewrite length_filter_remove by done. lia.
  - destruct (Hok sv0 H0) as (_ & Hnd & Hn & _). split_and!; [done..| |done|done]. intros d. split; [intros Hd; split; [done|by intros ->]|tauto].
  - destruct (Hok sv0 H0) as (_ & Hnd & Hn & _). split_and!; [done..| |done|done]. intros d. split; [intros Hd; split; [done|intros ->]|tauto]. specialize (Hown sv0 H0 Hd). congruence.
  - destruct (Hok sv Hin) as (_ & Hnd & Hn & _). split_and!; [done..| |done|done]. intros d. split; [intros Hd; split; [done|intros ->]|tauto]. by specialize (Hown sv Hin Hd).
Qed.

Lemma removed_services_ids c x m m' : removed c x m m' -> sv_id <$> mx_services m' = sv_id <$> mx_services m.
Proof. intros (_ & _ & _ & -> & _). destruct (c_service x); [|done]. apply update_ids. intros y. by destruct (bool_decide _). Qed.

(** A service of [m] is still there. *)
Lemma removed_service_kept c x m m' sv0 : mux_ok m -> mx_heap m !! c = Some x -> removed c x m m' -> sv0 ∈ mx_services m ->
  exists sv, sv ∈ mx_services m' /\ sv_id sv = sv_id sv0 /\ forall d, d ∈ sv_clients sv0 -> d <> c -> d ∈ sv_clients sv.
Proof.
  intros Hm Hx Hr H0. pose proof (removed_services_ids _ _ _ _ Hr) as Hids. assert (sv_id sv0 ∈ (sv_id <$> mx_services m')) as Hi by (rewrite Hids; by apply list_elem_of_fmap_2).
  apply list_elem_of_fmap in Hi as (sv & Esv & Hsv). exists sv. split_and!; [done|done|]. intros d Hd Hne. destruct (removed_service_elem c x m m' sv Hm Hx Hr Hsv) as (sv1 & H1 & E1 & Hcl & _).
  apply Hcl. split; [|done]. destruct Hm as (_ & _ & _ & Hnd & _). assert (sv1 = sv0) as ->; [|done]. apply list_elem_of_lookup_1 in H0 as [i Hi0], H1 as [j Hj1].
  assert (i = j) as ->; [|congruence]. eapply NoDup_lookup; [exact Hnd|rewrite list_lookup_fmap, Hi0; done|rewrite list_lookup_fmap, Hj1; cbn; congruence].
Qed.

Lemma removed_ok c x m m' : mux_ok m -> mx_heap m !! c = Some x -> removed c x m m' -> mux_ok m'.
Proof.
  intros Hm Hx Hr. pose proof Hm as (Hnd & Hin & Hh & Hids & Hok & Hpipe). pose proof Hr as (Eh & En & El & _ & Ep). split_and!.
  - rewrite El. by apply NoDup_filter.
  - intros d. rewrite El, Eh, list_elem_of_filter, Hin. destruct (decide (c = d)) as [->|]; [rewrite lookup_delete_eq; split; [tauto|by intros [? ?]]|rewrite lookup_delete_ne by done; naive_solver].
  - intros d z. rewrite Eh, lookup_delete_Some. intros [Hd Hz]. destruct (Hh d z Hz) as (Hlt & Hcl & Hs & Hp). unfold client_ok. rewrite En. split_and!; [done..| |].
    + intros i Hi. destruct (Hs i Hi) as (sv0 & H0 & <- & Hd0). destruct (removed_service_kept c x m m' sv0 Hm Hx Hr H0) as (sv & Hsv & Es & Hk). exists sv. eauto.
    + intros p Hp0. destruct (Hp p Hp0) as (q & Hq & Hqc). destruct (pipe_link x) as [p1|] eqn:E1; [|rewrite Ep; eauto]. destruct Ep as (q1 & Hq1 & ->).
      destruct (Hh c x Hx) as (_ & _ & _ & Hpx). destruct (Hpx p1 E1) as (q2 & Hq2 & Hqc2). assert (p1 <> p) as Hpp by (intros ->; congruence). exists q. by rewrite lookup_insert_ne.
  - by rewrite (removed_services_ids _ _ _ _ Hr).
  - intros sv Hsv. destruct (removed_service_elem c x m m' sv Hm Hx Hr Hsv) as (sv0 & H0 & E0 & Hcl & Hnd' & Hn). destruct (Hok sv0 H0) as (Hlt & _ & _ & Hc0). split.
    + rewrite E0. pose proof (f_equal length (removed_services_ids _ _ _ _ Hr)) as Hlen. rewrite !length_fmap in Hlen. by rewrite Hlen.
    + split_and!; [done..|]. intros d Hd. apply Hcl in Hd as [Hd Hne]. rewrite Eh, lookup_delete_ne, E0 by done. by apply Hc0.
  - intros p q d Hq Hd. rewrite Eh. assert (mx_pipes m !! p = Some q /\ pipe_link x <> Some p) as [Hq0 Hne].
    { destruct (pipe_link x) as [p1|]; [|by rewrite Ep in Hq]. destruct Ep as (q1 & Hq1 & Ep). rewrite Ep in Hq. destruct (decide (p1 = p)) as [->|]; [rewrite lookup_insert_eq in Hq; by injection Hq as <-|].
      rewrite lookup_insert_ne in Hq by done. split; [done|congruence]. }
    destruct (Hpipe p q d Hq0 Hd) as (z & Hz & Hzp). exists z. rewrite lookup_delete_ne; [done|]. intros <-. congruence.
Qed.

Lemma disconnect_removes c guest x m m' : mx_heap m !! c = Some x -> qemud_client_disconnect c guest m = Ret m' ->
  m' = m \/ (is_pipe_client x && negb guest = true /\ qemud_pipe_send c (chars "disconnect:00") m = Ret m') \/ removed c x m m'.
Proof.
  intros Hx (y & Hy%client_Ret & E)%bind_Ret. assert (y = x) as -> by congruence. destruct (nz (c_closing x)); [injection E as <-; by left|]. destruct (is_pipe_client x && negb guest); [by right; left|]. right; right.
  apply bind_Ret in E as (m1 & E1 & E).
  assert (mx_heap m1 = <[c := set_closing x]> (mx_heap m) /\ mx_next m1 = mx_next m /\ mx_clients m1 = filter (fun d => d <> c) (mx_clients m) /\ mx_services m1 = mx_services m
    /\ match pipe_link x with Some p => exists q, mx_pipes m !! p = Some q /\ mx_pipes m1 = <[p := mkPipe (hwpipe q) (pipe_service q) None]> (mx_pipes m) | None => mx_pipes m1 = mx_pipes m end) as (Hh1 & Hn1 & Hl1 & Hs1 & Hp1).
  { unfold pipe_link. destruct (c_protocol x) as [l [p|]|k]; [|done|].
    - destruct (mx_pipes _ !! p) as [q|] eqn:Eq; [|done]. injection E1 as <-. split_and!; [done..|]. exists q. done.
    - destruct (0 <? k); by injection E1 as <-. }
  assert (mx_heap m' = delete c (mx_heap m1) /\ mx_next m' = mx_next m1 /\ mx_clients m' = mx_clients m1 /\ mx_pipes m' = mx_pipes m1
    /\ mx_services m' = match c_service x with Some sv => mx_services (qemud_service_remove_client sv c m1) | None => mx_services m1 end) as (Hh & Hn & Hl & Hp & Hs).
  { injection E as <-. by destruct (c_close x), (c_service x). }
  unfold removed. rewrite Hh, Hh1, delete_insert_eq, Hn, Hl, Hp, Hs. split_and!; [done..| |done]. destruct (c_service x); [|done].
  unfold qemud_service_remove_client, update_service. cbn. by rewrite Hs1.
Qed.

Lemma disconnect_ok c guest m m' : mux_ok m -> qemud_client_disconnect c guest m = Ret m' -> mux_ok m'.
Proof.
  intros Hm E. pose proof E as (x & Hx%client_Ret & _)%bind_Ret. destruct (disconnect_removes c guest x m m' Hx E) as [->|[[_ E1]|Hr]]; [done|by eapply pipe_send_ok|by eapply removed_ok].
Qed.

Lemma run_call_ok m k m' : mux_ok m -> run_call m k = Ret m' -> mux_ok m'.
Proof.
  destruct k as [d msg|d framing|d|sv msg]; cbn [run_call]; intros Hm.
  - by apply client_send_ok.
  - by apply set_framing_ok.
  - by apply disconnect_ok.
  - unfold qemud_service_broadcast. destruct (find _ _) as [y|]; [|done]. apply foldM_inv; [|done]. intros b a b' Hb. by apply client_send_ok.
Qed.

(** ** Connecting *)

(** No call gives a client another pipe. *)
Definition links_kept m m' : Prop := forall c x', mx_heap m' !! c = Some x' -> exists x, mx_heap m !! c = Some x /\ pipe_link x' = pipe_link x.

Lemma links_refl m m' : mx_heap m' = mx_heap m -> links_kept m m'.
Proof. intros E c x. rewrite E. eauto. Qed.

Lemma links_trans m1 m2 m3 : links_kept m1 m2 -> links_kept m2 m3 -> links_kept m1 m3.
Proof. intros H1 H2 c x3 (x2 & (x1 & ? & ?)%H1 & ?)%H2. exists x1. split; [done|congruence]. Qed.

Lemma links_set_client c x y m m' : mx_heap m' = mx_heap (set_client c y m) -> mx_heap m !! c = Some x -> pipe_link y = pipe_link x -> links_kept m m'.
Proof. intros E Hx Hy d z. rewrite E. cbn. destruct (decide (c = d)) as [->|]; [rewrite lookup_insert_eq; intros [= <-]; eauto|rewrite lookup_insert_ne by done; eauto]. Qed.

Lemma cache_buffer_links c msg m m' : qemud_pipe_cache_buffer c msg m = Ret m' -> links_kept m m'.
Proof.
  intros (x & Hx%client_Ret & E)%bind_Ret. destruct (c_protocol x) as [l p|] eqn:Ep; [|done]. cbv zeta in E. destruct (p ≫= _); [|done]. injection E as <-.
  eapply (links_set_client c x (set_protocol (QEMUD_PROTOCOL_PIPE (l ++ [mkPipeMessage msg 0]) p) x)); [done..|]. unfold pipe_link. cbn. by rewrite Ep.
Qed.

Lemma pipe_send_loop_links fuel c msglen framing msg len m m' : pipe_send_loop fuel c msglen framing msg len m = Ret m' -> links_kept m m'.
Proof.
  revert framing msg len m. induction fuel as [|fuel IH]; intros framing msg len m; cbn [pipe_send_loop]; (destruct (len <=? 0); [intros [= <-]; by apply links_refl|]); [done|].
  set (av := if MAX_SERIAL_PAYLOAD <? len then _ else _). intros (m1 & E1 & E2)%bind_Ret. assert (links_kept m m1) as Hu1 by (destruct framing; [by eapply cache_buffer_links|injection E1 as <-; by apply links_refl]).
  destruct framing; cbv beta iota in E2; apply bind_Ret in E2 as (m2 & E2 & E3); (eapply links_trans; [exact Hu1|]; eapply links_trans; [by eapply cache_buffer_links|by eapply IH]).
Qed.

Lemma pipe_send_links c msg m m' : qemud_pipe_send c msg m = Ret m' -> links_kept m m'.
Proof. intros (x & _ & E)%bind_Ret. cbv zeta in E. destruct (_ <=? 0); [injection E as <-; by apply links_refl|by eapply pipe_send_loop_links]. Qed.

Lemma client_send_links c msg m m' : qemud_client_send c msg m = Ret m' -> links_kept m m'.
Proof. intros (x & _ & E)%bind_Ret. destruct (c_protocol x); [by eapply pipe_send_links|]. injection E as <-. by apply links_refl. Qed.

Lemma foldM_links {A} (f : QemudMultiplexer W -> A -> outcome (QemudMultiplexer W)) l m m' : (forall m a m', f m a = Ret m' -> links_kept m m') -> foldM f m l = Ret m' -> links_kept m m'.
Proof.
  intros Hf. revert m. induction l as [|a l IH]; intros m; cbn [foldM]; [intros [= <-]; by apply links_refl|]. intros (m1 & E1 & E2)%bind_Ret. eapply links_trans; [by eapply Hf|by eapply IH].
Qed.

Lemma run_call_links m k m' : run_call m k = Ret m' -> links_kept m m'.
Proof.
  destruct k as [d msg|d framing|d|sv msg]; cbn [run_call].
  - apply client_send_links.
  - intros (x & Hx%client_Ret & E)%bind_Ret. injection E as <-. eapply links_set_client; [done..|]. by destruct (_ && _).
  - intros E. pose proof E as (x & Hx%client_Ret & _)%bind_Ret. destruct (disconnect_removes d false x m m' Hx E) as [->|[[_ E1]|Hr]]; [by apply links_refl|by eapply pipe_send_links|].
    intros c y. destruct Hr as (-> & _). rewrite lookup_delete_Some. intros [_ ?]. eauto.
  - unfold qemud_service_broadcast. destruct (find _ _) as [y|]; [|done]. apply foldM_links. intros. by eapply client_send_links.
Qed.

Lemma mux_alloc_ok ch param r cl m : mux_ok m -> mux_ok (qemud_client_alloc ch param r cl m).2.
Proof.
  intros (Hnd & Hin & Hh & Hids & Hok & Hpipe). unfold qemud_client_alloc, qemud_client_prepend, set_mx_clients. cbn [snd mx_clients mx_serial mx_heap mx_next mx_services mx_pipes mx_out mx_world]. set (x := mkClient _ _ _ _ _ _ _ _ _ _ _ _).
  assert (mx_heap m !! mx_next m = None) as Hn. { destruct (mx_heap m !! mx_next m) as [y|] eqn:E; [|done]. destruct (Hh _ _ E) as (? & _). lia. }
  assert (forall d, d ∈ mx_clients m -> d <> mx_next m) as Hne by (intros d [y Hy]%Hin ->; congruence).
  unfold mux_ok, client_ok, service_ok. cbn [mx_clients mx_heap mx_next mx_services mx_pipes]. split_and!.
  - constructor; [|done]. intros Hc. by apply (Hne _ Hc).
  - intros d. rewrite elem_of_cons, Hin. destruct (decide (d = mx_next m)) as [->|]; [rewrite lookup_insert_eq; split; [by eexists|by left]|rewrite lookup_insert_ne by done; naive_solver].
  - intros d z. destruct (decide (d = mx_next m)) as [->|]; [rewrite lookup_insert_eq; intros [= <-]|rewrite lookup_insert_ne by done; intros Hz].
    + split_and!; [lia|done|done|]. intros p. unfold pipe_link, x. cbn. by destruct (ch <? 0).
    + destruct (Hh d z Hz) as (? & ? & ? & ?). split_and!; [lia|done..].
  - done.
  - intros sv Hsv. destruct (Hok sv Hsv) as (? & ? & ? & Hc). split_and!; [done..|]. intros d Hd. destruct (Hc d Hd) as (y & Hy & ?). exists y. rewrite lookup_insert_ne; [done|]. intros <-. congruence.
  - intros p q d Hq Hd. destruct (Hpipe p q d Hq Hd) as (y & Hy & ?). exists y. rewrite lookup_insert_ne; [done|]. intros <-. congruence.
Qed.

Lemma add_client_elem sv f m y : y ∈ mx_services (update_service sv f m) <-> exists z, z ∈ mx_services m /\ y = if decide (sv_id z = sv) then f z else z.
Proof. unfold update_service. cbn. rewrite list_elem_of_fmap. split; intros (z & ? & ?); eauto. Qed.

Lemma add_client_ok sv c x m m' : mux_ok m -> mx_heap m !! c = Some x -> c_service x = None -> sv ∈ (sv_id <$> mx_services m) -> qemud_service_add_client sv c m = Ret m' -> mux_ok m'.
Proof.
  intros (Hnd & Hin & Hh & Hids & Hok & Hpipe) Hx Hs Hsv (y & Hy%client_Ret & E)%bind_Ret. assert (y = x) as -> by congruence. injection E as <-.
  set (f := fun s => set_sv_clients (num_clients s + 1) (c :: sv_clients s) s). set (m1 := set_client c (set_c_service (Some sv) x) m).
  assert (forall s, s ∈ mx_services m -> c ∉ sv_clients s) as Hc. { intros s Hi Hc. destruct (Hok s Hi) as (_ & _ & _ & Hcl). destruct (Hcl c Hc) as (z & Hz & ?). congruence. }
  assert (sv_id <$> mx_services (update_service sv f m1) = sv_id <$> mx_services m) as Hid by (by apply (update_ids sv f m1)).
  unfold mux_ok. rewrite Hid. split_and!; [done| |..]; cbn [mx_clients mx_heap mx_next mx_pipes update_service set_mx_services m1 set_client set_mx_heap].
  - intros d. rewrite (Hin d). destruct (decide (c = d)) as [->|]; [rewrite lookup_insert_eq, Hx; by split; intros; eexists|by rewrite lookup_insert_ne].
  - intros d z. intros Hz. assert (exists z0, mx_heap m !! d = Some z0 /\ c_closing z = c_closing z0 /\ pipe_link z = pipe_link z0 /\ c_service z = if decide (c = d) then Some sv else c_service z0) as (z0 & Hz0 & Hzc & Hzp & Hzs).
    { destruct (decide (c = d)) as [<-|]; [rewrite lookup_insert_eq in Hz; injection Hz as <-; eauto|rewrite lookup_insert_ne in Hz by done; eauto]. }
    destruct (Hh d z0 Hz0) as (Hlt & Hcl & Hsv0 & Hp0). unfold client_ok. rewrite Hzc, Hzp. split_and!; [done|done| |done]. intros i. rewrite Hzs. destruct (decide (c = d)) as [<-|].
    + intros [= <-]. apply list_elem_of_fmap in Hsv as (s0 & -> & Hs0). exists (f s0). split_and!; [|done|by left]. apply (add_client_elem (sv_id s0) f m1). exists s0. by rewrite decide_True.
    + intros Hi. destruct (Hsv0 i Hi) as (s0 & Hs0 & <- & Hd). exists (if decide (sv_id s0 = sv) then f s0 else s0). split_and!; [apply (add_client_elem sv f m1); eauto|by destruct (decide _)|destruct (decide _); [by right|done]].
  - done.
  - intros s (s0 & Hs0 & ->)%(add_client_elem sv f m1). destruct (Hok s0 Hs0) as (Hlt & Hndc & Hn & Hcl). split.
    + replace (length (mx_services (update_service sv f m1))) with (length (mx_services m)) by (cbn; by rewrite length_fmap). by destruct (decide _).
    + specialize (Hc s0 Hs0). destruct (decide (sv_id s0 = sv)) as [<-|].
      * split_and!; [by constructor|cbn; lia|]. intros d Hd. cbn. apply elem_of_cons in Hd as [->|Hd]; [rewrite lookup_insert_eq; eauto|]. rewrite lookup_insert_ne by (by intros ->). by apply Hcl.
      * split_and!; [done..|]. intros d Hd. cbn. rewrite lookup_insert_ne by (by intros ->). by apply Hcl.
  - intros p q d Hq Hd. destruct (Hpipe p q d Hq Hd) as (z & Hz & Hzp). destruct (decide (c = d)) as [<-|]; [rewrite lookup_insert_eq; assert (z = x) as -> by congruence; eexists; split; [done|exact Hzp]|rewrite lookup_insert_ne by done; eauto].
Qed.

Lemma add_client_links sv c m m' : qemud_service_add_client sv c m = Ret m' -> links_kept m m'.
Proof. intros (x & Hx%client_Ret & E)%bind_Ret. injection E as <-. by eapply links_set_client. Qed.

Lemma connect_client_ok sv ch param m r m' : mux_ok m -> sv ∈ (sv_id <$> mx_services m) -> qemud_service_connect_client sv ch param m = Ret (r, m') ->
  mux_ok m' /\ forall c, r = Some c -> forall x, mx_heap m' !! c = Some x -> pipe_link x = None.
Proof.
  intros Hm Hsv. unfold qemud_service_connect_client. destruct (serv_connect _ _ _ _ _) as [w|w rc cl calls]; [intros [= <- <-]; split; [by eapply ok_same|done]|].
  intros ([c m1] & E1 & (m2 & E2 & E3)%bind_Ret)%bind_Ret. injection E3 as <- <-. unfold qemud_client_new in E1. set (rcv := if rc then ServiceRecv else NoRecv) in E1.
  pose proof (mux_alloc_ok ch param rcv cl (set_mx_world w m) ltac:(by eapply ok_same)) as Ha. destruct (qemud_client_alloc ch param rcv cl (set_mx_world w m)) as [c0 m0] eqn:Ea.
  apply bind_Ret in E1 as (m3 & E1 & E3). injection E3 as <- <-. cbn [snd] in Ha. unfold qemud_client_alloc, qemud_client_prepend, set_mx_clients in Ea. cbn in Ea. injection Ea as <- <-.
  assert (mux_ok m3) as H3. { eapply add_client_ok; [exact Ha|cbn; by rewrite lookup_insert_eq|done| |exact E1]. done. }
  split.
  - eapply foldM_inv; [|exact H3|exact E2]. intros b k b' Hb. by apply run_call_ok.
  - intros c [= <-] x Hx. destruct (foldM_links run_call calls m3 m2 run_call_links E2 _ x Hx) as (y & Hy & ->). destruct (add_client_links _ _ _ _ E1 _ y Hy) as (z & Hz & ->).
    cbn in Hz. rewrite lookup_insert_eq in Hz. injection Hz as <-. unfold pipe_link. cbn. by destruct (ch <? 0).
Qed.

Lemma find_service_id name m sv : qemud_service_find (mx_services m) name = Some sv -> sv_id sv ∈ (sv_id <$> mx_services m).
Proof. unfold qemud_service_find. intros [Hin _]%find_some. apply list_elem_of_fmap_2. by apply list_elem_of_In. Qed.

Lemma connect_ok name ch m r m' : mux_ok m -> qemud_multiplexer_connect name ch m = Ret (r, m') -> mux_ok m'.
Proof.
  intros Hm. unfold qemud_multiplexer_connect. destruct (qemud_service_find _ name) as [sv|] eqn:Ef; [|by intros [= <- <-]]. destruct (_ && _); [by intros [= <- <-]|].
  intros ([c m1] & E1 & E2)%bind_Ret. injection E2 as <- <-. by eapply connect_client_ok; [| |exact E1]; [|eapply find_service_id].
Qed.

Lemma mux_disconnect_ok ch m m' : mux_ok m -> qemud_multiplexer_disconnect ch m = Ret m' -> mux_ok m'.
Proof.
  intros Hm. unfold qemud_multiplexer_disconnect. destruct (find_channel ch m) as [c|] eqn:Ef; [|by intros [= <-]]. intros (x & Hx%client_Ret & E)%bind_Ret. eapply disconnect_ok; [|exact E].
  eapply ok_set_client; [done..| |done]. unfold find_channel in Ef. apply find_some in Ef as [_ Ho]. unfold on_channel in Ho. rewrite Hx in Ho. unfold pipe_link. by destruct (c_protocol x).
Qed.

(** What calls, connections and disconnections keep, and what does not depend on
    the sinks: everything that arrives keeps it. *)
Class Kept (P : QemudMultiplexer W -> Prop) := {
  kept_same m m' : mx_heap m' = mx_heap m -> mx_next m' = mx_next m -> mx_clients m' = mx_clients m -> mx_services m' = mx_services m -> mx_pipes m' = mx_pipes m -> P m -> P m';
  kept_set_client c x y m : mx_heap m !! c = Some x -> c_service y = c_service x -> c_closing y = c_closing x -> pipe_link y = pipe_link x -> P m -> P (set_client c y m);
  kept_call m k m' : P m -> run_call m k = Ret m' -> P m';
  kept_connect name ch m r m' : P m -> qemud_multiplexer_connect name ch m = Ret (r, m') -> P m';
  kept_disconnect ch m m' : P m -> qemud_multiplexer_disconnect ch m = Ret m' -> P m';
}.

Section kept.
Context (P : QemudMultiplexer W -> Prop) `{!Kept P}.

Lemma control_recv_keeps msg m m' : P m -> qemud_multiplexer_control_recv msg m = Ret m' -> P m'.
Proof.
  intros Hm. unfold qemud_multiplexer_control_recv. destruct (_ && _).
  { destruct (parse_connect (drop 8 msg)) as [[name ch]|]; [|by intros [= <-]]. intros ([r m1] & E1 & E2)%bind_Ret. injection E2 as <-. eapply (kept_same m1); [done..|]. by eapply kept_connect. }
  destruct (_ && _). { destruct (_ <=? 0); [by intros [= <-]|by apply kept_disconnect]. }
  destruct (_ && _); [|destruct (_ =? _); intros [= <-]; [done|by eapply (kept_same m)]]. unfold legacy_connect. destruct (parse_connect (drop 11 msg)) as [[name ch]|]; [|by intros [= <-]].
  destruct (_ && _); [by intros [= <-]|]. intros ([r m1] & E1 & E2)%bind_Ret. injection E2 as <-. eapply kept_connect; [|exact E1]. destruct (_ =? _); [by eapply (kept_same m)|done].
Qed.

Lemma deliver_keeps c r msg m m' : P m -> deliver c r msg m = Ret m' -> P m'.
Proof.
  intros Hm. destruct r; cbn [deliver]; [by apply control_recv_keeps| |by intros [= <-]]. destruct (clie_recv c msg (mx_world m)) as [w calls].
  apply foldM_inv; [|by eapply (kept_same m)]. intros b k b' Hb. by apply kept_call.
Qed.

Lemma client_payload_keeps rest c msg m m' : (forall msg m m', P m -> rest msg m = Ret m' -> P m') -> P m -> client_payload rest c msg m = Ret m' -> P m'.
Proof.
  intros Hr Hm (x & Hx%client_Ret & E)%bind_Ret. destruct (c_buff x) as [| |b]; try done. apply bind_Ret in E as ([[[full p] b'] msg'] & _ & E). destruct full; cbn [negb] in E.
  - cbv zeta in E. destruct (_ || _); [done|]. apply bind_Ret in E as (m1 & E1 & E2). eapply Hr; [|exact E2]. eapply deliver_keeps; [|exact E1]. by eapply kept_set_client.
  - injection E as <-. by eapply kept_set_client.
Qed.

Lemma client_recv_loop_keeps fuel c msg m m' : P m -> client_recv_loop fuel c msg m = Ret m' -> P m'.
Proof.
  revert msg m m'. induction fuel as [|fuel IH]; intros msg m m' Hm; cbn [client_recv_loop]; (destruct msg as [|b msg]; [by intros [= <-]|]); [done|].
  intros (x & Hx%client_Ret & E)%bind_Ret. destruct (nz (c_need_header x)); [|by eapply client_payload_keeps]. apply bind_Ret in E as ([[[full h] h0] msg'] & _ & E). destruct full; cbn [negb] in E.
  - cbv zeta in E. destruct (_ <=? 0); [eapply IH; [|exact E]|eapply client_payload_keeps; [exact IH| |exact E]]; by eapply kept_set_client.
  - injection E as <-. by eapply kept_set_client.
Qed.

Lemma client_recv_keeps fuel c msg m m' : P m -> qemud_client_recv fuel c msg m = Ret m' -> P m'.
Proof.
  intros Hm (x & Hx%client_Ret & E)%bind_Ret. destruct (negb _); [by eapply deliver_keeps|]. cbv zeta in E. destruct (_ && _); [by eapply deliver_keeps|by eapply client_recv_loop_keeps].
Qed.


Lemma serial_input_keeps fuel bytes m m' : P m -> qemud_serial_read (H := mux_host fuel) bytes m = Ret m' -> P m'.
Proof.
  apply (serial_read_keeps (H := mux_host fuel)); cbn; [intros ? m1 ?; by eapply (kept_same m1)|intros m1 ?; by eapply (kept_same m1)|]. intros ch msg m1 m2 H1. unfold qemud_multiplexer_serial_recv. destruct (find_channel ch m1); [by apply client_recv_keeps|by intros [= <-]].
Qed.
End kept.

#[export] Instance mux_ok_kept : Kept mux_ok.
Proof. split; [apply ok_same|apply ok_set_client|apply run_call_ok|apply connect_ok|apply mux_disconnect_ok]. Qed.

(** ** The limit of a service *)

Definition limit_ok m : Prop := forall sv, sv ∈ mx_services m -> 0 < max_clients sv -> num_clients sv <= max_clients sv.

(** No service has gained a client. *)
Definition shrinks m m' : Prop := forall sv', sv' ∈ mx_services m' -> exists sv, sv ∈ mx_services m /\ max_clients sv' = max_clients sv /\ num_clients sv' <= num_clients sv.

Lemma shrinks_same m m' : mx_services m' = mx_services m -> shrinks m m'.
Proof. intros E sv. rewrite E. eauto using Z.le_refl. Qed.

Lemma shrinks_limit m m' : shrinks m m' -> limit_ok m -> limit_ok m'.
Proof. intros Hs Hl sv' (sv & Hin & -> & Hn)%Hs Hp. specialize (Hl sv Hin Hp). lia. Qed.

(** Sending leaves the services and the pipes. *)
Definition same_lists m m' : Prop := mx_services m' = mx_services m /\ mx_pipes m' = mx_pipes m.

Lemma cache_buffer_lists c msg m m' : qemud_pipe_cache_buffer c msg m = Ret m' -> same_lists m m'.
Proof. intros (x & _ & E)%bind_Ret. destruct (c_protocol x) as [l p|]; [|done]. cbv zeta in E. destruct (p ≫= _); [|done]. by injection E as <-. Qed.

Lemma pipe_send_loop_lists fuel c msglen framing msg len m m' : pipe_send_loop fuel c msglen framing msg len m = Ret m' -> same_lists m m'.
Proof.
  revert framing msg len m. induction fuel as [|fuel IH]; intros framing msg len m; cbn [pipe_send_loop]; (destruct (len <=? 0); [by intros [= <-]|]); [done|].
  set (av := if MAX_SERIAL_PAYLOAD <? len then _ else _). intros (m1 & E1 & E2)%bind_Ret. assert (same_lists m m1) as [] by (destruct framing; [by eapply cache_buffer_lists|by injection E1 as <-]).
  destruct framing; cbv beta iota in E2; apply bind_Ret in E2 as (m2 & [? ?]%cache_buffer_lists & [? ?]%IH); split; congruence.
Qed.

Lemma pipe_send_lists c msg m m' : qemud_pipe_send c msg m = Ret m' -> same_lists m m'.
Proof. intros (x & _ & E)%bind_Ret. cbv zeta in E. destruct (_ <=? 0); [by injection E as <-|by eapply pipe_send_loop_lists]. Qed.

Lemma client_send_lists c msg m m' : qemud_client_send c msg m = Ret m' -> same_lists m m'.
Proof. intros (x & _ & E)%bind_Ret. destruct (c_protocol x); [by eapply pipe_send_lists|by injection E as <-]. Qed.

Lemma disconnect_shrinks c guest m m' : qemud_client_disconnect c guest m = Ret m' -> shrinks m m'.
Proof.
  intros E. pose proof E as (x & Hx%client_Ret & _)%bind_Ret. destruct (disconnect_removes c guest x m m' Hx E) as [->|[[_ E1]|(_ & _ & _ & Hs & _)]]; [by apply shrinks_same|by apply pipe_send_lists in E1 as [? _]; eapply shrinks_same|].
  intros sv'. rewrite Hs. destruct (c_service x) as [i|]; [|eauto using Z.le_refl]. intros (sv & Hin & ->)%remove_client_elem. exists sv. split; [done|]. destruct (decide _); [|split; lia]. destruct (bool_decide _); cbn; lia.
Qed.

Lemma run_call_limit m k m' : limit_ok m -> run_call m k = Ret m' -> limit_ok m'.
Proof.
  intros Hl. destruct k as [d msg|d framing|d|sv msg]; cbn [run_call].
  - intros [? _]%client_send_lists. eapply shrinks_limit; [by eapply shrinks_same|done].
  - intros (x & _ & E)%bind_Ret. by injection E as <-.
  - intros E. eapply shrinks_limit; [by eapply disconnect_shrinks|done].
  - unfold qemud_service_broadcast. destruct (find _ _) as [y|]; [|done]. apply foldM_inv; [|done]. intros b a b' Hb [? _]%client_send_lists. eapply shrinks_limit; [by eapply shrinks_same|done].
Qed.

Lemma connect_limit name ch m r m' : mux_ok m -> limit_ok m -> qemud_multiplexer_connect name ch m = Ret (r, m') -> limit_ok m'.
Proof.
  intros (_ & _ & _ & Hids & _) Hl. unfold qemud_multiplexer_connect. destruct (qemud_service_find _ name) as [sv|] eqn:Ef; [|by intros [= <- <-]].
  destruct ((0 <? max_clients sv) && (max_clients sv <=? num_clients sv)) eqn:Eg; [by intros [= <- <-]|]. intros ([c m1] & E1 & E2)%bind_Ret. injection E2 as _ <-. unfold qemud_service_connect_client in E1.
  destruct (serv_connect _ _ _ _ _) as [w|w rc cl calls]; [by injection E1 as <- <-|]. apply bind_Ret in E1 as ([c2 m2] & E1 & E2). apply bind_Ret in E2 as (m3 & E2 & E3). injection E3 as _ <-.
  eapply foldM_inv; [intros b k b' Hb; by apply run_call_limit| |exact E2]. unfold qemud_client_new, qemud_client_alloc, qemud_service_add_client in E1.
  apply bind_Ret in E1 as (m4 & E1 & E4). injection E4 as <- <-. apply bind_Ret in E1 as (x & _ & E1). injection E1 as <-. intros s (s0 & Hs0 & ->)%add_client_elem. cbn in Hs0.
  destruct (decide (sv_id s0 = sv_id sv)) as [Eid|]; [|by apply Hl]. cbn [max_clients num_clients set_sv_clients]. intros Hp.
  unfold qemud_service_find in Ef. apply find_some in Ef as [Hin%list_elem_of_In _]. assert (s0 = sv) as ->.
  { apply list_elem_of_lookup_1 in Hs0 as [i Hi], Hin as [j Hj]. assert (i = j) as ->; [|congruence]. eapply NoDup_lookup; [exact Hids|rewrite list_lookup_fmap, Hi; done|rewrite list_lookup_fmap, Hj; cbn; congruence]. }
  apply andb_false_iff in Eg as [Eg%Z.ltb_ge|Eg%Z.leb_gt]; lia.
Qed.

#[export] Instance limit_ok_kept : Kept (fun m => mux_ok m /\ limit_ok m).
Proof.
  split.
  - intros m m' Hh Hn Hc Hs Hp [Ho Hl]. split; [by eapply (ok_same m)|unfold limit_ok; by rewrite Hs].
  - intros c x y m Hx Hs Hc Hp [Ho Hl]. split; [by eapply ok_set_client|done].
  - intros m k m' [Ho Hl] E. split; [by eapply run_call_ok|by eapply run_call_limit].
  - intros name ch m r m' [Ho Hl] E. split; [by eapply connect_ok|by eapply connect_limit].
  - intros ch m m' [Ho Hl] E. split; [by eapply mux_disconnect_ok|]. revert E. unfold qemud_multiplexer_disconnect. destruct (find_channel ch m); [|by intros [= <-]].
    intros (x & _ & E)%bind_Ret. by eapply shrinks_limit; [eapply disconnect_shrinks|].
Qed.

(** ** Events *)

(** What happens to the multiplexer: bytes on the serial port, a service that
    acts on its own, the operations of pipes, a service that registers. *)
Inductive qemud_event :=
| SerialInput (bytes : list Z)
| ServiceActs (w : W) (calls : list client_call)
| PipeOpen (hw : Z) (args : list Z) (p : nat)
| PipeClose (p : nat)
| PipeWrite (p : nat) (buffers : list (list Z))
| PipeRead (p : nat) (sizes : list Z)
| Register (name : list Z) (max : Z).

(** A pipe gets memory that no other pipe has. *)
Definition qemud_step (fuel : nat) m (ev : qemud_event) : outcome (QemudMultiplexer W) :=
  match ev with
  | SerialInput bytes => qemud_serial_read (H := mux_host fuel) bytes m
  | ServiceActs w calls => foldM run_call (set_mx_world w m) calls
  | PipeOpen hw args p => match mx_pipes m !! p with Some _ => Ret m | None => snd <$> qemudPipe_init hw args p m end
  | PipeClose p => qemudPipe_closeFromGuest p m
  | PipeWrite p buffers => snd <$> qemudPipe_sendBuffers fuel p buffers m
  | PipeRead p sizes => snd <$> qemudPipe_recvBuffers p sizes m
  | Register name max => Ret (qemud_service_register name max m)
  end.

Lemma mux_init_ok w : mux_ok (qemud_multiplexer_init w) /\ limit_ok (qemud_multiplexer_init w).
Proof.
  split; [|intros sv Hsv; by apply not_elem_of_nil in Hsv]. unfold qemud_multiplexer_init. destruct qemud_serial_init as [s out]. apply mux_alloc_ok.
  unfold mux_ok. cbn. split_and!; try done; [constructor|intros c; by rewrite lookup_empty, elem_of_nil, is_Some_alt|constructor|intros sv Hsv; by apply not_elem_of_nil in Hsv].
Qed.

Lemma register_ok name max m : mux_ok m -> mux_ok (qemud_service_register name max m).
Proof.
  intros (Hnd & Hin & Hh & Hids & Hok & Hpipe). unfold mux_ok. cbn. split_and!; try done.
  - intros c x Hx. destruct (Hh c x Hx) as (? & ? & Hs & ?). split_and!; [done..| |done]. intros i Hi. destruct (Hs i Hi) as (sv & ? & ? & ?). exists sv. split_and!; [by right|done..].
  - constructor; [|done]. intros (sv & E & Hsv)%list_elem_of_fmap. destruct (Hok sv Hsv) as [? _]. lia.
  - intros sv [->|Hsv]%elem_of_cons.
    + split; [cbn; lia|]. split_and!; [constructor|done|]. intros c Hc. by apply not_elem_of_nil in Hc.
    + destruct (Hok sv Hsv) as [? ?]. split; [lia|done].
Qed.

Lemma register_limit name max m : limit_ok m -> limit_ok (qemud_service_register name max m).
Proof. intros Hl sv [->|Hsv]%elem_of_cons Hp; [cbn in *; lia|by apply Hl]. Qed.

(** ** The operations of pipes *)

Lemma run_call_pipe_free p m k m' : mx_pipes m !! p = None -> run_call m k = Ret m' -> mx_pipes m' !! p = None.
Proof.
  intros Hp. destruct k as [d msg|d framing|d|sv msg]; cbn [run_call].
  - intros [_ ->]%client_send_lists. done.
  - intros (x & _ & E)%bind_Ret. by injection E as <-.
  - intros E. pose proof E as (x & Hx%client_Ret & _)%bind_Ret. destruct (disconnect_removes d false x m m' Hx E) as [->|[[_ [_ ->]%pipe_send_lists]|(_ & _ & _ & _ & Ep)]]; [done|done|].
    destruct (pipe_link x) as [p1|]; [|by rewrite Ep]. destruct Ep as (q & Hq & ->). rewrite lookup_insert_ne; [done|]. intros ->. congruence.
  - unfold qemud_service_broadcast. destruct (find _ _) as [y|]; [|done]. apply (foldM_inv (fun m => mx_pipes m !! p = None)); [|done]. intros b a b' Hb [_ ->]%client_send_lists. done.
Qed.

Lemma connect_client_pipe_free p sv ch param m r m' : mx_pipes m !! p = None -> qemud_service_connect_client sv ch param m = Ret (r, m') -> mx_pipes m' !! p = None.
Proof.
  intros Hp. unfold qemud_service_connect_client. destruct (serv_connect _ _ _ _ _) as [w|w rc cl calls]; [by intros [= <- <-]|].
  intros ([c m1] & E1 & (m2 & E2 & E3)%bind_Ret)%bind_Ret. injection E3 as <- <-. eapply (foldM_inv (fun m => mx_pipes m !! p = None)); [intros; by eapply run_call_pipe_free| |exact E2].
  unfold qemud_client_new, qemud_client_alloc, qemud_service_add_client in E1. apply bind_Ret in E1 as (m3 & E1 & E3). apply bind_Ret in E1 as (x & _ & E1). injection E3 as <- <-. by injection E1 as <-.
Qed.

(** The pipe of a new connection. *)
Lemma link_pipe_ok hw sv p c x messages m : mux_ok m -> mx_pipes m !! p = None -> mx_heap m !! c = Some x -> pipe_link x = None ->
  mux_ok (set_client c (set_protocol (QEMUD_PROTOCOL_PIPE messages (Some p)) x) (set_mx_pipes (<[p := mkPipe hw sv (Some c)]> (mx_pipes m)) m)).
Proof.
  intros (Hnd & Hin & Hh & Hids & Hok & Hpipe) Hp Hx Hl. set (y := set_protocol _ x). unfold mux_ok. cbn [mx_clients mx_heap mx_next mx_services mx_pipes set_client set_mx_heap set_mx_pipes]. split_and!; try done.
  - intros d. rewrite (Hin d). destruct (decide (c = d)) as [->|]; [rewrite lookup_insert_eq, Hx; by split; intros; eexists|by rewrite lookup_insert_ne].
  - intros d z Hz. unfold client_ok. cbn [mx_next mx_services mx_pipes set_client set_mx_heap set_mx_pipes]. destruct (decide (c = d)) as [<-|].
    + rewrite lookup_insert_eq in Hz. injection Hz as <-. destruct (Hh c x Hx) as (? & ? & ? & _). split_and!; [done..|]. intros p'. cbn. intros [= <-]. rewrite lookup_insert_eq. eauto.
    + rewrite lookup_insert_ne in Hz by done. destruct (Hh d z Hz) as (? & ? & ? & Hlk). split_and!; [done..|]. intros p' (q & Hq & Hqd)%Hlk. exists q. rewrite lookup_insert_ne; [done|]. intros ->. congruence.
  - intros sv0 Hsv. destruct (Hok sv0 Hsv) as (? & ? & ? & Hcl). split; [done|]. split_and!; [done..|]. intros d Hd. destruct (Hcl d Hd) as (z & Hz & ?). cbn. destruct (decide (c = d)) as [<-|]; [rewrite lookup_insert_eq|rewrite lookup_insert_ne by done; eauto].
    assert (z = x) as -> by congruence. by exists y.
  - intros p' q d. destruct (decide (p = p')) as [<-|]; [rewrite lookup_insert_eq; intros [= <-] [= <-]; rewrite lookup_insert_eq; by exists y|]. rewrite lookup_insert_ne by done. intros Hq Hd.
    destruct (Hpipe p' q d Hq Hd) as (z & Hz & Hzl). exists z. rewrite lookup_insert_ne; [done|]. intros <-. congruence.
Qed.

Lemma pipe_init_ok hw args p m r m' : mux_ok m -> mx_pipes m !! p = None -> qemudPipe_init hw args p m = Ret (r, m') -> mux_ok m'.
Proof.
  intros Hm Hp. unfold qemudPipe_init. destruct (match strchr_split 58 args with Some _ => _ | None => _ end) as [name cargs]. destruct (qemud_service_find _ name) as [sv|] eqn:Ef; [|by intros [= <- <-]].
  intros ([c m1] & E1 & E2)%bind_Ret. destruct (connect_client_ok _ _ _ _ _ _ Hm (find_service_id _ _ _ Ef) E1) as [Hm1 Hlink]. destruct c as [c|]; [|by injection E2 as <- <-].
  apply bind_Ret in E2 as (x & Hx%client_Ret & E2). specialize (Hlink c eq_refl x Hx). destruct (c_protocol x) as [l q|]; [|done]. injection E2 as <- <-. apply link_pipe_ok; [done| |done|done]. by eapply connect_client_pipe_free.
Qed.

Lemma recv_buffers_ok p sizes m r m' : mux_ok m -> qemudPipe_recvBuffers p sizes m = Ret (r, m') -> mux_ok m' /\ mx_services m' = mx_services m.
Proof.
  intros Hm (q & _ & E)%bind_Ret. destruct (pipe_client q) as [c|]; [|by injection E as <- <-]. apply bind_Ret in E as (x & Hx%client_Ret & E). destruct (c_protocol x) as [[|msg l] pp|] eqn:Ep; [by injection E as <- <-| |done].
  destruct (match sizes with [] => _ | _ => _ end) as [bs l']. injection E as <- <-. split; [|done]. eapply ok_set_client; [done..| |done]. unfold pipe_link. cbn. by rewrite Ep.
Qed.

(** Every event keeps the lists in agreement; every event but the opening of a
    pipe keeps the limits. *)
Lemma step_ok fuel m ev m' : mux_ok m -> qemud_step fuel m ev = Ret m' -> mux_ok m' /\ ((forall hw args p, ev <> PipeOpen hw args p) -> limit_ok m -> limit_ok m').
Proof.
  intros Hm E. destruct ev as [bytes|w calls|hw args p|p|p buffers|p sizes|name max]; cbn [qemud_step] in E.
  - split; [by eapply (serial_input_keeps mux_ok)|]. intros _ Hl. eapply (serial_input_keeps (fun m => mux_ok m /\ limit_ok m)); [|exact E]. done.
  - assert (mux_ok (set_mx_world w m)) as Hw by (by eapply (ok_same m)). split; [eapply foldM_inv; [|exact Hw|exact E]; intros b k b' Hb; by apply run_call_ok|].
    intros _ Hl. eapply (foldM_inv limit_ok); [|exact (Hl : limit_ok (set_mx_world w m))|exact E]. intros b k b' Hb. by apply run_call_limit.
  - split; [|intros Hno; by destruct (Hno hw args p)]. destruct (mx_pipes m !! p) eqn:Ep; [by injection E as <-|]. apply bind_Ret in E as ([r m1] & E & E'). injection E' as <-. by eapply pipe_init_ok.
  - apply bind_Ret in E as (q & _ & E). destruct (pipe_client q); [|by injection E as <-]. split; [by eapply disconnect_ok|]. intros _ Hl. eapply shrinks_limit; [by eapply disconnect_shrinks|done].
  - apply bind_Ret in E as ([r m1] & E & E'). injection E' as <-. apply bind_Ret in E as (q & _ & E). destruct (pipe_client q) as [c|]; [|by injection E as <- <-]. apply bind_Ret in E as (m2 & E & E'). injection E' as <- <-.
    split; [by eapply (client_recv_keeps mux_ok)|]. intros _ Hl. eapply (client_recv_keeps (fun m => mux_ok m /\ limit_ok m)); [|exact E]. done.
  - apply bind_Ret in E as ([r m1] & E & E'). injection E' as <-. destruct (recv_buffers_ok _ _ _ _ _ Hm E) as [? Es]. split; [done|]. intros _ Hl. unfold limit_ok. cbn. by rewrite Es.
  - injection E as <-. split; [by apply register_ok|]. intros _ Hl. by apply register_limit.
Qed.
End invariant.

(** C14: the lists of the multiplexer never disagree. From its initialization,
    through any sequence of bytes on the serial port, actions of services,
    pipe operations and registrations that returns: the global list holds
    exactly the clients that are in memory, each once; every client is in the
    list of its service, every service counts exactly its clients, and a
    pipe's client points back to the pipe, so that no list and no pipe has a
    dangling pointer and guest reads and polls of pipes always return. While
    no pipe is opened, no service has more clients than its limit. *)
Theorem qemud_lists_agree {W} `{QemudServices W} (fuel : nat) (w : W) (evs : list (qemud_event (W := W))) (m : QemudMultiplexer W) :
  foldM (qemud_step fuel) (qemud_multiplexer_init w) evs = Ret m ->
  mux_ok m /\ (Forall (fun ev => forall hw args p, ev <> PipeOpen hw args p) evs -> limit_ok m)
  /\ forall p q sizes, mx_pipes m !! p = Some q -> (exists r, qemudPipe_recvBuffers p sizes m = Ret r) /\ exists flags, qemudPipe_poll p m = Ret flags.
Proof.
  intros E. assert (mux_ok m /\ (Forall (fun ev => forall hw args p, ev <> PipeOpen hw args p) evs -> limit_ok m)) as [Hm Hl].
  { destruct (mux_init_ok w) as [Hi Hli]. revert E Hi Hli. generalize (qemud_multiplexer_init w). induction evs as [|ev evs IH]; intros m0 E Hi Hli; [by injection E as <-|].
    apply bind_Ret in E as (m1 & E1 & E2). destruct (step_ok fuel m0 ev m1 Hi E1) as [H1 L1]. split.
    - clear Hli L1. revert E2 H1. clear. revert m1. induction evs as [|ev evs IH]; intros m1 E H1; [by injection E as <-|]. apply bind_Ret in E as (m2 & E1 & E2). eapply IH; [exact E2|]. by eapply step_ok.
    - intros [Hev Hevs]%Forall_cons. eapply IH; [exact E2|done|by apply L1|done]. }
  split_and!; [done..|]. intros p q sizes Hq. unfold qemudPipe_recvBuffers, qemudPipe_poll, pipe_of. rewrite Hq. cbn [mbind outcome_bind]. destruct (pipe_client q) as [c|] eqn:Ec; [|eauto].
  destruct Hm as (_ & _ & _ & _ & _ & Hpipe). destruct (Hpipe p q c Hq Ec) as (x & Hx & Hlk). unfold client. rewrite Hx. cbn [mbind outcome_bind]. unfold pipe_link in Hlk.
  destruct (c_protocol x) as [[|msg l] pp|]; [eauto| |done]. destruct (match sizes with [] => _ | _ => _ end). eauto.
Qed.

Definition example_events : list (qemud_event (W := list (list Z))) :=
  [Register (chars "echo") 1; SerialInput (packet_bytes QEMUD_VERSION_NORMAL (mkPacket 0 (chars "connect:echo:05")));
   SerialInput (packet_bytes QEMUD_VERSION_NORMAL (mkPacket 0 (chars "connect:echo:06"))); SerialInput (packet_bytes QEMUD_VERSION_NORMAL (mkPacket 5 (frame_bytes (chars "hello"))));
   SerialInput (packet_bytes QEMUD_VERSION_NORMAL (mkPacket 0 (chars "disconnect:05")))].

Lemma qemud_lists_agree_witness : exists m, foldM (qemud_step (H := echo_services) 0) (qemud_multiplexer_init []) example_events = Ret m /\ mx_world m = [chars "hello"] /\ mx_clients m = [0%nat] /\ mux_ok m /\ limit_ok m.
Proof.
  destruct (foldM (qemud_step (H := echo_services) 0) (qemud_multiplexer_init []) example_events) as [m| | | | |] eqn:E; [|by vm_compute in E..].
  exists m. split; [done|]. split; [|split].
  - assert (mx_world <$> foldM (qemud_step (H := echo_services) 0) (qemud_multiplexer_init []) example_events = Ret [chars "hello"]) as E1 by (by vm_compute). rewrite E in E1. by injection E1.
  - assert (mx_clients <$> foldM (qemud_step (H := echo_services) 0) (qemud_multiplexer_init []) example_events = Ret [0%nat]) as E1 by (by vm_compute). rewrite E in E1. by injection E1.
  - destruct (qemud_lists_agree (H := echo_services) 0 [] example_events m E) as (Hm & Hl & _). split; [done|]. apply Hl. by repeat constructor.
Defined.

(** A pipe is connected without a look at the limit. *)
Example pipe_open_passes_limit :
  (fun m => num_clients <$> mx_services m) <$> foldM (qemud_step (H := echo_services) 0) (qemud_multiplexer_init []) [Register (chars "echo") 1; PipeOpen 7 (chars "echo") 0; PipeOpen 8 (chars "echo:x") 1] = Ret [2].
Proof. by vm_compute. Qed.

(** ** Pipes deliver in order *)

(** The bytes that wait to be read. *)
Definition pending (l : list QemudPipeMessage) : list Z := concat ((fun g => drop (Z.to_nat (pm_offset g)) (pm_message g)) <$> l).
Definition messages_ok (l : list QemudPipeMessage) : Prop := Forall (fun g => 0 <= pm_offset g < Z.of_nat (length (pm_message g))) l.

Definition buffers_room (sizes : list Z) : Z := foldr Z.add 0 sizes.

Lemma buffers_room_nonneg sizes : Forall (fun n => 0 <= n) sizes -> 0 <= buffers_room sizes.
Proof. induction 1 as [|n sizes Hn _ IH]; [done|]. unfold buffers_room in *. cbn [foldr]. lia. Qed.

Lemma pipe_recv_loop_reads fuel size sizes l : messages_ok l -> 0 <= size -> Forall (fun n => 0 <= n) sizes -> (S (length sizes) + length l <= fuel)%nat ->
  let '(bs, l') := pipe_recv_loop fuel size sizes l in
  bs = take (Z.to_nat (size + buffers_room sizes)) (pending l) /\ pending l' = drop (Z.to_nat (size + buffers_room sizes)) (pending l) /\ messages_ok l'.
Proof.
  revert size sizes l. induction fuel as [|fuel IH]; intros size sizes l Hl Hs Hss Hf; [lia|]. pose proof (buffers_room_nonneg sizes Hss) as Hr. destruct l as [|g next]; [cbn; by rewrite take_nil, drop_nil|]. cbn [pipe_recv_loop].
  apply Forall_cons in Hl as [Hg Hnext]. set (rem := Z.of_nat (length (pm_message g)) - pm_offset g). set (k := Z.min rem size).
  assert (length (drop (Z.to_nat (pm_offset g)) (pm_message g)) = Z.to_nat rem) as Hlen by (rewrite length_drop; unfold rem; lia).
  assert (range (pm_message g) (pm_offset g) k = take (Z.to_nat k) (drop (Z.to_nat (pm_offset g)) (pm_message g))) as -> by done. cbn [pm_message pm_offset].
  set (d := drop (Z.to_nat (pm_offset g)) (pm_message g)) in *. assert (pending (g :: next) = d ++ pending next) as -> by done.
  set (l1 := if Z.of_nat (length (pm_message g)) =? pm_offset g + k then next else mkPipeMessage (pm_message g) (pm_offset g + k) :: next).
  assert (messages_ok l1 /\ pending l1 = drop (Z.to_nat k) (d ++ pending next) /\ take (Z.to_nat k) d = take (Z.to_nat k) (d ++ pending next) /\ (size = k \/ rem = k /\ l1 = next)) as (Hl1 & Hp1 & Ht & Hsk).
  { unfold l1. destruct (Z.eqb_spec (Z.of_nat (length (pm_message g))) (pm_offset g + k)) as [Ek|Ek].
    - assert (k = rem) as Hkr by (unfold rem in *; lia). replace (Z.to_nat k) with (length d) by lia. rewrite drop_app_length, take_app_length, take_ge by lia. split_and!; [done..|]. by right.
    - assert (size = k /\ k < rem) as [Hsk Hk] by (unfold k, rem in *; lia). rewrite drop_app_le, take_app_le by lia. split_and!; [constructor; [cbn; unfold rem in *; lia|done]| |done|by left].
      cbn [pending fmap list_fmap concat pm_offset pm_message]. unfold d. rewrite drop_drop. do 3 f_equal. lia. }
  assert (0 <= k) as Hk0 by (unfold k, rem in *; lia). assert (k <= size) as Hks by (unfold k; lia). assert ((length l1 <= S (length next))%nat) as Hll by (unfold l1; destruct (_ =? _); cbn; lia).
  rewrite Ht. clear Ht. revert Hp1. generalize (d ++ pending next). intros all Hp1. destruct (Z.eqb_spec k size) as [Eks|Hne].
  - destruct sizes as [|size' sizes]; [cbn [buffers_room foldr]; rewrite Z.add_0_r, <- Eks; done|]. apply Forall_cons in Hss as [Hs' Hss]. cbn [length] in Hf.
    pose proof (IH size' sizes l1 Hl1 Hs' Hss ltac:(cbn in *; lia)) as Hi. destruct (pipe_recv_loop fuel size' sizes l1) as [bs l2]. destruct Hi as (-> & -> & Hok). cbn [buffers_room foldr] in *. fold (buffers_room sizes) in *.
    replace (Z.to_nat (size + (size' + buffers_room sizes))) with (Z.to_nat k + Z.to_nat (size' + buffers_room sizes))%nat by lia. rewrite Hp1, drop_drop, <- take_take_drop. done.
  - destruct Hsk as [?|[Hrk Hl1n]]; [congruence|]. rewrite Hl1n in *. pose proof (IH (size - k) sizes next Hl1 ltac:(lia) Hss ltac:(cbn in *; lia)) as Hi. destruct (pipe_recv_loop fuel (size - k) sizes next) as [bs l2]. destruct Hi as (-> & -> & Hok).
    replace (Z.to_nat (size + buffers_room sizes)) with (Z.to_nat k + Z.to_nat (size - k + buffers_room sizes))%nat by lia. rewrite Hp1, drop_drop, <- take_take_drop. done.
Qed.

Section pipe.
Context {W : Type} `{QemudServices W} (c p : nat) (framing : bool).
Implicit Types m : QemudMultiplexer W.

(** The client is connected through the pipe, and [l] waits for the guest. *)
Definition piped (l : list QemudPipeMessage) m : Prop :=
  exists x q, mx_heap m !! c = Some x /\ c_protocol x = QEMUD_PROTOCOL_PIPE l (Some p) /\ nz (c_framing x) = framing
    /\ mx_pipes m !! p = Some q /\ pipe_client q = Some c /\ messages_ok l.

Lemma cache_buffer_piped msg l m : msg <> [] -> piped l m -> exists m', qemud_pipe_cache_buffer c msg m = Ret m' /\ piped (l ++ [mkPipeMessage msg 0]) m'.
Proof.
  intros Hne (x & q & Hx & Hp & Hf & Hq & Hc & Hl). unfold qemud_pipe_cache_buffer, client. rewrite Hx. cbn [mbind outcome_bind]. rewrite Hp. cbn [mbind option_bind mx_pipes set_client set_mx_heap]. rewrite Hq.
  eexists. split; [done|]. eexists _, q. cbn. rewrite lookup_insert_eq. split_and!; [done..|]. apply Forall_app. split; [done|]. repeat constructor; cbn; [lia|]. destruct msg; [done|cbn; lia].
Qed.

Lemma pending_snoc l msg : pending (l ++ [mkPipeMessage msg 0]) = pending l ++ msg.
Proof. unfold pending. rewrite fmap_app, concat_app. cbn. by rewrite app_nil_r. Qed.

Lemma pipe_send_loop_piped fuel msglen (fr : bool) msg l m : (length msg + (if fr then 4 else 0) <= fuel)%nat -> (fr = true -> msg <> []) -> piped l m ->
  exists l' m', pipe_send_loop fuel c msglen fr msg (Z.of_nat (length msg) + (if fr then 4 else 0)) m = Ret m' /\ piped l' m' /\ pending l' = pending l ++ (if fr then int2hex 4 msglen else []) ++ msg.
Proof.
  revert fr msg l m. induction fuel as [|fuel IH]; intros fr msg l m Hf Hne Hm; cbn [pipe_send_loop].
  { destruct fr; [lia|]. destruct msg; [|cbn in Hf; lia]. exists l, m. by rewrite !app_nil_r. }
  destruct (Z.leb_spec (Z.of_nat (length msg) + (if fr then 4 else 0)) 0) as [Hz|Hz].
  { destruct fr; [lia|]. destruct msg; [|cbn in Hz; lia]. exists l, m. by rewrite !app_nil_r. }
  set (len := Z.of_nat (length msg) + (if fr then 4 else 0)) in *. set (av := if MAX_SERIAL_PAYLOAD <? len then MAX_SERIAL_PAYLOAD else len).
  assert (0 < av <= len /\ (fr = true -> 4 < av)) as (Hav & Hfr).
  { unfold av, MAX_SERIAL_PAYLOAD. assert (fr = true -> 4 < len) as Hl by (intros ->; specialize (Hne eq_refl); destruct msg; [done|unfold len; cbn [length]; lia]).
    destruct (Z.ltb_spec 4000 len); [lia|]. split; [lia|done]. }
  pose (n := av - (if fr then 4 else 0)). assert (0 < n <= Z.of_nat (length msg)) as Hn by (unfold n, len in *; destruct fr; [specialize (Hfr eq_refl)|]; lia).
  assert (exists l1 m1, (if fr then qemud_pipe_cache_buffer c (int2hex (Z.to_nat FRAME_HEADER_SIZE) msglen) m else Ret m) = Ret m1 /\ piped l1 m1 /\ pending l1 = pending l ++ (if fr then int2hex 4 msglen else [])) as (l1 & m1 & -> & Hm1 & Hp1).
  { destruct fr; [|exists l, m; by rewrite app_nil_r]. destruct (cache_buffer_piped (int2hex 4 msglen) l m ltac:(done) Hm) as (m1 & E1 & Hm1). eexists _, m1. by rewrite pending_snoc. }
  cbn [mbind outcome_bind].
  assert ((if fr then (av - FRAME_HEADER_SIZE, len - FRAME_HEADER_SIZE) else (av, len)) = (n, Z.of_nat (length msg))) as -> by (unfold n, len, FRAME_HEADER_SIZE; destruct fr; f_equal; lia).
  assert (take (Z.to_nat n) msg <> []) as Hne1 by (intros E%(f_equal length); rewrite length_take in E; cbn in E; lia).
  destruct (cache_buffer_piped (take (Z.to_nat n) msg) l1 m1 Hne1 Hm1) as (m2 & -> & Hm2). cbn [mbind outcome_bind].
  destruct (IH false (drop (Z.to_nat n) msg) _ m2 ltac:(rewrite length_drop; destruct fr; lia) ltac:(done) Hm2) as (l3 & m3 & E3 & Hm3 & Hp3). exists l3, m3. split_and!; [|done|].
  - rewrite <- E3. f_equal. rewrite length_drop. lia.
  - rewrite Hp3, pending_snoc, Hp1, <- !app_assoc. cbn [app]. by rewrite take_drop.
Qed.

(** What is sent for a message. *)
Definition pipe_piece (msg : list Z) : list Z := match msg with [] => [] | _ => (if framing then int2hex 4 (Z.of_nat (length msg)) else []) ++ msg end.

Lemma send_piped msg l m : piped l m -> exists l' m', qemud_client_send c msg m = Ret m' /\ piped l' m' /\ pending l' = pending l ++ pipe_piece msg.
Proof.
  intros Hm. pose proof Hm as (x & q & Hx & Hp & Hf & _). unfold qemud_client_send, client. rewrite Hx. cbn [mbind outcome_bind]. rewrite Hp. unfold qemud_pipe_send, client. rewrite Hx. cbn [mbind outcome_bind].
  destruct msg as [|b msg]; [exists l, m; by rewrite app_nil_r|]. destruct (Z.leb_spec (Z.of_nat (length (b :: msg))) 0); [cbn in *; lia|]. rewrite Hf.
  destruct (pipe_send_loop_piped (length (b :: msg) + 4) (Z.of_nat (length (b :: msg))) framing (b :: msg) l m) as (l' & m' & E & Hm' & Hp'); [destruct framing; lia|done|done|].
  exists l', m'. split_and!; [|done|done]. rewrite <- E. f_equal. unfold FRAME_HEADER_SIZE. destruct framing; lia.
Qed.

Lemma read_piped sizes l m : Forall (fun n => 0 <= n) sizes -> piped l m -> exists n bs l' m', qemudPipe_recvBuffers p sizes m = Ret (n, bs, m') /\ piped l' m'
  /\ bs = take (Z.to_nat (buffers_room sizes)) (pending l) /\ pending l' = drop (Z.to_nat (buffers_room sizes)) (pending l) /\ n = (if decide (l = []) then PIPE_ERROR_AGAIN else Z.of_nat (length bs)).
Proof.
  intros Hs Hm. pose proof Hm as (x & q & Hx & Hp & Hf & Hq & Hc & Hl). unfold qemudPipe_recvBuffers, pipe_of. rewrite Hq. cbn [mbind outcome_bind]. rewrite Hc. unfold client. rewrite Hx. cbn [mbind outcome_bind]. rewrite Hp.
  destruct l as [|g l]; [exists PIPE_ERROR_AGAIN, [], [], m; cbn; by rewrite take_nil, drop_nil|]. set (all := g :: l) in *.
  assert (exists bs l', (match sizes with [] => ([], all) | size :: sizes => pipe_recv_loop (S (length sizes) + length all) size sizes all end) = (bs, l')
    /\ bs = take (Z.to_nat (buffers_room sizes)) (pending all) /\ pending l' = drop (Z.to_nat (buffers_room sizes)) (pending all) /\ messages_ok l') as (bs & l' & -> & Hbs & Hp' & Hl').
  { destruct sizes as [|size sizes]; [by eexists _, _|]. apply Forall_cons in Hs as [Hs Hss]. pose proof (pipe_recv_loop_reads (S (length sizes) + length all) size sizes all Hl Hs Hss ltac:(lia)) as Hr.
    destruct (pipe_recv_loop _ size sizes all) as [bs l']. by exists bs, l'. }
  eexists _, bs, l', _. split; [done|]. split_and!; [|done..]. eexists _, q. cbn. rewrite lookup_insert_eq. by split_and!.
Qed.

(** What the service sends to its client, and what the guest reads. *)
Inductive pipe_op := OpSend (msg : list Z) | OpRead (sizes : list Z).

(** The bytes read, and the multiplexer. *)
Fixpoint run_pipe (ops : list pipe_op) m : outcome (list Z * QemudMultiplexer W) :=
  match ops with
  | [] => Ret ([], m)
  | OpSend msg :: ops => m ← qemud_client_send c msg m; run_pipe ops m
  | OpRead sizes :: ops => '(_, bs, m) ← qemudPipe_recvBuffers p sizes m; '(rest, m) ← run_pipe ops m; Ret (bs ++ rest, m)
  end.

Definition sent_by (op : pipe_op) : list Z := match op with OpSend msg => pipe_piece msg | OpRead _ => [] end.
Definition op_sizes_ok (op : pipe_op) : Prop := match op with OpSend _ => True | OpRead sizes => Forall (fun n => 0 <= n) sizes end.
End pipe.


(** The multiplexer with a pipe client of the echo service. *)
Definition example_piped : QemudMultiplexer (list (list Z)) :=
  match foldM (qemud_step (H := echo_services) 0) (qemud_multiplexer_init []) [Register (chars "echo") 1; PipeOpen 7 (chars "echo") 0] with
  | Ret m => m
  | _ => qemud_multiplexer_init []
  end.

