(* ===== verification/QemudSnap.v ===== *)
(** Snapshots of the qemud multiplexer, android/hw-qemud.c: the link, the
    services, their clients and the pipes. *)
From stdpp Require Import strings gmap.
From S2P Require Import Prelude CStrings ByteStream QemuFile Qemud QemudMux QemudSpec QemudCalls QemudFrames.
Open Scope list_scope.

Section saving.
Context {F : Type} `{ByteWriter F}.

Definition qemud_sink_save (f : F) (ss : QemudSink) : F := qemu_put_be32 (qemu_put_be32 f (sk_used ss)) (sk_size ss).

Definition qemud_serial_save (f : F) (s : QemudSerial) : F :=
  let f := qemu_put_be32 f (qs_need_header s) in
  let f := qemu_put_be32 f (qs_overflow s) in
  let f := qemu_put_be32 f (qs_in_size s) in
  let f := qemu_put_be32 f (qs_in_channel s) in
  let f := qemu_put_be32 f (qs_version s) in
  let f := qemud_sink_save f (qs_header s) in
  let f := qemud_sink_save f (qs_payload s) in
  let f := qemu_put_be32 f (MAX_SERIAL_PAYLOAD + 1) in
  qemu_put_buffer f (qs_data0 s).

Definition qemud_service_save_name (f : F) (sv : QemudService) : F :=
  let len := Z.of_nat (length (sv_name sv)) + 1 in
  qemu_put_buffer (qemu_put_be32 f len) (sv_name sv ++ [0]).

(** "save framing configuration"; the buffer of the payload is read whenever
    its sink has a size. *)
Definition save_framing (f : F) (x : QemudClient) : outcome F :=
  let f := qemu_put_be32 f (c_framing x) in
  if negb (nz (c_framing x)) then Ret f else
  let f := qemu_put_be32 f (c_need_header x) in
  let f := qemu_put_be32 f FRAME_HEADER_SIZE in
  let f := qemu_put_buffer f (c_header0 x) in
  let f := qemud_sink_save f (c_payload x) in
  let size := sk_size (c_payload x) in
  if size <=? 0 then Ret (qemu_put_buffer f []) else
  match c_buff x with
  | Buff b => if Z.of_nat (length b) <? size then OutOfBounds else Ret (qemu_put_buffer f (range b 0 size))
  | BuffNull | BuffFreed => OutOfBounds
  end.

Definition save_pipe_message (f : F) (msg : QemudPipeMessage) : F :=
  let f := qemu_put_be32 f (Z.of_nat (length (pm_message msg))) in
  let f := qemu_put_be32 f (pm_offset msg) in
  qemu_put_buffer f (pm_message msg).

(** The callbacks of services and clients; one that is NULL writes nothing. *)
Context {W : Type} (serv_save clie_save : nat -> W -> F -> F).
Implicit Types m : QemudMultiplexer W.

Definition service (sv : nat) m : outcome QemudService :=
  match find (fun x => bool_decide (sv_id x = sv)) (mx_services m) with Some x => Ret x | None => OutOfBounds end.

Definition service_of (x : QemudClient) m : outcome QemudService := match c_service x with Some sv => service sv m | None => OutOfBounds end.

Definition qemud_serial_client_save (f : F) (c : nat) m : outcome F :=
  x ← client c m;
  sv ← service_of x m;
  let f := qemud_service_save_name f sv in
  let f := qemu_put_string f (c_param x) in
  let f := qemu_put_be32 f (match c_protocol x with QEMUD_PROTOCOL_SERIAL channel => channel | QEMUD_PROTOCOL_PIPE _ _ => 0 end) in
  save_framing (clie_save c (mx_world m) f) x.

Definition qemud_service_save m (f : F) (sv : QemudService) : F :=
  let f := qemud_service_save_name f sv in
  let f := qemu_put_be32 f (max_clients sv) in
  let f := qemu_put_be32 f (num_clients sv) in
  serv_save (sv_id sv) (mx_world m) f.

(** A serial client other than the control channel. *)
Definition saved_client m (c : nat) : bool :=
  match mx_heap m !! c with
  | Some x => match c_protocol x with QEMUD_PROTOCOL_SERIAL channel => 0 <? channel | QEMUD_PROTOCOL_PIPE _ _ => false end
  | None => false
  end.

Definition qemud_client_save_count (f : F) m : F := qemu_put_be32 f (Z.of_nat (length (List.filter (saved_client m) (mx_clients m)))).
Definition qemud_service_save_count (f : F) m : F := qemu_put_be32 f (Z.of_nat (length (mx_services m))).

Definition qemud_save (f : F) m : outcome F :=
  let f := qemud_serial_save f (mx_serial m) in
  let f := qemud_service_save_count f m in
  let f := foldl (qemud_service_save m) f (mx_services m) in
  let f := qemud_client_save_count f m in
  foldM (fun f c => if saved_client m c then qemud_serial_client_save f c m else Ret f) f (mx_clients m).

Definition qemudPipe_save (p : nat) (f : F) m : outcome F :=
  q ← pipe_of p m;
  match pipe_client q with
  | None => OutOfBounds
  | Some c =>
      x ← client c m;
      sv ← service_of x m;
      let f := qemud_service_save_name f sv in
      let f := qemu_put_string f (c_param x) in
      let f := match c_protocol x with QEMUD_PROTOCOL_PIPE messages _ => foldl save_pipe_message f messages | QEMUD_PROTOCOL_SERIAL _ => f end in
      let f := qemu_put_be32 f 0 in
      save_framing (clie_save c (mx_world m) f) x
  end.
End saving.

Section loading.
Context {G : Type} `{ByteReader G}.

Definition qemud_sink_load (g : G) : QemudSink * G :=
  let '(used, g) := qemu_get_be32 g in
  let '(size, g) := qemu_get_be32 g in
  (mkSink (s32 used) (s32 size), g).

Definition qemud_serial_load (g : G) (s : QemudSerial) : Z * QemudSerial * G :=
  let '(need_header, g) := qemu_get_be32 g in
  let '(overflow, g) := qemu_get_be32 g in
  let '(in_size, g) := qemu_get_be32 g in
  let '(in_channel, g) := qemu_get_be32 g in
  let '(version, g) := qemu_get_be32 g in
  let '(header, g) := qemud_sink_load g in
  let '(payload, g) := qemud_sink_load g in
  let s := mkSerial (s32 need_header) (s32 overflow) (s32 in_size) (s32 in_channel) version header payload (qs_data0 s) in
  let '(len, g) := qemu_get_be32 g in
  let len := s32 len in
  if MAX_SERIAL_PAYLOAD <? len - 1 then (- EIO, s, g) else
  let '(bytes, g) := qemu_get_buffer g len in
  let s := set_qs_header (qs_header s) (blit (qs_data0 s) 0 bytes) s in
  if negb (Z.of_nat (length bytes) =? len) then (- EIO, s, g) else (0, s, g).

(** The name as a C string; [android_alloc] leaves the emulator if it has no
    memory for the length. *)
Definition qemud_service_load_name (g : G) : outcome (option (list Z) * G) :=
  let '(name_len, g) := qemu_get_be32 g in
  let name_len := s32 name_len in
  if name_len <? 0 then ExitProcess else
  let '(bytes, g) := qemu_get_buffer g name_len in
  if negb (Z.of_nat (length bytes) =? name_len) then Ret (None, g) else
  match last bytes with
  | None => OutOfBounds
  | Some ch => Ret (if ch =? 0 then Some (cstr bytes) else None, g)
  end.

(** "load framing configuration" *)
Definition load_framing (g : G) (x : QemudClient) : outcome (Z * QemudClient * G) :=
  let '(framing, g) := qemu_get_be32 g in
  let x := set_c_framing (s32 framing) (c_need_header x) (c_buff x) x in
  if negb (nz (c_framing x)) then Ret (0, x, g) else
  let '(need_header, g) := qemu_get_be32 g in
  let x := set_c_framing (c_framing x) (s32 need_header) (c_buff x) x in
  let '(header_size, g) := qemu_get_be32 g in
  let header_size := s32 header_size in
  if FRAME_HEADER_SIZE <? header_size then Ret (- EIO, x, g) else
  let '(bytes, g) := qemu_get_buffer g header_size in
  let x := set_c_header (c_header x) (blit (c_header0 x) 0 bytes) x in
  if negb (Z.of_nat (length bytes) =? header_size) then Ret (- EIO, x, g) else
  let '(payload, g) := qemud_sink_load g in
  let x := set_c_payload (c_need_header x) payload (c_buff x) x in
  match c_buff x with
  | BuffFreed => OutOfBounds
  | _ =>
      let size := sk_size payload in
      if size =? 2 ^ 31 - 1 then SignedOverflow else
      if size <? -1 then ExitProcess else
      let '(bytes, g) := qemu_get_buffer g size in
      if negb (Z.of_nat (length bytes) =? size) then Ret (- EIO, set_c_payload (c_need_header x) payload BuffFreed x, g)
      else Ret (0, set_c_payload (c_need_header x) payload (Buff (bytes ++ [0])) x, g)
  end.

(** Until a message of no bytes. *)
Fixpoint load_pipe_message (fuel : nat) (g : G) : outcome (list QemudPipeMessage * G) :=
  let '(size, g) := qemu_get_be32 g in
  if negb (nz size) then Ret ([], g) else
  match fuel with
  | O => StillRunning
  | S fuel =>
      let '(offset, g) := qemu_get_be32 g in
      let '(bytes, g) := qemu_get_buffer g size in
      '(rest, g) ← load_pipe_message fuel g;
      Ret (mkPipeMessage (bytes ++ replicate (Z.to_nat size - length bytes) 0) offset :: rest, g)
  end.

Context {W : Type} `{QemudServices W} (serv_load clie_load : nat -> W -> G -> Z * W * G).
Implicit Types m : QemudMultiplexer W.

Definition qemud_service_load (g : G) m : outcome (Z * QemudMultiplexer W * G) :=
  '(name, g) ← qemud_service_load_name g;
  match name ≫= qemud_service_find (mx_services m) with
  | None => Ret (- EIO, m, g)
  | Some sv =>
      let '(max, g) := qemu_get_be32 g in
      let '(_, g) := qemu_get_be32 g in
      let m := update_service (sv_id sv) (fun x => mkService (sv_id x) (sv_name x) (s32 max) 0 (sv_clients x)) m in
      let '(ret, w, g) := serv_load (sv_id sv) (mx_world m) g in
      Ret (ret, set_mx_world w m, g)
  end.

Definition qemud_serial_client_load (g : G) m : outcome (Z * QemudMultiplexer W * G) :=
  '(name, g) ← qemud_service_load_name g;
  match name with
  | None => Ret (- EIO, m, g)
  | Some name =>
      let '(param, g) := qemu_get_string g in
      match qemud_service_find (mx_services m) name with
      | None => Ret (- EIO, m, g)
      | Some sv =>
          let '(channel, g) := qemu_get_be32 g in
          let channel := s32 channel in
          if channel =? 0 then Ret (- EIO, m, g) else
          '(c, m) ← qemud_service_connect_client (sv_id sv) channel param m;
          match c with
          | None => Ret (- EIO, m, g)
          | Some c =>
              let '(ret, w, g) := clie_load c (mx_world m) g in
              let m := set_mx_world w m in
              if nz ret then Ret (ret, m, g) else
              x ← client c m;
              '(ret, x, g) ← load_framing g x;
              Ret (ret, set_client c x m, g)
          end
      end
  end.

(** [for (i = 0; i < count; i++)], which ends with the first failure. *)
Fixpoint load_all (load : G -> QemudMultiplexer W -> outcome (Z * QemudMultiplexer W * G)) (count : nat) (g : G) m : outcome (Z * QemudMultiplexer W * G) :=
  match count with
  | O => Ret (0, m, g)
  | S count => '(ret, m, g) ← load g m; if nz ret then Ret (ret, m, g) else load_all load count g m
  end.

(** Disconnecting a serial client leaves the links of the others, so that the
    clients are those of the list at the start. *)
Definition qemud_multiplexer_disconnect_noncontrol m : outcome (QemudMultiplexer W) :=
  foldM (fun m c =>
    x ← client c m;
    match c_protocol x with
    | QEMUD_PROTOCOL_SERIAL channel => if 0 <? channel then qemud_client_disconnect c false (set_client c (set_protocol (QEMUD_PROTOCOL_SERIAL (-1)) x) m) else Ret m
    | QEMUD_PROTOCOL_PIPE _ _ => Ret m
    end) m (mx_clients m).

Definition qemud_load_services (g : G) m : outcome (Z * QemudMultiplexer W * G) :=
  let '(count, g) := qemu_get_be32 g in load_all qemud_service_load (Z.to_nat (s32 count)) g m.

Definition qemud_load_clients (g : G) m : outcome (Z * QemudMultiplexer W * G) :=
  m ← qemud_multiplexer_disconnect_noncontrol m;
  let '(count, g) := qemu_get_be32 g in load_all qemud_serial_client_load (Z.to_nat (s32 count)) g m.

Definition qemud_load (g : G) m : outcome (Z * QemudMultiplexer W * G) :=
  let '(ret, s, g) := qemud_serial_load g (mx_serial m) in
  let m := set_mx_serial s m in
  if nz ret then Ret (ret, m, g) else
  '(ret, m, g) ← qemud_load_services g m;
  if nz ret then Ret (ret, m, g) else
  qemud_load_clients g m.

(** The pipe [p] of the loaded client, or none. *)
Definition qemudPipe_load (fuel : nat) (hw : Z) (p : nat) (g : G) m : outcome (option nat * QemudMultiplexer W * G) :=
  '(name, g) ← qemud_service_load_name g;
  match name ≫= qemud_service_find (mx_services m) with
  | None => Ret (None, m, g)
  | Some sv =>
      let '(param, g) := qemu_get_string g in
      '(c, m) ← qemud_service_connect_client (sv_id sv) (-1) param m;
      match c with
      | None => Ret (None, m, g)
      | Some c =>
          '(messages, g) ← load_pipe_message fuel g;
          x ← client c m;
          let m := set_client c (set_protocol (QEMUD_PROTOCOL_PIPE messages None) x) m in
          let '(ret, w, g) := clie_load c (mx_world m) g in
          let m := set_mx_world w m in
          if nz ret then Ret (None, m, g) else
          x ← client c m;
          '(ret, x, g) ← load_framing g x;
          if nz ret then Ret (None, set_client c x m, g) else
          let x := match c_protocol x with QEMUD_PROTOCOL_PIPE messages _ => set_protocol (QEMUD_PROTOCOL_PIPE messages (Some p)) x | QEMUD_PROTOCOL_SERIAL _ => x end in
          Ret (Some p, set_client c x (set_mx_pipes (<[p := mkPipe hw (sv_id sv) (Some c)]> (mx_pipes m)) m), g)
      end
  end.
End loading.

(** ** The link survives *)

(** The fields have their widths, and the buffer its size. *)
Record link_fields_ok (s : QemudSerial) : Prop := {
  link_ints : Forall (in_s 32) [qs_need_header s; qs_overflow s; qs_in_size s; qs_in_channel s; sk_used (qs_header s); sk_size (qs_header s); sk_used (qs_payload s); sk_size (qs_payload s)];
  link_version : in_u 32 (qs_version s);
  link_buffer : length (qs_data0 s) = 4001%nat /\ Forall (in_u 8) (qs_data0 s);
}.

Definition sink_bytes (ss : QemudSink) : list Z := be32 (sk_used ss) ++ be32 (sk_size ss).
Definition link_bytes (s : QemudSerial) : list Z :=
  be32 (qs_need_header s) ++ be32 (qs_overflow s) ++ be32 (qs_in_size s) ++ be32 (qs_in_channel s) ++ be32 (qs_version s)
  ++ sink_bytes (qs_header s) ++ sink_bytes (qs_payload s) ++ be32 (MAX_SERIAL_PAYLOAD + 1) ++ qs_data0 s.

Section link_snapshot.
Context {F G : Type} `{WriterLaws F} `{ReaderLaws G}.

Lemma sink_save_emits (f : F) ss : w_ok f -> emits f (sink_bytes ss) (qemud_sink_save f ss).
Proof. intros Hf. pose proof (put_be32_emits f (sk_used ss) Hf) as Hu. eapply emits_trans; [exact Hu|]. apply put_be32_emits. by eapply emits_ok. Qed.

Lemma sink_load_consumes (g : G) ss l : in_s 32 (sk_used ss) -> in_s 32 (sk_size ss) -> r_ok g -> r_in g = sink_bytes ss ++ l -> exists g', qemud_sink_load g = (ss, g') /\ consumed l g'.
Proof.
  intros Hu Hs Hg E. unfold sink_bytes in E. rewrite <- app_assoc in E. unfold qemud_sink_load. destruct (get_be32_consumes g _ _ Hg E) as (g1 & -> & Hg1 & E1). destruct (get_be32_consumes g1 _ _ Hg1 E1) as (g2 & -> & Hc).
  exists g2. split; [|done]. rewrite !swrap_wrap_id by done. by destruct ss.
Qed.

Lemma serial_save_emits (f : F) s : w_ok f -> link_fields_ok s -> emits f (link_bytes s) (qemud_serial_save f s).
Proof.
  intros Hf [_ _ [_ Hb]]. pose proof (put_be32_emits f (qs_need_header s) Hf) as E1. pose proof (put_be32_emits _ (qs_overflow s) (emits_ok _ _ _ E1)) as E2.
  pose proof (put_be32_emits _ (qs_in_size s) (emits_ok _ _ _ E2)) as E3. pose proof (put_be32_emits _ (qs_in_channel s) (emits_ok _ _ _ E3)) as E4. pose proof (put_be32_emits _ (qs_version s) (emits_ok _ _ _ E4)) as E5.
  pose proof (sink_save_emits _ (qs_header s) (emits_ok _ _ _ E5)) as E6. pose proof (sink_save_emits _ (qs_payload s) (emits_ok _ _ _ E6)) as E7. pose proof (put_be32_emits _ (MAX_SERIAL_PAYLOAD + 1) (emits_ok _ _ _ E7)) as E8.
  pose proof (put_buffer_emits _ (qs_data0 s) (emits_ok _ _ _ E8) Hb) as E9.
  exact (emits_trans _ _ _ _ _ E1 (emits_trans _ _ _ _ _ E2 (emits_trans _ _ _ _ _ E3 (emits_trans _ _ _ _ _ E4 (emits_trans _ _ _ _ _ E5 (emits_trans _ _ _ _ _ E6 (emits_trans _ _ _ _ _ E7 (emits_trans _ _ _ _ _ E8 E9)))))))).
Qed.

Lemma serial_load_consumes (g : G) s s0 l : link_fields_ok s -> length (qs_data0 s0) = 4001%nat -> r_ok g -> r_in g = link_bytes s ++ l ->
  exists g', qemud_serial_load g s0 = (0, s, g') /\ consumed l g'.
Proof.
  intros [Hi Hv [Hl Hb]] Hl0 Hg E. repeat (apply Forall_cons in Hi as [? Hi]). unfold link_bytes in E. rewrite <- !app_assoc in E. unfold qemud_serial_load.
  destruct (get_be32_consumes g _ _ Hg E) as (g1 & -> & Hg1 & E1). destruct (get_be32_consumes g1 _ _ Hg1 E1) as (g2 & -> & Hg2 & E2). destruct (get_be32_consumes g2 _ _ Hg2 E2) as (g3 & -> & Hg3 & E3).
  destruct (get_be32_consumes g3 _ _ Hg3 E3) as (g4 & -> & Hg4 & E4). destruct (get_be32_consumes g4 _ _ Hg4 E4) as (g5 & -> & Hg5 & E5).
  destruct (sink_load_consumes g5 (qs_header s) _ ltac:(done) ltac:(done) Hg5 E5) as (g6 & -> & Hg6 & E6). destruct (sink_load_consumes g6 (qs_payload s) _ ltac:(done) ltac:(done) Hg6 E6) as (g7 & -> & Hg7 & E7).
  destruct (get_be32_consumes g7 _ _ Hg7 E7) as (g8 & -> & Hg8 & E8). change (s32 (u32 (MAX_SERIAL_PAYLOAD + 1))) with (Z.of_nat 4001). rewrite <- Hl.
  destruct (Z.ltb_spec MAX_SERIAL_PAYLOAD (Z.of_nat (length (qs_data0 s)) - 1)); [rewrite Hl in *; unfold MAX_SERIAL_PAYLOAD in *; lia|].
  destruct (get_buffer_consumes g8 _ _ Hg8 E8) as (g9 & -> & Hc). rewrite Z.eqb_refl. cbn [negb]. exists g9. split; [|done]. rewrite !swrap_wrap_id, (wrap_small 32 (qs_version s)) by done.
  unfold set_qs_header, blit. cbn [qs_need_header qs_overflow qs_in_size qs_in_channel qs_version qs_header qs_payload qs_data0 take Z.to_nat]. rewrite drop_ge, app_nil_r by (rewrite Hl, Hl0; done). by destruct s.
Qed.
End link_snapshot.

(** The link comes back from a snapshot as it was, in the middle of a packet
    too. *)
Theorem link_survives_snapshot {F G} `{WriterLaws F} `{ReaderLaws G} (f : F) (s s0 : QemudSerial) : w_ok f -> link_fields_ok s -> length (qs_data0 s0) = 4001%nat ->
  emits f (link_bytes s) (qemud_serial_save f s) /\ forall (g : G) rest, r_ok g -> r_in g = link_bytes s ++ rest -> exists g', qemud_serial_load g s0 = (0, s, g') /\ consumed rest g'.
Proof. intros Hf Hs Hl. split; [by apply serial_save_emits|]. intros g rest. by apply serial_load_consumes. Qed.

(** ** What does not survive *)

(** After a whole frame the buffer of the payload is freed, and the next
    snapshot reads it. *)
Lemma freed_payload_is_saved {F W} `{ByteWriter F} (clie_save : nat -> W -> F -> F) (f : F) c x (m : QemudMultiplexer W) : mx_heap m !! c = Some x -> nz (c_framing x) = true ->
  c_buff x = BuffFreed -> 0 < sk_size (c_payload x) -> (exists sv, service_of x m = Ret sv) -> qemud_serial_client_save clie_save f c m = OutOfBounds.
Proof.
  intros Hx Hf Hb Hs [sv Hsv]. unfold qemud_serial_client_save, client. rewrite Hx. cbn [mbind outcome_bind]. rewrite Hsv. cbn [mbind outcome_bind]. unfold save_framing. rewrite Hf. cbn [negb].
  destruct (Z.leb_spec (sk_size (c_payload x)) 0); [lia|]. by rewrite Hb.
Qed.

(** So that a guest's first message to a service that uses frames stands in the
    way of every later snapshot. *)
Example snapshot_after_message :
  (m ← qemud_serial_read (H := mux_host (H := echo_services) 0) (packet_bytes QEMUD_VERSION_NORMAL (mkPacket 5 (frame_bytes (chars "hello")))) example_mux;
   qemud_save (F := MemOut) (fun _ _ f => f) (fun _ _ f => f) (mem_out []) m) = OutOfBounds.
Proof. by vm_compute. Qed.

(** A snapshot of the multiplexer with one client of a service, loaded into the
    same multiplexer: the old client is counted off the service after its
    count has been set to 0. *)
Definition reloaded (m : QemudMultiplexer (list (list Z))) : outcome (Z * QemudMultiplexer (list (list Z))) :=
  f ← qemud_save (F := MemOut) (fun _ _ f => f) (fun _ _ f => f) (mem_out []) m;
  '(ret, m, _) ← qemud_load (G := MemIn) (H0 := echo_services) (fun _ w g => (0, w, g)) (fun _ w g => (0, w, g)) (mem_in (mo_bytes f)) m;
  Ret (ret, m).

Example load_miscounts_clients : (fun '(ret, m) => (ret, (fun sv => (num_clients sv, length (sv_clients sv))) <$> mx_services m)) <$> reloaded example_mux = Ret (0, [(0, 1%nat)]).
Proof. by vm_compute. Qed.

(** The digits of a frame that have been read are in the snapshot, their number
    is not: the client takes the rest of the header for a new one. *)
Example load_forgets_header :
  (m ← qemud_serial_read (H := mux_host (H := echo_services) 0) (packet_bytes QEMUD_VERSION_NORMAL (mkPacket 5 (chars "00"))) example_mux;
   '(_, m) ← reloaded m;
   Ret ((fun c => sk_used <$> (c_header <$> mx_heap m !! c)) <$> mx_clients m)) = Ret [Some 0; Some 0].
Proof. by vm_compute. Qed.
