(* ===== verification/QemudChar.v ===== *)
(** The services of qemud that are character devices, the end of
    android/hw-qemud.c: the modem and the GPS are connected to the guest this
    way. *)
From stdpp Require Import strings gmap.
From S2P Require Import Prelude CStrings QemuFile Qemud QemudMux QemudSpec QemudCalls.
Open Scope list_scope.

(** The device on the other side of the charpipe: what was written to it, and
    the service whose clients get what it writes, once the handlers of the
    charpipe are set. *)
Record QemudCharService := mkCharService { cs_written : list Z; cs_service : option nat }.

(** [_qemud_char_client_recv], [_qemud_char_client_close] and
    [_qemud_char_service_connect]. Closing prints at most a message. *)
#[export] Instance char_services : QemudServices QemudCharService := {|
  serv_connect sv c channel param w := Accepted (mkCharService (cs_written w) (Some sv)) true true [];
  clie_recv c msg w := (mkCharService (cs_written w ++ msg) (cs_service w), []);
  clie_close c w := w;
  goldfish_pipe_wake hw flags w := w;
  modem_set_legacy w := w;
|}.

Definition qemud_char_service_can_read : Z := 8192.

(** Before the handlers are set the charpipe keeps the bytes. *)
Definition qemud_char_service_read (from : list Z) (m : QemudMultiplexer QemudCharService) : outcome (QemudMultiplexer QemudCharService) :=
  match cs_service (mx_world m) with
  | Some sv => qemud_service_broadcast sv from m
  | None => Ret m
  end.

Definition android_qemud_get_channel (name : list Z) (m : QemudMultiplexer QemudCharService) : QemudMultiplexer QemudCharService := qemud_service_register name 1 m.

(** ** Bytes in both directions *)

(** The device is connected to the client of the channel. *)
Definition char_client (c : nat) (ch : Z) (m : QemudMultiplexer QemudCharService) : Prop :=
  find_channel ch m = Some c /\ exists x, mx_heap m !! c = Some x /\ c_protocol x = QEMUD_PROTOCOL_SERIAL ch /\ nz (c_framing x) = false /\ c_recv x = ServiceRecv.

Definition written_to (bytes : list Z) (m : QemudMultiplexer QemudCharService) : QemudMultiplexer QemudCharService :=
  set_mx_world (mkCharService (cs_written (mx_world m) ++ bytes) (cs_service (mx_world m))) m.

Lemma char_client_receives fuel c ch data m : char_client c ch m -> qemud_multiplexer_serial_recv fuel ch data m = Ret (written_to data m).
Proof.
  intros (Hf & x & Hx & _ & Hfr & Hr). unfold qemud_multiplexer_serial_recv, qemud_client_recv, client. rewrite Hf, Hx. cbn [mbind outcome_bind]. by rewrite Hfr, Hr.
Qed.

(** Whatever the pieces in which the daemon's packets arrive, the device gets
    the bytes of the guest in their order. *)
Theorem char_service_gets_bytes (fuel c : nat) (v ch : Z) (m : QemudMultiplexer QemudCharService) (ps : list packet) (chunks : list (list Z)) :
  v <> QEMUD_VERSION_UNKNOWN -> link_idle v (mx_serial m) -> char_client c ch m -> Forall packet_ok ps -> Forall (fun p => p_channel p = ch) ps ->
  concat chunks = concat (packet_bytes v <$> ps) ->
  exists s, link_idle v s /\ foldM (fun m bytes => qemud_serial_read (H := mux_host fuel) bytes m) m chunks = Ret (set_mx_serial s (written_to (concat (p_data <$> ps)) m)).
Proof.
  intros Hv Hl Hc Hok Hch Hst. destruct (serial_reads_packets (H := mux_host fuel) v Hv chunks ps m Hok Hl Hst) as (s & Hs & ->). exists s. split; [done|].
  assert (foldM (fun m p => recv_func (SerialHost := mux_host fuel) (p_channel p) (p_data p) m) m ps = Ret (written_to (concat (p_data <$> ps)) m)) as ->; [|done].
  clear -Hc Hch. revert m Hc. induction Hch as [|p ps Hp _ IH]; intros m Hc; [cbn; unfold written_to; rewrite app_nil_r; by destruct m as [? ? ? ? ? ? ? []]|].
  cbn [foldM]. rewrite Hp. cbn [recv_func mux_host]. rewrite (char_client_receives fuel c) by done. cbn [mbind outcome_bind]. rewrite IH by done. unfold written_to. cbn. by rewrite app_assoc.
Qed.

(** What the device writes goes out to its client, in packets. *)
Theorem char_service_sends_bytes (c : nat) (ch : Z) (sv : QemudService) (from : list Z) (m : QemudMultiplexer QemudCharService) :
  char_client c ch m -> cs_service (mx_world m) = Some (sv_id sv) -> find (fun x => bool_decide (sv_id x = sv_id sv)) (mx_services m) = Some sv -> sv_clients sv = [c] ->
  0 <= ch < 256 -> from <> [] ->
  exists ps, qemud_char_service_read from m = Ret (write_out (concat (packet_bytes (qs_version (mx_serial m)) <$> ps)) m)
    /\ Forall packet_ok ps /\ Forall (fun p => p_channel p = ch) ps /\ concat (p_data <$> ps) = from.
Proof.
  intros (_ & x & Hx & Hp & Hf & _) Hw Hsv Hcl Hch Hne. destruct (send_packets (qs_version (mx_serial m)) ch false from Hch Hne) as (ps & E & Hps & Hcs & Hd). exists ps. split; [|done].
  unfold qemud_char_service_read, qemud_service_broadcast. rewrite Hw, Hsv, Hcl. cbn [foldM]. unfold qemud_client_send, client. rewrite Hx. cbn [mbind outcome_bind]. rewrite Hp, Hf. unfold serial_send. by rewrite E.
Qed.
