(* ===== verification/BootProps.v ===== *)
(** The boot properties, android/boot-properties.c: the list of system
    properties the emulated system sets on boot, and the service of qemud that
    sends them. *)
From stdpp Require Import strings gmap.
From S2P Require Import Prelude CStrings ByteStream QemuFile Qemud QemudMux QemudSpec QemudCalls QemudFrames.
Open Scope list_scope.

Definition PROPERTY_MAX_NAME : Z := 32.
Definition PROPERTY_MAX_VALUE : Z := 92.

Abbreviation BootProperty := (list Z).

(** The statics of the file: the list, whose tail pointer is its end, and
    [_inited]. *)
Record BootProperties := mkBoot { boot_properties : list BootProperty; inited : bool }.

Definition SERVICE_NAME : list Z := chars "boot-properties".

Definition is_list (msg : list Z) : bool := bool_decide (msg = chars "list").

(** [boot_property_client_recv] and [boot_property_service_connect]; closing is
    nothing. *)
#[export] Instance boot_services : QemudServices BootProperties := {|
  serv_connect sv c channel param w := Accepted w true false [CallSetFraming c 1];
  clie_recv c msg w := (w, if is_list msg then (CallSend c <$> boot_properties w) ++ [CallSend c [0]] else []);
  clie_close c w := w;
  goldfish_pipe_wake hw flags w := w;
  modem_set_legacy w := w;
|}.

Abbreviation M := (QemudMultiplexer BootProperties).
Implicit Types m : M.

Definition set_boot_properties (l : list BootProperty) m : M := set_mx_world (mkBoot l (inited (mx_world m))) m.

Definition boot_property_init_service m : M :=
  if inited (mx_world m) then m else qemud_service_register SERVICE_NAME 1 m.

(** Without the zero at the end. [memcpy] of a negative length leaves every
    object. *)
Definition boot_property_alloc (name : list Z) (namelen : Z) (value : list Z) (valuelen : Z) : outcome BootProperty :=
  if (namelen <? 0) || (valuelen <? 0) || (Z.of_nat (length name) <? namelen) || (Z.of_nat (length value) <? valuelen) then OutOfBounds
  else Ret (range name 0 namelen ++ [61] ++ range value 0 valuelen).

Definition boot_property_clear_all m : M := set_boot_properties [] m.

(** The zero that ends the string of [strchr] is found as well. *)
Definition reject : list Z := [32; 61; 36; 42; 63; 39; 34].
Definition rejected (c : Z) : bool := bool_decide (c ∈ reject ++ [0]).

Fixpoint name_check (fuel : nat) (name : list Z) (nn : Z) : outcome Z :=
  match fuel with
  | O => Ret 0
  | S fuel =>
      match name !! Z.to_nat nn with
      | None => OutOfBounds
      | Some c => if rejected c then Ret (-3) else name_check fuel name (nn + 1)
      end
  end.

Definition boot_property_add2 (name : list Z) (namelen : Z) (value : list Z) (valuelen : Z) m : outcome (Z * M) :=
  if PROPERTY_MAX_NAME <? namelen then Ret (-1, m) else
  if PROPERTY_MAX_VALUE <? valuelen then Ret (-2, m) else
  bad ← name_check (Z.to_nat namelen) name 0;
  if nz bad then Ret (bad, m) else
  let m := if inited (mx_world m) then m else
    let m := boot_property_init_service m in set_mx_world (mkBoot (boot_properties (mx_world m)) true) m in
  prop ← boot_property_alloc name namelen value valuelen;
  Ret (0, set_boot_properties (boot_properties (mx_world m) ++ [prop]) m).

(** C strings are their bytes before the zero. *)
Definition boot_property_add (name value : list Z) m : outcome (Z * M) :=
  boot_property_add2 name (Z.of_nat (length name)) value (Z.of_nat (length value)) m.

(** The warnings are only printed. *)
Definition boot_property_parse_option (param : list Z) m : outcome M :=
  match strchr_split 61 param with
  | None => Ret m
  | Some (name, value) =>
      let namelen := Z.of_nat (length name) in
      let valuelen := Z.of_nat (length param) - (namelen + 1) in
      '(_, m) ← boot_property_add2 param namelen value valuelen m; Ret m
  end.

(** ** Snapshots *)

Section saving.
Context {F : Type} `{ByteWriter F} (qemu_file_set_error : F -> Z -> F).

Definition boot_property_save_property (f : F) (p : BootProperty) : Z * F :=
  match strchr_split 61 p with
  | None => (-1, qemu_file_set_error f (- EINVAL))
  | Some (key, value) =>
      let key_buf_len := Z.of_nat (length key) + 1 in
      let f := qemu_put_be32 f key_buf_len in
      let f := qemu_put_buffer f (key ++ [0]) in
      let value_buf_len := Z.of_nat (length p) - key_buf_len + 1 in
      let f := qemu_put_be32 f value_buf_len in
      (0, qemu_put_buffer f (value ++ [0]))
  end.

Definition boot_property_save_count (f : F) (l : list BootProperty) : F := qemu_put_be32 f (Z.of_nat (length l)).

Fixpoint save_properties (f : F) (l : list BootProperty) : F :=
  match l with
  | [] => f
  | p :: l => let '(ret, f) := boot_property_save_property f p in if nz ret then f else save_properties f l
  end.

Definition boot_property_save (f : F) m : F :=
  save_properties (boot_property_save_count f (boot_properties (mx_world m))) (boot_properties (mx_world m)).
End saving.

Section loading.
Context {G : Type} `{ByteReader G}.

(** The lengths are compared as [int], and one is subtracted from them
    unsigned. *)
Definition boot_property_load_property (g : G) m : outcome (Z * M * G) :=
  let '(key_buf_len, g) := qemu_get_be32 g in
  let '(key, g) := qemu_get_buffer g (s32 key_buf_len) in
  if negb (Z.of_nat (length key) =? s32 key_buf_len) then Ret (- EIO, m, g) else
  let '(value_buf_len, g) := qemu_get_be32 g in
  let '(value, g) := qemu_get_buffer g (s32 value_buf_len) in
  if negb (Z.of_nat (length value) =? s32 value_buf_len) then Ret (- EIO, m, g) else
  '(ret, m) ← boot_property_add2 key (s32 (u32 (key_buf_len - 1))) value (s32 (u32 (value_buf_len - 1))) m;
  if ret <? 0 then Ret (- EIO, m, g) else Ret (0, m, g).

Fixpoint load_properties (count : nat) (g : G) m : outcome (Z * M * G) :=
  match count with
  | O => Ret (0, m, g)
  | S count => '(ret, m, g) ← boot_property_load_property g m; if nz ret then Ret (ret, m, g) else load_properties count g m
  end.

Definition boot_property_load (g : G) m : outcome (Z * M * G) :=
  let m := boot_property_clear_all m in
  let '(property_count, g) := qemu_get_be32 g in
  load_properties (Z.to_nat property_count) g m.
End loading.

(** ** Adding properties *)

(** What a property of the list is: [<name>=<value>]. *)
Definition prop_bytes (name value : list Z) : BootProperty := name ++ 61 :: value.
Definition prop_name_ok (name : list Z) : Prop := Z.of_nat (length name) <= PROPERTY_MAX_NAME /\ Forall (fun c => rejected c = false) name.
Definition prop_ok (p : BootProperty) : Prop :=
  exists name value, p = prop_bytes name value /\ prop_name_ok name /\ Z.of_nat (length value) <= PROPERTY_MAX_VALUE /\ Forall (in_u 8) p.
Definition props_ok m : Prop := Forall prop_ok (boot_properties (mx_world m)).

(** The multiplexer with the service registered. *)
Definition with_service m : M :=
  if inited (mx_world m) then m else let m := boot_property_init_service m in set_mx_world (mkBoot (boot_properties (mx_world m)) true) m.

Lemma with_service_properties m : boot_properties (mx_world (with_service m)) = boot_properties (mx_world m).
Proof. unfold with_service, boot_property_init_service. by destruct (inited (mx_world m)) eqn:E. Qed.

(** What [boot_property_add2] returns. *)
Definition add_result (name value : list Z) : Z :=
  if PROPERTY_MAX_NAME <? Z.of_nat (length name) then -1 else if PROPERTY_MAX_VALUE <? Z.of_nat (length value) then -2 else
  if existsb rejected name then -3 else 0.

Lemma name_check_spec name t : forall done, name_check (length name) (done ++ name ++ t) (Z.of_nat (length done)) = Ret (if existsb rejected name then -3 else 0).
Proof.
  induction name as [|c name IH]; intros done; [by cbn|]. cbn [length name_check]. rewrite Nat2Z.id, lookup_app_r, Nat.sub_diag by lia. cbn [app lookup list_lookup existsb].
  destruct (rejected c); [done|]. specialize (IH (done ++ [c])). rewrite <- app_assoc, length_app, Nat2Z.inj_add in IH. exact IH.
Qed.

(** The strings may be followed by other bytes. *)
Lemma add2_spec name t value u m :
  boot_property_add2 (name ++ t) (Z.of_nat (length name)) (value ++ u) (Z.of_nat (length value)) m
  = Ret (add_result name value, if nz (add_result name value) then m else set_boot_properties (boot_properties (mx_world m) ++ [prop_bytes name value]) (with_service m)).
Proof.
  unfold boot_property_add2, add_result. destruct (PROPERTY_MAX_NAME <? _); [done|]. destruct (PROPERTY_MAX_VALUE <? _); [done|]. rewrite Nat2Z.id.
  pose proof (name_check_spec name t []) as En. change (Z.of_nat (length [])) with 0 in En. cbn [app] in En. rewrite En. cbn [mbind outcome_bind]. destruct (existsb rejected name); [done|]. cbn [nz negb Z.eqb]. fold (with_service m). unfold boot_property_alloc. rewrite !length_app, !Nat2Z.inj_add.
  repeat match goal with |- context [?a <? ?b] => destruct (Z.ltb_spec a b); [lia|] end. cbn [orb mbind outcome_bind]. rewrite !range_take, !take_app_length. by rewrite with_service_properties.
Qed.

Lemma add_spec name value m :
  boot_property_add name value m
  = Ret (add_result name value, if nz (add_result name value) then m else set_boot_properties (boot_properties (mx_world m) ++ [prop_bytes name value]) (with_service m)).
Proof. pose proof (add2_spec name [] value [] m) as E. by rewrite !app_nil_r in E. Qed.

Lemma add_result_0 name value : add_result name value = 0 <-> prop_name_ok name /\ Z.of_nat (length value) <= PROPERTY_MAX_VALUE.
Proof.
  unfold add_result, prop_name_ok. destruct (Z.ltb_spec PROPERTY_MAX_NAME (Z.of_nat (length name))); [split; [done|lia]|]. destruct (Z.ltb_spec PROPERTY_MAX_VALUE (Z.of_nat (length value))); [split; [done|lia]|].
  assert (existsb rejected name = false <-> Forall (fun c => rejected c = false) name) as Hr.
  { induction name as [|c name IH]; [done|]. cbn [existsb]. rewrite Forall_cons, orb_false_iff, <- IH; [done|cbn in *; lia]. }
  rewrite <- Hr. destruct (existsb rejected name); naive_solver lia.
Qed.

Lemma prop_bytes_ok name value : add_result name value = 0 -> forallb (fun c => (0 <=? c) && (c <? 2 ^ 8)) (prop_bytes name value) = true -> prop_ok (prop_bytes name value).
Proof.
  intros [Hn Hv]%add_result_0 Hb. exists name, value. split_and!; [done..|]. apply Forall_forall. intros c Hc. rewrite forallb_forall in Hb.
  specialize (Hb c ltac:(by apply list_elem_of_In)). unfold in_u. lia.
Qed.

Lemma add2_props_ok name t value u m m' ret : Forall (in_u 8) name -> Forall (in_u 8) value ->
  boot_property_add2 (name ++ t) (Z.of_nat (length name)) (value ++ u) (Z.of_nat (length value)) m = Ret (ret, m') -> props_ok m -> props_ok m'.
Proof.
  intros Hn Hv. rewrite add2_spec. intros [= <- <-] Hm. destruct (nz (add_result name value)) eqn:E; [done|]. apply nz_false, add_result_0 in E as [Hok Hl].
  unfold props_ok. cbn [mx_world set_boot_properties set_mx_world boot_properties]. apply Forall_app. split; [done|]. apply Forall_singleton. exists name, value. split_and!; [done..|]. apply Forall_app. split; [done|]. constructor; [unfold in_u; lia|done].
Qed.

(** ** The command line *)

Lemma strchr_split_Some ch l a b : strchr_split ch l = Some (a, b) -> l = a ++ ch :: b.
Proof.
  revert a. induction l as [|c l IH]; intros a; [done|]. cbn [strchr_split]. destruct (Z.eqb_spec c ch) as [->|]; [by intros [= <- <-]|]. destruct (c =? 0); [done|].
  destruct (strchr_split ch l) as [[a' b']|]; [|done]. intros [= <- <-]. cbn. by rewrite <- IH.
Qed.

Lemma strchr_split_app ch a b : Forall (fun c => c <> ch /\ c <> 0) a -> strchr_split ch (a ++ ch :: b) = Some (a, b).
Proof.
  induction 1 as [|c a [Hc H0] _ IH]; cbn [app strchr_split]; [by rewrite Z.eqb_refl|]. by rewrite (proj2 (Z.eqb_neq c ch)), (proj2 (Z.eqb_neq c 0)), IH.
Qed.

Lemma name_ok_split name value : prop_name_ok name -> strchr_split 61 (prop_bytes name value) = Some (name, value).
Proof.
  intros [_ Hn]. apply strchr_split_app. eapply Forall_impl; [exact Hn|]. intros c Hc%bool_decide_eq_false. unfold reject in Hc. set_solver.
Qed.

(** An option is a property, if [boot_property_add] takes it. *)
Theorem parse_option_adds name value m : prop_name_ok name -> boot_property_parse_option (prop_bytes name value) m = snd <$> boot_property_add name value m.
Proof.
  intros Hn. unfold boot_property_parse_option. rewrite (name_ok_split name value Hn), add_spec.
  assert (length (prop_bytes name value) = (length name + S (length value))%nat) as -> by (unfold prop_bytes; by rewrite length_app).
  replace (Z.of_nat (length name + S (length value)) - (Z.of_nat (length name) + 1)) with (Z.of_nat (length value)) by lia.
  pose proof (add2_spec name (61 :: value) value [] m) as E. rewrite app_nil_r in E. unfold prop_bytes at 1. by rewrite E.
Qed.

(** ** The list command *)

Lemma boot_polite c : polite_service c.
Proof.
  intros msg w. cbn [clie_recv boot_services]. destruct (is_list msg); [|constructor]. cbn [snd]. apply Forall_app. split; [|by repeat constructor]. by apply Forall_fmap, Forall_true.
Qed.

(** A client on the serial port sends its messages as packets, in order. *)
Lemma sends_write {W} `{QemudServices W} c ch x msgs : forall m : QemudMultiplexer W, mx_heap m !! c = Some x -> c_protocol x = QEMUD_PROTOCOL_SERIAL ch -> nz (c_framing x) = true ->
  foldM run_call m (CallSend c <$> msgs) = Ret (write_out (sent_bytes (qs_version (mx_serial m)) ch msgs) m).
Proof.
  induction msgs as [|msg msgs IH]; intros m Hx Hp Hf; [unfold write_out, sent_bytes; cbn; rewrite app_nil_r; by destruct m|].
  cbn [fmap list_fmap foldM run_call]. unfold qemud_client_send, client. rewrite Hx. cbn [mbind outcome_bind]. rewrite Hp, Hf. setoid_rewrite IH; [|done..].
  unfold serial_send, write_out, sent_bytes. cbn. by rewrite app_assoc.
Qed.

Lemma prop_frame_ok p : prop_ok p -> frame_ok p.
Proof.
  intros (name & value & -> & [Hn _] & Hv & _). unfold frame_ok, prop_bytes, PROPERTY_MAX_NAME, PROPERTY_MAX_VALUE in *. rewrite length_app. cbn [length]. lia.
Qed.


(** ** Snapshots *)

Definition saved_prop (p : BootProperty) : list Z :=
  match strchr_split 61 p with
  | Some (key, value) => be32 (Z.of_nat (length key) + 1) ++ (key ++ [0]) ++ be32 (Z.of_nat (length value) + 1) ++ value ++ [0]
  | None => []
  end.
Definition saved_props (l : list BootProperty) : list Z := be32 (Z.of_nat (length l)) ++ concat (saved_prop <$> l).

Section snapshot.
Context {F G : Type} `{WriterLaws F} `{ReaderLaws G} (set_error : F -> Z -> F).

Lemma prop_ok_bytes name value : Forall (in_u 8) (prop_bytes name value) -> Forall (in_u 8) (name ++ [0]) /\ Forall (in_u 8) (value ++ [0]).
Proof. intros [Hn Hv]%Forall_app. apply Forall_cons in Hv as [_ Hv]. split; (apply Forall_app; split; [done|]); repeat constructor; unfold in_u; lia. Qed.

Lemma save_property_emits (f : F) p : w_ok f -> prop_ok p -> exists f', boot_property_save_property set_error f p = (0, f') /\ emits f (saved_prop p) f'.
Proof.
  intros Hf (name & value & -> & Hn & _ & Hb). unfold boot_property_save_property, saved_prop. rewrite (name_ok_split name value Hn). apply prop_ok_bytes in Hb as [Hbn Hbv]. eexists. split; [done|].
  unfold prop_bytes. rewrite length_app. cbn [length]. replace (Z.of_nat (length name + S (length value)) - (Z.of_nat (length name) + 1) + 1) with (Z.of_nat (length value) + 1) by lia.
  pose proof (put_be32_emits f (Z.of_nat (length name) + 1) Hf) as E1. pose proof (put_buffer_emits _ (name ++ [0]) (emits_ok _ _ _ E1) Hbn) as E2.
  pose proof (put_be32_emits _ (Z.of_nat (length value) + 1) (emits_ok _ _ _ E2)) as E3. pose proof (put_buffer_emits _ (value ++ [0]) (emits_ok _ _ _ E3) Hbv) as E4.
  exact (emits_trans _ _ _ _ _ E1 (emits_trans _ _ _ _ _ E2 (emits_trans _ _ _ _ _ E3 E4))).
Qed.

Lemma save_emits (f : F) m : w_ok f -> props_ok m -> emits f (saved_props (boot_properties (mx_world m))) (boot_property_save set_error f m).
Proof.
  intros Hf Hm. unfold boot_property_save, boot_property_save_count, saved_props. pose proof (put_be32_emits f (Z.of_nat (length (boot_properties (mx_world m)))) Hf) as E. eapply emits_trans; [exact E|].
  apply emits_ok in E. revert E. generalize (qemu_put_be32 f (Z.of_nat (length (boot_properties (mx_world m))))). clear f Hf.
  induction Hm as [|p l Hp _ IH]; intros f Hf; [by apply emits_refl|]. cbn [save_properties fmap list_fmap concat]. destruct (save_property_emits f p Hf Hp) as (f' & -> & E). cbn [nz Z.eqb negb]. eapply emits_trans; [exact E|]. apply IH. by eapply emits_ok.
Qed.

Lemma length_word n : (n < 100)%nat -> s32 (u32 (Z.of_nat n + 1)) = Z.of_nat n + 1 /\ s32 (u32 (u32 (Z.of_nat n + 1) - 1)) = Z.of_nat n.
Proof. intros Hn. rewrite (wrap_small 32 (Z.of_nat n + 1)) by (unfold in_u; lia). rewrite Z.add_simpl_r, (wrap_small 32) by (unfold in_u; lia). split; apply swrap_small; unfold in_s; lia. Qed.

Lemma length_snoc_Z (l : list Z) b : Z.of_nat (length (l ++ [b])) = Z.of_nat (length l) + 1.
Proof. rewrite length_app. cbn [length]. lia. Qed.

Lemma load_property_consumes (g : G) p l m : prop_ok p -> r_ok g -> r_in g = saved_prop p ++ l ->
  exists g', boot_property_load_property g m = Ret (0, set_boot_properties (boot_properties (mx_world m) ++ [p]) (with_service m), g') /\ consumed l g'.
Proof.
  intros (name & value & -> & Hn & Hv & Hb) Hg E. unfold saved_prop in E. rewrite (name_ok_split name value Hn) in E. rewrite <- !app_assoc in E. pose proof Hn as [Hnl _]. unfold PROPERTY_MAX_NAME, PROPERTY_MAX_VALUE in *.
  destruct (length_word (length name) ltac:(lia)) as [En En']. destruct (length_word (length value) ltac:(lia)) as [Ev Ev'].
  unfold boot_property_load_property. destruct (get_be32_consumes g _ _ Hg E) as (g1 & -> & Hg1 & E1). rewrite En, En'. rewrite (app_assoc name [0]) in E1.
  destruct (get_buffer_consumes g1 _ _ Hg1 E1) as (g2 & Eg & Hg2 & E2). rewrite length_snoc_Z in Eg. rewrite Eg, length_snoc_Z, Z.eqb_refl. cbn [negb].
  destruct (get_be32_consumes g2 _ _ Hg2 E2) as (g3 & -> & Hg3 & E3). rewrite Ev, Ev'. rewrite (app_assoc value [0]) in E3.
  destruct (get_buffer_consumes g3 _ _ Hg3 E3) as (g4 & Eg4 & Hc). rewrite length_snoc_Z in Eg4. rewrite Eg4, length_snoc_Z, Z.eqb_refl. cbn [negb].
  rewrite add2_spec, (proj2 (add_result_0 name value)) by (unfold PROPERTY_MAX_VALUE; done). cbn [mbind outcome_bind]. eauto.
Qed.

Lemma load_properties_consumes ps : forall (g : G) l m, inited (mx_world m) = true -> Forall prop_ok ps -> r_ok g -> r_in g = concat (saved_prop <$> ps) ++ l ->
  exists g', load_properties (length ps) g m = Ret (0, set_boot_properties (boot_properties (mx_world m) ++ ps) m, g') /\ consumed l g'.
Proof.
  induction ps as [|p ps IH]; intros g l m Hi Hok Hg E; [exists g; split; [|done]; cbn; unfold set_boot_properties, set_mx_world; rewrite app_nil_r; by destruct m as [? ? ? ? ? ? ? []]|].
  apply Forall_cons in Hok as [Hp Hok]. cbn [fmap list_fmap concat] in E. rewrite <- app_assoc in E. cbn [length load_properties]. destruct (load_property_consumes g p _ m Hp Hg E) as (g1 & -> & Hg1 & E1). cbn [mbind outcome_bind nz Z.eqb negb].
  unfold with_service. rewrite Hi. destruct (IH g1 l (set_boot_properties (boot_properties (mx_world m) ++ [p]) m) Hi Hok Hg1 E1) as (g' & -> & Hc). exists g'. split; [|done]. unfold set_boot_properties. cbn. by rewrite <- app_assoc.
Qed.
End snapshot.

(** The properties come back from a snapshot, in their order, in place of those
    there were. *)
Theorem properties_survive_snapshot {F G} `{WriterLaws F} `{ReaderLaws G} (set_error : F -> Z -> F) (f : F) (m m0 : M) :
  w_ok f -> props_ok m -> Z.of_nat (length (boot_properties (mx_world m))) < 2 ^ 32 -> inited (mx_world m0) = true ->
  emits f (saved_props (boot_properties (mx_world m))) (boot_property_save set_error f m)
  /\ forall (g : G) rest, r_ok g -> r_in g = saved_props (boot_properties (mx_world m)) ++ rest ->
     exists g', boot_property_load g m0 = Ret (0, set_boot_properties (boot_properties (mx_world m)) m0, g') /\ consumed rest g'.
Proof.
  intros Hf Hm Hlen Hi. split; [by apply save_emits|]. intros g rest Hg E. unfold saved_props in E. rewrite <- app_assoc in E. unfold boot_property_load.
  destruct (get_be32_consumes g _ _ Hg E) as (g1 & -> & Hg1 & E1). rewrite (wrap_small 32) by (unfold in_u; lia). rewrite Nat2Z.id.
  destruct (load_properties_consumes _ g1 rest (boot_property_clear_all m0) Hi Hm Hg1 E1) as (g' & -> & Hc). eauto.
Qed.

(** ** The start of the emulator *)

(** [main] initializes the service before it adds a property, which registers
    it a second time. *)
Example service_registered_twice :
  (snd <$> boot_property_add (chars "qemu.hw.mainkeys") (chars "1") (boot_property_init_service (qemud_multiplexer_init (mkBoot [] false))))
  ≫= (fun m => Ret (sv_name <$> mx_services m)) = Ret [SERVICE_NAME; SERVICE_NAME].
Proof. by vm_compute. Qed.

(** A length of 0 in a snapshot. *)
Example empty_key_leaves_memory :
  boot_property_load (G := MemIn) (mem_in (be32 1 ++ be32 0 ++ be32 1 ++ [0])) (qemud_multiplexer_init (mkBoot [] true)) = OutOfBounds.
Proof. by vm_compute. Qed.

(** The multiplexer with two properties, once the daemon has connected a client
    on channel 5. *)
Definition boot_mux : M :=
  match ('(_, m) ← boot_property_add (chars "qemu.sf.lcd_density") (chars "160") (qemud_multiplexer_init (mkBoot [] false));
         m ← boot_property_parse_option (chars "dalvik.vm.heapsize=48m") m;
         qemud_serial_read (H := mux_host 0) (packet_bytes QEMUD_VERSION_NORMAL (mkPacket 0 (chars "connect:boot-properties:05"))) m) with
  | Ret m => m
  | _ => qemud_multiplexer_init (mkBoot [] false)
  end.

Lemma boot_mux_ok : props_ok boot_mux.
Proof.
  assert (boot_properties (mx_world boot_mux) = [prop_bytes (chars "qemu.sf.lcd_density") (chars "160"); prop_bytes (chars "dalvik.vm.heapsize") (chars "48m")]) as E by (by vm_compute).
  unfold props_ok. rewrite E. constructor; [|constructor; [|constructor]]; (apply prop_bytes_ok; by vm_compute).
Qed.

Lemma boot_mux_up : up 1 5 boot_mux.
Proof. split; [by vm_compute|]. split; [apply Nat.ltb_lt; by vm_compute|]. eexists. split_and!; [by vm_compute|by vm_compute..]. Qed.

