(* ===== verification/GoldfishPipe.v ===== *)
(** The goldfish pipe device, hw/android/goldfish/pipe.c: the guest opens
    channels, names the service of the emulator each is for, and moves bytes
    between its memory and the service; services wake the guest up. *)
From stdpp Require Import gmap strings.
From S2P Require Import Prelude CStrings ByteStream QemuFile Irq GoldfishDevice GoldfishTty GemTrace GuestMem Qemud QemudMux.
Open Scope list_scope.

Definition MAX_PIPE_SERVICE_NAME_SIZE : Z := 255.
Definition GOLDFISH_PIPE_SAVE_VERSION : Z := 3.
Definition GOLDFISH_PIPE_SAVE_VERSION_LEGACY : Z := 2.
Definition MAX_PIPE_SERVICES : Z := 8.

Definition PIPE_REG_COMMAND : Z := 0x00.
Definition PIPE_REG_STATUS : Z := 0x04.
Definition PIPE_REG_CHANNEL : Z := 0x08.
Definition PIPE_REG_SIZE : Z := 0x0c.
Definition PIPE_REG_ADDRESS : Z := 0x10.
Definition PIPE_REG_WAKES : Z := 0x14.
Definition PIPE_REG_PARAMS_ADDR_LOW : Z := 0x18.
Definition PIPE_REG_PARAMS_ADDR_HIGH : Z := 0x1c.
Definition PIPE_REG_ACCESS_PARAMS : Z := 0x20.
Definition PIPE_REG_CHANNEL_HIGH : Z := 0x30.
Definition PIPE_REG_ADDRESS_HIGH : Z := 0x34.

Definition PIPE_CMD_OPEN : Z := 1.
Definition PIPE_CMD_CLOSE : Z := 2.
Definition PIPE_CMD_POLL : Z := 3.
Definition PIPE_CMD_WRITE_BUFFER : Z := 4.
Definition PIPE_CMD_WAKE_ON_WRITE : Z := 5.
Definition PIPE_CMD_READ_BUFFER : Z := 6.
Definition PIPE_CMD_WAKE_ON_READ : Z := 7.

Definition PIPE_ERROR_INVAL : Z := -1.
Definition PIPE_ERROR_IO : Z := -4.

Definition PIPE_WAKE_CLOSED : Z := 1.
Definition PIPE_WAKE_WRITE : Z := 4.

(** ** Services and pipes *)

(** A buffer that is sent: the bytes that can be read from its address on, and
    the size it is given. *)
Record GoldfishPipeBuffer := mkPipeBuffer { b_data : list Z; b_size : Z }.

(** The bytes of [memcpy] from the buffer. *)
Definition buffer_bytes (b : GoldfishPipeBuffer) (off n : Z) : outcome (list Z) :=
  if (off <? 0) || (n <? 0) || (Z.of_nat (length (b_data b)) <? off + n) then OutOfBounds else Ret (range (b_data b) off n).

(** The initial state of a pipe. *)
Record PipeConnector := mkConnector { pcon_buffer : list Z; buffpos : Z }.

(** What [opaque] points to: a connector, or an object of a service. *)
Inductive pipe_opaque := Connector (c : PipeConnector) | Peer (n : nat).

(** What services call: [goldfish_pipe_wake] and [goldfish_pipe_close]. Nothing
    they or their caller look at before they return depends on it. *)
Inductive pipe_event := PipeWake (hwpipe : nat) (flags : Z) | PipeClose (hwpipe : nat).

(** The callbacks of a service whose objects are in a state [S]; snapshots are
    files [F] and [G]. For each buffer of [recvBuffers] there are the bytes
    stored in it. *)
Record GoldfishPipeFuncs (S F G : Type) := mkFuncs {
  pf_init : nat -> option (list Z) -> S -> outcome (option nat * S * list pipe_event);
  pf_close : pipe_opaque -> S -> outcome (S * list pipe_event);
  pf_sendBuffers : nat -> list GoldfishPipeBuffer -> S -> outcome (Z * S * list pipe_event);
  pf_recvBuffers : nat -> list Z -> S -> outcome (Z * list (list Z) * S * list pipe_event);
  pf_poll : nat -> S -> outcome Z;
  pf_wakeOn : nat -> Z -> S -> outcome (S * list pipe_event);
  pf_save : option (nat -> S -> F -> outcome F);
  pf_load : option (nat -> option (list Z) -> S -> G -> outcome (option nat * S * list pipe_event * G));
}.
Arguments mkFuncs {S F G} _ _ _ _ _ _ _ _.
Arguments pf_init {S F G} _.
Arguments pf_close {S F G} _.
Arguments pf_sendBuffers {S F G} _.
Arguments pf_recvBuffers {S F G} _.
Arguments pf_poll {S F G} _.
Arguments pf_wakeOn {S F G} _.
Arguments pf_save {S F G} _.
Arguments pf_load {S F G} _.

Record PipeService (S F G : Type) := mkPipeService { svc_name : list Z; svc_funcs : GoldfishPipeFuncs S F G }.
Arguments mkPipeService {S F G} _ _.
Arguments svc_name {S F G} _.
Arguments svc_funcs {S F G} _.

(** [funcs] are those of the service, or the connector's if there is none. *)
Record Pipe := mkPipe {
  p_chan : Z;
  p_opaque : pipe_opaque;
  p_service : option nat;
  p_args : option (list Z);
  p_wanted : Z;
  p_closed : Z;
}.

Definition set_p_opaque (o : pipe_opaque) (p : Pipe) : Pipe := mkPipe (p_chan p) o (p_service p) (p_args p) (p_wanted p) (p_closed p).
Definition set_p_service (sv : option nat) (a : option (list Z)) (p : Pipe) : Pipe := mkPipe (p_chan p) (p_opaque p) sv a (p_wanted p) (p_closed p).
Definition set_p_wanted (w : Z) (p : Pipe) : Pipe := mkPipe (p_chan p) (p_opaque p) (p_service p) (p_args p) w (p_closed p).
Definition set_p_closed (c : Z) (p : Pipe) : Pipe := mkPipe (p_chan p) (p_opaque p) (p_service p) (p_args p) (p_wanted p) c.

Definition pipeConnector_new : PipeConnector := mkConnector (replicate 128 0) 0.

Definition pipe_new (channel : Z) : Pipe := mkPipe channel (Connector pipeConnector_new) None None 0 0.

(** The registers. *)
Record pipe_regs := mkRegs { r_address : Z; r_size : Z; r_status : Z; r_channel : Z; r_wakes : Z; r_params_addr : Z }.

Definition set_r_address v r := mkRegs v (r_size r) (r_status r) (r_channel r) (r_wakes r) (r_params_addr r).
Definition set_r_size v r := mkRegs (r_address r) v (r_status r) (r_channel r) (r_wakes r) (r_params_addr r).
Definition set_r_status v r := mkRegs (r_address r) (r_size r) v (r_channel r) (r_wakes r) (r_params_addr r).
Definition set_r_channel v r := mkRegs (r_address r) (r_size r) (r_status r) v (r_wakes r) (r_params_addr r).
Definition set_r_wakes v r := mkRegs (r_address r) (r_size r) (r_status r) (r_channel r) v (r_params_addr r).
Definition set_r_params v r := mkRegs (r_address r) (r_size r) (r_status r) (r_channel r) (r_wakes r) v.

(** The device with the pipes in memory, the two lists linked through [next]
    and [next_waked], the services that are registered and their state, and
    what is behind the interrupt lines. *)
Record PipeDevice (S F G V : Type) := mkPipeDevice {
  pd_dev : goldfish_device;
  pd_heap : gmap nat Pipe;
  pd_next : nat;
  pd_pipes : list nat;
  pd_signaled : list nat;
  pd_regs : pipe_regs;
  pd_services : list (PipeService S F G);
  pd_state : S;
  pd_irq : V;
}.
Arguments mkPipeDevice {S F G V} _ _ _ _ _ _ _ _ _.
Arguments pd_dev {S F G V} _.
Arguments pd_heap {S F G V} _.
Arguments pd_next {S F G V} _.
Arguments pd_pipes {S F G V} _.
Arguments pd_signaled {S F G V} _.
Arguments pd_regs {S F G V} _.
Arguments pd_services {S F G V} _.
Arguments pd_state {S F G V} _.
Arguments pd_irq {S F G V} _.

Section device.
Context {S F G V W : Type} (pic : list (qemu_irq V)).
Context (io_mem_write : Z -> Z -> Z -> Z -> W -> W) (io_mem_read : Z -> Z -> Z -> W -> Z * W).
Context (TL PB : Z) (phys_page_find : Z -> option PhysPageDesc) (cpu_get_phys_page_debug : Z -> option Z) (env : cpu_regs).
(** The blocks of RAM, as their offsets and lengths. *)
Context (ram_blocks : list (Z * Z)) (goldfish_guest_is_64bit : bool).
Abbreviation D := (PipeDevice S F G V).
Abbreviation machine := (gmachine (W := W)).
Implicit Types d : D.

Definition set_pd_heap h d : D := mkPipeDevice (pd_dev d) h (pd_next d) (pd_pipes d) (pd_signaled d) (pd_regs d) (pd_services d) (pd_state d) (pd_irq d).
Definition set_pd_pipes l d : D := mkPipeDevice (pd_dev d) (pd_heap d) (pd_next d) l (pd_signaled d) (pd_regs d) (pd_services d) (pd_state d) (pd_irq d).
Definition set_pd_signaled l d : D := mkPipeDevice (pd_dev d) (pd_heap d) (pd_next d) (pd_pipes d) l (pd_regs d) (pd_services d) (pd_state d) (pd_irq d).
Definition set_pd_regs r d : D := mkPipeDevice (pd_dev d) (pd_heap d) (pd_next d) (pd_pipes d) (pd_signaled d) r (pd_services d) (pd_state d) (pd_irq d).
Definition set_pd_services l d : D := mkPipeDevice (pd_dev d) (pd_heap d) (pd_next d) (pd_pipes d) (pd_signaled d) (pd_regs d) l (pd_state d) (pd_irq d).
Definition set_pd_state s d : D := mkPipeDevice (pd_dev d) (pd_heap d) (pd_next d) (pd_pipes d) (pd_signaled d) (pd_regs d) (pd_services d) s (pd_irq d).
Definition set_pd_irq v d : D := mkPipeDevice (pd_dev d) (pd_heap d) (pd_next d) (pd_pipes d) (pd_signaled d) (pd_regs d) (pd_services d) (pd_state d) v.

(** [dev->status], an unsigned register. *)
Definition set_pipe_status (v : Z) d : D := set_pd_regs (set_r_status (u32 v) (pd_regs d)) d.

(** A freed pipe is outside of every object. *)
Definition the_pipe (n : nat) d : outcome Pipe := match pd_heap d !! n with Some p => Ret p | None => OutOfBounds end.
Definition set_pipe (n : nat) (p : Pipe) d : D := set_pd_heap (<[n := p]> (pd_heap d)) d.

(** ** Registration *)

(** [APANIC] ends the emulator. *)
Definition goldfish_pipe_add_type (name : list Z) (funcs : GoldfishPipeFuncs S F G) d : outcome D :=
  if MAX_PIPE_SERVICES <=? Z.of_nat (length (pd_services d)) then ExitProcess else
  if MAX_PIPE_SERVICE_NAME_SIZE <? Z.of_nat (length name) then ExitProcess else
  Ret (set_pd_services (pd_services d ++ [mkPipeService name funcs]) d).

(** [strcmp] with the names, in order: the number of the service. *)
Fixpoint find_type (services : list (PipeService S F G)) (nn : nat) (name : list Z) : option nat :=
  match services with
  | [] => None
  | sv :: services => if bool_decide (svc_name sv = name) then Some nn else find_type services (Datatypes.S nn) name
  end.
Definition goldfish_pipe_find_type (name : list Z) d : option nat := find_type (pd_services d) 0 name.

Definition the_service (n : nat) d : outcome (GoldfishPipeFuncs S F G) :=
  match pd_services d !! n with Some sv => Ret (svc_funcs sv) | None => OutOfBounds end.

(** ** Lists of pipes *)

(** The walks read each pipe on their way. *)
Fixpoint pipe_list_findp_channel (heap : gmap nat Pipe) (l : list nat) (channel : Z) : outcome (option nat) :=
  match l with
  | [] => Ret None
  | n :: l =>
      match heap !! n with
      | None => OutOfBounds
      | Some p => if p_chan p =? channel then Ret (Some n) else pipe_list_findp_channel heap l channel
      end
  end.

Fixpoint pipe_list_findp_waked (heap : gmap nat Pipe) (l : list nat) (pipe : nat) : outcome bool :=
  match l with
  | [] => Ret false
  | n :: l => if bool_decide (n = pipe) then Ret true else
      match heap !! n with None => OutOfBounds | Some _ => pipe_list_findp_waked heap l pipe end
  end.

(** The list without its first [pipe]. *)
Fixpoint remove_pipe (pipe : nat) (l : list nat) : list nat :=
  match l with
  | [] => []
  | n :: l => if bool_decide (n = pipe) then l else n :: remove_pipe pipe l
  end.

Definition pipe_list_remove_waked (pipe : nat) d : outcome D :=
  found ← pipe_list_findp_waked (pd_heap d) (pd_signaled d) pipe;
  Ret (if (found : bool) then set_pd_signaled (remove_pipe pipe (pd_signaled d)) d else d).

(** ** Waking the guest up *)

Definition set_pipe_irq (level : Z) d : outcome D := v ← or_abort (goldfish_device_set_irq pic (pd_dev d) 0 level (pd_irq d)); Ret (set_pd_irq v d).

(** [wanted] is an [unsigned char]. *)
Definition goldfish_pipe_wake (hwpipe : nat) (flags : Z) d : outcome D :=
  p ← the_pipe hwpipe d;
  found ← pipe_list_findp_waked (pd_heap d) (pd_signaled d) hwpipe;
  let d := if (found : bool) then d else set_pd_signaled (hwpipe :: pd_signaled d) d in
  set_pipe_irq 1 (set_pipe hwpipe (set_p_wanted (u8 (p_wanted p .| flags)) p) d).

Definition goldfish_pipe_close (hwpipe : nat) d : outcome D :=
  p ← the_pipe hwpipe d;
  if nz (p_closed p) then Ret d else goldfish_pipe_wake hwpipe PIPE_WAKE_CLOSED (set_pipe hwpipe (set_p_closed 1 p) d).

Definition run_pipe_event d (e : pipe_event) : outcome D :=
  match e with
  | PipeWake n flags => goldfish_pipe_wake n flags d
  | PipeClose n => goldfish_pipe_close n d
  end.

(** The state of the services after a callback, and its calls. *)
Definition after_call (s : S) (events : list pipe_event) d : outcome D := foldM run_pipe_event (set_pd_state s d) events.

(** ** The connector *)

(** [sizeof(pcon->buffer)] is unsigned: the position never passes it. *)
Fixpoint connector_fill (c : PipeConnector) (buffers : list GoldfishPipeBuffer) (ret : Z) : outcome (PipeConnector * Z) :=
  match buffers with
  | [] => Ret (c, ret)
  | b :: buffers =>
      if b_size b =? 0 then connector_fill c buffers ret else
      let avail := Z.min (128 - buffpos c) (b_size b) in
      if 0 <? avail then
        bytes ← buffer_bytes b 0 avail;
        connector_fill (mkConnector (blit (pcon_buffer c) (buffpos c) bytes) (buffpos c + avail)) buffers (ret + avail)
      else connector_fill c buffers ret
  end.

(** [<name>] or [<name>:<arguments>] after [pipe:], with the separator
    replaced by a zero, as the buffer of the connector stays; no arguments
    are NULL. *)
Definition connector_name (c : PipeConnector) : list Z * option (list Z) * PipeConnector :=
  let rest := drop 5 (pcon_buffer c) in
  match strchr_split 58 rest with
  | Some (name, args) => (name, match cstr args with [] => None | a => Some a end, mkConnector (blit (pcon_buffer c) (5 + Z.of_nat (length name)) [0]) (buffpos c))
  | None => (cstr rest, None, c)
  end.

Definition pipeConnector_sendBuffers (n : nat) (c : PipeConnector) (buffers : list GoldfishPipeBuffer) d : outcome (Z * D) :=
  p ← the_pipe n d;
  '(c, ret) ← connector_fill c buffers 0;
  let keep c := set_pipe n (set_p_opaque (Connector c) p) d in
  if negb (bool_decide (0 ∈ take (Z.to_nat (buffpos c)) (pcon_buffer c))) then Ret (ret, keep c) else
  if negb (bool_decide (take 5 (pcon_buffer c) = chars "pipe:")) then Ret (PIPE_ERROR_INVAL, keep c) else
  let '(pipeName, pipeArgs, c) := connector_name c in
  match goldfish_pipe_find_type pipeName d with
  | None => Ret (PIPE_ERROR_INVAL, keep c)
  | Some svc =>
      funcs ← the_service svc d;
      '(peer, s, events) ← pf_init funcs n pipeArgs (pd_state d);
      d ← after_call s events (keep c);
      match peer with
      | None => Ret (PIPE_ERROR_INVAL, d)
      | Some peer =>
          p ← the_pipe n d;
          Ret (ret, set_pipe n (set_p_service (Some svc) pipeArgs (set_p_opaque (Peer peer) p)) d)
      end
  end.

Definition pipeConnector_recvBuffers : Z := PIPE_ERROR_IO.
Definition pipeConnector_poll : Z := PIPE_POLL_OUT.

(** ** The callbacks of a pipe *)

(** The object of a service. Calling a service with a connector reads the
    members of another structure. *)
Definition peer_of (p : Pipe) : outcome nat := match p_opaque p with Peer n => Ret n | Connector _ => OutOfBounds end.
Definition connector_of (p : Pipe) : outcome PipeConnector := match p_opaque p with Connector c => Ret c | Peer _ => OutOfBounds end.

Definition pipe_send (n : nat) (buffers : list GoldfishPipeBuffer) d : outcome (Z * D) :=
  p ← the_pipe n d;
  match p_service p with
  | None => c ← connector_of p; pipeConnector_sendBuffers n c buffers d
  | Some sv => funcs ← the_service sv d; peer ← peer_of p; '(ret, s, ev) ← pf_sendBuffers funcs peer buffers (pd_state d); d ← after_call s ev d; Ret (ret, d)
  end.

Definition pipe_recv (n : nat) (sizes : list Z) d : outcome (Z * list (list Z) * D) :=
  p ← the_pipe n d;
  match p_service p with
  | None => Ret (pipeConnector_recvBuffers, [], d)
  | Some sv => funcs ← the_service sv d; peer ← peer_of p; '(ret, bufs, s, ev) ← pf_recvBuffers funcs peer sizes (pd_state d); d ← after_call s ev d; Ret (ret, bufs, d)
  end.

Definition pipe_poll (n : nat) d : outcome Z :=
  p ← the_pipe n d;
  match p_service p with
  | None => Ret pipeConnector_poll
  | Some sv => funcs ← the_service sv d; peer ← peer_of p; pf_poll funcs peer (pd_state d)
  end.

Definition pipe_wakeOn (n : nat) (flags : Z) d : outcome D :=
  p ← the_pipe n d;
  match p_service p with
  | None => Ret d
  | Some sv => funcs ← the_service sv d; peer ← peer_of p; '(s, ev) ← pf_wakeOn funcs peer flags (pd_state d); after_call s ev d
  end.

Definition pipe_free (n : nat) d : outcome D :=
  p ← the_pipe n d;
  d ← match p_service p with
      | None => c ← connector_of p; Ret d
      | Some sv => funcs ← the_service sv d; '(s, ev) ← pf_close funcs (p_opaque p) (pd_state d); after_call s ev d
      end;
  Ret (set_pd_heap (delete n (pd_heap d)) d).

(** ** Commands *)

(** [qemu_get_ram_ptr]: the offset in RAM and the end of its block. An address
    in no block is [abort]. *)
Definition qemu_get_ram_ptr (addr : Z) : outcome (Z * Z) :=
  match find (fun '(off, len) => u64 (addr - off) <? len) ram_blocks with
  | Some (off, len) => Ret (addr, off + len)
  | None => CpuAbort
  end.

(** The buffer of the two transfer commands, as an offset in RAM with the end
    of its block. A page without translation is at -1. *)
Definition guest_buffer d : outcome (Z * Z) :=
  let address := wrap TL (r_address (pd_regs d)) in
  let page := address .& TARGET_PAGE_MASK PB in
  let phys := u64 (default (-1) (cpu_get_phys_page_debug page)) in
  '(ptr, limit) ← qemu_get_ram_ptr phys;
  Ret (ptr + (address - page), limit).

Definition cmd_open d : D :=
  let n := pd_next d in
  set_pipe_status 0 (mkPipeDevice (pd_dev d) (<[n := pipe_new (r_channel (pd_regs d))]> (pd_heap d)) (Datatypes.S n) (n :: pd_pipes d) (pd_signaled d) (pd_regs d) (pd_services d) (pd_state d) (pd_irq d)).

(** The status stays. *)
Definition cmd_close (n : nat) d : outcome D :=
  d ← pipe_list_remove_waked n (set_pd_pipes (remove_pipe n (pd_pipes d)) d);
  pipe_free n d.

Definition cmd_read_buffer (n : nat) d (m : machine) : outcome (D * machine) :=
  '(ptr, limit) ← guest_buffer d;
  '(ret, bufs, d) ← pipe_recv n [r_size (pd_regs d)] d;
  let bytes := default [] (bufs !! 0%nat) in
  if nz (Z.of_nat (length bytes)) && (limit <? ptr + Z.of_nat (length bytes)) then OutOfBounds else
  Ret (set_pipe_status ret d, set_ram (ram_write (gm_ram m) ptr bytes) m).

(** At most [size] bytes are looked at. *)
Definition cmd_write_buffer (n : nat) d (m : machine) : outcome D :=
  '(ptr, limit) ← guest_buffer d;
  let size := r_size (pd_regs d) in
  '(ret, d) ← pipe_send n [mkPipeBuffer (ram_read (gm_ram m) ptr (Z.to_nat (Z.min size (limit - ptr)))) size] d;
  Ret (set_pipe_status ret d).

Definition cmd_wake_on (n : nat) (flag : Z) d : outcome D :=
  p ← the_pipe n d;
  d ← (if nz (p_wanted p .& flag) then Ret d else
        let wanted := p_wanted p .| flag in pipe_wakeOn n wanted (set_pipe n (set_p_wanted wanted p) d));
  Ret (set_pipe_status 0 d).

Definition pipeDevice_doCommand (command : Z) d (m : machine) : outcome (D * machine) :=
  lookup ← pipe_list_findp_channel (pd_heap d) (pd_pipes d) (r_channel (pd_regs d));
  match lookup with
  | None => Ret (if negb (command =? PIPE_CMD_OPEN) then set_pipe_status PIPE_ERROR_INVAL d else cmd_open d, m)
  | Some n =>
      p ← the_pipe n d;
      if nz (p_closed p) && negb (command =? PIPE_CMD_CLOSE) then Ret (set_pipe_status PIPE_ERROR_IO d, m)
      else if command =? PIPE_CMD_OPEN then Ret (set_pipe_status PIPE_ERROR_INVAL d, m)
      else if command =? PIPE_CMD_CLOSE then d ← cmd_close n d; Ret (d, m)
      else if command =? PIPE_CMD_POLL then status ← pipe_poll n d; Ret (set_pipe_status status d, m)
      else if command =? PIPE_CMD_READ_BUFFER then cmd_read_buffer n d m
      else if command =? PIPE_CMD_WRITE_BUFFER then d ← cmd_write_buffer n d m; Ret (d, m)
      else if command =? PIPE_CMD_WAKE_ON_READ then d ← cmd_wake_on n PIPE_WAKE_READ d; Ret (d, m)
      else if command =? PIPE_CMD_WAKE_ON_WRITE then d ← cmd_wake_on n PIPE_WAKE_WRITE d; Ret (d, m)
      else Ret (d, m)
  end.

(** ** Registers *)

(** [struct access_params] and [struct access_params_64], padded as the host
    does: the size, and the offsets and sizes of the members used. *)
Definition aps_size : Z := if goldfish_guest_is_64bit then 40 else 24.
Definition aps_channel (b : list Z) : Z := if goldfish_guest_is_64bit then le_value (range b 0 8) else le_value (range b 0 4).
Definition aps_sz (b : list Z) : Z := if goldfish_guest_is_64bit then le_value (range b 8 4) else le_value (range b 4 4).
Definition aps_address (b : list Z) : Z := if goldfish_guest_is_64bit then le_value (range b 16 8) else le_value (range b 8 4).
Definition aps_cmd (b : list Z) : Z := if goldfish_guest_is_64bit then le_value (range b 24 4) else le_value (range b 12 4).
Definition aps_result : Z := if goldfish_guest_is_64bit then 28 else 16.

Definition access_params d (m : machine) : outcome (D * machine) :=
  let r := pd_regs d in
  if r_params_addr r =? 0 then Ret (d, m) else
  '(aps, m) ← cpu_physical_memory_read io_mem_read PB phys_page_find env m (r_params_addr r) aps_size;
  let d := set_pd_regs (set_r_address (aps_address aps) (set_r_size (aps_sz aps) (set_r_channel (aps_channel aps) r))) d in
  let cmd := aps_cmd aps in
  if negb (cmd =? PIPE_CMD_READ_BUFFER) && negb (cmd =? PIPE_CMD_WRITE_BUFFER) then Ret (d, m) else
  '(d, m) ← pipeDevice_doCommand cmd d m;
  m ← cpu_physical_memory_write io_mem_write PB phys_page_find env m (r_params_addr (pd_regs d)) (blit aps aps_result (le_bytes 4 (r_status (pd_regs d))));
  Ret (d, m).

Definition pipe_dev_write (offset value : Z) d (m : machine) : outcome (D * machine) :=
  let r := pd_regs d in
  let reg r := Ret (set_pd_regs r d, m) in
  if offset =? PIPE_REG_COMMAND then pipeDevice_doCommand value d m
  else if offset =? PIPE_REG_SIZE then reg (set_r_size value r)
  else if offset =? PIPE_REG_ADDRESS then reg (set_r_address (uint64_set_low (r_address r) value) r)
  else if offset =? PIPE_REG_ADDRESS_HIGH then reg (set_r_address (uint64_set_high (r_address r) value) r)
  else if offset =? PIPE_REG_CHANNEL then reg (set_r_channel (uint64_set_low (r_channel r) value) r)
  else if offset =? PIPE_REG_CHANNEL_HIGH then reg (set_r_channel (uint64_set_high (r_channel r) value) r)
  else if offset =? PIPE_REG_PARAMS_ADDR_HIGH then reg (set_r_params ((r_params_addr r .& u64 (.~ u64 (0xFFFFFFFF .<< 32))) .| u64 (value .<< 32)) r)
  else if offset =? PIPE_REG_PARAMS_ADDR_LOW then reg (set_r_params ((r_params_addr r .& u64 (.~ 0xFFFFFFFF)) .| value) r)
  else if offset =? PIPE_REG_ACCESS_PARAMS then access_params d m
  else Ret (d, m).

(** The next pipe that was woken: the register [wakes] gets its flags. *)
Definition next_signaled d : outcome (Z * D) :=
  match pd_signaled d with
  | [] => Ret (0, d)
  | n :: l =>
      p ← the_pipe n d;
      let d := set_pd_signaled l (set_pipe n (set_p_wanted 0 p) (set_pd_regs (set_r_wakes (p_wanted p) (pd_regs d)) d)) in
      d ← match l with [] => set_pipe_irq 0 d | _ => Ret d end;
      Ret (p_chan p .& 0xFFFFFFFF, d)
  end.

Definition pipe_dev_read (offset : Z) d : outcome (Z * D) :=
  let r := pd_regs d in
  if offset =? PIPE_REG_STATUS then Ret (r_status r, d)
  else if offset =? PIPE_REG_CHANNEL then next_signaled d
  else if offset =? PIPE_REG_CHANNEL_HIGH then
    match pd_signaled d with
    | [] => Ret (0, d)
    | n :: _ => p ← the_pipe n d; Ret (u32 (p_chan p .>> 32), d)
    end
  else if offset =? PIPE_REG_WAKES then Ret (r_wakes r, d)
  else if offset =? PIPE_REG_PARAMS_ADDR_HIGH then Ret (u32 (r_params_addr r .>> 32), d)
  else if offset =? PIPE_REG_PARAMS_ADDR_LOW then Ret (r_params_addr r .& 0xFFFFFFFF, d)
  else Ret (0, d).
(** ** Snapshots *)

Context `{ByteWriter F} `{ByteReader G}.

Definition pipeConnector_save (c : PipeConnector) (f : F) : F :=
  qemu_put_buffer (qemu_put_be32 f (buffpos c)) (take (Z.to_nat (buffpos c)) (pcon_buffer c)).

(** The connector made for the pipe is forgotten for the one that is loaded. *)
Definition pipeConnector_load (g : G) : option PipeConnector * G :=
  let '(len, g) := qemu_get_be32 g in
  let len := s32 len in
  if (len <? 0) || (128 <? len) then (None, g) else
  let '(bytes, g) := qemu_get_buffer g len in
  if negb (Z.of_nat (length bytes) =? len) then (None, g) else
  (Some (mkConnector (blit (pcon_buffer pipeConnector_new) 0 bytes) len), g).

Definition pipe_save (n : nat) d (f : F) : outcome F :=
  p ← the_pipe n d;
  f ← match p_service p with
      | None => Ret (qemu_put_byte f 0)
      | Some sv => match pd_services d !! sv with Some svc => Ret (qemu_put_string (qemu_put_byte f 1) (Some (svc_name svc))) | None => OutOfBounds end
      end;
  let f := qemu_put_be64 f (p_chan p) in
  let f := qemu_put_byte f (p_wanted p) in
  let f := qemu_put_byte f (p_closed p) in
  let f := match p_args p with Some args => qemu_put_string (qemu_put_byte f 1) (Some args) | None => qemu_put_byte f 0 end in
  match p_service p with
  | None => c ← connector_of p; Ret (pipeConnector_save c f)
  | Some sv =>
      funcs ← the_service sv d;
      match pf_save funcs with
      | Some save => peer ← peer_of p; save peer (pd_state d) f
      | None => Ret f
      end
  end.

(** The service the snapshot names, or none of them. *)
Definition load_service (g : G) d : option (option nat) * G :=
  let '(state, g) := qemu_get_byte g in
  if negb (nz state) then (Some None, g) else
  let '(name, g) := qemu_get_string g in
  (match name with Some name => match goldfish_pipe_find_type (cstr name) d with Some sv => Some (Some sv) | None => None end | None => None end, g).

(** The pipe without its object. *)
Definition load_common (version_id : Z) (service : option nat) (g : G) : Pipe * G :=
  let '(channel, g) := if version_id =? GOLDFISH_PIPE_SAVE_VERSION_LEGACY then qemu_get_be32 g else qemu_get_be64 g in
  let '(wanted, g) := qemu_get_byte g in
  let '(closed, g) := qemu_get_byte g in
  let '(has_args, g) := qemu_get_byte g in
  let '(args, g) := if nz has_args then qemu_get_string g else (None, g) in
  (mkPipe channel (Connector pipeConnector_new) service (cstr <$> args) wanted closed, g).

(** The pipe, or none, whose number is then free again. A service that cannot
    load leaves the connector in its place. *)
Definition pipe_load (version_id : Z) (g : G) d : outcome (option nat * D * G) :=
  let '(service, g) := load_service g d in
  match service with
  | None => Ret (None, d, g)
  | Some service =>
      let '(p, g) := load_common version_id service g in
      let n := pd_next d in
      let d := mkPipeDevice (pd_dev d) (<[n := p]> (pd_heap d)) (Datatypes.S n) (pd_pipes d) (pd_signaled d) (pd_regs d) (pd_services d) (pd_state d) (pd_irq d) in
      let fail d := set_pd_heap (delete n (pd_heap d)) d in
      match service with
      | None =>
          let '(c, g) := pipeConnector_load g in
          Ret (match c with Some c => (Some n, set_pipe n (set_p_opaque (Connector c) p) d, g) | None => (None, fail d, g) end)
      | Some sv =>
          funcs ← the_service sv d;
          match pf_load funcs with
          | None => Ret (Some n, set_pipe n (set_p_closed 1 p) d, g)
          | Some load =>
              '(peer, s, ev, g) ← load n (p_args p) (pd_state d) g;
              d ← after_call s ev d;
              match peer with
              | None => Ret (None, fail d, g)
              | Some peer => p ← the_pipe n d; Ret (Some n, set_pipe n (set_p_opaque (Peer peer) p) d, g)
              end
          end
      end
  end.

Definition goldfish_pipe_save d (f : F) : outcome F :=
  let r := pd_regs d in
  let f := qemu_put_be64 f (r_address r) in
  let f := qemu_put_be32 f (r_size r) in
  let f := qemu_put_be32 f (r_status r) in
  let f := qemu_put_be64 f (r_channel r) in
  let f := qemu_put_be32 f (r_wakes r) in
  let f := qemu_put_be64 f (r_params_addr r) in
  let f := qemu_put_be32 f (Z.of_nat (length (pd_pipes d))) in
  foldM (fun f n => pipe_save n d f) f (pd_pipes d).

(** Each pipe is put in front of the list. *)
Fixpoint load_pipes (version_id : Z) (count : nat) (g : G) d : outcome (Z * D * G) :=
  match count with
  | O => Ret (0, d, g)
  | Datatypes.S count =>
      '(n, d, g) ← pipe_load version_id g d;
      match n with
      | None => Ret (- EIO, d, g)
      | Some n => load_pipes version_id count g (set_pd_pipes (n :: pd_pipes d) d)
      end
  end.

Definition wake_loaded d (n : nat) : outcome D :=
  p ← the_pipe n d;
  d ← (if nz (p_wanted p) then goldfish_pipe_wake n (p_wanted p) d else Ret d);
  p ← the_pipe n d;
  if nz (p_closed p) then goldfish_pipe_close n d else Ret d.

Definition load_regs (version_id : Z) (g : G) : pipe_regs * G :=
  let legacy := version_id =? GOLDFISH_PIPE_SAVE_VERSION_LEGACY in
  let '(address, g) := if legacy then qemu_get_be32 g else qemu_get_be64 g in
  let '(size, g) := qemu_get_be32 g in
  let '(status, g) := qemu_get_be32 g in
  let '(channel, g) := if legacy then qemu_get_be32 g else qemu_get_be64 g in
  let '(wakes, g) := qemu_get_be32 g in
  let '(params_addr, g) := qemu_get_be64 g in
  (mkRegs address size status channel wakes params_addr, g).

Definition goldfish_pipe_load (version_id : Z) (g : G) d : outcome (Z * D * G) :=
  if negb (version_id =? GOLDFISH_PIPE_SAVE_VERSION) && negb (version_id =? GOLDFISH_PIPE_SAVE_VERSION_LEGACY) then Ret (- EINVAL, d, g) else
  let '(r, g) := load_regs version_id g in
  let '(count, g) := qemu_get_be32 g in
  '(ret, d, g) ← load_pipes version_id (Z.to_nat (s32 count)) g (set_pd_regs r d);
  if nz ret then Ret (ret, d, g) else
  d ← foldM wake_loaded d (pd_pipes d);
  Ret (0, d, g).

(** [pipe_dev_init] before it registers its three services. *)
Definition pipe_dev_init (newDeviceNaming : bool) (s : S) (v : V) : D :=
  mkPipeDevice (mkDev None 0 (chars (if newDeviceNaming then "goldfish_pipe" else "qemu_pipe")) (-1) 0 0x2000 0 1) ∅ 0 [] [] (mkRegs 0 0 0 0 0 0) [] s v.
End device.
