(* ===== verification/PipeServices.v ===== *)
(** The three services of hw/android/goldfish/pipe.c: zeros, bytes sent back,
    and bytes sent back at a limited rate. *)
From stdpp Require Import gmap strings.
From S2P Require Import Prelude CStrings QemuFile QemuTimer GoldfishDevice Qemud QemudMux GoldfishPipe.
Open Scope list_scope.

Definition PINGPONG_SIZE : Z := 1024.

Record PingPongPipe := mkPingPong { pp_hwpipe : nat; pp_buffer : list Z; pp_size : Z; pp_pos : Z; pp_count : Z; pp_flags : Z }.

(** The two rates are the same constant. *)
Record ThrottlePipe := mkThrottle { tp_pingpong : PingPongPipe; sendExpiration : Z; recvExpiration : Z; tp_timer : timerptr }.

Inductive peer := PZero (hw : nat) | PPingPong (p : PingPongPipe) | PThrottle (p : ThrottlePipe).

(** The objects of the three services, the timers of the virtual clock, each
    with the number of the object of its callback, and the time. *)
Record peers := mkPeers { pe_heap : gmap nat peer; pe_next : nat; pe_timers : QEMUTimerList nat; pe_now : Z }.

Definition set_peer (n : nat) (x : peer) (s : peers) : peers := mkPeers (<[n := x]> (pe_heap s)) (pe_next s) (pe_timers s) (pe_now s).
Definition set_pe_timers (t : QEMUTimerList nat) (s : peers) : peers := mkPeers (pe_heap s) (pe_next s) t (pe_now s).
Definition free_peer (n : nat) (s : peers) : peers := mkPeers (delete n (pe_heap s)) (pe_next s) (pe_timers s) (pe_now s).
Definition new_peer (x : peer) (s : peers) : nat * peers := (pe_next s, mkPeers (<[pe_next s := x]> (pe_heap s)) (S (pe_next s)) (pe_timers s) (pe_now s)).

(** [int] addition. *)
Definition int_add (a b : Z) : outcome Z := if (a + b <? - 2 ^ 31) || (2 ^ 31 <=? a + b) then SignedOverflow else Ret (a + b).

(** ** Zeros *)

Definition zeroPipe_init (hw : nat) (args : option (list Z)) (s : peers) : outcome (option nat * peers * list pipe_event) :=
  let '(n, s) := new_peer (PZero hw) s in Ret (Some n, s, []).

(** Whatever the object is, it is freed. *)
Definition zeroPipe_close (o : pipe_opaque) (s : peers) : outcome (peers * list pipe_event) :=
  Ret (match o with Peer n => free_peer n s | Connector _ => s end, []).

Definition zeroPipe_sendBuffers (n : nat) (buffers : list GoldfishPipeBuffer) (s : peers) : outcome (Z * peers * list pipe_event) :=
  Ret (foldl (fun ret b => s32 (ret + b_size b)) 0 buffers, s, []).

Definition zeroPipe_recvBuffers (n : nat) (sizes : list Z) (s : peers) : outcome (Z * list (list Z) * peers * list pipe_event) :=
  Ret (foldl (fun ret size => s32 (ret + size)) 0 sizes, (fun size => replicate (Z.to_nat size) 0) <$> sizes, s, []).

Definition zeroPipe_poll (n : nat) (s : peers) : outcome Z := Ret (PIPE_POLL_IN .| PIPE_POLL_OUT).
Definition zeroPipe_wakeOn (n : nat) (flags : Z) (s : peers) : outcome (peers * list pipe_event) := Ret (s, []).

Definition zeroPipe_funcs {F G} : GoldfishPipeFuncs peers F G :=
  mkFuncs zeroPipe_init zeroPipe_close zeroPipe_sendBuffers zeroPipe_recvBuffers zeroPipe_poll zeroPipe_wakeOn None None.

(** ** Ping pong *)

(** What [malloc] leaves in a buffer is not read before it is written. *)
Definition pingPongPipe_init0 (hw : nat) : PingPongPipe := mkPingPong hw (replicate (Z.to_nat PINGPONG_SIZE) 0) PINGPONG_SIZE 0 0 0.

Definition set_pp_fill (buf : list Z) (pos count : Z) (p : PingPongPipe) : PingPongPipe := mkPingPong (pp_hwpipe p) buf (pp_size p) pos count (pp_flags p).

(** [memcpy] to and from the buffer. *)
Definition pp_store (p : PingPongPipe) (off : Z) (bytes : list Z) : outcome PingPongPipe :=
  if (off <? 0) || (Z.of_nat (length (pp_buffer p)) <? off + Z.of_nat (length bytes)) then OutOfBounds
  else Ret (set_pp_fill (blit (pp_buffer p) off bytes) (pp_pos p) (pp_count p) p).
Definition pp_fetch (p : PingPongPipe) (off n : Z) : outcome (list Z) :=
  if (off <? 0) || (n <? 0) || (Z.of_nat (length (pp_buffer p)) <? off + n) then OutOfBounds else Ret (range (pp_buffer p) off n).

Section pingpong.
(** Whether [realloc] gives so many bytes. *)
Context (realloc_ok : Z -> bool).

(** From 1024 on, 64 doublings leave the numbers of 64 bits. *)
Fixpoint pp_grow (fuel : nat) (count : Z) (p : PingPongPipe) : outcome PingPongPipe :=
  if u64 count <=? u64 (pp_size p - pp_count p) then Ret p else
  match fuel with
  | O => StillRunning
  | S fuel =>
      let newsize := u64 (pp_size p * 2) in
      if negb (realloc_ok newsize) then Ret p else
      let newbuff := pp_buffer p ++ replicate (Z.to_nat (newsize - pp_size p)) 0 in
      let wpos := s32 (pp_pos p + pp_count p) in
      if pp_size p <? u64 wpos then
        let wpos := s32 (wpos - pp_size p) in
        if (wpos <? 0) || (newsize <? pp_size p + wpos) then OutOfBounds else
        pp_grow fuel count (mkPingPong (pp_hwpipe p) (blit newbuff (pp_size p) (range newbuff 0 wpos)) newsize (pp_pos p) (pp_count p) (pp_flags p))
      else pp_grow fuel count (mkPingPong (pp_hwpipe p) newbuff newsize (pp_pos p) (pp_count p) (pp_flags p))
  end.

Fixpoint pp_send_loop (buffers : list GoldfishPipeBuffer) (ret : Z) (p : PingPongPipe) : outcome (Z * PingPongPipe) :=
  match buffers with
  | [] => Ret (ret, p)
  | b :: buffers =>
      let avail := s32 (pp_size p - pp_count p) in
      if avail <=? 0 then Ret (if ret =? 0 then PIPE_ERROR_AGAIN else ret, p) else
      let avail := if b_size b <? avail then s32 (b_size b) else avail in
      let wpos := s32 (pp_pos p + pp_count p) in
      let wpos := if pp_size p <=? u64 wpos then s32 (wpos - pp_size p) else wpos in
      wend ← int_add wpos avail;
      p ← (if u64 wend <=? pp_size p then bytes ← buffer_bytes b 0 avail; pp_store p wpos bytes
           else
             let avail2 := s32 (pp_size p - wpos) in
             bytes ← buffer_bytes b 0 avail2;
             p ← pp_store p wpos bytes;
             bytes ← buffer_bytes b avail2 (avail - avail2);
             pp_store p 0 bytes);
      ret ← int_add ret avail;
      pp_send_loop buffers ret (set_pp_fill (pp_buffer p) (pp_pos p) (u64 (pp_count p + avail)) p)
  end.

Definition pp_send (buffers : list GoldfishPipeBuffer) (p : PingPongPipe) : outcome (Z * PingPongPipe * list pipe_event) :=
  let count := foldl (fun count b => s32 (count + b_size b)) 0 buffers in
  p ← pp_grow 64 count p;
  '(ret, p) ← pp_send_loop buffers 0 p;
  Ret (ret, p, if (0 <? pp_count p) && nz (pp_flags p .& PIPE_WAKE_READ) then [PipeWake (pp_hwpipe p) PIPE_WAKE_READ] else []).

Fixpoint pp_recv_loop (sizes : list Z) (ret : Z) (p : PingPongPipe) : outcome (Z * list (list Z) * PingPongPipe) :=
  match sizes with
  | [] => Ret (ret, [], p)
  | size :: sizes =>
      let avail := s32 (pp_count p) in
      if avail <=? 0 then Ret (if ret =? 0 then PIPE_ERROR_AGAIN else ret, [], p) else
      let avail := if size <? avail then s32 size else avail in
      let rpos := s32 (pp_pos p) in
      rend ← int_add rpos avail;
      bytes ← (if u64 rend <=? pp_size p then pp_fetch p rpos avail
               else
                 let avail2 := s32 (pp_size p - rpos) in
                 b1 ← pp_fetch p rpos avail2; b2 ← pp_fetch p 0 (avail - avail2); Ret (b1 ++ b2));
      let pos := u64 (pp_pos p + avail) in
      let pos := if pp_size p <=? pos then pos - pp_size p else pos in
      ret ← int_add ret avail;
      '(ret, bufs, p) ← pp_recv_loop sizes ret (set_pp_fill (pp_buffer p) pos (u64 (pp_count p - avail)) p);
      Ret (ret, bytes :: bufs, p)
  end.

Definition pp_recv (sizes : list Z) (p : PingPongPipe) : outcome (Z * list (list Z) * PingPongPipe * list pipe_event) :=
  '(ret, bufs, p) ← pp_recv_loop sizes 0 p;
  Ret (ret, bufs, p, if (pp_count p <? PINGPONG_SIZE) && nz (pp_flags p .& PIPE_WAKE_WRITE) then [PipeWake (pp_hwpipe p) PIPE_WAKE_WRITE] else []).

Definition pp_poll (p : PingPongPipe) : Z :=
  (if pp_count p <? pp_size p then PIPE_POLL_OUT else 0) .| (if 0 <? pp_count p then PIPE_POLL_IN else 0).

Definition pp_wakeOn (flags : Z) (p : PingPongPipe) : PingPongPipe :=
  mkPingPong (pp_hwpipe p) (pp_buffer p) (pp_size p) (pp_pos p) (pp_count p) (pp_flags p .| u32 flags).

(** An object of another type, or a freed one. *)
Definition pingpong (n : nat) (s : peers) : outcome PingPongPipe := match pe_heap s !! n with Some (PPingPong p) => Ret p | _ => OutOfBounds end.

Definition pingPongPipe_init (hw : nat) (args : option (list Z)) (s : peers) : outcome (option nat * peers * list pipe_event) :=
  let '(n, s) := new_peer (PPingPong (pingPongPipe_init0 hw)) s in Ret (Some n, s, []).

(** A new connector is zero where the pointer to the buffer would be, and
    [free(NULL)] is nothing. *)
Definition pingPongPipe_close (o : pipe_opaque) (s : peers) : outcome (peers * list pipe_event) :=
  match o with
  | Peer n => _ ← pingpong n s; Ret (free_peer n s, [])
  | Connector c => if bool_decide (take 8 (pcon_buffer c) = replicate 8 0) then Ret (s, []) else OutOfBounds
  end.

Definition pingPongPipe_sendBuffers (n : nat) (buffers : list GoldfishPipeBuffer) (s : peers) : outcome (Z * peers * list pipe_event) :=
  p ← pingpong n s; '(ret, p, ev) ← pp_send buffers p; Ret (ret, set_peer n (PPingPong p) s, ev).
Definition pingPongPipe_recvBuffers (n : nat) (sizes : list Z) (s : peers) : outcome (Z * list (list Z) * peers * list pipe_event) :=
  p ← pingpong n s; '(ret, bufs, p, ev) ← pp_recv sizes p; Ret (ret, bufs, set_peer n (PPingPong p) s, ev).
Definition pingPongPipe_poll (n : nat) (s : peers) : outcome Z := p ← pingpong n s; Ret (pp_poll p).
Definition pingPongPipe_wakeOn (n : nat) (flags : Z) (s : peers) : outcome (peers * list pipe_event) :=
  p ← pingpong n s; Ret (set_peer n (PPingPong (pp_wakeOn flags p)) s, []).

Definition pingPongPipe_funcs {F G} : GoldfishPipeFuncs peers F G :=
  mkFuncs pingPongPipe_init pingPongPipe_close pingPongPipe_sendBuffers pingPongPipe_recvBuffers pingPongPipe_poll pingPongPipe_wakeOn None None.

(** ** Throttle *)

(** The nearest number of 53 bits, the even one of two: what a [double] holds
    of a whole number that is not negative. *)
Definition round53 (n : Z) : Z :=
  let e := Z.log2 n - 52 in
  if e <=? 0 then n else
  let q := n .>> e in
  let r := n - (q .<< e) in
  let half := 1 .<< (e - 1) in
  (if (half <? r) || ((half =? r) && Z.odd q) then q + 1 else q) .<< e.

(** [now + ret * rate] with the rate 1e9 / (500 * 1024 * 8), which is 15625 / 64
    exactly, so that only the time and the sum are rounded, as 64ths. *)
Definition expiration (now ret : Z) : Z := round53 (64 * round53 now + 15625 * ret) / 64.

Definition throttle (n : nat) (s : peers) : outcome ThrottlePipe := match pe_heap s !! n with Some (PThrottle p) => Ret p | _ => OutOfBounds end.

(** The timer of the object. *)
Definition throttlePipe_init (hw : nat) (args : option (list Z)) (s : peers) : outcome (option nat * peers * list pipe_event) :=
  let t := Pos.of_succ_nat (pe_next s) in
  let '(n, s) := new_peer (PThrottle (mkThrottle (pingPongPipe_init0 hw) 0 0 t)) s in
  Ret (Some n, set_pe_timers (timer_init (pe_timers s) t SCALE_NS n) s, []).

(** A new connector is zero where the pointer to the timer would be. *)
Definition throttlePipe_close (o : pipe_opaque) (s : peers) : outcome (peers * list pipe_event) :=
  match o with
  | Peer n => p ← throttle n s; Ret (free_peer n (set_pe_timers (timer_del (pe_timers s) (tp_timer p)) s), [])
  | Connector _ => OutOfBounds
  end.

Definition throttlePipe_rearm (p : ThrottlePipe) (s : peers) : peers :=
  let e := if nz (sendExpiration p) then sendExpiration p else 0 in
  let e := if nz (recvExpiration p) && ((e =? 0) || (recvExpiration p <? e)) then recvExpiration p else e in
  if nz e then set_pe_timers (snd (timer_mod (pe_timers s) (tp_timer p) e)) s else s.

Definition throttlePipe_timerFunc (n : nat) (s : peers) : outcome (peers * list pipe_event) :=
  p ← throttle n s;
  let now := pe_now s in
  let send := nz (sendExpiration p) && (sendExpiration p <? now) in
  let recv := nz (recvExpiration p) && (recvExpiration p <? now) in
  let p := mkThrottle (tp_pingpong p) (if send then 0 else sendExpiration p) (if recv then 0 else recvExpiration p) (tp_timer p) in
  let flags := ((if send then PIPE_WAKE_WRITE else 0) .| (if recv then PIPE_WAKE_READ else 0)) .& pp_flags (tp_pingpong p) in
  Ret (throttlePipe_rearm p (set_peer n (PThrottle p) s), if nz flags then [PipeWake (pp_hwpipe (tp_pingpong p)) flags] else []).

Definition throttlePipe_sendBuffers (n : nat) (buffers : list GoldfishPipeBuffer) (s : peers) : outcome (Z * peers * list pipe_event) :=
  p ← throttle n s;
  if 0 <? sendExpiration p then Ret (PIPE_ERROR_AGAIN, s, []) else
  '(ret, pp, ev) ← pp_send buffers (tp_pingpong p);
  let p := mkThrottle pp (if 0 <? ret then expiration (pe_now s) ret else sendExpiration p) (recvExpiration p) (tp_timer p) in
  let s := set_peer n (PThrottle p) s in
  Ret (ret, if 0 <? ret then throttlePipe_rearm p s else s, ev).

Definition throttlePipe_recvBuffers (n : nat) (sizes : list Z) (s : peers) : outcome (Z * list (list Z) * peers * list pipe_event) :=
  p ← throttle n s;
  if 0 <? recvExpiration p then Ret (PIPE_ERROR_AGAIN, [], s, []) else
  '(ret, bufs, pp, ev) ← pp_recv sizes (tp_pingpong p);
  let p := mkThrottle pp (sendExpiration p) (if 0 <? ret then expiration (pe_now s) ret else recvExpiration p) (tp_timer p) in
  let s := set_peer n (PThrottle p) s in
  Ret (ret, bufs, if 0 <? ret then throttlePipe_rearm p s else s, ev).

Definition throttlePipe_poll (n : nat) (s : peers) : outcome Z :=
  p ← throttle n s;
  let ret := pp_poll (tp_pingpong p) in
  let ret := if 0 <? sendExpiration p then ret .& u32 (.~ PIPE_POLL_OUT) else ret in
  Ret (if 0 <? recvExpiration p then ret .& u32 (.~ PIPE_POLL_IN) else ret).

Definition throttlePipe_wakeOn (n : nat) (flags : Z) (s : peers) : outcome (peers * list pipe_event) :=
  p ← throttle n s; Ret (set_peer n (PThrottle (mkThrottle (pp_wakeOn flags (tp_pingpong p)) (sendExpiration p) (recvExpiration p) (tp_timer p))) s, []).

Definition throttlePipe_funcs {F G} : GoldfishPipeFuncs peers F G :=
  mkFuncs throttlePipe_init throttlePipe_close throttlePipe_sendBuffers throttlePipe_recvBuffers throttlePipe_poll throttlePipe_wakeOn None None.

(** The end of [pipe_dev_init]. *)
Definition add_pipe_types {F G V} (d : PipeDevice peers F G V) : outcome (PipeDevice peers F G V) :=
  d ← goldfish_pipe_add_type (chars "zero") zeroPipe_funcs d;
  d ← goldfish_pipe_add_type (chars "pingpong") pingPongPipe_funcs d;
  goldfish_pipe_add_type (chars "throttle") throttlePipe_funcs d.
End pingpong.
