(* ===== verification/PingPong.v ===== *)
(** The ping pong pipe is a queue of bytes: its circular buffer, which grows
    when it is full, gives back what was sent, in order. *)
From stdpp Require Import gmap strings.
From S2P Require Import Prelude CStrings QemuFile HostFile QemuTimer GoldfishDevice Qemud QemudMux GoldfishPipe PipeServices.
Open Scope list_scope.

(** ** Circular buffers *)

(** An index below twice the size, in the buffer. *)
Definition wrapi (size i : nat) : nat := if (i <? size)%nat then i else (i - size)%nat.

Ltac wrapi_cases :=
  unfold wrapi in *; repeat match goal with |- context [(?a <? ?b)%nat] => destruct (Nat.ltb_spec a b) end.

Definition ring (b : list Z) (pos n : nat) : list Z := (fun i => default 0 (b !! wrapi (length b) (pos + i))) <$> seq 0 n.

Lemma ring_length b pos n : length (ring b pos n) = n.
Proof. unfold ring. by rewrite length_fmap, length_seq. Qed.

Lemma list_as_seq (l : list Z) off : l = (fun i => default 0 (l !! (i - off)%nat)) <$> seq off (length l).
Proof.
  apply list_eq. intros i. rewrite list_lookup_fmap. destruct (decide (i < length l)%nat) as [Hi|Hi].
  - rewrite lookup_seq_lt by done. cbn. replace (off + i - off)%nat with i by lia. destruct (lookup_lt_is_Some_2 l i Hi) as [x Hx]. by rewrite Hx.
  - rewrite lookup_seq_ge by lia. cbn. apply lookup_ge_None. lia.
Qed.

(** [b'] is [b] with [bytes] stored from [off] on, around the end. *)
Definition ring_put (b : list Z) (off : nat) (bytes b' : list Z) : Prop :=
  length b' = length b /\ forall j, (j < length b)%nat -> b' !! j =
    if decide (off <= j < off + length bytes)%nat then bytes !! (j - off)%nat
    else if decide (off <= j + length b < off + length bytes)%nat then bytes !! (j + length b - off)%nat else b !! j.

Lemma ring_stored b pos n bytes b' : (pos < length b)%nat -> (n + length bytes <= length b)%nat ->
  ring_put b (wrapi (length b) (pos + n)) bytes b' -> ring b' pos (n + length bytes) = ring b pos n ++ bytes.
Proof.
  intros Hp Hn [Hl Hst]. unfold ring. rewrite Hl, seq_app, fmap_app. f_equal.
  - apply list_fmap_ext. intros i x Hi%lookup_seq. f_equal. rewrite Hst; wrapi_cases; repeat case_decide; try lia; done.
  - etrans; [|symmetry; apply (list_as_seq bytes (0 + n))]. apply list_fmap_ext. intros i x Hi%lookup_seq. f_equal. rewrite Hst; wrapi_cases; repeat case_decide; try lia; f_equal; lia.
Qed.

Lemma ring_split b pos n1 n2 : (pos < length b)%nat -> (n1 + n2 <= length b)%nat ->
  ring b pos (n1 + n2) = ring b pos n1 ++ ring b (wrapi (length b) (pos + n1)) n2.
Proof.
  intros Hp Hn. unfold ring. rewrite seq_app, fmap_app. f_equal. replace (0 + n1)%nat with (n1 + 0)%nat by lia. rewrite <- (fmap_add_seq n1 0 n2), <- list_fmap_compose.
  apply list_fmap_ext. intros i x Hi%lookup_seq. cbn. do 2 f_equal. wrapi_cases; lia.
Qed.

(** A part that does not pass the end. *)
Lemma ring_range b pos n : (pos + n <= length b)%nat -> ring b pos n = range b (Z.of_nat pos) (Z.of_nat n).
Proof.
  intros Hl. unfold ring, range. rewrite !Nat2Z.id. rewrite (list_as_seq (take n (drop pos b)) 0). rewrite length_take, length_drop, Nat.min_l by lia.
  apply list_fmap_ext. intros i x Hi%lookup_seq. f_equal. rewrite lookup_take_lt by lia. rewrite lookup_drop. f_equal. unfold wrapi. destruct (Nat.ltb_spec (pos + x) (length b)); lia.
Qed.

(** ** The pipe *)

Definition pp_inv (p : PingPongPipe) : Prop :=
  Z.of_nat (length (pp_buffer p)) = pp_size p /\ 0 < pp_size p <= 2 ^ 30 /\ 0 <= pp_pos p < pp_size p /\ 0 <= pp_count p <= pp_size p.

Definition pp_contents (p : PingPongPipe) : list Z := ring (pp_buffer p) (Z.to_nat (pp_pos p)) (Z.to_nat (pp_count p)).

(** Nothing else of the pipe changed. *)
Definition same_pipe (p p' : PingPongPipe) : Prop := pp_hwpipe p' = pp_hwpipe p /\ pp_flags p' = pp_flags p.

Lemma init0_inv hw : pp_inv (pingPongPipe_init0 hw) /\ pp_contents (pingPongPipe_init0 hw) = [].
Proof. split; [|done]. unfold pp_inv. cbn [pingPongPipe_init0 pp_buffer pp_size pp_pos pp_count]. rewrite length_replicate. unfold PINGPONG_SIZE. lia. Qed.

Ltac small := repeat match goal with
  | |- context [s32 ?z] => rewrite (swrap_small 32 z) by (unfold in_s; lia)
  | |- context [u64 ?z] => rewrite (wrap_small 64 z) by (unfold in_u; lia)
  end.

Lemma int_add_small a b : - 2 ^ 31 <= a + b < 2 ^ 31 -> int_add a b = Ret (a + b).
Proof. intros H. unfold int_add. destruct (Z.ltb_spec (a + b) (- 2 ^ 31)); [lia|]. destruct (Z.leb_spec (2 ^ 31) (a + b)); [lia|]. done. Qed.

Section growing.
Context (realloc_ok : Z -> bool) (Hre : forall n, 0 < n <= 2 ^ 30 -> realloc_ok n = true).

(** The buffer doubled, with the bytes before the start copied behind the
    rest. *)
Definition doubled (p : PingPongPipe) : PingPongPipe :=
  let newbuff := pp_buffer p ++ replicate (Z.to_nat (pp_size p)) 0 in
  let wpos := pp_pos p + pp_count p in
  mkPingPong (pp_hwpipe p) (if pp_size p <? wpos then blit newbuff (pp_size p) (range newbuff 0 (wpos - pp_size p)) else newbuff) (2 * pp_size p) (pp_pos p) (pp_count p) (pp_flags p).

Lemma doubled_spec p : pp_inv p -> pp_size p <= 2 ^ 29 -> pp_inv (doubled p) /\ pp_contents (doubled p) = pp_contents p.
Proof.
  intros (Hl & Hs & Hp & Hc) Hs'. unfold doubled. set (nb := pp_buffer p ++ _). assert (length nb = Z.to_nat (2 * pp_size p)) as Hnb by (unfold nb; rewrite length_app, length_replicate; lia).
  set (b := if pp_size p <? pp_pos p + pp_count p then blit nb (pp_size p) (range nb 0 (pp_pos p + pp_count p - pp_size p)) else nb). assert (length b = length nb /\ forall i, (i < Z.to_nat (pp_count p))%nat -> b !! (Z.to_nat (pp_pos p) + i)%nat = pp_buffer p !! wrapi (length (pp_buffer p)) (Z.to_nat (pp_pos p) + i)) as [Hb Hlk].
  { unfold b. destruct (Z.ltb_spec (pp_size p) (pp_pos p + pp_count p)) as [Hw|Hw].
    - set (r := range nb 0 _). assert (length r = Z.to_nat (pp_pos p + pp_count p - pp_size p)) as Hr by (unfold r, range; rewrite length_take, length_drop; lia).
      split; [pose proof (length_blit nb (pp_size p) r); lia|]. intros i Hi. rewrite blit_lookup by lia. case_decide as Hd; wrapi_cases; try lia.
      + unfold r, range. rewrite lookup_take_lt by lia. change (Z.to_nat 0) with 0%nat. rewrite drop_0. unfold nb. rewrite lookup_app_l by lia. f_equal. lia.
      + unfold nb. by rewrite lookup_app_l by lia.
    - split; [done|]. intros i Hi. unfold nb. rewrite lookup_app_l by lia. f_equal. wrapi_cases; lia. }
  split; [unfold pp_inv; cbn [pp_buffer pp_size pp_pos pp_count]; fold b; lia|]. unfold pp_contents, ring. cbn [pp_buffer pp_pos pp_count]. fold b.
  apply list_fmap_ext. intros i x Hi%lookup_seq. f_equal. rewrite <- Hlk by lia. f_equal. wrapi_cases; lia.
Qed.

Lemma grow_spec need fuel : forall p, pp_inv p -> 0 <= need -> pp_count p + need <= 2 ^ 29 -> 2 ^ 30 < pp_size p * 2 ^ Z.of_nat fuel ->
  exists p', pp_grow realloc_ok fuel need p = Ret p' /\ pp_inv p' /\ pp_contents p' = pp_contents p /\ pp_count p' = pp_count p /\ need <= pp_size p' - pp_count p' /\ same_pipe p p'.
Proof.
  induction fuel as [|fuel IH]; intros p Hi Hn Hc Hf; cbn [pp_grow]; pose proof Hi as (Hl & Hs & Hp & Hcs); [cbn in Hf; lia|]; small.
  destruct (Z.leb_spec need (pp_size p - pp_count p)); [by exists p|].
  assert (pp_size p <= 2 ^ 29) as Hs' by lia. replace (pp_size p * 2) with (2 * pp_size p) by lia. small. rewrite Hre by lia. cbn [negb]. replace (2 * pp_size p - pp_size p) with (pp_size p) by lia.
  destruct (doubled_spec p Hi Hs') as [Hi' Ec]. destruct (IH (doubled p) Hi' Hn) as (p' & E & H1 & H2 & H3 & H4 & H5 & H6).
  { cbn. lia. } { cbn [doubled pp_size]. rewrite Nat2Z.inj_succ, Z.pow_succ_r in Hf by lia. lia. }
  exists p'. split; [|by rewrite H2]. rewrite <- E. unfold doubled.
  destruct (Z.ltb_spec (pp_size p) (pp_pos p + pp_count p)); [|done]. small. destruct (Z.ltb_spec (pp_pos p + pp_count p - pp_size p) 0); [lia|]. destruct (Z.ltb_spec (2 * pp_size p) (pp_size p + (pp_pos p + pp_count p - pp_size p))); [lia|]. done.
Qed.
End growing.


(** ** Sending *)

Definition buffer_ok (b : GoldfishPipeBuffer) : Prop := 0 <= b_size b <= Z.of_nat (length (b_data b)).
Definition buffer_data (b : GoldfishPipeBuffer) : list Z := take (Z.to_nat (b_size b)) (b_data b).
Definition buffers_size (l : list GoldfishPipeBuffer) : Z := foldr (fun b n => b_size b + n) 0 l.

Lemma buffers_size_pos l : Forall buffer_ok l -> 0 <= buffers_size l.
Proof. induction 1 as [|b l [? ?] _ IH]; cbn; [done|]. unfold buffers_size in IH. lia. Qed.

Lemma buffers_empty l : Forall buffer_ok l -> buffers_size l = 0 -> concat (buffer_data <$> l) = [].
Proof.
  induction 1 as [|b l Hb Hl IH]; [done|]. cbn [buffers_size foldr fmap list_fmap concat]. fold (buffers_size l). pose proof (buffers_size_pos l Hl). destruct Hb. intros E.
  rewrite IH by lia. unfold buffer_data. by replace (Z.to_nat (b_size b)) with 0%nat by lia.
Qed.

Lemma range_data b off n : buffer_ok b -> 0 <= off -> 0 <= n -> off + n <= b_size b -> range (b_data b) off n = range (buffer_data b) off n.
Proof.
  intros [Hb Hl] Ho Hn Hon. unfold range, buffer_data. rewrite skipn_firstn_comm, take_take. f_equal. lia.
Qed.

Lemma length_data b : buffer_ok b -> Z.of_nat (length (buffer_data b)) = b_size b.
Proof. intros [? ?]. unfold buffer_data. rewrite length_take. lia. Qed.

Lemma buffer_bytes_ok b off n : buffer_ok b -> 0 <= off -> 0 <= n -> off + n <= b_size b -> buffer_bytes b off n = Ret (range (buffer_data b) off n).
Proof.
  intros Hb Ho Hn Hon. unfold buffer_bytes. rewrite <- range_data by done. destruct Hb. destruct (Z.ltb_spec off 0); [lia|]. destruct (Z.ltb_spec n 0); [lia|]. by destruct (Z.ltb_spec (Z.of_nat (length (b_data b))) (off + n)); [lia|].
Qed.

Lemma pp_store_ok p off bytes : 0 <= off -> off + Z.of_nat (length bytes) <= Z.of_nat (length (pp_buffer p)) -> pp_store p off bytes = Ret (set_pp_fill (blit (pp_buffer p) off bytes) (pp_pos p) (pp_count p) p).
Proof. intros Ho Hl. unfold pp_store. destruct (Z.ltb_spec off 0); [lia|]. by destruct (Z.ltb_spec (Z.of_nat (length (pp_buffer p))) (off + Z.of_nat (length bytes))); [lia|]. Qed.

(** One buffer that fits. *)
Definition store_wrapped (p : PingPongPipe) (b : GoldfishPipeBuffer) (wpos avail : Z) : outcome PingPongPipe :=
  if u64 (wpos + avail) <=? pp_size p then bytes ← buffer_bytes b 0 avail; pp_store p wpos bytes
  else
    let avail2 := s32 (pp_size p - wpos) in
    bytes ← buffer_bytes b 0 avail2;
    p ← pp_store p wpos bytes;
    bytes ← buffer_bytes b avail2 (avail - avail2);
    pp_store p 0 bytes.

Lemma store_wrapped_spec p b wpos : pp_inv p -> buffer_ok b -> 0 <= wpos < pp_size p -> b_size b <= pp_size p -> exists b',
  store_wrapped p b wpos (b_size b) = Ret (set_pp_fill b' (pp_pos p) (pp_count p) p) /\ ring_put (pp_buffer p) (Z.to_nat wpos) (buffer_data b) b'.
Proof.
  intros (Hl & Hs & Hp & Hc) Hb Hw Hsz. pose proof (length_data b Hb) as Hd. pose proof Hb as [Hb0 _]. unfold store_wrapped. small. destruct (Z.leb_spec (wpos + b_size b) (pp_size p)).
  - rewrite buffer_bytes_ok by (done || lia). cbn [mbind outcome_bind]. rewrite range_all by done. rewrite pp_store_ok by lia. eexists. split; [done|]. split.
    + pose proof (length_blit (pp_buffer p) wpos (buffer_data b)). lia.
    + intros j Hj. rewrite blit_lookup by lia. repeat case_decide; try lia; done.
  - rewrite !buffer_bytes_ok by (done || lia). cbn [mbind outcome_bind]. set (b1 := range (buffer_data b) 0 (pp_size p - wpos)). assert (Z.of_nat (length b1) = pp_size p - wpos) as H1 by (unfold b1; apply length_range; lia).
    rewrite pp_store_ok by lia. cbn [mbind outcome_bind]. set (b2 := range (buffer_data b) (pp_size p - wpos) (b_size b - (pp_size p - wpos))).
    assert (Z.of_nat (length b2) = b_size b - (pp_size p - wpos)) as H2 by (unfold b2; apply length_range; lia). pose proof (length_blit (pp_buffer p) wpos b1 ltac:(lia) ltac:(lia)) as H3.
    rewrite pp_store_ok by (cbn [pp_buffer set_pp_fill]; lia). cbn [pp_buffer set_pp_fill pp_pos pp_count]. eexists. split; [done|]. split.
    + pose proof (length_blit (blit (pp_buffer p) wpos b1) 0 b2). lia.
    + intros j Hj. rewrite !blit_lookup by lia. change (Z.to_nat 0) with 0%nat.
      assert (forall i, (i < length b1)%nat -> b1 !! i = buffer_data b !! i) as E1 by (intros i Hi; unfold b1, range; rewrite lookup_take_lt by lia; by rewrite lookup_drop).
      assert (forall i, (i < length b2)%nat -> b2 !! i = buffer_data b !! (Z.to_nat (pp_size p - wpos) + i)%nat) as E2 by (intros i Hi; unfold b2, range; rewrite lookup_take_lt by lia; by rewrite lookup_drop).
      repeat case_decide; try lia; rewrite ?E1, ?E2 by lia; try done; f_equal; lia.
Qed.

Lemma send_loop_spec l : forall ret p, Forall buffer_ok l -> pp_inv p -> buffers_size l <= pp_size p - pp_count p -> 0 <= ret -> 0 < ret + buffers_size l < 2 ^ 31 ->
  exists p', pp_send_loop l ret p = Ret (ret + buffers_size l, p') /\ pp_inv p' /\ pp_contents p' = pp_contents p ++ concat (buffer_data <$> l) /\ pp_count p' = pp_count p + buffers_size l /\ pp_size p' = pp_size p /\ same_pipe p p'.
Proof.
  induction l as [|b l IH]; intros ret p Hok Hi Hsz Hr Hrs.
  - exists p. cbn. rewrite app_nil_r, !Z.add_0_r. split_and!; try done; apply Hi.
  - apply Forall_cons in Hok as [Hb Hok]. pose proof (buffers_size_pos l Hok) as Hl0. pose proof Hb as [Hb0 _]. pose proof Hi as (Hl & Hs & Hp & Hc).
    cbn [buffers_size foldr] in *. fold (buffers_size l) in *. cbn [pp_send_loop]. small. destruct (Z.leb_spec (pp_size p - pp_count p) 0).
    + rewrite (proj2 (Z.eqb_neq ret 0)) by lia. exists p. assert (b_size b = 0 /\ buffers_size l = 0) as [E1 E2] by lia. rewrite E1, E2, !Z.add_0_r.
      cbn [fmap list_fmap concat]. rewrite (buffers_empty l), app_nil_r by done. unfold buffer_data at 1. rewrite E1. cbn [Z.to_nat take]. rewrite app_nil_r. done.
    + replace (if b_size b <? pp_size p - pp_count p then b_size b else pp_size p - pp_count p) with (b_size b) by (destruct (Z.ltb_spec (b_size b) (pp_size p - pp_count p)); lia).
      set (wpos := if pp_size p <=? pp_pos p + pp_count p then _ else _). assert (0 <= wpos < pp_size p /\ Z.to_nat wpos = wrapi (length (pp_buffer p)) (Z.to_nat (pp_pos p) + Z.to_nat (pp_count p))) as [Hw Ew].
      { unfold wpos. destruct (Z.leb_spec (pp_size p) (pp_pos p + pp_count p)); small; (split; [lia|wrapi_cases; lia]). }
      rewrite !int_add_small by lia. cbn [mbind outcome_bind]. destruct (store_wrapped_spec p b wpos Hi Hb Hw ltac:(lia)) as (b' & Es & Hst). unfold store_wrapped in Es. cbv zeta in Es. cbn [mbind outcome_bind] in Es. clearbody wpos. rewrite Es. cbn [mbind outcome_bind].
      cbn [mbind outcome_bind pp_buffer pp_pos pp_count set_pp_fill pp_size pp_hwpipe pp_flags]. small. match goal with |- context [pp_send_loop l _ ?q] => set (p1 := q) end.
      pose proof (length_data b Hb) as Hd. pose proof Hst as [Hlb _]. rewrite Ew in Hst.
      assert (pp_inv p1) as Hi1 by (unfold pp_inv, p1; cbn; lia).
      assert (pp_contents p1 = pp_contents p ++ buffer_data b) as Ec.
      { unfold pp_contents, p1. cbn [pp_buffer pp_pos pp_count set_pp_fill]. replace (Z.to_nat (pp_count p + b_size b)) with (Z.to_nat (pp_count p) + length (buffer_data b))%nat by lia. exact (ring_stored (pp_buffer p) (Z.to_nat (pp_pos p)) (Z.to_nat (pp_count p)) (buffer_data b) b' ltac:(lia) ltac:(lia) Hst). }
      destruct (IH (ret + b_size b) p1 Hok Hi1) as (p' & E & H1 & H2 & H3 & H4 & H5); [cbn; lia..|]. exists p'. rewrite E. split_and!; try done; [f_equal; f_equal; lia|by rewrite H2, Ec, <- app_assoc|rewrite H3; cbn; lia].
Qed.

(** ** Receiving *)

Definition sizes_ok (sizes : list Z) : Prop := Forall (fun n => 0 <= n) sizes.
Definition sizes_sum (sizes : list Z) : Z := foldr Z.add 0 sizes.

Lemma pp_fetch_ok p off n : 0 <= off -> 0 <= n -> off + n <= Z.of_nat (length (pp_buffer p)) -> pp_fetch p off n = Ret (ring (pp_buffer p) (Z.to_nat off) (Z.to_nat n)).
Proof.
  intros Ho Hn Hl. unfold pp_fetch. destruct (Z.ltb_spec off 0); [lia|]. destruct (Z.ltb_spec n 0); [lia|]. destruct (Z.ltb_spec (Z.of_nat (length (pp_buffer p))) (off + n)); [lia|].
  cbn [orb]. rewrite ring_range by lia. by rewrite !Z2Nat.id by lia.
Qed.

(** The pipe after the first [n] bytes were taken. *)
Definition advanced (n : Z) (p : PingPongPipe) : PingPongPipe :=
  set_pp_fill (pp_buffer p) (if pp_size p <=? pp_pos p + n then pp_pos p + n - pp_size p else pp_pos p + n) (pp_count p - n) p.

Lemma advanced_spec n p : pp_inv p -> 0 <= n <= pp_count p ->
  pp_inv (advanced n p) /\ pp_contents p = ring (pp_buffer p) (Z.to_nat (pp_pos p)) (Z.to_nat n) ++ pp_contents (advanced n p).
Proof.
  intros (Hl & Hs & Hp & Hc) Hn. split; [unfold pp_inv, advanced; cbn; destruct (Z.leb_spec (pp_size p) (pp_pos p + n)); lia|].
  unfold pp_contents, advanced. cbn [set_pp_fill pp_buffer pp_pos pp_count]. replace (Z.to_nat (pp_count p)) with (Z.to_nat n + Z.to_nat (pp_count p - n))%nat by lia. rewrite ring_split by lia. do 2 f_equal.
  destruct (Z.leb_spec (pp_size p) (pp_pos p + n)); wrapi_cases; lia.
Qed.

(** The bytes of one buffer. *)
Definition fetch_wrapped (p : PingPongPipe) (rpos avail : Z) : outcome (list Z) :=
  if u64 (rpos + avail) <=? pp_size p then pp_fetch p rpos avail
  else let avail2 := s32 (pp_size p - rpos) in b1 ← pp_fetch p rpos avail2; b2 ← pp_fetch p 0 (avail - avail2); Ret (b1 ++ b2).

Lemma fetch_wrapped_spec p n : pp_inv p -> 0 <= n <= pp_count p -> fetch_wrapped p (pp_pos p) n = Ret (ring (pp_buffer p) (Z.to_nat (pp_pos p)) (Z.to_nat n)).
Proof.
  intros (Hl & Hs & Hp & Hc) Hn. unfold fetch_wrapped. small. destruct (Z.leb_spec (pp_pos p + n) (pp_size p)); [rewrite pp_fetch_ok by lia; done|].
  rewrite !pp_fetch_ok by lia. cbn [mbind outcome_bind]. f_equal. replace (Z.to_nat n) with (Z.to_nat (pp_size p - pp_pos p) + Z.to_nat (n - (pp_size p - pp_pos p)))%nat by lia.
  rewrite ring_split by lia. do 2 f_equal. wrapi_cases; lia.
Qed.

Lemma recv_loop_spec sizes : forall ret p, sizes_ok sizes -> pp_inv p -> 0 <= ret -> 0 < ret + pp_count p < 2 ^ 31 -> let n := Z.min (sizes_sum sizes) (pp_count p) in
  exists bufs p', pp_recv_loop sizes ret p = Ret (ret + n, bufs, p') /\ pp_inv p' /\ concat bufs = take (Z.to_nat n) (pp_contents p) /\ pp_contents p' = drop (Z.to_nat n) (pp_contents p)
    /\ pp_count p' = pp_count p - n /\ Forall2 (fun b size => Z.of_nat (length b) <= size) bufs (take (length bufs) sizes) /\ same_pipe p p'.
Proof.
  induction sizes as [|size sizes IH]; intros ret p Hok Hi Hr Hrc; cbn [sizes_sum foldr]; pose proof Hi as (Hl & Hs & Hp & Hc).
  - exists [], p. cbn [pp_recv_loop]. rewrite Z.min_l by lia. cbn. rewrite !Z.add_0_r, Z.sub_0_r. done.
  - apply Forall_cons in Hok as [Hsz Hok]. fold (sizes_sum sizes). assert (0 <= sizes_sum sizes) as Hss by (clear -Hok; unfold sizes_sum; induction Hok; cbn; lia). cbn [pp_recv_loop]. small. destruct (Z.leb_spec (pp_count p) 0).
    + rewrite (proj2 (Z.eqb_neq ret 0)) by lia. exists [], p. rewrite Z.min_r by lia. replace (pp_count p) with 0 by lia. cbn. rewrite Z.add_0_r. replace (pp_count p) with 0 by lia. done.
    + set (a := Z.min size (pp_count p)). replace (if size <? pp_count p then s32 size else pp_count p) with a by (unfold a; destruct (Z.ltb_spec size (pp_count p)); [small; lia|lia]).
      assert (0 <= a <= pp_count p) as Ha by (unfold a; lia). rewrite !int_add_small by lia. cbn [mbind outcome_bind]. pose proof (fetch_wrapped_spec p a Hi Ha) as Ef. unfold fetch_wrapped in Ef. cbv zeta in Ef. cbn [mbind outcome_bind] in Ef. revert Ef. small. intros Ef. rewrite Ef. cbn [mbind outcome_bind].
      destruct (advanced_spec a p Hi Ha) as [Hi1 Ec]. small. fold (advanced a p). destruct (IH (ret + a) (advanced a p) Hok Hi1) as (bufs & p' & E & H1 & H2 & H3 & H4 & H5 & H6); [lia|cbn; lia|].
      cbn [advanced set_pp_fill pp_count] in E, H2, H3, H4. rewrite E. cbn [mbind outcome_bind]. set (n1 := Z.min (sizes_sum sizes) (pp_count p - a)) in *.
      assert (Z.min (size + sizes_sum sizes) (pp_count p) = a + n1) as -> by lia. eexists (_ :: bufs), p'. split; [by rewrite Z.add_assoc|]. split; [done|].
      assert (Z.to_nat (a + n1) = (Z.to_nat a + Z.to_nat n1)%nat) as -> by lia. pose proof (ring_length (pp_buffer p) (Z.to_nat (pp_pos p)) (Z.to_nat a)) as Hrl. rewrite Ec. cbn [concat]. rewrite H2, H3.
      rewrite take_app_add', drop_app_add' by done. split_and!; try done; [lia|]. cbn [length take]. constructor; [rewrite Hrl; lia|done].
Qed.

(** ** A queue of bytes *)

Inductive pp_op := OpSend (buffers : list GoldfishPipeBuffer) | OpRecv (sizes : list Z).

(** What the pipe answers: its result and the bytes received. *)
Fixpoint pp_run (realloc_ok : Z -> bool) (ops : list pp_op) (p : PingPongPipe) : outcome (list (Z * list Z) * PingPongPipe) :=
  match ops with
  | [] => Ret ([], p)
  | op :: ops =>
      '(answer, p) ← match op with
        | OpSend buffers => '(ret, p, _) ← pp_send realloc_ok buffers p; Ret (ret, [], p)
        | OpRecv sizes => '(ret, bufs, p, _) ← pp_recv sizes p; Ret (ret, concat bufs, p)
        end;
      '(answers, p) ← pp_run realloc_ok ops p; Ret (answer :: answers, p)
  end.

(** The reference: a list of bytes. *)
Fixpoint byte_queue_run (ops : list pp_op) (q : list Z) : list (Z * list Z) * list Z :=
  match ops with
  | [] => ([], q)
  | op :: ops =>
      let '(answer, q) := match op with
        | OpSend buffers => (buffers_size buffers, [], q ++ concat (buffer_data <$> buffers))
        | OpRecv sizes =>
            match q with
            | [] => (PIPE_ERROR_AGAIN, [], [])
            | _ => let n := Nat.min (Z.to_nat (sizes_sum sizes)) (length q) in (Z.of_nat n, take n q, drop n q)
            end
        end in
      let '(answers, q) := byte_queue_run ops q in (answer :: answers, q)
  end.

Definition pp_op_ok (op : pp_op) : Prop :=
  match op with OpSend buffers => Forall buffer_ok buffers /\ 0 < buffers_size buffers | OpRecv sizes => sizes_ok sizes /\ sizes <> [] end.
Definition op_sent (op : pp_op) : Z := match op with OpSend buffers => buffers_size buffers | OpRecv _ => 0 end.

Lemma foldl_size l : forall n, Forall buffer_ok l -> 0 <= n -> n + buffers_size l < 2 ^ 31 -> foldl (fun count b => s32 (count + b_size b)) n l = n + buffers_size l.
Proof.
  induction l as [|b l IH]; intros n Hok Hn Hs; [cbn; lia|]. apply Forall_cons in Hok as [[Hb _] Hok]. pose proof (buffers_size_pos l Hok). cbn [foldl buffers_size foldr] in *. fold (buffers_size l) in *.
  small. rewrite IH by (done || lia). lia.
Qed.

Lemma contents_length p : pp_inv p -> Z.of_nat (length (pp_contents p)) = pp_count p.
Proof. intros (_ & _ & _ & Hc). unfold pp_contents. rewrite ring_length. lia. Qed.

Section queue.
Context (realloc_ok : Z -> bool) (Hre : forall n, 0 < n <= 2 ^ 30 -> realloc_ok n = true).

Lemma pp_send_spec l p : Forall buffer_ok l -> 0 < buffers_size l -> pp_inv p -> pp_count p + buffers_size l <= 2 ^ 29 ->
  exists p' ev, pp_send realloc_ok l p = Ret (buffers_size l, p', ev) /\ pp_inv p' /\ pp_contents p' = pp_contents p ++ concat (buffer_data <$> l) /\ same_pipe p p'
    /\ ev = if nz (pp_flags p .& PIPE_WAKE_READ) then [PipeWake (pp_hwpipe p) PIPE_WAKE_READ] else [].
Proof.
  intros Hok Hs Hi Hc. pose proof Hi as (Hl & Hsz & Hp & Hcs). unfold pp_send. rewrite foldl_size by (done || lia). rewrite Z.add_0_l.
  destruct (grow_spec realloc_ok Hre (buffers_size l) 64 p Hi ltac:(lia) Hc ltac:(change (2 ^ Z.of_nat 64) with (2 ^ 64); lia)) as (p1 & -> & Hi1 & E1 & Ec1 & Hn & [Hh1 Hf1]). cbn [mbind outcome_bind].
  destruct (send_loop_spec l 0 p1 Hok Hi1 Hn ltac:(lia) ltac:(lia)) as (p2 & -> & Hi2 & E2 & Ec2 & _ & [Hh2 Hf2]). cbn [mbind outcome_bind]. rewrite Z.add_0_l. exists p2. eexists. split; [done|].
  rewrite E2, E1, Ec2, Hf2, Hf1, Hh2, Hh1. unfold same_pipe. rewrite Hh2, Hf2. destruct (Z.ltb_spec 0 (pp_count p1 + buffers_size l)); [|lia]. done.
Qed.

Lemma pp_recv_spec sizes p : sizes_ok sizes -> sizes <> [] -> pp_inv p -> let n := Nat.min (Z.to_nat (sizes_sum sizes)) (length (pp_contents p)) in
  exists bufs p' ev, pp_recv sizes p = Ret (if decide (pp_contents p = []) then PIPE_ERROR_AGAIN else Z.of_nat n, bufs, p', ev) /\ pp_inv p'
    /\ concat bufs = take n (pp_contents p) /\ pp_contents p' = drop n (pp_contents p) /\ same_pipe p p' /\ Forall2 (fun b size => Z.of_nat (length b) <= size) bufs (take (length bufs) sizes)
    /\ ev = if (pp_count p' <? PINGPONG_SIZE) && nz (pp_flags p .& PIPE_WAKE_WRITE) then [PipeWake (pp_hwpipe p) PIPE_WAKE_WRITE] else [].
Proof.
  intros Hok Hne Hi n. pose proof (contents_length p Hi) as Hlen. pose proof Hi as (Hl & Hsz & Hp & Hc). unfold pp_recv. destruct (decide (pp_contents p = [])) as [E|E].
  - destruct sizes as [|size sizes]; [done|]. rewrite E in Hlen. cbn in Hlen. cbn [pp_recv_loop]. rewrite <- Hlen. cbn [Z.leb]. change (s32 0 <=? 0) with true. cbn [mbind outcome_bind]. eexists [], p, _. split; [done|].
    unfold n. rewrite E. cbn [length]. rewrite Nat.min_0_r. split_and!; try done. 
  - assert (0 < pp_count p) as Hpos by (destruct (pp_contents p); [done|cbn in Hlen; lia]). destruct (recv_loop_spec sizes 0 p Hok Hi ltac:(lia) ltac:(lia)) as (bufs & p' & -> & Hi' & E1 & E2 & E3 & H4 & [Hh Hf]).
    assert (0 <= sizes_sum sizes) as Hss by (clear -Hok; unfold sizes_sum; induction Hok; cbn; lia). cbn [mbind outcome_bind]. exists bufs, p'. eexists.
    assert (Z.to_nat (Z.min (sizes_sum sizes) (pp_count p)) = n) as En by (unfold n; lia). rewrite En in E1, E2. assert (0 + Z.min (sizes_sum sizes) (pp_count p) = Z.of_nat n) as -> by (unfold n; lia). split; [done|]. rewrite Hf, Hh. unfold same_pipe. done.
Qed.

Lemma queue_run_spec ops : forall p, Forall pp_op_ok ops -> pp_inv p -> pp_count p + foldr (fun op n => op_sent op + n) 0 ops <= 2 ^ 29 ->
  exists p', pp_run realloc_ok ops p = Ret (fst (byte_queue_run ops (pp_contents p)), p') /\ pp_contents p' = snd (byte_queue_run ops (pp_contents p)).
Proof.
  induction ops as [|op ops IH]; intros p Hok Hi Hc; [by exists p|]. apply Forall_cons in Hok as [Ho Hok]. cbn [foldr] in Hc. cbn [pp_run byte_queue_run].
  assert (0 <= foldr (fun op n => op_sent op + n) 0 ops) as Hpos by (clear -Hok; induction Hok as [|[bs|sz] l Ho _ IHl]; cbn in *; lia). pose proof (contents_length p Hi) as Hlen.
  destruct op as [bs|sizes]; cbn [op_sent pp_op_ok] in *.
  - destruct Ho as [Hbs Hs]. destruct (pp_send_spec bs p Hbs Hs Hi ltac:(lia)) as (p1 & ev & -> & Hi1 & E1 & _ & _). cbn [mbind outcome_bind]. pose proof (contents_length p1 Hi1) as Hlen1.
    assert (Z.of_nat (length (concat (buffer_data <$> bs))) = buffers_size bs) as El by (clear -Hbs; induction Hbs as [|b l Hb _ IHl]; [done|]; cbn [fmap list_fmap concat buffers_size foldr]; rewrite length_app, Nat2Z.inj_add, IHl, length_data by done; done).
    destruct (IH p1 Hok Hi1) as (p' & E & E'); [rewrite <- Hlen1, E1, length_app; lia|]. rewrite E, E1 in *. cbn [mbind outcome_bind]. exists p'. destruct (byte_queue_run ops _). done.
  - destruct Ho as [Hs Hne]. destruct (pp_recv_spec sizes p Hs Hne Hi) as (bufs & p1 & ev & -> & Hi1 & E1 & E2 & _ & _ & _). cbn [mbind outcome_bind]. pose proof (contents_length p1 Hi1) as Hlen1.
    destruct (IH p1 Hok Hi1) as (p' & E & E'); [rewrite <- Hlen1, E2, length_drop; lia|]. rewrite E, E1. rewrite E2 in *. cbn [mbind outcome_bind]. exists p'. rewrite E'. case_decide as Hd; [rewrite Hd; cbn [length]; rewrite Nat.min_0_r; cbn [take drop]; by destruct (byte_queue_run ops [])|].
    destruct (pp_contents p) as [|b q] eqn:Eq; [done|]. destruct (byte_queue_run ops _). done.
Qed.
End queue.


