(* ===== verification/PipeSpec.v ===== *)
(** The goldfish pipe device keeps its lists, tells the guest about every pipe
    that was woken, and moves bytes between the guest's memory and its
    services. *)
From stdpp Require Import gmap strings.
From S2P Require Import Prelude CStrings ByteStream QemuFile Irq GoldfishDevice GoldfishTty GemTrace GuestMem GoldfishInt QemuTimer Qemud QemudMux GoldfishPipe PipeServices PingPong.
Open Scope list_scope.

Section invariant.
Context {St F G V : Type} (pic : list (qemu_irq V)) `{IrqLines V pic}.
Abbreviation D := (PipeDevice St F G V).
Implicit Types d : D.

(** ** The invariant *)

Definition connector_ok (c : PipeConnector) : Prop := length (pcon_buffer c) = 128%nat /\ 0 <= buffpos c <= 128.

(** A pipe without a service has a connector, one with a service an object of
    the service, unless it was closed by a load. *)
Definition pipe_ok (services : nat) (p : Pipe) : Prop :=
  in_u 8 (p_wanted p) /\ match p_service p with
  | None => exists c, p_opaque p = Connector c /\ connector_ok c
  | Some sv => (sv < services)%nat /\ (p_closed p <> 0 \/ exists n, p_opaque p = Peer n)
  end.

(** Closing a pipe wakes none. *)
Definition quiet_close (sv : PipeService St F G) : Prop := forall o s s' ev, pf_close (svc_funcs sv) o s = Ret (s', ev) -> ev = [].

Definition pipe_line d : bool := line_level (pd_irq d) (u32 (dev_irq (pd_dev d))).

Record dev_inv d : Prop := {
  di_irq : 0 < dev_irq_count (pd_dev d) /\ (Z.to_nat (u32 (dev_irq (pd_dev d))) < length pic)%nat /\ lines_ok (pd_irq d);
  di_pipes : NoDup (pd_pipes d);
  di_live : forall n, n ∈ pd_pipes d <-> is_Some (pd_heap d !! n);
  di_heap : forall n p, pd_heap d !! n = Some p -> pipe_ok (length (pd_services d)) p /\ (n < pd_next d)%nat;
  di_signaled : NoDup (pd_signaled d) /\ pd_signaled d ⊆ pd_pipes d;
  di_channels : forall n n' p p', pd_heap d !! n = Some p -> pd_heap d !! n' = Some p' -> p_chan p = p_chan p' -> n = n';
  di_line : pd_signaled d <> [] -> pipe_line d = true;
  di_quiet : Forall quiet_close (pd_services d);
}.

(** What the lists and the line do not depend on. *)
Lemma inv_same d d' : pd_dev d' = pd_dev d -> pd_heap d' = pd_heap d -> pd_next d' = pd_next d -> pd_pipes d' = pd_pipes d -> pd_signaled d' = pd_signaled d ->
  pd_services d' = pd_services d -> pd_irq d' = pd_irq d -> dev_inv d -> dev_inv d'.
Proof.
  intros E1 E2 E3 E4 E5 E6 E7 [H1 H2 H3 H4 H5 H6 H7 H8]. constructor; rewrite ?E1, ?E2, ?E3, ?E4, ?E5, ?E6, ?E7; try done. unfold pipe_line in *. by rewrite E1, E7.
Qed.

Lemma inv_status v d : dev_inv d -> dev_inv (set_pipe_status v d).
Proof. by apply inv_same. Qed.

Lemma inv_regs r d : dev_inv d -> dev_inv (set_pd_regs r d).
Proof. by apply inv_same. Qed.

Lemma inv_set_pipe n p p' d : pd_heap d !! n = Some p -> p_chan p' = p_chan p -> pipe_ok (length (pd_services d)) p' -> dev_inv d -> dev_inv (set_pipe n p' d).
Proof.
  intros Hp Hc Hok [H1 H2 H3 H4 H5 H6 H7 H8]. constructor; try done; cbn [pd_heap set_pipe set_pd_heap].
  - intros k. cbn. rewrite H3. destruct (decide (k = n)) as [->|]; [rewrite lookup_insert_eq, Hp; split; by eexists|by rewrite lookup_insert_ne].
  - intros k q. cbn. destruct (decide (k = n)) as [->|]; [|rewrite lookup_insert_ne by done; apply H4]. rewrite lookup_insert_eq. intros [= <-]. split; [done|]. by eapply H4.
  - assert (forall k q, <[n:=p']> (pd_heap d) !! k = Some q -> exists q', pd_heap d !! k = Some q' /\ p_chan q' = p_chan q) as Hl.
    { intros k q. destruct (decide (k = n)) as [->|]; [rewrite lookup_insert_eq; intros [= <-]; eauto|rewrite lookup_insert_ne by done; eauto]. }
    intros k k' q q' (r & Hr & Er)%Hl (r' & Hr' & Er')%Hl E. eapply H6; [done..|congruence].
Qed.

(** ** Waking *)

Lemma set_irq_ok l d : dev_inv d \/ (exists r, dev_inv (set_pd_signaled r d)) -> exists v, set_pipe_irq pic l d = Ret (set_pd_irq v d) /\ lines_ok v /\ line_level v (u32 (dev_irq (pd_dev d))) = nz l.
Proof.
  intros Hd. assert (0 < dev_irq_count (pd_dev d) /\ (Z.to_nat (u32 (dev_irq (pd_dev d))) < length pic)%nat /\ lines_ok (pd_irq d)) as (Hc & Hl & Hw) by (destruct Hd as [Hd|[r Hd]]; apply (di_irq _ Hd)).
  destruct (device_set_irq_some pic (pd_dev d) 0 l (pd_irq d)) as (line & Hn & E); [lia|done|by rewrite Z.add_0_r|]. rewrite Z.add_0_r in Hn. exists (qemu_set_irq (pd_irq d) line l).
  unfold set_pipe_irq. rewrite E. split; [done|]. split; [by eapply set_line_ok|]. apply (set_line_same pic); [apply (wrap_range 32); lia|done..].
Qed.

Lemma findp_waked_ok d l n : (forall k, k ∈ l -> is_Some (pd_heap d !! k)) -> pipe_list_findp_waked (pd_heap d) l n = Ret (bool_decide (n ∈ l)).
Proof.
  intros Hl. induction l as [|k l IH]; [done|]. cbn [pipe_list_findp_waked]. destruct (bool_decide_reflect (k = n)) as [->|Hk].
  - by rewrite bool_decide_eq_true_2 by set_solver.
  - destruct (Hl k ltac:(set_solver)) as [p ->]. rewrite IH by set_solver. f_equal. apply bool_decide_ext. set_solver.
Qed.

Definition signal (n : nat) (l : list nat) : list nat := if bool_decide (n ∈ l) then l else n :: l.

(** A wake always gets to the list and the line. *)
Lemma wake_spec n p flags d : dev_inv d -> pd_heap d !! n = Some p -> exists v,
  goldfish_pipe_wake pic n flags d = Ret (set_pd_irq v (set_pipe n (set_p_wanted (u8 (p_wanted p .| flags)) p) (set_pd_signaled (signal n (pd_signaled d)) d)))
  /\ lines_ok v /\ line_level v (u32 (dev_irq (pd_dev d))) = true.
Proof.
  intros Hd Hp. pose proof (di_signaled _ Hd) as [_ Hsub]. unfold goldfish_pipe_wake, the_pipe. rewrite Hp. cbn [mbind outcome_bind].
  rewrite findp_waked_ok by (intros k Hk; apply (di_live _ Hd); set_solver). cbn [mbind outcome_bind].
  set (p' := set_p_wanted (u8 (p_wanted p .| flags)) p). destruct (set_irq_ok 1 (set_pipe n p' (set_pd_signaled (signal n (pd_signaled d)) d))) as (v & E & Hv & Hl).
  { right. exists (pd_signaled d). eapply inv_same; [..|apply (inv_set_pipe n p p' d)]; try done. destruct (di_heap _ Hd _ _ Hp) as [[Hw Hs] _]. split; [by apply wrap_range|done]. }
  exists v. split; [|done]. rewrite <- E. unfold signal. by destruct (bool_decide (n ∈ pd_signaled d)).
Qed.

(** What a service or the host does to the lists: pipes neither come nor go. *)
Definition woken d d' : Prop :=
  dev_inv d' /\ pd_pipes d' = pd_pipes d /\ pd_services d' = pd_services d /\ pd_regs d' = pd_regs d /\ pd_next d' = pd_next d
  /\ forall n p', pd_heap d' !! n = Some p' -> exists p, pd_heap d !! n = Some p /\ p_opaque p' = p_opaque p /\ p_service p' = p_service p /\ p_args p' = p_args p /\ p_chan p' = p_chan p.

Lemma woken_refl d : dev_inv d -> woken d d.
Proof. intros Hd. split_and!; try done. eauto 10. Qed.

Lemma woken_trans d d1 d2 : woken d d1 -> woken d1 d2 -> woken d d2.
Proof.
  intros (_ & E1 & E2 & E3 & E4 & Hh) (Hd & E1' & E2' & E3' & E4' & Hh'). split_and!; try congruence. intros n p2 (p1 & Hp1 & A1 & A2 & A3 & A4)%Hh'. destruct (Hh _ _ Hp1) as (p & Hp & B1 & B2 & B3 & B4). exists p. split_and!; congruence.
Qed.

Lemma woken_set_pipe n p p' d : dev_inv d -> pd_heap d !! n = Some p -> p_opaque p' = p_opaque p -> p_service p' = p_service p -> p_args p' = p_args p -> p_chan p' = p_chan p -> pipe_ok (length (pd_services d)) p' ->
  woken d (set_pipe n p' d).
Proof.
  intros Hd Hp H1 H2 H3 H4 Hok. split_and!; try done; [by eapply inv_set_pipe|]. intros k q. cbn. destruct (decide (k = n)) as [->|]; [rewrite lookup_insert_eq; intros [= <-]; eauto 10|rewrite lookup_insert_ne by done; eauto 10].
Qed.

Lemma signal_elem n k l : k ∈ signal n l <-> k = n \/ k ∈ l.
Proof. unfold signal. case_bool_decide; set_solver. Qed.

Lemma wake_woken n flags d d' : dev_inv d -> goldfish_pipe_wake pic n flags d = Ret d' -> woken d d'.
Proof.
  intros Hd. destruct (pd_heap d !! n) as [p|] eqn:Hp; [|unfold goldfish_pipe_wake, the_pipe; by rewrite Hp].
  destruct (wake_spec n p flags d Hd Hp) as (v & -> & Hv & Hl). intros [= <-]. set (p' := set_p_wanted _ p).
  assert (woken d (set_pipe n p' d)) as Hw. { apply (woken_set_pipe n p); try done. destruct (di_heap _ Hd _ _ Hp) as [[_ Hs] _]. split; [by apply wrap_range|done]. }
  destruct Hw as ([H1 H2 H3 H4 H5 H6 H7 H8] & Hw). split; [|exact Hw]. constructor; try done; cbn [pd_signaled set_pd_irq set_pipe set_pd_heap set_pd_signaled pd_pipes] in *.
  - destruct H1 as (? & ? & _). done.
  - destruct H5 as [Hn Hsub]. unfold signal. case_bool_decide as He; [done|]. split; [by constructor|]. intros k [->|Hk]%elem_of_cons; [|by apply Hsub]. apply (di_live _ Hd). by eexists.
Qed.

Lemma close_woken n d d' : dev_inv d -> goldfish_pipe_close pic n d = Ret d' -> woken d d'.
Proof.
  intros Hd (p & Hp & E)%bind_Ret. unfold the_pipe in Hp. destruct (pd_heap d !! n) as [q|] eqn:Hq; [|done]. injection Hp as ->. destruct (nz (p_closed p)); [injection E as <-; by apply woken_refl|].
  assert (woken d (set_pipe n (set_p_closed 1 p) d)) as Hw.
  { apply (woken_set_pipe n p); try done. destruct (di_heap _ Hd _ _ Hq) as [[Hu Hs] _]. split; [done|]. cbn. destruct (p_service p); [|done]. split; [apply Hs|by left]. }
  eapply woken_trans; [exact Hw|]. eapply wake_woken; [apply Hw|exact E].
Qed.

Lemma events_woken ev : forall d d', dev_inv d -> foldM (run_pipe_event pic) d ev = Ret d' -> woken d d'.
Proof.
  induction ev as [|e ev IH]; intros d d' Hd; cbn [foldM]; [intros [= <-]; by apply woken_refl|]. intros (d1 & E1 & E2)%bind_Ret.
  assert (woken d d1) as Hw by (destruct e; [by eapply wake_woken|by eapply close_woken]). eapply woken_trans; [exact Hw|]. apply IH; [apply Hw|done].
Qed.

Lemma after_woken s ev d d' : dev_inv d -> after_call pic s ev d = Ret d' -> woken d d'.
Proof.
  intros Hd E. assert (woken d (set_pd_state s d)) as Hw by (split; [by apply (inv_same d)|]; split_and!; try done; eauto 10). eapply woken_trans; [exact Hw|]. eapply events_woken; [apply Hw|exact E].
Qed.

(** ** Commands *)

Lemma the_pipe_Ret n p d : the_pipe n d = Ret p <-> pd_heap d !! n = Some p.
Proof. unfold the_pipe. destruct (pd_heap d !! n); naive_solver. Qed.

Lemma connector_fill_ok l : forall c ret c' ret', connector_ok c -> connector_fill c l ret = Ret (c', ret') -> connector_ok c'.
Proof.
  induction l as [|b l IH]; intros c ret c' ret' Hc; cbn [connector_fill]; [by intros [= <- <-]|]. destruct (b_size b =? 0); [by apply IH|]. destruct (Z.ltb_spec 0 (Z.min (128 - buffpos c) (b_size b))) as [Hlt|]; [|by apply IH].
  intros (bytes & Eb & E)%bind_Ret. eapply IH; [|exact E]. destruct Hc as [Hl Hp]. unfold buffer_bytes in Eb. destruct (_ || _) eqn:Eo; [done|]. injection Eb as <-. apply orb_false_iff in Eo as [Eo1 Eo]. apply orb_false_iff in Eo1 as [_ Eo1].
  assert (Z.of_nat (length (range (b_data b) 0 (Z.min (128 - buffpos c) (b_size b)))) = Z.min (128 - buffpos c) (b_size b)) as Er by (apply length_range; lia).
  split; cbn [pcon_buffer buffpos]; [|lia]. pose proof (length_blit (pcon_buffer c) (buffpos c) (range (b_data b) 0 (Z.min (128 - buffpos c) (b_size b)))). lia.
Qed.

Lemma connector_name_ok c name args c' : connector_ok c -> connector_name c = (name, args, c') -> connector_ok c'.
Proof.
  intros [Hl Hp]. unfold connector_name. destruct (strchr_split 58 (drop 5 (pcon_buffer c))) as [[a b]|] eqn:E; intros [= <- <- <-]; [|done]. split; [|done]. cbn [pcon_buffer].
  assert (length (drop 5 (pcon_buffer c)) = (length a + S (length b))%nat) as El by (clear -E; revert a E; induction (drop 5 (pcon_buffer c)) as [|x l IH]; intros a; [done|]; cbn; destruct (x =? 58); [by intros [= <- <-]|destruct (x =? 0); [done|destruct (strchr_split 58 l) as [[a' b']|]; [|done]; intros [= <- <-]; cbn; rewrite (IH a') by done; lia]]).
  rewrite length_drop in El. pose proof (length_blit (pcon_buffer c) (5 + Z.of_nat (length a)) [0]). cbn in *. lia.
Qed.

Lemma find_type_lt (l : list (PipeService St F G)) : forall nn name sv, find_type l nn name = Some sv -> (sv < nn + length l)%nat.
Proof.
  induction l as [|x l IH]; intros nn name sv; [done|]. cbn. case_bool_decide; [intros [= ->]; lia|]. intros Hf%IH. lia.
Qed.

(** The list of channels. *)
Lemma findp_channel_Some d l ch n : pipe_list_findp_channel (pd_heap d) l ch = Ret (Some n) -> n ∈ l /\ exists p, pd_heap d !! n = Some p /\ p_chan p = ch.
Proof.
  induction l as [|k l IH]; [done|]. cbn [pipe_list_findp_channel]. destruct (pd_heap d !! k) as [p|] eqn:Hk; [|done]. destruct (Z.eqb_spec (p_chan p) ch) as [Hc|]; [|intros [? ?]%IH; split; [set_solver|done]].
  intros [= ->]. split; [set_solver|eauto].
Qed.

Lemma findp_channel_None d l ch : pipe_list_findp_channel (pd_heap d) l ch = Ret None -> forall n p, n ∈ l -> pd_heap d !! n = Some p -> p_chan p <> ch.
Proof.
  induction l as [|k l IH]; [set_solver|]. cbn [pipe_list_findp_channel]. destruct (pd_heap d !! k) as [q|] eqn:Hk; [|done]. destruct (Z.eqb_spec (p_chan q) ch) as [Hc|Hc]; [done|]. intros E n p [->|Hn]%elem_of_cons Hp; [congruence|by eapply IH].
Qed.

Lemma send_inv n l d ret d' : dev_inv d -> pipe_send pic n l d = Ret (ret, d') -> dev_inv d'.
Proof.
  intros Hd (p & Hp%the_pipe_Ret & E)%bind_Ret. pose proof (di_heap _ Hd _ _ Hp) as [[Hu Hs] _]. destruct (p_service p) as [sv|] eqn:Esv.
  - apply bind_Ret in E as (funcs & _ & E). apply bind_Ret in E as (peer & _ & E). apply bind_Ret in E as ([[ret1 s] ev] & _ & E). apply bind_Ret in E as (d1 & E1 & E). injection E as <- <-. by apply (after_woken _ _ _ _ Hd E1).
  - apply bind_Ret in E as (c & Ec & E). unfold connector_of in Ec. destruct Hs as (c0 & Eo & Hc). rewrite Eo in Ec. injection Ec as <-. unfold pipeConnector_sendBuffers in E. apply bind_Ret in E as (p1 & Hp1%the_pipe_Ret & E). assert (p1 = p) as -> by congruence.
    apply bind_Ret in E as ([c1 ret1] & Ef & E). apply connector_fill_ok in Ef; [|done]. assert (forall c, connector_ok c -> dev_inv (set_pipe n (set_p_opaque (Connector c) p) d)) as Hk.
    { intros c Hcok. apply (inv_set_pipe n p); try done. split; [done|]. cbn. rewrite Esv. eauto. }
    destruct (negb _); [injection E as <- <-; by apply Hk|]. destruct (negb _); [injection E as <- <-; by apply Hk|]. destruct (connector_name c1) as [[name args] c2] eqn:En. apply connector_name_ok in En; [|done].
    destruct (goldfish_pipe_find_type name d) as [svc|] eqn:Et; [|injection E as <- <-; by apply Hk]. apply find_type_lt in Et. apply bind_Ret in E as (funcs & _ & E). apply bind_Ret in E as ([[peer s] ev] & _ & E). apply bind_Ret in E as (d1 & E1 & E).
    pose proof (after_woken _ _ _ _ (Hk _ En) E1) as Hw. destruct peer as [peer|]; [|injection E as <- <-; apply Hw]. apply bind_Ret in E as (p2 & Hp2%the_pipe_Ret & E). injection E as <- <-. destruct Hw as (Hd1 & _ & Esv1 & _).
    apply (inv_set_pipe n p2); try done. destruct (di_heap _ Hd1 _ _ Hp2) as [[Hu2 _] _]. split; [done|]. cbn. rewrite Esv1. cbn. split; [lia|eauto].
Qed.

Lemma recv_woken n sizes d ret bufs d' : dev_inv d -> pipe_recv pic n sizes d = Ret (ret, bufs, d') -> woken d d'.
Proof.
  intros Hd (p & Hp%the_pipe_Ret & E)%bind_Ret. destruct (p_service p) as [sv|]; [|injection E as <- <- <-; by apply woken_refl].
  apply bind_Ret in E as (funcs & _ & E). apply bind_Ret in E as (peer & _ & E). apply bind_Ret in E as ([[[ret1 b] s] ev] & _ & E). apply bind_Ret in E as (d1 & E1 & E). injection E as <- <- <-. by eapply after_woken.
Qed.

Lemma wakeOn_woken n flags d d' : dev_inv d -> pipe_wakeOn pic n flags d = Ret d' -> woken d d'.
Proof.
  intros Hd (p & Hp%the_pipe_Ret & E)%bind_Ret. destruct (p_service p) as [sv|]; [|injection E as <-; by apply woken_refl].
  apply bind_Ret in E as (funcs & _ & E). apply bind_Ret in E as (peer & _ & E). apply bind_Ret in E as ([s ev] & _ & E). by eapply after_woken.
Qed.

Lemma remove_pipe_elem n l k : NoDup l -> k ∈ remove_pipe n l <-> k ∈ l /\ k <> n.
Proof.
  induction 1 as [|x l Hx Hn IH]; [set_solver|]. cbn [remove_pipe]. case_bool_decide; [|rewrite !elem_of_cons, IH]; set_solver.
Qed.

Lemma remove_pipe_NoDup n l : NoDup l -> NoDup (remove_pipe n l).
Proof.
  induction 1 as [|x l Hx Hn IH]; [constructor|]. cbn [remove_pipe]. case_bool_decide; [done|]. constructor; [rewrite remove_pipe_elem by done; tauto|done].
Qed.

Lemma remove_absent n l : n ∉ l -> remove_pipe n l = l.
Proof. induction l as [|x l IH]; [done|]. cbn [remove_pipe]. intros Hn. rewrite bool_decide_eq_false_2 by set_solver. by rewrite IH by set_solver. Qed.

(** The device without the pipe. *)
Definition without (n : nat) (s : St) d : D :=
  set_pd_heap (delete n (pd_heap d)) (set_pd_state s (set_pd_signaled (remove_pipe n (pd_signaled d)) (set_pd_pipes (remove_pipe n (pd_pipes d)) d))).

Lemma close_spec n d d' : dev_inv d -> cmd_close pic n d = Ret d' -> exists s, d' = without n s d.
Proof.
  intros Hd. pose proof (di_signaled _ Hd) as [_ Hsub]. unfold cmd_close, pipe_list_remove_waked. cbn [pd_heap pd_signaled set_pd_pipes].
  rewrite findp_waked_ok by (intros k Hk; apply (di_live _ Hd); set_solver). cbn [mbind outcome_bind].
  assert ((if bool_decide (n ∈ pd_signaled d) then set_pd_signaled (remove_pipe n (pd_signaled d)) (set_pd_pipes (remove_pipe n (pd_pipes d)) d) else set_pd_pipes (remove_pipe n (pd_pipes d)) d)
    = set_pd_signaled (remove_pipe n (pd_signaled d)) (set_pd_pipes (remove_pipe n (pd_pipes d)) d)) as -> by (case_bool_decide; [done|]; rewrite (remove_absent n (pd_signaled d)) by done; by destruct d).
  unfold pipe_free. intros (p & Hp & E)%bind_Ret. apply the_pipe_Ret in Hp. destruct (p_service p) as [sv|].
  - apply bind_Ret in E as (d1 & E1 & E). injection E as <-. apply bind_Ret in E1 as (funcs & Ef & E1). apply bind_Ret in E1 as ([s ev] & Ec & E1).
    assert (ev = []) as ->. { unfold the_service in Ef. cbn in Ef. destruct (pd_services d !! sv) as [x|] eqn:Ex; [|done]. injection Ef as <-. pose proof (di_quiet _ Hd) as Hq. rewrite Forall_lookup in Hq. by eapply Hq. }
    injection E1 as <-. by exists s.
  - apply bind_Ret in E as (d1 & E1 & E). apply bind_Ret in E1 as (c & _ & E1). injection E1 as <-. injection E as <-. exists (pd_state d). by destruct d.
Qed.

Lemma without_inv n s d : dev_inv d -> dev_inv (without n s d).
Proof.
  intros [H1 H2 H3 H4 [H5 H5'] H6 H7 H8]. constructor; try done; cbn.
  - by apply remove_pipe_NoDup.
  - intros k. rewrite remove_pipe_elem, H3 by done. destruct (decide (k = n)) as [->|]; [rewrite lookup_delete_eq; split; [tauto|by intros []]|rewrite lookup_delete_ne by done; tauto].
  - intros k p [Hk Hp]%lookup_delete_Some. by apply H4.
  - split; [by apply remove_pipe_NoDup|]. intros k. rewrite !remove_pipe_elem by done. set_solver.
  - intros k k' p p' [_ Hp]%lookup_delete_Some [_ Hp']%lookup_delete_Some. by eapply H6.
  - intros Hn. apply H7. by destruct (pd_signaled d).
Qed.

Lemma open_inv d : dev_inv d -> (forall n p, n ∈ pd_pipes d -> pd_heap d !! n = Some p -> p_chan p <> r_channel (pd_regs d)) -> dev_inv (cmd_open d).
Proof.
  intros [H1 H2 H3 H4 [H5 H5'] H6 H7 H8] Hch. assert (pd_heap d !! pd_next d = None) as Hn by (destruct (pd_heap d !! pd_next d) as [p|] eqn:E; [destruct (H4 _ _ E); lia|done]). constructor; try done; cbn.
  - constructor; [|done]. rewrite H3, Hn. by intros [].
  - intros k. rewrite elem_of_cons, H3. destruct (decide (k = pd_next d)) as [->|]; [rewrite lookup_insert_eq; split; [by eexists|by left]|rewrite lookup_insert_ne by done; naive_solver].
  - intros k p. destruct (decide (k = pd_next d)) as [->|]; [rewrite lookup_insert_eq; intros [= <-]; split; [|lia]; split; [unfold in_u; cbn; lia|]; exists pipeConnector_new; split; [done|]; split; [done|cbn; lia]|rewrite lookup_insert_ne by done; intros Hp; destruct (H4 _ _ Hp); split; [done|lia]].
  - split; [done|set_solver].
  - assert (forall k q, pd_heap d !! k = Some q -> p_chan q <> r_channel (pd_regs d)) as Hc by (intros k q Hq; eapply Hch; [|exact Hq]; rewrite H3; by eexists).
    intros k k' p p'. destruct (decide (k = pd_next d)) as [->|], (decide (k' = pd_next d)) as [->|]; rewrite ?lookup_insert_eq, ?lookup_insert_ne by done; [done|intros [= <-] Hp' E; by destruct (Hc _ _ Hp')|intros Hp [= <-] E; by destruct (Hc _ _ Hp)|by apply H6].
Qed.

(** ** Reading the pipes that were woken *)

Lemma next_signaled_spec n l d : dev_inv d -> pd_signaled d = n :: l -> exists p d', pd_heap d !! n = Some p /\ next_signaled pic d = Ret (p_chan p .& 0xFFFFFFFF, d') /\ dev_inv d'
  /\ pd_signaled d' = l /\ pd_pipes d' = pd_pipes d /\ pd_heap d' = <[n := set_p_wanted 0 p]> (pd_heap d) /\ r_wakes (pd_regs d') = p_wanted p /\ pd_dev d' = pd_dev d /\ pipe_line d' = bool_decide (l <> []).
Proof.
  intros Hd Hs. pose proof (di_signaled _ Hd) as [Hnd Hsub]. rewrite Hs in Hnd, Hsub. apply NoDup_cons in Hnd as [Hn Hnd]. destruct (proj1 (di_live _ Hd n) ltac:(set_solver)) as [p Hp].
  exists p. unfold next_signaled. rewrite Hs. unfold the_pipe. rewrite Hp. cbn [mbind outcome_bind]. set (d1 := set_pd_signaled l _).
  assert (dev_inv (set_pipe n (set_p_wanted 0 p) d)) as Hi by (apply (inv_set_pipe n p); [done..| |done]; destruct (di_heap _ Hd _ _ Hp) as [[_ Hs'] _]; split; [unfold in_u; cbn; lia|done]).
  assert (forall v, lines_ok v -> (l <> [] -> line_level v (u32 (dev_irq (pd_dev d))) = true) -> dev_inv (set_pd_irq v d1)) as Hiv.
  { intros v Hv Hl. destruct Hi as [H1 H2 H3 H4 _ H6 _ H8]. constructor; try done; cbn [pd_signaled set_pd_irq d1 set_pd_signaled pd_pipes set_pipe set_pd_heap]; [destruct H1 as (? & ? & _); done|]. split; [done|]. intros k Hk. apply Hsub. set_solver. }
  destruct l as [|k l].
  - destruct (set_irq_ok 0 d1) as (v & Ev & Hv & Hlv). { right. exists [n]. eapply inv_same; [..|exact Hi]; try done; cbn; by rewrite Hs. }
    rewrite Ev. cbn [mbind outcome_bind]. eexists. split_and!; try done. by apply Hiv.
  - cbn [mbind outcome_bind]. exists d1. pose proof (di_line _ Hd) as Hl. rewrite Hs in Hl. split_and!; try done; [|unfold pipe_line in *; cbn; by rewrite Hl].
    replace d1 with (set_pd_irq (pd_irq d) d1) by done. apply Hiv; [apply (di_irq _ Hd)|intros _; by apply Hl].
Qed.

Lemma dev_read_inv offset d v d' : dev_inv d -> pipe_dev_read pic offset d = Ret (v, d') -> dev_inv d'.
Proof.
  intros Hd. unfold pipe_dev_read. destruct (_ =? PIPE_REG_STATUS); [by intros [= <- <-]|]. destruct (_ =? PIPE_REG_CHANNEL).
  - destruct (pd_signaled d) as [|n l] eqn:Hs; [unfold next_signaled; rewrite Hs; by intros [= <- <-]|]. destruct (next_signaled_spec n l d Hd Hs) as (p & d1 & _ & -> & Hd1 & _). by intros [= <- <-].
  - destruct (_ =? PIPE_REG_CHANNEL_HIGH); [destruct (pd_signaled d); [by intros [= <- <-]|intros (p & _ & E)%bind_Ret; by injection E as <- <-]|]. repeat (destruct (_ =? _); [by intros [= <- <-]|]). by intros [= <- <-].
Qed.

(** What the guest's driver does for each pipe on an interrupt. *)
Definition read_wake d : outcome (Z * Z * Z * D) :=
  '(hi, d) ← pipe_dev_read pic PIPE_REG_CHANNEL_HIGH d;
  '(lo, d) ← pipe_dev_read pic PIPE_REG_CHANNEL d;
  '(wakes, d) ← pipe_dev_read pic PIPE_REG_WAKES d;
  Ret (hi, lo, wakes, d).

Fixpoint read_wakes (count : nat) d : outcome (list (Z * Z * Z) * D) :=
  match count with
  | O => Ret ([], d)
  | Datatypes.S count => '(w, d) ← read_wake d; '(ws, d) ← read_wakes count d; Ret (w :: ws, d)
  end.

Definition wake_of d (n : nat) : Z * Z * Z :=
  match pd_heap d !! n with Some p => (u32 (p_chan p .>> 32), p_chan p .& 0xFFFFFFFF, p_wanted p) | None => (0, 0, 0) end.

Lemma read_wakes_spec l : forall d, dev_inv d -> pd_signaled d = l -> exists d', read_wakes (length l) d = Ret (wake_of d <$> l, d') /\ dev_inv d' /\ pd_signaled d' = [] /\ pd_pipes d' = pd_pipes d
  /\ pipe_line d' = if decide (l = []) then pipe_line d else false.
Proof.
  induction l as [|n l IH]; intros d Hd Hs; [by exists d|]. cbn [length read_wakes]. destruct (next_signaled_spec n l d Hd Hs) as (p & d1 & Hp & E & Hd1 & Hs1 & Hp1 & Hh1 & Hw1 & Hdv & Hl1).
  assert (read_wake d = Ret (wake_of d n, d1)) as ->.
  { unfold read_wake, wake_of. rewrite Hp.
    assert (pipe_dev_read pic PIPE_REG_CHANNEL_HIGH d = Ret (u32 (p_chan p .>> 32), d)) as -> by (unfold pipe_dev_read; change (PIPE_REG_CHANNEL_HIGH =? PIPE_REG_STATUS) with false; change (PIPE_REG_CHANNEL_HIGH =? PIPE_REG_CHANNEL) with false; change (PIPE_REG_CHANNEL_HIGH =? PIPE_REG_CHANNEL_HIGH) with true; cbv iota zeta; rewrite Hs; unfold the_pipe; by rewrite Hp).
    cbn [mbind outcome_bind]. assert (pipe_dev_read pic PIPE_REG_CHANNEL d = next_signaled pic d) as -> by done. rewrite E. cbn [mbind outcome_bind].
    assert (pipe_dev_read pic PIPE_REG_WAKES d1 = Ret (r_wakes (pd_regs d1), d1)) as -> by done. cbn [mbind outcome_bind]. by rewrite Hw1. }
  cbn [mbind outcome_bind]. destruct (IH d1 Hd1 Hs1) as (d' & -> & Hd' & H1 & H2 & H3). cbn [mbind outcome_bind]. exists d'. split; [|split_and!; try done; [congruence|by rewrite H3, Hl1; destruct l]].
  do 2 f_equal. cbn [fmap list_fmap]. f_equal. apply list_fmap_ext. intros i k Hk%list_elem_of_lookup_2. unfold wake_of. rewrite Hh1, lookup_insert_ne; [done|]. intros <-. pose proof (di_signaled _ Hd) as [Hnd _]. rewrite Hs in Hnd. by apply NoDup_cons in Hnd as [? _].
Qed.

(** ** The registers *)

Context {W : Type}.
Context (io_mem_write : Z -> Z -> Z -> Z -> W -> W) (io_mem_read : Z -> Z -> Z -> W -> Z * W).
Context (TL PB : Z) (phys_page_find : Z -> option PhysPageDesc) (cpu_get_phys_page_debug : Z -> option Z) (env : cpu_regs).
Context (ram_blocks : list (Z * Z)) (is_64bit : bool).

Abbreviation doCommand := (pipeDevice_doCommand pic TL PB cpu_get_phys_page_debug ram_blocks (S := St) (F := F) (G := G) (W := W)).
Abbreviation dev_write := (pipe_dev_write pic io_mem_write io_mem_read TL PB phys_page_find cpu_get_phys_page_debug env ram_blocks is_64bit (S := St) (F := F) (G := G)).

Lemma doCommand_inv command d m d' m' : dev_inv d -> doCommand command d m = Ret (d', m') -> dev_inv d'.
Proof.
  intros Hd (lookup & El & E)%bind_Ret. destruct lookup as [n|].
  - apply bind_Ret in E as (p & Hp%the_pipe_Ret & E). destruct (_ && _); [injection E as <- <-; by apply inv_status|]. destruct (command =? PIPE_CMD_OPEN); [injection E as <- <-; by apply inv_status|].
    destruct (command =? PIPE_CMD_CLOSE). { apply bind_Ret in E as (d1 & E1 & E). injection E as <- <-. destruct (close_spec n d d1 Hd E1) as [s ->]. by apply without_inv. }
    destruct (command =? PIPE_CMD_POLL). { apply bind_Ret in E as (st & _ & E). injection E as <- <-. by apply inv_status. }
    destruct (command =? PIPE_CMD_READ_BUFFER). { unfold cmd_read_buffer in E. apply bind_Ret in E as ([ptr limit] & _ & E). apply bind_Ret in E as ([[ret bufs] d1] & E1 & E). cbv beta iota zeta in E. destruct (_ && _); [done|]. injection E as <- <-. apply inv_status. by apply (recv_woken _ _ _ _ _ _ Hd E1). }
    destruct (command =? PIPE_CMD_WRITE_BUFFER). { apply bind_Ret in E as (d1 & E1 & E). injection E as <- <-. unfold cmd_write_buffer in E1. apply bind_Ret in E1 as ([ptr limit] & _ & E1). apply bind_Ret in E1 as ([ret d2] & E2 & E1). injection E1 as <-. apply inv_status. by eapply send_inv. }
    assert (forall flag d1, in_u 8 flag -> cmd_wake_on pic n flag d = Ret d1 -> dev_inv d1) as Hwk.
    { intros flag d1 Hf E1. unfold cmd_wake_on in E1. apply bind_Ret in E1 as (q & Hq%the_pipe_Ret & E1). assert (q = p) as -> by congruence. apply bind_Ret in E1 as (d2 & E2 & E1). injection E1 as <-. apply inv_status. destruct (nz _); [by injection E2 as <-|].
      eapply wakeOn_woken; [|exact E2]. apply (inv_set_pipe n p); try done. destruct (di_heap _ Hd _ _ Hp) as [[Hu Hs] _]. split; [by apply in_u_lor|done]. }
    destruct (command =? PIPE_CMD_WAKE_ON_READ); [apply bind_Ret in E as (d1 & E1 & E); injection E as <- <-; eapply Hwk; [|exact E1]; by vm_compute|].
    destruct (command =? PIPE_CMD_WAKE_ON_WRITE); [apply bind_Ret in E as (d1 & E1 & E); injection E as <- <-; eapply Hwk; [|exact E1]; by vm_compute|]. by injection E as <- <-.
  - injection E as <- <-. destruct (negb (command =? PIPE_CMD_OPEN)); [by apply inv_status|]. apply open_inv; [done|]. by apply findp_channel_None.
Qed.

Lemma dev_write_inv offset value d m d' m' : dev_inv d -> dev_write offset value d m = Ret (d', m') -> dev_inv d'.
Proof.
  intros Hd. unfold pipe_dev_write. destruct (_ =? PIPE_REG_COMMAND); [by apply doCommand_inv|]. do 7 (destruct (_ =? _); [intros [= <- <-]; by apply inv_regs|]). destruct (_ =? PIPE_REG_ACCESS_PARAMS); [|by intros [= <- <-]].
  unfold access_params. destruct (_ =? 0); [by intros [= <- <-]|]. intros ([aps m1] & _ & E)%bind_Ret. cbv beta iota zeta in E. destruct (_ && _); [injection E as <- <-; by apply inv_regs|].
  apply bind_Ret in E as ([d1 m2] & E1 & E). apply bind_Ret in E as (m3 & _ & E). injection E as <- <-. eapply doCommand_inv; [|exact E1]. by apply inv_regs.
Qed.

(** ** What the device guarantees *)

(** The guest's accesses, and what the services do on their own. *)
Inductive device_op := GuestWrite (offset value : Z) | GuestRead (offset : Z) | ServiceCalls (s : St) (events : list pipe_event).

Definition pipe_step (dm : D * gmachine (W := W)) (op : device_op) : outcome (D * gmachine (W := W)) :=
  let '(d, m) := dm in
  match op with
  | GuestWrite offset value => dev_write offset value d m
  | GuestRead offset => '(_, d) ← pipe_dev_read pic offset d; Ret (d, m)
  | ServiceCalls s events => d ← after_call pic s events d; Ret (d, m)
  end.

Lemma steps_inv ops : forall dm dm', dev_inv dm.1 -> foldM pipe_step dm ops = Ret dm' -> dev_inv dm'.1.
Proof.
  intros dm dm' Hd. apply (foldM_inv (fun dm => dev_inv dm.1)); [|done]. clear. intros [d m] op [d' m'] Hd E. cbn in *. destruct op as [offset value|offset|s ev].
  - by eapply dev_write_inv.
  - apply bind_Ret in E as ([v d1] & E1 & E). injection E as <- <-. by eapply dev_read_inv.
  - apply bind_Ret in E as (d1 & E1 & E). injection E as <- <-. by apply (after_woken _ _ _ _ Hd E1).
Qed.
End invariant.

(** C16: the lists of the pipe device agree, whatever the guest writes to and
    reads from its registers and whatever pipes the services wake and close in
    between. The pipes of the list are exactly those in memory, each once and
    each with a channel of its own; each has a connector or an object of a
    registered service; the list of the pipes that were woken holds pipes that
    are open, each once; and while it is not empty the interrupt line is up.
    Closing must not wake, which is so for the services of the file. *)
Theorem pipe_lists_agree {St F G V W : Type} (pic : list (qemu_irq V)) `{IrqLines V pic} io_mem_write io_mem_read TL PB phys_page_find cpu_get_phys_page_debug env ram_blocks is_64bit
    (d d' : PipeDevice St F G V) (m m' : gmachine (W := W)) (ops : list device_op) :
  dev_inv pic d -> foldM (pipe_step pic io_mem_write io_mem_read TL PB phys_page_find cpu_get_phys_page_debug env ram_blocks is_64bit) (d, m) ops = Ret (d', m') -> dev_inv pic d'.
Proof. intros Hd E. exact (steps_inv pic _ _ _ _ _ _ _ _ _ ops (d, m) (d', m') Hd E). Qed.

(** C17: a pipe that is woken gets to the guest. Waking any open pipe raises the
    interrupt; reading the two halves of the channel and the flags as often as
    there are pipes in the list gives the guest the channel of this pipe with
    the flags it was woken with and those from before, and leaves the list
    empty and the line down. *)
Theorem wake_reaches_guest {St F G V : Type} (pic : list (qemu_irq V)) `{IrqLines V pic} (d : PipeDevice St F G V) (n : nat) (p : Pipe) (flags : Z) :
  dev_inv pic d -> pd_heap d !! n = Some p ->
  exists d1 d2 wakes, goldfish_pipe_wake pic n flags d = Ret d1 /\ pipe_line pic d1 = true
    /\ read_wakes pic (length (pd_signaled d1)) d1 = Ret (wakes, d2)
    /\ (u32 (p_chan p .>> 32), p_chan p .& 0xFFFFFFFF, u8 (p_wanted p .| flags)) ∈ wakes
    /\ dev_inv pic d2 /\ pd_pipes d2 = pd_pipes d /\ pd_signaled d2 = [] /\ pipe_line pic d2 = false.
Proof.
  intros Hd Hp. destruct (wake_spec pic n p flags d Hd Hp) as (v & E & Hv & Hl). pose proof (wake_woken pic n flags d _ Hd E) as (Hd1 & Hp1 & _). set (d1 := set_pd_irq v _) in *.
  destruct (read_wakes_spec pic _ d1 Hd1 eq_refl) as (d2 & E2 & Hd2 & Hs2 & Hp2 & Hl2). exists d1, d2. eexists. split_and!; try done.
  - apply list_elem_of_fmap. exists n. split; [|apply signal_elem; by left]. unfold wake_of. cbn. by rewrite lookup_insert_eq.
  - rewrite Hl2. case_decide as Hn; [|done]. exfalso. assert (n ∈ pd_signaled d1) as Hin by (apply signal_elem; by left). rewrite Hn in Hin. by apply elem_of_nil in Hin.
Qed.

(** C38: closing a pipe can leave the interrupt on for good. When the guest
    closes the only pipe that was woken, before it has read its channel, the
    list becomes empty but the line stays up; and whatever register the guest
    then reads, it is told that no pipe was woken and the line stays up: only
    reading the channel of the last pipe of the list lowers it. *)
Theorem closed_pipe_keeps_line {St F G V W : Type} (pic : list (qemu_irq V)) `{IrqLines V pic} TL PB cpu_get_phys_page_debug ram_blocks
    (d d' : PipeDevice St F G V) (m m' : gmachine (W := W)) (n : nat) (p : Pipe) :
  dev_inv pic d -> pd_signaled d = [n] -> pd_heap d !! n = Some p -> p_chan p = r_channel (pd_regs d) ->
  pipeDevice_doCommand pic TL PB cpu_get_phys_page_debug ram_blocks PIPE_CMD_CLOSE d m = Ret (d', m') ->
  pd_signaled d' = [] /\ pipe_line pic d' = true /\ pipe_dev_read pic PIPE_REG_CHANNEL d' = Ret (0, d') /\ forall offset, exists v, pipe_dev_read pic offset d' = Ret (v, d').
Proof.
  intros Hd Hs Hp Hc (lookup & El & E)%bind_Ret. assert (lookup = Some n) as ->.
  { destruct lookup as [k|]; [|exfalso; eapply findp_channel_None; [exact El| |exact Hp|done]; apply (di_live _ _ Hd); by eexists].
    apply findp_channel_Some in El as (_ & q & Hq & Eq). f_equal. eapply (di_channels _ _ Hd); [done..|congruence]. }
  apply bind_Ret in E as (q & _ & E). rewrite andb_false_r in E. change (PIPE_CMD_CLOSE =? PIPE_CMD_OPEN) with false in E. change (PIPE_CMD_CLOSE =? PIPE_CMD_CLOSE) with true in E. cbv iota in E.
  apply bind_Ret in E as (d1 & E1 & E). injection E as <- <-. destruct (close_spec pic n d d1 Hd E1) as [s ->].
  assert (pd_signaled (without n s d) = []) as Hs' by (cbn; rewrite Hs; cbn; by rewrite bool_decide_eq_true_2). split; [done|]. split; [apply (di_line _ _ Hd); by rewrite Hs|].
  assert (next_signaled pic (without n s d) = Ret (0, without n s d)) as En by (unfold next_signaled; by rewrite Hs'). split; [exact En|].
  intros offset. unfold pipe_dev_read. rewrite En, Hs'. repeat (destruct (_ =? _); [by eexists|]). by eexists.
Qed.

(** ** Bytes through the device *)

Section echo.
Context {F G V W : Type} (pic : list (qemu_irq V)) (TL PB : Z) (cpu_get_phys_page_debug : Z -> option Z) (ram_blocks : list (Z * Z)).
Context (realloc_ok : Z -> bool) (Hre : forall n, 0 < n <= 2 ^ 30 -> realloc_ok n = true).
Abbreviation D := (PipeDevice peers F G V).
Implicit Types (d : D) (p : PingPongPipe).

#[local] Opaque pp_send pp_recv pp_grow.

(** The channel register selects a pipe of the service that nobody waits for. *)
Definition on_pingpong (n k : nat) p d : Prop :=
  pipe_list_findp_channel (pd_heap d) (pd_pipes d) (r_channel (pd_regs d)) = Ret (Some n)
  /\ (exists q sv svc, pd_heap d !! n = Some q /\ p_closed q = 0 /\ p_service q = Some sv /\ p_opaque q = Peer k /\ pd_services d !! sv = Some svc /\ svc_funcs svc = pingPongPipe_funcs realloc_ok)
  /\ pe_heap (pd_state d) !! k = Some (PPingPong p) /\ pp_flags p = 0 /\ pp_inv p.

Abbreviation doCommand := (pipeDevice_doCommand pic TL PB cpu_get_phys_page_debug ram_blocks (W := W)).
Abbreviation buffer_at := (guest_buffer TL PB cpu_get_phys_page_debug ram_blocks (S := peers) (F := F) (G := G) (V := V)).

Lemma ram_read_length ram a n : length (ram_read ram a n) = n.
Proof. unfold ram_read. by rewrite length_fmap, length_seq. Qed.

Lemma bind_of {A B} (m : outcome A) (a : A) (f : A -> outcome B) : m = Ret a -> m ≫= f = f a.
Proof. by intros ->. Qed.

Lemma send_pingpong_eq k s bs p ret p' : pe_heap s !! k = Some (PPingPong p) -> pp_send realloc_ok bs p = Ret (ret, p', []) -> pingPongPipe_sendBuffers realloc_ok k bs s = Ret (ret, set_peer k (PPingPong p') s, []).
Proof. intros Hk E. unfold pingPongPipe_sendBuffers. rewrite (bind_of _ p) by (unfold pingpong; by rewrite Hk). by rewrite (bind_of _ _ _ E). Qed.

Lemma recv_pingpong_eq k s sizes p ret bufs p' : pe_heap s !! k = Some (PPingPong p) -> pp_recv sizes p = Ret (ret, bufs, p', []) -> pingPongPipe_recvBuffers k sizes s = Ret (ret, bufs, set_peer k (PPingPong p') s, []).
Proof. intros Hk E. unfold pingPongPipe_recvBuffers. rewrite (bind_of _ p) by (unfold pingpong; by rewrite Hk). by rewrite (bind_of _ _ _ E). Qed.

Lemma pipe_send_service n d q sv svc k bs ret s' : pd_heap d !! n = Some q -> p_service q = Some sv -> pd_services d !! sv = Some svc -> p_opaque q = Peer k ->
  pf_sendBuffers (svc_funcs svc) k bs (pd_state d) = Ret (ret, s', []) -> pipe_send pic n bs d = Ret (ret, set_pd_state s' d).
Proof.
  intros Hq Hsv Hsvc Hop E. unfold pipe_send, the_pipe. rewrite Hq. cbn [mbind outcome_bind]. rewrite Hsv. unfold the_service. rewrite Hsvc. cbn [mbind outcome_bind]. unfold peer_of. rewrite Hop. cbn [mbind outcome_bind]. by rewrite E.
Qed.

Lemma pipe_recv_service n d q sv svc k sizes ret bufs s' : pd_heap d !! n = Some q -> p_service q = Some sv -> pd_services d !! sv = Some svc -> p_opaque q = Peer k ->
  pf_recvBuffers (svc_funcs svc) k sizes (pd_state d) = Ret (ret, bufs, s', []) -> pipe_recv pic n sizes d = Ret (ret, bufs, set_pd_state s' d).
Proof.
  intros Hq Hsv Hsvc Hop E. unfold pipe_recv, the_pipe. rewrite Hq. cbn [mbind outcome_bind]. rewrite Hsv. unfold the_service. rewrite Hsvc. cbn [mbind outcome_bind]. unfold peer_of. rewrite Hop. cbn [mbind outcome_bind]. by rewrite E.
Qed.

Lemma pipe_send_pingpong n k p d bs ret p' : on_pingpong n k p d -> pp_send realloc_ok bs p = Ret (ret, p', []) -> pipe_send pic n bs d = Ret (ret, set_pd_state (set_peer k (PPingPong p') (pd_state d)) d).
Proof.
  intros (_ & (q & sv & svc & Hq & Hcl & Hsv & Hop & Hsvc & Hfn) & Hk & _) E. apply (pipe_send_service n d q sv svc k); try done. rewrite Hfn. exact (send_pingpong_eq k _ bs p ret p' Hk E).
Qed.

Lemma pipe_recv_pingpong n k p d sizes ret bufs p' : on_pingpong n k p d -> pp_recv sizes p = Ret (ret, bufs, p', []) -> pipe_recv pic n sizes d = Ret (ret, bufs, set_pd_state (set_peer k (PPingPong p') (pd_state d)) d).
Proof.
  intros (_ & (q & sv & svc & Hq & Hcl & Hsv & Hop & Hsvc & Hfn) & Hk & _) E. apply (pipe_recv_service n d q sv svc k); try done. rewrite Hfn. exact (recv_pingpong_eq k _ sizes p ret bufs p' Hk E).
Qed.

Lemma command_write n k p d m : on_pingpong n k p d -> doCommand PIPE_CMD_WRITE_BUFFER d m = (d ← cmd_write_buffer pic TL PB cpu_get_phys_page_debug ram_blocks n d m; Ret (d, m)).
Proof. intros (Hf & (q & sv & svc & Hq & Hcl & _) & _). unfold pipeDevice_doCommand, the_pipe. rewrite Hf. cbn [mbind outcome_bind]. rewrite Hq. cbn [mbind outcome_bind]. by rewrite Hcl. Qed.

Lemma command_read n k p d m : on_pingpong n k p d -> doCommand PIPE_CMD_READ_BUFFER d m = cmd_read_buffer pic TL PB cpu_get_phys_page_debug ram_blocks n d m.
Proof. intros (Hf & (q & sv & svc & Hq & Hcl & _) & _). unfold pipeDevice_doCommand, the_pipe. rewrite Hf. cbn [mbind outcome_bind]. rewrite Hq. cbn [mbind outcome_bind]. by rewrite Hcl. Qed.

Lemma pingpong_write n k p d m ptr limit : on_pingpong n k p d -> buffer_at d = Ret (ptr, limit) -> 0 < r_size (pd_regs d) -> ptr + r_size (pd_regs d) <= limit -> pp_count p + r_size (pd_regs d) <= 2 ^ 29 ->
  exists p', doCommand PIPE_CMD_WRITE_BUFFER d m = Ret (set_pipe_status (r_size (pd_regs d)) (set_pd_state (set_peer k (PPingPong p') (pd_state d)) d), m)
    /\ pp_contents p' = pp_contents p ++ ram_read (gm_ram m) ptr (Z.to_nat (r_size (pd_regs d))) /\ pp_inv p' /\ pp_flags p' = 0.
Proof.
  intros Hon Hb Hs Hl Hc. rewrite (command_write n k p) by done. unfold cmd_write_buffer. rewrite Hb. cbn [mbind outcome_bind]. pose proof Hon as (_ & _ & _ & Hfl & Hi). rewrite Z.min_l by lia. generalize dependent (r_size (pd_regs d)). intros size Hs Hl Hc.
  assert (buffer_ok (mkPipeBuffer (ram_read (gm_ram m) ptr (Z.to_nat size)) size)) as Hbok by (unfold buffer_ok; cbn [b_data b_size]; rewrite ram_read_length; lia).
  assert (buffers_size [mkPipeBuffer (ram_read (gm_ram m) ptr (Z.to_nat size)) size] = size) as Esz by (cbn; lia).
  assert (concat (buffer_data <$> [mkPipeBuffer (ram_read (gm_ram m) ptr (Z.to_nat size)) size]) = ram_read (gm_ram m) ptr (Z.to_nat size)) as Ed.
  { cbn [fmap list_fmap concat]. rewrite app_nil_r. unfold buffer_data. cbn [b_data b_size]. apply take_ge. by rewrite ram_read_length. }
  revert Hbok Esz Ed. generalize (mkPipeBuffer (ram_read (gm_ram m) ptr (Z.to_nat size)) size). intros b Hbok Esz Ed.
  destruct (pp_send_spec realloc_ok Hre [b] p) as (p' & ev & E & Hi' & Ec & [_ Hf'] & Hev); [by constructor|by rewrite Esz|done|by rewrite Esz|]. rewrite Hfl in Hev. change (nz (0 .& PIPE_WAKE_READ)) with false in Hev. subst ev.
  rewrite (pipe_send_pingpong n k p d [b] _ p' Hon E). cbn [mbind outcome_bind]. exists p'. rewrite Esz, Ec, Ed. split_and!; try done. congruence.
Qed.

Lemma pingpong_read n k p d m ptr limit : on_pingpong n k p d -> buffer_at d = Ret (ptr, limit) -> 0 <= r_size (pd_regs d) -> pp_contents p <> [] -> ptr + r_size (pd_regs d) <= limit ->
  let bytes := take (Z.to_nat (r_size (pd_regs d))) (pp_contents p) in
  exists p', doCommand PIPE_CMD_READ_BUFFER d m = Ret (set_pipe_status (Z.of_nat (length bytes)) (set_pd_state (set_peer k (PPingPong p') (pd_state d)) d), set_ram (ram_write (gm_ram m) ptr bytes) m)
    /\ pp_contents p' = drop (Z.to_nat (r_size (pd_regs d))) (pp_contents p) /\ pp_inv p' /\ pp_flags p' = 0.
Proof.
  intros Hon Hb Hs Hne Hl bytes. rewrite (command_read n k p) by done. unfold cmd_read_buffer. rewrite Hb. cbn [mbind outcome_bind]. pose proof Hon as (_ & _ & _ & Hfl & Hi). unfold bytes. clear bytes. generalize dependent (r_size (pd_regs d)). intros size Hs Hl. set (bytes := take (Z.to_nat size) (pp_contents p)).
  destruct (pp_recv_spec [size] p ltac:(by repeat constructor) ltac:(done) Hi) as (bufs & p' & ev & E & Hi' & Ec & Ec' & [_ Hf'] & Hb2 & Hev). rewrite Hfl in Hev. change (nz (0 .& PIPE_WAKE_WRITE)) with false in Hev. rewrite andb_false_r in Hev. subst ev.
  rewrite decide_False in E by done. cbn [sizes_sum foldr] in E, Ec, Ec'. rewrite Z.add_0_r in E, Ec, Ec'.
  assert (take (Nat.min (Z.to_nat size) (length (pp_contents p))) (pp_contents p) = bytes /\ drop (Nat.min (Z.to_nat size) (length (pp_contents p))) (pp_contents p) = drop (Z.to_nat size) (pp_contents p)) as [Et Edr].
  { unfold bytes. destruct (Nat.min_spec (Z.to_nat size) (length (pp_contents p))) as [[? ->]|[? ->]]; [done|]. rewrite !take_ge, !drop_ge by lia. done. }
  rewrite Et in Ec. rewrite Edr in Ec'. assert (default [] (bufs !! 0%nat) = bytes) as Eb0.
  { rewrite <- Ec. assert (length bufs <= 1)%nat as Hlen by (apply Forall2_length in Hb2; rewrite length_take in Hb2; cbn in Hb2; lia). destruct bufs as [|b1 [|b2 bufs]]; [done|cbn; by rewrite app_nil_r|cbn in Hlen; lia]. }
  assert (length bytes = Nat.min (Z.to_nat size) (length (pp_contents p))) as Elen by (unfold bytes; apply length_take).
  rewrite (pipe_recv_pingpong n k p d [size] _ bufs p' Hon E). cbn [mbind outcome_bind]. rewrite Eb0. destruct (Z.ltb_spec limit (ptr + Z.of_nat (length bytes))); [lia|]. rewrite andb_false_r. exists p'. rewrite Elen. split_and!; try done. congruence.
Qed.
End echo.


(** ** A device with its services *)

Section example.
#[local] Instance pipe_int_lines : IrqLines (goldfish_int_lines 32) := int_irq_lines 32 (le_n 32).

Lemma services_quiet (realloc_ok : Z -> bool) (F G : Type) : Forall quiet_close
  [mkPipeService (chars "zero") zeroPipe_funcs; mkPipeService (chars "pingpong") (pingPongPipe_funcs realloc_ok); mkPipeService (F := F) (G := G) (chars "throttle") (throttlePipe_funcs realloc_ok)].
Proof.
  repeat constructor; intros o s s' ev; cbn.
  - by intros [= _ <-].
  - unfold pingPongPipe_close. destruct o; [case_bool_decide; [by intros [= _ <-]|done]|]. intros (p & _ & E)%bind_Ret. by injection E as _ <-.
  - unfold throttlePipe_close. destruct o; [done|]. intros (p & _ & E)%bind_Ret. by injection E as _ <-.
Qed.

Abbreviation example_device_type := (PipeDevice peers MemOut MemIn goldfish_int_state).

Definition example_device : example_device_type :=
  match add_pipe_types (fun _ => true) (pipe_dev_init true (mkPeers ∅ 0 (mkTimers ∅ [] true) 0) goldfish_interrupt_init) with
  | Ret d => d
  | _ => pipe_dev_init true (mkPeers ∅ 0 (mkTimers ∅ [] true) 0) goldfish_interrupt_init
  end.

Lemma example_device_inv : dev_inv (goldfish_int_lines 32) example_device.
Proof.
  constructor.
  - split; [by vm_compute|]. split; [apply Nat.ltb_lt; by vm_compute|]. exact init_inv.
  - constructor.
  - intros n. change (pd_heap example_device) with (∅ : gmap nat Pipe). rewrite lookup_empty. split; [set_solver|by intros []].
  - intros n p. change (pd_heap example_device) with (∅ : gmap nat Pipe). by rewrite lookup_empty.
  - split; [constructor|set_solver].
  - intros n n' p p'. change (pd_heap example_device) with (∅ : gmap nat Pipe). by rewrite lookup_empty.
  - done.
  - exact (services_quiet (fun _ => true) MemOut MemIn).
Qed.

(** RAM with [bytes] at 0x1000. *)
Definition example_ram (bytes : list Z) : gmachine (W := unit) := mkGM (ram_write (fun _ => 0) 0x1000 bytes) tt (gem_init example_tracer).

Definition example_step := pipe_step (goldfish_int_lines 32) (fun _ _ _ _ w => w) (fun _ _ _ w => (0, w)) 32 12 example_pages Some (example_regs 0 0) [(0, 0x100000)] false
  (St := peers) (F := MemOut) (G := MemIn) (W := unit).

(** The guest opens channel 5 and writes the name of a service. *)
Definition connect_ops (size : Z) : list (device_op (St := peers)) :=
  [GuestWrite PIPE_REG_CHANNEL 5; GuestWrite PIPE_REG_COMMAND PIPE_CMD_OPEN; GuestWrite PIPE_REG_SIZE size; GuestWrite PIPE_REG_ADDRESS 0x1000; GuestWrite PIPE_REG_COMMAND PIPE_CMD_WRITE_BUFFER].

Definition connected_to (name : string) : example_device_type :=
  match foldM example_step (example_device, example_ram (chars name ++ [0])) (connect_ops (Z.of_nat (length (chars name)) + 1)) with
  | Ret (d, _) => d
  | _ => example_device
  end.

Lemma connected_inv name : dev_inv (goldfish_int_lines 32) (connected_to name).
Proof.
  unfold connected_to. destruct (foldM _ _ _) as [[d m]| | | | |] eqn:E; try apply example_device_inv. exact (steps_inv (goldfish_int_lines 32) _ _ _ _ _ _ _ _ _ _ (example_device, _) (d, m) example_device_inv E).
Qed.

Example connects_to_pingpong : p_service <$> pd_heap (connected_to "pipe:pingpong") !! 0%nat = Some (Some 1%nat).
Proof. by vm_compute. Qed.

Definition returns {A} (o : outcome A) : bool := match o with Ret _ => true | _ => false end.

Lemma returns_Ret {A} (o : outcome A) : returns o = true -> exists a, o = Ret a.
Proof. destruct o; try done. eauto. Qed.

Definition example_pipe_ops : list (device_op (St := peers)) :=
  [GuestWrite PIPE_REG_COMMAND PIPE_CMD_WAKE_ON_READ; GuestWrite PIPE_REG_SIZE 3; GuestWrite PIPE_REG_COMMAND PIPE_CMD_WRITE_BUFFER; GuestRead PIPE_REG_CHANNEL; GuestWrite PIPE_REG_COMMAND PIPE_CMD_CLOSE].

Lemma pipe_lists_agree_witness :
  exists d m, foldM example_step (connected_to "pipe:pingpong", example_ram [1; 2; 3]) example_pipe_ops = Ret (d, m) /\ dev_inv (goldfish_int_lines 32) d.
Proof.
  destruct (returns_Ret (foldM example_step (connected_to "pipe:pingpong", example_ram [1; 2; 3]) example_pipe_ops)) as [[d m] E]; [by vm_compute|]. exists d, m. split; [exact E|].
  exact (pipe_lists_agree (goldfish_int_lines 32) _ _ _ _ _ _ _ _ _ (connected_to "pipe:pingpong") d _ m _ (connected_inv _) E).
Defined.

Lemma wake_reaches_guest_witness : exists p, pd_heap (connected_to "pipe:pingpong") !! 0%nat = Some p /\
  exists d1 d2 wakes, goldfish_pipe_wake (goldfish_int_lines 32) 0 PIPE_WAKE_READ (connected_to "pipe:pingpong") = Ret d1 /\ pipe_line (goldfish_int_lines 32) d1 = true
    /\ read_wakes (goldfish_int_lines 32) (length (pd_signaled d1)) d1 = Ret (wakes, d2)
    /\ (u32 (p_chan p .>> 32), p_chan p .& 0xFFFFFFFF, u8 (p_wanted p .| PIPE_WAKE_READ)) ∈ wakes
    /\ dev_inv (goldfish_int_lines 32) d2 /\ pd_pipes d2 = pd_pipes (connected_to "pipe:pingpong") /\ pd_signaled d2 = [] /\ pipe_line (goldfish_int_lines 32) d2 = false.
Proof.
  eexists. split; [vm_compute; reflexivity|]. apply (wake_reaches_guest (goldfish_int_lines 32)); [apply connected_inv|vm_compute; reflexivity].
Defined.

(** The pipe was woken. *)
Definition woken_device : example_device_type :=
  match goldfish_pipe_wake (goldfish_int_lines 32) 0 PIPE_WAKE_READ (connected_to "pipe:pingpong") with Ret d => d | _ => example_device end.

Lemma woken_device_inv : dev_inv (goldfish_int_lines 32) woken_device.
Proof. unfold woken_device. destruct (goldfish_pipe_wake _ _ _ _) eqn:E; try apply example_device_inv. apply (wake_woken _ _ _ _ _ (connected_inv _) E). Qed.

Lemma closed_pipe_keeps_line_witness :
  exists d' m', pipeDevice_doCommand (goldfish_int_lines 32) 32 12 Some [(0, 0x100000)] PIPE_CMD_CLOSE woken_device (example_ram []) = Ret (d', m') /\
    pd_signaled d' = [] /\ pipe_line (goldfish_int_lines 32) d' = true /\ pipe_dev_read (goldfish_int_lines 32) PIPE_REG_CHANNEL d' = Ret (0, d')
    /\ forall offset, exists v, pipe_dev_read (goldfish_int_lines 32) offset d' = Ret (v, d').
Proof.
  destruct (returns_Ret (pipeDevice_doCommand (goldfish_int_lines 32) 32 12 Some [(0, 0x100000)] PIPE_CMD_CLOSE woken_device (example_ram []))) as [[d m] E]; [by vm_compute|]. exists d, m. split; [exact E|].
  eapply (closed_pipe_keeps_line (goldfish_int_lines 32) 32 12 Some [(0, 0x100000)] woken_device d (example_ram []) m 0); [apply woken_device_inv|by vm_compute|vm_compute; reflexivity|by vm_compute|exact E].
Defined.

(** A device with a ping pong pipe on channel 5, a buffer of three bytes and its
    address. *)
Definition pingpong_device : example_device_type :=
  mkPipeDevice (pd_dev example_device) {[0%nat := mkPipe 5 (Peer 0) (Some 1%nat) None 0 0]} 1 [0%nat] [] (mkRegs 0x1000 3 0 5 0 0) (pd_services example_device)
    (mkPeers {[0%nat := PPingPong (pingPongPipe_init0 0)]} 1 (mkTimers ∅ [] true) 0) goldfish_interrupt_init.

Lemma pingpong_device_ready : on_pingpong (fun _ => true) 0 0 (pingPongPipe_init0 0) pingpong_device.
Proof. split; [by vm_compute|]. split; [do 3 eexists; split_and!; reflexivity|]. split; [reflexivity|]. split; [done|]. apply init0_inv. Qed.


(** ** What goes wrong *)

(** A snapshot of a device, loaded into a new one. *)
Definition reloaded_device (d : example_device_type) : outcome (Z * example_device_type) :=
  f ← goldfish_pipe_save d (mem_out []); '(ret, d, _) ← goldfish_pipe_load (goldfish_int_lines 32) GOLDFISH_PIPE_SAVE_VERSION (mem_in (mo_bytes f)) example_device; Ret (ret, d).

(** A pipe whose service cannot load is closed without waking its reader, who
    waits for the pipe: [closed] is already set when [goldfish_pipe_close]
    looks at it. *)
Example forced_close_is_silent :
  (fun '(ret, d) => (ret, (fun n => p_closed <$> pd_heap d !! n) <$> pd_pipes d, pd_signaled d, level (pd_irq d))) <$> reloaded_device (connected_to "pipe:pingpong") = Ret (0, [Some 1], [], 0).
Proof. by vm_compute. Qed.

(** The guest then closes the pipe: the service gets the connector of the
    loaded pipe for an object of its own. *)
Example loaded_throttle_pipe_crashes :
  ('(_, d) ← reloaded_device (connected_to "pipe:throttle"); '(d, _) ← pipeDevice_doCommand (goldfish_int_lines 32) 32 12 Some [(0, 0x100000)] PIPE_CMD_CLOSE d (example_ram []); Ret (pd_pipes d)) = OutOfBounds.
Proof. by vm_compute. Qed.

(** Loading into a device whose pipe is open leaves two pipes on the channel. *)
Example load_keeps_old_pipes :
  (f ← goldfish_pipe_save (connected_to "pipe:pingpong") (mem_out []); '(ret, d, _) ← goldfish_pipe_load (goldfish_int_lines 32) GOLDFISH_PIPE_SAVE_VERSION (mem_in (mo_bytes f)) (connected_to "pipe:pingpong");
   Ret ((fun n => p_chan <$> pd_heap d !! n) <$> pd_pipes d)) = Ret [Some 5; Some 5].
Proof. by vm_compute. Qed.

(** An address the guest has not mapped ends the emulator. *)
Example unmapped_buffer_aborts :
  ('(d, _) ← pipeDevice_doCommand (goldfish_int_lines 32) 32 12 (fun _ => None) [(0, 0x100000)] PIPE_CMD_READ_BUFFER pingpong_device (example_ram []); Ret (pd_pipes d)) = CpuAbort.
Proof. by vm_compute. Qed.

(** A buffer may go past the end of RAM. *)
Example zeros_past_ram :
  ('(d, _) ← pipeDevice_doCommand (goldfish_int_lines 32) 32 12 Some [(0, 0x2000)] PIPE_CMD_READ_BUFFER
      (set_pd_regs (set_r_address 0x1ff0 (set_r_size 17 (pd_regs (connected_to "pipe:zero")))) (connected_to "pipe:zero")) (example_ram []); Ret (pd_pipes d)) = OutOfBounds.
Proof. by vm_compute. Qed.

(** What follows the name of the service in the same write is taken and
    lost. *)
Example bytes_after_name_are_lost :
  ('(d, _) ← foldM example_step (example_device, example_ram (chars "pipe:pingpong" ++ [0; 65; 66])) (connect_ops 16);
   Ret (r_status (pd_regs d), match pe_heap (pd_state d) !! 0%nat with Some (PPingPong p) => pp_count p | _ => -1 end)) = Ret (16, 0).
Proof. by vm_compute. Qed.

(** A throttled pipe whose timer fires at its deadline is not ready, and is
    armed for the same time. *)
Example throttle_at_deadline :
  (('(_, s, _) ← throttlePipe_sendBuffers (fun _ => true) 0 [mkPipeBuffer [1; 2] 2] (mkPeers {[0%nat := PThrottle (mkThrottle (pingPongPipe_init0 0) 0 0 1)]} 1 (timer_init (mkTimers ∅ [] true) 1 SCALE_NS 0%nat) 1000);
    '(s, _) ← throttlePipe_timerFunc 0 (mkPeers (pe_heap s) 1 (pe_timers s) 1488);
    Ret (expire (pe_timers s) 1, match pe_heap s !! 0%nat with Some (PThrottle p) => sendExpiration p | _ => -1 end))) = Ret (1488, 1488).
Proof. by vm_compute. Qed.
End example.
