(* ===== verification/CodeProfile.v ===== *)
(** The code profiler, hw/android/goldfish/profile.c: the executable mappings
    of each process, and a sampler of the basic blocks the guest runs, which
    every [SAMPLE_PERIOD] blocks records a burst of them in the profile of the
    binary they belong to. A node of the mapping lists is identified by its
    address ([m_ptr]), which the sampler keeps and compares; the nodes of the
    other lists are found by the contents the code compares. *)
From stdpp Require Import gmap.
From S2P Require Import Prelude.

Definition SAMPLE_PERIOD : Z := 1000000.
Definition SAMPLE_BURST : Z := 100.
Definition OUTPUT_THRESHOLD : Z := 100.
Definition MAX_PIDS : Z := 65536.
Definition BUF_SIZE : Z := 4096.

Abbreviation mmapptr := positive.

Record MmapData := mkMmap { m_ptr : mmapptr; m_start : Z; m_end : Z; m_offset : Z; m_name : list Z }.
Record RangeProfile := mkRange { r_start : Z; r_size : Z; r_count : Z }.
Record BranchProfile := mkBranch { b_from : Z; b_to : Z; b_count : Z }.
Record BinaryProfile := mkBinary { bin_name : list Z; bin_range : list RangeProfile; bin_branch : list BranchProfile }.

(** A file [dump_profile] writes. *)
Record DumpFile := mkDump { dump_name : list Z; dump_ranges : list (Z * Z * Z); dump_branches : list (Z * Z * Z) }.

(** [curr_profile] points to a node of [head_binary]'s list, where the names
    are distinct and nothing is removed: it is the node's name. *)
Record profiler := mkProfiler {
  mmaps : gmap Z (list MmapData);
  head_binary : list BinaryProfile;
  bb_counter : Z;
  output_counter : Z;
  prev_pid : Z;
  prev_mmap : option mmapptr;
  prev_pc : Z;
  curr_profile : list Z;
  dumps : list DumpFile;
}.

Definition profiler_init : profiler := mkProfiler ∅ [] 0 0 0 None 0 [] [].

Definition with_mmaps (m : gmap Z (list MmapData)) (p : profiler) : profiler :=
  mkProfiler m (head_binary p) (bb_counter p) (output_counter p) (prev_pid p) (prev_mmap p) (prev_pc p) (curr_profile p) (dumps p).
Definition with_binaries (l : list BinaryProfile) (p : profiler) : profiler :=
  mkProfiler (mmaps p) l (bb_counter p) (output_counter p) (prev_pid p) (prev_mmap p) (prev_pc p) (curr_profile p) (dumps p).
Definition with_bb_counter (n : Z) (p : profiler) : profiler :=
  mkProfiler (mmaps p) (head_binary p) n (output_counter p) (prev_pid p) (prev_mmap p) (prev_pc p) (curr_profile p) (dumps p).
Definition with_output (n : Z) (d : list DumpFile) (p : profiler) : profiler :=
  mkProfiler (mmaps p) (head_binary p) (bb_counter p) n (prev_pid p) (prev_mmap p) (prev_pc p) (curr_profile p) d.
Definition with_prev (pid : Z) (m : option mmapptr) (p : profiler) : profiler :=
  mkProfiler (mmaps p) (head_binary p) (bb_counter p) (output_counter p) pid m (prev_pc p) (curr_profile p) (dumps p).
Definition with_prev_pc (pc : Z) (p : profiler) : profiler :=
  mkProfiler (mmaps p) (head_binary p) (bb_counter p) (output_counter p) (prev_pid p) (prev_mmap p) pc (curr_profile p) (dumps p).
Definition with_curr (n : list Z) (p : profiler) : profiler :=
  mkProfiler (mmaps p) (head_binary p) (bb_counter p) (output_counter p) (prev_pid p) (prev_mmap p) (prev_pc p) n (dumps p).

(** ** Names of the output files *)

Definition SLASH : Z := 47.
Definition UNDERSCORE : Z := 95.
Definition DOT_TXT : list Z := [46; 116; 120; 116].

Definition dump_filename (dirname name : list Z) : list Z :=
  dirname ++ [SLASH] ++ ((fun c => if c =? SLASH then UNDERSCORE else c) <$> name) ++ DOT_TXT.

(** The loop over the binaries. The assertion leaves room for the name and
    its separator; the suffix and the terminator are written after it. *)
Fixpoint dump_all (dirname : list Z) (l : list BinaryProfile) : outcome (list DumpFile) :=
  match l with
  | [] => Ret []
  | curr :: l =>
      if negb (Z.of_nat (length dirname) + Z.of_nat (length (bin_name curr)) + 2 <? BUF_SIZE) then CpuAbort
      else if BUF_SIZE <=? Z.of_nat (length (dump_filename dirname (bin_name curr))) then OutOfBounds
      else
        ds ← dump_all dirname l;
        Ret (mkDump (dump_filename dirname (bin_name curr))
               ((fun r => (r_start r, u64 (r_start r + r_size r), r_count r)) <$> bin_range curr)
               ((fun b => (b_from b, b_to b, b_count b)) <$> bin_branch curr) :: ds)
  end.

Definition dump_profile (dirname : list Z) (p : profiler) : outcome profiler :=
  if negb (Z.of_nat (length dirname) + 2 <? BUF_SIZE) then CpuAbort
  else
    ds ← dump_all dirname (head_binary p);
    Ret (with_output (output_counter p) (dumps p ++ ds) p).

(** ** The lists *)

Definition get_binary_profile (name : list Z) (p : profiler) : profiler :=
  if bool_decide (name ∈ bin_name <$> head_binary p) then p
  else with_binaries (mkBinary name [] [] :: head_binary p) p.

Fixpoint add_branch (from to : Z) (l : list BranchProfile) : option (list BranchProfile) :=
  match l with
  | [] => None
  | b :: l =>
      if (b_from b =? from) && (b_to b =? to) then Some (mkBranch (b_from b) (b_to b) (u64 (b_count b + 1)) :: l)
      else cons b <$> add_branch from to l
  end.

Definition add_branch_count (profile : BinaryProfile) (from to : Z) : BinaryProfile :=
  mkBinary (bin_name profile) (bin_range profile)
    (match add_branch from to (bin_branch profile) with
     | Some l => l
     | None => mkBranch from to 1 :: bin_branch profile
     end).

Fixpoint add_range (start size : Z) (l : list RangeProfile) : option (list RangeProfile) :=
  match l with
  | [] => None
  | r :: l =>
      if (r_start r =? start) && (r_size r =? size) then Some (mkRange (r_start r) (r_size r) (u64 (r_count r + 1)) :: l)
      else cons r <$> add_range start size l
  end.

Definition add_range_count (profile : BinaryProfile) (start size : Z) : BinaryProfile :=
  mkBinary (bin_name profile)
    (match add_range start size (bin_range profile) with
     | Some l => l
     | None => mkRange start size 1 :: bin_range profile
     end) (bin_branch profile).

(** Through the pointer [curr_profile]. *)
Definition update_curr (f : BinaryProfile -> BinaryProfile) (p : profiler) : profiler :=
  with_binaries ((fun b => if bool_decide (bin_name b = curr_profile p) then f b else b) <$> head_binary p) p.

Fixpoint find_mmap (pc : Z) (l : list MmapData) : option MmapData :=
  match l with
  | [] => None
  | data :: l => if (m_start data <=? pc) && (pc <? m_end data) then Some data else find_mmap pc l
  end.

Definition pid_ok (pid : Z) : bool := (0 <=? pid) && (pid <? MAX_PIDS).

Definition mmaps_of (p : profiler) (pid : Z) : list MmapData := default [] (mmaps p !! pid).

(** [pid] indexes the array unchecked. *)
Definition get_mmap_data (pc pid : Z) (p : profiler) : outcome (option MmapData) :=
  if pid_ok pid then Ret (find_mmap pc (mmaps_of p pid)) else OutOfBounds.

(** [addr] is what [malloc] returns. *)
Definition record_mmap (addr : mmapptr) (vstart vend offset : Z) (path : list Z) (pid : Z) (p : profiler) : outcome profiler :=
  if pid_ok pid then
    Ret (with_mmaps (<[pid := mkMmap addr vstart vend offset path :: mmaps_of p pid]> (mmaps p)) p)
  else OutOfBounds.

Definition release_mmap (pid : Z) (p : profiler) : outcome profiler :=
  if pid_ok pid then Ret (with_mmaps (delete pid (mmaps p)) p) else OutOfBounds.

(** ** The sampler *)

Section sampler.
(** [target_ulong]'s width, and the directory of the profiles. *)
Context (TL : Z) (code_profile_dirname : option (list Z)).

Definition start_burst (dirname : list Z) (current_pid pc size : Z) (p : profiler) : outcome profiler :=
  let pid := s32 current_pid in
  data ← get_mmap_data pc pid p;
  let p := with_prev pid (m_ptr <$> data) p in
  match data with
  | None => Ret (with_bb_counter 0 p)
  | Some data =>
      let p := with_prev_pc (wrap TL (pc + size)) p in
      let p := with_curr (m_name data) (get_binary_profile (m_name data) p) in
      let n := output_counter p in
      let p := with_output (n + 1) (dumps p) p in
      if n =? OUTPUT_THRESHOLD then
        p ← dump_profile dirname p;
        Ret (with_output 0 (dumps p) p)
      else Ret p
  end.

(** [current_pid] is [get_current_pid()], unsigned. *)
Definition continue_burst (current_pid pc size : Z) (p : profiler) : outcome profiler :=
  if (SAMPLE_PERIOD + SAMPLE_BURST <? bb_counter p) || negb (current_pid =? u32 (prev_pid p)) then
    Ret (with_bb_counter 0 p)
  else
    data ← get_mmap_data pc (prev_pid p) p;
    match data with
    | Some data =>
        if bool_decide (Some (m_ptr data) = prev_mmap p) then
          let p := update_curr (fun b => add_range_count b (wrap TL (pc + m_offset data - m_start data)) size) p in
          let p := update_curr (fun b => add_branch_count b (wrap TL (prev_pc p + m_offset data - m_start data))
                                           (wrap TL (pc + m_offset data - m_start data))) p in
          Ret (with_prev_pc (wrap TL (pc + size)) p)
        else Ret (with_bb_counter 0 p)
    | None =>
        (** The comparison of a null pointer with [prev_mmap]; equal ones
            would be dereferenced. *)
        if bool_decide (prev_mmap p = None) then OutOfBounds else Ret (with_bb_counter 0 p)
    end.

Definition profile_bb_helper (current_pid pc size : Z) (p : profiler) : outcome profiler :=
  match code_profile_dirname with
  | None => Ret p
  | Some dirname =>
      if size =? 0 then Ret p
      else
        let size := u32 (size - 1) in
        let n := bb_counter p in
        let p := with_bb_counter (n + 1) p in
        if n =? SAMPLE_PERIOD then start_burst dirname current_pid pc size p
        else if SAMPLE_PERIOD <? bb_counter p then continue_burst current_pid pc size p
        else Ret p
  end.
End sampler.

(** ** Profiles as counts *)

(** How often a range, or a branch, has been recorded. *)
Fixpoint range_hits (l : list RangeProfile) (start size : Z) : Z :=
  match l with
  | [] => 0
  | r :: l => if (r_start r =? start) && (r_size r =? size) then r_count r else range_hits l start size
  end.

Fixpoint branch_hits (l : list BranchProfile) (from to : Z) : Z :=
  match l with
  | [] => 0
  | b :: l => if (b_from b =? from) && (b_to b =? to) then b_count b else branch_hits l from to
  end.

Definition same_pair (a b : Z * Z) : bool := (a.1 =? b.1) && (a.2 =? b.2).

Lemma same_pair_true a b : same_pair a b = true <-> a = b.
Proof. destruct a, b. unfold same_pair. simpl. rewrite andb_true_iff, !Z.eqb_eq. naive_solver. Qed.

Lemma add_range_hits b start size s z :
  range_hits (bin_range (add_range_count b start size)) s z
  = if same_pair (start, size) (s, z) then u64 (range_hits (bin_range b) s z + 1) else range_hits (bin_range b) s z.
Proof.
  unfold add_range_count. simpl. set (l := bin_range b). clearbody l.
  assert (match add_range start size l with
          | Some l' => forall s z, range_hits l' s z
              = if same_pair (start, size) (s, z) then u64 (range_hits l s z + 1) else range_hits l s z
          | None => range_hits l start size = 0
          end) as HA.
  { induction l as [|r l IH]; simpl; [done|].
    destruct ((r_start r =? start) && (r_size r =? size)) eqn:E.
    - intros s' z'. simpl. apply andb_true_iff in E as [<-%Z.eqb_eq <-%Z.eqb_eq]. unfold same_pair. simpl.
      by destruct ((r_start r =? s') && (r_size r =? z')).
    - destruct (add_range start size l) as [l'|]; simpl; [|done]. intros s' z'. rewrite IH.
      destruct ((r_start r =? s') && (r_size r =? z')) eqn:E'; [|done].
      destruct (same_pair (start, size) (s', z')) eqn:Es; [|done].
      apply same_pair_true in Es as [= -> ->]. congruence. }
  destruct (add_range start size l) as [l'|]; [apply HA|]. simpl. unfold same_pair. simpl.
  destruct ((start =? s) && (size =? z)) eqn:E; [|done].
  apply andb_true_iff in E as [<-%Z.eqb_eq <-%Z.eqb_eq]. by rewrite HA.
Qed.

Lemma add_branch_hits b from to f t :
  branch_hits (bin_branch (add_branch_count b from to)) f t
  = if same_pair (from, to) (f, t) then u64 (branch_hits (bin_branch b) f t + 1) else branch_hits (bin_branch b) f t.
Proof.
  unfold add_branch_count. simpl. set (l := bin_branch b). clearbody l.
  assert (match add_branch from to l with
          | Some l' => forall f t, branch_hits l' f t
              = if same_pair (from, to) (f, t) then u64 (branch_hits l f t + 1) else branch_hits l f t
          | None => branch_hits l from to = 0
          end) as HA.
  { induction l as [|r l IH]; simpl; [done|].
    destruct ((b_from r =? from) && (b_to r =? to)) eqn:E.
    - intros s' z'. simpl. apply andb_true_iff in E as [<-%Z.eqb_eq <-%Z.eqb_eq]. unfold same_pair. simpl.
      by destruct ((b_from r =? s') && (b_to r =? z')).
    - destruct (add_branch from to l) as [l'|]; simpl; [|done]. intros s' z'. rewrite IH.
      destruct ((b_from r =? s') && (b_to r =? z')) eqn:E'; [|done].
      destruct (same_pair (from, to) (s', z')) eqn:Es; [|done].
      apply same_pair_true in Es as [= -> ->]. congruence. }
  destruct (add_branch from to l) as [l'|]; [apply HA|]. simpl. unfold same_pair. simpl.
  destruct ((from =? f) && (to =? t)) eqn:E; [|done].
  apply andb_true_iff in E as [<-%Z.eqb_eq <-%Z.eqb_eq]. by rewrite HA.
Qed.

Fixpoint find_bin (name : list Z) (l : list BinaryProfile) : option BinaryProfile :=
  match l with
  | [] => None
  | b :: l => if bool_decide (bin_name b = name) then Some b else find_bin name l
  end.

Lemma find_bin_update name (f : BinaryProfile -> BinaryProfile) l n :
  (forall b, bin_name (f b) = bin_name b) ->
  find_bin n ((fun b => if bool_decide (bin_name b = name) then f b else b) <$> l)
  = if bool_decide (n = name) then f <$> find_bin n l else find_bin n l.
Proof.
  intros Hf. induction l as [|b l IH]; simpl; [by case_bool_decide|].
  destruct (decide (bin_name b = name)) as [E1|E1].
  - rewrite (bool_decide_true (bin_name b = name)) by done. rewrite Hf.
    destruct (decide (bin_name b = n)) as [E2|E2].
    + rewrite (bool_decide_true (bin_name b = n)) by done. by rewrite bool_decide_true by congruence.
    + rewrite (bool_decide_false (bin_name b = n)) by done. apply IH.
  - rewrite (bool_decide_false (bin_name b = name)) by done.
    destruct (decide (bin_name b = n)) as [E2|E2].
    + rewrite (bool_decide_true (bin_name b = n)) by done. by rewrite bool_decide_false by congruence.
    + rewrite (bool_decide_false (bin_name b = n)) by done. apply IH.
Qed.

Lemma find_bin_some name l : name ∈ bin_name <$> l -> is_Some (find_bin name l).
Proof.
  induction l as [|b l IH]; simpl; [by intros ?%not_elem_of_nil|]. case_bool_decide as E; [by eexists|].
  intros [->|Hin]%elem_of_cons; [done|]. by apply IH.
Qed.

(** The recorded counts of one binary. *)
Definition ranges_in (p : profiler) (name : list Z) : list RangeProfile :=
  default [] (bin_range <$> find_bin name (head_binary p)).
Definition branches_in (p : profiler) (name : list Z) : list BranchProfile :=
  default [] (bin_branch <$> find_bin name (head_binary p)).

Lemma get_binary_profile_keeps p name :
  let p' := get_binary_profile name p in
  is_Some (find_bin name (head_binary p'))
  /\ forall n, ranges_in p' n = ranges_in p n /\ branches_in p' n = branches_in p n.
Proof.
  unfold get_binary_profile. case_bool_decide as Hin; simpl; [split; [by apply find_bin_some|done]|].
  rewrite bool_decide_true by done. split; [by eexists|]. intros n. unfold ranges_in, branches_in. simpl.
  case_bool_decide as E; [|done]. subst n. enough (find_bin name (head_binary p) = None) as -> by done.
  revert Hin. induction (head_binary p) as [|b l IH]; simpl; [done|].
  rewrite not_elem_of_cons. intros [H1 H2]. rewrite bool_decide_false by congruence. by apply IH.
Qed.

(** ** A burst *)

Section burst.
Context (TL : Z) (dirname : list Z).
Implicit Types (p : profiler) (d : MmapData).

Definition run_blocks (current_pid : Z) p (bs : list (Z * Z)) : outcome profiler :=
  foldM (fun p '(pc, size) => profile_bb_helper TL (Some dirname) current_pid pc size p) p bs.

(** The position in the binary's file. *)
Definition file_pos d (pc : Z) : Z := wrap TL (pc + m_offset d - m_start d).

(** What a block adds to the profile: the file range of the block, and the
    branch from the end of the block before it. *)
Definition range_keys d (bs : list (Z * Z)) : list (Z * Z) :=
  (fun '(pc, size) => (file_pos d pc, u32 (size - 1))) <$> bs.

Fixpoint branch_keys d (prev : Z) (bs : list (Z * Z)) : list (Z * Z) :=
  match bs with
  | [] => []
  | (pc, size) :: bs => (file_pos d prev, file_pos d pc) :: branch_keys d (wrap TL (pc + u32 (size - 1))) bs
  end.

Definition times (k : Z * Z) (l : list (Z * Z)) : Z := Z.of_nat (length (filter (fun k' => k' = k) l)).

Lemma times_cons k a l : times k (a :: l) = times k l + (if same_pair a k then 1 else 0).
Proof.
  unfold times. rewrite filter_cons. destruct (same_pair a k) eqn:E.
  - apply same_pair_true in E. rewrite decide_True by done. simpl. lia.
  - rewrite decide_False; [lia|]. intros ->. rewrite (proj2 (same_pair_true k k) eq_refl) in E. done.
Qed.

(** A block of the mapping [d], found in the lists of the sampled process. *)
Definition block_in p d (b : Z * Z) : Prop :=
  0 < b.2 < 2 ^ 32 /\ find_mmap b.1 (mmaps_of p (prev_pid p)) = Some d.

(** The sampler has recorded [i] blocks of a burst in [d]. *)
Record in_burst (current_pid : Z) d (i : Z) p : Prop := {
  burst_count : bb_counter p = SAMPLE_PERIOD + 1 + i;
  burst_pid : current_pid = u32 (prev_pid p) /\ pid_ok (prev_pid p) = true;
  burst_mmap : prev_mmap p = Some (m_ptr d);
  burst_profile : curr_profile p = m_name d /\ is_Some (find_bin (m_name d) (head_binary p));
}.

Lemma update_curr_ranges f p n : (forall b, bin_name (f b) = bin_name b) ->
  is_Some (find_bin (curr_profile p) (head_binary p)) ->
  exists b, find_bin (curr_profile p) (head_binary p) = Some b
  /\ ranges_in (update_curr f p) n = (if bool_decide (n = curr_profile p) then bin_range (f b) else ranges_in p n)
  /\ branches_in (update_curr f p) n = (if bool_decide (n = curr_profile p) then bin_branch (f b) else branches_in p n)
  /\ find_bin (curr_profile p) (head_binary (update_curr f p)) = Some (f b).
Proof.
  intros Hf [b Hb]. exists b. split; [done|].
  assert (forall n, find_bin n (head_binary (update_curr f p))
    = if bool_decide (n = curr_profile p) then f <$> find_bin n (head_binary p) else find_bin n (head_binary p)) as HU.
  { intros n'. by apply find_bin_update. }
  unfold ranges_in, branches_in. rewrite !HU, (bool_decide_true (curr_profile p = _)) by done.
  rewrite Hb. case_bool_decide as E; [|done]. subst n. by rewrite Hb.
Qed.

Lemma burst_step current_pid d i p pc size : in_burst current_pid d i p -> 0 <= i < SAMPLE_BURST - 1 ->
  block_in p d (pc, size) ->
  exists p', profile_bb_helper TL (Some dirname) current_pid pc size p = Ret p' /\ in_burst current_pid d (i + 1) p'
    /\ mmaps p' = mmaps p /\ prev_pid p' = prev_pid p /\ prev_pc p' = wrap TL (pc + u32 (size - 1))
    /\ forall n, (forall k, range_hits (ranges_in p' n) k.1 k.2
         = if bool_decide (n = m_name d) && same_pair (file_pos d pc, u32 (size - 1)) k
           then u64 (range_hits (ranges_in p n) k.1 k.2 + 1) else range_hits (ranges_in p n) k.1 k.2)
       /\ forall k, branch_hits (branches_in p' n) k.1 k.2
         = if bool_decide (n = m_name d) && same_pair (file_pos d (prev_pc p), file_pos d pc) k
           then u64 (branch_hits (branches_in p n) k.1 k.2 + 1) else branch_hits (branches_in p n) k.1 k.2.
Proof.
  intros [Hc [Hpid Hok] Hm [Hcur Hbin]] Hi [Hsz Hf]. simpl in Hsz, Hf. unfold SAMPLE_BURST in Hi.
  unfold profile_bb_helper. rewrite (proj2 (Z.eqb_neq size 0)) by lia. rewrite Hc.
  rewrite (proj2 (Z.eqb_neq (SAMPLE_PERIOD + 1 + i) SAMPLE_PERIOD)) by lia. simpl bb_counter.
  destruct (Z.ltb_spec SAMPLE_PERIOD (SAMPLE_PERIOD + 1 + i + 1)); [|lia].
  unfold continue_burst. simpl bb_counter. simpl prev_pid. unfold SAMPLE_BURST.
  destruct (Z.ltb_spec (SAMPLE_PERIOD + 100) (SAMPLE_PERIOD + 1 + i + 1)); [lia|].
  rewrite Hpid, Z.eqb_refl. simpl orb. cbv iota. unfold get_mmap_data. rewrite Hok. cbn [mbind outcome_bind].
  change (mmaps_of (with_bb_counter (SAMPLE_PERIOD + 1 + i + 1) p) (prev_pid p)) with (mmaps_of p (prev_pid p)). rewrite Hf.
  rewrite bool_decide_true by (simpl; by rewrite Hm). fold (file_pos d pc).
  set (p0 := with_bb_counter _ p). set (f := fun b => add_range_count b _ _). set (p1 := update_curr f p0).
  change (prev_pc p1) with (prev_pc p). fold (file_pos d (prev_pc p)).
  set (g := fun b => add_branch_count b _ _). set (p2 := update_curr g p1).
  assert (curr_profile p0 = m_name d /\ curr_profile p1 = m_name d) as [Hc0 Hc1] by done.
  eexists. split; [done|].
  destruct (update_curr_ranges f p0 (m_name d)) as (b0 & Hb0 & _ & _ & Hb1); [done|by rewrite Hc0|]. fold p1 in Hb1.
  destruct (update_curr_ranges g p1 (m_name d)) as (b1 & Hb1' & _ & _ & Hb2); [done|rewrite Hc1, <- Hc0, Hb1; by eexists|]. fold p2 in Hb2.
  split_and!; try done.
  { split; [simpl; lia|done|done|]. split; [done|]. exists (g b1). rewrite Hc1 in Hb2. exact Hb2. }
  intros n. change (ranges_in (with_prev_pc _ p2) n) with (ranges_in p2 n).
  change (branches_in (with_prev_pc _ p2) n) with (branches_in p2 n).
  destruct (update_curr_ranges f p0 n) as (b0' & Hb0' & R1 & S1 & _); [done|by rewrite Hc0|]. fold p1 in R1, S1.
  destruct (update_curr_ranges g p1 n) as (b1' & Hb1'' & R2 & S2 & _); [done|rewrite Hc1, <- Hc0, Hb1; by eexists|]. fold p2 in R2, S2.
  assert (b0' = b0) as -> by congruence. assert (b1' = f b0) as -> by congruence.
  rewrite R2, S2, R1, S1, Hc0, Hc1. clear R1 R2 S1 S2.
  destruct (decide (n = m_name d)) as [->|En]; [rewrite !bool_decide_true by done|rewrite !bool_decide_false by done; by split].
  cbn [andb].
  assert (ranges_in p (m_name d) = bin_range b0 /\ branches_in p (m_name d) = bin_branch b0) as [-> ->].
  { unfold ranges_in, branches_in. rewrite Hc0 in Hb0. simpl in Hb0. by rewrite Hb0. }
  split; intros [s z]; [apply add_range_hits|apply (add_branch_hits (f b0))].
Qed.

(** [p'] is [p] with the counts of the keys added to the profile [name], as
    64-bit counters, and nothing else recorded. *)
Definition recorded (name : list Z) (ranges branches : list (Z * Z)) p p' : Prop :=
  forall n, (forall k, u64 (range_hits (ranges_in p' n) k.1 k.2)
       = u64 (range_hits (ranges_in p n) k.1 k.2 + if bool_decide (n = name) then times k ranges else 0))
  /\ forall k, u64 (branch_hits (branches_in p' n) k.1 k.2)
       = u64 (branch_hits (branches_in p n) k.1 k.2 + if bool_decide (n = name) then times k branches else 0).

Lemma u64_add_idemp a b : u64 (u64 a + b) = u64 (a + b).
Proof. unfold wrap. apply Zplus_mod_idemp_l. Qed.

Lemma recorded_step name p p1 p2 r b rs bs :
  (forall n, (forall k, range_hits (ranges_in p1 n) k.1 k.2
       = if bool_decide (n = name) && same_pair r k
         then u64 (range_hits (ranges_in p n) k.1 k.2 + 1) else range_hits (ranges_in p n) k.1 k.2)
   /\ forall k, branch_hits (branches_in p1 n) k.1 k.2
       = if bool_decide (n = name) && same_pair b k
         then u64 (branch_hits (branches_in p n) k.1 k.2 + 1) else branch_hits (branches_in p n) k.1 k.2) ->
  recorded name rs bs p1 p2 -> recorded name (r :: rs) (b :: bs) p p2.
Proof.
  intros H1 H2 n. destruct (H1 n) as [R1 B1]. destruct (H2 n) as [R2 B2].
  split; intros k; [rewrite R2, R1, times_cons|rewrite B2, B1, times_cons];
    (destruct (bool_decide (n = name)); cbn [andb]; [|done]);
    destruct (same_pair _ k); rewrite ?u64_add_idemp; f_equal; lia.
Qed.

Lemma run_blocks_cons current_pid p pc size bs :
  run_blocks current_pid p ((pc, size) :: bs)
  = p' ← profile_bb_helper TL (Some dirname) current_pid pc size p; run_blocks current_pid p' bs.
Proof. done. Qed.

Lemma burst_run current_pid d bs i p : in_burst current_pid d i p -> 0 <= i ->
  i + Z.of_nat (length bs) <= SAMPLE_BURST - 1 -> Forall (block_in p d) bs ->
  exists p', run_blocks current_pid p bs = Ret p' /\ in_burst current_pid d (i + Z.of_nat (length bs)) p'
    /\ recorded (m_name d) (range_keys d bs) (branch_keys d (prev_pc p) bs) p p'.
Proof.
  revert i p. induction bs as [|[pc size] bs IH]; intros i p Hb Hi Hl HF.
  { exists p. rewrite Z.add_0_r. split; [done|]. split; [done|]. intros n.
    split; intros k; f_equal; case_bool_decide; unfold times; simpl; lia. }
  apply Forall_cons in HF as [Hblk HF]. simpl length in Hl.
  destruct (burst_step current_pid d i p pc size Hb ltac:(lia) Hblk) as (p1 & E & Hb1 & Hm & Hp & Hpc & Hrec).
  destruct (IH (i + 1) p1 Hb1 ltac:(lia) ltac:(lia)) as (p2 & E2 & Hb2 & Hrec2).
  { eapply Forall_impl; [exact HF|]. intros b [H1 H2]. split; [done|]. unfold mmaps_of in *. by rewrite Hm, Hp. }
  exists p2. rewrite run_blocks_cons, E. split; [exact E2|]. split.
  { replace (i + Z.of_nat (length ((pc, size) :: bs))) with (i + 1 + Z.of_nat (length bs)) by (simpl; lia). done. }
  rewrite Hpc in Hrec2. by eapply recorded_step.
Qed.

(** The block that starts a burst. *)
Lemma burst_start current_pid d p pc size : in_u 32 current_pid -> pid_ok (s32 current_pid) = true ->
  bb_counter p = SAMPLE_PERIOD -> output_counter p <> OUTPUT_THRESHOLD -> 0 < size ->
  find_mmap pc (mmaps_of p (s32 current_pid)) = Some d ->
  exists p', profile_bb_helper TL (Some dirname) current_pid pc size p = Ret p' /\ in_burst current_pid d 0 p'
    /\ mmaps p' = mmaps p /\ prev_pid p' = s32 current_pid /\ prev_pc p' = wrap TL (pc + u32 (size - 1))
    /\ forall n, ranges_in p' n = ranges_in p n /\ branches_in p' n = branches_in p n.
Proof.
  intros Hcur Hok Hc Ho Hsz Hf. unfold profile_bb_helper. rewrite (proj2 (Z.eqb_neq size 0)) by lia.
  rewrite Hc, Z.eqb_refl. unfold start_burst, get_mmap_data. rewrite Hok. cbn [mbind outcome_bind].
  change (mmaps_of (with_bb_counter (SAMPLE_PERIOD + 1) p) (s32 current_pid)) with (mmaps_of p (s32 current_pid)).
  rewrite Hf. set (p1 := with_prev_pc _ _). destruct (get_binary_profile_keeps p1 (m_name d)) as [Hs Hk].
  set (p2 := get_binary_profile (m_name d) p1) in *.
  assert (output_counter p2 = output_counter p /\ mmaps p2 = mmaps p /\ prev_pid p2 = s32 current_pid
    /\ prev_pc p2 = wrap TL (pc + u32 (size - 1)) /\ bb_counter p2 = SAMPLE_PERIOD + 1
    /\ prev_mmap p2 = Some (m_ptr d)) as (E1 & E2 & E3 & E4 & E5 & E6).
  { unfold p2, get_binary_profile. by case_bool_decide. }
  cbn [output_counter with_curr]. rewrite E1, (proj2 (Z.eqb_neq _ _) Ho).
  eexists. split; [done|]. split_and!; try done.
  split; simpl; [by rewrite E5|rewrite E3; split; [|done]|done|done].
  unfold swrap. rewrite (wrap_small 32 current_pid) by done. destruct (current_pid <? 2 ^ (32 - 1)); [by rewrite wrap_small|].
  replace (current_pid - 2 ^ 32) with (current_pid + (-1) * 2 ^ 32) by lia.
  unfold wrap. rewrite Z_mod_plus_full. symmetry. by apply Z.mod_small.
Qed.

(** The block after a full burst ends it. *)
Lemma burst_end current_pid d p pc size : in_burst current_pid d (SAMPLE_BURST - 1) p -> 0 < size ->
  exists p', profile_bb_helper TL (Some dirname) current_pid pc size p = Ret p' /\ bb_counter p' = 0
    /\ head_binary p' = head_binary p.
Proof.
  intros [Hc _ _ _] Hsz. unfold profile_bb_helper. rewrite (proj2 (Z.eqb_neq size 0)) by lia.
  rewrite Hc. unfold continue_burst. simpl. eexists. done.
Qed.
End burst.

(** A sample is a faithful count. When the block counter reaches the
    period inside a mapping, the next blocks of the same thread and mapping,
    up to 99 of them, are recorded exactly: each adds one to its range, in
    file positions of the mapped binary, and one to the branch from the block
    before it, and nothing else in any profile changes. The block after the
    99th ends the burst and records nothing. *)
Theorem burst_records_each_block TL dirname current_pid d p b0 bs :
  in_u 32 current_pid -> pid_ok (s32 current_pid) = true ->
  bb_counter p = SAMPLE_PERIOD -> output_counter p <> OUTPUT_THRESHOLD ->
  (forall b, b ∈ b0 :: bs -> 0 < b.2 < 2 ^ 32 /\ find_mmap b.1 (mmaps_of p (s32 current_pid)) = Some d) ->
  Z.of_nat (length bs) <= SAMPLE_BURST - 1 ->
  exists p', run_blocks TL dirname current_pid p (b0 :: bs) = Ret p'
    /\ recorded (m_name d) (range_keys TL d bs) (branch_keys TL d (wrap TL (b0.1 + u32 (b0.2 - 1))) bs) p p'
    /\ (Z.of_nat (length bs) = SAMPLE_BURST - 1 -> forall b, 0 < b.2 -> exists p'',
         run_blocks TL dirname current_pid p' [b] = Ret p'' /\ bb_counter p'' = 0 /\ head_binary p'' = head_binary p').
Proof.
  intros Hcur Hok Hc Ho Hblk Hl. destruct b0 as [pc0 size0].
  destruct (Hblk (pc0, size0)) as [Hs0 Hf0]; [by left|].
  destruct (burst_start TL dirname current_pid d p pc0 size0 Hcur Hok Hc Ho ltac:(simpl in *; lia) Hf0)
    as (p1 & E1 & Hb1 & Hm & Hp & Hpc & Hsame).
  destruct (burst_run TL dirname current_pid d bs 0 p1 Hb1 ltac:(lia) ltac:(lia)) as (p2 & E2 & Hb2 & Hrec).
  { apply Forall_forall. intros b Hb. destruct (Hblk b) as [H1 H2]; [by right|]. split; [done|].
    unfold mmaps_of in *. by rewrite Hm, Hp. }
  exists p2. rewrite run_blocks_cons, E1. split; [exact E2|]. split.
  - rewrite Hpc in Hrec. intros n. destruct (Hrec n) as [HR HB]. destruct (Hsame n) as [S1 S2].
    rewrite S1 in HR. rewrite S2 in HB. by split.
  - intros Hfull [pc size] Hsz. rewrite Z.add_0_l, Hfull in Hb2.
    destruct (burst_end TL dirname current_pid d p2 pc size Hb2 Hsz) as (p3 & E3 & Hb3 & Hh).
    exists p3. split; [|done]. rewrite run_blocks_cons, E3. done.
Qed.

Definition example_map : MmapData := mkMmap 1 0x1000 0x2000 0x100 [97].
Definition example_profiler : profiler :=
  mkProfiler {[7 := [example_map]]} [] SAMPLE_PERIOD 0 0 None 0 [] [].

Lemma burst_records_each_block_witness :
  exists p', run_blocks 32 [47] 7 example_profiler [(0x1000, 4); (0x1010, 8); (0x1010, 8)] = Ret p'
    /\ u64 (range_hits (ranges_in p' [97]) 0x110 7) = 2.
Proof.
  destruct (burst_records_each_block 32 [47] 7 example_map example_profiler (0x1000, 4) [(0x1010, 8); (0x1010, 8)])
    as (p' & E & Hr & _).
  - unfold in_u. lia.
  - reflexivity.
  - reflexivity.
  - vm_compute. congruence.
  - intros b Hb. repeat (apply elem_of_cons in Hb as [->|Hb]; [simpl; split; [lia|reflexivity]|]).
    by apply not_elem_of_nil in Hb.
  - simpl. vm_compute. congruence.
  - exists p'. split; [exact E|]. destruct (Hr [97]) as [HR _]. specialize (HR (0x110, 7)).
    cbn [fst snd] in HR. rewrite HR. reflexivity.
Defined.

(** The file name of a profile is built in a 4096-byte buffer. The
    assertion that guards it counts the directory, the separator and the
    binary's name, not the suffix written after them: names that pass it by
    less than four bytes are written past the end of the buffer. *)
Theorem dump_filename_overrun dirname b :
  let n := Z.of_nat (length dirname) + Z.of_nat (length (bin_name b)) in
  dump_all dirname [b]
  = if n <? 4091 then Ret [mkDump (dump_filename dirname (bin_name b))
                             ((fun r => (r_start r, u64 (r_start r + r_size r), r_count r)) <$> bin_range b)
                             ((fun b => (b_from b, b_to b, b_count b)) <$> bin_branch b)]
    else if n <? 4094 then OutOfBounds else CpuAbort.
Proof.
  cbv zeta. cbn [dump_all]. unfold BUF_SIZE.
  assert (Z.of_nat (length (dump_filename dirname (bin_name b)))
    = Z.of_nat (length dirname) + Z.of_nat (length (bin_name b)) + 5) as ->.
  { unfold dump_filename. rewrite !length_app, length_fmap. simpl. lia. }
  destruct (Z.ltb_spec (Z.of_nat (length dirname) + Z.of_nat (length (bin_name b)) + 2) 4096); simpl negb; cbv iota.
  - destruct (Z.leb_spec 4096 (Z.of_nat (length dirname) + Z.of_nat (length (bin_name b)) + 5)); zbits_cases; done.
  - zbits_cases; done.
Qed.
