(* ===== verification/GoldfishTrace.v ===== *)
(** The trace device, hw/android/goldfish/trace.c: the guest kernel tells the
    emulator about context switches, executed programs and mappings by
    writing to its registers. The state is the file's static variables, the
    globals of gemdroid-tracer.c it sets, and the profiler of profile.c it
    feeds. What it prints is kept as a list of messages; debug output is
    compiled out. *)
From stdpp Require Import gmap strings.
From S2P Require Import Prelude CStrings ByteStream QemuFile GoldfishDevice GoldfishTty CodeProfile.

Definition CLIENT_PAGE_SIZE : Z := 4096.

Definition TRACE_DEV_REG_SWITCH : Z := 0.
Definition TRACE_DEV_REG_FORK : Z := 1.
Definition TRACE_DEV_REG_EXECVE_VMSTART : Z := 3.
Definition TRACE_DEV_REG_EXECVE_VMEND : Z := 4.
Definition TRACE_DEV_REG_EXECVE_OFFSET : Z := 5.
Definition TRACE_DEV_REG_EXECVE_EXEPATH : Z := 6.
Definition TRACE_DEV_REG_EXIT : Z := 7.
Definition TRACE_DEV_REG_CMDLINE : Z := 8.
Definition TRACE_DEV_REG_CMDLINE_LEN : Z := 9.
Definition TRACE_DEV_REG_MMAP_EXEPATH : Z := 10.
Definition TRACE_DEV_REG_INIT_PID : Z := 11.
Definition TRACE_DEV_REG_INIT_NAME : Z := 12.
Definition TRACE_DEV_REG_CLONE : Z := 13.
Definition TRACE_DEV_REG_UNMAP_START : Z := 14.
Definition TRACE_DEV_REG_UNMAP_END : Z := 15.
Definition TRACE_DEV_REG_NAME : Z := 16.
Definition TRACE_DEV_REG_TGID : Z := 17.
Definition TRACE_DEV_REG_DYN_SYM : Z := 50.
Definition TRACE_DEV_REG_DYN_SYM_ADDR : Z := 51.
Definition TRACE_DEV_REG_REMOVE_ADDR : Z := 52.
Definition TRACE_DEV_REG_PRINT_STR : Z := 60.
Definition TRACE_DEV_REG_PRINT_NUM_DEC : Z := 61.
Definition TRACE_DEV_REG_PRINT_NUM_HEX : Z := 62.
Definition TRACE_DEV_REG_STOP_EMU : Z := 90.
Definition TRACE_DEV_REG_ENABLE : Z := 100.
Definition TRACE_DEV_REG_METHOD_ENTRY : Z := 1024.
Definition TRACE_DEV_REG_METHOD_EXIT : Z := 1025.
Definition TRACE_DEV_REG_METHOD_EXCEPTION : Z := 1026.
Definition TRACE_DEV_REG_NATIVE_ENTRY : Z := 1028.
Definition TRACE_DEV_REG_NATIVE_EXIT : Z := 1029.
Definition TRACE_DEV_REG_NATIVE_EXCEPTION : Z := 1030.
Definition tracing : Z := 0.

(** What the device prints. *)
Inductive message :=
| ProcessCreated (pid : Z) (path : list Z)
| PrintStr (s : list Z)
| PrintDec (n : Z)
| PrintHex (n : Z).

Record trace_state := mkTrace {
  exec_path : list Z;
  exec_arg : list Z;
  vstart : Z;
  vend : Z;
  eoff : Z;
  cmdlen : Z;
  pid : Z;
  tgid : Z;
  tid : Z;
  dsaddr : Z;
  unmap_start : Z;
  CPU_tracer : Z;
  current_pid : Z;
  current_pid_path : list Z;
  prof : profiler;
  messages : list message;
  stopped : bool;
}.

Definition set_path (l : list Z) (s : trace_state) : trace_state :=
  mkTrace l (exec_arg s) (vstart s) (vend s) (eoff s) (cmdlen s) (pid s) (tgid s) (tid s) (dsaddr s) (unmap_start s)
    (CPU_tracer s) (current_pid s) (current_pid_path s) (prof s) (messages s) (stopped s).
Definition set_arg (l : list Z) (s : trace_state) : trace_state :=
  mkTrace (exec_path s) l (vstart s) (vend s) (eoff s) (cmdlen s) (pid s) (tgid s) (tid s) (dsaddr s) (unmap_start s)
    (CPU_tracer s) (current_pid s) (current_pid_path s) (prof s) (messages s) (stopped s).
Definition set_map (vs ve eo : Z) (s : trace_state) : trace_state :=
  mkTrace (exec_path s) (exec_arg s) vs ve eo (cmdlen s) (pid s) (tgid s) (tid s) (dsaddr s) (unmap_start s)
    (CPU_tracer s) (current_pid s) (current_pid_path s) (prof s) (messages s) (stopped s).
Definition set_cmdlen (v : Z) (s : trace_state) : trace_state :=
  mkTrace (exec_path s) (exec_arg s) (vstart s) (vend s) (eoff s) v (pid s) (tgid s) (tid s) (dsaddr s) (unmap_start s)
    (CPU_tracer s) (current_pid s) (current_pid_path s) (prof s) (messages s) (stopped s).
Definition set_ids (p tg t cur : Z) (s : trace_state) : trace_state :=
  mkTrace (exec_path s) (exec_arg s) (vstart s) (vend s) (eoff s) (cmdlen s) p tg t (dsaddr s) (unmap_start s)
    (CPU_tracer s) cur (current_pid_path s) (prof s) (messages s) (stopped s).
Definition set_addrs (ds um : Z) (s : trace_state) : trace_state :=
  mkTrace (exec_path s) (exec_arg s) (vstart s) (vend s) (eoff s) (cmdlen s) (pid s) (tgid s) (tid s) ds um
    (CPU_tracer s) (current_pid s) (current_pid_path s) (prof s) (messages s) (stopped s).
Definition set_pid_path (l : list Z) (s : trace_state) : trace_state :=
  mkTrace (exec_path s) (exec_arg s) (vstart s) (vend s) (eoff s) (cmdlen s) (pid s) (tgid s) (tid s) (dsaddr s) (unmap_start s)
    (CPU_tracer s) (current_pid s) l (prof s) (messages s) (stopped s).
Definition set_prof (p : profiler) (s : trace_state) : trace_state :=
  mkTrace (exec_path s) (exec_arg s) (vstart s) (vend s) (eoff s) (cmdlen s) (pid s) (tgid s) (tid s) (dsaddr s) (unmap_start s)
    (CPU_tracer s) (current_pid s) (current_pid_path s) p (messages s) (stopped s).
Definition say (m : message) (s : trace_state) : trace_state :=
  mkTrace (exec_path s) (exec_arg s) (vstart s) (vend s) (eoff s) (cmdlen s) (pid s) (tgid s) (tid s) (dsaddr s) (unmap_start s)
    (CPU_tracer s) (current_pid s) (current_pid_path s) (prof s) (messages s ++ [m]) (stopped s).
Definition stop (s : trace_state) : trace_state :=
  mkTrace (exec_path s) (exec_arg s) (vstart s) (vend s) (eoff s) (cmdlen s) (pid s) (tgid s) (tid s) (dsaddr s) (unmap_start s)
    (CPU_tracer s) (current_pid s) (current_pid_path s) (prof s) (messages s) true.

Definition page_of_zeros : list Z := replicate (Z.to_nat CLIENT_PAGE_SIZE) 0.

(** The program starts with these variables; [trace_dev_init] registers the
    device, of 0x2000 bytes and no line, when a profile is asked for. *)
Definition trace_init : trace_state :=
  mkTrace page_of_zeros page_of_zeros 0 0 0 0 0 0 0 0 0 1 (-1) (replicate 4096 0) profiler_init [] false.

Definition trace_dev_init (code_profile_dirname : option (list Z)) : option goldfish_device :=
  match code_profile_dirname with
  | None => None
  | Some _ => Some (mkDev None 0 (chars "qemu_trace") (u32 (-1)) 0 0x2000 0 0)
  end.

Section trace.
(** [target_ulong]'s width, and the guest's memory. *)
Context (TL : Z) (mem : Z -> Z).

(** The characters up to a NUL, at most [n]. *)
Fixpoint guest_string (n : nat) (addr : Z) : list Z :=
  match n with
  | O => []
  | S n =>
      let c := u8 (mem (wrap TL addr)) in
      if c =? 0 then [] else c :: guest_string n (addr + 1)
  end.

(** The buffer after the call, and the result. *)
Definition get_guest_kernel_string (qemu_str : list Z) (guest_str qemu_buffer_size : Z) : list Z * Z :=
  let s := if 1 <? qemu_buffer_size then guest_string (Z.to_nat (qemu_buffer_size - 1)) guest_str else [] in
  (blit qemu_str 0 (s ++ [0]), Z.of_nat (length s)).

Definition read_path (value : Z) (s : trace_state) : trace_state :=
  set_path (get_guest_kernel_string (exec_path s) value CLIENT_PAGE_SIZE).1 s.
Definition read_arg (value : Z) (s : trace_state) : trace_state :=
  set_arg (get_guest_kernel_string (exec_arg s) value CLIENT_PAGE_SIZE).1 s.
Definition clear_path (s : trace_state) : trace_state := set_path (<[0%nat := 0]> (exec_path s)) s.
Definition clear_arg (s : trace_state) : trace_state := set_arg (<[0%nat := 0]> (exec_arg s)) s.

(** The first blank among the first [n] characters. *)
Fixpoint first_blank (n : nat) (l : list Z) : nat :=
  match n, l with
  | S n, c :: l => if c =? SPACE then O else S (first_blank n l)
  | _, _ => O
  end.

(** [TRACE_DEV_REG_CMDLINE]: the command line, up to its first blank, names
    the current process. The guest's length is used as it is. *)
Definition trace_cmdline (value : Z) (s : trace_state) : outcome trace_state :=
  if CLIENT_PAGE_SIZE <? cmdlen s then OutOfBounds else
  let line := guest_bytes TL mem value (cmdlen s) in
  let s := set_arg (blit (exec_arg s) 0 line) s in
  let path := blit (current_pid_path s) 0 (range (exec_arg s) 0 (cmdlen s)) in
  let n := first_blank (Z.to_nat (cmdlen s)) path in
  if CLIENT_PAGE_SIZE <=? Z.of_nat n then OutOfBounds else
  let path := <[n := 0]> path in
  let s := set_pid_path path s in
  Ret (if nz (CPU_tracer s) then say (ProcessCreated (current_pid s) (cstr path)) s else s).

(** [TRACE_DEV_REG_NAME]: a trailing newline is removed. *)
Definition trace_name (value : Z) (s : trace_state) : outcome trace_state :=
  let s := read_path value s in
  let len := Z.of_nat (length (cstr (exec_path s))) in
  if len - 1 <? 0 then OutOfBounds
  else Ret (if at_pos (exec_path s) (len - 1) =? NEWLINE
            then set_path (<[Z.to_nat (len - 1) := 0]> (exec_path s)) s else s).

(** [addr] is the node [malloc] returns for a new mapping. *)
Definition trace_dev_write (addr : mmapptr) (s : trace_state) (offset value : Z) : outcome trace_state :=
  let reg := offset .>> 2 in
  if reg =? TRACE_DEV_REG_SWITCH then Ret (set_ids (pid s) (tgid s) value (s32 value) s)
  else if reg =? TRACE_DEV_REG_TGID then Ret (set_ids (pid s) value (tid s) (current_pid s) s)
  else if (reg =? TRACE_DEV_REG_FORK) || (reg =? TRACE_DEV_REG_CLONE) then Ret s
  else if reg =? TRACE_DEV_REG_EXECVE_VMSTART then Ret (set_map value (vend s) (eoff s) s)
  else if reg =? TRACE_DEV_REG_EXECVE_VMEND then Ret (set_map (vstart s) value (eoff s) s)
  else if reg =? TRACE_DEV_REG_EXECVE_OFFSET then Ret (set_map (vstart s) (vend s) value s)
  else if reg =? TRACE_DEV_REG_EXECVE_EXEPATH then Ret (clear_path (read_path value s))
  else if reg =? TRACE_DEV_REG_CMDLINE_LEN then Ret (set_cmdlen value s)
  else if reg =? TRACE_DEV_REG_CMDLINE then trace_cmdline value s
  else if reg =? TRACE_DEV_REG_EXIT then
    p ← release_mmap value (prof s);
    Ret (set_prof p s)
  else if reg =? TRACE_DEV_REG_NAME then trace_name value s
  else if reg =? TRACE_DEV_REG_MMAP_EXEPATH then
    let s := read_path value s in
    p ← record_mmap addr (wrap TL (vstart s)) (wrap TL (vend s)) (wrap TL (eoff s)) (cstr (exec_path s)) (tid s) (prof s);
    Ret (clear_path (set_prof p s))
  else if reg =? TRACE_DEV_REG_INIT_PID then Ret (set_ids value (tgid s) (tid s) (current_pid s) s)
  else if reg =? TRACE_DEV_REG_INIT_NAME then Ret (clear_path (read_path value s))
  else if reg =? TRACE_DEV_REG_DYN_SYM_ADDR then Ret (set_addrs value (unmap_start s) s)
  else if reg =? TRACE_DEV_REG_DYN_SYM then Ret (clear_arg (read_arg value s))
  else if reg =? TRACE_DEV_REG_REMOVE_ADDR then Ret s
  else if reg =? TRACE_DEV_REG_PRINT_STR then
    let s := read_arg value s in
    Ret (clear_arg (say (PrintStr (cstr (exec_arg s))) s))
  else if reg =? TRACE_DEV_REG_PRINT_NUM_DEC then Ret (say (PrintDec (s32 value)) s)
  else if reg =? TRACE_DEV_REG_PRINT_NUM_HEX then Ret (say (PrintHex value) s)
  else if reg =? TRACE_DEV_REG_STOP_EMU then Ret (stop s)
  else if reg =? TRACE_DEV_REG_ENABLE then Ret s
  else if reg =? TRACE_DEV_REG_UNMAP_START then Ret (set_addrs (dsaddr s) value s)
  else if reg =? TRACE_DEV_REG_UNMAP_END then Ret s
  else if (reg =? TRACE_DEV_REG_METHOD_ENTRY) || (reg =? TRACE_DEV_REG_METHOD_EXIT)
          || (reg =? TRACE_DEV_REG_METHOD_EXCEPTION) || (reg =? TRACE_DEV_REG_NATIVE_ENTRY)
          || (reg =? TRACE_DEV_REG_NATIVE_EXIT) || (reg =? TRACE_DEV_REG_NATIVE_EXCEPTION) then Ret s
  else if offset <? 4096 then CpuAbort
  else Ret s.

Definition trace_dev_read (offset : Z) : outcome Z :=
  if (offset .>> 2) =? TRACE_DEV_REG_ENABLE then Ret tracing
  else if offset <? 4096 then CpuAbort
  else Ret 0.
End trace.

(** [get_current_pid] *)
Definition get_current_pid (s : trace_state) : Z := tid s.

(** ** Strings of the guest *)

Definition trace_ok (s : trace_state) : Prop :=
  Z.of_nat (length (exec_path s)) = CLIENT_PAGE_SIZE /\ Z.of_nat (length (exec_arg s)) = CLIENT_PAGE_SIZE
  /\ Z.of_nat (length (current_pid_path s)) = CLIENT_PAGE_SIZE.

Lemma trace_init_ok : trace_ok trace_init.
Proof. repeat split; by apply replicate_size. Qed.

Section strings.
Context (TL : Z) (mem : Z -> Z).

Lemma guest_string_chars n addr : Forall (fun c => c <> 0) (guest_string TL mem n addr).
Proof.
  revert addr. induction n as [|n IH]; intros addr; simpl; [constructor|].
  destruct (Z.eqb_spec (u8 (mem (wrap TL addr))) 0); constructor; auto.
Qed.

Lemma length_guest_string n addr : (length (guest_string TL mem n addr) <= n)%nat.
Proof.
  revert addr. induction n as [|n IH]; intros addr; simpl; [lia|].
  destruct (_ =? 0); simpl; [lia|]. specialize (IH (addr + 1)). lia.
Qed.

(** What the guest's string leaves in a page-sized buffer. *)
Definition name_at (addr : Z) : list Z := guest_string TL mem (Z.to_nat (CLIENT_PAGE_SIZE - 1)) addr.

Lemma get_string_page buf addr : Z.of_nat (length buf) = CLIENT_PAGE_SIZE ->
  let b := (get_guest_kernel_string TL mem buf addr CLIENT_PAGE_SIZE).1 in
  cstr b = name_at addr /\ length b = length buf
  /\ (get_guest_kernel_string TL mem buf addr CLIENT_PAGE_SIZE).2 = Z.of_nat (length (name_at addr)).
Proof.
  intros Hl. cbv zeta. unfold get_guest_kernel_string. change (1 <? CLIENT_PAGE_SIZE) with true. cbv iota.
  fold (name_at addr). pose proof (length_guest_string (Z.to_nat (CLIENT_PAGE_SIZE - 1)) addr) as Hn.
  fold (name_at addr) in Hn. unfold CLIENT_PAGE_SIZE in Hn, Hl. unfold fst, snd.
  split; [|split; [rewrite length_blit; [done|lia|]; rewrite length_app; simpl length; lia|done]].
  unfold blit. change (Z.to_nat 0) with O. rewrite take_0, <- app_assoc. apply cstr_nul, guest_string_chars.
Qed.
End strings.

(** ** Mappings and processes *)

Section writes.
Context (TL : Z) (mem : Z -> Z) (addr : mmapptr).
Implicit Types s : trace_state.

Lemma write_switch s v : trace_dev_write TL mem addr s (4 * TRACE_DEV_REG_SWITCH) v
  = Ret (set_ids (pid s) (tgid s) v (s32 v) s).
Proof. reflexivity. Qed.

Lemma write_map s vs ve off :
  (s1 ← trace_dev_write TL mem addr s (4 * TRACE_DEV_REG_EXECVE_VMSTART) vs;
   s2 ← trace_dev_write TL mem addr s1 (4 * TRACE_DEV_REG_EXECVE_VMEND) ve;
   trace_dev_write TL mem addr s2 (4 * TRACE_DEV_REG_EXECVE_OFFSET) off) = Ret (set_map vs ve off s).
Proof. reflexivity. Qed.

Lemma write_mmap_path s v : trace_dev_write TL mem addr s (4 * TRACE_DEV_REG_MMAP_EXEPATH) v
  = p ← record_mmap addr (wrap TL (vstart s)) (wrap TL (vend s)) (wrap TL (eoff s))
          (cstr (exec_path (read_path TL mem v s))) (tid s) (prof s);
    Ret (clear_path (set_prof p (read_path TL mem v s))).
Proof. reflexivity. Qed.

Lemma write_exit s v : trace_dev_write TL mem addr s (4 * TRACE_DEV_REG_EXIT) v
  = p ← release_mmap v (prof s); Ret (set_prof p s).
Proof. reflexivity. Qed.
End writes.

(** A mapping the guest kernel announces is the one the profiler finds.
    After the kernel switches to a thread and announces a mapping (its range,
    its file offset and its path), every address of the range, and no other,
    is looked up for that thread as part of that file; the other threads and
    addresses are looked up as before, and the exit of the thread removes
    its mappings. *)
Theorem announced_mapping_is_found TL mem addr s t vs ve off path_at :
  trace_ok s -> in_u 32 t -> t < MAX_PIDS -> in_u TL vs -> in_u TL ve -> in_u TL off ->
  let w reg value s := trace_dev_write TL mem addr s (4 * reg) value in
  exists s', (s1 ← w TRACE_DEV_REG_SWITCH t s;
              s4 ← (s2 ← w TRACE_DEV_REG_EXECVE_VMSTART vs s1; s3 ← w TRACE_DEV_REG_EXECVE_VMEND ve s2;
                    w TRACE_DEV_REG_EXECVE_OFFSET off s3);
              w TRACE_DEV_REG_MMAP_EXEPATH path_at s4) = Ret s'
    /\ get_current_pid s' = t
    /\ (forall pc pid', find_mmap pc (mmaps_of (prof s') pid')
         = if (pid' =? t) && ((vs <=? pc) && (pc <? ve)) then Some (mkMmap addr vs ve off (name_at TL mem path_at))
           else find_mmap pc (mmaps_of (prof s) pid'))
    /\ exists s'', w TRACE_DEV_REG_EXIT t s' = Ret s''
         /\ forall pc pid', find_mmap pc (mmaps_of (prof s'') pid')
              = if pid' =? t then None else find_mmap pc (mmaps_of (prof s) pid').
Proof.
  intros (Hp & _ & _) Ht Hmax Hvs Hve Hoff w. unfold w. clear w.
  assert (pid_ok t = true) as Hok by (unfold pid_ok, in_u in *; lia).
  rewrite write_switch. cbn [mbind outcome_bind]. rewrite write_map. cbn [mbind outcome_bind].
  rewrite write_mmap_path. cbn [vstart vend eoff tid prof set_map set_ids]. set (s1 := set_map _ _ _ _).
  assert (cstr (exec_path (read_path TL mem path_at s1)) = name_at TL mem path_at) as ->.
  { by apply (get_string_page TL mem (exec_path s) path_at). }
  unfold record_mmap. rewrite Hok, !(wrap_small TL) by done. cbn [mbind outcome_bind].
  eexists. split; [reflexivity|]. split; [reflexivity|]. split.
  - intros pc pid'. unfold mmaps_of at 1. cbn [prof mmaps with_mmaps set_prof clear_path set_path].
    destruct (Z.eqb_spec pid' t) as [->|Hne]; [by rewrite lookup_insert_eq|by rewrite lookup_insert_ne].
  - rewrite write_exit. unfold release_mmap. rewrite Hok. eexists. split; [reflexivity|]. intros pc pid'.
    unfold mmaps_of. cbn [prof mmaps with_mmaps set_prof clear_path set_path].
    destruct (Z.eqb_spec pid' t) as [->|Hne]; [by rewrite lookup_delete_eq|].
    by rewrite lookup_delete_ne, lookup_insert_ne.
Qed.

Definition path_memory (a : Z) : Z := at_pos (chars "/system/lib/libc.so") (a - 0x4000).

Lemma announced_mapping_is_found_witness :
  exists s', (s1 ← trace_dev_write 32 path_memory 1 trace_init (4 * TRACE_DEV_REG_SWITCH) 42;
              s4 ← (s2 ← trace_dev_write 32 path_memory 1 s1 (4 * TRACE_DEV_REG_EXECVE_VMSTART) 0x10000;
                    s3 ← trace_dev_write 32 path_memory 1 s2 (4 * TRACE_DEV_REG_EXECVE_VMEND) 0x20000;
                    trace_dev_write 32 path_memory 1 s3 (4 * TRACE_DEV_REG_EXECVE_OFFSET) 0x100);
              trace_dev_write 32 path_memory 1 s4 (4 * TRACE_DEV_REG_MMAP_EXEPATH) 0x4000) = Ret s'
    /\ m_name <$> find_mmap 0x10040 (mmaps_of (prof s') 42) = Some (chars "/system/lib/libc.so").
Proof.
  destruct (announced_mapping_is_found 32 path_memory 1 trace_init 42 0x10000 0x20000 0x100 0x4000) as (s' & E & _ & Hf & _).
  - exact trace_init_ok.
  - unfold in_u. lia.
  - vm_compute. reflexivity.
  - unfold in_u. lia.
  - unfold in_u. lia.
  - unfold in_u. lia.
  - exists s'. split; [exact E|]. rewrite Hf. vm_compute. reflexivity.
Defined.

(** ** Process and thread names *)

Definition before_blank (l : list Z) : list Z := take (first_blank (length l) l) l.

Lemma first_blank_le n l : (first_blank n l <= length l /\ first_blank n l <= n)%nat.
Proof.
  revert l. induction n as [|n IH]; intros [|c l]; simpl; try lia.
  destruct (c =? SPACE); [lia|]. specialize (IH l). lia.
Qed.

(** The first [n] characters decide where the first blank among them is. *)
Lemma first_blank_app l r : first_blank (length l) (l ++ r) = first_blank (length l) l.
Proof. induction l as [|c l IH]; simpl; [by destruct r|]. by rewrite IH. Qed.

Lemma cstr_insert_nul l n : (n < length l)%nat -> cstr (<[n := 0]> l) = cstr (take n l).
Proof.
  revert n. induction l as [|c l IH]; intros n Hn; simpl in *; [lia|]. destruct n as [|n]; simpl; [done|].
  destruct (c =? 0); [done|]. by rewrite IH by lia.
Qed.

(** [TRACE_DEV_REG_CMDLINE] names the current process after the first word
    of its command line: the C string left in the name buffer is the line up
    to its first blank or NUL, and it is announced with the current process
    id. The length the guest gives is not checked: above the 4096 bytes of
    the buffers, or at 4096 without a blank, the stores leave them. *)
Theorem cmdline_names_process TL mem addr s value :
  trace_ok s -> 0 <= cmdlen s ->
  let line := guest_bytes TL mem value (cmdlen s) in
  let res := trace_dev_write TL mem addr s (4 * TRACE_DEV_REG_CMDLINE) value in
  if (4096 <? cmdlen s) || ((cmdlen s =? 4096) && Nat.eqb (first_blank (length line) line) (length line))
  then res = OutOfBounds
  else exists s', res = Ret s' /\ trace_ok s' /\ cstr (current_pid_path s') = cstr (before_blank line)
    /\ messages s' = messages s ++ (if nz (CPU_tracer s)
                                    then [ProcessCreated (current_pid s) (cstr (before_blank line))] else []).
Proof.
  intros (Hp & Ha & Hc) Hn line res.
  change res with (trace_cmdline TL mem value s). unfold trace_cmdline. clear res.
  change CLIENT_PAGE_SIZE with 4096 in *. destruct (Z.ltb_spec 4096 (cmdlen s)); [done|]. fold line.
  assert (length line = Z.to_nat (cmdlen s)) as Hl by (unfold line, guest_bytes; by rewrite length_fmap, length_seq).
  cbn [exec_arg set_arg current_pid_path cmdlen orb].
  assert (range (blit (exec_arg s) 0 line) 0 (cmdlen s) = line) as ->.
  { replace (cmdlen s) with (Z.of_nat (length line)) by lia. apply range_blit_eq; lia. }
  set (path := blit (current_pid_path s) 0 line).
  assert (path = line ++ drop (length line) (current_pid_path s)) as Epath.
  { unfold path, blit. change (Z.to_nat 0) with O. by rewrite take_0, Nat.add_0_l. }
  rewrite <- Hl, Epath, first_blank_app. set (n := first_blank (length line) line).
  pose proof (first_blank_le (length line) line) as [Hn1 _]. fold n in Hn1.
  assert (length (line ++ drop (length line) (current_pid_path s)) = 4096%nat) as Hlen.
  { rewrite length_app, length_drop. lia. }
  assert ((4096 <=? Z.of_nat n) = (cmdlen s =? 4096) && Nat.eqb n (length line)) as ->.
  { destruct (Z.leb_spec 4096 (Z.of_nat n)), (Z.eqb_spec (cmdlen s) 4096), (Nat.eqb_spec n (length line)); simpl; lia. }
  destruct (_ && _) eqn:E; [done|].
  assert (n < 4096)%nat as Hn4.
  { destruct (Z.eqb_spec (cmdlen s) 4096), (Nat.eqb_spec n (length line)); simpl in E; try done; lia. }
  assert (cstr (<[n := 0]> (line ++ drop (length line) (current_pid_path s))) = cstr (before_blank line)) as Hcs.
  { rewrite cstr_insert_nul by lia. by rewrite take_app_le by lia. }
  assert (trace_ok (set_pid_path (<[n := 0]> (line ++ drop (length line) (current_pid_path s)))
    (set_arg (blit (exec_arg s) 0 line) s))) as Hok'.
  { split; [exact Hp|]. split; [change CLIENT_PAGE_SIZE with 4096; simpl exec_arg; rewrite length_blit; lia|].
    simpl current_pid_path. rewrite length_insert, Hlen. reflexivity. }
  eexists. split; [reflexivity|]. destruct (nz (CPU_tracer _)) eqn:Et; cbn [CPU_tracer set_pid_path set_arg] in Et; rewrite ?Et.
  - split; [|split; [exact Hcs|]].
    + exact Hok'.
    + cbn [messages say set_pid_path set_arg current_pid]. by rewrite Hcs.
  - split; [|split; [exact Hcs|by rewrite app_nil_r]]. exact Hok'.
Qed.

Definition cmdline_memory (a : Z) : Z := at_pos (chars "/system/bin/app --flag") (a - 0x4000).

Lemma cmdline_names_process_witness :
  exists s', trace_dev_write 32 cmdline_memory 1 (set_cmdlen 22 trace_init) (4 * TRACE_DEV_REG_CMDLINE) 0x4000 = Ret s'
    /\ cstr (current_pid_path s') = chars "/system/bin/app".
Proof.
  destruct (cmdline_names_process 32 cmdline_memory 1 (set_cmdlen 22 trace_init) 0x4000) as (s' & E & _ & Hp & _).
  - exact trace_init_ok.
  - simpl. lia.
  - exists s'. split; [exact E|]. rewrite Hp. vm_compute. reflexivity.
Defined.

(** The name without a trailing newline. *)
Definition strip_newline (l : list Z) : list Z :=
  match last l with
  | Some c => if c =? NEWLINE then take (length l - 1) l else l
  | None => l
  end.

Lemma last_at (l : list Z) r : l <> [] -> last l = Some (at_pos (l ++ r) (Z.of_nat (length l) - 1)).
Proof.
  intros Hl. destruct (exists_last Hl) as (l' & c & ->). rewrite last_snoc. unfold at_pos.
  rewrite length_app. simpl. replace (Z.to_nat (Z.of_nat (length l' + 1) - 1)) with (length l') by lia.
  rewrite <- app_assoc. simpl. rewrite list_lookup_middle by done. done.
Qed.

(** [TRACE_DEV_REG_NAME] stores the guest's thread name without its
    trailing newline; an empty name makes it read the byte before the
    buffer. *)
Theorem thread_name_stored TL mem addr s value : trace_ok s ->
  let name := name_at TL mem value in
  let res := trace_dev_write TL mem addr s (4 * TRACE_DEV_REG_NAME) value in
  match name with
  | [] => res = OutOfBounds
  | _ => exists s', res = Ret s' /\ trace_ok s' /\ cstr (exec_path s') = strip_newline name
  end.
Proof.
  intros (Hp & Ha & Hc) name res. change res with (trace_name TL mem value s). clear res. unfold trace_name.
  destruct (get_string_page TL mem (exec_path s) value Hp) as (Hs & Hl & _). fold name in Hs.
  change (exec_path (read_path TL mem value s)) with (get_guest_kernel_string TL mem (exec_path s) value CLIENT_PAGE_SIZE).1.
  rewrite Hs. set (b := (get_guest_kernel_string _ _ _ _ _).1) in *.
  assert (exists r, b = name ++ 0 :: r) as [r Hb].
  { eexists. unfold b, get_guest_kernel_string. change (1 <? CLIENT_PAGE_SIZE) with true. cbv iota. unfold fst.
    fold (name_at TL mem value). fold name. unfold blit. change (Z.to_nat 0) with O. rewrite take_0, <- app_assoc.
    reflexivity. }
  pose proof (guest_string_chars TL mem (Z.to_nat (CLIENT_PAGE_SIZE - 1)) value) as Hnz.
  fold (name_at TL mem value) in Hnz. fold name in Hnz. clearbody name.
  destruct name as [|c0 name0] eqn:En; [done|]. rewrite <- En in *. assert (name <> []) as Hne by congruence.
  assert (0 < Z.of_nat (length name)) as Hpos by (rewrite En; simpl; lia).
  destruct (Z.ltb_spec (Z.of_nat (length name) - 1) 0); [lia|]. eexists. split; [reflexivity|].
  unfold strip_newline. rewrite (last_at name (0 :: r) Hne), <- Hb.
  destruct (_ =? NEWLINE).
  - split; [split; [simpl exec_path; rewrite length_insert, Hl; done|done]|]. simpl exec_path.
    rewrite cstr_insert_nul by (rewrite Hb, length_app; lia). rewrite Hb.
    replace (Z.to_nat (Z.of_nat (length name) - 1)) with (length name - 1)%nat by lia.
    rewrite take_app_le by lia. rewrite <- (app_nil_r (take _ name)) at 1. rewrite cstr_app; [apply app_nil_r|].
    by apply Forall_take.
  - split; [split; [change (Z.of_nat (length b) = CLIENT_PAGE_SIZE); by rewrite Hl|done]|exact Hs].
Qed.

Lemma thread_name_stored_witness :
  exists s', trace_dev_write 32 cmdline_memory 1 trace_init (4 * TRACE_DEV_REG_NAME) 0x400c = Ret s'
    /\ cstr (exec_path s') = chars "app --flag".
Proof.
  destruct (thread_name_stored 32 cmdline_memory 1 trace_init 0x400c trace_init_ok) as (s' & E & _ & Hp).
  exists s'. split; [exact E|]. rewrite Hp. vm_compute. reflexivity.
Defined.
