(* ===== verification/GsmText.v ===== *)
(** GSM text: the character encodings of telephony/gsm.c (UTF-8, UCS-2, the
    GSM 7-bit alphabet packed and unpacked), its hexadecimal and BCD
    conversions and the phone-book records of a SIM. A buffer is a list of
    bytes; a read or write outside of one is [OutOfBounds]. *)
From S2P Require Import Prelude CStrings.
Open Scope list_scope.

Definition or_out {A} (o : option A) : outcome A := match o with Some a => Ret a | None => OutOfBounds end.

(** ** BCD and hexadecimal *)

Definition gsm_int_to_bcdi (value : Z) : Z := u8 (Z.quot value 10 .| (Z.rem value 10 .<< 4)).

Definition gsm_int_from_bcdi (val : Z) : Z :=
  let ret := if val .& 0xf0 <=? 0x90 then val .>> 4 else 0 in
  if val .& 0x0f <=? 0x90 then ret .| (Z.rem val 0xf * 10) else ret.

Definition gsm_hexchar_to_int (c : Z) : Z :=
  if u32 (c - 48) <? 10 then c - 48
  else if u32 (c - 97) <? 6 then 10 + (c - 97)
  else if u32 (c - 65) <? 6 then 10 + (c - 65)
  else -1.

Definition gsm_hexchar_to_int0 (c : Z) : Z :=
  let ret := gsm_hexchar_to_int c in if ret <? 0 then 0 else ret.

Definition gsm_hex2_to_byte (h0 h1 : Z) : Z :=
  let hi := gsm_hexchar_to_int h0 in
  let lo := gsm_hexchar_to_int h1 in
  if (hi <? 0) || (lo <? 0) then -1 else (hi .<< 4) .| lo.

Definition gsm_hex4_to_short (h0 h1 h2 h3 : Z) : Z :=
  let hi := gsm_hex2_to_byte h0 h1 in
  let lo := gsm_hex2_to_byte h2 h3 in
  if (hi <? 0) || (lo <? 0) then -1 else (hi .<< 8) .| lo.

Definition gsm_hex2_to_byte0 (h0 h1 : Z) : Z := u8 ((gsm_hexchar_to_int0 h0 .<< 4) .| gsm_hexchar_to_int0 h1).

(** The two characters that are written. *)
Definition gsm_hex_from_byte (val : Z) : list Z := [hexdigit ((val .>> 4) .& 15); hexdigit (val .& 15)].

Definition gsm_hex_from_short (val : Z) : list Z := gsm_hex_from_byte (val .>> 8) ++ gsm_hex_from_byte val.

(** The bytes of a hexadecimal string, an odd last digit alone. *)
Fixpoint gsm_hex_to_bytes0 (hex : list Z) : list Z :=
  match hex with
  | h0 :: h1 :: hex => gsm_hex2_to_byte0 h0 h1 :: gsm_hex_to_bytes0 hex
  | [h0] => [u8 (gsm_hexchar_to_int0 h0 .<< 4)]
  | [] => []
  end.

(** [None] is the result -1. *)
Fixpoint gsm_hex_to_bytes (hex : list Z) : option (list Z) :=
  match hex with
  | h0 :: h1 :: hex =>
      let c := gsm_hex2_to_byte h0 h1 in
      if c <? 0 then None else l ← gsm_hex_to_bytes hex; Some (c :: l)
  | [_] => None
  | [] => Some []
  end.

Definition gsm_hex_from_bytes (src : list Z) : list Z := concat (gsm_hex_from_byte <$> src).

(** ** UTF-8 *)

Definition is_continuation (b : Z) : bool := b .& 0xc0 =? 0x80.

(** [while (p < end && (p[0] & 0xc0) == 0x80) p++]. *)
Fixpoint skip_continuation (l : list Z) : list Z :=
  match l with
  | b :: l' => if is_continuation b then skip_continuation l' else l
  | [] => []
  end.

Fixpoint utf8_skip (l : list Z) (count : nat) : list Z :=
  match count, l with
  | S count, c :: l => utf8_skip (if 128 <? c then skip_continuation l else l) count
  | _, _ => l
  end.

(** The continuation bytes of [utf8_next], collected in [c]. *)
Fixpoint next_continuation (c : Z) (l : list Z) : Z * list Z :=
  match l with
  | b :: l' => if is_continuation b then next_continuation (s32 ((c .<< 6) .| (b .& 0x3f))) l' else (c, l)
  | [] => (c, [])
  end.

(** The code point and the rest, or -1 at the end. *)
Definition utf8_next (l : list Z) : Z * list Z :=
  match l with
  | [] => (-1, [])
  | c :: l =>
      if 128 <=? c then
        let c := if c .& 0xe0 =? 0xc0 then c .& 0x1f else if c .& 0xf0 =? 0xe0 then c .& 0x0f else c .& 0x07 in
        next_continuation c l
      else (c, l)
  end.

(** The bytes that are written at [offset]; the result is their number. *)
Definition utf8_write (v : Z) : list Z :=
  if v <? 128 then [u8 v]
  else if v <? 0x800 then [u8 (0xc0 .| (v .>> 6)); u8 (0x80 .| (v .& 0x3f))]
  else if v <? 0x10000 then
    [u8 (0xe0 .| (v .>> 12)); u8 (0x80 .| ((v .>> 6) .& 0x3f)); u8 (0x80 .| (v .& 0x3f))]
  else
    [u8 (0xf0 .| ((v .>> 18) .& 0x7)); u8 (0x80 .| ((v .>> 12) .& 0x3f));
     u8 (0x80 .| ((v .>> 6) .& 0x3f)); u8 (0x80 .| (v .& 0x3f))].

Definition ucs2_write (v : Z) : list Z := [u8 (v .>> 8); u8 v].

(** The code points [utf8_next] returns up to the end of the string; one
    byte at least goes with each, so the length is fuel enough. *)
Fixpoint utf8_points_fuel (fuel : nat) (l : list Z) : list Z :=
  match fuel, l with
  | S fuel, _ :: _ => let '(c, l) := utf8_next l in c :: utf8_points_fuel fuel l
  | _, _ => []
  end.
Definition utf8_points (l : list Z) : list Z := utf8_points_fuel (length l) l.

(** The loops that stop at a negative code. *)
Fixpoint until_negative (l : list Z) : list Z :=
  match l with
  | c :: l => if c <? 0 then [] else c :: until_negative l
  | [] => []
  end.

(** The check of one well-formed string; [fuel] as above. *)
Fixpoint utf8_check_fuel (fuel : nat) (l : list Z) : bool :=
  match fuel, l with
  | S fuel, c :: l =>
      if 128 <=? c then
        let len :=
          if c .& 0xe0 =? 0xc0 then Some 1%nat
          else if c .& 0xf0 =? 0xe0 then Some 2%nat
          else if c .& 0xf8 =? 0xf0 then Some 3%nat
          else None in
        match len with
        | None => false
        | Some len =>
            if bool_decide (length l < len)%nat then false
            else forallb is_continuation (take len l) && utf8_check_fuel fuel (drop len l)
        end
      else utf8_check_fuel fuel l
  | _, _ => true
  end.
Definition utf8_check (l : list Z) : bool := utf8_check_fuel (length l) l.

(** Big-endian pairs; an odd last byte is not part of the [ucs2len]
    characters. *)
Fixpoint ucs2_to_utf8 (ucs2 : list Z) : list Z :=
  match ucs2 with
  | a :: b :: ucs2 => utf8_write ((a .<< 8) .| b) ++ ucs2_to_utf8 ucs2
  | _ => []
  end.

Definition utf8_to_ucs2 (utf8 : list Z) : list Z := concat (ucs2_write <$> until_negative (utf8_points utf8)).

(** ** The GSM alphabet *)

Definition GSM_7BITS_ESCAPE : Z := 0x1b.

Definition gsm7bits_to_unicode : list Z :=
  [64; 0xa3; 36; 0xa5; 0xe8; 0xe9; 0xf9; 0xec; 0xf2; 0xc7; 10; 0xd8; 0xf8; 13; 0xc5; 0xe5;
   0x394; 95; 0x3a6; 0x393; 0x39b; 0x3a9; 0x3a0; 0x3a8; 0x3a3; 0x398; 0x39e; 0; 0xc6; 0xe6; 0xdf; 0xc9;
   32; 33; 34; 35; 0xa4; 37; 38; 39; 40; 41; 42; 43; 44; 45; 46; 47;
   48; 49; 50; 51; 52; 53; 54; 55; 56; 57; 58; 59; 60; 61; 62; 63;
   0xa1; 65; 66; 67; 68; 69; 70; 71; 72; 73; 74; 75; 76; 77; 78; 79;
   80; 81; 82; 83; 84; 85; 86; 87; 88; 89; 90; 0xc4; 0xd6; 0x147; 0xdc; 0xa7;
   0xbf; 97; 98; 99; 100; 101; 102; 103; 104; 105; 106; 107; 108; 109; 110; 111;
   112; 113; 114; 115; 116; 117; 118; 119; 120; 121; 122; 0xe4; 0xf6; 0xf1; 0xfc; 0xe0].

Definition gsm7bits_extend_to_unicode : list Z :=
  [0; 0; 0; 0; 0; 0; 0; 0; 0; 0; 12; 0; 0; 0; 0; 0;
   0; 0; 0; 0; 94; 0; 0; 0; 0; 0; 0; 0; 0; 0; 0; 0;
   0; 0; 0; 0; 0; 0; 0; 0; 123; 125; 0; 0; 0; 0; 0; 92;
   0; 0; 0; 0; 0; 0; 0; 0; 0; 0; 0; 0; 91; 126; 93; 0;
   124; 0; 0; 0; 0; 0; 0; 0; 0; 0; 0; 0; 0; 0; 0; 0;
   0; 0; 0; 0; 0; 0; 0; 0; 0; 0; 0; 0; 0; 0; 0; 0;
   0; 0; 0; 0; 0; 0x20ac; 0; 0; 0; 0; 0; 0; 0; 0; 0; 0;
   0; 0; 0; 0; 0; 0; 0; 0; 0; 0; 0; 0; 0; 0; 0; 0].

(** A read of one of the tables. *)
Definition table (t : list Z) (c : Z) : outcome Z := or_out (t !! Z.to_nat c).

(** The first index of a value, or -1. *)
Fixpoint table_index (t : list Z) (nn v : Z) : Z :=
  match t with
  | [] => -1
  | x :: t => if x =? v then nn else table_index t (nn + 1) v
  end.

Definition unichar_to_gsm7 (unicode : Z) : Z := table_index gsm7bits_to_unicode 0 unicode.
Definition unichar_to_gsm7_extend (unichar : Z) : Z := table_index gsm7bits_extend_to_unicode 0 unichar.

Definition unichar_to_gsm7_count (unicode : Z) : Z :=
  if 0 <=? unichar_to_gsm7 unicode then 1
  else if 0 <=? unichar_to_gsm7_extend unicode then 2
  else 0.

Fixpoint utf8_skip_gsm7_fuel (fuel : nat) (p : list Z) (gsm7len : Z) : list Z :=
  match fuel with
  | O => p
  | S fuel =>
      if 0 <? gsm7len then
        let '(c, q) := utf8_next p in
        if c <? 0 then p
        else
          let len := unichar_to_gsm7_count c in
          let len := if len =? 0 then 1 else len in
          if gsm7len <? len then p else utf8_skip_gsm7_fuel fuel q (gsm7len - len)
      else p
  end.
Definition utf8_skip_gsm7 (p : list Z) (gsm7len : Z) : list Z := utf8_skip_gsm7_fuel (S (length p)) p gsm7len.

Fixpoint utf8_skip_ucs2_fuel (fuel : nat) (p : list Z) (ucs2len : Z) : list Z :=
  match fuel with
  | O => p
  | S fuel =>
      if 2 <=? ucs2len then
        let '(c, q) := utf8_next p in
        if c <? 0 then p else utf8_skip_ucs2_fuel fuel q (ucs2len - 2)
      else p
  end.
Definition utf8_skip_ucs2 (p : list Z) (ucs2len : Z) : list Z := utf8_skip_ucs2_fuel (S (length p)) p ucs2len.

Definition utf8_check_gsm7 (utf8 : list Z) : bool :=
  forallb (fun c => negb (unichar_to_gsm7_count c =? 0)) (utf8_points utf8).

(** *** Packed septets *)

(** The septet that starts at bit [shift] of [src[p]]. *)
Definition read_septet (src : list Z) (p : nat) (shift : Z) : outcome Z :=
  b0 ← or_out (src !! p);
  let c := (b0 .>> shift) .& 0x7f in
  if 1 <? shift then
    b1 ← or_out (src !! S p);
    Ret (((b1 .<< (8 - shift)) .| c) .& 0x7f)
  else Ret c.

(** [shift += 7; if (shift >= 8) { shift -= 8; src += 1; }]. *)
Definition next_septet (p : nat) (shift : Z) : nat * Z :=
  let shift := shift + 7 in if 8 <=? shift then (S p, shift - 8) else (p, shift).

Fixpoint from_gsm7_loop (septet_count : nat) (src : list Z) (p : nat) (shift : Z) (escaped : bool) : outcome (list Z) :=
  match septet_count with
  | O => Ret []
  | S n =>
      c ← read_septet src p shift;
      let '(p', shift') := next_septet p shift in
      if escaped then
        v ← table gsm7bits_extend_to_unicode c;
        l ← from_gsm7_loop n src p' shift' escaped; Ret (utf8_write v ++ l)
      else if c =? GSM_7BITS_ESCAPE then from_gsm7_loop n src p' shift' true
      else
        v ← table gsm7bits_to_unicode c;
        l ← from_gsm7_loop n src p' shift' escaped; Ret (utf8_write v ++ l)
  end.

(** The UTF-8 bytes; the result is their number. *)
Definition utf8_from_gsm7 (src : list Z) (septet_offset : Z) (septet_count : nat) : outcome (list Z) :=
  from_gsm7_loop septet_count src (Z.to_nat (septet_offset .>> 3)) (septet_offset .& 7) false.

Fixpoint utf8_from_gsm8_loop (src : list Z) (escaped : bool) : outcome (list Z) :=
  match src with
  | [] => Ret []
  | c :: src =>
      if c =? 0xff then Ret []
      else if c =? GSM_7BITS_ESCAPE then
        if escaped then l ← utf8_from_gsm8_loop src false; Ret (utf8_write 0x20 ++ l)
        else utf8_from_gsm8_loop src true
      else if 0x80 <=? c then l ← utf8_from_gsm8_loop src false; Ret (utf8_write 0x20 ++ l)
      else
        v ← table (if escaped then gsm7bits_extend_to_unicode else gsm7bits_to_unicode) c;
        l ← utf8_from_gsm8_loop src escaped; Ret (utf8_write v ++ l)
  end.
(** [src] is the [count] bytes. *)
Definition utf8_from_gsm8 (src : list Z) : outcome (list Z) := utf8_from_gsm8_loop src false.

(** The position does not advance in this one. *)
Fixpoint ucs2_from_gsm7_loop (septet_count : nat) (src : list Z) (p : nat) (shift : Z) (escaped : bool) : outcome (list Z) :=
  match septet_count with
  | O => Ret []
  | S n =>
      val ← read_septet src p shift;
      if escaped then
        c ← table gsm7bits_to_unicode val;
        l ← ucs2_from_gsm7_loop n src p shift false; Ret (ucs2_write c ++ l)
      else if val =? GSM_7BITS_ESCAPE then ucs2_from_gsm7_loop n src p shift true
      else
        v ← table gsm7bits_extend_to_unicode val;
        let v := if v =? 0 then 0x20 else v in
        l ← ucs2_from_gsm7_loop n src p shift escaped; Ret (ucs2_write v ++ l)
  end.
Definition ucs2_from_gsm7 (src : list Z) (septet_offset : Z) (septet_count : nat) : outcome (list Z) :=
  ucs2_from_gsm7_loop septet_count src (Z.to_nat (septet_offset .>> 3)) (septet_offset .& 7) false.

(** [dst] is the whole buffer and [dpos] the index of the writer's pointer. *)
Record BWriterRec := mkBW { bw_dst : list Z; bw_pos : nat; bw_pad : Z; bw_bits : Z; bw_offset : Z }.

Definition bwriter_init (dst : list Z) (start : Z) : outcome BWriterRec :=
  let shift := start .& 7 in
  let pos := Z.to_nat (start .>> 3) in
  if 0 <? shift then
    b ← or_out (dst !! pos);
    Ret (mkBW dst pos (u32 (b .& .~ (0xff .<< shift))) shift start)
  else Ret (mkBW dst pos 0 shift start).

Definition bwriter_store (w : BWriterRec) (v : Z) : outcome (list Z) :=
  if bool_decide (bw_pos w < length (bw_dst w))%nat then Ret (<[bw_pos w := u8 v]> (bw_dst w)) else OutOfBounds.

Definition bwriter_add7 (w : BWriterRec) (value : Z) : outcome BWriterRec :=
  let pad := bw_pad w .| u32 (value .<< bw_bits w) in
  let bits := bw_bits w + 7 in
  let offset := bw_offset w + 7 in
  if 8 <=? bits then
    dst ← bwriter_store w pad;
    Ret (mkBW dst (S (bw_pos w)) (pad .>> 8) (bits - 8) offset)
  else Ret (mkBW (bw_dst w) (bw_pos w) pad bits offset).

(** The buffer and the result. *)
Definition bwriter_done (w : BWriterRec) : outcome (list Z * Z) :=
  if 0 <? bw_bits w then dst ← bwriter_store w (bw_pad w); Ret (dst, bw_offset w)
  else Ret (bw_dst w, bw_offset w).

(** The septets of a character; what is not in the alphabet is a space. *)
Definition gsm7_of_unichar (c : Z) : list Z :=
  let nn := unichar_to_gsm7 c in
  if 0 <=? nn then [nn]
  else
    let nn := unichar_to_gsm7_extend c in
    if 0 <=? nn then [GSM_7BITS_ESCAPE; nn] else [0x20].

Definition utf8_to_gsm7_count (utf8 : list Z) : Z :=
  foldl (fun result c => let len := unichar_to_gsm7_count c in result + (if len =? 0 then 1 else len))
    0 (until_negative (utf8_points utf8)).

(** The septets of [l] written at bit [offset] of [dst]. *)
Definition pack_gsm7 (l : list Z) (dst : list Z) (offset : Z) : outcome (list Z * Z) :=
  w ← bwriter_init dst offset;
  w ← foldM bwriter_add7 w (concat (gsm7_of_unichar <$> l));
  bwriter_done w.

(** With a buffer; [utf8_to_gsm7_count] is the result without one. *)
Definition utf8_to_gsm7 (utf8 : list Z) (dst : list Z) (offset : Z) : outcome (list Z * Z) :=
  pack_gsm7 (until_negative (utf8_points utf8)) dst offset.

Definition utf8_to_gsm8 (utf8 : list Z) : list Z := concat (gsm7_of_unichar <$> until_negative (utf8_points utf8)).

(** Each byte of [ucs2] is taken for a character. *)
Definition ucs2_to_gsm7 (ucs2 : list Z) (dst : list Z) (offset : Z) : outcome (list Z * Z) := pack_gsm7 ucs2 dst offset.
Definition ucs2_to_gsm8 (ucs2 : list Z) : list Z := concat (gsm7_of_unichar <$> ucs2).

(** ** Dial numbers and phone-book records *)

(** The characters 0123456789*#,N. *)
Definition bcdchars : list Z := [48; 49; 50; 51; 52; 53; 54; 55; 56; 57; 42; 35; 44; 78].

(** The digits of [bcd], low nibble first; [shift] is 0 or 4. [count] is not
    changed by the loop, which ends only at a nibble 15 with [count] 1. *)
Fixpoint bcdnum_loop (nibbles : list Z) (count : Z) : outcome (list Z) :=
  if count <=? 0 then Ret []
  else
    match nibbles with
    | [] => OutOfBounds
    | c :: nibbles =>
        if (c =? 15) && (count =? 1) then Ret []
        else
          let c := if 14 <=? c then 0 else c in
          d ← table bcdchars c;
          l ← bcdnum_loop nibbles count; Ret (d :: l)
    end.
Definition nibbles_of (bcd : list Z) : list Z := concat ((fun b => [b .& 0xf; (b .>> 4) .& 0xf]) <$> bcd).
Definition gsm_bcdnum_to_ascii (bcd : list Z) (count : Z) : outcome (list Z) := bcdnum_loop (nibbles_of bcd) count.

(** The digit of a character; [None] for one that is not in a number. *)
Definition bcd_digit (c : Z) : option Z :=
  if c =? 42 then Some 10
  else if c =? 35 then Some 11
  else if c =? 44 then Some 12
  else if c =? 78 then Some 13
  else if u32 (c - 48) <? 10 then Some (c - 48)
  else None.

(** [dst[i] = v]. *)
Definition put_at (dst : list Z) (i v : Z) : outcome (list Z) :=
  if bool_decide (Z.to_nat i < length dst)%nat then Ret (<[Z.to_nat i := u8 v]> dst) else OutOfBounds.

(** The buffer and the C result; -1 leaves the buffer as written so far. *)
Fixpoint bcdnum_from_loop (ascii : list Z) (dst : list Z) (result phase : Z) : outcome (list Z * Z) :=
  match ascii with
  | [] =>
      if nz (result .& 1) then dst ← put_at dst (Z.quot result 2) (phase .| 0xf0); Ret (dst, result)
      else Ret (dst, result)
  | c :: ascii =>
      match bcd_digit c with
      | None => Ret (dst, -1)
      | Some c =>
          let phase := (phase .<< 4) .| c in
          let result := result + 1 in
          if nz (phase .& 0x100) then
            dst ← put_at dst (Z.quot result 2) phase;
            bcdnum_from_loop ascii dst result 0x01
          else bcdnum_from_loop ascii dst result phase
      end
  end.
Definition gsm_bcdnum_from_ascii (ascii dst : list Z) : outcome (list Z * Z) := bcdnum_from_loop ascii dst 0 0x01.

(** [while (alpha < end && end[-1] == 0xff) end--], on the reversed bytes. *)
Fixpoint drop_ff (l : list Z) : list Z :=
  match l with
  | b :: l' => if b =? 0xff then drop_ff l' else l
  | [] => []
  end.
Definition strip_ff (l : list Z) : list Z := reverse (drop_ff (reverse l)).

(** The leading bytes below 128. *)
Fixpoint gsm_run (l : list Z) : list Z :=
  match l with
  | b :: l => if b <? 128 then b :: gsm_run l else []
  | [] => []
  end.

(** The half-page encodings: a byte from 128 on is an offset from [base], a
    run of others is GSM text. Each turn takes one byte at least. *)
Fixpoint alpha_ucs2_loop (fuel : nat) (base : Z) (alpha : list Z) : outcome (list Z) :=
  match fuel, alpha with
  | S fuel, c :: rest =>
      if 0x80 <=? c then
        l ← alpha_ucs2_loop fuel base rest; Ret (utf8_write (base + (c .& 0x7f)) ++ l)
      else
        let run := gsm_run alpha in
        t ← utf8_from_gsm8 run;
        l ← alpha_ucs2_loop fuel base (drop (length run) alpha); Ret (t ++ l)
  | _, _ => Ret []
  end.
Definition alpha_ucs2 (base : Z) (alpha : list Z) (len : Z) : outcome (list Z) :=
  let l := take (Z.to_nat len) alpha in alpha_ucs2_loop (length l) base l.

Definition sim_adn_alpha_to_utf8 (alpha : list Z) : outcome (list Z) :=
  match strip_ff alpha with
  | [] => Ret []
  | 0x80 :: alpha => Ret (ucs2_to_utf8 alpha)
  | 0x81 :: len :: b :: alpha => alpha_ucs2 (b .<< 7) alpha len
  | 0x82 :: len :: b0 :: b1 :: alpha => alpha_ucs2 ((b0 .<< 8) .| b1) alpha len
  | alpha => utf8_from_gsm8 alpha
  end.

Definition ADN_FOOTER_SIZE : Z := 14.
Definition SIM_ADN_MAX_ALPHA : Z := 20.
Definition SIM_ADN_MAX_NUMBER : Z := 20.

(** The text of the two buffers, without the terminating 0. *)
Record SimAdnRecordRec := mkAdn { adn_alpha : list Z; adn_number : list Z; ext_record : Z }.

(** The result and the record, whose initial contents do not matter. A
    decoded number that does not fit its buffer is [OutOfBounds]. *)
Definition sim_adn_record_from_bytes (data : list Z) : outcome (Z * SimAdnRecordRec) :=
  let len := Z.of_nat (length data) in
  if len <? ADN_FOOTER_SIZE then Ret (-1, mkAdn [] [] 0xff)
  else
    let footer := drop (Z.to_nat (len - ADN_FOOTER_SIZE)) data in
    alpha ← (if ADN_FOOTER_SIZE <? len then sim_adn_alpha_to_utf8 (take (Z.to_nat (len - ADN_FOOTER_SIZE)) data) else Ret []);
    if SIM_ADN_MAX_ALPHA * 3 <? Z.of_nat (length alpha) then Ret (-1, mkAdn [] [] 0xff)
    else
      let rec_ := mkAdn alpha [] 0xff in
      match footer with
      | num_len :: ton :: bcd =>
          if 11 <? num_len then Ret (-1, rec_)
          else if negb (ton =? 0x81) && negb (ton =? 0x91) then Ret (-1, rec_)
          else
            digits ← gsm_bcdnum_to_ascii bcd (num_len * 2);
            let number := (if ton =? 0x91 then [43] else []) ++ digits in
            if SIM_ADN_MAX_NUMBER <? Z.of_nat (length number) then OutOfBounds
            else Ret (0, mkAdn alpha number 0xff)
      | _ => OutOfBounds
      end.

(** The only byte that is written: the length of the number. *)
Definition sim_adn_record_to_bytes (number : list Z) (data : list Z) : outcome (Z * list Z) :=
  let number := match number with 43 :: n => n | n => n end in
  let at_ := Z.of_nat (length data) - ADN_FOOTER_SIZE in
  if at_ <? 0 then OutOfBounds
  else data ← put_at data at_ (Z.quot (Z.of_nat (length number) + 1) 2 + 1); Ret (0, data).

Example tables_have_128 : length gsm7bits_to_unicode = 128%nat /\ length gsm7bits_extend_to_unicode = 128%nat.
Proof. by vm_compute. Qed.

(** ** UTF-8 read back *)

#[local] Ltac Zify.zify_post_hook ::= Z.div_mod_to_equations.

(** A fact about all bytes below [n], by evaluation. *)
Lemma forall_below (n : Z) (P : Z -> bool) : forallb P (seqZ 0 n) = true -> forall a, 0 <= a < n -> P a = true.
Proof. intros H a Ha. rewrite forallb_forall in H. apply H, list_elem_of_In, elem_of_seqZ. lia. Qed.

(** A continuation byte and the three kinds of leading bytes. *)
Lemma continuation_byte a : 0 <= a < 64 ->
  is_continuation (u8 (0x80 .| a)) = true /\ u8 (0x80 .| a) .& 0x3f = a.
Proof.
  intros Ha. pose proof (forall_below 64 (fun a => is_continuation (u8 (0x80 .| a)) && (u8 (0x80 .| a) .& 0x3f =? a))
    ltac:(by vm_compute) a Ha) as H. apply andb_true_iff in H as [H1 H2]. split; [done|lia].
Qed.

Lemma leading2 a l : 0 <= a < 32 -> utf8_next (u8 (0xc0 .| a) :: l) = next_continuation a l.
Proof.
  intros Ha. pose proof (forall_below 32 (fun a => let b := u8 (0xc0 .| a) in
    (128 <=? b) && (b .& 0xe0 =? 0xc0) && (b .& 0x1f =? a)) ltac:(by vm_compute) a Ha) as H.
  cbv zeta in H. apply andb_true_iff in H as [[H1 H2]%andb_true_iff H3]. apply Z.eqb_eq in H3.
  cbn [utf8_next]. by rewrite H1, H2, H3.
Qed.

Lemma leading3 a l : 0 <= a < 16 -> utf8_next (u8 (0xe0 .| a) :: l) = next_continuation a l.
Proof.
  intros Ha. pose proof (forall_below 16 (fun a => let b := u8 (0xe0 .| a) in
    (128 <=? b) && negb (b .& 0xe0 =? 0xc0) && (b .& 0xf0 =? 0xe0) && (b .& 0x0f =? a)) ltac:(by vm_compute) a Ha) as H.
  cbv zeta in H. apply andb_true_iff in H as [[[H1 H2]%andb_true_iff H3]%andb_true_iff H4]. apply Z.eqb_eq in H4.
  apply negb_true_iff in H2. cbn [utf8_next]. by rewrite H1, H2, H3, H4.
Qed.

Lemma leading4 a l : 0 <= a < 8 -> utf8_next (u8 (0xf0 .| a) :: l) = next_continuation a l.
Proof.
  intros Ha. pose proof (forall_below 8 (fun a => let b := u8 (0xf0 .| a) in
    (128 <=? b) && negb (b .& 0xe0 =? 0xc0) && negb (b .& 0xf0 =? 0xe0) && (b .& 0x07 =? a)) ltac:(by vm_compute) a Ha) as H.
  cbv zeta in H. apply andb_true_iff in H as [[[H1 H2]%andb_true_iff H3]%andb_true_iff H4]. apply Z.eqb_eq in H4.
  apply negb_true_iff in H2, H3. cbn [utf8_next]. by rewrite H1, H2, H3, H4.
Qed.

Lemma land_3f v : v .& 0x3f = v mod 64.
Proof. change 0x3f with (Z.ones 6). by rewrite Z.land_ones by lia. Qed.

(** Appending low bits. *)
Lemma append_bits c a k : 0 <= k -> 0 <= a < 2 ^ k -> (c .<< k) .| a = c * 2 ^ k + a.
Proof.
  intros Hk Ha. assert ((c .<< k) .& a = 0) as Hz.
  { apply zero_by_bits. intros i Hi. rewrite Z.land_spec, Z.shiftl_spec by done.
    destruct (Z.lt_ge_cases i k).
    - by rewrite Z.testbit_neg_r by lia.
    - rewrite (testbit_ge_range k a); [by rewrite andb_false_r|done|lia]. }
  rewrite <- Z.lxor_lor, <- Z.add_nocarry_lxor by done. by rewrite Z.shiftl_mul_pow2 by done.
Qed.

Lemma next_byte c a l : 0 <= a < 64 -> 0 <= c < 0x8000 -> next_continuation c (u8 (0x80 .| a) :: l) = next_continuation (c * 64 + a) l.
Proof.
  intros Ha Hc. cbn [next_continuation]. destruct (continuation_byte a Ha) as [-> ->].
  rewrite append_bits by lia. rewrite swrap_small by (unfold in_s; lia). done.
Qed.

(** The next byte does not continue the character. *)
Definition boundary (l : list Z) : Prop := match l with b :: _ => is_continuation b = false | [] => True end.

Lemma next_boundary c l : boundary l -> next_continuation c l = (c, l).
Proof. destruct l as [|b l]; [done|]. simpl. by intros ->. Qed.

(** The code points UTF-8 has room for. *)
Definition point_ok (v : Z) : Prop := 0 <= v < 0x200000.

Lemma utf8_next_write v l : point_ok v -> boundary l -> utf8_next (utf8_write v ++ l) = (v, l).
Proof.
  intros Hv Hl. unfold point_ok in Hv. unfold utf8_write.
  destruct (Z.ltb_spec v 128); [|destruct (Z.ltb_spec v 0x800); [|destruct (Z.ltb_spec v 0x10000)]]; cbn [app];
    rewrite ?land_3f, ?Z.shiftr_div_pow2 by lia; change (2 ^ 6) with 64; change (2 ^ 12) with (64 * 64);
    change (2 ^ 18) with (64 * 64 * 64).
  - rewrite wrap_small by (unfold in_u; lia). cbn. by rewrite (proj2 (Z.leb_gt _ _)) by done.
  - rewrite leading2 by lia. rewrite next_byte by lia. rewrite next_boundary by done. f_equal. lia.
  - rewrite leading3 by lia. rewrite !next_byte by lia. rewrite next_boundary by done. f_equal. lia.
  - change 0x7 with (Z.ones 3). rewrite Z.land_ones by lia. change (2 ^ 3) with 8.
    rewrite leading4 by lia. rewrite !next_byte by lia. rewrite next_boundary by done. f_equal. lia.
Qed.

(** The first byte of a character is not a continuation. *)
Lemma utf8_write_boundary v l : point_ok v -> boundary (utf8_write v ++ l) /\ (0 < length (utf8_write v))%nat.
Proof.
  intros Hv. unfold point_ok in Hv. unfold utf8_write.
  destruct (Z.ltb_spec v 128); [|destruct (Z.ltb_spec v 0x800); [|destruct (Z.ltb_spec v 0x10000)]];
    (split; [|simpl; lia]); cbn [app boundary]; rewrite ?Z.shiftr_div_pow2 by lia.
  - apply negb_true_iff, (forall_below 128 (fun v => negb (is_continuation (u8 v))) ltac:(by vm_compute) v). lia.
  - apply negb_true_iff, (forall_below 32 (fun a => negb (is_continuation (u8 (0xc0 .| a)))) ltac:(by vm_compute)). lia.
  - apply negb_true_iff, (forall_below 16 (fun a => negb (is_continuation (u8 (0xe0 .| a)))) ltac:(by vm_compute)). lia.
  - change 0x7 with (Z.ones 3). rewrite Z.land_ones by lia.
    apply negb_true_iff, (forall_below 8 (fun a => negb (is_continuation (u8 (0xf0 .| a)))) ltac:(by vm_compute)). lia.
Qed.

Definition utf8_of_points (cs : list Z) : list Z := concat (utf8_write <$> cs).

Lemma utf8_of_points_boundary cs : Forall point_ok cs -> boundary (utf8_of_points cs).
Proof. destruct 1 as [|c cs Hc _]; [done|]. cbn. by apply utf8_write_boundary. Qed.

Lemma utf8_points_fuel_of_points cs fuel : Forall point_ok cs -> (length (utf8_of_points cs) <= fuel)%nat ->
  utf8_points_fuel fuel (utf8_of_points cs) = cs.
Proof.
  intros Hcs. revert fuel. induction Hcs as [|c cs Hc Hcs IH]; intros fuel Hf; [by destruct fuel|].
  change (utf8_of_points (c :: cs)) with (utf8_write c ++ utf8_of_points cs) in *.
  destruct (utf8_write_boundary c (utf8_of_points cs) Hc) as [_ Hlen]. rewrite length_app in Hf.
  destruct fuel as [|fuel]; [lia|].
  pose proof (utf8_next_write c _ Hc (utf8_of_points_boundary cs Hcs)) as Hn.
  destruct (utf8_write c ++ utf8_of_points cs) as [|b l] eqn:E.
  { apply (f_equal length) in E. rewrite length_app in E. simpl in E. lia. }
  cbn [utf8_points_fuel]. rewrite Hn. f_equal. apply IH. lia.
Qed.

(** Decoding gives the code points back. *)
Lemma utf8_points_of_points cs : Forall point_ok cs -> utf8_points (utf8_of_points cs) = cs.
Proof. intros Hcs. by apply utf8_points_fuel_of_points. Qed.

Lemma until_negative_id cs : Forall point_ok cs -> until_negative cs = cs.
Proof.
  induction 1 as [|c cs Hc _ IH]; [done|]. cbn. unfold point_ok in Hc. by rewrite (proj2 (Z.ltb_ge _ _)), IH by lia.
Qed.

Lemma check_write v l fuel : point_ok v -> utf8_check_fuel (S fuel) (utf8_write v ++ l) = utf8_check_fuel fuel l.
Proof.
  intros Hv. unfold point_ok in Hv. unfold utf8_write.
  destruct (Z.ltb_spec v 128); [|destruct (Z.ltb_spec v 0x800); [|destruct (Z.ltb_spec v 0x10000)]]; cbn [app utf8_check_fuel];
    rewrite ?land_3f, ?Z.shiftr_div_pow2 by lia.
  - by rewrite wrap_small, (proj2 (Z.leb_gt _ _)) by (done || unfold in_u; lia).
  - pose proof (forall_below 32 (fun a => let b := u8 (0xc0 .| a) in (128 <=? b) && (b .& 0xe0 =? 0xc0)) ltac:(by vm_compute)
      (v / 2 ^ 6) ltac:(lia)) as [-> ->]%andb_true_iff. rewrite bool_decide_eq_false_2 by (simpl; lia).
    cbn [take drop forallb]. by rewrite (proj1 (continuation_byte (v mod 64) ltac:(lia))).
  - pose proof (forall_below 16 (fun a => let b := u8 (0xe0 .| a) in (128 <=? b) && (negb (b .& 0xe0 =? 0xc0) && (b .& 0xf0 =? 0xe0)))
      ltac:(by vm_compute) (v / 2 ^ 12) ltac:(lia)) as [-> [->%negb_true_iff ->]%andb_true_iff]%andb_true_iff.
    rewrite bool_decide_eq_false_2 by (simpl; lia). cbn [take drop forallb].
    rewrite (proj1 (continuation_byte (v mod 64) ltac:(lia))), (proj1 (continuation_byte (v / 2 ^ 6 mod 64) ltac:(lia))). done.
  - change 0x7 with (Z.ones 3). rewrite Z.land_ones by lia.
    pose proof (forall_below 8 (fun a => let b := u8 (0xf0 .| a) in (128 <=? b) && (negb (b .& 0xe0 =? 0xc0)
      && (negb (b .& 0xf0 =? 0xe0) && (b .& 0xf8 =? 0xf0)))) ltac:(by vm_compute) (v / 2 ^ 18 mod 2 ^ 3) ltac:(lia))
      as [-> [->%negb_true_iff [->%negb_true_iff ->]%andb_true_iff]%andb_true_iff]%andb_true_iff.
    rewrite bool_decide_eq_false_2 by (simpl; lia). cbn [take drop forallb].
    rewrite (proj1 (continuation_byte (v mod 64) ltac:(lia))), (proj1 (continuation_byte (v / 2 ^ 6 mod 64) ltac:(lia))),
      (proj1 (continuation_byte (v / 2 ^ 12 mod 64) ltac:(lia))). done.
Qed.

Lemma utf8_check_of_points cs : Forall point_ok cs -> utf8_check (utf8_of_points cs) = true.
Proof.
  intros Hcs. unfold utf8_check. generalize (le_n (length (utf8_of_points cs))).
  generalize (length (utf8_of_points cs)) at 2 3. induction Hcs as [|c cs Hc Hcs IH]; intros fuel Hf; [by destruct fuel|].
  change (utf8_of_points (c :: cs)) with (utf8_write c ++ utf8_of_points cs) in *. rewrite length_app in Hf.
  destruct (utf8_write_boundary c [] Hc) as [_ Hlen]. destruct fuel as [|fuel]; [lia|].
  rewrite check_write by done. apply IH. lia.
Qed.

(** ** UCS-2 *)

Lemma ucs2_pair c : 0 <= c < 0x10000 -> (u8 (c .>> 8) .<< 8) .| u8 c = c.
Proof. intros Hc. rewrite append_bits by (pose proof (wrap_range 8 c); unfold in_u in *; lia). unfold wrap. rewrite Z.shiftr_div_pow2 by lia. lia. Qed.

Lemma ucs2_to_utf8_points cs : Forall (fun c => 0 <= c < 0x10000) cs ->
  ucs2_to_utf8 (concat (ucs2_write <$> cs)) = utf8_of_points cs.
Proof. induction 1 as [|c cs Hc _ IH]; [done|]. cbn. by rewrite ucs2_pair, IH by done. Qed.

(** UCS-2 text survives the way through UTF-8: any sequence of 16-bit
    characters, written as big-endian pairs, converted with [ucs2_to_utf8] and
    back with [utf8_to_ucs2], is the same pairs; and the UTF-8 text in between
    passes [utf8_check]. *)
Theorem ucs2_utf8_roundtrip cs : Forall (fun c => 0 <= c < 0x10000) cs ->
  let ucs2 := concat (ucs2_write <$> cs) in
  utf8_to_ucs2 (ucs2_to_utf8 ucs2) = ucs2 /\ utf8_check (ucs2_to_utf8 ucs2) = true.
Proof.
  intros Hcs ucs2. unfold ucs2, utf8_to_ucs2. rewrite ucs2_to_utf8_points by done.
  assert (Forall point_ok cs) as Hp by (eapply Forall_impl; [done|]; unfold point_ok; simpl; lia).
  split; [by rewrite utf8_points_of_points, until_negative_id|by apply utf8_check_of_points].
Qed.

Lemma ucs2_utf8_roundtrip_witness :
  utf8_to_ucs2 (ucs2_to_utf8 [0x20; 0xac; 0x00; 0x41]) = [0x20; 0xac; 0x00; 0x41]
  /\ utf8_check (ucs2_to_utf8 [0x20; 0xac; 0x00; 0x41]) = true.
Proof. apply (ucs2_utf8_roundtrip [0x20ac; 0x41]). repeat constructor; lia. Defined.

(** ** Hexadecimal *)

Lemma hex_byte b : in_u 8 b -> exists h0 h1, gsm_hex_from_byte b = [h0; h1] /\ gsm_hex2_to_byte h0 h1 = b
  /\ gsm_hex2_to_byte0 h0 h1 = b.
Proof.
  intros Hb. do 2 eexists. split; [done|].
  pose proof (forall_below 256 (fun b => let h0 := hexdigit ((b .>> 4) .& 15) in let h1 := hexdigit (b .& 15) in
    (gsm_hex2_to_byte h0 h1 =? b) && (gsm_hex2_to_byte0 h0 h1 =? b)) ltac:(by vm_compute) b Hb) as H.
  cbv zeta in H. apply andb_true_iff in H as [H1%Z.eqb_eq H2%Z.eqb_eq]. done.
Qed.

Lemma hexchar_range c : in_u 8 c -> gsm_hexchar_to_int c = -1 \/ 0 <= gsm_hexchar_to_int c < 16.
Proof.
  intros Hc. pose proof (forall_below 256 (fun c => let v := gsm_hexchar_to_int c in (v =? -1) || ((0 <=? v) && (v <? 16)))
    ltac:(by vm_compute) c Hc) as H. cbv zeta in H.
  apply orb_true_iff in H as [H%Z.eqb_eq|[H1%Z.leb_le H2%Z.ltb_lt]%andb_true_iff]; [by left|by right].
Qed.

Lemma hex2_fails h0 h1 : in_u 8 h0 -> in_u 8 h1 ->
  (gsm_hex2_to_byte h0 h1 <? 0) = (gsm_hexchar_to_int h0 =? -1) || (gsm_hexchar_to_int h1 =? -1).
Proof.
  intros H0%hexchar_range H1%hexchar_range. unfold gsm_hex2_to_byte.
  destruct H0 as [-> | H0]; [done|]. destruct H1 as [-> | H1]; [by rewrite orb_true_r, orb_true_r|].
  rewrite (proj2 (Z.ltb_ge (gsm_hexchar_to_int h0) 0)), (proj2 (Z.ltb_ge (gsm_hexchar_to_int h1) 0)) by lia.
  cbn [orb]. rewrite append_bits by lia. rewrite !(proj2 (Z.eqb_neq _ (-1))) by lia.
  apply Z.ltb_ge. lia.
Qed.

Lemma hex_to_bytes_accepts n hex : (length hex <= n)%nat -> Forall (in_u 8) hex ->
  gsm_hex_to_bytes hex <> None <-> Nat.Even (length hex) /\ Forall (fun c => gsm_hexchar_to_int c <> -1) hex.
Proof.
  revert hex. induction n as [|n IH]; intros [|h0 [|h1 hex]] Hn Hh; simpl in Hn; try lia.
  1, 2: split; [split; [by exists O|done]|done].
  - split; [done|]. intros [[m Hm] _]. simpl in Hm. lia.
  - apply Forall_cons in Hh as [H0 Hh]. apply Forall_cons in Hh as [H1 Hh].
    specialize (IH hex ltac:(lia) Hh). cbn [gsm_hex_to_bytes]. rewrite hex2_fails by done.
    rewrite !Forall_cons. change (Nat.Even (length (h0 :: h1 :: hex))) with (Nat.Even (S (S (length hex)))).
    assert (Nat.Even (S (S (length hex))) <-> Nat.Even (length hex)) as -> by (split; intros [m Hm]; [exists (m - 1)%nat|exists (S m)]; lia).
    destruct (Z.eqb_spec (gsm_hexchar_to_int h0) (-1)); [naive_solver|].
    destruct (Z.eqb_spec (gsm_hexchar_to_int h1) (-1)); [naive_solver|]. simpl.
    destruct (gsm_hex_to_bytes hex); simpl; naive_solver.
Qed.

Lemma hex_read_back l : Forall (in_u 8) l ->
  gsm_hex_to_bytes (gsm_hex_from_bytes l) = Some l /\ gsm_hex_to_bytes0 (gsm_hex_from_bytes l) = l.
Proof.
  induction 1 as [|b l Hb _ [IH1 IH2]]; [done|]. destruct (hex_byte b Hb) as (h0 & h1 & E & E1 & E2).
  change (gsm_hex_from_bytes (b :: l)) with (gsm_hex_from_byte b ++ gsm_hex_from_bytes l). rewrite E. cbn.
  rewrite E1, E2, IH1, IH2. unfold in_u in Hb. by rewrite (proj2 (Z.ltb_ge _ _)) by lia.
Qed.

(** Bytes written in hexadecimal are read back by both readers, and the
    strict reader rejects a string of odd length or with a character that is
    not a hexadecimal digit. *)
Theorem hex_roundtrip l hex : Forall (in_u 8) l -> Forall (in_u 8) hex ->
  gsm_hex_to_bytes (gsm_hex_from_bytes l) = Some l /\ gsm_hex_to_bytes0 (gsm_hex_from_bytes l) = l
  /\ (gsm_hex_to_bytes hex <> None <-> Nat.Even (length hex) /\ Forall (fun c => gsm_hexchar_to_int c <> -1) hex).
Proof.
  intros Hl Hh. destruct (hex_read_back l Hl) as [H1 H2]. split_and!; [done|done|by apply (hex_to_bytes_accepts (length hex))].
Qed.


Lemma hex_roundtrip_witness :
  gsm_hex_to_bytes (gsm_hex_from_bytes [0x1f; 0xa0]) = Some [0x1f; 0xa0]
  /\ gsm_hex_to_bytes0 (gsm_hex_from_bytes [0x1f; 0xa0]) = [0x1f; 0xa0]
  /\ (gsm_hex_to_bytes [0x31; 0x67] <> None <-> Nat.Even 2 /\ Forall (fun c => gsm_hexchar_to_int c <> -1) [0x31; 0x67]).
Proof. apply (hex_roundtrip [0x1f; 0xa0] [0x31; 0x67]); repeat constructor; unfold in_u; lia. Defined.

(** ** Packed septets *)

(** Bit [k] of a buffer. *)
Definition sbit (l : list Z) (k : Z) : bool := Z.testbit (default 0 (l !! Z.to_nat (k / 8))) (k mod 8).

(** Septet [s] lies at bit [b]. *)
Definition septet_at (l : list Z) (b s : Z) : Prop := forall j, 0 <= j < 7 -> sbit l (b + j) = Z.testbit s j.

Definition septet_ok (s : Z) : Prop := 0 <= s < 128.

Lemma septet_ext a b : septet_ok a -> septet_ok b -> (forall j, 0 <= j < 7 -> Z.testbit a j = Z.testbit b j) -> a = b.
Proof.
  intros Ha Hb H. apply Z.bits_inj'. intros j Hj. destruct (Z.lt_ge_cases j 7); [by apply H|].
  by rewrite !(testbit_ge_range 7) by (done || lia).
Qed.

Lemma sbit_byte l (p : nat) b j : l !! p = Some b -> 0 <= j < 8 -> sbit l (8 * Z.of_nat p + j) = Z.testbit b j.
Proof.
  intros Hp Hj. unfold sbit. replace ((8 * Z.of_nat p + j) / 8) with (Z.of_nat p) by lia.
  replace ((8 * Z.of_nat p + j) mod 8) with j by lia. by rewrite Nat2Z.id, Hp.
Qed.

(** The reader takes the seven bits from the one or two bytes they are in. *)
Lemma read_septet_at src p shift s : Forall (in_u 8) src -> 0 <= shift < 8 -> septet_ok s ->
  8 * Z.of_nat p + shift + 7 <= 8 * Z.of_nat (length src) -> septet_at src (8 * Z.of_nat p + shift) s ->
  read_septet src p shift = Ret s.
Proof.
  intros Hsrc Hsh Hs Hl Hat. unfold read_septet.
  destruct (lookup_lt_is_Some_2 src p ltac:(lia)) as [b0 Hb0]. rewrite Hb0. cbn.
  pose proof (Forall_lookup_1 _ _ _ _ Hsrc Hb0) as R0. simpl in R0. change 0x7f with (Z.ones 7).
  destruct (Z.ltb_spec 1 shift).
  - destruct (lookup_lt_is_Some_2 src (S p) ltac:(lia)) as [b1 Hb1]. rewrite Hb1. cbn. f_equal.
    change 127 with (Z.ones 7). rewrite !Z.land_ones by lia.
    apply septet_ext; [apply Z.mod_pos_bound; lia|done|]. intros j Hj. rewrite <- Hat by done.
    rewrite <- !(Z.land_ones _ 7) by lia. zbits_norm. rewrite (proj2 (Z.ltb_lt j 7)), !andb_true_r by lia.
    destruct (Z.lt_ge_cases (shift + j) 8).
    + rewrite (Z.testbit_neg_r b1), orb_false_l by lia. rewrite <- (sbit_byte src p b0) by (done || lia). f_equal. lia.
    + rewrite (testbit_ge_range 8 b0), orb_false_r by (done || lia).
      rewrite <- (sbit_byte src (S p) b1) by (done || lia). f_equal. lia.
  - f_equal. change 127 with (Z.ones 7). rewrite Z.land_ones by lia.
    apply septet_ext; [apply Z.mod_pos_bound; lia|done|]. intros j Hj. rewrite <- Hat by done.
    rewrite <- (Z.land_ones _ 7) by lia. zbits_norm. rewrite (proj2 (Z.ltb_lt j 7)), andb_true_r by lia.
    rewrite <- (sbit_byte src p b0) by (done || lia). f_equal. lia.
Qed.

(** The characters of a list of septets, as [utf8_from_gsm7] takes them:
    after an escape every septet is one of the extension table. *)
Fixpoint decode_septets (ss : list Z) (escaped : bool) : outcome (list Z) :=
  match ss with
  | [] => Ret []
  | c :: ss =>
      if negb escaped && (c =? GSM_7BITS_ESCAPE) then decode_septets ss true
      else
        v ← table (if escaped then gsm7bits_extend_to_unicode else gsm7bits_to_unicode) c;
        l ← decode_septets ss escaped; Ret (utf8_write v ++ l)
  end.

(** The septets [ss] lie in [l] from bit [b] on. *)
Definition septets_at (l : list Z) (b : Z) (ss : list Z) : Prop :=
  forall i s, ss !! i = Some s -> septet_at l (b + 7 * Z.of_nat i) s.

Lemma from_gsm7_decodes ss src p shift escaped : Forall (in_u 8) src -> 0 <= shift < 8 -> Forall septet_ok ss ->
  8 * Z.of_nat p + shift + 7 * Z.of_nat (length ss) <= 8 * Z.of_nat (length src) ->
  septets_at src (8 * Z.of_nat p + shift) ss ->
  from_gsm7_loop (length ss) src p shift escaped = decode_septets ss escaped.
Proof.
  intros Hsrc. revert p shift escaped. induction ss as [|s ss IH]; intros p shift escaped Hsh Hss Hl Hat; [done|].
  apply Forall_cons in Hss as [Hs Hss]. cbn [length] in Hl. cbn [length from_gsm7_loop decode_septets].
  rewrite (read_septet_at src p shift s) by (done || lia || (specialize (Hat 0%nat s eq_refl); by rewrite Z.add_0_r in Hat)).
  cbn [mbind outcome_bind].
  assert (exists p' shift', next_septet p shift = (p', shift') /\ 0 <= shift' < 8
    /\ 8 * Z.of_nat p' + shift' = 8 * Z.of_nat p + shift + 7) as (p' & shift' & En & Hsh' & Hb).
  { unfold next_septet. destruct (Z.leb_spec 8 (shift + 7)); do 2 eexists; (split; [done|]); lia. }
  rewrite En. assert (forall e, from_gsm7_loop (length ss) src p' shift' e = decode_septets ss e) as IH'.
  { intros e. apply IH; [done|done|lia|]. intros i t Ht. rewrite Hb. specialize (Hat (S i) t Ht).
    by replace (8 * Z.of_nat p + shift + 7 + 7 * Z.of_nat i) with (8 * Z.of_nat p + shift + 7 * Z.of_nat (S i)) by lia. }
  rewrite !IH'. destruct escaped; [done|]. by destruct (s =? GSM_7BITS_ESCAPE).
Qed.

(** *** The writer *)

(** The bits written so far: those stored and those in [bw_pad]. *)
Definition stream (w : BWriterRec) (k : Z) : bool :=
  if k <? 8 * Z.of_nat (bw_pos w) then sbit (bw_dst w) k else Z.testbit (bw_pad w) (k - 8 * Z.of_nat (bw_pos w)).

Record bw_ok (w : BWriterRec) : Prop := {
  bw_bits_ok : 0 <= bw_bits w < 8;
  bw_pad_ok : in_u (bw_bits w) (bw_pad w);
  bw_offset_ok : bw_offset w = 8 * Z.of_nat (bw_pos w) + bw_bits w;
  bw_bytes_ok : Forall (in_u 8) (bw_dst w);
}.

Lemma sbit_insert l (p : nat) v k : (p < length l)%nat -> 0 <= k ->
  sbit (<[p := u8 v]> l) k = if (8 * Z.of_nat p <=? k) && (k <? 8 * Z.of_nat p + 8) then Z.testbit v (k - 8 * Z.of_nat p) else sbit l k.
Proof.
  intros Hp Hk. unfold sbit. destruct (Z.leb_spec (8 * Z.of_nat p) k), (Z.ltb_spec k (8 * Z.of_nat p + 8)); cbn [andb].
  - replace (Z.to_nat (k / 8)) with p by lia. rewrite list_lookup_insert_eq by done. cbn [from_option id].
    rewrite wrap_spec by lia. rewrite (proj2 (Z.ltb_lt _ _)) by lia. cbn. f_equal. lia.
  - rewrite list_lookup_insert_ne by lia. done.
  - rewrite list_lookup_insert_ne by lia. done.
  - lia.
Qed.

Lemma bytes_insert l (p : nat) v : Forall (in_u 8) l -> Forall (in_u 8) (<[p := u8 v]> l).
Proof. intros Hl. apply Forall_insert; [done|]. apply wrap_range. lia. Qed.

(** The stream after a septet, the stored and the pending bits alike. *)
Lemma bwriter_add7_stream w v : bw_ok w -> septet_ok v -> bw_offset w + 7 <= 8 * Z.of_nat (length (bw_dst w)) ->
  exists w', bwriter_add7 w v = Ret w' /\ bw_ok w' /\ bw_offset w' = bw_offset w + 7
    /\ length (bw_dst w') = length (bw_dst w)
    /\ (forall k, 0 <= k -> stream w' k = if k <? 8 * Z.of_nat (bw_pos w) then sbit (bw_dst w) k
          else Z.testbit (bw_pad w .| (v .<< bw_bits w)) (k - 8 * Z.of_nat (bw_pos w))).
Proof.
  intros [Hb Hp Ho Hd] Hv Hl. unfold septet_ok in Hv.
  assert (in_u (bw_bits w + 7) (v .<< bw_bits w)) as Hvb.
  { unfold in_u. rewrite Z.shiftl_mul_pow2, Z.pow_add_r by lia. nia. }
  assert (2 ^ (bw_bits w + 7) <= 2 ^ 15) by (apply Z.pow_le_mono_r; lia).
  unfold bwriter_add7. rewrite (wrap_small 32) by (unfold in_u in *; lia).
  set (pad := bw_pad w .| (v .<< bw_bits w)). cbv zeta.
  assert (in_u (bw_bits w + 7) pad) as Hpad.
  { apply in_u_lor; [lia| |done]. unfold in_u in *. pose proof (Z.pow_le_mono_r 2 (bw_bits w) (bw_bits w + 7) ltac:(lia) ltac:(lia)). lia. }
  destruct (Z.leb_spec 8 (bw_bits w + 7)).
  - unfold bwriter_store. rewrite bool_decide_eq_true_2 by lia. cbn [mbind outcome_bind].
    eexists. split; [done|]. split_and!; cbn [bw_dst bw_pos bw_pad bw_bits bw_offset]; [|done|by rewrite length_insert|].
    + split; cbn [bw_dst bw_pos bw_pad bw_bits bw_offset]; [lia| |lia|by apply bytes_insert].
      rewrite Z.shiftr_div_pow2 by lia. unfold in_u in *.
      assert (2 ^ (bw_bits w + 7) = 2 ^ (bw_bits w + 7 - 8) * 2 ^ 8) as E8 by (rewrite <- Z.pow_add_r by lia; f_equal; lia).
      split; [apply Z.div_pos; lia|]. apply Z.div_lt_upper_bound; lia.
    + intros k Hk. unfold stream. cbn [bw_dst bw_pos bw_pad]. rewrite sbit_insert by lia.
      destruct (Z.ltb_spec k (8 * Z.of_nat (S (bw_pos w)))), (Z.ltb_spec k (8 * Z.of_nat (bw_pos w))); try lia.
      * by rewrite (proj2 (Z.leb_gt _ _)) by lia.
      * by rewrite (proj2 (Z.leb_le _ _)), (proj2 (Z.ltb_lt _ _)) by lia.
      * rewrite Z.shiftr_spec by lia. f_equal. lia.
  - eexists. split; [done|]. split_and!; cbn [bw_dst bw_pos bw_pad bw_bits bw_offset]; [|done..].
    split; cbn [bw_dst bw_pos bw_pad bw_bits bw_offset]; [lia|done|lia|done].
Qed.

Lemma bwriter_add7_spec w v : bw_ok w -> septet_ok v -> bw_offset w + 7 <= 8 * Z.of_nat (length (bw_dst w)) ->
  exists w', bwriter_add7 w v = Ret w' /\ bw_ok w' /\ bw_offset w' = bw_offset w + 7
    /\ length (bw_dst w') = length (bw_dst w)
    /\ (forall k, 0 <= k < bw_offset w -> stream w' k = stream w k)
    /\ (forall j, 0 <= j < 7 -> stream w' (bw_offset w + j) = Z.testbit v j).
Proof.
  intros Hok Hv Hl. destruct (bwriter_add7_stream w v Hok Hv Hl) as (w' & E & Hok' & Ho' & Hl' & Hs).
  destruct Hok as [Hb Hp Ho _]. exists w'. split_and!; try done.
  - intros k Hk. rewrite Hs by lia. unfold stream. destruct (Z.ltb_spec k (8 * Z.of_nat (bw_pos w))); [done|].
    zbits_norm. rewrite (Z.testbit_neg_r v), orb_false_r by lia. done.
  - intros j Hj. rewrite Hs by lia. rewrite (proj2 (Z.ltb_ge _ _)) by lia.
    replace (bw_offset w + j - 8 * Z.of_nat (bw_pos w)) with (bw_bits w + j) by lia. zbits_norm.
    rewrite (testbit_ge_range (bw_bits w) (bw_pad w)) by (done || lia). cbn. f_equal. lia.
Qed.

Lemma bwriter_adds ss w : bw_ok w -> Forall septet_ok ss ->
  bw_offset w + 7 * Z.of_nat (length ss) <= 8 * Z.of_nat (length (bw_dst w)) -> 0 <= bw_offset w ->
  exists w', foldM bwriter_add7 w ss = Ret w' /\ bw_ok w' /\ bw_offset w' = bw_offset w + 7 * Z.of_nat (length ss)
    /\ length (bw_dst w') = length (bw_dst w)
    /\ (forall k, 0 <= k < bw_offset w -> stream w' k = stream w k)
    /\ (forall i s j, ss !! i = Some s -> 0 <= j < 7 -> stream w' (bw_offset w + 7 * Z.of_nat i + j) = Z.testbit s j).
Proof.
  intros Hok Hss. revert w Hok. induction Hss as [|s ss Hs Hss IH]; intros w Hok Hl H0.
  { exists w. split_and!; try done. cbn [length]. lia. }
  cbn [length] in Hl. destruct (bwriter_add7_spec w s Hok Hs ltac:(lia)) as (w1 & E1 & Hok1 & Ho1 & Hl1 & Hk1 & Hj1).
  destruct (IH w1 Hok1) as (w2 & E2 & Hok2 & Ho2 & Hl2 & Hk2 & Hj2); [rewrite Hl1, Ho1; lia|lia|].
  exists w2. cbn [foldM]. rewrite E1. cbn [mbind outcome_bind]. split_and!; [done|done|cbn [length]; lia|lia| |].
  - intros k Hk. rewrite Hk2 by lia. by apply Hk1.
  - intros [|i] t j Ht Hj; cbn in Ht.
    + injection Ht as ->. rewrite Hk2 by lia. rewrite Z.mul_0_r, Z.add_0_r. by apply Hj1.
    + rewrite <- (Hj2 i t j Ht Hj). f_equal. lia.
Qed.

Lemma bwriter_init_spec dst start : Forall (in_u 8) dst -> 0 <= start <= 8 * Z.of_nat (length dst) ->
  exists w, bwriter_init dst start = Ret w /\ bw_ok w /\ bw_offset w = start /\ bw_dst w = dst
    /\ forall k, 0 <= k < start -> stream w k = sbit dst k.
Proof.
  intros Hd Hst. unfold bwriter_init. change 7 with (Z.ones 3). rewrite Z.land_ones, Z.shiftr_div_pow2 by lia.
  change (2 ^ 3) with 8. destruct (Z.ltb_spec 0 (start mod 8)).
  - destruct (lookup_lt_is_Some_2 dst (Z.to_nat (start / 8)) ltac:(lia)) as [b Hb]. rewrite Hb. cbn [or_out mbind outcome_bind].
    pose proof (Forall_lookup_1 _ _ _ _ Hd Hb) as Rb. simpl in Rb. set (pad := b .& _).
    assert (forall i, 0 <= i -> Z.testbit pad i = (i <? start mod 8) && Z.testbit b i) as Hpad.
    { intros i Hi. unfold pad. change 0xff with (Z.ones 8). zbits_norm. destruct (Z.lt_ge_cases i 8).
      - zbits_cases; try btauto. rewrite Z.testbit_ones_nonneg by lia. zbits_cases; btauto.
      - rewrite (testbit_ge_range 8 b) by (done || lia). btauto. }
    assert (in_u (start mod 8) pad) as Rpad.
    { apply in_u_testbit; [lia|unfold pad; apply Z.land_nonneg; left; apply Rb|]. intros i Hi. rewrite Hpad by lia.
      by rewrite (proj2 (Z.ltb_ge _ _)) by lia. }
    assert (2 ^ (start mod 8) <= 2 ^ 8) by (apply Z.pow_le_mono_r; lia).
    rewrite (wrap_small 32) by (unfold in_u in *; lia). eexists. split; [done|].
    split_and!; [|done|done|]; cbn [bw_dst bw_pos bw_pad bw_bits bw_offset].
    + split; cbn [bw_dst bw_pos bw_pad bw_bits bw_offset]; [lia|done|lia|done].
    + intros k Hk. unfold stream. cbn [bw_dst bw_pos bw_pad]. destruct (Z.ltb_spec k (8 * Z.of_nat (Z.to_nat (start / 8)))); [done|].
      rewrite Hpad by lia. rewrite (proj2 (Z.ltb_lt _ _)) by lia. cbn [andb].
      rewrite <- (sbit_byte dst (Z.to_nat (start / 8)) b) by (done || lia). f_equal. lia.
  - eexists. split; [done|]. split_and!; [|done|done|]; cbn [bw_dst bw_pos bw_pad bw_bits bw_offset].
    + split; cbn [bw_dst bw_pos bw_pad bw_bits bw_offset]; [lia|unfold in_u; lia|lia|done].
    + intros k Hk. unfold stream. cbn [bw_dst bw_pos bw_pad]. by rewrite (proj2 (Z.ltb_lt _ _)) by lia.
Qed.

Lemma bwriter_done_spec w : bw_ok w -> bw_offset w <= 8 * Z.of_nat (length (bw_dst w)) ->
  exists dst, bwriter_done w = Ret (dst, bw_offset w) /\ length dst = length (bw_dst w) /\ Forall (in_u 8) dst
    /\ forall k, 0 <= k < bw_offset w -> sbit dst k = stream w k.
Proof.
  intros [Hb Hp Ho Hd] Hl. unfold bwriter_done. destruct (Z.ltb_spec 0 (bw_bits w)).
  - unfold bwriter_store. rewrite bool_decide_eq_true_2 by lia. cbn [mbind outcome_bind]. eexists. split; [done|].
    split_and!; [by rewrite length_insert|by apply bytes_insert|]. intros k Hk. rewrite sbit_insert by lia. unfold stream.
    destruct (Z.ltb_spec k (8 * Z.of_nat (bw_pos w))).
    + by rewrite (proj2 (Z.leb_gt _ _)) by lia.
    + by rewrite (proj2 (Z.leb_le _ _)), (proj2 (Z.ltb_lt _ _)) by lia.
  - eexists. split; [done|]. split_and!; [done|done|]. intros k Hk. unfold stream. by rewrite (proj2 (Z.ltb_lt _ _)) by lia.
Qed.

Lemma table_index_range t nn v : table_index t nn v = -1 \/ nn <= table_index t nn v < nn + Z.of_nat (length t).
Proof.
  revert nn. induction t as [|x t IH]; intros nn; simpl; [by left|]. case_match; [right; lia|].
  destruct (IH (nn + 1)); [by left|right; lia].
Qed.

Lemma gsm7_of_unichar_ok c : Forall septet_ok (gsm7_of_unichar c).
Proof.
  unfold gsm7_of_unichar, unichar_to_gsm7, unichar_to_gsm7_extend.
  pose proof (table_index_range gsm7bits_to_unicode 0 c) as H1. pose proof (table_index_range gsm7bits_extend_to_unicode 0 c) as H2.
  rewrite (proj1 tables_have_128) in H1. rewrite (proj2 tables_have_128) in H2.
  destruct (Z.leb_spec 0 (table_index gsm7bits_to_unicode 0 c));
    [|destruct (Z.leb_spec 0 (table_index gsm7bits_extend_to_unicode 0 c))];
    repeat (apply Forall_cons; split); try apply Forall_nil_2; unfold septet_ok, GSM_7BITS_ESCAPE; lia.
Qed.

(** What is packed: the septets of the characters, after the bits that were
    there. *)
Lemma pack_gsm7_spec l dst offset : let ss := concat (gsm7_of_unichar <$> l) in
  Forall (in_u 8) dst -> 0 <= offset -> offset + 7 * Z.of_nat (length ss) <= 8 * Z.of_nat (length dst) ->
  exists dst', pack_gsm7 l dst offset = Ret (dst', offset + 7 * Z.of_nat (length ss))
    /\ length dst' = length dst /\ Forall (in_u 8) dst'
    /\ (forall k, 0 <= k < offset -> sbit dst' k = sbit dst k) /\ septets_at dst' offset ss.
Proof.
  intros ss Hd H0 Hl. unfold pack_gsm7. fold ss.
  destruct (bwriter_init_spec dst offset Hd ltac:(lia)) as (w & -> & Hok & Ho & Hdst & Hs).
  assert (Forall septet_ok ss) as Hss.
  { apply Forall_concat, Forall_fmap, Forall_true. apply gsm7_of_unichar_ok. }
  destruct (bwriter_adds ss w Hok Hss) as (w' & E & Hok' & Ho' & Hl' & Hk & Hj); [rewrite Ho, Hdst; lia|lia|].
  cbn [mbind outcome_bind]. rewrite E. cbn [mbind outcome_bind].
  destruct (bwriter_done_spec w' Hok') as (dst' & E' & Hl'' & Hd' & Hs'); [rewrite Ho', Hl', Ho, Hdst; lia|].
  rewrite Ho in *. exists dst'. rewrite E', Ho'. split_and!; [done|by rewrite Hl'', Hl', Hdst|done| |].
  - intros k Hk'. rewrite Hs', Hk, Hs by lia. done.
  - intros i s Hi j Hj'. apply lookup_lt_Some in Hi as Hlt. rewrite Hs' by lia. by apply Hj.
Qed.

(** A character of the basic alphabet: any entry of its table but the
    escape's. *)
Definition basic_char (c : Z) : Prop := exists nn : nat, gsm7bits_to_unicode !! nn = Some c /\ nn <> 27%nat.

(** The basic table is its own inverse, the escape apart. *)
Definition basic_entry (n : Z) : bool :=
  (n =? 27) || match gsm7bits_to_unicode !! Z.to_nat n with
               | Some c => (unichar_to_gsm7 c =? n) && (0 <=? c) && (c <? 0x200000)
               | None => false
               end.

Lemma basic_entries : forallb basic_entry (seqZ 0 128) = true.
Proof. vm_compute. reflexivity. Qed.

Lemma basic_char_septet c : basic_char c ->
  exists nn, gsm7_of_unichar c = [nn] /\ septet_ok nn /\ nn <> GSM_7BITS_ESCAPE /\ table gsm7bits_to_unicode nn = Ret c
    /\ point_ok c /\ unichar_to_gsm7_count c = 1.
Proof.
  intros (nn & Hnn & H27). assert (nn < 128)%nat as Hlt. { apply lookup_lt_Some in Hnn. by rewrite (proj1 tables_have_128) in Hnn. }
  pose proof (forall_below 128 basic_entry basic_entries (Z.of_nat nn) ltac:(lia)) as H. unfold basic_entry in H.
  rewrite (proj2 (Z.eqb_neq _ _)), Nat2Z.id, Hnn in H by lia. cbn [orb] in H.
  apply andb_true_iff in H as [[H1%Z.eqb_eq H2%Z.leb_le]%andb_true_iff H3%Z.ltb_lt].
  exists (Z.of_nat nn). unfold gsm7_of_unichar, unichar_to_gsm7_count. rewrite H1, (proj2 (Z.leb_le _ _)) by lia.
  split_and!; try done; unfold septet_ok, GSM_7BITS_ESCAPE; try lia. unfold table. by rewrite Nat2Z.id, Hnn.
Qed.

Lemma basic_septets cs : Forall basic_char cs ->
  let ss := concat (gsm7_of_unichar <$> cs) in
  length ss = length cs /\ Forall septet_ok ss /\ Forall point_ok cs
  /\ decode_septets ss false = Ret (utf8_of_points cs) /\ utf8_from_gsm8_loop ss false = Ret (utf8_of_points cs).
Proof.
  induction 1 as [|c cs Hc _ (IH1 & IH2 & IH3 & IH4 & IH5)]; [done|]. cbv zeta in *.
  destruct (basic_char_septet c Hc) as (nn & E & Hok & Hne & Ht & Hp & _). cbn [fmap list_fmap concat]. rewrite E. cbn [app].
  split_and!; [cbn [length]; by rewrite IH1|by constructor|by constructor| |].
  - cbn [decode_septets negb andb]. rewrite (proj2 (Z.eqb_neq _ _) Hne), Ht. cbn. by rewrite IH4.
  - cbn [utf8_from_gsm8_loop]. unfold septet_ok, GSM_7BITS_ESCAPE in *.
    rewrite (proj2 (Z.eqb_neq nn 0xff)), (proj2 (Z.eqb_neq nn 0x1b)), (proj2 (Z.leb_gt 0x80 nn)) by lia.
    rewrite Ht. cbn. by rewrite IH5.
Qed.

Lemma basic_count cs : Forall basic_char cs -> utf8_to_gsm7_count (utf8_of_points cs) = Z.of_nat (length cs).
Proof.
  intros Hcs. destruct (basic_septets cs Hcs) as (_ & _ & Hp & _). unfold utf8_to_gsm7_count.
  rewrite utf8_points_of_points, until_negative_id by done. clear Hp.
  enough (forall n, foldl (fun result c => let len := unichar_to_gsm7_count c in
    result + (if len =? 0 then 1 else len)) n cs = n + Z.of_nat (length cs)) as H by apply H.
  induction Hcs as [|c cs Hc _ IH]; intros n; [simpl; lia|]. cbn [foldl length]. rewrite IH.
  destruct (basic_char_septet c Hc) as (nn & _ & _ & _ & _ & _ & ->). simpl. lia.
Qed.



(** ** Where the code departs from its comments *)

(** An extension character: one of the extension table, not of the basic
    one. *)
Definition extension_char (c : Z) : Prop :=
  c <> 0 /\ unichar_to_gsm7 c = -1 /\ exists nn : nat, gsm7bits_extend_to_unicode !! nn = Some c.

(** What the extension table holds for the septet of a basic character. *)
Definition in_extension (c : Z) : Z := default 0 (gsm7bits_extend_to_unicode !! Z.to_nat (unichar_to_gsm7 c)).

Definition extension_entry (n : Z) : bool :=
  match gsm7bits_extend_to_unicode !! Z.to_nat n with
  | Some c => (c =? 0) || ((unichar_to_gsm7_extend c =? n) && (0 <=? c) && (c <? 0x200000))
  | None => false
  end.

Lemma extension_entries : forallb extension_entry (seqZ 0 128) = true.
Proof. vm_compute. reflexivity. Qed.

Lemma extension_char_septets c : extension_char c ->
  exists nn, gsm7_of_unichar c = [GSM_7BITS_ESCAPE; nn] /\ septet_ok nn /\ table gsm7bits_extend_to_unicode nn = Ret c /\ point_ok c.
Proof.
  intros (Hc & Hb & nn & Hnn). assert (nn < 128)%nat as Hlt. { apply lookup_lt_Some in Hnn. by rewrite (proj2 tables_have_128) in Hnn. }
  pose proof (forall_below 128 extension_entry extension_entries (Z.of_nat nn) ltac:(lia)) as H. unfold extension_entry in H.
  rewrite Nat2Z.id, Hnn, (proj2 (Z.eqb_neq _ _) Hc) in H. cbn [orb] in H.
  apply andb_true_iff in H as [[H1%Z.eqb_eq H2%Z.leb_le]%andb_true_iff H3%Z.ltb_lt].
  exists (Z.of_nat nn). unfold gsm7_of_unichar. rewrite Hb, H1. cbn. rewrite (proj2 (Z.leb_le _ _)) by lia.
  split_and!; [done|unfold septet_ok; lia| |done]. unfold table. by rewrite Nat2Z.id, Hnn.
Qed.

Lemma decode_escaped cs : Forall basic_char cs ->
  decode_septets (concat (gsm7_of_unichar <$> cs)) true = Ret (utf8_of_points (in_extension <$> cs)).
Proof.
  induction 1 as [|c cs Hc _ IH]; [done|]. destruct (basic_char_septet c Hc) as (nn & E & Hok & _).
  assert (unichar_to_gsm7 c = nn) as Hnn.
  { revert E. unfold gsm7_of_unichar. case_match; [by intros [= ->]|]. case_match; [done|].
    intros [= <-]. exfalso. destruct Hc as (m & Hm & _). pose proof (table_index_range gsm7bits_to_unicode 0 c) as HR.
    destruct (basic_char_septet c) as (nn' & E' & _ & _ & _ & _ & Hcnt); [by exists m; split; [|naive_solver]|].
    unfold unichar_to_gsm7_count in Hcnt. rewrite H, H0 in Hcnt. done. }
  cbn [fmap list_fmap concat]. rewrite E. cbn [app decode_septets negb andb].
  unfold septet_ok in Hok. destruct (lookup_lt_is_Some_2 gsm7bits_extend_to_unicode (Z.to_nat nn)) as [v Hv].
  { rewrite (proj2 tables_have_128). lia. }
  unfold table. rewrite Hv. cbn. rewrite IH. cbn. unfold utf8_of_points. cbn. do 2 f_equal.
  unfold in_extension. by rewrite Hnn, Hv.
Qed.

(** An extension character garbles what follows it. The decoder does not
    leave the extension table after the character an escape introduces: of a
    packed text that starts with one, the basic characters after it are read
    from the extension table, where letters and digits are 0. *)
Theorem extension_garbles_rest e cs dst offset :
  extension_char e -> Forall basic_char cs -> Forall (in_u 8) dst -> 0 <= offset ->
  offset + 7 * (2 + Z.of_nat (length cs)) <= 8 * Z.of_nat (length dst) ->
  exists dst', utf8_to_gsm7 (utf8_of_points (e :: cs)) dst offset = Ret (dst', offset + 7 * (2 + Z.of_nat (length cs)))
    /\ utf8_from_gsm7 dst' offset (2 + length cs) = Ret (utf8_write e ++ utf8_of_points (in_extension <$> cs)).
Proof.
  intros He Hcs Hd H0 Hl. destruct (basic_septets cs Hcs) as (Hn & Hss & Hp & _). cbv zeta in *.
  destruct (extension_char_septets e He) as (nn & E & Hok & Ht & Hpe). unfold utf8_to_gsm7.
  rewrite utf8_points_of_points, until_negative_id by (by constructor).
  assert (concat (gsm7_of_unichar <$> e :: cs) = GSM_7BITS_ESCAPE :: nn :: concat (gsm7_of_unichar <$> cs)) as Hc.
  { cbn [fmap list_fmap concat]. by rewrite E. }
  destruct (pack_gsm7_spec (e :: cs) dst offset Hd H0) as (dst' & E' & Hlen & Hd' & _ & Hat); rewrite Hc in *; cbn [length] in *; [lia|].
  exists dst'. rewrite E'. split; [do 2 f_equal; lia|].
  unfold utf8_from_gsm7. change 7 with (Z.ones 3). rewrite Z.land_ones, Z.shiftr_div_pow2 by lia. change (2 ^ 3) with 8.
  rewrite <- Hn. change (2 + length (concat (gsm7_of_unichar <$> cs)))%nat
    with (length (GSM_7BITS_ESCAPE :: nn :: concat (gsm7_of_unichar <$> cs))).
  rewrite from_gsm7_decodes; [|done|lia|repeat (apply Forall_cons; split); try done; unfold septet_ok, GSM_7BITS_ESCAPE; lia|cbn [length]; lia|].
  - cbn [decode_septets negb andb]. cbn [GSM_7BITS_ESCAPE Z.eqb Pos.eqb]. rewrite Ht. cbn [mbind outcome_bind].
    by rewrite decode_escaped.
  - by replace (8 * Z.of_nat (Z.to_nat (offset / 8)) + offset mod 8) with offset by lia.
Qed.

Lemma extension_garbles_rest_witness :
  exists dst', utf8_to_gsm7 (utf8_of_points [0x20ac; 53]) [0; 0; 0] 0 = Ret (dst', 21)
    /\ utf8_from_gsm7 dst' 0 3 = Ret [0xe2; 0x82; 0xac; 0].
Proof.
  apply (extension_garbles_rest 0x20ac [53] [0; 0; 0] 0).
  - split; [done|]. split; [done|]. by exists 101%nat.
  - repeat constructor. by exists 53%nat.
  - repeat constructor; unfold in_u; lia.
  - lia.
  - simpl. lia.
Defined.

(** The two BCD conversions are inverse only on the multiples of ten. *)
Lemma bcdi_inverse_on_tens v : 0 <= v < 100 -> gsm_int_from_bcdi (gsm_int_to_bcdi v) = v <-> v mod 10 = 0.
Proof.
  intros Hv. pose proof (forall_below 100 (fun v => Bool.eqb (gsm_int_from_bcdi (gsm_int_to_bcdi v) =? v) (v mod 10 =? 0))
    ltac:(by vm_compute) v Hv) as H%eqb_prop. by rewrite <- !Z.eqb_eq, H.
Qed.

Lemma bcdnum_runs_off nibbles count : 2 <= count -> bcdnum_loop nibbles count = OutOfBounds.
Proof.
  intros Hc. induction nibbles as [|c l IH]; cbn [bcdnum_loop]; rewrite (proj2 (Z.leb_gt count 0)) by lia; [done|].
  rewrite (proj2 (Z.eqb_neq count 1)), andb_false_r by lia. rewrite IH.
  unfold table. destruct (bcdchars !! _); done.
Qed.

(** The loop over the digits of a dial number does not count them down:
    for two or more digits it reads, and writes, past the end of whatever it
    is given. Every phone-book record with a number is affected. *)
Theorem dial_number_runs_off bcd count data num_len ton rest :
  2 <= count ->
  gsm_bcdnum_to_ascii bcd count = OutOfBounds
  /\ (length data = 14%nat -> data = num_len :: ton :: rest -> 1 <= num_len <= 11 -> ton = 0x81 \/ ton = 0x91 ->
      sim_adn_record_from_bytes data = OutOfBounds).
Proof.
  intros Hc. split; [by apply bcdnum_runs_off|]. intros Hl -> Hn Ht.
  unfold sim_adn_record_from_bytes. rewrite Hl. cbn [Z.of_nat Z.ltb Z.compare Pos.compare Pos.compare_cont ADN_FOOTER_SIZE].
  change (drop _ (num_len :: ton :: rest)) with (num_len :: ton :: rest). cbn.
  rewrite (proj2 (Z.ltb_ge 11 num_len)) by lia.
  assert (negb (ton =? 0x81) && negb (ton =? 0x91) = false) as -> by by destruct Ht as [-> | ->].
  unfold gsm_bcdnum_to_ascii. by rewrite bcdnum_runs_off by lia.
Qed.

Lemma dial_number_runs_off_witness :
  gsm_bcdnum_to_ascii [0x21; 0xf3] 3 = OutOfBounds
  /\ (length ([3; 0x81; 0x21; 0xf3] ++ replicate 10 0xff) = 14%nat ->
      [3; 0x81; 0x21; 0xf3] ++ replicate 10 0xff = 3 :: 0x81 :: [0x21; 0xf3] ++ replicate 10 0xff -> 1 <= 3 <= 11 ->
      0x81 = 0x81 \/ 0x81 = 0x91 ->
      sim_adn_record_from_bytes ([3; 0x81; 0x21; 0xf3] ++ replicate 10 0xff) = OutOfBounds).
Proof. apply (dial_number_runs_off [0x21; 0xf3] 3 ([3; 0x81; 0x21; 0xf3] ++ replicate 10 0xff) 3 0x81). lia. Defined.
