(* ===== verification/GsmRope.v ===== *)
(** The ropes of telephony/gsm.c: growing byte buffers that first count and
    then collect the bytes of a message. The memory [malloc] returns is an
    argument, so its contents are arbitrary and it can fail. *)
From S2P Require Import Prelude GsmText.
Open Scope list_scope.

(** Where [data] points: nowhere, to the buffer [data0] inside the rope, or
    to the heap. *)
Inductive rope_ptr := RopeNull | RopeData0 | RopeHeap (mem : list Z).

Record GsmRopeRec := mkRope {
  rope_data : rope_ptr;
  rope_max : Z;
  rope_pos : Z;
  rope_error : bool;
  data0 : list Z;
}.

(** [sizeof(rope->data0)]. *)
Definition DATA0_SIZE : Z := 16.

Definition gsm_rope_init (rope : GsmRopeRec) : GsmRopeRec := mkRope RopeNull 0 0 false (data0 rope).

(** The bytes [data] points to. *)
Definition rope_bytes (r : GsmRopeRec) : list Z :=
  match rope_data r with RopeNull => [] | RopeData0 => data0 r | RopeHeap mem => mem end.

Definition set_rope_pos (p : Z) (r : GsmRopeRec) : GsmRopeRec :=
  mkRope (rope_data r) (rope_max r) p (rope_error r) (data0 r).

(** [memcpy(rope->data + off, bs, n)]. *)
Definition rope_store (r : GsmRopeRec) (off : Z) (bs : list Z) : outcome GsmRopeRec :=
  let l := rope_bytes r in
  if (0 <=? off) && (off + Z.of_nat (length bs) <=? Z.of_nat (length l)) then
    let l' := take (Z.to_nat off) l ++ bs ++ drop (Z.to_nat off + length bs) l in
    match rope_data r with
    | RopeNull => Ret r
    | RopeData0 => Ret (mkRope RopeData0 (rope_max r) (rope_pos r) (rope_error r) l')
    | RopeHeap _ => Ret (mkRope (RopeHeap l') (rope_max r) (rope_pos r) (rope_error r) (data0 r))
    end
  else OutOfBounds.

(** [while (new_max < new_count) new_max += (new_max >> 1) + 4]. *)
Fixpoint grow_max (fuel : nat) (new_max new_count : Z) : Z :=
  match fuel with
  | O => new_max
  | S fuel => if new_max <? new_count then grow_max fuel (s32 (new_max + ((new_max .>> 1) + 4))) new_count else new_max
  end.

Definition gsm_rope_done (rope : GsmRopeRec) : bool * GsmRopeRec :=
  (rope_error rope, mkRope RopeNull 0 0 false (data0 rope)).

Section Rope.
Context (malloc : Z -> option (list Z)).

(** [calloc(count, 1)]. *)
Definition calloc (count : Z) : option (list Z) := (fun _ => replicate (Z.to_nat count) 0) <$> malloc count.

(** [realloc] keeps the old bytes; the others are what [malloc] gives. *)
Definition realloc (old : option (list Z)) (n : Z) : option (list Z) :=
  let o := default [] old in
  (fun mem => take (Z.to_nat n) o ++ drop (length o) mem) <$> malloc n.

Definition gsm_rope_init_alloc (rope : GsmRopeRec) (count : Z) : GsmRopeRec :=
  if 0 <? count then
    match calloc count with
    | Some mem => mkRope (RopeHeap mem) count 0 false (data0 rope)
    | None => mkRope RopeNull 0 0 true (data0 rope)
    end
  else mkRope RopeData0 DATA0_SIZE 0 false (data0 rope).

(** The memory and its size; [None] when there is none. *)
Definition gsm_rope_done_acquire (rope : GsmRopeRec) : option (list Z) * Z :=
  let size := rope_pos rope in
  match rope_data rope with
  | RopeNull => (None, size)
  | RopeHeap mem => (Some mem, size)
  | RopeData0 =>
      match malloc size with
      | Some mem => (Some (take (Z.to_nat size) (data0 rope) ++ drop (Z.to_nat size) mem), size)
      | None => (None, size)
      end
  end.

(** The result is whether the C one is 0. *)
Definition gsm_rope_ensure (rope : GsmRopeRec) (new_count : Z) : bool * GsmRopeRec :=
  match rope_data rope with
  | RopeNull => (true, mkRope RopeNull new_count (rope_pos rope) (rope_error rope) (data0 rope))
  | p =>
      let old_data := match p with RopeHeap mem => Some mem | _ => None end in
      let new_max := grow_max (Z.to_nat (new_count - rope_max rope)) (rope_max rope) new_count in
      match realloc old_data new_max with
      | None => (false, mkRope p (rope_max rope) (rope_pos rope) true (data0 rope))
      | Some mem => (true, mkRope (RopeHeap mem) new_max (rope_pos rope) (rope_error rope) (data0 rope))
      end
  end.

Definition gsm_rope_can_grow (rope : GsmRopeRec) (count : Z) : bool * GsmRopeRec :=
  match rope_data rope with
  | RopeNull => (false, rope)
  | _ =>
      if rope_error rope then (false, rope)
      else if rope_max rope <? rope_pos rope + count then gsm_rope_ensure rope (rope_pos rope + count)
      else (true, rope)
  end.

Definition gsm_rope_add (rope : GsmRopeRec) (buf : list Z) : outcome GsmRopeRec :=
  let '(ok, rope) := gsm_rope_can_grow rope (Z.of_nat (length buf)) in
  rope ← (if ok : bool then rope_store rope (rope_pos rope) buf else Ret rope);
  Ret (set_rope_pos (rope_pos rope + Z.of_nat (length buf)) rope).

Definition gsm_rope_add_c (rope : GsmRopeRec) (c : Z) : outcome GsmRopeRec :=
  let '(ok, rope) := gsm_rope_can_grow rope 1 in
  rope ← (if ok : bool then rope_store rope (rope_pos rope) [u8 c] else Ret rope);
  Ret (set_rope_pos (rope_pos rope + 1) rope).

(** The offset of the reserved bytes in [data], [None] for NULL. *)
Definition gsm_rope_reserve (rope : GsmRopeRec) (count : Z) : option Z * GsmRopeRec :=
  let '(ok, rope) := gsm_rope_can_grow rope count in
  let result := match ok : bool, rope_data rope with
                | true, RopeData0 | true, RopeHeap _ => Some (rope_pos rope)
                | _, _ => None
                end in
  (result, set_rope_pos (rope_pos rope + count) rope).

(** ** Ropes as byte strings *)

(** [malloc] gives what it is asked for. *)
Class Malloc := {
  malloc_length : forall n mem, malloc n = Some mem -> length mem = Z.to_nat n;
  malloc_bytes : forall n mem, malloc n = Some mem -> Forall (in_u 8) mem;
}.

(** A rope that collects. *)
Record rope_ok (r : GsmRopeRec) : Prop := {
  rope_has_data : rope_data r <> RopeNull;
  rope_no_error : rope_error r = false;
  rope_size : rope_max r = Z.of_nat (length (rope_bytes r));
  rope_within : 0 <= rope_pos r <= rope_max r;
}.

(** A rope that only counts. *)
Definition rope_counts (r : GsmRopeRec) (n : Z) : Prop := rope_data r = RopeNull /\ rope_error r = false /\ rope_pos r = n.

Definition rope_contents (r : GsmRopeRec) : list Z := take (Z.to_nat (rope_pos r)) (rope_bytes r).

(** ** Growth *)

(** The loop ends within its fuel at a size that is enough, less than twice
    what is needed. *)
Lemma grow_max_enough fuel new_max new_count :
  0 <= new_max -> new_count <= 2 ^ 29 -> (Z.to_nat (new_count - new_max) <= fuel)%nat ->
  let m := grow_max fuel new_max new_count in
  new_count <= m /\ (new_max <= m) /\ (m = new_max \/ m < 2 * new_count + 4).
Proof.
  revert new_max. induction fuel as [|fuel IH]; intros new_max H0 H1 Hf; cbn [grow_max]; [lia|].
  destruct (Z.ltb_spec new_max new_count) as [Hlt|]; [|lia].
  rewrite Z.shiftr_div_pow2 by lia. change (2 ^ 1) with 2.
  pose proof (Z.div_mod new_max 2 ltac:(lia)). pose proof (Z.mod_pos_bound new_max 2 ltac:(lia)).
  rewrite swrap_small by (unfold in_s; lia).
  destruct (IH (new_max + (new_max / 2 + 4))) as (A1 & A2 & A3); [lia|lia|lia|].
  destruct A3; lia.
Qed.

Context {Hmalloc : Malloc}.

Lemma length_realloc old n mem : realloc old n = Some mem -> (length (default [] old) <= Z.to_nat n)%nat ->
  length mem = Z.to_nat n /\ take (length (default [] old)) mem = default [] old.
Proof.
  unfold realloc. destruct (malloc n) as [m|] eqn:E; [|done]. intros [= <-] Hl.
  pose proof (malloc_length n m E). rewrite take_ge by done. split.
  - rewrite length_app, length_drop. lia.
  - by rewrite take_app_length.
Qed.

Lemma calloc_zeros n mem : calloc n = Some mem -> mem = replicate (Z.to_nat n) 0.
Proof. unfold calloc. destruct (malloc n); [|done]. by intros [= <-]. Qed.

(** Room for [count] bytes, when memory is there: the bytes collected so far
    are kept unless they leave [data0]. *)
Lemma rope_can_grow_ok r count : rope_ok r -> 0 <= count -> rope_pos r + count <= 2 ^ 29 ->
  (forall n, malloc n <> None) ->
  exists r', gsm_rope_can_grow r count = (true, r') /\ rope_ok r' /\ rope_pos r' = rope_pos r
    /\ rope_pos r + count <= rope_max r'
    /\ (rope_data r <> RopeData0 \/ rope_pos r + count <= rope_max r \/ rope_pos r = 0 -> rope_contents r' = rope_contents r)
    /\ (rope_data r' = RopeData0 -> rope_data r = RopeData0 /\ rope_pos r + count <= rope_max r).
Proof.
  intros [H1 H2 H3 H4] Hc Hb Hm. unfold gsm_rope_can_grow.
  destruct (rope_data r) as [| |mem] eqn:Ed; [done| |]; rewrite H2;
    (destruct (Z.ltb_spec (rope_max r) (rope_pos r + count)) as [Hlt|Hge];
     [|exists r; split_and!; [done|by constructor; try rewrite Ed|done|lia|done|by rewrite Ed]]);
    unfold gsm_rope_ensure; rewrite Ed;
    destruct (grow_max_enough (Z.to_nat (rope_pos r + count - rope_max r)) (rope_max r) (rope_pos r + count)) as (A1 & A2 & _);
      [lia|lia|lia| |lia|lia|lia|];
    set (m := grow_max _ _ _) in *.
  - destruct (realloc None m) as [mem|] eqn:Er.
    2: { unfold realloc in Er. destruct (malloc m) eqn:E; [done|by destruct (Hm m)]. }
    destruct (length_realloc _ _ _ Er) as [Hl _]; [simpl; lia|].
    eexists. split_and!; [done| |done|done| |done].
    + constructor; cbn [rope_data rope_error rope_max rope_pos rope_bytes]; [done|done|rewrite Hl; lia|lia].
    + intros [|[|Hp]]; [done|lia|]. unfold rope_contents. cbn [rope_pos]. by rewrite Hp.
  - assert (rope_bytes r = mem) as Hbytes by (unfold rope_bytes; by rewrite Ed). rewrite Hbytes in H3.
    destruct (realloc (Some mem) m) as [mem'|] eqn:Er.
    2: { unfold realloc in Er. destruct (malloc m) eqn:E; [done|by destruct (Hm m)]. }
    destruct (length_realloc _ _ _ Er) as [Hl Ht]; [simpl; lia|]. change (take (length mem) mem' = mem) in Ht.
    eexists. split_and!; [done| |done|done| |done].
    + constructor; cbn [rope_data rope_error rope_max rope_pos rope_bytes]; [done|done|rewrite Hl; lia|lia].
    + intros _. unfold rope_contents. rewrite Hbytes. cbn [rope_pos rope_bytes rope_data].
      transitivity (take (Z.to_nat (rope_pos r)) (take (length mem) mem')); [|by rewrite Ht].
      rewrite take_take. f_equal. lia.
Qed.

Lemma rope_store_ok r off bs : rope_ok r -> 0 <= off -> off + Z.of_nat (length bs) <= rope_max r ->
  exists r', rope_store r off bs = Ret r' /\ rope_ok r' /\ rope_pos r' = rope_pos r /\ rope_max r' = rope_max r
    /\ rope_bytes r' = take (Z.to_nat off) (rope_bytes r) ++ bs ++ drop (Z.to_nat off + length bs) (rope_bytes r)
    /\ (rope_data r' = RopeData0 <-> rope_data r = RopeData0).
Proof.
  intros [H1 H2 H3 H4] H0 Hb. unfold rope_store.
  rewrite (proj2 (Z.leb_le 0 off)), (proj2 (Z.leb_le _ _)) by lia. cbn [andb].
  assert (length (take (Z.to_nat off) (rope_bytes r) ++ bs ++ drop (Z.to_nat off + length bs) (rope_bytes r))
          = length (rope_bytes r)) as Hl by (rewrite !length_app, length_take, length_drop; lia).
  destruct (rope_data r) as [| |mem] eqn:Ed; [done| |]; eexists; (split_and!; [done| |done|done|done|done]);
    constructor; cbn [rope_data rope_error rope_max rope_pos rope_bytes data0]; try done; by rewrite Hl.
Qed.

(** Bytes written behind the collected ones. *)
Lemma rope_append_ok r bs : rope_ok r -> rope_pos r + Z.of_nat (length bs) <= rope_max r ->
  exists r', rope_store r (rope_pos r) bs = Ret r' /\ rope_pos r' = rope_pos r
    /\ let r'' := set_rope_pos (rope_pos r' + Z.of_nat (length bs)) r' in
       rope_ok r'' /\ (rope_data r'' = RopeData0 <-> rope_data r = RopeData0) /\ rope_contents r'' = rope_contents r ++ bs.
Proof.
  intros Hok Hb. pose proof (rope_within _ Hok) as Hp.
  destruct (rope_store_ok r (rope_pos r) bs Hok ltac:(lia) Hb) as (r' & E & [H1 H2 H3 H4] & Hp' & Hm & Hl & Hd).
  exists r'. cbv zeta. split_and!; [done|done| |done|].
  - constructor; cbn; [done|done|done|lia].
  - unfold rope_contents. cbn [rope_pos set_rope_pos]. change (rope_bytes (set_rope_pos _ r')) with (rope_bytes r').
    rewrite Hl, Hp', app_assoc. pose proof (rope_size _ Hok). apply take_app_length'.
    rewrite length_app, length_take. lia.
Qed.

(** A rope is a growing string. Bytes added to a rope on the heap are
    appended, however often its memory has to grow to hold them, and the loop
    that computes the new size ends; a rope in its own buffer of 16 bytes is
    one as long as that buffer is enough or nothing was added before. *)
Theorem rope_add_appends r buf : rope_ok r -> rope_pos r + Z.of_nat (length buf) <= 2 ^ 29 ->
  rope_data r <> RopeData0 \/ rope_pos r + Z.of_nat (length buf) <= rope_max r \/ rope_pos r = 0 ->
  (forall n, malloc n <> None) ->
  exists r', gsm_rope_add r buf = Ret r' /\ rope_ok r' /\ (rope_data r <> RopeData0 -> rope_data r' <> RopeData0)
    /\ rope_contents r' = rope_contents r ++ buf.
Proof.
  intros Hok Hb Hd Hm. destruct (rope_can_grow_ok r (Z.of_nat (length buf)) Hok ltac:(lia) Hb Hm)
    as (r1 & E1 & Hok1 & Hp1 & Hx1 & Hk1 & Hd1). unfold gsm_rope_add. rewrite E1.
  destruct (rope_append_ok r1 buf Hok1) as (r2 & E2 & Hp2 & Hok2 & Hd2 & Hc2); [lia|].
  rewrite E2. eexists. split_and!; [done|done|naive_solver|by rewrite Hc2, Hk1].
Qed.

(** Leaving [data0] loses what was collected: the new memory is fresh. *)
Lemma data0_growth_loses r buf : rope_ok r -> rope_data r = RopeData0 ->
  rope_max r < rope_pos r + Z.of_nat (length buf) <= 2 ^ 29 -> (forall n, malloc n <> None) ->
  exists r' n mem, gsm_rope_add r buf = Ret r' /\ malloc n = Some mem
    /\ rope_contents r' = take (Z.to_nat (rope_pos r)) mem ++ buf.
Proof.
  intros [H1 H2 H3 H4] Hd Hb Hm. unfold gsm_rope_add, gsm_rope_can_grow. rewrite Hd, H2, (proj2 (Z.ltb_lt _ _)) by lia.
  unfold gsm_rope_ensure. rewrite Hd.
  destruct (grow_max_enough (Z.to_nat (rope_pos r + Z.of_nat (length buf) - rope_max r)) (rope_max r)
    (rope_pos r + Z.of_nat (length buf))) as (A1 & A2 & _); [lia|lia|lia|].
  set (m := grow_max _ _ _) in *. unfold realloc. cbn [default length drop take].
  destruct (malloc m) as [mem|] eqn:E; [|by destruct (Hm m)]. cbn [fmap option_fmap option_map].
  rewrite take_nil. cbn [app]. pose proof (malloc_length _ _ E) as Hl.
  rewrite drop_0. cbn beta iota. set (r1 := mkRope (RopeHeap mem) m (rope_pos r) (rope_error r) (data0 r)).
  destruct (rope_append_ok r1 buf) as (r2 & E2 & Hp2 & _ & _ & Hc2).
  { constructor; cbn; [done|done|rewrite Hl; lia|lia]. }
  { cbn. lia. }
  rewrite E2. exists (set_rope_pos (rope_pos r2 + Z.of_nat (length buf)) r2), m, mem. split_and!; [done|done|exact Hc2].
Qed.

(** ** The two passes over a message *)

(** The second pass: [acc] is collected and [n] zero bytes are left of the
    exact amount the first pass counted. *)
Record rope_collects (r : GsmRopeRec) (acc : list Z) (n : nat) : Prop := {
  collects_data : rope_data r = RopeHeap (acc ++ replicate n 0);
  collects_error : rope_error r = false;
  collects_max : rope_max r = Z.of_nat (length acc + n);
  collects_pos : rope_pos r = Z.of_nat (length acc);
}.

(** A step that adds [bs] in both passes. *)
Record rope_emits (f : GsmRopeRec -> outcome GsmRopeRec) (bs : list Z) : Prop := {
  emits_count : forall r n, rope_counts r n -> exists r', f r = Ret r' /\ rope_counts r' (n + Z.of_nat (length bs));
  emits_bytes : forall r acc n, rope_collects r acc (length bs + n) ->
    exists r', f r = Ret r' /\ rope_collects r' (acc ++ bs) n;
}.

Lemma rope_emits_seq f g a b : rope_emits f a -> rope_emits g b -> rope_emits (fun r => r' ← f r; g r') (a ++ b).
Proof.
  intros [F1 F2] [G1 G2]. split.
  - intros r n Hr. destruct (F1 r n Hr) as (r1 & E1 & H1). destruct (G1 _ _ H1) as (r2 & E2 & H2).
    exists r2. cbn. rewrite E1. cbn. split; [done|]. rewrite length_app.
    by replace (n + Z.of_nat (length a + length b)) with (n + Z.of_nat (length a) + Z.of_nat (length b)) by lia.
  - intros r acc n Hr. rewrite length_app, <- Nat.add_assoc in Hr. destruct (F2 _ _ _ Hr) as (r1 & E1 & H1).
    destruct (G2 _ _ _ H1) as (r2 & E2 & H2). exists r2. cbn. rewrite E1. cbn. by rewrite app_assoc.
Qed.

Lemma can_grow_counts r n count : rope_counts r n -> gsm_rope_can_grow r count = (false, r).
Proof. intros (H & _). unfold gsm_rope_can_grow. by rewrite H. Qed.

Lemma can_grow_collects r acc n count : rope_collects r acc n -> 0 <= count <= Z.of_nat n ->
  gsm_rope_can_grow r count = (true, r).
Proof.
  intros [H1 H2 H3 H4] Hc. unfold gsm_rope_can_grow. rewrite H1, H2, H3, H4. by rewrite (proj2 (Z.ltb_ge _ _)) by lia.
Qed.

(** Writing over the zeros that are next. *)
Lemma store_collects r acc bs n : rope_collects r acc (length bs + n) ->
  exists r', rope_store r (rope_pos r) bs = Ret r' /\ rope_pos r' = rope_pos r
    /\ rope_collects (set_rope_pos (rope_pos r + Z.of_nat (length bs)) r') (acc ++ bs) n.
Proof.
  intros [H1 H2 H3 H4]. unfold rope_store, rope_bytes. rewrite H1, H4, Nat2Z.id.
  rewrite length_app, length_replicate, (proj2 (Z.leb_le 0 _)), (proj2 (Z.leb_le _ _)) by lia. cbn [andb].
  eexists. split_and!; [done|done|]. constructor; cbn; [|done|rewrite H3, length_app; lia|rewrite length_app; lia].
  f_equal. rewrite take_app_length, drop_app_add, drop_replicate, app_assoc. do 2 f_equal. lia.
Qed.

Lemma rope_emits_add buf : rope_emits (fun r => gsm_rope_add r buf) buf.
Proof.
  split.
  - intros r n Hr. unfold gsm_rope_add. rewrite (can_grow_counts r n _ Hr). eexists. split; [done|].
    destruct Hr as (H1 & H2 & H3). by split_and!; [..|cbn; rewrite H3].
  - intros r acc n Hr. unfold gsm_rope_add. rewrite (can_grow_collects _ _ _ _ Hr) by lia.
    destruct (store_collects _ _ _ _ Hr) as (r' & -> & Hp & H). cbn. rewrite Hp. eauto.
Qed.

Lemma rope_emits_add_c c : rope_emits (fun r => gsm_rope_add_c r c) [u8 c].
Proof. apply (rope_emits_add [u8 c]). Qed.

(** Bytes encoded in place: [f] turns the reserved zeros into [bs]. *)
Definition rope_encode (count : Z) (f : list Z -> outcome (list Z)) (r : GsmRopeRec) : outcome GsmRopeRec :=
  let '(dst, r) := gsm_rope_reserve r count in
  match dst with
  | None => Ret r
  | Some off =>
      bs ← f (take (Z.to_nat count) (drop (Z.to_nat off) (rope_bytes r)));
      rope_store r off bs
  end.

Lemma rope_emits_encode count f bs : count = Z.of_nat (length bs) -> f (replicate (length bs) 0) = Ret bs ->
  rope_emits (rope_encode count f) bs.
Proof.
  intros -> Hf. split.
  - intros r n Hr. unfold rope_encode, gsm_rope_reserve. rewrite (can_grow_counts r n _ Hr).
    destruct Hr as (H1 & H2 & H3). eexists. split; [done|]. by split_and!; [..|cbn; rewrite H3].
  - intros r acc n Hr. unfold rope_encode, gsm_rope_reserve. rewrite (can_grow_collects _ _ _ _ Hr) by lia.
    pose proof Hr as [H1 H2 H3 H4]. rewrite H1. cbn [set_rope_pos rope_bytes rope_data].
    change (rope_bytes (set_rope_pos _ r)) with (rope_bytes r). unfold rope_bytes at 1. rewrite H1, H4, !Nat2Z.id.
    rewrite drop_app_length, take_replicate, Nat.min_l by lia. rewrite Hf. cbn [mbind outcome_bind].
    destruct (store_collects _ _ _ _ Hr) as (r' & E & Hp & Hc). rewrite H4 in E, Hc.
    unfold rope_store in *. change (rope_bytes (set_rope_pos _ r)) with (rope_bytes r).
    destruct (_ && _); [|done]. cbn [rope_data set_rope_pos]. rewrite H1 in *.
    injection E as <-. eexists. split; [done|exact Hc].
Qed.

(** The whole of a two-pass message. *)
Lemma rope_two_pass f bs r0 : rope_emits f bs -> bs <> [] -> malloc (Z.of_nat (length bs)) <> None ->
  exists r1 r2, f (gsm_rope_init r0) = Ret r1 /\ rope_error r1 = false /\ rope_pos r1 = Z.of_nat (length bs)
    /\ f (gsm_rope_init_alloc r1 (rope_pos r1)) = Ret r2
    /\ gsm_rope_done_acquire r2 = (Some bs, Z.of_nat (length bs)).
Proof.
  intros [F1 F2] Hne Hm. destruct (F1 (gsm_rope_init r0) 0) as (r1 & E1 & H1 & H2 & H3); [done|].
  rewrite Z.add_0_l in H3. destruct (calloc (Z.of_nat (length bs))) as [mem|] eqn:Ec.
  2: { unfold calloc in Ec. by destruct (malloc _). }
  assert (0 < length bs)%nat by (destruct bs; [done|simpl; lia]).
  destruct (F2 (gsm_rope_init_alloc r1 (rope_pos r1)) [] 0%nat) as (r2 & E2 & [C1 C2 C3 C4]).
  { unfold gsm_rope_init_alloc. rewrite H3, (proj2 (Z.ltb_lt 0 _)), Ec by lia.
    constructor; cbn; [|done|f_equal; lia|done]. f_equal. rewrite (calloc_zeros _ _ Ec), Nat2Z.id. f_equal. lia. }
  exists r1, r2. split_and!; try done. unfold gsm_rope_done_acquire. rewrite C1, C4. cbn. by rewrite app_nil_r.
Qed.

End Rope.

(** A rope of four bytes that grows. *)
Lemma rope_add_appends_witness :
  let malloc n := Some (replicate (Z.to_nat n) 7) in
  exists r', gsm_rope_add malloc (mkRope (RopeHeap [1; 2; 0; 0]) 4 2 false (replicate 16 0)) [3; 4; 5; 6] = Ret r'
    /\ rope_ok r' /\ (RopeHeap [1; 2; 0; 0] <> RopeData0 -> rope_data r' <> RopeData0) /\ rope_contents r' = [1; 2; 3; 4; 5; 6].
Proof.
  intros malloc. assert (Malloc malloc) as Hm.
  { split; intros n mem [= <-]; [by rewrite length_replicate|]. apply Forall_replicate. unfold in_u. lia. }
  apply (rope_add_appends malloc (mkRope (RopeHeap [1; 2; 0; 0]) 4 2 false (replicate 16 0)) [3; 4; 5; 6]).
  - constructor; cbn; [done|done|done|lia].
  - cbn. lia.
  - by left.
  - done.
Defined.
