(* ===== verification/SmsPdu.v ===== *)
(** SMS messages: telephony/sms.c up to its receiver. Quoted message texts,
    time stamps, addresses, the parser of the fields of a PDU, the SMS-DELIVER
    PDUs made of a text and its division into parts. A pointer into a PDU
    with its end is the list of the bytes in between. *)
From S2P Require Import Prelude GsmText GsmRope.
Open Scope list_scope.

Definition MAX_USER_DATA_BYTES : Z := 140.
Definition MAX_USER_DATA_SEPTETS : Z := 160.
Definition USER_DATA_HEADER_SIZE : Z := 6.
Definition SMS_ADDRESS_MAX_SIZE : Z := 16.

(** ** Message texts *)

(** The bytes of one character; those of three start with 0xc0. *)
Definition message_write (c : Z) : list Z :=
  if c <? 128 then [u8 c]
  else if c <? 0x800 then [u8 (0xc0 .| ((c .>> 6) .& 0x1f)); u8 (0x80 .| (c .& 0x3f))]
  else [u8 (0xc0 .| ((c .>> 12) .& 0xf)); u8 (0x80 .| ((c .>> 6) .& 0x3f)); u8 (0x80 .| (c .& 0x3f))].

(** What an escaped character stands for, and the rest of the text. *)
Definition message_escape (c : Z) (p : list Z) : option (Z * list Z) :=
  if c =? 92 then Some (c, p)
  else if c =? 110 then Some (10, p)
  else if c =? 120 then
    match p with
    | h0 :: h1 :: p => let c := gsm_hex2_to_byte h0 h1 in if c <? 0 then None else Some (c, p)
    | _ => None
    end
  else if c =? 117 then
    match p with
    | h0 :: h1 :: h2 :: h3 :: p => let c := gsm_hex4_to_short h0 h1 h2 h3 in if c <? 0 then None else Some (c, p)
    | _ => None
    end
  else None.

Fixpoint from_message_loop (fuel : nat) (p : list Z) (escaped : bool) : option (list Z) :=
  match fuel, p with
  | S fuel, _ :: _ =>
      let '(c, p) := utf8_next p in
      if escaped then
        '(c, p) ← message_escape c p;
        l ← from_message_loop fuel p false; Some (message_write c ++ l)
      else if c =? 92 then from_message_loop fuel p true
      else l ← from_message_loop fuel p escaped; Some (message_write c ++ l)
  | _, _ => if escaped then None else Some []
  end.

(** All bytes of the text, of which the first [utf8len] are stored and whose
    number is the result; [None] is the result -1. Every turn takes a byte
    at least. *)
Definition sms_utf8_from_message_str (str : list Z) : option (list Z) := from_message_loop (length str) str false.

(** One character read, after a leading byte from 128 on without the byte
    that follows it. *)
Definition message_next (p : list Z) : Z * list Z :=
  match p with
  | [] => (-1, [])
  | c :: p =>
      if 128 <=? c then
        let c := if c .& 0xe0 =? 0xc0 then c .& 0x1f else if c .& 0xf0 =? 0xe0 then c .& 0x0f else c .& 0x07 in
        next_continuation c (tail p)
      else (c, p)
  end.

Definition message_quote (c : Z) : list Z :=
  if c <? 32 then if c =? 10 then [92; 110] else 92 :: 120 :: gsm_hex_from_byte c
  else if c =? 92 then [92; 92]
  else message_write c.

Fixpoint to_message_loop (fuel : nat) (p : list Z) : list Z :=
  match fuel, p with
  | S fuel, _ :: _ => let '(c, p) := message_next p in message_quote c ++ to_message_loop fuel p
  | _, _ => []
  end.

(** The quoted text in a buffer that has room for it and one byte more. *)
Definition sms_utf8_to_message_str (utf8 : list Z) : list Z := to_message_loop (length utf8) utf8.

(** ** Time stamps *)

(** The members of [struct tm] that are used. *)
Record tm := mkTm { tm_sec : Z; tm_min : Z; tm_hour : Z; tm_mday : Z; tm_mon : Z; tm_year : Z; tm_yday : Z }.

(** Quarters of an hour between local time and UTC. *)
Definition tz_quarters (local gm : tm) : Z :=
  let d := (tm_hour local * 4 + Z.quot (tm_min local) 15) - (tm_hour gm * 4 + Z.quot (tm_min gm) 15) in
  if tm_yday gm <? tm_yday local then d + 24 * 4
  else if tm_yday local <? tm_yday gm then d - 24 * 4
  else d.

(** The seven bytes; [local] and [gm] are the present time. *)
Definition sms_timestamp_now (local gm : tm) : list Z :=
  let tzdiff := tz_quarters local gm in
  let tz := gsm_int_to_bcdi (if 0 <=? tzdiff then tzdiff else - tzdiff) in
  [gsm_int_to_bcdi (Z.rem (tm_year local) 100); gsm_int_to_bcdi (tm_mon local + 1); gsm_int_to_bcdi (tm_mday local);
   gsm_int_to_bcdi (tm_hour local); gsm_int_to_bcdi (tm_min local); gsm_int_to_bcdi (tm_sec local);
   if tzdiff <? 0 then tz .| 0x08 else tz].

(** The time zone and the time; [tm_isdst] and [tm_yday] are not computed. *)
Definition sms_timestamp_to_tm (stamp : list Z) : outcome (Z * tm) :=
  match stamp with
  | [d0; d1; d2; d3; d4; d5; d6] =>
      let year := gsm_int_from_bcdi d0 in
      let year := if year <? 50 then year + 100 else year in
      let tzdiff := gsm_int_from_bcdi (d6 .& 0xf7) in
      Ret (if nz (d6 .& 0x8) then - tzdiff else tzdiff,
           mkTm (gsm_int_from_bcdi d5) (gsm_int_from_bcdi d4) (gsm_int_from_bcdi d3) (gsm_int_from_bcdi d2)
             (gsm_int_from_bcdi d1 - 1) year 0)
  | _ => OutOfBounds
  end.

(** ** Addresses *)

Record SmsAddressRec := mkAddr { addr_len : Z; addr_toa : Z; addr_data : list Z }.

(** Digits from [data[pos]], nibble [shift], on; [None] fails. *)
Fixpoint address_digits (src : list Z) (data : list Z) (pos : nat) (shift len : Z) : option (list Z * nat * Z * Z) :=
  match src with
  | [] => Some (data, pos, shift, len)
  | ch :: src =>
      let c := ch - 48 in
      if (10 <=? u32 c) || (SMS_ADDRESS_MAX_SIZE <=? Z.of_nat pos) then None
      else
        let data := alter (fun b => u8 (b .| (c .<< shift))) pos data in
        if shift + 4 =? 8 then address_digits src data (S pos) 0 (len + 1)
        else address_digits src data pos (shift + 4) (len + 1)
  end.

(** The type of address and the digits; a plus sign alone fails. *)
Definition address_type (src : list Z) : option (Z * list Z) :=
  match src with
  | [] => None
  | c :: rest =>
      if c =? 43 then match rest with [] => None | _ => Some (0x91, rest) end else Some (0x81, src)
  end.

(** [None] is the result -1, which leaves an address without digits. *)
Definition sms_address_from_str (src : list Z) : option SmsAddressRec :=
  '(toa, src) ← address_type src;
  '(data, pos, shift, len) ← address_digits src (replicate (Z.to_nat SMS_ADDRESS_MAX_SIZE) 0) 0 0 0;
  let data := if nz shift then alter (fun b => b .| 0xf0) pos data else data in
  Some (mkAddr len toa data).

(** 0123456789*#,N% and the terminating 0. *)
Definition dialdigits : list Z := [48; 49; 50; 51; 52; 53; 54; 55; 56; 57; 42; 35; 44; 78; 37; 0].

(** [if (count < strlen) str[count] = v]. *)
Definition put_within (str : list Z) (count v : Z) : list Z :=
  if count <? Z.of_nat (length str) then <[Z.to_nat count := v]> str else str.

Fixpoint to_str_loop (fuel : nat) (a : SmsAddressRec) (str : list Z) (count n : Z) : outcome (list Z * Z) :=
  match fuel with
  | O => Ret (str, count)
  | S fuel =>
      if n <? addr_len a then
        c ← or_out (addr_data a !! Z.to_nat (Z.quot n 2));
        d0 ← table dialdigits (c .& 0xf);
        let str := put_within str count d0 in
        let count := count + 1 in
        if addr_len a <? n + 1 then Ret (str, count)
        else
          d1 ← table dialdigits ((c .>> 4) .& 0xf);
          let str := put_within str count d1 in
          x ← or_out (str !! Z.to_nat count);
          to_str_loop fuel a str (if nz x then count + 1 else count) (n + 2)
      else Ret (str, count)
  end.

(** [str] is the buffer, of [strlen] bytes; the buffer and the result. *)
Definition sms_address_to_str (a : SmsAddressRec) (str : list Z) : outcome (list Z * Z) :=
  let '(str, count) := if addr_toa a =? 0x91 then (put_within str 0 43, 1) else (str, 0) in
  to_str_loop (S (Z.to_nat (addr_len a))) a str count 0.

(** [memcpy(dst, src, n)] into the start of [dst]. *)
Definition copy_into (dst src : list Z) : list Z := src ++ drop (length src) dst.

(** Whether the result is 0, and the address. *)
Definition sms_address_from_bytes (a : SmsAddressRec) (buf : list Z) : outcome (bool * SmsAddressRec) :=
  match buf with
  | num_digits :: toa :: digits =>
      let a := mkAddr num_digits toa (addr_data a) in
      let len := Z.quot (num_digits + 1) 2 in
      if SMS_ADDRESS_MAX_SIZE <? len then Ret (false, a)
      else if Z.of_nat (length digits) <? len then OutOfBounds
      else Ret (true, mkAddr num_digits toa (copy_into (addr_data a) (take (Z.to_nat len) digits)))
  | _ => Ret (false, a)
  end.

(** The result and what is written at the start of a buffer of [bufsize]
    bytes. *)
Definition sms_address_to_bytes (a : SmsAddressRec) (bufsize : Z) : outcome (Z * list Z) :=
  let len := Z.quot (addr_len a + 1) 2 + 2 in
  if bufsize <? 1 then Ret (len, [])
  else if bufsize <? 2 then Ret (len, [addr_len a])
  else
    let n := if len - 2 <? bufsize - 2 then len - 2 else bufsize - 2 in
    if Z.of_nat (length (addr_data a)) <? n then OutOfBounds
    else Ret (len, addr_len a :: addr_toa a :: take (Z.to_nat n) (addr_data a)).

Definition sms_address_from_hex (a : SmsAddressRec) (hex : list Z) : outcome (bool * SmsAddressRec) :=
  match hex with
  | h0 :: h1 :: h2 :: h3 :: hex =>
      let num_digits := gsm_hex2_to_byte h0 h1 in
      let a := mkAddr (u8 num_digits) (u8 (gsm_hex2_to_byte h2 h3)) (addr_data a) in
      let len := Z.quot (num_digits + 1) 2 in
      if Z.of_nat (length hex) <? len * 2 then Ret (false, a)
      else if Z.of_nat (length (addr_data a)) <? len then OutOfBounds
      else
        let bytes := (fun nn => match hex !! (2 * nn)%nat, hex !! (2 * nn + 1)%nat with
                                | Some a, Some b => u8 (gsm_hex2_to_byte a b)
                                | _, _ => 0
                                end) <$> seq 0 (Z.to_nat len) in
        Ret (true, mkAddr (addr_len a) (addr_toa a) (copy_into (addr_data a) bytes))
  | _ => Ret (false, a)
  end.

(** The result and what is written. The bytes of the number are cut to a
    quarter of the characters they need when there is room for more. *)
Definition sms_address_to_hex (a : SmsAddressRec) (hexlen : Z) : outcome (Z * list Z) :=
  let len := Z.quot (addr_len a + 1) 2 + 2 in
  if hexlen <? 2 then Ret (len * 2, [])
  else if hexlen <? 4 then Ret (len * 2, gsm_hex_from_byte (addr_len a))
  else
    let hexlen := hexlen - 4 in
    let hexlen := if 2 * (len - 2) <? hexlen then Z.quot (len - 2) 2 else hexlen in
    let n := Z.quot (hexlen + 1) 2 in
    if Z.of_nat (length (addr_data a)) <? n then OutOfBounds
    else Ret (len * 2, gsm_hex_from_byte (addr_len a) ++ gsm_hex_from_byte (addr_toa a)
                         ++ gsm_hex_from_bytes (take (Z.to_nat n) (addr_data a))).

(** [memcmp] over as many bytes as there are digits. *)
Definition sms_address_eq (a1 a2 : SmsAddressRec) : outcome bool :=
  if negb (addr_toa a1 =? addr_toa a2) || negb (addr_len a1 =? addr_len a2) then Ret false
  else
    let n := Z.to_nat (addr_len a1) in
    if bool_decide (length (addr_data a1) < n)%nat || bool_decide (length (addr_data a2) < n)%nat then OutOfBounds
    else Ret (bool_decide (take n (addr_data a1) = take n (addr_data a2))).

(** ** The fields of a PDU *)

(** The byte or -1, and the rest. *)
Definition sms_get_byte (cur : list Z) : Z * list Z :=
  match cur with
  | [] => (-1, [])
  | b :: cur => (b, cur)
  end.

(** The loop over the bytes of a service center address: whether it succeeds,
    the data, [dlen] and [adjust]. *)
Fixpoint sc_digits (cur : list Z) (data : list Z) (dlen adjust : Z) : bool * list Z * Z * Z :=
  match cur with
  | [] => (true, data, dlen, adjust)
  | c :: cur =>
      if SMS_ADDRESS_MAX_SIZE <=? dlen then (false, data, dlen, 0)
      else if 0xe <=? c .& 0xf then (true, data, dlen, 0)
      else
        let data := <[Z.to_nat dlen := c]> data in
        if 0xe <=? (c .>> 4) .& 0xf then (true, data, dlen, 1) else sc_digits cur data (dlen + 1) 1
  end.

(** Whether the result is 0, the rest and the address. The rest starts at
    the digits. *)
Definition sms_get_sc_address (cur : list Z) (a : SmsAddressRec) : bool * list Z * SmsAddressRec :=
  match cur with
  | [] => (false, cur, a)
  | len :: cur1 =>
      if len =? 0 then (true, cur1, mkAddr 0 0 (addr_data a))
      else if Z.of_nat (length cur1) <? len then (false, cur, a)
      else
        match cur1 with
        | [] => (false, cur, a)
        | toa :: cur2 =>
            let '(ok, data, dlen, adjust) := sc_digits (take (Z.to_nat (len - 1)) cur2) (addr_data a) 0 0 in
            (ok, if ok : bool then cur2 else cur, mkAddr (u8 (2 * dlen + adjust)) toa data)
        end
  end.

(** The rest, [None] for the result -1. *)
Definition sms_skip_sc_address (cur : list Z) : option (list Z) :=
  match cur with
  | [] => None
  | len :: cur1 => if Z.of_nat (length cur1) <? len then None else Some (drop (Z.to_nat len) cur1)
  end.

Definition sms_get_address (cur : list Z) (a : SmsAddressRec) : bool * list Z * SmsAddressRec :=
  match cur with
  | [] => (false, cur, a)
  | dlen :: cur1 =>
      if dlen =? 0 then (true, cur1, mkAddr 0 0 (addr_data a))
      else
        let len := Z.quot (dlen + 1) 2 in
        if Z.of_nat (length cur1) <? 1 + len then (false, cur, a)
        else
          match cur1 with
          | [] => (false, cur, a)
          | toa :: cur2 =>
              if SMS_ADDRESS_MAX_SIZE <? len then (false, cur, mkAddr dlen toa (addr_data a))
              else (true, drop (Z.to_nat len) cur2,
                    mkAddr dlen toa (copy_into (addr_data a) (take (Z.to_nat len) cur2)))
          end
  end.

(** Whether there is an address; the cursor stays where it is. *)
Definition sms_skip_address (cur : list Z) : bool :=
  match cur with
  | dlen :: _ :: _ => Z.of_nat (length cur) >=? 2 + Z.quot (dlen + 1) 2
  | _ => false
  end.

Definition sms_get_timestamp (cur : list Z) : option (list Z * list Z) :=
  if bool_decide (length cur < 7)%nat then None else Some (take 7 cur, drop 7 cur).

Definition sms_skip_timestamp (cur : list Z) : option (list Z) :=
  if bool_decide (length cur < 7)%nat then None else Some (drop 7 cur).

Definition sms_skip_validity_period (cur : list Z) (mtiByte : Z) : option (list Z) :=
  let n := match (mtiByte .>> 3) .& 3 with 1 => 1%nat | 2 | 3 => 7%nat | _ => 0%nat end in
  if bool_decide (length cur < n)%nat then None else Some (drop n cur).

Inductive SmsCodingScheme := SMS_CODING_SCHEME_UNKNOWN | SMS_CODING_SCHEME_GSM7 | SMS_CODING_SCHEME_UCS2.

Definition coding_of (dataCoding : Z) : SmsCodingScheme :=
  match dataCoding .>> 4 with
  | 0 | 2 | 3 => SMS_CODING_SCHEME_GSM7
  | 1 =>
      if dataCoding =? 0x10 then SMS_CODING_SCHEME_GSM7
      else if dataCoding =? 0x11 then SMS_CODING_SCHEME_UCS2
      else SMS_CODING_SCHEME_UNKNOWN
  | 4 | 5 | 6 | 7 =>
      if nz (dataCoding .& 0x20) then SMS_CODING_SCHEME_UNKNOWN
      else if (dataCoding .>> 2) .& 3 =? 0 then SMS_CODING_SCHEME_GSM7
      else if (dataCoding .>> 2) .& 3 =? 2 then SMS_CODING_SCHEME_UCS2
      else SMS_CODING_SCHEME_UNKNOWN
  | 15 => if negb (nz (dataCoding .& 4)) then SMS_CODING_SCHEME_GSM7 else SMS_CODING_SCHEME_UNKNOWN
  | _ => SMS_CODING_SCHEME_UNKNOWN
  end.

Definition sms_get_coding_scheme (cur : list Z) : SmsCodingScheme * list Z :=
  match cur with
  | [] => (SMS_CODING_SCHEME_UNKNOWN, cur)
  | dataCoding :: cur => (coding_of dataCoding, cur)
  end.

(** ** PDUs *)

(** [tpdu] is an index of [base], [end] its length. *)
Record SmsPDURec := mkPDU { pdu_base : list Z; pdu_tpdu : nat }.

Definition tpdu_bytes (pdu : SmsPDURec) : list Z := drop (pdu_tpdu pdu) (pdu_base pdu).

Inductive SmsPduType := SMS_PDU_INVALID | SMS_PDU_DELIVER | SMS_PDU_SUBMIT | SMS_PDU_STATUS_REPORT.

Definition smspdu_get_type (pdu : SmsPDURec) : SmsPduType :=
  let '(mtiByte, _) := sms_get_byte (tpdu_bytes pdu) in
  match mtiByte .& 3 with
  | 0 => SMS_PDU_DELIVER
  | 1 => SMS_PDU_SUBMIT
  | 2 => SMS_PDU_STATUS_REPORT
  | _ => SMS_PDU_INVALID
  end.

(** Whether the result is 0, and the address. *)
Definition smspdu_get_sender_address (pdu : SmsPDURec) (a : SmsAddressRec) : bool * SmsAddressRec :=
  let '(mtiByte, data) := sms_get_byte (tpdu_bytes pdu) in
  if mtiByte .& 3 =? 0 then let '(ok, _, a) := sms_get_sc_address data a in (ok, a) else (false, a).

(** The time stamp, [None] for -1; [a] is the local address. *)
Definition smspdu_get_sc_timestamp (pdu : SmsPDURec) (a : SmsAddressRec) : option (list Z) :=
  let '(mtiByte, data) := sms_get_byte (tpdu_bytes pdu) in
  if mtiByte .& 3 =? 0 then
    let '(ok, data, _) := sms_get_sc_address data a in
    if ok : bool then fst <$> sms_get_timestamp (drop 2 data) else None
  else None.

Definition smspdu_get_receiver_address (pdu : SmsPDURec) (a : SmsAddressRec) : bool * SmsAddressRec :=
  let '(mtiByte, data) := sms_get_byte (tpdu_bytes pdu) in
  if mtiByte .& 3 =? 1 then let '(ok, _, a) := sms_get_address (drop 1 data) a in (ok, a) else (false, a).

(** The elements of a user data header. An element of length 0 does not move
    the cursor, and each round at it makes the length that is left larger by
    two, until the [int] overflows; see [ref_loop_rounds]. *)
Fixpoint ref_loop (fuel : nat) (data : list Z) (len : Z) : outcome (option (list Z)) :=
  match fuel with
  | O => Ret None
  | S fuel =>
      match data with
      | htype :: hlen :: rest =>
          if len <? 2 then Ret None
          else if (htype =? 0) && (hlen =? 3) && bool_decide (3 <= length rest)%nat then Ret (Some rest)
          else if hlen =? 0 then SignedOverflow
          else ref_loop fuel (drop (Z.to_nat hlen) data) (len - (hlen - 2))
      | _ => Ret None
      end
  end.

(** The bytes from the reference number on, or NULL. *)
Definition smspdu_get_user_data_ref (pdu : SmsPDURec) : outcome (option (list Z)) :=
  let '(mtiByte, data) := sms_get_byte (tpdu_bytes pdu) in
  if mtiByte .& 0x40 =? 0 then Ret None
  else
    let data :=
      match mtiByte .& 3 with
      | 0 => if sms_skip_address data then sms_skip_timestamp (drop 2 data) else None
      | 1 =>
          let data := drop 1 data in
          if sms_skip_address data then sms_skip_validity_period (drop 2 data) mtiByte else None
      | _ => None
      end in
    match data with
    | Some (_ :: len :: data) => ref_loop (S (length data)) data len
    | _ => Ret None
    end.

(** The first, second and third byte of a reference. *)
Definition ref_byte (r : list Z) (i : nat) : outcome Z := or_out (r !! i).

Definition smspdu_get_ref (pdu : SmsPDURec) : outcome Z :=
  r ← smspdu_get_user_data_ref pdu;
  match r with
  | Some r => ref_byte r 0
  | None =>
      let '(mtiByte, data) := sms_get_byte (tpdu_bytes pdu) in
      match data with
      | b :: _ => Ret (if mtiByte .& 3 =? 1 then b else -1)
      | [] => Ret (-1)
      end
  end.

Definition smspdu_get_max_index (pdu : SmsPDURec) : outcome Z :=
  r ← smspdu_get_user_data_ref pdu;
  match r with Some r => ref_byte r 1 | None => Ret 1 end.

Definition smspdu_get_cur_index (pdu : SmsPDURec) : outcome Z :=
  r ← smspdu_get_user_data_ref pdu;
  match r with Some r => c ← ref_byte r 2; Ret (c - 1) | None => Ret 0 end.

Definition smspdu_create_from_hex (hex : list Z) : option SmsPDURec :=
  base ← gsm_hex_to_bytes hex;
  data ← sms_skip_sc_address base;
  Some (mkPDU base (length base - length data)).

(** The result and the characters written. *)
Definition smspdu_to_hex (pdu : SmsPDURec) (hexlen : Z) : Z * list Z :=
  let result := Z.of_nat (length (pdu_base pdu)) * 2 in
  let hexlen := if result <? hexlen then result else hexlen in
  (result, gsm_hex_from_bytes (take (Z.to_nat (Z.quot (hexlen + 1) 2)) (pdu_base pdu))).

Section Pdu.
Context (malloc : Z -> option (list Z)).

(** The result -1 is [None], the rest and the rope otherwise. *)
Definition sms_get_text_utf8 (cur : list Z) (hasUDH : bool) (coding : SmsCodingScheme) (rope : GsmRopeRec) :
    outcome (option (list Z) * GsmRopeRec) :=
  match cur with
  | [] => Ret (None, rope)
  | len :: cur =>
      let header :=
        if hasUDH then
          match cur with
          | [] => None
          | hlen :: cur =>
              if Z.of_nat (length cur) <? hlen then None
              else
                let len := match coding with SMS_CODING_SCHEME_GSM7 => len - 2 * (hlen + 1) | _ => len - (hlen + 1) end in
                if len <? 0 then None else Some (len, drop (Z.to_nat hlen) cur)
          end
        else Some (len, cur) in
      match header with
      | None => Ret (None, rope)
      | Some (len, cur) =>
          match coding with
          | SMS_CODING_SCHEME_GSM7 =>
              text ← utf8_from_gsm7 cur 0 (Z.to_nat len);
              rope ← rope_encode malloc (Z.of_nat (length text)) (fun _ => Ret text) rope;
              Ret (Some (drop (Z.to_nat (Z.quot (len + 1) 2)) cur), rope)
          | SMS_CODING_SCHEME_UCS2 =>
              if Z.of_nat (length cur) <? 2 * Z.quot len 2 then OutOfBounds
              else
                let text := ucs2_to_utf8 (take (Z.to_nat (2 * Z.quot len 2)) cur) in
                rope ← rope_encode malloc (Z.of_nat (length text)) (fun _ => Ret text) rope;
                Ret (Some (drop (Z.to_nat len) cur), rope)
          | SMS_CODING_SCHEME_UNKNOWN => Ret (Some cur, rope)
          end
      end
  end.

(** The collected text: the result and the bytes that are copied to a buffer
    of [utf8len]. *)
Definition take_text (rope : GsmRopeRec) (utf8len : Z) : outcome (option (Z * list Z)) :=
  let result := rope_pos rope in
  let n := if result <? utf8len then result else utf8len in
  if 0 <? n then
    if Z.of_nat (length (rope_bytes rope)) <? n then OutOfBounds
    else Ret (Some (result, take (Z.to_nat n) (rope_bytes rope)))
  else Ret (Some (result, [])).

(** [None] is the result -1. [rope] is what the stack holds: the branch of
    SMS-DELIVER uses it as it is. *)
Definition smspdu_get_text_message (pdu : SmsPDURec) (a : SmsAddressRec) (rope : GsmRopeRec) (utf8len : Z) :
    outcome (option (Z * list Z)) :=
  let '(mtiByte, data) := sms_get_byte (tpdu_bytes pdu) in
  let hasUDH := nz (mtiByte .& 0x40) in
  match mtiByte .& 3 with
  | 0 =>
      let '(ok, data, _) := sms_get_sc_address data a in
      if ok : bool then
        let '(coding, data) := sms_get_coding_scheme (drop 1 data) in
        match coding with
        | SMS_CODING_SCHEME_UNKNOWN => Ret None
        | _ =>
            match sms_get_timestamp data with
            | None => Ret None
            | Some (_, data) =>
                '(r, rope) ← sms_get_text_utf8 data hasUDH coding rope;
                match r with None => Ret None | Some _ => take_text rope utf8len end
            end
        end
      else Ret None
  | 1 =>
      let '(ok, data, _) := sms_get_address (drop 1 data) a in
      if ok : bool then
        let '(coding, data) := sms_get_coding_scheme (drop 1 data) in
        match coding with
        | SMS_CODING_SCHEME_UNKNOWN => Ret None
        | _ =>
            '(r, rope) ← sms_get_text_utf8 data hasUDH coding (gsm_rope_init_alloc malloc rope 0);
            match r with None => Ret None | Some _ => take_text rope utf8len end
        end
      else Ret None
  | _ => Ret None
  end.

(** *** SMS-DELIVER *)

Definition gsm_rope_add_timestamp (ts : list Z) (rope : GsmRopeRec) : outcome GsmRopeRec := gsm_rope_add malloc rope ts.

Definition gsm_rope_add_address (addr : SmsAddressRec) (rope : GsmRopeRec) : outcome GsmRopeRec :=
  rope ← gsm_rope_add_c malloc rope (addr_len addr);
  rope ← gsm_rope_add_c malloc rope (addr_toa addr);
  let n := Z.to_nat (Z.quot (addr_len addr + 1) 2) in
  if bool_decide (length (addr_data addr) < n)%nat then OutOfBounds
  else
    rope ← gsm_rope_add malloc rope (take n (addr_data addr));
    if nz (addr_len addr .& 1) && negb (rope_error rope) then
      match rope_data rope with
      | RopeNull => Ret rope
      | _ =>
          b ← or_out (rope_bytes rope !! Z.to_nat (rope_pos rope - 1));
          rope_store rope (rope_pos rope - 1) [b .| 0xf0]
      end
    else Ret rope.

Definition gsm_rope_add_sms_user_header (ref_number pdu_count pdu_index : Z) (rope : GsmRopeRec) : outcome GsmRopeRec :=
  rope ← gsm_rope_add_c malloc rope 0x05;
  rope ← gsm_rope_add_c malloc rope 0x00;
  rope ← gsm_rope_add_c malloc rope 0x03;
  rope ← gsm_rope_add_c malloc rope (u8 ref_number);
  rope ← gsm_rope_add_c malloc rope (u8 pdu_count);
  gsm_rope_add_c malloc rope (u8 pdu_index + 1).

(** The user data: its length, the header when there are more parts, the
    text. *)
Definition add_gsm7_data (utf8 : list Z) (ref_num pdu_count pdu_index : Z) (rope : GsmRopeRec) : outcome GsmRopeRec :=
  let count := utf8_to_gsm7_count utf8 in
  if MAX_USER_DATA_SEPTETS - USER_DATA_HEADER_SIZE <? count then CpuAbort
  else if 1 <? pdu_count then
    let headerBits := 6 * 8 in
    let headerSeptets := Z.quot headerBits 7 + (if 0 <? Z.rem headerBits 7 then 1 else 0) in
    let pad := headerSeptets * 7 - headerBits in
    rope ← gsm_rope_add_c malloc rope (count + headerSeptets);
    rope ← gsm_rope_add_sms_user_header ref_num pdu_count pdu_index rope;
    rope_encode malloc (Z.quot (count * 7 + pad + 7) 8) (fun dst => fst <$> utf8_to_gsm7 utf8 dst pad) rope
  else
    rope ← gsm_rope_add_c malloc rope count;
    rope_encode malloc (Z.quot (count * 7 + 0 + 7) 8) (fun dst => fst <$> utf8_to_gsm7 utf8 dst 0) rope.

Definition add_ucs2_data (utf8 : list Z) (ref_num pdu_count pdu_index : Z) (rope : GsmRopeRec) : outcome GsmRopeRec :=
  let count := Z.of_nat (length (utf8_to_ucs2 utf8)) `quot` 2 in
  if MAX_USER_DATA_BYTES - USER_DATA_HEADER_SIZE <? count * 2 then CpuAbort
  else
    rope ← (if 1 <? pdu_count then
              rope ← gsm_rope_add_c malloc rope (count * 2 + 6);
              gsm_rope_add_sms_user_header ref_num pdu_count pdu_index rope
            else gsm_rope_add_c malloc rope (count * 2));
    rope_encode malloc (count * 2) (fun _ => Ret (utf8_to_ucs2 utf8)) rope.

Definition gsm_rope_add_sms_deliver_pdu (utf8 : list Z) (use_gsm7 : bool) (sender_address : SmsAddressRec)
    (timestamp : list Z) (ref_num pdu_count pdu_index : Z) (rope : GsmRopeRec) : outcome GsmRopeRec :=
  let mtiByte := if 1 <? pdu_count then 0x20 .| 0x40 else 0x20 in
  rope ← gsm_rope_add_c malloc rope 0;
  rope ← gsm_rope_add_c malloc rope mtiByte;
  rope ← gsm_rope_add_address sender_address rope;
  rope ← gsm_rope_add_c malloc rope 0;
  rope ← gsm_rope_add_c malloc rope (if use_gsm7 then 0x00 else 0x09);
  rope ← gsm_rope_add_timestamp timestamp rope;
  if use_gsm7 then add_gsm7_data utf8 ref_num pdu_count pdu_index rope
  else add_ucs2_data utf8 ref_num pdu_count pdu_index rope.

(** [None] is NULL. [rope] is what the stack holds; memory for the
    descriptor itself is there. *)
Definition smspdu_create_deliver (utf8 : list Z) (use_gsm7 : bool) (sender_address : SmsAddressRec)
    (timestamp : list Z) (ref_num pdu_count pdu_index : Z) (rope : GsmRopeRec) : outcome (option SmsPDURec) :=
  let add := gsm_rope_add_sms_deliver_pdu utf8 use_gsm7 sender_address timestamp ref_num pdu_count pdu_index in
  rope ← add (gsm_rope_init rope);
  if rope_error rope then Ret None
  else
    rope ← add (gsm_rope_init_alloc malloc rope (rope_pos rope));
    match gsm_rope_done_acquire malloc rope with
    | (None, _) => Ret None
    | (Some base, size) => Ret (Some (mkPDU (take (Z.to_nat size) base) 1))
    end.

(** The parts from [nn] on; [todo] are left. *)
Fixpoint create_loop (todo : nat) (src : list Z) (use_gsm7 : bool) (sender_address : SmsAddressRec)
    (timestamp : list Z) (ref_num num_pdus block leftover nn : Z) (rope : GsmRopeRec) : outcome (option (list SmsPDURec)) :=
  match todo with
  | O => Ret (Some [])
  | S todo =>
      let skip := if (0 <? leftover) && (nn =? num_pdus - 1) then leftover else block in
      let src_next := if use_gsm7 then utf8_skip_gsm7 src skip else utf8_skip_ucs2 src skip in
      let utf8 := take (length src - length src_next) src in
      p ← smspdu_create_deliver utf8 use_gsm7 sender_address timestamp ref_num num_pdus nn rope;
      match p with
      | None => Ret None
      | Some p =>
          l ← create_loop todo src_next use_gsm7 sender_address timestamp ref_num num_pdus block leftover (nn + 1) rope;
          Ret (match l with Some l => Some (p :: l) | None => None end)
      end
  end.

(** The list and the static [ref_num] after the call. [timestamp] is the
    argument or, for NULL, the present time. *)
Definition smspdu_create_deliver_utf8 (utf8 : list Z) (sender_address : SmsAddressRec) (timestamp : list Z)
    (ref_num : Z) (rope : GsmRopeRec) : outcome (option (list SmsPDURec) * Z) :=
  let use_gsm7 := utf8_check_gsm7 utf8 in
  let count := if use_gsm7 then utf8_to_gsm7_count utf8 else 2 * (Z.of_nat (length (utf8_to_ucs2 utf8)) `quot` 2) in
  let block := if use_gsm7 then MAX_USER_DATA_SEPTETS - USER_DATA_HEADER_SIZE
               else MAX_USER_DATA_BYTES - USER_DATA_HEADER_SIZE in
  let num_pdus := count `quot` block in
  let leftover := count - num_pdus * block in
  let num_pdus := if 0 <? leftover then num_pdus + 1 else num_pdus in
  l ← create_loop (Z.to_nat num_pdus) utf8 use_gsm7 sender_address timestamp ref_num num_pdus block leftover 0 rope;
  match l with
  | None => Ret (None, ref_num)
  | Some l => Ret (Some l, u8 (ref_num + 1))
  end.

End Pdu.

(** *** Into the modem *)

(** The header of an unsolicited message, [+CMT: 0] and a line end. *)
Definition SMS_UNSOL_HEADER : list Z := [43; 67; 77; 84; 58; 32; 48; 13; 10].

(** [sizeof(modem->out_buff)]. *)
Definition OUT_BUFF_SIZE : Z := 1024.

(** The text given to the unsolicited callback, if any. *)
Definition amodem_receive_sms (unsol_func : bool) (sms : SmsPDURec) : list (list Z) :=
  if unsol_func then
    let max := OUT_BUFF_SIZE - 3 - Z.of_nat (length SMS_UNSOL_HEADER) in
    let '(len, hex) := smspdu_to_hex sms max in
    if max <? len then [] else [SMS_UNSOL_HEADER ++ hex ++ [13; 10]]
  else [].

#[local] Ltac Zify.zify_post_hook ::= Z.div_mod_to_equations.

(** ** Header elements *)

(** The rounds of the loop one by one, with the range of [int]; [None] when
    the fuel ends first. *)
Fixpoint ref_rounds (fuel : nat) (data : list Z) (len : Z) : option (outcome (option (list Z))) :=
  match fuel with
  | O => None
  | S fuel =>
      match data with
      | htype :: hlen :: rest =>
          if len <? 2 then Some (Ret None)
          else if (htype =? 0) && (hlen =? 3) && bool_decide (3 <= length rest)%nat then Some (Ret (Some rest))
          else
            let len := len - (hlen - 2) in
            if len <? 2 ^ 31 then ref_rounds fuel (drop (Z.to_nat hlen) data) len else Some SignedOverflow
      | _ => Some (Ret None)
      end
  end.

Lemma zero_element_rounds htype rest (k : nat) : forall len, 2 <= len < 2 ^ 31 -> 2 ^ 31 <= len + 2 * Z.of_nat (S k) ->
  forall fuel, (k < fuel)%nat -> ref_rounds fuel (htype :: 0 :: rest) len = Some SignedOverflow.
Proof.
  induction k as [|k IH]; intros len Hl Hk [|fuel] Hf; try lia; cbn [ref_rounds];
    rewrite (proj2 (Z.ltb_ge _ _)), andb_false_r by lia; cbn [andb Z.to_nat drop].
  - by rewrite (proj2 (Z.ltb_ge _ _)) by lia.
  - destruct (Z.ltb_spec (len - (0 - 2)) (2 ^ 31)); [|done]. apply IH; lia.
Qed.

(** The loop does what its rounds do. *)
Lemma ref_loop_rounds fuel data len : Forall (in_u 8) data -> (length data < fuel)%nat -> len + Z.of_nat (length data) < 2 ^ 31 ->
  exists n, forall fuel', (n <= fuel')%nat -> ref_rounds fuel' data len = Some (ref_loop fuel data len).
Proof.
  revert data len. induction fuel as [|fuel IH]; intros data len Hd Hf Hl; [lia|].
  destruct data as [|htype [|hlen rest]]; [by exists 1%nat; intros []; [lia|]..|].
  inversion Hd as [|? ? _ Hd']; inversion Hd' as [|? ? Hh _]; subst. unfold in_u in Hh. cbn [length] in Hf, Hl.
  destruct (Z.ltb_spec len 2) as [Hlen|Hlen].
  { exists 1%nat. intros [|fuel'] Hf'; [lia|]. cbn [ref_loop ref_rounds]. by rewrite (proj2 (Z.ltb_lt _ _)). }
  destruct ((htype =? 0) && (hlen =? 3) && bool_decide (3 <= length rest)%nat) eqn:E.
  { exists 1%nat. intros [|fuel'] Hf'; [lia|]. cbn [ref_loop ref_rounds]. by rewrite (proj2 (Z.ltb_ge _ _)), E. }
  destruct (decide (hlen = 0)) as [->|Hne].
  { exists (S (Z.to_nat (2 ^ 31))). intros fuel' Hf'.
    rewrite (zero_element_rounds htype rest (Z.to_nat (2 ^ 31))) by lia.
    cbn [ref_loop]. by rewrite (proj2 (Z.ltb_ge _ _)), E. }
  destruct (IH (drop (Z.to_nat hlen) (htype :: hlen :: rest)) (len - (hlen - 2))) as [n Hn];
    [by apply Forall_drop|rewrite length_drop; cbn [length]; lia|rewrite length_drop; cbn [length]; lia|].
  exists (S n). intros [|fuel'] Hf'; [lia|]. cbn [ref_loop ref_rounds].
  rewrite (proj2 (Z.ltb_ge _ _)), E, (proj2 (Z.eqb_neq _ _)), (proj2 (Z.ltb_lt _ _)) by lia. apply Hn. lia.
Qed.

(** ** Message texts *)

Lemma next_continuation_app c l c' l' : next_continuation c l = (c', l') ->
  boundary l' /\ exists a, l = a ++ l' /\ forall x, boundary x -> next_continuation c (a ++ x) = (c', x).
Proof.
  revert c. induction l as [|b l IH]; intros c; cbn [next_continuation].
  { intros [= <- <-]. split; [done|]. exists []. split; [done|]. intros x. apply next_boundary. }
  destruct (is_continuation b) eqn:E.
  - intros H. destruct (IH _ H) as (Hb & a & -> & Ha). split; [done|]. exists (b :: a). split; [done|].
    intros x Hx. cbn [app next_continuation]. rewrite E. by apply Ha.
  - intros [= <- <-]. split; [by cbn|]. exists []. split; [done|]. intros x. apply next_boundary.
Qed.

(** The bytes of a character do not depend on where the text behind it is
    cut. *)
Lemma utf8_next_prefix l c l' : l <> [] -> utf8_next l = (c, l') ->
  exists a, l = a ++ l' /\ a <> [] /\ forall p q, l' = p ++ q -> utf8_next (a ++ p) = (c, p).
Proof.
  intros Hne. destruct l as [|b l]; [done|]. cbn [utf8_next]. destruct (Z.leb_spec 128 b) as [Hb|Hb].
  - intros H. destruct (next_continuation_app _ _ _ _ H) as (Hl & a & -> & Ha). exists (b :: a). split_and!; [done|done|].
    intros p q ->. cbn [app utf8_next]. rewrite (proj2 (Z.leb_le _ _) Hb). apply Ha. by destruct p.
  - intros [= <- <-]. exists [b]. split_and!; [done|done|]. intros p q _. cbn [app utf8_next].
    by rewrite (proj2 (Z.leb_gt _ _) Hb).
Qed.

(** One step of the decoder. *)
Lemma utf8_points_fuel_enough f1 f2 l : (length l <= f1)%nat -> (length l <= f2)%nat ->
  utf8_points_fuel f1 l = utf8_points_fuel f2 l.
Proof.
  revert f2 l. induction f1 as [|f1 IH]; intros f2 l H1 H2.
  { destruct l; [by destruct f2|simpl in H1; lia]. }
  destruct l as [|b l]; [by destruct f2|]. destruct f2 as [|f2]; [simpl in H2; lia|].
  cbn [utf8_points_fuel]. destruct (utf8_next (b :: l)) as [c l'] eqn:E.
  destruct (utf8_next_prefix (b :: l) c l' ltac:(done) E) as (a & Ha & Hne & _).
  assert (length l' < length (b :: l))%nat by (rewrite Ha, length_app; destruct a; [done|simpl; lia]).
  f_equal. apply IH; simpl in *; lia.
Qed.

Lemma utf8_points_step l c l' : l <> [] -> utf8_next l = (c, l') -> utf8_points l = c :: utf8_points l'.
Proof.
  intros Hne E. destruct (utf8_next_prefix _ _ _ Hne E) as (a & Ha & Hna & _).
  assert (length l' < length l)%nat by (rewrite Ha, length_app; destruct a; [done|simpl; lia]).
  unfold utf8_points at 1. destruct l as [|b l]; [done|]. cbn [length utf8_points_fuel]. rewrite E.
  f_equal. apply utf8_points_fuel_enough; simpl in *; lia.
Qed.

Lemma message_next_write c l : 0 <= c < 0x10000 -> boundary l ->
  utf8_next (message_write c ++ l) = (c, l) /\ message_write c <> [] /\ boundary (message_write c ++ l).
Proof.
  intros Hc Hl. unfold message_write. change 0x1f with (Z.ones 5). change 0xf with (Z.ones 4). rewrite !Z.land_ones by lia.
  destruct (Z.ltb_spec c 128); [|destruct (Z.ltb_spec c 0x800)]; cbn [app]; rewrite ?land_3f, ?Z.shiftr_div_pow2 by lia;
    change (2 ^ 6) with 64; change (2 ^ 12) with (64 * 64); (split_and!; [|done|]).
  - rewrite wrap_small by (unfold in_u; lia). cbn. by rewrite (proj2 (Z.leb_gt _ _)) by done.
  - cbn [boundary]. apply negb_true_iff, (forall_below 128 (fun v => negb (is_continuation (u8 v))) ltac:(by vm_compute) c). lia.
  - rewrite leading2 by lia. rewrite next_byte by lia. rewrite next_boundary by done. f_equal. lia.
  - cbn [boundary]. apply negb_true_iff, (forall_below 32 (fun a => negb (is_continuation (u8 (0xc0 .| a)))) ltac:(by vm_compute)). lia.
  - rewrite leading2 by lia. rewrite !next_byte by lia. rewrite next_boundary by done. f_equal. lia.
  - cbn [boundary]. apply negb_true_iff, (forall_below 32 (fun a => negb (is_continuation (u8 (0xc0 .| a)))) ltac:(by vm_compute)). lia.
Qed.

Definition bmp_point (c : Z) : Prop := 0 <= c < 0x10000.

(** The bytes the un-quoted text consists of. *)
Definition message_bytes (cs : list Z) : list Z := concat (message_write <$> cs).

Lemma message_bytes_boundary cs : Forall bmp_point cs -> boundary (message_bytes cs).
Proof. induction 1 as [|c cs Hc _ IH]; [done|]. by apply message_next_write. Qed.

Lemma utf8_points_message cs : Forall bmp_point cs -> utf8_points (message_bytes cs) = cs.
Proof.
  induction 1 as [|c cs Hc Hcs IH]; [done|]. change (message_bytes (c :: cs)) with (message_write c ++ message_bytes cs).
  destruct (message_next_write c (message_bytes cs) Hc (message_bytes_boundary cs Hcs)) as (E & Hne & _).
  rewrite (utf8_points_step _ c (message_bytes cs)); [by rewrite IH| |done]. by destruct (message_write c).
Qed.

(** A character as a user types it: a backslash doubled, a line feed as
    backslash n, others as they are. *)
Definition quote_point (c : Z) : list Z :=
  if c =? 92 then [92; 92] else if c =? 10 then [92; 110] else utf8_write c.
Definition quote_text (cs : list Z) : list Z := concat (quote_point <$> cs).

Lemma quote_text_boundary cs : Forall bmp_point cs -> boundary (quote_text cs).
Proof.
  destruct 1 as [|c cs Hc Hcs]; [done|]. cbn. unfold quote_point. destruct (c =? 92); [done|]. destruct (c =? 10); [done|].
  apply utf8_write_boundary. unfold bmp_point, point_ok in *. lia.
Qed.

Lemma from_message_quoted cs fuel : Forall bmp_point cs -> (length (quote_text cs) <= fuel)%nat ->
  from_message_loop fuel (quote_text cs) false = Some (message_bytes cs).
Proof.
  intros Hcs. revert fuel. induction Hcs as [|c cs Hc Hcs IH]; intros fuel Hf; [by destruct fuel|].
  change (quote_text (c :: cs)) with (quote_point c ++ quote_text cs) in *.
  change (message_bytes (c :: cs)) with (message_write c ++ message_bytes cs).
  rewrite length_app in Hf. unfold quote_point in *.
  destruct (Z.eqb_spec c 92) as [->|H92]; [|destruct (Z.eqb_spec c 10) as [->|H10]].
  1, 2: destruct fuel as [|[|fuel]]; simpl in Hf; try lia; cbn; by rewrite IH by lia.
  assert (point_ok c) as Hp by (unfold bmp_point, point_ok in *; lia).
  pose proof (utf8_next_write c _ Hp (quote_text_boundary cs Hcs)) as Hn.
  destruct (utf8_write_boundary c [] Hp) as [_ Hlen]. destruct fuel as [|fuel]; [lia|].
  destruct (utf8_write c ++ quote_text cs) as [|b l] eqn:E.
  { apply (f_equal length) in E. rewrite length_app in E. simpl in E. lia. }
  cbn [from_message_loop]. rewrite Hn, (proj2 (Z.eqb_neq _ _) H92). by rewrite IH by lia.
Qed.

(** The text a user types on the console is the text that is sent: a
    text quoted with the escapes of the console is accepted, and the bytes
    that come out read as its characters, up to U+FFFF. The bytes of a
    character from U+0800 on are not UTF-8, but the reader of the modem takes
    them as the same character. *)
Theorem message_text_read cs : Forall bmp_point cs ->
  exists text, sms_utf8_from_message_str (quote_text cs) = Some text /\ utf8_points text = cs.
Proof.
  intros Hcs. exists (message_bytes cs). split; [by apply from_message_quoted|by apply utf8_points_message].
Qed.

Lemma message_text_read_witness :
  exists text, sms_utf8_from_message_str [65; 92; 110; 0xe2; 0x82; 0xac; 92; 92] = Some text /\ utf8_points text = [65; 10; 0x20ac; 92].
Proof. apply (message_text_read [65; 10; 0x20ac; 92]). repeat constructor; unfold bmp_point; lia. Defined.

(** ... but not UTF-8. *)
Lemma message_text_not_utf8 c : 0x800 <= c < 0x10000 ->
  exists text, sms_utf8_from_message_str (utf8_write c) = Some text /\ utf8_check text = false.
Proof.
  intros Hc. exists (message_bytes [c]). split.
  { rewrite <- (from_message_quoted [c] (length (quote_text [c]))); [|repeat constructor; unfold bmp_point; lia|done].
    unfold sms_utf8_from_message_str. unfold quote_text. cbn. unfold quote_point.
    rewrite (proj2 (Z.eqb_neq c 92)), (proj2 (Z.eqb_neq c 10)) by lia. by rewrite app_nil_r. }
  unfold message_bytes. cbn. rewrite app_nil_r. unfold message_write. rewrite (proj2 (Z.ltb_ge c 128)), (proj2 (Z.ltb_ge c 0x800)) by lia.
  change 0xf with (Z.ones 4). rewrite Z.land_ones, !land_3f by lia. unfold utf8_check. cbn [length utf8_check_fuel].
  pose proof (forall_below 16 (fun a => let b := u8 (0xc0 .| a) in (128 <=? b) && (b .& 0xe0 =? 0xc0)) ltac:(by vm_compute)
      ((c .>> 12) mod 2 ^ 4) ltac:(lia)) as [-> ->]%andb_true_iff. rewrite bool_decide_eq_false_2 by (simpl; lia).
  cbn [take drop forallb utf8_check_fuel].
  pose proof (forall_below 64 (fun a => let b := u8 (0x80 .| a) in (128 <=? b) && (negb (b .& 0xe0 =? 0xc0)
    && (negb (b .& 0xf0 =? 0xe0) && negb (b .& 0xf8 =? 0xf0)))) ltac:(by vm_compute) (c mod 64) ltac:(lia))
    as [-> [->%negb_true_iff [->%negb_true_iff ->%negb_true_iff]%andb_true_iff]%andb_true_iff]%andb_true_iff.
  by rewrite andb_false_r.
Qed.

(** ** Addresses *)

(** A number as 3GPP 23.040 stores it: two digits to a byte, the first in
    the low half, a last single one with 0xf. *)
Fixpoint semi_octets (ds : list Z) : list Z :=
  match ds with
  | a :: b :: ds => a + 16 * b :: semi_octets ds
  | [a] => [a + 0xf0]
  | [] => []
  end.

Definition digit_ok (d : Z) : Prop := 0 <= d < 10.
Definition ascii_digits (ds : list Z) : list Z := Z.add 48 <$> ds.

(** Induction by pairs of digits. *)
Lemma pairs_ind {A} (P : list A -> Prop) :
  P [] -> (forall a, P [a]) -> (forall a b l, P l -> P (a :: b :: l)) -> forall l, P l.
Proof.
  intros H0 H1 H2 l. enough (P l /\ forall a, P (a :: l)) as [H _] by done.
  induction l as [|x l [IH1 IH2]]; [done|]. split; [done|]. intros a. by apply H2.
Qed.

Lemma length_semi_octets ds : Z.of_nat (length (semi_octets ds)) = Z.quot (Z.of_nat (length ds) + 1) 2.
Proof.
  rewrite Z.quot_div_nonneg by lia. induction ds as [|a|a b ds IH] using pairs_ind; [done|done|]. cbn [semi_octets length]. lia.
Qed.

Lemma at_length {A} (f : A -> A) l1 x l2 : alter f (length l1) (l1 ++ x :: l2) = l1 ++ f x :: l2.
Proof. replace (length l1) with (length l1 + 0)%nat by lia. by rewrite alter_app_r. Qed.

Lemma digit_bytes a b : digit_ok a -> digit_ok b ->
  u8 (0 .| (a .<< 0)) = a /\ u8 (a .| (b .<< 4)) = a + 16 * b /\ a .| 0xf0 = a + 0xf0.
Proof.
  intros Ha Hb. unfold digit_ok in *. rewrite Z.lor_0_l, Z.shiftl_0_r. split_and!.
  - apply wrap_small. unfold in_u. lia.
  - rewrite Z.lor_comm, append_bits by lia. rewrite wrap_small by (unfold in_u; lia). lia.
  - pose proof (forall_below 10 (fun a => a .| 0xf0 =? a + 0xf0) ltac:(by vm_compute) a Ha) as H. by apply Z.eqb_eq in H.
Qed.

Lemma address_digits_spec ds : forall pre k len, Forall digit_ok ds -> (length pre + k = 16)%nat -> (length ds <= 2 * k)%nat ->
  exists data pos shift, address_digits (ascii_digits ds) (pre ++ replicate k 0) (length pre) 0 len
      = Some (data, pos, shift, len + Z.of_nat (length ds))
    /\ (if nz shift then alter (fun b => b .| 0xf0) pos data else data)
       = pre ++ semi_octets ds ++ replicate (k - length (semi_octets ds)) 0.
Proof.
  induction ds as [|a|a b ds IH] using pairs_ind; intros pre k len Hds Hk Hl.
  - exists (pre ++ replicate k 0), (length pre), 0. split; [cbn; repeat f_equal; lia|]. cbn. by rewrite Nat.sub_0_r.
  - apply Forall_cons in Hds as [Ha _]. destruct k as [|k]; [simpl in Hl; lia|].
    destruct (digit_bytes a 0 Ha ltac:(unfold digit_ok; lia)) as (E1 & _ & E2). unfold digit_ok in Ha.
    cbn [ascii_digits fmap list_fmap address_digits]. replace (48 + a - 48) with a by lia.
    rewrite wrap_small by (unfold in_u; lia). rewrite (proj2 (Z.leb_gt 10 a)), (proj2 (Z.leb_gt _ _)) by (unfold SMS_ADDRESS_MAX_SIZE; lia).
    cbn [orb replicate]. rewrite at_length, E1. exists (pre ++ a :: replicate k 0), (length pre), 4. split; [done|].
    cbn. rewrite Nat.sub_0_r. rewrite (at_length (fun b => b .| 0xf0)), E2. done.
  - apply Forall_cons in Hds as [Ha Hds]. apply Forall_cons in Hds as [Hb Hds].
    destruct k as [|k]; [simpl in Hl; lia|]. destruct (digit_bytes a b Ha Hb) as (E1 & E2 & _). unfold digit_ok in Ha, Hb.
    cbn [ascii_digits fmap list_fmap address_digits]. replace (48 + a - 48) with a by lia. replace (48 + b - 48) with b by lia.
    rewrite !wrap_small by (unfold in_u; lia).
    rewrite (proj2 (Z.leb_gt 10 a)), (proj2 (Z.leb_gt 10 b)), !(proj2 (Z.leb_gt _ _)) by (unfold SMS_ADDRESS_MAX_SIZE; lia).
    cbn [orb replicate]. rewrite !at_length, E1. change (0 + 4) with 4. rewrite E2. cbn [Z.eqb Z.add Pos.add Pos.succ Pos.eqb].
    destruct (IH (pre ++ [a + 16 * b]) k (len + 1 + 1) Hds) as (data & pos & shift & E & Hd);
      [rewrite length_app; simpl; lia|simpl in Hl; lia|].
    rewrite length_app, <- app_assoc in E. cbn in E. rewrite Nat.add_1_r in E. exists data, pos, shift.
    unfold ascii_digits in E. split.
    + rewrite E. by replace (len + Z.of_nat (length (a :: b :: ds))) with (len + 1 + 1 + Z.of_nat (length ds)) by (cbn [length]; lia).
    + rewrite Hd, <- app_assoc. by cbn.
Qed.

Lemma address_from_digits (plus : bool) ds : Forall digit_ok ds -> (1 <= length ds <= 32)%nat ->
  sms_address_from_str ((if plus then [43] else []) ++ ascii_digits ds)
  = Some (mkAddr (Z.of_nat (length ds)) (if plus then 0x91 else 0x81)
      (semi_octets ds ++ replicate (16 - length (semi_octets ds)) 0)).
Proof.
  intros Hds Hl. destruct (address_digits_spec ds [] 16 0 Hds) as (data & pos & shift & E & Hd); [done|lia|].
  unfold sms_address_from_str. destruct ds as [|d ds]; [simpl in Hl; lia|].
  apply Forall_cons in Hds as [Hd0 _]. unfold digit_ok in Hd0.
  assert (address_type ((if plus then [43] else []) ++ ascii_digits (d :: ds))
          = Some (if plus then 0x91 else 0x81, ascii_digits (d :: ds))) as ->.
  { destruct plus; cbn; [done|]. by rewrite (proj2 (Z.eqb_neq (48 + d) 43)) by lia. }
  cbn [mbind option_bind app length] in *. unfold SMS_ADDRESS_MAX_SIZE. cbn [Z.to_nat Pos.to_nat Pos.iter_op Nat.add] in *.
  change (Z.to_nat 16) with 16%nat. rewrite E. cbn. by rewrite Hd.
Qed.

(** Writing behind what was written. *)
Lemma put_within_next written x rest v :
  put_within (written ++ x :: rest) (Z.of_nat (length written)) v = written ++ v :: rest.
Proof.
  unfold put_within. rewrite length_app, (proj2 (Z.ltb_lt _ _)) by (simpl; lia). rewrite Nat2Z.id.
  replace (length written) with (length written + 0)%nat by lia. by rewrite insert_app_r.
Qed.

Lemma dial_digit d : digit_ok d -> table dialdigits d = Ret (48 + d).
Proof. intros Hd. unfold digit_ok in Hd. assert (d = 0 \/ d = 1 \/ d = 2 \/ d = 3 \/ d = 4 \/ d = 5 \/ d = 6 \/ d = 7 \/ d = 8 \/ d = 9) as H by lia. by destruct_or! H; subst. Qed.

(** The halves of a byte of two digits, and of the last one of an odd
    number. *)
Lemma digit_halves a b : digit_ok a -> digit_ok b ->
  (a + 16 * b) .& 0xf = a /\ ((a + 16 * b) .>> 4) .& 0xf = b /\ (a + 0xf0) .& 0xf = a /\ ((a + 0xf0) .>> 4) .& 0xf = 15.
Proof.
  intros Ha Hb. unfold digit_ok in *. change 0xf with (Z.ones 4). rewrite !Z.land_ones, !Z.shiftr_div_pow2 by lia.
  change (2 ^ 4) with 16. change (Z.ones 4) with 15. lia.
Qed.

Lemma to_str_digits ds : forall fuel a pre post written rest,
  Forall digit_ok ds -> (length ds < fuel)%nat -> (length ds < length rest)%nat ->
  addr_data a = pre ++ semi_octets ds ++ post -> addr_len a = Z.of_nat (2 * length pre + length ds) ->
  exists rest', to_str_loop fuel a (written ++ rest) (Z.of_nat (length written)) (Z.of_nat (2 * length pre))
      = Ret (written ++ ascii_digits ds ++ rest', Z.of_nat (length written + length ds)).
Proof.
  induction ds as [|d|d0 d1 ds IH] using pairs_ind; intros fuel a pre post written rest Hds Hf Hr Hdata Hlen;
    (destruct fuel as [|fuel]; [lia|]); cbn [to_str_loop]; rewrite Hlen.
  - rewrite (proj2 (Z.ltb_ge _ _)) by (simpl; lia). exists rest. cbn. by rewrite Nat.add_0_r.
  - rewrite (proj2 (Z.ltb_lt _ _)) by (simpl; lia). apply Forall_cons in Hds as [Hd _].
    replace (Z.to_nat (Z.quot (Z.of_nat (2 * length pre)) 2)) with (length pre) by (rewrite Z.quot_div_nonneg by lia; lia).
    rewrite Hdata. cbn [semi_octets app]. rewrite list_lookup_middle by done. cbn [or_out mbind outcome_bind].
    destruct (digit_halves d 0 Hd ltac:(unfold digit_ok; lia)) as (_ & _ & -> & ->). rewrite (dial_digit d Hd).
    cbn [mbind outcome_bind]. rewrite (proj2 (Z.ltb_ge _ _)) by (simpl; lia).
    change (table dialdigits 15) with (@Ret Z 0). cbn [mbind outcome_bind].
    destruct rest as [|x [|y rest]]; simpl in Hr; try lia. rewrite put_within_next.
    replace (Z.of_nat (length written) + 1) with (Z.of_nat (length (written ++ [48 + d]))) by (rewrite length_app; simpl; lia).
    change (written ++ (48 + d) :: y :: rest) with (written ++ [48 + d] ++ y :: rest). rewrite app_assoc, put_within_next.
    rewrite Nat2Z.id, list_lookup_middle by done. cbn. exists (0 :: rest).
    rewrite length_app, <- app_assoc. cbn. destruct fuel as [|fuel]; [done|]. cbn [to_str_loop]. rewrite Hlen.
    by rewrite (proj2 (Z.ltb_ge _ _)) by (simpl; lia).
  - rewrite (proj2 (Z.ltb_lt _ _)) by (simpl; lia). apply Forall_cons in Hds as [H0 Hds]. apply Forall_cons in Hds as [H1 Hds].
    replace (Z.to_nat (Z.quot (Z.of_nat (2 * length pre)) 2)) with (length pre) by (rewrite Z.quot_div_nonneg by lia; lia).
    rewrite Hdata. cbn [semi_octets app]. rewrite list_lookup_middle by done. cbn [or_out mbind outcome_bind].
    destruct (digit_halves d0 d1 H0 H1) as (-> & -> & _). rewrite (dial_digit d0 H0), (dial_digit d1 H1). cbn [mbind outcome_bind].
    rewrite (proj2 (Z.ltb_ge _ _)) by (simpl; lia). cbn [mbind outcome_bind].
    destruct rest as [|x [|y rest]]; simpl in Hr; try lia. rewrite put_within_next.
    replace (Z.of_nat (length written) + 1) with (Z.of_nat (length (written ++ [48 + d0]))) by (rewrite length_app; simpl; lia).
    change (written ++ (48 + d0) :: y :: rest) with (written ++ [48 + d0] ++ y :: rest). rewrite app_assoc, put_within_next.
    rewrite Nat2Z.id, list_lookup_middle by done. cbn [or_out mbind outcome_bind].
    unfold digit_ok in H1. assert (nz (48 + d1) = true) as -> by (apply nz_true; lia).
    destruct (IH fuel a (pre ++ [d0 + 16 * d1]) post (written ++ [48 + d0] ++ [48 + d1]) rest) as (rest' & E);
      [done|simpl in Hf; lia|lia|rewrite Hdata, <- app_assoc; done|rewrite Hlen, length_app; simpl; lia|].
    exists rest'. rewrite !length_app in E. cbn [length] in E.
    rewrite <- !app_assoc in E |- *. cbn [app] in *. rewrite length_app. cbn [length].
    replace (Z.of_nat (length written + 1) + 1) with (Z.of_nat (length written + (1 + 1))) by lia.
    replace (Z.of_nat (2 * length pre) + 2) with (Z.of_nat (2 * (length pre + 1))) by lia.
    rewrite E, <- app_assoc. by replace (length written + (1 + 1) + length ds)%nat with (length written + S (S (length ds)))%nat by lia.
Qed.

(** A phone number survives: of up to 32 digits with or without a plus
    sign, it is stored as 3GPP 23.040 has it and printed again as it was, in
    any buffer with room for it and its end. *)
Theorem address_roundtrip (plus : bool) ds buf : Forall digit_ok ds -> (1 <= length ds <= 32)%nat ->
  let str := (if plus then [43] else []) ++ ascii_digits ds in
  (length str < length buf)%nat ->
  exists a rest, sms_address_from_str str = Some a
    /\ sms_address_to_str a buf = Ret (str ++ rest, Z.of_nat (length str))
    /\ addr_len a = Z.of_nat (length ds) /\ take (length (semi_octets ds)) (addr_data a) = semi_octets ds.
Proof.
  intros Hds Hl str Hb. unfold str. rewrite address_from_digits by done. set (a := mkAddr _ _ _). exists a.
  assert (length (ascii_digits ds) = length ds) as Hal by apply length_fmap.
  unfold str in Hb. rewrite length_app in Hb.
  destruct (to_str_digits ds (S (length ds)) a [] (replicate (16 - length (semi_octets ds)) 0)
    (if plus then [43] else []) (if plus then tail buf else buf)) as (rest & E);
    [done|lia| |done|done|].
  { destruct plus; [|simpl in *; lia]. destruct buf; simpl in *; lia. }
  exists rest. split_and!; [done| |done|cbn; by rewrite take_app_length].
  unfold sms_address_to_str. change (addr_len a) with (Z.of_nat (length ds)).
  change (addr_toa a) with (if plus then 0x91 else 0x81).
  rewrite Nat2Z.id. change (Z.of_nat (2 * length [])) with 0 in E. rewrite length_app, Hal, <- app_assoc.
  destruct plus; [|exact E]. destruct buf as [|x buf]; [simpl in Hb; lia|]. exact E.
Qed.

Lemma address_roundtrip_witness :
  exists a rest, sms_address_from_str [43; 49; 53; 53; 48] = Some a
    /\ sms_address_to_str a (replicate 16 0) = Ret ([43; 49; 53; 53; 48] ++ rest, 5)
    /\ addr_len a = 4 /\ take 2 (addr_data a) = [0x51; 0x05].
Proof.
  apply (address_roundtrip true [1; 5; 5; 0] (replicate 16 0)); [|simpl; lia|simpl; lia].
  repeat constructor; unfold digit_ok; lia.
Defined.

(** ** PDUs in hexadecimal *)

(** A PDU as [smspdu_create_from_hex] makes it. *)
Definition pdu_ok (pdu : SmsPDURec) : Prop :=
  Forall (in_u 8) (pdu_base pdu) /\ (pdu_tpdu pdu <= length (pdu_base pdu))%nat
  /\ sms_skip_sc_address (pdu_base pdu) = Some (tpdu_bytes pdu).

(** Reading what was printed with room enough. *)
Lemma pdu_hex_roundtrip pdu hexlen : pdu_ok pdu -> 2 * Z.of_nat (length (pdu_base pdu)) <= hexlen ->
  smspdu_create_from_hex (smspdu_to_hex pdu hexlen).2 = Some pdu.
Proof.
  intros (Hb & Ht & Hs) Hl. destruct pdu as [base tp]. unfold smspdu_to_hex, smspdu_create_from_hex. cbn [pdu_base snd fst].
  assert (Z.to_nat (Z.quot ((if Z.of_nat (length base) * 2 <? hexlen then Z.of_nat (length base) * 2 else hexlen) + 1) 2)
          = length base) as ->.
  { cbn in *. destruct (Z.ltb_spec (Z.of_nat (length base) * 2) hexlen); rewrite Z.quot_div_nonneg by lia; lia. }
  rewrite take_ge by done. destruct (hex_read_back base Hb) as [-> _]. cbn [mbind option_bind].
  cbn [pdu_base] in Hs. rewrite Hs. cbn [mbind option_bind]. unfold tpdu_bytes in *. cbn in *. rewrite length_drop.
  do 2 f_equal. lia.
Qed.
