(* ===== verification/SmsDeliver.v ===== *)
(** Messages on their way to the guest: what a phone makes of the SMS-DELIVER
    PDUs of telephony/sms.c, by a decoder written after 3GPP 23.040 and
    23.038, and the division of a text into parts. *)
From S2P Require Import Prelude GsmText GsmRope SmsPdu.
Open Scope list_scope.
#[local] Ltac Zify.zify_post_hook ::= Z.div_mod_to_equations.

(** ** The decoder of a phone *)

(** The seven bits from bit [b] on. *)
Definition septet_value (l : list Z) (b : Z) : Z :=
  foldr (fun j v => Z.b2z (sbit l (b + j)) + 2 * v) 0 (seqZ 0 7).

(** Septets as characters: one after an escape is of the extension table. *)
Fixpoint read_alphabet (ss : list Z) : option (list Z) :=
  match ss with
  | [] => Some []
  | s :: ss =>
      if s =? GSM_7BITS_ESCAPE then
        match ss with
        | [] => None
        | e :: ss => c ← gsm7bits_extend_to_unicode !! Z.to_nat e; l ← read_alphabet ss; Some (c :: l)
        end
      else c ← gsm7bits_to_unicode !! Z.to_nat s; l ← read_alphabet ss; Some (c :: l)
  end.

Fixpoint read_ucs2 (l : list Z) : list Z :=
  match l with
  | a :: b :: l => a * 256 + b :: read_ucs2 l
  | _ => []
  end.

(** The concatenation element of a user data header. *)
Fixpoint find_concat (fuel : nat) (h : list Z) : option (Z * Z * Z) :=
  match fuel, h with
  | S fuel, iei :: iel :: rest =>
      if (iei =? 0) && (iel =? 3) then
        match rest with r :: m :: s :: _ => Some (r, m, s) | _ => None end
      else find_concat fuel (drop (Z.to_nat iel) rest)
  | _, _ => None
  end.

Record Delivered := mkDelivered {
  d_toa : Z;
  d_digits : list Z;
  d_stamp : list Z;
  (** reference, number of parts, number of this part *)
  d_part : option (Z * Z * Z);
  (** the length of the user data, in septets or bytes *)
  d_udl : Z;
  (** its bytes *)
  d_octets : Z;
  d_text : list Z;
}.

(** The user data: header length with its length byte, part, text. *)
Definition read_user_data (udhi : bool) (dcs udl : Z) (ud : list Z) : option (option (Z * Z * Z) * list Z) :=
  let hl := if udhi then 1 + default 0 (head ud) else 0 in
  let part := if udhi then find_concat (length ud) (take (Z.to_nat (hl - 1)) (tail ud)) else None in
  if (dcs .>> 2) .& 3 =? 0 then
    let hs := (8 * hl + 6) / 7 in
    if (udl <? hs) || (8 * Z.of_nat (length ud) <? 7 * udl) then None
    else
      text ← read_alphabet ((fun i => septet_value ud (7 * (hs + Z.of_nat i))) <$> seq 0 (Z.to_nat (udl - hs)));
      Some (part, text)
  else if (dcs .>> 2) .& 3 =? 2 then
    if (udl <? hl) || (Z.of_nat (length ud) <? udl) then None
    else Some (part, read_ucs2 (take (Z.to_nat (udl - hl)) (drop (Z.to_nat hl) ud)))
  else None.

(** A whole PDU, the service center address in front included. *)
Definition read_deliver (pdu : list Z) : option Delivered :=
  match drop (S (Z.to_nat (default 0 (head pdu)))) pdu with
  | mti :: dlen :: toa :: l =>
      let n := Z.to_nat ((dlen + 1) / 2) in
      match drop n l with
      | _ :: dcs :: l' =>
          match drop 7 l' with
          | udl :: ud =>
              if mti .& 3 =? 0 then
                '(part, text) ← read_user_data (Z.testbit mti 6) dcs udl ud;
                Some (mkDelivered toa (take (Z.to_nat dlen) (nibbles_of (take n l))) (take 7 l') part udl
                        (Z.of_nat (length ud)) text)
              else None
          | [] => None
          end
      | _ => None
      end
  | _ => None
  end.

(** ** The bytes of a PDU *)

Record address_ok (a : SmsAddressRec) : Prop := {
  address_size : length (addr_data a) = 16%nat;
  address_bytes : Forall (in_u 8) (addr_data a);
  address_len : 0 <= addr_len a <= 32;
  address_toa : in_u 8 (addr_toa a);
}.

(** [n] bytes of a number; the last one of an odd number of digits is
    filled. *)
Definition address_octets (a : SmsAddressRec) : list Z :=
  let l := take (Z.to_nat (Z.quot (addr_len a + 1) 2)) (addr_data a) in
  if nz (addr_len a .& 1) then alter (fun b => b .| 0xf0) (length l - 1)%nat l else l.

Definition header_octets (ref_num pdu_count pdu_index : Z) : list Z :=
  [5; 0; 3; u8 ref_num; u8 pdu_count; u8 (u8 pdu_index + 1)].

Section Emits.
Context (malloc : Z -> option (list Z)) `{Hmalloc : !Malloc malloc}.

(** Filling the last byte that was added. *)
Lemma rope_emits_fill f bs b (c : bool) : rope_emits f (bs ++ [b]) ->
  rope_emits (fun r =>
    r ← f r;
    if c && negb (rope_error r) then
      match rope_data r with
      | RopeNull => Ret r
      | _ => b ← or_out (rope_bytes r !! Z.to_nat (rope_pos r - 1)); rope_store r (rope_pos r - 1) [b .| 0xf0]
      end
    else Ret r) (bs ++ [if c then b .| 0xf0 else b]).
Proof.
  intros [F1 F2]. destruct c; cbn [andb].
  2: { split; [intros r n H|intros r acc n H].
       - destruct (F1 r n H) as (r' & E & H'). exists r'. by rewrite E.
       - destruct (F2 r acc n H) as (r' & E & H'). exists r'. by rewrite E. }
  split.
  - intros r n H. destruct (F1 r n H) as (r' & E & H1 & H2 & H3). exists r'. rewrite E. cbn. rewrite H2, H1. cbn.
    split; [done|]. rewrite length_app in H3 |- *. by split_and!.
  - intros r acc n H. destruct (F2 r acc n) as (r' & E & [H1 H2 H3 H4]); [by rewrite length_app in H |- *|].
    assert ((acc ++ bs ++ [b]) ++ replicate n 0 = (acc ++ bs) ++ b :: replicate n 0) as El by (rewrite <- !app_assoc; done).
    rewrite El in H1. rewrite length_app in H3, H4. rewrite length_app in H3, H4. cbn [length] in H3, H4.
    assert (Z.to_nat (rope_pos r' - 1) = length (acc ++ bs)) as Ep by (rewrite H4, length_app; lia).
    rewrite E. cbn [mbind outcome_bind]. rewrite H2, H1. cbn [negb]. unfold rope_bytes. rewrite H1, Ep.
    rewrite list_lookup_middle by done. cbn [or_out mbind outcome_bind]. unfold rope_store, rope_bytes. rewrite H1, Ep.
    rewrite !length_app. cbn [length]. rewrite length_replicate, (proj2 (Z.leb_le 0 _)), (proj2 (Z.leb_le _ _)) by lia.
    cbn [andb]. eexists. split; [done|].
    constructor; cbn; [|done|rewrite H3, !length_app; simpl; lia|rewrite H4, !length_app; simpl; lia].
    f_equal. rewrite <- length_app, take_app_length, drop_app_add. rewrite <- !app_assoc. cbn. by rewrite drop_0.
Qed.

Lemma rope_emits_ext f g bs : (forall r, f r = g r) -> rope_emits f bs -> rope_emits g bs.
Proof.
  intros H [F1 F2]. split.
  - intros r n Hr. rewrite <- H. by apply F1.
  - intros r acc n Hr. rewrite <- H. by apply F2.
Qed.

Lemma address_octets_length a : address_ok a -> length (address_octets a) = Z.to_nat (Z.quot (addr_len a + 1) 2).
Proof.
  intros [H1 _ H3 _]. unfold address_octets. destruct (nz _); rewrite ?length_alter, length_take, Nat.min_l; try done;
    rewrite H1, Z.quot_div_nonneg by lia; lia.
Qed.

Lemma rope_emits_address a : address_ok a ->
  rope_emits (gsm_rope_add_address malloc a) (u8 (addr_len a) :: u8 (addr_toa a) :: address_octets a).
Proof.
  intros Hok. pose proof Hok as [H1 _ H3 _]. unfold gsm_rope_add_address.
  apply (rope_emits_seq (fun r => gsm_rope_add_c malloc r (addr_len a)) _ [u8 (addr_len a)] (u8 (addr_toa a) :: address_octets a));
    [apply rope_emits_add_c|].
  apply (rope_emits_seq (fun r => gsm_rope_add_c malloc r (addr_toa a)) _ [u8 (addr_toa a)] (address_octets a));
    [apply rope_emits_add_c|].
  pose proof (address_octets_length a Hok) as Hl. unfold address_octets in *. set (n := Z.to_nat _) in *.
  assert (n <= 16)%nat as Hn by (unfold n; rewrite Z.quot_div_nonneg by lia; lia).
  rewrite bool_decide_eq_false_2 by lia. set (l := take n (addr_data a)) in *.
  assert (length l = n) as Hll by (unfold l; rewrite length_take; lia).
  destruct (nz (addr_len a .& 1)) eqn:Eodd.
  - assert (1 <= n)%nat as Hn1.
    { apply nz_true in Eodd. change 1 with (Z.ones 1) in Eodd. rewrite Z.land_ones in Eodd by lia. change (2 ^ 1) with 2 in Eodd.
      unfold n. rewrite Z.quot_div_nonneg by lia. lia. }
    destruct (exists_last (l := l)) as (bs & b & Eb); [intros E0; rewrite E0 in Hll; simpl in Hll; lia|].
    rewrite Eb in *. rewrite length_app in *. cbn [length] in *.
    replace (alter (fun b => b .| 0xf0) (length bs + 1 - 1)%nat (bs ++ [b])) with (bs ++ [b .| 0xf0]).
    + apply (rope_emits_fill (fun r => gsm_rope_add malloc r (bs ++ [b])) bs b true). apply rope_emits_add.
    + replace (length bs + 1 - 1)%nat with (length bs) by lia. by rewrite at_length.
  - apply (rope_emits_ext (fun r => gsm_rope_add malloc r l)); [|apply rope_emits_add].
    intros r. cbn. by destruct (gsm_rope_add malloc r l).
Qed.

Lemma rope_emits_add_u8 c : rope_emits (fun r => gsm_rope_add_c malloc r (u8 c)) [u8 c].
Proof. pose proof (rope_emits_add_c malloc (u8 c)) as H. by rewrite wrap_wrap in H. Qed.

Lemma rope_emits_user_header ref_num pdu_count pdu_index :
  rope_emits (gsm_rope_add_sms_user_header malloc ref_num pdu_count pdu_index) (header_octets ref_num pdu_count pdu_index).
Proof.
  unfold gsm_rope_add_sms_user_header, header_octets.
  do 5 (eapply (rope_emits_seq _ _ [_] (_ :: _)); [first [apply rope_emits_add_u8|apply rope_emits_add_c]|]).
  apply rope_emits_add_c.
Qed.

(** What comes before the user data. *)
Definition deliver_front (a : SmsAddressRec) (ts : list Z) (use_gsm7 : bool) (pdu_count : Z) : list Z :=
  [0; if 1 <? pdu_count then 0x60 else 0x20] ++ (u8 (addr_len a) :: u8 (addr_toa a) :: address_octets a)
  ++ [0; if use_gsm7 then 0 else 9] ++ ts.

Lemma rope_emits_deliver utf8 (use_gsm7 : bool) a ts ref_num pdu_count pdu_index ud : address_ok a ->
  rope_emits (if use_gsm7 then add_gsm7_data malloc utf8 ref_num pdu_count pdu_index
              else add_ucs2_data malloc utf8 ref_num pdu_count pdu_index) ud ->
  rope_emits (gsm_rope_add_sms_deliver_pdu malloc utf8 use_gsm7 a ts ref_num pdu_count pdu_index)
    (deliver_front a ts use_gsm7 pdu_count ++ ud).
Proof.
  intros Ha Hud. unfold gsm_rope_add_sms_deliver_pdu, deliver_front. rewrite <- !app_assoc.
  eapply (rope_emits_seq _ _ [0] (_ :: _)); [apply rope_emits_add_c|].
  eapply (rope_emits_seq _ _ [_] _); [destruct (1 <? pdu_count); apply rope_emits_add_c|].
  eapply rope_emits_seq; [by apply rope_emits_address|].
  eapply (rope_emits_seq _ _ [0] (_ :: _)); [apply rope_emits_add_c|].
  eapply (rope_emits_seq _ _ [_] _); [destruct use_gsm7; apply rope_emits_add_c|].
  eapply rope_emits_seq; [apply rope_emits_add|]. by destruct use_gsm7.
Qed.

Lemma create_deliver_bytes utf8 (use_gsm7 : bool) a ts ref_num pdu_count pdu_index ud rope : address_ok a ->
  rope_emits (if use_gsm7 then add_gsm7_data malloc utf8 ref_num pdu_count pdu_index
              else add_ucs2_data malloc utf8 ref_num pdu_count pdu_index) ud ->
  (forall n, malloc n <> None) ->
  smspdu_create_deliver malloc utf8 use_gsm7 a ts ref_num pdu_count pdu_index rope
  = Ret (Some (mkPDU (deliver_front a ts use_gsm7 pdu_count ++ ud) 1)).
Proof.
  intros Ha Hud Hm. pose proof (rope_emits_deliver utf8 use_gsm7 a ts ref_num pdu_count pdu_index ud Ha Hud) as He.
  destruct (rope_two_pass malloc _ _ rope He) as (r1 & r2 & E1 & Er & Ep & E2 & E3); [done|apply Hm|].
  unfold smspdu_create_deliver. rewrite E1. cbn [mbind outcome_bind]. rewrite Er, E2. cbn [mbind outcome_bind]. rewrite E3.
  by rewrite Nat2Z.id, firstn_all.
Qed.

End Emits.

(** ** Reading the text back *)

(** The characters the loops of the encoders see. *)
Definition text_points (utf8 : list Z) : list Z := until_negative (utf8_points utf8).

Definition text_septets (cs : list Z) : list Z := concat (gsm7_of_unichar <$> cs).

(** A character of the alphabet with its extension. *)
Definition gsm_char (c : Z) : Prop := basic_char c \/ extension_char c.

Lemma septet_value_at l b s : septet_ok s -> septet_at l b s -> septet_value l b = s.
Proof.
  intros Hs Hat. unfold septet_value. change (seqZ 0 7) with [0; 1; 2; 3; 4; 5; 6]. cbn [foldr].
  rewrite !Hat by lia.
  pose proof (forall_below 128 (fun s => Z.b2z (Z.testbit s 0) + 2 * (Z.b2z (Z.testbit s 1) + 2 * (Z.b2z (Z.testbit s 2)
    + 2 * (Z.b2z (Z.testbit s 3) + 2 * (Z.b2z (Z.testbit s 4) + 2 * (Z.b2z (Z.testbit s 5) + 2 * (Z.b2z (Z.testbit s 6)
    + 2 * 0)))))) =? s) ltac:(by vm_compute) s Hs) as H. by apply Z.eqb_eq in H.
Qed.

(** The septets from index [h] on. *)
Lemma septet_values_at ud h ss : Forall septet_ok ss -> septets_at ud (7 * h) ss ->
  (fun i => septet_value ud (7 * (h + Z.of_nat i))) <$> seq 0 (length ss) = ss.
Proof.
  intros Hss Hat. apply list_eq. intros i. rewrite list_lookup_fmap.
  destruct (decide (i < length ss)%nat) as [Hi|Hi].
  - rewrite lookup_seq_lt by done. destruct (lookup_lt_is_Some_2 ss i Hi) as [s Hs]. rewrite Hs. cbn. f_equal.
    apply septet_value_at; [exact (Forall_lookup_1 _ _ _ _ Hss Hs)|].
    replace (7 * (h + Z.of_nat i)) with (7 * h + 7 * Z.of_nat i) by lia. by apply Hat.
  - rewrite lookup_seq_ge, (lookup_ge_None_2 ss) by lia. done.
Qed.

Lemma text_septets_ok cs : Forall septet_ok (text_septets cs).
Proof. apply Forall_concat, Forall_fmap, Forall_true. apply gsm7_of_unichar_ok. Qed.

Lemma table_lookup t n c : table t n = Ret c -> t !! Z.to_nat n = Some c.
Proof. unfold table. by destruct (t !! Z.to_nat n) as [x|]; [intros [= ->]|]. Qed.

Lemma read_alphabet_text cs : Forall gsm_char cs -> read_alphabet (text_septets cs) = Some cs.
Proof.
  induction 1 as [|c cs Hc _ IH]; [done|]. change (text_septets (c :: cs)) with (gsm7_of_unichar c ++ text_septets cs).
  destruct Hc as [Hc|Hc].
  - destruct (basic_char_septet c Hc) as (nn & -> & _ & Hne & Ht%table_lookup & _). cbn [app read_alphabet].
    rewrite (proj2 (Z.eqb_neq _ _) Hne), Ht. cbn. by rewrite IH.
  - destruct (extension_char_septets c Hc) as (nn & -> & _ & Ht%table_lookup & _). cbn [app read_alphabet].
    rewrite Z.eqb_refl, Ht. cbn. by rewrite IH.
Qed.

Lemma read_ucs2_text cs : Forall bmp_point cs -> read_ucs2 (concat (ucs2_write <$> cs)) = cs.
Proof.
  induction 1 as [|c cs Hc _ IH]; [done|]. cbn. rewrite IH. f_equal. unfold bmp_point in Hc.
  unfold wrap. rewrite Z.shiftr_div_pow2 by lia. lia.
Qed.

Lemma gsm7_count_septets utf8 : utf8_to_gsm7_count utf8 = Z.of_nat (length (text_septets (text_points utf8))).
Proof.
  unfold utf8_to_gsm7_count, text_points. generalize (until_negative (utf8_points utf8)) as cs. intros cs.
  enough (forall n, foldl (fun result c => let len := unichar_to_gsm7_count c in
    result + (if len =? 0 then 1 else len)) n cs = n + Z.of_nat (length (text_septets cs))) as H by apply H.
  induction cs as [|c cs IH]; intros n; [simpl; lia|].
  change (text_septets (c :: cs)) with (gsm7_of_unichar c ++ text_septets cs). cbn [foldl]. rewrite IH, length_app.
  unfold unichar_to_gsm7_count, gsm7_of_unichar. repeat case_match; simpl in *; lia.
Qed.

Lemma ucs2_length utf8 : Z.of_nat (length (utf8_to_ucs2 utf8)) = 2 * Z.of_nat (length (text_points utf8)).
Proof.
  unfold utf8_to_ucs2, text_points. induction (until_negative (utf8_points utf8)) as [|c cs IH]; [done|].
  cbn [fmap list_fmap concat]. rewrite length_app. cbn [length ucs2_write]. lia.
Qed.

(** ** User data *)

Section UserData.
Context (malloc : Z -> option (list Z)) `{Hmalloc : !Malloc malloc}.

(** Zero bytes with the septets packed from bit [pad] on. *)
Lemma packed_text utf8 pad n : let ss := text_septets (text_points utf8) in
  0 <= pad -> pad + 7 * Z.of_nat (length ss) <= 8 * Z.of_nat n ->
  exists dst, utf8_to_gsm7 utf8 (replicate n 0) pad = Ret (dst, pad + 7 * Z.of_nat (length ss))
    /\ length dst = n /\ Forall (in_u 8) dst /\ septets_at dst pad ss.
Proof.
  intros ss Hp Hl. unfold utf8_to_gsm7. fold (text_points utf8).
  destruct (pack_gsm7_spec (text_points utf8) (replicate n 0) pad) as (dst & E & Hlen & Hb & _ & Hat).
  - apply Forall_replicate. unfold in_u. lia.
  - done.
  - by rewrite length_replicate.
  - exists dst. rewrite length_replicate in Hlen. by split_and!.
Qed.

(** The septets behind a header of whole bytes. *)
Lemma septets_behind hd dst b ss : septets_at dst b ss -> 0 <= b -> septets_at (hd ++ dst) (8 * Z.of_nat (length hd) + b) ss.
Proof.
  intros Hat Hb i s Hs j Hj. rewrite <- (Hat i s Hs j Hj). unfold sbit.
  replace (8 * Z.of_nat (length hd) + b + 7 * Z.of_nat i + j) with (b + 7 * Z.of_nat i + j + Z.of_nat (length hd) * 8) by lia.
  rewrite Z.div_add, Z.mod_add by lia. rewrite lookup_app_r by lia. do 3 f_equal. lia.
Qed.

Definition part_of (ref_num pdu_count pdu_index : Z) : option (Z * Z * Z) :=
  if 1 <? pdu_count then Some (u8 ref_num, u8 pdu_count, u8 (u8 pdu_index + 1)) else None.

Definition header_septets (pdu_count : Z) : Z := if 1 <? pdu_count then 7 else 0.
Definition header_bytes (pdu_count : Z) : Z := if 1 <? pdu_count then 6 else 0.

Lemma header_octets_bytes ref_num pdu_count pdu_index : Forall (in_u 8) (header_octets ref_num pdu_count pdu_index).
Proof. repeat constructor; try apply wrap_range; unfold in_u; lia. Qed.

Lemma utf8_to_ucs2_bytes utf8 : Forall (in_u 8) (utf8_to_ucs2 utf8).
Proof. apply Forall_concat, Forall_fmap, Forall_true. intros c. repeat constructor; apply wrap_range; lia. Qed.

Lemma find_concat_header fuel ref_num pdu_count pdu_index : (0 < fuel)%nat ->
  find_concat fuel [0; 3; u8 ref_num; u8 pdu_count; u8 (u8 pdu_index + 1)] = Some (u8 ref_num, u8 pdu_count, u8 (u8 pdu_index + 1)).
Proof. destruct fuel; [lia|]. done. Qed.

Lemma gsm7_data_read utf8 ref_num pdu_count pdu_index :
  let cs := text_points utf8 in let n := Z.of_nat (length (text_septets cs)) in
  Forall gsm_char cs -> n <= 154 ->
  exists ud, rope_emits (add_gsm7_data malloc utf8 ref_num pdu_count pdu_index) (n + header_septets pdu_count :: ud)
    /\ Z.of_nat (length ud) = (7 * (n + header_septets pdu_count) + 7) / 8
    /\ Forall (in_u 8) (n + header_septets pdu_count :: ud)
    /\ read_user_data (1 <? pdu_count) 0 (n + header_septets pdu_count) ud = Some (part_of ref_num pdu_count pdu_index, cs).
Proof.
  intros cs n Hcs Hn. unfold add_gsm7_data. rewrite gsm7_count_septets. fold cs. fold n.
  rewrite (proj2 (Z.ltb_ge _ _)) by (unfold MAX_USER_DATA_SEPTETS, USER_DATA_HEADER_SIZE; lia).
  unfold header_septets, part_of. pose proof (text_septets_ok cs) as Hok. destruct (1 <? pdu_count) eqn:Ec.
  - change (Z.quot (6 * 8) 7 + (if 0 <? Z.rem (6 * 8) 7 then 1 else 0)) with 7. change (7 * 7 - 6 * 8) with 1.
    set (k := Z.quot (n * 7 + 1 + 7) 8). assert (k = (n * 7 + 8) / 8) as Hk by (unfold k; rewrite Z.quot_div_nonneg by lia; f_equal; lia).
    destruct (packed_text utf8 1 (Z.to_nat k)) as (dst & E & Hl & Hb & Hat); [lia|fold cs; fold n; lia|].
    exists (header_octets ref_num pdu_count pdu_index ++ dst). split_and!.
    + eapply (rope_emits_seq _ _ [_] _).
      { pose proof (rope_emits_add_c malloc (n + 7)) as H. rewrite wrap_small in H by (unfold in_u; lia). exact H. }
      eapply rope_emits_seq; [apply rope_emits_user_header|]. apply rope_emits_encode; [lia|].
      rewrite Hl. fold cs in E. by rewrite E.
    + rewrite length_app. cbn [header_octets length]. lia.
    + apply Forall_cons. split; [unfold in_u; lia|]. apply Forall_app. by split; [apply header_octets_bytes|].
    + pose proof (septets_behind (header_octets ref_num pdu_count pdu_index) dst 1 _ Hat ltac:(lia)) as Hat'.
      change (8 * Z.of_nat (length (header_octets ref_num pdu_count pdu_index)) + 1) with (7 * 7) in Hat'.
      unfold read_user_data. set (ud := header_octets _ _ _ ++ dst) in *. assert (length ud = (6 + Z.to_nat k)%nat) as Hul
        by (unfold ud; rewrite length_app; simpl; lia).
      change (default 0 (head ud)) with 5. change ((0 .>> 2) .& 3 =? 0) with true. cbn iota.
      change ((8 * (1 + 5) + 6) / 7) with 7. rewrite (proj2 (Z.ltb_ge _ _)), (proj2 (Z.ltb_ge _ _)) by lia. cbn [orb].
      replace (Z.to_nat (n + 7 - 7)) with (length (text_septets cs)) by lia.
      rewrite (septet_values_at ud 7 _ Hok Hat'), read_alphabet_text by done. cbn [mbind option_bind].
      change (take (Z.to_nat (1 + 5 - 1)) (tail ud)) with [0; 3; u8 ref_num; u8 pdu_count; u8 (u8 pdu_index + 1)].
      by rewrite find_concat_header by lia.
  - set (k := Z.quot (n * 7 + 0 + 7) 8). assert (k = (n * 7 + 7) / 8) as Hk by (unfold k; rewrite Z.quot_div_nonneg by lia; f_equal; lia).
    destruct (packed_text utf8 0 (Z.to_nat k)) as (dst & E & Hl & Hb & Hat); [lia|fold cs; fold n; lia|].
    exists dst. rewrite Z.add_0_r. split_and!.
    + eapply (rope_emits_seq _ _ [_] _).
      { pose proof (rope_emits_add_c malloc n) as H. rewrite wrap_small in H by (unfold in_u; lia). exact H. }
      apply rope_emits_encode; [lia|]. rewrite Hl. fold cs in E. by rewrite E.
    + lia.
    + apply Forall_cons. split; [unfold in_u; lia|done].
    + unfold read_user_data. change ((0 .>> 2) .& 3 =? 0) with true. cbn iota. change ((8 * 0 + 6) / 7) with 0.
      rewrite (proj2 (Z.ltb_ge _ _)), (proj2 (Z.ltb_ge _ _)) by lia. cbn [orb].
      replace (Z.to_nat (n - 0)) with (length (text_septets cs)) by lia.
      rewrite (septet_values_at dst 0 _ Hok Hat), read_alphabet_text by done. done.
Qed.

Lemma ucs2_data_read utf8 ref_num pdu_count pdu_index :
  let cs := text_points utf8 in let n := 2 * Z.of_nat (length cs) in
  Forall bmp_point cs -> n <= 134 ->
  exists ud, rope_emits (add_ucs2_data malloc utf8 ref_num pdu_count pdu_index) (n + header_bytes pdu_count :: ud)
    /\ Z.of_nat (length ud) = n + header_bytes pdu_count
    /\ Forall (in_u 8) (n + header_bytes pdu_count :: ud)
    /\ read_user_data (1 <? pdu_count) 9 (n + header_bytes pdu_count) ud = Some (part_of ref_num pdu_count pdu_index, cs).
Proof.
  intros cs n Hcs Hn. unfold add_ucs2_data. pose proof (ucs2_length utf8) as Hul. fold cs in Hul. fold n in Hul.
  assert (Z.of_nat (length (utf8_to_ucs2 utf8)) `quot` 2 * 2 = n) as Hq by (rewrite Hul, Z.quot_div_nonneg by lia; lia).
  rewrite Hq. rewrite (proj2 (Z.ltb_ge _ _)) by (unfold MAX_USER_DATA_BYTES, USER_DATA_HEADER_SIZE; lia).
  assert (utf8_to_ucs2 utf8 = concat (ucs2_write <$> cs)) as Hu by done.
  unfold header_bytes, part_of. destruct (1 <? pdu_count) eqn:Ec.
  - exists (header_octets ref_num pdu_count pdu_index ++ utf8_to_ucs2 utf8). split_and!.
    + change (n + 6 :: header_octets ref_num pdu_count pdu_index ++ utf8_to_ucs2 utf8)
        with (([n + 6] ++ header_octets ref_num pdu_count pdu_index) ++ utf8_to_ucs2 utf8).
      eapply rope_emits_seq; [|apply rope_emits_encode; [lia|done]].
      eapply rope_emits_seq; [|apply rope_emits_user_header].
      pose proof (rope_emits_add_c malloc (n + 6)) as H. rewrite wrap_small in H by (unfold in_u; lia). exact H.
    + rewrite length_app. cbn [header_octets length]. lia.
    + apply Forall_cons. split; [unfold in_u; lia|]. apply Forall_app. split; [apply header_octets_bytes|apply utf8_to_ucs2_bytes].
    + unfold read_user_data. set (ud := header_octets _ _ _ ++ _) in *.
      assert (length ud = (6 + Z.to_nat n)%nat) as Hl by (unfold ud; rewrite length_app; simpl; lia).
      change (default 0 (head ud)) with 5. change ((9 .>> 2) .& 3 =? 0) with false. change ((9 .>> 2) .& 3 =? 2) with true. cbn iota.
      rewrite (proj2 (Z.ltb_ge _ _)), (proj2 (Z.ltb_ge _ _)) by lia. cbn [orb].
      change (drop (Z.to_nat (1 + 5)) ud) with (utf8_to_ucs2 utf8). rewrite (take_ge (utf8_to_ucs2 utf8)) by lia.
      rewrite Hu, read_ucs2_text by done.
      change (take (Z.to_nat (1 + 5 - 1)) (tail ud)) with [0; 3; u8 ref_num; u8 pdu_count; u8 (u8 pdu_index + 1)].
      by rewrite find_concat_header by lia.
  - exists (utf8_to_ucs2 utf8). rewrite Z.add_0_r.
    split_and!; [|done|apply Forall_cons; split; [unfold in_u; lia|apply utf8_to_ucs2_bytes]|].
    + change (n :: utf8_to_ucs2 utf8) with ([n] ++ utf8_to_ucs2 utf8).
      eapply rope_emits_seq; [|apply rope_emits_encode; [lia|done]].
      pose proof (rope_emits_add_c malloc n) as H. rewrite wrap_small in H by (unfold in_u; lia). exact H.
    + unfold read_user_data. change ((9 .>> 2) .& 3 =? 0) with false. change ((9 .>> 2) .& 3 =? 2) with true. cbn iota.
      rewrite (proj2 (Z.ltb_ge _ _)), (proj2 (Z.ltb_ge _ _)) by lia. cbn [orb Z.to_nat]. rewrite drop_0, take_ge by lia.
      by rewrite Hu, read_ucs2_text by done.
Qed.

(** ** A whole PDU *)

Lemma nibbles_of_app l1 l2 : nibbles_of (l1 ++ l2) = nibbles_of l1 ++ nibbles_of l2.
Proof. unfold nibbles_of. by rewrite fmap_app, concat_app. Qed.

Lemma length_nibbles_of l : length (nibbles_of l) = (2 * length l)%nat.
Proof. induction l as [|b l IH]; [done|]. change (nibbles_of (b :: l)) with (nibbles_of [b] ++ nibbles_of l). rewrite length_app, IH. simpl. lia. Qed.

(** Filling the unused half does not touch the digits. *)
Lemma address_octets_digits a : address_ok a ->
  take (Z.to_nat (addr_len a)) (nibbles_of (address_octets a)) = take (Z.to_nat (addr_len a)) (nibbles_of (addr_data a)).
Proof.
  intros [H1 _ H3 _]. set (k := Z.to_nat (Z.quot (addr_len a + 1) 2)).
  assert (k = Z.to_nat ((addr_len a + 1) / 2)) as Hk by (unfold k; by rewrite Z.quot_div_nonneg by lia).
  assert (nibbles_of (addr_data a) = nibbles_of (take k (addr_data a)) ++ nibbles_of (drop k (addr_data a))) as ->
    by by rewrite <- nibbles_of_app, take_drop.
  rewrite (take_app_le (nibbles_of (take k (addr_data a)))) by (rewrite length_nibbles_of, length_take; lia).
  unfold address_octets. fold k. destruct (nz (addr_len a .& 1)) eqn:Eodd; [|done].
  apply nz_true in Eodd. change 1 with (Z.ones 1) in Eodd. rewrite Z.land_ones in Eodd by lia. change (2 ^ 1) with 2 in Eodd.
  set (l := take k (addr_data a)). assert (length l = k) as Hl by (unfold l; rewrite length_take; lia).
  destruct (exists_last (l := l)) as (bs & b & ->); [intros E0; rewrite E0 in Hl; simpl in Hl; lia|].
  rewrite length_app in *. cbn [length] in *. replace (length bs + 1 - 1)%nat with (length bs) by lia.
  rewrite at_length, !nibbles_of_app. replace (Z.to_nat (addr_len a)) with (length (nibbles_of bs) + 1)%nat
    by (rewrite length_nibbles_of; lia).
  rewrite !take_app_add. f_equal. cbn. f_equal. apply Z.bits_inj'. intros i Hi. zbits_norm.
  destruct (Z.testbit b i); [done|]. cbn [orb]. rewrite <- Z.land_spec. change (0xf0 .& 0xf) with 0. by rewrite Z.bits_0.
Qed.

(** What the phone reads of a PDU made of its fields. *)
Lemma read_deliver_front a ts (use_gsm7 : bool) pdu_count udl ud part text : address_ok a -> length ts = 7%nat ->
  read_user_data (1 <? pdu_count) (if use_gsm7 then 0 else 9) udl ud = Some (part, text) ->
  read_deliver (deliver_front a ts use_gsm7 pdu_count ++ udl :: ud)
  = Some (mkDelivered (addr_toa a) (take (Z.to_nat (addr_len a)) (nibbles_of (addr_data a))) ts part udl
      (Z.of_nat (length ud)) text).
Proof.
  intros Ha Hts Hud. pose proof Ha as [_ _ H3 H4]. unfold read_deliver, deliver_front.
  rewrite <- !app_assoc. cbn [app head default]. change (Z.to_nat (id 0)) with 0%nat. cbn [drop].
  rewrite (wrap_small 8 (addr_len a)), (wrap_small 8 (addr_toa a)) by (done || unfold in_u; lia).
  assert (Z.to_nat ((addr_len a + 1) / 2) = length (address_octets a)) as Hn
    by (rewrite address_octets_length by done; by rewrite Z.quot_div_nonneg by lia).
  cbv zeta. rewrite Hn, drop_app_length, take_app_length.
  rewrite <- Hts, drop_app_length, take_app_length.
  assert (((if 1 <? pdu_count then 96 else 32) .& 3 =? 0) = true) as -> by by destruct (1 <? pdu_count).
  assert (Z.testbit (if 1 <? pdu_count then 96 else 32) 6 = (1 <? pdu_count)) as -> by by destruct (1 <? pdu_count).
  rewrite Hud. cbn [mbind option_bind]. by rewrite address_octets_digits.
Qed.

Lemma address_octets_bytes a : address_ok a -> Forall (in_u 8) (address_octets a).
Proof.
  intros [_ H2 _ _]. unfold address_octets. destruct (nz _); [|by apply Forall_take].
  apply Forall_alter; [by apply Forall_take|]. intros b _ Hb. apply in_u_lor; [lia|done|unfold in_u; lia].
Qed.

(** The fields in front of the user data are bytes, at most 29. *)
Lemma deliver_front_bytes a ts use_gsm7 pdu_count : address_ok a -> length ts = 7%nat -> Forall (in_u 8) ts ->
  Forall (in_u 8) (deliver_front a ts use_gsm7 pdu_count) /\ (length (deliver_front a ts use_gsm7 pdu_count) <= 29)%nat.
Proof.
  intros Ha Hts Hb. pose proof (address_octets_length a Ha) as Hl. pose proof Ha as [_ _ H3 _].
  rewrite Z.quot_div_nonneg in Hl by lia. unfold deliver_front. split.
  - repeat (apply Forall_app; split); repeat (apply Forall_cons; split); try done;
      try (by apply address_octets_bytes); try (apply wrap_range; lia); repeat case_match; unfold in_u; lia.
  - rewrite !length_app. cbn [length]. lia.
Qed.

Definition deliver_udl (use_gsm7 : bool) (cs : list Z) (pdu_count : Z) : Z :=
  if use_gsm7 then Z.of_nat (length (text_septets cs)) + header_septets pdu_count
  else 2 * Z.of_nat (length cs) + header_bytes pdu_count.

(** The characters that fit one PDU. *)
Definition fits_pdu (use_gsm7 : bool) (cs : list Z) : Prop :=
  if use_gsm7 then Forall gsm_char cs /\ Z.of_nat (length (text_septets cs)) <= 154
  else Forall bmp_point cs /\ 2 * Z.of_nat (length cs) <= 134.

(** One PDU: made without an abort, and the phone reads sender, time, part
    and text from it. *)
Lemma create_deliver_read utf8 (use_gsm7 : bool) a ts ref_num pdu_count pdu_index rope :
  address_ok a -> length ts = 7%nat -> Forall (in_u 8) ts -> (forall n, malloc n <> None) ->
  fits_pdu use_gsm7 (text_points utf8) ->
  exists pdu, smspdu_create_deliver malloc utf8 use_gsm7 a ts ref_num pdu_count pdu_index rope = Ret (Some pdu)
    /\ Forall (in_u 8) (pdu_base pdu) /\ (length (pdu_base pdu) <= 171)%nat
    /\ read_deliver (pdu_base pdu)
       = Some (mkDelivered (addr_toa a) (take (Z.to_nat (addr_len a)) (nibbles_of (addr_data a))) ts
           (part_of ref_num pdu_count pdu_index) (deliver_udl use_gsm7 (text_points utf8) pdu_count)
           (if use_gsm7 then (7 * deliver_udl true (text_points utf8) pdu_count + 7) / 8
            else deliver_udl false (text_points utf8) pdu_count) (text_points utf8)).
Proof.
  intros Ha Hts Hb Hm Hfit. destruct (deliver_front_bytes a ts use_gsm7 pdu_count Ha Hts Hb) as [Hf Hfl].
  assert (0 <= header_septets pdu_count <= 7 /\ 0 <= header_bytes pdu_count <= 6) as [Hh1 Hh2]
    by (unfold header_septets, header_bytes; case_match; lia).
  destruct use_gsm7; destruct Hfit as [Hcs Hn].
  - destruct (gsm7_data_read utf8 ref_num pdu_count pdu_index Hcs Hn) as (ud & He & Hl & Hud & Hr). cbv zeta in *.
    eexists. split; [by apply (create_deliver_bytes malloc utf8 true a ts ref_num pdu_count pdu_index _ rope Ha He)|].
    cbn [pdu_base]. rewrite (read_deliver_front a ts true pdu_count _ _ _ _ Ha Hts Hr). rewrite Hl, length_app. cbn [length].
    split_and!; [by apply Forall_app|lia|done].
  - destruct (ucs2_data_read utf8 ref_num pdu_count pdu_index Hcs Hn) as (ud & He & Hl & Hud & Hr). cbv zeta in *.
    eexists. split; [by apply (create_deliver_bytes malloc utf8 false a ts ref_num pdu_count pdu_index _ rope Ha He)|].
    cbn [pdu_base]. rewrite (read_deliver_front a ts false pdu_count _ _ _ _ Ha Hts Hr). rewrite Hl, length_app. cbn [length].
    split_and!; [by apply Forall_app|lia|done].
Qed.

End UserData.

(** ** Dividing a text *)

(** What a character takes of a PDU. *)
Definition char_weight (use_gsm7 : bool) (c : Z) : Z := if use_gsm7 then Z.of_nat (length (gsm7_of_unichar c)) else 2.

Definition text_weight (use_gsm7 : bool) (cs : list Z) : Z :=
  if use_gsm7 then Z.of_nat (length (text_septets cs)) else 2 * Z.of_nat (length cs).

(** How many characters go into [room]. *)
Fixpoint fit (use_gsm7 : bool) (room : Z) (cs : list Z) : nat :=
  match cs with
  | c :: cs => if char_weight use_gsm7 c <=? room then S (fit use_gsm7 (room - char_weight use_gsm7 c) cs) else O
  | [] => O
  end.

Lemma char_weight_pos b c : 1 <= char_weight b c.
Proof. unfold char_weight, gsm7_of_unichar. destruct b; [|lia]. repeat case_match; simpl; lia. Qed.

Lemma gsm7_weight c : char_weight true c = if unichar_to_gsm7_count c =? 0 then 1 else unichar_to_gsm7_count c.
Proof. unfold char_weight, unichar_to_gsm7_count, gsm7_of_unichar. repeat case_match; simpl in *; lia. Qed.

Lemma text_weight_cons b c cs : text_weight b (c :: cs) = char_weight b c + text_weight b cs.
Proof.
  destruct b; unfold text_weight, char_weight; [|simpl; lia].
  change (text_septets (c :: cs)) with (gsm7_of_unichar c ++ text_septets cs). rewrite length_app. lia.
Qed.

Lemma text_weight_nonneg b cs : 0 <= text_weight b cs.
Proof. unfold text_weight. destruct b; lia. Qed.

Lemma text_weight_app b cs1 cs2 : text_weight b (cs1 ++ cs2) = text_weight b cs1 + text_weight b cs2.
Proof.
  induction cs1 as [|c cs1 IH]; [by destruct b|]. cbn [app]. rewrite !text_weight_cons, IH. lia.
Qed.

(** The characters taken fill at most the room. *)
Lemma fit_weight b room cs : 0 <= room -> text_weight b (take (fit b room cs) cs) <= room.
Proof.
  revert room. induction cs as [|c cs IH]; intros room Hr; cbn [fit]; [destruct b; simpl; lia|].
  destruct (Z.leb_spec (char_weight b c) room) as [Hle|Hgt]; cbn [take]; [|destruct b; simpl; lia].
  rewrite text_weight_cons. specialize (IH (room - char_weight b c)). lia.
Qed.

Lemma fit_all b room cs : text_weight b cs <= room -> fit b room cs = length cs.
Proof.
  revert room. induction cs as [|c cs IH]; intros room Hr; cbn [fit length]; [done|]. rewrite text_weight_cons in Hr.
  pose proof (text_weight_nonneg b cs). rewrite (proj2 (Z.leb_le _ _)) by lia. f_equal. apply IH. lia.
Qed.

(** With characters of one weight the room is filled. *)
Lemma fit_uniform b u k cs : Forall (fun c => char_weight b c = u) cs -> (k <= length cs)%nat ->
  0 < u -> fit b (u * Z.of_nat k) cs = k.
Proof.
  revert k. induction cs as [|c cs IH]; intros k Hcs Hk Hu; [destruct k; simpl in *; [done|lia]|].
  apply Forall_cons in Hcs as [Hc Hcs]. cbn [fit]. rewrite Hc. destruct k as [|k].
  - by rewrite (proj2 (Z.leb_gt _ _)) by lia.
  - rewrite (proj2 (Z.leb_le _ _)) by lia. f_equal. replace (u * Z.of_nat (S k) - u) with (u * Z.of_nat k) by lia.
    apply IH; [done|simpl in Hk; lia|done].
Qed.

Lemma uniform_weight b u cs : Forall (fun c => char_weight b c = u) cs -> text_weight b cs = u * Z.of_nat (length cs).
Proof. induction 1 as [|c cs Hc _ IH]; [destruct b; simpl; lia|]. rewrite text_weight_cons, IH, Hc. cbn [length]. lia. Qed.

(** [src] is cut after [k] characters, before [src']. *)
Record splits (src : list Z) (k : nat) (src' : list Z) : Prop := {
  splits_points : exists pre, src = pre ++ src' /\ utf8_points pre = take k (utf8_points src);
  splits_rest : utf8_points src' = drop k (utf8_points src);
}.

Lemma splits_none src : splits src 0 src.
Proof. split; [by exists []|by rewrite drop_0]. Qed.

Lemma splits_step src c l k src' : src <> [] -> utf8_next src = (c, l) -> splits l k src' -> splits src (S k) src'.
Proof.
  intros Hne E [(pre & -> & Hp) Hr]. destruct (utf8_next_prefix _ _ _ Hne E) as (a & Ha & Hna & Hx).
  pose proof (utf8_points_step _ _ _ Hne E) as Hs. split; rewrite Hs; [|done].
  exists (a ++ pre). rewrite Ha, app_assoc. split; [done|]. cbn [take]. rewrite <- Hp.
  apply utf8_points_step; [by destruct a|by apply (Hx pre src')].
Qed.

Lemma utf8_points_nil l : utf8_points l = [] -> l = [].
Proof. destruct l as [|b l]; [done|]. unfold utf8_points. cbn [length utf8_points_fuel]. by destruct (utf8_next (b :: l)). Qed.

Definition utf8_skip_chars (use_gsm7 : bool) (src : list Z) (room : Z) : list Z :=
  if use_gsm7 then utf8_skip_gsm7 src room else utf8_skip_ucs2 src room.

(** The two ways to skip cut the text after the characters that fit. *)
Lemma utf8_skip_splits b src room : Forall (fun c => 0 <= c) (utf8_points src) -> 0 <= room ->
  splits src (fit b room (utf8_points src)) (utf8_skip_chars b src room).
Proof.
  unfold utf8_skip_chars, utf8_skip_gsm7, utf8_skip_ucs2. generalize (Nat.lt_succ_diag_r (length src)).
  generalize (S (length src)) as fuel. intros fuel. revert src room. induction fuel as [|fuel IH]; intros src room Hf Hcs Hr; [lia|].
  cbn [utf8_skip_gsm7_fuel utf8_skip_ucs2_fuel]. destruct src as [|x src].
  { cbn. destruct b; repeat case_match; apply splits_none. }
  destruct (utf8_next (x :: src)) as [c l] eqn:E. assert (x :: src <> []) as Hne by done.
  pose proof (utf8_points_step _ _ _ Hne E) as Hs. rewrite Hs in Hcs |- *. apply Forall_cons in Hcs as [Hc Hcs].
  destruct (utf8_next_prefix _ _ _ Hne E) as (a & Ha & Hna & _).
  assert (length l < fuel)%nat as Hl by (apply (f_equal length) in Ha; rewrite length_app in Ha; destruct a; [done|simpl in *; lia]).
  cbn [fit]. pose proof (char_weight_pos b c) as Hw. specialize (IH l (room - char_weight b c) Hl Hcs).
  rewrite (proj2 (Z.ltb_ge c 0)) by lia. destruct (Z.leb_spec (char_weight b c) room) as [Hle|Hgt].
  - apply (splits_step _ c l); [done|done|]. destruct b.
    + rewrite gsm7_weight in *. rewrite (proj2 (Z.ltb_lt 0 room)), (proj2 (Z.ltb_ge room _)) by lia. apply IH. lia.
    + unfold char_weight in *. rewrite (proj2 (Z.leb_le 2 room)) by lia. apply IH. lia.
  - destruct b.
    + rewrite gsm7_weight in *. destruct (0 <? room); [|apply splits_none].
      rewrite (proj2 (Z.ltb_lt room _)) by lia. apply splits_none.
    + unfold char_weight in *. rewrite (proj2 (Z.leb_gt 2 room)) by lia. apply splits_none.
Qed.

(** The text of a part. *)
Lemma splits_part src k src' : splits src k src' ->
  utf8_points (take (length src - length src') src) = take k (utf8_points src).
Proof.
  intros [(pre & -> & Hp) _]. rewrite <- Hp, length_app. replace (length pre + length src' - length src')%nat with (length pre) by lia.
  by rewrite take_app_length.
Qed.

Lemma text_points_nonneg l : Forall (fun c => 0 <= c) (utf8_points l) -> text_points l = utf8_points l.
Proof.
  unfold text_points. generalize (utf8_points l) as cs. intros cs. induction 1 as [|c cs Hc _ IH]; [done|].
  cbn. by rewrite (proj2 (Z.ltb_ge c 0)), IH by lia.
Qed.

(** A text the encoder has characters for. *)
Definition text_ok (use_gsm7 : bool) (cs : list Z) : Prop := if use_gsm7 then Forall gsm_char cs else Forall bmp_point cs.

(** What a part holds, and the weight of a character that is not escaped. *)
Definition block_of (use_gsm7 : bool) : Z := if use_gsm7 then 154 else 134.
Definition unit_of (use_gsm7 : bool) : Z := if use_gsm7 then 1 else 2.

Lemma text_ok_nonneg b cs : text_ok b cs -> Forall (fun c => 0 <= c) cs.
Proof.
  destruct b; unfold text_ok; intros H; eapply Forall_impl; try exact H; [|unfold bmp_point; lia].
  intros c [Hc|Hc].
  - destruct (basic_char_septet c Hc) as (nn & _ & _ & _ & _ & Hp & _). unfold point_ok in Hp. lia.
  - destruct (extension_char_septets c Hc) as (nn & _ & _ & _ & Hp). unfold point_ok in Hp. lia.
Qed.

Lemma text_ok_fits b cs : text_ok b cs -> text_weight b cs <= block_of b -> fits_pdu b cs.
Proof. by destruct b. Qed.

Lemma text_ok_cut b k cs : text_ok b cs -> text_ok b (take k cs) /\ text_ok b (drop k cs).
Proof. destruct b; unfold text_ok; intros H; split; by (apply Forall_take || apply Forall_drop). Qed.

Definition read_parts (l : list SmsPDURec) : option (list Delivered) := mapM (fun p => read_deliver (pdu_base p)) l.

(** The room of part [nn]. *)
Definition part_room (b : bool) (num_pdus leftover nn : Z) : Z :=
  if (0 <? leftover) && (nn =? num_pdus - 1) then leftover else block_of b.

(** The bytes of a PDU and their number. *)
Definition sent_pdu (p : SmsPDURec) : Prop := Forall (in_u 8) (pdu_base p) /\ (length (pdu_base p) <= 171)%nat.

(** The texts of the parts. *)
Fixpoint chunks (b : bool) (todo : nat) (num_pdus leftover nn : Z) (cs : list Z) : list (list Z) :=
  match todo with
  | O => []
  | S t =>
      let k := fit b (part_room b num_pdus leftover nn) cs in
      take k cs :: chunks b t num_pdus leftover (nn + 1) (drop k cs)
  end.

Definition part_udl (b : bool) (num_pdus : Z) (text : list Z) : Z :=
  text_weight b text + (if b then header_septets num_pdus else header_bytes num_pdus).

(** Nothing is lost of a text whose characters have one weight. *)
Lemma chunks_concat b todo num_pdus leftover : forall cs nn,
  let last := if 0 <? leftover then leftover else block_of b in
  0 <= leftover < block_of b -> nn + Z.of_nat todo = num_pdus ->
  text_weight b cs = match todo with O => 0 | S t => Z.of_nat t * block_of b + last end ->
  (todo <= 1)%nat \/ Forall (fun c => char_weight b c = unit_of b) cs ->
  concat (chunks b todo num_pdus leftover nn cs) = cs
  /\ (forall i text, (S i < todo)%nat -> chunks b todo num_pdus leftover nn cs !! i = Some text -> text_weight b text = block_of b).
Proof.
  induction todo as [|t IH]; intros cs nn last Hlo Hnn Hw Hu.
  { split; [|by intros [|i]]. destruct cs as [|c cs']; [done|]. rewrite text_weight_cons in Hw.
    pose proof (char_weight_pos b c). pose proof (text_weight_nonneg b cs'). lia. }
  assert (0 < last <= block_of b) as Hlast by (unfold last; destruct (Z.ltb_spec 0 leftover); destruct b; cbn in *; lia).
  cbn [chunks concat]. set (room := part_room _ _ _ _). set (k := fit b room cs).
  assert (text_weight b (take k cs) + text_weight b (drop k cs) = text_weight b cs) as Hsum
    by by rewrite <- text_weight_app, take_drop.
  assert (room = match t with O => last | S _ => block_of b end) as Hroom.
  { unfold room, part_room, last. destruct (Z.eqb_spec nn (num_pdus - 1)); destruct t; try lia;
      [by rewrite andb_true_r|by rewrite andb_false_r]. }
  assert (text_weight b (take k cs) = room) as Ht.
  { unfold k. rewrite Hroom. destruct t as [|t].
    - rewrite fit_all by lia. rewrite firstn_all. lia.
    - destruct Hu as [?|Hu]; [lia|]. pose proof (uniform_weight b _ cs Hu) as Hcw.
      assert (block_of b = unit_of b * Z.of_nat (Z.to_nat (block_of b / unit_of b))) as Hb by by destruct b.
      assert (Z.to_nat (block_of b / unit_of b) <= length cs)%nat as Hk by (destruct b; cbn in *; nia).
      rewrite Hb at 1. rewrite fit_uniform; [|done|done|by destruct b].
      rewrite (uniform_weight b (unit_of b)) by by apply Forall_take. rewrite length_take, Nat.min_l by done. lia. }
  destruct (IH (drop k cs) (nn + 1)) as [Hc Hi]; [done|lia| | |].
  { rewrite Ht, Hroom in Hsum. fold last. destruct t; lia. }
  { destruct Hu as [Hu|Hu]; [left; lia|right; by apply Forall_drop]. }
  split; [by rewrite Hc, take_drop|]. intros [|i] text Hlt; cbn [lookup list_lookup].
  - intros [= <-]. rewrite Ht, Hroom. destruct t; [lia|done].
  - intros H. apply (Hi i); [lia|done].
Qed.

Lemma length_chunks b todo num_pdus leftover nn cs : length (chunks b todo num_pdus leftover nn cs) = todo.
Proof. revert nn cs. induction todo as [|t IH]; intros nn cs; [done|]. cbn [chunks length]. by rewrite IH. Qed.

(** A text whose parts hold it all: without escapes, or in one part. *)
Definition sendable (b : bool) (cs : list Z) : Prop :=
  if b then Forall basic_char cs \/ (Forall gsm_char cs /\ text_weight b cs <= block_of b) else Forall bmp_point cs.

Lemma sendable_ok b cs : sendable b cs -> text_ok b cs.
Proof.
  destruct b; [|done]. unfold sendable, text_ok. intros [H|[H _]]; [|done]. eapply Forall_impl; [exact H|]. by left.
Qed.

Lemma sendable_uniform b cs : sendable b cs ->
  text_weight b cs <= block_of b \/ Forall (fun c => char_weight b c = unit_of b) cs.
Proof.
  intros H. destruct b; cbn in *.
  - destruct H as [H|[_ H]]; [right|by left]. eapply Forall_impl; [exact H|]. intros c Hc.
    destruct (basic_char_septet c Hc) as (nn & E & _). cbn. by rewrite E.
  - right. by apply Forall_true.
Qed.

(** The number of parts and what is in the last one. *)
Lemma parts_weight b w : 0 <= w ->
  let leftover := w mod block_of b in let num_pdus := w / block_of b + (if 0 <? leftover then 1 else 0) in
  0 <= leftover < block_of b /\ 0 <= num_pdus
  /\ w = match Z.to_nat num_pdus with
         | O => 0
         | S t => Z.of_nat t * block_of b + (if 0 <? leftover then leftover else block_of b)
         end
  /\ (w <= block_of b -> (Z.to_nat num_pdus <= 1)%nat) /\ (forall n, w <= n * block_of b -> num_pdus <= n).
Proof.
  intros Hw leftover num_pdus. assert (0 < block_of b) as HB by by destruct b.
  pose proof (Z.div_mod w (block_of b) ltac:(lia)) as Hdm. pose proof (Z.mod_pos_bound w (block_of b) HB) as Hm. fold leftover in Hdm, Hm.
  assert (0 <= w / block_of b) as Hq by (apply Z.div_pos; lia). split; [done|].
  unfold num_pdus. destruct (Z.ltb_spec 0 leftover).
  - split_and!; [lia| |intros; nia|intros; nia].
    replace (Z.to_nat (w / block_of b + 1)) with (S (Z.to_nat (w / block_of b))) by lia. lia.
  - split_and!; [lia| |intros; nia|intros; nia].
    destruct (Z.to_nat (w / block_of b + 0)) as [|t] eqn:E; nia.
Qed.

Lemma gsm_char_count c : gsm_char c -> unichar_to_gsm7_count c <> 0.
Proof.
  intros [Hc|Hc].
  - destruct (basic_char_septet c Hc) as (_ & _ & _ & _ & _ & _ & ->). done.
  - destruct (extension_char_septets c Hc) as (nn & E & _). pose proof (gsm7_weight c) as H. unfold char_weight in H. rewrite E in H.
    simpl in H. destruct (Z.eqb_spec (unichar_to_gsm7_count c) 0); lia.
Qed.

Lemma check_gsm7_chars utf8 : Forall gsm_char (utf8_points utf8) -> utf8_check_gsm7 utf8 = true.
Proof.
  intros H. unfold utf8_check_gsm7. apply forallb_forall. intros c Hc%list_elem_of_In.
  rewrite Forall_forall in H. specialize (H c Hc). apply negb_true_iff, Z.eqb_neq. by apply gsm_char_count.
Qed.

Lemma fit_app b room cs1 cs2 : text_weight b cs1 <= room ->
  fit b room (cs1 ++ cs2) = (length cs1 + fit b (room - text_weight b cs1) cs2)%nat.
Proof.
  revert room. induction cs1 as [|c cs1 IH]; intros room Hr.
  { cbn. f_equal. destruct b; simpl; lia. }
  rewrite text_weight_cons in Hr |- *. pose proof (text_weight_nonneg b cs1). cbn [app fit length].
  rewrite (proj2 (Z.leb_le _ _)) by lia. rewrite IH by lia. cbn [Nat.add]. do 3 f_equal. lia.
Qed.

Section Delivery.
Context (malloc : Z -> option (list Z)) `{Hmalloc : !Malloc malloc} (has_memory : forall n, malloc n <> None).
Context (a : SmsAddressRec) (ts : list Z) (Ha : address_ok a) (Hts : length ts = 7%nat) (Htb : Forall (in_u 8) ts).

(** A message as the phone reads it: from this sender, at this time. *)
Definition from_sender (d : Delivered) : Prop :=
  d_toa d = addr_toa a /\ d_digits d = take (Z.to_nat (addr_len a)) (nibbles_of (addr_data a)) /\ d_stamp d = ts.

(** The phone reads the chunks, each with its number. *)
Lemma create_loop_read b ref_num num_pdus leftover rope todo : forall src nn,
  let cs := utf8_points src in text_ok b cs -> 0 <= leftover < block_of b ->
  exists l ds, create_loop malloc todo src b a ts ref_num num_pdus (block_of b) leftover nn rope = Ret (Some l)
    /\ Forall sent_pdu l /\ read_parts l = Some ds /\ d_text <$> ds = chunks b todo num_pdus leftover nn cs
    /\ forall i d, ds !! i = Some d -> from_sender d /\ d_part d = part_of ref_num num_pdus (nn + Z.of_nat i)
         /\ d_udl d = part_udl b num_pdus (d_text d) /\ d_octets d = (if b then (7 * d_udl d + 7) / 8 else d_udl d).
Proof.
  induction todo as [|t IH]; intros src nn cs Hok Hlo; [by exists [], []|].
  assert (Forall (fun c => 0 <= c) cs) as Hnonneg by by apply (text_ok_nonneg b).
  cbn [create_loop chunks]. fold (part_room b num_pdus leftover nn). set (room := part_room _ _ _ _).
  assert (0 <= room <= block_of b) as Hroom by (unfold room, part_room; destruct (_ && _); lia).
  pose proof (utf8_skip_splits b src room Hnonneg ltac:(lia)) as Hs. fold cs in Hs.
  fold (utf8_skip_chars b src room). set (src' := utf8_skip_chars b src room) in *. set (k := fit b room cs) in *.
  pose proof (splits_part _ _ _ Hs) as Htext. fold cs in Htext. destruct (text_ok_cut b k cs Hok) as [Hok1 Hok2].
  set (utf8 := take _ src) in *. assert (text_points utf8 = take k cs) as Hpts.
  { rewrite text_points_nonneg; rewrite Htext; [done|]. by apply (text_ok_nonneg b). }
  destruct (create_deliver_read malloc utf8 b a ts ref_num num_pdus nn rope Ha Hts Htb has_memory) as (pdu & Ec & Hpb & Hpl & Er).
  { rewrite Hpts. apply text_ok_fits; [done|]. pose proof (fit_weight b room cs ltac:(lia)) as Hfw. change (fit b room cs) with k in Hfw. lia. }
  rewrite Ec. cbn [mbind outcome_bind]. rewrite Hpts in Er.
  assert (utf8_points src' = drop k cs) as Hrest by apply Hs.
  destruct (IH src' (nn + 1)) as (l & ds & El & Hsent & Em & Ecat & Ei); [by rewrite Hrest|done|].
  exists (pdu :: l). eexists (_ :: ds). rewrite El. cbn [mbind outcome_bind]. split_and!.
  - done.
  - by constructor.
  - unfold read_parts in *. cbn [mapM]. rewrite Er. cbn [mbind option_bind]. by rewrite Em.
  - cbn [fmap list_fmap d_text]. by rewrite Ecat, Hrest.
  - intros [|i] d; cbn [lookup list_lookup].
    + intros [= <-]. split_and!; [by split_and!|cbn [d_part]; by rewrite Z.add_0_r|by destruct b|by destruct b].
    + intros Hi. destruct (Ei i d Hi) as (H1 & H2 & H3). split_and!; [done|rewrite H2; f_equal; lia|apply H3|apply H3].
Qed.

Lemma create_deliver_utf8_read utf8 ref_num rope :
  let cs := utf8_points utf8 in let b := utf8_check_gsm7 utf8 in
  let w := text_weight b cs in let leftover := w mod block_of b in
  let num_pdus := w / block_of b + (if 0 <? leftover then 1 else 0) in text_ok b cs ->
  exists l ds, smspdu_create_deliver_utf8 malloc utf8 a ts ref_num rope = Ret (Some l, u8 (ref_num + 1))
    /\ Forall sent_pdu l /\ read_parts l = Some ds /\ d_text <$> ds = chunks b (Z.to_nat num_pdus) num_pdus leftover 0 cs
    /\ forall i d, ds !! i = Some d -> from_sender d /\ d_part d = part_of ref_num num_pdus (Z.of_nat i)
         /\ d_udl d = part_udl b num_pdus (d_text d) /\ d_octets d = (if b then (7 * d_udl d + 7) / 8 else d_udl d).
Proof.
  intros cs b w leftover num_pdus Hok. pose proof (text_weight_nonneg b cs) as Hw0. fold w in Hw0.
  assert (0 < block_of b) as HB by by destruct b.
  assert (0 <= leftover < block_of b) as Hlo by (unfold leftover; by apply Z.mod_pos_bound).
  pose proof (text_points_nonneg utf8 (text_ok_nonneg b cs Hok)) as Hpts. fold cs in Hpts.
  destruct (create_loop_read b ref_num num_pdus leftover rope (Z.to_nat num_pdus) utf8 0 Hok Hlo) as (l & ds & El & H).
  exists l, ds. split; [|exact H]. unfold smspdu_create_deliver_utf8. fold b.
  assert ((if b then utf8_to_gsm7_count utf8 else 2 * (Z.of_nat (length (utf8_to_ucs2 utf8)) `quot` 2)) = w) as ->.
  { unfold w, text_weight. rewrite gsm7_count_septets, ucs2_length, Hpts. destruct b; [done|]. rewrite Z.quot_div_nonneg by lia. lia. }
  fold (block_of b). change (if b then MAX_USER_DATA_SEPTETS - USER_DATA_HEADER_SIZE else MAX_USER_DATA_BYTES - USER_DATA_HEADER_SIZE)
    with (block_of b). rewrite Z.quot_div_nonneg by lia.
  replace (w - w / block_of b * block_of b) with leftover by (unfold leftover; rewrite Z.mod_eq by lia; lia).
  replace (if 0 <? leftover then w / block_of b + 1 else w / block_of b) with num_pdus by (unfold num_pdus; destruct (0 <? leftover); by rewrite ?Z.add_0_r).
  rewrite El. done.
Qed.

(** What the phone reads of all parts. *)
Lemma text_delivered utf8 ref_num rope :
  let cs := utf8_points utf8 in let b := utf8_check_gsm7 utf8 in
  sendable b cs -> text_weight b cs <= 255 * block_of b -> in_u 8 ref_num ->
  exists l ds, smspdu_create_deliver_utf8 malloc utf8 a ts ref_num rope = Ret (Some l, u8 (ref_num + 1))
    /\ Forall sent_pdu l /\ read_parts l = Some ds /\ concat (d_text <$> ds) = cs
    /\ forall i d, ds !! i = Some d -> from_sender d
         /\ d_part d = if 1 <? Z.of_nat (length ds) then Some (ref_num, Z.of_nat (length ds), Z.of_nat i + 1) else None.
Proof.
  intros cs b Hs Hw Href. destruct (parts_weight b (text_weight b cs) (text_weight_nonneg b cs)) as (P1 & P2 & P3 & P4 & P5).
  cbv zeta in *. destruct (create_deliver_utf8_read utf8 ref_num rope (sendable_ok b cs Hs)) as (l & ds & E & Hsent & Er & Et & Ei).
  fold cs b in E, Et, Ei. set (num_pdus := text_weight b cs / block_of b + _) in *. set (leftover := text_weight b cs mod block_of b) in *.
  exists l, ds. rewrite Et. split_and!; [done|done|done| |].
  - apply (chunks_concat b (Z.to_nat num_pdus) num_pdus leftover cs 0); [done|lia|done|].
    destruct (sendable_uniform b cs Hs) as [H|H]; [left; by apply P4|by right].
  - intros i d Hi. destruct (Ei i d Hi) as (H1 & H2 & _). split; [done|]. rewrite H2.
    assert (length ds = Z.to_nat num_pdus) as Hlen by (rewrite <- (length_chunks b (Z.to_nat num_pdus) num_pdus leftover 0 cs), <- Et; by rewrite length_fmap).
    apply lookup_lt_Some in Hi. specialize (P5 255 Hw). rewrite Hlen, Z2Nat.id by done. unfold part_of.
    destruct (Z.ltb_spec 1 num_pdus); [|done]. rewrite (wrap_small 8 ref_num), (wrap_small 8 num_pdus), (wrap_small 8 (Z.of_nat i)), (wrap_small 8 (Z.of_nat i + 1)) by (done || unfold in_u; lia). done.
Qed.

(** Every message arrives as it was sent. For any text of characters up
    to U+FFFF (those of the GSM alphabet may be escaped ones when one part is
    enough), the PDUs made of it are, for a phone that decodes them by 3GPP
    23.040 and 23.038, from the given sender at the given time, numbered from
    1 to their number under one reference when there are several, and their
    texts in this order are the text. *)
Theorem sms_text_delivered utf8 ref_num rope :
  let cs := utf8_points utf8 in let b := utf8_check_gsm7 utf8 in
  sendable b cs -> text_weight b cs <= 255 * block_of b -> in_u 8 ref_num ->
  exists l ds, smspdu_create_deliver_utf8 malloc utf8 a ts ref_num rope = Ret (Some l, u8 (ref_num + 1))
    /\ read_parts l = Some ds /\ concat (d_text <$> ds) = cs
    /\ forall i d, ds !! i = Some d -> from_sender d
         /\ d_part d = if 1 <? Z.of_nat (length ds) then Some (ref_num, Z.of_nat (length ds), Z.of_nat i + 1) else None.
Proof.
  intros cs b Hs Hw Href. destruct (text_delivered utf8 ref_num rope Hs Hw Href) as (l & ds & E & _ & H). by exists l, ds.
Qed.

(** A text of several parts breaks the limit of a message. A part is
    filled with 154 septets, but its header takes seven, not six: the first
    part of any text of more than 154 characters of the basic alphabet has
    161 septets of user data in 141 bytes, above the limits of 160 and
    140. *)
Theorem full_part_too_long utf8 ref_num rope :
  let cs := utf8_points utf8 in Forall basic_char cs -> utf8_check_gsm7 utf8 = true -> (154 < length cs)%nat ->
  exists l ds d, smspdu_create_deliver_utf8 malloc utf8 a ts ref_num rope = Ret (Some l, u8 (ref_num + 1))
    /\ read_parts l = Some ds /\ ds !! 0%nat = Some d
    /\ d_udl d = 161 /\ d_octets d = 141 /\ MAX_USER_DATA_SEPTETS < d_udl d /\ MAX_USER_DATA_BYTES < d_octets d.
Proof.
  intros cs Hb Hg Hl. assert (sendable true cs) as Hs by by left. pose proof (text_weight_nonneg true cs) as Hw0.
  assert (Forall (fun c => char_weight true c = unit_of true) cs) as Hu.
  { eapply Forall_impl; [exact Hb|]. intros c Hc. destruct (basic_char_septet c Hc) as (nn & E & _). cbn. by rewrite E. }
  pose proof (uniform_weight true 1 cs Hu) as Hw.
  destruct (parts_weight true (text_weight true cs) Hw0) as (P1 & P2 & P3 & P4 & P5). cbv zeta in *.
  pose proof (create_deliver_utf8_read utf8 ref_num rope) as Hc. cbv zeta in Hc. rewrite Hg in Hc. fold cs in Hc.
  destruct Hc as (l & ds & E & _ & Er & Et & Ei); [by apply sendable_ok|].
  set (num_pdus := text_weight true cs / block_of true + _) in *. set (leftover := text_weight true cs mod block_of true) in *.
  assert (2 <= num_pdus) as Hnum by (unfold num_pdus, leftover; rewrite Hw; cbn [block_of]; destruct (Z.ltb_spec 0 ((1 * Z.of_nat (length cs)) mod 154)); lia).
  assert (length ds = Z.to_nat num_pdus) as Hlen by (rewrite <- (length_chunks true (Z.to_nat num_pdus) num_pdus leftover 0 cs), <- Et; by rewrite length_fmap).
  destruct (lookup_lt_is_Some_2 ds 0 ltac:(lia)) as [d Hd]. exists l, ds, d. destruct (Ei 0%nat d Hd) as (_ & _ & H3 & H4).
  destruct (chunks_concat true (Z.to_nat num_pdus) num_pdus leftover cs 0) as [_ Hc]; [done|lia|done|by right|].
  assert (text_weight true (d_text d) = 154) as Htw.
  { apply (Hc 0%nat); [lia|]. by rewrite <- Et, list_lookup_fmap, Hd. }
  assert (d_udl d = 161) as Hudl by (rewrite H3; unfold part_udl, header_septets; rewrite Htw, (proj2 (Z.ltb_lt 1 num_pdus)) by lia; done).
  rewrite H4, Hudl. split_and!; by try done.
Qed.

(** A character can get lost. The number of parts is computed as if every
    part could be filled, but an escaped character that does not fit the last
    septet of a part moves to the next one: of 153 basic characters and an
    escaped one, the two PDUs hold the 153. *)
Theorem escaped_char_lost utf8 bs e ref_num rope :
  utf8_points utf8 = bs ++ [e] -> Forall basic_char bs -> length bs = 153%nat -> extension_char e ->
  exists l ds, smspdu_create_deliver_utf8 malloc utf8 a ts ref_num rope = Ret (Some l, u8 (ref_num + 1))
    /\ read_parts l = Some ds /\ length ds = 2%nat /\ concat (d_text <$> ds) = bs.
Proof.
  intros Hcs Hb Hl He. assert (Forall gsm_char (bs ++ [e])) as Hg.
  { apply Forall_app. split; [eapply Forall_impl; [exact Hb|by left]|]. apply Forall_singleton. by right. }
  pose proof (create_deliver_utf8_read utf8 ref_num rope) as Hc. cbv zeta in Hc.
  rewrite check_gsm7_chars, Hcs in Hc by by rewrite Hcs.
  assert (text_weight true bs = 153) as Hwb.
  { rewrite (uniform_weight true 1); [by rewrite Hl|]. eapply Forall_impl; [exact Hb|]. intros c Hc'.
    destruct (basic_char_septet c Hc') as (nn & E & _). cbn. by rewrite E. }
  assert (char_weight true e = 2) as Hwe by (destruct (extension_char_septets e He) as (nn & E & _); cbn; by rewrite E).
  assert (text_weight true (bs ++ [e]) = 155) as Hw by (rewrite text_weight_app, text_weight_cons, Hwb, Hwe; done).
  rewrite Hw in Hc. destruct Hc as (l & ds & E & _ & Er & Et & _); [done|]. exists l, ds.
  change (155 mod block_of true) with 1 in Et. change (155 / block_of true + (if 0 <? 1 then 1 else 0)) with 2 in Et.
  change (Z.to_nat 2) with 2%nat in Et. cbn [chunks] in Et. unfold part_room in Et. cbn [andb Z.ltb Z.compare Z.eqb Z.sub Z.add Z.opp Z.pos_sub] in Et.
  change (2 - 1) with 1 in Et. change (0 =? 1) with false in Et. change (0 + 1 =? 1) with true in Et. cbn [block_of] in Et.
  rewrite fit_app, Hwb, Hl in Et by (rewrite Hwb; lia). change (154 - 153) with 1 in Et. cbn [fit] in Et. rewrite Hwe in Et.
  change (2 <=? 1) with false in Et. cbn iota in Et. rewrite Nat.add_0_r in Et.
  rewrite (take_app_length' bs [e] 153), (drop_app_length' bs [e] 153) in Et by done. cbn [fit] in Et. rewrite Hwe in Et.
  change (2 <=? 1) with false in Et. cbn [take] in Et. split_and!; [done|done| |].
  - by rewrite <- (length_fmap d_text), Et.
  - rewrite Et. cbn. by rewrite app_nil_r.
Qed.

End Delivery.

(** ** Examples *)

(** A heap that never runs out, filled with 0xa5. *)
Definition example_malloc (n : Z) : option (list Z) := Some (replicate (Z.to_nat n) 0xa5).

#[export] Instance example_malloc_ok : Malloc example_malloc.
Proof.
  split; intros n mem [= <-]; [by rewrite length_replicate|]. apply Forall_replicate. unfold in_u. lia.
Qed.

Lemma example_memory n : example_malloc n <> None.
Proof. done. Qed.

Definition example_sender : SmsAddressRec := mkAddr 4 0x91 ([0x51; 0x05] ++ replicate 14 0).
Definition example_stamp : list Z := [0x51; 0x10; 0x92; 0x21; 0x00; 0x00; 0x04].
Definition example_stack : GsmRopeRec := mkRope RopeNull 7 3 true (replicate 16 9).

Lemma example_sender_ok : address_ok example_sender.
Proof. constructor; cbn; [done| |lia|unfold in_u; lia]. repeat constructor; unfold in_u; lia. Qed.

Lemma example_stamp_ok : Forall (in_u 8) example_stamp.
Proof. repeat constructor; unfold in_u; lia. Qed.

(** A text of two parts in UCS-2: 67 times U+0416 and U+0417. *)
Lemma sms_text_delivered_witness : let text := concat (replicate 67 [0xd0; 0x96]) ++ [0xd0; 0x97] in
  exists l ds, smspdu_create_deliver_utf8 example_malloc text example_sender example_stamp 8 example_stack = Ret (Some l, 9)
    /\ read_parts l = Some ds /\ concat (d_text <$> ds) = replicate 67 0x416 ++ [0x417]
    /\ forall i d, ds !! i = Some d -> from_sender example_sender example_stamp d
         /\ d_part d = if 1 <? Z.of_nat (length ds) then Some (8, Z.of_nat (length ds), Z.of_nat i + 1) else None.
Proof.
  intros text. assert (utf8_points text = replicate 67 0x416 ++ [0x417]) as Hp by by vm_compute.
  assert (utf8_check_gsm7 text = false) as Hb by by vm_compute. rewrite <- Hp.
  apply (sms_text_delivered example_malloc example_memory example_sender example_stamp example_sender_ok eq_refl example_stamp_ok
    text 8 example_stack); rewrite ?Hb, ?Hp.
  - unfold sendable. repeat constructor; unfold bmp_point; lia.
  - by vm_compute.
  - unfold in_u. lia.
Defined.

Lemma basic_H : basic_char 72.
Proof. by exists 72%nat. Qed.

Lemma full_part_too_long_witness : exists l ds d,
  smspdu_create_deliver_utf8 example_malloc (replicate 155 72) example_sender example_stamp 0 example_stack = Ret (Some l, 1)
  /\ read_parts l = Some ds /\ ds !! 0%nat = Some d
  /\ d_udl d = 161 /\ d_octets d = 141 /\ MAX_USER_DATA_SEPTETS < d_udl d /\ MAX_USER_DATA_BYTES < d_octets d.
Proof.
  assert (utf8_points (replicate 155 72) = replicate 155 72) as Hp by by vm_compute.
  apply (full_part_too_long example_malloc example_memory example_sender example_stamp example_sender_ok eq_refl example_stamp_ok
    (replicate 155 72) 0 example_stack); rewrite ?Hp.
  - apply Forall_replicate, basic_H.
  - by vm_compute.
  - rewrite length_replicate. lia.
Defined.

(** 153 letters and a bracket. *)
Lemma escaped_char_lost_witness : exists l ds,
  smspdu_create_deliver_utf8 example_malloc (replicate 153 72 ++ [91]) example_sender example_stamp 0 example_stack = Ret (Some l, 1)
  /\ read_parts l = Some ds /\ length ds = 2%nat /\ concat (d_text <$> ds) = replicate 153 72.
Proof.
  apply (escaped_char_lost example_malloc example_memory example_sender example_stamp example_sender_ok eq_refl example_stamp_ok
    (replicate 153 72 ++ [91]) (replicate 153 72) 91 0 example_stack).
  - by vm_compute.
  - apply Forall_replicate, basic_H.
  - by rewrite length_replicate.
  - split_and!; [done|by vm_compute|by exists 60%nat].
Defined.

(** ** The console command *)

(** The replies of [sms send]. *)
Inductive sms_reply := MissingArgument | BadNumber | BadText | NoModem | InternalError | SmsSent.

(** What is before the first blank and what is behind it. *)
Fixpoint split_blank (l : list Z) : option (list Z * list Z) :=
  match l with
  | [] => None
  | c :: l => if c =? 32 then Some ([], l) else '(l1, l2) ← split_blank l; Some (c :: l1, l2)
  end.

(** The reply, the texts given to the guest and the next reference. [modem]
    is whether there is one and whether it has a callback. *)
Definition do_sms_send (malloc : Z -> option (list Z)) (modem : option bool) (args : option (list Z)) (now : list Z)
    (ref_num : Z) (rope : GsmRopeRec) : outcome (sms_reply * list (list Z) * Z) :=
  match args with
  | None => Ret (MissingArgument, [], ref_num)
  | Some args =>
      match split_blank args with
      | None => Ret (MissingArgument, [], ref_num)
      | Some (number, p) =>
          match sms_address_from_str number with
          | None => Ret (BadNumber, [], ref_num)
          | Some sender =>
              match sms_utf8_from_message_str p with
              | None => Ret (BadText, [], ref_num)
              | Some text =>
                  match modem with
                  | None => Ret (NoModem, [], ref_num)
                  | Some unsol_func =>
                      '(pdus, ref_num) ← smspdu_create_deliver_utf8 malloc text sender now ref_num rope;
                      match pdus with
                      | None => Ret (InternalError, [], ref_num)
                      | Some pdus => Ret (SmsSent, concat (amodem_receive_sms unsol_func <$> pdus), ref_num)
                      end
                  end
              end
          end
      end
  end.

(** The line a PDU is printed on. *)
Definition cmt_line (p : SmsPDURec) : list Z := SMS_UNSOL_HEADER ++ gsm_hex_from_bytes (pdu_base p) ++ [13; 10].

(** The PDU of a line of the guest's modem. *)
Definition read_cmt_line (line : list Z) : option (list Z) :=
  let l := drop (length SMS_UNSOL_HEADER) line in gsm_hex_to_bytes (take (length l - 2) l).

Lemma receive_sms_line p : sent_pdu p -> amodem_receive_sms true p = [cmt_line p] /\ read_cmt_line (cmt_line p) = Some (pdu_base p).
Proof.
  intros [Hb Hl]. unfold amodem_receive_sms, smspdu_to_hex. cbn [length SMS_UNSOL_HEADER].
  change (OUT_BUFF_SIZE - 3 - Z.of_nat 9) with 1012. rewrite (proj2 (Z.ltb_lt _ 1012)) by lia.
  rewrite (proj2 (Z.ltb_ge 1012 _)) by lia. split.
  - unfold cmt_line. do 4 f_equal. apply take_ge. rewrite Z.quot_div_nonneg by lia. lia.
  - unfold read_cmt_line, cmt_line. rewrite drop_app_length, length_app. cbn [length].
    replace (length (gsm_hex_from_bytes (pdu_base p)) + 2 - 2)%nat with (length (gsm_hex_from_bytes (pdu_base p))) by lia.
    rewrite take_app_length. by apply hex_read_back.
Qed.

(** What the guest gets of the lines of its modem. *)
Definition read_lines (lines : list (list Z)) : option (list Delivered) :=
  mapM (fun line => p ← read_cmt_line line; read_deliver p) lines.

Lemma read_lines_sent l : Forall sent_pdu l ->
  read_lines (concat (amodem_receive_sms true <$> l)) = read_parts l.
Proof.
  induction 1 as [|p l Hp _ IH]; [done|]. destruct (receive_sms_line p Hp) as [E1 E2].
  cbn [fmap list_fmap concat]. rewrite E1. unfold read_lines, read_parts in *. cbn [app mapM]. rewrite E2. cbn [mbind option_bind].
  by rewrite IH.
Qed.

Lemma split_blank_at number rest : Forall (fun c => c <> 32) number -> split_blank (number ++ 32 :: rest) = Some (number, rest).
Proof.
  induction 1 as [|c number Hc _ IH]; [done|]. cbn [app split_blank]. by rewrite (proj2 (Z.eqb_neq c 32)), IH.
Qed.

Lemma semi_octets_bytes ds : Forall digit_ok ds -> Forall (in_u 8) (semi_octets ds).
Proof.
  unfold digit_ok, in_u. induction ds as [|d|d0 d1 ds IH] using pairs_ind; intros H; [done| |].
  - apply Forall_cons in H as [H _]. repeat constructor; lia.
  - apply Forall_cons in H as [H0 H]. apply Forall_cons in H as [H1 H]. constructor; [lia|by apply IH].
Qed.

Lemma nibbles_of_semi_octets ds : Forall digit_ok ds -> take (length ds) (nibbles_of (semi_octets ds)) = ds.
Proof.
  induction ds as [|d|d0 d1 ds IH] using pairs_ind; intros H; [done| |].
  - apply Forall_cons in H as [H _]. cbn. f_equal. by destruct (digit_halves d 0 H ltac:(unfold digit_ok; lia)) as (_ & _ & ? & _).
  - apply Forall_cons in H as [H0 H]. apply Forall_cons in H as [H1 H]. cbn [semi_octets length].
    change (nibbles_of (d0 + 16 * d1 :: semi_octets ds)) with (nibbles_of [d0 + 16 * d1] ++ nibbles_of (semi_octets ds)).
    unfold nibbles_of at 1. cbn [fmap list_fmap concat app take]. destruct (digit_halves d0 d1 H0 H1) as (-> & -> & _). by rewrite IH.
Qed.

(** The sender made of a typed number. *)
Lemma typed_sender (plus : bool) ds : Forall digit_ok ds -> (1 <= length ds <= 32)%nat ->
  exists a, sms_address_from_str ((if plus then [43] else []) ++ ascii_digits ds) = Some a /\ address_ok a
    /\ addr_toa a = (if plus then 0x91 else 0x81) /\ take (Z.to_nat (addr_len a)) (nibbles_of (addr_data a)) = ds.
Proof.
  intros Hds Hl. eexists. split; [by apply address_from_digits|]. pose proof (length_semi_octets ds) as Hs.
  rewrite Z.quot_div_nonneg in Hs by lia. split_and!; cbn [addr_toa addr_len addr_data]; [|done|].
  - constructor; cbn [addr_toa addr_len addr_data]; [rewrite length_app, length_replicate; lia| |lia|destruct plus; unfold in_u; lia].
    apply Forall_app. split; [by apply semi_octets_bytes|]. apply Forall_replicate. unfold in_u. lia.
  - rewrite Nat2Z.id, nibbles_of_app, take_app_le by (rewrite length_nibbles_of; lia). by apply nibbles_of_semi_octets.
Qed.


