(* ===== verification/SmsReceiver.v ===== *)
(** The SMS-SUBMIT receiver of telephony/sms.c: parts of messages the guest
    sends are collected by number and reference until a message is complete,
    which is then turned into SMS-DELIVER PDUs for the receiving emulator. *)
From stdpp Require Import gmap.
From S2P Require Import Prelude GsmText GsmRope SmsPdu SmsDeliver.
Open Scope list_scope.
#[local] Ltac Zify.zify_post_hook ::= Z.div_mod_to_equations.

Record SmsFragmentRec := mkFrag {
  frag_from : SmsAddressRec;
  frag_ref : Z;
  frag_max : Z;
  frag_count : Z;
  frag_index : Z;
  frag_pdus : list (option SmsPDURec);
}.

(** The list of fragments is in the order of its links. *)
Record SmsReceiverRec := mkReceiver { rec_last : Z; rec_fragments : list SmsFragmentRec }.

Definition sms_receiver_create : SmsReceiverRec := mkReceiver 0 [].

(** The fragment and the receiver; memory for a fragment is there. *)
Definition sms_fragment_alloc (rec : SmsReceiverRec) (from : SmsAddressRec) (ref max : Z) : SmsFragmentRec * SmsReceiverRec :=
  let last := s32 (rec_last rec + 1) in
  (mkFrag from (u8 ref) (u8 max) 0 last (replicate (Z.to_nat max) None), mkReceiver last (rec_fragments rec)).

(** The position of a fragment in the list. *)
Fixpoint sms_receiver_find_p (l : list SmsFragmentRec) (from : SmsAddressRec) (ref : Z) : outcome (option nat) :=
  match l with
  | [] => Ret None
  | node :: l =>
      same ← (if frag_ref node =? ref then sms_address_eq (frag_from node) from else Ret false);
      if same : bool then Ret (Some O)
      else p ← sms_receiver_find_p l from ref; Ret (match p with Some p => Some (S p) | None => None end)
  end.

Fixpoint sms_receiver_find_index_p (l : list SmsFragmentRec) (index : Z) : option nat :=
  match l with
  | [] => None
  | node :: l => if frag_index node =? index then Some O else S <$> sms_receiver_find_index_p l index
  end.

(** [frag->pdus[cur] = submit_pdu] with the count, and the result. *)
Definition fragment_add (frag : SmsFragmentRec) (cur : Z) (pdu : SmsPDURec) : outcome (Z * SmsFragmentRec) :=
  old ← or_out (frag_pdus frag !! Z.to_nat cur);
  let count := match old with Some _ => u8 (frag_count frag - 1) | None => frag_count frag end in
  let count := u8 (count + 1) in
  let frag := mkFrag (frag_from frag) (frag_ref frag) (frag_max frag) count (frag_index frag)
                (<[Z.to_nat cur := Some pdu]> (frag_pdus frag)) in
  Ret (if frag_max frag <=? count then frag_index frag else 0, frag).

(** The fragment that is found or made. *)
Definition find_or_alloc (rec : SmsReceiverRec) (from : SmsAddressRec) (ref max : Z) (pos : option nat) : SmsReceiverRec * nat :=
  match pos with
  | Some p => (rec, p)
  | None =>
      let '(frag, rec) := sms_fragment_alloc rec from ref max in
      (mkReceiver (rec_last rec) (rec_fragments rec ++ [frag]), length (rec_fragments rec))
  end.

(** The result and the receiver. [from0] is what the stack holds. *)
Definition sms_receiver_add_submit_pdu (rec : SmsReceiverRec) (pdu : SmsPDURec) (from0 : SmsAddressRec) :
    outcome (Z * SmsReceiverRec) :=
  let '(ok, from) := smspdu_get_receiver_address pdu from0 in
  if negb ok then Ret (-1, rec)
  else
    ref ← smspdu_get_ref pdu;
    if ref <? 0 then Ret (-1, rec)
    else
      max ← smspdu_get_max_index pdu;
      if max <? 0 then Ret (-1, rec)
      else
        pos ← sms_receiver_find_p (rec_fragments rec) from ref;
        let '(rec, pos) := find_or_alloc rec from ref max pos in
        cur ← smspdu_get_cur_index pdu;
        if cur <? 0 then Ret (-1, rec)
        else if max <=? cur then Ret (-1, rec)
        else
          frag ← or_out (rec_fragments rec !! pos);
          '(r, frag) ← fragment_add frag cur pdu;
          Ret (r, mkReceiver (rec_last rec) (<[pos := frag]> (rec_fragments rec))).

Definition sms_receiver_remove (rec : SmsReceiverRec) (index : Z) : SmsReceiverRec :=
  match sms_receiver_find_index_p (rec_fragments rec) index with
  | Some p => mkReceiver (rec_last rec) (delete p (rec_fragments rec))
  | None => rec
  end.

(** [n] bytes written at [off]. *)
Definition write_at (buf : list Z) (off : Z) (bs : list Z) : outcome (list Z) :=
  match bs with
  | [] => Ret buf
  | _ =>
      if (0 <=? off) && (off + Z.of_nat (length bs) <=? Z.of_nat (length buf)) then
        Ret (take (Z.to_nat off) buf ++ bs ++ drop (Z.to_nat off + length bs) buf)
      else OutOfBounds
  end.

Section Receiver.
Context (malloc : Z -> option (list Z)).

(** The text of one part: the result, and the bytes copied. *)
Definition part_text (p : option SmsPDURec) (a0 : SmsAddressRec) (r0 : GsmRopeRec) (utf8len : Z) : outcome (Z * list Z) :=
  pdu ← or_out p;
  t ← smspdu_get_text_message malloc pdu a0 r0 utf8len;
  Ret (match t with Some t => t | None => (-1, []) end).

(** Without a buffer: the sum of the lengths. *)
Fixpoint text_total (pdus : list (option SmsPDURec)) (a0 : SmsAddressRec) (r0 : GsmRopeRec) (total : Z) : outcome Z :=
  match pdus with
  | [] => Ret total
  | p :: pdus => '(partial, _) ← part_text p a0 r0 0; text_total pdus a0 r0 (total + partial)
  end.

(** [sms_receiver_get_text_message] with NULL, as it is called. *)
Definition sms_receiver_get_text_message (rec : SmsReceiverRec) (index : Z) (a0 : SmsAddressRec) (r0 : GsmRopeRec) : outcome Z :=
  match (p ← sms_receiver_find_index_p (rec_fragments rec) index; rec_fragments rec !! p) with
  | None => Ret (-1)
  | Some frag =>
      if negb (frag_count frag =? frag_max frag) then Ret (-1)
      else text_total (take (Z.to_nat (frag_count frag)) (frag_pdus frag)) a0 r0 0
  end.

(** The texts one behind the other in the buffer. *)
Fixpoint combine_text (pdus : list (option SmsPDURec)) (a0 : SmsAddressRec) (r0 : GsmRopeRec) (buf : list Z)
    (utf8len total : Z) : outcome (list Z) :=
  match pdus with
  | [] => Ret buf
  | p :: pdus =>
      '(partial, bs) ← part_text p a0 r0 (utf8len - total);
      buf ← write_at buf total bs;
      combine_text pdus a0 r0 buf utf8len (total + partial)
  end.

(** The PDUs, [None] for NULL, the receiver and the next reference. *)
Definition sms_receiver_create_deliver (rec : SmsReceiverRec) (index : Z) (from : SmsAddressRec) (now : list Z)
    (ref_num : Z) (a0 : SmsAddressRec) (r0 : GsmRopeRec) : outcome (option (list SmsPDURec) * SmsReceiverRec * Z) :=
  match (p ← sms_receiver_find_index_p (rec_fragments rec) index; rec_fragments rec !! p) with
  | None => Ret (None, rec, ref_num)
  | Some frag =>
      if negb (frag_count frag =? frag_max frag) then Ret (None, rec, ref_num)
      else
        utf8len ← sms_receiver_get_text_message rec index a0 r0;
        if utf8len <? 0 then Ret (None, sms_receiver_remove rec index, ref_num)
        else
          match malloc (utf8len + 1) with
          | None => Ret (None, sms_receiver_remove rec index, ref_num)
          | Some buf =>
              buf ← combine_text (take (Z.to_nat (frag_count frag)) (frag_pdus frag)) a0 r0 buf utf8len 0;
              '(result, ref_num) ← smspdu_create_deliver_utf8 malloc (take (Z.to_nat utf8len) buf) from now ref_num r0;
              Ret (result, sms_receiver_remove rec index, ref_num)
          end
  end.

End Receiver.

(** ** Messages by number and reference *)

(** What the comparison of two senders looks at. *)
Definition frag_key_of (from : SmsAddressRec) (ref : Z) : Z * Z * list Z * Z :=
  (addr_toa from, addr_len from, take (Z.to_nat (addr_len from)) (addr_data from), ref).
Definition frag_key (f : SmsFragmentRec) : Z * Z * list Z * Z := frag_key_of (frag_from f) (frag_ref f).

(** An address that can be compared. *)
Definition comparable (a : SmsAddressRec) : Prop := length (addr_data a) = 16%nat /\ 0 <= addr_len a <= 16.

Definition present (pdus : list (option SmsPDURec)) : Z := Z.of_nat (length (filter is_Some pdus)).

Record frag_ok (last : Z) (f : SmsFragmentRec) : Prop := {
  frag_from_ok : comparable (frag_from f);
  frag_max_ok : in_u 8 (frag_max f);
  frag_size : Z.of_nat (length (frag_pdus f)) = frag_max f;
  frag_counts : frag_count f = present (frag_pdus f);
  frag_numbered : 0 < frag_index f <= last;
}.

Record rec_ok (rec : SmsReceiverRec) : Prop := {
  rec_frags : Forall (frag_ok (rec_last rec)) (rec_fragments rec);
  rec_keys : NoDup (frag_key <$> rec_fragments rec);
  rec_indexes : NoDup (frag_index <$> rec_fragments rec);
  rec_range : 0 <= rec_last rec < 2 ^ 31;
}.

(** The messages that are being collected. *)
Definition messages (rec : SmsReceiverRec) : gmap (Z * Z * list Z * Z) (list (option SmsPDURec)) :=
  list_to_map ((fun f => (frag_key f, frag_pdus f)) <$> rec_fragments rec).

Lemma address_eq_spec a1 a2 : comparable a1 -> comparable a2 ->
  exists b, sms_address_eq a1 a2 = Ret b /\ forall r, b = true <-> frag_key_of a1 r = frag_key_of a2 r.
Proof.
  intros [L1 H1] [L2 H2]. unfold sms_address_eq, frag_key_of.
  destruct (Z.eqb_spec (addr_toa a1) (addr_toa a2)) as [Et|Et]; cbn [negb orb].
  2: { exists false. split; [done|]. intros r. split; [done|]. by intros [=]. }
  destruct (Z.eqb_spec (addr_len a1) (addr_len a2)) as [El|El]; cbn [negb].
  2: { exists false. split; [done|]. intros r. split; [done|]. by intros [=]. }
  rewrite !bool_decide_eq_false_2 by lia. cbn [orb]. eexists. split; [done|]. intros r.
  rewrite bool_decide_eq_true, Et, <- El. split; [by intros ->|by intros [=]].
Qed.

Lemma find_p_spec l from ref last : Forall (frag_ok last) l -> comparable from ->
  (sms_receiver_find_p l from ref = Ret None /\ frag_key_of from ref ∉ frag_key <$> l)
  \/ exists p f, sms_receiver_find_p l from ref = Ret (Some p) /\ l !! p = Some f /\ frag_key f = frag_key_of from ref.
Proof.
  intros Hl Hf. induction Hl as [|f l Hfo _ IH]; [left; split; [done|set_solver]|]. cbn [sms_receiver_find_p].
  assert (exists b, (if frag_ref f =? ref then sms_address_eq (frag_from f) from else Ret false) = Ret b
    /\ (b = true <-> frag_key f = frag_key_of from ref)) as (b & -> & Hb).
  { destruct (Z.eqb_spec (frag_ref f) ref) as [<-|Hne].
    - destruct (address_eq_spec _ _ (frag_from_ok _ _ Hfo) Hf) as (b & -> & Hb). exists b. split; [done|apply Hb].
    - exists false. split; [done|]. split; [done|]. unfold frag_key, frag_key_of. by intros [=]. }
  cbn [mbind outcome_bind]. destruct b.
  - right. exists O, f. split_and!; [done|done|by apply Hb].
  - destruct IH as [[-> Hn]|(p & g & -> & Hg & Hk)]; cbn.
    + left. split; [done|]. apply not_elem_of_cons. split; [|done]. intros E. symmetry in E. apply Hb in E. done.
    + right. exists (S p), g. by split_and!.
Qed.

Lemma present_cons x l : present (x :: l) = (match x with Some _ => 1 | None => 0 end) + present l.
Proof.
  unfold present. destruct x; [rewrite filter_cons_True by (by eexists); cbn [length]; lia|].
  by rewrite filter_cons_False by (by intros []).
Qed.

Lemma present_insert l (i : nat) old pdu : l !! i = Some old ->
  present (<[i := Some pdu]> l) = present l + (match old with Some _ => 0 | None => 1 end).
Proof.
  revert i. induction l as [|x l IH]; intros [|i]; [done|done| |].
  - intros [= ->]. change (<[0%nat := Some pdu]> (old :: l)) with (Some pdu :: l). rewrite !present_cons. destruct old; lia.
  - intros Hi. change (<[S i := Some pdu]> (x :: l)) with (x :: <[i := Some pdu]> l). rewrite !present_cons, (IH i Hi). lia.
Qed.

Lemma present_length l : 0 <= present l <= Z.of_nat (length l).
Proof. unfold present. pose proof (length_filter is_Some l). lia. Qed.

(** All parts are there. *)
Definition complete (pdus : list (option SmsPDURec)) : Prop := Forall is_Some pdus.

Lemma present_complete l : Z.of_nat (length l) <= present l <-> complete l.
Proof.
  unfold complete. induction l as [|x l IH]; [split; [by constructor|done]|]. pose proof (present_length l) as Hf.
  rewrite Forall_cons, present_cons, <- IH. cbn [length]. destruct x.
  - split; [intros; split; [by eexists|lia]|intros [_ ?]; lia].
  - split; [lia|]. by intros [[] _].
Qed.

Lemma fragment_add_spec last f cur pdu : frag_ok last f -> 0 <= cur < frag_max f ->
  let pdus := <[Z.to_nat cur := Some pdu]> (frag_pdus f) in
  exists f', fragment_add f cur pdu = Ret (if decide (complete pdus) then frag_index f else 0, f')
    /\ frag_ok last f' /\ frag_key f' = frag_key f /\ frag_index f' = frag_index f /\ frag_pdus f' = pdus.
Proof.
  intros [H1 H2 H3 H4 H5] Hc pdus. unfold fragment_add. unfold in_u in H2.
  destruct (lookup_lt_is_Some_2 (frag_pdus f) (Z.to_nat cur)) as [old Hold]; [lia|]. rewrite Hold. cbn [or_out mbind outcome_bind].
  pose proof (present_insert _ _ _ pdu Hold) as Hp. fold pdus in Hp. assert (length pdus = length (frag_pdus f)) as Hl by apply length_insert.
  pose proof (present_length pdus) as Hpl. pose proof (present_length (frag_pdus f)) as Hpf.
  assert (u8 ((match old with Some _ => u8 (frag_count f - 1) | None => frag_count f end) + 1) = present pdus) as Ec.
  { destruct old.
    - rewrite wrap_add_l, wrap_small by (unfold in_u; lia). lia.
    - rewrite wrap_small by (unfold in_u; lia). lia. }
  rewrite Ec. cbn [frag_max frag_index]. eexists. split_and!.
  - do 2 f_equal. assert ((frag_max f <=? present pdus) = bool_decide (complete pdus)) as ->.
    { apply Bool.eq_iff_eq_true. rewrite bool_decide_eq_true, <- present_complete, Z.leb_le. lia. }
    by case_decide; [rewrite bool_decide_eq_true_2|rewrite bool_decide_eq_false_2].
  - constructor; cbn [frag_from frag_max frag_pdus frag_count frag_index]; fold pdus; [done|done|lia|done|done].
  - done.
  - done.
  - done.
Qed.

(** What the parser finds in a PDU. *)
Record submit_view (pdu : SmsPDURec) (from0 from : SmsAddressRec) (ref max cur : Z) : Prop := {
  view_from : smspdu_get_receiver_address pdu from0 = (true, from);
  view_ref : smspdu_get_ref pdu = Ret ref;
  view_max : smspdu_get_max_index pdu = Ret max;
  view_cur : smspdu_get_cur_index pdu = Ret cur;
}.

Definition message_parts (rec : SmsReceiverRec) (from : SmsAddressRec) (ref max : Z) : list (option SmsPDURec) :=
  default (replicate (Z.to_nat max) None) (messages rec !! frag_key_of from ref).

Lemma messages_lookup rec f : rec_ok rec -> f ∈ rec_fragments rec -> messages rec !! frag_key f = Some (frag_pdus f).
Proof.
  intros Hok Hf. apply elem_of_list_to_map.
  - rewrite <- list_fmap_compose. exact (rec_keys _ Hok).
  - apply list_elem_of_fmap. by exists f.
Qed.

(** Changing one fragment of the list. *)
Lemma messages_update last1 last2 l p f f' : l !! p = Some f -> frag_key f' = frag_key f -> NoDup (frag_key <$> l) ->
  messages (mkReceiver last1 (<[p := f']> l)) = <[frag_key f := frag_pdus f']> (messages (mkReceiver last2 l)).
Proof.
  intros Hp Hk Hn. unfold messages. cbn [rec_fragments]. pose proof (take_drop_middle l p f Hp) as El.
  rewrite insert_take_drop by (by eapply lookup_lt_Some).
  assert (forall g, frag_key g = frag_key f -> NoDup (frag_key <$> take p l ++ g :: drop (S p) l)) as Hnd.
  { intros g Hg. rewrite fmap_app. cbn. rewrite Hg. rewrite <- El, fmap_app in Hn. exact Hn. }
  rewrite <- El at 3. rewrite !fmap_app. cbn [fmap list_fmap].
  rewrite (list_to_map_proper (((fun f => (frag_key f, frag_pdus f)) <$> take p l) ++ (frag_key f', frag_pdus f') ::
    ((fun f => (frag_key f, frag_pdus f)) <$> drop (S p) l)) ((frag_key f', frag_pdus f') :: ((fun f => (frag_key f, frag_pdus f)) <$> take p l)
    ++ ((fun f => (frag_key f, frag_pdus f)) <$> drop (S p) l))).
  2: { rewrite fmap_app. cbn. rewrite <- !list_fmap_compose. specialize (Hnd f' Hk). by rewrite fmap_app in Hnd. }
  2: { symmetry. apply Permutation_middle. }
  rewrite (list_to_map_proper (((fun f => (frag_key f, frag_pdus f)) <$> take p l) ++ (frag_key f, frag_pdus f) ::
    ((fun f => (frag_key f, frag_pdus f)) <$> drop (S p) l)) ((frag_key f, frag_pdus f) :: ((fun f => (frag_key f, frag_pdus f)) <$> take p l)
    ++ ((fun f => (frag_key f, frag_pdus f)) <$> drop (S p) l))).
  2: { rewrite fmap_app. cbn. rewrite <- !list_fmap_compose. specialize (Hnd f eq_refl). by rewrite fmap_app in Hnd. }
  2: { symmetry. apply Permutation_middle. }
  cbn. by rewrite Hk, insert_insert_eq.
Qed.

Lemma frag_ok_le last1 last2 f : last1 <= last2 -> frag_ok last1 f -> frag_ok last2 f.
Proof. intros ? []. constructor; try done. lia. Qed.

Lemma present_none n : present (replicate n None) = 0.
Proof. induction n as [|n IH]; [done|]. cbn [replicate]. rewrite present_cons. lia. Qed.

Lemma alloc_ok rec from ref max : rec_ok rec -> comparable from -> in_u 8 ref -> in_u 8 max -> rec_last rec < 2 ^ 31 - 1 ->
  frag_key_of from ref ∉ frag_key <$> rec_fragments rec ->
  let rec1 := (find_or_alloc rec from ref max None).1 in
  rec_ok rec1 /\ messages rec1 = <[frag_key_of from ref := replicate (Z.to_nat max) None]> (messages rec)
  /\ exists f, rec_fragments rec1 !! length (rec_fragments rec) = Some f
      /\ frag_key f = frag_key_of from ref /\ frag_max f = max.
Proof.
  intros [H1 H2 H3 H4] Hf Hr Hm Hl Hk. unfold find_or_alloc, sms_fragment_alloc. cbn [fst rec_last rec_fragments].
  assert (s32 (rec_last rec + 1) = rec_last rec + 1) as -> by (apply swrap_small; unfold in_s; lia).
  rewrite (wrap_small 8 ref), (wrap_small 8 max) by done. split_and!.
  - constructor; cbn [rec_last rec_fragments].
    + apply Forall_app. split; [eapply Forall_impl; [exact H1|]; intros; eapply frag_ok_le; [|done]; lia|].
      apply Forall_singleton. unfold in_u in *. constructor; cbn; [done|done|rewrite length_replicate; lia|by rewrite present_none|lia].
    + rewrite fmap_app. apply NoDup_app. split_and!; [done| |apply NoDup_singleton].
      intros k Hin ->%list_elem_of_singleton. done.
    + rewrite fmap_app. apply NoDup_app. split_and!; [done| |apply NoDup_singleton].
      intros k (f & -> & Hin)%list_elem_of_fmap E%list_elem_of_singleton. cbn in E.
      pose proof (frag_numbered _ _ (proj1 (Forall_forall _ _) H1 f Hin)). lia.
    + lia.
  - unfold messages. cbn [rec_fragments]. rewrite fmap_app. cbn. rewrite list_to_map_snoc; [done|].
    rewrite <- list_fmap_compose. done.
  - eexists. split; [by rewrite list_lookup_middle by done|done].
Qed.

Lemma found_parts rec p f : rec_ok rec -> rec_fragments rec !! p = Some f -> messages rec !! frag_key f = Some (frag_pdus f).
Proof. intros Hok Hp. apply messages_lookup; [done|]. by eapply list_elem_of_lookup_2. Qed.

(** A fragment is there, for the number and the reference. *)
Lemma find_or_alloc_ok rec from ref max : rec_ok rec -> comparable from -> in_u 8 ref -> in_u 8 max -> rec_last rec < 2 ^ 31 - 1 ->
  Z.of_nat (length (message_parts rec from ref max)) = max ->
  exists pos rec1 p f, sms_receiver_find_p (rec_fragments rec) from ref = Ret pos
    /\ find_or_alloc rec from ref max pos = (rec1, p) /\ rec_ok rec1 /\ rec_fragments rec1 !! p = Some f
    /\ frag_key f = frag_key_of from ref /\ frag_max f = max /\ frag_pdus f = message_parts rec from ref max
    /\ messages rec1 = <[frag_key_of from ref := message_parts rec from ref max]> (messages rec).
Proof.
  intros Hok Hf Hr Hm Hl Hp.
  destruct (find_p_spec _ _ ref _ (rec_frags _ Hok) Hf) as [[E Hn]|(p & f & E & Hp' & Hk)].
  - destruct (alloc_ok rec from ref max) as (Ho & Hms & f & Hfl & Hfk & Hfm); [done..|].
    assert (message_parts rec from ref max = replicate (Z.to_nat max) None) as Emp.
    { unfold message_parts, messages. rewrite (not_elem_of_list_to_map_1 (M := gmap _)); [done|]. by rewrite <- list_fmap_compose. }
    eexists None, _, _, f. split_and!; [done|apply surjective_pairing|done|exact Hfl|done|done| |by rewrite Emp].
    pose proof (found_parts _ _ _ Ho Hfl) as Hpt. rewrite Hms, Hfk, lookup_insert_eq in Hpt. rewrite Emp. by injection Hpt.
  - pose proof (found_parts _ _ _ Hok Hp') as Hpt. rewrite Hk in Hpt.
    assert (message_parts rec from ref max = frag_pdus f) as Emp by (unfold message_parts; by rewrite Hpt).
    pose proof (frag_size _ _ (proj1 (Forall_lookup _ _) (rec_frags _ Hok) _ _ Hp')) as Hsz.
    eexists (Some p), rec, p, f. split_and!; [done..|congruence|done|]. rewrite Emp. by rewrite insert_id.
Qed.

(** Replacing a fragment by one for the same message. *)
Lemma fragment_update_ok rec p f f' : rec_ok rec -> rec_fragments rec !! p = Some f -> frag_ok (rec_last rec) f' ->
  frag_key f' = frag_key f -> frag_index f' = frag_index f ->
  rec_ok (mkReceiver (rec_last rec) (<[p := f']> (rec_fragments rec))).
Proof.
  intros [H1 H2 H3 H4] Hp Hf Hk Hi. constructor; cbn [rec_last rec_fragments]; [by apply Forall_insert| | |done];
    rewrite list_fmap_insert, ?Hk, ?Hi, list_insert_id; try done; by rewrite list_lookup_fmap, Hp.
Qed.

(** A part that arrives: the fragment it is in, and the result. *)
Lemma receiver_adds rec pdu from0 from ref max cur : rec_ok rec -> comparable from -> in_u 8 ref -> in_u 8 max ->
  rec_last rec < 2 ^ 31 - 1 -> submit_view pdu from0 from ref max cur -> 0 <= cur < max ->
  Z.of_nat (length (message_parts rec from ref max)) = max ->
  let parts := <[Z.to_nat cur := Some pdu]> (message_parts rec from ref max) in
  exists r rec' p f, sms_receiver_add_submit_pdu rec pdu from0 = Ret (r, rec') /\ rec_ok rec'
    /\ messages rec' = <[frag_key_of from ref := parts]> (messages rec)
    /\ rec_fragments rec' !! p = Some f /\ frag_key f = frag_key_of from ref /\ frag_pdus f = parts
    /\ r = if decide (complete parts) then frag_index f else 0.
Proof.
  intros Hok Hf Hr Hm Hl [V1 V2 V3 V4] Hc Hlen parts.
  destruct (find_or_alloc_ok rec from ref max) as (pos & rec1 & p & f & E1 & E2 & Ho & Hp & Hk & Hfm & Hfp & Hms); [done..|].
  destruct (fragment_add_spec (rec_last rec1) f cur pdu) as (f' & Ef & Hf' & Hk' & Hi' & Hp');
    [exact (proj1 (Forall_lookup _ _) (rec_frags _ Ho) _ _ Hp)|lia|]. rewrite Hfp in Ef, Hp'. fold parts in Ef, Hp'.
  eexists (if decide (complete parts) then frag_index f else 0), _, p, f'. split_and!; [|exact (fragment_update_ok _ _ _ _ Ho Hp Hf' Hk' Hi')| | | |done|].
  - unfold sms_receiver_add_submit_pdu, in_u in *. rewrite V1, V2. cbn [negb mbind outcome_bind].
    rewrite (proj2 (Z.ltb_ge ref 0)) by lia. rewrite V3. cbn [mbind outcome_bind]. rewrite (proj2 (Z.ltb_ge max 0)) by lia.
    rewrite E1. cbn [mbind outcome_bind]. rewrite E2, V4. cbn [mbind outcome_bind].
    rewrite (proj2 (Z.ltb_ge cur 0)), (proj2 (Z.leb_gt max cur)) by lia. rewrite Hp. cbn [or_out mbind outcome_bind].
    rewrite Ef. done.
  - rewrite (messages_update _ (rec_last rec1) _ _ _ _ Hp Hk' (rec_keys _ Ho)), Hp', Hk. destruct rec1. cbn [rec_last rec_fragments] in *.
    rewrite Hms. by rewrite insert_insert_eq.
  - apply list_lookup_insert_eq. by eapply lookup_lt_Some.
  - by rewrite Hk'.
  - by rewrite Hi'.
Qed.

(** Numbers and indexes tell fragments apart. *)
Lemma same_fragment rec p q f g : rec_ok rec -> rec_fragments rec !! p = Some f -> rec_fragments rec !! q = Some g ->
  frag_index g = frag_index f \/ frag_key g = frag_key f -> g = f.
Proof.
  intros Ho Hp Hq [E|E]; (assert (q = p) as ->; [|congruence]).
  - eapply (NoDup_lookup _ _ _ (frag_index f) (rec_indexes _ Ho)); rewrite list_lookup_fmap; [rewrite Hq|rewrite Hp]; cbn; congruence.
  - eapply (NoDup_lookup _ _ _ (frag_key f) (rec_keys _ Ho)); rewrite list_lookup_fmap; [rewrite Hq|rewrite Hp]; cbn; congruence.
Qed.


(** ** A message without header *)

Lemma find_index_spec l p f : NoDup (frag_index <$> l) -> l !! p = Some f -> sms_receiver_find_index_p l (frag_index f) = Some p.
Proof.
  revert p. induction l as [|g l IH]; intros p Hn Hp; [done|]. cbn [fmap list_fmap] in Hn. apply NoDup_cons in Hn as [Hg Hn].
  destruct p as [|p]; cbn [sms_receiver_find_index_p].
  - injection Hp as ->. by rewrite Z.eqb_refl.
  - cbn in Hp. rewrite (proj2 (Z.eqb_neq _ _)); [by rewrite (IH p)|]. intros E. apply Hg. rewrite E.
    apply list_elem_of_fmap. exists f. split; [done|by eapply list_elem_of_lookup_2].
Qed.

Lemma remove_ok rec p f : rec_ok rec -> rec_fragments rec !! p = Some f ->
  let rec' := sms_receiver_remove rec (frag_index f) in
  rec_ok rec' /\ messages rec' = delete (frag_key f) (messages rec).
Proof.
  intros [H1 H2 H3 H4] Hp rec'. unfold rec', sms_receiver_remove. rewrite (find_index_spec _ p) by done.
  pose proof (delete_Permutation _ _ _ Hp) as Hperm.
  assert (NoDup (frag_key <$> f :: delete p (rec_fragments rec))) as Hk by by rewrite <- Hperm.
  assert (NoDup (frag_index <$> f :: delete p (rec_fragments rec))) as Hi by by rewrite <- Hperm.
  assert (Forall (frag_ok (rec_last rec)) (f :: delete p (rec_fragments rec))) as Hf by by rewrite <- Hperm.
  cbn [fmap list_fmap] in Hk, Hi. apply NoDup_cons in Hk as [Hn Hk]. apply NoDup_cons in Hi as [_ Hi]. apply Forall_cons in Hf as [_ Hf].
  split; [by constructor|]. unfold messages. cbn [rec_fragments].
  rewrite (list_to_map_proper (_ <$> rec_fragments rec) ((fun f => (frag_key f, frag_pdus f)) <$> f :: delete p (rec_fragments rec))).
  - cbn. rewrite delete_insert_id; [done|]. apply not_elem_of_list_to_map_1. by rewrite <- list_fmap_compose.
  - by rewrite <- list_fmap_compose.
  - by rewrite <- Hperm.
Qed.

Section Deliver.
Context (malloc : Z -> option (list Z)) `{!Malloc malloc} (malloc_some : forall n, malloc n <> None).

(** Text put at once in a rope of the stack. *)
Lemma encode_fresh text r0 : length (data0 r0) = 16%nat -> Z.of_nat (length text) <= 2 ^ 29 ->
  exists r, rope_encode malloc (Z.of_nat (length text)) (fun _ => Ret text) (gsm_rope_init_alloc malloc r0 0) = Ret r
    /\ rope_pos r = Z.of_nat (length text) /\ take (length text) (rope_bytes r) = text /\ (length text <= length (rope_bytes r))%nat.
Proof.
  intros Hd Ht. set (r := gsm_rope_init_alloc malloc r0 0). assert (rope_ok r) as Hr by (constructor; cbn; [done|done|by rewrite Hd|done]).
  destruct (rope_can_grow_ok malloc r (Z.of_nat (length text))) as (r1 & E1 & Hr1 & Hp1 & Hx & _); [done|lia|cbn; lia|done|].
  change (rope_pos r) with 0 in Hp1, Hx. unfold rope_encode, gsm_rope_reserve. rewrite E1, Hp1.
  assert (rope_ok (set_rope_pos (0 + Z.of_nat (length text)) r1)) as Hr2 by (destruct Hr1; constructor; [done|done|done|cbn; lia]).
  destruct (rope_store_ok _ 0 text Hr2) as (r3 & E3 & Hr3 & Hp3 & _ & Hb & _); [done|done|].
  pose proof (rope_has_data _ Hr1) as Hnn. destruct (rope_data r1) eqn:Ed; [done| |];
    (cbn [mbind outcome_bind]; exists r3; split_and!; [done|by rewrite Hp3| |]; rewrite Hb; change (Z.to_nat 0) with 0%nat; rewrite take_0, app_nil_l; [apply take_app_length|rewrite length_app; lia]).
Qed.

(** An SMS-SUBMIT of text in the basic alphabet, without header and validity
    period. *)
Definition submit_octets (mti ref dlen toa : Z) (digits : list Z) (pid udl : Z) (ud : list Z) : list Z :=
  [mti; ref; dlen; toa] ++ digits ++ [pid; 0; udl] ++ ud.

Record plain_submit (pdu : SmsPDURec) (ref dlen toa : Z) (digits : list Z) (cs : list Z) : Prop := {
  plain_layout : exists mti pid ud, tpdu_bytes pdu = submit_octets mti ref dlen toa digits pid (Z.of_nat (length cs)) ud
    /\ mti .& 0x43 = 1 /\ Forall (in_u 8) ud
    /\ 7 * Z.of_nat (length cs) <= 8 * Z.of_nat (length ud) /\ septets_at ud 0 (text_septets cs);
  plain_ref : in_u 8 ref;
  plain_dlen : 1 <= dlen <= 16;
  plain_digits : Z.of_nat (length digits) = Z.quot (dlen + 1) 2;
  plain_chars : Forall basic_char cs;
  plain_length : (length cs <= 160)%nat;
}.

Lemma get_address_digits dlen toa digits rest a0 : 1 <= dlen <= 16 -> Z.of_nat (length digits) = Z.quot (dlen + 1) 2 ->
  sms_get_address ([dlen; toa] ++ digits ++ rest) a0 = (true, rest, mkAddr dlen toa (copy_into (addr_data a0) digits)).
Proof.
  intros Hd Hl. assert (Z.of_nat (length digits) = (dlen + 1) / 2) as Hl2 by (rewrite Hl; apply Z.quot_div_nonneg; lia). cbn [app sms_get_address]. rewrite (proj2 (Z.eqb_neq _ _)), <- Hl by lia.
  rewrite (proj2 (Z.ltb_ge _ _)) by (cbn [length]; rewrite length_app; lia).
  rewrite (proj2 (Z.ltb_ge _ _)) by (unfold SMS_ADDRESS_MAX_SIZE; lia).
  by rewrite Nat2Z.id, take_app_length, drop_app_length.
Qed.

Lemma mti_bits mti : mti .& 0x43 = 1 -> mti .& 3 = 1 /\ mti .& 0x40 = 0.
Proof.
  intros H. split.
  - transitivity (mti .& 0x43 .& 3); [by rewrite <- Z.land_assoc|by rewrite H].
  - transitivity (mti .& 0x43 .& 0x40); [by rewrite <- Z.land_assoc|by rewrite H].
Qed.

Lemma plain_view pdu ref dlen toa digits cs a0 : plain_submit pdu ref dlen toa digits cs ->
  submit_view pdu a0 (mkAddr dlen toa (copy_into (addr_data a0) digits)) ref 1 0.
Proof.
  intros [(mti & pid & ud & El & Hm & _) _ Hd Hl _ _]. destruct (mti_bits mti Hm) as [M1 M2].
  unfold submit_octets in El.
  assert (smspdu_get_user_data_ref pdu = Ret None) as Er.
  { unfold smspdu_get_user_data_ref. rewrite El. cbn [app sms_get_byte]. by rewrite M2. }
  split.
  - unfold smspdu_get_receiver_address. rewrite El. cbn [app sms_get_byte drop]. rewrite M1. cbn [Z.eqb Pos.eqb].
    pose proof (get_address_digits dlen toa digits ([pid; 0; Z.of_nat (length cs)] ++ ud) a0 Hd Hl) as Ea.
    cbn [app] in Ea. by rewrite Ea.
  - unfold smspdu_get_ref. rewrite Er, El. cbn [app sms_get_byte mbind outcome_bind]. by rewrite M1.
  - unfold smspdu_get_max_index. by rewrite Er.
  - unfold smspdu_get_cur_index. by rewrite Er.
Qed.

Lemma text_bound cs : Forall basic_char cs -> (length (utf8_of_points cs) <= 4 * length cs)%nat.
Proof.
  intros Hcs. unfold utf8_of_points. induction Hcs as [|c cs _ _ IH]; [done|]. cbn [fmap list_fmap concat]. rewrite length_app.
  assert (length (utf8_write c) <= 4)%nat as Hc by (unfold utf8_write; repeat case_match; cbn; lia). cbn [length]. lia.
Qed.

(** The text of such a PDU, asked for with and without a buffer. *)
Lemma plain_text pdu ref dlen toa digits cs a0 r0 utf8len : plain_submit pdu ref dlen toa digits cs -> length (data0 r0) = 16%nat ->
  let text := utf8_of_points cs in utf8len = 0 \/ utf8len = Z.of_nat (length text) ->
  part_text malloc (Some pdu) a0 r0 utf8len = Ret (Z.of_nat (length text), if utf8len =? 0 then [] else text).
Proof.
  intros [(mti & pid & ud & El & Hm & Hu & Hul & Hs) _ Hd Hl Hcs Hlen] Hr0 text Hutf. destruct (mti_bits mti Hm) as [M1 M2].
  unfold submit_octets in El. unfold part_text. cbn [or_out mbind outcome_bind]. unfold smspdu_get_text_message. rewrite El. cbn [app sms_get_byte or_out mbind outcome_bind drop].
  rewrite M1, M2. change (nz 0) with false.
  pose proof (get_address_digits dlen toa digits ([pid; 0; Z.of_nat (length cs)] ++ ud) a0 Hd Hl) as Ea. cbn [app] in Ea. rewrite Ea.
  cbn [drop sms_get_coding_scheme sms_get_text_utf8]. change (coding_of 0) with SMS_CODING_SCHEME_GSM7. cbv iota.
  destruct (basic_septets cs Hcs) as (Hn & Hss & _ & Hdec & _). cbv zeta in *.
  assert (utf8_from_gsm7 ud 0 (Z.to_nat (Z.of_nat (length cs))) = Ret text) as ->.
  { unfold utf8_from_gsm7. rewrite Nat2Z.id, <- Hn. unfold text. rewrite <- Hdec. apply from_gsm7_decodes; [done|done|done|rewrite Hn; change (Z.of_nat (Z.to_nat (0 .>> 3))) with 0; change (0 .& 7) with 0; lia|done]. }
  cbn [mbind outcome_bind]. pose proof (text_bound cs Hcs) as Htb. fold text in Htb.
  destruct (encode_fresh text r0 Hr0) as (r & -> & Hp & Ht & Hbl); [lia|]. cbn [mbind outcome_bind]. unfold take_text. rewrite Hp.
  destruct Hutf as [->| ->].
  - rewrite (proj2 (Z.ltb_ge (Z.of_nat _) 0)) by lia. done.
  - rewrite Z.ltb_irrefl. destruct (Z.ltb_spec 0 (Z.of_nat (length text))) as [H0|H0].
    + rewrite (proj2 (Z.ltb_ge _ _)), Nat2Z.id, Ht by lia. cbn. by rewrite (proj2 (Z.eqb_neq _ _)) by lia.
    + cbn. by rewrite (proj2 (Z.eqb_eq _ _)) by lia.
Qed.

(** The two passes over the only part. *)
Lemma combine_one pdu a0 r0 text buf : Z.of_nat (length buf) = Z.of_nat (length text) + 1 ->
  part_text malloc pdu a0 r0 (Z.of_nat (length text)) = Ret (Z.of_nat (length text), if Z.of_nat (length text) =? 0 then [] else text) ->
  exists buf', combine_text malloc [pdu] a0 r0 buf (Z.of_nat (length text)) 0 = Ret buf' /\ take (length text) buf' = text.
Proof.
  intros Hb E. cbn [combine_text]. rewrite Z.sub_0_r, E. cbn [mbind outcome_bind].
  destruct (Z.eqb_spec (Z.of_nat (length text)) 0) as [H0|H0].
  - destruct text as [|t text]; [|cbn in H0; lia]. by exists buf.
  - destruct text as [|t text]; [done|]. unfold write_at. rewrite (proj2 (Z.leb_le _ _)) by lia.
    rewrite (proj2 (Z.leb_le (0 + _) _)) by lia. cbn [andb mbind outcome_bind].
    eexists. split; [done|]. change (Z.to_nat 0) with 0%nat. rewrite take_0, app_nil_l. apply take_app_length.
Qed.

Lemma guest_message_sent rec pdu ref dlen toa digits cs from0 a0 r0 from now ref_num :
  rec_ok rec -> rec_last rec < 2 ^ 31 - 1 -> plain_submit pdu ref dlen toa digits cs -> length (addr_data from0) = 16%nat ->
  length (data0 r0) = 16%nat -> address_ok from -> length now = 7%nat -> Forall (in_u 8) now -> in_u 8 ref_num ->
  let key := frag_key_of (mkAddr dlen toa (copy_into (addr_data from0) digits)) ref in
  (forall parts, messages rec !! key = Some parts -> length parts = 1%nat) ->
  exists r rec1 rec2 l ds, sms_receiver_add_submit_pdu rec pdu from0 = Ret (r, rec1) /\ 0 < r
    /\ sms_receiver_create_deliver malloc rec1 r from now ref_num a0 r0 = Ret (Some l, rec2, u8 (ref_num + 1))
    /\ Forall sent_pdu l /\ read_parts l = Some ds /\ concat (d_text <$> ds) = cs /\ Forall (from_sender from now) ds
    /\ rec_ok rec2 /\ messages rec2 = delete key (messages rec).
Proof.
  intros Hok Hlast Hpl Hf0 Hr0 Ha Hn Hnb Href key Hkey. pose proof Hpl as [_ Hrefb Hd Hdl Hcs Hlen].
  set (to := mkAddr dlen toa (copy_into (addr_data from0) digits)) in *.
  assert (Z.of_nat (length digits) <= 8) as Hd8 by (rewrite Hdl, Z.quot_div_nonneg by lia; lia).
  assert (comparable to) as Hto by (split; cbn; [unfold copy_into; rewrite length_app, length_drop|]; lia).
  assert (length (message_parts rec to ref 1) = 1%nat) as Hmp.
  { unfold message_parts. fold key. destruct (messages rec !! key) eqn:E; [by apply Hkey|done]. }
  destruct (receiver_adds rec pdu from0 to ref 1 0) as (r & rec1 & p & f & Eadd & Ho & Hms & Hp & Hk & Hpd & Er);
    [done|done|done|done|done|by eapply plain_view|lia|by rewrite Hmp|]. fold key in Hms, Hk.
  destruct (message_parts rec to ref 1) as [|old []]; [done| |done]. change (<[Z.to_nat 0 := Some pdu]> [old]) with [Some pdu] in *.
  rewrite decide_True in Er by (apply Forall_singleton; by eexists).
  pose proof (proj1 (Forall_lookup _ _) (rec_frags _ Ho) _ _ Hp) as Hfo.
  assert (frag_count f = 1 /\ frag_max f = 1) as [Hcnt Hmax] by (rewrite (frag_counts _ _ Hfo), <- (frag_size _ _ Hfo), Hpd; done).
  set (text := utf8_of_points cs). destruct (basic_septets cs Hcs) as (_ & _ & Hpt & _).
  assert (utf8_points text = cs) as Epts by by apply utf8_points_of_points.
  destruct (remove_ok rec1 p f Ho Hp) as [Ho2 Hms2]. rewrite <- Er in Ho2, Hms2.
  assert (utf8_check_gsm7 text = true) as Hg by (apply check_gsm7_chars; rewrite Epts; eapply Forall_impl; [exact Hcs|by left]).
  destruct (text_delivered malloc malloc_some from now Ha Hn Hnb text ref_num r0) as (l & ds & Ec & Hsent & Erd & Et & Ei);
    [rewrite Hg, Epts; by left| |done|].
  { rewrite Hg, Epts. rewrite (uniform_weight true 1); [cbn; lia|]. eapply Forall_impl; [exact Hcs|]. intros c Hc.
    destruct (basic_char_septet c Hc) as (nn & E & _). cbn. by rewrite E. }
  exists r, rec1, (sms_receiver_remove rec1 r), l, ds. split_and!; [done| | |done|done|by rewrite Et, Epts| |done|].
  - rewrite Er. pose proof (frag_numbered _ _ Hfo). lia.
  - unfold sms_receiver_create_deliver, sms_receiver_get_text_message. rewrite Er, (find_index_spec _ p) by (done || exact (rec_indexes _ Ho)).
    cbn [mbind option_bind]. rewrite Hp, Hcnt, Hmax, Hpd. cbn [Z.eqb Pos.eqb negb]. change (take (Z.to_nat 1) [Some pdu]) with [Some pdu].
    cbn [text_total]. rewrite (plain_text _ _ _ _ _ _ a0 r0 0 Hpl Hr0) by by left. fold text. cbn [mbind outcome_bind]. rewrite Z.add_0_l.
    rewrite (proj2 (Z.ltb_ge _ _)) by lia. destruct (malloc (Z.of_nat (length text) + 1)) as [buf|] eqn:Eb; [|by destruct (malloc_some _ Eb)].
    destruct (combine_one (Some pdu) a0 r0 text buf) as (buf' & -> & Htk).
    { rewrite (malloc_length _ _ _ Eb). lia. }
    { rewrite (plain_text _ _ _ _ _ _ a0 r0 _ Hpl Hr0) by by right. done. }
    cbn [mbind outcome_bind]. rewrite Nat2Z.id, Htk, Ec. done.
  - apply Forall_lookup. intros i d Hi. apply (Ei i d Hi).
  - rewrite Hms2, Hk, Hms. by rewrite delete_insert_eq.
Qed.

(** A message the guest sends arrives. An SMS-SUBMIT PDU of up to 160
    characters of the basic alphabet, without header, completes its message
    at once, and [sms_receiver_create_deliver] turns the message into PDUs
    from which the receiving phone reads, by 3GPP 23.040, messages from the
    sending emulator whose texts are the text; the receiver then has no
    message for that number and reference and all others it had before. *)
Theorem guest_sms_delivered rec pdu ref dlen toa digits cs from0 a0 r0 from now ref_num :
  rec_ok rec -> rec_last rec < 2 ^ 31 - 1 -> plain_submit pdu ref dlen toa digits cs -> length (addr_data from0) = 16%nat ->
  length (data0 r0) = 16%nat -> address_ok from -> length now = 7%nat -> Forall (in_u 8) now -> in_u 8 ref_num ->
  let key := frag_key_of (mkAddr dlen toa (copy_into (addr_data from0) digits)) ref in
  (forall parts, messages rec !! key = Some parts -> length parts = 1%nat) ->
  exists r rec1 rec2 l ds, sms_receiver_add_submit_pdu rec pdu from0 = Ret (r, rec1) /\ 0 < r
    /\ sms_receiver_create_deliver malloc rec1 r from now ref_num a0 r0 = Ret (Some l, rec2, u8 (ref_num + 1))
    /\ read_parts l = Some ds /\ concat (d_text <$> ds) = cs /\ Forall (from_sender from now) ds
    /\ rec_ok rec2 /\ messages rec2 = delete key (messages rec).
Proof.
  intros. destruct (guest_message_sent rec pdu ref dlen toa digits cs from0 a0 r0 from now ref_num) as (r & rec1 & rec2 & l & ds & E1 & E2 & E3 & _ & E4); try done.
  by exists r, rec1, rec2, l, ds.
Qed.

End Deliver.

(** ** What goes wrong with parts *)

(** The number of a part is checked against the number of parts its own
    PDU names, and not the one the message was started with: when a PDU of a
    message that is being collected names more parts than the first one and
    its part number is past the end, [frag->pdus[cur]] is outside of the
    fragment's memory. *)
Theorem larger_part_count_out_of_bounds rec pdu from0 from ref max cur parts : rec_ok rec -> comparable from -> in_u 8 ref ->
  submit_view pdu from0 from ref max cur -> messages rec !! frag_key_of from ref = Some parts ->
  Z.of_nat (length parts) <= cur < max -> sms_receiver_add_submit_pdu rec pdu from0 = OutOfBounds.
Proof.
  intros Hok Hf Hr [V1 V2 V3 V4] Hms Hc. unfold sms_receiver_add_submit_pdu. rewrite V1, V2. unfold in_u in Hr.
  cbn [negb mbind outcome_bind]. rewrite (proj2 (Z.ltb_ge ref 0)), V3 by lia. cbn [mbind outcome_bind]. rewrite (proj2 (Z.ltb_ge max 0)) by lia.
  destruct (find_p_spec _ _ ref _ (rec_frags _ Hok) Hf) as [[E Hn]|(p & f & E & Hp & Hk)].
  { destruct Hn. apply elem_of_list_to_map_2, list_elem_of_fmap in Hms as (f & Ef & Hin). apply (f_equal fst) in Ef.
    apply list_elem_of_fmap. exists f. split; [|done]. exact Ef. }
  rewrite E. cbn [mbind outcome_bind find_or_alloc]. rewrite V4. cbn [mbind outcome_bind].
  rewrite (proj2 (Z.ltb_ge cur 0)), (proj2 (Z.leb_gt max cur)), Hp by lia. cbn [or_out mbind outcome_bind]. unfold fragment_add.
  rewrite <- Hk, (messages_lookup rec f Hok) in Hms by (done || by eapply list_elem_of_lookup_2). injection Hms as <-.
  rewrite lookup_ge_None_2 by lia. done.
Qed.

(** Parts sent to an emulator are not collected. [sms_skip_address] leaves
    the cursor at the address, so the header of a part is looked up inside
    the number: for one of three or four digits (the number of an emulator is
    its port), the first "element" is the protocol identifier with the coding
    scheme 0 as its length, at which the search goes round until its counter
    overflows.  The receiver never gets to the part. *)
Theorem part_to_port_number_lost rec pdu from0 mti ref dlen toa d1 d2 pid rest :
  tpdu_bytes pdu = [mti; ref; dlen; toa; d1; d2; pid; 0] ++ rest -> mti .& 0x5b = 0x41 -> 3 <= dlen <= 4 -> 2 <= d2 ->
  smspdu_get_ref pdu = SignedOverflow /\ sms_receiver_add_submit_pdu rec pdu from0 = SignedOverflow.
Proof.
  intros El Hm Hd H2. assert (Z.quot (dlen + 1) 2 = 2) as Hq by (rewrite Z.quot_div_nonneg by lia; lia).
  assert (mti .& 3 = 1 /\ mti .& 0x40 = 0x40 /\ (mti .>> 3) .& 3 = 0) as (M1 & M2 & M3).
  { split_and!.
    - transitivity (mti .& 0x5b .& 3); [by rewrite <- Z.land_assoc|by rewrite Hm].
    - transitivity (mti .& 0x5b .& 0x40); [by rewrite <- Z.land_assoc|by rewrite Hm].
    - transitivity (((mti .& 0x5b) .& 0x18) .>> 3); [|by rewrite Hm].
      rewrite <- Z.land_assoc. change (0x5b .& 0x18) with (3 .<< 3). by rewrite Z.shiftr_land, Z.shiftr_shiftl_l by lia. }
  assert (smspdu_get_ref pdu = SignedOverflow) as Er.
  { unfold smspdu_get_ref, smspdu_get_user_data_ref. rewrite El. cbn [app sms_get_byte drop]. rewrite M1, M2. cbn [Z.eqb].
    unfold sms_skip_address. rewrite Hq, Z.geb_leb, (proj2 (Z.leb_le _ _)) by (cbn [length]; lia).
    unfold sms_skip_validity_period. rewrite M3. cbn [drop]. rewrite bool_decide_eq_false_2 by lia. cbn [drop length ref_loop].
    rewrite (proj2 (Z.ltb_ge _ _)), andb_false_r by lia. done. }
  split; [done|]. unfold sms_receiver_add_submit_pdu, smspdu_get_receiver_address. rewrite El. cbn [app sms_get_byte drop].
  rewrite M1. cbn [Z.eqb Pos.eqb].
  pose proof (get_address_digits dlen toa [d1; d2] (pid :: 0 :: rest) from0) as Ea. cbn [app] in Ea.
  rewrite Ea; [|lia|by rewrite Hq]. cbn [negb]. by rewrite Er.
Qed.

(** ** Witnesses *)

(** A part of a message to the number 5554557055, in which the search finds
    the element 00 03 of the header after one step. *)
Definition example_part (max cur : Z) : SmsPDURec :=
  mkPDU [0; 0x41; 7; 10; 0x81; 0x55; 0x45; 0x55; 0x07; 0x55; 0; 0; 8; 5; 0; 3; 9; max; cur; 0x90] 1.
Definition example_from0 : SmsAddressRec := mkAddr 3 0x91 (replicate 16 0xcc).
Definition example_to : SmsAddressRec := mkAddr 10 0x81 ([0x55; 0x45; 0x55; 0x07; 0x55] ++ replicate 11 0xcc).

(** The second of two parts is there. *)
Definition example_receiver : SmsReceiverRec := mkReceiver 1 [mkFrag example_to 9 2 1 1 [None; Some (example_part 2 2)]].

Lemma example_receiver_ok : rec_ok example_receiver.
Proof.
  constructor; cbn [rec_fragments rec_last example_receiver fmap list_fmap]; [|apply NoDup_singleton..|lia].
  apply Forall_singleton. constructor; cbn; [done|unfold in_u; lia|done|by vm_compute|lia].
Qed.


Lemma larger_part_count_out_of_bounds_witness :
  sms_receiver_add_submit_pdu example_receiver (example_part 5 4) example_from0 = OutOfBounds.
Proof.
  apply (larger_part_count_out_of_bounds example_receiver (example_part 5 4) example_from0 example_to 9 5 3 [None; Some (example_part 2 2)]);
    [exact example_receiver_ok|done|by vm_compute|by split|by vm_compute|cbn; lia].
Defined.

(** A part to 5554. *)
Lemma part_to_port_number_lost_witness :
  let pdu := mkPDU [0; 0x41; 7; 4; 0x81; 0x55; 0x45; 0; 0; 8; 5; 0; 3; 9; 2; 1; 0x90] 1 in
  smspdu_get_ref pdu = SignedOverflow /\ sms_receiver_add_submit_pdu sms_receiver_create pdu example_from0 = SignedOverflow.
Proof.
  intros pdu. apply (part_to_port_number_lost sms_receiver_create pdu example_from0 0x41 7 4 0x81 0x55 0x45 0 [8; 5; 0; 3; 9; 2; 1; 0x90]);
    [done|done|lia|lia].
Defined.

Lemma example_septets : septets_at [72; 36] 0 (text_septets [72; 72]).
Proof.
  change (text_septets [72; 72]) with [72; 72].
  intros [|[|i]] s Hs; [| |done]; injection Hs as <-; intros j Hj;
    (assert (j = 0 \/ j = 1 \/ j = 2 \/ j = 3 \/ j = 4 \/ j = 5 \/ j = 6) as Hjs by lia;
     destruct_or! Hjs; subst j; by vm_compute).
Qed.

(** "HH" to 5554 while parts of another message are waited for. *)
Lemma guest_sms_delivered_witness :
  let pdu := mkPDU [0; 0x01; 7; 4; 0x81; 0x55; 0x45; 0; 0; 2; 72; 36] 1 in
  exists r rec1 rec2 l ds, sms_receiver_add_submit_pdu example_receiver pdu example_from0 = Ret (r, rec1) /\ 0 < r
    /\ sms_receiver_create_deliver example_malloc rec1 r example_sender example_stamp 3 example_from0 example_stack = Ret (Some l, rec2, 4)
    /\ read_parts l = Some ds /\ concat (d_text <$> ds) = [72; 72] /\ Forall (from_sender example_sender example_stamp) ds
    /\ rec_ok rec2 /\ messages rec2 = delete (frag_key_of (mkAddr 4 0x81 ([0x55; 0x45] ++ replicate 14 0xcc)) 7) (messages example_receiver).
Proof.
  intros pdu. apply (guest_sms_delivered example_malloc example_memory example_receiver pdu 7 4 0x81 [0x55; 0x45] [72; 72]
    example_from0 example_from0 example_stack example_sender example_stamp 3);
    [exact example_receiver_ok|done| |done|done|exact example_sender_ok|done|exact example_stamp_ok|by vm_compute|by vm_compute].
  constructor; [|by vm_compute|lia|done|repeat constructor; exact basic_H|cbn; lia].
  exists 0x01, 0, [72; 36]. split_and!; [done|done|by repeat constructor; unfold in_u; lia|cbn; lia|exact example_septets].
Defined.
