(* ===== verification/SimCard.v ===== *)
(** The SIM card, telephony/sim_card.c, with the AT commands of
    telephony/android_modem.c that reach it: its PIN and PUK, and the records
    the guest reads. Dynamic records are disabled in the source. *)
From stdpp Require Import strings pretty.
From S2P Require Import Prelude CStrings GsmText SmsPdu SmsDeliver.
Open Scope list_scope.
#[local] Ltac Zify.zify_post_hook ::= Z.div_mod_to_equations.

Definition A_SIM_PIN_SIZE : nat := 4.
Definition A_SIM_PUK_SIZE : nat := 8.

Inductive ASimStatus :=
| A_SIM_STATUS_ABSENT
| A_SIM_STATUS_NOT_READY
| A_SIM_STATUS_READY
| A_SIM_STATUS_PIN
| A_SIM_STATUS_PUK
| A_SIM_STATUS_NETWORK_PERSONALIZATION.

#[export] Instance ASimStatus_eq_dec : EqDecision ASimStatus.
Proof. solve_decision. Defined.

Record ASimCardRec := mkSim {
  sim_status : ASimStatus;
  sim_pin : list Z;
  sim_puk : list Z;
  sim_retries : Z;
  sim_port : Z;
}.

(** The card is a static variable: its buffers are zero before. *)
Definition asimcard_create (port : Z) : ASimCardRec :=
  mkSim A_SIM_STATUS_READY (strncpy (replicate 5 0) (chars "0000") 5) (strncpy (replicate 9 0) (chars "12345678") 9) 0 port.

Definition asimcard_get_status (sim : ASimCardRec) : ASimStatus := sim_status sim.

Definition asimcard_set_status (sim : ASimCardRec) (status : ASimStatus) : ASimCardRec :=
  mkSim status (sim_pin sim) (sim_puk sim) (sim_retries sim) (sim_port sim).

Definition asimcard_set_pin (sim : ASimCardRec) (pin : list Z) : ASimCardRec :=
  mkSim (sim_status sim) (strncpy (sim_pin sim) pin A_SIM_PIN_SIZE) (sim_puk sim) 0 (sim_port sim).

Definition asimcard_set_puk (sim : ASimCardRec) (puk : list Z) : ASimCardRec :=
  mkSim (sim_status sim) (sim_pin sim) (strncpy (sim_puk sim) puk A_SIM_PUK_SIZE) 0 (sim_port sim).

(** A wrong attempt is counted; at [limit] the status changes. *)
Definition count_attempt (sim : ASimCardRec) (limit : Z) (status : ASimStatus) : ASimCardRec :=
  let n := s32 (sim_retries sim + 1) in
  mkSim (if n =? limit then status else sim_status sim) (sim_pin sim) (sim_puk sim) n (sim_port sim).

Definition asimcard_check_pin (sim : ASimCardRec) (pin : list Z) : bool * ASimCardRec :=
  match sim_status sim with
  | A_SIM_STATUS_PIN | A_SIM_STATUS_READY =>
      if bool_decide (cstr (sim_pin sim) = pin) then
        (true, mkSim A_SIM_STATUS_READY (sim_pin sim) (sim_puk sim) 0 (sim_port sim))
      else
        (false, if bool_decide (sim_status sim = A_SIM_STATUS_READY) then sim else count_attempt sim 3 A_SIM_STATUS_PUK)
  | _ => (false, sim)
  end.

Definition asimcard_check_puk (sim : ASimCardRec) (puk pin : list Z) : bool * ASimCardRec :=
  match sim_status sim with
  | A_SIM_STATUS_PUK =>
      if bool_decide (cstr (sim_puk sim) = puk) then
        (true, mkSim A_SIM_STATUS_READY (strncpy (sim_pin sim) pin A_SIM_PIN_SIZE)
                 (strncpy (sim_puk sim) puk A_SIM_PUK_SIZE) 0 (sim_port sim))
      else (false, count_attempt sim 6 A_SIM_STATUS_ABSENT)
  | _ => (false, sim)
  end.

(** ** Records *)

Definition answers : list (list Z * list Z) := (fun '(a, b) => (chars a, chars b)) <$> [
  ("+CRSM=192,28436,0,0,15", "+CRSM: 144,0,000000146f1404001aa0aa01020000");
  ("+CRSM=176,28436,0,0,20", "+CRSM: 144,0,416e64726f6964ffffffffffffffffffffffffff");
  ("+CRSM=192,28433,0,0,15", "+CRSM: 144,0,000000016f11040011a0aa01020000");
  ("+CRSM=176,28433,0,0,1", "+CRSM: 144,0,55");
  ("+CRSM=192,12258,0,0,15", "+CRSM: 144,0,0000000a2fe204000fa0aa01020000");
  ("+CRSM=176,12258,0,0,10", "+CRSM: 144,0,98101430121181157002");
  ("+CRSM=192,28435,0,0,15", "+CRSM: 144,0,000000016f13040011a0aa01020000");
  ("+CRSM=176,28435,0,0,1", "+CRSM: 144,0,55");
  ("+CRSM=192,28472,0,0,15", "+CRSM: 144,0,0000000f6f3804001aa0aa01020000");
  ("+CRSM=176,28472,0,0,15", "+CRSM: 144,0,ff30ffff3c003c03000c0000f03f00");
  ("+CRSM=192,28617,0,0,15", "+CRSM: 144,0,000000086fc9040011a0aa01020104");
  ("+CRSM=178,28617,1,4,4", "+CRSM: 144,0,01000000");
  ("+CRSM=192,28618,0,0,15", "+CRSM: 144,0,0000000a6fca040011a0aa01020105");
  ("+CRSM=178,28618,1,4,5", "+CRSM: 144,0,0000000000");
  ("+CRSM=192,28589,0,0,15", "+CRSM: 144,0,000000046fad04000aa0aa01020000");
  ("+CRSM=176,28589,0,0,4", "+CRSM: 144,0,00000003");
  ("+CRSM=192,28438,0,0,15", "+CRSM: 144,0,000000026f1604001aa0aa01020000");
  ("+CRSM=176,28438,0,0,2", "+CRSM: 144,0,0233");
  ("+CRSM=192,28486,0,0,15", "+CRSM: 148,4");
  ("+CRSM=192,28621,0,0,15", "+CRSM: 148,4");
  ("+CRSM=192,28613,0,0,15", "+CRSM: 144,0,000000f06fc504000aa0aa01020118");
  ("+CRSM=178,28613,1,4,24", "+CRSM: 144,0,43058441aa890affffffffffffffffffffffffffffffffff");
  ("+CRSM=192,28480,0,0,15", "+CRSM: 144,0,000000806f40040011a0aa01020120");
  ("+CRSM=178,28480,1,4,32", "+CRSM: 144,0,ffffffffffffffffffffffffffffffffffff07815155258131f5ffffffffffff");
  ("+CRSM=192,28615,0,0,15", "+CRSM: 144,0,000000406fc7040011a0aa01020120");
  ("+CRSM=178,28615,1,4,32", "+CRSM: 144,0,566f6963656d61696cffffffffffffffffff07915155125740f9ffffffffffff")
]%string.

(** [%d]. *)
Definition decimal (z : Z) : list Z := chars (pretty z).

Fixpoint find_answer (l : list (list Z * list Z)) (cmd : list Z) : option (list Z) :=
  match l with
  | [] => None
  | (c, a) :: l => if bool_decide (c = cmd) then Some a else find_answer l cmd
  end.

(** [CpuAbort] is the failed assertion. *)
Definition asimcard_io (sim : ASimCardRec) (cmd : list Z) : outcome (list Z) :=
  if bool_decide (take 6 cmd = chars "+CRSM=") then
    if bool_decide (chars "+CRSM=178,28480,1,4,32" = cmd) then
      let port := sim_port sim in
      Ret (chars "+CRSM: 144,0,ffffffffffffffffffffffffffffffffffff0781515525" ++ decimal (Z.rem (Z.quot port 1000) 10) ++ chars "1"
           ++ decimal (Z.rem (Z.quot port 10) 10) ++ decimal (Z.rem (Z.quot port 100) 10) ++ chars "f"
           ++ decimal (Z.rem port 10) ++ chars "ffffffffffff")
    else Ret (default (chars "ERROR: BAD COMMAND") (find_answer answers cmd))
  else CpuAbort.

(** ** AT commands *)

(** [cmd] is what follows [+CPIN=]. *)
Definition handleChangeOrEnterPIN (cmd : list Z) (sim : ASimCardRec) : list Z * ASimCardRec :=
  let two := (length cmd =? 9)%nat && bool_decide (cmd !! 4%nat = Some 44) in
  match sim_status sim with
  | A_SIM_STATUS_ABSENT => (chars "+CME ERROR: SIM ABSENT", sim)
  | A_SIM_STATUS_NOT_READY => (chars "+CME ERROR: SIM NOT READY", sim)
  | A_SIM_STATUS_READY =>
      if two then
        let '(ok, sim) := asimcard_check_pin sim (take 4 cmd) in
        if ok : bool then (chars "+CPIN: READY", asimcard_set_pin sim (take 4 (drop 5 cmd)))
        else (chars "+CME ERROR: BAD PIN", sim)
      else (chars "+CME ERROR: BAD FORMAT", sim)
  | A_SIM_STATUS_PIN =>
      let '(ok, sim) := asimcard_check_pin sim cmd in
      (if ok : bool then chars "+CPIN: READY" else chars "+CME ERROR: BAD PIN", sim)
  | A_SIM_STATUS_PUK =>
      if two then
        let '(ok, sim) := asimcard_check_puk sim (take 4 cmd) (drop 5 cmd) in
        (if ok : bool then chars "+CPIN: READY" else chars "+CME ERROR: BAD PUK", sim)
      else (chars "+CME ERROR: BAD PUK", sim)
  | A_SIM_STATUS_NETWORK_PERSONALIZATION => (chars "+CPIN: PH-NET PIN", sim)
  end.

Definition handleSIMStatusReq (sim : ASimCardRec) : list Z :=
  match asimcard_get_status sim with
  | A_SIM_STATUS_ABSENT => chars "+CPIN: ABSENT"
  | A_SIM_STATUS_READY => chars "+CPIN: READY"
  | A_SIM_STATUS_NOT_READY => chars "+CMERROR: NOT READY"
  | A_SIM_STATUS_PIN => chars "+CPIN: SIM PIN"
  | A_SIM_STATUS_PUK => chars "+CPIN: SIM PUK"
  | A_SIM_STATUS_NETWORK_PERSONALIZATION => chars "+CPIN: PH-NET PIN"
  end.

Definition handleSIM_IO (cmd : list Z) (sim : ASimCardRec) : outcome (list Z) := asimcard_io sim cmd.

(** ** What the guest can do to the card *)

(** [AT+CPIN=] commands: the answers and the card. *)
Fixpoint pin_session (cmds : list (list Z)) (sim : ASimCardRec) : list (list Z) * ASimCardRec :=
  match cmds with
  | [] => ([], sim)
  | cmd :: cmds =>
      let '(a, sim) := handleChangeOrEnterPIN cmd sim in
      let '(l, sim) := pin_session cmds sim in (a :: l, sim)
  end.

(** Wrong PINs are counted. *)
Lemma bad_pins pins sim : sim_status sim = A_SIM_STATUS_PIN -> 0 <= sim_retries sim -> sim_retries sim + Z.of_nat (length pins) <= 3 ->
  sim_retries sim < 3 -> Forall (fun p => p <> cstr (sim_pin sim)) pins ->
  let '(l, sim') := pin_session pins sim in
  Forall (eq (chars "+CME ERROR: BAD PIN")) l /\ sim_pin sim' = sim_pin sim /\ sim_puk sim' = sim_puk sim
  /\ sim_status sim' = if sim_retries sim + Z.of_nat (length pins) <? 3 then A_SIM_STATUS_PIN else A_SIM_STATUS_PUK.
Proof.
  intros Hs H0 Hn H3 Hp. revert sim Hs H0 Hn H3 Hp. induction pins as [|p pins IH]; intros sim Hs H0 Hn H3 Hp.
  { cbn. rewrite (proj2 (Z.ltb_lt _ _)) by lia. by split_and!. }
  apply Forall_cons in Hp as [Hp Hps]. cbn [pin_session]. unfold handleChangeOrEnterPIN. rewrite Hs. unfold asimcard_check_pin. rewrite Hs.
  rewrite bool_decide_eq_false_2, bool_decide_eq_false_2 by done. unfold count_attempt.
  assert (s32 (sim_retries sim + 1) = sim_retries sim + 1) as -> by (apply swrap_small; unfold in_s; lia). rewrite Hs.
  destruct (Z.eqb_spec (sim_retries sim + 1) 3) as [E|E].
  - destruct pins; [|cbn [length] in Hn; lia]. cbn [pin_session length]. rewrite (proj2 (Z.ltb_ge _ _)) by lia.
    split_and!; [by constructor|done|done|done].
  - set (sim1 := mkSim _ _ _ _ _). cbn [length] in Hn. specialize (IH sim1 eq_refl). cbn [sim_retries sim_pin sim_puk sim1] in IH.
    destruct (pin_session pins sim1) as [l sim2]. destruct IH as (A & B & C & D); [lia|lia|lia|done|].
    split_and!; [by constructor|done|done|]. rewrite D. cbn [length].
    by replace (sim_retries sim + 1 + Z.of_nat (length pins)) with (sim_retries sim + Z.of_nat (S (length pins))) by lia.
Qed.


(** A locked card cannot be unlocked. The command takes the first four
    characters for the PUK, but a PUK has eight: whatever the guest sends to a
    card that waits for its PUK, no command is accepted, the PUK itself
    included, and the card stays locked or becomes absent. *)
Theorem locked_sim_stays_locked cmds sim : sim_status sim = A_SIM_STATUS_PUK -> length (cstr (sim_puk sim)) = 8%nat ->
  let '(l, sim') := pin_session cmds sim in
  Forall (fun a => a <> chars "+CPIN: READY") l
  /\ (sim_status sim' = A_SIM_STATUS_PUK \/ sim_status sim' = A_SIM_STATUS_ABSENT) /\ sim_pin sim' = sim_pin sim.
Proof.
  intros Hs Hl. assert (sim_status sim = A_SIM_STATUS_PUK \/ sim_status sim = A_SIM_STATUS_ABSENT) as Hst by by left. clear Hs.
  revert sim Hst Hl. induction cmds as [|cmd cmds IH]; intros sim Hst Hl; [by split_and!|]. cbn [pin_session].
  assert (exists a sim1, handleChangeOrEnterPIN cmd sim = (a, sim1) /\ a <> chars "+CPIN: READY"
    /\ (sim_status sim1 = A_SIM_STATUS_PUK \/ sim_status sim1 = A_SIM_STATUS_ABSENT)
    /\ sim_puk sim1 = sim_puk sim /\ sim_pin sim1 = sim_pin sim) as (a & sim1 & -> & Ha & Hs1 & Hp1 & Hq1).
  { unfold handleChangeOrEnterPIN. destruct Hst as [Hs|Hs]; rewrite Hs.
    - destruct (_ && _); [|eexists _, _; split_and!; [done|by vm_compute|by left|done|done]].
      unfold asimcard_check_puk. rewrite Hs, bool_decide_eq_false_2.
      + eexists _, _. split_and!; [done|by vm_compute| |done|done]. cbn. rewrite Hs. destruct (_ =? 6); [by right|by left].
      + intros E. apply (f_equal length) in E. rewrite Hl, length_take in E. lia.
    - eexists _, _. split_and!; [done|by vm_compute|by right|done|done]. }
  specialize (IH sim1 Hs1). rewrite Hp1 in IH. specialize (IH Hl). destruct (pin_session cmds sim1) as [l sim2].
  destruct IH as (A & B & C). split_and!; [by constructor|done|congruence].
Qed.

(** A new PIN replaces the old one. On a card that is ready, the command
    with the old PIN and a new one of four characters answers that the card
    is ready, and from then on the new PIN, and no other, opens the card. *)
Theorem change_pin old new sim : sim_status sim = A_SIM_STATUS_READY -> length (sim_pin sim) = 5%nat -> drop 4 (sim_pin sim) = [0] ->
  cstr (sim_pin sim) = old -> length old = 4%nat -> length new = 4%nat -> no_nul new ->
  let '(a, sim1) := handleChangeOrEnterPIN (old ++ [44] ++ new) sim in
  a = chars "+CPIN: READY" /\ cstr (sim_pin sim1) = new
  /\ forall p, (asimcard_check_pin (asimcard_set_status sim1 A_SIM_STATUS_PIN) p).1 = bool_decide (new = p).
Proof.
  intros Hs Hl Hd Hc Ho Hn Hnn. unfold handleChangeOrEnterPIN. rewrite Hs.
  assert (Nat.eqb (length (old ++ [44] ++ new)) 9 = true) as -> by (rewrite !length_app, Ho, Hn; done).
  rewrite bool_decide_eq_true_2 by (rewrite lookup_app_r, Ho by lia; done). cbn [andb].
  rewrite (take_app_length' old) by done. unfold asimcard_check_pin at 1. rewrite Hs, Hc, bool_decide_eq_true_2 by done.
  assert (take 4 (drop 5 (old ++ [44] ++ new)) = new) as ->.
  { rewrite app_assoc, drop_app_length' by (rewrite length_app, Ho; done). apply take_ge. lia. }
  unfold asimcard_set_pin. cbn [sim_status sim_pin sim_puk sim_port]. assert (cstr (strncpy (sim_pin sim) new A_SIM_PIN_SIZE) = new) as En by by apply cstr_strncpy.
  split_and!; [done|done|]. intros p. unfold asimcard_check_pin, asimcard_set_status. cbn [sim_status sim_pin]. rewrite En.
  by case_bool_decide.
Qed.

(** ** The number of the emulator *)

(** The digits of the own number, 1555521 and the port. *)
Definition own_digits (a b c d : Z) : list Z := [1; 5; 5; 5; 5; 2; 1; a; b; c; d].

(** An MSISDN record: an empty name, the number and unused bytes. *)
Definition msisdn_record (ds : list Z) : list Z :=
  replicate 18 0xff ++ [7; 0x81] ++ semi_octets ds ++ replicate 6 0xff.

Lemma port_digits a b c d : digit_ok a -> digit_ok b -> digit_ok c -> digit_ok d ->
  let port := 1000 * a + 100 * b + 10 * c + d in
  Z.rem (Z.quot port 1000) 10 = a /\ Z.rem (Z.quot port 100) 10 = b /\ Z.rem (Z.quot port 10) 10 = c /\ Z.rem port 10 = d.
Proof.
  intros Ha Hb Hc Hd port. unfold port, digit_ok in *.
  rewrite !Z.quot_div_nonneg, !Z.rem_mod_nonneg by lia. lia.
Qed.

Lemma decimal_digit d : digit_ok d -> decimal d = [48 + d].
Proof.
  intros Hd. pose proof (forall_below 10 (fun d => bool_decide (decimal d = [48 + d])) ltac:(by vm_compute) d Hd) as H.
  by apply bool_decide_eq_true in H.
Qed.

(** The nibbles of the digits, in hexadecimal. *)
Lemma octet_hex a b : digit_ok a -> digit_ok b -> gsm_hex_from_byte (a + 16 * b) = [48 + b; 48 + a].
Proof.
  intros Ha Hb.
  pose proof (forall_below 10 (fun a => forallb (fun b => bool_decide (gsm_hex_from_byte (a + 16 * b) = [48 + b; 48 + a])) (seqZ 0 10))
    ltac:(by vm_compute) a Ha) as H. rewrite forallb_forall in H. specialize (H b). rewrite <- list_elem_of_In, elem_of_seqZ in H.
  unfold digit_ok in Hb. specialize (H ltac:(lia)). by apply bool_decide_eq_true in H.
Qed.

(** The SIM tells the guest its number. For an emulator whose console has
    a port of four digits, the record of the own number the guest reads with
    [AT+CRSM=178,28480,1,4,32] holds, in the semi-octets of 3GPP 23.040, the
    number other emulators reach it by: 1555521 and its port. *)
Theorem own_number_record sim a b c d : digit_ok a -> digit_ok b -> digit_ok c -> digit_ok d ->
  sim_port sim = 1000 * a + 100 * b + 10 * c + d ->
  handleSIM_IO (chars "+CRSM=178,28480,1,4,32") sim
    = Ret (chars "+CRSM: 144,0," ++ gsm_hex_from_bytes (msisdn_record (own_digits a b c d)))
  /\ take 11 (nibbles_of (take 6 (drop 20 (msisdn_record (own_digits a b c d))))) = own_digits a b c d.
Proof.
  intros Ha Hb Hc Hd Hp. destruct (port_digits a b c d Ha Hb Hc Hd) as (E1 & E2 & E3 & E4). cbv zeta in *.
  unfold handleSIM_IO, asimcard_io. rewrite (bool_decide_eq_true_2 (take 6 _ = _)), (bool_decide_eq_true_2 (chars _ = chars _)) by done.
  rewrite Hp, E1, E2, E3, E4, !decimal_digit by done. split.
  - f_equal. unfold msisdn_record, own_digits. cbn [semi_octets replicate app]. unfold gsm_hex_from_bytes. cbn [fmap list_fmap concat].
    assert (gsm_hex_from_byte (1 + 16 * a) = [48 + a; 49]) as -> by by rewrite octet_hex by done.
    assert (gsm_hex_from_byte (b + 16 * c) = [48 + c; 48 + b]) as -> by by rewrite octet_hex by done.
    assert (gsm_hex_from_byte (d + 0xf0) = [102; 48 + d]) as ->.
    { pose proof (forall_below 10 (fun d => bool_decide (gsm_hex_from_byte (d + 0xf0) = [102; 48 + d])) ltac:(by vm_compute) d Hd) as H.
      by apply bool_decide_eq_true in H. }
    reflexivity.
  - change (take 6 (drop 20 (msisdn_record (own_digits a b c d)))) with (semi_octets (own_digits a b c d)).
    apply (nibbles_of_semi_octets (own_digits a b c d)). unfold own_digits. repeat (constructor; [done|]). by constructor.
Qed.

(** ** Witnesses *)

(** The card a guest that has set the PIN lock starts with. *)
Definition example_sim : ASimCardRec := asimcard_set_status (asimcard_create 5554) A_SIM_STATUS_PIN.


(** The right PUK does not unlock the card. *)
Lemma locked_sim_stays_locked_witness :
  let sim := asimcard_set_status (asimcard_create 5554) A_SIM_STATUS_PUK in
  let '(l, sim') := pin_session [chars "12345678,0000"; chars "1234,0000"; chars "12345678"] sim in
  Forall (fun a => a <> chars "+CPIN: READY") l
  /\ (sim_status sim' = A_SIM_STATUS_PUK \/ sim_status sim' = A_SIM_STATUS_ABSENT) /\ sim_pin sim' = sim_pin sim.
Proof.
  intros sim. apply (locked_sim_stays_locked [chars "12345678,0000"; chars "1234,0000"; chars "12345678"] sim); [done|by vm_compute].
Defined.

Lemma change_pin_witness :
  let '(a, sim1) := handleChangeOrEnterPIN (chars "0000,4711") (asimcard_create 5554) in
  a = chars "+CPIN: READY" /\ cstr (sim_pin sim1) = chars "4711"
  /\ forall p, (asimcard_check_pin (asimcard_set_status sim1 A_SIM_STATUS_PIN) p).1 = bool_decide (chars "4711" = p).
Proof.
  apply (change_pin (chars "0000") (chars "4711") (asimcard_create 5554)); [done|done|by vm_compute|by vm_compute|done|done|].
  unfold no_nul. by repeat constructor; vm_compute.
Defined.

Lemma own_number_record_witness :
  handleSIM_IO (chars "+CRSM=178,28480,1,4,32") (asimcard_create 5556)
    = Ret (chars "+CRSM: 144,0," ++ gsm_hex_from_bytes (msisdn_record (own_digits 5 5 5 6)))
  /\ take 11 (nibbles_of (take 6 (drop 20 (msisdn_record (own_digits 5 5 5 6))))) = own_digits 5 5 5 6.
Proof. apply (own_number_record (asimcard_create 5556) 5 5 5 6); unfold digit_ok; [lia|lia|lia|lia|done]. Defined.
