(* ===== verification/RemoteCall.v ===== *)
(** Calls and messages between emulators, telephony/remote_call.c: the number
    of an emulator is the port of its console, and what one tells another is
    a line typed at that console. The socket is not modelled: whether a
    connection to a port can be opened is an argument. *)
From stdpp Require Import strings pretty.
From S2P Require Import Prelude CStrings GsmText SmsPdu SmsDeliver SimCard.
Open Scope list_scope.
#[local] Ltac Zify.zify_post_hook ::= Z.div_mod_to_equations.

Definition REMOTE_NUMBER_BASE : Z := 5554.
Definition REMOTE_NUMBER_MAX : Z := 16.
Definition REMOTE_CONSOLE_PORT : Z := 5554.
Definition PHONE_PREFIX : list Z := chars "1555521".

Definition remote_number_from_port (port : Z) : Z :=
  if nz (port .& 1) then -1
  else
    let port := s32 (port - REMOTE_CONSOLE_PORT) .>> 1 in
    if REMOTE_NUMBER_MAX <=? u32 port then -1 else REMOTE_NUMBER_BASE + port * 2.

Definition remote_number_to_port (number : Z) : Z :=
  if nz (number .& 1) then -1
  else
    let number := s32 (number - REMOTE_NUMBER_BASE) .>> 1 in
    if REMOTE_NUMBER_MAX <=? u32 number then -1 else REMOTE_CONSOLE_PORT + number * 2.

(** ** [strtol] with base 10 *)

Definition isspace (c : Z) : bool := (c =? 32) || ((9 <=? c) && (c <=? 13)).
Definition isdigit (c : Z) : bool := (48 <=? c) && (c <=? 57).

Fixpoint skip_spaces (s : list Z) : list Z :=
  match s with
  | c :: s' => if isspace c then skip_spaces s' else s
  | [] => []
  end.

Fixpoint read_digits (s : list Z) (v : Z) : Z * list Z :=
  match s with
  | c :: s' => if isdigit c then read_digits s' (10 * v + (c - 48)) else (v, s)
  | [] => (v, [])
  end.

(** The value, at most what [long] holds, and where the number ends; the
    start of the string when there is none. *)
Definition strtol (s : list Z) : Z * list Z :=
  let s1 := skip_spaces s in
  let '(neg, s2) := match s1 with
                    | 45 :: r => (true, r)
                    | 43 :: r => (false, r)
                    | _ => (false, s1)
                    end in
  match s2 with
  | c :: _ =>
      if isdigit c then
        let '(v, rest) := read_digits s2 0 in
        (if neg : bool then Z.max (- v) (- 2 ^ 63) else Z.min v (2 ^ 63 - 1), rest)
      else (0, s)
  | [] => (0, s)
  end.

Definition remote_number_string_to_port (number : list Z) : Z :=
  let len := Z.of_nat (length number) in
  let len := if bool_decide (last number = Some 59) then len - 1 else len in
  let temp := if (len =? 11) && bool_decide (take 7 number = PHONE_PREFIX) then drop 7 number else number in
  let '(num, rest) := strtol temp in
  match rest with
  | [] => if s32 num =? num then remote_number_to_port (s32 num) else -1
  | _ => -1
  end.

(** ** Calls *)

Inductive RemoteCallType :=
| REMOTE_CALL_DIAL
| REMOTE_CALL_BUSY
| REMOTE_CALL_HANGUP
| REMOTE_CALL_HOLD
| REMOTE_CALL_ACCEPT
| REMOTE_CALL_SMS.

#[export] Instance RemoteCallType_eq_dec : EqDecision RemoteCallType.
Proof. solve_decision. Defined.

(** A line on its way to a console, and the argument of [result_func]. *)
Record RemoteCallRec := mkRemote {
  rc_type : RemoteCallType;
  rc_to_port : Z;
  rc_from_port : Z;
  rc_buff : list Z;
  rc_result : option nat;
}.

(** [sizeof(rcall->buff0)]. *)
Definition BUFF0_SIZE : Z := 32.

Definition call_command (type : RemoteCallType) : option (list Z) :=
  match type with
  | REMOTE_CALL_DIAL => Some (chars "gsm call ")
  | REMOTE_CALL_BUSY => Some (chars "gsm busy ")
  | REMOTE_CALL_HOLD => Some (chars "gsm hold ")
  | REMOTE_CALL_ACCEPT => Some (chars "gsm accept ")
  | REMOTE_CALL_HANGUP => Some (chars "gsm cancel ")
  | REMOTE_CALL_SMS => None
  end.

Section Remote.
Context (connects : Z -> bool).

Definition remote_call_alloc (type : RemoteCallType) (to_port from_port : Z) : option RemoteCallRec :=
  let from_num := remote_number_from_port from_port in
  let buff := match call_command type with
              | Some cmd => cmd ++ PHONE_PREFIX ++ decimal from_num ++ [10]
              | None => []
              end in
  if BUFF0_SIZE <=? Z.of_nat (length buff) then None
  else if connects to_port then Some (mkRemote type to_port from_port buff None)
  else None.

Definition remote_call_generic (type : RemoteCallType) (to_number : list Z) (from_port : Z) : option RemoteCallRec :=
  let to_port := remote_number_string_to_port to_number in
  if remote_number_from_port from_port <? 0 then None
  else if to_port <? 0 then None
  else if to_port =? from_port then None
  else remote_call_alloc type to_port from_port.

(** [malloc] gives memory for the line. *)
Definition remote_call_set_sms_pdu (call : RemoteCallRec) (pdu : SmsPDURec) : RemoteCallRec :=
  let msg2len := 32 + (smspdu_to_hex pdu 0).1 in
  let buff_size := if BUFF0_SIZE <? msg2len then msg2len else BUFF0_SIZE in
  let '(len, hex) := smspdu_to_hex pdu (buff_size - 8) in
  mkRemote (rc_type call) (rc_to_port call) (rc_from_port call) (chars "sms pdu " ++ hex ++ [10]) (rc_result call).

Definition remote_call_dial (number : list Z) (from : Z) (result : nat) : option RemoteCallRec :=
  call ← remote_call_generic REMOTE_CALL_DIAL number from;
  Some (mkRemote (rc_type call) (rc_to_port call) (rc_from_port call) (rc_buff call) (Some result)).

Definition remote_call_other (to_number : list Z) (from_port : Z) (type : RemoteCallType) : option RemoteCallRec :=
  remote_call_generic type to_number from_port.

Definition remote_call_sms (number : list Z) (from : Z) (pdu : SmsPDURec) : option RemoteCallRec :=
  call ← remote_call_generic REMOTE_CALL_SMS number from;
  Some (remote_call_set_sms_pdu call pdu).

Definition remote_call_cancel (to_number : list Z) (from_port : Z) : option RemoteCallRec :=
  remote_call_generic REMOTE_CALL_HANGUP to_number from_port.

End Remote.

(** ** Numbers and ports *)

(** The consoles emulators listen on. *)
Definition emulator_ports : list Z := (fun i => 5554 + 2 * i) <$> seqZ 0 16.

Lemma emulator_port_spec p : p ∈ emulator_ports <-> 5554 <= p <= 5584 /\ p mod 2 = 0.
Proof.
  unfold emulator_ports. rewrite list_elem_of_fmap. setoid_rewrite elem_of_seqZ. split.
  - intros (i & -> & Hi). lia.
  - intros [H1 H2]. exists ((p - 5554) / 2). lia.
Qed.

(** The two conversions accept the same values. *)
Lemma to_port_spec n : in_s 32 n -> remote_number_to_port n = if bool_decide (n ∈ emulator_ports) then n else -1.
Proof.
  unfold in_s. intros Hn. unfold remote_number_to_port, REMOTE_NUMBER_BASE, REMOTE_NUMBER_MAX, REMOTE_CONSOLE_PORT, nz.
  change 1 with (Z.ones 1) at 1. rewrite Z.land_ones by lia. change (2 ^ 1) with 2.
  destruct (Z.eqb_spec (n mod 2) 0) as [E|E]; cbn [negb].
  2: { rewrite bool_decide_eq_false_2; [done|]. rewrite emulator_port_spec. lia. }
  destruct (decide (n < - 2 ^ 31 + 5554)) as [Hlow|Hlow].
  - assert (s32 (n - 5554) = n - 5554 + 2 ^ 32) as ->.
    { rewrite <- (swrap_small 32 (n - 5554 + 2 ^ 32)) by (unfold in_s; lia). unfold swrap.
      assert (wrap 32 (n - 5554) = wrap 32 (n - 5554 + 2 ^ 32)) as -> by (unfold wrap; lia). done. }
    rewrite Z.shiftr_div_pow2 by lia. change (2 ^ 1) with 2. rewrite wrap_small by (unfold in_u; lia).
    rewrite (proj2 (Z.leb_le _ _)) by lia. rewrite bool_decide_eq_false_2; [done|]. rewrite emulator_port_spec. lia.
  - rewrite swrap_small, Z.shiftr_div_pow2 by (unfold in_s; lia). change (2 ^ 1) with 2.
    case_bool_decide as Hp; rewrite emulator_port_spec in Hp.
    + rewrite wrap_small, (proj2 (Z.leb_gt _ _)) by (unfold in_u; lia). lia.
    + rewrite (proj2 (Z.leb_le _ _)); [done|]. destruct (decide (n < 5554)) as [Hlt|Hge].
      * assert (u32 ((n - 5554) / 2) = (n - 5554) / 2 + 2 ^ 32) as ->; [|lia].
        rewrite <- (wrap_small 32 ((n - 5554) / 2 + 2 ^ 32)) by (unfold in_u; lia). unfold wrap. lia.
      * rewrite wrap_small by (unfold in_u; lia). lia.
Qed.

(** The number of an emulator, with and without the prefix. *)
Lemma emulator_number p : p ∈ emulator_ports ->
  remote_number_string_to_port (PHONE_PREFIX ++ decimal p) = p /\ remote_number_string_to_port (decimal p) = p
  /\ remote_number_from_port p = p /\ length (decimal p) = 4%nat /\ no_nul (decimal p).
Proof.
  assert (forallb (fun p => bool_decide (remote_number_string_to_port (PHONE_PREFIX ++ decimal p) = p)
    && bool_decide (remote_number_string_to_port (decimal p) = p) && bool_decide (remote_number_from_port p = p)
    && bool_decide (length (decimal p) = 4%nat) && forallb (fun c => negb (c =? 0)) (decimal p)) emulator_ports = true) as H by by vm_compute.
  rewrite forallb_forall in H. intros Hp%list_elem_of_In%H. rewrite !andb_true_iff, !bool_decide_eq_true in Hp.
  destruct Hp as ((((H1 & H2) & H3) & H4) & H5). split_and!; try done. unfold no_nul. apply Forall_forall. intros c Hc.
  rewrite forallb_forall in H5. apply list_elem_of_In, H5 in Hc. by destruct (Z.eqb_spec c 0).
Qed.

(** Only ports of emulators are called. *)
Lemma called_port number : 0 <= remote_number_string_to_port number -> remote_number_string_to_port number ∈ emulator_ports.
Proof.
  unfold remote_number_string_to_port. destruct (strtol _) as [num rest]. destruct rest; [|lia].
  destruct (s32 num =? num); [|lia]. rewrite to_port_spec by (apply swrap_range; lia). case_bool_decide; [done|lia].
Qed.
