(* ===== verification/ModemCalls.v ===== *)
(** The calls of the modem, telephony/android_modem.c: a table of four call
    slots, the AT commands that dial, answer and release calls, the console's
    [gsm] commands, and the timers of telephony/sysdeps_qemu.c that move an
    outgoing call on. The timers and the connections to other emulators keep
    pointers to slots, which are numbers here; freeing a call moves the later
    ones down, and what the table holds past [call_count] stays. *)
From stdpp Require Import strings.
From S2P Require Import Prelude CStrings ByteStream GsmText SmsPdu SimCard RemoteCall.
Open Scope list_scope.

Definition MAX_CALLS : Z := 4.
Definition MAX_EMERGENCY_NUMBERS : Z := 16.
Definition A_CALL_NUMBER_MAX_SIZE : Z := 16.
Definition CALL_DELAY_DIAL : Z := 1000.
Definition CALL_DELAY_ALERT : Z := 1000.

Definition A_CALL_OUTBOUND : Z := 0.
Definition A_CALL_INBOUND : Z := 1.

Definition A_CALL_ACTIVE : Z := 0.
Definition A_CALL_HELD : Z := 1.
Definition A_CALL_DIALING : Z := 2.
Definition A_CALL_ALERTING : Z := 3.
Definition A_CALL_INCOMING : Z := 4.
Definition A_CALL_WAITING : Z := 5.

Definition A_CALL_VOICE : Z := 0.

(** [dir], [state] and [mode] are numbers: a snapshot can hold any byte. *)
Record AVoiceCallRec := mkCall {
  c_id : Z;
  c_dir : Z;
  c_state : Z;
  c_mode : Z;
  c_multi : Z;
  c_number : list Z;
  c_timer : option nat;
  c_remote : bool;
}.

Definition with_state (st : Z) (c : AVoiceCallRec) : AVoiceCallRec :=
  mkCall (c_id c) (c_dir c) st (c_mode c) (c_multi c) (c_number c) (c_timer c) (c_remote c).
Definition with_id (id : Z) (c : AVoiceCallRec) : AVoiceCallRec :=
  mkCall id (c_dir c) (c_state c) (c_mode c) (c_multi c) (c_number c) (c_timer c) (c_remote c).

(** ** Timers *)

(** [st_timer] is the QEMUTimer, [None] for NULL, with its deadline when it
    is armed. The callback is [voice_call_event], [st_opaque] the slot. *)
Record SysTimerRec := mkTimer { st_timer : option (option Z); st_opaque : nat; st_next : option nat }.

Record SysTimers := mkTimers { t_pool : list SysTimerRec; t_free : option nat }.

Definition MAX_TIMERS : nat := 32.

Definition sys_init_timers : SysTimers :=
  mkTimers ((fun nn => mkTimer None 0 (if decide (nn < MAX_TIMERS - 1)%nat then Some (S nn) else None)) <$> seq 0 MAX_TIMERS) (Some 0%nat).

Definition sys_timer_alloc (s : SysTimers) : option nat * SysTimers :=
  match t_free s with
  | None => (None, s)
  | Some t =>
      match t_pool s !! t with
      | Some r => (Some t, mkTimers (<[t := mkTimer None (st_opaque r) None]> (t_pool s)) (st_next r))
      | None => (None, s)
      end
  end.

Definition sys_timer_create (s : SysTimers) : option nat * SysTimers := sys_timer_alloc s.

Definition sys_timer_free (s : SysTimers) (t : nat) : SysTimers :=
  mkTimers (alter (fun r => mkTimer None (st_opaque r) (t_free s)) t (t_pool s)) (Some t).

Definition sys_timer_destroy (s : SysTimers) (t : nat) : SysTimers := sys_timer_free s t.

(** With [voice_call_event]. A QEMUTimer that is replaced while it is armed
    stays in the list of timers after it is freed: [OutOfBounds]. *)
Definition sys_timer_set (s : SysTimers) (t : option nat) (when : Z) (opaque : nat) : outcome SysTimers :=
  t ← or_out t;
  r ← or_out (t_pool s !! t);
  match st_timer r with
  | Some (Some _) =>
      if (st_opaque r =? opaque)%nat then Ret (mkTimers (<[t := mkTimer (Some (Some when)) opaque (st_next r)]> (t_pool s)) (t_free s))
      else OutOfBounds
  | _ => Ret (mkTimers (<[t := mkTimer (Some (Some when)) opaque (st_next r)]> (t_pool s)) (t_free s))
  end.

(** ** The modem *)

Record AModemRec := mkModem {
  m_base_port : Z;
  m_calls : list AVoiceCallRec;
  m_call_count : Z;
  m_emergency_numbers : list (option (list Z));
  m_in_emergency : bool;
  m_unsol_func : bool;
}.

(** The modem with what it acts on: the timers, the unsolicited lines it has
    given to the guest, and the calls to other emulators, the latest last. *)
Record phone := mkPhone {
  p_modem : AModemRec;
  p_timers : SysTimers;
  p_unsol : list (list Z);
  p_remote : list RemoteCallRec;
}.

Definition set_calls (l : list AVoiceCallRec) (n : Z) (p : phone) : phone :=
  let m := p_modem p in
  mkPhone (mkModem (m_base_port m) l n (m_emergency_numbers m) (m_in_emergency m) (m_unsol_func m)) (p_timers p) (p_unsol p) (p_remote p).
Definition set_slot (nn : nat) (c : AVoiceCallRec) (p : phone) : phone :=
  set_calls (<[nn := c]> (m_calls (p_modem p))) (m_call_count (p_modem p)) p.
Definition set_emergency (p : phone) : phone :=
  let m := p_modem p in
  mkPhone (mkModem (m_base_port m) (m_calls m) (m_call_count m) (m_emergency_numbers m) true (m_unsol_func m)) (p_timers p) (p_unsol p) (p_remote p).
Definition set_timers (s : SysTimers) (p : phone) : phone := mkPhone (p_modem p) s (p_unsol p) (p_remote p).
Definition add_remote (r : option RemoteCallRec) (p : phone) : phone :=
  mkPhone (p_modem p) (p_timers p) (p_unsol p) (p_remote p ++ match r with Some r => [r] | None => [] end).

Definition amodem_unsol (line : list Z) (p : phone) : phone :=
  if m_unsol_func (p_modem p) then mkPhone (p_modem p) (p_timers p) (p_unsol p ++ [line]) (p_remote p) else p.

Definition amodem_send_calls_update (p : phone) : phone := amodem_unsol (chars "RING" ++ [13]) p.

Definition call_at (p : phone) (nn : nat) : outcome AVoiceCallRec := or_out (m_calls (p_modem p) !! nn).

(** The calls in use. *)
Definition live (p : phone) : list AVoiceCallRec := take (Z.to_nat (m_call_count (p_modem p))) (m_calls (p_modem p)).

(** [for (id = 0; id < call_count; id++)]: the first [id] no call has, plus
    one. *)
Fixpoint find_id (todo : nat) (id : Z) (ids : list Z) : Z :=
  match todo with
  | O => id
  | S todo => if bool_decide (id + 1 ∈ ids) then find_id todo (id + 1) ids else id
  end.

(** The slot, [None] for NULL. *)
Definition amodem_alloc_call (p : phone) : outcome (option nat * phone) :=
  let count := m_call_count (p_modem p) in
  if count <? MAX_CALLS then
    let nn := Z.to_nat count in
    let id := find_id nn 0 (c_id <$> live p) in
    c ← call_at p nn;
    Ret (Some nn, set_calls (<[nn := with_id (id + 1) c]> (m_calls (p_modem p))) (count + 1) p)
  else Ret (None, p).

(** [memmove(calls + nn, calls + nn + 1, (count - 1 - nn) * sizeof)]. *)
Definition move_down (l : list AVoiceCallRec) (nn count : nat) : list AVoiceCallRec :=
  take nn l ++ take (count - 1 - nn) (drop (S nn) l) ++ drop (count - 1) l.

Section Calls.
Context (connects : Z -> bool).

(** [nn] is the slot [call] points to. *)
Definition amodem_free_call (p : phone) (nn : nat) : outcome phone :=
  c ← call_at p nn;
  let p := match c_timer c with Some t => set_timers (sys_timer_destroy (p_timers p) t) p | None => p end in
  let p := if c_remote c then add_remote (remote_call_cancel connects (cstr (c_number c)) (m_base_port (p_modem p))) p else p in
  let c := mkCall (c_id c) (c_dir c) (c_state c) (c_mode c) (c_multi c) (c_number c) None false in
  let count := m_call_count (p_modem p) in
  if Z.of_nat nn <? count then
    Ret (set_calls (move_down (<[nn := c]> (m_calls (p_modem p))) nn (Z.to_nat count)) (count - 1) p)
  else CpuAbort.

Definition find_slot (f : AVoiceCallRec -> bool) (p : phone) : option nat :=
  fst <$> list_find (fun c => f c = true) (live p).

Definition amodem_find_call (p : phone) (id : Z) : option nat := find_slot (fun c => c_id c =? id) p.

Definition amodem_find_call_by_number (p : phone) (number : list Z) : option nat :=
  find_slot (fun c => bool_decide (cstr (c_number c) = number)) p.

(** The number that is kept of [number]: as much as there is room for. *)
Definition fit_number (number : list Z) : list Z := take (Z.to_nat A_CALL_NUMBER_MAX_SIZE) number.

(** The result is -1 when there is no slot. *)
Definition amodem_add_inbound_call (p : phone) (number : list Z) : outcome (Z * phone) :=
  '(slot, p) ← amodem_alloc_call p;
  match slot with
  | None => Ret (-1, p)
  | Some nn =>
      c ← call_at p nn;
      let c := mkCall (c_id c) A_CALL_INBOUND A_CALL_INCOMING A_CALL_VOICE 0 (store_string (c_number c) (fit_number number))
                 (c_timer c) (bool_decide (0 < remote_number_string_to_port number)) in
      Ret (0, amodem_send_calls_update (set_slot nn c p))
  end.

Definition acall_set_state (p : phone) (nn : nat) (state : Z) : outcome phone :=
  c ← call_at p nn;
  if negb (state =? c_state c) then
    let port := m_base_port (p_modem p) in
    let p :=
      if c_remote c then
        if state =? A_CALL_HELD then add_remote (remote_call_other connects (cstr (c_number c)) port REMOTE_CALL_HOLD) p
        else if state =? A_CALL_ACTIVE then add_remote (remote_call_other connects (cstr (c_number c)) port REMOTE_CALL_ACCEPT) p
        else p
      else p in
    Ret (set_slot nn (with_state state c) p)
  else Ret p.

Definition amodem_update_call (p : phone) (fromNumber : list Z) (state : Z) : outcome (Z * phone) :=
  match amodem_find_call_by_number p fromNumber with
  | None => Ret (-1, p)
  | Some nn => p ← acall_set_state p nn state; Ret (0, amodem_send_calls_update p)
  end.

Definition amodem_disconnect_call (p : phone) (number : list Z) : outcome (Z * phone) :=
  match amodem_find_call_by_number p number with
  | None => Ret (-1, p)
  | Some nn => p ← amodem_free_call p nn; Ret (0, amodem_send_calls_update p)
  end.

(** The result of a connection: [success] only means that the line was sent. *)
Definition remote_voice_call_event (p : phone) (nn : nat) (success : bool) : outcome phone :=
  if success then Ret p else p ← amodem_free_call p nn; Ret (amodem_send_calls_update p).

Definition voice_call_event (p : phone) (nn : nat) (now : Z) : outcome phone :=
  c ← call_at p nn;
  p ← (if c_state c =? A_CALL_DIALING then
         let p := set_slot nn (with_state A_CALL_ALERTING c) p in
         if c_remote c then
           match remote_call_dial connects (cstr (c_number c)) (m_base_port (p_modem p)) nn with
           | Some r => Ret (add_remote (Some r) p)
           | None => amodem_free_call p nn
           end
         else
           s ← sys_timer_set (p_timers p) (c_timer c) (now + CALL_DELAY_ALERT) nn;
           Ret (set_timers s p)
       else if c_state c =? A_CALL_ALERTING then Ret (set_slot nn (with_state A_CALL_ACTIVE c) p)
       else CpuAbort);
  Ret (amodem_send_calls_update p).

(** A timer that is due: it is disarmed, then its callback runs. *)
Definition timer_due (p : phone) (t : nat) (now : Z) : bool :=
  match t_pool (p_timers p) !! t with
  | Some (mkTimer (Some (Some when)) _ _) => when <=? now
  | _ => false
  end.

Definition timer_fires (p : phone) (t : nat) (now : Z) : outcome phone :=
  match t_pool (p_timers p) !! t with
  | Some (mkTimer (Some (Some _)) nn next) =>
      voice_call_event (set_timers (mkTimers (<[t := mkTimer (Some None) nn next]> (t_pool (p_timers p))) (t_free (p_timers p))) p) nn now
  | _ => Ret p
  end.

(** ** AT commands *)

(** Numbers of 4, 7 and 10 digits get the rest of their 11. *)
Definition full_number (s : list Z) : list Z :=
  if (length s =? 10)%nat && bool_decide (take 6 s = drop 1 PHONE_PREFIX) then take 1 PHONE_PREFIX ++ s
  else if (length s =? 7)%nat && bool_decide (take 3 s = drop 4 PHONE_PREFIX) then take 4 PHONE_PREFIX ++ s
  else if (length s =? 4)%nat then PHONE_PREFIX ++ s
  else s.

(** The number of a dial command, without its semicolon. *)
Definition dial_number (cmd : list Z) : list Z :=
  let len := length cmd in
  let len := if (0 <? len)%nat && bool_decide (last cmd = Some 59) then (len - 1)%nat else len in
  let len := if A_CALL_NUMBER_MAX_SIZE + 1 <=? Z.of_nat len then Z.to_nat A_CALL_NUMBER_MAX_SIZE else len in
  full_number (take len cmd).

Definition amodem_is_emergency (m : AModemRec) (number : list Z) : bool :=
  existsb (fun e => match e with Some e => bool_decide (number = e) | None => false end)
    (take (Z.to_nat MAX_EMERGENCY_NUMBERS) (m_emergency_numbers m)).

(** [cmd] is what follows the D. The answer and the phone. *)
Definition handleDial (cmd : list Z) (p : phone) (now : Z) : outcome (list Z * phone) :=
  '(slot, p) ← amodem_alloc_call p;
  match slot with
  | None => Ret (chars "ERROR: TOO MANY CALLS", p)
  | Some nn =>
      c ← call_at p nn;
      let number := dial_number cmd in
      let emergency := amodem_is_emergency (p_modem p) number in
      let p := if emergency then set_emergency p else p in
      let '(t, s) := sys_timer_create (p_timers p) in
      let c := mkCall (c_id c) A_CALL_OUTBOUND A_CALL_DIALING A_CALL_VOICE 0 (store_string (c_number c) number)
                 t (bool_decide (0 < remote_number_string_to_port number)) in
      s ← sys_timer_set s t (now + CALL_DELAY_DIAL) nn;
      Ret (if emergency then chars "+WSOS: 1" else [], set_timers s (set_slot nn c p))
  end.

(** What the body of a loop over the calls says: go on with the next slot,
    look at this slot again ([nn--]), or leave. *)
Inductive loop_next := Next | Again | Leave.

(** [for (nn = 0; nn < modem->call_count; nn++)]: each round moves on or
    removes a call, so as many rounds as there are calls are enough. *)
Fixpoint for_calls (fuel : nat) (body : phone -> nat -> outcome (loop_next * phone)) (nn : nat) (p : phone) : outcome phone :=
  match fuel with
  | O => Ret p
  | S fuel =>
      if Z.of_nat nn <? m_call_count (p_modem p) then
        '(k, p) ← body p nn;
        match k with
        | Next => for_calls fuel body (S nn) p
        | Again => for_calls fuel body nn p
        | Leave => Ret p
        end
      else Ret p
  end.

Definition all_calls (body : phone -> nat -> outcome (loop_next * phone)) (p : phone) : outcome phone :=
  for_calls (Z.to_nat (m_call_count (p_modem p))) body 0 p.

(** What is done to a call. *)
Inductive call_action := CKeep | CSet (state : Z) | CFree.

(** The body of a loop: [act] looks at the call; with [once] the loop ends at
    the first call it changes. *)
Definition call_body (act : AVoiceCallRec -> call_action) (once : bool) (p : phone) (nn : nat) : outcome (loop_next * phone) :=
  c ← call_at p nn;
  match act c with
  | CKeep => Ret (Next, p)
  | CSet state => p ← acall_set_state p nn state; Ret (if once then Leave else Next, p)
  | CFree => p ← amodem_free_call p nn; Ret (if once then Leave else Again, p)
  end.

Definition answer_call (c : AVoiceCallRec) : call_action :=
  if c_state c =? A_CALL_INCOMING then CSet A_CALL_ACTIVE
  else if c_state c =? A_CALL_ACTIVE then CSet A_CALL_HELD
  else CKeep.

Definition refuse_call (c : AVoiceCallRec) : call_action :=
  if c_state c =? A_CALL_INCOMING then CFree else CKeep.

(** [cmd] is A or H. *)
Definition handleAnswer (cmd : list Z) (p : phone) : outcome phone :=
  if bool_decide (head cmd = Some 65) then all_calls (call_body answer_call false) p
  else if bool_decide (head cmd = Some 72) then all_calls (call_body refuse_call true) p
  else Ret p.

Definition voice (act : AVoiceCallRec -> call_action) (c : AVoiceCallRec) : call_action :=
  if c_mode c =? A_CALL_VOICE then act c else CKeep.

Definition release_held (c : AVoiceCallRec) : call_action :=
  if (c_state c =? A_CALL_HELD) || (c_state c =? A_CALL_WAITING) || (c_state c =? A_CALL_INCOMING) then CFree else CKeep.

Definition release_active (c : AVoiceCallRec) : call_action :=
  if c_state c =? A_CALL_ACTIVE then CFree
  else if (c_state c =? A_CALL_HELD) || (c_state c =? A_CALL_WAITING) then CSet A_CALL_ACTIVE
  else CKeep.

Definition swap_held (c : AVoiceCallRec) : call_action :=
  if c_state c =? A_CALL_ACTIVE then CSet A_CALL_HELD
  else if (c_state c =? A_CALL_HELD) || (c_state c =? A_CALL_WAITING) then CSet A_CALL_ACTIVE
  else CKeep.

Definition hold_others (id : Z) (c : AVoiceCallRec) : call_action :=
  if (c_state c =? A_CALL_ACTIVE) && negb (c_id c =? id) then CSet A_CALL_HELD else CKeep.

Definition join_held (c : AVoiceCallRec) : call_action :=
  if c_state c =? A_CALL_HELD then CSet A_CALL_ACTIVE else CKeep.

(** [cmd] is what follows [+CHLD=]. *)
Definition handleHangup (cmd : list Z) (p : phone) : outcome phone :=
  match cmd with
  | 48 :: _ => all_calls (call_body (voice release_held) false) p
  | [49] => all_calls (call_body (voice release_active) false) p
  | 49 :: c :: _ => match amodem_find_call p (c - 48) with Some nn => amodem_free_call p nn | None => Ret p end
  | [50] => all_calls (call_body (voice swap_held) false) p
  | 50 :: c :: _ => all_calls (call_body (voice (hold_others (c - 48))) false) p
  | 51 :: _ | 52 :: _ => all_calls (call_body (voice join_held) true) p
  | _ => Ret p
  end.

(** [%d,%d,%d,%d,%d,...%d] of one call. *)
Definition clcc_line (c : AVoiceCallRec) : list Z :=
  chars "+CLCC: " ++ decimal (c_id c) ++ [44] ++ decimal (c_dir c) ++ [44] ++ decimal (c_state c) ++ [44] ++ decimal (c_mode c)
    ++ [44] ++ decimal (c_multi c) ++ [44; 34] ++ cstr (c_number c) ++ [34; 44] ++ decimal 129 ++ [13; 10].

Definition handleListCurrentCalls (p : phone) : list Z :=
  concat ((fun c => if c_mode c =? A_CALL_VOICE then clcc_line c else []) <$> live p).

(** ** Console commands *)

Definition gsm_check_number (args : list Z) : bool :=
  negb (bool_decide (args = [])) && forallb (fun c => isdigit c || (c =? 43) || (c =? 35)) args.

(** Whether the command succeeds, and the phone. [args] is [None] when the
    line has none. *)
Definition do_gsm_call (p : phone) (args : option (list Z)) : outcome (bool * phone) :=
  match args with
  | None => Ret (false, p)
  | Some args =>
      if gsm_check_number args then '(_, p) ← amodem_add_inbound_call p args; Ret (true, p) else Ret (false, p)
  end.

Definition do_gsm_cancel (p : phone) (args : option (list Z)) : outcome (bool * phone) :=
  match args with
  | None => Ret (false, p)
  | Some args =>
      if gsm_check_number args then '(r, p) ← amodem_disconnect_call p args; Ret (0 <=? r, p) else Ret (false, p)
  end.

Definition do_gsm_busy (p : phone) (args : option (list Z)) : outcome (bool * phone) :=
  match args with
  | None => Ret (false, p)
  | Some args =>
      match amodem_find_call_by_number p args with
      | None => Ret (false, p)
      | Some nn =>
          c ← call_at p nn;
          if c_dir c =? A_CALL_OUTBOUND then '(r, p) ← amodem_disconnect_call p args; Ret (0 <=? r, p) else Ret (false, p)
      end
  end.

(** [gsm hold] and [gsm accept] differ in the state. *)
Definition gsm_update (state : Z) (p : phone) (args : option (list Z)) : outcome (bool * phone) :=
  match args with
  | None => Ret (false, p)
  | Some args =>
      match amodem_find_call_by_number p args with
      | None => Ret (false, p)
      | Some _ => '(r, p) ← amodem_update_call p args state; Ret (0 <=? r, p)
      end
  end.

Definition do_gsm_hold (p : phone) (args : option (list Z)) : outcome (bool * phone) := gsm_update A_CALL_HELD p args.
Definition do_gsm_accept (p : phone) (args : option (list Z)) : outcome (bool * phone) := gsm_update A_CALL_ACTIVE p args.

(** The commands of the table that emulators send each other. *)
Definition gsm_peer_commands : list (list Z * (phone -> option (list Z) -> outcome (bool * phone))) :=
  [(chars "call", do_gsm_call); (chars "busy", do_gsm_busy); (chars "hold", do_gsm_hold);
   (chars "accept", do_gsm_accept); (chars "cancel", do_gsm_cancel)].

(** ** Snapshots *)

Definition MODEM_DEV_STATE_SAVE_VERSION : Z := 1.

Section Snapshot.
Context {F G : Type} `{ByteWriter F} `{ByteReader G}.

Definition save_call (f : F) (c : AVoiceCallRec) : F :=
  let f := qemu_put_byte f (c_dir c) in
  let f := qemu_put_byte f (c_state c) in
  let f := qemu_put_byte f (c_mode c) in
  let f := qemu_put_be32 f (c_multi c) in
  qemu_put_buffer f (c_number c).

(** From the last call to the first. *)
Definition android_modem_state_save (f : F) (p : phone) : F :=
  foldl save_call (qemu_put_byte f (m_call_count (p_modem p))) (reverse (live p)).

(** [for (nn = call_count - 1; nn >= 0; nn--) amodem_free_call(calls + nn)]. *)
Fixpoint free_all (nn : nat) (p : phone) : outcome phone :=
  match nn with
  | O => Ret p
  | S nn => p ← amodem_free_call p nn; free_all nn p
  end.

(** A call in a slot that was not there ([vcall] is NULL) is out of bounds.
    The number is what was read before the bytes it leaves. *)
Fixpoint load_calls (n : nat) (g : G) (p : phone) : outcome (phone * G) :=
  match n with
  | O => Ret (p, g)
  | S n =>
      '(slot, p) ← amodem_alloc_call p;
      nn ← or_out slot;
      c ← call_at p nn;
      let '(dir, g) := qemu_get_byte g in
      let '(state, g) := qemu_get_byte g in
      let '(mode, g) := qemu_get_byte g in
      let '(multi, g) := qemu_get_be32 g in
      let '(number, g) := qemu_get_buffer g (A_CALL_NUMBER_MAX_SIZE + 1) in
      let c := mkCall (c_id c) dir state mode (s32 multi) (number ++ drop (length number) (c_number c)) (c_timer c) (c_remote c) in
      load_calls n g (set_slot nn c p)
  end.

(** The result and the phone; -1 for another version. *)
Definition android_modem_state_load (g : G) (p : phone) (version_id : Z) : outcome (Z * phone * G) :=
  if version_id =? MODEM_DEV_STATE_SAVE_VERSION then
    p ← free_all (Z.to_nat (m_call_count (p_modem p))) p;
    let '(call_count, g) := qemu_get_byte g in
    '(p, g) ← load_calls (Z.to_nat call_count) g p;
    Ret (0, p, g)
  else Ret (-1, p, g).

End Snapshot.
End Calls.

(** ** The table of calls *)

Record calls_ok (p : phone) : Prop := {
  slots_size : length (m_calls (p_modem p)) = 4%nat;
  count_range : 0 <= m_call_count (p_modem p) <= MAX_CALLS;
  ids_differ : NoDup (c_id <$> live p);
  ids_range : Forall (fun c => 1 <= c_id c <= MAX_CALLS) (live p);
  numbers_size : Forall (fun c => length (c_number c) = 17%nat) (m_calls (p_modem p));
}.

Lemma live_length p : calls_ok p -> Z.of_nat (length (live p)) = m_call_count (p_modem p).
Proof. intros [H1 H2 _ _ _]. unfold live, MAX_CALLS in *. rewrite length_take, H1. lia. Qed.

Lemma live_lookup p nn : calls_ok p -> Z.of_nat nn < m_call_count (p_modem p) -> live p !! nn = m_calls (p_modem p) !! nn.
Proof. intros Hok Hn. unfold live. apply lookup_take_lt. lia. Qed.

(** A call in use can be read. *)
Lemma call_at_live p nn c : live p !! nn = Some c -> call_at p nn = Ret c.
Proof. intros Hc. unfold call_at, live in *. apply lookup_take_Some in Hc as [-> _]. done. Qed.

Lemma live_set_slot p nn c : calls_ok p -> Z.of_nat nn < m_call_count (p_modem p) -> live (set_slot nn c p) = <[nn := c]> (live p).
Proof. intros _ Hn. unfold live, set_slot, set_calls. cbn [p_modem m_calls m_call_count]. apply take_insert_lt. lia. Qed.

(** Changing a call, but not its id. *)
Lemma set_slot_ok p nn c c' : calls_ok p -> live p !! nn = Some c -> c_id c' = c_id c -> length (c_number c') = 17%nat ->
  calls_ok (set_slot nn c' p).
Proof.
  intros Hok Hc Hid Hn. pose proof (live_length p Hok) as Hl. pose proof (lookup_lt_Some _ _ _ Hc) as Hlt.
  pose proof (live_set_slot p nn c' Hok ltac:(lia)) as El. destruct Hok as [H1 H2 H3 H4 H5]. constructor.
  - cbn. by rewrite length_insert.
  - done.
  - rewrite El, list_fmap_insert, Hid, list_insert_id; [done|]. by rewrite list_lookup_fmap, Hc.
  - rewrite El. apply Forall_insert; [done|]. rewrite Hid. by apply (proj1 (Forall_lookup _ _) H4 nn).
  - cbn. by apply Forall_insert.
Qed.

(** The other parts of a phone do not matter. *)
Lemma calls_ok_modem p p' : p_modem p' = p_modem p -> calls_ok p -> calls_ok p'.
Proof. intros E [H1 H2 H3 H4 H5]. unfold live in *. rewrite <- E in *. by constructor. Qed.

Lemma amodem_unsol_modem line p : p_modem (amodem_unsol line p) = p_modem p.
Proof. unfold amodem_unsol. by destruct (m_unsol_func _). Qed.

Lemma calls_update_ok p : calls_ok p -> calls_ok (amodem_send_calls_update p).
Proof. apply calls_ok_modem, amodem_unsol_modem. Qed.

Lemma live_update p : live (amodem_send_calls_update p) = live p.
Proof. unfold live, amodem_send_calls_update. by rewrite amodem_unsol_modem. Qed.

(** *** Ids *)

Lemma find_id_spec todo id ids : 0 <= id -> let r := find_id todo id ids in
  id <= r <= id + Z.of_nat todo /\ (forall j, id <= j < r -> j + 1 ∈ ids) /\ (r + 1 ∉ ids \/ r = id + Z.of_nat todo).
Proof.
  revert id. induction todo as [|todo IH]; intros id Hid; cbn [find_id]; [split_and!; [lia|lia|intros; lia|right; lia]|].
  case_bool_decide as Hin; [|split_and!; [lia|lia|intros; lia|by left]].
  destruct (IH (id + 1) ltac:(lia)) as (H1 & H2 & H3). cbv zeta. split_and!; [lia|lia| |destruct H3 as [|H3]; [by left|right; lia]].
  intros j Hj. destruct (decide (j = id)) as [->|]; [done|]. apply H2. lia.
Qed.

(** The id of a new call is free, and one of 1 to 4. *)
Lemma fresh_id ids n : length ids = n -> let r := find_id n 0 ids in 0 <= r <= Z.of_nat n /\ r + 1 ∉ ids.
Proof.
  intros Hl r. destruct (find_id_spec n 0 ids ltac:(lia)) as (H1 & H2 & H3). fold r in H1, H2, H3. split; [lia|].
  destruct H3 as [|H3]; [done|]. intros Hin.
  assert (seqZ 1 (Z.of_nat n + 1) ⊆+ ids) as Hsub.
  { apply NoDup_submseteq; [apply NoDup_seqZ|]. intros x [Hx1 Hx2]%elem_of_seqZ.
    destruct (decide (x = r + 1)) as [->|]; [done|]. replace x with ((x - 1) + 1) by lia. apply H2. lia. }
  apply submseteq_length in Hsub. rewrite length_seqZ in Hsub. lia.
Qed.

Lemma alloc_call_ok p : calls_ok p -> m_call_count (p_modem p) < MAX_CALLS ->
  exists nn c p', amodem_alloc_call p = Ret (Some nn, p') /\ calls_ok p' /\ Z.of_nat nn = m_call_count (p_modem p)
    /\ live p' = live p ++ [c] /\ (c_id c ∉ c_id <$> live p) /\ length (c_number c) = 17%nat
    /\ p' = set_calls (<[nn := c]> (m_calls (p_modem p))) (m_call_count (p_modem p) + 1) p
    /\ 1 <= c_id c <= m_call_count (p_modem p) + 1
    /\ exists c0, m_calls (p_modem p) !! nn = Some c0 /\ c = with_id (c_id c) c0.
Proof.
  intros Hok Hlt. pose proof (live_length p Hok) as Hl. pose proof Hok as [H1 H2 H3 H4 H5]. unfold amodem_alloc_call, MAX_CALLS in *.
  rewrite (proj2 (Z.ltb_lt _ _)) by done. set (nn := Z.to_nat (m_call_count (p_modem p))) in *.
  destruct (lookup_lt_is_Some_2 (m_calls (p_modem p)) nn) as [c Hc]; [lia|]. unfold call_at. rewrite Hc. cbn [or_out mbind outcome_bind].
  destruct (fresh_id (c_id <$> live p) nn) as [Hr Hf]; [rewrite length_fmap; lia|]. set (r := find_id nn 0 _) in *.
  set (p' := set_calls _ _ p). exists nn, (with_id (r + 1) c), p'.
  assert (live p' = live p ++ [with_id (r + 1) c]) as El.
  { unfold live, p', set_calls. cbn [p_modem m_calls m_call_count].
    replace (Z.to_nat (m_call_count (p_modem p) + 1)) with (S nn) by lia.
    rewrite (take_S_r _ _ (with_id (r + 1) c)) by (apply list_lookup_insert_eq; lia). f_equal. fold nn. by rewrite take_insert_ge by lia. }
  assert (length (c_number c) = 17%nat) as Hcn by by apply (proj1 (Forall_lookup _ _) H5 nn).
  split_and!; [done| |lia|done|done|done|done|cbn; lia|cbn; lia|by exists c]. constructor.
  - cbn. by rewrite length_insert.
  - change (0 <= m_call_count (p_modem p) + 1 <= 4). lia.
  - rewrite El, fmap_app. apply NoDup_app. split_and!; [done| |apply NoDup_singleton]. intros x Hx ->%list_elem_of_singleton. done.
  - rewrite El. apply Forall_app. split; [done|]. apply Forall_singleton. change (1 <= r + 1 <= 4). lia.
  - cbn. by apply Forall_insert.
Qed.

(** *** Freeing a call *)

Lemma move_down_live l nn count : (nn < count)%nat -> (count <= length l)%nat ->
  take (count - 1) (move_down l nn count) = delete nn (take count l).
Proof.
  intros Hn Hl. unfold move_down. rewrite app_assoc, take_app_length' by (rewrite length_app, !length_take, length_drop; lia).
  rewrite delete_take_drop, take_take, take_drop_commute. replace (nn `min` count)%nat with nn by lia.
  by replace (S nn + (count - 1 - nn))%nat with count by lia.
Qed.

Lemma delete_insert_same {A} (l : list A) i x : delete i (<[i := x]> l) = delete i l.
Proof. rewrite !delete_take_drop. by rewrite take_insert_ge, drop_insert_lt by lia. Qed.

Lemma NoDup_delete {A} (l : list A) i : NoDup l -> NoDup (delete i l).
Proof. intros Hl. exact (sublist_NoDup _ _ Hl (sublist_delete l i)). Qed.

Lemma length_move_down l nn count : (nn < count)%nat -> (count <= length l)%nat -> length (move_down l nn count) = length l.
Proof. intros Hn Hl. unfold move_down. rewrite !length_app, !length_take, !length_drop. lia. Qed.

Section Ops.
Context (connects : Z -> bool).

(** What the other emulator is told when a call is freed. *)
Definition cancel_note (port : Z) (c : AVoiceCallRec) : list RemoteCallRec :=
  if c_remote c then match remote_call_cancel connects (cstr (c_number c)) port with Some r => [r] | None => [] end else [].

Lemma free_call_ok p nn c : calls_ok p -> live p !! nn = Some c ->
  exists p', amodem_free_call connects p nn = Ret p' /\ calls_ok p' /\ live p' = delete nn (live p)
    /\ p_remote p' = p_remote p ++ cancel_note (m_base_port (p_modem p)) c /\ p_unsol p' = p_unsol p
    /\ m_base_port (p_modem p') = m_base_port (p_modem p) /\ m_unsol_func (p_modem p') = m_unsol_func (p_modem p)
    /\ p_timers p' = (match c_timer c with Some t => sys_timer_destroy (p_timers p) t | None => p_timers p end).
Proof.
  intros Hok Hc. pose proof (live_length p Hok) as Hl. pose proof (lookup_lt_Some _ _ _ Hc) as Hlt. pose proof Hok as [H1 H2 H3 H4 H5].
  unfold MAX_CALLS in *. unfold amodem_free_call. rewrite (call_at_live _ _ _ Hc). cbn [mbind outcome_bind].
  set (p1 := match c_timer c with Some t => _ | None => p end).
  assert (p_modem p1 = p_modem p /\ p_remote p1 = p_remote p /\ p_unsol p1 = p_unsol p
    /\ p_timers p1 = match c_timer c with Some t => sys_timer_destroy (p_timers p) t | None => p_timers p end) as (M1 & R1 & U1 & T1)
    by (unfold p1; by destruct (c_timer c)). clearbody p1.
  set (p2 := if c_remote c then _ else p1).
  assert (p_modem p2 = p_modem p /\ p_remote p2 = p_remote p ++ cancel_note (m_base_port (p_modem p)) c /\ p_unsol p2 = p_unsol p
    /\ p_timers p2 = p_timers p1) as (M2 & R2 & U2 & T2).
  { unfold p2, cancel_note. destruct (c_remote c); cbn; rewrite M1, R1, ?U1; [|by rewrite app_nil_r]. by split_and!. }
  clearbody p2. rewrite M2, (proj2 (Z.ltb_lt _ _)) by lia. set (c' := mkCall _ _ _ _ _ _ _ _). set (count := Z.to_nat (m_call_count (p_modem p))).
  eexists. split_and!; [done| | | |done|cbn; by rewrite M2|cbn; by rewrite M2|by rewrite <- T1, <- T2].
  2,3: cbn [set_calls live p_modem m_call_count m_calls p_remote].
  3: done.
  - assert (live (set_calls (move_down (<[nn := c']> (m_calls (p_modem p))) nn count) (m_call_count (p_modem p) - 1) p2) = delete nn (live p)) as El.
    { unfold live, set_calls. cbn [p_modem m_calls m_call_count]. replace (Z.to_nat (m_call_count (p_modem p) - 1)) with (count - 1)%nat by lia.
      rewrite move_down_live by (rewrite ?length_insert; lia). rewrite take_insert_lt by lia. apply delete_insert_same. }
    constructor.
    + cbn. rewrite length_move_down; rewrite ?length_insert; lia.
    + change (0 <= m_call_count (p_modem p) - 1 <= 4). lia.
    + rewrite El, list_fmap_delete. by apply NoDup_delete.
    + rewrite El. by apply Forall_delete.
    + cbn. unfold move_down. rewrite !Forall_app. assert (Forall (fun c => length (c_number c) = 17%nat) (<[nn := c']> (m_calls (p_modem p)))) as Hn.
      { apply Forall_insert; [done|]. change (length (c_number c) = 17%nat). apply (proj1 (Forall_lookup _ _) H5 nn). rewrite <- (live_lookup p nn Hok) by lia. done. }
      split_and!; [by apply Forall_take|by apply Forall_take, Forall_drop|by apply Forall_drop].
  - unfold live. cbn [p_modem m_calls m_call_count set_calls]. replace (Z.to_nat (m_call_count (p_modem p) - 1)) with (count - 1)%nat by lia.
    rewrite move_down_live by (rewrite ?length_insert; lia). rewrite take_insert_lt by lia. apply delete_insert_same.
Qed.

(** *** Changing the state of a call *)

(** What the other emulator is told. *)
Definition state_note (port : Z) (c : AVoiceCallRec) (state : Z) : list RemoteCallRec :=
  if negb (state =? c_state c) && c_remote c then
    let type := if state =? A_CALL_HELD then Some REMOTE_CALL_HOLD else if state =? A_CALL_ACTIVE then Some REMOTE_CALL_ACCEPT else None in
    match type with
    | Some type => match remote_call_other connects (cstr (c_number c)) port type with Some r => [r] | None => [] end
    | None => []
    end
  else [].

Lemma with_state_id c : with_state (c_state c) c = c.
Proof. by destruct c. Qed.

(** What an operation on calls leaves alone. *)
Definition same_phone (p p' : phone) : Prop :=
  p_unsol p' = p_unsol p /\ m_base_port (p_modem p') = m_base_port (p_modem p) /\ m_unsol_func (p_modem p') = m_unsol_func (p_modem p).

Lemma same_phone_trans p1 p2 p3 : same_phone p1 p2 -> same_phone p2 p3 -> same_phone p1 p3.
Proof. unfold same_phone. intros (A1 & A2 & A3) (B1 & B2 & B3). split_and!; congruence. Qed.

Lemma set_state_ok p nn c state : calls_ok p -> live p !! nn = Some c ->
  exists p', acall_set_state connects p nn state = Ret p' /\ calls_ok p' /\ live p' = <[nn := with_state state c]> (live p)
    /\ p_remote p' = p_remote p ++ state_note (m_base_port (p_modem p)) c state /\ same_phone p p' /\ p_timers p' = p_timers p.
Proof.
  intros Hok Hc. unfold acall_set_state, state_note. rewrite (call_at_live _ _ _ Hc). cbn [mbind outcome_bind].
  destruct (Z.eqb_spec state (c_state c)) as [->|Hne]; cbn [negb andb].
  { exists p. rewrite with_state_id, list_insert_id, app_nil_r by done. by split_and!. }
  set (p1 := if c_remote c then _ else p).
  set (note := if c_remote c then _ else _).
  assert (p_modem p1 = p_modem p /\ p_remote p1 = p_remote p ++ note /\ p_unsol p1 = p_unsol p /\ p_timers p1 = p_timers p) as (M1 & R1 & U1 & T1).
  { unfold p1, note. destruct (c_remote c); [|by rewrite app_nil_r].
    destruct (state =? A_CALL_HELD); [done|]. destruct (state =? A_CALL_ACTIVE); [done|by rewrite app_nil_r]. }
  clearbody p1. assert (calls_ok p1) as Hok1 by by apply (calls_ok_modem p). assert (live p1 = live p) as El1 by (unfold live; by rewrite M1).
  assert (live p1 !! nn = Some c) as Hc1 by by rewrite El1. exists (set_slot nn (with_state state c) p1).
  pose proof (lookup_lt_Some _ _ _ Hc1) as Hlt. pose proof (live_length _ Hok1) as Hl1.
  split_and!; [done| | |done| |done].
  - eapply set_slot_ok; [done|done|done|]. cbn. apply (proj1 (Forall_lookup _ _) (numbers_size _ Hok1) nn).
    rewrite <- (live_lookup _ _ Hok1) by lia. done.
  - by rewrite live_set_slot, El1 by (done || lia).
  - unfold same_phone, set_slot, set_calls. cbn. by rewrite M1, U1.
Qed.

(** *** Loops over the calls *)

(** The loop on the list of calls: what becomes of them, and what the other
    emulators are told. *)
Fixpoint act_on (port : Z) (act : AVoiceCallRec -> call_action) (once : bool) (l : list AVoiceCallRec) :
    list AVoiceCallRec * list RemoteCallRec :=
  match l with
  | [] => ([], [])
  | c :: l =>
      let '(l', notes) := act_on port act once l in
      match act c with
      | CKeep => (c :: l', notes)
      | CSet st => let n := state_note port c st in if once then (with_state st c :: l, n) else (with_state st c :: l', n ++ notes)
      | CFree => let n := cancel_note port c in if once then (l, n) else (l', n ++ notes)
      end
  end.

Lemma call_body_at act once p nn c : live p !! nn = Some c ->
  call_body connects act once p nn =
    match act c with
    | CKeep => Ret (Next, p)
    | CSet state => p ← acall_set_state connects p nn state; Ret (if once then Leave else Next, p)
    | CFree => p ← amodem_free_call connects p nn; Ret (if once then Leave else Again, p)
    end.
Proof. intros Hc. unfold call_body. by rewrite (call_at_live _ _ _ Hc). Qed.

Lemma for_calls_spec act once fuel : forall p don rest, calls_ok p -> live p = don ++ rest -> (length rest <= fuel)%nat ->
  exists p', for_calls fuel (call_body connects act once) (length don) p = Ret p' /\ calls_ok p'
    /\ live p' = don ++ (act_on (m_base_port (p_modem p)) act once rest).1
    /\ p_remote p' = p_remote p ++ (act_on (m_base_port (p_modem p)) act once rest).2 /\ same_phone p p'.
Proof.
  induction fuel as [|fuel IH]; intros p don rest Hok El Hf.
  { destruct rest; [|cbn in Hf; lia]. exists p. cbn. rewrite !app_nil_r. rewrite app_nil_r in El. by split_and!. }
  pose proof (live_length _ Hok) as Hl. rewrite El, length_app in Hl. cbn [for_calls]. destruct rest as [|c rest].
  { cbn [length] in Hl. rewrite (proj2 (Z.ltb_ge _ _)) by lia. exists p. cbn. rewrite !app_nil_r. rewrite app_nil_r in El. by split_and!. }
  cbn [length] in *. rewrite (proj2 (Z.ltb_lt _ _)) by lia.
  assert (live p !! length don = Some c) as Hc by (by rewrite El, list_lookup_middle).
  rewrite (call_body_at _ _ _ _ _ Hc). cbn [act_on].
  destruct (act_on (m_base_port (p_modem p)) act once rest) as [l' notes] eqn:Ea. destruct (act c) as [|st|].
  - cbn [mbind outcome_bind]. destruct (IH p (don ++ [c]) rest) as (p' & E & Ho & Hl' & Hr & Hs);
      [done|by rewrite <- app_assoc|lia|]. rewrite length_app, Nat.add_1_r in E. exists p'. rewrite Ea in Hl', Hr. cbn [fst snd] in *.
    rewrite <- app_assoc in Hl'. by split_and!.
  - destruct (set_state_ok p (length don) c st Hok Hc) as (p1 & E1 & Hok1 & Hl1 & Hr1 & Hs1 & _). rewrite E1. cbn [mbind outcome_bind].
    rewrite El, insert_app_r_alt, Nat.sub_diag in Hl1 by done. cbn in Hl1. destruct once.
    + exists p1. cbn [fst snd]. by split_and!.
    + destruct Hs1 as (S1 & S2 & S3). destruct (IH p1 (don ++ [with_state st c]) rest) as (p' & E & Ho & Hl' & Hr & Hs);
        [done|by rewrite <- app_assoc|lia|]. rewrite length_app, Nat.add_1_r in E. exists p'. rewrite S2, Ea in Hl', Hr. cbn [fst snd] in *.
      rewrite <- app_assoc in Hl'. split_and!; [done|done|done|by rewrite Hr, Hr1, app_assoc|by eapply same_phone_trans].
  - destruct (free_call_ok p (length don) c Hok Hc) as (p1 & E1 & Hok1 & Hl1 & Hr1 & S1 & S2 & S3 & _). rewrite E1. cbn [mbind outcome_bind].
    rewrite El, delete_middle in Hl1. destruct once.
    + exists p1. cbn [fst snd]. by split_and!.
    + destruct (IH p1 don rest) as (p' & E & Ho & Hl' & Hr & Hs); [done|done|lia|]. exists p'. rewrite S2, Ea in Hl', Hr. cbn [fst snd] in *.
      split_and!; [done|done|done|by rewrite Hr, Hr1, app_assoc|by eapply same_phone_trans].
Qed.

Lemma all_calls_spec act once p : calls_ok p ->
  exists p', all_calls (call_body connects act once) p = Ret p' /\ calls_ok p'
    /\ live p' = (act_on (m_base_port (p_modem p)) act once (live p)).1
    /\ p_remote p' = p_remote p ++ (act_on (m_base_port (p_modem p)) act once (live p)).2 /\ same_phone p p'.
Proof.
  intros Hok. apply (for_calls_spec act once _ p [] (live p) Hok eq_refl). pose proof (live_length _ Hok). lia.
Qed.

(** A loop that does not stop, call by call. *)
Definition acted (act : AVoiceCallRec -> call_action) (c : AVoiceCallRec) : option AVoiceCallRec :=
  match act c with CKeep => Some c | CSet st => Some (with_state st c) | CFree => None end.
Definition noted (port : Z) (act : AVoiceCallRec -> call_action) (c : AVoiceCallRec) : list RemoteCallRec :=
  match act c with CKeep => [] | CSet st => state_note port c st | CFree => cancel_note port c end.

Lemma act_on_all port act l : act_on port act false l = (omap (acted act) l, concat (noted port act <$> l)).
Proof.
  induction l as [|c l IH]; [done|]. cbn [act_on omap list_omap fmap list_fmap concat]. rewrite IH. unfold acted, noted.
  by destruct (act c).
Qed.

(** The call is a voice call in one of the states. *)
Definition voice_in (states : list Z) (c : AVoiceCallRec) : Prop := c_mode c = A_CALL_VOICE /\ c_state c ∈ states.
#[local] Instance voice_in_dec states c : Decision (voice_in states c).
Proof. unfold voice_in. apply _. Defined.

(** The calls without those in the states, held and waiting ones accepted. *)
Definition accepted (c : AVoiceCallRec) : AVoiceCallRec :=
  if decide (voice_in [A_CALL_HELD; A_CALL_WAITING] c) then with_state A_CALL_ACTIVE c else c.


Lemma release_held_spec c : acted (voice release_held) c =
  if decide (voice_in [A_CALL_HELD; A_CALL_WAITING; A_CALL_INCOMING] c) then None else Some c.
Proof.
  unfold acted, voice, release_held, voice_in. destruct (Z.eqb_spec (c_mode c) A_CALL_VOICE) as [E|E].
  2: { rewrite decide_False; [done|tauto]. }
  destruct (Z.eqb_spec (c_state c) A_CALL_HELD), (Z.eqb_spec (c_state c) A_CALL_WAITING), (Z.eqb_spec (c_state c) A_CALL_INCOMING);
    cbn [orb]; first [rewrite decide_True by (split; [done|set_solver]); done|rewrite decide_False by (intros [_ H]; set_solver); done].
Qed.

Lemma release_active_spec c : acted (voice release_active) c =
  if decide (voice_in [A_CALL_ACTIVE] c) then None else Some (accepted c).
Proof.
  unfold acted, voice, release_active, accepted, voice_in. destruct (Z.eqb_spec (c_mode c) A_CALL_VOICE) as [E|E].
  2: { rewrite !decide_False by tauto. done. }
  destruct (Z.eqb_spec (c_state c) A_CALL_ACTIVE) as [Ea|Ea].
  { rewrite decide_True; [done|]. split; [done|set_solver]. }
  rewrite (decide_False (P := _ /\ c_state c ∈ [A_CALL_ACTIVE])) by (intros [_ H]; set_solver).
  destruct (Z.eqb_spec (c_state c) A_CALL_HELD), (Z.eqb_spec (c_state c) A_CALL_WAITING);
    cbn [orb]; first [rewrite decide_True by (split; [done|set_solver]); done|rewrite decide_False by (intros [_ H]; set_solver); done].
Qed.

Lemma omap_filter {A} (P : A -> Prop) `{!forall x, Decision (P x)} (f : A -> A) (l : list A) :
  omap (fun x => if decide (P x) then None else Some (f x)) l = f <$> filter (fun x => ~ P x) l.
Proof.
  induction l as [|x l IH]; [done|]. cbn [omap list_omap]. rewrite IH. destruct (decide (P x)) as [Hx|Hx].
  - rewrite filter_cons_False by tauto. done.
  - rewrite filter_cons_True by done. done.
Qed.

Lemma omap_same {A B} (f g : A -> option B) (l : list A) : (forall x, f x = g x) -> omap f l = omap g l.
Proof. intros H. induction l as [|x l IH]; [done|]. cbn [omap list_omap]. by rewrite H, IH. Qed.

Lemma filter_every {A} (P : A -> Prop) `{!forall x, Decision (P x)} (l : list A) : Forall P l -> filter P l = l.
Proof. induction 1 as [|x l Hx _ IH]; [done|]. by rewrite filter_cons_True, IH. Qed.

Lemma filter_no {A} (P : A -> Prop) `{!forall x, Decision (P x)} (l : list A) : Forall (fun x => ~ P x) l -> filter P l = [].
Proof. induction 1 as [|x l Hx _ IH]; [done|]. by rewrite filter_cons_False, IH. Qed.

Lemma filter_id l i c : NoDup (c_id <$> l) -> l !! i = Some c ->
  filter (fun x => c_id x <> c_id c) l = delete i l /\ filter (fun x => c_id x = c_id c) l = [c].
Proof.
  revert i. induction l as [|x l IH]; intros i Hn Hi; [done|]. cbn [fmap list_fmap] in Hn. apply NoDup_cons in Hn as [Hx Hn].
  destruct i as [|i].
  - injection Hi as ->. assert (Forall (fun x => c_id x <> c_id c) l) as Hf.
    { apply Forall_forall. intros y Hy E. apply Hx. rewrite <- E. apply list_elem_of_fmap. by exists y. }
    rewrite filter_cons_False, filter_cons_True by tauto. split; [by apply filter_every|]. f_equal. by apply filter_no.
  - cbn in Hi. destruct (IH i Hn Hi) as [IH1 IH2]. assert (c_id x <> c_id c) as Hne.
    { intros E. apply Hx. rewrite E. apply list_elem_of_fmap. exists c. split; [done|by eapply list_elem_of_lookup_2]. }
    rewrite filter_cons_True, filter_cons_False, IH1, IH2 by done. done.
Qed.

Lemma find_call_spec p n : calls_ok p ->
  match amodem_find_call p n with
  | Some nn => exists c, live p !! nn = Some c /\ c_id c = n
  | None => Forall (fun c => c_id c <> n) (live p)
  end.
Proof.
  intros _. unfold amodem_find_call, find_slot. destruct (list_find _ (live p)) as [[i c]|] eqn:E; cbn.
  - apply list_find_Some in E as (Hi & Hc & _). exists c. split; [done|lia].
  - apply list_find_None in E. eapply Forall_impl; [exact E|]. intros c Hc. cbn in Hc. lia.
Qed.

(** The release commands do what 3GPP 22.030 asks of them, although the
    table they walk over shrinks under them. [AT+CHLD=0] removes exactly the
    voice calls that are held, waiting or incoming, [AT+CHLD=1] exactly the
    active ones and makes the held and waiting ones active, [AT+CHLD=1n] the
    call with that number; the others stay, in their order. The emulator at
    the other end of a call is told that it was canceled or accepted. *)
Theorem release_commands p : calls_ok p ->
  let port := m_base_port (p_modem p) in
  (exists p', handleHangup connects (chars "0") p = Ret p' /\ calls_ok p'
    /\ live p' = filter (fun c => ~ voice_in [A_CALL_HELD; A_CALL_WAITING; A_CALL_INCOMING] c) (live p)
    /\ p_remote p' = p_remote p ++ concat (noted port (voice release_held) <$> live p))
  /\ (exists p', handleHangup connects (chars "1") p = Ret p' /\ calls_ok p'
    /\ live p' = accepted <$> filter (fun c => ~ voice_in [A_CALL_ACTIVE] c) (live p)
    /\ p_remote p' = p_remote p ++ concat (noted port (voice release_active) <$> live p))
  /\ (forall n, 0 <= n < 10 -> exists p', handleHangup connects [49; 48 + n] p = Ret p' /\ calls_ok p'
    /\ live p' = filter (fun c => c_id c <> n) (live p)
    /\ p_remote p' = p_remote p ++ concat (cancel_note port <$> filter (fun c => c_id c = n) (live p))).
Proof.
  intros Hok port. split_and!.
  - destruct (all_calls_spec (voice release_held) false p Hok) as (p' & E & Ho & Hl & Hr & _). exists p'. rewrite act_on_all in Hl, Hr.
    split_and!; [exact E|done| |done]. rewrite Hl. cbn [fst]. rewrite <- (list_fmap_id (filter _ _)), <- omap_filter. apply omap_same, release_held_spec.
  - destruct (all_calls_spec (voice release_active) false p Hok) as (p' & E & Ho & Hl & Hr & _). exists p'. rewrite act_on_all in Hl, Hr.
    split_and!; [exact E|done| |done]. rewrite Hl. cbn [fst]. rewrite <- omap_filter. apply omap_same, release_active_spec.
  - intros n Hn. unfold handleHangup. replace (48 + n - 48) with n by lia. pose proof (find_call_spec p n Hok) as Hf.
    destruct (amodem_find_call p n) as [nn|].
    + destruct Hf as (c & Hc & <-). destruct (free_call_ok p nn c Hok Hc) as (p' & E & Ho & Hl & Hr & _).
      destruct (filter_id (live p) nn c (ids_differ _ Hok) Hc) as [F1 F2]. exists p'. rewrite F1, F2. cbn. rewrite app_nil_r. by split_and!.
    + exists p. rewrite filter_every, filter_no by done. cbn. rewrite app_nil_r. by split_and!.
Qed.

(** *** Every operation keeps the table consistent *)

(** Changing any slot, in use or not, but not its id. *)
Lemma set_any_ok p nn c c' : calls_ok p -> m_calls (p_modem p) !! nn = Some c -> c_id c' = c_id c -> length (c_number c') = 17%nat ->
  calls_ok (set_slot nn c' p).
Proof.
  intros [H1 H2 H3 H4 H5] Hc Hid Hn.
  assert (c_id <$> live (set_slot nn c' p) = c_id <$> live p) as El.
  { unfold live, set_slot, set_calls. cbn [p_modem m_calls m_call_count]. rewrite !fmap_take, list_fmap_insert, Hid, list_insert_id; [done|].
    by rewrite list_lookup_fmap, Hc. }
  constructor; [cbn; by rewrite length_insert|done|by rewrite El| |cbn; by apply Forall_insert].
  assert (Forall (fun z => 1 <= z <= MAX_CALLS) (c_id <$> live p)) as Hr by by apply Forall_fmap.
  rewrite <- El in Hr. by apply Forall_fmap in Hr.
Qed.

Lemma call_at_Ret p nn c : call_at p nn = Ret c -> m_calls (p_modem p) !! nn = Some c.
Proof. unfold call_at, or_out. destruct (_ !! nn); [|done]. by intros [= ->]. Qed.

Lemma slot_number p nn c : calls_ok p -> m_calls (p_modem p) !! nn = Some c -> length (c_number c) = 17%nat.
Proof. intros Hok. apply (proj1 (Forall_lookup _ _) (numbers_size _ Hok)). Qed.

Lemma free_call_keeps p nn p' : calls_ok p -> amodem_free_call connects p nn = Ret p' -> calls_ok p'.
Proof.
  intros Hok E. destruct (live p !! nn) as [c|] eqn:Hc.
  - destruct (free_call_ok p nn c Hok Hc) as (p1 & E1 & Ho & _). congruence.
  - exfalso. apply lookup_ge_None in Hc. pose proof (live_length _ Hok) as Hl. unfold amodem_free_call in E.
    apply bind_Ret in E as (c & Ec & E). destruct (c_timer c), (c_remote c); cbn in E; rewrite (proj2 (Z.ltb_ge _ _)) in E by lia; done.
Qed.

Lemma set_state_keeps p nn st p' : calls_ok p -> acall_set_state connects p nn st = Ret p' -> calls_ok p'.
Proof.
  intros Hok (c & Hc%call_at_Ret & E)%bind_Ret. pose proof (slot_number p nn c Hok Hc) as Hn. destruct (negb _); [|by injection E as <-].
  injection E as <-. set (p1 := if c_remote c then _ else p).
  assert (p_modem p1 = p_modem p) as M1 by (unfold p1; destruct (c_remote c); [|done]; destruct (st =? A_CALL_HELD); [done|by destruct (st =? A_CALL_ACTIVE)]).
  apply (set_any_ok p1 nn c); [by apply (calls_ok_modem p)|by rewrite M1|done|done].
Qed.

Lemma alloc_keeps p slot p' : calls_ok p -> amodem_alloc_call p = Ret (slot, p') ->
  calls_ok p' /\ forall nn, slot = Some nn -> Z.of_nat nn < 4.
Proof.
  intros Hok E. destruct (Z.ltb_spec (m_call_count (p_modem p)) MAX_CALLS) as [Hlt|Hge].
  - destruct (alloc_call_ok p Hok Hlt) as (nn & c & p1 & E1 & Ho & Hnn & _). rewrite E in E1. injection E1 as -> ->. split; [done|].
    intros ? [= <-]. unfold MAX_CALLS in *. lia.
  - unfold amodem_alloc_call in E. rewrite (proj2 (Z.ltb_ge _ _)) in E by done. by injection E as <- <-.
Qed.

Lemma full_number_length s : (length s <= 16)%nat -> (length (full_number s) <= 16)%nat.
Proof.
  intros Hs. unfold full_number.
  destruct (Nat.eqb_spec (length s) 10), (Nat.eqb_spec (length s) 7), (Nat.eqb_spec (length s) 4); try lia; cbn [andb];
    repeat (destruct (bool_decide _); cbn [andb]); rewrite ?length_app; change (length PHONE_PREFIX) with 7%nat; cbn [length take]; try (simpl; lia).
Qed.

Lemma dial_number_length cmd : (length (dial_number cmd) <= 16)%nat.
Proof.
  apply full_number_length. rewrite length_take. set (len := if _ && _ then _ else _).
  unfold A_CALL_NUMBER_MAX_SIZE. destruct (Z.leb_spec (16 + 1) (Z.of_nat len)); lia.
Qed.

Lemma dial_keeps cmd p now a p' : calls_ok p -> handleDial cmd p now = Ret (a, p') -> calls_ok p'.
Proof.
  intros Hok ([slot p1] & E1 & E)%bind_Ret. destruct (alloc_keeps _ _ _ Hok E1) as [Ho1 _]. destruct slot as [nn|]; [|by injection E as <- <-].
  apply bind_Ret in E as (c & Hc%call_at_Ret & E). pose proof (slot_number _ _ _ Ho1 Hc) as Hn.
  cbv zeta in E. set (p2 := if amodem_is_emergency (p_modem p1) (dial_number cmd) then set_emergency p1 else p1) in E.
  assert (m_calls (p_modem p2) = m_calls (p_modem p1) /\ calls_ok p2) as [M2 Ho2].
  { unfold p2. destruct (amodem_is_emergency _ _); [|done]. split; [done|]. by destruct Ho1; constructor. }
  clearbody p2. destruct (sys_timer_create (p_timers p2)) as [t s]. apply bind_Ret in E as (s' & _ & E). injection E as _ <-.
  eapply calls_ok_modem; [|eapply (set_any_ok p2 nn c); [done|by rewrite M2| |]]; [reflexivity|reflexivity|].
  cbn. pose proof (dial_number_length cmd). rewrite length_store_string; lia.
Qed.

Lemma inbound_keeps p number r p' : calls_ok p -> amodem_add_inbound_call p number = Ret (r, p') -> calls_ok p'.
Proof.
  intros Hok ([slot p1] & E1 & E)%bind_Ret. destruct (alloc_keeps _ _ _ Hok E1) as [Ho1 _]. destruct slot as [nn|]; [|by injection E as <- <-].
  apply bind_Ret in E as (c & Hc%call_at_Ret & E). pose proof (slot_number _ _ _ Ho1 Hc) as Hn. injection E as _ <-.
  apply calls_update_ok. eapply set_any_ok; [done|exact Hc|done|]. cbn. unfold fit_number, A_CALL_NUMBER_MAX_SIZE.
  rewrite length_store_string; rewrite ?length_take; lia.
Qed.

Lemma voice_event_keeps p nn now p' : calls_ok p -> voice_call_event connects p nn now = Ret p' -> calls_ok p'.
Proof.
  intros Hok (c & Hc%call_at_Ret & E)%bind_Ret. pose proof (slot_number _ _ _ Hok Hc) as Hn.
  assert (forall st, calls_ok (set_slot nn (with_state st c) p)) as Hs by (intros; by eapply set_any_ok).
  apply bind_Ret in E as (p1 & E & [= <-]). apply calls_update_ok. destruct (c_state c =? A_CALL_DIALING).
  - cbv zeta in E. destruct (c_remote c).
    + destruct (remote_call_dial _ _ _ _); [|by eapply free_call_keeps; [apply Hs|exact E]]. injection E as <-. by apply (calls_ok_modem (set_slot nn (with_state A_CALL_ALERTING c) p)).
    + apply bind_Ret in E as (s & _ & E). injection E as <-. by apply (calls_ok_modem (set_slot nn (with_state A_CALL_ALERTING c) p)).
  - destruct (c_state c =? A_CALL_ALERTING); [|done]. injection E as <-. apply Hs.
Qed.

(** ** Reachable tables *)

(** What can happen to the calls: commands of the guest and of the console, a
    timer, the result of a connection. *)
Inductive call_op :=
| OpDial (cmd : list Z) (now : Z)
| OpAnswer (cmd : list Z)
| OpHangup (cmd : list Z)
| OpInbound (number : list Z)
| OpUpdate (number : list Z) (state : Z)
| OpDisconnect (number : list Z)
| OpTimer (t : nat) (now : Z)
| OpRemote (nn : nat) (success : bool).

Definition run_op (p : phone) (op : call_op) : outcome phone :=
  match op with
  | OpDial cmd now => '(_, p) ← handleDial cmd p now; Ret p
  | OpAnswer cmd => handleAnswer connects cmd p
  | OpHangup cmd => handleHangup connects cmd p
  | OpInbound number => '(_, p) ← amodem_add_inbound_call p number; Ret p
  | OpUpdate number state => '(_, p) ← amodem_update_call connects p number state; Ret p
  | OpDisconnect number => '(_, p) ← amodem_disconnect_call connects p number; Ret p
  | OpTimer t now => timer_fires connects p t now
  | OpRemote nn success => remote_voice_call_event connects p nn success
  end.

Definition empty_call : AVoiceCallRec := mkCall 0 0 0 0 0 (replicate 17 0) None false.

(** The modem is a static variable. *)
Definition phone_init (port : Z) (emergency : list (option (list Z))) (unsol : bool) : phone :=
  mkPhone (mkModem port (replicate 4 empty_call) 0 emergency false unsol) sys_init_timers [] [].

Inductive reachable : phone -> Prop :=
| reach_init port emergency unsol : reachable (phone_init port emergency unsol)
| reach_step p op p' : reachable p -> run_op p op = Ret p' -> reachable p'.

Lemma all_calls_keeps act once p p' : calls_ok p -> all_calls (call_body connects act once) p = Ret p' -> calls_ok p'.
Proof. intros Hok E. destruct (all_calls_spec act once p Hok) as (p1 & E1 & Ho & _). congruence. Qed.

Lemma hangup_keeps cmd p p' : calls_ok p -> handleHangup connects cmd p = Ret p' -> calls_ok p'.
Proof.
  intros Hok E. unfold handleHangup in E.
  repeat (case_match; simplify_eq/=; try done; try (by eapply all_calls_keeps); try (by eapply free_call_keeps)).
Qed.

Lemma run_op_keeps p op p' : calls_ok p -> run_op p op = Ret p' -> calls_ok p'.
Proof.
  intros Hok. destruct op as [cmd now|cmd|cmd|number|number st|number|t now|nn success]; cbn [run_op].
  - intros ([a p1] & E1 & [= <-])%bind_Ret. by eapply dial_keeps.
  - unfold handleAnswer. destruct (bool_decide _); [by apply all_calls_keeps|]. destruct (bool_decide _); [by apply all_calls_keeps|]. by intros [= <-].
  - by apply hangup_keeps.
  - intros ([r p1] & E1 & [= <-])%bind_Ret. by eapply inbound_keeps.
  - intros ([r p1] & E1 & [= <-])%bind_Ret. unfold amodem_update_call in E1. destruct (amodem_find_call_by_number p number); [|by injection E1 as _ <-].
    apply bind_Ret in E1 as (p2 & E2 & [= _ <-]). apply calls_update_ok. by eapply set_state_keeps.
  - intros ([r p1] & E1 & [= <-])%bind_Ret. unfold amodem_disconnect_call in E1. destruct (amodem_find_call_by_number p number); [|by injection E1 as _ <-].
    apply bind_Ret in E1 as (p2 & E2 & [= _ <-]). apply calls_update_ok. by eapply free_call_keeps.
  - unfold timer_fires. destruct (_ !! t) as [[[[w|]|] nn nxt]|]; try (by intros [= <-]). intros E. eapply voice_event_keeps; [|exact E]. by apply (calls_ok_modem p).
  - unfold remote_voice_call_event. destruct success; [by intros [= <-]|]. intros (p1 & E1 & [= <-])%bind_Ret. apply calls_update_ok. by eapply free_call_keeps.
Qed.

Lemma reachable_ok p : reachable p -> calls_ok p.
Proof.
  induction 1 as [port emergency unsol|p op p' _ IH E]; [|by eapply run_op_keeps].
  constructor; cbn; [done|done|constructor|constructor|repeat constructor].
Qed.

(** C13: Whatever the guest, the console, timers and other emulators do, in any
    order, the modem's table of calls stays consistent: there are at most
    four calls, their numbers are 1 to 4 and differ, and as long as there are
    fewer than four a call from outside gets a slot, with a number of its
    own, behind the calls that are there. *)
Theorem call_table_consistent p : reachable p ->
  Z.of_nat (length (live p)) = m_call_count (p_modem p) /\ (length (live p) <= 4)%nat
  /\ NoDup (c_id <$> live p) /\ Forall (fun c => 1 <= c_id c <= MAX_CALLS) (live p)
  /\ (forall number, (length (live p) < 4)%nat -> no_nul number -> (length number <= 16)%nat ->
       exists p' c, amodem_add_inbound_call p number = Ret (0, p') /\ live p' = live p ++ [c]
         /\ (c_id c ∉ c_id <$> live p) /\ cstr (c_number c) = number
         /\ c_state c = A_CALL_INCOMING /\ c_dir c = A_CALL_INBOUND /\ c_mode c = A_CALL_VOICE).
Proof.
  intros Hok%reachable_ok. pose proof (live_length _ Hok) as Hl. pose proof (count_range _ Hok) as Hr. unfold MAX_CALLS in Hr.
  split_and!; [done|lia|by apply ids_differ|by apply ids_range|]. intros number Hlt Hnn Hn.
  destruct (alloc_call_ok p Hok) as (nn & c & p1 & E & Ho & Hnc & El & Hid & Hcn & _); [unfold MAX_CALLS; lia|].
  assert (nn = length (live p)) as -> by lia. assert (live p1 !! length (live p) = Some c) as Hc by (rewrite El; by apply list_lookup_middle).
  unfold amodem_add_inbound_call. rewrite E. cbn [mbind outcome_bind]. rewrite (call_at_live _ _ _ Hc). cbn [mbind outcome_bind].
  eexists _, (mkCall _ _ _ _ _ _ _ _). split_and!; [reflexivity| |done| |done|done|done].
  - rewrite live_update, live_set_slot; [|done|pose proof (live_length _ Ho) as Hl1; rewrite El, length_app in Hl1; cbn in Hl1; lia].
    rewrite El, insert_app_r_alt, Nat.sub_diag by done. done.
  - cbn [c_number]. rewrite cstr_store; unfold fit_number, A_CALL_NUMBER_MAX_SIZE; rewrite take_ge by lia; done.
Qed.

(** ** Outgoing calls *)

(** A timer as it is. *)
Definition timer_at (p : phone) (t : nat) (r : SysTimerRec) : Prop := t_pool (p_timers p) !! t = Some r.

Definition outgoing (c : AVoiceCallRec) (t : nat) (number : list Z) (st : Z) : AVoiceCallRec :=
  mkCall (c_id c) A_CALL_OUTBOUND st A_CALL_VOICE 0 (store_string (c_number c) number) (Some t) false.

(** A local call that is dialled: its slot and its timer. *)
Lemma dial_ok cmd p now t r : calls_ok p -> m_call_count (p_modem p) < MAX_CALLS ->
  t_free (p_timers p) = Some t -> timer_at p t r -> remote_number_string_to_port (dial_number cmd) <= 0 ->
  exists a p1 c, handleDial cmd p now = Ret (a, p1) /\ calls_ok p1 /\ (c_id c ∉ c_id <$> live p)
    /\ live p1 = live p ++ [outgoing c t (dial_number cmd) A_CALL_DIALING]
    /\ timer_at p1 t (mkTimer (Some (Some (now + CALL_DELAY_DIAL))) (length (live p)) None).
Proof.
  intros Hok Hlt Hfree Hat Hloc. destruct (alloc_call_ok p Hok Hlt) as (nn & c & p1 & E & Ho & Hnn & El & Hid & Hcn & Ep1 & _).
  pose proof (live_length _ Hok) as Hl. assert (nn = length (live p)) as -> by lia.
  assert (live p1 !! length (live p) = Some c) as Hc by (rewrite El; by apply list_lookup_middle).
  unfold handleDial. rewrite E. cbn [mbind outcome_bind]. rewrite (call_at_live _ _ _ Hc). cbn [mbind outcome_bind]. cbv zeta.
  set (em := amodem_is_emergency _ _). set (p2 := if em then _ else _).
  assert (m_calls (p_modem p2) = m_calls (p_modem p1) /\ m_call_count (p_modem p2) = m_call_count (p_modem p1) /\ p_timers p2 = p_timers p) as (M2 & C2 & T2)
    by (unfold p2; rewrite Ep1; by destruct em).
  assert (calls_ok p2) as Ho2 by (destruct Ho; unfold live in *; constructor; unfold live; rewrite ?M2, ?C2; done).
  assert (live p2 = live p1) as El2 by (unfold live; by rewrite M2, C2). clearbody p2.
  unfold sys_timer_create, sys_timer_alloc. rewrite T2, Hfree, Hat. unfold sys_timer_set. cbn [or_out mbind outcome_bind t_pool t_free].
  pose proof (lookup_lt_Some _ _ _ Hat) as Htlt. rewrite list_lookup_insert_eq by done. cbn [or_out mbind outcome_bind st_timer].
  rewrite bool_decide_eq_false_2 by lia.
  exists (if em then chars "+WSOS: 1" else []).
  set (s := mkTimers _ _). set (c1 := mkCall _ _ _ _ _ _ _ _). exists (set_timers s (set_slot (length (live p)) c1 p2)), c.
  assert (m_call_count (p_modem p2) = Z.of_nat (length (live p)) + 1) as Hc2 by (pose proof (live_length _ Ho2) as H; rewrite El2, El, length_app in H; cbn in H; lia).
  split_and!; [done| |done| |].
  - apply (calls_ok_modem (set_slot (length (live p)) c1 p2)); [done|]. apply (set_slot_ok p2 _ c); [done|by rewrite El2|done|].
    cbn. pose proof (dial_number_length cmd). rewrite length_store_string; lia.
  - change (live (set_slot (length (live p)) c1 p2) = live p ++ [c1]). rewrite live_set_slot, El2, El by (done || lia).
    by rewrite insert_app_r_alt, Nat.sub_diag by done.
  - unfold timer_at. cbn. rewrite list_lookup_insert_eq by by rewrite length_insert. done.
Qed.

(** A timer moves the call of its slot on. *)
Lemma local_alerts p nn c t w nxt now : calls_ok p -> live p !! nn = Some c -> c_state c = A_CALL_DIALING -> c_remote c = false ->
  c_timer c = Some t -> timer_at p t (mkTimer (Some (Some w)) nn nxt) ->
  exists p', timer_fires connects p t now = Ret p' /\ calls_ok p' /\ live p' = <[nn := with_state A_CALL_ALERTING c]> (live p)
    /\ timer_at p' t (mkTimer (Some (Some (now + CALL_DELAY_ALERT))) nn nxt).
Proof.
  intros Hok Hc Hst Hr Ht Hat. pose proof (lookup_lt_Some _ _ _ Hc) as Hlt. pose proof (live_length _ Hok) as Hl.
  pose proof (lookup_lt_Some _ _ _ Hat) as Htlt.
  assert (timer_fires connects p t now = Ret (amodem_send_calls_update (set_timers (mkTimers (<[t := mkTimer (Some (Some (now + CALL_DELAY_ALERT))) nn nxt]>
    (<[t := mkTimer (Some None) nn nxt]> (t_pool (p_timers p)))) (t_free (p_timers p))) (set_slot nn (with_state A_CALL_ALERTING c)
      (set_timers (mkTimers (<[t := mkTimer (Some None) nn nxt]> (t_pool (p_timers p))) (t_free (p_timers p))) p))))) as E.
  { unfold timer_fires. rewrite Hat. unfold voice_call_event, call_at. cbn [p_modem set_timers]. rewrite <- (live_lookup p nn Hok), Hc by lia.
    cbn [or_out mbind outcome_bind]. rewrite Hst, Hr, Ht. cbn [Z.eqb A_CALL_DIALING Pos.eqb]. unfold sys_timer_set. cbn [or_out mbind outcome_bind p_timers set_timers set_slot set_calls t_pool t_free].
    rewrite list_lookup_insert_eq by done. done. }
  eexists. split; [exact E|]. split_and!.
  - apply calls_update_ok. eapply calls_ok_modem; [|eapply (set_slot_ok p nn c (with_state A_CALL_ALERTING c)); [done|done|done|]]; [done|].
    cbn. eapply slot_number; [done|]. rewrite <- (live_lookup p nn Hok); [done|lia].
  - rewrite live_update. change (live (set_slot nn (with_state A_CALL_ALERTING c) p) = <[nn := with_state A_CALL_ALERTING c]> (live p)).
    apply live_set_slot; [done|lia].
  - unfold timer_at, amodem_send_calls_update, amodem_unsol. destruct (m_unsol_func _); cbn; by rewrite list_lookup_insert_eq by by rewrite length_insert.
Qed.

Lemma alerting_answers p nn c t w nxt now : calls_ok p -> live p !! nn = Some c -> c_state c = A_CALL_ALERTING ->
  timer_at p t (mkTimer (Some (Some w)) nn nxt) ->
  exists p', timer_fires connects p t now = Ret p' /\ calls_ok p' /\ live p' = <[nn := with_state A_CALL_ACTIVE c]> (live p)
    /\ timer_at p' t (mkTimer (Some None) nn nxt).
Proof.
  intros Hok Hc Hst Hat. pose proof (lookup_lt_Some _ _ _ Hc) as Hlt. pose proof (live_length _ Hok) as Hl.
  pose proof (lookup_lt_Some _ _ _ Hat) as Htlt. set (s := mkTimers (<[t := mkTimer (Some None) nn nxt]> (t_pool (p_timers p))) (t_free (p_timers p))).
  assert (timer_fires connects p t now = Ret (amodem_send_calls_update (set_slot nn (with_state A_CALL_ACTIVE c) (set_timers s p)))) as E.
  { unfold timer_fires. rewrite Hat. unfold voice_call_event, call_at. cbn [p_modem set_timers]. rewrite <- (live_lookup p nn Hok), Hc by lia.
    cbn [or_out mbind outcome_bind]. by rewrite Hst. }
  eexists. split; [exact E|]. split_and!.
  - apply calls_update_ok. eapply calls_ok_modem; [|eapply (set_slot_ok p nn c (with_state A_CALL_ACTIVE c)); [done|done|done|]]; [done|].
    cbn. eapply slot_number; [done|]. rewrite <- (live_lookup p nn Hok); [done|lia].
  - rewrite live_update. change (live (set_slot nn (with_state A_CALL_ACTIVE c) p) = <[nn := with_state A_CALL_ACTIVE c]> (live p)).
    apply live_set_slot; [done|lia].
  - unfold timer_at, amodem_send_calls_update, amodem_unsol. destruct (m_unsol_func _); cbn; by rewrite list_lookup_insert_eq.
Qed.

(** A call to a number that is not an emulator's goes through. With a
    free slot and a free timer, [ATD] adds a call that is being dialled and
    arms its timer for a second later; the timer makes the call ring and is
    armed for another second, and the second time it makes the call active.
    The other calls stay as they were. *)
Theorem dialled_call_connects cmd p now now1 now2 t r : calls_ok p -> m_call_count (p_modem p) < MAX_CALLS ->
  t_free (p_timers p) = Some t -> timer_at p t r -> remote_number_string_to_port (dial_number cmd) <= 0 ->
  now + CALL_DELAY_DIAL <= now1 -> now1 + CALL_DELAY_ALERT <= now2 ->
  exists a p1 p2 p3 c, handleDial cmd p now = Ret (a, p1) /\ timer_due p1 t now1 = true
    /\ timer_fires connects p1 t now1 = Ret p2 /\ timer_due p2 t now2 = true /\ timer_fires connects p2 t now2 = Ret p3
    /\ (c_id c ∉ c_id <$> live p)
    /\ live p1 = live p ++ [outgoing c t (dial_number cmd) A_CALL_DIALING]
    /\ live p2 = live p ++ [outgoing c t (dial_number cmd) A_CALL_ALERTING]
    /\ live p3 = live p ++ [outgoing c t (dial_number cmd) A_CALL_ACTIVE].
Proof.
  intros Hok Hlt Hf Hat Hloc H1 H2. destruct (dial_ok cmd p now t r Hok Hlt Hf Hat Hloc) as (a & p1 & c & E1 & Ho1 & Hid & El1 & Ht1).
  destruct (local_alerts p1 (length (live p)) (outgoing c t (dial_number cmd) A_CALL_DIALING) t (now + CALL_DELAY_DIAL) None now1)
    as (p2 & E2 & Ho2 & El2 & Ht2); [done|rewrite El1; by apply list_lookup_middle|done|done|done|done|].
  rewrite El1, insert_app_r_alt, Nat.sub_diag in El2 by done. cbn in El2.
  destruct (alerting_answers p2 (length (live p)) (outgoing c t (dial_number cmd) A_CALL_ALERTING) t (now1 + CALL_DELAY_ALERT) None now2)
    as (p3 & E3 & Ho3 & El3 & Ht3); [done|rewrite El2; by apply list_lookup_middle|done|done|].
  rewrite El2, insert_app_r_alt, Nat.sub_diag in El3 by done. cbn in El3.
  exists a, p1, p2, p3, c. split_and!; try done; unfold timer_due; [rewrite Ht1|rewrite Ht2]; by apply Z.leb_le.
Qed.

(** Releasing a call strands a later one that is still being dialled. The
    timer of an outgoing call points to its slot; when an earlier call is
    released the call moves to another slot, and its timer moves on what is
    left in the old one: the timer runs out twice, is not armed any more, and
    the call is still being dialled. *)
Theorem released_call_strands_dialling p c0 c1 x y t w nxt now1 now2 :
  m_calls (p_modem p) = [c0; c1; x; y] -> m_call_count (p_modem p) = 2 -> 1 <= c_id c0 <= MAX_CALLS ->
  c_state c1 = A_CALL_DIALING -> c_remote c1 = false -> c_timer c1 = Some t -> c_timer c0 <> Some t ->
  timer_at p t (mkTimer (Some (Some w)) 1 nxt) ->
  exists p1 p2 p3, handleHangup connects [49; 48 + c_id c0] p = Ret p1 /\ timer_fires connects p1 t now1 = Ret p2
    /\ timer_fires connects p2 t now2 = Ret p3
    /\ live p3 = [c1] /\ (forall now, timer_due p3 t now = false).
Proof.
  intros Hm Hn Hid Hst Hr Ht H0 Hat. unfold MAX_CALLS in Hid. pose proof (lookup_lt_Some _ _ _ Hat) as Htlt.
  unfold handleHangup. replace (48 + c_id c0 - 48) with (c_id c0) by lia.
  assert (amodem_find_call p (c_id c0) = Some 0%nat) as ->.
  { unfold amodem_find_call, find_slot, live. rewrite Hm, Hn. change (Z.to_nat 2) with 2%nat. cbn [take list_find]. by rewrite decide_True by lia. }
  set (s1 := match c_timer c0 with Some t => sys_timer_destroy (p_timers p) t | None => p_timers p end).
  assert (t_pool s1 !! t = Some (mkTimer (Some (Some w)) 1 nxt)) as Hat1.
  { unfold s1. destruct (c_timer c0) as [t0|]; [|done]. cbn. rewrite list_lookup_alter_ne by congruence. done. }
  assert (exists p1, amodem_free_call connects p 0 = Ret p1 /\ m_calls (p_modem p1) = [c1; c1; x; y] /\ m_call_count (p_modem p1) = 1
    /\ p_timers p1 = s1) as (p1 & -> & M1 & N1 & T1).
  { unfold amodem_free_call, call_at. rewrite Hm. cbn [lookup list_lookup or_out mbind outcome_bind]. unfold s1.
    destruct (c_timer c0), (c_remote c0); cbn [p_modem set_timers add_remote m_call_count m_calls]; rewrite Hm, Hn; eexists; by split_and!. }
  assert (exists p2, timer_fires connects p1 t now1 = Ret p2 /\ m_calls (p_modem p2) = [c1; with_state A_CALL_ALERTING c1; x; y]
    /\ m_call_count (p_modem p2) = 1 /\ t_pool (p_timers p2) !! t = Some (mkTimer (Some (Some (now1 + CALL_DELAY_ALERT))) 1 nxt)) as (p2 & E2 & M2 & N2 & T2).
  { unfold timer_fires. rewrite T1, Hat1. unfold voice_call_event, call_at. cbn [p_modem set_timers]. rewrite M1.
    cbn [lookup list_lookup or_out mbind outcome_bind]. rewrite Hst, Hr, Ht. cbn [Z.eqb A_CALL_DIALING Pos.eqb]. unfold sys_timer_set.
    cbn [or_out mbind outcome_bind p_timers set_timers set_slot set_calls t_pool t_free].
    pose proof (lookup_lt_Some _ _ _ Hat1). rewrite list_lookup_insert_eq by done. cbn [or_out mbind outcome_bind st_timer st_next t_pool t_free].
    eexists. split; [reflexivity|]. unfold amodem_send_calls_update, amodem_unsol.
    destruct (m_unsol_func _); cbn; rewrite M1, list_lookup_insert_eq by (by rewrite length_insert); by split_and!. }
  assert (exists p3, timer_fires connects p2 t now2 = Ret p3 /\ m_calls (p_modem p3) = [c1; with_state A_CALL_ACTIVE c1; x; y]
    /\ m_call_count (p_modem p3) = 1 /\ t_pool (p_timers p3) !! t = Some (mkTimer (Some None) 1 nxt)) as (p3 & E3 & M3 & N3 & T3).
  { unfold timer_fires. rewrite T2. unfold voice_call_event, call_at. cbn [p_modem set_timers]. rewrite M2.
    cbn [lookup list_lookup or_out mbind outcome_bind c_state with_state]. cbn [Z.eqb A_CALL_DIALING A_CALL_ALERTING Pos.eqb mbind outcome_bind].
    pose proof (lookup_lt_Some _ _ _ T2). eexists. split; [reflexivity|]. unfold amodem_send_calls_update, amodem_unsol.
    destruct (m_unsol_func _); cbn; rewrite M2, list_lookup_insert_eq by done; by split_and!. }
  exists p1, p2, p3. split_and!; [done|done|done| |].
  - unfold live. by rewrite M3, N3.
  - intros now. unfold timer_due. by rewrite T3.
Qed.

(** ** Snapshots of calls *)

Section SnapshotOps.
Context {F G : Type} `{WriterLaws F} `{ReaderLaws G}.

Definition enc_call (c : AVoiceCallRec) : list Z := [u8 (c_dir c)] ++ [u8 (c_state c)] ++ [u8 (c_mode c)] ++ be32 (c_multi c) ++ c_number c.

Definition saved_ok (c : AVoiceCallRec) : Prop :=
  in_u 8 (c_dir c) /\ in_u 8 (c_state c) /\ in_u 8 (c_mode c) /\ in_s 32 (c_multi c)
  /\ length (c_number c) = 17%nat /\ Forall (in_u 8) (c_number c).

Lemma save_call_emits f c : w_ok f -> saved_ok c -> emits f (enc_call c) (save_call f c).
Proof.
  intros Hf (_ & _ & _ & _ & _ & Hb). unfold save_call, enc_call.
  pose proof (put_byte_emits f (c_dir c) Hf) as E1. pose proof (put_byte_emits _ (c_state c) (emits_ok _ _ _ E1)) as E2.
  pose proof (put_byte_emits _ (c_mode c) (emits_ok _ _ _ E2)) as E3. pose proof (put_be32_emits _ (c_multi c) (emits_ok _ _ _ E3)) as E4.
  pose proof (put_buffer_emits _ (c_number c) (emits_ok _ _ _ E4) Hb) as E5.
  by repeat (eapply emits_trans; [eassumption|]).
Qed.

(** No call has a timer or another emulator at its end. *)
Definition clean (p : phone) : Prop := Forall (fun c => c_timer c = None /\ c_remote c = false) (m_calls (p_modem p)).

(** The [i]th call that is loaded. *)
Definition restored (i : nat) (c : AVoiceCallRec) : AVoiceCallRec :=
  mkCall (Z.of_nat i + 1) (c_dir c) (c_state c) (c_mode c) (c_multi c) (c_number c) None false.

Lemma load_call_spec g p c n rest : calls_ok p -> clean p -> (length (live p) < 4)%nat -> c_id <$> live p = seqZ 1 (Z.of_nat (length (live p))) ->
  saved_ok c -> r_ok g -> r_in g = enc_call c ++ rest ->
  exists p' g', load_calls (S n) g p = load_calls n g' p' /\ calls_ok p' /\ clean p'
    /\ live p' = live p ++ [restored (length (live p)) c] /\ consumed rest g'.
Proof.
  intros Hok Hcl Hlt Hids (S1 & S2 & S3 & S4 & S5 & _) Hg E. pose proof (live_length _ Hok) as Hl.
  destruct (alloc_call_ok p Hok) as (nn & c1 & p1 & E1 & Ho & Hnn & El & Hid & Hcn & Ep1 & Hrange & c0 & Hc0 & Ec0); [unfold MAX_CALLS; lia|].
  assert (nn = length (live p)) as -> by lia. assert (live p1 !! length (live p) = Some c1) as Hc by (rewrite El; by apply list_lookup_middle).
  assert (c_id c1 = Z.of_nat (length (live p)) + 1) as Hid1 by (rewrite Hids, elem_of_seqZ in Hid; lia).
  assert (c_timer c1 = None /\ c_remote c1 = false) as [Ht Hr] by (rewrite Ec0; cbn; by apply (proj1 (Forall_lookup _ _) Hcl _ _ Hc0)).
  cbn [load_calls]. rewrite E1. cbn [mbind outcome_bind or_out]. rewrite (call_at_live _ _ _ Hc). cbn [mbind outcome_bind].
  unfold enc_call in E. rewrite !wrap_small in E by done. cbn [app] in E. rewrite <- app_assoc in E.
  destruct (get_byte_consumes g _ _ Hg E) as (g1 & -> & Hg1 & E2). destruct (get_byte_consumes g1 _ _ Hg1 E2) as (g2 & -> & Hg2 & E3).
  destruct (get_byte_consumes g2 _ _ Hg2 E3) as (g3 & -> & Hg3 & E4). destruct (get_be32_consumes g3 _ _ Hg3 E4) as (g4 & -> & Hg4 & E5).
  destruct (get_buffer_consumes g4 _ _ Hg4 E5) as (g5 & E6 & Hg5). rewrite S5 in E6. change (A_CALL_NUMBER_MAX_SIZE + 1) with (Z.of_nat 17). rewrite E6.
  rewrite drop_ge, app_nil_r, Hid1, Ht, Hr by lia. assert (s32 (u32 (c_multi c)) = c_multi c) as -> by (rewrite swrap_wrap by lia; by apply swrap_small).
  eexists _, g5. split; [reflexivity|]. split_and!; [| | |done].
  - eapply set_slot_ok; [done|exact Hc|by rewrite Hid1|done].
  - unfold clean, set_slot, set_calls. cbn [p_modem m_calls]. rewrite Ep1. cbn [p_modem m_calls set_calls]. rewrite list_insert_insert_eq.
    apply Forall_insert; [exact Hcl|done].
  - rewrite live_set_slot; [|done|pose proof (live_length _ Ho) as Hl1; rewrite El, length_app in Hl1; cbn in Hl1; lia].
    rewrite El, insert_app_r_alt, Nat.sub_diag by done. done.
Qed.

Lemma load_calls_spec cs : forall g p rest, calls_ok p -> clean p -> (length (live p) + length cs <= 4)%nat ->
  c_id <$> live p = seqZ 1 (Z.of_nat (length (live p))) -> Forall saved_ok cs -> r_ok g -> r_in g = concat (enc_call <$> cs) ++ rest ->
  exists p' g', load_calls (length cs) g p = Ret (p', g') /\ calls_ok p' /\ live p' = live p ++ imap (fun i c => restored (length (live p) + i) c) cs
    /\ consumed rest g'.
Proof.
  induction cs as [|c cs IH]; intros g p rest Hok Hcl Hlen Hids Hs Hg E.
  { exists p, g. cbn. rewrite app_nil_r. by split_and!. }
  apply Forall_cons in Hs as [Hs1 Hs]. cbn [fmap list_fmap concat length] in *. rewrite <- app_assoc in E.
  destruct (load_call_spec g p c (length cs) _ Hok Hcl ltac:(lia) Hids Hs1 Hg E) as (p1 & g1 & E1 & Ho1 & Hc1 & El1 & Hg1 & E2). rewrite E1.
  assert (length (live p1) = S (length (live p))) as Hl1 by (rewrite El1, length_app; cbn; lia).
  destruct (IH g1 p1 rest) as (p' & g' & E' & Ho' & El' & Hg'); [done|done|lia| |done|done|done|].
  { rewrite Hl1, El1, fmap_app, Hids. cbn [fmap list_fmap c_id restored]. replace (Z.of_nat (S (length (live p)))) with (Z.of_nat (length (live p)) + 1) by lia. rewrite (seqZ_app 1 (Z.of_nat (length (live p))) 1) by lia. f_equal. rewrite seqZ_cons, seqZ_nil by lia. f_equal. lia. }
  exists p', g'. split_and!; [done|done| |done]. rewrite El', Hl1, El1, <- app_assoc. cbn [app imap]. f_equal. rewrite Nat.add_0_r. f_equal.
  apply imap_ext. intros i x _. cbn. f_equal. lia.
Qed.

(** A snapshot keeps the calls but turns their order around. Saved and
    loaded into an emulator that has just started, every call has its
    direction, state, kind and number again; the last call comes first, and
    the calls are numbered from 1 in the new order. *)
Theorem snapshot_reverses_calls p f g port emergency unsol rest :
  calls_ok p -> Forall saved_ok (live p) -> w_ok f -> r_ok g ->
  r_in g = drop (length (w_out f)) (w_out (android_modem_state_save f p)) ++ rest ->
  exists p' g', android_modem_state_load connects g (phone_init port emergency unsol) MODEM_DEV_STATE_SAVE_VERSION = Ret (0, p', g')
    /\ live p' = imap restored (reverse (live p)) /\ consumed rest g'.
Proof.
  intros Hok Hs Hf Hg E. pose proof (live_length _ Hok) as Hl. pose proof (count_range _ Hok) as Hr. unfold MAX_CALLS in Hr.
  pose proof (put_byte_emits f (m_call_count (p_modem p)) Hf) as W1.
  pose proof (foldl_emits save_call enc_call (reverse (live p)) (qemu_put_byte f (m_call_count (p_modem p)))) as W2.
  specialize (W2 ltac:(intros f' c Hc Hf'; apply save_call_emits; [done|]; rewrite Forall_forall in Hs; apply Hs; by rewrite elem_of_reverse in Hc) (emits_ok _ _ _ W1)).
  destruct (emits_trans _ _ _ _ _ W1 W2) as [_ Wo]. fold (android_modem_state_save f p) in Wo. rewrite Wo, drop_app_length in E.
  rewrite wrap_small in E by (unfold in_u; lia). cbn [app] in E.
  unfold android_modem_state_load. rewrite Z.eqb_refl. cbn [phone_init p_modem m_call_count]. change (Z.to_nat 0) with 0%nat. cbn [free_all mbind outcome_bind].
  destruct (get_byte_consumes g _ _ Hg E) as (g1 & -> & Hg1 & E1).
  assert (calls_ok (phone_init port emergency unsol)) as Hoi by apply reachable_ok, reach_init.
  destruct (load_calls_spec (reverse (live p)) g1 (phone_init port emergency unsol) rest) as (p' & g' & E' & _ & El' & Hg');
    [done|by apply Forall_replicate|rewrite length_reverse; change (length (live (phone_init port emergency unsol))) with 0%nat; lia|done|by apply Forall_reverse|done|done|].
  rewrite length_reverse in E'. rewrite <- Hl, Nat2Z.id, E'. cbn [mbind outcome_bind]. exists p', g'. split_and!; [done|done|done].
Qed.

End SnapshotOps.
End Ops.

(** ** Witnesses *)

Definition example_call (id state : Z) (number : list Z) (timer : option nat) : AVoiceCallRec :=
  mkCall id A_CALL_OUTBOUND state A_CALL_VOICE 0 (store_string (replicate 17 0) number) timer false.

(** An active call and one on hold, each with its timer. *)
Definition example_phone : phone :=
  mkPhone (mkModem 5554 [example_call 1 A_CALL_ACTIVE (chars "112") (Some 0%nat); example_call 3 A_CALL_HELD (chars "4711") None; empty_call; empty_call] 2
             [Some (chars "911")] false true) sys_init_timers [] [].

Lemma example_phone_ok : calls_ok example_phone.
Proof.
  constructor; [done|by vm_compute| | |].
  - by apply (bool_decide_unpack _); vm_compute.
  - by apply (bool_decide_unpack _); vm_compute.
  - by apply (bool_decide_unpack _); vm_compute.
Qed.

Lemma release_commands_witness :
  let connects := fun _ => true in
  (exists p', handleHangup connects (chars "0") example_phone = Ret p' /\ calls_ok p'
    /\ live p' = filter (fun c => ~ voice_in [A_CALL_HELD; A_CALL_WAITING; A_CALL_INCOMING] c) (live example_phone)
    /\ p_remote p' = p_remote example_phone ++ concat (noted connects 5554 (voice release_held) <$> live example_phone))
  /\ (exists p', handleHangup connects (chars "1") example_phone = Ret p' /\ calls_ok p'
    /\ live p' = accepted <$> filter (fun c => ~ voice_in [A_CALL_ACTIVE] c) (live example_phone)
    /\ p_remote p' = p_remote example_phone ++ concat (noted connects 5554 (voice release_active) <$> live example_phone))
  /\ (forall n, 0 <= n < 10 -> exists p', handleHangup connects [49; 48 + n] example_phone = Ret p' /\ calls_ok p'
    /\ live p' = filter (fun c => c_id c <> n) (live example_phone)
    /\ p_remote p' = p_remote example_phone ++ concat (cancel_note connects 5554 <$> filter (fun c => c_id c = n) (live example_phone))).
Proof. intros connects. exact (release_commands connects example_phone example_phone_ok). Defined.

(** Two calls from outside, the first of which is refused. *)
Lemma call_table_consistent_witness :
  exists p, run_op (fun _ => true) (phone_init 5554 [] true) (OpInbound (chars "4711")) = Ret p
  /\ Z.of_nat (length (live p)) = m_call_count (p_modem p) /\ (length (live p) <= 4)%nat
  /\ NoDup (c_id <$> live p) /\ Forall (fun c => 1 <= c_id c <= MAX_CALLS) (live p)
  /\ (forall number, (length (live p) < 4)%nat -> no_nul number -> (length number <= 16)%nat ->
       exists p' c, amodem_add_inbound_call p number = Ret (0, p') /\ live p' = live p ++ [c]
         /\ (c_id c ∉ c_id <$> live p) /\ cstr (c_number c) = number
         /\ c_state c = A_CALL_INCOMING /\ c_dir c = A_CALL_INBOUND /\ c_mode c = A_CALL_VOICE).
Proof.
  eexists. split; [reflexivity|]. apply (call_table_consistent (fun _ => true)).
  eapply (reach_step _ (phone_init 5554 [] true) (OpInbound (chars "4711"))); [apply reach_init|reflexivity].
Defined.

Lemma dialled_call_connects_witness : exists a p1 p2 p3 c,
  handleDial (chars "4711;") example_phone 100 = Ret (a, p1) /\ timer_due p1 0 1100 = true
    /\ timer_fires (fun _ => true) p1 0 1100 = Ret p2 /\ timer_due p2 0 2200 = true /\ timer_fires (fun _ => true) p2 0 2200 = Ret p3
    /\ (c_id c ∉ c_id <$> live example_phone)
    /\ live p1 = live example_phone ++ [outgoing c 0 (dial_number (chars "4711;")) A_CALL_DIALING]
    /\ live p2 = live example_phone ++ [outgoing c 0 (dial_number (chars "4711;")) A_CALL_ALERTING]
    /\ live p3 = live example_phone ++ [outgoing c 0 (dial_number (chars "4711;")) A_CALL_ACTIVE].
Proof.
  apply (dialled_call_connects (fun _ => true) (chars "4711;") example_phone 100 1100 2200 0 (mkTimer None 0 (Some 1%nat)));
    [exact example_phone_ok|done|done|by vm_compute|by vm_compute|by vm_compute|by vm_compute].
Defined.

(** Two calls are dialled, the first is released before the second rings. *)
Definition example_dialling : phone :=
  mkPhone (mkModem 5554 [example_call 1 A_CALL_DIALING (chars "112") (Some 0%nat); example_call 2 A_CALL_DIALING (chars "4711") (Some 1%nat); empty_call; empty_call] 2
             [] false true)
    (mkTimers [mkTimer (Some (Some 1000)) 0 None; mkTimer (Some (Some 1500)) 1 None] None) [] [].

Lemma released_call_strands_dialling_witness : exists p1 p2 p3,
  handleHangup (fun _ => true) (chars "11") example_dialling = Ret p1 /\ timer_fires (fun _ => true) p1 1 1500 = Ret p2
    /\ timer_fires (fun _ => true) p2 1 2500 = Ret p3
    /\ live p3 = [example_call 2 A_CALL_DIALING (chars "4711") (Some 1%nat)] /\ (forall now, timer_due p3 1 now = false).
Proof.
  apply (released_call_strands_dialling (fun _ => true) example_dialling (example_call 1 A_CALL_DIALING (chars "112") (Some 0%nat))
    (example_call 2 A_CALL_DIALING (chars "4711") (Some 1%nat)) empty_call empty_call 1 1500 None 1500 2500);
    [done|done|unfold MAX_CALLS; cbn; lia|done|done|done|done|done].
Defined.

Lemma snapshot_reverses_calls_witness :
  let out := android_modem_state_save (mem_out []) example_phone in
  exists p' g', android_modem_state_load (fun _ => true) (mem_in (mo_bytes out ++ [7])) (phone_init 5556 [] true) MODEM_DEV_STATE_SAVE_VERSION = Ret (0, p', g')
    /\ live p' = imap restored [example_call 3 A_CALL_HELD (chars "4711") None; example_call 1 A_CALL_ACTIVE (chars "112") (Some 0%nat)] /\ consumed [7] g'.
Proof.
  intros out.
  apply (snapshot_reverses_calls (fun _ => true) example_phone (mem_out []) (mem_in (mo_bytes out ++ [7])) 5556 [] true [7]);
    [exact example_phone_ok| |done|done|done].
  apply Forall_forall. intros c Hc. assert (bool_decide (Forall (fun c => in_u 8 (c_dir c) /\ in_u 8 (c_state c) /\ in_u 8 (c_mode c)
    /\ in_s 32 (c_multi c) /\ length (c_number c) = 17%nat /\ Forall (in_u 8) (c_number c)) (live example_phone)) = true) as Hall by by vm_compute.
  apply bool_decide_eq_true, Forall_forall with (x := c) in Hall; done.
Defined.
