(* ===== verification/Console.v ===== *)
(** The console's command interpreter, android/console.c: lines are collected
    byte by byte and looked up in a tree of commands. [S] is the state the
    commands act on; what is written back is the constructor of a reply. *)
From stdpp Require Import strings.
From S2P Require Import Prelude CStrings.
Open Scope list_scope.

Section Console.
Context {S : Type}.

(** A command has a handler (whether it succeeds, and the state) or
    sub-commands. [names] are separated by bars. *)
Inductive CommandDef :=
| mkCommand (names : list Z) (handler : option (S -> option (list Z) -> outcome (bool * S))) (subcommands : list CommandDef).

Definition cmd_names (c : CommandDef) : list Z := match c with mkCommand n _ _ => n end.
Definition cmd_handler (c : CommandDef) := match c with mkCommand _ h _ => h end.
Definition cmd_sub (c : CommandDef) : list CommandDef := match c with mkCommand _ _ s => s end.

(** [strchr(input, ' ')] with all blanks skipped, [None] at the end. *)
Fixpoint skip_blanks (s : list Z) : list Z :=
  match s with
  | c :: s' => if c =? 32 then skip_blanks s' else s
  | [] => []
  end.

Fixpoint command_args (input : list Z) : option (list Z) :=
  match input with
  | [] => None
  | c :: input' => if c =? 32 then match skip_blanks input with [] => None | args => Some args end else command_args input'
  end.

(** The name up to a bar, and what follows the bar. *)
Fixpoint cut_bar (name : list Z) : list Z * option (list Z) :=
  match name with
  | [] => ([], None)
  | c :: name => if c =? 124 then ([], Some name) else let '(a, r) := cut_bar name in (c :: a, r)
  end.

(** [!memcmp(name, input, len) && (c == ' ' || c == 0)]. *)
Definition is_named (name input : list Z) : bool :=
  bool_decide (take (length name) input = name) && match input !! length name with None => true | Some c => c =? 32 end.

(** The names one after the other; an empty one behind a bar ends them. *)
Fixpoint matches (fuel : nat) (name input : list Z) : bool :=
  match fuel with
  | O => false
  | Datatypes.S fuel =>
      let '(a, rest) := cut_bar name in
      if is_named a input then true
      else match rest with
           | Some (c :: r) => matches fuel (c :: r) input
           | _ => false
           end
  end.

Fixpoint find_in (commands : list CommandDef) (input : list Z) : option CommandDef :=
  match commands with
  | [] => None
  | c :: commands => if matches (Datatypes.S (length (cmd_names c))) (cmd_names c) input then Some c else find_in commands input
  end.

Definition find_command (input : list Z) (commands : list CommandDef) : option (CommandDef * option (list Z)) :=
  c ← find_in commands input; Some (c, command_args input).

Inductive reply := ReplyOK | ReplyHandler | ReplyUnknown | ReplyForbidden | ReplyMissing | ReplyBadSub | ReplyBuggy.

(** An HTTP request or bytes that are not UTF-8 end the connection; what they
    are is decided in android/utils. *)
Context (forbidden : list Z -> bool).

(** The loop of [control_client_do_command]; the arguments of a command are
    shorter than its line. *)
Fixpoint run_command (fuel : nat) (cmd : CommandDef) (args : option (list Z)) (s : S) : outcome (reply * S) :=
  match fuel with
  | O => Ret (ReplyBuggy, s)
  | Datatypes.S fuel =>
      match cmd_handler cmd with
      | Some handler => '(ok, s) ← handler s args; Ret (if ok : bool then ReplyOK else ReplyHandler, s)
      | None =>
          match cmd_sub cmd, args with
          | [], _ => Ret (ReplyBuggy, s)
          | _, None => Ret (ReplyMissing, s)
          | sub, Some line =>
              match find_command line sub with
              | None => Ret (ReplyBadSub, s)
              | Some (cmd, args) => run_command fuel cmd args s
              end
          end
      end
  end.

Definition control_client_do_command (commands : list CommandDef) (line : list Z) (s : S) : outcome (reply * S) :=
  match find_command line commands with
  | None => Ret (if forbidden line then ReplyForbidden else ReplyUnknown, s)
  | Some (cmd, args) => run_command (Datatypes.S (length line)) cmd args s
  end.

(** ** Bytes *)

Record ControlClient := mkClient { cl_finished : bool; cl_buff : list Z; cl_replies : list reply; cl_state : S }.

(** [sizeof(client->buff)]. *)
Definition CLIENT_BUFF_SIZE : Z := 4096.

(** [cl_buff] are the first [buff_len] bytes. *)
Definition control_client_read_byte (commands : list CommandDef) (client : ControlClient) (ch : Z) : outcome ControlClient :=
  if ch =? 13 then Ret client
  else if ch =? 10 then
    '(r, s) ← control_client_do_command commands (cstr (cl_buff client)) (cl_state client);
    let finished := match r with ReplyForbidden => true | _ => cl_finished client end in
    Ret (mkClient finished (if finished then cl_buff client else []) (cl_replies client ++ [r]) s)
  else
    let b := if CLIENT_BUFF_SIZE - 1 <=? Z.of_nat (length (cl_buff client)) then [] else cl_buff client in
    Ret (mkClient (cl_finished client) (b ++ [ch]) (cl_replies client) (cl_state client)).

(** The bytes of one [recv]: the connection is closed when it is finished. *)
Fixpoint control_client_read (commands : list CommandDef) (client : ControlClient) (buf : list Z) : outcome ControlClient :=
  match buf with
  | [] => Ret client
  | ch :: buf =>
      client ← control_client_read_byte commands client ch;
      if cl_finished client then Ret client else control_client_read commands client buf
  end.

(** ** Lines *)

Lemma read_app commands client b1 b2 : cl_finished client = false ->
  control_client_read commands client (b1 ++ b2) =
    c ← control_client_read commands client b1; if cl_finished c then Ret c else control_client_read commands c b2.
Proof.
  revert client. induction b1 as [|ch b1 IH]; intros client Hf; cbn [app control_client_read mbind outcome_bind]; [by rewrite Hf|].
  destruct (control_client_read_byte commands client ch) as [c1| | | | |]; try done. cbn [mbind outcome_bind].
  destruct (cl_finished c1) eqn:E; [cbn; by rewrite E|]. by apply IH.
Qed.

(** Bytes of a line are collected without the carriage returns. *)
Lemma read_line_bytes commands bs : forall client, cl_finished client = false -> Forall (fun c => c <> 10) bs ->
  Z.of_nat (length (cl_buff client)) + Z.of_nat (length (filter (fun c => c <> 13) bs)) <= CLIENT_BUFF_SIZE - 1 ->
  control_client_read commands client bs
    = Ret (mkClient false (cl_buff client ++ filter (fun c => c <> 13) bs) (cl_replies client) (cl_state client)).
Proof.
  induction bs as [|ch bs IH]; intros client Hf Hn Hl.
  { cbn. rewrite app_nil_r, <- Hf. by destruct client. }
  apply Forall_cons in Hn as [Hc Hn]. cbn [control_client_read]. unfold control_client_read_byte.
  destruct (Z.eqb_spec ch 13) as [->|H13].
  - rewrite filter_cons_False in Hl |- * by tauto. cbn [mbind outcome_bind]. rewrite Hf. by apply IH.
  - rewrite (proj2 (Z.eqb_neq ch 10)) by done. rewrite filter_cons_True in Hl |- * by done. cbn [length] in Hl.
    rewrite (proj2 (Z.leb_gt _ _)) by lia. cbn [mbind outcome_bind cl_finished]. rewrite Hf. rewrite IH; cbn [cl_finished cl_buff cl_replies cl_state].
    + by rewrite <- app_assoc.
    + done.
    + done.
    + rewrite length_app. cbn [length]. lia.
Qed.

(** A command never ends the connection by itself. *)
Lemma run_command_reply fuel : forall cmd args s r s', run_command fuel cmd args s = Ret (r, s') -> r <> ReplyForbidden.
Proof.
  induction fuel as [|fuel IH]; intros cmd args s r s'; cbn [run_command]; [by intros [= <- _]|].
  destruct (cmd_handler cmd) as [h|].
  - intros ([ok s1] & _ & [= <- _])%bind_Ret. by destruct ok.
  - destruct (cmd_sub cmd) as [|c1 sub]; [by intros [= <- _]|]. destruct args as [line|]; [|by intros [= <- _]].
    destruct (find_command line _) as [[cmd' args']|]; [apply IH|by intros [= <- _]].
Qed.

Lemma line_end commands bs replies s : no_nul bs -> forbidden bs = false ->
  control_client_read_byte commands (mkClient false bs replies s) 10
  = '(r, s) ← control_client_do_command commands bs s; Ret (mkClient false [] (replies ++ [r]) s).
Proof.
  intros H0 Hnf. unfold control_client_read_byte. cbn [Z.eqb Pos.eqb cl_buff cl_state cl_replies cl_finished].
  assert (cstr bs = bs) as -> by (rewrite <- (app_nil_r bs) at 1; rewrite cstr_app by done; apply app_nil_r).
  unfold control_client_do_command. rewrite Hnf. destruct (find_command _ commands) as [[cmd args]|]; [|done].
  destruct (run_command _ cmd args _) as [[r s']| | | | |] eqn:Er; try done. apply run_command_reply in Er. by destruct r.
Qed.

(** A line typed at the console is run once, as it was typed. However the
    connection cuts it and wherever carriage returns are in it, the bytes of
    a line of up to 4095 characters and its end run the command of that line,
    and leave the console ready for the next one. *)
Theorem console_runs_line commands client bs cut : cl_finished client = false -> cl_buff client = [] ->
  Forall (fun c => c <> 10) bs -> no_nul bs -> Z.of_nat (length (filter (fun c => c <> 13) bs)) < CLIENT_BUFF_SIZE ->
  forbidden (filter (fun c => c <> 13) bs) = false ->
  let bytes := bs ++ [10] in
  (c ← control_client_read commands client (take cut bytes); control_client_read commands c (drop cut bytes))
  = '(r, s) ← control_client_do_command commands (filter (fun c => c <> 13) bs) (cl_state client);
    Ret (mkClient false [] (cl_replies client ++ [r]) s).
Proof.
  intros Hf Hb Hn H0 Hl Hnf bytes.
  assert (no_nul (filter (fun c => c <> 13) bs)) as H0f.
  { unfold no_nul in *. rewrite Forall_forall in *. intros x [_ Hx]%list_elem_of_filter. by apply H0. }
  assert (control_client_read commands client bytes = '(r, s) ← control_client_do_command commands (filter (fun c => c <> 13) bs) (cl_state client);
    Ret (mkClient false [] (cl_replies client ++ [r]) s)) as E.
  { unfold bytes. rewrite read_app by done. rewrite read_line_bytes by (done || rewrite Hb; cbn; lia). cbn [mbind outcome_bind cl_finished].
    rewrite Hb. cbn [app control_client_read]. rewrite line_end by done.
    by destruct (control_client_do_command _ _ _) as [[r s]| | | | |]. }
  rewrite <- E. destruct (decide (cut <= length bs)%nat) as [Hc|Hc].
  - pose proof (read_app commands client (take cut bytes) (drop cut bytes) Hf) as Ea. rewrite take_drop in Ea. rewrite Ea.
    replace (take cut bytes) with (take cut bs) by (unfold bytes; by rewrite take_app_le).
    rewrite read_line_bytes; [done|done|by apply Forall_take|]. rewrite Hb. cbn.
    assert (le (length (filter (fun c : Z => c <> 13) (take cut bs))) (length (filter (fun c : Z => c <> 13) bs))) as Hle.
    { rewrite <- (take_drop cut bs) at 2. rewrite filter_app, length_app. lia. }
    lia.
  - assert (length bytes <= cut)%nat as Hlen by (unfold bytes; rewrite length_app; cbn; lia). rewrite take_ge, drop_ge by done.
    rewrite E. destruct (control_client_do_command _ _ _) as [[r s]| | | | |]; done.
Qed.

End Console.
Arguments CommandDef S : clear implicits.
Arguments ControlClient S : clear implicits.

(** A table of one command that takes its argument as the new state. *)
Lemma console_runs_line_witness :
  let commands := [mkCommand (chars "set|s") (Some (fun (s : list Z) (a : option (list Z)) => Ret (true, default s a))) []] in
  let bs := chars "s" ++ [13; 32] ++ chars "abc" in
  (c ← control_client_read (fun _ => false) commands (mkClient false [] [] []) (take 3 (bs ++ [10]));
   control_client_read (fun _ => false) commands c (drop 3 (bs ++ [10])))
  = Ret (mkClient false [] [ReplyOK] (chars "abc")).
Proof.
  intros commands bs.
  refine (console_runs_line (fun _ => false) commands (mkClient false [] [] []) bs 3 eq_refl eq_refl _ _ _ eq_refl).
  - by repeat constructor.
  - unfold no_nul. by repeat constructor.
  - by vm_compute.
Defined.
