(* ===== verification/Emulators.v ===== *)
(** Two emulators that call each other and send each other messages: the
    modem of one (telephony/android_modem.c) writes lines to the console of
    the other (telephony/remote_call.c, android/console.c). *)
From stdpp Require Import strings pretty gmap.
From S2P Require Import Prelude CStrings GsmText GsmRope SmsPdu SmsDeliver SmsReceiver SimCard RemoteCall ModemCalls Console.
Open Scope list_scope.
#[local] Ltac Zify.zify_post_hook ::= Z.div_mod_to_equations.

(** ** The console of a phone *)

(** [sms pdu]: the lines the modem gives to the guest. *)
Definition do_sms_sendpdu (p : phone) (args : option (list Z)) : outcome (bool * phone) :=
  match args with
  | None => Ret (false, p)
  | Some args =>
      match smspdu_create_from_hex args with
      | None => Ret (false, p)
      | Some pdu =>
          Ret (true, mkPhone (p_modem p) (p_timers p) (p_unsol p ++ amodem_receive_sms (m_unsol_func (p_modem p)) pdu) (p_remote p))
      end
  end.

Definition sms_peer_commands : list (CommandDef phone) := [mkCommand (chars "pdu") (Some do_sms_sendpdu) []].

(** The commands emulators send each other. *)
Definition peer_commands (connects : Z -> bool) : list (CommandDef phone) :=
  [mkCommand (chars "gsm") None ((fun '(n, h) => mkCommand n (Some h) []) <$> gsm_peer_commands connects);
   mkCommand (chars "sms") None sms_peer_commands].

(** A line that arrives at the console. *)
Definition console_line (connects : Z -> bool) (forbidden : list Z -> bool) (line : list Z) (p : phone) : outcome phone :=
  c ← control_client_read forbidden (peer_commands connects) (mkClient false [] [] p) line; Ret (cl_state c).

(** ** Two emulators *)

(** The phones and how many of the lines of each have arrived. *)
Record emulators := mkEmus { emu_a : phone; emu_b : phone; sent_a : nat; sent_b : nat }.

(** The next line arrives at the other console, those of the first emulator
    first; [None] when there is none. *)
Definition deliver_next (connects : Z -> bool) (forbidden : list Z -> bool) (e : emulators) : outcome (option emulators) :=
  match p_remote (emu_a e) !! sent_a e, p_remote (emu_b e) !! sent_b e with
  | Some r, _ => p ← console_line connects forbidden (rc_buff r) (emu_b e); Ret (Some (mkEmus (emu_a e) p (S (sent_a e)) (sent_b e)))
  | None, Some r => p ← console_line connects forbidden (rc_buff r) (emu_a e); Ret (Some (mkEmus p (emu_b e) (sent_a e) (S (sent_b e))))
  | None, None => Ret None
  end.

(** All lines arrive; [None] when that takes more rounds than [fuel]. *)
Fixpoint settle (fuel : nat) (connects : Z -> bool) (forbidden : list Z -> bool) (e : emulators) : outcome (option emulators) :=
  match fuel with
  | O => Ret None
  | S fuel =>
      r ← deliver_next connects forbidden e;
      match r with
      | None => Ret (Some e)
      | Some e => settle fuel connects forbidden e
      end
  end.

(** What one sees of the calls: direction, state and number. *)
Definition seen (p : phone) : list (Z * Z * list Z) := (fun c => (c_dir c, c_state c, cstr (c_number c))) <$> live p.

(** An action of the guest on the first or second emulator, then all lines
    arrive. *)
Definition act_a (f : phone -> outcome phone) (e : emulators) : outcome (option emulators) :=
  p ← f (emu_a e); settle 8 (fun _ => true) (fun _ => false) (mkEmus p (emu_b e) (sent_a e) (sent_b e)).
Definition act_b (f : phone -> outcome phone) (e : emulators) : outcome (option emulators) :=
  p ← f (emu_b e); settle 8 (fun _ => true) (fun _ => false) (mkEmus (emu_a e) p (sent_a e) (sent_b e)).

Definition started (a b : Z) : emulators := mkEmus (phone_init a [] true) (phone_init b [] true) 0 0.

Definition dials (number : list Z) (now : Z) (p : phone) : outcome phone :=
  '(_, p) ← handleDial number p now; timer_fires (fun _ => true) p 0 (now + CALL_DELAY_DIAL).

Definition number_of (port : Z) : list Z := PHONE_PREFIX ++ decimal port.

(** The calls after each step: dialling, answering, releasing. *)
Definition call_script (a b now : Z) : outcome (option (list (list (Z * Z * list Z) * list (Z * Z * list Z)))) :=
  let step r k := e ← r; match e with Some e => k e | None => Ret None end in
  step (act_a (dials (decimal b ++ [59]) now) (started a b)) (fun e1 =>
  step (act_b (handleAnswer (fun _ => true) (chars "A")) e1) (fun e2 =>
  step (act_a (handleHangup (fun _ => true) (chars "1")) e2) (fun e3 =>
  Ret (Some ((fun e => (seen (emu_a e), seen (emu_b e))) <$> [e1; e2; e3]))))).

Definition call_script_ok (a b now : Z) : bool :=
  match call_script a b now with
  | Ret (Some l) => bool_decide (l =
      [([(A_CALL_OUTBOUND, A_CALL_ALERTING, number_of b)], [(A_CALL_INBOUND, A_CALL_INCOMING, number_of a)]);
       ([(A_CALL_OUTBOUND, A_CALL_ACTIVE, number_of b)], [(A_CALL_INBOUND, A_CALL_ACTIVE, number_of a)]);
       ([], [])])
  | _ => false
  end.

Lemma call_scripts_ok now : forallb (fun a => forallb (fun b => (a =? b) || call_script_ok a b now) emulator_ports) emulator_ports = true.
Proof. vm_compute. reflexivity. Qed.


