(* ===== verification/AConfig.v ===== *)
(** Configuration files, android/utils/aconfig-file.c: trees of names and
    values, parsed from text and written back. A node keeps pointers to the
    strings it is given, so the type [V] of values is a parameter: the text of
    a loaded file has its strings, other callers say what their pointers are. *)
From stdpp Require Import strings.
From S2P Require Import Prelude CStrings RemoteCall.
Open Scope list_scope.

(** ** The tree *)

#[local] Unset Elimination Schemes.
Inductive AConfig (V : Type) := aconfig_tree (name : list Z) (value : V) (children : list (AConfig V)).
#[local] Set Elimination Schemes.
Arguments aconfig_tree {V} _ _ _.

Section Nodes.
Context {V : Type}.

Definition ac_name (n : AConfig V) : list Z := match n with aconfig_tree a _ _ => a end.
Definition ac_value (n : AConfig V) : V := match n with aconfig_tree _ v _ => v end.
Definition ac_children (n : AConfig V) : list (AConfig V) := match n with aconfig_tree _ _ c => c end.
Definition set_value (v : V) (n : AConfig V) : AConfig V := aconfig_tree (ac_name n) v (ac_children n).
Definition set_children (c : list (AConfig V)) (n : AConfig V) : AConfig V := aconfig_tree (ac_name n) (ac_value n) c.

Lemma AConfig_ind (P : AConfig V -> Prop) :
  (forall name value children, Forall P children -> P (aconfig_tree name value children)) -> forall n, P n.
Proof.
  intros Hnode. fix go 1. intros [name value children]. apply Hnode.
  induction children as [|c children IH]; constructor; [apply go|exact IH].
Qed.

Definition aconfig_node (name : list Z) (value : V) : AConfig V := aconfig_tree name value [].

(** [_aconfig_find] without creating. *)
Definition aconfig_find (root : AConfig V) (name : list Z) : option (AConfig V) :=
  snd <$> list_find (fun n => ac_name n = name) (ac_children root).

(** [_aconfig_find] with [create], and what is done to the node it returns:
    [empty] is the value of a new one. *)
Definition find_create {R : Type} (empty : V) (root : AConfig V) (name : list Z) (f : AConfig V -> R * AConfig V) : R * AConfig V :=
  match list_find (fun n => ac_name n = name) (ac_children root) with
  | Some (i, n) => let '(r, n) := f n in (r, set_children (<[i := n]> (ac_children root)) root)
  | None => let '(r, n) := f (aconfig_node name empty) in (r, set_children (ac_children root ++ [n]) root)
  end.

Definition aconfig_set (empty : V) (root : AConfig V) (name : list Z) (value : V) : AConfig V :=
  (find_create empty root name (fun n => (tt, set_value value n))).2.

Definition aconfig_str (root : AConfig V) (name : list Z) (default : option V) : option V :=
  match aconfig_find root name with None => default | Some n => Some (ac_value n) end.

End Nodes.

(** [strtol] and [strtoul]: an optional sign, then for base 0 hexadecimal
    behind [0x], octal behind [0] and decimal otherwise; a value out of range
    becomes the nearest in range. *)
Definition digit_of (base c : Z) : option Z :=
  let d := if (48 <=? c) && (c <=? 57) then c - 48
           else if (97 <=? c) && (c <=? 122) then c - 87
           else if (65 <=? c) && (c <=? 90) then c - 55 else base in
  if d <? base then Some d else None.

Fixpoint read_base (base : Z) (s : list Z) (v : Z) : Z * list Z :=
  match s with
  | c :: s' => match digit_of base c with Some d => read_base base s' (v * base + d) | None => (v, s) end
  | [] => (v, [])
  end.

(** The sign and the digits of a number, and what is left of the text, all of
    it when there is no number; [base] is 0, 10 or 16. *)
Definition read_number (base : Z) (s : list Z) : option (bool * Z) * list Z :=
  let s1 := skip_spaces s in
  let '(neg, s2) := match s1 with 45 :: r => (true, r) | 43 :: r => (false, r) | _ => (false, s1) end in
  let hex := match s2 with
             | z :: x :: d :: _ => (z =? 48) && ((x =? 120) || (x =? 88)) && bool_decide (is_Some (digit_of 16 d))
             | _ => false
             end in
  let '(b, s3) :=
    if ((base =? 0) || (base =? 16)) && hex then (16, drop 2 s2)
    else if base =? 0 then (match s2 with 48 :: _ => 8 | _ => 10 end, s2)
    else (base, s2) in
  match s3 with
  | c :: _ => match digit_of b c with
              | Some _ => let '(v, rest) := read_base b s3 0 in (Some (neg, v), rest)
              | None => (None, s)
              end
  | [] => (None, s)
  end.

Definition strtol_base (base : Z) (s : list Z) : Z * list Z :=
  let '(r, rest) := read_number base s in
  (match r with
   | Some (true, v) => Z.max (- v) (- 2 ^ 63)
   | Some (false, v) => Z.min v (2 ^ 63 - 1)
   | None => 0
   end, rest).

Definition strtoul_base (base : Z) (s : list Z) : Z :=
  match (read_number base s).1 with
  | Some (neg, v) => if 2 ^ 64 <=? v then 2 ^ 64 - 1 else u64 (if neg : bool then - v else v)
  | None => 0
  end.

(** [deref] is what a value points to. *)
Definition aconfig_int {V : Type} (deref : V -> outcome (list Z)) (root : AConfig V) (name : list Z) (default : Z) : outcome Z :=
  match aconfig_find root name with
  | None => Ret default
  | Some n => s ← deref (ac_value n); Ret (s32 (strtol_base 0 s).1)
  end.

Definition aconfig_unsigned (root : AConfig (list Z)) (name : list Z) (default : Z) : Z :=
  match aconfig_find root name with
  | None => default
  | Some n => u32 (strtoul_base 0 (ac_value n))
  end.

Definition aconfig_bool (root : AConfig (list Z)) (name : list Z) (default : bool) : bool :=
  match aconfig_find root name with
  | None => default
  | Some n => match ac_value n with c :: _ => bool_decide (c ∈ chars "yY1tT") | [] => false end
  end.

(** ** The lexer *)

(** The text that is left, and a character that was overwritten in it. *)
Record cstate := mkCstate { cs_data : list Z; cs_next : option Z }.

Inductive token := T_EOF | T_TEXT (text : list Z) | T_DOT | T_OBRACE | T_CBRACE.

(** The rest of a comment up to the end of its line. *)
Fixpoint skip_line (s : list Z) : list Z :=
  match s with
  | c :: s' => if c =? 10 then s else skip_line s'
  | [] => []
  end.

(** The next character that is neither a space nor in a comment, with what
    follows it; [fuel] is the length of the text. *)
Fixpoint lex_start (fuel : nat) (s : list Z) : option (Z * list Z) :=
  match fuel, s with
  | S fuel, c :: s' => if isspace c then lex_start fuel s' else if c =? 35 then lex_start fuel (skip_line s') else Some (c, s')
  | _, _ => None
  end.

(** The loop that strips trailing spaces. *)
Fixpoint strip_spaces (s : list Z) : list Z :=
  match s with
  | [] => []
  | c :: s' => match strip_spaces s' with [] => if isspace c then [] else [c] | r => c :: r end
  end.

(** The rest of a value: to the end of the line, without trailing spaces, or
    to the end of the text. *)
Fixpoint until_newline (s : list Z) : list Z * option (list Z) :=
  match s with
  | [] => ([], None)
  | c :: s' => if c =? 10 then ([], Some s') else let '(a, r) := until_newline s' in (c :: a, r)
  end.

Definition lex_value (c : Z) (s : list Z) : token * cstate :=
  match until_newline s with
  | (a, Some r) => (T_TEXT (c :: strip_spaces a), mkCstate r None)
  | (a, None) => (T_TEXT (c :: a), mkCstate [] None)
  end.

(** The characters 46, 123 and 125 are the dot and the braces. *)
Definition special (c : Z) : bool := (c =? 46) || (c =? 123) || (c =? 125).

Fixpoint lex_key (s : list Z) : list Z * cstate :=
  match s with
  | [] => ([], mkCstate [] None)
  | c :: s' =>
      if isspace c then ([], mkCstate s' None)
      else if special c then ([], mkCstate s' (Some c))
      else let '(a, cs) := lex_key s' in (c :: a, cs)
  end.

(** At the end of the text the state is not read any more. *)
Definition _lex (cs : cstate) (value : bool) : token * cstate :=
  let s := match cs_next cs with Some c => c :: cs_data cs | None => cs_data cs end in
  match lex_start (length s) s with
  | None => (T_EOF, cs)
  | Some (c, s) =>
      if c =? 46 then (T_DOT, mkCstate s None)
      else if c =? 123 then (T_OBRACE, mkCstate s None)
      else if c =? 125 then (T_CBRACE, mkCstate s None)
      else if value then lex_value c s
      else let '(a, cs) := lex_key s in (T_TEXT (c :: a), cs)
  end.

(** ** The parser *)

(** [parse_rest] is the loop of [parse_expr] on the node it has found. The
    results are whether it succeeds, the state of the lexer and the node. Each
    call of the lexer but the last takes a character, which bounds [fuel]. *)
Fixpoint parse_block (fuel : nat) (cs : cstate) (node : AConfig (list Z)) : (bool * cstate) * AConfig (list Z) :=
  match fuel with
  | O => ((false, cs), node)
  | S fuel =>
      match _lex cs false with
      | (T_TEXT text, cs) =>
          let '((ok, cs), node) := find_create [] node text (parse_rest fuel cs) in
          if ok : bool then parse_block fuel cs node else ((false, cs), node)
      | (T_CBRACE, cs) => ((true, cs), node)
      | (_, cs) => ((false, cs), node)
      end
  end
with parse_rest (fuel : nat) (cs : cstate) (node : AConfig (list Z)) : (bool * cstate) * AConfig (list Z) :=
  match fuel with
  | O => ((false, cs), node)
  | S fuel =>
      match _lex cs true with
      | (T_DOT, cs) =>
          match _lex cs false with
          | (T_TEXT text, cs) => find_create [] node text (parse_rest fuel cs)
          | (_, cs) => ((false, cs), node)
          end
      | (T_TEXT text, cs) => ((true, cs), set_value text node)
      | (T_OBRACE, cs) => parse_block fuel cs node
      | (_, cs) => ((false, cs), node)
      end
  end.

Definition parse_expr (fuel : nat) (cs : cstate) (node : AConfig (list Z)) (text : list Z) : (bool * cstate) * AConfig (list Z) :=
  find_create [] node text (parse_rest fuel cs).

Fixpoint load_loop (fuel : nat) (cs : cstate) (root : AConfig (list Z)) : AConfig (list Z) :=
  match fuel with
  | O => root
  | S fuel =>
      match _lex cs false with
      | (T_TEXT text, cs) =>
          let '((ok, cs), root) := parse_expr fuel cs root text in
          if ok : bool then load_loop fuel cs root else root
      | _ => root
      end
  end.

Definition aconfig_load (root : AConfig (list Z)) (data : list Z) : AConfig (list Z) :=
  load_loop (S (length data)) (mkCstate data None) root.

(** ** The writer *)

(** The bytes in the buffer of 1024 and those in the file: [write] takes all
    it is given. *)
Record Writer := mkWriter { w_buff : list Z; w_file : list Z }.

Definition WRITER_SIZE : nat := 1024.

Definition writer_init : Writer := mkWriter [] [].

(** Each round but the last fills the buffer. *)
Fixpoint writer_loop (fuel : nat) (w : Writer) (src : list Z) : Writer :=
  match fuel, src with
  | S fuel, _ :: _ =>
      let avail := Nat.min (WRITER_SIZE - length (w_buff w)) (length src) in
      let b := w_buff w ++ take avail src in
      let w := if (length b =? WRITER_SIZE)%nat then mkWriter [] (w_file w ++ b) else mkWriter b (w_file w) in
      writer_loop fuel w (drop avail src)
  | _, _ => w
  end.

Definition writer_write (w : Writer) (src : list Z) : Writer := writer_loop (S (length src)) w src.

Definition writer_done (w : Writer) : list Z := w_file w ++ w_buff w.

Fixpoint margin_loop (fuel : nat) (w : Writer) (margin : nat) : Writer :=
  match fuel with
  | O => w
  | S fuel =>
      if (10 <=? margin)%nat then margin_loop fuel (writer_write w (replicate 10 32)) (margin - 10)
      else if (0 <? margin)%nat then writer_write w (replicate margin 32) else w
  end.

Definition writer_margin (w : Writer) (margin : nat) : Writer := margin_loop (S margin) w margin.

Definition writer_c (w : Writer) (c : Z) : Writer := writer_write w [c].
Definition writer_str (w : Writer) (str : list Z) : Writer := writer_write w str.

Section Save.
Context {V : Type} (deref : V -> outcome (list Z)).

Fixpoint writer_node (w : Writer) (node : AConfig V) (margin : nat) : outcome Writer :=
  match node with
  | aconfig_tree name value children =>
      let w := writer_c (writer_str (writer_margin w margin) name) 32 in
      v ← deref value;
      match v with
      | _ :: _ => Ret (writer_c (writer_str w v) 10)
      | [] =>
          w ← (fix go (w : Writer) (l : list (AConfig V)) : outcome Writer :=
                 match l with
                 | [] => Ret w
                 | child :: l => w ← writer_node w child (margin + 4)%nat; go w l
                 end) (writer_c (writer_c w 123) 10) children;
          Ret (writer_c (writer_c (writer_margin w margin) 125) 10)
      end
  end.

(** The file that is written, when it can be created. *)
Definition aconfig_save_file (root : AConfig V) : outcome (list Z) :=
  w ← foldM (fun w child => writer_node w child 0) writer_init (ac_children root);
  Ret (writer_done w).

End Save.

(** The contents of the file, [None] when it cannot be read; a text ends at its
    first NUL. *)
Definition aconfig_load_file (root : AConfig (list Z)) (file : option (list Z)) : option (AConfig (list Z)) :=
  data ← file; Some (aconfig_load root (cstr data)).

(** ** The text of a tree *)

Definition node_head (margin : nat) (name : list Z) : list Z := replicate margin 32 ++ name ++ [32].

Fixpoint node_body (margin : nat) (n : AConfig (list Z)) : list Z :=
  match n with
  | aconfig_tree _ [] children =>
      [123; 10] ++ concat ((fun c => node_head (margin + 4) (ac_name c) ++ node_body (margin + 4) c) <$> children) ++ replicate margin 32 ++ [125; 10]
  | aconfig_tree _ value _ => value ++ [10]
  end.

Definition node_text (margin : nat) (n : AConfig (list Z)) : list Z := node_head margin (ac_name n) ++ node_body margin n.

(** Names and values that are written as they are read: a name is a word
    without dot and braces and does not start a comment, a value is a line
    that starts and ends with visible characters and does not start like a
    comment, a path or a block. *)
Definition name_ok (s : list Z) : Prop :=
  Forall (fun c => isspace c = false /\ special c = false /\ c <> 0) s /\ exists c r, s = c :: r /\ c <> 35.
Definition value_ok (s : list Z) : Prop :=
  exists c r, s = c :: r /\ isspace c = false /\ special c = false /\ c <> 35 /\ c <> 0 /\ Forall (fun c => c <> 10 /\ c <> 0) r /\ strip_spaces r = r.

Inductive tree_ok : AConfig (list Z) -> Prop :=
| leaf_ok name value : name_ok name -> value_ok value -> tree_ok (aconfig_tree name value [])
| block_ok name children : name_ok name -> NoDup (ac_name <$> children) -> Forall tree_ok children ->
    tree_ok (aconfig_tree name [] children).

(** ** The writer appends *)

Definition w_ok (w : Writer) : Prop := (length (w_buff w) < WRITER_SIZE)%nat.
Definition appends (w w' : Writer) (s : list Z) : Prop := w_ok w' /\ writer_done w' = writer_done w ++ s.

Lemma appends_trans w1 w2 w3 s t : appends w1 w2 s -> appends w2 w3 t -> appends w1 w3 (s ++ t).
Proof. intros [_ H1] [H2 H3]. split; [done|]. by rewrite H3, H1, app_assoc. Qed.

Lemma write_loop_appends fuel w src : w_ok w -> (length src < fuel)%nat -> appends w (writer_loop fuel w src) src.
Proof.
  revert w src. induction fuel as [|fuel IH]; intros w src Hw Hf; [lia|]. destruct src as [|c src]; cbn [writer_loop].
  { split; [done|]. by rewrite app_nil_r. }
  set (avail := Nat.min _ _). unfold w_ok in Hw. set (b := w_buff w ++ take avail (c :: src)).
  assert (length b = length (w_buff w) + avail)%nat as Hb by (unfold b; rewrite length_app, length_take; lia).
  set (w' := if (_ =? _)%nat then _ else _). assert (appends w w' (take avail (c :: src))) as Hstep.
  { unfold w', appends, w_ok, writer_done. destruct (Nat.eqb_spec (length b) WRITER_SIZE) as [E|E]; cbn [w_buff w_file].
    - split; [unfold WRITER_SIZE; cbn; lia|]. unfold b. by rewrite app_nil_r, app_assoc.
    - split; [lia|]. unfold b. by rewrite app_assoc. }
  rewrite <- (take_drop avail (c :: src)) at 2. eapply appends_trans; [exact Hstep|]. apply IH; [apply Hstep|].
  rewrite length_drop. cbn [length] in *. lia.
Qed.

Lemma writer_write_appends w s : w_ok w -> appends w (writer_write w s) s.
Proof. intros Hw. apply write_loop_appends; [done|lia]. Qed.

Lemma writer_margin_appends w m : w_ok w -> appends w (writer_margin w m) (replicate m 32).
Proof.
  unfold writer_margin. intros Hw. assert (m < S m)%nat as Hf by lia. revert Hf. generalize (S m). intros fuel. revert fuel w Hw.
  induction m as [m IH] using lt_wf_ind. intros [|fuel] w Hw Hf; [lia|]. cbn [margin_loop].
  destruct (Nat.leb_spec 10 m) as [H|H].
  - replace (replicate m 32) with (replicate 10 32 ++ replicate (m - 10) 32) by (rewrite <- replicate_add; f_equal; lia).
    eapply appends_trans; [by apply writer_write_appends|]. apply IH; [lia|by apply writer_write_appends|lia].
  - destruct (Nat.ltb_spec 0 m); [by apply writer_write_appends|]. assert (m = 0%nat) as -> by lia. split; [done|]. by rewrite app_nil_r.
Qed.

#[local] Opaque writer_write writer_margin.

Lemma foldM_writer_node l margin w : (forall w c, c ∈ l -> w_ok w -> exists w', writer_node Ret w c margin = Ret w' /\ appends w w' (node_text margin c)) ->
  w_ok w -> exists w', foldM (fun w c => writer_node Ret w c margin) w l = Ret w' /\ appends w w' (concat (node_text margin <$> l)).
Proof.
  revert w. induction l as [|c l IH]; intros w Hl Hw; cbn [foldM fmap list_fmap concat].
  { exists w. split; [done|]. split; [done|]. by rewrite app_nil_r. }
  destruct (Hl w c ltac:(by left) Hw) as (w1 & -> & H1). cbn [mbind outcome_bind].
  destruct (IH w1) as (w2 & -> & H2); [intros; apply Hl; [by right|done]|apply H1|]. exists w2. split; [done|]. by eapply appends_trans.
Qed.

Lemma writer_node_appends n margin w : w_ok w -> exists w', writer_node Ret w n margin = Ret w' /\ appends w w' (node_text margin n).
Proof.
  revert margin w. induction n as [name value children IH] using AConfig_ind. intros margin w Hw.
  assert (forall go w l, (forall w l, go w l = match l with [] => Ret w | child :: l => w ← writer_node Ret w child (margin + 4)%nat; go w l end) ->
    go w l = foldM (fun w c => writer_node Ret w c (margin + 4)%nat) w l) as Hgo.
  { clear. intros go w l Hgo. revert w. induction l as [|c l IH]; intros w; rewrite Hgo; [done|]. cbn [foldM]. destruct (writer_node _ _ _ _); try done. apply IH. }
  pose proof (writer_margin_appends w margin Hw) as H1. pose proof (writer_write_appends _ name (proj1 H1)) as H2.
  pose proof (writer_write_appends _ [32] (proj1 H2)) as H3. fold (writer_str (writer_margin w margin) name) in *.
  pose proof (appends_trans _ _ _ _ _ H1 (appends_trans _ _ _ _ _ H2 H3)) as H. fold (node_head margin name) in H.
  unfold node_text. cbn [writer_node ac_name mbind outcome_bind]. fold (writer_c (writer_str (writer_margin w margin) name) 32) in *.
  destruct value as [|c value].
  - pose proof (writer_write_appends _ [123] (proj1 H)) as H4. pose proof (writer_write_appends _ [10] (proj1 H4)) as H5.
    erewrite Hgo by (intros ? []; reflexivity).
    destruct (foldM_writer_node children (margin + 4) (writer_c (writer_c (writer_c (writer_str (writer_margin w margin) name) 32) 123) 10))
      as (w' & -> & H6); [|apply H5|].
    { intros w0 c Hc. rewrite Forall_forall in IH. by apply IH. }
    cbn [mbind outcome_bind]. pose proof (writer_margin_appends _ margin (proj1 H6)) as H7.
    pose proof (writer_write_appends _ [125] (proj1 H7)) as H8. pose proof (writer_write_appends _ [10] (proj1 H8)) as H9.
    eexists. split; [done|]. eapply appends_trans; [exact H|]. cbn [node_body].
    pose proof (appends_trans _ _ _ _ _ (appends_trans _ _ _ _ _ H4 H5) (appends_trans _ _ _ _ _ H6 (appends_trans _ _ _ _ _ H7 (appends_trans _ _ _ _ _ H8 H9)))) as H'.
    exact H'.
  - pose proof (writer_write_appends _ (c :: value) (proj1 H)) as H4. pose proof (writer_write_appends _ [10] (proj1 H4)) as H5.
    eexists. split; [done|]. eapply appends_trans; [exact H|]. by eapply appends_trans.
Qed.

#[local] Transparent writer_write writer_margin.

(** ** The parser reads what is written *)

Definition spaces (s : list Z) : Prop := Forall (fun c => isspace c = true) s.

Lemma lex_start_spaces sp c r fuel : spaces sp -> isspace c = false -> c <> 35 -> (length sp < fuel)%nat ->
  lex_start fuel (sp ++ c :: r) = Some (c, r).
Proof.
  intros Hsp Hc Hne. revert fuel. induction Hsp as [|s sp Hs Hsp IH]; intros [|fuel] Hf; cbn [length] in Hf; try lia; cbn [app lex_start].
  - rewrite Hc. by rewrite (proj2 (Z.eqb_neq _ _) Hne).
  - rewrite Hs. apply IH. lia.
Qed.

(** Leading spaces do not matter to the lexer. *)
Lemma lex_first sp c r value : spaces sp -> isspace c = false -> c <> 35 -> special c = false ->
  _lex (mkCstate (sp ++ c :: r) None) value = if value then lex_value c r else let '(a, cs) := lex_key r in (T_TEXT (c :: a), cs).
Proof.
  intros Hsp Hc Hne Hs. unfold _lex. cbn [cs_next cs_data]. rewrite lex_start_spaces by (done || (rewrite length_app; cbn; lia)).
  unfold special in Hs. rewrite !orb_false_iff in Hs. by destruct Hs as [[-> ->] ->].
Qed.

Lemma lex_brace sp c r value : spaces sp -> c = 123 \/ c = 125 ->
  _lex (mkCstate (sp ++ c :: r) None) value = (if c =? 123 then T_OBRACE else T_CBRACE, mkCstate r None).
Proof.
  intros Hsp Hc. unfold _lex. cbn [cs_next cs_data]. rewrite lex_start_spaces; [|done|by destruct Hc as [-> | ->]|lia|rewrite length_app; cbn; lia].
  by destruct Hc as [-> | ->].
Qed.

Lemma lex_key_word s r : Forall (fun c => isspace c = false /\ special c = false /\ c <> 0) s ->
  lex_key (s ++ 32 :: r) = (s, mkCstate r None).
Proof. induction 1 as [|c s (Hc & Hs & _) _ IH]; [done|]. cbn [app lex_key]. by rewrite Hc, Hs, IH. Qed.

Lemma lex_name sp name r : spaces sp -> name_ok name ->
  _lex (mkCstate (sp ++ name ++ 32 :: r) None) false = (T_TEXT name, mkCstate r None).
Proof.
  intros Hsp [Hn (c & s & -> & Hne)]. apply Forall_cons in Hn as [(Hc & Hs & _) Hn]. cbn [app].
  rewrite lex_first by done. by rewrite lex_key_word.
Qed.

Lemma until_newline_line s r : Forall (fun c => c <> 10 /\ c <> 0) s -> until_newline (s ++ 10 :: r) = (s, Some r).
Proof.
  induction 1 as [|c s [Hc _] _ IH]; [done|]. cbn [app until_newline]. by rewrite (proj2 (Z.eqb_neq _ _) Hc), IH.
Qed.

Lemma lex_line value r : value_ok value -> _lex (mkCstate (value ++ 10 :: r) None) true = (T_TEXT value, mkCstate r None).
Proof.
  intros (c & s & -> & Hc & Hsp & Hne & _ & Hs & Hst). pose proof (lex_first [] c (s ++ 10 :: r) true) as H. cbn [app] in *.
  rewrite H by (done || constructor). unfold lex_value. by rewrite until_newline_line, Hst.
Qed.

Lemma find_create_new {R} node name (f : AConfig (list Z) -> R * AConfig (list Z)) :
  name ∉ ac_name <$> ac_children node ->
  find_create [] node name f = (let '(r, n) := f (aconfig_node name []) in (r, set_children (ac_children node ++ [n]) node)).
Proof.
  intros Hn. unfold find_create. destruct (list_find _ _) as [[i n]|] eqn:E; [|done]. exfalso.
  apply list_find_Some in E as (E & <- & _). apply Hn, list_elem_of_fmap. exists n. split; [done|]. by eapply list_elem_of_lookup_2.
Qed.

(** What follows the name of a node is read as that node; white space is left
    before what follows it. *)
Definition reads_node (n : AConfig (list Z)) : Prop := forall margin fuel rest, (length (node_body margin n) <= fuel)%nat ->
  exists sp, spaces sp
    /\ parse_rest fuel (mkCstate (node_body margin n ++ rest) None) (aconfig_node (ac_name n) []) = ((true, mkCstate (sp ++ rest) None), n).

Lemma spaces_margin m : spaces (replicate m 32).
Proof. by apply Forall_replicate. Qed.

Lemma node_text_app margin n rest : node_text margin n ++ rest = replicate margin 32 ++ ac_name n ++ 32 :: (node_body margin n ++ rest).
Proof. unfold node_text, node_head. by rewrite <- !app_assoc. Qed.

Lemma tree_ok_name n : tree_ok n -> name_ok (ac_name n).
Proof. by intros []. Qed.

(** One node of a block, or of the file. *)
Lemma block_node margin n fuel node sp rest : tree_ok n -> reads_node n -> spaces sp -> ac_name n ∉ ac_name <$> ac_children node ->
  (length (node_text margin n) <= fuel)%nat ->
  exists sp', spaces sp' /\ _lex (mkCstate (sp ++ node_text margin n ++ rest) None) false = (T_TEXT (ac_name n), mkCstate (node_body margin n ++ rest) None)
    /\ find_create [] node (ac_name n) (parse_rest fuel (mkCstate (node_body margin n ++ rest) None))
       = ((true, mkCstate (sp' ++ rest) None), set_children (ac_children node ++ [n]) node).
Proof.
  intros Hok Hr Hsp Hn Hf. destruct (Hr margin fuel rest) as (sp' & Hsp' & E).
  { unfold node_text in Hf. rewrite length_app in Hf. lia. }
  exists sp'. split; [done|]. split.
  - rewrite node_text_app, (app_assoc sp). apply lex_name; [|by apply tree_ok_name]. apply Forall_app. split; [done|apply spaces_margin].
  - rewrite find_create_new by done. by rewrite E.
Qed.

Lemma node_text_pos margin n : (1 <= length (node_text margin n))%nat.
Proof. unfold node_text, node_head. rewrite !length_app. cbn. lia. Qed.

Lemma not_in_before node n l : NoDup (ac_name <$> (ac_children node ++ n :: l)) -> ac_name n ∉ ac_name <$> ac_children (V:=list Z) node.
Proof. rewrite fmap_app, NoDup_app. intros (_ & H & _) Hn. apply (H _ Hn). by left. Qed.

Lemma parse_block_reads margin l fuel node sp m rest : Forall tree_ok l -> Forall reads_node l -> spaces sp -> spaces m ->
  NoDup (ac_name <$> (ac_children node ++ l)) -> (length (concat (node_text margin <$> l)) < fuel)%nat ->
  parse_block fuel (mkCstate (sp ++ concat (node_text margin <$> l) ++ m ++ 125 :: rest) None) node
    = ((true, mkCstate rest None), set_children (ac_children node ++ l) node).
Proof.
  intros Hok. revert fuel node sp. induction Hok as [|n l Hn Hok IH]; intros [|fuel] node sp Hr Hsp Hm Hnd Hf; try lia; cbn [fmap list_fmap concat] in *.
  - cbn [app parse_block]. rewrite app_assoc, lex_brace; [|apply Forall_app; by split|by right]. cbn.
    rewrite app_nil_r. by destruct node.
  - apply Forall_cons in Hr as [Hrn Hr]. rewrite length_app in Hf. cbn [parse_block]. rewrite <- app_assoc.
    pose proof (node_text_pos margin n).
    destruct (block_node margin n fuel node sp (concat (node_text margin <$> l) ++ m ++ 125 :: rest)) as (sp' & Hsp' & -> & ->);
      [done|done|done|by eapply not_in_before|lia|].
    rewrite (IH fuel _ sp') by (done || lia || (cbn [ac_children set_children]; by rewrite <- app_assoc)).
    cbn [ac_children set_children]. by rewrite <- app_assoc.
Qed.

Lemma reads_tree n : tree_ok n -> reads_node n.
Proof.
  induction n as [name value children IH] using AConfig_ind. intros Hok margin [|fuel] rest Hf; inversion Hok as [? ? Hn Hv|? ? Hn Hnd Hc]; subst.
  - destruct Hv as (c & r & -> & _). cbn in Hf. lia.
  - cbn in Hf. lia.
  - exists []. split; [constructor|]. destruct value as [|c r] eqn:E; [by destruct Hv as (? & ? & ? & _)|]. rewrite <- E in *.
    replace (node_body margin (aconfig_tree name value [])) with (value ++ [10]) by by rewrite E.
    rewrite <- app_assoc. cbn [parse_rest app]. by rewrite lex_line.
  - exists [10]. split; [by constructor|]. cbn [node_body ac_name]. cbn [app] in *. cbn [parse_rest].
    pose proof (lex_brace [] 123) as Hb. cbn [app] in Hb. rewrite Hb by (by left || constructor). cbn [Z.eqb Pos.eqb].
    rewrite <- !app_assoc. change (10 :: concat ?a ++ ?b) with ([10] ++ concat a ++ b). cbn [app] in Hf |- *.
    change ((fun c => node_head (margin + 4) (ac_name c) ++ node_body (margin + 4) c) <$> children) with (node_text (margin + 4) <$> children).
    change (10 :: concat ?a ++ ?b) with ([10] ++ concat a ++ b).
    rewrite (parse_block_reads (margin + 4) children fuel (aconfig_node name []) [10] (replicate margin 32) (10 :: rest)).
    + done.
    + done.
    + rewrite Forall_forall in IH, Hc. apply Forall_forall. auto.
    + by constructor.
    + apply spaces_margin.
    + done.
    + cbn [node_body] in Hf. cbn [length] in Hf. rewrite !length_app in Hf. change ((fun c => node_head (margin + 4) (ac_name c) ++ node_body (margin + 4) c) <$> children) with (node_text (margin + 4) <$> children) in Hf. cbn [length] in Hf. lia.
Qed.

Lemma load_loop_reads l fuel root sp : Forall tree_ok l -> spaces sp -> NoDup (ac_name <$> (ac_children root ++ l)) ->
  (length (concat (node_text 0 <$> l)) < fuel)%nat ->
  load_loop fuel (mkCstate (sp ++ concat (node_text 0 <$> l)) None) root = set_children (ac_children root ++ l) root.
Proof.
  intros Hok. revert fuel root sp. induction Hok as [|n l Hn Hok IH]; intros [|fuel] root sp Hsp Hnd Hf; try lia; cbn [fmap list_fmap concat] in *.
  - rewrite app_nil_r. cbn [load_loop]. assert (_lex (mkCstate sp None) false = (T_EOF, mkCstate sp None)) as ->.
    { unfold _lex. cbn. assert (forall fuel, lex_start fuel sp = None) as ->; [|done].
      clear -Hsp. induction Hsp as [|c sp Hc Hsp IH]; intros [|fuel]; try done. cbn. rewrite Hc. apply IH. }
    rewrite app_nil_r. by destruct root.
  - rewrite length_app in Hf. pose proof (node_text_pos 0 n). cbn [load_loop]. unfold parse_expr.
    destruct (block_node 0 n fuel root sp (concat (node_text 0 <$> l))) as (sp' & Hsp' & -> & ->);
      [done|by apply reads_tree|done|by eapply not_in_before|lia|].
    rewrite (IH fuel _ sp') by (done || lia || (cbn [ac_children set_children]; by rewrite <- app_assoc)).
    cbn [ac_children set_children]. by rewrite <- app_assoc.
Qed.

Definition word_char (c : Z) : bool := negb (isspace c) && negb (special c) && negb (c =? 0).

Lemma word_chars s : forallb word_char s = true -> Forall (fun c => isspace c = false /\ special c = false /\ c <> 0) s.
Proof.
  intros Hs. rewrite forallb_forall in Hs. apply Forall_forall. intros c Hc. apply list_elem_of_In, Hs in Hc.
  unfold word_char in Hc. rewrite !andb_true_iff, !negb_true_iff, Z.eqb_neq in Hc. tauto.
Qed.

Lemma name_ok_bool s : forallb word_char s && negb (bool_decide (head s ∈ [None; Some 35])) = true -> name_ok s.
Proof.
  rewrite andb_true_iff, negb_true_iff, bool_decide_eq_false. intros [Hw%word_chars Hh]. split; [done|].
  destruct s as [|c s]; [set_solver|]. exists c, s. split; [done|]. set_solver.
Qed.

Lemma value_ok_bool s : match s with
    | c :: r => word_char c && negb (c =? 35) && forallb (fun c => negb (c =? 10) && negb (c =? 0)) r && bool_decide (strip_spaces r = r)
    | [] => false
    end = true -> value_ok s.
Proof.
  destruct s as [|c r]; [done|]. rewrite !andb_true_iff, !negb_true_iff, bool_decide_eq_true. intros (((Hc & Hne) & Hr) & Hs).
  destruct (proj1 (Forall_singleton _ _) (word_chars [c] ltac:(cbn; by rewrite Hc))) as (H1 & H2 & H3).
  exists c, r. split_and!; try done; [by apply Z.eqb_neq|]. rewrite forallb_forall in Hr. apply Forall_forall. intros x Hx.
  apply list_elem_of_In, Hr in Hx. rewrite andb_true_iff, !negb_true_iff, !Z.eqb_neq in Hx. tauto.
Qed.

Lemma cstr_id s : no_nul s -> cstr s = s.
Proof. induction 1 as [|c s Hc _ IH]; [done|]. cbn. by rewrite (proj2 (Z.eqb_neq _ _) Hc), IH. Qed.

Lemma node_text_no_nul n margin : tree_ok n -> no_nul (node_text margin n).
Proof.
  revert margin. induction n as [name value children IH] using AConfig_ind. intros margin Hok. unfold no_nul, node_text, node_head.
  assert (Forall (fun c => c <> 0) name) as Hname.
  { apply tree_ok_name in Hok as [H _]. eapply Forall_impl; [exact H|]. by intros c (_ & _ & ?). }
  assert (Forall (fun c => c <> 0) (replicate margin 32)) as Hm by by apply Forall_replicate.
  rewrite !Forall_app. cbn [ac_name]. split_and!; [done|done|by constructor|]. inversion Hok as [? ? _ Hv|? ? _ _ Hc]; subst.
  - destruct Hv as (c & r & -> & _ & _ & _ & Hc0 & Hr & _). cbn [node_body]. apply Forall_app. split; [|by constructor].
    constructor; [done|]. eapply Forall_impl; [exact Hr|]. by intros ? [].
  - cbn [node_body]. rewrite !Forall_app. split_and!; [by repeat constructor| |done|by repeat constructor].
    apply Forall_concat, Forall_fmap. rewrite Forall_forall in IH, Hc. apply Forall_forall. intros c Hin. apply IH; auto.
Qed.

Lemma saved_config_loads root : Forall tree_ok (ac_children root) -> NoDup (ac_name <$> ac_children root) ->
  exists file, aconfig_save_file Ret root = Ret file
    /\ aconfig_load_file (aconfig_node [] []) (Some file) = Some (aconfig_tree [] [] (ac_children root)).
Proof.
  intros Hok Hnd. unfold aconfig_save_file.
  destruct (foldM_writer_node (ac_children root) 0 writer_init) as (w & -> & Hw & Hd);
    [intros; by apply writer_node_appends|unfold w_ok, WRITER_SIZE; cbn; lia|].
  cbn [mbind outcome_bind]. eexists. split; [done|]. rewrite Hd. cbn [app]. unfold writer_done. cbn [w_file w_buff writer_init app].
  unfold aconfig_load_file. cbn [mbind option_bind]. rewrite cstr_id.
  - unfold aconfig_load. pose proof (load_loop_reads (ac_children root) (S (length (concat (node_text 0 <$> ac_children root)))) (aconfig_node [] []) []) as H.
    cbn [app] in H. rewrite H by (done || constructor || lia). done.
  - apply Forall_concat, Forall_fmap. eapply Forall_impl; [exact Hok|]. intros n Hn. by apply node_text_no_nul.
Qed.

(** C24: A configuration that is saved is read back: for a tree of names and
    values that need no quoting, in which a node has a value or sub-nodes with
    distinct names, what [aconfig_save_file] writes is loaded by
    [aconfig_load_file] into an empty node as the same tree, in the same
    order, whatever the depth and the length of the file. *)
Theorem config_survives_file root : Forall tree_ok (ac_children root) -> NoDup (ac_name <$> ac_children root) ->
  exists file, aconfig_save_file Ret root = Ret file
    /\ aconfig_load_file (aconfig_node [] []) (Some file) = Some (aconfig_tree [] [] (ac_children root)).
Proof. apply saved_config_loads. Qed.

Lemma config_survives_file_witness :
  let root := aconfig_tree [] [] [aconfig_tree (chars "modem_technology") (chars "gsm") [];
    aconfig_tree (chars "parts") [] [aconfig_tree (chars "device") [] []; aconfig_tree (chars "x#") (chars "a {b}.c") []]] in
  exists file, aconfig_save_file Ret root = Ret file
    /\ aconfig_load_file (aconfig_node [] []) (Some file) = Some (aconfig_tree [] [] (ac_children root)).
Proof.
  intros root. apply (config_survives_file root).
  - constructor; [|constructor; [|constructor]].
    + apply leaf_ok; [by apply name_ok_bool|by apply value_ok_bool].
    + apply block_ok; [by apply name_ok_bool| |].
      * apply (bool_decide_unpack _). by vm_compute.
      * constructor; [|constructor; [|constructor]].
        -- apply block_ok; [by apply name_ok_bool|constructor|constructor].
        -- apply leaf_ok; [by apply name_ok_bool|by apply value_ok_bool].
  - apply (bool_decide_unpack _). by vm_compute.
Defined.
