(* ===== verification/Modem.v ===== *)
(** The modem's AT commands, telephony/android_modem.c: registration,
    operators, data contexts, the radio technology and its settings file, the
    sending of messages, and the table that dispatches a command. The calls
    are those of [ModemCalls]. *)
From stdpp Require Import strings pretty.
From S2P Require Import Prelude CStrings GsmText GsmRope SmsPdu SmsReceiver SimCard RemoteCall ModemCalls AConfig.
Open Scope list_scope.

(** ** Constants *)

Definition A_RADIO_STATE_OFF : Z := 0.
Definition A_RADIO_STATE_ON : Z := 1.

Definition A_REGISTRATION_UNSOL_DISABLED : Z := 0.
Definition A_REGISTRATION_UNSOL_ENABLED : Z := 1.
Definition A_REGISTRATION_UNSOL_ENABLED_FULL : Z := 2.

Definition A_REGISTRATION_HOME : Z := 1.
Definition A_REGISTRATION_ROAMING : Z := 5.

Definition A_DATA_NETWORK_UNKNOWN : Z := 0.
Definition A_DATA_NETWORK_GPRS : Z := 1.
Definition A_DATA_NETWORK_EDGE : Z := 2.
Definition A_DATA_NETWORK_UMTS : Z := 3.
Definition A_DATA_NETWORK_LTE : Z := 4.
Definition A_DATA_NETWORK_CDMA1X : Z := 5.
Definition A_DATA_NETWORK_EVDO : Z := 6.

Definition A_TECH_GSM : Z := 0.
Definition A_TECH_WCDMA : Z := 1.
Definition A_TECH_CDMA : Z := 2.
Definition A_TECH_EVDO : Z := 3.
Definition A_TECH_LTE : Z := 4.
Definition A_TECH_UNKNOWN : Z := 5.

Definition A_SUBSCRIPTION_RUIM : Z := 1.
Definition A_SUBSCRIPTION_UNKNOWN : Z := 2.
Definition A_ROAMING_PREF_ANY : Z := 2.
Definition A_ROAMING_PREF_UNKNOWN : Z := 3.

Definition A_SELECTION_AUTOMATIC : Z := 0.
Definition A_SELECTION_DEREGISTRATION : Z := 2.
Definition A_STATUS_AVAILABLE : Z := 1.
Definition A_STATUS_DENIED : Z := 3.

Definition OPERATOR_HOME_INDEX : Z := 0.
Definition OPERATOR_HOME_NAME : list Z := chars "Android".
Definition OPERATOR_HOME_MCCMNC : list Z := chars "310260".
Definition OPERATOR_ROAMING_INDEX : Z := 1.
Definition OPERATOR_ROAMING_NAME : list Z := chars "TelKila".
Definition OPERATOR_ROAMING_MCCMNC : list Z := chars "310295".
Definition MAX_OPERATORS : nat := 4.
Definition MAX_DATA_CONTEXTS : nat := 4.
Definition A_DATA_APN_SIZE : nat := 32.

(** ** State *)

(** [name] has three arrays of 16 characters. *)
Record AOperatorRec := mkOper { op_status : Z; op_name : list (list Z) }.

Inductive ADataType := A_DATA_IP | A_DATA_PPP.

(** [apn] is the string in its array. *)
Record ADataContextRec := mkData { dc_id : Z; dc_active : bool; dc_type : ADataType; dc_apn : list Z }.

(** The settings keep pointers: to a constant or allocated string, to an array
    of a function that has returned, or to the argument of [AT+WRMP=] in the
    line buffer of the driver. *)
Inductive nv_ptr := NvText (s : list Z) | NvDead | NvLine.

Record ARadio := mkRadio { r_state : Z; r_area_code : Z; r_cell_id : Z; r_rssi : Z; r_ber : Z }.

Record ARegistration := mkReg {
  voice_mode : Z; voice_state : Z; data_mode : Z; data_state : Z; data_network : Z; network_type : bool }.

Record AOperators := mkOpers {
  oper_selection_mode : Z; oper_name_index : Z; oper_index : Z; oper_count : Z; operators : list AOperatorRec }.

Record ATechnology := mkTech {
  technology : Z; preferred_mask : Z; subscription_source : Z; roaming_pref : Z; prl_version : Z }.

(** The members of [AModemRec] that are not those of the calls, in groups; the
    settings file; the reference number of sms.c and the request to tell the
    guest the time, which are global variables. [network_type] is
    [supportsNetworkDataType]. *)
Record amodem := mkAModem {
  am_phone : phone;
  am_sim : ASimCardRec;
  am_radio : ARadio;
  am_reg : ARegistration;
  am_opers : AOperators;
  am_tech : ATechnology;
  am_data : list ADataContextRec;
  am_wait_sms : bool;
  am_receiver : option SmsReceiverRec;
  am_nvram : AConfig nv_ptr;
  am_file : option (list Z);
  am_ref_num : Z;
  am_time_request : bool;
}.

Definition with_phone (p : phone) (m : amodem) : amodem :=
  mkAModem p (am_sim m) (am_radio m) (am_reg m) (am_opers m) (am_tech m) (am_data m) (am_wait_sms m) (am_receiver m) (am_nvram m) (am_file m) (am_ref_num m) (am_time_request m).
Definition with_sim (s : ASimCardRec) (m : amodem) : amodem :=
  mkAModem (am_phone m) s (am_radio m) (am_reg m) (am_opers m) (am_tech m) (am_data m) (am_wait_sms m) (am_receiver m) (am_nvram m) (am_file m) (am_ref_num m) (am_time_request m).
Definition with_radio (r : ARadio) (m : amodem) : amodem :=
  mkAModem (am_phone m) (am_sim m) r (am_reg m) (am_opers m) (am_tech m) (am_data m) (am_wait_sms m) (am_receiver m) (am_nvram m) (am_file m) (am_ref_num m) (am_time_request m).
Definition with_reg (r : ARegistration) (m : amodem) : amodem :=
  mkAModem (am_phone m) (am_sim m) (am_radio m) r (am_opers m) (am_tech m) (am_data m) (am_wait_sms m) (am_receiver m) (am_nvram m) (am_file m) (am_ref_num m) (am_time_request m).
Definition with_opers (o : AOperators) (m : amodem) : amodem :=
  mkAModem (am_phone m) (am_sim m) (am_radio m) (am_reg m) o (am_tech m) (am_data m) (am_wait_sms m) (am_receiver m) (am_nvram m) (am_file m) (am_ref_num m) (am_time_request m).
Definition with_tech (t : ATechnology) (m : amodem) : amodem :=
  mkAModem (am_phone m) (am_sim m) (am_radio m) (am_reg m) (am_opers m) t (am_data m) (am_wait_sms m) (am_receiver m) (am_nvram m) (am_file m) (am_ref_num m) (am_time_request m).
Definition with_data_contexts (d : list ADataContextRec) (m : amodem) : amodem :=
  mkAModem (am_phone m) (am_sim m) (am_radio m) (am_reg m) (am_opers m) (am_tech m) d (am_wait_sms m) (am_receiver m) (am_nvram m) (am_file m) (am_ref_num m) (am_time_request m).
Definition with_wait_sms (b : bool) (m : amodem) : amodem :=
  mkAModem (am_phone m) (am_sim m) (am_radio m) (am_reg m) (am_opers m) (am_tech m) (am_data m) b (am_receiver m) (am_nvram m) (am_file m) (am_ref_num m) (am_time_request m).
Definition with_receiver (r : SmsReceiverRec) (ref_num : Z) (m : amodem) : amodem :=
  mkAModem (am_phone m) (am_sim m) (am_radio m) (am_reg m) (am_opers m) (am_tech m) (am_data m) (am_wait_sms m) (Some r) (am_nvram m) (am_file m) ref_num (am_time_request m).
Definition with_nvram (n : AConfig nv_ptr) (f : option (list Z)) (m : amodem) : amodem :=
  mkAModem (am_phone m) (am_sim m) (am_radio m) (am_reg m) (am_opers m) (am_tech m) (am_data m) (am_wait_sms m) (am_receiver m) n f (am_ref_num m) (am_time_request m).
Definition with_time_request (b : bool) (m : amodem) : amodem :=
  mkAModem (am_phone m) (am_sim m) (am_radio m) (am_reg m) (am_opers m) (am_tech m) (am_data m) (am_wait_sms m) (am_receiver m) (am_nvram m) (am_file m) (am_ref_num m) b.

(** ** Settings *)

Definition NV_OPER_NAME_INDEX : list Z := chars "oper_name_index".
Definition NV_OPER_INDEX : list Z := chars "oper_index".
Definition NV_SELECTION_MODE : list Z := chars "selection_mode".
Definition NV_OPER_COUNT : list Z := chars "oper_count".
Definition NV_MODEM_TECHNOLOGY : list Z := chars "modem_technology".
Definition NV_PREFERRED_MODE : list Z := chars "preferred_mode".
Definition NV_CDMA_SUBSCRIPTION_SOURCE : list Z := chars "cdma_subscription_source".
Definition NV_CDMA_ROAMING_PREF : list Z := chars "cdma_roaming_pref".
Definition NV_IN_ECBM : list Z := chars "in_ecbm".
Definition NV_PRL_VERSION : list Z := chars "prl_version".

(** What a pointer of the settings points to, with the present argument of
    [AT+WRMP=] in the line buffer. *)
Definition nv_deref (arg : list Z) (v : nv_ptr) : outcome (list Z) :=
  match v with
  | NvText s => Ret s
  | NvDead => OutOfBounds
  | NvLine => Ret arg
  end.

Fixpoint aconfig_map {V W} (f : V -> W) (n : AConfig V) : AConfig W :=
  match n with aconfig_tree name value children => aconfig_tree name (f value) (map (aconfig_map f) children) end.

Definition nv_set (root : AConfig nv_ptr) (name : list Z) (v : nv_ptr) : AConfig nv_ptr := aconfig_set (NvText []) root name v.

(** The settings and the file; without a file both get a first setting. *)
Definition amodem_load_nvram (file : option (list Z)) : outcome (AConfig nv_ptr * option (list Z)) :=
  match aconfig_load_file (aconfig_node [] []) file with
  | Some root => Ret (aconfig_map NvText root, file)
  | None =>
      let root := nv_set (aconfig_node [] (NvText [])) NV_MODEM_TECHNOLOGY (NvText (chars "gsm")) in
      f ← aconfig_save_file (nv_deref []) root; Ret (root, Some f)
  end.

Definition amodem_nvram_get_int (root : AConfig nv_ptr) (nvname : list Z) (defval : Z) : outcome (Z * AConfig nv_ptr) :=
  value ← aconfig_int (nv_deref []) root nvname defval;
  Ret (value, nv_set root nvname (NvText (decimal value))).

Definition amodem_nvram_get_str (root : AConfig nv_ptr) (nvname : list Z) (defval : option (list Z)) : option nv_ptr * AConfig nv_ptr :=
  match aconfig_str root nvname (NvText <$> defval) with
  | None => (None, root)
  | Some v => (Some v, nv_set root nvname v)
  end.

Definition _amodem_get_cdma_subscription_source (root : AConfig nv_ptr) : outcome (Z * AConfig nv_ptr) :=
  '(iss, root) ← amodem_nvram_get_int root NV_CDMA_SUBSCRIPTION_SOURCE A_SUBSCRIPTION_RUIM;
  Ret (if (A_SUBSCRIPTION_UNKNOWN <=? iss) || (iss <? 0) then A_SUBSCRIPTION_RUIM else iss, root).

Definition _amodem_get_cdma_roaming_preference (root : AConfig nv_ptr) : outcome (Z * AConfig nv_ptr) :=
  '(rp, root) ← amodem_nvram_get_int root NV_CDMA_ROAMING_PREF A_ROAMING_PREF_ANY;
  Ret (if (A_ROAMING_PREF_UNKNOWN <=? rp) || (rp <? 0) then A_ROAMING_PREF_ANY else rp, root).

Fixpoint lookup_name (l : list (list Z * Z)) (default : Z) (name : list Z) : Z :=
  match l with
  | [] => default
  | (n, v) :: l => if bool_decide (n = name) then v else lookup_name l default name
  end.

Definition android_parse_modem_tech (tech : list Z) : Z :=
  lookup_name [(chars "gsm", A_TECH_GSM); (chars "wcdma", A_TECH_WCDMA); (chars "cdma", A_TECH_CDMA);
               (chars "evdo", A_TECH_EVDO); (chars "lte", A_TECH_LTE)] A_TECH_UNKNOWN tech.

Definition android_parse_network_type (speed : list Z) : Z :=
  lookup_name [(chars "gprs", A_DATA_NETWORK_GPRS); (chars "edge", A_DATA_NETWORK_EDGE); (chars "umts", A_DATA_NETWORK_UMTS);
               (chars "hsdpa", A_DATA_NETWORK_UMTS); (chars "full", A_DATA_NETWORK_UMTS); (chars "lte", A_DATA_NETWORK_LTE);
               (chars "cdma", A_DATA_NETWORK_CDMA1X); (chars "evdo", A_DATA_NETWORK_EVDO)] A_DATA_NETWORK_GPRS speed.

(** [emergency_numbers[1 ... 15]] of the settings. *)
Fixpoint emergency_loop (todo : nat) (i : Z) (root : AConfig nv_ptr) : outcome (list (option (list Z)) * AConfig nv_ptr) :=
  match todo with
  | O => Ret ([], root)
  | S todo =>
      let '(v, root) := amodem_nvram_get_str root (chars "emergency_number_" ++ decimal i) None in
      s ← match v with Some v => s ← nv_deref [] v; Ret (Some s) | None => Ret None end;
      '(l, root) ← emergency_loop todo (i + 1) root;
      Ret (s :: l, root)
  end.

(** [strcpy] into an array of 16 characters. *)
Definition name16 (s : list Z) : list Z := s ++ replicate (16 - length s) 0.

Definition operator_of (name mccmnc : list Z) : AOperatorRec := mkOper A_STATUS_AVAILABLE [name16 name; name16 name; name16 mccmnc].
Definition no_operator : AOperatorRec := mkOper 0 (replicate 3 (replicate 16 0)).
Definition no_data : ADataContextRec := mkData 0 false A_DATA_IP [].

(** The modem is a static variable; [base_port] is set before, the callback
    and the card after the reset, which does not use them. *)
Definition amodem_reset (base_port : Z) (unsol_func : bool) (sim : ASimCardRec) (file : option (list Z)) : outcome amodem :=
  '(root, file) ← amodem_load_nvram file;
  '(oper_name_index, root) ← amodem_nvram_get_int root NV_OPER_NAME_INDEX 2;
  '(oper_selection_mode, root) ← amodem_nvram_get_int root NV_SELECTION_MODE A_SELECTION_AUTOMATIC;
  '(oper_index, root) ← amodem_nvram_get_int root NV_OPER_INDEX 0;
  '(oper_count, root) ← amodem_nvram_get_int root NV_OPER_COUNT 2;
  '(in_emergency_mode, root) ← amodem_nvram_get_int root NV_IN_ECBM 0;
  '(prl_version, root) ← amodem_nvram_get_int root NV_PRL_VERSION 0;
  '(numbers, root) ← emergency_loop 15 1 root;
  let '(tmp, root) := amodem_nvram_get_str root NV_MODEM_TECHNOLOGY (Some (chars "gsm")) in
  tmp ← match tmp with Some v => nv_deref [] v | None => Ret [] end;
  technology ←
    (if android_parse_modem_tech tmp =? A_TECH_UNKNOWN then aconfig_int (nv_deref []) root NV_MODEM_TECHNOLOGY A_TECH_GSM
     else Ret (android_parse_modem_tech tmp));
  '(preferred_mask, root) ← amodem_nvram_get_int root NV_PREFERRED_MODE 0x0f;
  '(subscription_source, root) ← _amodem_get_cdma_subscription_source root;
  '(roaming_pref, root) ← _amodem_get_cdma_roaming_preference root;
  let p := phone_init base_port (Some (chars "911") :: numbers) unsol_func in
  Ret (mkAModem (if nz in_emergency_mode then set_emergency p else p) sim
         (mkRadio A_RADIO_STATE_OFF (-1) (-1) 7 99)
         (mkReg A_REGISTRATION_UNSOL_ENABLED_FULL A_REGISTRATION_HOME A_REGISTRATION_UNSOL_ENABLED_FULL A_REGISTRATION_HOME A_DATA_NETWORK_UMTS false)
         (mkOpers oper_selection_mode oper_name_index oper_index oper_count
            [operator_of OPERATOR_HOME_NAME OPERATOR_HOME_MCCMNC; operator_of OPERATOR_ROAMING_NAME OPERATOR_ROAMING_MCCMNC; no_operator; no_operator])
         (mkTech technology preferred_mask subscription_source roaming_pref prl_version)
         (replicate MAX_DATA_CONTEXTS no_data) false None root file 0 false).

(** The settings are saved when all have been looked up. *)
Definition amodem_create (base_port : Z) (unsol_func : bool) (file : option (list Z)) : outcome amodem :=
  m ← amodem_reset base_port unsol_func (asimcard_create base_port) file;
  let r := am_reg m in
  let m := with_reg (mkReg (voice_mode r) (voice_state r) (data_mode r) (data_state r) (data_network r) true) m in
  f ← aconfig_save_file (nv_deref []) (am_nvram m);
  Ret (with_nvram (am_nvram m) (Some f) m).

Definition amodem_set_legacy (m : amodem) : amodem :=
  let r := am_reg m in with_reg (mkReg (voice_mode r) (voice_state r) (data_mode r) (data_state r) (data_network r) false) m.

(** ** Lines and answers *)

(** An answer is a string of the program or in [out_buff]. *)
Inductive answer := NoAnswer | Text (s : list Z) | OutBuff (s : list Z).

(** [vsnprintf] into [out_buff]. *)
Definition amodem_printf (s : list Z) : answer := OutBuff (take (Z.to_nat (OUT_BUFF_SIZE - 1)) s).

(** [amodem_begin_line], [amodem_add_line], [amodem_end_line] of what is
    added; the lines must leave room for the terminating NUL. *)
Definition amodem_end_line (s : list Z) : outcome answer :=
  if Z.of_nat (length s) <? OUT_BUFF_SIZE then Ret (OutBuff s) else OutOfBounds.

(** [%x] and [%04x]. *)
Definition hex (v : Z) : list Z := hex_loop 8 (u32 v).
Definition hex04 (v : Z) : list Z := replicate (4 - length (hex v)) 48 ++ hex v.

Definition QUOTE : list Z := [34].
Definition quoted (s : list Z) : list Z := QUOTE ++ s ++ QUOTE.

Definition unsol (line : list Z) (m : amodem) : amodem := with_phone (amodem_unsol (take (Z.to_nat (OUT_BUFF_SIZE - 1)) line) (am_phone m)) m.

(** ** Registration *)

Definition amodem_has_network (m : amodem) : bool :=
  let o := am_opers m in
  negb ((r_state (am_radio m) =? A_RADIO_STATE_OFF) || (oper_index o <? 0) || (oper_count o <=? oper_index o)
        || (oper_selection_mode o =? A_SELECTION_DEREGISTRATION)).

Definition amodem_get_radio_state (m : amodem) : Z := r_state (am_radio m).
Definition amodem_set_radio_state (m : amodem) (state : Z) : amodem :=
  let r := am_radio m in with_radio (mkRadio state (r_area_code r) (r_cell_id r) (r_rssi r) (r_ber r)) m.
Definition amodem_set_signal_strength (m : amodem) (rssi ber : Z) : amodem :=
  let r := am_radio m in with_radio (mkRadio (r_state r) (r_area_code r) (r_cell_id r) rssi ber) m.

Definition set_oper_index (i : Z) (m : amodem) : amodem :=
  let o := am_opers m in with_opers (mkOpers (oper_selection_mode o) (oper_name_index o) i (oper_count o) (operators o)) m.

Definition amodem_set_voice_registration (m : amodem) (state : Z) : amodem :=
  let r := am_reg m in
  let m := with_reg (mkReg (voice_mode r) state (data_mode r) (data_state r) (data_network r) (network_type r)) m in
  let m := if state =? A_REGISTRATION_HOME then set_oper_index OPERATOR_HOME_INDEX m
           else if state =? A_REGISTRATION_ROAMING then set_oper_index OPERATOR_ROAMING_INDEX m else m in
  let head := chars "+CREG: " ++ decimal (voice_mode r) ++ [44] ++ decimal state in
  if voice_mode r =? A_REGISTRATION_UNSOL_ENABLED then unsol (head ++ [13]) m
  else if voice_mode r =? A_REGISTRATION_UNSOL_ENABLED_FULL then
    unsol (head ++ chars ", " ++ quoted (hex04 (r_area_code (am_radio m) .& 0xffff)) ++ chars ", "
           ++ quoted (hex04 (r_cell_id (am_radio m) .& 0xffff)) ++ [13]) m
  else m.

(** [+CGREG] with area, cell and, when it is supported, the network. *)
Definition cgreg_line (r : ARegistration) (state area cell : Z) : list Z :=
  chars "+CGREG: " ++ decimal (data_mode r) ++ [44] ++ decimal state ++ [44] ++ quoted (hex04 area) ++ [44] ++ quoted (hex04 cell)
    ++ (if network_type r then [44] ++ quoted (hex04 (data_network r)) else []).

Definition amodem_set_data_registration (m : amodem) (state : Z) : amodem :=
  let r := am_reg m in
  let m := with_reg (mkReg (voice_mode r) (voice_state r) (data_mode r) state (data_network r) (network_type r)) m in
  if data_mode r =? A_REGISTRATION_UNSOL_ENABLED then
    unsol (chars "+CGREG: " ++ decimal (data_mode r) ++ [44] ++ decimal state ++ [13]) m
  else if data_mode r =? A_REGISTRATION_UNSOL_ENABLED_FULL then
    unsol (cgreg_line r state (r_area_code (am_radio m) .& 0xffff) (r_cell_id (am_radio m) .& 0xffff) ++ [13]) m
  else m.

(** ** Technology *)

Definition tech_from_network_type (type : Z) : Z :=
  if (type =? A_DATA_NETWORK_GPRS) || (type =? A_DATA_NETWORK_EDGE) || (type =? A_DATA_NETWORK_UMTS) then A_TECH_GSM
  else if type =? A_DATA_NETWORK_LTE then A_TECH_LTE
  else if (type =? A_DATA_NETWORK_CDMA1X) || (type =? A_DATA_NETWORK_EVDO) then A_TECH_CDMA
  else A_TECH_UNKNOWN.

(** The four masks, the one of highest priority first. *)
Definition matchPreferredMask (pmask tech : Z) : bool := existsb (fun i => Z.testbit pmask (tech + i * 8)) [3; 2; 1; 0].

Fixpoint first_tech (preferred : Z) (l : list (Z * Z)) : option Z :=
  match l with
  | [] => None
  | (i, j) :: l => if Z.testbit preferred (j + 8 * i) then Some j else first_tech preferred l
  end.

(** The assertion fails when no mask has a technology. *)
Definition chooseTechFromMask (preferred : Z) : outcome Z :=
  or_abort (first_tech preferred (i ← [3; 2; 1; 0]; j ← [0; 1; 2; 3; 4]; [(i, j)])).

Definition set_technology (t : Z) (m : amodem) : amodem :=
  let a := am_tech m in with_tech (mkTech t (preferred_mask a) (subscription_source a) (roaming_pref a) (prl_version a)) m.

(** The new mask is stored in the settings as a pointer to a local array. *)
Definition _amodem_switch_technology (m : amodem) (newtech newpreferred : Z) : outcome (answer * amodem) :=
  if newpreferred =? 0 then Ret (Text (chars "ERROR: At least one technology must be enabled"), m)
  else
    '(m, newtech) ←
      (if negb (preferred_mask (am_tech m) =? newpreferred) then
         let a := am_tech m in
         let m := with_tech (mkTech (technology a) newpreferred (subscription_source a) (roaming_pref a) (prl_version a)) m in
         let m := with_nvram (nv_set (am_nvram m) NV_PREFERRED_MODE NvDead) (am_file m) m in
         if matchPreferredMask newpreferred newtech then Ret (m, newtech) else t ← chooseTechFromMask newpreferred; Ret (m, t)
       else Ret (m, newtech));
    if negb (technology (am_tech m) =? newtech) then Ret (amodem_printf (chars "+CTEC: " ++ decimal newtech), set_technology newtech m)
    else Ret (Text (chars "+CTEC: DONE"), m).

(** [out_buff] is sent in any case; [out0] is what it held before. *)
Definition amodem_set_data_network_type (m : amodem) (type : Z) (out0 : list Z) : outcome amodem :=
  let r := am_reg m in
  let m := with_reg (mkReg (voice_mode r) (voice_state r) (data_mode r) (data_state r) type (network_type r)) m in
  let m1 := amodem_set_data_registration m (data_state r) in
  let out := match last (p_unsol (am_phone m1)) with
             | Some line => if (length (p_unsol (am_phone m)) <? length (p_unsol (am_phone m1)))%nat then line else out0
             | None => out0
             end in
  let tech := tech_from_network_type type in
  if m_unsol_func (p_modem (am_phone m1)) && negb (tech =? A_TECH_UNKNOWN) then
    '(a, m2) ← _amodem_switch_technology m1 tech (preferred_mask (am_tech m1));
    Ret (unsol (match a with OutBuff s => s | _ => out end) m2)
  else Ret m1.

(** ** Operator names *)

(** A name without its NUL runs into what follows it. *)
Definition name_str (n : list Z) : outcome (list Z) := if bool_decide (0 ∈ n) then Ret (cstr n) else OutOfBounds.

(** The length it returns, and the buffer it was given. *)
Definition amodem_get_operator_name (m : amodem) (index : Z) (buffer : list Z) (buffer_size : Z) : outcome (Z * list Z) :=
  let o := am_opers m in
  if (u32 (oper_count o) <=? u32 (oper_index o)) || (2 <? u32 index) then Ret (0, buffer)
  else
    oper ← or_out (operators o !! Z.to_nat (oper_index o));
    name ← or_out (op_name oper !! Z.to_nat index);
    s ← name_str name;
    let len := Z.of_nat (length s) + 1 in
    let size := if len <? buffer_size then len else buffer_size in
    if 0 <? size then
      if (Z.to_nat size <? length buffer)%nat then
        Ret (len, <[Z.to_nat size := 0]> (take (Z.to_nat (size - 1)) s ++ drop (Z.to_nat (size - 1)) buffer))
      else OutOfBounds
    else Ret (len, buffer).

Definition set_name (i index : nat) (name : list Z) (m : amodem) : amodem :=
  let o := am_opers m in
  with_opers (mkOpers (oper_selection_mode o) (oper_name_index o) (oper_index o) (oper_count o)
    (alter (fun op => mkOper (op_status op) (<[index := name]> (op_name op))) i (operators o))) m.

(** [buffer] without its NUL, cut to what the array holds. *)
Definition amodem_set_operator_name (m : amodem) (index : Z) (buffer : list Z) : outcome amodem :=
  let o := am_opers m in
  if (u32 (oper_count o) <=? u32 (oper_index o)) || (2 <? u32 index) then Ret m
  else
    oper ← or_out (operators o !! Z.to_nat (oper_index o));
    name ← or_out (op_name oper !! Z.to_nat index);
    let b := take 15 buffer in
    Ret (set_name (Z.to_nat (oper_index o)) (Z.to_nat index) (b ++ 0 :: drop (S (length b)) name) m).

(** ** Settings of CDMA *)

Definition _amodem_set_cdma_prl_version (m : amodem) (prlVersion : Z) : bool * amodem :=
  let a := am_tech m in
  if negb (prl_version a =? prlVersion) then
    (true, with_tech (mkTech (technology a) (preferred_mask a) (subscription_source a) (roaming_pref a) prlVersion) m)
  else (false, m).

Definition amodem_set_cdma_prl_version (m : amodem) (prlVersion : Z) : amodem :=
  let '(changed, m) := _amodem_set_cdma_prl_version m prlVersion in
  if changed then unsol (chars "+WPRL: " ++ decimal prlVersion) m else m.

(** The new source is stored in the settings as a pointer to a local array. *)
Definition _amodem_set_cdma_subscription_source (m : amodem) (ss : Z) : bool * amodem :=
  let a := am_tech m in
  if negb (ss =? subscription_source a) then
    let m := with_nvram (nv_set (am_nvram m) NV_CDMA_SUBSCRIPTION_SOURCE NvDead) (am_file m) m in
    (true, with_tech (mkTech (technology a) (preferred_mask a) ss (roaming_pref a) (prl_version a)) m)
  else (false, m).

Definition amodem_set_cdma_subscription_source (m : amodem) (ss : Z) : amodem :=
  let '(changed, m) := _amodem_set_cdma_subscription_source m ss in
  if changed then unsol (chars "+CCSS: " ++ decimal ss) m else m.

(** ** Command handlers *)

(** The command without the prefix the assertion of the handler expects. *)
Definition after (prefix : string) (cmd : list Z) : outcome (list Z) :=
  if bool_decide (take (length (chars prefix)) cmd = chars prefix) then Ret (drop (length (chars prefix)) cmd) else CpuAbort.

Definition unknownCommand : answer := Text (chars "ERROR: unknown command" ++ [13]).

Definition handleSubscriptionSource (cmd : list Z) (m : amodem) : outcome (answer * amodem) :=
  cmd ← after "+CCSS" cmd;
  match cmd with
  | 63 :: _ => Ret (amodem_printf (chars "+CCSS: " ++ decimal (subscription_source (am_tech m))), m)
  | 61 :: c :: _ =>
      if (c =? 48) || (c =? 49) then
        let m := (_amodem_set_cdma_subscription_source m (c - 48)).2 in
        Ret (amodem_printf (chars "+CCSS: " ++ decimal (subscription_source (am_tech m))), m)
      else Ret (amodem_printf (chars "ERROR: Invalid subscription source"), m)
  | _ => Ret (amodem_printf (chars "ERROR: Invalid subscription source"), m)
  end.

(** The settings are saved with the argument in the line buffer. *)
Definition handleRoamPref (cmd : list Z) (m : amodem) : outcome (answer * amodem) :=
  cmd ← after "+WRMP" cmd;
  match cmd with
  | 63 :: _ => Ret (amodem_printf (chars "+WRMP: " ++ decimal (roaming_pref (am_tech m))), m)
  | 61 :: cmd =>
      let '(v, rest) := strtol_base 10 cmd in
      if bool_decide (cmd = [63]) then Ret (amodem_printf (chars "+WRMP: 0,1,2"), m)
      else match rest with
      | [] =>
          let a := am_tech m in
          let m := with_tech (mkTech (technology a) (preferred_mask a) (subscription_source a) (s32 v) (prl_version a)) m in
          let nvram := nv_set (am_nvram m) NV_CDMA_ROAMING_PREF NvLine in
          f ← aconfig_save_file (nv_deref cmd) nvram;
          Ret (NoAnswer, with_nvram nvram (Some f) m)
      | _ => Ret (amodem_printf (chars "ERROR"), m)
      end
  | _ => Ret (amodem_printf (chars "ERROR"), m)
  end.

(** The mask, [None] when it is not valid. *)
Definition parsePreferred (str : list Z) : option Z :=
  match str with
  | [] => None
  | c :: r =>
      let str := if c =? 34 then r else str in
      match str with
      | [] => None
      | _ => let '(v, rest) := strtol_base 16 str in
             match rest with
             | [] => Some (s32 v)
             | c :: _ => if c =? 34 then Some (s32 v) else None
             end
      end
  end.

(** Behind the end of the command [OutOfBounds]. *)
Definition handleTech (cmd : list Z) (m : amodem) : outcome (answer * amodem) :=
  cmd ← after "+CTEC" cmd;
  let unknown cmd := match cmd with
                     | [] => OutOfBounds
                     | _ :: rest => Ret (amodem_printf (chars "ERROR: " ++ rest ++ chars ": Unknown Technology"), m)
                     end in
  match cmd with
  | 63 :: _ => Ret (amodem_printf (chars "+CTEC: " ++ decimal (technology (am_tech m)) ++ [44] ++ hex (preferred_mask (am_tech m))), m)
  | [61; 63] => Ret (amodem_printf (chars "+CTEC: 0,1,2,3"), m)
  | 61 :: cmd =>
      match cmd with
      | c :: rest =>
          if (48 <=? c) && (c <=? 51) then
            match rest with
            | 44 :: str =>
                match parsePreferred str with
                | Some pt => _amodem_switch_technology m (c - 48) pt
                | None => Ret (amodem_printf (chars "ERROR: invalid preferred mode"), m)
                end
            | _ => _amodem_switch_technology m (c - 48) (preferred_mask (am_tech m))
            end
          else unknown cmd
      | [] => unknown cmd
      end
  | _ => unknown cmd
  end.

Definition with_emergency (b : bool) (p : phone) : phone :=
  let m := p_modem p in
  mkPhone (mkModem (m_base_port m) (m_calls m) (m_call_count m) (m_emergency_numbers m) b (m_unsol_func m)) (p_timers p) (p_unsol p) (p_remote p).

Definition handleEmergencyMode (cmd : list Z) (m : amodem) : outcome (answer * amodem) :=
  cmd ← after "+WSOS" cmd;
  let mode := m_in_emergency (p_modem (am_phone m)) in
  let error := Ret (amodem_printf (chars "ERROR"), m) in
  match cmd with
  | 63 :: _ => Ret (amodem_printf (chars "+WSOS: " ++ decimal (if mode then 1 else 0)), m)
  | 61 :: 63 :: _ => Ret (amodem_printf (chars "+WSOS: (0)"), m)
  | [61] => error
  | 61 :: cmd =>
      let '(v, rest) := strtol_base 10 cmd in
      match rest with
      | [] =>
          let arg := negb (v =? 0) in
          if negb (eqb arg mode) then
            Ret (amodem_printf (chars "+WSOS: " ++ decimal (if arg then 1 else 0)), with_phone (with_emergency arg (am_phone m)) m)
          else error
      | _ => error
      end
  | _ => error
  end.

Definition handlePrlVersion (cmd : list Z) (m : amodem) : outcome (answer * amodem) :=
  cmd ← after "+WPRL" cmd;
  match cmd with
  | 63 :: _ => Ret (amodem_printf (chars "+WPRL: " ++ decimal (prl_version (am_tech m))), m)
  | _ => Ret (amodem_printf (chars "ERROR"), m)
  end.

Definition handleRadioPower (cmd : list Z) (m : amodem) : outcome (answer * amodem) :=
  if bool_decide (cmd = chars "+CFUN=0") then Ret (NoAnswer, amodem_set_radio_state m A_RADIO_STATE_OFF)
  else if bool_decide (cmd = chars "+CFUN=1") then Ret (NoAnswer, amodem_set_radio_state m A_RADIO_STATE_ON)
  else Ret (NoAnswer, m).

Definition handleRadioPowerReq (m : amodem) : answer :=
  if negb (r_state (am_radio m) =? A_RADIO_STATE_OFF) then Text (chars "+CFUN: 1") else Text (chars "+CFUN: 0").

(** [=0], [=1], [=2] and [=?] behind [+CREG] and [+CGREG]. *)
Definition set_unsol_mode (cmd : list Z) (range : list Z) (m : amodem) (set : Z -> amodem) : answer * amodem :=
  match cmd with
  | c :: _ =>
      if (48 <=? c) && (c <=? 50) then (NoAnswer, set (c - 48))
      else if c =? 63 then (Text range, m)
      else (Text (chars "ERROR: BAD COMMAND"), m)
  | [] => (Text (chars "ERROR: BAD COMMAND"), m)
  end.

Definition handleNetworkRegistration (cmd : list Z) (m : amodem) : outcome (answer * amodem) :=
  let r := am_reg m in let a := am_radio m in
  if bool_decide (take 5 cmd = chars "+CREG") then
    match drop 5 cmd with
    | 63 :: _ =>
        let head := chars "+CREG: " ++ decimal (voice_mode r) ++ [44] ++ decimal (voice_state r) in
        Ret (amodem_printf (if voice_mode r =? A_REGISTRATION_UNSOL_ENABLED_FULL
                            then head ++ chars ", " ++ quoted (hex04 (r_area_code a)) ++ chars ", " ++ quoted (hex04 (r_cell_id a))
                            else head), m)
    | 61 :: cmd =>
        Ret (set_unsol_mode cmd (chars "+CREG: (0-2)") m
               (fun mode => with_reg (mkReg mode (voice_state r) (data_mode r) (data_state r) (data_network r) (network_type r)) m))
    | _ => CpuAbort
    end
  else if bool_decide (take 6 cmd = chars "+CGREG") then
    match drop 6 cmd with
    | 63 :: _ => Ret (amodem_printf (cgreg_line r (data_state r) (r_area_code a) (r_cell_id a)), m)
    | 61 :: cmd =>
        Ret (set_unsol_mode cmd (chars "+CGREG: (0-2)") m
               (fun mode => with_reg (mkReg (voice_mode r) (voice_state r) mode (data_state r) (data_network r) (network_type r)) m))
    | _ => CpuAbort
    end
  else Ret (NoAnswer, m).

(** ** Operators *)

Definition oper_at {A} (l : list A) (i : Z) : outcome A := if i <? 0 then OutOfBounds else or_out (l !! Z.to_nat i).

Definition set_selection (mode : Z) (m : amodem) : amodem :=
  let o := am_opers m in with_opers (mkOpers mode (oper_name_index o) (oper_index o) (oper_count o) (operators o)) m.
Definition set_name_index (i : Z) (m : amodem) : amodem :=
  let o := am_opers m in with_opers (mkOpers (oper_selection_mode o) i (oper_index o) (oper_count o) (operators o)) m.

Definition oper_text (first : bool) (op : AOperatorRec) : outcome (list Z) :=
  n0 ← oper_at (op_name op) 0; n1 ← oper_at (op_name op) 1; n2 ← oper_at (op_name op) 2;
  s0 ← name_str n0; s1 ← name_str n1; s2 ← name_str n2;
  Ret ((if first then chars "+COPS: " else chars ", ") ++ [40] ++ decimal (op_status op) ++ [44] ++ quoted s0 ++ [44] ++ quoted s1 ++ [44] ++ quoted s2 ++ [41]).

(** The operators from [nn] on. *)
Fixpoint oper_list (todo : nat) (nn : Z) (l : list AOperatorRec) : outcome (list Z) :=
  match todo with
  | O => Ret []
  | S todo => op ← oper_at l nn; s ← oper_text (nn =? 0) op; rest ← oper_list todo (nn + 1) l; Ret (s ++ rest)
  end.

(** The loop that looks for the name copies it into the name of every
    operator: [memcpy] returns its destination, so none is found. *)
Fixpoint copy_names (todo : nat) (nn : nat) (format : nat) (name : list Z) (m : amodem) : outcome amodem :=
  match todo with
  | O => Ret m
  | S todo =>
      op ← or_out (operators (am_opers m) !! nn);
      old ← or_out (op_name op !! format);
      if (length name <=? 16)%nat then copy_names todo (S nn) format name (set_name nn format (name ++ drop (length name) old) m)
      else OutOfBounds
  end.

Definition handleOperatorSelection (cmd : list Z) (m : amodem) : outcome (answer * amodem) :=
  cmd ← after "+COPS" cmd;
  let o := am_opers m in
  match cmd with
  | 63 :: _ =>
      if negb (amodem_has_network m) then Ret (amodem_printf (chars "+CME ERROR: 30"), m)
      else
        op ← oper_at (operators o) (oper_index o);
        n ← oper_at (op_name op) (oper_name_index o);
        s ← name_str n;
        let head := chars "+COPS: " ++ decimal (oper_selection_mode o) in
        Ret (amodem_printf (if oper_name_index o =? 2 then head ++ chars ",2," ++ s
                            else head ++ [44] ++ decimal (oper_name_index o) ++ [44] ++ quoted s), m)
  | 61 :: 63 :: _ => s ← oper_list (Z.to_nat (oper_count o)) 0 (operators o); a ← amodem_end_line s; Ret (a, m)
  | 61 :: 48 :: _ => Ret (NoAnswer, set_selection A_SELECTION_AUTOMATIC m)
  | 61 :: 49 :: 44 :: f :: 44 :: name =>
      if (f <? 48) || (50 <? f) then Ret (unknownCommand, m)
      else
        let '(name, len) := match name with
                            | 34 :: r => (r, Z.of_nat (length name) - 2)
                            | _ => (name, Z.of_nat (length name))
                            end in
        if len <=? 0 then Ret (unknownCommand, m)
        else m ← copy_names (Z.to_nat (oper_count o)) 0 (Z.to_nat (f - 48)) (take (Z.to_nat len) name) m;
             Ret (Text (chars "+CME ERROR: 529"), m)
  | 61 :: 50 :: _ => Ret (NoAnswer, set_selection A_SELECTION_DEREGISTRATION m)
  | 61 :: 51 :: 44 :: f :: _ =>
      if (f <? 48) || (50 <? f) then Ret (unknownCommand, m) else Ret (NoAnswer, set_name_index (f - 48) m)
  | _ => Ret (unknownCommand, m)
  end.

Definition handleRequestOperator (m : amodem) : outcome (answer * amodem) :=
  if negb (amodem_has_network m) then Ret (Text (chars "+CME ERROR: 30"), m)
  else
    op ← oper_at (operators (am_opers m)) (oper_index (am_opers m));
    n0 ← oper_at (op_name op) 0; n1 ← oper_at (op_name op) 1; n2 ← oper_at (op_name op) 2;
    s0 ← name_str n0; s1 ← name_str n1; s2 ← name_str n2;
    Ret (amodem_printf (chars "+COPS: 0,0," ++ quoted s0 ++ [13] ++ chars "+COPS: 0,1," ++ quoted s1 ++ [13] ++ chars "+COPS: 0,2," ++ quoted s2),
         set_name_index 2 m).

(** ** Data contexts *)

Definition handleListPDPContexts (cmd : list Z) (m : amodem) : outcome (answer * amodem) :=
  _ ← after "+CGACT?" cmd;
  a ← amodem_end_line (concat ((fun d => if dc_active d then chars "+CGACT: " ++ decimal (dc_id d) ++ chars ",1" ++ [13; 10] else []) <$> am_data m));
  Ret (a, m).

Fixpoint until_quote (s : list Z) : option (list Z) :=
  match s with
  | [] => None
  | c :: s => if c =? 34 then Some [] else r ← until_quote s; Some (c :: r)
  end.

Definition IP_HEAD : list Z := [44] ++ quoted (chars "IP") ++ [44] ++ QUOTE.
Definition PPP_HEAD : list Z := [44] ++ quoted (chars "PPP") ++ [44] ++ QUOTE.

Definition handleDefinePDPContext (cmd : list Z) (m : amodem) : outcome (answer * amodem) :=
  cmd ← after "+CGDCONT=" cmd;
  let bad := Ret (Text (chars "ERROR: BAD COMMAND"), m) in
  match cmd with
  | 63 :: _ => Ret (Text (chars "+CGDCONT: (1-1)," ++ quoted (chars "IP") ++ chars ",,,(0-2),(0-4)" ++ [13; 10]), m)
  | [] => bad
  | c :: cmd =>
      let id := c - 49 in
      if (id <? 0) || (3 <? id) then bad
      else
        match (if bool_decide (take 7 cmd = IP_HEAD) then Some (A_DATA_IP, drop 7 cmd)
               else if bool_decide (take 8 cmd = PPP_HEAD) then Some (A_DATA_PPP, drop 8 cmd) else None) with
        | None => bad
        | Some (type, rest) =>
            match until_quote rest with
            | None => bad
            | Some apn =>
                Ret (NoAnswer, with_data_contexts (<[Z.to_nat id := mkData (id + 1) true type (take (A_DATA_APN_SIZE - 1) apn)]> (am_data m)) m)
            end
        end
  end.

Definition pdp_line (d : ADataContextRec) : list Z :=
  if dc_active d then
    chars "+CGDCONT: " ++ decimal (dc_id d) ++ [44] ++ quoted (match dc_type d with A_DATA_IP => chars "IP" | A_DATA_PPP => chars "PPP" end) ++ [44]
      ++ quoted (dc_apn d) ++ [44] ++ quoted (match dc_type d with A_DATA_IP => chars "10.0.2.15" | A_DATA_PPP => [] end) ++ chars ",0,0" ++ [13; 10]
  else [].

Definition handleQueryPDPContext (m : amodem) : outcome (answer * amodem) :=
  a ← amodem_end_line (concat (pdp_line <$> am_data m)); Ret (a, m).

(** ** What a command finds outside of the modem *)

(** The connections to other emulators, the clock of the timers, the present
    time in its forms (with the name of the time zone when it fits), whether a
    guest is told the time after a snapshot, memory, and what local variables
    hold before they are set. *)
Record surroundings := mkSurr {
  e_connects : Z -> bool;
  e_ms : Z;
  e_stamp : list Z;
  e_utc : tm;
  e_local : tm;
  e_dst : bool;
  e_zone : option (list Z);
  e_update_time : bool;
  e_malloc : Z -> option (list Z);
  e_addr : SmsAddressRec;
  e_rope : GsmRopeRec;
  e_temp : list Z;
}.

Section Commands.
Context (e : surroundings).

(** ** Time *)

Definition dec02 (v : Z) : list Z := (if (0 <=? v) && (v <? 10) then [48] else []) ++ decimal v.

(** Minutes between local time and UTC. *)
Definition tz_minutes (utc local : tm) : Z :=
  let e_local := tm_min local + 60 * (tm_hour local + 24 * tm_yday local) in
  let e_utc := tm_min utc + 60 * (tm_hour utc + 24 * tm_yday utc) in
  let e_local := if tm_year utc <? tm_year local then e_local + 24 * 60 else e_local in
  let e_utc := if tm_year local <? tm_year utc then e_utc + 24 * 60 else e_utc in
  e_local - e_utc.

Definition amodem_addTimeUpdate : list Z :=
  let utc := e_utc e in
  let tzdiff := tz_minutes utc (e_local e) in
  let zone := (fun c => if c =? 47 then 33 else c) <$> default (chars "Unknown/Unknown") (e_zone e) in
  chars "%CTZV: " ++ dec02 (Z.rem (tm_year utc + 1900) 100) ++ [47] ++ dec02 (tm_mon utc + 1) ++ [47] ++ dec02 (tm_mday utc) ++ [58]
    ++ dec02 (tm_hour utc) ++ [58] ++ dec02 (tm_min utc) ++ [58] ++ dec02 (tm_sec utc) ++ [if 0 <=? tzdiff then 43 else 45]
    ++ decimal (Z.quot (if 0 <=? tzdiff then tzdiff else - tzdiff) 15) ++ [58] ++ decimal (if e_dst e then 1 else 0) ++ [58] ++ zone ++ [13; 10].

Definition handleEndOfInit (m : amodem) : outcome (answer * amodem) :=
  a ← amodem_end_line amodem_addTimeUpdate; Ret (a, m).

Definition handleSignalStrength (m : amodem) : outcome (answer * amodem) :=
  let told := e_update_time e && am_time_request m in
  let rssi := r_rssi (am_radio m) in let ber := r_ber (am_radio m) in
  let rssi := if (rssi <? 0) && (31 <? rssi) then 99 else rssi in
  let ber := if (ber <? 0) && (7 <? ber) then 99 else ber in
  a ← amodem_end_line ((if told then amodem_addTimeUpdate else []) ++ chars "+CSQ: " ++ decimal rssi ++ [44] ++ decimal ber
                       ++ chars ",85,130,90,6,4,25,9,50,68,12" ++ [13; 10]);
  Ret (a, if told then with_time_request false m else m).

(** ** Messages *)

Definition handleSendSMS (m : amodem) : outcome (answer * amodem) := Ret (Text (chars "> "), with_wait_sms true m).

(** The PDUs are sent until one cannot be. *)
Fixpoint send_pdus (number : list Z) (l : list SmsPDURec) (p : phone) : phone :=
  match l with
  | [] => p
  | pdu :: l =>
      match remote_call_sms (e_connects e) number (m_base_port (p_modem p)) pdu with
      | Some r => send_pdus number l (add_remote (Some r) p)
      | None => p
      end
  end.

(** [snprintf] into an array of 12 characters. *)
Definition own_number (port : Z) : list Z := take 11 (PHONE_PREFIX ++ decimal port).

(** The modem that has the message for [number] sends it when it is complete. *)
Definition route_sms (number : list Z) (pdu : SmsPDURec) (m : amodem) : outcome amodem :=
  if remote_number_string_to_port number <? 0 then Ret m
  else
    let rec := default sms_receiver_create (am_receiver m) in
    '(index, rec) ← sms_receiver_add_submit_pdu rec pdu (e_addr e);
    if index <=? 0 then Ret (with_receiver rec (am_ref_num m) m)
    else
      from ← or_out (sms_address_from_str (own_number (m_base_port (p_modem (am_phone m)))));
      '(deliver, rec, ref_num) ← sms_receiver_create_deliver (e_malloc e) rec index from (e_stamp e) (am_ref_num m) (e_addr e) (e_rope e);
      let m := with_receiver rec ref_num m in
      match deliver with
      | None => Ret m
      | Some l => Ret (with_phone (send_pdus number l (am_phone m)) m)
      end.

Definition handleSendSMSText (cmd : list Z) (m : amodem) : outcome (list Z * amodem) :=
  let cmd := if bool_decide (last cmd = Some 26) then take (length cmd - 1) cmd else cmd in
  match smspdu_create_from_hex cmd with
  | None => Ret (chars "+CMS ERROR: INVALID SMS PDU", m)
  | Some pdu =>
      let '(ok, address) := smspdu_get_receiver_address pdu (e_addr e) in
      if negb ok then Ret (chars "+CMS ERROR: BAD SMS RECEIVER ADDRESS", m)
      else
        '(temp, numlen) ← sms_address_to_str address (e_temp e);
        m ← (if 15 <? numlen then Ret m else route_sms (full_number (take (Z.to_nat numlen) temp)) pdu m);
        Ret (chars "+CMGS: 0" ++ [13] ++ chars "OK" ++ [13], m)
  end.

(** ** The table of commands *)

(** Handlers of [ModemCalls] and [SimCard] as handlers of the table. *)
Definition on_phone (f : list Z -> phone -> outcome phone) (cmd : list Z) (m : amodem) : outcome (answer * amodem) :=
  p ← f cmd (am_phone m); Ret (NoAnswer, with_phone p m).

Definition at_dial (cmd : list Z) (m : amodem) : outcome (answer * amodem) :=
  cmd ← after "D" cmd; '(s, p) ← handleDial cmd (am_phone m) (e_ms e); Ret (OutBuff s, with_phone p m).
Definition at_hangup (cmd : list Z) (m : amodem) : outcome (answer * amodem) :=
  cmd ← after "+CHLD=" cmd; on_phone (handleHangup (e_connects e)) cmd m.
Definition at_pin (cmd : list Z) (m : amodem) : outcome (answer * amodem) :=
  cmd ← after "+CPIN=" cmd; let '(s, sim) := handleChangeOrEnterPIN cmd (am_sim m) in Ret (Text s, with_sim sim m).
Definition at_calls (m : amodem) : outcome (answer * amodem) := a ← amodem_end_line (handleListCurrentCalls (am_phone m)); Ret (a, m).

(** A command is given in full or, behind an exclamation mark in the source,
    by its start. *)
Inductive at_name := Exact (s : list Z) | Start (s : list Z).

(** A fixed answer, a handler, or just OK. *)
Inductive at_action := Fixed (s : list Z) | Handler (f : list Z -> amodem -> outcome (answer * amodem)) | JustOK.

Definition sDefaultResponses : list (at_name * at_action) := [
  (Exact (chars "%CPHS=1"), JustOK);
  (Exact (chars "%CTZV=1"), JustOK);
  (Exact (chars "+CSMS=1"), Fixed (chars "+CSMS: 1, 1, 1"));
  (Exact (chars "+CNMI=1,2,2,1,1"), JustOK);
  (Exact (chars "+CFUN=0"), Handler handleRadioPower);
  (Exact (chars "+CFUN=1"), Handler handleRadioPower);
  (Exact (chars "+CTEC=?"), Fixed (chars "+CTEC: 0,1,2,3"));
  (Start (chars "+CTEC"), Handler handleTech);
  (Exact (chars "+WRMP=?"), Fixed (chars "+WRMP: 0,1,2"));
  (Start (chars "+WRMP"), Handler handleRoamPref);
  (Exact (chars "+CCSS=?"), Fixed (chars "+CTEC: 0,1"));
  (Start (chars "+CCSS"), Handler handleSubscriptionSource);
  (Exact (chars "+WSOS=?"), Fixed (chars "+WSOS: 0"));
  (Start (chars "+WSOS="), Handler handleEmergencyMode);
  (Exact (chars "+WPRL?"), Handler handlePrlVersion);
  (Exact (chars "+CGACT?"), Handler handleListPDPContexts);
  (Exact (chars "+COPS=3,0;+COPS?;+COPS=3,1;+COPS?;+COPS=3,2;+COPS?"), Handler (fun _ => handleRequestOperator));
  (Start (chars "+COPS"), Handler handleOperatorSelection);
  (Exact (chars "+CLCC"), Handler (fun _ => at_calls));
  (Start (chars "+CMGW="), Handler (fun _ m => Ret (Text (chars "ERROR: unimplemented"), m)));
  (Start (chars "+CHLD="), Handler at_hangup);
  (Exact (chars "+CSQ"), Handler (fun _ => handleSignalStrength));
  (Start (chars "+CREG"), Handler handleNetworkRegistration);
  (Start (chars "+CGREG"), Handler handleNetworkRegistration);
  (Start (chars "+CMGS="), Handler (fun _ => handleSendSMS));
  (Exact (chars "%CPRIM=" ++ quoted (chars "GMM") ++ [44] ++ quoted (chars "CONFIG MULTISLOT_CLASS=<10>")), JustOK);
  (Exact (chars "%DATA=2," ++ quoted (chars "UART") ++ chars ",1,," ++ quoted (chars "SER") ++ [44] ++ quoted (chars "UART") ++ chars ",0"), JustOK);
  (Start (chars "+CGDCONT="), Handler handleDefinePDPContext);
  (Exact (chars "+CGDCONT?"), Handler (fun _ => handleQueryPDPContext));
  (Exact (chars "+CGQREQ=1"), JustOK);
  (Exact (chars "+CGQMIN=1"), JustOK);
  (Exact (chars "+CGEREP=1,0"), JustOK);
  (Exact (chars "+CGACT=1,0"), JustOK);
  (Exact (chars "D*99***1#"), Handler (fun _ m => Ret (NoAnswer, m)));
  (Start (chars "D"), Handler at_dial);
  (Exact (chars "+CNMA=1"), JustOK);
  (Exact (chars "+CNMA=2"), JustOK);
  (Start (chars "+CRSM="), Handler (fun cmd m => s ← handleSIM_IO cmd (am_sim m); Ret (Text s, m)));
  (Exact (chars "+CHLD=0"), Handler at_hangup);
  (Exact (chars "+CHLD=1"), Handler at_hangup);
  (Exact (chars "+CHLD=2"), Handler at_hangup);
  (Exact (chars "+CHLD=3"), Handler at_hangup);
  (Exact (chars "A"), Handler (on_phone (handleAnswer (e_connects e))));
  (Exact (chars "H"), Handler (on_phone (handleAnswer (e_connects e))));
  (Start (chars "+VTS="), Handler (fun _ m => Ret (NoAnswer, m)));
  (Exact (chars "+CIMI"), Fixed (OPERATOR_HOME_MCCMNC ++ chars "000000000"));
  (Exact (chars "+CGSN"), Fixed (chars "000000000000000"));
  (Exact (chars "+CUSD=2"), JustOK);
  (Exact (chars "+COPS=0"), Handler handleOperatorSelection);
  (Start (chars "+CMGD="), Handler (fun _ m => Ret (NoAnswer, m)));
  (Start (chars "+CPIN="), Handler at_pin);
  (Exact (chars "+CPIN?"), Handler (fun _ m => Ret (Text (handleSIMStatusReq (am_sim m)), m)));
  (Exact (chars "+CNMI?"), Fixed (chars "+CNMI: 1,2,2,1,1"));
  (Exact (chars "+CFUN?"), Handler (fun _ m => Ret (handleRadioPowerReq m, m)));
  (Exact (chars "E0Q0V1"), JustOK);
  (Exact (chars "S0=0"), JustOK);
  (Exact (chars "+CMEE=1"), JustOK);
  (Exact (chars "+CCWA=1"), JustOK);
  (Exact (chars "+CMOD=0"), JustOK);
  (Exact (chars "+CMUT=0"), JustOK);
  (Exact (chars "+CSSN=0,1"), JustOK);
  (Exact (chars "+COLP=0"), JustOK);
  (Exact (chars "+CSCS=" ++ quoted (chars "HEX")), JustOK);
  (Exact (chars "+CUSD=1"), JustOK);
  (Exact (chars "+CGEREP=1,0"), JustOK);
  (Exact (chars "+CMGF=0"), Handler (fun _ => handleEndOfInit));
  (Exact (chars "%CPI=3"), JustOK);
  (Exact (chars "%CSTAT=1"), JustOK)].

Definition at_matches (n : at_name) (cmd : list Z) : bool :=
  match n with
  | Exact s => bool_decide (cmd = s)
  | Start s => bool_decide (take (length s) cmd = s)
  end.

Fixpoint find_response (l : list (at_name * at_action)) (cmd : list Z) : option at_action :=
  match l with
  | [] => None
  | (n, a) :: l => if at_matches n cmd then Some a else find_response l cmd
  end.

Definition OK_END : list Z := [13] ++ chars "OK".

(** Whether the answer starts with the text. *)
Definition starts (s : string) (a : list Z) : bool := bool_decide (take (length (chars s)) a = chars s).

(** The answer with OK, unless it is a prompt or an error; [strcat] needs room
    in [out_buff]. *)
Definition finish (a : answer) : outcome (list Z) :=
  match a with
  | NoAnswer => Ret (chars "OK")
  | Text s | OutBuff s =>
      if starts "> " s || starts "ERROR" s || starts "+CME E" s then Ret s
      else match a with
           | OutBuff _ => if Z.of_nat (length s) + 4 <=? OUT_BUFF_SIZE then Ret (s ++ OK_END) else OutOfBounds
           | _ => Ret (take (Z.to_nat (OUT_BUFF_SIZE - 1)) (s ++ OK_END))
           end
  end.

(** The reply, [None] for NULL, and the modem. *)
Definition amodem_send (cmd : list Z) (m : amodem) : outcome (option (list Z) * amodem) :=
  if am_wait_sms m then '(s, m) ← handleSendSMSText cmd (with_wait_sms false m); Ret (Some s, m)
  else
    match cmd with
    | 65 :: 84 :: _ :: _ =>
        let cmd := drop 2 cmd in
        match find_response sDefaultResponses cmd with
        | None => Ret (Some (chars "ERROR: UNSUPPORTED"), m)
        | Some (Fixed s) => Ret (Some (s ++ OK_END), m)
        | Some JustOK => Ret (Some (chars "OK"), m)
        | Some (Handler f) => '(a, m) ← f cmd m; s ← finish a; Ret (Some s, m)
        end
    | _ => Ret (None, m)
    end.

End Commands.

(** ** A modem without a settings file *)

Definition created (o : outcome amodem) : match o with Ret _ => amodem | _ => unit end :=
  match o with Ret m => m | _ => tt end.
Definition example_modem : amodem := Eval vm_compute in created (amodem_create 5554 true None).
Definition example_tm : tm := mkTm 1 2 3 4 5 114 6.
Definition example_surroundings : surroundings :=
  mkSurr (fun _ => true) 0 (replicate 7 0x12) example_tm example_tm false None true (fun n => Some (replicate (Z.to_nat n) 0))
    (mkAddr 0 0 (replicate 16 0xcc)) (mkRope RopeNull 7 3 true (replicate 16 9)) (replicate 16 0xaa).

(** ** The settings *)

Lemma find_create_find {V R} (empty : V) root name (f : AConfig V -> R * AConfig V) n' : (forall n, ac_name (f n).2 = ac_name n) ->
  aconfig_find (find_create empty root name f).2 n'
  = if decide (n' = name) then Some (f (default (aconfig_node name empty) (aconfig_find root name))).2 else aconfig_find root n'.
Proof.
  intros Hf. unfold find_create, aconfig_find. destruct (list_find _ (ac_children root)) as [[i n]|] eqn:E.
  - apply list_find_Some in E as E'. destruct E' as (Hi & Hn & Hb). change (default (aconfig_node name empty) (snd <$> Some (i, n))) with n.
    destruct (f n) as [r nn] eqn:Efn. pose proof (Hf n) as Hnn. rewrite Efn in Hnn. cbn [snd set_children ac_children] in *.
    destruct (decide (n' = name)) as [->|Hne].
    + rewrite (proj2 (list_find_Some _ _ i nn)); [done|]. split_and!; [apply list_lookup_insert_eq; by eapply lookup_lt_Some|congruence|].
      intros j y Hj Hlt. rewrite list_lookup_insert_ne in Hj by lia. by eapply Hb.
    + f_equal. destruct (list_find (fun n => ac_name n = n') (ac_children root)) as [[j m]|] eqn:Ej.
      * apply list_find_Some in Ej as (Hj & Hm & Hb'). apply list_find_Some. assert (j <> i) by congruence.
        split_and!; [by rewrite list_lookup_insert_ne|done|]. intros k y Hk Hlt. destruct (decide (k = i)) as [->|].
        -- rewrite list_lookup_insert_eq in Hk by (by eapply lookup_lt_Some). injection Hk as <-. congruence.
        -- rewrite list_lookup_insert_ne in Hk by done. by eapply Hb'.
      * apply list_find_None in Ej. apply list_find_None. apply Forall_insert; [done|]. congruence.
  - apply list_find_None in E as E'. change (default (aconfig_node name empty) (snd <$> None)) with (aconfig_node name empty). destruct (f (aconfig_node name empty)) as [r nn] eqn:Efn.
    pose proof (Hf (aconfig_node name empty)) as Hnn. rewrite Efn in Hnn. cbn [snd set_children ac_children ac_name aconfig_node] in *.
    destruct (decide (n' = name)) as [->|Hne].
    + rewrite list_find_app_r by done. cbn. by rewrite decide_True.
    + destruct (list_find (fun n => ac_name n = n') (ac_children root)) as [[j m]|] eqn:Ej.
      * by rewrite (list_find_app_l _ _ _ _ _ Ej).
      * rewrite list_find_app_r by done. cbn. rewrite decide_False by congruence. done.
Qed.

(** What a setting is after one has been set. *)
Lemma nv_set_value root name v n' : ac_value <$> aconfig_find (nv_set root name v) n' = if decide (n' = name) then Some v else ac_value <$> aconfig_find root n'.
Proof. unfold nv_set, aconfig_set. rewrite find_create_find by done. by destruct (decide _). Qed.

(** ** Technologies *)

(** The highest of the four masks that has a technology, its lowest one. *)
Definition mask_choice (mask : Z) (t : option Z) : Prop :=
  match t with
  | Some j => exists i, 0 <= i <= 3 /\ 0 <= j <= 4 /\ Z.testbit mask (j + 8 * i) = true
      /\ (forall i' j', i < i' <= 3 -> 0 <= j' <= 4 -> Z.testbit mask (j' + 8 * i') = false)
      /\ (forall j', 0 <= j' < j -> Z.testbit mask (j' + 8 * i) = false)
  | None => forall i j, 0 <= i <= 3 -> 0 <= j <= 4 -> Z.testbit mask (j + 8 * i) = false
  end.

Lemma first_tech_spec mask l : match first_tech mask l with
  | Some j => exists l1 l2 i, l = l1 ++ (i, j) :: l2 /\ Z.testbit mask (j + 8 * i) = true /\ Forall (fun '(i, j) => Z.testbit mask (j + 8 * i) = false) l1
  | None => Forall (fun '(i, j) => Z.testbit mask (j + 8 * i) = false) l
  end.
Proof.
  induction l as [|[i j] l IH]; cbn [first_tech]; [done|]. destruct (Z.testbit mask (j + 8 * i)) eqn:E.
  - exists [], l, i. by split_and!.
  - destruct (first_tech mask l) as [k|]; [|by constructor]. destruct IH as (l1 & l2 & i' & -> & H1 & H2).
    exists ((i, j) :: l1), l2, i'. split_and!; [done|done|by constructor].
Qed.

(** The pairs in the order of the loops. *)
Definition tech_pairs : list (Z * Z) := i ← [3; 2; 1; 0]; j ← [0; 1; 2; 3; 4]; [(i, j)].

Lemma tech_pairs_lookup k p : tech_pairs !! k = Some p <-> (k < 20)%nat /\ p = (3 - Z.of_nat k / 5, Z.of_nat k mod 5).
Proof.
  split.
  - intros Hk. assert (k < 20)%nat as Hlt by (apply lookup_lt_Some in Hk; exact Hk). split; [done|].
    do 20 (destruct k as [|k]; [injection Hk as <-; done|]). lia.
  - intros [Hk ->]. do 20 (destruct k as [|k]; [done|]). lia.
Qed.

Lemma tech_pairs_at i j : 0 <= i <= 3 -> 0 <= j <= 4 -> tech_pairs !! Z.to_nat (5 * (3 - i) + j) = Some (i, j).
Proof.
  intros Hi Hj. apply tech_pairs_lookup. split; [lia|]. rewrite Z2Nat.id by lia.
  assert ((5 * (3 - i) + j) / 5 = 3 - i) as -> by (rewrite Z.mul_comm, Z.div_add_l, Z.div_small; lia).
  rewrite Z.add_comm, Z.mul_comm, Z_mod_plus_full, Z.mod_small by lia. f_equal. lia.
Qed.

Lemma first_tech_choice mask : mask_choice mask (first_tech mask tech_pairs).
Proof.
  pose proof (first_tech_spec mask tech_pairs) as H. destruct (first_tech mask tech_pairs) as [j|]; cbn [mask_choice].
  - destruct H as (l1 & l2 & i & El & Hb & Hf). assert (tech_pairs !! length l1 = Some (i, j)) as Hl by (rewrite El; by apply list_lookup_middle).
    apply tech_pairs_lookup in Hl as [Hk [= -> ->]]. set (k := Z.of_nat (length l1)) in *.
    assert (0 <= k < 20) as Hk' by lia. pose proof (Z.mod_pos_bound k 5 ltac:(lia)). pose proof (Z.div_mod k 5 ltac:(lia)) as Hdm.
    assert (forall i' j', 0 <= i' <= 3 -> 0 <= j' <= 4 -> 5 * (3 - i') + j' < k -> Z.testbit mask (j' + 8 * i') = false) as Hbefore.
    { intros i' j' Hi' Hj' Hlt. pose proof (tech_pairs_at i' j' Hi' Hj') as Hat. rewrite El, lookup_app_l in Hat by lia.
      rewrite Forall_lookup in Hf. exact (Hf _ _ Hat). }
    exists (3 - k / 5). split_and!; [lia|lia|lia|lia|done| |].
    + intros i' j' Hi' Hj'. apply Hbefore; lia.
    + intros j' Hj'. apply Hbefore; lia.
  - intros i j Hi Hj. rewrite Forall_lookup in H. exact (H _ _ (tech_pairs_at i j Hi Hj)).
Qed.

Lemma match_mask mask tech : matchPreferredMask mask tech = true <-> exists i, 0 <= i <= 3 /\ Z.testbit mask (tech + 8 * i) = true.
Proof.
  unfold matchPreferredMask. rewrite existsb_exists. split.
  - intros (i & Hi & Hb). exists i. rewrite Z.mul_comm in Hb. split; [|done]. destruct Hi as [<-|[<-|[<-|[<-|[]]]]]; lia.
  - intros (i & Hi & Hb). exists i. rewrite (Z.mul_comm i 8). split; [|done]. cbn. assert (i = 0 \/ i = 1 \/ i = 2 \/ i = 3) as Hc by lia.
    destruct_or! Hc; subst i; tauto.
Qed.

Lemma ctec_command e m c str : am_wait_sms m = false -> 0 <= c <= 3 ->
  amodem_send e (chars "AT+CTEC=" ++ [48 + c; 44] ++ str) m
  = '(a, m) ← match parsePreferred str with
              | Some pt => _amodem_switch_technology m c pt
              | None => Ret (amodem_printf (chars "ERROR: invalid preferred mode"), m)
              end; s ← finish a; Ret (Some s, m).
Proof.
  intros Hw Hc. assert (c = 0 \/ c = 1 \/ c = 2 \/ c = 3) as Hcs by lia. unfold amodem_send. rewrite Hw. by destruct_or! Hcs; subst c.
Qed.

(** The switch, with a new mask. *)
Lemma switch_new_mask m c pt : pt <> 0 -> pt <> preferred_mask (am_tech m) ->
  _amodem_switch_technology m c pt
  = (t ← (if matchPreferredMask pt c then Ret c else chooseTechFromMask pt);
     let a := am_tech m in
     let m' := with_nvram (nv_set (am_nvram m) NV_PREFERRED_MODE NvDead) (am_file m)
                 (with_tech (mkTech (technology a) pt (subscription_source a) (roaming_pref a) (prl_version a)) m) in
     if negb (technology a =? t) then Ret (amodem_printf (chars "+CTEC: " ++ decimal t), set_technology t m')
     else Ret (Text (chars "+CTEC: DONE"), m')).
Proof.
  intros H0 Hne. unfold _amodem_switch_technology. rewrite (proj2 (Z.eqb_neq _ _) H0), (proj2 (Z.eqb_neq _ _)) by done. cbn [negb].
  destruct (matchPreferredMask pt c); [done|]. by destruct (chooseTechFromMask pt).
Qed.

Lemma ctec_reply t : 0 <= t <= 4 -> exists s, finish (amodem_printf (chars "+CTEC: " ++ decimal t)) = Ret s.
Proof. intros Ht. assert (t = 0 \/ t = 1 \/ t = 2 \/ t = 3 \/ t = 4) as Hc by lia. destruct_or! Hc; subst t; by eexists. Qed.

(** The guest chooses the radio technology with [AT+CTEC=c,mask]. A new
    mask that is not zero is kept, and the technology becomes [c] when one of
    the four masks has it, and otherwise the lowest technology of the highest
    mask that has one; a mask without any of the five technologies makes the
    assertion in [chooseTechFromMask] fail, so that the guest ends the
    emulator. *)
Theorem technology_from_mask e m c str pt : am_wait_sms m = false -> 0 <= c <= 3 -> parsePreferred str = Some pt -> pt <> 0 ->
  pt <> preferred_mask (am_tech m) ->
  exists t, mask_choice pt t
    /\ match t with
       | None => amodem_send e (chars "AT+CTEC=" ++ [48 + c; 44] ++ str) m = CpuAbort
       | Some j => exists reply m', amodem_send e (chars "AT+CTEC=" ++ [48 + c; 44] ++ str) m = Ret (Some reply, m')
           /\ preferred_mask (am_tech m') = pt
           /\ technology (am_tech m') = (if existsb (fun i => Z.testbit pt (c + 8 * i)) [0; 1; 2; 3] then c else j)
       end.
Proof.
  intros Hw Hc Hp H0 Hne. exists (first_tech pt tech_pairs). pose proof (first_tech_choice pt) as Hch. split; [done|].
  rewrite ctec_command, Hp, switch_new_mask by done.
  assert (existsb (fun i => Z.testbit pt (c + 8 * i)) [0; 1; 2; 3] = matchPreferredMask pt c) as ->.
  { unfold matchPreferredMask. cbn. rewrite !(Z.mul_comm 8), !orb_false_r. btauto. }
  assert (forall t, 0 <= t <= 4 -> (if matchPreferredMask pt c then Ret c else chooseTechFromMask pt) = Ret t -> exists reply m',
    ('(a, m) ← (t ← (if matchPreferredMask pt c then Ret c else chooseTechFromMask pt);
       let a := am_tech m in
       let m' := with_nvram (nv_set (am_nvram m) NV_PREFERRED_MODE NvDead) (am_file m)
                   (with_tech (mkTech (technology a) pt (subscription_source a) (roaming_pref a) (prl_version a)) m) in
       if negb (technology a =? t) then Ret (amodem_printf (chars "+CTEC: " ++ decimal t), set_technology t m')
       else Ret (Text (chars "+CTEC: DONE"), m')); s ← finish a; Ret (Some s, m)) = Ret (Some reply, m')
    /\ preferred_mask (am_tech m') = pt /\ technology (am_tech m') = t) as Hsw.
  { intros t Ht ->. cbn [mbind outcome_bind]. cbv zeta. destruct (Z.eqb_spec (technology (am_tech m)) t) as [E|E]; cbn [negb mbind outcome_bind].
    - eexists _, _. split; [done|]. by split.
    - destruct (ctec_reply t Ht) as (s & ->). cbn [mbind outcome_bind]. eexists _, _. split; [done|]. by split. }
  assert (chooseTechFromMask pt = or_abort (first_tech pt tech_pairs)) as Echoose by done.
  destruct (first_tech pt tech_pairs) as [j|] eqn:Ej; cbn [mask_choice or_abort] in *.
  - destruct Hch as (i & _ & Hj & _). destruct (matchPreferredMask pt c); apply Hsw; [lia|done|lia|by rewrite Echoose].
  - destruct (matchPreferredMask pt c) eqn:Em; [|by rewrite Echoose]. apply match_mask in Em as (i & Hi & Hb). rewrite Hch in Hb by lia. done.
Qed.

Lemma technology_from_mask_witness :
  (exists t, mask_choice 0xe0 t
    /\ match t with
       | None => amodem_send example_surroundings (chars "AT+CTEC=" ++ [48 + 1; 44] ++ chars "e0") example_modem = CpuAbort
       | Some j => exists reply m', amodem_send example_surroundings (chars "AT+CTEC=" ++ [48 + 1; 44] ++ chars "e0") example_modem = Ret (Some reply, m')
           /\ preferred_mask (am_tech m') = 0xe0
           /\ technology (am_tech m') = (if existsb (fun i => Z.testbit 0xe0 (1 + 8 * i)) [0; 1; 2; 3] then 1 else j)
       end)
  /\ parsePreferred (chars "e0") = Some 0xe0.
Proof. split; [apply (technology_from_mask example_surroundings example_modem 1 (chars "e0") 0xe0); (by vm_compute) || lia|by vm_compute]. Defined.

(** ** Settings that point to dead arrays *)

Definition settles {A} (r : outcome A) : Prop := match r with Ret _ | OutOfBounds => True | _ => False end.

Lemma writer_node_settles arg w n margin : settles (writer_node (nv_deref arg) w n margin).
Proof.
  revert w margin. induction n as [name value children IH] using AConfig_ind. intros w margin. cbn [writer_node].
  assert (settles (nv_deref arg value)) as Hv by by destruct value. destruct (nv_deref arg value) as [v| | | | |]; try done. cbn [mbind outcome_bind].
  destruct v; [|done]. set (w0 := writer_c _ 10). clearbody w0. revert w0. induction IH as [|c l Hc _ IHl]; intros w0; [done|].
  pose proof (Hc w0 (margin + 4)%nat) as Hs. destruct (writer_node _ w0 c _) as [w1| | | | |] eqn:E; try done. apply IHl.
Qed.

Lemma save_dead arg root name : ac_value <$> aconfig_find root name = Some NvDead -> aconfig_save_file (nv_deref arg) root = OutOfBounds.
Proof.
  unfold aconfig_find. destruct (list_find _ _) as [[i n]|] eqn:E; [|done]. cbn [fmap option_fmap option_map snd]. intros [= Hv].
  apply list_find_Some in E as (Hi & _). apply list_elem_of_split_length in Hi as (l1 & l2 & El & _). unfold aconfig_save_file. rewrite El, foldM_app.
  assert (settles (foldM (fun w child => writer_node (nv_deref arg) w child 0) writer_init l1)) as Hs.
  { generalize writer_init. clear. induction l1 as [|c l1 IH]; intros w; [done|]. cbn [foldM]. pose proof (writer_node_settles arg w c 0) as H.
    destruct (writer_node _ w c 0); try done. apply IH. }
  destruct (foldM _ writer_init l1) as [w| | | | |]; try done. cbn [mbind outcome_bind foldM].
  destruct n as [nm v ch]. cbn in Hv. by subst v.
Qed.

(** [AT+WRMP=] with a number. *)
Lemma wrmp_command e m v : am_wait_sms m = false -> (strtol_base 10 v).2 = [] ->
  amodem_send e (chars "AT+WRMP=" ++ v) m
  = (f ← aconfig_save_file (nv_deref v) (nv_set (am_nvram m) NV_CDMA_ROAMING_PREF NvLine);
     let a := am_tech m in
     Ret (Some (chars "OK"), with_nvram (nv_set (am_nvram m) NV_CDMA_ROAMING_PREF NvLine) (Some f)
            (with_tech (mkTech (technology a) (preferred_mask a) (subscription_source a) (s32 (strtol_base 10 v).1) (prl_version a)) m))).
Proof.
  intros Hw Hv. assert (v <> [63]) as Hne by (by intros ->). unfold amodem_send. rewrite Hw.
  change (match chars "AT+WRMP=" ++ v with 65 :: 84 :: _ :: _ => ?x | _ => ?y end) with x. change (drop 2 (chars "AT+WRMP=" ++ v)) with (chars "+WRMP=" ++ v).
  change (find_response (sDefaultResponses e) (chars "+WRMP=" ++ v)) with
    (if bool_decide (chars "+WRMP=" ++ v = chars "+WRMP=?") then Some (Fixed (chars "+WRMP: 0,1,2")) else Some (Handler handleRoamPref)).
  rewrite bool_decide_eq_false_2.
  2: { by intros [= E]. }
  unfold handleRoamPref. change (after "+WRMP" (chars "+WRMP=" ++ v)) with (Ret (A:=list Z) (61 :: v)). cbn [mbind outcome_bind].
  destruct (strtol_base 10 v) as [x rest] eqn:E. cbn [snd] in Hv. subst rest. rewrite bool_decide_eq_false_2 by done. cbn [am_nvram with_tech fst].
  by destruct (aconfig_save_file _ _).
Qed.

(** The settings point to dead memory. Once the guest has set a new mask of
    technologies, the setting [preferred_mode] points to a local array of
    [_amodem_switch_technology]; saving the settings for the next [AT+WRMP=]
    with a number reads it. *)
Theorem stale_setting_read e m c str pt v reply m' : am_wait_sms m = false -> 0 <= c <= 3 -> parsePreferred str = Some pt -> pt <> 0 ->
  pt <> preferred_mask (am_tech m) -> (strtol_base 10 v).2 = [] ->
  amodem_send e (chars "AT+CTEC=" ++ [48 + c; 44] ++ str) m = Ret (reply, m') ->
  amodem_send e (chars "AT+WRMP=" ++ v) m' = OutOfBounds.
Proof.
  intros Hw Hc Hp H0 Hne Hv E. rewrite ctec_command, Hp, switch_new_mask in E by done.
  assert (am_wait_sms m' = false /\ am_nvram m' = nv_set (am_nvram m) NV_PREFERRED_MODE NvDead) as [Hw' Hnv].
  { destruct (if matchPreferredMask pt c then _ else _) as [t| | | | |]; try done. cbn [mbind outcome_bind] in E. cbv zeta in E.
    destruct (technology (am_tech m) =? t); cbn [negb mbind outcome_bind] in E; destruct (finish _); try done; cbn in E; injection E as _ <-; done. }
  rewrite wrmp_command by done. rewrite (save_dead _ _ NV_PREFERRED_MODE); [done|]. rewrite nv_set_value, decide_False by done.
  rewrite Hnv, nv_set_value, decide_True by done. done.
Qed.

Lemma stale_setting_read_witness :
  exists reply m', amodem_send example_surroundings (chars "AT+CTEC=" ++ [48 + 1; 44] ++ chars "02") example_modem = Ret (reply, m')
    /\ amodem_send example_surroundings (chars "AT+WRMP=" ++ chars "1") m' = OutOfBounds.
Proof.
  eexists _, _. split; [vm_compute; reflexivity|].
  eapply (stale_setting_read example_surroundings example_modem 1 (chars "02") 2 (chars "1")); [..|vm_compute; reflexivity]; (by vm_compute) || lia.
Defined.

(** ** Settings survive a restart *)

(** Settings that can be saved and read back: no setting has sub-settings, and
    what each points to is a text, or the roaming preference the guest has
    typed last. *)
Definition setting_ok (n : AConfig nv_ptr) : Prop :=
  ac_children n = [] /\ name_ok (ac_name n)
  /\ ((exists s, ac_value n = NvText s /\ value_ok s) \/ (ac_value n = NvLine /\ ac_name n = NV_CDMA_ROAMING_PREF)).
Definition settings_ok (root : AConfig nv_ptr) : Prop := Forall setting_ok (ac_children root) /\ NoDup (ac_name <$> ac_children root).

(** The text of a pointer. *)
Definition resolve (arg : list Z) (v : nv_ptr) : list Z := match v with NvText s => s | NvDead => [] | NvLine => arg end.

Lemma nv_set_children (P : AConfig nv_ptr -> Prop) root name v : Forall P (ac_children root) -> (forall n, P n -> ac_name n = name -> P (set_value v n)) ->
  P (aconfig_node name v) -> Forall P (ac_children (nv_set root name v)).
Proof.
  intros Hall Hset Hnew. unfold nv_set, aconfig_set, find_create. destruct (list_find _ _) as [[i n]|] eqn:E; cbn [snd ac_children set_children].
  - apply list_find_Some in E as (Hi & Hn & _). apply Forall_insert; [done|]. apply Hset; [|done]. rewrite Forall_lookup in Hall. by eapply Hall.
  - apply Forall_app. split; [done|]. by constructor.
Qed.

Lemma nv_set_names root name v : NoDup (ac_name <$> ac_children root) -> NoDup (ac_name <$> ac_children (nv_set root name v)).
Proof.
  intros Hnd. unfold nv_set, aconfig_set, find_create. destruct (list_find _ _) as [[i n]|] eqn:E; cbn [snd ac_children set_children].
  - apply list_find_Some in E as (Hi & Hn & _). rewrite list_fmap_insert, list_insert_id; [done|]. rewrite list_lookup_fmap, Hi. by destruct n.
  - rewrite fmap_app. apply NoDup_app. split_and!; [done| |apply NoDup_singleton]. intros x Hx [->|H]%elem_of_cons; [|by apply elem_of_nil in H].
    apply list_find_None in E. apply list_elem_of_fmap in Hx as (n & Hn & Hin). rewrite Forall_forall in E. by apply (E n Hin).
Qed.

Lemma name_ok_roaming : name_ok NV_CDMA_ROAMING_PREF.
Proof. by apply name_ok_bool. Qed.

Lemma settings_roaming root : settings_ok root -> settings_ok (nv_set root NV_CDMA_ROAMING_PREF NvLine).
Proof.
  intros [Hall Hnd]. split; [|by apply nv_set_names]. apply nv_set_children; [done| |].
  - intros [nm v ch] (Hc & Hn & _) Hnm. cbn in *. split_and!; [done|done|by right].
  - split_and!; [done|apply name_ok_roaming|by right].
Qed.

(** Saving such settings is saving their texts. *)
Lemma settings_saved arg root : settings_ok root -> value_ok arg ->
  let tree := aconfig_tree [] [] (aconfig_map (resolve arg) <$> ac_children root) in
  aconfig_save_file (nv_deref arg) root = aconfig_save_file Ret tree
  /\ Forall tree_ok (ac_children tree) /\ NoDup (ac_name <$> ac_children tree).
Proof.
  intros [Hall Hnd] Harg tree. split_and!.
  - unfold aconfig_save_file, tree. cbn [ac_children]. f_equal. generalize writer_init. clear Hnd. induction Hall as [|n l Hn _ IH]; intros w; [done|].
    cbn [fmap list_fmap foldM]. assert (writer_node (nv_deref arg) w n 0 = writer_node Ret w (aconfig_map (resolve arg) n) 0) as ->.
    { destruct n as [nm v ch]. destruct Hn as (Hc & _ & Hv). cbn in Hc, Hv. subst ch. destruct Hv as [(s & -> & _)|[-> _]]; done. }
    destruct (writer_node Ret w _ 0); try done. apply IH.
  - cbn [ac_children tree]. apply Forall_fmap. eapply Forall_impl; [exact Hall|]. intros [nm v ch] (Hc & Hn & Hv). cbn in *. subst ch.
    apply leaf_ok; [done|]. by destruct Hv as [(s & -> & Hs)|[-> _]].
  - cbn [ac_children tree]. assert (ac_name <$> (aconfig_map (resolve arg) <$> ac_children root) = ac_name <$> ac_children root) as ->; [|done].
    rewrite <- list_fmap_compose. apply list_fmap_ext. by intros ? [].
Qed.

Lemma find_map {V W} (f : V -> W) root name : aconfig_find (aconfig_map f root) name = aconfig_map f <$> aconfig_find root name.
Proof.
  unfold aconfig_find. destruct root as [nm v ch]. cbn [aconfig_map ac_children]. induction ch as [|[cn cv cc] ch IH]; [done|].
  cbn [map list_find ac_name aconfig_map]. destruct (decide (cn = name)); [done|]. revert IH.
  destruct (list_find _ (map _ ch)) as [[]|], (list_find _ ch) as [[]|]; cbn; congruence.
Qed.

(** Loaded settings are texts; [has root s] says that the roaming preference
    is [s]. *)
Definition all_text (root : AConfig nv_ptr) : Prop := Forall (fun n => ac_children n = [] /\ exists s, ac_value n = NvText s) (ac_children root).
Definition has (root : AConfig nv_ptr) (s : list Z) : Prop :=
  all_text root /\ ac_value <$> aconfig_find root NV_CDMA_ROAMING_PREF = Some (NvText s).

Lemma all_text_find root name n : all_text root -> aconfig_find root name = Some n -> exists s, ac_value n = NvText s.
Proof.
  intros Hall. unfold aconfig_find. destruct (list_find _ _) as [[i x]|] eqn:E; [|done]. intros [= <-].
  apply list_find_Some in E as (Hi & _). unfold all_text in Hall. rewrite Forall_lookup in Hall. by apply (Hall _ _ Hi).
Qed.

Lemma has_set root s name t : has root s -> name <> NV_CDMA_ROAMING_PREF -> has (nv_set root name (NvText t)) s.
Proof.
  intros [Hall Hr] Hne. split; [|by rewrite nv_set_value, decide_False by done]. apply nv_set_children; [done| |].
  - intros [nm v ch] (Hc & _) _. cbn in *. split; [done|by eexists].
  - split; [done|by eexists].
Qed.

Lemma get_int_has root s name d : has root s -> name <> NV_CDMA_ROAMING_PREF ->
  exists v root', amodem_nvram_get_int root name d = Ret (v, root') /\ has root' s.
Proof.
  intros Hh Hne. unfold amodem_nvram_get_int, aconfig_int. destruct (aconfig_find root name) as [n|] eqn:E; cbn [mbind outcome_bind].
  - destruct (all_text_find _ _ _ (proj1 Hh) E) as (t & ->). cbn [nv_deref mbind outcome_bind]. eexists _, _. split; [done|by apply has_set].
  - eexists _, _. split; [done|by apply has_set].
Qed.

Lemma get_str_has root s name d : has root s -> name <> NV_CDMA_ROAMING_PREF ->
  exists v root', amodem_nvram_get_str root name d = (v, root') /\ has root' s /\ (forall p, v = Some p -> exists t, p = NvText t).
Proof.
  intros Hh Hne. unfold amodem_nvram_get_str, aconfig_str. destruct (aconfig_find root name) as [n|] eqn:E.
  - destruct (all_text_find _ _ _ (proj1 Hh) E) as (t & ->). eexists _, _. split_and!; [done|by apply has_set|naive_solver].
  - destruct d as [d|]; cbn [fmap option_fmap option_map].
    + eexists _, _. split_and!; [done|by apply has_set|naive_solver].
    + eexists _, _. split_and!; [done|done|done].
Qed.

Lemma emergency_has todo i root s : has root s -> exists l root', emergency_loop todo i root = Ret (l, root') /\ has root' s.
Proof.
  revert i root. induction todo as [|todo IH]; intros i root Hh; cbn [emergency_loop]; [by eexists _, _|].
  destruct (get_str_has root s (chars "emergency_number_" ++ decimal i) None Hh) as (v & root' & -> & Hh' & Hv); [done|].
  assert (exists o, match v with Some v => s ← nv_deref [] v; Ret (Some s) | None => Ret None end = Ret o) as (o & ->).
  { destruct v as [p|]; [|by eexists]. destruct (Hv p eq_refl) as (t & ->). by eexists. }
  cbn [mbind outcome_bind]. destruct (IH (i + 1) root' Hh') as (l & root2 & -> & Hh2). cbn [mbind outcome_bind]. by eexists _, _.
Qed.

(** Saving texts does not fail. *)
Lemma all_text_saved root : all_text root -> exists f, aconfig_save_file (nv_deref []) root = Ret f.
Proof.
  intros Hall. unfold aconfig_save_file. assert (forall w, exists w', foldM (fun w child => writer_node (nv_deref []) w child 0) w (ac_children root) = Ret w') as H.
  { unfold all_text in Hall. induction Hall as [|n l (Hc & s & Hs) _ IH]; intros w; [by eexists|]. cbn [foldM].
    assert (exists w', writer_node (nv_deref []) w n 0 = Ret w') as (w' & ->); [|apply IH]. destruct n as [nm v ch]. cbn in Hc, Hs. subst.
    cbn [writer_node nv_deref mbind outcome_bind]. destruct s; by eexists. }
  destruct (H writer_init) as (w & ->). by eexists.
Qed.

(** A modem created from loaded settings has their roaming preference. *)
Lemma create_has port unsol_func file root v : aconfig_load_file (aconfig_node [] []) (Some file) = Some root -> has (aconfig_map NvText root) (decimal v) ->
  0 <= v <= 2 -> exists m, amodem_create port unsol_func (Some file) = Ret m /\ roaming_pref (am_tech m) = v.
Proof.
  intros El Hh Hv. unfold amodem_create, amodem_reset, amodem_load_nvram. rewrite El. cbn [mbind outcome_bind].
  destruct (get_int_has _ _ NV_OPER_NAME_INDEX 2 Hh) as (? & ? & -> & H1); [done|]. cbn [mbind outcome_bind].
  destruct (get_int_has _ _ NV_SELECTION_MODE A_SELECTION_AUTOMATIC H1) as (? & ? & -> & H2); [done|]. cbn [mbind outcome_bind].
  destruct (get_int_has _ _ NV_OPER_INDEX 0 H2) as (? & ? & -> & H3); [done|]. cbn [mbind outcome_bind].
  destruct (get_int_has _ _ NV_OPER_COUNT 2 H3) as (? & ? & -> & H4); [done|]. cbn [mbind outcome_bind].
  destruct (get_int_has _ _ NV_IN_ECBM 0 H4) as (? & ? & -> & H5); [done|]. cbn [mbind outcome_bind].
  destruct (get_int_has _ _ NV_PRL_VERSION 0 H5) as (? & ? & -> & H6); [done|]. cbn [mbind outcome_bind].
  destruct (emergency_has 15 1 _ _ H6) as (? & ? & -> & H7). cbn [mbind outcome_bind].
  destruct (get_str_has _ _ NV_MODEM_TECHNOLOGY (Some (chars "gsm")) H7) as (tmp & root8 & -> & H8 & Htmp); [done|].
  assert (exists s, match tmp with Some v => nv_deref [] v | None => Ret [] end = Ret s) as (s & ->).
  { destruct tmp as [p|]; [|by eexists]. destruct (Htmp p eq_refl) as (t & ->). by eexists. }
  cbn [mbind outcome_bind].
  assert (exists t, (if android_parse_modem_tech s =? A_TECH_UNKNOWN then aconfig_int (nv_deref []) root8 NV_MODEM_TECHNOLOGY A_TECH_GSM
     else Ret (android_parse_modem_tech s)) = Ret t) as (t & ->).
  { destruct (_ =? _); [|by eexists]. unfold aconfig_int. destruct (aconfig_find root8 _) as [n|] eqn:E; [|by eexists].
    destruct (all_text_find _ _ _ (proj1 H8) E) as (u & ->). by eexists. }
  cbn [mbind outcome_bind]. destruct (get_int_has _ _ NV_PREFERRED_MODE 0x0f H8) as (? & ? & -> & H9); [done|]. cbn [mbind outcome_bind].
  unfold _amodem_get_cdma_subscription_source. destruct (get_int_has _ _ NV_CDMA_SUBSCRIPTION_SOURCE A_SUBSCRIPTION_RUIM H9) as (? & root10 & -> & H10); [done|].
  cbn [mbind outcome_bind]. unfold _amodem_get_cdma_roaming_preference, amodem_nvram_get_int, aconfig_int. destruct H10 as [Hall Hr].
  destruct (aconfig_find root10 NV_CDMA_ROAMING_PREF) as [n|]; [|done]. injection Hr as ->. cbn [nv_deref mbind outcome_bind].
  assert (s32 (strtol_base 0 (decimal v)).1 = v) as ->.
  { assert (v = 0 \/ v = 1 \/ v = 2) as Hc by lia. destruct_or! Hc; subst v; by vm_compute. }
  cbn [am_nvram with_reg am_reg]. destruct (all_text_saved (nv_set root10 NV_CDMA_ROAMING_PREF (NvText (decimal v)))) as (f & ->).
  { apply nv_set_children; [done| |].
    - intros [nm val ch] (Hc & _) _. cbn in *. split; [done|by eexists].
    - split; [done|by eexists]. }
  cbn [mbind outcome_bind]. eexists. split; [done|]. cbn [with_nvram with_reg am_tech roaming_pref].
  unfold A_ROAMING_PREF_UNKNOWN. by rewrite (proj2 (Z.leb_gt _ _)), (proj2 (Z.ltb_ge _ _)) by lia.
Qed.

(** The roaming preference survives a restart: when the guest sets it with
    [AT+WRMP=], it is answered OK, the settings file is written, and a modem
    created from that file, with any port, has the preference; the settings
    stay in a state in which they can be saved and read back. *)
Theorem roaming_preference_persists e m v port unsol_func : am_wait_sms m = false -> settings_ok (am_nvram m) -> 0 <= v <= 2 ->
  exists m' file m2, amodem_send e (chars "AT+WRMP=" ++ decimal v) m = Ret (Some (chars "OK"), m')
    /\ roaming_pref (am_tech m') = v /\ settings_ok (am_nvram m') /\ am_file m' = Some file
    /\ amodem_create port unsol_func (Some file) = Ret m2 /\ roaming_pref (am_tech m2) = v.
Proof.
  intros Hw Hs Hv. set (root := nv_set (am_nvram m) NV_CDMA_ROAMING_PREF NvLine). pose proof (settings_roaming _ Hs) as Hs'. fold root in Hs'.
  assert (value_ok (decimal v) /\ strtol_base 10 (decimal v) = (v, [])) as [Hval Hnum].
  { assert (v = 0 \/ v = 1 \/ v = 2) as Hc by lia. destruct_or! Hc; subst v; (split; [by apply value_ok_bool|by vm_compute]). }
  destruct (settings_saved (decimal v) root Hs' Hval) as (Esave & Htree & Hnd). cbv zeta in *. set (tree := aconfig_tree _ _ _) in *.
  destruct (saved_config_loads tree Htree Hnd) as (file & Ef & El).
  destruct (create_has port unsol_func file _ v El) as (m2 & E2 & Hr2); [|done|].
  - split.
    + unfold all_text, tree. cbn [aconfig_map ac_children]. destruct Hs' as [Hall _]. apply Forall_fmap, Forall_fmap. eapply Forall_impl; [exact Hall|].
      intros [nm x ch] (Hc & _). cbn in *. subst ch. split; [done|by eexists].
    + assert (ac_value <$> aconfig_find root NV_CDMA_ROAMING_PREF = Some NvLine) as Hl by (unfold root; by rewrite nv_set_value, decide_True).
      rewrite find_map. assert (aconfig_find (aconfig_tree [] [] (ac_children tree)) NV_CDMA_ROAMING_PREF
          = aconfig_find (aconfig_map (resolve (decimal v)) root) NV_CDMA_ROAMING_PREF) as ->.
      { unfold aconfig_find, tree. by destruct root. }
      rewrite find_map. destruct (aconfig_find root _) as [[nm x ch]|]; [|done]. cbn in *. by injection Hl as ->.
  - exists (with_nvram root (Some file) (with_tech (mkTech (technology (am_tech m)) (preferred_mask (am_tech m)) (subscription_source (am_tech m)) v (prl_version (am_tech m))) m)), file, m2.
    split_and!; try done. rewrite wrmp_command by (done || by rewrite Hnum). fold root. rewrite Esave, Ef, Hnum. cbn [mbind outcome_bind fst].
    rewrite swrap_small by (unfold in_s; lia). done.
Qed.

Lemma roaming_preference_persists_witness :
  exists m' file m2, amodem_send example_surroundings (chars "AT+WRMP=" ++ decimal 2) example_modem = Ret (Some (chars "OK"), m')
    /\ roaming_pref (am_tech m') = 2 /\ settings_ok (am_nvram m') /\ am_file m' = Some file
    /\ amodem_create 5556 false (Some file) = Ret m2 /\ roaming_pref (am_tech m2) = 2.
Proof.
  apply (roaming_preference_persists example_surroundings example_modem 2 5556 false); [done| |lia]. split.
  - repeat (apply Forall_cons; split; [split_and!; [done|by apply name_ok_bool|left; eexists; split; [done|by apply value_ok_bool]]|]). by apply Forall_nil.
  - apply (bool_decide_unpack _). by vm_compute.
Defined.
