(* ===== verification/ModemDriver.v ===== *)
(** The modem's serial line, telephony/modem_driver.c: the bytes the guest
    writes are collected to lines, which are commands of the modem, and what
    the modem says is written back. *)
From stdpp Require Import strings pretty.
From S2P Require Import Prelude CStrings GsmText SmsPdu SimCard RemoteCall ModemCalls AConfig Modem.
Open Scope list_scope.

(** [in_buff] before [in_pos], whether a message is being typed, the modem,
    and the bytes written to the guest. *)
Record ModemDriver := mkDriver { md_in : list Z; md_in_sms : bool; md_modem : amodem; md_out : list Z }.

(** [sizeof(md->in_buff)]. *)
Definition IN_BUFF_SIZE : Z := 1024.

(** [modem_driver_unsol]. *)
Definition modem_driver_unsol (message : list Z) (out : list Z) : list Z := out ++ message.

Definition modem_driver_can_read (md : ModemDriver) : Z := IN_BUFF_SIZE - Z.of_nat (length (md_in md)).

Section Driver.
Context (e : surroundings).

(** A complete line, behind which the NUL is written: what the modem says on
    its own comes before its answer. *)
Definition driver_line (md : ModemDriver) : outcome ModemDriver :=
  if IN_BUFF_SIZE <=? Z.of_nat (length (md_in md)) then OutOfBounds
  else
    '(answer, m) ← amodem_send e (cstr (md_in md)) (md_modem md);
    let out := foldl (fun out line => modem_driver_unsol line out) (md_out md)
                 (drop (length (p_unsol (am_phone (md_modem md)))) (p_unsol (am_phone m))) in
    match answer with
    | Some a => Ret (mkDriver [] (md_in_sms md || bool_decide (a = chars "> ")) m (out ++ a ++ [13]))
    | None => Ret (mkDriver [] (md_in_sms md) m out)
    end.

Definition driver_byte (md : ModemDriver) (c : Z) : outcome ModemDriver :=
  let append md := let b := md_in md ++ [c] in
                   mkDriver (if Z.of_nat (length b) =? IN_BUFF_SIZE then [] else b) (md_in_sms md) (md_modem md) (md_out md) in
  if md_in_sms md then
    if c =? 26 then driver_line (mkDriver (md_in md ++ [26]) false (md_modem md) (md_out md)) else Ret (append md)
  else if (c =? 10) || (c =? 13) then
    match md_in md with [] => Ret md | _ => driver_line md end
  else Ret (append md).

Definition modem_driver_read (md : ModemDriver) (src : list Z) : outcome ModemDriver := foldM driver_byte md src.

End Driver.

Definition modem_driver_init (base_port : Z) (file : option (list Z)) : outcome ModemDriver :=
  m ← amodem_create base_port true file; Ret (mkDriver [] false m []).

(** ** Lines *)

Section Lines.
Context (e : surroundings).

(** The byte ends a line, or a message. *)
Definition ends_line (in_sms : bool) (c : Z) : Prop := if in_sms then c = 26 else c = 10 \/ c = 13.

Lemma plain_bytes s : forallb (fun c => negb ((c =? 10) || (c =? 13))) s = true -> Forall (fun c => ~ ends_line false c) s.
Proof.
  rewrite forallb_forall. intros H. apply Forall_forall. intros c Hc%list_elem_of_In%H. unfold ends_line.
  rewrite negb_true_iff, orb_false_iff, !Z.eqb_neq in Hc. tauto.
Qed.

Lemma driver_byte_collects md c : ~ ends_line (md_in_sms md) c -> Z.of_nat (length (md_in md)) + 1 < IN_BUFF_SIZE ->
  driver_byte e md c = Ret (mkDriver (md_in md ++ [c]) (md_in_sms md) (md_modem md) (md_out md)).
Proof.
  intros Hc Hl. unfold driver_byte. assert ((Z.of_nat (length (md_in md ++ [c])) =? IN_BUFF_SIZE) = false) as ->.
  { apply Z.eqb_neq. rewrite length_app. cbn [length]. lia. }
  unfold ends_line in Hc. destruct (md_in_sms md) eqn:E.
  - by rewrite (proj2 (Z.eqb_neq _ _) Hc).
  - by rewrite (proj2 (Z.eqb_neq c 10)), (proj2 (Z.eqb_neq c 13)) by tauto.
Qed.

Lemma driver_collects bs md : Forall (fun c => ~ ends_line (md_in_sms md) c) bs ->
  Z.of_nat (length (md_in md)) + Z.of_nat (length bs) < IN_BUFF_SIZE ->
  modem_driver_read e md bs = Ret (mkDriver (md_in md ++ bs) (md_in_sms md) (md_modem md) (md_out md)).
Proof.
  revert md. induction bs as [|c bs IH]; intros md Hb Hl; unfold modem_driver_read; cbn [foldM length] in *.
  { rewrite app_nil_r. by destruct md. }
  apply Forall_cons in Hb as [Hc Hb]. rewrite driver_byte_collects by (done || lia). cbn [mbind outcome_bind].
  unfold modem_driver_read in IH. rewrite IH; [|done|cbn [md_in]; rewrite length_app; cbn [length]; lia].
  cbn [md_in md_in_sms md_modem md_out]. by rewrite <- app_assoc.
Qed.

Lemma read_more md b1 b2 : modem_driver_read e md (b1 ++ b2) = md ← modem_driver_read e md b1; modem_driver_read e md b2.
Proof. apply foldM_app. Qed.

(** A line, its end included. *)
Lemma driver_reads_line bs c md : md_in md = [] -> bs <> [] -> ends_line (md_in_sms md) c ->
  Forall (fun c => ~ ends_line (md_in_sms md) c) bs -> Z.of_nat (length bs) < IN_BUFF_SIZE ->
  modem_driver_read e md (bs ++ [c])
  = driver_line e (mkDriver (bs ++ if md_in_sms md then [26] else []) false (md_modem md) (md_out md)).
Proof.
  intros H0 Hne Hc Hb Hl. rewrite read_more, driver_collects by (done || (rewrite H0; cbn [length]; lia)). rewrite H0.
  cbn [mbind outcome_bind app modem_driver_read foldM]. unfold modem_driver_read. cbn [foldM]. unfold driver_byte, ends_line in *. cbn [md_in_sms md_in md_modem md_out].
  destruct (md_in_sms md).
  - subst c. cbn [Z.eqb Pos.eqb]. by destruct (driver_line _ _).
  - destruct bs as [|c0 bs]; [done|]. rewrite app_nil_r. destruct Hc as [-> | ->]; cbn [Z.eqb Pos.eqb orb]; by destruct (driver_line _ _).
Qed.

(** What the modem has said since. *)
Definition said (m m' : amodem) : list Z := concat (drop (length (p_unsol (am_phone m))) (p_unsol (am_phone m'))).

Lemma driver_line_sends md : no_nul (md_in md) -> Z.of_nat (length (md_in md)) < IN_BUFF_SIZE ->
  driver_line e md = '(a, m) ← amodem_send e (md_in md) (md_modem md);
    Ret (mkDriver [] (md_in_sms md || bool_decide (a = Some (chars "> "))) m
           (md_out md ++ said (md_modem md) m ++ match a with Some a => a ++ [13] | None => [] end)).
Proof.
  intros Hn Hl. unfold driver_line. rewrite (proj2 (Z.leb_gt _ _)) by done. rewrite cstr_id by done.
  destruct (amodem_send e (md_in md) (md_modem md)) as [[a m]| | | | |]; try done. cbn [mbind outcome_bind].
  assert (forall l out, foldl (fun out line => modem_driver_unsol line out) out l = out ++ concat l) as ->.
  { induction l as [|x l IH]; intros out; cbn [foldl concat]; [by rewrite app_nil_r|]. rewrite IH. unfold modem_driver_unsol. by rewrite app_assoc. }
  fold (said (md_modem md) m). destruct a as [a|].
  - rewrite <- app_assoc. do 3 f_equal. apply bool_decide_ext. naive_solver.
  - rewrite bool_decide_eq_false_2 by done. by rewrite orb_false_r, app_nil_r.
Qed.


(** C39: A message of 1023 bytes overruns the line buffer: while a message is
    typed the end of a full buffer is not checked when control-Z arrives, so
    that the NUL behind it is written outside of [in_buff]. *)
Theorem long_message_overruns bs md : md_in md = [] -> md_in_sms md = true -> Forall (fun c => c <> 26) bs ->
  Z.of_nat (length bs) = IN_BUFF_SIZE - 1 -> modem_driver_read e md (bs ++ [26]) = OutOfBounds.
Proof.
  intros H0 Hs Hb Hl. unfold IN_BUFF_SIZE in *. rewrite driver_reads_line; rewrite ?Hs; [|done|by destruct bs|done|done|unfold IN_BUFF_SIZE; lia].
  unfold driver_line. cbn [md_in]. rewrite (proj2 (Z.leb_le _ _)); [done|]. unfold IN_BUFF_SIZE. rewrite length_app. cbn [length]. lia.
Qed.

End Lines.

Definition example_driver (in_sms : bool) : ModemDriver := mkDriver [] in_sms example_modem [].


Lemma long_message_overruns_witness :
  modem_driver_read example_surroundings (example_driver true) (replicate 1023 65 ++ [26]) = OutOfBounds.
Proof. apply (long_message_overruns example_surroundings (replicate 1023 65) (example_driver true)); try done. by apply Forall_replicate. Defined.
