(* ===== verification/ModemInv.v ===== *)
(** What stays true of the modem whatever the guest writes to its serial line
    and the console changes: the shape of its tables. *)
From stdpp Require Import strings pretty.
From S2P Require Import Prelude CStrings GsmText SmsPdu SmsReceiver SimCard RemoteCall ModemCalls AConfig Modem ModemDriver.
Open Scope list_scope.

(** ** Well-formed modems *)

(** Three names of 16 characters. *)
Definition oper_ok (op : AOperatorRec) : Prop := length (op_name op) = 3%nat /\ Forall (fun n => length n = 16%nat) (op_name op).

(** Context [i] has the number [i + 1] once it is defined, and a name that fits
    its array and its quotes. *)
Definition context_ok (i : nat) (d : ADataContextRec) : Prop :=
  (dc_active d = true -> dc_id d = Z.of_nat i + 1) /\ (length (dc_apn d) <= 31)%nat /\ 34 ∉ dc_apn d.

Record modem_ok (m : amodem) : Prop := {
  ok_calls : calls_ok (am_phone m);
  ok_opers : length (operators (am_opers m)) = 4%nat /\ Forall oper_ok (operators (am_opers m));
  ok_modes : 0 <= voice_mode (am_reg m) <= 2 /\ 0 <= data_mode (am_reg m) <= 2;
  ok_data : length (am_data m) = 4%nat /\ forall i d, am_data m !! i = Some d -> context_ok i d;
}.

(** What a command may change without a thought. *)
Lemma modem_ok_same m m' : modem_ok m -> p_modem (am_phone m') = p_modem (am_phone m) -> operators (am_opers m') = operators (am_opers m) ->
  voice_mode (am_reg m') = voice_mode (am_reg m) -> data_mode (am_reg m') = data_mode (am_reg m) -> am_data m' = am_data m -> modem_ok m'.
Proof.
  intros [H1 H2 H3 H4] E1 E2 E3 E4 E5. constructor; rewrite ?E2, ?E3, ?E4, ?E5; try done. by apply (calls_ok_modem (am_phone m)).
Qed.

Ltac same_modem := match goal with H : modem_ok ?m |- modem_ok _ => apply (modem_ok_same m); (exact H || reflexivity) end.

Lemma ok_phone m p : modem_ok m -> calls_ok p -> modem_ok (with_phone p m).
Proof. intros [H1 H2 H3 H4] Hp. by constructor. Qed.

Lemma ok_unsol m line : modem_ok m -> modem_ok (unsol line m).
Proof. intros Hm. apply ok_phone; [done|]. eapply calls_ok_modem; [apply amodem_unsol_modem|apply Hm]. Qed.

Lemma ok_modes_set m vm vs dm ds dn nt : modem_ok m -> 0 <= vm <= 2 -> 0 <= dm <= 2 -> modem_ok (with_reg (mkReg vm vs dm ds dn nt) m).
Proof. intros [H1 H2 H3 H4] ? ?. by constructor. Qed.

Lemma ok_set_name m i j name : modem_ok m -> length name = 16%nat -> modem_ok (set_name i j name m).
Proof.
  intros [H1 [H2 H2'] H3 H4] Hn. constructor; try done. cbn. split; [by rewrite length_alter|].
  apply Forall_alter; [done|]. intros op _ [Hl Hf]. split; cbn; [by rewrite length_insert|by apply Forall_insert].
Qed.

Create HintDb modem_ok.
#[export] Hint Resolve ok_unsol ok_modes_set : modem_ok.

(** ** Commands *)

Definition keeps (f : list Z -> amodem -> outcome (answer * amodem)) : Prop :=
  forall cmd m a m', modem_ok m -> f cmd m = Ret (a, m') -> modem_ok m'.

(** Takes a handler apart along its branches. *)
Ltac branches E :=
  repeat first
    [ discriminate E
    | let H := fresh in apply bind_Ret in E as (? & H & E)
    | match type of E with context [match ?x with _ => _ end] => destruct x eqn:? end ];
  try (injection E as <- <-).
Ltac by_branches f := intros cmd m a m' Hm E; unfold f in E; branches E; try done; try same_modem.

Lemma switch_keeps m t p a m' : modem_ok m -> _amodem_switch_technology m t p = Ret (a, m') -> modem_ok m'.
Proof.
  intros Hm E. unfold _amodem_switch_technology in E. destruct (p =? 0); [by injection E as <- <-|].
  apply bind_Ret in E as ([m1 t1] & E1 & E). assert (modem_ok m1) as Hm1.
  { destruct (negb _); [|by injection E1 as <- <-]. destruct (matchPreferredMask _ _); [injection E1 as <- <-; same_modem|].
    apply bind_Ret in E1 as (? & _ & E1). injection E1 as <- <-. same_modem. }
  clear E1. destruct (negb _); injection E as <- <-; [same_modem|done].
Qed.

Lemma tech_keeps : keeps handleTech.
Proof.
  intros cmd m a m' Hm E. unfold handleTech in E. apply bind_Ret in E as (c & _ & E). branches E; try done; by eapply switch_keeps.
Qed.

Lemma source_keeps : keeps handleSubscriptionSource.
Proof.
  intros cmd m a m' Hm E. unfold handleSubscriptionSource in E. apply bind_Ret in E as (c & _ & E).
  assert (forall ss, modem_ok (_amodem_set_cdma_subscription_source m ss).2) as Hs.
  { intros ss. unfold _amodem_set_cdma_subscription_source. destruct (negb _); [cbn [snd]; same_modem|done]. }
  branches E; done.
Qed.

Lemma roam_keeps : keeps handleRoamPref.
Proof. by_branches handleRoamPref. Qed.

Lemma emergency_keeps : keeps handleEmergencyMode.
Proof.
  intros cmd m a m' Hm E. unfold handleEmergencyMode in E. apply bind_Ret in E as (c & _ & E). branches E; try done.
  all: apply ok_phone; [done|]; destruct (ok_calls m Hm) as [H1 H2 H3 H4 H5]; by constructor.
Qed.

Lemma prl_keeps : keeps handlePrlVersion.
Proof. by_branches handlePrlVersion. Qed.

Lemma power_keeps : keeps handleRadioPower.
Proof. by_branches handleRadioPower. Qed.

Lemma registration_keeps : keeps handleNetworkRegistration.
Proof.
  intros cmd m a m' Hm E. unfold handleNetworkRegistration, set_unsol_mode in E. pose proof (ok_modes m Hm) as [Hv Hd].
  branches E; try done; apply ok_modes_set; try done; lia.
Qed.

Lemma copy_names_keeps todo : forall nn format name m m', modem_ok m -> copy_names todo nn format name m = Ret m' -> modem_ok m'.
Proof.
  induction todo as [|todo IH]; intros nn format name m m' Hm E; cbn [copy_names] in E; [by injection E as <-|].
  apply bind_Ret in E as (op & Eo & E). apply bind_Ret in E as (old & Ed & E). destruct (_ <=? _)%nat eqn:El; [|done].
  eapply IH; [|exact E]. apply ok_set_name; [done|]. apply Nat.leb_le in El. rewrite length_app, length_drop.
  destruct (operators (am_opers m) !! nn) as [op'|] eqn:Hop; [|done]. injection Eo as ->.
  destruct (op_name op !! format) as [old'|] eqn:Hold; [|done]. injection Ed as ->.
  destruct (proj1 (Forall_lookup _ _) (proj2 (ok_opers m Hm)) _ _ Hop) as [_ Hf]. rewrite (proj1 (Forall_lookup _ _) Hf _ _ Hold). lia.
Qed.

Lemma selection_keeps : keeps handleOperatorSelection.
Proof.
  intros cmd m a m' Hm E. unfold handleOperatorSelection in E. apply bind_Ret in E as (c & _ & E). branches E; try done; try same_modem.
  all: by eapply copy_names_keeps.
Qed.

Lemma until_quote_none s apn : until_quote s = Some apn -> 34 ∉ apn.
Proof.
  revert apn. induction s as [|c s IH]; intros apn E; [done|]. cbn in E. destruct (Z.eqb_spec c 34); [injection E as <-; set_solver|].
  destruct (until_quote s) as [r|]; [|done]. injection E as <-. specialize (IH r eq_refl). set_solver.
Qed.

Lemma ok_context m id type rest apn : modem_ok m -> (id <? 0) || (3 <? id) = false -> until_quote rest = Some apn ->
  modem_ok (with_data_contexts (<[Z.to_nat id := mkData (id + 1) true type (take (A_DATA_APN_SIZE - 1) apn)]> (am_data m)) m).
Proof.
  intros [H1 H2 H3 [H4 H5]] Hid%orb_false_iff Hq%until_quote_none. constructor; try done. cbn [am_data with_data_contexts].
  split; [by rewrite length_insert|]. intros i d Hd. destruct Hid as [Hlo%Z.ltb_ge Hhi%Z.ltb_ge].
  apply list_lookup_insert_Some in Hd as [(<- & <- & _)|(_ & Hd)]; [|by apply H5]. split_and!; cbn.
  - intros _. lia.
  - rewrite length_take. unfold A_DATA_APN_SIZE. lia.
  - intros Hin%subseteq_take. done.
Qed.

Lemma define_keeps : keeps handleDefinePDPContext.
Proof.
  intros cmd m a m' Hm E. unfold handleDefinePDPContext in E. apply bind_Ret in E as (c & _ & E). branches E; try done.
  all: by eapply ok_context.
Qed.

Lemma dial_command_keeps e : keeps (at_dial e).
Proof.
  intros cmd m a m' Hm E. unfold at_dial in E. apply bind_Ret in E as (c & _ & E). apply bind_Ret in E as ([s p] & Ed & E). injection E as <- <-.
  apply ok_phone; [done|]. eapply dial_keeps; [|exact Ed]. apply Hm.
Qed.

Lemma on_phone_keeps f : (forall cmd p p', calls_ok p -> f cmd p = Ret p' -> calls_ok p') -> keeps (on_phone f).
Proof.
  intros Hf cmd m a m' Hm E. unfold on_phone in E. apply bind_Ret in E as (p & Ep & E). injection E as <- <-.
  apply ok_phone; [done|]. eapply Hf; [|exact Ep]. apply Hm.
Qed.

Lemma answer_keeps connects cmd p p' : calls_ok p -> handleAnswer connects cmd p = Ret p' -> calls_ok p'.
Proof. intros Hp E. by eapply (run_op_keeps connects p (OpAnswer cmd)). Qed.

Lemma hangup_command_keeps e : keeps (at_hangup e).
Proof.
  intros cmd m a m' Hm E. unfold at_hangup in E. apply bind_Ret in E as (c & _ & E).
  eapply (on_phone_keeps (handleHangup (e_connects e))); [|exact Hm|exact E]. intros ? ? ?. apply hangup_keeps.
Qed.

Lemma send_pdus_modem e number l : forall p, p_modem (send_pdus e number l p) = p_modem p.
Proof. induction l as [|pdu l IH]; intros p; cbn [send_pdus]; [done|]. destruct (remote_call_sms _ _ _ _); [by rewrite IH|done]. Qed.

Lemma route_keeps e number pdu m m' : modem_ok m -> route_sms e number pdu m = Ret m' -> modem_ok m'.
Proof.
  intros Hm E. unfold route_sms in E. destruct (_ <? 0); [by injection E as <-|]. apply bind_Ret in E as ([index rec] & _ & E).
  destruct (index <=? 0); [injection E as <-; same_modem|]. apply bind_Ret in E as (from & _ & E). apply bind_Ret in E as ([[del rec'] n] & _ & E).
  destruct del; injection E as <-; [|same_modem]. apply ok_phone; [same_modem|]. eapply calls_ok_modem; [apply send_pdus_modem|apply Hm].
Qed.

Lemma pin_keeps : keeps at_pin.
Proof.
  intros cmd m a m' Hm E. unfold at_pin in E. apply bind_Ret in E as (c & _ & E). destruct (handleChangeOrEnterPIN _ _). injection E as <- <-. same_modem.
Qed.

Lemma request_keeps : keeps (fun _ => handleRequestOperator).
Proof. by_branches handleRequestOperator. Qed.

Lemma signal_keeps e : keeps (fun _ => handleSignalStrength e).
Proof. by_branches handleSignalStrength. Qed.

(** Commands that change nothing. *)
Lemma reads_keep f : (forall cmd m a m', f cmd m = Ret (a, m') -> m' = m) -> keeps f.
Proof. by intros Hf cmd m a m' Hm ->%Hf. Qed.

Ltac reads_only f := apply reads_keep; intros cmd m a m' E; try unfold f in E; branches E; reflexivity.

#[export] Hint Resolve tech_keeps source_keeps roam_keeps emergency_keeps prl_keeps power_keeps registration_keeps selection_keeps define_keeps
  dial_command_keeps hangup_command_keeps pin_keeps request_keeps signal_keeps : modem_ok.

(** Every command of the table. *)
Lemma table_keeps e : Forall (fun '(_, act) => match act with Handler f => keeps f | _ => True end) (sDefaultResponses e).
Proof.
  unfold sDefaultResponses. repeat (apply Forall_cons; split); try done; auto with modem_ok.
  - reads_only handleListPDPContexts.
  - reads_only at_calls.
  - reads_only at_calls.
  - intros cmd m a m' Hm [= <- <-]. same_modem.
  - reads_only handleQueryPDPContext.
  - reads_only at_calls.
  - reads_only at_calls.
  - apply on_phone_keeps, answer_keeps.
  - apply on_phone_keeps, answer_keeps.
  - reads_only at_calls.
  - reads_only at_calls.
  - reads_only at_calls.
  - reads_only at_calls.
  - reads_only handleEndOfInit.
Qed.

Lemma find_response_in l cmd act : find_response l cmd = Some act -> exists n, (n, act) ∈ l.
Proof.
  induction l as [|[n a] l IH]; cbn; [done|]. destruct (at_matches n cmd); [intros [= <-]; exists n; set_solver|].
  intros (n' & Hn)%IH. exists n'. set_solver.
Qed.

Lemma send_keeps e cmd m r m' : modem_ok m -> amodem_send e cmd m = Ret (r, m') -> modem_ok m'.
Proof.
  intros Hm E. unfold amodem_send in E. destruct (am_wait_sms m).
  - apply bind_Ret in E as ([s m1] & E1 & E). injection E as <- <-. unfold handleSendSMSText in E1. assert (modem_ok (with_wait_sms false m)) by same_modem.
    destruct (smspdu_create_from_hex _); [|by injection E1 as <- <-]. destruct (smspdu_get_receiver_address _ _) as [ok address].
    destruct (negb ok); [by injection E1 as <- <-|]. apply bind_Ret in E1 as ([temp numlen] & _ & E1). apply bind_Ret in E1 as (m2 & E2 & E1).
    injection E1 as <- <-. destruct (15 <? numlen); [by injection E2 as <-|]. by eapply route_keeps.
  - assert (forall c, (match find_response (sDefaultResponses e) c with
              | None => Ret (Some (chars "ERROR: UNSUPPORTED"), m)
              | Some (Fixed s) => Ret (Some (s ++ OK_END), m)
              | Some JustOK => Ret (Some (chars "OK"), m)
              | Some (Handler f) => '(a, m) ← f c m; s ← finish a; Ret (Some s, m)
              end) = Ret (r, m') -> modem_ok m') as Hc.
    { intros c. destruct (find_response _ c) as [act|] eqn:Ef; [|by intros [= <- <-]].
      apply find_response_in in Ef as (n & Hin). pose proof (proj1 (Forall_forall _ _) (table_keeps e) _ Hin) as Hk.
      destruct act as [s|f|]; [by intros [= <- <-]| |by intros [= <- <-]].
      intros ([a m1] & E1 & (s & _ & [= <- <-])%bind_Ret)%bind_Ret. by eapply Hk. }
    destruct cmd as [|c1 [|c2 [|c3 cmd]]]; try (by branches E). destruct (decide (c1 = 65)) as [->|]; [|by branches E].
    destruct (decide (c2 = 84)) as [->|]; [by apply (Hc (c3 :: cmd))|]. by branches E.
Qed.

(** ** The modem in the emulator *)

(** What the rest of the emulator does with the modem: the guest writes to the
    serial line, the console and the network settings change it, calls come
    and go. *)
Inductive modem_event :=
| GuestWrites (e : surroundings) (bytes : list Z)
| SetRadio (state : Z)
| SetVoice (state : Z)
| SetData (state : Z)
| SetNetwork (type : Z) (out0 : list Z)
| SetSignal (rssi ber : Z)
| SetName (index : Z) (buffer : list Z)
| SetPrl (version : Z)
| SetSource (ss : Z)
| CallEvent (connects : Z -> bool) (op : call_op).

(** A change of the modem from outside; what it says goes to the guest. *)
Definition from_outside (md : ModemDriver) (r : outcome amodem) : outcome ModemDriver :=
  m ← r; Ret (mkDriver (md_in md) (md_in_sms md) m (md_out md ++ said (md_modem md) m)).

Definition run_event (md : ModemDriver) (ev : modem_event) : outcome ModemDriver :=
  let m := md_modem md in
  match ev with
  | GuestWrites e bytes => modem_driver_read e md bytes
  | SetRadio state => from_outside md (Ret (amodem_set_radio_state m state))
  | SetVoice state => from_outside md (Ret (amodem_set_voice_registration m state))
  | SetData state => from_outside md (Ret (amodem_set_data_registration m state))
  | SetNetwork type out0 => from_outside md (amodem_set_data_network_type m type out0)
  | SetSignal rssi ber => from_outside md (Ret (amodem_set_signal_strength m rssi ber))
  | SetName index buffer => from_outside md (amodem_set_operator_name m index buffer)
  | SetPrl version => from_outside md (Ret (amodem_set_cdma_prl_version m version))
  | SetSource ss => from_outside md (Ret (amodem_set_cdma_subscription_source m ss))
  | CallEvent connects op => from_outside md (p ← run_op connects (am_phone m) op; Ret (with_phone p m))
  end.

Inductive modem_reachable : ModemDriver -> Prop :=
| modem_starts port file md : modem_driver_init port file = Ret md -> modem_reachable md
| modem_goes_on md ev md' : modem_reachable md -> run_event md ev = Ret md' -> modem_reachable md'.

Definition driver_ok (md : ModemDriver) : Prop := modem_ok (md_modem md) /\ Z.of_nat (length (md_in md)) < IN_BUFF_SIZE.

Lemma driver_byte_keeps e md c md' : driver_ok md -> driver_byte e md c = Ret md' -> driver_ok md'.
Proof.
  intros [Hm Hl] E. assert (forall md1, md_modem md1 = md_modem md -> driver_line e md1 = Ret md' -> driver_ok md') as Hline.
  { intros md1 Em E1. unfold driver_line in E1. destruct (_ <=? _); [done|]. rewrite Em in E1. apply bind_Ret in E1 as ([r m] & Es & E1).
    split; destruct r; injection E1 as <-; try done; by eapply send_keeps. }
  unfold driver_byte in E. assert (forall l s out, driver_ok (mkDriver (if Z.of_nat (length l) =? IN_BUFF_SIZE then [] else l) s (md_modem md) out)
    \/ IN_BUFF_SIZE < Z.of_nat (length l)) as Happ.
  { intros l s out. destruct (Z.eqb_spec (Z.of_nat (length l)) IN_BUFF_SIZE); [by left|].
    destruct (Z.lt_ge_cases IN_BUFF_SIZE (Z.of_nat (length l))); [by right|]. left. split; cbn; [done|lia]. }
  destruct (Happ (md_in md ++ [c]) (md_in_sms md) (md_out md)) as [Ha|Ha]; [|rewrite length_app in Ha; cbn in Ha; lia].
  destruct (md_in_sms md) eqn:Es.
  - destruct (c =? 26); [by eapply Hline; [|exact E]|]. injection E as <-. exact Ha.
  - destruct (_ || _); [|injection E as <-; exact Ha]. destruct (md_in md) eqn:Ei; [injection E as <-; by split; [|rewrite Ei]|]. by eapply Hline; [|exact E].
Qed.

Lemma driver_read_keeps e bytes : forall md md', driver_ok md -> modem_driver_read e md bytes = Ret md' -> driver_ok md'.
Proof.
  induction bytes as [|c bytes IH]; intros md md' Hok E; [by injection E as <-|].
  apply bind_Ret in E as (md1 & E1 & E). eapply IH; [|exact E]. by eapply driver_byte_keeps.
Qed.

Lemma set_data_keeps m state : modem_ok m -> modem_ok (amodem_set_data_registration m state).
Proof.
  intros Hm. pose proof (ok_modes m Hm) as [Hv Hd]. unfold amodem_set_data_registration.
  destruct (_ =? _); [|destruct (_ =? _)]; auto with modem_ok.
Qed.

Lemma set_voice_keeps m state : modem_ok m -> modem_ok (amodem_set_voice_registration m state).
Proof.
  intros Hm. pose proof (ok_modes m Hm) as [Hv Hd]. unfold amodem_set_voice_registration.
  set (m1 := with_reg _ m). assert (modem_ok m1) as Hm1 by (apply ok_modes_set; done). clearbody m1.
  set (m2 := if state =? A_REGISTRATION_HOME then _ else _). assert (modem_ok m2) as Hm2 by (unfold m2; destruct (_ =? _); [|destruct (_ =? _)]; [same_modem|same_modem|done]).
  clearbody m2. destruct (voice_mode _ =? _); [|destruct (voice_mode _ =? _)]; auto with modem_ok.
Qed.

Lemma set_network_keeps m type out0 m' : modem_ok m -> amodem_set_data_network_type m type out0 = Ret m' -> modem_ok m'.
Proof.
  intros Hm E. unfold amodem_set_data_network_type in E. pose proof (ok_modes m Hm) as [Hv Hd].
  set (m1 := amodem_set_data_registration _ _) in E. assert (modem_ok m1) as Hm1 by (apply set_data_keeps; auto with modem_ok). clearbody m1.
  destruct (_ && _); [|by injection E as <-]. apply bind_Ret in E as ([a m2] & E2 & E). injection E as <-.
  apply ok_unsol. by eapply switch_keeps.
Qed.

Lemma set_operator_keeps m index buffer m' : modem_ok m -> amodem_set_operator_name m index buffer = Ret m' -> modem_ok m'.
Proof.
  intros Hm E. unfold amodem_set_operator_name in E. destruct (_ || _); [by injection E as <-|].
  apply bind_Ret in E as (op & Eo & E). apply bind_Ret in E as (old & Ed & E). injection E as <-. apply ok_set_name; [done|].
  destruct (operators (am_opers m) !! _) as [op'|] eqn:Hop; [|done]. injection Eo as ->.
  destruct (op_name op !! _) as [old'|] eqn:Hold; [|done]. injection Ed as ->.
  destruct (proj1 (Forall_lookup _ _) (proj2 (ok_opers m Hm)) _ _ Hop) as [_ Hf]. pose proof (proj1 (Forall_lookup _ _) Hf _ _ Hold) as Hl.
  rewrite length_app. cbn [length]. rewrite length_drop, length_take, Hl. lia.
Qed.

Lemma run_event_keeps md ev md' : driver_ok md -> run_event md ev = Ret md' -> driver_ok md'.
Proof.
  intros Hok E. destruct ev as [e bytes| | | | | | | | |]; cbn [run_event] in E; [by eapply driver_read_keeps|..].
  all: destruct Hok as [Hm Hl]; unfold from_outside in E; apply bind_Ret in E as (m & Em & E); injection E as <-; split; [cbn [md_modem]|done].
  - injection Em as <-. same_modem.
  - injection Em as <-. by apply set_voice_keeps.
  - injection Em as <-. by apply set_data_keeps.
  - by eapply set_network_keeps.
  - injection Em as <-. same_modem.
  - by eapply set_operator_keeps.
  - injection Em as <-. unfold amodem_set_cdma_prl_version, _amodem_set_cdma_prl_version. destruct (negb _); [|done]. apply ok_unsol. same_modem.
  - injection Em as <-. unfold amodem_set_cdma_subscription_source, _amodem_set_cdma_subscription_source. destruct (negb _); [|done]. apply ok_unsol. same_modem.
  - apply bind_Ret in Em as (p & Ep & Em). injection Em as <-. apply ok_phone; [done|]. eapply run_op_keeps; [|exact Ep]. apply Hm.
Qed.

Lemma created_ok port unsol_func file m : amodem_create port unsol_func file = Ret m -> modem_ok m.
Proof.
  unfold amodem_create. intros (m1 & E1 & (f & _ & [= <-])%bind_Ret)%bind_Ret.
  unfold amodem_reset in E1. repeat (apply bind_Ret in E1 as ([? ?] & _ & E1)). destruct (amodem_nvram_get_str _ _ _) as [tmp r].
  apply bind_Ret in E1 as (? & _ & E1). apply bind_Ret in E1 as (? & _ & E1). repeat (apply bind_Ret in E1 as ([? ?] & _ & E1)). injection E1 as <-.
  constructor; cbn [with_nvram with_reg am_phone am_opers am_reg am_data operators voice_mode data_mode].
  - match goal with |- context [phone_init ?a ?b ?c] => pose proof (reachable_ok (fun _ => true) _ (reach_init _ a b c)) as Hp end.
    destruct (nz _); [|done]. destruct Hp as [H1 H2 H3 H4 H5]. by constructor.
  - split; [done|]. repeat constructor.
  - done.
  - split; [done|]. intros i d Hd. change (replicate 4 no_data !! i = Some d) in Hd. apply lookup_replicate in Hd as [-> _]. split_and!; cbn; [done|lia|set_solver].
Qed.

Lemma modem_reachable_ok md : modem_reachable md -> driver_ok md.
Proof.
  induction 1 as [port file md E|md ev md' _ IH E]; [|by eapply run_event_keeps].
  unfold modem_driver_init in E. apply bind_Ret in E as (m & Em & E). injection E as <-. split; [by eapply created_ok|done].
Qed.

(** ** Queries *)

Lemma context_line i d : context_ok i d -> (i < 4)%nat -> (length (pdp_line d) <= 80)%nat.
Proof.
  intros (Hid & Hl & _) Hi. unfold pdp_line. destruct (dc_active d); [|cbn; lia]. rewrite (Hid eq_refl).
  assert (length (decimal (Z.of_nat i + 1)) = 1%nat) as Hd by (by destruct i as [|[|[|[|]]]]; [..|lia]).
  unfold quoted, QUOTE. rewrite !length_app, Hd. destruct (dc_type d); cbn; lia.
Qed.

Lemma concat_length_le {A B} (f : A -> list B) n l : Forall (fun a => (length (f a) <= n)%nat) l -> (length (concat (f <$> l)) <= n * length l)%nat.
Proof. induction 1 as [|a l Ha _ IH]; [cbn; lia|]. rewrite fmap_cons. cbn [concat length]. rewrite length_app. lia. Qed.

Lemma contexts_fit m : modem_ok m -> (length (concat (pdp_line <$> am_data m)) <= 320)%nat.
Proof.
  intros [_ _ _ [Hl Hd]]. replace 320%nat with (80 * length (am_data m))%nat by lia. apply concat_length_le, Forall_lookup. intros i d Hi.
  apply (context_line i); [by apply Hd|]. pose proof (lookup_lt_Some _ _ _ Hi). lia.
Qed.

(** No context, or a line that is no error. *)
Lemma contexts_start l : concat (pdp_line <$> l) = [] \/ exists r, concat (pdp_line <$> l) = chars "+CGDCONT: " ++ r.
Proof.
  induction l as [|d l IH]; [by left|]. rewrite fmap_cons. cbn [concat]. unfold pdp_line at 1 3. destruct (dc_active d); [|done].
  right. eexists. by rewrite <- app_assoc.
Qed.


(** A guest defines two contexts. *)
Definition context_commands : list Z :=
  chars "AT+CGDCONT=1," ++ quoted (chars "IP") ++ [44] ++ quoted (chars "internet") ++ [13]
  ++ chars "AT+CGDCONT=3," ++ quoted (chars "PPP") ++ [44] ++ quoted (chars "work") ++ [13].

