(* ===== verification/SmsRoute.v ===== *)
(** A message from one emulator to another: the guest types it on the serial
    line of its modem (telephony/modem_driver.c), the modem collects it and
    sends PDUs to the other console (telephony/android_modem.c,
    telephony/remote_call.c), whose command hands them to the other modem
    (android/console.c) and so to its guest. *)
From stdpp Require Import strings pretty gmap.
From S2P Require Import Prelude CStrings GsmText GsmRope SmsPdu SmsDeliver SmsReceiver SimCard RemoteCall ModemCalls Console Emulators AConfig Modem ModemDriver.
Open Scope list_scope.
#[local] Ltac Zify.zify_post_hook ::= Z.div_mod_to_equations.

(** ** A PDU on its way *)

Lemma hex_chars l : Forall (fun c => 48 <= c <= 57 \/ 97 <= c <= 102) (gsm_hex_from_bytes l).
Proof.
  unfold gsm_hex_from_bytes. apply Forall_concat, Forall_fmap, Forall_forall. intros b _. unfold gsm_hex_from_byte.
  assert (forall v, 0 <= v <= 15 -> 48 <= hexdigit v <= 57 \/ 97 <= hexdigit v <= 102) as H.
  { intros v Hv. unfold hexdigit. destruct (Z.ltb_spec v 10); lia. }
  assert (forall z, 0 <= z .& 15 <= 15) as Hl.
  { intros z. change 15 with (Z.ones 4). rewrite Z.land_ones by lia. change (Z.ones 4) with 15. change (2 ^ 4) with 16. lia. }
  constructor; [|constructor; [|constructor]]; apply H, Hl.
Qed.

Lemma length_hex l : length (gsm_hex_from_bytes l) = (2 * length l)%nat.
Proof.
  induction l as [|b l IH]; [done|]. change (gsm_hex_from_bytes (b :: l)) with (gsm_hex_from_byte b ++ gsm_hex_from_bytes l).
  rewrite length_app, IH. cbn [length gsm_hex_from_byte]. lia.
Qed.

(** A PDU a phone can read has its service center in it. *)
Lemma readable_pdu base d : Forall (in_u 8) base -> read_deliver base = Some d -> exists tp, smspdu_create_from_hex (gsm_hex_from_bytes base) = Some (mkPDU base tp).
Proof.
  intros Hb Hr. unfold smspdu_create_from_hex. rewrite (proj1 (hex_read_back base Hb)). cbn [mbind option_bind].
  destruct base as [|len rest]; [done|]. unfold read_deliver in Hr. cbn [head default drop] in Hr. unfold id in Hr.
  apply Forall_cons in Hb as [Hlen _]. unfold in_u in Hlen. cbn [sms_skip_sc_address].
  destruct (Z.ltb_spec (Z.of_nat (length rest)) len) as [H|H]; [|by eexists].
  rewrite drop_ge in Hr by lia. done.
Qed.

(** The line that carries it. *)
Definition pdu_line (p : SmsPDURec) : list Z := chars "sms pdu " ++ gsm_hex_from_bytes (pdu_base p) ++ [10].

Lemma sms_line call p : sent_pdu p -> rc_buff (remote_call_set_sms_pdu call p) = pdu_line p.
Proof.
  intros [Hb Hl]. unfold remote_call_set_sms_pdu, smspdu_to_hex, BUFF0_SIZE. cbn [fst snd rc_buff]. unfold pdu_line. do 2 f_equal.
  f_equal. apply take_ge. set (n := Z.of_nat (length (pdu_base p))). assert (Z.of_nat (length (pdu_base p)) = n) as Hn by done. clearbody n.
  destruct (Z.ltb_spec 32 (32 + n * 2)); [|lia]. destruct (Z.ltb_spec (n * 2) (32 + n * 2 - 8)); [|lia].
  rewrite Z.quot_div_nonneg by lia. lia.
Qed.

Section Route.
Context (connects : Z -> bool).

Lemma sms_pdu_command h p : Forall (fun c => c <> 32) h -> h <> [] ->
  control_client_do_command (fun _ => false) (peer_commands connects) (chars "sms pdu " ++ h) p
  = '(ok, p) ← do_sms_sendpdu p (Some h); Ret (if ok : bool then ReplyOK else ReplyHandler, p).
Proof.
  intros Hh Hne. destruct h as [|c h]; [done|]. apply Forall_cons in Hh as [Hc _]. unfold control_client_do_command, find_command.
  assert (find_in (peer_commands connects) (chars "sms pdu " ++ c :: h) = Some (mkCommand (chars "sms") None sms_peer_commands)) as -> by reflexivity.
  assert (command_args (chars "sms pdu " ++ c :: h) = Some (chars "pdu " ++ c :: h)) as -> by reflexivity.
  assert (find_command (chars "pdu " ++ c :: h) sms_peer_commands = Some (mkCommand (chars "pdu") (Some do_sms_sendpdu) [], Some (c :: h))) as Hf.
  { unfold find_command. assert (find_in sms_peer_commands (chars "pdu " ++ c :: h) = Some (mkCommand (chars "pdu") (Some do_sms_sendpdu) [])) as -> by reflexivity.
    cbn. by rewrite (proj2 (Z.eqb_neq _ _) Hc). }
  cbn [mbind option_bind]. change (length (chars "sms pdu " ++ c :: h)) with (S (S (7 + length h)))%nat. 
  change (run_command (S (S ?n)) (mkCommand _ None sms_peer_commands) (Some ?l) p)
    with (match find_command l sms_peer_commands with None => Ret (ReplyBadSub, p) | Some (cmd, args) => run_command (S n) cmd args p end).
  rewrite Hf. done.
Qed.

(** The console hands the PDU of a line to its modem. *)
Lemma console_takes_pdu p q d : sent_pdu q -> read_deliver (pdu_base q) = Some d ->
  console_line connects (fun _ => false) (pdu_line q) p
  = Ret (mkPhone (p_modem p) (p_timers p) (p_unsol p ++ amodem_receive_sms (m_unsol_func (p_modem p)) q) (p_remote p)).
Proof.
  intros [Hb Hl] Hr. unfold console_line, pdu_line. set (h := gsm_hex_from_bytes (pdu_base q)).
  assert (Forall (fun c => 48 <= c <= 57 \/ 97 <= c <= 102) h) as Hh by apply hex_chars.
  assert (length h = 2 * length (pdu_base q))%nat as Hlh by apply length_hex.
  rewrite app_assoc, read_app by done.
  assert (filter (fun c => c <> 13) (chars "sms pdu " ++ h) = chars "sms pdu " ++ h) as Hf.
  { apply filter_every. apply Forall_app. split; [by repeat constructor|]. eapply Forall_impl; [exact Hh|]. cbn. lia. }
  rewrite read_line_bytes; [|done| |].
  2: { apply Forall_app. split; [by repeat constructor|]. eapply Forall_impl; [exact Hh|]. cbn. lia. }
  2: { rewrite Hf, length_app, Hlh. change (length (chars "sms pdu ")) with 8%nat. change (length (cl_buff _)) with 0%nat. unfold CLIENT_BUFF_SIZE. lia. }
  rewrite Hf. cbn [mbind outcome_bind cl_finished cl_buff cl_replies cl_state app control_client_read].
  pose proof (line_end (fun _ => false) (peer_commands connects) (chars "sms pdu " ++ h) [] p) as Hend.
  rewrite Hend; [| |done].
  2: { apply Forall_app. split; [by repeat constructor|]. eapply Forall_impl; [exact Hh|]. cbn. lia. }
  rewrite sms_pdu_command; [| |].
  - unfold do_sms_sendpdu. destruct (readable_pdu _ _ Hb Hr) as (tp & E). fold h in E. rewrite E. done.
  - eapply Forall_impl; [exact Hh|]. cbn. lia.
  - intros E. unfold h in Hlh. fold h in Hlh. rewrite E in Hlh. destruct (pdu_base q); [done|cbn in Hlh; lia].
Qed.

Lemma console_takes_pdus l ds p : Forall sent_pdu l -> read_parts l = Some ds ->
  foldM (fun p line => console_line connects (fun _ => false) line p) p (pdu_line <$> l)
  = Ret (mkPhone (p_modem p) (p_timers p) (p_unsol p ++ concat (amodem_receive_sms (m_unsol_func (p_modem p)) <$> l)) (p_remote p)).
Proof.
  intros Hl. revert ds p. induction Hl as [|q l Hq Hl IH]; intros ds p Hr.
  { cbn. rewrite app_nil_r. by destruct p. }
  unfold read_parts in Hr. cbn [mapM] in Hr. destruct (read_deliver (pdu_base q)) as [d|] eqn:Ed; [|done]. cbn [mbind option_bind] in Hr.
  destruct (mapM _ l) as [ds'|] eqn:El; [|done]. cbn [fmap list_fmap foldM]. rewrite (console_takes_pdu p q d) by done.
  cbn [mbind outcome_bind]. rewrite (IH ds') by done. cbn [p_modem p_timers p_unsol p_remote concat]. by rewrite <- app_assoc.
Qed.

(** ** Sending *)

Lemma sms_call number a b : remote_number_string_to_port number = b -> a ∈ emulator_ports -> b ∈ emulator_ports -> a <> b -> connects b = true ->
  remote_call_generic connects REMOTE_CALL_SMS number a = Some (mkRemote REMOTE_CALL_SMS b a [] None).
Proof.
  intros Hn Ha Hb Hne Hc. unfold remote_call_generic. rewrite Hn. destruct (emulator_number a Ha) as (_ & _ & -> & _).
  apply emulator_port_spec in Ha as Ha'. apply emulator_port_spec in Hb as Hb'.
  rewrite !(proj2 (Z.ltb_ge _ _)), (proj2 (Z.eqb_neq _ _)) by lia. unfold remote_call_alloc. cbn [call_command]. by rewrite Hc.
Qed.

End Route.

Section Send.
Context (e : surroundings).

(** The lines to the other emulator. *)
Lemma send_pdus_lines number b l p : remote_number_string_to_port number = b -> m_base_port (p_modem p) ∈ emulator_ports -> b ∈ emulator_ports ->
  m_base_port (p_modem p) <> b -> e_connects e b = true -> Forall sent_pdu l ->
  exists lines, send_pdus e number l p = mkPhone (p_modem p) (p_timers p) (p_unsol p) (p_remote p ++ lines)
    /\ rc_buff <$> lines = pdu_line <$> l /\ Forall (fun r => rc_to_port r = b) lines.
Proof.
  intros Hn Ha Hb Hne Hc Hl. revert p Ha Hne. induction Hl as [|q l Hq Hl IH]; intros p Ha Hne; cbn [send_pdus].
  { exists []. rewrite app_nil_r. by destruct p. }
  unfold remote_call_sms. rewrite (sms_call _ _ _ b) by done. cbn [mbind option_bind].
  set (r := remote_call_set_sms_pdu _ q). destruct (IH (add_remote (Some r) p)) as (lines & -> & E1 & E2); [done|done|].
  exists (r :: lines). cbn [p_modem p_timers p_unsol p_remote add_remote fmap list_fmap]. rewrite <- app_assoc. split; [done|]. split.
  - rewrite E1. f_equal. by apply sms_line.
  - constructor; [|done]. unfold r, remote_call_set_sms_pdu. by destruct (smspdu_to_hex _ _).
Qed.

(** ** The modem of the sender *)

Definition digits_of (s : list Z) : list Z := (fun c => c - 48) <$> s.

Lemma port_number p : p ∈ emulator_ports ->
  Forall digit_ok (digits_of (number_of p)) /\ ascii_digits (digits_of (number_of p)) = number_of p /\ length (number_of p) = 11%nat
  /\ full_number (decimal p) = number_of p /\ full_number (number_of p) = number_of p.
Proof.
  assert (forallb (fun p => forallb (fun d => (0 <=? d) && (d <? 10)) (digits_of (number_of p)) && bool_decide (ascii_digits (digits_of (number_of p)) = number_of p)
    && (length (number_of p) =? 11)%nat && bool_decide (full_number (decimal p) = number_of p) && bool_decide (full_number (number_of p) = number_of p))
    emulator_ports = true) as H by by vm_compute.
  rewrite forallb_forall in H. intros Hp%list_elem_of_In%H. rewrite !andb_true_iff, !bool_decide_eq_true, Nat.eqb_eq in Hp.
  destruct Hp as ((((H1 & H2) & H3) & H4) & H5). split_and!; try done. apply Forall_forall. intros d Hd. rewrite forallb_forall in H1.
  apply list_elem_of_In, H1 in Hd. unfold digit_ok. lia.
Qed.

(** Memory is there, and arrays have the sizes the source declares. *)
Record surroundings_ok : Prop := {
  surr_malloc : Malloc (e_malloc e);
  surr_memory : forall n, e_malloc e n <> None;
  surr_addr : length (addr_data (e_addr e)) = 16%nat;
  surr_rope : length (data0 (e_rope e)) = 16%nat;
  surr_stamp : length (e_stamp e) = 7%nat;
  surr_stamp_bytes : Forall (in_u 8) (e_stamp e);
  surr_temp : length (e_temp e) = 16%nat;
}.

Context (He : surroundings_ok).

(** The receiver of the modem, which has room for a message to the number and
    reference of the PDU. *)
Record can_collect (m : amodem) (dlen toa ref : Z) (digits : list Z) : Prop := {
  coll_ok : rec_ok (default sms_receiver_create (am_receiver m));
  coll_last : rec_last (default sms_receiver_create (am_receiver m)) < 2 ^ 31 - 1;
  coll_parts : forall parts, messages (default sms_receiver_create (am_receiver m)) !! frag_key_of (mkAddr dlen toa (copy_into (addr_data (e_addr e)) digits)) ref = Some parts -> length parts = 1%nat;
  coll_ref_num : in_u 8 (am_ref_num m);
}.

Lemma route_sms_sends m a b pdu ref dlen toa digits cs : a ∈ emulator_ports -> b ∈ emulator_ports -> a <> b -> e_connects e b = true ->
  m_base_port (p_modem (am_phone m)) = a -> can_collect m dlen toa ref digits -> plain_submit pdu ref dlen toa digits cs ->
  exists m' lines l ds, route_sms e (number_of b) pdu m = Ret m' /\ am_phone m' = mkPhone (p_modem (am_phone m)) (p_timers (am_phone m)) (p_unsol (am_phone m)) (p_remote (am_phone m) ++ lines)
    /\ rc_buff <$> lines = pdu_line <$> l /\ Forall (fun r => rc_to_port r = b) lines
    /\ Forall sent_pdu l /\ read_parts l = Some ds /\ concat (d_text <$> ds) = cs
    /\ Forall (fun d => d_digits d = digits_of (number_of a)) ds.
Proof.
  intros Ha Hb Hne Hc Hport [Ho Hlast Hparts Href] Hpl. pose proof (surr_malloc He) as Hmal.
  destruct (emulator_number b Hb) as (Enum & _). fold (number_of b) in Enum. apply emulator_port_spec in Hb as Hb'.
  destruct (port_number a Ha) as (Hdig & Hasc & Hlen & _).
  destruct (typed_sender false (digits_of (number_of a)) Hdig) as (from & Efrom & Hfrom & _ & Edig); [unfold digits_of; rewrite length_fmap; lia|].
  cbn [app] in Efrom. rewrite Hasc in Efrom.
  destruct (guest_message_sent (e_malloc e) (surr_memory He) _ pdu ref dlen toa digits cs (e_addr e) (e_addr e) (e_rope e) from (e_stamp e) (am_ref_num m)
    Ho Hlast Hpl (surr_addr He) (surr_rope He) Hfrom (surr_stamp He) (surr_stamp_bytes He) Href Hparts)
    as (r & rec1 & rec2 & l & ds & E1 & Hr & E2 & Hsent & Erd & Et & Hfs & _).
  destruct (send_pdus_lines (number_of b) b l (am_phone m)) as (lines & Es & El & Hto); try done; [by rewrite Hport|by rewrite Hport|].
  unfold route_sms. rewrite Enum, (proj2 (Z.ltb_ge _ _)), E1 by lia. cbn [mbind outcome_bind]. rewrite (proj2 (Z.leb_gt _ _)) by lia.
  rewrite Hport. unfold own_number. fold (number_of a). rewrite take_ge, Efrom by lia. cbn [or_out mbind outcome_bind]. rewrite E2. cbn [mbind outcome_bind].
  eexists _, lines, l, ds. split; [done|]. cbn [am_phone with_phone with_receiver]. split_and!; try done.
  eapply Forall_impl; [exact Hfs|]. intros d (_ & -> & _). exact Edig.
Qed.

(** The number of a PDU is read as it was written. *)
Lemma read_number_of ds toa : Forall digit_ok ds -> (1 <= length ds <= 15)%nat -> toa <> 0x91 ->
  let digits := semi_octets ds in
  exists rest, sms_address_to_str (mkAddr (Z.of_nat (length ds)) toa (copy_into (addr_data (e_addr e)) digits)) (e_temp e)
    = Ret (ascii_digits ds ++ rest, Z.of_nat (length ds)).
Proof.
  intros Hds Hl Htoa digits. set (a := mkAddr _ _ _). unfold sms_address_to_str. change (addr_toa a) with toa.
  rewrite (proj2 (Z.eqb_neq _ _) Htoa). pose proof (surr_temp He) as Ht.
  destruct (to_str_digits ds (S (length ds)) a [] (drop (length digits) (addr_data (e_addr e))) [] (e_temp e)) as (rest & E); try done; try lia.
  exists rest. change (addr_len a) with (Z.of_nat (length ds)). rewrite Nat2Z.id. exact E.
Qed.

Lemma hex_of_pdu pdu : pdu_ok pdu -> smspdu_create_from_hex (gsm_hex_from_bytes (pdu_base pdu)) = Some pdu.
Proof.
  intros Hp. set (n := 2 * Z.of_nat (length (pdu_base pdu)) + 2). pose proof (pdu_hex_roundtrip pdu n Hp ltac:(unfold n; lia)) as E.
  unfold smspdu_to_hex in E. cbn [snd] in E. rewrite take_ge in E; [done|]. unfold n.
  rewrite (proj2 (Z.ltb_lt _ _)) by lia. rewrite Z.quot_div_nonneg by lia. lia.
Qed.

Lemma last_hex pdu : last (gsm_hex_from_bytes (pdu_base pdu) ++ [26]) = Some 26.
Proof. apply last_snoc. Qed.

Lemma message_text m a b pdu ref toa ds cs : a ∈ emulator_ports -> b ∈ emulator_ports -> a <> b -> e_connects e b = true ->
  m_base_port (p_modem (am_phone m)) = a -> ascii_digits ds = decimal b \/ ascii_digits ds = number_of b -> Forall digit_ok ds -> toa <> 0x91 ->
  pdu_ok pdu -> plain_submit pdu ref (Z.of_nat (length ds)) toa (semi_octets ds) cs ->
  can_collect m (Z.of_nat (length ds)) toa ref (semi_octets ds) ->
  exists m' lines l msgs, handleSendSMSText e (gsm_hex_from_bytes (pdu_base pdu) ++ [26]) m = Ret (chars "+CMGS: 0" ++ [13] ++ chars "OK" ++ [13], m')
    /\ am_phone m' = mkPhone (p_modem (am_phone m)) (p_timers (am_phone m)) (p_unsol (am_phone m)) (p_remote (am_phone m) ++ lines)
    /\ rc_buff <$> lines = pdu_line <$> l /\ Forall (fun r => rc_to_port r = b) lines
    /\ Forall sent_pdu l /\ read_parts l = Some msgs /\ concat (d_text <$> msgs) = cs
    /\ Forall (fun d => d_digits d = digits_of (number_of a)) msgs.
Proof.
  intros Ha Hb Hne Hc Hport Hds Hdig Htoa Hpdu Hpl Hcoll.
  destruct (port_number b Hb) as (_ & _ & Hl11 & Hf4 & Hf11). destruct (emulator_number b Hb) as (_ & _ & _ & Hl4 & _).
  assert (1 <= length ds <= 15)%nat as Hl.
  { unfold ascii_digits in Hds. assert (length (Z.add 48 <$> ds) = length ds) as <- by apply length_fmap. destruct Hds as [-> | ->]; lia. }
  destruct (route_sms_sends m a b pdu ref (Z.of_nat (length ds)) toa (semi_octets ds) cs) as (m' & lines & l & msgs & Er & Hrest); try done.
  exists m', lines, l, msgs. split; [|exact Hrest]. unfold handleSendSMSText.
  rewrite bool_decide_eq_true_2 by apply last_snoc. rewrite length_app. cbn [length].
  rewrite Nat.add_sub, take_app_length, hex_of_pdu by done.
  pose proof (plain_view _ _ _ _ _ _ (e_addr e) Hpl) as [Ev _ _ _]. rewrite Ev. cbn [negb].
  destruct (read_number_of ds toa Hdig Hl Htoa) as (rest & ->). cbn [mbind outcome_bind]. rewrite (proj2 (Z.ltb_ge _ _)) by lia.
  assert (take (Z.to_nat (Z.of_nat (length ds))) (ascii_digits ds ++ rest) = ascii_digits ds) as ->.
  { rewrite Nat2Z.id. apply take_app_length'. unfold ascii_digits. by rewrite length_fmap. }
  assert (full_number (ascii_digits ds) = number_of b) as -> by (destruct Hds as [-> | ->]; done).
  by rewrite Er.
Qed.

(** The command that announces a message. *)
Lemma driver_prompts md n : md_in md = [] -> md_in_sms md = false -> am_wait_sms (md_modem md) = false ->
  Forall (fun c => 48 <= c <= 57) n -> (length n <= 10)%nat ->
  modem_driver_read e md (chars "AT+CMGS=" ++ n ++ [13])
  = Ret (mkDriver [] true (with_wait_sms true (md_modem md)) (md_out md ++ chars "> " ++ [13])).
Proof.
  intros Hin Hsms Hwait Hn Hnl. set (m := md_modem md) in *. set (m1 := with_wait_sms true m).
  rewrite app_assoc, driver_reads_line; rewrite ?Hsms; [|done|done|by right| |rewrite length_app; change (length (chars "AT+CMGS=")) with 8%nat; unfold IN_BUFF_SIZE; lia].
  2: { apply Forall_app. split; [by apply plain_bytes|]. eapply Forall_impl; [exact Hn|]. cbn. lia. }
  rewrite app_nil_r, driver_line_sends; cbn [md_in md_in_sms md_modem md_out].
  2: { apply Forall_app. split; [by repeat constructor|]. eapply Forall_impl; [exact Hn|]. cbn. lia. }
  2: { rewrite length_app. change (length (chars "AT+CMGS=")) with 8%nat. unfold IN_BUFF_SIZE. lia. }
  fold m. assert (amodem_send e (chars "AT+CMGS=" ++ n) m = Ret (Some (chars "> "), m1)) as ->.
  { unfold amodem_send. rewrite Hwait. reflexivity. }
  cbn [mbind outcome_bind]. change (false || bool_decide (Some (chars "> ") = Some (chars "> "))) with true.
  by assert (said m m1 = []) as -> by (unfold said; by rewrite drop_all).
Qed.


End Send.

Lemma example_surroundings_ok : surroundings_ok example_surroundings.
Proof.
  constructor; try done; [|by repeat constructor; unfold in_u; lia].
  constructor; cbn; intros n mem [= <-]; [by rewrite length_replicate|]. apply Forall_replicate. unfold in_u. lia.
Qed.

