(* ===== verification/NandImage.v ===== *)
(** How the NAND disks come to be: the argument of the option -nand, parsed by
    [nand_add_dev] of hw/android/goldfish/nand.c, the argument the emulator
    makes for a partition (vl-android.c), with the escapes of file names in it
    (android/utils/path.c), and the option -nand-limits. *)
From stdpp Require Import strings.
From S2P Require Import Prelude CStrings ByteStream QemuFile HostFile GoldfishTty GemTrace GuestMem Nand NandSpec RemoteCall AConfig.
Open Scope list_scope.

Definition COMMA : Z := 44.
Definition EQUALS : Z := 61.
Definition PERCENT : Z := 37.

(** ** File names in arguments *)

Fixpoint path_escape_path (src : list Z) : list Z :=
  match src with
  | [] => []
  | c :: src =>
      (if c =? EQUALS then [PERCENT; 69] else if c =? COMMA then [PERCENT; 67] else if c =? PERCENT then [PERCENT; 80] else [c])
      ++ path_escape_path src
  end.

(** A character behind the percent sign that is no escape is kept. *)
Fixpoint path_unescape_path (str : list Z) : list Z :=
  match str with
  | [] => []
  | c :: src =>
      if negb (c =? PERCENT) then c :: path_unescape_path src
      else
        match src with
        | 67 :: src => COMMA :: path_unescape_path src
        | 69 :: src => EQUALS :: path_unescape_path src
        | 80 :: src => PERCENT :: path_unescape_path src
        | _ => path_unescape_path src
        end
  end.

(** ** The argument of a device *)

(** [b_len] goes below zero, to a large number, when [b] ends first. *)
Fixpoint arg_match (a b : list Z) : bool :=
  match a, b with
  | [], [] => true
  | x :: a, y :: b => if x =? y then arg_match a b else false
  | _, _ => false
  end.

(** The text up to the first [c], and what follows it. *)
Fixpoint split_at (c : Z) (s : list Z) : list Z * option (list Z) :=
  match s with
  | [] => ([], None)
  | x :: s => if x =? c then ([], Some s) else let '(a, r) := split_at c s in (x :: a, r)
  end.

Record nand_args := mkArgs {
  a_devname : option (list Z);
  a_size : Z;
  a_page_size : Z;
  a_extra_size : Z;
  a_erase_pages : Z;
  a_initfilename : option (list Z);
  a_rwfilename : option (list Z);
  a_read_only : bool;
}.
Definition no_args : nand_args := mkArgs None 0 2048 64 64 None None false.

(** The whole of a value has to be a number, or it is empty. *)
Definition arg_number (value : list Z) : outcome Z :=
  match (read_number 0 value).2 with [] => Ret (strtoul_base 0 value) | _ => ExitProcess end.

(** One argument, [value] behind its equals sign. *)
Definition nand_arg (x : nand_args) (name : list Z) (value : option (list Z)) : outcome nand_args :=
  let 'mkArgs dn sz ps es ep ini rw ro := x in
  match dn, value with
  | None, Some _ => ExitProcess
  | None, None => Ret (mkArgs (Some name) sz ps es ep ini rw ro)
  | Some _, None => if arg_match (chars "readonly") name then Ret (mkArgs dn sz ps es ep ini rw true) else ExitProcess
  | Some _, Some v =>
      if arg_match (chars "size") name then n ← arg_number v; Ret (mkArgs dn n ps es ep ini rw ro)
      else if arg_match (chars "pagesize") name then n ← arg_number v; Ret (mkArgs dn sz (u32 n) es ep ini rw ro)
      else if arg_match (chars "extrasize") name then n ← arg_number v; Ret (mkArgs dn sz ps (u32 n) ep ini rw ro)
      else if arg_match (chars "erasepages") name then n ← arg_number v; Ret (mkArgs dn sz ps es (u32 n) ini rw ro)
      else if arg_match (chars "initfile") name then Ret (mkArgs dn sz ps es ep (Some (path_unescape_path v)) rw ro)
      else if arg_match (chars "file") name then Ret (mkArgs dn sz ps es ep ini (Some (path_unescape_path v)) ro)
      else ExitProcess
  end.

(** The loop over the arguments; [fuel] is one more than the length of the text. *)
Fixpoint nand_args_loop (fuel : nat) (x : nand_args) (arg : list Z) : outcome nand_args :=
  match fuel with
  | O => Ret x
  | S fuel =>
      let '(item, next_arg) := split_at COMMA arg in
      let '(name, value) := split_at EQUALS item in
      x ← nand_arg x name value;
      match next_arg with None => Ret x | Some arg => nand_args_loop fuel x arg end
  end.

(** ** The device *)

(** The host: what opening a file gives, for writing or not; the name of a
    temporary file; how large a file can grow; what fresh memory holds. *)
Record host := mkHost {
  h_open : list Z -> bool -> option (list Z);
  h_tempfile : option (list Z);
  h_room : Z;
  h_malloc : nat -> list Z;
}.

(** The initial contents are copied; [fuel] is one more than their length. *)
Fixpoint copy_init (fuel : nat) (erase : Z) (init rw : hfile) : outcome hfile :=
  match fuel with
  | O => Ret rw
  | S fuel =>
      let '(bs, init) := do_read init erase in
      let '(ret, rw) := do_write rw bs in
      if negb (ret =? Z.of_nat (length bs)) then ExitProcess
      else if Z.of_nat (length bs) =? erase then copy_init fuel erase init rw else Ret rw
  end.

(** [target_i386] tells for which guest the emulator is built. Allocating
    memory succeeds. The image's file is emptied before the initial file is
    opened, which matters when they are the same. *)
Definition nand_add_dev (target_i386 : bool) (h : host) (arg : list Z) (n : nand) : outcome nand :=
  x ← nand_args_loop (S (length arg)) no_args arg;
  rwname ← (match a_rwfilename x with
            | Some name => Ret name
            | None => match h_tempfile h with Some name => Ret name | None => ExitProcess end
            end);
  rw ← (match a_initfilename x with
        | Some _ => if a_read_only x then ExitProcess
                    else match h_open h rwname true with Some _ => Ret (mkFile [] 0 (h_room h)) | None => ExitProcess end
        | None => match h_open h rwname (negb (a_read_only x)) with Some bs => Ret (mkFile bs 0 (h_room h)) | None => ExitProcess end
        end);
  init ← (match a_initfilename x with
          | None => Ret None
          | Some name => match h_open h name false with
                         | Some bs => Ret (Some (mkFile (if decide (name = rwname) then [] else bs) 0 (h_room h)))
                         | None => ExitProcess
                         end
          end);
  let size := match init with Some f => if a_size x =? 0 then f_size f else a_size x | None => a_size x end in
  let erase := u32 (a_erase_pages x * u32 (a_page_size x + a_extra_size x)) in
  if erase =? 0 then CpuAbort
  else
    let pad := s32 (size mod erase) in
    let size := if nz pad then u64 (size + u32 (erase - pad)) else size in
    let flags := (if a_read_only x then NAND_DEV_FLAG_READ_ONLY else 0) .| (if target_i386 then NAND_DEV_FLAG_BATCH_CAP else 0) in
    rw ← (match init with None => Ret rw | Some f => copy_init (S (length (f_bytes f))) erase f rw end);
    Ret (mkN (ctl n) (devs n ++ [mkNand (default [] (a_devname x)) (h_malloc h (Z.to_nat erase)) (Some rw) flags (a_page_size x) (a_extra_size x) erase size])).

(** ** The argument of a partition *)

Definition PATH_MAX : Z := 4096.
Definition TMP_SIZE : Z := PATH_MAX * 2 + 32.

Definition pstrcat (buf_size : Z) (buf s : list Z) : list Z :=
  if Z.of_nat (length buf) <? buf_size then buf ++ take (Z.to_nat (buf_size - Z.of_nat (length buf) - 1)) s else buf.

Inductive AndroidPartitionType := ANDROID_PARTITION_TYPE_UNKNOWN | ANDROID_PARTITION_TYPE_YAFFS2 | ANDROID_PARTITION_TYPE_EXT4.
#[export] Instance AndroidPartitionType_eq_dec : EqDecision AndroidPartitionType.
Proof. solve_decision. Defined.

(** What [android_nand_add_image] makes of a partition whose file has been
    found and locked, or is temporary. *)
Definition image_arg (part_name : list Z) (part_type : AndroidPartitionType) (part_size : Z) (part_file : list Z) (part_init_file : option (list Z)) : list Z :=
  let tmp := take (Z.to_nat (TMP_SIZE - 1)) (part_name ++ chars ",size=0x" ++ hex_loop 16 (u64 part_size)) in
  let tmp := pstrcat TMP_SIZE (pstrcat TMP_SIZE tmp (chars ",file=")) (path_escape_path part_file) in
  let tmp := match part_init_file with
             | Some name => pstrcat TMP_SIZE (pstrcat TMP_SIZE tmp (chars ",initfile=")) (path_escape_path name)
             | None => tmp
             end in
  if decide (part_type = ANDROID_PARTITION_TYPE_EXT4) then pstrcat TMP_SIZE tmp (chars ",pagesize=512,extrasize=0") else tmp.

(** ** Limits *)

Record nand_threshold := mkThreshold { t_limit : Z; t_counter : Z; t_pid : Z; t_signal : Z }.

Definition parse_nand_rw_limit (value : list Z) : outcome Z :=
  match read_number 0 value with
  | (None, _) => ExitProcess
  | (Some _, rest) =>
      let val := strtoul_base 0 value in
      match rest with
      | [] => Ret val
      | c :: _ => if c =? 75 then Ret (u64 (val .<< 10)) else if c =? 77 then Ret (u64 (val .<< 20)) else if c =? 71 then Ret (u64 (val .<< 30)) else ExitProcess
      end
  end.

(** What follows a prefix. *)
Fixpoint after_prefix (p s : list Z) : option (list Z) :=
  match p, s with
  | [], _ => Some s
  | x :: p, y :: s => if x =? y then after_prefix p s else None
  | _ :: _, [] => None
  end.

(** A positive number up to the end. *)
Definition limit_number (s : list Z) : outcome Z :=
  let '(v, rest) := strtol_base 10 s in
  match rest with [] => if s32 v <=? 0 then ExitProcess else Ret (s32 v) | _ => ExitProcess end.

Fixpoint limits_loop (fuel : nat) (item : list Z) (pid signal reads writes : Z) : outcome (Z * Z * Z * Z) :=
  match fuel with
  | O => Ret (pid, signal, reads, writes)
  | S fuel =>
      match item with
      | [] => Ret (pid, signal, reads, writes)
      | _ =>
          let '(it, next) := split_at COMMA item in
          let next := default [] next in
          match after_prefix (chars "pid=") it, after_prefix (chars "signal=") it, after_prefix (chars "reads=") it, after_prefix (chars "writes=") it with
          | Some v, _, _, _ => p ← limit_number v; limits_loop fuel next p signal reads writes
          | None, Some v, _, _ => s ← limit_number v; limits_loop fuel next pid s reads writes
          | None, None, Some v, _ => r ← parse_nand_rw_limit v; limits_loop fuel next pid signal (s64 r) writes
          | None, None, None, Some v => w ← parse_nand_rw_limit v; limits_loop fuel next pid signal reads (s64 w)
          | None, None, None, None => ExitProcess
          end
      end
  end.

(** The read and the write threshold, when they are set; [fuel] is one more than
    the length of the text. *)
Definition parse_nand_limits (limits : list Z) : outcome (option (nand_threshold * nand_threshold)) :=
  '(pid, signal, reads, writes) ← limits_loop (S (length limits)) limits (-1) (-1) 0 0;
  if pid <? 0 then ExitProcess
  else if signal <? 0 then ExitProcess
  else if (reads =? 0) && (writes =? 0) then Ret None
  else Ret (Some (mkThreshold (u64 reads) 0 pid signal, mkThreshold (u64 writes) 0 pid signal)).

(** ** Escapes *)

Lemma unescape_escape s : path_unescape_path (path_escape_path s) = s.
Proof.
  induction s as [|c s IH]; [done|]. cbn [path_escape_path].
  destruct (Z.eqb_spec c EQUALS) as [->|H1]; [cbn; by rewrite IH|]. destruct (Z.eqb_spec c COMMA) as [->|H2]; [cbn; by rewrite IH|].
  destruct (Z.eqb_spec c PERCENT) as [->|H3]; [cbn; by rewrite IH|]. cbn [app path_unescape_path]. rewrite (proj2 (Z.eqb_neq c PERCENT) H3). cbn [negb]. by rewrite IH.
Qed.

Lemma escape_plain s c : c = COMMA \/ c = EQUALS -> c ∉ path_escape_path s.
Proof.
  intros Hc. induction s as [|x s IH]; [apply not_elem_of_nil|]. cbn [path_escape_path]. rewrite elem_of_app. intros [H|]; [|done].
  destruct (Z.eqb_spec x EQUALS), (Z.eqb_spec x COMMA), (Z.eqb_spec x PERCENT); unfold EQUALS, COMMA, PERCENT in *;
    repeat (apply elem_of_cons in H as [H|H]); try (by apply not_elem_of_nil in H); lia.
Qed.

(** ** Arguments and their parts *)

Lemma split_at_none c s : c ∉ s -> split_at c s = (s, None).
Proof.
  induction s as [|x s IH]; intros H; [done|]. cbn [split_at]. destruct (Z.eqb_spec x c) as [->|]; [set_solver|]. by rewrite IH by set_solver.
Qed.

Lemma split_at_some c a r : c ∉ a -> split_at c (a ++ c :: r) = (a, Some r).
Proof.
  induction a as [|x a IH]; intros H; cbn [app split_at]; [by rewrite Z.eqb_refl|]. destruct (Z.eqb_spec x c) as [->|]; [set_solver|]. by rewrite IH by set_solver.
Qed.

Fixpoint join_args (first : list Z) (rest : list (list Z)) : list Z :=
  match rest with [] => first | x :: rest => first ++ COMMA :: join_args x rest end.

Definition item_arg (x : nand_args) (item : list Z) : outcome nand_args := let '(name, value) := split_at EQUALS item in nand_arg x name value.

(** The arguments are taken one after the other. *)
Lemma args_each rest : forall fuel x first, (length rest < fuel)%nat -> Forall (fun i => COMMA ∉ i) (first :: rest) ->
  nand_args_loop fuel x (join_args first rest) = foldM item_arg x (first :: rest).
Proof.
  induction rest as [|y rest IH]; intros [|fuel] x first Hf Hc; try (simpl in Hf; lia); apply Forall_cons in Hc as [H1 Hc]; cbn [nand_args_loop join_args].
  - rewrite split_at_none by done. cbn [foldM]. unfold item_arg. by destruct (split_at EQUALS first).
  - rewrite split_at_some by done. change (foldM item_arg x (first :: y :: rest)) with (b ← item_arg x first; foldM item_arg b (y :: rest)).
    assert (item_arg x first = let '(name, value) := split_at EQUALS first in nand_arg x name value) as -> by done. destruct (split_at EQUALS first) as [name value].
    destruct (nand_arg x name value) as [x'| | | | |]; [|done..]. cbn [mbind outcome_bind]. apply IH; [simpl in Hf; lia|done].
Qed.

Lemma length_join_args first rest : (length rest <= length (join_args first rest))%nat.
Proof. revert first. induction rest as [|y rest IH]; intros first; cbn [join_args length]; [lia|]. rewrite length_app. cbn [length]. specialize (IH y). lia. Qed.

Lemma item_plain x name : EQUALS ∉ name -> item_arg x name = nand_arg x name None.
Proof. intros H. unfold item_arg. by rewrite split_at_none. Qed.

Lemma item_value x name value : EQUALS ∉ name -> item_arg x (name ++ EQUALS :: value) = nand_arg x name (Some value).
Proof. intros H. unfold item_arg. by rewrite split_at_some. Qed.

(** ** Numbers *)

Lemma digit_hexdigit v : 0 <= v < 16 -> digit_of 16 (hexdigit v) = Some v.
Proof.
  intros Hv. assert (v = 0 \/ v = 1 \/ v = 2 \/ v = 3 \/ v = 4 \/ v = 5 \/ v = 6 \/ v = 7 \/ v = 8 \/ v = 9 \/ v = 10 \/ v = 11 \/ v = 12 \/ v = 13 \/ v = 14 \/ v = 15) as H by lia.
  repeat (destruct H as [->|H]; [done|]). by subst.
Qed.

Lemma read_hex fuel : forall v r, 0 <= v < 16 ^ Z.of_nat fuel -> (0 < fuel)%nat -> read_base 16 (hex_loop fuel v ++ r) 0 = read_base 16 r v.
Proof.
  induction fuel as [|fuel IH]; intros v r Hv Hf; [lia|]. cbn [hex_loop]. destruct (Z.ltb_spec v 16) as [Hs|Hs].
  - cbn [app read_base]. by rewrite digit_hexdigit by lia.
  - rewrite <- app_assoc. replace (16 ^ Z.of_nat (S fuel)) with (16 * 16 ^ Z.of_nat fuel) in Hv by (rewrite Nat2Z.inj_succ, Z.pow_succ_r by lia; lia).
    change 15 with (Z.ones 4). rewrite Z.shiftr_div_pow2, Z.land_ones by lia. change (2 ^ 4) with 16.
    pose proof (Z.div_mod v 16 ltac:(lia)). pose proof (Z.mod_pos_bound v 16 ltac:(lia)).
    rewrite IH; [|lia|destruct fuel; [simpl in Hv; lia|lia]]. cbn [app read_base]. rewrite digit_hexdigit by lia. f_equal. lia.
Qed.

Lemma hex_loop_digits fuel : forall v, 0 <= v -> Forall (fun c => 48 <= c <= 57 \/ 97 <= c <= 102) (hex_loop fuel v).
Proof.
  assert (forall d, 0 <= d < 16 -> 48 <= hexdigit d <= 57 \/ 97 <= hexdigit d <= 102) as Hd by (intros d; unfold hexdigit; destruct (Z.ltb_spec d 10); lia).
  induction fuel as [|fuel IH]; intros v Hv; cbn [hex_loop]; [done|]. destruct (Z.ltb_spec v 16); [apply Forall_singleton, Hd; lia|].
  apply Forall_app. split; [apply IH; apply Z.shiftr_nonneg; lia|]. apply Forall_singleton, Hd. change 15 with (Z.ones 4). rewrite Z.land_ones by lia. apply Z.mod_pos_bound. lia.
Qed.

Lemma hex_loop_first fuel v : (0 < fuel)%nat -> 0 <= v -> exists c r, hex_loop fuel v = c :: r /\ (48 <= c <= 57 \/ 97 <= c <= 102).
Proof.
  intros Hf Hv. pose proof (hex_loop_digits fuel v Hv) as H. destruct (hex_loop fuel v) as [|c r] eqn:E.
  - destruct fuel; [lia|]. cbn [hex_loop] in E. destruct (v <? 16); [done|]. by apply app_eq_nil in E as [_ ?].
  - apply Forall_cons in H as [H _]. by exists c, r.
Qed.

(** [%#x] is read back. *)
Lemma hex_number v : in_u 64 v -> read_number 0 (48 :: 120 :: hex_loop 16 v) = (Some (false, v), []).
Proof.
  intros [H0 H1]. destruct (hex_loop_first 16 v ltac:(lia) H0) as (c & r & E & Hc). unfold read_number. change (skip_spaces (48 :: ?s)) with (48 :: s). cbv iota.
  rewrite E. assert (exists d, digit_of 16 c = Some d) as [d Ed].
  { unfold digit_of. destruct (Z.leb_spec 48 c), (Z.leb_spec c 57), (Z.leb_spec 97 c), (Z.leb_spec c 122); cbn [andb]; try lia;
      (rewrite (proj2 (Z.ltb_lt _ 16)) by lia; by eexists). }
  rewrite Ed. cbn [drop]. change ((48 =? 48) && ((120 =? 120) || (120 =? 88)) && bool_decide (is_Some (Some d))) with (bool_decide (is_Some (Some d))).
  rewrite bool_decide_true by by eexists. cbn [andb orb Z.eqb]. rewrite Ed. rewrite <- E.
  pose proof (read_hex 16 v [] ltac:(change (16 ^ Z.of_nat 16) with (2 ^ 64); lia) ltac:(lia)) as Er. rewrite app_nil_r in Er. rewrite Er. done.
Qed.

Lemma hex_arg v : in_u 64 v -> arg_number (48 :: 120 :: hex_loop 16 v) = Ret v.
Proof.
  intros Hv. unfold arg_number, strtoul_base. rewrite hex_number by done. cbn [fst snd]. destruct Hv. rewrite (proj2 (Z.leb_gt _ _)) by lia. by rewrite wrap_small.
Qed.

(** ** A partition's disk *)

Lemma copy_init_all fuel : forall erase init rw, 0 < erase -> 0 <= f_pos init <= f_size init -> 0 <= f_pos rw ->
  f_pos rw + (f_size init - f_pos init) <= f_room rw -> f_size init - f_pos init < Z.of_nat fuel ->
  copy_init fuel erase init rw = Ret (file_put rw (drop (Z.to_nat (f_pos init)) (f_bytes init))).
Proof.
  induction fuel as [|fuel IH]; intros erase init rw He Hp Hrw Hroom Hf; [lia|]. cbn [copy_init]. unfold do_read, f_size in *.
  set (p := f_pos init) in *. set (rest := drop (Z.to_nat p) (f_bytes init)). set (bs := range (f_bytes init) p erase).
  assert (bs = take (Z.to_nat erase) rest) as Ebs by done. assert (Z.of_nat (length rest) = Z.of_nat (length (f_bytes init)) - p) as Er by (unfold rest; rewrite length_drop; lia).
  assert (length bs <= length rest)%nat by (rewrite Ebs, length_take; lia). rewrite do_write_room, Z.eqb_refl by lia. cbn [negb].
  destruct (Z.eqb_spec (Z.of_nat (length bs)) erase) as [Efull|Eshort].
  - rewrite IH; [|done|cbn; lia|cbn; lia|cbn; lia|cbn; lia]. cbn [f_pos f_bytes with_pos]. rewrite file_put_app by done. do 2 f_equal.
    rewrite <- (take_drop (Z.to_nat erase) rest), <- Ebs. unfold rest. rewrite drop_drop. do 2 f_equal. lia.
  - do 2 f_equal. rewrite Ebs in *. rewrite firstn_all2; [done|]. rewrite length_take in Eshort. lia.
Qed.

Lemma pstrcat_fits size buf s : Z.of_nat (length buf + length s) < size -> pstrcat size buf s = buf ++ s.
Proof.
  intros H. unfold pstrcat. rewrite (proj2 (Z.ltb_lt _ _)) by lia. rewrite firstn_all2 by lia. done.
Qed.

(** The parts of a partition's argument. *)
Definition image_items (part_type : AndroidPartitionType) (part_size : Z) (part_file : list Z) (part_init_file : option (list Z)) : list (list Z) :=
  [chars "size" ++ EQUALS :: 48 :: 120 :: hex_loop 16 part_size; chars "file" ++ EQUALS :: path_escape_path part_file]
  ++ match part_init_file with Some name => [chars "initfile" ++ EQUALS :: path_escape_path name] | None => [] end
  ++ (if decide (part_type = ANDROID_PARTITION_TYPE_EXT4) then [chars "pagesize=512"; chars "extrasize=0"] else []).

Lemma image_arg_items name type size file init : in_u 64 size ->
  Z.of_nat (length (join_args name (image_items type size file init))) < TMP_SIZE ->
  image_arg name type size file init = join_args name (image_items type size file init).
Proof.
  intros Hs Hl. unfold image_arg. rewrite (wrap_small 64) by done. set (T := TMP_SIZE) in *. clearbody T. set (H := hex_loop 16 size) in *. set (E := path_escape_path file) in *.
  change (chars ",size=0x") with (COMMA :: chars "size" ++ [EQUALS; 48; 120]). change (chars ",file=") with (COMMA :: chars "file" ++ [EQUALS]).
  change (chars ",initfile=") with (COMMA :: chars "initfile" ++ [EQUALS]). change (chars ",pagesize=512,extrasize=0") with (COMMA :: chars "pagesize=512" ++ COMMA :: chars "extrasize=0").
  unfold image_items in *. fold H E in Hl |- *. clearbody H E.
  destruct init as [i|], (decide (type = ANDROID_PARTITION_TYPE_EXT4)); cbn [app join_args] in *;
    repeat (rewrite ?length_app in Hl; cbn [length] in Hl);
    rewrite (firstn_all2 (name ++ _)) by (repeat (rewrite ?length_app; cbn [length]); lia);
    repeat match goal with |- context [pstrcat T ?b ?s] =>
             lazymatch b with context [pstrcat] => fail | _ => rewrite (pstrcat_fits T b s) by (repeat (rewrite ?length_app; cbn [length]); lia) end end;
    repeat (rewrite <- ?app_assoc; cbn [app]); done.
Qed.

Definition geometry (type : AndroidPartitionType) : Z * Z := if decide (type = ANDROID_PARTITION_TYPE_EXT4) then (512, 0) else (2048, 64).

Lemma image_items_plain type size file init : 0 <= size -> Forall (fun i => COMMA ∉ i) (image_items type size file init).
Proof.
  intros Hs. assert (forall c, 97 <= c \/ 48 <= c <= 57 -> c <> COMMA) as Hc by (unfold COMMA; lia).
  assert (COMMA ∉ hex_loop 16 size) as Hh.
  { intros Hin. pose proof (hex_loop_digits 16 size Hs) as Hd. rewrite Forall_forall in Hd. specialize (Hd _ Hin). unfold COMMA in Hd. lia. }
  pose proof (escape_plain file COMMA (or_introl eq_refl)) as Hf.
  assert (forall s, COMMA ∉ chars s -> forall r, COMMA ∉ r -> COMMA ∉ chars s ++ EQUALS :: r) as Hi.
  { intros s H1 r H2. rewrite elem_of_app, elem_of_cons. intros [|[|]]; done. }
  assert (forall s, bool_decide (COMMA ∈ chars s) = false -> COMMA ∉ chars s) as Hd by (intros s Hb; by apply bool_decide_eq_false in Hb).
  unfold image_items. repeat apply Forall_app_2.
  - repeat constructor; [apply Hi; [by apply Hd|]|apply Hi; [by apply Hd|done]]. rewrite !elem_of_cons. intros [|[|]]; done.
  - destruct init as [i|]; [|done]. apply Forall_singleton, Hi; [by apply Hd|]. apply escape_plain. by left.
  - case_decide; [|done]. repeat constructor; by apply Hd.
Qed.

Lemma image_items_args name type size file init : in_u 64 size -> EQUALS ∉ name ->
  foldM item_arg no_args (name :: image_items type size file init)
  = Ret (mkArgs (Some name) size (geometry type).1 (geometry type).2 64 init (Some file) false).
Proof.
  intros Hs Hn. assert (forall s, bool_decide (EQUALS ∈ chars s) = false -> EQUALS ∉ chars s) as Hd by (intros s Hb; by apply bool_decide_eq_false in Hb).
  assert (forall dn sz ps es ep ini rw ro v, nand_arg (mkArgs (Some dn) sz ps es ep ini rw ro) (chars "size") (Some v)
    = n ← arg_number v; Ret (mkArgs (Some dn) n ps es ep ini rw ro)) as Esize by reflexivity.
  assert (forall dn sz ps es ep ini rw ro v, nand_arg (mkArgs (Some dn) sz ps es ep ini rw ro) (chars "file") (Some v)
    = Ret (mkArgs (Some dn) sz ps es ep ini (Some (path_unescape_path v)) ro)) as Efile by reflexivity.
  assert (forall dn sz ps es ep ini rw ro v, nand_arg (mkArgs (Some dn) sz ps es ep ini rw ro) (chars "initfile") (Some v)
    = Ret (mkArgs (Some dn) sz ps es ep (Some (path_unescape_path v)) rw ro)) as Einit by reflexivity.
  assert (forall dn sz ps es ep ini rw ro, item_arg (mkArgs (Some dn) sz ps es ep ini rw ro) (chars "pagesize=512")
    = Ret (mkArgs (Some dn) sz 512 es ep ini rw ro)) as Epage by reflexivity.
  assert (forall dn sz ps es ep ini rw ro, item_arg (mkArgs (Some dn) sz ps es ep ini rw ro) (chars "extrasize=0")
    = Ret (mkArgs (Some dn) sz ps 0 ep ini rw ro)) as Eextra by reflexivity.
  cbn [foldM]. rewrite item_plain by done. cbn [nand_arg no_args mbind outcome_bind]. unfold image_items, geometry. cbn [app foldM].
  rewrite item_value, Esize, hex_arg by (done || by apply Hd). cbn [mbind outcome_bind].
  rewrite item_value, Efile, unescape_escape by by apply Hd. cbn [mbind outcome_bind].
  destruct init as [i|]; cbn [app foldM]; rewrite ?item_value, ?Einit, ?unescape_escape by (by apply Hd); cbn [mbind outcome_bind];
    case_decide; cbn [foldM]; rewrite ?Epage; cbn [mbind outcome_bind]; rewrite ?Eextra; done.
Qed.

(** A partition becomes the disk that was asked for. The argument the
    emulator writes for a partition, whatever characters the names of its files
    have, is parsed by [nand_add_dev] into one more device: it has the
    partition's name and geometry, its size rounded up to full erase units, and
    as its image the file of the partition, or a copy of the initial file. *)
Theorem partition_becomes_disk t386 h name type size file init bs ibs n :
  in_u 64 size -> COMMA ∉ name -> EQUALS ∉ name -> Z.of_nat (length (join_args name (image_items type size file init))) < TMP_SIZE ->
  let erase := 64 * ((geometry type).1 + (geometry type).2) in
  size + erase <= 2 ^ 64 -> h_open h file true = Some bs ->
  match init with Some i => 0 < size /\ i <> file /\ h_open h i false = Some ibs /\ Z.of_nat (length ibs) <= h_room h | None => True end ->
  exists d, nand_add_dev t386 h (image_arg name type size file init) n = Ret (mkN (ctl n) (devs n ++ [d]))
    /\ devname d = name /\ (page_size d, extra_size d) = geometry type /\ erase_size d = erase
    /\ (erase | max_size d) /\ size <= max_size d < size + erase
    /\ image_of d = (match init with Some _ => ibs | None => bs end) /\ nz (nd_flags d .& NAND_DEV_FLAG_READ_ONLY) = false.
Proof.
  intros Hs Hc He Hl erase Hov Hopen Hinit. assert (0 < erase < 2 ^ 31) as Her by (unfold erase, geometry; case_decide; cbn; lia).
  unfold nand_add_dev. rewrite image_arg_items by done.
  rewrite args_each; [|pose proof (length_join_args name (image_items type size file init)); lia|constructor; [done|apply image_items_plain, Hs]].
  rewrite image_items_args by done. cbn [mbind outcome_bind a_rwfilename a_initfilename a_read_only a_size a_page_size a_extra_size a_erase_pages a_devname].
  assert (u32 (64 * u32 ((geometry type).1 + (geometry type).2)) = erase) as -> by (unfold erase, geometry; by case_decide).
  rewrite (proj2 (Z.eqb_neq erase 0)) by lia. pose proof (Z.mod_pos_bound size erase ltac:(lia)) as Hm. pose proof (Z.div_mod size erase ltac:(lia)) as Hdm.
  set (mx := if nz (size mod erase) then u64 (size + u32 (erase - size mod erase)) else size).
  assert ((erase | mx) /\ size <= mx < size + erase) as [Hdiv Hmx].
  { unfold mx, nz. destruct (Z.eqb_spec (size mod erase) 0) as [E|E]; cbn [negb]; [split; [by apply Z.mod_divide; [lia|]|lia]|].
    rewrite (wrap_small 32), (wrap_small 64) by (unfold in_u; destruct Hs; lia). split; [|lia]. exists (size / erase + 1). lia. }
  assert (forall b, nz ((0 .| (if b : bool then NAND_DEV_FLAG_BATCH_CAP else 0)) .& NAND_DEV_FLAG_READ_ONLY) = false) as Hflags by by intros [].
  destruct init as [i|].
  - destruct Hinit as (Hpos & Hne & Hio & Hroom). rewrite Hopen, Hio. cbn [mbind outcome_bind]. rewrite decide_False by done. rewrite (proj2 (Z.eqb_neq size 0)), (swrap_small 32) by (unfold in_s; lia).
    cbn [f_bytes]. rewrite (copy_init_all (S (length ibs)) erase (mkFile ibs 0 (h_room h)) (mkFile [] 0 (h_room h))) by (unfold f_size; cbn; lia). cbn [mbind outcome_bind].
    eexists. split; [done|]. cbn [devname page_size extra_size erase_size max_size nd_flags]. fold mx. split_and!; try done; [by destruct (geometry type)|lia|lia|].
    unfold image_of. cbn [nd_fd f_bytes file_put f_pos]. change (drop (Z.to_nat 0) ibs) with ibs. unfold image_put. case_decide as E; [done|]. unfold blit. cbn. destruct (length ibs); cbn; by rewrite app_nil_r.
  - cbn [negb]. rewrite Hopen. cbn [mbind outcome_bind]. rewrite (swrap_small 32) by (unfold in_s; lia). eexists. split; [done|]. cbn [devname page_size extra_size erase_size max_size nd_flags]. fold mx.
    split_and!; try done; [by destruct (geometry type)|lia|lia].
Qed.

Definition example_host : host :=
  mkHost (fun name _ => if decide (name = chars "/a,b=c%") then Some [1; 2] else if decide (name = chars "/init") then Some [7; 8; 9] else None) None 1000 (fun n => replicate n 0).

Lemma partition_becomes_disk_witness :
  exists d, nand_add_dev false example_host (image_arg (chars "data") ANDROID_PARTITION_TYPE_EXT4 70000 (chars "/a,b=c%") (Some (chars "/init"))) example_nand
      = Ret (mkN (ctl example_nand) (devs example_nand ++ [d]))
    /\ image_of d = [7; 8; 9] /\ erase_size d = 32768 /\ 70000 <= max_size d < 70000 + 32768.
Proof.
  destruct (partition_becomes_disk false example_host (chars "data") ANDROID_PARTITION_TYPE_EXT4 70000 (chars "/a,b=c%") (Some (chars "/init")) [1; 2] [7; 8; 9] example_nand)
    as (d & E & _ & _ & Ee & _ & Hmx & Ei & _).
  - unfold in_u. lia.
  - apply (bool_decide_unpack _). vm_compute. exact I.
  - apply (bool_decide_unpack _). vm_compute. exact I.
  - vm_compute. reflexivity.
  - vm_compute. congruence.
  - reflexivity.
  - split; [lia|]. split; [vm_compute; congruence|]. split; [reflexivity|]. vm_compute. congruence.
  - exists d. split; [exact E|]. split; [exact Ei|]. split; [exact Ee|exact Hmx].
Defined.
